(* ===== verification/_CoqProject ===== *)
-Q . S2P
Prelude.v
Utils.v
CacheBlock.v
CacheBase.v
Replacement.v
PolicyLru.v
PolicyMisc.v
PolicySrrip.v
PolicyAny.v
CacheSet.v
Cache.v
Tlb.v
SwLlc.v
BranchTables.v
LoopPredictor.v
BranchPredictor.v
Queues.v
Directory.v
DirectoryCntlr.v
DirectoryInv.v
DirectoryTerm.v
DirectoryFlow.v
Nuca.v
DirectoryProps.v
Sync.v
SyncInv.v
SyncProps.v
Hierarchy.v
HierView.v
HierLower.v
HierInsert.v
HierMsg.v
HierInv.v
HierReq.v
HierOps.v
MemoryManager.v
MemoryWire.v
Core.v
CoreLines.v
CoreProps.v
SystemProps.v
HierProps.v
CoreTheorems.v
Sift.v
SiftLink.v
SiftSession.v
SiftProps.v
Timing.v
QueueLemmas.v
TimingProps.v
Network.v
NetworkLemmas.v
NetworkProps.v
MicroOp.v
DecodeProps.v
Dependencies.v
RobContention.v
RobTimer.v
RobDeps.v
RobEntries.v
RobWake.v
RobEnter.v
RobInv.v
RobArrive.v
RobIssue.v
RobWindow.v
RobDispatch.v
RobCommit.v
RobCycle.v
RobExecute.v
RobSim.v
RobHistory.v
RobRun.v
RobModels.v
RobProps.v
RobDemo.v
PerfModel.v
PerfFill.v
PerfProps.v
Prefetcher.v
