(* ===== verification/Prelude.v ===== *)
(** * A verification of the memory system, the dead-page and dead-block
      predictors, the out-of-order core, the branch predictors, the
      synchronisation server, the network, the delay models and the trace format
      of the simulator

    The repository is the Sniper multi-core simulator with two predictors added
    to it: dpPred, which lets the last-level TLB bypass pages it expects to be
    dead, and cbPred, which lets a software model of the last-level cache bypass
    blocks of such pages.  A core translates an address through its TLBs and
    then accesses its caches; a miss in the last-level cache is a message to the
    directory controller at the home node of the address, which asks other caches
    for the line, or the NUCA cache and DRAM, and answers.  Messages travel over
    one of four network models; queue and contention models say how long links,
    buses and DRAM keep a request waiting.  The core itself is a timing model: the
    instructions that were executed elsewhere are decoded into micro-operations,
    which go through a reorder buffer that says when each of them is dispatched,
    issued and committed.  Beside this stand the branch predictors, the server that implements the
    application's mutexes, condition variables and barriers, and the trace over
    which an instrumented program and the simulator talk.

    ** Files and sources

    Paths are relative to src/common; [mem] is core/memory_subsystem.

    - Prelude: the error monad, machine integers, arrays, tactics and hints.
    - Utils: misc/utils, rng.h, random.h, [mem]/address_home_lookup.
    - CacheBlock, CacheBase, CacheSet, Cache: [mem]/cache/cache_block_info and its
      subclasses, cache_base, cache_set, cache.  A cache is a list of sets, a set
      a list of ways (the line meta-data) with an optional block of memory.
    - Replacement, PolicyLru, PolicyMisc, PolicySrrip, PolicyAny: the replacement
      policies of [mem]/cache (cache_set_lru, _mru, _nmru, _nru, _plru, _random,
      _round_robin, _srrip).  [Replacement] states the interface as classes
      ([ReplacementPolicy], its laws, and when a policy always finds a victim);
      the cache is proved correct against it and each policy is an instance.
    - Tlb: [mem]/parametric_dram_directory_msi/tlb.cc (TLB and dpPred).
    - SwLlc: the part of cache_cntlr.cc there that is cbPred.
    - Prefetcher: the prefetchers of [mem]/parametric_dram_directory_msi
      (simple_prefetcher.cc, ghb_prefetcher.cc), instances of one interface.
    - BranchTables, LoopPredictor, BranchPredictor:
      performance_model/branch_predictor.cc and branch_predictors/.
    - Queues: misc/circular_queue.h and [mem]/cache/req_queue_list_template.h.
    - Directory: [mem]/directory_schemes and
      [mem]/pr_l1_pr_l2_dram_directory_msi/dram_directory_cache.cc.
    - DirectoryCntlr: dram_directory_cntlr.cc, every handler, with the NUCA cache
      as an interface ([NucaCache] with the laws [NucaLaws]); Nuca
      ([mem]/parametric_dram_directory_msi/nuca_cache.cc) is its instance.
      DirectoryInv, DirectoryTerm, DirectoryFlow: the invariant, the termination
      measure and the course of a request; DirectoryProps: their consequences.
    - Sync, SyncInv, SyncProps: system/sync_server.cc and the stalling and
      resuming of threads in system/thread_manager.cc.
    - Hierarchy: [mem]/parametric_dram_directory_msi/cache_cntlr.cc: the
      controllers of all caches with the caches they share, the operations of a
      core, the requests between levels and the messages of the directory.
      HierView looks at the hierarchy as a map from caches and blocks to states;
      HierLower, HierInsert, HierMsg, HierInv, HierReq and HierOps show what each
      operation does to it and that it keeps the invariant [hinv]; HierProps has
      the theorems.
    - MemoryManager: memory_manager.cc there: construction and linking of the
      controllers, and the accesses of a core through the TLBs; MemoryWire: the
      hierarchy it builds.
    - Core: core/core.cc: the cutting of accesses at block borders and the
      instruction fetch, against the interface [MemorySystem] with the laws
      [MemoryLaws] (CoreProps), of which the memory managers are the instance;
      CoreLines and CoreTheorems have the lemmas and theorems.
    - SystemProps: the whole machine, run by sequences of fetches and accesses.
    - Timing: misc/subsecond_time.h, modulo_num, moving_average.h and
      performance_model/contention_model, queue_model and its subclasses, and
      dram_perf_model: times, and the models that compute delays.  QueueLemmas and
      TimingProps: lemmas and theorems.
    - Network: network/network.cc and the four network models; [NetworkModel] is
      the interface sending and forwarding are written against, and each model an
      instance.  NetworkLemmas and NetworkProps: the way of a packet through the
      mesh, and the theorems.
    - MicroOp: performance_model/performance_models/micro_op/micro_op,
      instruction_decoder_wlib and dynamic_micro_op, with doSquashing of
      micro_op_performance_model.cc: what an instruction decodes to, against the
      interface [Decoder] of the disassembler, and the dependencies of a micro-
      operation.  DecodeProps: what decoding gives.
    - Dependencies: register_dependencies.cc and memory_dependencies.cc there.
    - RobContention: performance_models/core_model and the classes
      RobContentionNehalem and RobContentionBoomV1: latencies, ports and units of
      the two core models, as instances of the interface [RobContention]; their
      laws are the class [RobContentionLaws], of which RobModels has the instances.
    - RobTimer: rob_performance_model/rob_timer.cc: entering the buffer, dispatch,
      issue, commit and the skipping of cycles in which nothing happens; the data
      cache is the interface [DataMemory].  RobDeps, RobEntries, RobWake and
      RobEnter say what the helpers do to dependencies and entries; RobInv has the
      invariant [inv] of the buffer; RobArrive, RobIssue, RobWindow,
      RobDispatch and RobCommit show that each step keeps it; RobCycle,
      RobExecute and RobSim that a cycle makes progress or waits for a time that
      comes; RobHistory and RobRun what is true of the times of everything that
      has gone through the buffer; RobProps has the theorems and RobDemo runs a
      small machine.
    - PerfModel: performance_model.cc, dynamic_instruction.cc, instruction.cc and
      performance_models/micro_op_performance_model.cc, rob_performance_model.cc:
      an instruction is queued, its micro-operations get the latency of the fetch,
      the accesses of its operands and the answer of the branch predictor, and the
      buffer says how much time passes; pseudo-instructions and idle time.  The
      caches are the interfaces [DataMemory] and [InstructionMemory], the
      predictor is that of BranchPredictor.  PerfFill: the micro-operations of an
      instruction from creation to the buffer, and what squashing leaves of them;
      PerfProps: a whole program, and an example of one.
    - Sift: the trace format of src/sift: sift_writer.cc, sift_reader.cc and
      sift_format.h, byte for byte, as two ends of a pair of streams.  SiftLink:
      what one record does to both ends; SiftSession: a whole session against
      the direct call of the simulator's handlers; SiftProps: the theorems.

    Each file keeps the names of the source; a method becomes a function of the
    state of its object to a [result] with the new state.

    ** What is proved

    The conditions of the theorems are in their comments; the main ones are
    repeated under the modelling choices below.

    - Caches, for numbers of sets their hash supports, without address home lookup
      and fault injection: the tag, set and offset of an address determine it; in
      every cache reached by accesses, invalidations and insertions of missing
      blocks a valid line is in the set of its address, is found there and is there
      only once, and every way has the class its constructor chose; a line inserted
      by a policy that always finds a victim hits and at most the reported line
      leaves; invalidation and access change what they should and nothing else;
      bytes written are read back.
    - Replacement: LRU with one attempt refines a recency stack, SRRIP evicts a most
      distant line, every policy but round robin fills invalid ways first, round
      robin ends.
    - TLB: any sequence of translations runs without an error and within the
      configured table sizes; a page is bypassed exactly when it is predicted
      dead, and not again while it is in the shadow table, where it stays for as
      many accesses as the table has entries; a miss trains the counter of the page
      it evicts and no other; misses are allocations or bypasses.
    - cbPred: hits and fills follow a recency stack per set; any accesses are served
      with the counters within bounds, up to a miss in the last set when it is full;
      what a bypass in the TLB means for the blocks of the page; a miss in a full
      set writes beyond it.
    - Branch predictors: every sequence of branches runs without an error; the
      loop predictor predicts a loop of constant length after one pass.
    - Prefetchers: any accesses to user addresses are answered within the
      configured limits; the global history buffer follows a constant stride.
    - Queues: the ring buffer refines a bounded first-in first-out list.
    - Directory: a modified or exclusive line has one holder, its owner, in every
      reachable state; every handler ends; an exclusive request completes
      whatever the order of the replies.
    - Synchronisation: no thread is lost or queued twice; a held mutex keeps its
      owner; waiters are served in order; a full barrier releases everyone.
    - Hierarchy, with direct DRAM access and cbPred off: every operation of a core
      completes with the rights it needs; a write request takes the block from all
      other caches; a reader of a block another core has written gets the right to
      write it while the other keeps its copy; the memory managers build the
      intended tree of controllers.  With a directory: its requests lower the block
      in the whole hierarchy, except in the two states the theorem names.
    - Core: an access touches every byte once, in accesses that stay within
      blocks; a fetch accesses at most one line.
    - Machine, with direct DRAM access and cbPred off: any sequence of fetches and
      accesses of any number of cores, from construction on, runs to its end with
      the caches kept inclusive.
    - Delays: requests in order are served by at most as many units as there are,
      and not delayed without need; the data bus of a DRAM controller with a
      history list is never given to two accesses at once; requests that do not
      fit a free interval leave one that is never used up.
    - Network, without queue models or with those that cannot fail: any sequence of
      packets to one core each arrives, with the latency of its hops; broadcasts in
      the tree never end; memory controllers get different nodes.
    - Core model, within the limits below: no call fails or loops; micro-operations
      commit in order, none lost or twice, at most [commitWidth] at a time, and none
      is issued before what it reads has been produced; an instruction decodes to
      loads, executes and stores that depend on each other in this order.  A core
      with decoder, fetch, branch predictor and buffer runs any program of
      instructions within these limits: what commits is what they decode to without
      the repeated accesses to a line, in order.
    - Trace: a session of a program and the simulator over an uncompressed trace
      is the same as calling the handlers of the simulator directly.

    ** Modelling choices

    Machine integers are [Z] with the wrap-around written out ([u8] to [u64]).
    Asserts are live, as the build does not define NDEBUG; a failed check, an
    exception and an undefined access are values of [failure].  Recursion that is
    not structural takes fuel: SRRIP ages at most [2^bits] rounds, round robin
    makes at most one turn of the set, the directory controller recurses at most
    once per queued request of the address.  Each of these bounds is shown to
    suffice, so that [OutOfFuel] never occurs.  The recursion from cache to cache
    takes [depth], one more than there are controllers, and the loop over the
    lines of an access [rounds], more than the lines it touches; the one access
    for which no fuel suffices is a theorem of its own.

    The operations of the hierarchy are executed one at a time: a thread that
    waits for the directory is kept in the state and runs on when the reply is
    handled, but two operations do not interleave, which is what the locks of the
    source are for.  The theorems about whole runs of the hierarchy are for direct
    DRAM access, at most four levels, and cbPred switched off, since cbPred writes
    outside its tables (a theorem of SwLlc); the handlers of directory messages
    are defined for every state and their theorems are for one message.

    A trace session alternates: the simulator reads all that a call has written
    before the next call, as the two wait for each other.  What the program is
    (its code, the page map of the kernel, its memory) and what the simulator's
    handlers do are parameters.  The session theorem is for calls that fit the
    fields of the records; the calls that do not are theorems of their own.

    Delays are computed in 64 bits and wrap around; the theorems about them bound
    the times of a run so that they do not.  A packet is followed through the mesh
    with fuel for the width and the height, which is shown to suffice; its theorem
    is for networks without queue models or with the models that cannot fail,
    "contention" and "basic" without a moving average.  The history list is left
    out there: it is made for requests no longer than its shortest interval, and
    packets are longer than one flit.

    The reorder buffer is the list of its entries, as Queues shows that a ring
    buffer is one, and a pointer to an entry the number of its micro-operation.
    Its theorems are for configurations with [config_ok] (widths and queues of at
    least 1, a window of at most 769, so that the table of stores in flight, which
    has 1024 cells, does not overflow) and for calls with [calls_ok]: a micro-
    operation of a call has registers and latencies in range, at most six
    dependencies, depends within its instruction only on micro-operations before
    those of its kind, and a load is no barrier.  RobDemo shows what happens
    otherwise for two executes.  A call of [simulate] takes at most [cycle_bound]
    rounds, three for each of 1024 entries and each a wait of at most
    [longest_wait] cycles; the theorems are for runs that end [horizon] before the
    largest time, beyond which the additions of the source wrap around.

    The theorem about programs is for instructions with [ins_ok]: their micro-
    operations are those of [decode], with at most two executes that do not feed
    each other, and their memory operands have a matching access each.

    ** Not modelled

    The other core models (the version of the reorder buffer for hardware threads,
    the interval model and the one-cycle model), the fast-forward model and the
    clients of the clock skew; the time the cache controllers add up, and the
    serialisation and dispatch of coherence messages; the models that compute with
    floating-point numbers; statistics, configuration files and logging, which
    are input and output; schedulers, system calls, and the instrumentation front
    ends; the compression of traces, which is zlib's; vendored code.

    ** This file

    The error monad and its notation in [sim_scope], failures, machine integers,
    arrays, the tactics [inv_ok], [halts_auto] and the hint database [sim]. *)
From stdpp Require Import base numbers list gmap strings.
From Stdlib Require Import ZArith Lia Bool.

#[global] Set Default Goal Selector "!".

Declare Scope sim_scope.
Delimit Scope sim_scope with sim.

(** * Failures

    The simulator stops a run in three ways: a C [assert] that fails, a
    [LOG_ASSERT_ERROR]/[LOG_PRINT_ERROR] (both call [exit(-1)], see
    common/misc/log.h), or an exception of the standard library.  A fourth
    constructor records an access the C++ abstract machine gives no meaning to
    (an index outside an array, [front()] of an empty deque, a variable read
    before it was assigned, division by zero).  [OutOfFuel] is not a behaviour
    of the program: it is the result of a definition whose recursion is bounded
    by fuel when the bound is too small, and the termination theorems show that
    it never occurs. *)
Inductive failure :=
  | AssertFailed
  | LogError
  | Exception
  | Undefined
  | OutOfFuel.

Inductive result (A : Type) :=
  | Ok (a : A)
  | Err (e : failure).
Arguments Ok {A} _.
Arguments Err {A} _.

#[global] Instance failure_eq_dec : EqDecision failure.
Proof. solve_decision. Defined.

#[global] Instance result_eq_dec `{EqDecision A} : EqDecision (result A).
Proof. solve_decision. Defined.

Definition rbind {A B} (m : result A) (k : A -> result B) : result B :=
  match m with
  | Ok a => k a
  | Err e => Err e
  end.

Definition rguard (b : bool) (e : failure) : result unit :=
  if b then Ok tt else Err e.

Definition of_option {A} (o : option A) (e : failure) : result A :=
  match o with
  | Some a => Ok a
  | None => Err e
  end.

Notation "'let!' x := m 'in' k" := (rbind m (fun x => k))
  (at level 10, x pattern, m at level 200, k at level 200) : sim_scope.
Notation "'guard!' b 'else' e 'in' k" := (rbind (rguard b e) (fun _ => k))
  (at level 10, b at level 100, e at level 100, k at level 200) : sim_scope.
Open Scope sim_scope.

(** Apply a fallible operation to every cell of an array, in order. *)
Fixpoint mapM_r {A B} (f : A -> result B) (l : list A) : result (list B) :=
  match l with
  | [] => Ok []
  | x :: l' => rbind (f x) (fun y => rbind (mapM_r f l') (fun ys => Ok (y :: ys)))
  end.

Definition is_ok {A} (r : result A) : Prop := exists a, r = Ok a.

(** Reading an array cell: outside the array the program has no behaviour. *)
Definition aget {A} (l : list A) (i : nat) : result A := of_option (l !! i) Undefined.

(** Writing an array cell. *)
Definition aset {A} (l : list A) (i : nat) (x : A) : result (list A) :=
  if decide (i < length l)%nat then Ok (<[i := x]> l) else Err Undefined.

(** * Machine integers: the value of a conversion to a [w]-bit type *)
Definition uwrap (w x : Z) : Z := x mod 2 ^ w.
Definition u8 (x : Z) : Z := uwrap 8 x.
Definition u16 (x : Z) : Z := uwrap 16 x.
Definition u32 (x : Z) : Z := uwrap 32 x.
Definition u64 (x : Z) : Z := uwrap 64 x.
(** Two's complement reading of the low [w] bits. *)
Definition swrap (w x : Z) : Z := (x + 2 ^ (w - 1)) mod 2 ^ w - 2 ^ (w - 1).
Definition s32 (x : Z) : Z := swrap 32 x.
Definition s64 (x : Z) : Z := swrap 64 x.

Create HintDb sim.

(** * Lemmas on the error monad *)
Lemma rbind_Ok_inv {A B} (m : result A) (k : A -> result B) b :
  rbind m k = Ok b -> exists a, m = Ok a /\ k a = Ok b.
Proof. destruct m as [a|e]; simpl; [eauto | discriminate]. Qed.

Lemma rguard_Ok_inv b e u : rguard b e = Ok u -> b = true.
Proof. destruct b; simpl; [done | discriminate]. Qed.

Lemma of_option_Ok_inv {A} (o : option A) e a : of_option o e = Ok a -> o = Some a.
Proof. destruct o; simpl; congruence. Qed.

Lemma aget_Ok_inv {A} (l : list A) i x : aget l i = Ok x -> l !! i = Some x.
Proof. apply of_option_Ok_inv. Qed.

Lemma aget_Ok {A} (l : list A) i x : l !! i = Some x -> aget l i = Ok x.
Proof. unfold aget. by intros ->. Qed.

Lemma aset_Ok_inv {A} (l l' : list A) i x :
  aset l i x = Ok l' -> (i < length l)%nat /\ l' = <[i := x]> l.
Proof. unfold aset. case_decide; [intros [= <-]; done | discriminate]. Qed.

Lemma aset_Ok {A} (l : list A) i x :
  (i < length l)%nat -> aset l i x = Ok (<[i := x]> l).
Proof. unfold aset. intros. by rewrite decide_True. Qed.

Lemma Ok_inj {A} (a b : A) : Ok a = Ok b -> a = b.
Proof. congruence. Qed.

Lemma pair_inj {A B} (a c : A) (b d : B) : (a, b) = (c, d) -> a = c /\ b = d.
Proof. intros [= -> ->]. done. Qed.

(** Use an equation to eliminate the variable on one of its sides. *)
Ltac eq_subst H :=
  match type of H with
  | ?a = ?b => first [is_var b; subst b | is_var a; subst a | idtac]
  end.

(** Decompose a hypothesis that a monadic computation returned. *)
Ltac inv_ok :=
  repeat match goal with
  | H : rbind _ _ = Ok _ |- _ =>
      let a := fresh "v" in let H1 := fresh "Hv" in let H2 := fresh "Hk" in
      apply rbind_Ok_inv in H; destruct H as (a & H1 & H2); cbv beta in H2
  | H : rguard _ _ = Ok _ |- _ => apply rguard_Ok_inv in H
  | H : of_option _ _ = Ok _ |- _ => apply of_option_Ok_inv in H
  | H : aget _ _ = Ok _ |- _ => apply aget_Ok_inv in H
  | H : aset _ _ _ = Ok _ |- _ => apply aset_Ok_inv in H; destruct H as [? ->]
  | H : Ok _ = Ok _ |- _ => apply Ok_inj in H; eq_subst H
  | H : Err _ = Ok _ |- _ => discriminate H
  | H : (_, _) = (_, _) |- _ =>
      let H1 := fresh in let H2 := fresh in
      apply pair_inj in H; destruct H as [H1 H2]; eq_subst H1; eq_subst H2
  | H : (let '(_, _) := ?x in _) = Ok _ |- _ =>
      let a := fresh "a" in let b := fresh "b" in
      first [is_var x; destruct x as [a b] | destruct x as [a b] eqn:?]
  end.

(** A computation that does not run out of fuel, with what holds if it returns. *)
Definition halts {A} (Q : A -> Prop) (r : result A) : Prop :=
  match r with
  | Ok a => Q a
  | Err e => e <> OutOfFuel
  end.

Lemma halts_bind {A B} (Q1 : A -> Prop) (Q : B -> Prop) m k :
  halts Q1 m -> (forall a, Q1 a -> halts Q (k a)) -> halts Q (rbind m k).
Proof. destruct m as [a|e]; simpl; auto. Qed.

Lemma halts_bind_eq {A B} (Q1 : A -> Prop) (Q : B -> Prop) m k :
  halts Q1 m -> (forall a, m = Ok a -> Q1 a -> halts Q (k a)) -> halts Q (rbind m k).
Proof. destruct m as [a|e]; simpl; auto. Qed.

Lemma halts_mono {A} (Q1 Q : A -> Prop) r : halts Q1 r -> (forall a, Q1 a -> Q a) -> halts Q r.
Proof. destruct r as [a|e]; simpl; auto. Qed.

Lemma halts_guard (Q : unit -> Prop) b e : e <> OutOfFuel -> (b = true -> Q tt) -> halts Q (rguard b e).
Proof. intros He HQ. destruct b; simpl; auto. Qed.

Lemma halts_of_option {A} (Q : A -> Prop) o e :
  e <> OutOfFuel -> (forall a, o = Some a -> Q a) -> halts Q (of_option o e).
Proof. intros He HQ. destruct o; simpl; auto. Qed.

Definition any {A} : A -> Prop := fun _ => True.

(** Halting of the code that has no recursion of its own. *)
Ltac halts_step :=
  match goal with
  | |- halts _ (rbind _ _) => eapply (halts_bind any); [|intros ? _]
  | |- halts _ (rguard _ _) => apply halts_guard; [discriminate|done]
  | |- halts _ (of_option _ _) => apply halts_of_option; [discriminate|done]
  | |- halts _ (aget _ _) => unfold aget
  | |- halts _ (aset _ _ _) => unfold aset
  | |- halts _ (let '(_, _) := ?x in _) => destruct x
  | |- halts _ (match ?x with _ => _ end) => destruct x
  | |- halts any (Ok _) => exact I
  | |- halts _ (Err _) => discriminate
  end.
Ltac halts_auto := repeat (halts_step || (progress eauto with sim)).

(** A computation that returns, with what holds of its result. *)
Definition returns {A} (Q : A -> Prop) (r : result A) : Prop :=
  match r with
  | Ok a => Q a
  | Err _ => False
  end.

Lemma returns_bind {A B} (Q1 : A -> Prop) (Q : B -> Prop) m k :
  returns Q1 m -> (forall a, Q1 a -> returns Q (k a)) -> returns Q (rbind m k).
Proof. destruct m as [a|e]; simpl; [auto|done]. Qed.

Lemma returns_mono {A} (Q1 Q : A -> Prop) r : returns Q1 r -> (forall a, Q1 a -> Q a) -> returns Q r.
Proof. destruct r as [a|e]; simpl; auto. Qed.

Lemma returns_guard {A} (Q : A -> Prop) b e k : b = true -> returns Q k -> returns Q (guard! b else e in k).
Proof. by intros ->. Qed.

Lemma returns_inv {A} (Q : A -> Prop) r : returns Q r -> exists a, r = Ok a /\ Q a.
Proof. destruct r as [a|e]; simpl; [eauto|done]. Qed.

(** Boolean comparisons of the code to propositions [lia] reads. *)
Ltac zbool :=
  repeat match goal with
  | H : (_ && _) = true |- _ => apply andb_prop in H; destruct H
  | H : (_ && _) = false |- _ => apply andb_false_iff in H
  | H : (_ || _) = false |- _ => apply orb_false_iff in H; destruct H
  | H : (_ || _) = true |- _ => apply orb_prop in H
  | H : (_ <? _)%Z = true |- _ => apply Z.ltb_lt in H
  | H : (_ <? _)%Z = false |- _ => apply Z.ltb_ge in H
  | H : (_ <=? _)%Z = true |- _ => apply Z.leb_le in H
  | H : (_ <=? _)%Z = false |- _ => apply Z.leb_gt in H
  | H : (_ =? _)%Z = true |- _ => apply Z.eqb_eq in H
  | H : (_ =? _)%Z = false |- _ => apply Z.eqb_neq in H
  | H : (_ <? _)%nat = true |- _ => apply Nat.ltb_lt in H
  | H : (_ <? _)%nat = false |- _ => apply Nat.ltb_ge in H
  | H : (_ <=? _)%nat = true |- _ => apply Nat.leb_le in H
  | H : (_ <=? _)%nat = false |- _ => apply Nat.leb_gt in H
  | H : (_ =? _)%nat = true |- _ => apply Nat.eqb_eq in H
  | H : (_ =? _)%nat = false |- _ => apply Nat.eqb_neq in H
  | H : negb _ = true |- _ => apply negb_true_iff in H
  | H : negb _ = false |- _ => apply negb_false_iff in H
  end.

(** * Lemmas on machine integers *)
Lemma uwrap_range w x : (0 <= w)%Z -> (0 <= uwrap w x < 2 ^ w)%Z.
Proof. intros. unfold uwrap. apply Z.mod_pos_bound. lia. Qed.

Lemma uwrap_small w x : (0 <= x < 2 ^ w)%Z -> uwrap w x = x.
Proof. intros. unfold uwrap. by apply Z.mod_small. Qed.

Lemma u8_small x : (0 <= x < 256)%Z -> u8 x = x.
Proof. intros. apply uwrap_small. change (2 ^ 8)%Z with 256%Z. lia. Qed.

Lemma u8_range x : (0 <= u8 x < 256)%Z.
Proof. apply (uwrap_range 8). lia. Qed.

Lemma u32_small x : (0 <= x < 2 ^ 32)%Z -> u32 x = x.
Proof. apply uwrap_small. Qed.

Lemma u32_range x : (0 <= u32 x < 2 ^ 32)%Z.
Proof. apply uwrap_range. lia. Qed.

Lemma u64_small x : (0 <= x < 2 ^ 64)%Z -> u64 x = x.
Proof. apply uwrap_small. Qed.

Lemma u64_range x : (0 <= u64 x < 2 ^ 64)%Z.
Proof. apply uwrap_range. lia. Qed.

#[export] Hint Resolve u8_range u32_range u64_range : sim.

Lemma land_ones_mod x k : (0 <= k)%Z -> Z.land x (2 ^ k - 1) = (x mod 2 ^ k)%Z.
Proof. intros. rewrite Z.sub_1_r, <- Z.ones_equiv. by apply Z.land_ones. Qed.

(** Clearing the low [k] bits of a 64-bit word. *)
Lemma land_high_mask x k :
  (0 <= k <= 64)%Z -> (0 <= x < 2 ^ 64)%Z -> Z.land x (2 ^ 64 - 2 ^ k) = (x - x mod 2 ^ k)%Z.
Proof.
  intros Hk Hx.
  assert (E : (2 ^ 64 - 2 ^ k = Z.shiftl (Z.ones (64 - k)) k)%Z).
  { rewrite Z.shiftl_mul_pow2, Z.ones_equiv by lia. replace 64%Z with (64 - k + k)%Z at 1 by lia.
    rewrite Z.pow_add_r by lia. lia. }
  assert (Z.land x (Z.shiftl (Z.ones (64 - k)) k) = Z.shiftl (Z.land (Z.shiftr x k) (Z.ones (64 - k))) k) as E'.
  { apply Z.bits_inj'. intros i Hi. rewrite Z.land_spec. destruct (Z.lt_ge_cases i k).
    - by rewrite !Z.shiftl_spec_low, andb_false_r by lia.
    - rewrite !Z.shiftl_spec, Z.land_spec, Z.shiftr_spec by lia. do 2 f_equal. lia. }
  rewrite E, E', Z.land_ones, Z.shiftl_mul_pow2, Z.shiftr_div_pow2 by lia.
  rewrite Z.mod_small; [pose proof (Z.div_mod x (2 ^ k)); lia|].
  split; [apply Z.div_pos; lia|]. apply Z.div_lt_upper_bound; [lia|].
  rewrite <- Z.pow_add_r by lia. replace (k + (64 - k))%Z with 64%Z by lia. lia.
Qed.

Lemma testbit_above x k i :
  (0 <= x < 2 ^ k)%Z -> (k <= i)%Z -> Z.testbit x i = false.
Proof.
  intros Hx Hi. destruct (decide (k < 0)%Z) as [Hk|Hk].
  - rewrite Z.pow_neg_r in Hx by lia. lia.
  - rewrite <- (Z.mod_small x (2 ^ k)) by lia. by apply Z.mod_pow2_bits_high; lia.
Qed.

(** A number all of whose bits from [k] on are clear is below [2 ^ k]. *)
Lemma bits_below_pow2 x k :
  (0 <= x)%Z -> (0 <= k)%Z -> (forall i, (k <= i)%Z -> Z.testbit x i = false) ->
  (x < 2 ^ k)%Z.
Proof.
  intros Hx Hk Hbits.
  assert (x mod 2 ^ k = x)%Z as <-; [|apply Z.mod_pos_bound; lia].
  apply Z.bits_inj'. intros i Hi. destruct (Z.lt_ge_cases i k).
  - by apply Z.mod_pow2_bits_low.
  - rewrite Z.mod_pow2_bits_high by lia. by rewrite Hbits.
Qed.

Lemma lxor_below_pow2 x y k :
  (0 <= x < 2 ^ k)%Z -> (0 <= y < 2 ^ k)%Z -> (0 <= k)%Z -> (0 <= Z.lxor x y < 2 ^ k)%Z.
Proof.
  intros Hx Hy Hk. split; [apply Z.lxor_nonneg; lia|].
  apply bits_below_pow2; [apply Z.lxor_nonneg; lia | done |].
  intros i Hi. rewrite Z.lxor_spec.
  rewrite (testbit_above x k), (testbit_above y k) by done. done.
Qed.

Lemma lor_below_pow2 x y k :
  (0 <= x < 2 ^ k)%Z -> (0 <= y < 2 ^ k)%Z -> (0 <= k)%Z -> (0 <= Z.lor x y < 2 ^ k)%Z.
Proof.
  intros Hx Hy Hk. split; [apply Z.lor_nonneg; lia|].
  apply bits_below_pow2; [apply Z.lor_nonneg; lia | done |].
  intros i Hi. rewrite Z.lor_spec.
  rewrite (testbit_above x k), (testbit_above y k) by done. done.
Qed.

(** * Loops over arrays *)

(** [for (i = 0; i < n; i++) if (f(a[i])) return i;] *)
Fixpoint find_first {A} (f : A -> bool) (l : list A) : option nat :=
  match l with
  | [] => None
  | x :: l' => if f x then Some O else option_map S (find_first f l')
  end.

(** [for (i = n - 1; i >= 0; i--) if (f(a[i])) return i;] *)
Fixpoint find_last {A} (f : A -> bool) (l : list A) : option nat :=
  match l with
  | [] => None
  | x :: l' =>
      match find_last f l' with
      | Some i => Some (S i)
      | None => if f x then Some O else None
      end
  end.

Lemma find_first_Some {A} (f : A -> bool) (l : list A) i :
  find_first f l = Some i ->
  (exists x, l !! i = Some x /\ f x = true) /\
  (forall j x, (j < i)%nat -> l !! j = Some x -> f x = false).
Proof.
  revert i. induction l as [|y l IH]; intros i; simpl; [discriminate|].
  destruct (f y) eqn:Hy.
  - intros [= <-]. split; [by exists y|]. lia.
  - destruct (find_first f l) as [k|]; simpl; [|discriminate]. intros [= <-].
    destruct (IH k eq_refl) as [Hx Hlt]. split; [done|].
    intros [|j] x Hj Hl; simpl in Hl; [congruence|]. apply (Hlt j); [lia|done].
Qed.

Lemma find_first_None {A} (f : A -> bool) (l : list A) :
  find_first f l = None <-> forall j x, l !! j = Some x -> f x = false.
Proof.
  induction l as [|y l IH]; simpl; [by split|]. destruct (f y) eqn:Hy; split.
  - discriminate.
  - intros H. specialize (H O y eq_refl). congruence.
  - destruct (find_first f l); [discriminate|]. intros _ [|j] x Hl; simpl in Hl; [congruence|].
    by apply (proj1 IH eq_refl j).
  - intros H. rewrite (proj2 IH); [done|]. intros j x Hl. by apply (H (S j)).
Qed.

Lemma find_first_lt {A} (f : A -> bool) (l : list A) i :
  find_first f l = Some i -> (i < length l)%nat.
Proof. intros [(x & Hx & _) _]%find_first_Some. by eapply lookup_lt_Some. Qed.

Lemma find_last_Some {A} (f : A -> bool) (l : list A) i :
  find_last f l = Some i ->
  (exists x, l !! i = Some x /\ f x = true) /\
  (forall j x, (i < j)%nat -> l !! j = Some x -> f x = false).
Proof.
  revert i. induction l as [|y l IH]; intros i; simpl; [discriminate|].
  destruct (find_last f l) as [k|] eqn:Hk.
  - intros [= <-]. destruct (IH k eq_refl) as [Hx Hlt]. split; [done|].
    intros [|j] x Hj Hl; simpl in Hl; [lia|]. apply (Hlt j); [lia|done].
  - destruct (f y) eqn:Hy; [|discriminate]. intros [= <-]. split; [by exists y|].
    intros [|j] x Hj Hl; simpl in Hl; [lia|]. clear IH Hy Hj.
    revert j Hl Hk. induction l as [|z l IH]; simpl; [done|].
    destruct (find_last f l); [discriminate|]. destruct (f z) eqn:Hz; [discriminate|].
    intros [|j] Hl _; simpl in Hl; [congruence|]. by apply (IH j).
Qed.

Lemma find_last_None {A} (f : A -> bool) (l : list A) :
  find_last f l = None <-> forall j x, l !! j = Some x -> f x = false.
Proof.
  induction l as [|y l IH]; simpl; [by split|]. split.
  - destruct (find_last f l); [discriminate|]. destruct (f y) eqn:Hy; [discriminate|].
    intros _ [|j] x Hl; simpl in Hl; [congruence|]. by apply (proj1 IH eq_refl j).
  - intros H. rewrite (proj2 IH) by (intros j x Hl; by apply (H (S j))).
    by rewrite (H O y eq_refl).
Qed.

Lemma find_last_lt {A} (f : A -> bool) (l : list A) i :
  find_last f l = Some i -> (i < length l)%nat.
Proof. intros [(x & Hx & _) _]%find_last_Some. by eapply lookup_lt_Some. Qed.

(** Two arrays that agree under [f] cell by cell find the same index. *)
Lemma find_last_ext {A} (f : A -> bool) (l1 l2 : list A) :
  map f l1 = map f l2 -> find_last f l1 = find_last f l2.
Proof.
  revert l2. induction l1 as [|x l1 IH]; intros [|y l2]; simpl; try done.
  intros [= Hxy Hl]. by rewrite (IH _ Hl), Hxy.
Qed.

Lemma list_lookup_map {A B} (f : A -> B) (l : list A) i : map f l !! i = f <$> l !! i.
Proof. exact (list_lookup_fmap f l i). Qed.

Lemma lookup_insert_in {A} (l : list A) i j x :
  (i < length l)%nat -> <[i := x]> l !! j = if decide (i = j) then Some x else l !! j.
Proof.
  intros Hi. rewrite list_lookup_insert.
  destruct (decide (i = j)) as [->|Hij]; [by rewrite decide_True|].
  rewrite decide_False; [done|naive_solver].
Qed.

Lemma lookup_map_seq {A} (f : nat -> A) n j :
  map f (seq 0 n) !! j = if decide (j < n)%nat then Some (f j) else None.
Proof.
  rewrite list_lookup_map. case_decide as Hj.
  - rewrite lookup_seq_lt by done. done.
  - rewrite lookup_ge_None_2 by (rewrite length_seq; lia). done.
Qed.

Lemma lookup_combine_Some {A B} (l1 : list A) (l2 : list B) i x y :
  combine l1 l2 !! i = Some (x, y) -> l1 !! i = Some x /\ l2 !! i = Some y.
Proof.
  revert l2 i. induction l1 as [|a l1 IH]; intros [|b l2] [|i]; simpl; try done.
  - by intros [= -> ->].
  - apply IH.
Qed.

Lemma filter_everything {A} (P : A -> Prop) `{forall x, Decision (P x)} (l : list A) :
  (forall x, x ∈ l -> P x) -> filter P l = l.
Proof.
  induction l as [|x l IH]; intros Hall; [done|].
  rewrite filter_cons_True by (apply Hall; by left). f_equal. apply IH.
  intros y Hy. apply Hall. by right.
Qed.
