(* ===== verification/Utils.v ===== *)
(** Integer utilities (common/misc/utils.h, utils.cc), the two pseudo-random
    generators (common/misc/rng.h, random.h) and the address-to-home mapping
    (common/core/memory_subsystem/address_home_lookup.cc). *)
From stdpp Require Import base numbers list.
From Stdlib Require Import ZArith Lia Bool.
From S2P Require Import Prelude.
Open Scope Z_scope.

(** * utils.cc *)
Module Bits.

(** [bool isPower2(UInt32 n)] *)
Definition isPower2 (n : Z) : bool := Z.land n (u32 (n - 1)) =? 0.

(** One line [if (n & mask) { p += k; n >>= k; }] of [floorLog2]. *)
Definition log2_step (mask k : Z) (pn : Z * Z) : Z * Z :=
  let '(p, n) := pn in
  if Z.land n mask =? 0 then (p, n) else (p + k, Z.shiftr n k).

(** [SInt32 floorLog2(UInt32 n)] *)
Definition floorLog2 (n : Z) : Z :=
  if n =? 0 then -1
  else
    let pn := log2_step 0xffff0000 16 (0, n) in
    let pn := log2_step 0x0000ff00 8 pn in
    let pn := log2_step 0x000000f0 4 pn in
    let pn := log2_step 0x0000000c 2 pn in
    let '(p, n) := pn in
    if Z.land n 0x00000002 =? 0 then p else p + 1.

(** [SInt32 ceilLog2(UInt32 n)] *)
Definition ceilLog2 (n : Z) : Z := floorLog2 (u32 (n - 1)) + 1.

(** The loop [for (result = 1; n &= n - 1; ++result)] of [countBits]. *)
Fixpoint countBits_loop (fuel : nat) (n result : Z) : option Z :=
  match fuel with
  | O => None
  | S fuel' =>
      let n' := Z.land n (u64 (n - 1)) in
      if n' =? 0 then Some result else countBits_loop fuel' n' (u64 (result + 1))
  end.

(** [UInt64 countBits(UInt64 n)]; 64 iterations suffice ([countBits_popcount]). *)
Definition countBits (n : Z) : option Z :=
  if n =? 0 then Some 0 else countBits_loop 64 n 1.

(** [getMin], [getMax] *)
Definition getMin (v1 v2 : Z) : Z := if v1 <? v2 then v1 else v2.
Definition getMax (v1 v2 : Z) : Z := if v1 >? v2 then v1 else v2.

(** Reference definition: the number of set bits. *)
Fixpoint pos_popcount (p : positive) : Z :=
  match p with
  | xH => 1
  | xO q => pos_popcount q
  | xI q => 1 + pos_popcount q
  end.
Definition popcount (n : Z) : Z :=
  match n with Zpos p => pos_popcount p | _ => 0 end.

End Bits.

(** * rng.h and random.h *)
Module Rng.

Definition RNG_A : Z := 0x5DEECE66D.
Definition RNG_C : Z := 0xB.
Definition RNG_M : Z := 2 ^ 48 - 1.

(** [rng_next(UInt64 &state)]: the new state and the value returned. *)
Definition rng_next (state : Z) : Z * Z :=
  let state' := Z.land (u64 (RNG_A * state + RNG_C)) RNG_M in
  (state', Z.shiftr state' 16).

Definition rng_seed (seed : Z) : Z := u64 (u64 (Z.shiftl seed 16) + 0x330E).

(** [class Random]: [_seed] and [next(limit)]. *)
Definition random_next (seed limit : Z) : result (Z * Z) :=
  let seed' := u32 (u32 (seed * 1103515245) + 12345) in
  if limit =? 0 then Err Undefined
  else Ok (seed', (seed' / 65536) mod limit).

End Rng.

(** * address_home_lookup.cc *)
Module AddressHome.

Record AddressHomeLookup := mkAHL {
  m_ahl_param : Z;
  m_ahl_mask : Z;
  m_core_list : list Z;
  m_total_modules : Z;
  m_cache_block_size : Z
}.

(** The constructor, with its [LOG_ASSERT_ERROR]. *)
Definition create (ahl_param : Z) (core_list : list Z) (cache_block_size : Z)
  : result AddressHomeLookup :=
  guard! (s32 cache_block_size <=? s32 (Z.shiftl 1 ahl_param)) else LogError in
  Ok (mkAHL ahl_param (u64 (u64 (Z.shiftl 1 ahl_param) - 1)) core_list
        (u32 (Z.of_nat (length core_list))) cache_block_size).

Definition module_num (a : AddressHomeLookup) (address : Z) : Z :=
  s32 (Z.shiftr address (m_ahl_param a) mod m_total_modules a).

Definition getHome (a : AddressHomeLookup) (address : Z) : result Z :=
  guard! negb (m_total_modules a =? 0) else Undefined in
  let m := module_num a address in
  guard! (0 <=? m) && (m <? s32 (m_total_modules a)) else LogError in
  aget (m_core_list a) (Z.to_nat m).

Definition getLinearBlock (a : AddressHomeLookup) (address : Z) : result Z :=
  guard! negb (m_total_modules a =? 0) else Undefined in
  Ok (Z.shiftr address (m_ahl_param a) / m_total_modules a).

Definition getLinearAddress (a : AddressHomeLookup) (address : Z) : result Z :=
  let! b := getLinearBlock a address in
  Ok (Z.lor (u64 (Z.shiftl b (m_ahl_param a))) (Z.land address (m_ahl_mask a))).

(** A lookup table as the memory managers build it: block sizes of at most
    [2 ^ ahl_param], fewer than [2 ^ 31] home nodes. *)
Definition wf (a : AddressHomeLookup) : Prop :=
  0 <= m_ahl_param a < 31 /\
  m_ahl_mask a = 2 ^ m_ahl_param a - 1 /\
  0 < m_total_modules a < 2 ^ 31 /\
  m_total_modules a = Z.of_nat (length (m_core_list a)).

End AddressHome.

(** * Lemmas on the bit utilities *)
Import Bits.

Lemma log2_step_spec k p n :
  0 < k -> 0 < n < 2 ^ (2 * k) ->
  exists p' n', log2_step (2 ^ (2 * k) - 2 ^ k) k (p, n) = (p', n') /\
    0 < n' < 2 ^ k /\ p' + Z.log2 n' = p + Z.log2 n.
Proof.
  intros Hk Hn. unfold log2_step.
  assert (Hpow : 2 ^ (2 * k) = 2 ^ k * 2 ^ k) by (rewrite <- Z.pow_add_r by lia; f_equal; lia).
  assert (Hpos : 0 < 2 ^ k) by (apply Z.pow_pos_nonneg; lia).
  assert (Hdiv : Z.land n (2 ^ (2 * k) - 2 ^ k) = Z.shiftl (Z.shiftr n k) k).
  { apply Z.bits_inj'. intros i Hi. rewrite Z.land_spec, Z.shiftl_spec by done.
    replace (2 ^ (2 * k) - 2 ^ k) with (Z.shiftl (Z.ones k) k)
      by (rewrite Z.shiftl_mul_pow2, Z.ones_equiv by lia; lia).
    rewrite Z.shiftl_spec by done. destruct (Z.lt_ge_cases i k).
    - rewrite !(Z.testbit_neg_r _ (i - k)) by lia. by rewrite andb_false_r.
    - rewrite Z.shiftr_spec by lia. replace (i - k + k) with i by lia.
      destruct (Z.lt_ge_cases i (2 * k)).
      + rewrite Z.ones_spec_low by lia. by rewrite andb_true_r.
      + by rewrite (testbit_above n (2 * k)) by lia. }
  rewrite Hdiv, Z.shiftl_mul_pow2, Z.shiftr_div_pow2 by lia.
  destruct (Z.eqb_spec (n / 2 ^ k * 2 ^ k) 0) as [H0|H0].
  - exists p, n. split; [done|]. assert (Hq : n / 2 ^ k = 0) by nia.
    apply Z.div_small_iff in Hq; lia.
  - exists (p + k), (n / 2 ^ k). split; [done|].
    assert (2 ^ k <= n).
    { destruct (Z.lt_ge_cases n (2 ^ k)); [|lia]. rewrite Z.div_small in H0; lia. }
    assert (0 < n / 2 ^ k) by (apply Z.div_str_pos; lia).
    split; [split; [done|apply Z.div_lt_upper_bound; lia]|].
    rewrite <- Z.shiftr_div_pow2, Z.log2_shiftr by lia.
    assert (k <= Z.log2 n) by (apply Z.log2_le_pow2; lia). lia.
Qed.

Lemma floorLog2_log2 n : 0 < n < 2 ^ 32 -> floorLog2 n = Z.log2 n.
Proof.
  intros Hn. unfold floorLog2. rewrite (proj2 (Z.eqb_neq n 0)) by lia.
  destruct (log2_step_spec 16 0 n) as (p1 & n1 & E1 & R1 & L1); [lia..|].
  destruct (log2_step_spec 8 p1 n1) as (p2 & n2 & E2 & R2 & L2); [lia..|].
  destruct (log2_step_spec 4 p2 n2) as (p3 & n3 & E3 & R3 & L3); [lia..|].
  destruct (log2_step_spec 2 p3 n3) as (p4 & n4 & E4 & R4 & L4); [lia..|].
  change (2 ^ (2 * 16) - 2 ^ 16) with 0xffff0000 in E1.
  change (2 ^ (2 * 8) - 2 ^ 8) with 0x0000ff00 in E2.
  change (2 ^ (2 * 4) - 2 ^ 4) with 0x000000f0 in E3.
  change (2 ^ (2 * 2) - 2 ^ 2) with 0x0000000c in E4.
  change (2 ^ 2) with 4 in R4.
  cbv zeta. rewrite E1, E2, E3, E4.
  assert (n4 = 1 \/ n4 = 2 \/ n4 = 3) as [->|[->| ->]] by lia.
  - change (p4 = Z.log2 n). change (Z.log2 1) with 0 in L4. lia.
  - change (p4 + 1 = Z.log2 n). change (Z.log2 2) with 1 in L4. lia.
  - change (p4 + 1 = Z.log2 n). change (Z.log2 3) with 1 in L4. lia.
Qed.

Lemma ceilLog2_log2_up n : 0 < n < 2 ^ 32 -> ceilLog2 n = Z.log2_up n.
Proof.
  intros Hn. unfold ceilLog2. rewrite u32_small by lia.
  destruct (decide (n = 1)) as [->|Hne]; [reflexivity|].
  rewrite floorLog2_log2 by lia. rewrite Z.log2_up_eqn by lia.
  rewrite Z.sub_1_r. lia.
Qed.

Lemma isPower2_spec n :
  0 < n < 2 ^ 32 -> isPower2 n = true <-> n = 2 ^ Z.log2 n.
Proof.
  intros Hn. unfold isPower2. rewrite u32_small by lia. rewrite Z.eqb_eq.
  pose proof (Z.log2_spec n ltac:(lia)) as Hlog. pose proof (Z.log2_nonneg n) as Hl0.
  split.
  - intros Hland. destruct (decide (n = 2 ^ Z.log2 n)) as [He|Hne]; [exact He|].
    assert (Hbit : Z.testbit (Z.land n (n - 1)) (Z.log2 n) = true).
    { rewrite Z.land_spec, Z.bit_log2 by lia.
      replace (Z.log2 n) with (Z.log2 (n - 1)); [by rewrite Z.bit_log2 by lia|].
      apply Z.log2_unique; lia. }
    rewrite Hland, Z.testbit_0_l in Hbit. discriminate.
  - intros He. rewrite He at 1 2. rewrite land_ones_mod by done. apply Z.mod_same. lia.
Qed.

Lemma popcount_double n : 0 <= n -> popcount (2 * n) = popcount n.
Proof. destruct n; simpl; [done..|lia]. Qed.

Lemma popcount_nonneg n : 0 <= popcount n.
Proof.
  destruct n as [|p|p]; simpl; [lia| |lia].
  induction p; simpl; lia.
Qed.

Lemma popcount_pos n : 0 < n -> 0 < popcount n.
Proof.
  destruct n as [|p|p]; simpl; [lia| |lia]. intros _.
  induction p; simpl; lia.
Qed.

Lemma popcount_log2 n : 0 < n -> popcount n <= Z.log2 n + 1.
Proof.
  destruct n as [|p|p]; [lia| |lia]. intros _. simpl.
  induction p as [p IH|p IH|]; simpl; [| |lia].
  - destruct p; simpl in *; lia.
  - destruct p; simpl in *; lia.
Qed.

(** [n & (n - 1)] clears exactly one set bit. *)
Lemma popcount_clear_lowest n :
  0 < n -> popcount (Z.land n (n - 1)) = popcount n - 1.
Proof.
  destruct n as [|p|p]; [lia| |lia]. intros _.
  induction p as [p IH|p IH|].
  - replace (Z.land (Z.pos p~1) (Z.pos p~1 - 1)) with (2 * Z.pos p).
    { rewrite popcount_double by lia. simpl. lia. }
    apply Z.bits_inj'. intros i Hi. rewrite Z.land_spec.
    replace (Z.pos p~1 - 1) with (2 * Z.pos p) by lia.
    destruct (decide (i = 0)) as [->|Hi0].
    + by rewrite Z.testbit_even_0, andb_false_r.
    + replace i with (Z.succ (Z.pred i)) by lia.
      change (Z.pos p~1) with (2 * Z.pos p + 1).
      rewrite Z.testbit_even_succ, Z.testbit_odd_succ by lia. by rewrite andb_diag.
  - replace (Z.land (Z.pos p~0) (Z.pos p~0 - 1)) with (2 * Z.land (Z.pos p) (Z.pos p - 1)).
    { rewrite popcount_double; [exact IH|]. apply Z.land_nonneg. lia. }
    apply Z.bits_inj'. intros i Hi. rewrite Z.land_spec.
    replace (Z.pos p~0 - 1) with (2 * (Z.pos p - 1) + 1) by lia.
    change (Z.pos p~0) with (2 * Z.pos p).
    destruct (decide (i = 0)) as [->|Hi0].
    + by rewrite !Z.testbit_even_0.
    + replace i with (Z.succ (Z.pred i)) by lia.
      rewrite !Z.testbit_even_succ, Z.testbit_odd_succ, Z.land_spec by lia. done.
  - reflexivity.
Qed.

Lemma countBits_loop_spec fuel n result :
  0 < n < 2 ^ 64 -> 0 <= result -> result + popcount n < 2 ^ 64 ->
  popcount n <= Z.of_nat fuel ->
  countBits_loop fuel n result = Some (result + popcount n - 1).
Proof.
  revert n result. induction fuel as [|fuel IH]; intros n result Hn Hr Hs Hf.
  { pose proof (popcount_pos n). lia. }
  cbn [countBits_loop]. cbv zeta. rewrite (u64_small (n - 1)) by lia.
  pose proof (popcount_clear_lowest n ltac:(lia)) as Hc.
  assert (Hle : 0 <= Z.land n (n - 1)) by (apply Z.land_nonneg; lia).
  destruct (Z.eqb_spec (Z.land n (n - 1)) 0) as [H0|H0].
  - rewrite H0 in Hc. simpl in Hc. f_equal. lia.
  - pose proof (popcount_pos (Z.land n (n - 1)) ltac:(lia)).
    rewrite (u64_small (result + 1)) by lia. rewrite IH; [f_equal; lia| |lia..].
    split; [lia|]. apply bits_below_pow2; [done|lia|].
    intros i Hi. rewrite Z.land_spec, (testbit_above n 64) by lia. done.
Qed.

Lemma countBits_ok n : 0 <= n < 2 ^ 64 -> countBits n = Some (popcount n).
Proof.
  intros Hn. unfold countBits. destruct (Z.eqb_spec n 0) as [->|H0]; [done|].
  pose proof (popcount_log2 n ltac:(lia)) as Hl.
  assert (Z.log2 n < 64) by (apply Z.log2_lt_pow2; lia).
  rewrite countBits_loop_spec; [f_equal; lia|lia..].
Qed.

(** * Lemmas on the generators *)
Lemma rng_next_range state :
  0 <= fst (Rng.rng_next state) < 2 ^ 48 /\ 0 <= snd (Rng.rng_next state) < 2 ^ 32.
Proof.
  unfold Rng.rng_next, Rng.RNG_M. simpl. rewrite land_ones_mod by lia.
  set (x := u64 _ mod 2 ^ 48). assert (Hx : 0 <= x < 2 ^ 48) by (apply Z.mod_pos_bound; lia).
  split; [done|]. rewrite Z.shiftr_div_pow2 by lia.
  split; [apply Z.div_pos; lia|]. apply Z.div_lt_upper_bound; lia.
Qed.

Lemma random_next_range seed limit s v :
  Rng.random_next seed limit = Ok (s, v) -> 0 <= limit -> 0 <= v < limit /\ 0 <= s < 2 ^ 32.
Proof.
  unfold Rng.random_next. destruct (Z.eqb_spec limit 0); [discriminate|].
  intros [= <- <-] ?. split; [apply Z.mod_pos_bound; lia|apply u32_range].
Qed.

(** * Lemmas on the home lookup *)
Section AddressHomeFacts.
Import AddressHome.
Context (a : AddressHomeLookup) (Hwf : wf a).

Lemma module_num_mod address :
  0 <= address ->
  module_num a address = (address / 2 ^ m_ahl_param a) mod m_total_modules a.
Proof using Hwf.
  destruct Hwf as (Hp & _ & Hm & _). intros Ha. unfold module_num, s32, swrap.
  rewrite Z.shiftr_div_pow2 by lia.
  pose proof (Z.mod_pos_bound (address / 2 ^ m_ahl_param a) (m_total_modules a) ltac:(lia)).
  rewrite Z.mod_small by lia. lia.
Qed.

Lemma module_num_range address :
  0 <= address -> 0 <= module_num a address < m_total_modules a.
Proof using Hwf.
  intros Ha. rewrite module_num_mod by done. destruct Hwf as (_ & _ & ? & _).
  apply Z.mod_pos_bound. lia.
Qed.

Lemma getLinearAddress_value address :
  0 <= address < 2 ^ 64 ->
  getLinearAddress a address =
    Ok (address / 2 ^ m_ahl_param a / m_total_modules a * 2 ^ m_ahl_param a
        + address mod 2 ^ m_ahl_param a).
Proof using Hwf.
  destruct Hwf as (Hp & Hmask & Hm & _). intros Ha.
  unfold getLinearAddress, getLinearBlock.
  rewrite (proj2 (Z.eqb_neq (m_total_modules a) 0)) by lia. simpl. f_equal.
  set (p := m_ahl_param a) in *. set (m := m_total_modules a) in *.
  assert (Hpp : 0 < 2 ^ p) by (apply Z.pow_pos_nonneg; lia).
  rewrite Z.shiftr_div_pow2, Z.shiftl_mul_pow2 by lia. fold m.
  assert (Hb : 0 <= address / 2 ^ p / m) by (apply Z.div_pos; [apply Z.div_pos|]; lia).
  assert (Hle : address / 2 ^ p / m * 2 ^ p <= address).
  { assert (address / 2 ^ p / m <= address / 2 ^ p)
      by (apply Z.div_le_upper_bound; [lia|];
          pose proof (Z.div_pos address (2 ^ p) ltac:(lia) ltac:(lia)); nia).
    pose proof (Z.mul_div_le address (2 ^ p) Hpp). nia. }
  rewrite u64_small by nia. rewrite Hmask, land_ones_mod by lia.
  symmetry. apply Z.add_nocarry_lor. apply Z.bits_inj'. intros i Hi.
  rewrite Z.land_spec, Z.testbit_0_l. destruct (Z.lt_ge_cases i p).
  - by rewrite Z.mul_pow2_bits_low by lia.
  - by rewrite Z.mod_pow2_bits_high, andb_false_r by lia.
Qed.

Lemma linear_address_decompose address la :
  0 <= address < 2 ^ 64 -> getLinearAddress a address = Ok la ->
  address = (la / 2 ^ m_ahl_param a * m_total_modules a + module_num a address)
              * 2 ^ m_ahl_param a + la mod 2 ^ m_ahl_param a.
Proof using Hwf.
  intros Ha. rewrite getLinearAddress_value by done. intros [= <-].
  rewrite module_num_mod by lia. destruct Hwf as (Hp & _ & Hm & _).
  set (p := m_ahl_param a) in *. set (m := m_total_modules a) in *.
  assert (Hpp : 0 < 2 ^ p) by (apply Z.pow_pos_nonneg; lia).
  pose proof (Z.mod_pos_bound address (2 ^ p) Hpp).
  rewrite Z.div_add_l, (Z.div_small (address mod 2 ^ p)), Z.add_0_r by lia.
  assert (Hr : forall q r, 0 <= r < 2 ^ p -> (q * 2 ^ p + r) mod 2 ^ p = r)
    by (intros; rewrite Z.add_comm, Z_mod_plus_full; apply Z.mod_small; lia).
  rewrite Hr by lia.
  pose proof (Z.div_mod (address / 2 ^ p) m ltac:(lia)).
  pose proof (Z.div_mod address (2 ^ p) ltac:(lia)). nia.
Qed.

Lemma getHome_ok address :
  0 <= address -> exists c, getHome a address = Ok c /\
    m_core_list a !! Z.to_nat (module_num a address) = Some c.
Proof using Hwf.
  intros Ha. pose proof (module_num_range address Ha) as Hr.
  destruct Hwf as (Hp & _ & Hm & Hlen). unfold getHome.
  rewrite (proj2 (Z.eqb_neq (m_total_modules a) 0)) by lia. simpl.
  unfold s32, swrap. rewrite (Z.mod_small (m_total_modules a + _)) by lia.
  rewrite (proj2 (Z.leb_le 0 (module_num a address))) by lia.
  rewrite (proj2 (Z.ltb_lt (module_num a address) _)) by lia. simpl.
  destruct (lookup_lt_is_Some_2 (m_core_list a) (Z.to_nat (module_num a address)))
    as [c Hc]; [lia|].
  exists c. split; [by apply aget_Ok | done].
Qed.

End AddressHomeFacts.

(** * Main theorems *)

(** The logarithm helpers are exact on 32-bit values: [floorLog2] and
    [ceilLog2] are the floor and the ceiling of the base-2 logarithm, and
    [isPower2] recognises the powers of two. *)
Theorem log2_helpers_exact n :
  0 < n < 2 ^ 32 ->
  2 ^ floorLog2 n <= n < 2 ^ (floorLog2 n + 1) /\
  ceilLog2 n = Z.log2_up n /\
  (isPower2 n = true <-> exists k, 0 <= k /\ n = 2 ^ k).
Proof.
  intros Hn. rewrite floorLog2_log2, ceilLog2_log2_up, isPower2_spec by done.
  split; [apply Z.log2_spec; lia|]. split; [done|]. split.
  - intros E. exists (Z.log2 n). split; [apply Z.log2_nonneg|done].
  - intros (k & Hk & ->). by rewrite Z.log2_pow2.
Qed.

Lemma log2_helpers_exact_witness :
  2 ^ floorLog2 100 <= 100 < 2 ^ (floorLog2 100 + 1) /\ ceilLog2 100 = Z.log2_up 100 /\
  (isPower2 100 = true <-> exists k, 0 <= k /\ 100 = 2 ^ k).
Proof. apply log2_helpers_exact. lia. Defined.

(** [countBits], which clears the lowest set bit until none is left,
    terminates and returns the number of set bits of a 64-bit word. *)
Theorem countBits_is_popcount n : 0 <= n < 2 ^ 64 -> countBits n = Some (popcount n).
Proof. apply countBits_ok. Qed.

Lemma countBits_is_popcount_witness : countBits 0xf0f0 = Some (popcount 0xf0f0).
Proof. apply countBits_is_popcount. lia. Defined.

(** The home node and the linear address identify an address: no two
    addresses are mapped to the same line of the same home. *)
Theorem home_and_linear_address_injective a addr1 addr2 la :
  AddressHome.wf a -> 0 <= addr1 < 2 ^ 64 -> 0 <= addr2 < 2 ^ 64 ->
  AddressHome.module_num a addr1 = AddressHome.module_num a addr2 ->
  AddressHome.getLinearAddress a addr1 = Ok la -> AddressHome.getLinearAddress a addr2 = Ok la ->
  addr1 = addr2.
Proof.
  intros Hwf H1 H2 Hm L1 L2. rewrite (linear_address_decompose a Hwf addr1 la H1 L1).
  rewrite (linear_address_decompose a Hwf addr2 la H2 L2). by rewrite Hm.
Qed.

Lemma home_and_linear_address_injective_witness : 1000 = 1000.
Proof.
  apply (home_and_linear_address_injective (AddressHome.mkAHL 6 63 [0; 1; 2] 3 64) 1000 1000 360).
  - repeat split; cbn; lia.
  - lia.
  - lia.
  - reflexivity.
  - vm_compute. reflexivity.
  - vm_compute. reflexivity.
Defined.
