(* ===== verification/CacheBlock.v ===== *)
(** Cache line meta-data: the coherence states (cache_state.h), the base class
    CacheBlockInfo and its three subclasses PrL1CacheBlockInfo,
    PrL2CacheBlockInfo and SharedCacheBlockInfo
    (common/core/memory_subsystem/cache: cache_block_info, pr_l1_cache_block_info,
    pr_l2_cache_block_info and shared_cache_block_info).

    The dynamic type of a block is the constructor of its [sub] field; a
    virtual member function dispatches on it. *)
From stdpp Require Import base numbers list.
From Stdlib Require Import ZArith Lia Bool.
From S2P Require Import Prelude.
Open Scope Z_scope.

(** * cache_state.h *)
Module CacheState.

Inductive cstate_t :=
  | INVALID | SHARED | SHARED_UPGRADING | EXCLUSIVE | OWNED | MODIFIED
  | INVALID_COLD | INVALID_EVICT | INVALID_COHERENCY.

#[global] Instance cstate_eq_dec : EqDecision cstate_t.
Proof. solve_decision. Defined.

Definition readable (s : cstate_t) : bool :=
  match s with
  | MODIFIED | OWNED | SHARED | EXCLUSIVE => true
  | _ => false
  end.

Definition writable (s : cstate_t) : bool :=
  match s with MODIFIED => true | _ => false end.

End CacheState.

(** * cache_block_info.h *)
Inductive cache_t := INVALID_CACHE_TYPE | PR_L1_CACHE | PR_L2_CACHE | SHARED_CACHE.

#[global] Instance cache_t_eq_dec : EqDecision cache_t.
Proof. solve_decision. Defined.

Inductive option_t := PREFETCH | WARMUP.

Definition option_index (o : option_t) : Z :=
  match o with PREFETCH => 0 | WARMUP => 1 end.

(** Fields SharedCacheBlockInfo adds.  [c] is left uninitialised by the
    constructor, so its value is unknown ([None]) until [zeroC]. *)
Record SharedInfo := mkShared {
  sh_deadbit : Z;
  sh_conf : Z;
  sh_cMaxPresent : Z;
  sh_cMaxPast : Z;
  sh_c : option Z
}.

Inductive block_sub :=
  | SubBase
  | SubPrL1 (deadbit : bool)
  | SubPrL2 (m_cached_loc_bitvec : Z) (deadbit : bool)
  | SubShared (info : SharedInfo).

Record CacheBlockInfo := mkBlock {
  m_tag : Z;
  m_cstate : CacheState.cstate_t;
  m_owner : Z;
  m_used : Z;
  m_options : Z;
  sub : block_sub
}.

#[global] Instance SharedInfo_eq_dec : EqDecision SharedInfo.
Proof. solve_decision. Defined.
#[global] Instance block_sub_eq_dec : EqDecision block_sub.
Proof. solve_decision. Defined.
#[global] Instance CacheBlockInfo_eq_dec : EqDecision CacheBlockInfo.
Proof. solve_decision. Defined.

(** [(IntPtr) ~0] *)
Definition INVALID_TAG : Z := 2 ^ 64 - 1.

Definition new_block (s : block_sub) : CacheBlockInfo :=
  mkBlock INVALID_TAG CacheState.INVALID 0 0 0 s.

(** [CacheBlockInfo::create] *)
Definition create (t : cache_t) : result CacheBlockInfo :=
  match t with
  | PR_L1_CACHE => Ok (new_block (SubPrL1 false))
  | PR_L2_CACHE => Ok (new_block (SubPrL2 0 false))
  | SHARED_CACHE => Ok (new_block (SubShared (mkShared 0 0 0 0 None)))
  | INVALID_CACHE_TYPE => Err LogError
  end.

Definition isValid (b : CacheBlockInfo) : bool := negb (m_tag b =? INVALID_TAG).

Definition setTag (t : Z) (b : CacheBlockInfo) : CacheBlockInfo :=
  mkBlock t (m_cstate b) (m_owner b) (m_used b) (m_options b) (sub b).
Definition setCState (s : CacheState.cstate_t) (b : CacheBlockInfo) : CacheBlockInfo :=
  mkBlock (m_tag b) s (m_owner b) (m_used b) (m_options b) (sub b).
Definition setOwner (o : Z) (b : CacheBlockInfo) : CacheBlockInfo :=
  mkBlock (m_tag b) (m_cstate b) o (m_used b) (m_options b) (sub b).
Definition set_used (u : Z) (b : CacheBlockInfo) : CacheBlockInfo :=
  mkBlock (m_tag b) (m_cstate b) (m_owner b) u (m_options b) (sub b).
Definition set_options (o : Z) (b : CacheBlockInfo) : CacheBlockInfo :=
  mkBlock (m_tag b) (m_cstate b) (m_owner b) (m_used b) o (sub b).
Definition set_sub (s : block_sub) (b : CacheBlockInfo) : CacheBlockInfo :=
  mkBlock (m_tag b) (m_cstate b) (m_owner b) (m_used b) (m_options b) s.

Definition hasOption (o : option_t) (b : CacheBlockInfo) : bool :=
  negb (Z.land (m_options b) (Z.shiftl 1 (option_index o)) =? 0).
Definition setOption (o : option_t) (b : CacheBlockInfo) : CacheBlockInfo :=
  set_options (u8 (Z.lor (m_options b) (Z.shiftl 1 (option_index o)))) b.
Definition clearOption (o : option_t) (b : CacheBlockInfo) : CacheBlockInfo :=
  set_options (u8 (Z.land (m_options b) (Z.lnot (Z.shiftl 1 (option_index o))))) b.

(** [invalidate]: PrL2 also clears its location bits; the other subclasses
    only run the base version. *)
Definition invalidate (b : CacheBlockInfo) : CacheBlockInfo :=
  let b := match sub b with
           | SubPrL2 _ d => set_sub (SubPrL2 0 d) b
           | _ => b
           end in
  setCState CacheState.INVALID (setTag INVALID_TAG b).

(** [this->clone(src)]: the base members; PrL2 also copies the location bits,
    reading [src] as a PrL2 block. *)
Definition clone (this src : CacheBlockInfo) : result CacheBlockInfo :=
  let base s := mkBlock (m_tag src) (m_cstate src) (m_owner src) (m_used src) (m_options src) s in
  match sub this with
  | SubPrL2 _ d =>
      match sub src with
      | SubPrL2 v _ => Ok (base (SubPrL2 v d))
      | _ => Err Undefined
      end
  | s => Ok (base s)
  end.

(** [((SharedCacheBlockInfo* )this)->cloneAIP(src)] and
    [((PrL1CacheBlockInfo* )this)->cloneAIPTLB(src)], with [src] of that
    dynamic type.  When [this] is not of the type it is cast to, the write falls
    into the padding that ends the base object and changes no member. *)
Definition cloneAIP (this : CacheBlockInfo) (src : SharedInfo) : CacheBlockInfo :=
  match sub this with
  | SubShared _ => set_sub (SubShared src) this
  | _ => this
  end.
Definition cloneAIPTLB (this : CacheBlockInfo) (src_dead : bool) : CacheBlockInfo :=
  match sub this with
  | SubPrL1 _ => set_sub (SubPrL1 src_dead) this
  | _ => this
  end.

(** [setDead] of SharedCacheBlockInfo and of PrL1CacheBlockInfo, through the
    same casts. *)
Definition setDead_shared (v : Z) (b : CacheBlockInfo) : CacheBlockInfo :=
  match sub b with
  | SubShared i =>
      set_sub (SubShared (mkShared v (sh_conf i) (sh_cMaxPresent i) (sh_cMaxPast i) (sh_c i))) b
  | _ => b
  end.
Definition setDead_prl1 (v : bool) (b : CacheBlockInfo) : CacheBlockInfo :=
  match sub b with
  | SubPrL1 _ => set_sub (SubPrL1 v) b
  | _ => b
  end.

(** Dead bit as the block's own class stores it. *)
Definition getDead (b : CacheBlockInfo) : bool :=
  match sub b with
  | SubBase => false
  | SubPrL1 d => d
  | SubPrL2 _ d => d
  | SubShared i => negb (sh_deadbit i =? 0)
  end.

(** Reuse counters of SharedCacheBlockInfo. *)
Definition zeroC (i : SharedInfo) : SharedInfo :=
  mkShared (sh_deadbit i) (sh_conf i) (sh_cMaxPresent i) (sh_cMaxPast i) (Some 0).
Definition incC (i : SharedInfo) : SharedInfo :=
  mkShared (sh_deadbit i) (sh_conf i) (sh_cMaxPresent i) (sh_cMaxPast i)
    (option_map (fun c => c + 1) (sh_c i)).
Definition zeroCMaxPresent (i : SharedInfo) : SharedInfo :=
  mkShared (sh_deadbit i) (sh_conf i) 0 (sh_cMaxPast i) (sh_c i).
Definition setCMaxPresent (i : SharedInfo) : result SharedInfo :=
  let! c := of_option (sh_c i) Undefined in
  Ok (mkShared (sh_deadbit i) (sh_conf i)
        (if sh_cMaxPresent i >? c then sh_cMaxPresent i else c) (sh_cMaxPast i) (sh_c i)).
Definition setCMaxPast (past : Z) (i : SharedInfo) : SharedInfo :=
  mkShared (sh_deadbit i) (sh_conf i) (sh_cMaxPresent i) past (sh_c i).
Definition setConf (val : Z) (i : SharedInfo) : SharedInfo :=
  mkShared (sh_deadbit i) val (sh_cMaxPresent i) (sh_cMaxPast i) (sh_c i).

Definition BitsUsedOffset : Z := 3.

(** [bool updateUsage(BitsUsedType used)] *)
Definition updateUsage_mask (used : Z) (b : CacheBlockInfo) : bool * CacheBlockInfo :=
  let new_bits_set := negb (Z.land used (Z.lnot (m_used b)) =? 0) in
  (new_bits_set, set_used (Z.lor (m_used b) used) b).

(** [bool updateUsage(UInt32 offset, UInt32 size)]; a 64-bit shift by 64 or
    more has no defined value. *)
Definition updateUsage (offset size : Z) (b : CacheBlockInfo) : result (bool * CacheBlockInfo) :=
  let first := Z.shiftr offset BitsUsedOffset in
  let last := Z.shiftr (u32 (offset + size - 1)) BitsUsedOffset in
  guard! (first <? 64) && (last + 1 <? 64) else Undefined in
  let first_mask := u64 (Z.shiftl 1 first - 1) in
  let last_mask := u64 (Z.shiftl 1 (last + 1) - 1) in
  let usage_mask := Z.ldiff last_mask first_mask in
  Ok (updateUsage_mask (u8 usage_mask) b).

(** * pr_l2_cache_block_info.cc: which L1 caches hold the line *)
Definition INVALID_MEM_COMPONENT : Z := 0.
Definition L1_ICACHE : Z := 2.
Definition L1_DCACHE : Z := 3.

Definition getCachedLoc (bitvec : Z) : result Z :=
  guard! negb (bitvec =? Z.lor (Z.shiftl 1 L1_ICACHE) (Z.shiftl 1 L1_DCACHE)) else LogError in
  if bitvec =? Z.shiftl 1 L1_ICACHE then Ok L1_ICACHE
  else if bitvec =? Z.shiftl 1 L1_DCACHE then Ok L1_DCACHE
  else if bitvec =? 0 then Ok INVALID_MEM_COMPONENT
  else Err LogError.

Definition setCachedLoc (loc bitvec : Z) : result Z :=
  guard! negb (loc =? INVALID_MEM_COMPONENT) else LogError in
  guard! (Z.land bitvec (Z.shiftl 1 loc) =? 0) else LogError in
  Ok (u32 (Z.lor bitvec (Z.shiftl 1 loc))).

Definition clearCachedLoc (loc bitvec : Z) : result Z :=
  guard! negb (loc =? INVALID_MEM_COMPONENT) else LogError in
  guard! negb (Z.land bitvec (Z.shiftl 1 loc) =? 0) else LogError in
  Ok (u32 (Z.land bitvec (Z.lnot (Z.shiftl 1 loc)))).

(** * Lemmas *)
Lemma isValid_true b : isValid b = true <-> m_tag b <> INVALID_TAG.
Proof. unfold isValid. rewrite negb_true_iff. apply Z.eqb_neq. Qed.

Lemma isValid_false b : isValid b = false <-> m_tag b = INVALID_TAG.
Proof. unfold isValid. rewrite negb_false_iff. apply Z.eqb_eq. Qed.

Lemma invalidate_invalid b : isValid (invalidate b) = false.
Proof. by apply isValid_false. Qed.

Lemma create_invalid t b : create t = Ok b -> m_tag b = INVALID_TAG.
Proof. destruct t; intros [=]; subst; done. Qed.

Lemma clone_Ok_tag this src b : clone this src = Ok b -> m_tag b = m_tag src.
Proof. unfold clone. destruct (sub this), (sub src); intros [= <-]; done. Qed.

Lemma clone_Ok_cstate this src b : clone this src = Ok b -> m_cstate b = m_cstate src.
Proof. unfold clone. destruct (sub this), (sub src); intros [= <-]; done. Qed.

(** Two blocks of one dynamic type: the only pairs [clone] is used on. *)
Definition same_class (b1 b2 : CacheBlockInfo) : bool :=
  match sub b1, sub b2 with
  | SubBase, SubBase | SubPrL1 _, SubPrL1 _ | SubPrL2 _ _, SubPrL2 _ _
  | SubShared _, SubShared _ => true
  | _, _ => false
  end.

Lemma clone_same_class this src :
  same_class this src = true ->
  exists b, clone this src = Ok b /\ same_class b src = true.
Proof.
  unfold clone, same_class. destruct (sub this), (sub src); try discriminate; eauto.
Qed.

Lemma usage_mask_testbit first last i :
  0 <= first <= last -> last + 1 < 64 -> 0 <= i < 8 ->
  Z.testbit (u8 (Z.ldiff (u64 (Z.shiftl 1 (last + 1) - 1)) (u64 (Z.shiftl 1 first - 1)))) i
  = (first <=? i) && (i <=? last).
Proof.
  intros Hf Hl Hi. unfold u8, uwrap. rewrite Z.mod_pow2_bits_low by lia.
  rewrite Z.ldiff_spec, !Z.shiftl_1_l.
  assert (Hm : forall k, 0 <= k < 64 -> Z.testbit (u64 (2 ^ k - 1)) i = (i <? k)).
  { intros k Hk. assert (0 < 2 ^ k) by (apply Z.pow_pos_nonneg; lia).
    assert (2 ^ k < 2 ^ 64) by (apply Z.pow_lt_mono_r; lia).
    rewrite u64_small by lia. rewrite Z.sub_1_r, <- Z.ones_equiv.
    destruct (Z.ltb_spec i k); [apply Z.ones_spec_low; lia|apply Z.ones_spec_high; lia]. }
  rewrite !Hm by lia. destruct (Z.ltb_spec i (last + 1)), (Z.ltb_spec i first),
    (Z.leb_spec first i), (Z.leb_spec i last); try lia; done.
Qed.

(** The usage bits [updateUsage] adds to a line of at most 64 bytes. *)
Lemma updateUsage_testbit offset size b :
  0 <= offset -> 0 < size -> offset + size <= 64 -> 0 <= m_used b < 256 ->
  exists nb b', updateUsage offset size b = Ok (nb, b') /\
    (forall i, 0 <= i < 8 ->
       Z.testbit (m_used b') i =
       Z.testbit (m_used b) i || (offset / 8 <=? i) && (i <=? (offset + size - 1) / 8)) /\
    0 <= m_used b' < 256 /\
    nb = bool_decide (m_used b' <> m_used b).
Proof.
  intros Ho Hs Hsz Hu. unfold updateUsage, BitsUsedOffset.
  rewrite u32_small by lia. rewrite !Z.shiftr_div_pow2 by lia. change (2 ^ 3) with 8.
  assert (Hfl : 0 <= offset / 8 <= (offset + size - 1) / 8).
  { split; [apply Z.div_pos; lia|apply Z.div_le_mono; lia]. }
  assert ((offset + size - 1) / 8 <= 7) by (apply Z.lt_succ_r, Z.div_lt_upper_bound; lia).
  rewrite (proj2 (Z.ltb_lt (offset / 8) 64)), (proj2 (Z.ltb_lt _ 64)) by lia. cbn [andb rguard rbind].
  set (mask := u8 _).
  assert (Hmask : forall i, 0 <= i < 8 -> Z.testbit mask i =
                  (offset / 8 <=? i) && (i <=? (offset + size - 1) / 8)).
  { intros i Hi. apply usage_mask_testbit; lia. }
  assert (Hmr : 0 <= mask < 2 ^ 8) by apply u8_range.
  eexists _, _. split; [reflexivity|]. cbn [m_used set_used]. split; [|split].
  - intros i Hi. rewrite Z.lor_spec, Hmask by done. done.
  - apply (lor_below_pow2 _ _ 8); lia.
  - destruct (Z.eqb_spec (Z.land mask (Z.lnot (m_used b))) 0) as [E|E]; cbn [negb];
      symmetry; [apply bool_decide_eq_false_2|apply bool_decide_eq_true_2].
    + intros Hne. apply Hne. apply Z.bits_inj'. intros i Hi. rewrite Z.lor_spec.
      assert (Z.testbit (Z.land mask (Z.lnot (m_used b))) i = false) as Hb
        by (rewrite E; apply Z.testbit_0_l).
      rewrite Z.land_spec, Z.lnot_spec in Hb by done.
      by destruct (Z.testbit (m_used b) i), (Z.testbit mask i).
    + intros Heq. apply E. apply Z.bits_inj'. intros i Hi.
      rewrite Z.land_spec, Z.lnot_spec, Z.testbit_0_l by done.
      assert (Hb : Z.testbit (Z.lor (m_used b) mask) i = Z.testbit (m_used b) i) by (by rewrite Heq).
      rewrite Z.lor_spec in Hb. by destruct (Z.testbit (m_used b) i), (Z.testbit mask i).
Qed.

Lemma land_pow2_testbit x k : 0 <= k -> (Z.land x (Z.shiftl 1 k) =? 0) = negb (Z.testbit x k).
Proof.
  intros Hk. rewrite Z.shiftl_1_l. destruct (Z.eqb_spec (Z.land x (2 ^ k)) 0) as [E|E].
  - assert (Hb : Z.testbit (Z.land x (2 ^ k)) k = false) by (rewrite E; apply Z.testbit_0_l).
    rewrite Z.land_spec, Z.pow2_bits_true, andb_true_r in Hb by done. by rewrite Hb.
  - destruct (Z.testbit x k) eqn:Hx; [done|]. exfalso. apply E.
    apply Z.bits_inj'. intros i Hi. rewrite Z.land_spec, Z.testbit_0_l.
    destruct (decide (i = k)) as [->|Hne]; [by rewrite Hx|].
    by rewrite Z.pow2_bits_false, andb_false_r by done.
Qed.

(** Marking an L1 as holding the line and clearing it again is the identity. *)
Lemma cachedLoc_roundtrip loc v :
  0 < loc < 32 -> 0 <= v < 2 ^ 32 -> Z.testbit v loc = false ->
  exists v', setCachedLoc loc v = Ok v' /\ Z.testbit v' loc = true /\
             clearCachedLoc loc v' = Ok v.
Proof.
  intros Hl Hv Hb. unfold setCachedLoc, clearCachedLoc, INVALID_MEM_COMPONENT.
  rewrite (proj2 (Z.eqb_neq loc 0)) by lia. cbn [negb rguard rbind].
  rewrite land_pow2_testbit, Hb by lia. cbn [negb rguard rbind].
  assert (H2 : 0 <= Z.shiftl 1 loc < 2 ^ 32).
  { rewrite Z.shiftl_1_l. split; [lia|apply Z.pow_lt_mono_r; lia]. }
  assert (Hr : 0 <= Z.lor v (Z.shiftl 1 loc) < 2 ^ 32) by (apply lor_below_pow2; lia).
  rewrite u32_small by done. eexists. split; [done|].
  assert (Hset : Z.testbit (Z.lor v (Z.shiftl 1 loc)) loc = true).
  { rewrite Z.lor_spec, Z.shiftl_1_l, Z.pow2_bits_true, orb_true_r by lia. done. }
  split; [exact Hset|]. rewrite land_pow2_testbit, Hset by lia. cbn [negb rguard rbind].
  assert (Heq : Z.land (Z.lor v (Z.shiftl 1 loc)) (Z.lnot (Z.shiftl 1 loc)) = v).
  { apply Z.bits_inj'. intros i Hi.
    rewrite Z.land_spec, Z.lnot_spec, Z.lor_spec, Z.shiftl_1_l by done.
    destruct (decide (i = loc)) as [->|Hne].
    - by rewrite Z.pow2_bits_true, Hb by lia.
    - rewrite Z.pow2_bits_false by done. cbn. by rewrite orb_false_r, andb_true_r. }
  by rewrite Heq, u32_small by done.
Qed.

(** The usage bits of a line: an access of [size] bytes at [offset] inside a
    64-byte line sets exactly the bits of the 8-byte words it touches, keeps
    the others, and reports whether any bit was new. *)
Theorem updateUsage_marks_words offset size b :
  0 <= offset -> 0 < size -> offset + size <= 64 -> 0 <= m_used b < 256 ->
  exists nb b', updateUsage offset size b = Ok (nb, b') /\
    (forall i, 0 <= i < 8 ->
       Z.testbit (m_used b') i =
       Z.testbit (m_used b) i || (offset / 8 <=? i) && (i <=? (offset + size - 1) / 8)) /\
    nb = bool_decide (m_used b' <> m_used b).
Proof.
  intros Ho Hs Hsz Hu.
  destruct (updateUsage_testbit offset size b Ho Hs Hsz Hu) as (nb & b' & E & Hb & _ & Hn). eauto.
Qed.

Lemma updateUsage_marks_words_witness :
  exists nb b', updateUsage 12 8 (new_block SubBase) = Ok (nb, b') /\
    (forall i, 0 <= i < 8 ->
       Z.testbit (m_used b') i =
       Z.testbit (m_used (new_block SubBase)) i || (12 / 8 <=? i) && (i <=? (12 + 8 - 1) / 8)) /\
    nb = bool_decide (m_used b' <> m_used (new_block SubBase)).
Proof. apply updateUsage_marks_words; cbn; lia. Defined.
