(* ===== verification/CacheBase.v ===== *)
(** Address decomposition of a cache: CacheBase
    (common/core/memory_subsystem/cache/cache_base.h, cache_base.cc). *)
From stdpp Require Import base numbers list strings.
From Stdlib Require Import ZArith Lia Bool.
From S2P Require Import Prelude Utils.
Open Scope Z_scope.

Inductive access_t := LOAD | STORE.

Inductive hash_t :=
  | INVALID_HASH_TYPE | HASH_MASK | HASH_MOD | HASH_RNG1_MOD | HASH_RNG2_MOD
  | HASH_PRIME_DIS | HASH_XOR_MOD | HASH_MER_MOD.

#[global] Instance hash_t_eq_dec : EqDecision hash_t.
Proof. solve_decision. Defined.

Inductive replacement_policy :=
  | ROUND_ROBIN | LRU | LRU_QBS | NRU | MRU | NMRU | PLRU | SRRIP | SRRIP_QBS | RANDOM.

#[global] Instance replacement_policy_eq_dec : EqDecision replacement_policy.
Proof. solve_decision. Defined.

Record CacheBase := mkBase {
  m_cache_size : Z;
  cb_associativity : nat;
  cb_blocksize : Z;
  m_hash : hash_t;
  m_num_sets : Z;
  m_ahl : option AddressHome.AddressHomeLookup;
  m_log_blocksize : Z;
  m_log_num_sets : Z
}.

(** The constructor [CacheBase::CacheBase]. *)
Definition create_base (num_sets : Z) (associativity : nat) (cache_block_size : Z)
    (hash : hash_t) (ahl : option AddressHome.AddressHomeLookup) : result CacheBase :=
  guard! negb (num_sets =? 0) else Undefined in
  guard! (num_sets =? Z.shiftl 1 (Bits.floorLog2 num_sets)) || negb (bool_decide (hash = HASH_MASK))
    else LogError in
  Ok (mkBase (u64 (u64 (num_sets * Z.of_nat associativity) * cache_block_size))
        associativity cache_block_size hash num_sets ahl
        (u32 (Bits.floorLog2 cache_block_size)) (u32 (Bits.floorLog2 num_sets))).

(** [parseAddressHash] *)
Definition parseAddressHash (hash_name : string) : result hash_t :=
  if String.eqb hash_name "mask" then Ok HASH_MASK
  else if String.eqb hash_name "mod" then Ok HASH_MOD
  else if String.eqb hash_name "rng1_mod" then Ok HASH_RNG1_MOD
  else if String.eqb hash_name "rng2_mod" then Ok HASH_RNG2_MOD
  else if String.eqb hash_name "prime_dis" then Ok HASH_PRIME_DIS
  else if String.eqb hash_name "xor_mod" then Ok HASH_XOR_MOD
  else if String.eqb hash_name "mersenne_mod" then Ok HASH_MER_MOD
  else Err LogError.

(** The [switch (m_hash)] of [splitAddress] on a block number. *)
Definition set_index_of (h : hash_t) (num_sets log_num_sets block_num : Z) : result Z :=
  match h with
  | HASH_MASK => Ok (u32 (Z.land block_num (u32 (num_sets - 1))))
  | HASH_MOD =>
      guard! negb (num_sets =? 0) else Undefined in
      Ok (u32 (block_num mod num_sets))
  | HASH_RNG1_MOD =>
      guard! negb (num_sets =? 0) else Undefined in
      let state := Rng.rng_seed block_num in
      let '(_, v) := Rng.rng_next state in
      Ok (u32 (v mod num_sets))
  | HASH_RNG2_MOD =>
      guard! negb (num_sets =? 0) else Undefined in
      let state := Rng.rng_seed block_num in
      let '(state, _) := Rng.rng_next state in
      let '(_, v) := Rng.rng_next state in
      Ok (u32 (v mod num_sets))
  | HASH_PRIME_DIS =>
      guard! negb (num_sets =? 0) else Undefined in
      let si := block_num mod num_sets in
      let Ti := Z.shiftr block_num log_num_sets in
      let rho := 3 in
      Ok (u32 (u64 (u64 (rho * Ti) + si) mod num_sets))
  | HASH_XOR_MOD =>
      guard! negb (num_sets =? 0) else Undefined in
      let si := block_num mod num_sets in
      let ti := Z.shiftr block_num log_num_sets mod num_sets in
      Ok (u32 (Z.lxor si ti))
  | HASH_MER_MOD =>
      guard! negb (u32 (num_sets - 1) =? 0) else Undefined in
      Ok (u32 (block_num mod u32 (num_sets - 1)))
  | INVALID_HASH_TYPE => Err LogError
  end.

(** [void splitAddress(addr, tag, set_index)] *)
Definition splitAddress (c : CacheBase) (addr : Z) : result (Z * Z) :=
  guard! m_log_blocksize c <? 64 else Undefined in
  let tag := Z.shiftr addr (m_log_blocksize c) in
  let! linearAddress :=
    match m_ahl c with
    | Some a => AddressHome.getLinearAddress a addr
    | None => Ok addr
    end in
  let block_num := Z.shiftr linearAddress (m_log_blocksize c) in
  let! set_index := set_index_of (m_hash c) (m_num_sets c) (m_log_num_sets c) block_num in
  Ok (tag, set_index).

(** [void splitAddress(addr, tag, set_index, block_offset)] *)
Definition splitAddressOffset (c : CacheBase) (addr : Z) : result (Z * Z * Z) :=
  let block_offset := u32 (Z.land addr (u32 (cb_blocksize c - 1))) in
  let! (tag, set_index) := splitAddress c addr in
  Ok (tag, set_index, block_offset).

(** [IntPtr tagToAddress(tag)] *)
Definition tagToAddress (c : CacheBase) (tag : Z) : Z := u64 (Z.shiftl tag (m_log_blocksize c)).

(** Configurations [set_index_of] maps into the sets of the cache. *)
Definition hash_ok (h : hash_t) (num_sets log_num_sets : Z) : Prop :=
  0 < num_sets < 2 ^ 32 /\
  match h with
  | INVALID_HASH_TYPE => False
  | HASH_MASK | HASH_XOR_MOD => exists k, 0 <= k /\ num_sets = 2 ^ k
  | HASH_MER_MOD => 1 < num_sets
  | _ => True
  end.

(** A cache as the constructor makes it for a power-of-two block size. *)
Definition base_wf (c : CacheBase) : Prop :=
  (exists k, 0 <= k < 32 /\ cb_blocksize c = 2 ^ k /\ m_log_blocksize c = k) /\
  hash_ok (m_hash c) (m_num_sets c) (m_log_num_sets c) /\
  m_ahl c = None.

(** * Lemmas *)
Lemma create_base_wf num_sets assoc bs h c k :
  0 < num_sets < 2 ^ 32 -> 0 <= k < 32 -> bs = 2 ^ k ->
  h <> INVALID_HASH_TYPE ->
  (h = HASH_XOR_MOD -> Bits.isPower2 num_sets = true) ->
  (h = HASH_MER_MOD -> 1 < num_sets) ->
  create_base num_sets assoc bs h None = Ok c -> base_wf c.
Proof.
  intros Hn Hk -> Hh Hxor Hmer Hc. unfold create_base in Hc. inv_ok. zbool.
  assert (Hbs : 1 <= 2 ^ k < 2 ^ 32).
  { split; [|apply Z.pow_lt_mono_r; lia]. pose proof (Z.pow_pos_nonneg 2 k). lia. }
  split; [|split; [|done]].
  - exists k. split; [done|split; [done|]]. cbn [m_log_blocksize].
    rewrite floorLog2_log2 by lia. rewrite Z.log2_pow2 by lia. apply u32_small. lia.
  - cbn [m_hash m_num_sets m_log_num_sets]. split; [done|].
    assert (Hp : Bits.isPower2 num_sets = true -> exists k, 0 <= k /\ num_sets = 2 ^ k).
    { intros Hp. apply isPower2_spec in Hp; [|done].
      exists (Z.log2 num_sets). split; [apply Z.log2_nonneg|done]. }
    destruct h; try done; [|by apply Hp, Hxor|by apply Hmer].
    destruct Hv0 as [E|E].
    + apply Z.eqb_eq in E. exists (Bits.floorLog2 num_sets).
      rewrite floorLog2_log2 in E |- * by lia. rewrite Z.shiftl_1_l in E.
      split; [apply Z.log2_nonneg|done].
    + rewrite bool_decide_eq_true_2 in E by done. discriminate.
Qed.

Lemma set_index_of_range h num_sets log_num_sets block_num :
  hash_ok h num_sets log_num_sets -> 0 <= block_num ->
  exists s, set_index_of h num_sets log_num_sets block_num = Ok s /\ 0 <= s < num_sets.
Proof.
  intros [Hn Hh] Hb.
  assert (Hmod : forall x, 0 <= u32 (x mod num_sets) < num_sets).
  { intros x. pose proof (Z.mod_pos_bound x num_sets ltac:(lia)). rewrite u32_small; lia. }
  assert (Hz : (num_sets =? 0) = false) by (apply Z.eqb_neq; lia).
  unfold set_index_of. destruct h; rewrite ?Hz; cbn [negb rguard rbind]; try done; eauto.
  - destruct Hh as (k & Hk & ->). eexists. split; [done|].
    rewrite (u32_small (2 ^ k - 1)) by lia. rewrite land_ones_mod by done. apply Hmod.
  - destruct Hh as (k & Hk & Hpow). eexists. split; [done|].
    rewrite u32_small; rewrite Hpow.
    + apply lxor_below_pow2; [| |done]; apply Z.mod_pos_bound; lia.
    + assert (2 ^ k < 2 ^ 32) by lia.
      pose proof (lxor_below_pow2 (block_num mod 2 ^ k) (Z.shiftr block_num log_num_sets mod 2 ^ k) k
                    ltac:(apply Z.mod_pos_bound; lia) ltac:(apply Z.mod_pos_bound; lia) Hk). lia.
  - rewrite (u32_small (num_sets - 1)) by lia.
    rewrite (proj2 (Z.eqb_neq (num_sets - 1) 0)) by lia. cbn [negb rguard rbind].
    eexists. split; [done|].
    pose proof (Z.mod_pos_bound block_num (num_sets - 1) ltac:(lia)). rewrite u32_small; lia.
Qed.

Lemma splitAddress_ok c addr :
  base_wf c -> 0 <= addr < 2 ^ 64 ->
  exists s, splitAddress c addr = Ok (addr / cb_blocksize c, s) /\ 0 <= s < m_num_sets c.
Proof.
  intros ((k & Hk & Hbs & Hlog) & Hh & Hahl) Ha. unfold splitAddress.
  rewrite (proj2 (Z.ltb_lt (m_log_blocksize c) 64)) by lia. cbn [rguard rbind].
  rewrite Hahl, Hlog, Hbs. cbn [rbind]. rewrite Z.shiftr_div_pow2 by lia.
  destruct (set_index_of_range (m_hash c) (m_num_sets c) (m_log_num_sets c) (addr / 2 ^ k))
    as (s & -> & Hs); [done|apply Z.div_pos; lia|].
  exists s. split; [done|exact Hs].
Qed.

(** The set is a function of the tag: lines that share a tag share a set. *)
Lemma splitAddress_same_tag c a1 a2 t s1 s2 :
  m_ahl c = None ->
  splitAddress c a1 = Ok (t, s1) -> splitAddress c a2 = Ok (t, s2) -> s1 = s2.
Proof.
  intros Hahl H1 H2. unfold splitAddress in *. rewrite Hahl in *. cbn [rbind] in *.
  inv_ok. congruence.
Qed.

Lemma splitAddress_tag_range c addr t s :
  base_wf c -> 0 <= addr < 2 ^ 64 -> splitAddress c addr = Ok (t, s) ->
  t = addr / cb_blocksize c /\ 0 <= t < 2 ^ 64 /\ 0 <= s < m_num_sets c.
Proof.
  intros Hwf Ha Hs. destruct (splitAddress_ok c addr Hwf Ha) as (s' & E & Hr).
  rewrite E in Hs. inv_ok. destruct Hwf as ((k & Hk & Hbs & _) & _).
  rewrite Hbs. pose proof (Z.pow_pos_nonneg 2 k ltac:(lia) ltac:(lia)).
  split; [done|]. split; [|done]. split; [apply Z.div_pos; lia|].
  apply Z.div_lt_upper_bound; nia.
Qed.

Lemma splitAddress_sub_block c addr t s :
  base_wf c -> 1 < cb_blocksize c -> 0 <= addr < 2 ^ 64 -> splitAddress c addr = Ok (t, s) ->
  t <> 2 ^ 64 - 1.
Proof.
  intros Hwf Hbs Ha Hs. apply splitAddress_tag_range in Hs as (-> & _); [|done..].
  assert (addr / cb_blocksize c < 2 ^ 63); [|lia].
  apply Z.div_lt_upper_bound; [lia|]. nia.
Qed.

Lemma tagToAddress_block c addr t s :
  base_wf c -> 0 <= addr < 2 ^ 64 -> splitAddress c addr = Ok (t, s) ->
  tagToAddress c t = addr - addr mod cb_blocksize c.
Proof.
  intros Hwf Ha Hs. apply splitAddress_tag_range in Hs as (-> & _); [|done..].
  destruct Hwf as ((k & Hk & Hbs & Hlog) & _). unfold tagToAddress.
  rewrite Hlog, Hbs, Z.shiftl_mul_pow2 by lia.
  pose proof (Z.pow_pos_nonneg 2 k ltac:(lia) ltac:(lia)) as Hp.
  pose proof (Z.div_mod addr (2 ^ k) ltac:(lia)).
  pose proof (Z.mod_pos_bound addr (2 ^ k) Hp).
  pose proof (Z.div_pos addr (2 ^ k) ltac:(lia) Hp).
  rewrite (Z.mul_comm (addr / 2 ^ k)), u64_small; lia.
Qed.

Lemma splitAddressOffset_ok c addr :
  base_wf c -> 0 <= addr < 2 ^ 64 ->
  exists t s, splitAddress c addr = Ok (t, s) /\
    splitAddressOffset c addr = Ok (t, s, addr mod cb_blocksize c).
Proof.
  intros Hwf Ha. destruct (splitAddress_ok c addr Hwf Ha) as (s & E & Hs).
  exists (addr / cb_blocksize c), s. split; [done|]. unfold splitAddressOffset.
  rewrite E. cbn [rbind]. destruct Hwf as ((k & Hk & Hbs & _) & _).
  do 3 f_equal. rewrite Hbs.
  assert (2 ^ k < 2 ^ 32) by (apply Z.pow_lt_mono_r; lia).
  pose proof (Z.pow_pos_nonneg 2 k ltac:(lia) ltac:(lia)).
  rewrite (u32_small (2 ^ k - 1)) by lia. rewrite land_ones_mod by lia.
  pose proof (Z.mod_pos_bound addr (2 ^ k) ltac:(lia)). by rewrite u32_small by lia.
Qed.

(** C37: splitting an address loses nothing, in a cache without address home
    lookup and with a power-of-two block size, whose number of sets is a power of
    two for the mask and the exclusive-or hash, more than one for the Mersenne
    hash and any number for the other hashes: the set index lies inside the
    cache, addresses with the same tag share a set, and the address is the block
    address of its tag plus its block offset. *)
Theorem splitAddress_roundtrip c addr :
  base_wf c -> 0 <= addr < 2 ^ 64 ->
  exists tag set off, splitAddress c addr = Ok (tag, set) /\
    splitAddressOffset c addr = Ok (tag, set, off) /\
    0 <= set < m_num_sets c /\ 0 <= off < cb_blocksize c /\
    tagToAddress c tag + off = addr /\
    forall addr' set', splitAddress c addr' = Ok (tag, set') -> set' = set.
Proof.
  intros Hwf Ha. destruct (splitAddressOffset_ok c addr Hwf Ha) as (t & s & E & Eo).
  exists t, s, (addr mod cb_blocksize c). split; [done|]. split; [done|].
  pose proof (splitAddress_tag_range c addr t s Hwf Ha E) as (_ & _ & Hs).
  assert (Hbs : 0 < cb_blocksize c) by (destruct Hwf as ((k & Hk & -> & _) & _); lia).
  split; [done|]. split; [by apply Z.mod_pos_bound|].
  rewrite (tagToAddress_block c addr t s) by done. split; [lia|].
  intros addr' set' E'. by apply (splitAddress_same_tag c addr' addr t); [apply Hwf|..].
Qed.

Lemma splitAddress_roundtrip_witness :
  exists tag set off, splitAddress (mkBase 0 8 64 HASH_PRIME_DIS 100 None 6 6) 12345 = Ok (tag, set) /\
    splitAddressOffset (mkBase 0 8 64 HASH_PRIME_DIS 100 None 6 6) 12345 = Ok (tag, set, off) /\
    0 <= set < 100 /\ 0 <= off < 64 /\
    tagToAddress (mkBase 0 8 64 HASH_PRIME_DIS 100 None 6 6) tag + off = 12345 /\
    forall addr' set', splitAddress (mkBase 0 8 64 HASH_PRIME_DIS 100 None 6 6) addr' = Ok (tag, set') -> set' = set.
Proof.
  apply (splitAddress_roundtrip (mkBase 0 8 64 HASH_PRIME_DIS 100 None 6 6) 12345).
  - split; [exists 6; repeat split; lia|]. split; [split; [cbn; lia|exact I]|reflexivity].
  - lia.
Defined.

(** The exclusive-or hash is only safe for power-of-two caches: with three
    sets the block 2 * 4 + 1 is sent to a set index outside the cache. *)
Theorem xor_hash_leaves_cache :
  set_index_of HASH_XOR_MOD 3 (Bits.floorLog2 3) 5 = Ok 0 /\
  exists b, set_index_of HASH_XOR_MOD 3 (Bits.floorLog2 3) b = Ok 3.
Proof. split; [reflexivity|]. exists 2. reflexivity. Qed.
