(* ===== verification/Replacement.v ===== *)
(** What a cache set asks of its replacement policy: the two virtual functions
    of CacheSet (cache_set.h), the per-cache statistics object CacheSetInfoLRU
    (cache_set_lru.h) and the controller interface CacheCntlr
    (cache_block_info.h), with the laws the cache relies on. *)
From stdpp Require Import base numbers list.
From Stdlib Require Import ZArith Lia Bool.
From S2P Require Import Prelude CacheBlock.
Open Scope Z_scope.

(** The controller a policy may query: [virtual bool isInLowerLevelCache]. *)
Record CacheCntlr := mkCntlr { isInLowerLevelCache : CacheBlockInfo -> bool }.

(** * CacheSetInfoLRU *)
Record CacheSetInfoLRU := mkSetInfo {
  si_associativity : nat;
  m_access : list Z;
  m_attempts : option (list Z)
}.

Definition create_set_info (associativity : nat) (num_attempts : Z) : CacheSetInfoLRU :=
  mkSetInfo associativity (replicate associativity 0)
    (if num_attempts >? 1 then Some (replicate (Z.to_nat num_attempts) 0) else None).

(** [void increment(UInt32 index)] *)
Definition si_increment (index : Z) (s : CacheSetInfoLRU) : result CacheSetInfoLRU :=
  guard! index <? Z.of_nat (si_associativity s) else LogError in
  let! v := aget (m_access s) (Z.to_nat index) in
  let! a := aset (m_access s) (Z.to_nat index) (u64 (v + 1)) in
  Ok (mkSetInfo (si_associativity s) a (m_attempts s)).

(** [void incrementAttempt(UInt8 attempt)] *)
Definition si_incrementAttempt (attempt : Z) (s : CacheSetInfoLRU) : result CacheSetInfoLRU :=
  match m_attempts s with
  | Some l =>
      let! v := aget l (Z.to_nat attempt) in
      let! l := aset l (Z.to_nat attempt) (u64 (v + 1)) in
      Ok (mkSetInfo (si_associativity s) (m_access s) (Some l))
  | None =>
      guard! attempt =? 0 else LogError in
      Ok s
  end.

(** State a policy shares with the other sets of its cache: the statistics
    object (NULL for policies without one) and the number of
    [cntlr->incrementQBSLookupCost()] calls made. *)
Record RepEnv := mkEnv {
  set_info : option CacheSetInfoLRU;
  qbs_cost : Z
}.

Definition with_set_info (f : CacheSetInfoLRU -> result CacheSetInfoLRU) (e : RepEnv)
  : result RepEnv :=
  let! s := of_option (set_info e) Undefined in
  let! s := f s in
  Ok (mkEnv (Some s) (qbs_cost e)).

Definition incrementQBSLookupCost (e : RepEnv) : RepEnv := mkEnv (set_info e) (qbs_cost e + 1).

(** [bool CacheSet::isValidReplacement(UInt32 index)] *)
Definition isValidReplacement (blocks : list CacheBlockInfo) (index : nat) : result bool :=
  let! b := aget blocks index in
  Ok (negb (bool_decide (m_cstate b = CacheState.SHARED_UPGRADING))).

Definition replaceable (b : CacheBlockInfo) : bool :=
  negb (bool_decide (m_cstate b = CacheState.SHARED_UPGRADING)).

(** The opening loop of every policy but round robin: the first invalid way. *)
Definition first_invalid (blocks : list CacheBlockInfo) : option nat :=
  find_first (fun b => negb (isValid b)) blocks.

(** * The interface *)
Class ReplacementPolicy (P : Type) := {
  getReplacementIndex :
    option CacheCntlr -> list CacheBlockInfo -> P -> RepEnv -> result (nat * P * RepEnv);
  updateReplacementIndex : nat -> P -> RepEnv -> result (P * RepEnv)
}.

(** Laws of a policy on sets of [n] ways: a representation invariant that the
    two operations keep, hits that always succeed, victims inside the set. *)
Class ReplacementLaws (P : Type) `{ReplacementPolicy P} := {
  policy_wf : nat -> P -> RepEnv -> Prop;
  update_total : forall n p e i,
    policy_wf n p e -> (i < n)%nat ->
    exists p' e', updateReplacementIndex i p e = Ok (p', e') /\ policy_wf n p' e';
  replace_sound : forall n cntlr blocks p e i p' e',
    policy_wf n p e -> length blocks = n ->
    getReplacementIndex cntlr blocks p e = Ok (i, p', e') ->
    (i < n)%nat /\ policy_wf n p' e'
}.

(** Policies that fill an invalid way before they evict anything. *)
Class FillsInvalid (P : Type) `{ReplacementLaws P} := {
  replace_fills : forall n cntlr blocks p e i,
    policy_wf n p e -> length blocks = n -> first_invalid blocks = Some i ->
    exists p' e', getReplacementIndex cntlr blocks p e = Ok (i, p', e')
}.

(** Policies that always find a victim when every way may be replaced;
    query-based selection dereferences the controller. *)
Class AlwaysReplaces (P : Type) `{ReplacementLaws P} := {
  needs_cntlr : P -> bool;
  replace_total : forall n cntlr blocks p e,
    policy_wf n p e -> (0 < n)%nat -> length blocks = n ->
    (needs_cntlr p = true -> is_Some cntlr) ->
    Forall (fun b => replaceable b = true) blocks ->
    exists i p' e', getReplacementIndex cntlr blocks p e = Ok (i, p', e')
}.

(** * Lemmas *)
Lemma isValidReplacement_lookup blocks i b :
  blocks !! i = Some b -> isValidReplacement blocks i = Ok (replaceable b).
Proof. unfold isValidReplacement, aget. by intros ->. Qed.

Lemma first_invalid_none blocks :
  Forall (fun b => isValid b = true) blocks -> first_invalid blocks = None.
Proof.
  intros H. apply find_first_None. intros j b Hj.
  eapply Forall_lookup_1 in H; [|done]. by rewrite H.
Qed.

Lemma first_invalid_is_invalid blocks i :
  first_invalid blocks = Some i -> exists b, blocks !! i = Some b /\ isValid b = false.
Proof.
  intros [(b & Hb & Hv) _]%find_first_Some. exists b. split; [done|]. by apply negb_true_iff.
Qed.

Definition set_info_wf (n : nat) (attempts : Z) (e : RepEnv) : Prop :=
  exists s, set_info e = Some s /\ si_associativity s = n /\ length (m_access s) = n /\
    match m_attempts s with
    | Some l => length l = Z.to_nat attempts
    | None => attempts <= 1
    end.

Lemma create_set_info_wf n attempts c :
  set_info_wf n attempts (mkEnv (Some (create_set_info n attempts)) c).
Proof.
  eexists. split; [done|]. simpl. rewrite length_replicate. split; [done|split; [done|]].
  destruct (Z.gtb_spec attempts 1); [by rewrite length_replicate|lia].
Qed.

Lemma si_increment_wf n attempts e i :
  set_info_wf n attempts e -> 0 <= i < Z.of_nat n ->
  exists e', with_set_info (si_increment i) e = Ok e' /\ set_info_wf n attempts e' /\
    qbs_cost e' = qbs_cost e.
Proof.
  intros (s & Hs & Ha & Hl & Hatt) Hi. unfold with_set_info, si_increment.
  rewrite Hs. cbn [of_option rbind]. rewrite Ha.
  rewrite (proj2 (Z.ltb_lt i (Z.of_nat n))) by lia. cbn [rguard rbind].
  destruct (lookup_lt_is_Some_2 (m_access s) (Z.to_nat i)) as [v Hv]; [lia|].
  rewrite (aget_Ok _ _ _ Hv). cbn [rbind]. rewrite aset_Ok by lia. cbn [rbind].
  eexists. split; [done|]. split; [|done]. eexists. split; [done|]. simpl.
  by rewrite length_insert.
Qed.

Lemma si_incrementAttempt_wf n attempts e a :
  set_info_wf n attempts e -> 0 <= a < attempts ->
  exists e', with_set_info (si_incrementAttempt a) e = Ok e' /\ set_info_wf n attempts e' /\
    qbs_cost e' = qbs_cost e.
Proof.
  intros (s & Hs & Ha & Hl & Hatt) Hi. unfold with_set_info, si_incrementAttempt.
  rewrite Hs. cbn [of_option rbind]. destruct (m_attempts s) as [l|] eqn:Hm.
  - destruct (lookup_lt_is_Some_2 l (Z.to_nat a)) as [v Hv]; [lia|].
    rewrite (aget_Ok _ _ _ Hv). cbn [rbind]. rewrite aset_Ok by lia. cbn [rbind].
    eexists. split; [done|]. split; [|done]. eexists. split; [done|]. simpl.
    by rewrite length_insert.
  - assert (a = 0) as -> by lia. cbn. eexists. split; [done|]. split; [|done].
    exists s. rewrite Hm. done.
Qed.

(** A shared environment left behind by a successful statistics update. *)
Lemma with_set_info_incr_inv n attempts e e' a :
  set_info_wf n attempts e -> with_set_info (si_incrementAttempt a) e = Ok e' ->
  set_info_wf n attempts e'.
Proof.
  intros (s & Hs & Ha & Hl & Hatt) H. unfold with_set_info, si_incrementAttempt in H.
  rewrite Hs in H. cbn [of_option rbind] in H. inv_ok.
  destruct (m_attempts s) as [l|] eqn:Hm; inv_ok; eexists; split; try done; simpl;
    rewrite ?length_insert, ?Hm; done.
Qed.

Lemma set_info_wf_cost n attempts e :
  set_info_wf n attempts (incrementQBSLookupCost e) <-> set_info_wf n attempts e.
Proof. done. Qed.
#[export] Hint Resolve create_set_info_wf : sim.

(** * Sharing the statistics object between sets

    All sets of a cache update one CacheSetInfoLRU.  What a policy needs of it
    is its shape, the lengths of its arrays, which no operation changes: the
    invariant of one set survives the operations on the others. *)
Definition shape_of (e : RepEnv) : option (nat * nat * option nat) :=
  option_map (fun s => (si_associativity s, length (m_access s),
                        option_map length (m_attempts s))) (set_info e).

Definition env_shape (e e' : RepEnv) : Prop := shape_of e = shape_of e'.

#[global] Instance env_shape_equiv : Equivalence env_shape.
Proof.
  split; [by intros e|by intros e e'|]. intros e1 e2 e3 H12 H23. unfold env_shape in *. congruence.
Qed.

Class EnvFrame (P : Type) `{ReplacementLaws P} := {
  wf_shape :: forall n p, Proper (env_shape ==> iff) (policy_wf n p);
  update_shape : forall i p e p' e',
    updateReplacementIndex i p e = Ok (p', e') -> env_shape e e';
  replace_shape : forall cntlr blocks p e i p' e',
    getReplacementIndex cntlr blocks p e = Ok (i, p', e') -> env_shape e e'
}.

#[global] Instance set_info_wf_shape n attempts : Proper (env_shape ==> iff) (set_info_wf n attempts).
Proof.
  intros e e' Hsh. unfold env_shape, shape_of in Hsh. unfold set_info_wf.
  destruct (set_info e) as [s|], (set_info e') as [s'|]; try discriminate; cbn in Hsh; [|done].
  injection Hsh as Ha Hl Hatt.
  destruct (m_attempts s) as [l|] eqn:E1, (m_attempts s') as [l'|] eqn:E2; try discriminate;
    cbn in Hatt; split; intros (x & Hx & H1 & H2 & H3); injection Hx as <-;
    (eexists; split; [done|]); rewrite ?E1, ?E2 in *; split; try congruence; split; congruence.
Qed.

Lemma increment_shape i e e' : with_set_info (si_increment i) e = Ok e' -> env_shape e e'.
Proof.
  unfold with_set_info, si_increment, env_shape, shape_of. intros H. inv_ok. rewrite Hv. cbn.
  by rewrite length_insert.
Qed.

Lemma incrementAttempt_shape a e e' :
  with_set_info (si_incrementAttempt a) e = Ok e' -> env_shape e e'.
Proof.
  unfold with_set_info, si_incrementAttempt, env_shape, shape_of. intros H. inv_ok. rewrite Hv.
  destruct (m_attempts v) as [l|] eqn:E; inv_ok; cbn; rewrite E; cbn; by rewrite ?length_insert.
Qed.
#[export] Hint Resolve increment_shape incrementAttempt_shape : sim.
