(* ===== verification/PolicyLru.v ===== *)
(** LRU replacement with query-based selection: CacheSetLRU
    (common/core/memory_subsystem/cache/cache_set_lru.h, cache_set_lru.cc),
    and the recency-stack specification it refines. *)
From stdpp Require Import base numbers list gmap.
From Stdlib Require Import ZArith Lia Bool.
From S2P Require Import Prelude CacheBlock Replacement.
Open Scope Z_scope.

(** [for (i...) if (m_lru_bits[i] < m_lru_bits[accessed_index]) m_lru_bits[i]++;
    m_lru_bits[accessed_index] = 0;]: the loop leaves the accessed cell
    unchanged, so every comparison reads the same value. *)
Definition touch_bits (accessed_index : nat) (bits : list Z) : result (list Z) :=
  let! a := aget bits accessed_index in
  aset (map (fun b => if b <? a then u8 (b + 1) else b) bits) accessed_index 0.

Module Lru.

Record t := mk {
  m_num_attempts : Z;
  m_lru_bits : list Z
}.

(** Constructor: [m_lru_bits[i] = i], a UInt8. *)
Definition create (associativity : nat) (num_attempts : Z) : t :=
  mk num_attempts (map (fun i => u8 (Z.of_nat i)) (seq 0 associativity)).

(** [void moveToMRU(UInt32 accessed_index)] *)
Definition moveToMRU (accessed_index : nat) (p : t) : result t :=
  let! bits := touch_bits accessed_index (m_lru_bits p) in
  Ok (mk (m_num_attempts p) bits).

(** [void moveToLRU(UInt32 accessed_index)] *)
Definition moveToLRU (accessed_index : nat) (p : t) : result t :=
  let! a := aget (m_lru_bits p) accessed_index in
  let bits := map (fun b => if b >? a then u8 (b - 1) else b) (m_lru_bits p) in
  let! bits := aset bits accessed_index (u8 (Z.of_nat (length (m_lru_bits p)) - 1)) in
  Ok (mk (m_num_attempts p) bits).

(** The scan [for (i...) if (m_lru_bits[i] > max_bits && isValidReplacement(i))]
    from way [i] on; returns [index] and [max_bits]. *)
Fixpoint scan (i : nat) (bits : list Z) (blocks : list CacheBlockInfo)
    (index : nat) (max_bits : Z) : nat * Z :=
  match bits, blocks with
  | b :: bits', blk :: blocks' =>
      if (b >? max_bits) && replaceable blk
      then scan (S i) bits' blocks' i b
      else scan (S i) bits' blocks' index max_bits
  | _, _ => (index, max_bits)
  end.

(** One QBS query: rejected when the block is held by a lower-level cache and
    attempts remain. *)
Definition qbs_query (cntlr : option CacheCntlr) (blocks : list CacheBlockInfo)
    (attempt num_attempts : Z) (index : nat) : result bool :=
  if attempt <? num_attempts - 1 then
    let! c := of_option cntlr LogError in
    let! b := aget blocks index in
    Ok (isInLowerLevelCache c b)
  else Ok false.

(** The loop over the attempts of [getReplacementIndex].  [index] is declared
    before the loop and survives an iteration; an accepted victim does not leave
    the loop. *)
Fixpoint attempts (k : nat) (attempt : Z) (cntlr : option CacheCntlr)
    (blocks : list CacheBlockInfo) (index : nat) (p : t) (e : RepEnv)
  : result (nat * t * RepEnv) :=
  match k with
  | O => Ok (index, p, e)
  | S k' =>
      let index := fst (scan 0 (m_lru_bits p) blocks index 0) in
      guard! (index <? length blocks)%nat else LogError in
      let! qbs_reject := qbs_query cntlr blocks attempt (m_num_attempts p) index in
      let! p := moveToMRU index p in
      if qbs_reject : bool then
        attempts k' (attempt + 1) cntlr blocks index p (incrementQBSLookupCost e)
      else
        let! e := with_set_info (si_incrementAttempt attempt) e in
        attempts k' (attempt + 1) cntlr blocks index p e
  end.

(** [UInt32 getReplacementIndex(CacheCntlr *cntlr, ...)] *)
Definition getReplacementIndex (cntlr : option CacheCntlr) (blocks : list CacheBlockInfo)
    (p : t) (e : RepEnv) : result (nat * t * RepEnv) :=
  match first_invalid blocks with
  | Some i =>
      let! p := moveToMRU i p in
      Ok (i, p, e)
  | None => attempts (Z.to_nat (m_num_attempts p)) 0 cntlr blocks 0%nat p e
  end.

(** The loop of [getMyReplacementIndex]: here an accepted victim is returned,
    after it was made the least recently used way. *)
Fixpoint my_attempts (k : nat) (attempt : Z) (cntlr : option CacheCntlr)
    (blocks : list CacheBlockInfo) (p : t) (e : RepEnv) : result (nat * t * RepEnv) :=
  match k with
  | O => Err LogError
  | S k' =>
      let index := fst (scan 0 (m_lru_bits p) blocks 0%nat 0) in
      guard! (index <? length blocks)%nat else LogError in
      let! qbs_reject := qbs_query cntlr blocks attempt (m_num_attempts p) index in
      if qbs_reject : bool then
        let! p := moveToMRU index p in
        my_attempts k' (attempt + 1) cntlr blocks p (incrementQBSLookupCost e)
      else
        let! p := moveToLRU index p in
        let! e := with_set_info (si_incrementAttempt attempt) e in
        Ok (index, p, e)
  end.

(** [UInt32 getMyReplacementIndex(CacheCntlr *cntlr)] *)
Definition getMyReplacementIndex (cntlr : option CacheCntlr) (blocks : list CacheBlockInfo)
    (p : t) (e : RepEnv) : result (nat * t * RepEnv) :=
  match first_invalid blocks with
  | Some i =>
      let! p := moveToMRU i p in
      Ok (i, p, e)
  | None => my_attempts (Z.to_nat (m_num_attempts p)) 0 cntlr blocks p e
  end.

(** [void updateReplacementIndex(UInt32 accessed_index)] *)
Definition updateReplacementIndex (accessed_index : nat) (p : t) (e : RepEnv)
  : result (t * RepEnv) :=
  let! v := aget (m_lru_bits p) accessed_index in
  let! e := with_set_info (si_increment v) e in
  let! p := moveToMRU accessed_index p in
  Ok (p, e).

(** [void incrementSetCount()]: every way is read as a SharedCacheBlockInfo. *)
Definition incrementSetCount (blocks : list CacheBlockInfo) : result (list CacheBlockInfo) :=
  mapM_r (fun b => match sub b with
                   | SubShared i => Ok (set_sub (SubShared (incC i)) b)
                   | _ => Err Undefined
                   end) blocks.

(** [void modifySetCounters(IntPtr addr, map &phy_table)]: one decrement of
    [phy_table[addr >> 12].first] (a uint64_t, created as 0) per dead way. *)
Fixpoint modify_loop (temp_tag : Z) (blocks : list CacheBlockInfo) (phy_table : gmap Z (Z * Z))
  : result (gmap Z (Z * Z)) :=
  match blocks with
  | [] => Ok phy_table
  | b :: blocks' =>
      match sub b with
      | SubShared i =>
          if negb (sh_deadbit i =? 0) then
            let '(f, s) := default (0, 0) (phy_table !! temp_tag) in
            modify_loop temp_tag blocks' (<[temp_tag := (u64 (f - 1), s)]> phy_table)
          else modify_loop temp_tag blocks' phy_table
      | _ => Err Undefined
      end
  end.
Definition modifySetCounters (addr : Z) (blocks : list CacheBlockInfo)
    (phy_table : gmap Z (Z * Z)) : result (gmap Z (Z * Z)) :=
  modify_loop (Z.shiftr addr 12) blocks phy_table.

#[global] Instance policy : ReplacementPolicy t := {
  Replacement.getReplacementIndex := getReplacementIndex;
  Replacement.updateReplacementIndex := updateReplacementIndex
}.

End Lru.

(** * Specification: a recency stack, most recently used way first *)
Module LruSpec.

Fixpoint rank (order : list nat) (i : nat) : nat :=
  match order with
  | [] => O
  | x :: o => if (x =? i)%nat then O else S (rank o i)
  end.

Definition drop_way (i : nat) (order : list nat) : list nat :=
  filter (fun x => x <> i) order.

(** A hit or a fill moves the way to the front. *)
Definition touch (i : nat) (order : list nat) : list nat := i :: drop_way i order.

(** Demotion moves the way to the back. *)
Definition demote (i : nat) (order : list nat) : list nat := drop_way i order ++ [i].

(** The victim is the way at the back. *)
Definition victim (order : list nat) : nat := List.last order O.

(** [bits] of an [n]-way set represent [order]: each way stores its position. *)
Definition repr (n : nat) (bits : list Z) (order : list nat) : Prop :=
  NoDup order /\ (forall i, i ∈ order <-> (i < n)%nat) /\ (n <= 256)%nat /\
  bits = map (fun i => Z.of_nat (rank order i)) (seq 0 n).

End LruSpec.

(** * Lemmas on the recency stack *)
Section RecencyStack.
Import LruSpec.

Lemma rank_lookup order i : i ∈ order -> order !! rank order i = Some i.
Proof.
  induction order as [|x o IH]; [by intros ?%not_elem_of_nil|].
  intros [->|Hi]%elem_of_cons; simpl; [by rewrite Nat.eqb_refl|].
  destruct (Nat.eqb_spec x i) as [->|]; [done|]. by apply IH.
Qed.

Lemma rank_lt order i : i ∈ order -> (rank order i < length order)%nat.
Proof. intros Hi. eapply lookup_lt_Some. by apply rank_lookup. Qed.

Lemma rank_inj order i j :
  i ∈ order -> j ∈ order -> rank order i = rank order j -> i = j.
Proof.
  intros Hi Hj Heq. apply rank_lookup in Hi, Hj. rewrite Heq in Hi. congruence.
Qed.

Lemma rank_drop_way order i j :
  NoDup order -> i ∈ order -> j ∈ order -> j <> i ->
  rank (drop_way i order) j =
    (if (rank order j <? rank order i)%nat then rank order j else rank order j - 1)%nat.
Proof.
  unfold drop_way. induction order as [|x o IH]; [by intros _ ?%not_elem_of_nil|].
  intros [Hx Hnd]%NoDup_cons Hi Hj Hne. rewrite filter_cons.
  destruct (decide (x <> i)) as [Hxi|Hxi].
  - apply elem_of_cons in Hi as [->|Hi]; [done|]. simpl.
    rewrite (proj2 (Nat.eqb_neq x i)) by done.
    destruct (Nat.eqb_spec x j) as [->|Hxj]; [done|].
    apply elem_of_cons in Hj as [->|Hj]; [done|]. rewrite IH by done.
    assert (rank o i <> rank o j) by (intros E; apply Hne; symmetry; by apply (rank_inj o)).
    destruct (Nat.ltb_spec (rank o j) (rank o i)), (Nat.ltb_spec (S (rank o j)) (S (rank o i))); lia.
  - assert (x = i) as -> by (destruct (decide (x = i)); tauto).
    apply elem_of_cons in Hj as [->|Hj]; [done|]. simpl. rewrite Nat.eqb_refl.
    rewrite (proj2 (Nat.eqb_neq i j)) by congruence. simpl. rewrite Nat.sub_0_r. f_equal.
    clear IH Hi Hne Hj. induction o as [|y o IH]; [done|]. rewrite filter_cons.
    apply not_elem_of_cons in Hx as [Hyi Hx]. apply NoDup_cons in Hnd as [_ Hnd].
    rewrite decide_True by congruence. f_equal. by apply IH.
Qed.

Lemma rank_app_l o1 o2 j : j ∈ o1 -> rank (o1 ++ o2) j = rank o1 j.
Proof.
  induction o1 as [|x o1 IH]; [by intros ?%not_elem_of_nil|].
  intros [->|Hj]%elem_of_cons; simpl; [by rewrite Nat.eqb_refl|].
  destruct (x =? j)%nat; [done|]. by rewrite IH.
Qed.

Lemma rank_app_r o1 o2 j : j ∉ o1 -> rank (o1 ++ o2) j = (length o1 + rank o2 j)%nat.
Proof.
  induction o1 as [|x o1 IH]; [done|]. intros [Hx Hj]%not_elem_of_cons. simpl.
  rewrite (proj2 (Nat.eqb_neq x j)) by congruence. by rewrite IH.
Qed.

Lemma elem_of_drop_way i j order : j ∈ drop_way i order <-> j <> i /\ j ∈ order.
Proof. unfold drop_way. by rewrite list_elem_of_filter. Qed.

Lemma drop_way_NoDup i order : NoDup order -> NoDup (drop_way i order).
Proof. apply NoDup_filter. Qed.

Lemma rank_of_lookup order k i : NoDup order -> order !! k = Some i -> rank order i = k.
Proof.
  intros Hnd Hk. eapply NoDup_lookup; [done| |done].
  apply rank_lookup. by eapply list_elem_of_lookup_2.
Qed.

Lemma length_drop_way i order :
  NoDup order -> i ∈ order -> length (drop_way i order) = (length order - 1)%nat.
Proof.
  intros Hnd Hi.
  assert (Hp : order ≡ₚ touch i order).
  { apply NoDup_Permutation; [done| |].
    - apply NoDup_cons. split; [by rewrite elem_of_drop_way; intros [? _]|by apply drop_way_NoDup].
    - intros j. unfold touch. rewrite elem_of_cons, elem_of_drop_way.
      destruct (decide (j = i)) as [->|]; tauto. }
  rewrite Hp at 2. simpl. lia.
Qed.

Lemma last_lookup_pred (l : list nat) :
  l <> [] -> l !! (length l - 1)%nat = Some (List.last l O).
Proof.
  destruct l as [|x l _] using rev_ind; [done|]. intros _.
  rewrite length_app, List.last_last, Nat.add_sub. simpl.
  by rewrite lookup_app_r, Nat.sub_diag by lia.
Qed.

Context (n : nat) (bits : list Z) (order : list nat) (Hrepr : repr n bits order).

Lemma repr_perm : order ≡ₚ seq 0 n.
Proof using Hrepr.
  destruct Hrepr as (Hnd & Hin & _ & _). apply NoDup_Permutation; [done|apply NoDup_seq|].
  intros i. rewrite Hin, elem_of_seq. lia.
Qed.

Lemma repr_length_order : length order = n.
Proof using Hrepr. rewrite repr_perm. apply length_seq. Qed.

Lemma repr_length_bits : length bits = n.
Proof using Hrepr. destruct Hrepr as (_ & _ & _ & ->). by rewrite length_map, length_seq. Qed.

Lemma repr_lookup i : (i < n)%nat -> bits !! i = Some (Z.of_nat (rank order i)).
Proof using Hrepr.
  intros Hi. destruct Hrepr as (_ & _ & _ & ->). by rewrite lookup_map_seq, decide_True.
Qed.

Lemma repr_rank_lt i : (i < n)%nat -> (rank order i < n)%nat.
Proof using Hrepr.
  intros Hi. pose proof (rank_lt order i) as Hr. rewrite repr_length_order in Hr.
  apply Hr. by apply Hrepr.
Qed.

Lemma repr_rank_inj i j : (i < n)%nat -> (j < n)%nat -> rank order i = rank order j -> i = j.
Proof using Hrepr.
  intros Hi Hj. apply rank_inj; by apply Hrepr.
Qed.

Lemma repr_drop_way_rank i j :
  (i < n)%nat -> (j < n)%nat -> j <> i ->
  rank (drop_way i order) j =
    (if (rank order j <? rank order i)%nat then rank order j else rank order j - 1)%nat.
Proof using Hrepr. intros. apply rank_drop_way; [apply Hrepr|by apply Hrepr..|done]. Qed.

(** [touch_bits] implements [touch]. *)
Lemma touch_bits_refines i :
  (i < n)%nat ->
  exists bits', touch_bits i bits = Ok bits' /\ repr n bits' (touch i order).
Proof using Hrepr.
  intros Hi. unfold touch_bits.
  rewrite (aget_Ok _ _ _ (repr_lookup i Hi)). cbn [rbind].
  rewrite aset_Ok by (rewrite length_map, repr_length_bits; done).
  eexists. split; [done|]. pose proof (repr_rank_lt i Hi) as Hri.
  destruct Hrepr as (Hnd & Hin & Hn & Hbits). split; [|split; [|split; [done|]]].
  - apply NoDup_cons. split; [by rewrite elem_of_drop_way; intros [? _]|by apply drop_way_NoDup].
  - intros j. unfold touch. rewrite elem_of_cons, elem_of_drop_way, Hin.
    destruct (decide (j = i)); split; intros; destruct_or?; lia || tauto.
  - apply list_eq. intros j. rewrite lookup_map_seq, lookup_insert_in, list_lookup_map by
      (rewrite length_map, repr_length_bits; done).
    destruct (decide (j < n)%nat) as [Hj|Hj].
    + rewrite (repr_lookup j Hj). cbn [fmap option_fmap option_map]. unfold touch. cbn [rank].
      destruct (decide (i = j)) as [->|Hij]; [by rewrite Nat.eqb_refl|].
      rewrite (proj2 (Nat.eqb_neq i j)) by done. f_equal.
      rewrite repr_drop_way_rank by done. pose proof (repr_rank_lt j Hj).
      assert (rank order i <> rank order j) by (intros E; apply Hij; by apply repr_rank_inj).
      destruct (Z.ltb_spec (Z.of_nat (rank order j)) (Z.of_nat (rank order i))),
        (Nat.ltb_spec (rank order j) (rank order i)); try lia.
      rewrite u8_small by lia. lia.
    + rewrite lookup_ge_None_2 by (rewrite repr_length_bits; lia).
      by rewrite decide_False by lia.
Qed.

(** [moveToLRU] implements [demote]. *)
Lemma moveToLRU_refines k i :
  (i < n)%nat ->
  exists bits', Lru.moveToLRU i (Lru.mk k bits) = Ok (Lru.mk k bits') /\
    repr n bits' (demote i order).
Proof using Hrepr.
  intros Hi. unfold Lru.moveToLRU. cbn [Lru.m_lru_bits Lru.m_num_attempts].
  rewrite (aget_Ok _ _ _ (repr_lookup i Hi)). cbn [rbind]. rewrite repr_length_bits.
  rewrite aset_Ok by (rewrite length_map, repr_length_bits; done). cbn [rbind].
  eexists. split; [done|]. pose proof (repr_rank_lt i Hi) as Hri.
  destruct Hrepr as (Hnd & Hin & Hn & Hbits). split; [|split; [|split; [done|]]].
  - apply NoDup_app. split; [by apply drop_way_NoDup|]. split; [|apply NoDup_singleton].
    intros j Hj%elem_of_drop_way. rewrite list_elem_of_singleton. tauto.
  - intros j. unfold demote. rewrite elem_of_app, elem_of_drop_way, Hin, list_elem_of_singleton.
    destruct (decide (j = i)); split; intros; destruct_or?; lia || tauto.
  - apply list_eq. intros j. rewrite lookup_map_seq, lookup_insert_in, list_lookup_map by
      (rewrite length_map, repr_length_bits; done).
    destruct (decide (j < n)%nat) as [Hj|Hj].
    + rewrite (repr_lookup j Hj). cbn [fmap option_fmap option_map]. unfold demote.
      pose proof (repr_rank_lt j Hj).
      destruct (decide (i = j)) as [->|Hij].
      * rewrite rank_app_r by (rewrite elem_of_drop_way; tauto). simpl.
        rewrite Nat.eqb_refl, Nat.add_0_r. f_equal.
        rewrite (length_drop_way j) by (done || by apply Hin).
        rewrite repr_length_order, u8_small; lia.
      * rewrite rank_app_l by (apply elem_of_drop_way; split; [congruence|by apply Hin]).
        f_equal. rewrite repr_drop_way_rank by done.
        assert (rank order i <> rank order j) by (intros E; apply Hij; by apply repr_rank_inj).
        destruct (Z.gtb_spec (Z.of_nat (rank order j)) (Z.of_nat (rank order i))),
          (Nat.ltb_spec (rank order j) (rank order i)); try lia.
        rewrite u8_small by lia. lia.
    + rewrite lookup_ge_None_2 by (rewrite repr_length_bits; lia).
      by rewrite decide_False by lia.
Qed.

Lemma repr_victim_rank : (0 < n)%nat -> victim order ∈ order /\ S (rank order (victim order)) = n.
Proof using Hrepr.
  intros Hn. pose proof repr_length_order as Hlen. destruct Hrepr as (Hnd & Hin & _ & _).
  assert (Hl : order !! (n - 1)%nat = Some (victim order)).
  { unfold victim. rewrite <- Hlen. apply last_lookup_pred.
    intros ->. simpl in Hlen. lia. }
  split; [by eapply list_elem_of_lookup_2|].
  rewrite (rank_of_lookup order (n - 1) _ Hnd Hl). lia.
Qed.

End RecencyStack.

(** * The victim scan and the attempts loop *)
Lemma scan_spec i bits blocks index max_bits idx m :
  length bits = length blocks -> Lru.scan i bits blocks index max_bits = (idx, m) ->
  max_bits <= m /\
  (forall j b blk, bits !! j = Some b -> blocks !! j = Some blk -> replaceable blk = true -> b <= m) /\
  (idx = index /\ m = max_bits \/
   exists j, idx = (i + j)%nat /\ bits !! j = Some m /\ max_bits < m).
Proof.
  revert i blocks index max_bits. induction bits as [|b bits IH];
    intros i [|blk blocks] index max_bits Hlen; simpl in *; try discriminate.
  - intros [= <- <-]. split; [lia|]. split; [intros j b blk Hj; by rewrite lookup_nil in Hj|by left].
  - destruct ((b >? max_bits) && replaceable blk) eqn:Hc.
    + intros Hs. apply IH in Hs as (Hle & Hmax & Hor); [|lia].
      apply andb_prop in Hc as [Hc Hrep]. apply Z.gtb_lt in Hc. split; [lia|]. split.
      * intros [|j] b' blk' Hb Hk Hr; simpl in *; [injection Hb as <-; lia|by eapply Hmax].
      * right. destruct Hor as [[-> ->]|(j & -> & Hj & Hlt)]; [exists O|exists (S j)];
          simpl; split; [lia|done|lia|split; [done|lia]].
    + intros Hs. apply IH in Hs as (Hle & Hmax & Hor); [|lia]. split; [lia|]. split.
      * intros [|j] b' blk' Hb Hk Hr; simpl in *; [|by eapply Hmax].
        injection Hb as ->. injection Hk as ->. rewrite Hr, andb_true_r in Hc.
        rewrite Z.gtb_ltb in Hc. zbool. lia.
      * destruct Hor as [?|(j & -> & Hj & Hlt)]; [by left|right].
        exists (S j). split; [lia|done].
Qed.

Lemma scan_index_lt bits blocks index max_bits :
  length bits = length blocks -> (index < length blocks)%nat ->
  (fst (Lru.scan 0 bits blocks index max_bits) < length blocks)%nat.
Proof.
  intros Hlen Hi. destruct (Lru.scan 0 bits blocks index max_bits) as [idx m] eqn:Hs.
  apply scan_spec in Hs as (_ & _ & [[-> _]|(j & -> & Hj & _)]); [done| |done].
  simpl. apply lookup_lt_Some in Hj. lia.
Qed.

(** With every way replaceable the scan finds the bottom of the stack. *)
Lemma scan_victim n bits order blocks index :
  LruSpec.repr n bits order -> (0 < n)%nat -> length blocks = n -> (index < n)%nat ->
  Forall (fun b => replaceable b = true) blocks ->
  fst (Lru.scan 0 bits blocks index 0) = LruSpec.victim order.
Proof.
  intros Hr Hn Hlen Hi Hall. destruct (Lru.scan 0 bits blocks index 0) as [idx m] eqn:Hs.
  pose proof (repr_length_bits n bits order Hr) as Hlb.
  apply scan_spec in Hs as (_ & Hmax & Hor); [|lia]. simpl.
  destruct (repr_victim_rank n bits order Hr Hn) as [Hv Hrank].
  assert (Hvn : (LruSpec.victim order < n)%nat) by (by apply Hr).
  pose proof (repr_lookup n bits order Hr _ Hvn) as Hvb.
  destruct (lookup_lt_is_Some_2 blocks (LruSpec.victim order)) as [blk Hblk]; [lia|].
  assert (Hle : Z.of_nat (LruSpec.rank order (LruSpec.victim order)) <= m).
  { eapply Hmax; [done..|]. by eapply Forall_lookup_1 in Hall. }
  destruct Hor as [[-> ->]|(j & -> & Hj & Hlt)]; [lia|].
  assert (Hjn : (j < n)%nat) by (apply lookup_lt_Some in Hj; lia).
  apply (repr_rank_inj n bits order Hr); [lia..|].
  rewrite (repr_lookup n bits order Hr _ Hjn) in Hj. injection Hj as <-.
  pose proof (repr_rank_lt n bits order Hr j Hjn). simpl. lia.
Qed.

Definition lru_wf (n : nat) (p : Lru.t) (e : RepEnv) : Prop :=
  (exists order, LruSpec.repr n (Lru.m_lru_bits p) order) /\
  1 <= Lru.m_num_attempts p /\ set_info_wf n (Lru.m_num_attempts p) e.

Lemma moveToMRU_wf n p e i :
  lru_wf n p e -> (i < n)%nat ->
  exists p', Lru.moveToMRU i p = Ok p' /\ lru_wf n p' e /\
    Lru.m_num_attempts p' = Lru.m_num_attempts p.
Proof.
  intros ((order & Hr) & Ha & He) Hi. destruct p as [k bits].
  destruct (touch_bits_refines n bits order Hr i Hi) as (bits' & E & Hr').
  unfold Lru.moveToMRU. cbn [Lru.m_lru_bits]. rewrite E. cbn [rbind].
  eexists. split; [done|]. split; [|done]. split; [by eexists|done].
Qed.

Lemma lru_attempts_sound n k attempt cntlr blocks index p e i p' e' :
  lru_wf n p e -> length blocks = n -> (k = O -> (index < n)%nat) ->
  Lru.attempts k attempt cntlr blocks index p e = Ok (i, p', e') ->
  (i < n)%nat /\ lru_wf n p' e'.
Proof.
  revert attempt index p e. induction k as [|k IH]; intros attempt index p e Hwf Hlen Hk H.
  { cbn in H. inv_ok. auto. }
  cbn [Lru.attempts] in H. inv_ok. zbool. set (ix := fst _) in *.
  destruct (moveToMRU_wf n p e ix Hwf ltac:(lia)) as (p1 & E & Hwf1 & _).
  rewrite E in Hv1. inv_ok. destruct v0.
  - eapply IH in Hk0; [done|done|done|lia].
  - inv_ok. eapply IH in Hk1; [done| |done|lia].
    destruct Hwf1 as (? & ? & Hs). split; [done|split; [done|]].
    by eapply with_set_info_incr_inv.
Qed.

Lemma lru_attempts_total n k attempt cntlr blocks index p e :
  lru_wf n p e -> length blocks = n -> (index < n)%nat ->
  0 <= attempt -> attempt + Z.of_nat k = Lru.m_num_attempts p ->
  ((1 <? Lru.m_num_attempts p) = true -> is_Some cntlr) ->
  exists i p' e', Lru.attempts k attempt cntlr blocks index p e = Ok (i, p', e').
Proof.
  revert attempt index p e. induction k as [|k IH]; intros attempt index p e Hwf Hlen Hi Ha Hk Hc.
  { cbn. eauto. }
  cbn [Lru.attempts]. set (ix := fst _).
  assert (Hlb : length (Lru.m_lru_bits p) = n)
    by (destruct Hwf as ((order & Hr) & _); by apply (repr_length_bits n _ order)).
  assert (Hix : (ix < n)%nat) by (rewrite <- Hlen; apply scan_index_lt; lia).
  rewrite (proj2 (Nat.ltb_lt ix (length blocks))) by lia. cbn [rguard rbind].
  assert (Hq : exists b, Lru.qbs_query cntlr blocks attempt (Lru.m_num_attempts p) ix = Ok b).
  { unfold Lru.qbs_query. destruct (Z.ltb_spec attempt (Lru.m_num_attempts p - 1)); [|eauto].
    destruct Hc as [c ->]; [apply Z.ltb_lt; lia|]. cbn [of_option rbind].
    destruct (lookup_lt_is_Some_2 blocks ix) as [b Hb]; [lia|].
    rewrite (aget_Ok _ _ _ Hb). cbn. eauto. }
  destruct Hq as (rej & ->). cbn [rbind].
  destruct (moveToMRU_wf n p e ix Hwf Hix) as (p1 & -> & Hwf1 & Hna). cbn [rbind].
  destruct rej; [apply IH; rewrite ?Hna; (done || lia)|].
  destruct Hwf1 as (Hr1 & Hge & Hs1).
  destruct (si_incrementAttempt_wf n (Lru.m_num_attempts p1) e attempt Hs1) as (e1 & -> & He1 & _);
    [lia|].
  cbn [rbind]. apply IH; rewrite ?Hna; (done || lia).
Qed.

#[global] Instance lru_laws : ReplacementLaws Lru.t.
Proof.
  refine {| policy_wf := lru_wf |}.
  - intros n p e i Hwf Hi. cbn. unfold Lru.updateReplacementIndex.
    pose proof Hwf as ((order & Hr) & Ha & Hs).
    rewrite (aget_Ok _ _ _ (repr_lookup n _ order Hr i Hi)). cbn [rbind].
    pose proof (repr_rank_lt n _ order Hr i Hi).
    destruct (si_increment_wf n _ e (Z.of_nat (LruSpec.rank order i)) Hs) as (e1 & -> & He1 & _);
      [lia|].
    cbn [rbind].
    destruct (moveToMRU_wf n p e1 i) as (p1 & -> & Hwf1 & _); [|done|cbn; eauto].
    split; [by exists order|done].
  - intros n cntlr blocks p e i p' e' Hwf Hlen H. cbn in H. unfold Lru.getReplacementIndex in H.
    destruct (first_invalid blocks) as [j|] eqn:Hinv.
    + apply find_first_lt in Hinv. rewrite Hlen in Hinv. inv_ok.
      destruct (moveToMRU_wf n p e j Hwf Hinv) as (p1 & E & Hwf1 & _).
      rewrite E in Hv. inv_ok. done.
    + eapply lru_attempts_sound in H; [done|done|done|].
      destruct Hwf as (_ & ? & _). lia.
Defined.

#[global] Instance lru_fills : FillsInvalid Lru.t.
Proof.
  constructor. intros n cntlr blocks p e i Hwf Hlen Hinv. cbn.
  unfold Lru.getReplacementIndex. rewrite Hinv.
  destruct (moveToMRU_wf n p e i Hwf) as (p1 & -> & _); [|cbn; eauto].
  apply find_first_lt in Hinv. lia.
Qed.

(** LRU finds a victim in every set, upgrading lines or not. *)
Lemma lru_replace_total n cntlr blocks p e :
  lru_wf n p e -> (0 < n)%nat -> length blocks = n ->
  ((1 <? Lru.m_num_attempts p) = true -> is_Some cntlr) ->
  exists i p' e', Lru.getReplacementIndex cntlr blocks p e = Ok (i, p', e').
Proof.
  intros Hwf Hn Hlen Hc. unfold Lru.getReplacementIndex.
  destruct (first_invalid blocks) as [j|] eqn:Hinv.
  - destruct (moveToMRU_wf n p e j Hwf) as (p1 & -> & _); [|cbn; eauto].
    apply find_first_lt in Hinv. lia.
  - apply (lru_attempts_total n); [done..|lia| |done]. destruct Hwf as (_ & ? & _). lia.
Qed.

#[global] Instance lru_total : AlwaysReplaces Lru.t.
Proof.
  refine {| needs_cntlr := fun p => 1 <? Lru.m_num_attempts p |}.
  intros n cntlr blocks p e Hwf Hn Hlen Hc _. by apply (lru_replace_total n).
Defined.

Lemma seq_repr n :
  (n <= 256)%nat -> LruSpec.repr n (map (fun i => u8 (Z.of_nat i)) (seq 0 n)) (seq 0 n).
Proof.
  intros Hn. split; [apply NoDup_seq|]. split; [intros i; rewrite elem_of_seq; lia|].
  split; [done|]. apply map_ext_in. intros i Hi%in_seq.
  rewrite u8_small by lia. f_equal. symmetry.
  apply rank_of_lookup; [apply NoDup_seq|]. by rewrite lookup_seq_lt by lia.
Qed.

Lemma lru_create_wf n attempts c :
  (n <= 256)%nat -> 1 <= attempts ->
  lru_wf n (Lru.create n attempts) (mkEnv (Some (create_set_info n attempts)) c).
Proof.
  intros Hn Ha. split; [|split; [done|apply create_set_info_wf]].
  exists (seq 0 n). by apply seq_repr.
Qed.

(** One attempt on a full set whose ways may all be replaced. *)
Lemma lru_attempt_step n cntlr blocks index attempt bits order k e :
  LruSpec.repr n bits order -> (0 < n)%nat -> length blocks = n -> (index < n)%nat ->
  Forall (fun b => replaceable b = true) blocks ->
  (k = 1 \/ exists c, cntlr = Some c /\ forall b, isInLowerLevelCache c b = false) ->
  set_info_wf n k e -> 0 <= attempt < k ->
  exists bits' e', set_info_wf n k e' /\ LruSpec.repr n bits' (LruSpec.touch (LruSpec.victim order) order) /\
    forall j, Lru.attempts (S j) attempt cntlr blocks index (Lru.mk k bits) e =
      Lru.attempts j (attempt + 1) cntlr blocks (LruSpec.victim order) (Lru.mk k bits') e'.
Proof.
  intros Hr Hn Hlen Hi Hall Hq He Ha.
  destruct (repr_victim_rank n bits order Hr Hn) as [Hv _].
  assert (Hvn : (LruSpec.victim order < n)%nat) by (by apply Hr).
  destruct (touch_bits_refines n bits order Hr _ Hvn) as (bits' & E & Hr').
  destruct (si_incrementAttempt_wf n k e attempt He Ha) as (e' & Ee & He' & _).
  exists bits', e'. split; [done|split; [done|]]. intros j. cbn [Lru.attempts Lru.m_lru_bits].
  rewrite (scan_victim n bits order) by done.
  rewrite (proj2 (Nat.ltb_lt _ (length blocks))) by lia. cbn [rguard rbind Lru.m_num_attempts].
  assert (Lru.qbs_query cntlr blocks attempt k (LruSpec.victim order) = Ok false) as ->.
  { unfold Lru.qbs_query. destruct (Z.ltb_spec attempt (k - 1)); [|done].
    destruct Hq as [->|(c & -> & Hc)]; [lia|]. cbn [of_option rbind].
    destruct (lookup_lt_is_Some_2 blocks (LruSpec.victim order)) as [b Hb]; [lia|].
    rewrite (aget_Ok _ _ _ Hb). cbn. by rewrite Hc. }
  cbn [rbind]. unfold Lru.moveToMRU. cbn [Lru.m_lru_bits Lru.m_num_attempts].
  rewrite E. cbn [rbind]. rewrite Ee. done.
Qed.

(** * Properties *)

(** C21: on a set whose ways are all valid and may all be replaced, LRU
    replacement with one attempt (the policy "lru", not "lru_qbs") picks the
    bottom of the recency stack and moves it to the top. *)
Theorem lru_refines_recency n cntlr blocks bits order e :
  LruSpec.repr n bits order -> (0 < n)%nat -> length blocks = n ->
  Forall (fun b => isValid b = true) blocks ->
  Forall (fun b => replaceable b = true) blocks -> set_info_wf n 1 e ->
  exists bits' e',
    Lru.getReplacementIndex cntlr blocks (Lru.mk 1 bits) e
      = Ok (LruSpec.victim order, Lru.mk 1 bits', e') /\
    LruSpec.repr n bits' (LruSpec.touch (LruSpec.victim order) order).
Proof.
  intros Hr Hn Hlen Hval Hall He. unfold Lru.getReplacementIndex.
  rewrite first_invalid_none by done.
  destruct (lru_attempt_step n cntlr blocks 0 0 bits order 1 e) as (bits' & e' & _ & Hr' & E);
    [try solve [by auto | lia]..|].
  exists bits', e'. change (Z.to_nat _) with 1%nat. rewrite E. done.
Qed.

(** With two query-based attempts and a controller that rejects nothing, the
    way returned is the second least recently used one: the loop goes on after an
    accepted victim and evicts the next way. *)
Theorem lru_qbs_returns_second n c blocks bits order e :
  LruSpec.repr n bits order -> (0 < n)%nat -> length blocks = n ->
  Forall (fun b => isValid b = true) blocks ->
  Forall (fun b => replaceable b = true) blocks -> set_info_wf n 2 e ->
  (forall b, isInLowerLevelCache c b = false) ->
  exists p' e',
    Lru.getReplacementIndex (Some c) blocks (Lru.mk 2 bits) e
      = Ok (LruSpec.victim (LruSpec.touch (LruSpec.victim order) order), p', e').
Proof.
  intros Hr Hn Hlen Hval Hall He Hc. unfold Lru.getReplacementIndex.
  rewrite first_invalid_none by done. change (Z.to_nat _) with 2%nat.
  destruct (lru_attempt_step n (Some c) blocks 0 0 bits order 2 e) as (b1 & e1 & He1 & Hr1 & E1);
    [try solve [by eauto | lia]..|].
  destruct (repr_victim_rank n bits order Hr Hn) as [Hv _].
  destruct (lru_attempt_step n (Some c) blocks (LruSpec.victim order) 1 b1 _ 2 e1 Hr1)
    as (b2 & e2 & _ & _ & E2); [try solve [by eauto | lia | by apply Hr]..|].
  rewrite E1, E2. cbn. eauto.
Qed.

(** * Witnesses: a full set of three ways, recency order 0, 1, 2 *)
Definition three_lines : list CacheBlockInfo :=
  map (fun i => setTag i (new_block (SubPrL1 false))) [10; 11; 12].

Lemma three_repr : LruSpec.repr 3 [0; 1; 2] [0; 1; 2]%nat.
Proof. apply (seq_repr 3). lia. Qed.

Lemma lru_refines_recency_witness :
  exists bits' e',
    Lru.getReplacementIndex None three_lines (Lru.mk 1 [0; 1; 2]) (mkEnv (Some (create_set_info 3 1)) 0)
      = Ok (LruSpec.victim [0; 1; 2]%nat, Lru.mk 1 bits', e') /\
    LruSpec.repr 3 bits' (LruSpec.touch (LruSpec.victim [0; 1; 2]%nat) [0; 1; 2]%nat).
Proof.
  apply lru_refines_recency.
  - exact three_repr.
  - lia.
  - reflexivity.
  - repeat constructor.
  - repeat constructor.
  - apply create_set_info_wf.
Defined.

Lemma lru_qbs_returns_second_witness :
  exists p' e',
    Lru.getReplacementIndex (Some (mkCntlr (fun _ => false))) three_lines (Lru.mk 2 [0; 1; 2])
        (mkEnv (Some (create_set_info 3 2)) 0)
      = Ok (LruSpec.victim (LruSpec.touch (LruSpec.victim [0; 1; 2]%nat) [0; 1; 2]%nat), p', e').
Proof.
  apply (lru_qbs_returns_second 3).
  - exact three_repr.
  - lia.
  - reflexivity.
  - repeat constructor.
  - repeat constructor.
  - apply create_set_info_wf.
  - reflexivity.
Defined.
