(* ===== verification/PolicyMisc.v ===== *)
(** The remaining table-based replacement policies of
    common/core/memory_subsystem/cache: cache_set_mru.cc, cache_set_nmru.cc,
    cache_set_nru.cc, cache_set_plru.cc, cache_set_round_robin.cc and
    cache_set_random.cc. *)
From stdpp Require Import base numbers list.
From Stdlib Require Import ZArith Lia Bool.
From S2P Require Import Prelude Utils CacheBlock Replacement PolicyLru.
Open Scope Z_scope.

(** [m_replacement_pointer = (m_replacement_pointer + 1) % m_associativity] on a
    UInt8 pointer. *)
Definition next_pointer (n ptr : nat) : nat := Z.to_nat (u8 (Z.of_nat (S ptr mod n))).

(** [for (i = 0; i < m_associativity; i++) { if (ok(ptr)) ...; ptr = next }]:
    the way found and the pointer after it. *)
Fixpoint cyclic_search (k n : nat) (ok : nat -> result bool) (ptr : nat)
  : result (option nat * nat) :=
  match k with
  | O => Ok (None, ptr)
  | S k' =>
      let! b := ok ptr in
      if b : bool then Ok (Some ptr, next_pointer n ptr)
      else cyclic_search k' n ok (next_pointer n ptr)
  end.

Module Mru.

Definition t := list Z.

Definition create (associativity : nat) : t :=
  map (fun i => u8 (Z.of_nat i)) (seq 0 associativity).

Definition updateReplacementIndex (accessed_index : nat) (p : t) (e : RepEnv)
  : result (t * RepEnv) :=
  let! bits := touch_bits accessed_index p in
  Ok (bits, e).

(** [while (target < m_associativity)] with the scan of the ways inside. *)
Fixpoint search (k : nat) (target : Z) (blocks : list CacheBlockInfo) (p : t) : option nat :=
  match k with
  | O => None
  | S k' =>
      match find_first (fun bb => (fst bb =? target) && replaceable (snd bb)) (combine p blocks) with
      | Some i => Some i
      | None => search k' (target + 1) blocks p
      end
  end.

Definition getReplacementIndex (cntlr : option CacheCntlr) (blocks : list CacheBlockInfo)
    (p : t) (e : RepEnv) : result (nat * t * RepEnv) :=
  let! i := of_option
              (match first_invalid blocks with
               | Some i => Some i
               | None => search (length blocks) 0 blocks p
               end) LogError in
  let! (p, e) := updateReplacementIndex i p e in
  Ok (i, p, e).

#[global] Instance policy : ReplacementPolicy t := {
  Replacement.getReplacementIndex := getReplacementIndex;
  Replacement.updateReplacementIndex := updateReplacementIndex
}.

End Mru.

Module Nmru.

Record t := mk {
  m_lru_bits : list Z;
  m_replacement_pointer : nat
}.

Definition create (associativity : nat) : t :=
  mk (map (fun i => u8 (Z.of_nat i)) (seq 0 associativity)) 0.

Definition updateReplacementIndex (accessed_index : nat) (p : t) (e : RepEnv)
  : result (t * RepEnv) :=
  let! bits := touch_bits accessed_index (m_lru_bits p) in
  Ok (mk bits (m_replacement_pointer p), e).

(** [m_lru_bits[ptr] != 0 && isValidReplacement(ptr)] *)
Definition candidate (blocks : list CacheBlockInfo) (p : t) (ptr : nat) : result bool :=
  let! b := aget (m_lru_bits p) ptr in
  if b =? 0 then Ok false else isValidReplacement blocks ptr.

Definition getReplacementIndex (cntlr : option CacheCntlr) (blocks : list CacheBlockInfo)
    (p : t) (e : RepEnv) : result (nat * t * RepEnv) :=
  match first_invalid blocks with
  | Some i =>
      let! (p, e) := updateReplacementIndex i p e in
      Ok (i, p, e)
  | None =>
      let n := length blocks in
      let! (found, ptr) := cyclic_search n n (candidate blocks p) (m_replacement_pointer p) in
      let! index := of_option found LogError in
      let! (p, e) := updateReplacementIndex index (mk (m_lru_bits p) ptr) e in
      Ok (index, p, e)
  end.

#[global] Instance policy : ReplacementPolicy t := {
  Replacement.getReplacementIndex := getReplacementIndex;
  Replacement.updateReplacementIndex := updateReplacementIndex
}.

End Nmru.

Module Nru.

Record t := mk {
  m_lru_bits : list Z;
  m_num_bits_set : Z;
  m_replacement_pointer : nat
}.

Definition create (associativity : nat) : t := mk (replicate associativity 0) 0 0.

Definition updateReplacementIndex (accessed_index : nat) (p : t) (e : RepEnv)
  : result (t * RepEnv) :=
  let! bits := aset (m_lru_bits p) accessed_index 1 in
  let num := u8 (m_num_bits_set p + 1) in
  if num =? Z.of_nat (length bits)
  then Ok (mk (replicate (length bits) 0) 0 (m_replacement_pointer p), e)
  else Ok (mk bits num (m_replacement_pointer p), e).

(** [have_zero_bit] after the first loop over a set without invalid ways. *)
Definition have_zero_bit (blocks : list CacheBlockInfo) (p : t) : bool :=
  existsb (fun bb => (fst bb =? 0) && replaceable (snd bb)) (combine (m_lru_bits p) blocks).

Definition candidate (blocks : list CacheBlockInfo) (p : t) (ptr : nat) : result bool :=
  let! b := aget (m_lru_bits p) ptr in
  if (b =? 0) || negb (have_zero_bit blocks p) then isValidReplacement blocks ptr else Ok false.

Definition getReplacementIndex (cntlr : option CacheCntlr) (blocks : list CacheBlockInfo)
    (p : t) (e : RepEnv) : result (nat * t * RepEnv) :=
  match first_invalid blocks with
  | Some i =>
      let! (p, e) := updateReplacementIndex i p e in
      Ok (i, p, e)
  | None =>
      let n := length blocks in
      let! (found, ptr) := cyclic_search n n (candidate blocks p) (m_replacement_pointer p) in
      let! index := of_option found LogError in
      let! (p, e) := updateReplacementIndex index (mk (m_lru_bits p) (m_num_bits_set p) ptr) e in
      Ok (index, p, e)
  end.

#[global] Instance policy : ReplacementPolicy t := {
  Replacement.getReplacementIndex := getReplacementIndex;
  Replacement.updateReplacementIndex := updateReplacementIndex
}.

End Nru.

Module Plru.

(** The tree bits [b[8]] and the associativity (4 or 8). *)
Record t := mk {
  m_associativity : nat;
  b : list Z
}.

Definition create (associativity : nat) : result t :=
  guard! (associativity =? 4)%nat || (associativity =? 8)%nat else LogError in
  Ok (mk associativity (replicate 8 0)).

(** The assignments [b[i] = v] of one branch of [updateReplacementIndex]. *)
Definition set_bits (p : t) (ws : list (nat * nat)) : t :=
  mk (m_associativity p) (foldl (fun l w => <[fst w := Z.of_nat (snd w)]> l) (b p) ws).

Definition updateReplacementIndex (accessed_index : nat) (p : t) (e : RepEnv)
  : result (t * RepEnv) :=
  if (m_associativity p =? 4)%nat then
    Ok (match accessed_index with
        | 0 => set_bits p [(0, 1); (1, 1)]%nat
        | 1 => set_bits p [(0, 1); (1, 0)]%nat
        | 2 => set_bits p [(0, 0); (2, 1)]%nat
        | 3 => set_bits p [(0, 0); (2, 0)]%nat
        | _ => p
        end%nat, e)
  else if (m_associativity p =? 8)%nat then
    Ok (match accessed_index with
        | 0 => set_bits p [(0, 1); (1, 1); (2, 1)]%nat
        | 1 => set_bits p [(0, 1); (1, 1); (2, 0)]%nat
        | 2 => set_bits p [(0, 1); (1, 0); (3, 1)]%nat
        | 3 => set_bits p [(0, 1); (1, 0); (3, 0)]%nat
        | 4 => set_bits p [(0, 0); (4, 1); (5, 1)]%nat
        | 5 => set_bits p [(0, 0); (4, 1); (5, 0)]%nat
        | 6 => set_bits p [(0, 0); (4, 0); (6, 1)]%nat
        | 7 => set_bits p [(0, 0); (4, 0); (6, 0)]%nat
        | _ => p
        end%nat, e)
  else Err LogError.

(** [b[i] == 0] *)
Definition zero (p : t) (i : nat) : bool := default 0 (b p !! i) =? 0.

Definition victim (p : t) : result nat :=
  if (m_associativity p =? 4)%nat then
    Ok (if zero p 0 then (if zero p 1 then 0 else 1)
        else (if zero p 2 then 2 else 3))%nat
  else if (m_associativity p =? 8)%nat then
    Ok (if zero p 0 then
          (if zero p 1 then (if zero p 2 then 0 else 1)
           else (if zero p 3 then 2 else 3))
        else
          (if zero p 4 then (if zero p 5 then 4 else 5)
           else (if zero p 6 then 6 else 7)))%nat
  else Err LogError.

Definition getReplacementIndex (cntlr : option CacheCntlr) (blocks : list CacheBlockInfo)
    (p : t) (e : RepEnv) : result (nat * t * RepEnv) :=
  match first_invalid blocks with
  | Some i =>
      let! (p, e) := updateReplacementIndex i p e in
      Ok (i, p, e)
  | None =>
      let! retValue := victim p in
      let! ok := isValidReplacement blocks retValue in
      guard! ok else LogError in
      let! (p, e) := updateReplacementIndex retValue p e in
      Ok (retValue, p, e)
  end.

#[global] Instance policy : ReplacementPolicy t := {
  Replacement.getReplacementIndex := getReplacementIndex;
  Replacement.updateReplacementIndex := updateReplacementIndex
}.

End Plru.

Module RoundRobin.

(** [m_replacement_index] *)
Definition t := nat.

Definition create (associativity : nat) : t := (associativity - 1)%nat.

(** The recursion of [getReplacementIndex]; [fuel] bounds its depth (a set with
    a replaceable way needs at most [m_associativity] calls). *)
Fixpoint replacement_loop (fuel : nat) (blocks : list CacheBlockInfo) (p : t)
  : option (result (nat * t)) :=
  match fuel with
  | O => None
  | S fuel' =>
      let curr_replacement_index := p in
      let m_replacement_index := if (p =? 0)%nat then (length blocks - 1)%nat else (p - 1)%nat in
      match isValidReplacement blocks m_replacement_index with
      | Ok true => Some (Ok (curr_replacement_index, m_replacement_index))
      | Ok false => replacement_loop fuel' blocks m_replacement_index
      | Err e => Some (Err e)
      end
  end.

Definition getReplacementIndex (cntlr : option CacheCntlr) (blocks : list CacheBlockInfo)
    (p : t) (e : RepEnv) : result (nat * t * RepEnv) :=
  (* an endless recursion exhausts the stack *)
  match replacement_loop (length blocks) blocks p with
  | Some (Ok (i, p)) => Ok (i, p, e)
  | Some (Err err) => Err err
  | None => Err Undefined
  end.

Definition updateReplacementIndex (accessed_index : nat) (p : t) (e : RepEnv)
  : result (t * RepEnv) := Ok (p, e).

#[global] Instance policy : ReplacementPolicy t := {
  Replacement.getReplacementIndex := getReplacementIndex;
  Replacement.updateReplacementIndex := updateReplacementIndex
}.

End RoundRobin.

Module RandomPolicy.

(** [m_rand._seed], and the recursion depth the model follows.  The code draws
    again until it hits a replaceable way; a set whose ways may all be replaced
    is served by the first draw, and with ways that may not be, a run of [depth]
    bad draws ends the model with [Undefined] where the code goes on drawing, as
    deep as its stack allows. *)
Record t := mk {
  seed : Z;
  depth : nat
}.

Fixpoint draw (fuel : nat) (blocks : list CacheBlockInfo) (s : Z) : result (nat * Z) :=
  match fuel with
  | O => Err Undefined
  | S fuel' =>
      guard! negb (length blocks =? 0)%nat else Undefined in
      let! (s, v) := Rng.random_next s 32768 in
      let index := Z.to_nat (v mod Z.of_nat (length blocks)) in
      let! ok := isValidReplacement blocks index in
      if ok : bool then Ok (index, s) else draw fuel' blocks s
  end.

Definition getReplacementIndex (cntlr : option CacheCntlr) (blocks : list CacheBlockInfo)
    (p : t) (e : RepEnv) : result (nat * t * RepEnv) :=
  match first_invalid blocks with
  | Some i => Ok (i, p, e)
  | None =>
      let! (index, s) := draw (depth p) blocks (seed p) in
      Ok (index, mk s (depth p), e)
  end.

Definition updateReplacementIndex (accessed_index : nat) (p : t) (e : RepEnv)
  : result (t * RepEnv) := Ok (p, e).

#[global] Instance policy : ReplacementPolicy t := {
  Replacement.getReplacementIndex := getReplacementIndex;
  Replacement.updateReplacementIndex := updateReplacementIndex
}.

End RandomPolicy.

(** * Lemmas on the cyclic search *)
Lemma next_pointer_mod n ptr :
  (0 < n <= 256)%nat -> next_pointer n ptr = (S ptr mod n)%nat.
Proof.
  intros Hn. unfold next_pointer.
  pose proof (Nat.mod_upper_bound (S ptr) n ltac:(lia)).
  rewrite u8_small by lia. apply Nat2Z.id.
Qed.

Lemma next_pointer_lt n ptr : (0 < n <= 256)%nat -> (next_pointer n ptr < n)%nat.
Proof. intros Hn. rewrite next_pointer_mod by done. apply Nat.mod_upper_bound. lia. Qed.

Lemma cyclic_search_sound k n ok ptr i ptr' :
  (0 < n <= 256)%nat -> (ptr < n)%nat ->
  cyclic_search k n ok ptr = Ok (Some i, ptr') ->
  ok i = Ok true /\ (i < n)%nat /\ (ptr' < n)%nat.
Proof.
  intros Hn. revert ptr. induction k as [|k IH]; intros ptr Hptr H; [discriminate|].
  cbn [cyclic_search] in H. inv_ok. destruct v.
  - inv_ok. simplify_eq. split; [done|]. split; [done|by apply next_pointer_lt].
  - by apply IH in Hk; [|apply next_pointer_lt].
Qed.

Lemma cyclic_search_finds d k n ok ptr :
  (0 < n <= 256)%nat -> (ptr < n)%nat -> (d < k)%nat ->
  (forall i, (i < n)%nat -> exists b, ok i = Ok b) ->
  ok ((ptr + d) mod n)%nat = Ok true ->
  exists i ptr', cyclic_search k n ok ptr = Ok (Some i, ptr').
Proof.
  intros Hn. revert d ptr. induction k as [|k IH]; intros d ptr Hptr Hd Hall Hok; [lia|].
  cbn [cyclic_search]. destruct (Hall ptr Hptr) as [b Hb]. rewrite Hb. cbn [rbind].
  destruct b; [eauto|]. destruct d as [|d].
  - rewrite Nat.add_0_r, Nat.mod_small in Hok by done. congruence.
  - apply (IH d); [by apply next_pointer_lt|lia|done|].
    rewrite next_pointer_mod, Nat.Div0.add_mod_idemp_l by done.
    by replace (S ptr + d)%nat with (ptr + S d)%nat by lia.
Qed.

Lemma cyclic_search_total n ok ptr j :
  (0 < n <= 256)%nat -> (ptr < n)%nat -> (j < n)%nat ->
  (forall i, (i < n)%nat -> exists b, ok i = Ok b) -> ok j = Ok true ->
  exists i ptr', cyclic_search n n ok ptr = Ok (Some i, ptr').
Proof.
  intros Hn Hptr Hj Hall Hok.
  apply (cyclic_search_finds (if decide (ptr <= j)%nat then j - ptr else n + j - ptr)%nat);
    [done|done|case_decide; lia|done|].
  case_decide.
  - by replace (ptr + (j - ptr))%nat with j by lia; rewrite Nat.mod_small.
  - replace (ptr + (n + j - ptr))%nat with (j + 1 * n)%nat by lia.
    by rewrite Nat.Div0.mod_add, Nat.mod_small.
Qed.

Lemma isValidReplacement_total blocks i :
  (i < length blocks)%nat -> exists b, isValidReplacement blocks i = Ok b.
Proof.
  intros [b Hb]%lookup_lt_is_Some_2. exists (replaceable b).
  by apply isValidReplacement_lookup.
Qed.

Lemma isValidReplacement_all blocks i :
  (i < length blocks)%nat -> Forall (fun b => replaceable b = true) blocks ->
  isValidReplacement blocks i = Ok true.
Proof.
  intros [b Hb]%lookup_lt_is_Some_2 Hall.
  rewrite (isValidReplacement_lookup _ _ _ Hb). f_equal. by eapply Forall_lookup_1 in Hall.
Qed.

Lemma find_first_combine_lt {A B} (f : A * B -> bool) (l1 : list A) (l2 : list B) i :
  find_first f (combine l1 l2) = Some i -> (i < length l2)%nat.
Proof. intros H%find_first_lt. rewrite length_combine in H. lia. Qed.

(** * MRU *)
Definition mru_wf (n : nat) (p : Mru.t) (e : RepEnv) : Prop := exists order, LruSpec.repr n p order.

Lemma mru_update_wf n p e i :
  mru_wf n p e -> (i < n)%nat ->
  exists p', Mru.updateReplacementIndex i p e = Ok (p', e) /\ mru_wf n p' e.
Proof.
  intros [order Hr] Hi. unfold Mru.updateReplacementIndex.
  destruct (touch_bits_refines n p order Hr i Hi) as (p' & -> & Hr').
  exists p'. split; [done|]. by eexists.
Qed.

Lemma mru_search_lt k target blocks p i :
  Mru.search k target blocks p = Some i -> (i < length blocks)%nat.
Proof.
  revert target. induction k as [|k IH]; intros target; [discriminate|]. cbn [Mru.search].
  destruct (find_first _ _) as [j|] eqn:Hf; [|apply IH].
  intros [= ->]. by eapply find_first_combine_lt.
Qed.

#[global] Instance mru_laws : ReplacementLaws Mru.t.
Proof.
  refine {| policy_wf := mru_wf |}.
  - intros n p e i Hwf Hi. destruct (mru_update_wf n p e i Hwf Hi) as (p' & E & Hwf'). eauto.
  - intros n cntlr blocks p e i p' e' Hwf Hlen H. cbn in H. unfold Mru.getReplacementIndex in H.
    inv_ok. assert (Hi : (v < n)%nat).
    { destruct (first_invalid blocks) eqn:Hf; simplify_eq.
      - by apply find_first_lt in Hf.
      - by eapply mru_search_lt. }
    destruct (mru_update_wf n p e v Hwf Hi) as (p1 & E & Hwf1). rewrite E in Hv0.
    inv_ok. done.
Defined.

(** * NMRU *)
Definition nmru_wf (n : nat) (p : Nmru.t) (e : RepEnv) : Prop :=
  (2 <= n <= 256)%nat /\ (exists order, LruSpec.repr n (Nmru.m_lru_bits p) order) /\
  (Nmru.m_replacement_pointer p < n)%nat.

Lemma nmru_update_wf n p e i :
  nmru_wf n p e -> (i < n)%nat ->
  exists p', Nmru.updateReplacementIndex i p e = Ok (p', e) /\ nmru_wf n p' e.
Proof.
  intros (Hn & [order Hr] & Hp) Hi. unfold Nmru.updateReplacementIndex.
  destruct (touch_bits_refines n _ order Hr i Hi) as (bits & -> & Hr').
  eexists. split; [done|]. split; [done|split; [by eexists|done]].
Qed.

Lemma nmru_candidate_total n blocks p e i :
  nmru_wf n p e -> length blocks = n -> (i < n)%nat -> exists b, Nmru.candidate blocks p i = Ok b.
Proof.
  intros (Hn & [order Hr] & _) Hlen Hi. unfold Nmru.candidate.
  rewrite (aget_Ok _ _ _ (repr_lookup n _ order Hr i Hi)). cbn [rbind].
  destruct (_ =? 0); [eauto|]. apply isValidReplacement_total. lia.
Qed.

#[global] Instance nmru_laws : ReplacementLaws Nmru.t.
Proof.
  refine {| policy_wf := nmru_wf |}.
  - intros n p e i Hwf Hi. destruct (nmru_update_wf n p e i Hwf Hi) as (p' & E & Hwf'). eauto.
  - intros n cntlr blocks p e i p' e' Hwf Hlen H. cbn in H. unfold Nmru.getReplacementIndex in H.
    destruct (first_invalid blocks) as [j|] eqn:Hf.
    + apply find_first_lt in Hf. rewrite Hlen in Hf. inv_ok.
      destruct (nmru_update_wf n p e j Hwf Hf) as (p1 & E & Hwf1). rewrite E in Hv.
      inv_ok. done.
    + inv_ok. subst a. pose proof Hwf as (Hn & Hr & Hp). rewrite Hlen in Hv.
      apply cyclic_search_sound in Hv as (_ & Hi & Hp'); [|lia..].
      destruct (nmru_update_wf n (Nmru.mk (Nmru.m_lru_bits p) b) e v)
        as (p1 & E & Hwf1); [done|done|].
      rewrite E in Hv1. inv_ok. done.
Defined.

#[global] Instance nmru_fills : FillsInvalid Nmru.t.
Proof.
  constructor. intros n cntlr blocks p e i Hwf Hlen Hinv. cbn.
  unfold Nmru.getReplacementIndex. rewrite Hinv.
  destruct (nmru_update_wf n p e i Hwf) as (p1 & -> & _); [|cbn; eauto].
  apply find_first_lt in Hinv. lia.
Qed.

#[global] Instance mru_fills : FillsInvalid Mru.t.
Proof.
  constructor. intros n cntlr blocks p e i Hwf Hlen Hinv. cbn.
  unfold Mru.getReplacementIndex. rewrite Hinv. cbn [of_option rbind].
  destruct (mru_update_wf n p e i Hwf) as (p1 & -> & _); [|cbn; eauto].
  apply find_first_lt in Hinv. lia.
Qed.

(** The way at the top of the stack is the one whose bits are 0. *)
Lemma repr_top n bits order :
  LruSpec.repr n bits order -> (0 < n)%nat ->
  exists m, LruSpec.rank order m = O /\ (m < n)%nat /\ hd_error order = Some m.
Proof.
  intros Hr Hn. pose proof (repr_length_order n bits order Hr) as Hlen.
  destruct order as [|m o]; [simpl in Hlen; lia|]. exists m. simpl.
  rewrite Nat.eqb_refl. split; [done|]. split; [|done]. apply Hr. by left.
Qed.

(** A victim exists when two ways do and all may be replaced: at most one way
    has rank 0. *)
#[global] Instance nmru_total : AlwaysReplaces Nmru.t.
Proof.
  refine {| needs_cntlr := fun _ => false |}.
  intros n cntlr blocks p e Hwf Hn Hlen _ Hall. cbn. unfold Nmru.getReplacementIndex.
  destruct (first_invalid blocks) as [j|] eqn:Hf.
  { destruct (nmru_update_wf n p e j Hwf) as (p1 & -> & _); [|cbn; eauto].
    apply find_first_lt in Hf. lia. }
  rewrite Hlen. pose proof Hwf as (Hn2 & [order Hr] & Hp).
  assert (Hj : exists j, (j < n)%nat /\ LruSpec.rank order j <> O).
  { destruct (repr_top n _ order Hr Hn) as (m & Hm & Hmn & _).
    exists (if decide (m = 0)%nat then 1 else 0)%nat. split; [case_decide; lia|].
    intros H0. rewrite <- Hm in H0. apply (repr_rank_inj n _ order Hr) in H0; case_decide; lia. }
  destruct Hj as (j & Hj & Hrank).
  destruct (cyclic_search_total n (Nmru.candidate blocks p) (Nmru.m_replacement_pointer p) j)
    as (i & ptr' & Hs); [lia|done|done|by intros; eapply nmru_candidate_total|..].
  { unfold Nmru.candidate. rewrite (aget_Ok _ _ _ (repr_lookup n _ order Hr j Hj)). cbn [rbind].
    rewrite (proj2 (Z.eqb_neq _ 0)) by lia. apply isValidReplacement_all; [lia|done]. }
  rewrite Hs. cbn [rbind of_option]. apply cyclic_search_sound in Hs as (_ & Hi & Hp'); [|lia..].
  destruct (nmru_update_wf n (Nmru.mk (Nmru.m_lru_bits p) ptr') e i) as (p1 & -> & _);
    [split; [lia|split; [by eexists|done]]|done|cbn; eauto].
Defined.

(** * MRU: totality *)
Lemma mru_search_top n blocks p order :
  LruSpec.repr n p order -> (0 < n)%nat -> length blocks = n ->
  Forall (fun b => replaceable b = true) blocks ->
  Mru.search n 0 blocks p = hd_error order.
Proof.
  intros Hr Hn Hlen Hall. destruct (repr_top n p order Hr Hn) as (m & Hm & Hmn & ->).
  destruct n as [|n]; [lia|]. cbn [Mru.search].
  assert (Hin : forall j x, combine p blocks !! j = Some x ->
            (fst x =? 0) && replaceable (snd x) = bool_decide (j = m)).
  { intros j [b blk] Hx. assert (Hj : (j < S n)%nat).
    { apply lookup_lt_Some in Hx. rewrite length_combine in Hx. lia. }
    apply lookup_combine_Some in Hx as [Hb Hblk]. simpl.
    eapply Forall_lookup_1 in Hall as ->; [|done]. rewrite andb_true_r.
    rewrite (repr_lookup (S n) p order Hr j Hj) in Hb. injection Hb as <-.
    case_bool_decide as Hjm.
    - subst j. by rewrite Hm.
    - apply Z.eqb_neq. intros H0. apply Hjm. apply (repr_rank_inj (S n) p order Hr); lia. }
  destruct (find_first _ _) as [i|] eqn:Hf.
  - apply find_first_Some in Hf as [(x & Hx & Hfx) _]. rewrite (Hin _ _ Hx) in Hfx.
    case_bool_decide; [congruence|discriminate].
  - exfalso. pose proof (repr_length_bits (S n) p order Hr) as Hlb.
    destruct (lookup_lt_is_Some_2 (combine p blocks) m) as [x Hx];
      [rewrite length_combine; lia|].
    pose proof (proj1 (find_first_None _ _) Hf _ _ Hx) as Hno. cbv beta in Hno.
    rewrite (Hin _ _ Hx), bool_decide_eq_true_2 in Hno by done. discriminate.
Qed.

#[global] Instance mru_total : AlwaysReplaces Mru.t.
Proof.
  refine {| needs_cntlr := fun _ => false |}.
  intros n cntlr blocks p e Hwf Hn Hlen _ Hall. cbn. unfold Mru.getReplacementIndex.
  assert (exists i, (i < n)%nat /\
    match first_invalid blocks with Some i => Some i
    | None => Mru.search (length blocks) 0 blocks p end = Some i) as (i & Hi & ->).
  { destruct (first_invalid blocks) as [j|] eqn:Hf.
    - exists j. split; [apply find_first_lt in Hf; lia|done].
    - destruct Hwf as [order Hr]. destruct (repr_top n p order Hr Hn) as (m & _ & Hm & Hhd).
      exists m. split; [done|]. rewrite Hlen, (mru_search_top n blocks p order) by done. done. }
  cbn [of_option rbind]. destruct (mru_update_wf n p e i Hwf Hi) as (p1 & -> & _). cbn. eauto.
Defined.

(** * NRU *)
Definition nru_wf (n : nat) (p : Nru.t) (e : RepEnv) : Prop :=
  (0 < n <= 256)%nat /\ length (Nru.m_lru_bits p) = n /\ (Nru.m_replacement_pointer p < n)%nat.

Lemma nru_update_wf n p e i :
  nru_wf n p e -> (i < n)%nat ->
  exists p', Nru.updateReplacementIndex i p e = Ok (p', e) /\ nru_wf n p' e.
Proof.
  intros (Hn & Hl & Hp) Hi. unfold Nru.updateReplacementIndex.
  rewrite aset_Ok by lia. cbn [rbind]. rewrite length_insert, Hl.
  destruct (_ =? Z.of_nat n); eexists; (split; [done|]); split; try done; cbn;
    rewrite ?length_replicate, ?length_insert; done.
Qed.

Lemma nru_candidate_total n blocks p e i :
  nru_wf n p e -> length blocks = n -> (i < n)%nat -> exists b, Nru.candidate blocks p i = Ok b.
Proof.
  intros (Hn & Hl & _) Hlen Hi. unfold Nru.candidate.
  destruct (lookup_lt_is_Some_2 (Nru.m_lru_bits p) i) as [v Hv]; [lia|].
  rewrite (aget_Ok _ _ _ Hv). cbn [rbind].
  destruct (_ || _); [|eauto]. apply isValidReplacement_total. lia.
Qed.

#[global] Instance nru_laws : ReplacementLaws Nru.t.
Proof.
  refine {| policy_wf := nru_wf |}.
  - intros n p e i Hwf Hi. destruct (nru_update_wf n p e i Hwf Hi) as (p' & E & Hwf'). eauto.
  - intros n cntlr blocks p e i p' e' Hwf Hlen H. cbn in H. unfold Nru.getReplacementIndex in H.
    destruct (first_invalid blocks) as [j|] eqn:Hf.
    + apply find_first_lt in Hf. rewrite Hlen in Hf. inv_ok.
      destruct (nru_update_wf n p e j Hwf Hf) as (p1 & E & Hwf1). rewrite E in Hv.
      inv_ok. done.
    + inv_ok. subst a. pose proof Hwf as (Hn & Hl & Hp). rewrite Hlen in Hv.
      apply cyclic_search_sound in Hv as (_ & Hi & Hp'); [|lia..].
      destruct (nru_update_wf n (Nru.mk (Nru.m_lru_bits p) (Nru.m_num_bits_set p) b) e v)
        as (p1 & E & Hwf1); [done|done|].
      rewrite E in Hv1. inv_ok. done.
Defined.

#[global] Instance nru_fills : FillsInvalid Nru.t.
Proof.
  constructor. intros n cntlr blocks p e i Hwf Hlen Hinv. cbn.
  unfold Nru.getReplacementIndex. rewrite Hinv.
  destruct (nru_update_wf n p e i Hwf) as (p1 & -> & _); [|cbn; eauto].
  apply find_first_lt in Hinv. lia.
Qed.

(** A replaceable way is enough for the search to succeed. *)
Lemma nru_search_some n blocks p e :
  nru_wf n p e -> length blocks = n -> Exists (fun b => replaceable b = true) blocks ->
  exists i ptr', cyclic_search n n (Nru.candidate blocks p) (Nru.m_replacement_pointer p)
    = Ok (Some i, ptr').
Proof.
  intros Hwf Hlen Hex. pose proof Hwf as (Hn & Hl & Hp).
  assert (exists j, (j < n)%nat /\ Nru.candidate blocks p j = Ok true) as (j & Hj & Hc).
  { unfold Nru.candidate. destruct (Nru.have_zero_bit blocks p) eqn:Hz.
    - unfold Nru.have_zero_bit in Hz. apply existsb_exists in Hz as ([v blk] & Hin & Hvb).
      apply list_elem_of_In, list_elem_of_lookup_1 in Hin as [j Hj].
      apply lookup_combine_Some in Hj as [Hjv Hjb]. simpl in Hvb. apply andb_prop in Hvb as [H0 Hrep].
      exists j. split; [apply lookup_lt_Some in Hjv; lia|].
      rewrite (aget_Ok _ _ _ Hjv). cbn [rbind]. rewrite H0. cbn [orb].
      rewrite (isValidReplacement_lookup _ _ _ Hjb). by rewrite Hrep.
    - apply Exists_exists in Hex as (blk & Hin & Hrep).
      apply list_elem_of_lookup_1 in Hin as [j Hj].
      exists j. apply lookup_lt_Some in Hj as Hjn. split; [lia|].
      destruct (lookup_lt_is_Some_2 (Nru.m_lru_bits p) j) as [v Hv]; [lia|].
      rewrite (aget_Ok _ _ _ Hv). cbn [rbind negb]. rewrite orb_true_r.
      rewrite (isValidReplacement_lookup _ _ _ Hj). by rewrite Hrep. }
  apply (cyclic_search_total n _ _ j); [lia|done|done| |done].
  intros i Hi. by eapply nru_candidate_total.
Qed.

#[global] Instance nru_total : AlwaysReplaces Nru.t.
Proof.
  refine {| needs_cntlr := fun _ => false |}.
  intros n cntlr blocks p e Hwf Hn Hlen _ Hall. cbn. unfold Nru.getReplacementIndex.
  destruct (first_invalid blocks) as [j|] eqn:Hf.
  { destruct (nru_update_wf n p e j Hwf) as (p1 & -> & _); [|cbn; eauto].
    apply find_first_lt in Hf. lia. }
  rewrite Hlen. destruct (nru_search_some n blocks p e Hwf Hlen) as (i & ptr' & Hs).
  { destruct blocks as [|blk blocks]; [simpl in Hlen; lia|]. left.
    by apply Forall_cons in Hall as [? _]. }
  rewrite Hs. cbn [rbind of_option]. pose proof Hwf as (Hn' & Hl & Hp).
  apply cyclic_search_sound in Hs as (_ & Hi & Hp'); [|lia..].
  destruct (nru_update_wf n (Nru.mk (Nru.m_lru_bits p) (Nru.m_num_bits_set p) ptr') e i)
    as (p1 & -> & _); [split; done|done|cbn; eauto].
Defined.

(** * PLRU *)
Definition plru_wf (n : nat) (p : Plru.t) (e : RepEnv) : Prop :=
  Plru.m_associativity p = n /\ (n = 4 \/ n = 8)%nat /\ length (Plru.b p) = 8%nat.

Lemma plru_update_wf n p e i :
  plru_wf n p e -> (i < n)%nat ->
  exists p', Plru.updateReplacementIndex i p e = Ok (p', e) /\ plru_wf n p' e.
Proof.
  intros (Ha & Hn & Hl) Hi. unfold Plru.updateReplacementIndex. rewrite Ha.
  destruct Hn as [-> | ->]; simpl; do 8 (destruct i as [|i]; [
    eexists; (split; [done|]); split; [done|]; cbn; rewrite ?length_insert; auto |]); lia.
Qed.

Lemma plru_victim_lt n p e : plru_wf n p e -> exists i, Plru.victim p = Ok i /\ (i < n)%nat.
Proof.
  intros (Ha & Hn & _). unfold Plru.victim. rewrite Ha.
  destruct Hn as [-> | ->]; simpl; eexists; (split; [done|]);
    repeat destruct (Plru.zero _ _); lia.
Qed.

#[global] Instance plru_laws : ReplacementLaws Plru.t.
Proof.
  refine {| policy_wf := plru_wf |}.
  - intros n p e i Hwf Hi. destruct (plru_update_wf n p e i Hwf Hi) as (p' & E & Hwf'). eauto.
  - intros n cntlr blocks p e i p' e' Hwf Hlen H. cbn in H. unfold Plru.getReplacementIndex in H.
    destruct (first_invalid blocks) as [j|] eqn:Hf.
    + apply find_first_lt in Hf. rewrite Hlen in Hf. inv_ok.
      destruct (plru_update_wf n p e j Hwf Hf) as (p1 & E & Hwf1). rewrite E in Hv.
      inv_ok. done.
    + inv_ok. destruct (plru_victim_lt n p e Hwf) as (v' & Ev & Hv').
      rewrite Ev in Hv. inv_ok.
      destruct (plru_update_wf n p e v' Hwf Hv') as (p1 & E & Hwf1). rewrite E in Hv2.
      inv_ok. done.
Defined.

#[global] Instance plru_fills : FillsInvalid Plru.t.
Proof.
  constructor. intros n cntlr blocks p e i Hwf Hlen Hinv. cbn.
  unfold Plru.getReplacementIndex. rewrite Hinv.
  destruct (plru_update_wf n p e i Hwf) as (p1 & -> & _); [|cbn; eauto].
  apply find_first_lt in Hinv. lia.
Qed.

#[global] Instance plru_total : AlwaysReplaces Plru.t.
Proof.
  refine {| needs_cntlr := fun _ => false |}.
  intros n cntlr blocks p e Hwf Hn Hlen _ Hall. cbn. unfold Plru.getReplacementIndex.
  destruct (first_invalid blocks) as [j|] eqn:Hf.
  { destruct (plru_update_wf n p e j Hwf) as (p1 & -> & _); [|cbn; eauto].
    apply find_first_lt in Hf. lia. }
  destruct (plru_victim_lt n p e Hwf) as (v & -> & Hv). cbn [rbind].
  rewrite isValidReplacement_all by (done || lia). cbn [rbind rguard].
  destruct (plru_update_wf n p e v Hwf Hv) as (p1 & -> & _). cbn. eauto.
Defined.

(** * Round robin *)
Definition rr_wf (n : nat) (p : RoundRobin.t) (e : RepEnv) : Prop := (p < n)%nat.

Lemma rr_loop_sound fuel blocks p i p' :
  (p < length blocks)%nat -> RoundRobin.replacement_loop fuel blocks p = Some (Ok (i, p')) ->
  (i < length blocks)%nat /\ (p' < length blocks)%nat.
Proof.
  revert p. induction fuel as [|fuel IH]; intros p Hp; [discriminate|].
  cbn [RoundRobin.replacement_loop].
  assert (Hq : ((if p =? 0 then length blocks - 1 else p - 1) < length blocks)%nat)
    by (destruct (p =? 0)%nat; lia).
  destruct (isValidReplacement _ _) as [[]|]; [|by apply IH|done].
  intros [= <- <-]. done.
Qed.

(** The way left in [m_replacement_index] is the one that was checked. *)
Lemma rr_loop_result fuel blocks p i p' :
  RoundRobin.replacement_loop fuel blocks p = Some (Ok (i, p')) ->
  p' = (if (i =? 0) then length blocks - 1 else i - 1)%nat /\
  isValidReplacement blocks p' = Ok true.
Proof.
  revert p. induction fuel as [|fuel IH]; intros p; [discriminate|].
  cbn [RoundRobin.replacement_loop].
  destruct (isValidReplacement blocks (if (p =? 0)%nat then _ else _)) as [[]|] eqn:Hv;
    [|by apply IH|done].
  intros [= <- <-]. done.
Qed.

(** The recursion stops at the latest when it has counted down to a way that
    may be replaced: [d] calls where the way is [d] positions below [p]. *)
Lemma rr_loop_terminates d fuel blocks p j :
  (p < length blocks)%nat -> (1 <= d <= fuel)%nat ->
  (j + d = p \/ j + d = p + length blocks)%nat -> (j < length blocks)%nat ->
  isValidReplacement blocks j = Ok true ->
  exists i p', RoundRobin.replacement_loop fuel blocks p = Some (Ok (i, p')).
Proof.
  revert d p. induction fuel as [|fuel IH]; intros d p Hp Hd Hj Hjn Hok; [lia|].
  cbn [RoundRobin.replacement_loop].
  assert (Hq : ((if p =? 0 then length blocks - 1 else p - 1) < length blocks)%nat)
    by (destruct (p =? 0)%nat; lia).
  destruct (isValidReplacement_total blocks _ Hq) as [[] Hb]; rewrite Hb; [eauto|].
  destruct (decide (d = 1)%nat) as [->|Hd1].
  - assert ((if p =? 0 then length blocks - 1 else p - 1) = j)%nat as Heq.
    { destruct (Nat.eqb_spec p 0); lia. }
    rewrite Heq in Hb. congruence.
  - apply (IH (d - 1)%nat); [done|lia| |done|done]. destruct (Nat.eqb_spec p 0); lia.
Qed.

#[global] Instance rr_laws : ReplacementLaws RoundRobin.t.
Proof.
  refine {| policy_wf := rr_wf |}.
  - intros n p e i Hwf Hi. exists p, e. done.
  - intros n cntlr blocks p e i p' e' Hwf Hlen H. cbn in H.
    unfold RoundRobin.getReplacementIndex in H.
    destruct (RoundRobin.replacement_loop _ _ _) as [[[j q]|]|] eqn:Hl; [|done..].
    injection H as <- <- <-. apply rr_loop_sound in Hl; rewrite Hlen in *; done.
Defined.

Lemma rr_returns n cntlr blocks p e j :
  rr_wf n p e -> length blocks = n -> (j < n)%nat -> isValidReplacement blocks j = Ok true ->
  exists i p', RoundRobin.getReplacementIndex cntlr blocks p e = Ok (i, p', e).
Proof.
  intros Hwf Hlen Hj Hok. unfold rr_wf in Hwf. unfold RoundRobin.getReplacementIndex.
  destruct (rr_loop_terminates (if decide (j < p)%nat then p - j else p + n - j)%nat
              (length blocks) blocks p j) as (i & p' & ->); [..|eauto];
    try done; try case_decide; lia.
Qed.

#[global] Instance rr_total : AlwaysReplaces RoundRobin.t.
Proof.
  refine {| needs_cntlr := fun _ => false |}.
  intros n cntlr blocks p e Hwf Hn Hlen _ Hall.
  destruct (rr_returns n cntlr blocks p e 0 Hwf Hlen Hn) as (i & p' & H); [|cbn; eauto].
  apply isValidReplacement_all; [lia|done].
Defined.

(** * Random *)
Definition random_wf (n : nat) (p : RandomPolicy.t) (e : RepEnv) : Prop :=
  (0 < n)%nat /\ (0 < RandomPolicy.depth p)%nat.

Lemma draw_sound fuel blocks s i s' :
  RandomPolicy.draw fuel blocks s = Ok (i, s') ->
  (i < length blocks)%nat /\ isValidReplacement blocks i = Ok true.
Proof.
  revert s. induction fuel as [|fuel IH]; intros s H; [discriminate|].
  cbn [RandomPolicy.draw] in H. inv_ok. destruct v0; [|by eapply IH].
  inv_ok. split; [|done]. unfold isValidReplacement in Hv1. inv_ok.
  by eapply lookup_lt_Some.
Qed.

#[global] Instance random_laws : ReplacementLaws RandomPolicy.t.
Proof.
  refine {| policy_wf := random_wf |}.
  - intros n p e i Hwf Hi. exists p, e. done.
  - intros n cntlr blocks p e i p' e' Hwf Hlen H. cbn in H.
    unfold RandomPolicy.getReplacementIndex in H.
    destruct (first_invalid blocks) as [j|] eqn:Hf.
    + inv_ok. apply find_first_lt in Hf. rewrite Hlen in Hf. done.
    + inv_ok. apply draw_sound in Hv as [Hi _]. rewrite Hlen in Hi. done.
Defined.

#[global] Instance random_total : AlwaysReplaces RandomPolicy.t.
Proof.
  refine {| needs_cntlr := fun _ => false |}.
  intros n cntlr blocks p e [Hn Hd] _ Hlen _ Hall. cbn. unfold RandomPolicy.getReplacementIndex.
  destruct (first_invalid blocks) as [j|]; [eauto|].
  destruct (RandomPolicy.depth p) as [|d]; [lia|]. cbn [RandomPolicy.draw].
  rewrite (proj2 (Nat.eqb_neq (length blocks) 0)) by lia. cbn [negb rguard rbind Rng.random_next Z.eqb].
  rewrite isValidReplacement_all; [cbn; eauto| |done].
  set (x := _ mod 32768). pose proof (Z.mod_pos_bound x (Z.of_nat (length blocks))). lia.
Defined.

#[global] Instance random_fills : FillsInvalid RandomPolicy.t.
Proof.
  constructor. intros n cntlr blocks p e i Hwf Hlen Hinv. cbn.
  unfold RandomPolicy.getReplacementIndex. rewrite Hinv. eauto.
Qed.

(** * What each policy evicts from a full set *)

(** MRU evicts the way on top of the recency stack: in a full set whose
    ways may all be replaced, the victim is the most recently used way and the
    stack is left as it was. *)
Theorem mru_evicts_top n cntlr blocks p e order :
  LruSpec.repr n p order -> (0 < n)%nat -> length blocks = n ->
  Forall (fun b => isValid b = true) blocks ->
  Forall (fun b => replaceable b = true) blocks ->
  exists i p', Mru.getReplacementIndex cntlr blocks p e = Ok (i, p', e) /\
    hd_error order = Some i /\ LruSpec.repr n p' order.
Proof.
  intros Hr Hn Hlen Hval Hrep. unfold Mru.getReplacementIndex.
  rewrite first_invalid_none, Hlen, (mru_search_top n blocks p order) by done.
  destruct (repr_top n p order Hr Hn) as (m & _ & Hm & Hhd). rewrite Hhd. cbn [of_option rbind].
  unfold Mru.updateReplacementIndex.
  destruct (touch_bits_refines n p order Hr m Hm) as (p' & -> & Hr'). cbn [rbind].
  exists m, p'. split; [done|split; [done|]].
  destruct order as [|x o]; [done|]. injection Hhd as ->.
  replace (m :: o) with (LruSpec.touch m (m :: o)); [done|].
  unfold LruSpec.touch. f_equal. destruct Hr as [Hnd _].
  apply NoDup_cons in Hnd as [Hni _]. unfold LruSpec.drop_way.
  rewrite filter_cons_False by naive_solver. apply filter_everything.
  intros x Hx ->. done.
Qed.

(** NMRU never evicts the most recently used way of a full set. *)
Theorem nmru_spares_mru n cntlr blocks p e i p' e' order :
  nmru_wf n p e -> LruSpec.repr n (Nmru.m_lru_bits p) order -> length blocks = n ->
  Forall (fun b => isValid b = true) blocks ->
  Nmru.getReplacementIndex cntlr blocks p e = Ok (i, p', e') ->
  hd_error order <> Some i /\ isValidReplacement blocks i = Ok true.
Proof.
  intros (Hn & _ & Hp) Hr Hlen Hval H. unfold Nmru.getReplacementIndex in H.
  rewrite first_invalid_none in H by done. inv_ok. subst a. rename v into i. rewrite Hlen in Hv.
  apply cyclic_search_sound in Hv as (Hc & Hi & _); [|lia..].
  unfold Nmru.candidate in Hc.
  rewrite (aget_Ok _ _ _ (repr_lookup n _ order Hr i Hi)) in Hc. cbn [rbind] in Hc.
  destruct (Z.eqb_spec (Z.of_nat (LruSpec.rank order i)) 0) as [|Hne]; [discriminate|].
  split; [|done]. intros Hhd. apply Hne. destruct order as [|x o]; [done|].
  injection Hhd as ->. simpl. by rewrite Nat.eqb_refl.
Qed.

(** NRU evicts a way whose bit is clear whenever one of them may be
    replaced, and otherwise any replaceable way; it never evicts a line that is
    being upgraded, and it always finds a victim when one exists. *)
Theorem nru_prefers_untouched n cntlr blocks p e :
  nru_wf n p e -> length blocks = n ->
  Forall (fun b => isValid b = true) blocks ->
  Exists (fun b => replaceable b = true) blocks ->
  exists i p', Nru.getReplacementIndex cntlr blocks p e = Ok (i, p', e) /\ (i < n)%nat /\
    isValidReplacement blocks i = Ok true /\
    (Nru.have_zero_bit blocks p = true -> Nru.m_lru_bits p !! i = Some 0).
Proof.
  intros Hwf Hlen Hval Hex. unfold Nru.getReplacementIndex.
  rewrite first_invalid_none, Hlen by done.
  destruct (nru_search_some n blocks p e Hwf Hlen Hex) as (i & ptr' & Hs). rewrite Hs.
  cbn [rbind of_option]. pose proof Hwf as (Hn & Hl & Hp).
  apply cyclic_search_sound in Hs as (Hc & Hi & Hp'); [|lia..].
  destruct (nru_update_wf n (Nru.mk (Nru.m_lru_bits p) (Nru.m_num_bits_set p) ptr') e i)
    as (p1 & -> & _); [by split|done|]. cbn [rbind].
  exists i, p1. split; [done|split; [done|]].
  unfold Nru.candidate in Hc. inv_ok. destruct (Z.eqb_spec v 0) as [->|Hne]; cbn [orb] in Hk.
  - done.
  - destruct (Nru.have_zero_bit blocks p); [discriminate|]. done.
Qed.

(** Pseudo-LRU protects the way touched last: after a hit the tree bits
    lead to another way, whatever they were before. *)
Theorem plru_spares_last n p e i p' e' v :
  plru_wf n p e -> (i < n)%nat ->
  Plru.updateReplacementIndex i p e = Ok (p', e') -> Plru.victim p' = Ok v ->
  v <> i.
Proof.
  intros (Ha & Hn & Hl) Hi Hu Hv. destruct p as [a bits]. simpl in Ha, Hl. subst a.
  do 8 (destruct bits as [|? bits]; [discriminate|]). destruct bits; [|discriminate].
  unfold Plru.updateReplacementIndex in Hu. cbn [Plru.m_associativity] in Hu.
  destruct Hn as [-> | ->]; cbn in Hu;
    do 8 (destruct i as [|i]; [
      injection Hu as <- <-; unfold Plru.victim, Plru.zero in Hv; cbn in Hv;
      injection Hv as <-; repeat destruct (_ =? 0); lia |]); lia.
Qed.

(** Round robin terminates: in a set with a way that may be replaced the
    recursion of [getReplacementIndex] returns within [m_associativity]
    calls, and the index it leaves behind is the one below the victim. *)
Theorem rr_terminates n cntlr blocks p e j :
  rr_wf n p e -> length blocks = n -> (j < n)%nat -> isValidReplacement blocks j = Ok true ->
  exists i p', RoundRobin.getReplacementIndex cntlr blocks p e = Ok (i, p', e) /\
    (i < n)%nat /\ p' = (if (i =? 0) then n - 1 else i - 1)%nat /\
    isValidReplacement blocks p' = Ok true.
Proof.
  intros Hwf Hlen Hj Hok. destruct (rr_returns n cntlr blocks p e j) as (i & p' & H); [done..|].
  exists i, p'. split; [done|]. unfold RoundRobin.getReplacementIndex in H.
  destruct (RoundRobin.replacement_loop _ _ _) as [[[i' q]|]|] eqn:Hl; [|done..].
  injection H as -> ->. unfold rr_wf in Hwf. rewrite <- Hlen in Hwf.
  pose proof (rr_loop_sound _ _ _ _ _ Hwf Hl) as [Hi _]. rewrite <- Hlen. split; [done|].
  by eapply rr_loop_result.
Qed.

(** * Witnesses *)
Lemma mru_evicts_top_witness :
  exists i p', Mru.getReplacementIndex None three_lines [0; 1; 2] (mkEnv None 0) = Ok (i, p', mkEnv None 0) /\
    hd_error [0; 1; 2]%nat = Some i /\ LruSpec.repr 3 p' [0; 1; 2]%nat.
Proof.
  apply mru_evicts_top.
  - exact three_repr.
  - lia.
  - reflexivity.
  - repeat constructor.
  - repeat constructor.
Defined.

Lemma nmru_spares_mru_witness :
  hd_error [0; 1; 2]%nat <> Some 1%nat /\ isValidReplacement three_lines 1 = Ok true.
Proof.
  apply (nmru_spares_mru 3 None three_lines (Nmru.mk [0; 1; 2] 0) (mkEnv None 0) 1
           (Nmru.mk [1; 0; 2] 2) (mkEnv None 0) [0; 1; 2]%nat).
  - split; [lia|]. split; [exists [0; 1; 2]%nat; exact three_repr|cbn; lia].
  - exact three_repr.
  - reflexivity.
  - repeat constructor.
  - vm_compute. reflexivity.
Defined.

Lemma nru_prefers_untouched_witness :
  exists i p', Nru.getReplacementIndex None three_lines (Nru.mk [1; 0; 1] 2 2) (mkEnv None 0)
      = Ok (i, p', mkEnv None 0) /\ (i < 3)%nat /\ isValidReplacement three_lines i = Ok true /\
    (Nru.have_zero_bit three_lines (Nru.mk [1; 0; 1] 2 2) = true -> [1; 0; 1] !! i = Some 0).
Proof.
  apply (nru_prefers_untouched 3).
  - split; [lia|]. split; [reflexivity|cbn; lia].
  - reflexivity.
  - repeat constructor.
  - constructor. reflexivity.
Defined.

Lemma plru_spares_last_witness : 0%nat <> 2%nat.
Proof.
  apply (plru_spares_last 4 (Plru.mk 4 (replicate 8 0)) (mkEnv None 0) 2
           (Plru.mk 4 [0; 0; 1; 0; 0; 0; 0; 0]) (mkEnv None 0)).
  - split; [reflexivity|]. split; [left; reflexivity|reflexivity].
  - lia.
  - vm_compute. reflexivity.
  - vm_compute. reflexivity.
Defined.

Lemma rr_terminates_witness :
  exists i p', RoundRobin.getReplacementIndex None three_lines 0%nat (mkEnv None 0) = Ok (i, p', mkEnv None 0) /\
    (i < 3)%nat /\ p' = (if (i =? 0) then 3 - 1 else i - 1)%nat /\ isValidReplacement three_lines p' = Ok true.
Proof.
  apply (rr_terminates 3 None three_lines 0%nat (mkEnv None 0) 1).
  - unfold rr_wf. lia.
  - reflexivity.
  - lia.
  - reflexivity.
Defined.

(** Round robin checks the wrong way: the way it returns may be a line that
    is being upgraded, because the check is made on the way after it. *)
Theorem rr_returns_upgrading_line :
  let blocks := [setCState CacheState.SHARED_UPGRADING (setTag 1 (new_block (SubPrL1 false)));
                 setTag 2 (new_block (SubPrL1 false))] in
  RoundRobin.getReplacementIndex None blocks 0%nat (mkEnv None 0) = Ok (0%nat, 1%nat, mkEnv None 0) /\
  isValidReplacement blocks 0 = Ok false.
Proof. split; reflexivity. Qed.

(** The NRU bits are cleared by any [m_associativity] accesses, because the
    counter counts accesses and not set bits: four hits on one way clear the
    bit of that way although the other ways were never touched. *)
Theorem nru_clears_early :
  exists p1 p2 p3, let e := mkEnv None 0 in
    Nru.updateReplacementIndex 0 (Nru.create 4) e = Ok (p1, e) /\
    Nru.updateReplacementIndex 0 p1 e = Ok (p2, e) /\
    Nru.updateReplacementIndex 0 p2 e = Ok (p3, e) /\
    Nru.m_lru_bits p3 = [1; 0; 0; 0] /\
    Nru.updateReplacementIndex 0 p3 e = Ok (Nru.create 4, e).
Proof. eexists _, _, _. repeat split. Qed.
