(* ===== verification/PolicySrrip.v ===== *)
(** Static re-reference interval prediction with optional query-based
    selection: CacheSetSRRIP
    (common/core/memory_subsystem/cache/cache_set_srrip.cc). *)
From stdpp Require Import base numbers list.
From Stdlib Require Import ZArith Lia Bool.
From S2P Require Import Prelude Utils CacheBlock Replacement PolicyMisc.
Open Scope Z_scope.

Module Srrip.

Record t := mk {
  m_rrip_numbits : Z;
  m_rrip_max : Z;
  m_rrip_insert : Z;
  m_num_attempts : Z;
  m_rrip_bits : list Z;
  m_replacement_pointer : nat
}.

(** The constructor; [bits] is the configuration value srrip/bits.  A shift of
    an [int] by 31 or more has no defined value. *)
Definition create (bits : Z) (associativity : nat) (num_attempts : Z) : result t :=
  let numbits := u8 bits in
  guard! numbits <? 31 else Undefined in
  let rmax := u8 (Z.shiftl 1 numbits - 1) in
  let rins := u8 (rmax - 1) in
  Ok (mk numbits rmax rins num_attempts (replicate associativity rins) 0).

Definition set_bits_ptr (p : t) (bits : list Z) (ptr : nat) : t :=
  mk (m_rrip_numbits p) (m_rrip_max p) (m_rrip_insert p) (m_num_attempts p) bits ptr.

(** [attempt < m_num_attempts - 1] and then the query of the controller. *)
Definition qbs_reject (cntlr : option CacheCntlr) (blocks : list CacheBlockInfo) (p : t)
    (attempt : Z) (index : nat) : result bool :=
  if attempt <? m_num_attempts p - 1 then
    let! c := of_option cntlr LogError in
    let! b := aget blocks index in
    Ok (isInLowerLevelCache c b)
  else Ok false.

(** [for (i = 0; i < m_associativity; i++)]: the way chosen, if any, with the
    state, the attempt counter and the environment after the loop. *)
Fixpoint scan (k n : nat) (cntlr : option CacheCntlr) (blocks : list CacheBlockInfo)
    (p : t) (attempt : Z) (e : RepEnv) : result (option nat * t * Z * RepEnv) :=
  match k with
  | O => Ok (None, p, attempt, e)
  | S k' =>
      let index := m_replacement_pointer p in
      let! b := aget (m_rrip_bits p) index in
      if m_rrip_max p <=? b then
        let! reject := qbs_reject cntlr blocks p attempt index in
        if reject : bool then
          let! bits := aset (m_rrip_bits p) index 0 in
          scan k' n cntlr blocks (set_bits_ptr p bits index) (u8 (attempt + 1))
            (incrementQBSLookupCost e)
        else
          let! bits := aset (m_rrip_bits p) index (m_rrip_insert p) in
          let p := set_bits_ptr p bits (next_pointer n index) in
          let! e := with_set_info (si_incrementAttempt attempt) e in
          let! valid := isValidReplacement blocks index in
          guard! valid else LogError in
          Ok (Some index, p, attempt, e)
      else scan k' n cntlr blocks (set_bits_ptr p (m_rrip_bits p) (next_pointer n index)) attempt e
  end.

(** The ageing loop: every counter below the maximum goes up by one. *)
Definition age (p : t) : t :=
  set_bits_ptr p (map (fun b => if b <? m_rrip_max p then u8 (b + 1) else b) (m_rrip_bits p))
    (m_replacement_pointer p).

(** [for (j = 0; j <= m_rrip_max; ++j)] *)
Fixpoint rounds (j n : nat) (cntlr : option CacheCntlr) (blocks : list CacheBlockInfo)
    (p : t) (attempt : Z) (e : RepEnv) : result (nat * t * RepEnv) :=
  match j with
  | O => Err LogError
  | S j' =>
      let! (found, p, attempt, e) := scan n n cntlr blocks p attempt e in
      match found with
      | Some index => Ok (index, p, e)
      | None => rounds j' n cntlr blocks (age p) attempt e
      end
  end.

Definition getReplacementIndex (cntlr : option CacheCntlr) (blocks : list CacheBlockInfo)
    (p : t) (e : RepEnv) : result (nat * t * RepEnv) :=
  match first_invalid blocks with
  | Some i =>
      let! bits := aset (m_rrip_bits p) i (m_rrip_insert p) in
      Ok (i, set_bits_ptr p bits (m_replacement_pointer p), e)
  | None => rounds (S (Z.to_nat (m_rrip_max p))) (length blocks) cntlr blocks p 0 e
  end.

Definition updateReplacementIndex (accessed_index : nat) (p : t) (e : RepEnv)
  : result (t * RepEnv) :=
  let! b := aget (m_rrip_bits p) accessed_index in
  let! e := with_set_info (si_increment b) e in
  if b >? 0 then
    let! bits := aset (m_rrip_bits p) accessed_index (u8 (b - 1)) in
    Ok (set_bits_ptr p bits (m_replacement_pointer p), e)
  else Ok (p, e).

#[global] Instance policy : ReplacementPolicy t := {
  Replacement.getReplacementIndex := getReplacementIndex;
  Replacement.updateReplacementIndex := updateReplacementIndex
}.

End Srrip.

(** * Invariant *)

(** The parts of a state that never change. *)
Definition srrip_params (n : nat) (p : Srrip.t) : Prop :=
  (0 < n <= 256)%nat /\ 0 <= Srrip.m_rrip_insert p <= Srrip.m_rrip_max p /\
  Srrip.m_rrip_max p < Z.of_nat n /\ 1 <= Srrip.m_num_attempts p.

Definition srrip_bits_ok (n : nat) (p : Srrip.t) (bits : list Z) : Prop :=
  length bits = n /\ Forall (fun b => 0 <= b <= Srrip.m_rrip_max p) bits.

(** Every counter lies between 0 and [m_rrip_max], and [m_rrip_max] is an index
    of the access statistics, which have one cell per way. *)
Definition srrip_wf (n : nat) (p : Srrip.t) (e : RepEnv) : Prop :=
  srrip_params n p /\ srrip_bits_ok n p (Srrip.m_rrip_bits p) /\
  (Srrip.m_replacement_pointer p < n)%nat /\ set_info_wf n (Srrip.m_num_attempts p) e.

Lemma srrip_wf_update n p e bits ptr :
  srrip_wf n p e -> srrip_bits_ok n p bits -> (ptr < n)%nat ->
  srrip_wf n (Srrip.set_bits_ptr p bits ptr) e.
Proof. intros (Hp & _ & _ & He) Hb Hptr. repeat split; try done; apply Hp || apply Hb. Qed.

Lemma srrip_wf_env n p e e' :
  srrip_wf n p e -> set_info_wf n (Srrip.m_num_attempts p) e' -> srrip_wf n p e'.
Proof. intros (Hp & Hb & Hptr & _) He. done. Qed.

Lemma srrip_bits_insert n p bits i b :
  srrip_bits_ok n p bits -> 0 <= b <= Srrip.m_rrip_max p -> srrip_bits_ok n p (<[i := b]> bits).
Proof.
  intros [Hl Hf] Hb. split; [by rewrite length_insert|]. by apply Forall_insert.
Qed.

Lemma srrip_bits_lookup n p bits i b :
  srrip_bits_ok n p bits -> bits !! i = Some b -> 0 <= b <= Srrip.m_rrip_max p.
Proof. intros [_ Hf] Hi. by eapply Forall_lookup_1 in Hf. Qed.

Lemma srrip_age_wf n p e : srrip_wf n p e -> srrip_wf n (Srrip.age p) e.
Proof.
  intros Hwf. pose proof Hwf as ((Hn & Hins & Hmax & _) & [Hl Hf] & Hp & _).
  apply srrip_wf_update; [done| |done].
  split; [by rewrite length_map|]. apply Forall_map. eapply Forall_impl; [exact Hf|].
  intros b Hb. cbv beta in Hb. destruct (Z.ltb_spec b (Srrip.m_rrip_max p)); [|lia].
  rewrite u8_small by lia. lia.
Qed.

Lemma srrip_scan_wf k n cntlr blocks p attempt e r p' attempt' e' :
  srrip_wf n p e ->
  Srrip.scan k n cntlr blocks p attempt e = Ok (r, p', attempt', e') ->
  srrip_wf n p' e' /\ (forall i, r = Some i -> (i < n)%nat).
Proof.
  revert p attempt e. induction k as [|k IH]; intros p attempt e Hwf H; cbn [Srrip.scan] in H.
  { inv_ok. by split. }
  pose proof Hwf as ((Hn & Hins & Hmax & _) & Hb & Hp & He). inv_ok.
  pose proof (next_pointer_lt n (Srrip.m_replacement_pointer p) Hn) as Hnext.
  destruct (Srrip.m_rrip_max p <=? v); inv_ok.
  - destruct v0; inv_ok.
    + apply IH in Hk; [done|]. apply srrip_wf_update; [done| |done].
      apply srrip_bits_insert; [done|lia].
    + split; [|intros i [= <-]; done].
      apply (srrip_wf_env n _ e); [apply srrip_wf_update; [done| |done]|].
      * by apply srrip_bits_insert.
      * by eapply with_set_info_incr_inv.
  - apply IH in Hk; [done|]. by apply srrip_wf_update.
Qed.

Lemma srrip_rounds_wf j n cntlr blocks p attempt e i p' e' :
  srrip_wf n p e -> Srrip.rounds j n cntlr blocks p attempt e = Ok (i, p', e') ->
  (i < n)%nat /\ srrip_wf n p' e'.
Proof.
  revert p attempt e. induction j as [|j IH]; intros p attempt e Hwf H; [discriminate|].
  cbn [Srrip.rounds] in H. inv_ok. apply srrip_scan_wf in Hv as [Hwf1 Hr]; [|done].
  destruct a as [index|].
  - inv_ok. simplify_eq. split; [by apply Hr|done].
  - apply IH in Hk; [done|]. by apply srrip_age_wf.
Qed.

#[global] Instance srrip_laws : ReplacementLaws Srrip.t.
Proof.
  refine {| policy_wf := srrip_wf |}.
  - intros n p e i Hwf Hi. pose proof Hwf as ((Hn & Hins & Hmax & _) & Hb & Hp & He).
    destruct (lookup_lt_is_Some_2 (Srrip.m_rrip_bits p) i) as [b Hbi]; [destruct Hb; lia|].
    pose proof (srrip_bits_lookup n p _ i b Hb Hbi) as Hrange.
    cbn. unfold Srrip.updateReplacementIndex. rewrite (aget_Ok _ _ _ Hbi). cbn [rbind].
    destruct (si_increment_wf n (Srrip.m_num_attempts p) e b He) as (e1 & -> & He1 & _); [lia|].
    cbn [rbind]. destruct (Z.gtb_spec b 0).
    + rewrite aset_Ok by (destruct Hb; lia). cbn [rbind]. eexists _, _. split; [done|].
      apply (srrip_wf_env n _ e); [|done]. apply srrip_wf_update; [done| |done].
      apply srrip_bits_insert; [done|]. rewrite u8_small by lia. lia.
    + eexists _, _. split; [done|]. by eapply srrip_wf_env.
  - intros n cntlr blocks p e i p' e' Hwf Hlen H. cbn in H. unfold Srrip.getReplacementIndex in H.
    destruct (first_invalid blocks) as [j|] eqn:Hf.
    + apply find_first_lt in Hf. inv_ok. split; [lia|].
      pose proof Hwf as ((_ & Hins & _) & Hb & Hp & _).
      apply srrip_wf_update; [done| |done]. by apply srrip_bits_insert.
    + rewrite Hlen in H. by eapply srrip_rounds_wf.
Defined.

#[global] Instance srrip_fills : FillsInvalid Srrip.t.
Proof.
  constructor. intros n cntlr blocks p e i Hwf Hlen Hinv. cbn.
  unfold Srrip.getReplacementIndex. rewrite Hinv. apply find_first_lt in Hinv.
  destruct Hwf as (_ & [Hl _] & _). rewrite aset_Ok by lia. cbn. eauto.
Qed.

(** * Without query-based selection *)

(** With one attempt the scan is a cyclic search for a saturated counter. *)
Definition saturated (p : Srrip.t) (i : nat) : result bool :=
  let! b := aget (Srrip.m_rrip_bits p) i in
  Ok (Srrip.m_rrip_max p <=? b).

Lemma saturated_set_ptr p ptr i :
  saturated (Srrip.set_bits_ptr p (Srrip.m_rrip_bits p) ptr) i = saturated p i.
Proof. done. Qed.

Lemma cyclic_search_ext k n f g ptr :
  (forall i, f i = g i) -> cyclic_search k n f ptr = cyclic_search k n g ptr.
Proof.
  intros Hfg. revert ptr. induction k as [|k IH]; intros ptr; [done|].
  cbn [cyclic_search]. rewrite Hfg. destruct (g ptr) as [[]|]; cbn; auto.
Qed.

Lemma srrip_scan_cyclic k n cntlr blocks p e :
  srrip_wf n p e -> Srrip.m_num_attempts p = 1 -> length blocks = n ->
  Forall (fun b => replaceable b = true) blocks ->
  match cyclic_search k n (saturated p) (Srrip.m_replacement_pointer p) with
  | Ok (Some i, ptr) =>
      exists e', Srrip.scan k n cntlr blocks p 0 e =
        Ok (Some i, Srrip.set_bits_ptr p (<[i := Srrip.m_rrip_insert p]> (Srrip.m_rrip_bits p)) ptr, 0, e')
  | Ok (None, ptr) =>
      Srrip.scan k n cntlr blocks p 0 e =
        Ok (None, Srrip.set_bits_ptr p (Srrip.m_rrip_bits p) ptr, 0, e)
  | Err _ => False
  end.
Proof.
  intros Hwf Ha Hlen Hrep. revert p Hwf Ha. induction k as [|k IH]; intros p Hwf Ha.
  { cbn. destruct p. done. }
  pose proof Hwf as ((Hn & Hins & Hmax & _) & Hb & Hp & He). cbn [cyclic_search Srrip.scan].
  destruct (lookup_lt_is_Some_2 (Srrip.m_rrip_bits p) (Srrip.m_replacement_pointer p))
    as [b Hbi]; [destruct Hb; lia|].
  unfold saturated at 1. rewrite (aget_Ok _ _ _ Hbi). cbn [rbind].
  destruct (Z.leb_spec (Srrip.m_rrip_max p) b) as [Hsat|Hsat].
  - unfold Srrip.qbs_reject. rewrite Ha. change (0 <? 1 - 1) with false. cbn [rbind].
    rewrite aset_Ok by (destruct Hb; lia). cbn [rbind].
    destruct (si_incrementAttempt_wf n (Srrip.m_num_attempts p) e 0 He) as (e1 & He1 & _ & _); [lia|].
    rewrite He1. cbn [rbind]. rewrite isValidReplacement_all by (done || lia). cbn. by exists e1.
  - specialize (IH (Srrip.set_bits_ptr p (Srrip.m_rrip_bits p)
                      (next_pointer n (Srrip.m_replacement_pointer p)))).
    apply IH; [|done]. apply srrip_wf_update; [done|done|]. by apply next_pointer_lt.
Qed.

Lemma cyclic_search_bounds k n ok ptr r ptr' :
  (0 < n <= 256)%nat -> (ptr < n)%nat -> cyclic_search k n ok ptr = Ok (r, ptr') -> (ptr' < n)%nat.
Proof.
  intros Hn. revert ptr. induction k as [|k IH]; intros ptr Hptr H; cbn [cyclic_search] in H; inv_ok.
  { done. }
  destruct v; inv_ok; [by apply next_pointer_lt|]. eapply IH; [|done]. by apply next_pointer_lt.
Qed.

Lemma saturated_total n p e i : srrip_wf n p e -> (i < n)%nat -> exists b, saturated p i = Ok b.
Proof.
  intros (_ & [Hl _] & _) Hi. unfold saturated.
  destruct (lookup_lt_is_Some_2 (Srrip.m_rrip_bits p) i) as [b Hb]; [lia|].
  rewrite (aget_Ok _ _ _ Hb). cbn. eauto.
Qed.

(** Ageing below saturation adds one everywhere. *)
Lemma age_bits n p e d :
  srrip_wf n p e -> Forall (fun b => b <= Srrip.m_rrip_max p - Z.of_nat (S d)) (Srrip.m_rrip_bits p) ->
  Srrip.m_rrip_bits (Srrip.age p) = map (fun b => b + 1) (Srrip.m_rrip_bits p).
Proof.
  intros ((Hn & Hins & Hmax & _) & [_ Hr] & _) Hall. cbn. apply map_ext_in.
  intros b Hb%list_elem_of_In.
  eapply Forall_forall in Hall; [|exact Hb]. eapply Forall_forall in Hr; [|exact Hb].
  rewrite (proj2 (Z.ltb_lt _ _)) by lia. apply u8_small. lia.
Qed.

(** [d] rounds of ageing bring the largest counter to the maximum. *)
Lemma srrip_rounds_spec d j n cntlr blocks p e :
  srrip_wf n p e -> Srrip.m_num_attempts p = 1 -> length blocks = n -> (d < j)%nat ->
  Forall (fun b => replaceable b = true) blocks ->
  Forall (fun b => b <= Srrip.m_rrip_max p - Z.of_nat d) (Srrip.m_rrip_bits p) ->
  (exists w, Srrip.m_rrip_bits p !! w = Some (Srrip.m_rrip_max p - Z.of_nat d)) ->
  exists i p' e', Srrip.rounds j n cntlr blocks p 0 e = Ok (i, p', e') /\
    Srrip.m_rrip_bits p !! i = Some (Srrip.m_rrip_max p - Z.of_nat d) /\
    Srrip.m_rrip_bits p' =
      <[i := Srrip.m_rrip_insert p]> (map (fun b => b + Z.of_nat d) (Srrip.m_rrip_bits p)).
Proof.
  intros Hwf Ha Hlen Hd Hrep. revert j p e Hwf Ha Hd.
  induction d as [|d IH]; intros [|j] p e Hwf Ha Hd Hall [w Hw]; try lia; cbn [Srrip.rounds];
    pose proof Hwf as ((Hn & Hins & Hmax & _) & Hb & Hp & He);
    pose proof (srrip_scan_cyclic n n cntlr blocks p e Hwf Ha Hlen Hrep) as Hs.
  - assert (Hsat : saturated p w = Ok true).
    { unfold saturated. rewrite (aget_Ok _ _ _ Hw). cbn [rbind]. f_equal. apply Z.leb_le. lia. }
    destruct (cyclic_search_total n (saturated p) (Srrip.m_replacement_pointer p) w)
      as (i & ptr & Hc); [lia|done| |by intros; eapply saturated_total|done|].
    { apply lookup_lt_Some in Hw. destruct Hb. lia. }
    rewrite Hc in Hs. destruct Hs as [e' ->]. cbn [rbind]. eexists _, _, _. split; [done|].
    apply cyclic_search_sound in Hc as (Hci & _ & _); [|lia..]. unfold saturated in Hci. inv_ok. zbool.
    rewrite Hv. split.
    + f_equal. eapply Forall_lookup_1 in Hall; [|exact Hv]. lia.
    + cbn. f_equal. rewrite <- (map_id (Srrip.m_rrip_bits p)) at 1. apply map_ext. intros b. lia.
  - destruct (cyclic_search n n (saturated p) _) as [[[i|] ptr]|] eqn:Hc; [|rewrite Hs; cbn [rbind]|done].
    { exfalso. apply cyclic_search_sound in Hc as (Hci & _ & _); [|lia..].
      unfold saturated in Hci. inv_ok. zbool. eapply Forall_lookup_1 in Hall; [|exact Hv]. lia. }
    apply cyclic_search_bounds in Hc; [|lia..].
    set (q := Srrip.set_bits_ptr p (Srrip.m_rrip_bits p) ptr).
    assert (Hwfq : srrip_wf n q e) by (by apply srrip_wf_update).
    pose proof (age_bits n q e d Hwfq Hall) as Hage.
    destruct (IH j (Srrip.age q) e) as (i & p' & e' & Hr & Hi & Hbits).
    + by apply srrip_age_wf.
    + done.
    + lia.
    + rewrite Hage. apply Forall_map. eapply Forall_impl; [exact Hall|]. intros b Hx. cbn in Hx |- *. lia.
    + exists w. rewrite Hage, list_lookup_map. cbn. rewrite Hw. cbn. f_equal. lia.
    + exists i, p', e'. split; [done|]. rewrite Hage in Hi, Hbits.
      rewrite list_lookup_map in Hi. cbn in Hi. apply fmap_Some in Hi as (b & Hib & Heq).
      split; [rewrite Hib; f_equal; lia|]. rewrite Hbits. cbn. f_equal. rewrite map_map.
      apply map_ext. intros. lia.
Qed.

(** A nonempty list of integers has a largest element. *)
Lemma list_max_exists (l : list Z) :
  l <> [] -> exists w m, l !! w = Some m /\ Forall (fun b => b <= m) l.
Proof.
  induction l as [|x l IH]; [done|]. intros _. destruct l as [|y l].
  - exists O, x. split; [done|]. by repeat constructor.
  - destruct IH as (w & m & Hw & Hall); [done|]. destruct (Z.le_ge_cases x m).
    + exists (S w), m. split; [done|]. by constructor.
    + exists O, x. split; [done|]. constructor; [done|].
      eapply Forall_impl; [exact Hall|]. intros b Hb. cbn in Hb |- *. lia.
Qed.

(** SRRIP without query-based selection always finds a victim in a full set
    of replaceable lines, and evicts a line with the most distant predicted
    re-reference: no counter of the set is larger than the victim's.  The
    other counters grow by what the victim lacked to the maximum, and the new
    line starts at [m_rrip_insert]. *)
Theorem srrip_evicts_most_distant n cntlr blocks p e :
  srrip_wf n p e -> Srrip.m_num_attempts p = 1 -> length blocks = n ->
  Forall (fun b => isValid b = true) blocks ->
  Forall (fun b => replaceable b = true) blocks ->
  exists i p' e' v, Srrip.getReplacementIndex cntlr blocks p e = Ok (i, p', e') /\
    Srrip.m_rrip_bits p !! i = Some v /\
    Forall (fun b => b <= v) (Srrip.m_rrip_bits p) /\
    Srrip.m_rrip_bits p' =
      <[i := Srrip.m_rrip_insert p]>
        (map (fun b => b + (Srrip.m_rrip_max p - v)) (Srrip.m_rrip_bits p)).
Proof.
  intros Hwf Ha Hlen Hval Hrep. unfold Srrip.getReplacementIndex.
  rewrite first_invalid_none, Hlen by done.
  pose proof Hwf as ((Hn & Hins & Hmax & _) & Hb & _).
  destruct (list_max_exists (Srrip.m_rrip_bits p)) as (w & m & Hw & Hall).
  { intros Hnil. destruct Hb as [Hl _]. rewrite Hnil in Hl. simpl in Hl. lia. }
  pose proof (srrip_bits_lookup n p _ w m Hb Hw) as Hm.
  set (d := Z.to_nat (Srrip.m_rrip_max p - m)).
  assert (Hd : Srrip.m_rrip_max p - Z.of_nat d = m) by lia.
  destruct (srrip_rounds_spec d (S (Z.to_nat (Srrip.m_rrip_max p))) n cntlr blocks p e)
    as (i & p' & e' & Hr & Hi & Hbits); [done|done|done|lia|done|by rewrite Hd|by exists w; rewrite Hd|].
  exists i, p', e', m. rewrite Hd in Hi. replace (Srrip.m_rrip_max p - m) with (Z.of_nat d) by lia.
  done.
Qed.

(** A set of [n] valid lines. *)
Definition full_set (n : nat) : list CacheBlockInfo :=
  map (fun i => setTag (Z.of_nat i) (new_block (SubPrL1 false))) (seq 0 n).

Lemma srrip_evicts_most_distant_witness :
  exists i p' e' v,
    Srrip.getReplacementIndex None (full_set 4)
      (Srrip.mk 2 3 2 1 [2; 1; 0; 2] 0) (mkEnv (Some (create_set_info 4 1)) 0) = Ok (i, p', e') /\
    [2; 1; 0; 2] !! i = Some v /\ Forall (fun b => b <= v) [2; 1; 0; 2] /\
    Srrip.m_rrip_bits p' = <[i := 2]> (map (fun b => b + (3 - v)) [2; 1; 0; 2]).
Proof.
  apply (srrip_evicts_most_distant 4 None (full_set 4)
           (Srrip.mk 2 3 2 1 [2; 1; 0; 2] 0) (mkEnv (Some (create_set_info 4 1)) 0)).
  - repeat split; try (cbn; lia); [repeat constructor; cbn; lia|apply create_set_info_wf].
  - reflexivity.
  - reflexivity.
  - repeat constructor.
  - repeat constructor.
Defined.

(** The number of rounds is too small for query-based selection: when every
    line of a saturated 16-way set is also held below, each rejection uses up
    one step of a round without moving the pointer, and the search gives up
    with an error although every line may be replaced. *)
Theorem srrip_qbs_gives_up :
  Srrip.getReplacementIndex (Some (mkCntlr (fun _ => true))) (full_set 16)
    (Srrip.mk 2 3 2 32 (replicate 16 3) 0) (mkEnv (Some (create_set_info 16 32)) 0)
  = Err LogError.
Proof. vm_compute. reflexivity. Qed.
