(* ===== verification/PolicyAny.v ===== *)
(** The replacement policies behind one type: the dynamic type of a CacheSet
    object decides which [getReplacementIndex] and [updateReplacementIndex] run
    (cache_set.h), and CacheSet::createCacheSet (cache_set.cc) chooses it from
    the name in the configuration. *)
From stdpp Require Import base numbers list strings.
From Stdlib Require Import ZArith Lia Bool.
From S2P Require Import Prelude Utils CacheBlock CacheBase Replacement PolicyLru PolicyMisc PolicySrrip.
Open Scope Z_scope.

Inductive PolicyState :=
  | PolRoundRobin (p : RoundRobin.t)
  | PolLRU (p : Lru.t)
  | PolNRU (p : Nru.t)
  | PolMRU (p : Mru.t)
  | PolNMRU (p : Nmru.t)
  | PolPLRU (p : Plru.t)
  | PolSRRIP (p : Srrip.t)
  | PolRandom (p : RandomPolicy.t).

(** The result of a policy's [getReplacementIndex], back in the common type. *)
Definition wrap_replace {P} (c : P -> PolicyState) (r : result (nat * P * RepEnv))
  : result (nat * PolicyState * RepEnv) :=
  let! (i, p, e) := r in Ok (i, c p, e).
Definition wrap_update {P} (c : P -> PolicyState) (r : result (P * RepEnv))
  : result (PolicyState * RepEnv) :=
  let! (p, e) := r in Ok (c p, e).

Definition any_getReplacementIndex (cntlr : option CacheCntlr) (blocks : list CacheBlockInfo)
    (p : PolicyState) (e : RepEnv) : result (nat * PolicyState * RepEnv) :=
  match p with
  | PolRoundRobin p => wrap_replace PolRoundRobin (getReplacementIndex cntlr blocks p e)
  | PolLRU p => wrap_replace PolLRU (getReplacementIndex cntlr blocks p e)
  | PolNRU p => wrap_replace PolNRU (getReplacementIndex cntlr blocks p e)
  | PolMRU p => wrap_replace PolMRU (getReplacementIndex (P := Mru.t) cntlr blocks p e)
  | PolNMRU p => wrap_replace PolNMRU (getReplacementIndex cntlr blocks p e)
  | PolPLRU p => wrap_replace PolPLRU (getReplacementIndex cntlr blocks p e)
  | PolSRRIP p => wrap_replace PolSRRIP (getReplacementIndex cntlr blocks p e)
  | PolRandom p => wrap_replace PolRandom (getReplacementIndex cntlr blocks p e)
  end.

Definition any_updateReplacementIndex (i : nat) (p : PolicyState) (e : RepEnv)
  : result (PolicyState * RepEnv) :=
  match p with
  | PolRoundRobin p => wrap_update PolRoundRobin (updateReplacementIndex i p e)
  | PolLRU p => wrap_update PolLRU (updateReplacementIndex i p e)
  | PolNRU p => wrap_update PolNRU (updateReplacementIndex i p e)
  | PolMRU p => wrap_update PolMRU (updateReplacementIndex (P := Mru.t) i p e)
  | PolNMRU p => wrap_update PolNMRU (updateReplacementIndex i p e)
  | PolPLRU p => wrap_update PolPLRU (updateReplacementIndex i p e)
  | PolSRRIP p => wrap_update PolSRRIP (updateReplacementIndex i p e)
  | PolRandom p => wrap_update PolRandom (updateReplacementIndex i p e)
  end.

#[global] Instance any_policy : ReplacementPolicy PolicyState := {
  Replacement.getReplacementIndex := any_getReplacementIndex;
  Replacement.updateReplacementIndex := any_updateReplacementIndex
}.

(** [CacheSet::parsePolicyType] *)
Definition parsePolicyType (policy : string) : result replacement_policy :=
  if String.eqb policy "round_robin" then Ok ROUND_ROBIN
  else if String.eqb policy "lru" then Ok LRU
  else if String.eqb policy "lru_qbs" then Ok LRU_QBS
  else if String.eqb policy "nru" then Ok NRU
  else if String.eqb policy "mru" then Ok MRU
  else if String.eqb policy "nmru" then Ok NMRU
  else if String.eqb policy "plru" then Ok PLRU
  else if String.eqb policy "srrip" then Ok SRRIP
  else if String.eqb policy "srrip_qbs" then Ok SRRIP_QBS
  else if String.eqb policy "random" then Ok RANDOM
  else Err LogError.

(** The configuration as one core sees it: [getCfg()->getIntArray(key, core_id)]. *)
Definition Cfg := string -> result Z.

(** [CacheSet::getNumQBSAttempts]: the configured value as a UInt8. *)
Definition getNumQBSAttempts (cfg : Cfg) (policy : replacement_policy) (cfgname : string) : result Z :=
  match policy with
  | LRU_QBS | SRRIP_QBS =>
      let! v := cfg (cfgname +:+ "/qbs/attempts")%string in Ok (u8 v)
  | _ => Ok 1
  end.

(** [CacheSet::createCacheSetInfo] *)
Definition createCacheSetInfo (cfg : Cfg) (cfgname replacement_policy : string) (associativity : nat)
  : result (option CacheSetInfoLRU) :=
  let! policy := parsePolicyType replacement_policy in
  match policy with
  | LRU | LRU_QBS | SRRIP | SRRIP_QBS =>
      let! attempts := getNumQBSAttempts cfg policy cfgname in
      Ok (Some (create_set_info associativity attempts))
  | _ => Ok None
  end.

(** The policy part of [CacheSet::createCacheSet]; [time] seeds the random
    policy and [depth] is the number of draws the model follows. *)
Definition create_policy (cfg : Cfg) (time : Z) (depth : nat) (cfgname replacement_policy : string)
    (associativity : nat) : result PolicyState :=
  let! policy := parsePolicyType replacement_policy in
  match policy with
  | ROUND_ROBIN => Ok (PolRoundRobin (RoundRobin.create associativity))
  | LRU | LRU_QBS =>
      let! attempts := getNumQBSAttempts cfg policy cfgname in
      Ok (PolLRU (Lru.create associativity attempts))
  | NRU => Ok (PolNRU (Nru.create associativity))
  | MRU => Ok (PolMRU (Mru.create associativity))
  | NMRU => Ok (PolNMRU (Nmru.create associativity))
  | PLRU => let! p := Plru.create associativity in Ok (PolPLRU p)
  | SRRIP | SRRIP_QBS =>
      let! attempts := getNumQBSAttempts cfg policy cfgname in
      let! bits := cfg (cfgname +:+ "/srrip/bits")%string in
      let! p := Srrip.create bits associativity attempts in
      Ok (PolSRRIP p)
  | RANDOM => Ok (PolRandom (RandomPolicy.mk (u32 time) depth))
  end.

(** * Framing: only the shape of the shared statistics matters *)
#[global] Instance rr_frame : EnvFrame RoundRobin.t.
Proof.
  split; [by intros n p e e' _| |].
  - intros i p e p' e' H. cbn in H. unfold RoundRobin.updateReplacementIndex in H. by inv_ok.
  - intros cntlr blocks p e i p' e' H. cbn in H. unfold RoundRobin.getReplacementIndex in H.
    destruct (RoundRobin.replacement_loop _ _ _) as [[[j q]|]|]; [|discriminate..]. by inv_ok.
Qed.

#[global] Instance mru_frame : EnvFrame Mru.t.
Proof.
  assert (Hu : forall i p e p' e', Mru.updateReplacementIndex i p e = Ok (p', e') -> env_shape e e').
  { intros i p e p' e' H. unfold Mru.updateReplacementIndex in H. by inv_ok. }
  split; [by intros n p e e' _|done|].
  intros cntlr blocks p e i p' e' H. cbn in H. unfold Mru.getReplacementIndex in H.
  inv_ok. by eapply Hu.
Qed.

#[global] Instance nmru_frame : EnvFrame Nmru.t.
Proof.
  assert (Hu : forall i p e p' e', Nmru.updateReplacementIndex i p e = Ok (p', e') -> env_shape e e').
  { intros i p e p' e' H. unfold Nmru.updateReplacementIndex in H. by inv_ok. }
  split; [by intros n p e e' _|done|].
  intros cntlr blocks p e i p' e' H. cbn in H. unfold Nmru.getReplacementIndex in H.
  destruct (first_invalid blocks); inv_ok; by eapply Hu.
Qed.

#[global] Instance nru_frame : EnvFrame Nru.t.
Proof.
  assert (Hu : forall i p e p' e', Nru.updateReplacementIndex i p e = Ok (p', e') -> env_shape e e').
  { intros i p e p' e' H. unfold Nru.updateReplacementIndex in H. inv_ok.
    destruct (_ =? _); by inv_ok. }
  split; [by intros n p e e' _|done|].
  intros cntlr blocks p e i p' e' H. cbn in H. unfold Nru.getReplacementIndex in H.
  destruct (first_invalid blocks); inv_ok; by eapply Hu.
Qed.

#[global] Instance plru_frame : EnvFrame Plru.t.
Proof.
  assert (Hu : forall i p e p' e', Plru.updateReplacementIndex i p e = Ok (p', e') -> env_shape e e').
  { intros i p e p' e' H. unfold Plru.updateReplacementIndex in H.
    destruct (_ =? 4)%nat; [by inv_ok|]. destruct (_ =? 8)%nat; by inv_ok. }
  split; [by intros n p e e' _|done|].
  intros cntlr blocks p e i p' e' H. cbn in H. unfold Plru.getReplacementIndex in H.
  destruct (first_invalid blocks); inv_ok; by eapply Hu.
Qed.

#[global] Instance random_frame : EnvFrame RandomPolicy.t.
Proof.
  split; [by intros n p e e' _| |].
  - intros i p e p' e' H. cbn in H. unfold RandomPolicy.updateReplacementIndex in H. by inv_ok.
  - intros cntlr blocks p e i p' e' H. cbn in H. unfold RandomPolicy.getReplacementIndex in H.
    destruct (first_invalid blocks); by inv_ok.
Qed.

Lemma lru_attempts_shape k attempt cntlr blocks index p e i p' e' :
  Lru.attempts k attempt cntlr blocks index p e = Ok (i, p', e') -> env_shape e e'.
Proof.
  revert attempt index p e. induction k as [|k IH]; intros attempt index p e H; cbn [Lru.attempts] in H.
  { by inv_ok. }
  inv_ok. destruct v0; inv_ok; match goal with H : Lru.attempts k _ _ _ _ _ _ = _ |- _ => apply IH in H as Hr end.
  - exact Hr.
  - etransitivity; [|exact Hr]. eauto with sim.
Qed.

#[global] Instance lru_frame : EnvFrame Lru.t.
Proof.
  split.
  - intros n p e e' Hsh. cbn. unfold lru_wf. by rewrite Hsh.
  - intros i p e p' e' H. cbn in H. unfold Lru.updateReplacementIndex in H. inv_ok. eauto with sim.
  - intros cntlr blocks p e i p' e' H. cbn in H. unfold Lru.getReplacementIndex in H.
    destruct (first_invalid blocks); [by inv_ok|]. by eapply lru_attempts_shape.
Qed.

Lemma srrip_scan_shape k n cntlr blocks p attempt e r p' attempt' e' :
  Srrip.scan k n cntlr blocks p attempt e = Ok (r, p', attempt', e') -> env_shape e e'.
Proof.
  revert p attempt e. induction k as [|k IH]; intros p attempt e H; cbn [Srrip.scan] in H.
  { by inv_ok. }
  inv_ok. destruct (_ <=? v); inv_ok; [|by apply IH in Hk].
  destruct v0; inv_ok; [by apply IH in Hk|]. eauto with sim.
Qed.

Lemma srrip_rounds_shape j n cntlr blocks p attempt e i p' e' :
  Srrip.rounds j n cntlr blocks p attempt e = Ok (i, p', e') -> env_shape e e'.
Proof.
  revert p attempt e. induction j as [|j IH]; intros p attempt e H; [discriminate|].
  cbn [Srrip.rounds] in H. inv_ok. apply srrip_scan_shape in Hv.
  destruct a; [by inv_ok; simplify_eq|]. apply IH in Hk. by etransitivity.
Qed.

#[global] Instance srrip_frame : EnvFrame Srrip.t.
Proof.
  split.
  - intros n p e e' Hsh. cbn. unfold srrip_wf. by rewrite Hsh.
  - intros i p e p' e' H. cbn in H. unfold Srrip.updateReplacementIndex in H. inv_ok.
    destruct (v >? 0); inv_ok; eauto with sim.
  - intros cntlr blocks p e i p' e' H. cbn in H. unfold Srrip.getReplacementIndex in H.
    destruct (first_invalid blocks); [by inv_ok|]. by eapply srrip_rounds_shape.
Qed.

(** * The laws, by dispatch *)
Definition any_wf (n : nat) (p : PolicyState) (e : RepEnv) : Prop :=
  match p with
  | PolRoundRobin p => rr_wf n p e
  | PolLRU p => lru_wf n p e
  | PolNRU p => nru_wf n p e
  | PolMRU p => mru_wf n p e
  | PolNMRU p => nmru_wf n p e
  | PolPLRU p => plru_wf n p e
  | PolSRRIP p => srrip_wf n p e
  | PolRandom p => random_wf n p e
  end.

Section dispatch.
Context {P : Type} `{ReplacementLaws P} (c : P -> PolicyState).
Context (c_wf : forall n p e, any_wf n (c p) e = policy_wf n p e).

Lemma wrap_update_total n p e i :
  any_wf n (c p) e -> (i < n)%nat ->
  exists p' e', wrap_update c (updateReplacementIndex i p e) = Ok (p', e') /\ any_wf n p' e'.
Proof.
  rewrite c_wf. intros Hwf Hi. destruct (update_total n p e i Hwf Hi) as (p' & e' & -> & Hwf').
  exists (c p'), e'. by rewrite c_wf.
Qed.

Lemma wrap_replace_sound n cntlr blocks p e i q e' :
  any_wf n (c p) e -> length blocks = n ->
  wrap_replace c (getReplacementIndex cntlr blocks p e) = Ok (i, q, e') ->
  (i < n)%nat /\ any_wf n q e'.
Proof.
  rewrite c_wf. intros Hwf Hlen Hr. unfold wrap_replace in Hr. inv_ok.
  apply (replace_sound n) in Hv; [|done|done]. simplify_eq. by rewrite c_wf.
Qed.

Lemma wrap_update_shape `{!EnvFrame P} p e i q e' :
  wrap_update c (updateReplacementIndex i p e) = Ok (q, e') -> env_shape e e'.
Proof. unfold wrap_update. intros Hu. inv_ok. by eapply update_shape. Qed.

Lemma wrap_replace_shape `{!EnvFrame P} cntlr blocks p e i q e' :
  wrap_replace c (getReplacementIndex cntlr blocks p e) = Ok (i, q, e') -> env_shape e e'.
Proof. unfold wrap_replace. intros Hu. inv_ok. by eapply replace_shape. Qed.

Lemma wrap_replace_fills `{!FillsInvalid P} n cntlr blocks p e i :
  any_wf n (c p) e -> length blocks = n -> first_invalid blocks = Some i ->
  exists q e', wrap_replace c (getReplacementIndex cntlr blocks p e) = Ok (i, q, e').
Proof.
  rewrite c_wf. intros Hwf Hlen Hf.
  destruct (replace_fills n cntlr blocks p e i Hwf Hlen Hf) as (p' & e' & ->). cbn. eauto.
Qed.
End dispatch.

#[global] Instance any_laws : ReplacementLaws PolicyState.
Proof.
  refine {| policy_wf := any_wf |}.
  - intros n [p|p|p|p|p|p|p|p] e i Hwf Hi; cbn [updateReplacementIndex any_policy any_updateReplacementIndex];
      eapply wrap_update_total; done.
  - intros n cntlr blocks [p|p|p|p|p|p|p|p] e i p' e' Hwf Hlen H;
      cbn [getReplacementIndex any_policy any_getReplacementIndex] in H;
      (eapply wrap_replace_sound in H; [exact H|..]; done).
Defined.

#[global] Instance any_frame : EnvFrame PolicyState.
Proof.
  split.
  - intros n [p|p|p|p|p|p|p|p] e e' Hsh;
      [ exact (wf_shape n (P := RoundRobin.t) p _ _ Hsh) | exact (wf_shape n (P := Lru.t) p _ _ Hsh)
      | exact (wf_shape n (P := Nru.t) p _ _ Hsh) | exact (wf_shape n (P := Mru.t) p _ _ Hsh)
      | exact (wf_shape n (P := Nmru.t) p _ _ Hsh) | exact (wf_shape n (P := Plru.t) p _ _ Hsh)
      | exact (wf_shape n (P := Srrip.t) p _ _ Hsh) | exact (wf_shape n (P := RandomPolicy.t) p _ _ Hsh) ].
  - intros i [p|p|p|p|p|p|p|p] e p' e' H;
      cbn [updateReplacementIndex any_policy any_updateReplacementIndex] in H;
      exact (wrap_update_shape _ _ _ _ _ _ H).
  - intros cntlr blocks [p|p|p|p|p|p|p|p] e i p' e' H;
      cbn [getReplacementIndex any_policy any_getReplacementIndex] in H;
      exact (wrap_replace_shape _ _ _ _ _ _ _ _ H).
Qed.

(** Every policy but round robin fills the first invalid way of a set and
    evicts nothing while there is one. *)
Theorem policies_fill_invalid_first n cntlr blocks p e i :
  any_wf n p e -> length blocks = n -> first_invalid blocks = Some i ->
  (forall r, p <> PolRoundRobin r) ->
  exists p' e', any_getReplacementIndex cntlr blocks p e = Ok (i, p', e').
Proof.
  intros Hwf Hlen Hf Hrr. destruct p as [p|p|p|p|p|p|p|p]; [by destruct (Hrr p)|..];
    cbn [any_getReplacementIndex];
    (refine (wrap_replace_fills _ _ n cntlr blocks p e i Hwf Hlen Hf); reflexivity).
Qed.

Lemma policies_fill_invalid_first_witness :
  exists p' e', any_getReplacementIndex None
    [setTag 7 (new_block (SubPrL1 false)); new_block (SubPrL1 false)]
    (PolNRU (Nru.create 2)) (mkEnv None 0) = Ok (1%nat, p', e').
Proof.
  apply (policies_fill_invalid_first 2); [|reflexivity|reflexivity|discriminate].
  repeat split; cbn; lia.
Defined.

(** * Construction *)

(** The configurations every policy accepts. *)
Definition policy_config_ok (cfg : Cfg) (depth : nat) (cfgname : string)
    (policy : replacement_policy) (n : nat) : Prop :=
  let attempts_ok := exists v, cfg (cfgname +:+ "/qbs/attempts")%string = Ok v /\ 1 <= u8 v in
  let bits_ok := exists b, cfg (cfgname +:+ "/srrip/bits")%string = Ok b /\ 1 <= b <= 8 /\
                           2 ^ b <= Z.of_nat n in
  (0 < n <= 256)%nat /\
  match policy with
  | NMRU => (2 <= n)%nat
  | PLRU => n = 4%nat \/ n = 8%nat
  | LRU_QBS => attempts_ok
  | SRRIP => bits_ok
  | SRRIP_QBS => attempts_ok /\ bits_ok
  | RANDOM => (0 < depth)%nat
  | _ => True
  end.

Lemma srrip_create_wf b n attempts c :
  1 <= b <= 8 -> 2 ^ b <= Z.of_nat n -> (n <= 256)%nat -> 1 <= attempts ->
  exists p, Srrip.create b n attempts = Ok p /\
    srrip_wf n p (mkEnv (Some (create_set_info n attempts)) c).
Proof.
  intros Hb Hn Hn' Ha. unfold Srrip.create. rewrite (u8_small b) by lia.
  rewrite (proj2 (Z.ltb_lt b 31)) by lia. cbn [rguard rbind]. rewrite Z.shiftl_1_l.
  assert (H2 : 2 <= 2 ^ b <= 256).
  { split; [change 2 with (2 ^ 1) at 1|change 256 with (2 ^ 8)]; apply Z.pow_le_mono_r; lia. }
  rewrite (u8_small (2 ^ b - 1)), (u8_small (2 ^ b - 1 - 1)) by lia.
  eexists. split; [done|]. repeat split; cbn; try lia.
  - apply length_replicate.
  - apply Forall_replicate. lia.
  - apply create_set_info_wf.
Qed.

(** For every configuration it accepts, [createCacheSet] builds a policy
    whose state satisfies the invariant of that policy, against the statistics
    object [createCacheSetInfo] builds from the same configuration. *)
Lemma create_policy_ok cfg time depth cfgname name policy n c :
  parsePolicyType name = Ok policy -> policy_config_ok cfg depth cfgname policy n ->
  exists p si, create_policy cfg time depth cfgname name n = Ok p /\
    createCacheSetInfo cfg cfgname name n = Ok si /\ any_wf n p (mkEnv si c).
Proof.
  intros Hp [Hn Hok]. unfold create_policy, createCacheSetInfo. rewrite Hp. cbn [rbind].
  pose proof (seq_repr n ltac:(lia)) as Hseq.
  destruct policy; cbn [getNumQBSAttempts rbind].
  - eexists _, _. do 2 (split; [done|]). cbn. unfold rr_wf, RoundRobin.create. lia.
  - eexists _, _. do 2 (split; [done|]). apply lru_create_wf; lia.
  - destruct Hok as (v & -> & Hv). cbn [rbind]. eexists _, _. do 2 (split; [done|]).
    apply lru_create_wf; lia.
  - eexists _, _. do 2 (split; [done|]). repeat split; cbn; try lia. apply length_replicate.
  - eexists _, _. do 2 (split; [done|]). exists (seq 0 n). done.
  - eexists _, _. do 2 (split; [done|]). split; [lia|]. split; [|cbn; lia]. by exists (seq 0 n).
  - unfold Plru.create.
    assert ((n =? 4) || (n =? 8) = true)%nat as -> by (destruct Hok as [-> | ->]; done).
    cbn [rguard rbind]. eexists _, _. do 2 (split; [done|]). done.
  - destruct Hok as (b & -> & Hb & Hbn). cbn [rbind].
    destruct (srrip_create_wf b n 1 c) as (p & -> & Hwf); [lia..|]. cbn [rbind]. eauto.
  - destruct Hok as ((v & -> & Hv) & b & -> & Hb & Hbn). cbn [rbind].
    destruct (srrip_create_wf b n (u8 v) c) as (p & -> & Hwf); [lia..|]. cbn [rbind]. eauto.
  - eexists _, _. do 2 (split; [done|]). split; cbn; lia.
Qed.
