(* ===== verification/CacheSet.v ===== *)
(** One set of a cache: CacheSet
    (common/core/memory_subsystem/cache/cache_set.h, cache_set.cc), generic in
    the replacement policy. *)
From stdpp Require Import base numbers list gmap strings.
From Stdlib Require Import ZArith Lia Bool.
From S2P Require Import Prelude Utils CacheBlock CacheBase Replacement PolicyLru PolicyMisc PolicySrrip PolicyAny.
Open Scope Z_scope.

(** [memcpy] from and to a byte array, at a byte offset. *)
Definition memread (m : list Z) (off len : Z) : result (list Z) :=
  guard! (0 <=? len) && (off + len <=? Z.of_nat (length m)) else Undefined in
  Ok (take (Z.to_nat len) (drop (Z.to_nat off) m)).

Definition memwrite (m : list Z) (off : Z) (bytes : list Z) : result (list Z) :=
  guard! (off + Z.of_nat (length bytes) <=? Z.of_nat (length m)) else Undefined in
  Ok (take (Z.to_nat off) m ++ bytes ++ drop (Z.to_nat off + length bytes) m).

Record CacheSet (P : Type) := mkSet {
  m_cache_block_info_array : list CacheBlockInfo;
  m_blocks : option (list Z);
  m_blocksize : Z;
  m_policy : P
}.
Arguments mkSet {P} _ _ _ _.
Arguments m_cache_block_info_array {P} _.
Arguments m_blocks {P} _.
Arguments m_blocksize {P} _.
Arguments m_policy {P} _.

(** What [insert] hands back: [*eviction], [*evict_block_info] and the bytes
    copied to [evict_buff], if any were. *)
Record InsertOut := mkOut {
  out_eviction : bool;
  out_evict_block_info : CacheBlockInfo;
  out_evict_buff : option (list Z)
}.

Section ops.
Context {P : Type} `{ReplacementPolicy P}.

Definition m_associativity (s : CacheSet P) : nat := length (m_cache_block_info_array s).

(** The constructor; [has_data] tells whether fault injection is on. *)
Definition create_set (t : cache_t) (associativity : nat) (blocksize : Z) (has_data : bool)
    (p : P) : result (CacheSet P) :=
  let! b := create t in
  Ok (mkSet (replicate associativity b)
        (if has_data then Some (replicate (Z.to_nat (u32 (Z.of_nat associativity * blocksize))) 0)
         else None) blocksize p).

Definition with_policy (s : CacheSet P) (p : P) : CacheSet P :=
  mkSet (m_cache_block_info_array s) (m_blocks s) (m_blocksize s) p.
Definition with_array (s : CacheSet P) (l : list CacheBlockInfo) : CacheSet P :=
  mkSet l (m_blocks s) (m_blocksize s) (m_policy s).
Definition with_data (s : CacheSet P) (m : option (list Z)) : CacheSet P :=
  mkSet (m_cache_block_info_array s) m (m_blocksize s) (m_policy s).

(** [if (update_replacement) updateReplacementIndex(line_index)] *)
Definition touch_line (update_replacement : bool) (line_index : nat) (s : CacheSet P) (e : RepEnv)
  : result (CacheSet P * RepEnv) :=
  if update_replacement then
    let! (p, e) := updateReplacementIndex line_index (m_policy s) e in
    Ok (with_policy s p, e)
  else Ok (s, e).

(** [void read_line]; [want] tells whether [out_buff] is not NULL. *)
Definition read_line (line_index : nat) (offset : Z) (want : bool) (bytes : Z)
    (update_replacement : bool) (s : CacheSet P) (e : RepEnv)
  : result (option (list Z) * CacheSet P * RepEnv) :=
  guard! u32 (offset + bytes) <=? m_blocksize s else AssertFailed in
  let! out := match m_blocks s with
              | Some m =>
                  if want then
                    let! d := memread m (u32 (u32 (Z.of_nat line_index * m_blocksize s) + offset)) bytes in
                    Ok (Some d)
                  else Ok None
              | None => Ok None
              end in
  let! (s, e) := touch_line update_replacement line_index s e in
  Ok (out, s, e).

(** [void write_line]; [in_buff] holds [bytes] bytes when it is not NULL. *)
Definition write_line (line_index : nat) (offset : Z) (in_buff : option (list Z)) (bytes : Z)
    (update_replacement : bool) (s : CacheSet P) (e : RepEnv)
  : result (CacheSet P * RepEnv) :=
  guard! u32 (offset + bytes) <=? m_blocksize s else AssertFailed in
  let! data := match in_buff, m_blocks s with
               | Some d, Some m =>
                   let! d := memread d 0 bytes in
                   let! m := memwrite m (u32 (u32 (Z.of_nat line_index * m_blocksize s) + offset)) d in
                   Ok (Some m)
               | _, m => Ok m
               end in
  touch_line update_replacement line_index (with_data s data) e.

(** [CacheBlockInfo* find(IntPtr tag, UInt32* line_index)] *)
Definition find (tag : Z) (s : CacheSet P) : option (nat * CacheBlockInfo) :=
  match find_last (fun b => m_tag b =? tag) (m_cache_block_info_array s) with
  | Some i => option_map (fun b => (i, b)) (m_cache_block_info_array s !! i)
  | None => None
  end.

(** [bool invalidate(IntPtr& tag)] *)
Definition invalidate_tag (tag : Z) (s : CacheSet P) : bool * CacheSet P :=
  match find tag s with
  | Some (i, b) => (true, with_array s (<[i := CacheBlock.invalidate b]> (m_cache_block_info_array s)))
  | None => (false, s)
  end.

(** The eviction part of [insert]: [evict->clone(way)] and the class-specific
    copies, selected by the dynamic type of the way. *)
Definition clone_evicted (evict way : CacheBlockInfo) : result CacheBlockInfo :=
  let! evict := clone evict way in
  Ok (match sub way with
      | SubShared i => cloneAIP evict i
      | SubPrL1 d => cloneAIPTLB evict d
      | _ => evict
      end).

(** [if (dynamic_cast<PrL1CacheBlockInfo*>(way)) evict->setDead(0)], twice,
    as a SharedCacheBlockInfo and as a PrL1CacheBlockInfo. *)
Definition reset_dead (way evict : CacheBlockInfo) : CacheBlockInfo :=
  match sub way with
  | SubPrL1 _ => setDead_prl1 false (setDead_shared 0 evict)
  | _ => evict
  end.

(** [void insert(...)]; [want_evict] tells whether [evict_buff] is not NULL. *)
Definition insert (cntlr : option CacheCntlr) (cache_block_info : CacheBlockInfo)
    (fill_buff : option (list Z)) (evict_block_info : CacheBlockInfo) (want_evict : bool)
    (s : CacheSet P) (e : RepEnv) : result (nat * InsertOut * CacheSet P * RepEnv) :=
  let! (index, p, e) := getReplacementIndex cntlr (m_cache_block_info_array s) (m_policy s) e in
  guard! (index <? m_associativity s)%nat else AssertFailed in
  let! way := aget (m_cache_block_info_array s) index in
  let base := u32 (Z.of_nat index * m_blocksize s) in
  let! out :=
    (if isValid way then
       let! evict := clone_evicted evict_block_info way in
       let! buff := match m_blocks s with
                    | Some m => if want_evict then
                                  let! d := memread m base (m_blocksize s) in Ok (Some d)
                                else Ok None
                    | None => Ok None
                    end in
       Ok (mkOut true evict buff)
     else Ok (mkOut false evict_block_info None)) in
  let! way' := clone way cache_block_info in
  let out := mkOut (out_eviction out) (reset_dead way' (out_evict_block_info out)) (out_evict_buff out) in
  let! data := match fill_buff, m_blocks s with
               | Some d, Some m =>
                   let! d := memread d 0 (m_blocksize s) in
                   let! m := memwrite m base d in
                   Ok (Some m)
               | _, m => Ok m
               end in
  Ok (index, out,
      mkSet (<[index := way']> (m_cache_block_info_array s)) data (m_blocksize s) p, e).
End ops.

(** [CacheSet::createCacheSet] *)
Definition createCacheSet (cfg : Cfg) (time : Z) (depth : nat) (has_data : bool)
    (cfgname replacement_policy : string) (t : cache_t) (associativity : nat) (blocksize : Z)
  : result (CacheSet PolicyState) :=
  let! p := create_policy cfg time depth cfgname replacement_policy associativity in
  create_set t associativity blocksize has_data p.

(** * Abstract view of a set: a finite map from tags to lines *)
Definition contents_of (l : list CacheBlockInfo) : gmap Z CacheBlockInfo :=
  list_to_map (map (fun b => (m_tag b, b)) (filter (fun b => isValid b = true) l)).

Definition contents {P} (s : CacheSet P) : gmap Z CacheBlockInfo :=
  contents_of (m_cache_block_info_array s).

(** No two ways hold the same valid tag. *)
Definition unique_tags (l : list CacheBlockInfo) : Prop :=
  forall i j b c, l !! i = Some b -> l !! j = Some c -> isValid b = true -> m_tag b = m_tag c -> i = j.

Definition class_of (t : cache_t) (b : CacheBlockInfo) : Prop :=
  exists b0, create t = Ok b0 /\ same_class b b0 = true.

(** The invariant of a set of [n] ways of cache type [t]. *)
Definition set_wf {P} `{ReplacementLaws P} (t : cache_t) (n : nat) (s : CacheSet P) (e : RepEnv)
  : Prop :=
  length (m_cache_block_info_array s) = n /\ policy_wf n (m_policy s) e /\
  unique_tags (m_cache_block_info_array s) /\ Forall (class_of t) (m_cache_block_info_array s).

(** ** Lemmas on the abstract view *)
Lemma unique_tags_cons b l : unique_tags (b :: l) -> unique_tags l.
Proof. intros Hu i j x y Hx Hy Hv Ht. specialize (Hu (S i) (S j) x y Hx Hy Hv Ht). lia. Qed.

Lemma valid_tag_neq b c : isValid b = true -> m_tag b = m_tag c -> isValid c = true.
Proof. rewrite !isValid_true. congruence. Qed.

Lemma unique_tags_NoDup l :
  unique_tags l -> NoDup (map fst (map (fun b => (m_tag b, b)) (filter (fun b => isValid b = true) l))).
Proof.
  induction l as [|b l IH]; intros Hu; [constructor|].
  pose proof (IH (unique_tags_cons _ _ Hu)) as Hnd.
  destruct (isValid b) eqn:Hv.
  - rewrite filter_cons_True by done. cbn. constructor; [|done]. rewrite map_map. cbn.
    intros (c & Htag & Hc)%list_elem_of_fmap_1.
    apply list_elem_of_filter in Hc as [_ Hc]. apply list_elem_of_lookup_1 in Hc as [j Hj].
    specialize (Hu O (S j) b c eq_refl Hj Hv Htag). lia.
  - rewrite filter_cons_False by congruence. done.
Qed.

Lemma lookup_contents_of l tag b :
  unique_tags l ->
  contents_of l !! tag = Some b <->
  exists i, l !! i = Some b /\ m_tag b = tag /\ isValid b = true.
Proof.
  intros Hu. unfold contents_of.
  rewrite <- elem_of_list_to_map by (by apply unique_tags_NoDup). split.
  - intros (c & Heq & Hc)%list_elem_of_fmap_1. injection Heq as -> ->.
    apply list_elem_of_filter in Hc as [Hv Hc]. apply list_elem_of_lookup_1 in Hc as [i Hi]. eauto.
  - intros (i & Hi & <- & Hv). apply list_elem_of_fmap. exists b. split; [done|].
    apply list_elem_of_filter. split; [done|]. by eapply list_elem_of_lookup_2.
Qed.

Lemma lookup_contents_None l tag :
  unique_tags l ->
  contents_of l !! tag = None <-> forall i b, l !! i = Some b -> isValid b = true -> m_tag b <> tag.
Proof.
  intros Hu. split.
  - intros Hn i b Hi Hv Ht. assert (contents_of l !! tag = Some b) by (apply lookup_contents_of; eauto).
    congruence.
  - intros Hall. destruct (contents_of l !! tag) as [b|] eqn:Hb; [|done].
    apply lookup_contents_of in Hb as (i & Hi & Ht & Hv); [|done]. by destruct (Hall i b Hi Hv).
Qed.

(** ** Lemmas on [find] *)
Section find.
Context {P : Type} `{ReplacementPolicy P}.

Lemma find_Some tag (s : CacheSet P) i b :
  find tag s = Some (i, b) -> m_cache_block_info_array s !! i = Some b /\ m_tag b = tag.
Proof.
  unfold find. destruct (find_last _ _) as [k|] eqn:Hf; [|discriminate].
  apply find_last_Some in Hf as [(x & Hx & Htag) _]. rewrite Hx. intros [= -> ->].
  by apply Z.eqb_eq in Htag.
Qed.

Lemma find_None tag (s : CacheSet P) :
  find tag s = None <-> forall i b, m_cache_block_info_array s !! i = Some b -> m_tag b <> tag.
Proof.
  unfold find. destruct (find_last _ _) as [k|] eqn:Hf.
  - apply find_last_Some in Hf as [(x & Hx & Htag) _]. rewrite Hx. split; [discriminate|].
    intros Hall. apply Z.eqb_eq in Htag. by destruct (Hall k x Hx).
  - split; [|done]. intros _ i b Hi Ht.
    pose proof (proj1 (find_last_None _ _) Hf i b Hi) as Hno. cbv beta in Hno. by apply Z.eqb_neq in Hno.
Qed.

(** For a valid tag, [find] is lookup in the abstract view. *)
Lemma find_contents tag (s : CacheSet P) :
  unique_tags (m_cache_block_info_array s) -> tag <> INVALID_TAG ->
  option_map snd (find tag s) = contents s !! tag.
Proof.
  intros Hu Htag. destruct (find tag s) as [[i b]|] eqn:Hf; cbn; symmetry.
  - apply find_Some in Hf as [Hi <-]. apply lookup_contents_of; [done|].
    exists i. split; [done|]. split; [done|]. by apply isValid_true.
  - apply lookup_contents_None; [done|]. intros i b Hi _.
    exact (proj1 (find_None tag s) Hf i b Hi).
Qed.
End find.

(** ** Replacing one way *)
Definition fresh_at (l : list CacheBlockInfo) (i : nat) (tag : Z) : Prop :=
  forall j c, l !! j = Some c -> isValid c = true -> m_tag c = tag -> j = i.

Lemma unique_tags_insert l i b' :
  unique_tags l -> (i < length l)%nat -> (isValid b' = true -> fresh_at l i (m_tag b')) ->
  unique_tags (<[i := b']> l).
Proof.
  intros Hu Hi Hfresh j k x y Hx Hy Hv Ht.
  rewrite lookup_insert_in in Hx, Hy by done. repeat case_decide; simplify_eq; try done.
  - assert (Hvy : isValid y = true) by (by eapply valid_tag_neq).
    by apply (Hfresh Hvy j x).
  - symmetry. apply (Hfresh Hv k y); [done| |by symmetry]. by eapply valid_tag_neq.
  - by eapply Hu.
Qed.

(** The tag of the way being overwritten leaves the view. *)
Definition forget (b : CacheBlockInfo) (m : gmap Z CacheBlockInfo) : gmap Z CacheBlockInfo :=
  if isValid b then delete (m_tag b) m else m.

Lemma lookup_forget l i b tag c :
  unique_tags l -> l !! i = Some b ->
  forget b (contents_of l) !! tag = Some c <->
  exists j, j <> i /\ l !! j = Some c /\ m_tag c = tag /\ isValid c = true.
Proof.
  intros Hu Hi. unfold forget. destruct (isValid b) eqn:Hv.
  - rewrite lookup_delete_Some, lookup_contents_of by done. split.
    + intros (Hne & j & Hj & Ht & Hc). exists j. split; [|done]. intros ->. congruence.
    + intros (j & Hji & Hj & Ht & Hc). split; [|by exists j].
      intros Heq. apply Hji. symmetry. eapply (Hu i j b c); [done|done|done|congruence].
  - rewrite lookup_contents_of by done. split.
    + intros (j & Hj & Ht & Hc). exists j. split; [|done]. intros ->. congruence.
    + intros (j & _ & Hj). by exists j.
Qed.

Lemma contents_insert_valid l i b b' :
  unique_tags l -> l !! i = Some b -> isValid b' = true -> fresh_at l i (m_tag b') ->
  contents_of (<[i := b']> l) = <[m_tag b' := b']> (forget b (contents_of l)).
Proof.
  intros Hu Hi Hv Hfresh. assert (Hlt : (i < length l)%nat) by (by eapply lookup_lt_Some).
  apply map_eq. intros tag. apply option_eq. intros c.
  rewrite lookup_contents_of by (by apply unique_tags_insert).
  rewrite lookup_insert_Some, (lookup_forget l i b) by done. split.
  - intros (j & Hj & Ht & Hc). rewrite lookup_insert_in in Hj by done. case_decide; simplify_eq; [by left|].
    right. split; [|by exists j]. intros Heq. by destruct (Hfresh j c Hj Hc).
  - intros [[<- <-]|(Hne & j & Hji & Hj & Ht & Hc)].
    + exists i. rewrite lookup_insert_in, decide_True by done. done.
    + exists j. rewrite lookup_insert_in, decide_False by congruence. done.
Qed.

Lemma contents_insert_invalid l i b b' :
  unique_tags l -> l !! i = Some b -> isValid b' = false ->
  contents_of (<[i := b']> l) = forget b (contents_of l).
Proof.
  intros Hu Hi Hv. assert (Hlt : (i < length l)%nat) by (by eapply lookup_lt_Some).
  apply map_eq. intros tag. apply option_eq. intros c.
  rewrite lookup_contents_of by (apply unique_tags_insert; [done|done|congruence]).
  rewrite (lookup_forget l i b) by done. split.
  - intros (j & Hj & Ht & Hc). rewrite lookup_insert_in in Hj by done.
    case_decide; simplify_eq; [congruence|]. by exists j.
  - intros (j & Hji & Hj & Ht & Hc). exists j. rewrite lookup_insert_in, decide_False by congruence. done.
Qed.

(** ** The operations refine the abstract view *)
Section refinement.
Context {P : Type} `{ReplacementLaws P} `{!EnvFrame P}.
Implicit Types s : CacheSet P.

Lemma same_class_trans b1 b2 b3 :
  same_class b1 b2 = true -> same_class b3 b2 = true -> same_class b1 b3 = true.
Proof. unfold same_class. by destruct (sub b1), (sub b2), (sub b3). Qed.

Lemma class_same t b c : class_of t b -> class_of t c -> same_class b c = true.
Proof. intros (b0 & E & Hb) (b1 & E' & Hc). assert (b1 = b0) as -> by congruence. eapply same_class_trans; eassumption. Qed.

Lemma class_of_same t b c : class_of t c -> same_class b c = true -> class_of t b.
Proof.
  intros (b0 & E & Hc) Hbc. exists b0. split; [done|]. revert Hc Hbc. unfold same_class.
  by destruct (sub b), (sub c), (sub b0).
Qed.

Lemma class_set_fields t b b' : class_of t b -> sub b' = sub b -> class_of t b'.
Proof. intros (b0 & E & Hb) Hs. exists b0. split; [done|]. unfold same_class in *. by rewrite Hs. Qed.

Lemma invalidate_class t b : class_of t b -> class_of t (CacheBlock.invalidate b).
Proof.
  intros (b0 & E & Hb). exists b0. split; [done|]. revert Hb. unfold same_class, CacheBlock.invalidate.
  destruct (sub b) eqn:Hs; cbn; rewrite ?Hs; done.
Qed.

Lemma set_wf_shape t n s e e' : env_shape e e' -> set_wf t n s e -> set_wf t n s e'.
Proof. intros Hsh (Hl & Hp & Hu & Hc). split; [done|]. split; [by rewrite <- Hsh|done]. Qed.

Lemma touch_line_refines t n s e i upd :
  set_wf t n s e -> (i < n)%nat ->
  exists s' e', touch_line upd i s e = Ok (s', e') /\ set_wf t n s' e' /\ env_shape e e' /\
    m_cache_block_info_array s' = m_cache_block_info_array s /\
    m_blocks s' = m_blocks s /\ m_blocksize s' = m_blocksize s.
Proof.
  intros Hwf Hi. unfold touch_line. destruct upd; [|by exists s, e].
  pose proof Hwf as (Hl & Hp & Hu & Hc).
  destruct (update_total n (m_policy s) e i Hp Hi) as (p' & e' & E & Hp').
  rewrite E. cbn [rbind]. eexists _, _. split; [done|]. split; [done|].
  split; [by eapply update_shape|done].
Qed.

Lemma invalidate_refines t n s e tag :
  set_wf t n s e -> tag <> INVALID_TAG ->
  let '(r, s') := invalidate_tag tag s in
  set_wf t n s' e /\ contents s' = delete tag (contents s) /\
  r = bool_decide (is_Some (contents s !! tag)).
Proof.
  intros Hwf Htag. pose proof Hwf as (Hl & Hp & Hu & Hc).
  pose proof (find_contents tag s Hu Htag) as Hfc. unfold invalidate_tag.
  destruct (find tag s) as [[i b]|] eqn:Hf; cbn in Hfc; rewrite <- Hfc.
  - apply find_Some in Hf as [Hi Hb]. assert (Hlt : (i < n)%nat) by (rewrite <- Hl; by eapply lookup_lt_Some).
    split; [|split].
    + split; [cbn; by rewrite length_insert|]. split; [done|]. split.
      * apply unique_tags_insert; [done|lia|]. rewrite invalidate_invalid. discriminate.
      * apply Forall_insert; [done|]. apply invalidate_class. by eapply Forall_lookup_1 in Hc.
    + unfold contents. cbn [m_cache_block_info_array with_array]. rewrite (contents_insert_invalid _ i b) by (done || apply invalidate_invalid).
      unfold forget. rewrite (proj2 (isValid_true b)) by congruence. by rewrite Hb.
    + by rewrite bool_decide_eq_true_2.
  - split; [done|]. split; [|by rewrite bool_decide_eq_false_2 by (intros [? ?]; discriminate)].
    symmetry. by apply delete_id.
Qed.
End refinement.

Section insert_refinement.
Context {P : Type} `{ReplacementLaws P} `{!EnvFrame P}.
Implicit Types s : CacheSet P.

(** Objects a line of type [t] may be evicted into. *)
Definition evict_ok (t : cache_t) (evict : CacheBlockInfo) : Prop :=
  forall way, class_of t way -> exists b, clone evict way = Ok b.

Lemma clone_evicted_fields evict way b :
  clone_evicted evict way = Ok b ->
  m_tag b = m_tag way /\ m_cstate b = m_cstate way /\ m_owner b = m_owner way /\
  m_used b = m_used way /\ m_options b = m_options way.
Proof.
  unfold clone_evicted, clone. intros Hc. inv_ok.
  destruct (sub evict) eqn:He, (sub way) eqn:Hw; inv_ok; subst; cbn; rewrite ?He; done.
Qed.

Lemma reset_dead_fields way evict :
  m_tag (reset_dead way evict) = m_tag evict /\ m_cstate (reset_dead way evict) = m_cstate evict /\
  m_owner (reset_dead way evict) = m_owner evict /\ m_used (reset_dead way evict) = m_used evict /\
  m_options (reset_dead way evict) = m_options evict.
Proof.
  unfold reset_dead, setDead_prl1, setDead_shared.
  destruct (sub way); try done; destruct (sub evict) eqn:He; cbn; rewrite ?He; done.
Qed.

(** What [insert] reports of the line it displaced. *)
Definition evicted_as (old : CacheBlockInfo) (evict0 : CacheBlockInfo) (o : InsertOut) : Prop :=
  out_eviction o = isValid old /\
  if isValid old then
    m_tag (out_evict_block_info o) = m_tag old /\
    m_cstate (out_evict_block_info o) = m_cstate old /\
    m_owner (out_evict_block_info o) = m_owner old /\
    m_used (out_evict_block_info o) = m_used old /\
    m_options (out_evict_block_info o) = m_options old
  else m_tag (out_evict_block_info o) = m_tag evict0.

(** [new] is the way [old] after [old->clone(blk)]. *)
Definition filled_with (old blk new : CacheBlockInfo) : Prop := clone old blk = Ok new.

Lemma insert_refines t n cntlr blk fill evict want s e i o s' e' :
  set_wf t n s e -> class_of t blk -> isValid blk = true -> contents s !! m_tag blk = None ->
  insert cntlr blk fill evict want s e = Ok (i, o, s', e') ->
  set_wf t n s' e' /\ env_shape e e' /\
  exists old new, m_cache_block_info_array s !! i = Some old /\ filled_with old blk new /\
    m_tag new = m_tag blk /\
    contents s' = <[m_tag blk := new]> (forget old (contents s)) /\ evicted_as old evict o.
Proof.
  intros Hwf Hcls Hv Hfresh Hins. pose proof Hwf as (Hl & Hp & Hu & Hc). unfold insert in Hins.
  inv_ok.
  rename a0 into i, b0 into p', b into e', v0 into old, v2 into new.
  pose proof (replace_shape _ _ _ _ _ _ _ Hv0) as Hsh.
  apply (replace_sound n) in Hv0 as [Hi Hp']; [|done|done].
  assert (Hold : class_of t old) by (by eapply Forall_lookup_1 in Hc).
  assert (Hnew : same_class new blk = true).
  { destruct (clone_same_class old blk) as (b & Hb & Hs); [by eapply class_same|congruence]. }
  assert (Htag : m_tag new = m_tag blk) by (by eapply clone_Ok_tag).
  assert (Hnv : isValid new = true) by (eapply valid_tag_neq; [exact Hv|done]).
  assert (Hfa : fresh_at (m_cache_block_info_array s) i (m_tag new)).
  { intros j c Hj Hcv Hct. rewrite Htag in Hct.
    by destruct (proj1 (lookup_contents_None _ _ Hu) Hfresh j c Hj Hcv). }
  split; [|split; [done|]].
  - split; [cbn; by rewrite length_insert|]. split; [done|]. cbn [m_cache_block_info_array]. split.
    + apply unique_tags_insert; [done|lia|done].
    + apply Forall_insert; [done|]. by apply (class_of_same t new blk).
  - exists old, new. split; [done|]. split; [done|]. split; [done|]. split.
    + unfold contents. cbn [m_cache_block_info_array].
      rewrite (contents_insert_valid _ i old) by done. by rewrite Htag.
    + unfold evicted_as. cbn [out_eviction out_evict_block_info].
      destruct (reset_dead_fields new (out_evict_block_info v1)) as (-> & -> & -> & -> & ->).
      destruct (isValid old); inv_ok; [|done]. split; [done|]. cbn.
      by eapply clone_evicted_fields.
Qed.

(** [insert] succeeds whenever the policy finds a victim and no data is
    simulated. *)
Lemma insert_total t n cntlr blk fill evict want s e i p' e1 :
  set_wf t n s e -> class_of t blk -> evict_ok t evict -> m_blocks s = None ->
  getReplacementIndex cntlr (m_cache_block_info_array s) (m_policy s) e = Ok (i, p', e1) ->
  exists o s', insert cntlr blk fill evict want s e = Ok (i, o, s', e1) /\ m_blocks s' = None /\
    m_blocksize s' = m_blocksize s.
Proof.
  intros (Hl & Hp & Hu & Hc) Hcls Hev Hm Hr. unfold insert, m_associativity. rewrite Hr. cbn [rbind].
  apply (replace_sound n) in Hr as [Hi _]; [|done|done].
  rewrite Hl, (proj2 (Nat.ltb_lt i n)) by done. cbn [rguard rbind].
  destruct (lookup_lt_is_Some_2 (m_cache_block_info_array s) i) as [old Hold]; [lia|].
  rewrite (aget_Ok _ _ _ Hold). cbn [rbind]. rewrite Hm.
  assert (Hcold : class_of t old) by (by eapply Forall_lookup_1 in Hc).
  assert (exists o, (if isValid old then
     let! evict := clone_evicted evict old in
     let! buff := Ok None in Ok (mkOut true evict buff)
    else Ok (mkOut false evict None)) = Ok o) as [o Ho].
  { destruct (isValid old); [|eauto]. unfold clone_evicted.
    destruct (Hev old Hcold) as [b ->]. cbn. eauto. }
  rewrite Ho. cbn [rbind].
  destruct (clone_same_class old blk) as (b & -> & _); [by eapply class_same|]. cbn [rbind].
  destruct fill; cbn [rbind]; eauto.
Qed.
End insert_refinement.

(** ** Data of a line, with fault injection on *)
Lemma memread_memwrite m off d m' :
  0 <= off -> memwrite m off d = Ok m' ->
  memread m' off (Z.of_nat (length d)) = Ok d /\ length m' = length m.
Proof.
  intros Hoff H. unfold memwrite in H. inv_ok. zbool.
  assert (Hlen : length (take (Z.to_nat off) m ++ d ++ drop (Z.to_nat off + length d) m) = length m).
  { rewrite !length_app, length_take, length_drop. lia. }
  split; [|done]. unfold memread.
  rewrite Hlen, (proj2 (Z.leb_le 0 _)), (proj2 (Z.leb_le (off + _) _)) by lia. cbn [andb rguard rbind].
  f_equal. rewrite drop_app_ge by (rewrite length_take; lia).
  rewrite length_take, Nat.min_l, Nat.sub_diag by lia. rewrite drop_0.
  rewrite take_app_le by lia. rewrite Nat2Z.id. by rewrite firstn_all.
Qed.

Lemma memread_all d : memread d 0 (Z.of_nat (length d)) = Ok d.
Proof.
  unfold memread. rewrite (proj2 (Z.leb_le 0 _)), (proj2 (Z.leb_le (0 + _) _)) by lia.
  cbn [andb rguard rbind]. rewrite drop_0, Nat2Z.id. by rewrite firstn_all.
Qed.

(** A line reads back what was written to it: when the set stores data,
    [read_line] of the bytes a [write_line] wrote returns exactly them. *)
Theorem read_after_write {P} `{ReplacementLaws P} (s s1 : CacheSet P) e e1 i off d upd :
  is_Some (m_blocks s) -> 0 <= off -> 0 <= m_blocksize s ->
  write_line i off (Some d) (Z.of_nat (length d)) upd s e = Ok (s1, e1) ->
  exists s2, read_line i off true (Z.of_nat (length d)) false s1 e1 = Ok (Some d, s2, e1).
Proof.
  intros [m Hm] Hoff Hbs Hw. unfold write_line in Hw. rewrite Hm in Hw. inv_ok.
  rewrite memread_all in Hv1. inv_ok.
  assert (Hs1 : m_blocks s1 = Some v2 /\ m_blocksize s1 = m_blocksize s).
  { unfold touch_line in Hk0. destruct upd; inv_ok; done. }
  destruct Hs1 as [Hmb Hbs1]. unfold read_line. rewrite Hbs1, Hv, Hmb. cbn [rguard rbind].
  apply memread_memwrite in Hv0 as [-> _]; [|apply u32_range]. cbn. eauto.
Qed.

Lemma read_after_write_witness :
  exists s2 : CacheSet PolicyState,
    read_line 1 2 true (Z.of_nat (length [7; 9])) false
      (mkSet (replicate 2 (new_block SubBase)) (Some [0; 0; 0; 0; 0; 0; 7; 9]) 4
         (PolRoundRobin 1%nat)) (mkEnv None 0) = Ok (Some [7; 9], s2, mkEnv None 0).
Proof.
  apply (read_after_write (mkSet (replicate 2 (new_block SubBase)) (Some (replicate 8 0)) 4
           (PolRoundRobin 1%nat)) _ (mkEnv None 0) _ 1 2 [7; 9] true).
  - by exists (replicate 8 0).
  - lia.
  - cbn. lia.
  - reflexivity.
Defined.

(** An insertion into an L1 line or TLB entry does not reset the dead bit of
    the way it fills: the reset goes to the evicted copy instead, so the new
    line inherits the bit of the old one and the evicted copy loses it. *)
Theorem insert_keeps_dead_bit {P} `{ReplacementPolicy P} cntlr blk fill d0 tag0 want
    (s : CacheSet P) e i o s' e' old d :
  insert cntlr blk fill (setTag tag0 (new_block (SubPrL1 d0))) want s e = Ok (i, o, s', e') ->
  m_cache_block_info_array s !! i = Some old -> sub old = SubPrL1 d ->
  (exists new, m_cache_block_info_array s' !! i = Some new /\ m_tag new = m_tag blk /\ getDead new = d) /\
  getDead (out_evict_block_info o) = false.
Proof.
  intros Hins Hold Hsub. unfold insert in Hins. inv_ok.
  assert (v0 = old) as -> by congruence.
  unfold clone in Hv3. rewrite Hsub in Hv3. inv_ok. split.
  - eexists. cbn [m_cache_block_info_array].
    rewrite lookup_insert_in, decide_True by (done || by eapply lookup_lt_Some). done.
  - cbn. destruct (isValid old); inv_ok; [|done].
    match goal with Hc : clone_evicted _ _ = _ |- _ => unfold clone_evicted, clone in Hc;
      cbn in Hc; rewrite Hsub in Hc; inv_ok end. subst. done.
Qed.

Lemma insert_keeps_dead_bit_witness :
  exists new, [setTag 5 (new_block (SubPrL1 true))] !! 0%nat = Some new /\ m_tag new = 5 /\ getDead new = true.
Proof.
  refine (proj1 (insert_keeps_dead_bit None (setTag 5 (new_block (SubPrL1 false))) None false 0 false
           (mkSet [setTag 3 (new_block (SubPrL1 true))] None 64 (PolNRU (Nru.create 1)))
           (mkEnv None 0) 0 _ (mkSet [setTag 5 (new_block (SubPrL1 true))] None 64 _) (mkEnv None 0)
           (setTag 3 (new_block (SubPrL1 true))) true _ _ _)); reflexivity.
Defined.
