(* ===== verification/Cache.v ===== *)
(** The set-associative cache used for the caches of a core and for its TLBs:
    Cache (common/core/memory_subsystem/cache/cache.h, cache.cc). *)
From stdpp Require Import base numbers list gmap strings.
From Stdlib Require Import ZArith Lia Bool.
From S2P Require Import Prelude Utils CacheBlock CacheBase Replacement PolicyLru PolicyMisc PolicySrrip PolicyAny CacheSet.
Open Scope Z_scope.

(** The two callbacks of FaultInjector: address, location, size and the data
    array with the offset of the bytes they may change. *)
Record FaultInjector := mkInjector {
  preRead : Z -> Z -> Z -> list Z -> Z -> list Z;
  postWrite : Z -> Z -> Z -> list Z -> Z -> list Z
}.

Record Cache (P : Type) := mkCache {
  base : CacheBase;
  m_enabled : bool;
  m_num_accesses : Z;
  m_num_hits : Z;
  m_cache_type : cache_t;
  m_sets : list (CacheSet P);
  m_env : RepEnv;
  m_fault_injector : option FaultInjector
}.
Arguments mkCache {P} _ _ _ _ _ _ _ _.
Arguments base {P} _.
Arguments m_enabled {P} _.
Arguments m_num_accesses {P} _.
Arguments m_num_hits {P} _.
Arguments m_cache_type {P} _.
Arguments m_sets {P} _.
Arguments m_env {P} _.
Arguments m_fault_injector {P} _.

(** What [insertSingleLine] hands back: [*eviction], [*evict_addr],
    [*evict_block_info] and the bytes copied to [evict_buff]. *)
Record LineOut := mkLineOut {
  lo_eviction : bool;
  lo_evict_addr : Z;
  lo_evict_block_info : CacheBlockInfo;
  lo_evict_buff : option (list Z)
}.

Section ops.
Context {P : Type} `{ReplacementPolicy P}.
Implicit Types c : Cache P.

(** [m_sets[k] = s], and the shared environment. *)
Definition with_set c (k : nat) (s : CacheSet P) (e : RepEnv) : Cache P :=
  mkCache (base c) (m_enabled c) (m_num_accesses c) (m_num_hits c) (m_cache_type c)
    (<[k := s]> (m_sets c)) e (m_fault_injector c).

Definition with_counters c (enabled : bool) (accesses hits : Z) : Cache P :=
  mkCache (base c) enabled accesses hits (m_cache_type c) (m_sets c) (m_env c) (m_fault_injector c).

(** [splitAddress(addr, tag, set_index); m_sets[set_index]] *)
Definition locate c (addr : Z) : result (Z * nat * CacheSet P) :=
  let! (tag, set_index) := splitAddress (base c) addr in
  let! s := aget (m_sets c) (Z.to_nat set_index) in
  Ok (tag, Z.to_nat set_index, s).

(** The same with [assert(set_index < m_num_sets)] before the access. *)
Definition locate_assert c (addr : Z) : result (Z * nat * CacheSet P) :=
  let! (tag, set_index) := splitAddress (base c) addr in
  guard! set_index <? m_num_sets (base c) else AssertFailed in
  let! s := aget (m_sets c) (Z.to_nat set_index) in
  Ok (tag, Z.to_nat set_index, s).

(** [void increaseCForEntireSet(IntPtr addr)] *)
Definition increaseCForEntireSet (addr : Z) c : result (Cache P) :=
  let! (_, k, s) := locate_assert c addr in
  let! l := Lru.incrementSetCount (m_cache_block_info_array s) in
  Ok (with_set c k (with_array s l) (m_env c)).

(** [void modifyCounterForEntireSet(IntPtr addr, map &phy_table)] *)
Definition modifyCounterForEntireSet (addr : Z) (phy_table : gmap Z (Z * Z)) c
  : result (gmap Z (Z * Z)) :=
  let! (_, _, s) := locate_assert c addr in
  Lru.modifySetCounters addr (m_cache_block_info_array s) phy_table.

(** [bool invalidateSingleLine(IntPtr addr)] *)
Definition invalidateSingleLine (addr : Z) c : result (bool * Cache P) :=
  let! (tag, k, s) := locate_assert c addr in
  let '(r, s) := invalidate_tag tag s in
  Ok (r, with_set c k s (m_env c)).

(** [void setPrDeadBit(IntPtr address)] *)
Definition setPrDeadBit (address : Z) c : result (Cache P) :=
  let! (tag, k, s) := locate c address in
  match find tag s with
  | Some (i, b) =>
      match sub b with
      | SubPrL1 _ =>
          Ok (with_set c k (with_array s (<[i := setDead_prl1 true b]> (m_cache_block_info_array s)))
                (m_env c))
      | _ => Ok c
      end
  | None => Ok c
  end.

(** A callback of the fault injector on the bytes of a line; [getDataPtr]
    points into [m_blocks]. *)
Definition inject (f : Z -> Z -> Z -> list Z -> Z -> list Z) (addr : Z) (k : nat) (line_index : nat)
    (bytes offset : Z) (assoc : nat) (s : CacheSet P) : result (CacheSet P) :=
  let! m := of_option (m_blocks s) Undefined in
  Ok (with_data s (Some (f addr (u32 (Z.of_nat k * Z.of_nat assoc + Z.of_nat line_index)) bytes m
        (u32 (u32 (Z.of_nat line_index * m_blocksize s) + offset))))).

(** [CacheBlockInfo* accessSingleLine(...)]: the line found with its way, the
    bytes read, and the cache afterwards. *)
Definition accessSingleLine (addr : Z) (access_type : access_t) (want : bool) (buff : option (list Z))
    (bytes : Z) (update_replacement : bool) c
  : result (option (nat * CacheBlockInfo) * option (list Z) * Cache P) :=
  let! (_, _, block_offset) := splitAddressOffset (base c) addr in
  let! (tag, k, s) := locate c addr in
  match find tag s with
  | None => Ok (None, None, c)
  | Some (line_index, b) =>
      match access_type with
      | LOAD =>
          let! s := match m_fault_injector c with
                    | Some fi => inject (preRead fi) addr k line_index bytes block_offset
                                   (cb_associativity (base c)) s
                    | None => Ok s
                    end in
          let! (out, s, e) := read_line line_index block_offset want bytes update_replacement s (m_env c) in
          Ok (Some (line_index, b), out, with_set c k s e)
      | STORE =>
          let! (s, e) := write_line line_index block_offset buff bytes update_replacement s (m_env c) in
          let! s := match m_fault_injector c with
                    | Some fi => inject (postWrite fi) addr k line_index bytes block_offset
                                   (cb_associativity (base c)) s
                    | None => Ok s
                    end in
          Ok (Some (line_index, b), None, with_set c k s e)
      end
  end.

(** [void insertSingleLine(...)] *)
Definition insertSingleLine (addr : Z) (fill_buff : option (list Z)) (evict_block_info : CacheBlockInfo)
    (want_evict : bool) (cntlr : option CacheCntlr) c : result (LineOut * Cache P) :=
  let! (tag, k, s) := locate c addr in
  let! blk := create (m_cache_type c) in
  let cache_block_info := setTag tag blk in
  let! (_, o, s, e) :=
    insert cntlr cache_block_info fill_buff evict_block_info want_evict s (m_env c) in
  let evict_addr := tagToAddress (base c) (m_tag (out_evict_block_info o)) in
  let! s := match m_fault_injector c with
            | Some fi =>
                let! (line_index, _) := of_option (find tag s) LogError in
                inject (postWrite fi) addr k line_index (m_blocksize s) 0 (cb_associativity (base c)) s
            | None => Ok s
            end in
  Ok (mkLineOut (out_eviction o) evict_addr (out_evict_block_info o) (out_evict_buff o),
      with_set c k s e).

(** [CacheBlockInfo* peekSingleLine(IntPtr addr)] *)
Definition peekSingleLine (addr : Z) c : result (option CacheBlockInfo) :=
  let! (tag, _, s) := locate c addr in
  Ok (option_map snd (find tag s)).

(** [CacheBlockInfo* peekBlock(set_index, way)] *)
Definition peekBlock (set_index way : nat) c : result CacheBlockInfo :=
  let! s := aget (m_sets c) set_index in aget (m_cache_block_info_array s) way.

(** [void updateCounters(bool cache_hit)] *)
Definition updateCounters (cache_hit : bool) c : Cache P :=
  if m_enabled c then
    with_counters c true (u64 (m_num_accesses c + 1))
      (if cache_hit then u64 (m_num_hits c + 1) else m_num_hits c)
  else c.

(** [void updateHits(mem_op_type, UInt64 hits)] *)
Definition updateHits (hits : Z) c : Cache P :=
  if m_enabled c then with_counters c true (u64 (m_num_accesses c + hits)) (u64 (m_num_hits c + hits))
  else c.

Definition enable c : Cache P := with_counters c true (m_num_accesses c) (m_num_hits c).
Definition disable c : Cache P := with_counters c false (m_num_accesses c) (m_num_hits c).
End ops.

(** The constructor [Cache::Cache]. *)
Definition create_cache (cfg : Cfg) (time : Z) (depth : nat) (has_data : bool)
    (cfgname : string) (num_sets : Z) (associativity : nat) (cache_block_size : Z)
    (replacement_policy : string) (t : cache_t) (hash : hash_t) (fi : option FaultInjector)
    (ahl : option AddressHome.AddressHomeLookup) : result (Cache PolicyState) :=
  let! b := create_base num_sets associativity cache_block_size hash ahl in
  let! si := createCacheSetInfo cfg cfgname replacement_policy associativity in
  let! s := createCacheSet cfg time depth has_data cfgname replacement_policy t associativity
              cache_block_size in
  Ok (mkCache b false 0 0 t (replicate (Z.to_nat num_sets) s) (mkEnv si 0) fi).

(** * Abstract view: a partial map from block numbers to lines *)
Definition set_of_tag (b : CacheBase) (tag : Z) : result Z :=
  set_index_of (m_hash b) (m_num_sets b) (m_log_num_sets b) tag.

Definition line_of {P} (c : Cache P) (tag : Z) : option CacheBlockInfo :=
  match set_of_tag (base c) tag with
  | Ok k => s ← m_sets c !! Z.to_nat k; contents s !! tag
  | Err _ => None
  end.

(** Every line sits in the set its tag selects. *)
Definition placed {P} (b : CacheBase) (k : nat) (s : CacheSet P) : Prop :=
  forall tag blk, contents s !! tag = Some blk -> 0 <= tag /\ set_of_tag b tag = Ok (Z.of_nat k).

Definition good_set {P} `{ReplacementLaws P} (t : cache_t) (n : nat) (b : CacheBase) (e : RepEnv)
    (k : nat) (s : CacheSet P) : Prop :=
  set_wf t n s e /\ m_blocks s = None /\ m_blocksize s = cb_blocksize b /\ placed b k s.

(** The invariant of a cache of [n]-way sets of type [t], without fault
    injection. *)
Record cache_wf {P} `{ReplacementLaws P} (t : cache_t) (n : nat) (c : Cache P) : Prop := mkCacheWf {
  wf_base : base_wf (base c);
  wf_block : 1 < cb_blocksize (base c);
  wf_type : m_cache_type c = t;
  wf_create : exists b0, create t = Ok b0;
  wf_num : length (m_sets c) = Z.to_nat (m_num_sets (base c));
  wf_fi : m_fault_injector c = None;
  wf_sets : forall k s, m_sets c !! k = Some s -> good_set t n (base c) (m_env c) k s
}.

(** Addresses are 64 bits wide. *)
Definition address (a : Z) : Prop := 0 <= a < 2 ^ 64.

Section lemmas.
Context {P : Type} `{ReplacementLaws P} `{!EnvFrame P}.
Implicit Types c : Cache P.

(** Where an address is looked up. *)
Lemma locate_ok t n c addr :
  cache_wf t n c -> address addr ->
  exists k s, let tag := addr / cb_blocksize (base c) in
    locate c addr = Ok (tag, k, s) /\ locate_assert c addr = Ok (tag, k, s) /\
    m_sets c !! k = Some s /\ set_of_tag (base c) tag = Ok (Z.of_nat k) /\
    0 <= tag /\ tag <> INVALID_TAG.
Proof.
  intros Hwf Ha. pose proof (wf_base _ _ _ Hwf) as Hb.
  destruct (splitAddress_ok _ addr Hb Ha) as (s & Hs & Hr).
  destruct (lookup_lt_is_Some_2 (m_sets c) (Z.to_nat s)) as [st Hst];
    [rewrite (wf_num _ _ _ Hwf); lia|].
  exists (Z.to_nat s), st. cbv zeta. unfold locate, locate_assert. rewrite Hs. cbn [rbind].
  rewrite (proj2 (Z.ltb_lt s _)) by lia. cbn [rguard rbind]. rewrite (aget_Ok _ _ _ Hst).
  split; [done|]. split; [done|]. split; [done|].
  pose proof (splitAddress_sub_block _ _ _ _ Hb (wf_block _ _ _ Hwf) Ha Hs) as Hne.
  pose proof (splitAddress_tag_range _ _ _ _ Hb Ha Hs) as (_ & Htr & _).
  split; [|split; [lia|done]].
  destruct Hb as ((bk & Hk & Hbs & Hlog) & _ & Hahl). unfold splitAddress in Hs.
  rewrite Hahl in Hs. inv_ok. unfold set_of_tag. rewrite Z2Nat.id by lia.
  congruence.
Qed.

Lemma line_of_set c tag k s :
  set_of_tag (base c) tag = Ok (Z.of_nat k) -> m_sets c !! k = Some s ->
  line_of c tag = contents s !! tag.
Proof. intros Hk Hs. unfold line_of. rewrite Hk, Nat2Z.id, Hs. done. Qed.

(** [peekSingleLine] is lookup in the abstract view. *)
Lemma peek_line_of t n c addr :
  cache_wf t n c -> address addr ->
  peekSingleLine addr c = Ok (line_of c (addr / cb_blocksize (base c))).
Proof.
  intros Hwf Ha. destruct (locate_ok t n c addr Hwf Ha) as (k & s & Hl & _ & Hs & Hk & _ & Hne).
  unfold peekSingleLine. rewrite Hl. cbn [rbind]. rewrite (line_of_set c _ k s) by done.
  f_equal. apply find_contents; [|done]. apply (wf_sets _ _ _ Hwf k s Hs).
Qed.

Lemma line_of_with_set c k s s' e tag :
  m_sets c !! k = Some s ->
  line_of (with_set c k s' e) tag =
  if decide (set_of_tag (base c) tag = Ok (Z.of_nat k)) then contents s' !! tag else line_of c tag.
Proof.
  intros Hs. assert (Hlt : (k < length (m_sets c))%nat) by (by eapply lookup_lt_Some).
  unfold line_of. cbn [base with_set m_sets]. destruct (set_of_tag (base c) tag) as [x|] eqn:Hx.
  - rewrite lookup_insert_in by done. destruct (decide (Ok x = Ok (Z.of_nat k))) as [E|E].
    + injection E as ->. rewrite Nat2Z.id, decide_True by done. done.
    + destruct (decide (k = Z.to_nat x)) as [->|Hne]; [|done].
      destruct (Z.le_gt_cases 0 x) as [Hx0|Hx0].
      * exfalso. apply E. f_equal. lia.
      * exfalso. revert Hx. unfold set_of_tag. clear -Hx0. intros Hx.
        assert (0 <= x); [|lia]. revert Hx. unfold set_index_of.
        destruct (m_hash (base c)); intros Hx; inv_ok; try apply u32_range;
          repeat (destruct (Rng.rng_next _); inv_ok); try apply u32_range.
  - by rewrite decide_False.
Qed.

(** Replacing one set of a cache by a good one. *)
Lemma with_set_wf t n c k s' e' :
  cache_wf t n c -> (k < length (m_sets c))%nat -> env_shape (m_env c) e' ->
  good_set t n (base c) e' k s' -> cache_wf t n (with_set c k s' e').
Proof.
  intros Hwf Hk Hsh Hg. destruct Hwf as [Hb Hbl Ht Hcr Hn Hfi Hsets].
  split; cbn [base with_set m_cache_type m_fault_injector m_env m_sets]; try done.
  - by rewrite length_insert.
  - intros j s Hj. rewrite lookup_insert_in in Hj by done. case_decide; simplify_eq; [done|].
    destruct (Hsets j s Hj) as (Hset & Hrest). split; [|done]. by eapply set_wf_shape.
Qed.
End lemmas.

Section refinement.
Context {P : Type} `{ReplacementLaws P} `{!EnvFrame P}.
Implicit Types c : Cache P.

Lemma placed_sub b k (s s' : CacheSet P) :
  placed b k s -> contents s' ⊆ contents s -> placed b k s'.
Proof. intros Hp Hsub tag blk Hb. eapply Hp. by eapply lookup_weaken. Qed.

(** An operation on the set [k] of an address that keeps its lines. *)
Lemma with_set_same t n c k s s' e' :
  cache_wf t n c -> m_sets c !! k = Some s -> env_shape (m_env c) e' ->
  set_wf t n s' e' -> contents s' = contents s -> m_blocks s' = m_blocks s ->
  m_blocksize s' = m_blocksize s ->
  cache_wf t n (with_set c k s' e') /\
  forall tag, line_of (with_set c k s' e') tag = line_of c tag.
Proof.
  intros Hwf Hs Hsh Hset Hc Hm Hbs. destruct (wf_sets _ _ _ Hwf k s Hs) as (_ & Hm0 & Hbs0 & Hp).
  split.
  - apply with_set_wf; [done|by eapply lookup_lt_Some|done|].
    split; [done|]. split; [congruence|]. split; [congruence|]. eapply placed_sub; [done|by rewrite Hc].
  - intros tag. rewrite (line_of_with_set c k s) by done. case_decide as Hk; [|done].
    rewrite (line_of_set c tag k s) by done. by rewrite Hc.
Qed.

(** [accessSingleLine] hits exactly the lines of the view, and keeps them. *)
Lemma access_refines t n c addr acc want buff bytes upd :
  cache_wf t n c -> address addr -> 0 <= bytes ->
  addr mod cb_blocksize (base c) + bytes <= cb_blocksize (base c) ->
  exists r c', accessSingleLine addr acc want buff bytes upd c = Ok (r, None, c') /\
    option_map snd r = line_of c (addr / cb_blocksize (base c)) /\
    cache_wf t n c' /\ base c' = base c /\ forall tag, line_of c' tag = line_of c tag.
Proof.
  intros Hwf Ha Hby Hfit. pose proof (wf_base _ _ _ Hwf) as Hb.
  destruct (locate_ok t n c addr Hwf Ha) as (k & s & Hl & _ & Hs & Hk & _ & Hne).
  destruct (wf_sets _ _ _ Hwf k s Hs) as (Hset & Hm & Hbs & Hp).
  destruct (splitAddressOffset_ok _ addr Hb Ha) as (t0 & s0 & _ & Hso).
  unfold accessSingleLine. rewrite Hso. cbn [rbind]. rewrite Hl. cbn [rbind].
  rewrite (line_of_set c _ k s) by done.
  pose proof (find_contents (addr / cb_blocksize (base c)) s ltac:(apply Hset) Hne) as Hfc.
  destruct (find _ s) as [[i b]|] eqn:Hf; [|by exists None, c].
  apply find_Some in Hf as [Hi _].
  assert (Hin : (i < n)%nat) by (destruct Hset as (<- & _); by eapply lookup_lt_Some).
  destruct (touch_line_refines t n s (m_env c) i upd Hset Hin)
    as (s' & e' & Ht & Hset' & Hsh & Harr & Hm' & Hbs').
  assert (Hmod : 0 <= addr mod cb_blocksize (base c)).
  { apply Z.mod_pos_bound. pose proof (wf_block _ _ _ Hwf). lia. }
  assert (Hfit' : (u32 (addr mod cb_blocksize (base c) + bytes) <=? m_blocksize s) = true).
  { apply Z.leb_le. destruct Hb as ((bk & Hbk & Hbs2 & _) & _).
    assert (2 ^ bk < 2 ^ 32) by (apply Z.pow_lt_mono_r; lia). rewrite u32_small; lia. }
  assert (contents s' = contents s) as Hcs by (unfold contents; by rewrite Harr).
  destruct (with_set_same t n c k s s' e') as [Hwf' Hlines]; [done..|].
  rewrite (wf_fi _ _ _ Hwf).
  destruct acc; cbn [rbind]; unfold read_line, write_line; rewrite Hfit', Hm; cbn [rguard rbind].
  - rewrite Ht. cbn [rbind]. by exists (Some (i, b)), (with_set c k s' e').
  - assert (with_data s None = s) as Hid by (destruct s; cbn in *; by subst).
    replace (match buff with Some _ | _ => Ok None end) with (Ok (A:=option (list Z)) None)
      by (by destruct buff).
    cbn [rbind]. rewrite Hid, Ht. cbn [rbind]. by exists (Some (i, b)), (with_set c k s' e').
Qed.

Lemma invalidateSingleLine_refines t n c addr :
  cache_wf t n c -> address addr ->
  let tag := addr / cb_blocksize (base c) in
  exists c', invalidateSingleLine addr c = Ok (bool_decide (is_Some (line_of c tag)), c') /\
    cache_wf t n c' /\ base c' = base c /\
    forall tag', line_of c' tag' = if decide (tag' = tag) then None else line_of c tag'.
Proof.
  intros Hwf Ha tag. destruct (locate_ok t n c addr Hwf Ha) as (k & s & _ & Hl & Hs & Hk & _ & Hne).
  destruct (wf_sets _ _ _ Hwf k s Hs) as (Hset & Hm & Hbs & Hp).
  unfold invalidateSingleLine. rewrite Hl. cbn [rbind].
  pose proof (invalidate_refines t n s (m_env c) _ Hset Hne) as Hinv.
  assert (Hkeep : m_blocks (snd (invalidate_tag tag s)) = m_blocks s /\
                  m_blocksize (snd (invalidate_tag tag s)) = m_blocksize s).
  { unfold invalidate_tag. by destruct (find tag s) as [[? ?]|]. }
  fold tag in Hinv, Hk |- *. destruct (invalidate_tag tag s) as [r s'].
  destruct Hinv as (Hset' & Hcs & ->). destruct Hkeep as [Hm' Hbs']. cbn in Hm', Hbs'.
  eexists. split; [by rewrite (line_of_set c tag k s)|]. split; [|split; [done|]].
  - apply with_set_wf; [done|by eapply lookup_lt_Some|done|].
    split; [done|]. split; [congruence|]. split; [congruence|].
    eapply placed_sub; [done|]. rewrite Hcs. apply delete_subseteq.
  - intros tag'. rewrite (line_of_with_set c k s) by done. case_decide as Hk'.
    + rewrite (line_of_set c tag' k s), Hcs by done. case_decide as E.
      * subst tag'. apply lookup_delete_eq.
      * by rewrite lookup_delete_ne.
    + rewrite decide_False; [done|]. intros ->. done.
Qed.
End refinement.

Section insertion.
Context {P : Type} `{ReplacementLaws P} `{!EnvFrame P}.
Implicit Types c : Cache P.

(** The effect of inserting the absent block [tag]: it is present afterwards,
    and the line reported as evicted, one of its own set, is the only one
    that left. *)
Definition inserted (c c' : Cache P) (tag : Z) (o : LineOut) : Prop :=
  (exists new, line_of c' tag = Some new /\ m_tag new = tag /\ m_cstate new = CacheState.INVALID) /\
  (if lo_eviction o then
     exists old, line_of c (m_tag (lo_evict_block_info o)) = Some old /\
       m_tag old = m_tag (lo_evict_block_info o) /\
       m_cstate old = m_cstate (lo_evict_block_info o) /\
       set_of_tag (base c) (m_tag old) = set_of_tag (base c) tag /\
       lo_evict_addr o = tagToAddress (base c) (m_tag old)
   else True) /\
  forall tag', tag' <> tag ->
    line_of c' tag' =
    if lo_eviction o && (m_tag (lo_evict_block_info o) =? tag') then None else line_of c tag'.

Lemma insertSingleLine_refines t n c addr fill evict want cntlr o c' :
  cache_wf t n c -> address addr ->
  line_of c (addr / cb_blocksize (base c)) = None ->
  insertSingleLine addr fill evict want cntlr c = Ok (o, c') ->
  cache_wf t n c' /\ base c' = base c /\ inserted c c' (addr / cb_blocksize (base c)) o.
Proof.
  intros Hwf Ha Hmiss Hins.
  destruct (locate_ok t n c addr Hwf Ha) as (k & s & Hl & _ & Hs & Hk & Htag0 & Hne).
  set (tag := addr / cb_blocksize (base c)) in *.
  destruct (wf_sets _ _ _ Hwf k s Hs) as (Hset & Hm & Hbs & Hp).
  rewrite (line_of_set c tag k s) in Hmiss by done.
  unfold insertSingleLine in Hins. rewrite Hl, (wf_type _ _ _ Hwf), (wf_fi _ _ _ Hwf) in Hins.
  cbn [rbind] in Hins.
  destruct (wf_create _ _ _ Hwf) as (b0 & Hb0). rewrite Hb0 in Hins. cbn [rbind] in Hins.
  apply rbind_Ok_inv in Hins as ([[[i io] s'] e'] & Hi & Hins). cbn [rbind] in Hins. inv_ok.
  assert (Hcls : class_of t (setTag tag b0)).
  { exists b0. split; [done|]. unfold same_class. cbn. by destruct (sub b0). }
  assert (Hkeep : m_blocks s' = m_blocks s /\ m_blocksize s' = m_blocksize s).
  { unfold insert in Hi. rewrite Hm in Hi |- *. clear -Hi. inv_ok. destruct fill; inv_ok; done. }
  destruct Hkeep as [Hm' Hbs'].
  apply (insert_refines t n) in Hi as (Hset' & Hsh & old & new & Hold & Hfill & Htag & Hcs & Hev);
    [|done|done|by apply isValid_true|done].
  cbn [setTag m_tag] in Htag, Hcs.
  assert (Hu : unique_tags (m_cache_block_info_array s)) by apply Hset.
  split; [|split; [done|]].
  - apply with_set_wf; [done|by eapply lookup_lt_Some|done|].
    split; [done|]. split; [congruence|]. split; [congruence|]. intros tg blk.
    rewrite Hcs, lookup_insert_Some. intros [[<- _]|[_ Hb]]; [done|]. apply (Hp tg blk).
    unfold forget in Hb. destruct (isValid old); [|done]. by apply lookup_delete_Some in Hb as [_ ?].
  - destruct Hev as [Hevict Hfields]. split; [|split].
    + exists new. rewrite (line_of_with_set c k s), decide_True by done.
      rewrite Hcs, lookup_insert_eq. split; [done|]. split; [done|].
      unfold filled_with in Hfill. rewrite (clone_Ok_cstate _ _ _ Hfill). cbn.
      destruct t; try discriminate; injection Hb0 as <-; done.
    + cbn [lo_eviction lo_evict_block_info lo_evict_addr]. rewrite Hevict.
      destruct (isValid old) eqn:Hov; [|done]. destruct Hfields as (Ht & Hst & _).
      rewrite Ht. assert (Hco : contents s !! m_tag old = Some old)
        by (apply lookup_contents_of; [done|by exists i]).
      destruct (Hp _ _ Hco) as [_ Hko]. exists old. split; [by rewrite (line_of_set c _ k s)|].
      rewrite Hst, Hk, Hko. done.
    + intros tag' Hne'. cbn [lo_eviction lo_evict_block_info]. rewrite Hevict.
      rewrite (line_of_with_set c k s) by done. case_decide as Hk'.
      * rewrite (line_of_set c tag' k s), Hcs, lookup_insert_ne by done. unfold forget.
        destruct (isValid old); cbn [andb]; [|done]. destruct Hfields as (-> & _).
        destruct (Z.eqb_spec (m_tag old) tag') as [<-|E]; [apply lookup_delete_eq|by apply lookup_delete_ne].
      * destruct (isValid old) eqn:Hov; cbn [andb]; [|done]. destruct Hfields as (-> & _).
        destruct (Z.eqb_spec (m_tag old) tag') as [<-|E]; [|done]. exfalso. apply Hk'.
        apply (Hp _ old). apply lookup_contents_of; [done|by exists i].
Qed.

(** The insertion succeeds whenever the policy finds a victim. *)
Lemma insertSingleLine_total t n c addr fill evict want cntlr k s r :
  cache_wf t n c -> address addr -> evict_ok t evict ->
  set_of_tag (base c) (addr / cb_blocksize (base c)) = Ok (Z.of_nat k) -> m_sets c !! k = Some s ->
  getReplacementIndex cntlr (m_cache_block_info_array s) (m_policy s) (m_env c) = Ok r ->
  exists o c', insertSingleLine addr fill evict want cntlr c = Ok (o, c').
Proof.
  intros Hwf Ha Hev Hk Hs Hr. destruct r as [[i p'] e1].
  destruct (locate_ok t n c addr Hwf Ha) as (k1 & s1 & Hl & _ & Hs1 & Hk1 & _ & Hne).
  assert (k1 = k) as -> by (rewrite Hk in Hk1; injection Hk1; lia).
  assert (s1 = s) as -> by congruence.
  destruct (wf_sets _ _ _ Hwf k s Hs) as (Hset & Hm & Hbs & Hp).
  unfold insertSingleLine. rewrite Hl, (wf_type _ _ _ Hwf), (wf_fi _ _ _ Hwf). cbn [rbind].
  destruct (wf_create _ _ _ Hwf) as (b0 & Hb0). rewrite Hb0. cbn [rbind].
  destruct (insert_total t n cntlr (setTag (addr / cb_blocksize (base c)) b0) fill evict want s (m_env c)
              i p' e1) as (o & s' & -> & _); [done| |done|done|done|].
  { exists b0. split; [done|]. unfold same_class. cbn. by destruct (sub b0). }
  cbn. eauto.
Qed.

Lemma setPrDeadBit_refines t n c addr :
  cache_wf t n c -> address addr ->
  let tag := addr / cb_blocksize (base c) in
  exists c', setPrDeadBit addr c = Ok c' /\ cache_wf t n c' /\ base c' = base c /\
    forall tag', line_of c' tag' =
      if decide (tag' = tag) then option_map (setDead_prl1 true) (line_of c tag') else line_of c tag'.
Proof.
  intros Hwf Ha tag. destruct (locate_ok t n c addr Hwf Ha) as (k & s & Hl & _ & Hs & Hk & _ & Hne).
  destruct (wf_sets _ _ _ Hwf k s Hs) as (Hset & Hm & Hbs & Hp).
  pose proof Hset as (Hlen & Hpol & Hu & Hc). fold tag in Hl, Hk, Hne.
  unfold setPrDeadBit. rewrite Hl. cbn [rbind].
  pose proof (find_contents tag s Hu Hne) as Hfc.
  assert (Hsame : forall c1, c1 = c -> option_map (setDead_prl1 true) (line_of c tag) = line_of c tag ->
    cache_wf t n c1 /\ base c1 = base c /\ forall tag', line_of c1 tag' =
    if decide (tag' = tag) then option_map (setDead_prl1 true) (line_of c tag') else line_of c tag').
  { intros c1 -> Hid. split; [done|]. split; [done|]. intros tag'. case_decide; [by subst|done]. }
  assert (Hline : line_of c tag = contents s !! tag) by (by apply line_of_set with k).
  destruct (find tag s) as [[i b]|] eqn:Hf; cbn in Hfc.
  2: { exists c. split; [done|]. apply Hsame; [done|]. by rewrite Hline, <- Hfc. }
  apply find_Some in Hf as [Hi Hbt]. rewrite <- Hfc in Hline.
  destruct (sub b) as [|d| |] eqn:Hsub;
    try (exists c; split; [done|]; apply Hsame; [done|]; rewrite Hline; cbn;
         unfold setDead_prl1; by rewrite Hsub).
  set (b' := setDead_prl1 true b).
  assert (Hb' : m_tag b' = tag) by (unfold b', setDead_prl1; by rewrite Hsub).
  assert (Hv' : isValid b' = true) by (apply isValid_true; congruence).
  assert (Hfa : fresh_at (m_cache_block_info_array s) i (m_tag b')).
  { intros j x Hj Hx Hxt. symmetry. apply (Hu i j b x); [done|done|by apply isValid_true; congruence|congruence]. }
  assert (Hcs : contents (with_array s (<[i := b']> (m_cache_block_info_array s))) = <[tag := b']> (contents s)).
  { unfold contents. cbn [m_cache_block_info_array with_array].
    rewrite (contents_insert_valid _ i b), Hb' by done. unfold forget.
    rewrite (proj2 (isValid_true b)) by congruence. by rewrite Hbt, insert_delete_eq. }
  eexists. split; [done|]. split; [|split; [done|]].
  - apply with_set_wf; [done|by eapply lookup_lt_Some|done|].
    split; [|split; [done|split; [done|]]].
    + split; [cbn; by rewrite length_insert|]. split; [done|]. split.
      * apply unique_tags_insert; [done|by eapply lookup_lt_Some|done].
      * apply Forall_insert; [done|]. eapply Forall_lookup_1 in Hc as (x & Ex & Hx); [|done].
        exists x. split; [done|]. revert Hx. unfold same_class, b', setDead_prl1. rewrite Hsub. done.
    + intros tg blk. rewrite Hcs, lookup_insert_Some. intros [[<- _]|[_ Hb]]; [|by eapply Hp].
      by apply (Hp tag b).
  - intros tag'. rewrite (line_of_with_set c k s) by done. case_decide as Hk'.
    + rewrite Hcs. case_decide as E.
      * subst tag'. by rewrite lookup_insert_eq, Hline.
      * rewrite lookup_insert_ne by done. by rewrite (line_of_set c tag' k s).
    + rewrite decide_False; [done|]. intros ->. done.
Qed.
End insertion.

(** * Reachable caches *)
Section steps.
Context {P : Type} `{ReplacementPolicy P}.

(** The operations the controllers perform on a cache; a line is inserted only
    after a miss, and an access stays inside its line. *)
Inductive cache_step : Cache P -> Cache P -> Prop :=
  | StepAccess c c' addr acc want buff bytes upd r out :
      address addr -> 0 <= bytes ->
      addr mod cb_blocksize (base c) + bytes <= cb_blocksize (base c) ->
      accessSingleLine addr acc want buff bytes upd c = Ok (r, out, c') -> cache_step c c'
  | StepInsert c c' addr fill evict want cntlr o :
      address addr -> peekSingleLine addr c = Ok None ->
      insertSingleLine addr fill evict want cntlr c = Ok (o, c') -> cache_step c c'
  | StepInvalidate c c' addr r :
      address addr -> invalidateSingleLine addr c = Ok (r, c') -> cache_step c c'
  | StepDead c c' addr :
      address addr -> setPrDeadBit addr c = Ok c' -> cache_step c c'
  | StepCounters c hit : cache_step c (updateCounters hit c)
  | StepHits c hits : cache_step c (updateHits hits c)
  | StepEnable c : cache_step c (enable c)
  | StepDisable c : cache_step c (disable c).
End steps.

Section reach.
Context {P : Type} `{ReplacementLaws P} `{!EnvFrame P}.
Implicit Types c : Cache P.

Lemma with_counters_wf t n c en a h : cache_wf t n c -> cache_wf t n (with_counters c en a h).
Proof. intros [? ? ? ? ? ? ?]. split; done. Qed.

Lemma cache_step_wf t n c c' : cache_wf t n c -> cache_step c c' -> cache_wf t n c'.
Proof.
  intros Hwf Hstep. destruct Hstep.
  - destruct (access_refines t n c addr acc want buff bytes upd) as (r1 & c1 & E & _ & Hwf' & _);
      [done..|]. assert (c' = c1) as -> by congruence. done.
  - match goal with Hpk : peekSingleLine _ _ = _ |- _ => rewrite (peek_line_of t n) in Hpk by done end.
    inv_ok. eapply insertSingleLine_refines in Hwf as [? _]; done.
  - destruct (invalidateSingleLine_refines t n c addr) as (c1 & E & Hwf' & _); [done..|].
    assert (c' = c1) as -> by congruence. done.
  - destruct (setPrDeadBit_refines t n c addr) as (c1 & E & Hwf' & _); [done..|].
    assert (c' = c1) as -> by congruence. done.
  - unfold updateCounters. destruct (m_enabled c); [by apply with_counters_wf|done].
  - unfold updateHits. destruct (m_enabled c); [by apply with_counters_wf|done].
  - by apply with_counters_wf.
  - by apply with_counters_wf.
Qed.

Lemma reachable_wf t n c c' : cache_wf t n c -> rtc cache_step c c' -> cache_wf t n c'.
Proof. intros Hwf Hs. induction Hs; [done|]. eauto using cache_step_wf. Qed.

(** A valid tag names at most one way of the whole cache. *)
Lemma wf_no_duplicates t n c k1 k2 s1 s2 i1 i2 b1 b2 :
  cache_wf t n c -> m_sets c !! k1 = Some s1 -> m_sets c !! k2 = Some s2 ->
  m_cache_block_info_array s1 !! i1 = Some b1 -> m_cache_block_info_array s2 !! i2 = Some b2 ->
  isValid b1 = true -> m_tag b1 = m_tag b2 -> k1 = k2 /\ i1 = i2.
Proof.
  intros Hwf H1 H2 Hb1 Hb2 Hv Ht.
  destruct (wf_sets _ _ _ Hwf k1 s1 H1) as ((_ & _ & Hu1 & _) & _ & _ & Hp1).
  destruct (wf_sets _ _ _ Hwf k2 s2 H2) as ((_ & _ & Hu2 & _) & _ & _ & Hp2).
  destruct (Hp1 (m_tag b1) b1) as [_ E1]; [apply lookup_contents_of; eauto|].
  destruct (Hp2 (m_tag b1) b2) as [_ E2].
  { apply lookup_contents_of; [done|]. exists i2. split; [done|]. split; [done|]. by eapply valid_tag_neq. }
  assert (k1 = k2) as -> by (rewrite E1 in E2; injection E2; lia). simplify_eq.
  split; [done|]. by apply (Hu1 i1 i2 b1 b2).
Qed.
End reach.

(** The configurations the constructor accepts. *)
Definition cache_config_ok (cfg : Cfg) (depth : nat) (cfgname name : string) (num_sets : Z) (n : nat)
    (bs : Z) (t : cache_t) (h : hash_t) : Prop :=
  0 < num_sets < 2 ^ 32 /\ (exists k, 1 <= k < 32 /\ bs = 2 ^ k) /\
  (exists policy, parsePolicyType name = Ok policy /\ policy_config_ok cfg depth cfgname policy n) /\
  t <> INVALID_CACHE_TYPE /\ h <> INVALID_HASH_TYPE /\
  (h = HASH_MASK \/ h = HASH_XOR_MOD -> Bits.isPower2 num_sets = true) /\
  (h = HASH_MER_MOD -> 1 < num_sets).

Lemma contents_all_invalid b n :
  isValid b = false -> contents_of (replicate n b) = ∅.
Proof.
  intros Hb. unfold contents_of. assert (filter (fun b => isValid b = true) (replicate n b) = []) as ->; [|done].
  induction n as [|n IH]; [done|]. cbn [replicate]. by rewrite filter_cons_False by congruence.
Qed.

(** A cache of empty sets satisfies the invariant. *)
Lemma empty_cache_wf {P} `{ReplacementLaws P} t n b p e b0 :
  base_wf b -> 1 < cb_blocksize b -> create t = Ok b0 -> policy_wf n p e ->
  cache_wf t n (mkCache b false 0 0 t
    (replicate (Z.to_nat (m_num_sets b)) (mkSet (replicate n b0) None (cb_blocksize b) p)) e None).
Proof.
  intros Hb Hbs Hb0 Hp.
  assert (Hinv : isValid b0 = false) by (apply isValid_false; by eapply create_invalid).
  split; cbn [base m_cache_type m_sets m_fault_injector m_env]; try done.
  - by exists b0.
  - by rewrite length_replicate.
  - intros j s Hj. apply lookup_replicate in Hj as [-> _]. split; [|split; [done|split; [done|]]].
    + split; [apply length_replicate|]. split; [done|]. cbn [m_cache_block_info_array]. split.
      * intros i1 i2 x y Hx _ Hvx. apply lookup_replicate in Hx as [-> _]. congruence.
      * apply Forall_replicate. exists b0. split; [done|]. unfold same_class. by destruct (sub b0).
    + intros tag blk. unfold contents. cbn [m_cache_block_info_array].
      rewrite contents_all_invalid by done. by rewrite lookup_empty.
Qed.

Lemma create_cache_wf cfg time depth cfgname num_sets n bs name t h :
  cache_config_ok cfg depth cfgname name num_sets n bs t h ->
  exists c, create_cache cfg time depth false cfgname num_sets n bs name t h None None = Ok c /\
    cache_wf t n c /\ cb_blocksize (base c) = bs.
Proof.
  intros (Hns & (k & Hk & ->) & (policy & Hpar & Hpol) & Ht & Hh & Hpow & Hmer).
  unfold create_cache.
  assert (Hb : exists b, create_base num_sets n (2 ^ k) h None = Ok b /\
                 cb_blocksize b = 2 ^ k /\ m_num_sets b = num_sets).
  { unfold create_base. rewrite (proj2 (Z.eqb_neq num_sets 0)) by lia. cbn [negb rguard rbind].
    assert ((num_sets =? Z.shiftl 1 (Bits.floorLog2 num_sets)) || negb (bool_decide (h = HASH_MASK)) = true) as ->.
    { destruct (decide (h = HASH_MASK)) as [->|Hne].
      - rewrite floorLog2_log2, Z.shiftl_1_l by lia. apply orb_true_intro. left. apply Z.eqb_eq.
        apply isPower2_spec; [done|]. apply Hpow. by left.
      - rewrite bool_decide_eq_false_2 by done. by rewrite orb_true_r. }
    cbn [rguard rbind]. eauto. }
  destruct Hb as (b & Hb & Hbs & Hnum). rewrite Hb. cbn [rbind].
  destruct (create_policy_ok cfg time depth cfgname name policy n 0 Hpar Hpol) as (p & si & Hp & Hsi & Hwf).
  rewrite Hsi. cbn [rbind]. unfold createCacheSet. rewrite Hp. cbn [rbind]. unfold create_set.
  assert (exists b0, create t = Ok b0) as [b0 Hb0] by (destruct t; try done; eexists; done).
  rewrite Hb0. cbn [rbind]. eexists. split; [done|]. split; [|done].
  rewrite <- Hbs, <- Hnum. apply empty_cache_wf; [|rewrite Hbs|done|done].
  - eapply (create_base_wf num_sets n (2 ^ k) h b k); try done; [lia|]. intros ->. apply Hpow. by right.
  - change 1 with (2 ^ 0). apply Z.pow_lt_mono_r; lia.
Qed.

(** * Main theorems *)

(** C22: a cache built from an accepted configuration and driven by any sequence
    of accesses inside a line, insertions of a block that has just missed,
    invalidations, dead-bit and counter updates never holds a block twice: two
    valid ways with the same tag are the same way of the same set; and each
    valid line sits in the set that its address selects, so that a lookup of
    the address finds it.  The number of sets is a power of two for the mask and
    the exclusive-or hash and more than one for the Mersenne hash, and there is
    neither an address home lookup nor a fault injector.  ([insertSingleLine]
    itself does not check that the block is missing.) *)
Theorem reachable_lines_unique cfg time depth cfgname num_sets n bs name t h c0 c :
  cache_config_ok cfg depth cfgname name num_sets n bs t h ->
  create_cache cfg time depth false cfgname num_sets n bs name t h None None = Ok c0 ->
  rtc cache_step c0 c ->
  (forall k1 k2 s1 s2 i1 i2 b1 b2,
     m_sets c !! k1 = Some s1 -> m_sets c !! k2 = Some s2 ->
     m_cache_block_info_array s1 !! i1 = Some b1 -> m_cache_block_info_array s2 !! i2 = Some b2 ->
     isValid b1 = true -> m_tag b1 = m_tag b2 -> k1 = k2 /\ i1 = i2) /\
  (forall addr k s i b,
     m_sets c !! k = Some s -> m_cache_block_info_array s !! i = Some b -> isValid b = true ->
     address addr -> addr / cb_blocksize (base c) = m_tag b -> peekSingleLine addr c = Ok (Some b)).
Proof.
  intros Hcfg Hc0 Hsteps. destruct (create_cache_wf _ time _ _ _ _ _ _ _ _ Hcfg) as (c1 & E & Hwf0 & _).
  assert (c1 = c0) as -> by congruence. assert (Hwf : cache_wf t n c) by (by eapply reachable_wf).
  split; [intros k1 k2 s1 s2 i1 i2 b1 b2; by eapply wf_no_duplicates|]. intros addr k s i b Hs Hb Hv Ha Htag.
  destruct (wf_sets _ _ _ Hwf k s Hs) as ((_ & _ & Hu & _) & _ & _ & Hp).
  assert (Hc : contents s !! m_tag b = Some b) by (apply lookup_contents_of; eauto).
  destruct (Hp _ _ Hc) as [_ Hk].
  rewrite (peek_line_of t n), Htag, (line_of_set c _ k s) by done. by rewrite Hc.
Qed.

(** The blocks of a reachable cache keep the dynamic class its constructor
    chose: every set has the configured number of ways, each holds an object of
    the class [CacheBlockInfo::create] makes for the cache's type, and cloning
    any block of the cache into any other therefore succeeds. *)
Theorem reachable_blocks_typed cfg time depth cfgname num_sets n bs name t h c0 c k s :
  cache_config_ok cfg depth cfgname name num_sets n bs t h ->
  create_cache cfg time depth false cfgname num_sets n bs name t h None None = Ok c0 ->
  rtc cache_step c0 c -> m_sets c !! k = Some s ->
  m_cache_type c = t /\ length (m_cache_block_info_array s) = n /\
  exists b0, create t = Ok b0 /\
    forall i b, m_cache_block_info_array s !! i = Some b ->
      same_class b b0 = true /\
      forall i' b', m_cache_block_info_array s !! i' = Some b' -> is_ok (clone b b').
Proof.
  intros Hcfg Hc0 Hsteps Hs.
  destruct (create_cache_wf _ time _ _ _ _ _ _ _ _ Hcfg) as (c1 & E & Hwf0 & _).
  assert (c1 = c0) as -> by congruence. pose proof (reachable_wf _ _ _ _ Hwf0 Hsteps) as Hwf.
  destruct (wf_sets _ _ _ Hwf k s Hs) as ((Hlen & _ & _ & Hcls) & _).
  destruct (wf_create _ _ _ Hwf) as (b0 & Hb0).
  split; [apply (wf_type _ _ _ Hwf)|]. split; [done|]. exists b0. split; [done|]. intros i b Hb.
  pose proof (Forall_lookup_1 _ _ _ _ Hcls Hb) as Hcb. split.
  - destruct Hcb as (x & Hx & Hsame). by assert (x = b0) as <- by congruence.
  - intros i' b' Hb'. pose proof (Forall_lookup_1 _ _ _ _ Hcls Hb') as Hcb'.
    destruct (clone_same_class b b') as (x & Hx & _); [by eapply class_same|by exists x].
Qed.

(** C7: inserting a missing block succeeds with a replacement policy that always
    finds a victim (every policy here but SRRIP), when no line of the
    set the block selects is being upgraded (SHARED_UPGRADING lines are not
    replaced) and query-based selection, if the policy uses it, has a controller
    to ask; the block then hits, the reported eviction is a line of the same set
    that was present, and no other line of the cache changed. *)
Theorem insert_then_hit {P} `{AlwaysReplaces P} `{!EnvFrame P} t n (c : Cache P) addr fill evict want cntlr :
  cache_wf t n c -> (0 < n)%nat -> address addr -> evict_ok t evict ->
  peekSingleLine addr c = Ok None ->
  (forall k s, set_of_tag (base c) (addr / cb_blocksize (base c)) = Ok (Z.of_nat k) -> m_sets c !! k = Some s ->
     (needs_cntlr (m_policy s) = true -> is_Some cntlr) /\
     Forall (fun b => replaceable b = true) (m_cache_block_info_array s)) ->
  exists o c' new, insertSingleLine addr fill evict want cntlr c = Ok (o, c') /\
    peekSingleLine addr c' = Ok (Some new) /\ m_tag new = addr / cb_blocksize (base c) /\
    inserted c c' (addr / cb_blocksize (base c)) o.
Proof.
  intros Hwf Hn Ha Hev Hmiss Hrep.
  destruct (locate_ok t n c addr Hwf Ha) as (k & s & _ & _ & Hs & Hk & _).
  destruct (Hrep k s Hk Hs) as [Hcn Hall]. destruct (wf_sets _ _ _ Hwf k s Hs) as ((Hlen & Hp & _) & _).
  destruct (replace_total n cntlr _ (m_policy s) (m_env c) Hp Hn Hlen Hcn Hall) as (i & p' & e' & Hr).
  destruct (insertSingleLine_total t n c addr fill evict want cntlr k s _ Hwf Ha Hev Hk Hs Hr) as (o & c' & E).
  rewrite (peek_line_of t n) in Hmiss by done. inv_ok.
  destruct (insertSingleLine_refines t n c addr fill evict want cntlr o c') as (Hwf' & Hb & Hins); [done..|].
  pose proof Hins as ((new & Hnew & Htag & _) & _). exists o, c', new. split; [done|].
  rewrite (peek_line_of t n), Hb, Hnew by done. done.
Qed.

(** Invalidating an address succeeds, reports whether the block was there,
    makes it miss, and leaves the lookup of every other block as it was. *)
Theorem invalidate_then_miss {P} `{ReplacementLaws P} `{!EnvFrame P} t n (c : Cache P) addr addr' :
  cache_wf t n c -> address addr -> address addr' ->
  exists b c', peekSingleLine addr c = Ok b /\
    invalidateSingleLine addr c = Ok (bool_decide (is_Some b), c') /\
    peekSingleLine addr c' = Ok None /\
    (addr' / cb_blocksize (base c) <> addr / cb_blocksize (base c) ->
     peekSingleLine addr' c' = peekSingleLine addr' c).
Proof.
  intros Hwf Ha Ha'. destruct (invalidateSingleLine_refines t n c addr Hwf Ha) as (c' & E & Hwf' & Hb & Hl).
  exists (line_of c (addr / cb_blocksize (base c))), c'.
  rewrite !(peek_line_of t n) by done. rewrite Hb. split; [done|]. split; [done|].
  rewrite !Hl, decide_True by done. split; [done|]. intros Hne. by rewrite decide_False.
Qed.

(** A load or store inside a line succeeds, returns a line exactly when
    the block is present, and neither allocates nor evicts: the result of
    every lookup is the same before and after. *)
Theorem access_preserves_lines {P} `{ReplacementLaws P} `{!EnvFrame P} t n (c : Cache P)
    addr acc want buff bytes upd addr' :
  cache_wf t n c -> address addr -> address addr' -> 0 <= bytes ->
  addr mod cb_blocksize (base c) + bytes <= cb_blocksize (base c) ->
  exists r c', accessSingleLine addr acc want buff bytes upd c = Ok (r, None, c') /\
    peekSingleLine addr c = Ok (option_map snd r) /\
    peekSingleLine addr' c' = peekSingleLine addr' c.
Proof.
  intros Hwf Ha Ha' Hby Hfit.
  destruct (access_refines t n c addr acc want buff bytes upd Hwf Ha Hby Hfit) as (r & c' & E & Hr & Hwf' & Hb & Hl).
  exists r, c'. rewrite !(peek_line_of t n) by done. rewrite Hr, Hb, Hl. done.
Qed.

(** * A small cache: two sets of two 64-byte lines, LRU *)
Definition small_base : CacheBase := mkBase 256 2 64 HASH_MASK 2 None 6 1.

Definition small_cache : Cache Lru.t :=
  mkCache small_base false 0 0 PR_L1_CACHE
    (replicate 2 (mkSet (replicate 2 (new_block (SubPrL1 false))) None 64 (Lru.create 2 1)))
    (mkEnv (Some (create_set_info 2 1)) 0) None.

Lemma small_base_wf : base_wf small_base.
Proof.
  split; [exists 6; repeat split; lia|]. split; [|done]. split; [cbn; lia|]. by exists 1.
Qed.

Lemma small_cache_wf : cache_wf PR_L1_CACHE 2 small_cache.
Proof.
  apply (empty_cache_wf PR_L1_CACHE 2 small_base); [apply small_base_wf|cbn; lia|done|].
  apply lru_create_wf; lia.
Qed.

Lemma prl1_evict_ok t d : evict_ok t (new_block (SubPrL1 d)).
Proof. intros way _. cbn. eauto. Qed.

Lemma insert_then_hit_witness :
  exists o c' new,
    insertSingleLine 4096 None (new_block (SubPrL1 false)) false None small_cache = Ok (o, c') /\
    peekSingleLine 4096 c' = Ok (Some new) /\ m_tag new = 4096 / 64 /\
    inserted small_cache c' (4096 / 64) o.
Proof.
  apply (insert_then_hit PR_L1_CACHE 2 small_cache 4096).
  - apply small_cache_wf.
  - lia.
  - split; [lia|reflexivity].
  - apply prl1_evict_ok.
  - reflexivity.
  - intros k s _ Hk. apply (lookup_replicate 2) in Hk as [-> _]. split; [intros Hnc; vm_compute in Hnc; discriminate|]. by repeat constructor.
Defined.

Lemma invalidate_then_miss_witness :
  exists b c', peekSingleLine 4096 small_cache = Ok b /\
    invalidateSingleLine 4096 small_cache = Ok (bool_decide (is_Some b), c') /\
    peekSingleLine 4096 c' = Ok None /\
    (64 / 64 <> 4096 / 64 -> peekSingleLine 64 c' = peekSingleLine 64 small_cache).
Proof.
  apply (invalidate_then_miss PR_L1_CACHE 2 small_cache 4096 64);
    [apply small_cache_wf|split; [lia|reflexivity]|split; [lia|reflexivity]].
Defined.

Lemma access_preserves_lines_witness :
  exists r c', accessSingleLine 4096 LOAD false None 8 true small_cache = Ok (r, None, c') /\
    peekSingleLine 4096 small_cache = Ok (option_map snd r) /\
    peekSingleLine 64 c' = peekSingleLine 64 small_cache.
Proof.
  apply (access_preserves_lines PR_L1_CACHE 2 small_cache);
    [apply small_cache_wf|split; [lia|reflexivity]|split; [lia|reflexivity]|lia|vm_compute; discriminate].
Defined.

(** A configuration with two sets of two ways, and the cache after one fill. *)
Definition demo_cfg : Cfg := fun _ => Ok 1.
Definition demo_empty : result (Cache PolicyState) :=
  create_cache demo_cfg 0 1 false "l1_dcache" 2 2 64 "lru" PR_L1_CACHE HASH_MASK None None.
Definition demo_filled : result (Cache PolicyState) :=
  let! c := demo_empty in
  let! (_, c) := insertSingleLine 4096 None (new_block (SubPrL1 false)) false None c in
  Ok c.

Lemma demo_config_ok :
  cache_config_ok demo_cfg 1 "l1_dcache" "lru" 2 2 64 PR_L1_CACHE HASH_MASK.
Proof.
  split; [lia|]. split; [exists 6; split; [lia|reflexivity]|].
  split; [exists LRU; split; [reflexivity|split; [lia|exact I]]|].
  split; [discriminate|]. split; [discriminate|]. split; [reflexivity|discriminate].
Qed.

(** The filled cache and its first line, in normal form. *)
Definition demo_filled_cache : Cache PolicyState :=
  Eval vm_compute in match demo_filled with Ok c => c | Err _ => mkCache small_base false 0 0 PR_L1_CACHE [] (mkEnv None 0) None end.
Definition demo_empty_cache : Cache PolicyState :=
  Eval vm_compute in match demo_empty with Ok c => c | Err _ => mkCache small_base false 0 0 PR_L1_CACHE [] (mkEnv None 0) None end.

Lemma demo_reachable : rtc cache_step demo_empty_cache demo_filled_cache.
Proof.
  eapply rtc_l; [|apply rtc_refl].
  eapply (StepInsert _ _ 4096 None (new_block (SubPrL1 false)) false None);
    [split; [lia|reflexivity]|vm_compute; reflexivity|vm_compute; reflexivity].
Qed.

Lemma reachable_lines_unique_witness :
  (0 = 0 /\ 0 = 0)%nat /\ exists b, m_tag b = 64 /\ peekSingleLine 4096 demo_filled_cache = Ok (Some b).
Proof.
  destruct (reachable_lines_unique demo_cfg 0 1 "l1_dcache" 2 2 64 "lru" PR_L1_CACHE HASH_MASK demo_empty_cache demo_filled_cache) as [Hu Hf];
    [exact demo_config_ok|vm_compute; reflexivity|exact demo_reachable|]. split.
  - eapply (Hu 0%nat 0%nat); [reflexivity..|vm_compute; reflexivity|reflexivity].
  - eexists. split; [|eapply (Hf 4096 0%nat _ 0%nat); [reflexivity|reflexivity|vm_compute; reflexivity|split; [lia|reflexivity]|vm_compute; reflexivity]].
    reflexivity.
Defined.

Lemma reachable_blocks_typed_witness :
  exists s, m_sets demo_filled_cache !! 0%nat = Some s /\ m_cache_type demo_filled_cache = PR_L1_CACHE /\
    length (m_cache_block_info_array s) = 2%nat /\
    exists b0, create PR_L1_CACHE = Ok b0 /\
      forall i b, m_cache_block_info_array s !! i = Some b ->
        same_class b b0 = true /\
        forall i' b', m_cache_block_info_array s !! i' = Some b' -> is_ok (clone b b').
Proof.
  eexists. split; [reflexivity|].
  eapply (reachable_blocks_typed demo_cfg 0 1 "l1_dcache" 2 2 64 "lru" PR_L1_CACHE HASH_MASK
           demo_empty_cache demo_filled_cache 0);
    [exact demo_config_ok|vm_compute; reflexivity|exact demo_reachable|reflexivity].
Defined.
