(* ===== verification/Tlb.v ===== *)
(** dpPred, the dead-page predictor, and the TLBs it lives in: TLB
    (common/core/memory_subsystem/parametric_dram_directory_msi/tlb.h, tlb.cc)
    and the translation path of MemoryManager (memory_manager.cc, accessTLB). *)
From stdpp Require Import base numbers list gmap strings.
From Stdlib Require Import ZArith Lia Bool.
From S2P Require Import Prelude Utils CacheBlock CacheBase Replacement PolicyLru PolicyMisc PolicySrrip PolicyAny CacheSet Cache.
Open Scope Z_scope.

Module PageHash.

(** The loop of [findHash]: exclusive or of [bits]-wide slices of the index. *)
Fixpoint hash_loop (k : nat) (bits remaining hash : Z) : Z :=
  match k with
  | O => hash
  | S k' => hash_loop k' bits (Z.shiftr remaining bits) (Z.lxor hash (remaining mod 2 ^ bits))
  end.

(** [IntPtr findHash(IntPtr index, uint64_t bits)], in TLB and in CacheCntlr.
    [1 << bits] is an [int]. *)
Definition findHash (index_size index bits : Z) : result Z :=
  guard! negb (bits =? 0) && (bits <? 31) else Undefined in
  let max_iter := s32 (index_size / bits) in
  Ok (hash_loop (Z.to_nat max_iter) bits index 0).

End PageHash.

Module Tlb.

Definition SIM_PAGE_SHIFT : Z := 12.
Definition SIM_PAGE_SIZE : Z := Z.shiftl 1 SIM_PAGE_SHIFT.

(** The members the configuration and the class definition fix. *)
Record Settings := mkSettings {
  dppred : bool;
  llt_size : Z;
  phist_thd : Z;
  pfq_size : Z;
  shadow_table_size : Z;
  pc_bits : Z;
  vpn_bits : Z;
  index_size : Z;
  hw_page_bitmask : Z;
  sw_page_bitshift : Z
}.

(** The default member initialisers of tlb.h. *)
Definition default_settings : Settings :=
  mkSettings true 1024 6 8 2 6 4 32 0xfffffffffffff000 17.

(** [m_last_level] and [m_conf_counter] are stored and never read. *)
Record TLB := mk {
  settings : Settings;
  m_size : Z;
  m_cache : Cache Lru.t;
  m_access : Z;
  m_miss : Z;
  m_alloc : Z;
  m_bypass : Z;
  phist : gmap Z (gmap Z Z);
  llt_hits : gmap Z Z;
  pc_hist : gmap Z Z;
  shadow_table : list Z;
  last_pc : Z
}.

(** State outside one TLB: the static queue [TLB::pfq] and the time the memory
    manager accumulates through [incrElapsedTime]. *)
Record Shared := mkShared {
  pfq : list Z;
  elapsed : Z
}.

(** The cache the constructor builds: the policy "lru" is CacheSetLRU with one
    attempt, and the lines are PrL1 blocks the size of a page. *)
Definition create_tlb_cache (num_entries associativity : Z) : result (Cache Lru.t) :=
  guard! negb (associativity =? 0) else Undefined in
  let num_sets := num_entries / associativity in
  let n := Z.to_nat associativity in
  let! b := create_base num_sets n SIM_PAGE_SIZE HASH_MASK None in
  let! blk := create PR_L1_CACHE in
  Ok (mkCache b false 0 0 PR_L1_CACHE
        (replicate (Z.to_nat num_sets) (mkSet (replicate n blk) None SIM_PAGE_SIZE (Lru.create n 1)))
        (mkEnv (Some (create_set_info n 1)) 0) None).

(** The constructor.  [last_pc] has no initialiser: [uninit] is whatever the
    allocation left there. *)
Definition create_tlb (st : Settings) (uninit num_entries associativity : Z) : result TLB :=
  let! c := create_tlb_cache num_entries associativity in
  guard! (u32 (num_entries / associativity * associativity) =? num_entries) else LogError in
  Ok (mk st num_entries c 0 0 0 0 ∅ ∅ ∅ [] uninit).

(** Field updates. *)
Definition set_cache (c : Cache Lru.t) (t : TLB) : TLB :=
  mk (settings t) (m_size t) c (m_access t) (m_miss t) (m_alloc t) (m_bypass t)
    (phist t) (llt_hits t) (pc_hist t) (shadow_table t) (last_pc t).
Definition set_counts (access miss alloc bypass : Z) (t : TLB) : TLB :=
  mk (settings t) (m_size t) (m_cache t) access miss alloc bypass
    (phist t) (llt_hits t) (pc_hist t) (shadow_table t) (last_pc t).
Definition set_phist (m : gmap Z (gmap Z Z)) (t : TLB) : TLB :=
  mk (settings t) (m_size t) (m_cache t) (m_access t) (m_miss t) (m_alloc t) (m_bypass t)
    m (llt_hits t) (pc_hist t) (shadow_table t) (last_pc t).
Definition set_llt_hits (m : gmap Z Z) (t : TLB) : TLB :=
  mk (settings t) (m_size t) (m_cache t) (m_access t) (m_miss t) (m_alloc t) (m_bypass t)
    (phist t) m (pc_hist t) (shadow_table t) (last_pc t).
Definition set_pc_hist (m : gmap Z Z) (t : TLB) : TLB :=
  mk (settings t) (m_size t) (m_cache t) (m_access t) (m_miss t) (m_alloc t) (m_bypass t)
    (phist t) (llt_hits t) m (shadow_table t) (last_pc t).
Definition set_shadow (l : list Z) (t : TLB) : TLB :=
  mk (settings t) (m_size t) (m_cache t) (m_access t) (m_miss t) (m_alloc t) (m_bypass t)
    (phist t) (llt_hits t) (pc_hist t) l (last_pc t).
Definition set_last_pc (pc : Z) (t : TLB) : TLB :=
  mk (settings t) (m_size t) (m_cache t) (m_access t) (m_miss t) (m_alloc t) (m_bypass t)
    (phist t) (llt_hits t) (pc_hist t) (shadow_table t) pc.

(** [++] on one counter. *)
Definition incr_access (t : TLB) := set_counts (u64 (m_access t + 1)) (m_miss t) (m_alloc t) (m_bypass t) t.
Definition incr_miss (t : TLB) := set_counts (m_access t) (u64 (m_miss t + 1)) (m_alloc t) (m_bypass t) t.
Definition incr_alloc (t : TLB) := set_counts (m_access t) (m_miss t) (u64 (m_alloc t + 1)) (m_bypass t) t.
Definition incr_bypass (t : TLB) := set_counts (m_access t) (m_miss t) (m_alloc t) (u64 (m_bypass t + 1)) t.

(** [phist[v][p]]: a missing entry reads as 0. *)
Definition phist_get (t : TLB) (v p : Z) : Z := default 0 (default ∅ (phist t !! v) !! p).
Definition phist_set (v p x : Z) (t : TLB) : TLB :=
  set_phist (<[v := <[p := x]> (default ∅ (phist t !! v))]> (phist t)) t.

Definition get_size (t : TLB) : Z := m_size t.
Definition in_llt (t : TLB) : bool := get_size t =? llt_size (settings t).
Definition vpn_of (t : TLB) (address : Z) : Z := Z.land address (hw_page_bitmask (settings t)).

(** [void setDeadBit(IntPtr address)] *)
Definition setDeadBit (address : Z) (t : TLB) : result TLB :=
  let! c := setPrDeadBit address (m_cache t) in
  Ok (set_cache c t).

Definition findHash (t : TLB) (index bits : Z) : result Z :=
  PageHash.findHash (index_size (settings t)) index bits.

(** [pop_front()] of a deque. *)
Definition pop_front (l : list Z) : result (list Z) :=
  match l with
  | [] => Err Undefined
  | _ :: l => Ok l
  end.

(** [void add_recent_pfn(IntPtr address)] *)
Definition add_recent_pfn (st : Settings) (address : Z) (g : Shared) : result Shared :=
  let address := Z.shiftr address (sw_page_bitshift st) in
  if Z.of_nat (length (pfq g)) <? pfq_size st then Ok (mkShared (pfq g ++ [address]) (elapsed g))
  else
    let! q := pop_front (pfq g) in
    Ok (mkShared (q ++ [address]) (elapsed g)).

(** [bool shadow_table_search(IntPtr vpn)] *)
Definition shadow_table_search (vpn : Z) (t : TLB) : bool :=
  existsb (fun v => v =? vpn) (shadow_table t).

(** [void shadow_table_insert(IntPtr vpn)] *)
Definition shadow_table_insert (vpn : Z) (t : TLB) : result TLB :=
  let! l := (if Z.of_nat (length (shadow_table t)) =? shadow_table_size (settings t)
             then pop_front (shadow_table t) else Ok (shadow_table t)) in
  Ok (set_shadow (l ++ [vpn]) t).

(** [for (pc_hash = 0; pc_hash < max_hash; pc_hash++) phist[vpn][pc_hash] = 0] *)
Fixpoint flush_loop (k : nat) (pc_hash vpn : Z) (t : TLB) : TLB :=
  match k with
  | O => t
  | S k' => flush_loop k' (pc_hash + 1) vpn (phist_set vpn pc_hash 0 t)
  end.

(** [void flushing_vpn_column(IntPtr temp_hash_vpn)] *)
Definition flushing_vpn_column (temp_hash_vpn : Z) (t : TLB) : result TLB :=
  guard! pc_bits (settings t) <? 64 else Undefined in
  Ok (flush_loop (Z.to_nat (u64 (Z.shiftl 1 (pc_bits (settings t))))) 0 temp_hash_vpn t).

(** [void updating_phist(IntPtr evict_addr)] *)
Definition updating_phist (evict_addr : Z) (t : TLB) : result TLB :=
  let evict_vpn := vpn_of t evict_addr in
  let evict_pc := default 0 (pc_hist t !! evict_vpn) in
  let! ev_vpn_hash := findHash t evict_vpn (vpn_bits (settings t)) in
  let! ev_pc_hash := findHash t evict_pc (pc_bits (settings t)) in
  if default 0 (llt_hits t !! evict_vpn) =? 0
  then Ok (phist_set ev_vpn_hash ev_pc_hash (u64 (phist_get t ev_vpn_hash ev_pc_hash + 1)) t)
  else Ok (phist_set ev_vpn_hash ev_pc_hash 0 t).

(** The prediction of [allocate] in the last-level TLB: [Ok (true, ...)] when
    the page is bypassed. *)
Definition predict (address : Z) (t : TLB) (g : Shared) : result (bool * TLB * Shared) :=
  if dppred (settings t) then
    let temp_vpn := vpn_of t address in
    let! temp_hash_vpn := findHash t temp_vpn (vpn_bits (settings t)) in
    let! temp_hash_pc := findHash t (last_pc t) (pc_bits (settings t)) in
    if in_llt t then
      let t := set_pc_hist (<[temp_vpn := last_pc t]> (pc_hist t)) t in
      let! t := (if shadow_table_search temp_vpn t then flushing_vpn_column temp_hash_vpn t else Ok t) in
      let sat_thd := phist_get t temp_hash_vpn temp_hash_pc >? phist_thd (settings t) in
      if sat_thd then
        let t := incr_bypass t in
        let! t := shadow_table_insert temp_vpn t in
        let! g := add_recent_pfn (settings t) temp_vpn g in
        Ok (true, t, g)
      else Ok (false, set_llt_hits (<[temp_vpn := 0]> (llt_hits t)) t, g)
    else Ok (false, t, g)
  else Ok (false, t, g).

(** [void allocate(IntPtr address, SubsecondTime now)] *)
Definition allocate (address : Z) (t : TLB) (g : Shared) : result (TLB * Shared) :=
  let! (bypass, t, g) := predict address t g in
  if bypass : bool then Ok (t, g)
  else
    let t := incr_alloc t in
    let! (o, c) := insertSingleLine address None (new_block SubBase) false None (m_cache t) in
    let t := set_cache c t in
    if dppred (settings t) && lo_eviction o && in_llt t then
      let! t := updating_phist (lo_evict_addr o) t in Ok (t, g)
    else Ok (t, g).

(** L1 TLB cycles, in femtoseconds. *)
Definition L1_TLB_TIME : Z := 3007512.

(** [bool lookup(...)] on a TLB and the levels behind it ([m_next_level] of
    each is the next element). *)
Fixpoint lookup (address : Z) (isIfetch allocate_on_miss : bool) (chain : list TLB) (g : Shared)
  : result (bool * list TLB * Shared) :=
  match chain with
  | [] => Err Undefined
  | t :: rest =>
      let temp := vpn_of t address in
      let! (line, _, c) := accessSingleLine address LOAD false None 0 true (m_cache t) in
      let t := incr_access (set_cache c t) in
      let t := if isIfetch then set_last_pc address t else t in
      match line with
      | Some _ =>
          let t := if in_llt t
                   then set_llt_hits (<[temp := u64 (default 0 (llt_hits t !! temp) + 1)]> (llt_hits t)) t
                   else t in
          Ok (true, t :: rest, g)
      | None =>
          let t := incr_miss t in
          let! (hit, rest, g) :=
            match rest with
            | [] => Ok (false, [], g)
            | _ => lookup address false true rest (mkShared (pfq g) (elapsed g + L1_TLB_TIME))
            end in
          if allocate_on_miss then
            let! (t, g) := allocate address t g in
            Ok (hit, t :: rest, g)
          else Ok (hit, t :: rest, g)
      end
  end.

End Tlb.

(** * Lemmas on the hash *)
Lemma hash_loop_range k bits remaining hash :
  0 <= bits -> 0 <= remaining -> 0 <= hash < 2 ^ bits ->
  0 <= PageHash.hash_loop k bits remaining hash < 2 ^ bits.
Proof.
  intros Hb. revert remaining hash. induction k as [|k IH]; intros r h Hr Hh; [done|].
  cbn [PageHash.hash_loop]. apply IH; [by apply Z.shiftr_nonneg|].
  apply lxor_below_pow2; [done| |done]. apply Z.mod_pos_bound. lia.
Qed.

Lemma findHash_ok isz index bits :
  0 < bits < 31 -> 0 <= index ->
  exists h, PageHash.findHash isz index bits = Ok h /\ 0 <= h < 2 ^ bits.
Proof.
  intros Hb Hi. unfold PageHash.findHash.
  rewrite (proj2 (Z.eqb_neq bits 0)), (proj2 (Z.ltb_lt bits 31)) by lia. cbn [negb andb rguard rbind].
  eexists. split; [done|]. apply hash_loop_range; lia.
Qed.

(** * Lemmas on the maps *)
Lemma phist_get_set v p x t v' p' :
  Tlb.phist_get (Tlb.phist_set v p x t) v' p' =
  if decide (v = v' /\ p = p') then x else Tlb.phist_get t v' p'.
Proof.
  unfold Tlb.phist_get, Tlb.phist_set. cbn [Tlb.phist Tlb.set_phist].
  destruct (decide (v = v')) as [<-|Hv].
  - rewrite lookup_insert_eq. cbn [from_option id]. destruct (decide (p = p')) as [<-|Hp].
    + by rewrite lookup_insert_eq, decide_True.
    + by rewrite lookup_insert_ne, decide_False by naive_solver.
  - by rewrite lookup_insert_ne, decide_False by naive_solver.
Qed.

Lemma flush_loop_get k pc0 v t v' p' :
  Tlb.phist_get (Tlb.flush_loop k pc0 v t) v' p' =
  if decide (v = v' /\ pc0 <= p' < pc0 + Z.of_nat k) then 0 else Tlb.phist_get t v' p'.
Proof.
  revert pc0 t. induction k as [|k IH]; intros pc0 t; cbn [Tlb.flush_loop].
  - rewrite decide_False by lia. done.
  - rewrite IH, phist_get_set. repeat case_decide; try done; lia.
Qed.

(** What flushing leaves alone. *)
Lemma flush_loop_fields k pc0 v t :
  let t' := Tlb.flush_loop k pc0 v t in
  Tlb.settings t' = Tlb.settings t /\ Tlb.m_size t' = Tlb.m_size t /\ Tlb.m_cache t' = Tlb.m_cache t /\
  Tlb.m_access t' = Tlb.m_access t /\ Tlb.m_miss t' = Tlb.m_miss t /\ Tlb.m_alloc t' = Tlb.m_alloc t /\
  Tlb.m_bypass t' = Tlb.m_bypass t /\ Tlb.llt_hits t' = Tlb.llt_hits t /\ Tlb.pc_hist t' = Tlb.pc_hist t /\
  Tlb.shadow_table t' = Tlb.shadow_table t /\ Tlb.last_pc t' = Tlb.last_pc t.
Proof.
  revert pc0 t. induction k as [|k IH]; intros pc0 t; cbn [Tlb.flush_loop]; [done|].
  specialize (IH (pc0 + 1) (Tlb.phist_set v pc0 0 t)). cbv zeta in IH |- *.
  destruct IH as (-> & -> & -> & -> & -> & -> & -> & -> & -> & -> & ->). done.
Qed.

(** * Invariant *)
Record settings_ok (st : Tlb.Settings) : Prop := mkSettingsOk {
  so_pc : 0 < Tlb.pc_bits st < 31;
  so_vpn : 0 < Tlb.vpn_bits st < 31;
  so_thd : 0 <= Tlb.phist_thd st;
  so_pfq : 0 < Tlb.pfq_size st;
  so_shadow : 0 < Tlb.shadow_table_size st;
  so_mask : Tlb.hw_page_bitmask st = 0xfffffffffffff000;
  so_shift : Tlb.sw_page_bitshift st = 17
}.

(** The statistics object of a policy without query-based selection. *)
Definition single_attempt (e : RepEnv) : Prop :=
  exists a l, shape_of e = Some (a, l, None).

Record tlb_wf (n : nat) (t : Tlb.TLB) : Prop := mkTlbWf {
  tw_settings : settings_ok (Tlb.settings t);
  tw_cache : cache_wf PR_L1_CACHE n (Tlb.m_cache t);
  tw_page : cb_blocksize (base (Tlb.m_cache t)) = 4096;
  tw_env : single_attempt (m_env (Tlb.m_cache t));
  tw_ways : (0 < n)%nat;
  tw_shadow : Z.of_nat (length (Tlb.shadow_table t)) <= Tlb.shadow_table_size (Tlb.settings t);
  tw_pc : 0 <= Tlb.last_pc t;
  tw_pcs : map_Forall (fun _ pc => 0 <= pc) (Tlb.pc_hist t)
}.

Definition pfq_wf (q : Z) (g : Tlb.Shared) : Prop := Z.of_nat (length (Tlb.pfq g)) <= q.

(** Members no operation on the predictor changes. *)
Definition same_config (t t' : Tlb.TLB) : Prop :=
  Tlb.settings t' = Tlb.settings t /\ Tlb.m_size t' = Tlb.m_size t /\ Tlb.last_pc t' = Tlb.last_pc t.

(** ** The counter the predictor consults *)
Definition dead_count (t : Tlb.TLB) (address : Z) : Z :=
  match Tlb.findHash t (Tlb.vpn_of t address) (Tlb.vpn_bits (Tlb.settings t)),
        Tlb.findHash t (Tlb.last_pc t) (Tlb.pc_bits (Tlb.settings t)) with
  | Ok v, Ok p => Tlb.phist_get t v p
  | _, _ => 0
  end.

(** Predicted dead: the last-level TLB, not in the shadow table, and a
    saturated counter. *)
Definition predicted_dead (t : Tlb.TLB) (address : Z) : bool :=
  Tlb.dppred (Tlb.settings t) && Tlb.in_llt t &&
  negb (Tlb.shadow_table_search (Tlb.vpn_of t address) t) &&
  (dead_count t address >? Tlb.phist_thd (Tlb.settings t)).

(** The page mask clears the low 12 bits. *)
Lemma land_page_mask a : address a -> Z.land a 0xfffffffffffff000 = a - a mod 4096.
Proof. intros Ha. by apply (land_high_mask a 12). Qed.

Lemma vpn_of_value n t a : tlb_wf n t -> address a -> Tlb.vpn_of t a = a - a mod 4096.
Proof.
  intros Hwf Ha. unfold Tlb.vpn_of. rewrite (so_mask _ (tw_settings _ _ Hwf)). by apply land_page_mask.
Qed.

Lemma vpn_of_nonneg n t a : tlb_wf n t -> 0 <= a -> 0 <= Tlb.vpn_of t a.
Proof. intros _ Ha. apply Z.land_nonneg. by left. Qed.

(** ** The queue and the shadow table *)
Lemma add_recent_pfn_spec st v g :
  settings_ok st -> pfq_wf (Tlb.pfq_size st) g ->
  exists g', Tlb.add_recent_pfn st v g = Ok g' /\ pfq_wf (Tlb.pfq_size st) g' /\
    Z.shiftr v 17 ∈ Tlb.pfq g' /\ Tlb.elapsed g' = Tlb.elapsed g.
Proof.
  intros Hst Hg. unfold Tlb.add_recent_pfn, pfq_wf in *. rewrite (so_shift _ Hst).
  pose proof (so_pfq _ Hst).
  destruct (Z.ltb_spec (Z.of_nat (length (Tlb.pfq g))) (Tlb.pfq_size st)).
  - eexists. split; [done|]. cbn [Tlb.pfq Tlb.elapsed]. rewrite length_app. cbn. split; [lia|].
    split; [|done]. apply elem_of_app. right. by left.
  - destruct (Tlb.pfq g) as [|x q] eqn:Hq; [cbn in *; lia|]. cbn [Tlb.pop_front rbind].
    eexists. split; [done|]. cbn [Tlb.pfq Tlb.elapsed]. rewrite length_app. cbn in *. split; [lia|].
    split; [|done]. apply elem_of_app. right. by left.
Qed.

Lemma shadow_table_insert_spec v t :
  0 < Tlb.shadow_table_size (Tlb.settings t) ->
  Z.of_nat (length (Tlb.shadow_table t)) <= Tlb.shadow_table_size (Tlb.settings t) ->
  exists l, Tlb.shadow_table_insert v t = Ok (Tlb.set_shadow l t) /\ v ∈ l /\
    Z.of_nat (length l) <= Tlb.shadow_table_size (Tlb.settings t).
Proof.
  intros Hs Hl. unfold Tlb.shadow_table_insert.
  destruct (Z.eqb_spec (Z.of_nat (length (Tlb.shadow_table t))) (Tlb.shadow_table_size (Tlb.settings t))).
  - destruct (Tlb.shadow_table t) as [|x q] eqn:Hq; [cbn in *; lia|]. cbn [Tlb.pop_front rbind].
    eexists. split; [done|]. split; [apply elem_of_app; right; by left|]. rewrite length_app. cbn in *. lia.
  - cbn [rbind]. eexists. split; [done|]. split; [apply elem_of_app; right; by left|].
    rewrite length_app. cbn in *. lia.
Qed.

Lemma shadow_search_elem v t : Tlb.shadow_table_search v t = true <-> v ∈ Tlb.shadow_table t.
Proof.
  unfold Tlb.shadow_table_search. rewrite existsb_exists. split.
  - intros (x & Hx & E). apply Z.eqb_eq in E as ->. by apply list_elem_of_In.
  - intros Hv. exists v. split; [by apply list_elem_of_In|apply Z.eqb_refl].
Qed.

(** ** The prediction *)
Lemma flush_spec n t a v p :
  tlb_wf n t ->
  Tlb.findHash t (Tlb.vpn_of t a) (Tlb.vpn_bits (Tlb.settings t)) = Ok v ->
  0 <= p < 2 ^ Tlb.pc_bits (Tlb.settings t) ->
  exists t', Tlb.flushing_vpn_column v t = Ok t' /\ Tlb.phist_get t' v p = 0 /\
    t' = Tlb.set_phist (Tlb.phist t') t.
Proof.
  intros Hwf Hv Hp. pose proof (so_pc _ (tw_settings _ _ Hwf)) as Hpc. unfold Tlb.flushing_vpn_column.
  rewrite (proj2 (Z.ltb_lt _ 64)) by lia. cbn [rguard rbind]. eexists. split; [done|].
  rewrite Z.shiftl_1_l.
  assert (2 ^ Tlb.pc_bits (Tlb.settings t) < 2 ^ 64) by (apply Z.pow_lt_mono_r; lia).
  rewrite u64_small by lia. split.
  - rewrite flush_loop_get, decide_True; [done|]. split; [done|]. lia.
  - pose proof (flush_loop_fields (Z.to_nat (2 ^ Tlb.pc_bits (Tlb.settings t))) 0 v t) as Hf. cbv zeta in Hf.
    destruct (Tlb.flush_loop _ _ _ _) as [? ? ? ? ? ? ? ? ? ? ? ?]. cbn in *.
    destruct Hf as (-> & -> & -> & -> & -> & -> & -> & -> & -> & -> & ->). done.
Qed.

(** [predict] returns, keeps the cache and the configuration, and says "bypass"
    exactly for the pages [predicted_dead]. *)
Lemma predict_spec n t g a :
  tlb_wf n t -> pfq_wf (Tlb.pfq_size (Tlb.settings t)) g -> address a ->
  exists t' g', Tlb.predict a t g = Ok (predicted_dead t a, t', g') /\
    tlb_wf n t' /\ pfq_wf (Tlb.pfq_size (Tlb.settings t)) g' /\ same_config t t' /\
    Tlb.m_cache t' = Tlb.m_cache t /\ Tlb.m_access t' = Tlb.m_access t /\
    Tlb.m_miss t' = Tlb.m_miss t /\ Tlb.m_alloc t' = Tlb.m_alloc t /\
    Tlb.elapsed g' = Tlb.elapsed g /\
    if predicted_dead t a then
      Tlb.m_bypass t' = u64 (Tlb.m_bypass t + 1) /\
      Tlb.vpn_of t a ∈ Tlb.shadow_table t' /\ Z.shiftr (Tlb.vpn_of t a) 17 ∈ Tlb.pfq g'
    else Tlb.m_bypass t' = Tlb.m_bypass t /\ g' = g.
Proof.
  intros Hwf Hg Ha. unfold Tlb.predict, predicted_dead, dead_count.
  pose proof (tw_settings _ _ Hwf) as Hst.
  destruct (Tlb.dppred (Tlb.settings t)); cbn [andb]; [|by exists t, g].
  destruct (findHash_ok (Tlb.index_size (Tlb.settings t)) (Tlb.vpn_of t a) (Tlb.vpn_bits (Tlb.settings t)))
    as (v & Hv & _); [apply Hst|eapply vpn_of_nonneg; [done|apply Ha]|].
  destruct (findHash_ok (Tlb.index_size (Tlb.settings t)) (Tlb.last_pc t) (Tlb.pc_bits (Tlb.settings t)))
    as (p & Hp & Hpr); [apply Hst|apply Hwf|].
  change (Tlb.findHash t (Tlb.vpn_of t a) (Tlb.vpn_bits (Tlb.settings t)) = Ok v) in Hv.
  change (Tlb.findHash t (Tlb.last_pc t) (Tlb.pc_bits (Tlb.settings t)) = Ok p) in Hp.
  rewrite Hv, Hp. cbn [rbind]. destruct (Tlb.in_llt t); cbn [andb]; [|by exists t, g].
  set (t1 := Tlb.set_pc_hist _ t).
  assert (Hwf1 : tlb_wf n t1).
  { destruct Hwf. split; try done. apply map_Forall_insert_2; done. }
  change (Tlb.shadow_table_search (Tlb.vpn_of t a) t1) with (Tlb.shadow_table_search (Tlb.vpn_of t a) t).
  destruct (Tlb.shadow_table_search (Tlb.vpn_of t a) t) eqn:Hsh; cbn [negb andb].
  - destruct (flush_spec n t1 a v p Hwf1 Hv Hpr) as (t2 & -> & Hget & Hset). cbn [rbind].
    rewrite Hget, Hset. cbn [Tlb.settings Tlb.set_phist t1 Tlb.set_pc_hist].
    destruct (Z.gtb_spec 0 (Tlb.phist_thd (Tlb.settings t))) as [Hlt|_];
      [pose proof (so_thd _ Hst); lia|].
    eexists _, g. split; [done|]. split; [|done]. destruct Hwf1. split; done.
  - cbn [rbind]. change (Tlb.phist_get t1 v p) with (Tlb.phist_get t v p).
    change (Tlb.settings t1) with (Tlb.settings t).
    destruct (Tlb.phist_get t v p >? Tlb.phist_thd (Tlb.settings t)).
    + destruct (shadow_table_insert_spec (Tlb.vpn_of t a) (Tlb.incr_bypass t1))
        as (l & -> & Hin & Hlen); [apply Hst|apply Hwf|]. cbn [rbind].
      change (Tlb.settings (Tlb.set_shadow l (Tlb.incr_bypass t1))) with (Tlb.settings t).
      destruct (add_recent_pfn_spec (Tlb.settings t) (Tlb.vpn_of t a) g Hst Hg) as (g' & -> & Hg' & Hq & He).
      cbn [rbind]. eexists _, g'. split; [done|]. split; [|done]. destruct Hwf1. split; done.
    + eexists _, g. split; [done|]. split; [|done]. destruct Hwf1. split; done.
Qed.

(** ** Allocation *)
Lemma single_attempt_lru n (c : Cache Lru.t) k s :
  cache_wf PR_L1_CACHE n c -> single_attempt (m_env c) -> m_sets c !! k = Some s ->
  (1 <? Lru.m_num_attempts (m_policy s)) = true -> is_Some (None : option CacheCntlr).
Proof.
  intros Hwf (a & l & Hsh) Hs Hna. exfalso.
  destruct (wf_sets _ _ _ Hwf k s Hs) as ((_ & (_ & _ & (si & Hsi & _ & _ & Hatt)) & _) & _).
  unfold shape_of in Hsh. rewrite Hsi in Hsh. cbn in Hsh. injection Hsh as _ _ Hm.
  destruct (m_attempts si); [discriminate|]. apply Z.ltb_lt in Hna. lia.
Qed.

Lemma base_evict_ok t : evict_ok t (new_block SubBase).
Proof. intros way _. cbn. eauto. Qed.

(** The shape of the shared statistics survives an insertion or an access. *)
Lemma insert_env {P} `{ReplacementLaws P} `{!EnvFrame P} (c : Cache P) a fill ev want cntlr o c' :
  m_fault_injector c = None ->
  insertSingleLine a fill ev want cntlr c = Ok (o, c') -> env_shape (m_env c) (m_env c').
Proof.
  intros Hfi Hi. unfold insertSingleLine in Hi. rewrite Hfi in Hi. inv_ok. cbn [m_env with_set].
  match goal with Hx : insert _ _ _ _ _ _ _ = _ |- _ => unfold insert in Hx; inv_ok end.
  by eapply replace_shape.
Qed.

Lemma access_env {P} `{ReplacementLaws P} `{!EnvFrame P} (c : Cache P) a acc want buff by_ upd r out c' :
  m_fault_injector c = None ->
  accessSingleLine a acc want buff by_ upd c = Ok (r, out, c') -> env_shape (m_env c) (m_env c').
Proof.
  intros Hfi Hi. unfold accessSingleLine in Hi. rewrite Hfi in Hi. inv_ok.
  assert (Ht : forall (s s' : CacheSet P) e e' u i, touch_line u i s e = Ok (s', e') -> env_shape e e').
  { intros s s' e e' u i Hu. unfold touch_line in Hu. destruct u; inv_ok; [by eapply update_shape|done]. }
  destruct (find _ _) as [[i b']|]; inv_ok; [|by simplify_eq].
  destruct acc; inv_ok; simplify_eq; cbn [m_env with_set].
  - match goal with Hx : read_line _ _ _ _ _ _ _ = _ |- _ => unfold read_line in Hx; inv_ok end. by eapply Ht.
  - match goal with Hx : write_line _ _ _ _ _ _ _ = _ |- _ => unfold write_line in Hx; inv_ok end. by eapply Ht.
Qed.

Lemma tlb_insert n t a :
  tlb_wf n t -> address a -> line_of (Tlb.m_cache t) (a / 4096) = None ->
  exists o c', insertSingleLine a None (new_block SubBase) false None (Tlb.m_cache t) = Ok (o, c') /\
    tlb_wf n (Tlb.set_cache c' t) /\ inserted (Tlb.m_cache t) c' (a / 4096) o /\
    (lo_eviction o = true -> 0 <= lo_evict_addr o).
Proof.
  intros Hwf Ha Hmiss. pose proof (tw_cache _ _ Hwf) as Hc.
  destruct (locate_ok _ _ _ _ Hc Ha) as (k & s & _ & _ & Hs & Hk & _).
  destruct (wf_sets _ _ _ Hc k s Hs) as ((Hlen & Hp & _) & _).
  destruct (lru_replace_total n None (m_cache_block_info_array s) (m_policy s) (m_env (Tlb.m_cache t)))
    as (i & p' & e' & Hr); [done|apply Hwf|done|by eapply single_attempt_lru; [..|apply Hwf|]|].
  destruct (insertSingleLine_total PR_L1_CACHE n _ a None (new_block SubBase) false None k s _ Hc Ha
              (base_evict_ok _) Hk Hs Hr) as (o & c' & E).
  pose proof (tw_page _ _ Hwf) as Hpage.
  destruct (insertSingleLine_refines PR_L1_CACHE n (Tlb.m_cache t) a None (new_block SubBase) false None o c')
    as (Hwf' & Hb & Hins); [done..|by rewrite Hpage|done|]. rewrite Hpage in Hins.
  exists o, c'. split; [done|]. split; [|split; [done|]].
  - pose proof (insert_env _ _ _ _ _ _ _ _ (wf_fi _ _ _ Hc) E) as Hsh.
    destruct Hwf as [? ? ? Henv ? ? ? ?]. split; cbn; try done.
    + by rewrite Hb.
    + destruct Henv as (x & y & Hxy). exists x, y. by rewrite <- Hsh.
  - intros He. destruct Hins as (_ & Hev & _). rewrite He in Hev.
    destruct Hev as (old & _ & _ & _ & _ & ->). apply u64_range.
Qed.

(** What learning from an eviction leaves alone. *)
Lemma updating_phist_spec n t ev :
  tlb_wf n t -> 0 <= ev ->
  exists m, Tlb.updating_phist ev t = Ok (Tlb.set_phist m t) /\ tlb_wf n (Tlb.set_phist m t).
Proof.
  intros Hwf Hev. pose proof (tw_settings _ _ Hwf) as Hst. unfold Tlb.updating_phist.
  destruct (findHash_ok (Tlb.index_size (Tlb.settings t)) (Tlb.vpn_of t ev) (Tlb.vpn_bits (Tlb.settings t)))
    as (v & Hv & _); [apply Hst|by eapply vpn_of_nonneg|].
  destruct (findHash_ok (Tlb.index_size (Tlb.settings t)) (default 0 (Tlb.pc_hist t !! Tlb.vpn_of t ev))
              (Tlb.pc_bits (Tlb.settings t))) as (p & Hp & _); [apply Hst| |].
  { destruct (Tlb.pc_hist t !! Tlb.vpn_of t ev) as [x|] eqn:Hx; cbn; [|done].
    by apply (tw_pcs _ _ Hwf _ _ Hx). }
  unfold Tlb.findHash. rewrite Hv, Hp. cbn [rbind].
  destruct (_ =? 0); eexists; (split; [reflexivity|]); destruct Hwf; split; done.
Qed.

Definition allocated (t t' : Tlb.TLB) (g g' : Tlb.Shared) (a : Z) : Prop :=
  if predicted_dead t a then
    Tlb.m_cache t' = Tlb.m_cache t /\ Tlb.m_alloc t' = Tlb.m_alloc t /\
    Tlb.m_bypass t' = u64 (Tlb.m_bypass t + 1) /\
    Tlb.vpn_of t a ∈ Tlb.shadow_table t' /\ Z.shiftr (Tlb.vpn_of t a) 17 ∈ Tlb.pfq g'
  else
    is_Some (line_of (Tlb.m_cache t') (a / 4096)) /\ Tlb.m_alloc t' = u64 (Tlb.m_alloc t + 1) /\
    Tlb.m_bypass t' = Tlb.m_bypass t /\ g' = g.

Lemma allocate_spec n t g a :
  tlb_wf n t -> pfq_wf (Tlb.pfq_size (Tlb.settings t)) g -> address a ->
  line_of (Tlb.m_cache t) (a / 4096) = None ->
  exists t' g', Tlb.allocate a t g = Ok (t', g') /\
    tlb_wf n t' /\ pfq_wf (Tlb.pfq_size (Tlb.settings t)) g' /\ same_config t t' /\
    Tlb.m_access t' = Tlb.m_access t /\ Tlb.m_miss t' = Tlb.m_miss t /\
    Tlb.elapsed g' = Tlb.elapsed g /\ allocated t t' g g' a.
Proof.
  intros Hwf Hg Ha Hmiss. unfold Tlb.allocate, allocated.
  destruct (predict_spec n t g a Hwf Hg Ha)
    as (t1 & g1 & -> & Hwf1 & Hg1 & (Hs1 & Hz1 & Hl1) & Hc1 & Hacc & Hms & Hal & Hel & Hbp). cbn [rbind].
  destruct (predicted_dead t a).
  - exists t1, g1. split; [done|]. repeat (split; [done|]). done.
  - destruct Hbp as [Hby ->]. set (t2 := Tlb.incr_alloc t1).
    assert (Hwf2 : tlb_wf n t2) by (destruct Hwf1; split; done).
    destruct (tlb_insert n t2 a Hwf2 Ha) as (o & c' & E & Hwf3 & Hins & Hev); [cbn; by rewrite Hc1|].
    rewrite E. cbn [rbind].
    assert (Hline : is_Some (line_of c' (a / 4096))) by (destruct Hins as ((new & -> & _) & _); by exists new).
    assert (Hg1' : pfq_wf (Tlb.pfq_size (Tlb.settings t)) g) by done.
    destruct (Tlb.dppred _ && lo_eviction o && _) eqn:Hl.
    + apply andb_prop in Hl as [Hl _]. apply andb_prop in Hl as [_ Hl].
      destruct (updating_phist_spec n _ (lo_evict_addr o) Hwf3 (Hev Hl)) as (m & -> & Hwf4). cbn [rbind].
      eexists _, g. split; [done|]. split; [done|]. split; [done|]. cbn. rewrite Hal. done.
    + eexists _, g. split; [done|]. split; [done|]. split; [done|]. cbn. rewrite Hal. done.
Qed.

(** ** Lookup through the levels *)
Definition tlb_ok (q : Z) (t : Tlb.TLB) : Prop :=
  (exists n, tlb_wf n t) /\ Tlb.pfq_size (Tlb.settings t) = q.

Lemma tlb_access n t a :
  tlb_wf n t -> address a ->
  exists r c', accessSingleLine a LOAD false None 0 true (Tlb.m_cache t) = Ok (r, None, c') /\
    option_map snd r = line_of (Tlb.m_cache t) (a / 4096) /\
    tlb_wf n (Tlb.set_cache c' t) /\ forall tag, line_of c' tag = line_of (Tlb.m_cache t) tag.
Proof.
  intros Hwf Ha. pose proof (tw_cache _ _ Hwf) as Hc. pose proof (tw_page _ _ Hwf) as Hpage.
  destruct (access_refines PR_L1_CACHE n (Tlb.m_cache t) a LOAD false None 0 true)
    as (r & c' & E & Hr & Hwf' & Hb & Hl); [done|done|lia| |].
  { rewrite Hpage. pose proof (Z.mod_pos_bound a 4096). lia. }
  rewrite Hpage in Hr. exists r, c'. split; [done|]. split; [done|]. split; [|done].
  pose proof (access_env _ _ _ _ _ _ _ _ _ _ (wf_fi _ _ _ Hc) E) as Hsh.
  destruct Hwf as [? ? ? Henv ? ? ? ?]. split; cbn; try done.
  - by rewrite Hb.
  - destruct Henv as (x & y & Hxy). exists x, y. by rewrite <- Hsh.
Qed.

(** The state of this level when the next one is consulted. *)
Definition after_access (isIfetch : bool) (a : Z) (c : Cache Lru.t) (t : Tlb.TLB) : Tlb.TLB :=
  let t := Tlb.incr_access (Tlb.set_cache c t) in
  if isIfetch then Tlb.set_last_pc a t else t.

Lemma after_access_wf n ifetch a c t :
  tlb_wf n (Tlb.set_cache c t) -> address a -> tlb_wf n (after_access ifetch a c t).
Proof.
  intros Hwf Ha. unfold after_access. destruct ifetch; destruct Hwf; split; try done. cbn. apply Ha.
Qed.

(** Every lookup returns and keeps the invariant of every level. *)
Lemma lookup_total q a ifetch alloc chain g :
  chain <> [] -> Forall (tlb_ok q) chain -> pfq_wf q g -> address a ->
  exists hit chain' g', Tlb.lookup a ifetch alloc chain g = Ok (hit, chain', g') /\
    Forall (tlb_ok q) chain' /\ pfq_wf q g' /\ length chain' = length chain.
Proof.
  intros Hne Hok Hg Ha. revert ifetch alloc g Hne Hok Hg.
  induction chain as [|t rest IH]; intros ifetch alloc g Hne Hok Hg; [done|].
  apply Forall_cons in Hok as [[[n Hwf] Hq] Hrest]. cbn [Tlb.lookup].
  destruct (tlb_access n t a Hwf Ha) as (r & c' & E & Hr & Hwf1 & Hl). rewrite E. cbn [rbind].
  fold (after_access ifetch a c' t). pose proof (after_access_wf n ifetch a c' t Hwf1 Ha) as Hwf2.
  assert (Hs2 : Tlb.settings (after_access ifetch a c' t) = Tlb.settings t) by (by destruct ifetch).
  assert (Hc2 : Tlb.m_cache (after_access ifetch a c' t) = c') by (by destruct ifetch).
  set (t2 := after_access ifetch a c' t) in *. destruct r as [[i b]|].
  - eexists _, _, g. split; [done|]. split; [|done]. constructor; [|done].
    destruct (Tlb.in_llt t2); (split; [exists n|cbn; by rewrite Hs2]); [|done].
    destruct Hwf2. split; done.
  - cbn in Hr. set (g1 := Tlb.mkShared (Tlb.pfq g) (Tlb.elapsed g + Tlb.L1_TLB_TIME)).
    assert (exists hit rest' g', match rest with [] => Ok (false, [], g)
       | _ => Tlb.lookup a false true rest g1 end = Ok (hit, rest', g') /\
       Forall (tlb_ok q) rest' /\ pfq_wf q g' /\ length rest' = length rest)
      as (hit & rest' & g' & Hnext & Hrest' & Hg' & Hlen).
    { destruct rest as [|t' rest]; [by exists false, [], g|]. apply IH; done. }
    rewrite Hnext. cbn [rbind].
    assert (Hwf3 : tlb_wf n (Tlb.incr_miss t2)) by (destruct Hwf2; split; done).
    assert (Hq3 : Tlb.pfq_size (Tlb.settings (Tlb.incr_miss t2)) = q) by (cbn; by rewrite Hs2).
    destruct alloc.
    + destruct (allocate_spec n (Tlb.incr_miss t2) g' a Hwf3) as (t' & g'' & -> & Hwf' & Hg'' & (Hset & _) & _);
        [by rewrite Hq3|done|cbn; by rewrite Hc2, Hl|]. cbn [rbind].
      eexists _, _, _. split; [done|]. rewrite Hq3 in Hg''. split; [|split; [done|cbn; by rewrite Hlen]].
      constructor; [|done]. split; [by exists n|]. by rewrite Hset, Hq3.
    + eexists _, _, _. split; [done|]. split; [|split; [done|cbn; by rewrite Hlen]].
      constructor; [|done]. split; [by exists n|done].
Qed.

(** * Construction and runs *)
Lemma create_tlb_wf st uninit entries ways t :
  settings_ok st -> 0 <= uninit -> 0 < ways <= 256 -> 0 < entries < 2 ^ 32 ->
  Bits.isPower2 (entries / ways) = true -> entries / ways * ways = entries ->
  Tlb.create_tlb st uninit entries ways = Ok t -> tlb_wf (Z.to_nat ways) t /\ Tlb.settings t = st.
Proof.
  intros Hst Hun Hw He Hpow Hmul H. unfold Tlb.create_tlb, Tlb.create_tlb_cache in H. inv_ok.
  cbn [create] in *. inv_ok.
  assert (Hns : 0 < entries / ways < 2 ^ 32).
  { split; [|apply Z.div_lt_upper_bound; nia]. nia. }
  assert (Hb : cb_blocksize v2 = 4096 /\ m_num_sets v2 = entries / ways).
  { match goal with Hx : create_base _ _ _ _ _ = _ |- _ => unfold create_base in Hx; inv_ok end. done. }
  destruct Hb as [Hbs Hnum].
  assert (Hbase : base_wf v2).
  { match goal with Hx : create_base _ _ _ _ _ = _ |- _ =>
      eapply (create_base_wf (entries / ways) _ Tlb.SIM_PAGE_SIZE HASH_MASK v2 12); try exact Hx; try done end. }
  split; [|done]. split; cbn; try done; try lia.
  - rewrite <- Hnum. change Tlb.SIM_PAGE_SIZE with 4096. rewrite <- Hbs. apply empty_cache_wf; try done.
    + rewrite Hbs. lia.
    + apply lru_create_wf; lia.
  - eexists _, _. reflexivity.
  - pose proof (so_shadow _ Hst). lia.
Qed.

Lemma create_tlb_ok st uninit entries ways :
  settings_ok st -> 0 <= uninit -> 0 < ways <= 256 -> 0 < entries < 2 ^ 32 ->
  Bits.isPower2 (entries / ways) = true -> entries / ways * ways = entries ->
  exists t, Tlb.create_tlb st uninit entries ways = Ok t.
Proof.
  intros Hst Hun Hw He Hpow Hmul. unfold Tlb.create_tlb, Tlb.create_tlb_cache, create_base.
  assert (Hns : 0 < entries / ways < 2 ^ 32).
  { split; [|apply Z.div_lt_upper_bound; nia]. nia. }
  rewrite (proj2 (Z.eqb_neq ways 0)), (proj2 (Z.eqb_neq (entries / ways) 0)) by lia.
  cbn [negb rguard rbind]. rewrite floorLog2_log2, Z.shiftl_1_l by lia.
  rewrite (proj2 (Z.eqb_eq (entries / ways) (2 ^ Z.log2 (entries / ways))))
    by (by apply isPower2_spec). cbn [orb rguard rbind create].
  rewrite Hmul, u32_small, Z.eqb_refl by lia. cbn. eauto.
Qed.

(** A program's translations: addresses and whether they are fetches. *)
Fixpoint run_lookups (accs : list (Z * bool)) (chain : list Tlb.TLB) (g : Tlb.Shared)
  : result (list Tlb.TLB * Tlb.Shared) :=
  match accs with
  | [] => Ok (chain, g)
  | (a, ifetch) :: accs' =>
      let! (_, chain, g) := Tlb.lookup a ifetch true chain g in
      run_lookups accs' chain g
  end.

Lemma run_lookups_ok q accs chain g :
  chain <> [] -> Forall (tlb_ok q) chain -> pfq_wf q g -> Forall (fun x => address (fst x)) accs ->
  exists chain' g', run_lookups accs chain g = Ok (chain', g') /\ Forall (tlb_ok q) chain' /\ pfq_wf q g'.
Proof.
  revert chain g. induction accs as [|[a f] accs IH]; intros chain g Hne Hok Hg Hacc; cbn [run_lookups].
  { by exists chain, g. }
  apply Forall_cons in Hacc as [Ha Hacc].
  destruct (lookup_total q a f true chain g Hne Hok Hg Ha) as (hit & chain' & g' & -> & Hok' & Hg' & Hlen).
  cbn [rbind]. apply IH; [|done..]. intros ->. cbn in Hlen. destruct chain; [done|discriminate].
Qed.

(** C3: the translation path never fails: for any TLB hierarchy the
    constructor accepts, any sequence of translations runs to completion, with
    no failed assertion, out-of-range access or removal from an empty queue;
    the shared queue of recent pages never exceeds PFQ_SIZE and the shadow
    table of each level never exceeds SHADOW_TABLE_SIZE. *)
Theorem tlb_runs_safely st uninit1 uninit2 n1 w1 n2 w2 t1 t2 accs :
  settings_ok st -> 0 <= uninit1 -> 0 <= uninit2 ->
  0 < w1 <= 256 -> 0 < n1 < 2 ^ 32 -> Bits.isPower2 (n1 / w1) = true -> n1 / w1 * w1 = n1 ->
  0 < w2 <= 256 -> 0 < n2 < 2 ^ 32 -> Bits.isPower2 (n2 / w2) = true -> n2 / w2 * w2 = n2 ->
  Tlb.create_tlb st uninit1 n1 w1 = Ok t1 -> Tlb.create_tlb st uninit2 n2 w2 = Ok t2 ->
  Forall (fun x => address (fst x)) accs ->
  exists chain g, run_lookups accs [t1; t2] (Tlb.mkShared [] 0) = Ok (chain, g) /\
    Z.of_nat (length (Tlb.pfq g)) <= Tlb.pfq_size st /\
    Forall (fun t => Z.of_nat (length (Tlb.shadow_table t)) <= Tlb.shadow_table_size (Tlb.settings t)) chain.
Proof.
  intros Hst Hu1 Hu2 Hw1 Hn1 Hp1 Hm1 Hw2 Hn2 Hp2 Hm2 Ht1 Ht2 Hacc.
  apply create_tlb_wf in Ht1 as [Hwf1 Hs1]; [|done..]. apply create_tlb_wf in Ht2 as [Hwf2 Hs2]; [|done..].
  destruct (run_lookups_ok (Tlb.pfq_size st) accs [t1; t2] (Tlb.mkShared [] 0))
    as (chain & g & E & Hok & Hg); [done| | |done|].
  - repeat constructor; [by eexists|by rewrite Hs1|by eexists|by rewrite Hs2].
  - unfold pfq_wf. cbn. pose proof (so_pfq _ Hst). lia.
  - exists chain, g. split; [done|]. split; [done|]. eapply Forall_impl; [exact Hok|].
    intros t [[n Hwf] _]. apply Hwf.
Qed.

(** * Inversion of a lookup *)

(** One level of a lookup: either the access hits, or the levels behind are
    consulted and this one allocates. *)
Lemma lookup_head q n a ifetch t rest g :
  tlb_wf n t -> Tlb.pfq_size (Tlb.settings t) = q -> Forall (tlb_ok q) rest -> pfq_wf q g -> address a ->
  exists hit t' rest' g', Tlb.lookup a ifetch true (t :: rest) g = Ok (hit, t' :: rest', g') /\
    tlb_wf n t' /\ pfq_wf q g' /\ Forall (tlb_ok q) rest' /\
    Tlb.settings t' = Tlb.settings t /\ Tlb.m_size t' = Tlb.m_size t /\
    Tlb.m_access t' = u64 (Tlb.m_access t + 1) /\
    if bool_decide (is_Some (line_of (Tlb.m_cache t) (a / 4096))) then
      hit = true /\ rest' = rest /\ g' = g /\ Tlb.m_miss t' = Tlb.m_miss t /\
      Tlb.m_alloc t' = Tlb.m_alloc t /\ Tlb.m_bypass t' = Tlb.m_bypass t /\
      forall tag, line_of (Tlb.m_cache t') tag = line_of (Tlb.m_cache t) tag
    else exists t1 g1,
      (rest = [] /\ rest' = [] /\ g1 = g /\ hit = false \/
       exists r0 rs, rest = r0 :: rs /\
         Tlb.lookup a false true rest (Tlb.mkShared (Tlb.pfq g) (Tlb.elapsed g + Tlb.L1_TLB_TIME))
           = Ok (hit, rest', g1)) /\
      Tlb.allocate a t1 g1 = Ok (t', g') /\ allocated t1 t' g1 g' a /\ same_config t1 t' /\
      Tlb.settings t1 = Tlb.settings t /\ Tlb.m_size t1 = Tlb.m_size t /\
      Tlb.phist t1 = Tlb.phist t /\ Tlb.shadow_table t1 = Tlb.shadow_table t /\
      Tlb.last_pc t1 = (if ifetch then a else Tlb.last_pc t) /\
      Tlb.m_miss t' = u64 (Tlb.m_miss t + 1) /\
      Tlb.m_alloc t1 = Tlb.m_alloc t /\ Tlb.m_bypass t1 = Tlb.m_bypass t.
Proof.
  intros Hwf Hq Hrest Hg Ha. cbn [Tlb.lookup].
  destruct (tlb_access n t a Hwf Ha) as (r & c' & E & Hr & Hwf1 & Hl). rewrite E. cbn [rbind].
  fold (after_access ifetch a c' t). pose proof (after_access_wf n ifetch a c' t Hwf1 Ha) as Hwf2.
  rewrite <- Hr. destruct r as [[i b]|]; cbn [option_map].
  - rewrite bool_decide_eq_true_2 by (by eexists). eexists _, _, _, _. split; [done|].
    destruct ifetch; cbn [after_access Tlb.in_llt]; destruct (Tlb.in_llt _); cbn;
      (split; [destruct Hwf2; split; done|]); done.
  - rewrite bool_decide_eq_false_2 by (intros [? ?]; discriminate).
    set (t2 := after_access ifetch a c' t) in *.
    assert (Hwf3 : tlb_wf n (Tlb.incr_miss t2)) by (destruct Hwf2; split; done).
    assert (Hq3 : Tlb.pfq_size (Tlb.settings (Tlb.incr_miss t2)) = q) by (by destruct ifetch).
    assert (Hc3 : line_of (Tlb.m_cache (Tlb.incr_miss t2)) (a / 4096) = None).
    { rewrite (ltac:(by destruct ifetch) : Tlb.m_cache (Tlb.incr_miss t2) = c'), Hl. by symmetry. }
    assert (exists hit rest' g1, match rest with [] => Ok (false, [], g)
       | _ => Tlb.lookup a false true rest (Tlb.mkShared (Tlb.pfq g) (Tlb.elapsed g + Tlb.L1_TLB_TIME))
       end = Ok (hit, rest', g1) /\ Forall (tlb_ok q) rest' /\ pfq_wf q g1 /\
       (rest = [] /\ rest' = [] /\ g1 = g /\ hit = false \/
        exists r0 rs, rest = r0 :: rs /\
         Tlb.lookup a false true rest (Tlb.mkShared (Tlb.pfq g) (Tlb.elapsed g + Tlb.L1_TLB_TIME))
           = Ok (hit, rest', g1))) as (hit & rest' & g1 & Hnext & Hrest' & Hg1 & Hcase).
    { destruct rest as [|r0 rs]; [exists false, [], g; split; [done|]; split; [done|]; split; [done|]; by left|].
      destruct (lookup_total q a false true (r0 :: rs)
        (Tlb.mkShared (Tlb.pfq g) (Tlb.elapsed g + Tlb.L1_TLB_TIME))) as (hit & c1 & g1 & E1 & Hok & Hg1 & _);
        [done..|]. exists hit, c1, g1. split; [done|]. split; [done|]. split; [done|]. right. by exists r0, rs. }
    rewrite Hnext. cbn [rbind].
    destruct (allocate_spec n (Tlb.incr_miss t2) g1 a Hwf3) as
      (t' & g' & Hal & Hwf' & Hg' & Hsame & Hacc & Hmiss & _ & Halloc); [by rewrite Hq3|done|done|].
    rewrite Hal. cbn [rbind]. exists hit, t', rest', g'. split; [done|]. rewrite Hq3 in Hg'.
    split; [done|]. split; [done|]. split; [done|].
    pose proof Hsame as (Hset & Hsz & _).
    split; [rewrite Hset; by destruct ifetch|]. split; [rewrite Hsz; by destruct ifetch|].
    split; [rewrite Hacc; by destruct ifetch|].
    exists (Tlb.incr_miss t2), g1. split; [done|]. split; [done|]. split; [done|]. split; [done|].
    rewrite Hmiss. by destruct ifetch.
Qed.

(** * Accounting *)
Definition accounted (t : Tlb.TLB) : Prop := Tlb.m_miss t = u64 (Tlb.m_alloc t + Tlb.m_bypass t).

Lemma u64_add_l x y : u64 (u64 x + y) = u64 (x + y).
Proof. unfold u64, uwrap. by rewrite Zplus_mod_idemp_l. Qed.

Lemma allocated_accounted t t' g g' a m :
  allocated t t' g g' a -> m = u64 (Tlb.m_alloc t + Tlb.m_bypass t) ->
  u64 (m + 1) = u64 (Tlb.m_alloc t' + Tlb.m_bypass t').
Proof.
  intros Hal ->. unfold allocated in Hal. rewrite u64_add_l. destruct (predicted_dead t a).
  - destruct Hal as (_ & -> & -> & _). rewrite (Z.add_comm (Tlb.m_alloc t) (u64 _)), u64_add_l. f_equal. lia.
  - destruct Hal as (_ & -> & -> & _). rewrite u64_add_l. f_equal. lia.
Qed.

Lemma lookup_accounted q a ifetch chain g hit chain' g' :
  Forall (tlb_ok q) chain -> pfq_wf q g -> address a -> Forall accounted chain ->
  Tlb.lookup a ifetch true chain g = Ok (hit, chain', g') -> Forall accounted chain'.
Proof.
  intros Hok Hg Ha. revert ifetch g hit chain' g' Hok Hg.
  induction chain as [|t rest IH]; intros ifetch g hit chain' g' Hok Hg Hacc H; [discriminate|].
  apply Forall_cons in Hok as [[[n Hwf] Hq] Hrest]. apply Forall_cons in Hacc as [Ht Haccr].
  destruct (lookup_head q n a ifetch t rest g Hwf Hq Hrest Hg Ha)
    as (hit1 & t1 & rest1 & g1 & E & _ & _ & _ & _ & _ & _ & Hcase).
  rewrite E in H. inv_ok. unfold accounted in Ht. case_bool_decide.
  - destruct Hcase as (_ & -> & _ & Hm & Hal & Hby & _). constructor; [|done]. unfold accounted. congruence.
  - destruct Hcase as (t2 & g2 & Hnext & _ & Hal & _ & _ & _ & _ & _ & _ & Hm & Ha2 & Hb2).
    constructor.
    + unfold accounted. rewrite Hm. eapply allocated_accounted; [exact Hal|]. congruence.
    + destruct Hnext as [(_ & -> & _)|(r0 & rs & -> & Hnext)]; [done|].
      eapply (IH false); [exact Hrest| |exact Haccr|exact Hnext]. done.
Qed.

(** Every TLB miss is accounted for: at each level the number of misses
    equals the number of pages allocated plus the number of pages bypassed
    (as 64-bit counters), and every lookup preserves this. *)
Theorem misses_are_allocated_or_bypassed q a ifetch chain g hit chain' g' :
  Forall (tlb_ok q) chain -> pfq_wf q g -> address a ->
  Forall (fun t => Tlb.m_miss t = u64 (Tlb.m_alloc t + Tlb.m_bypass t)) chain ->
  Tlb.lookup a ifetch true chain g = Ok (hit, chain', g') ->
  Forall (fun t => Tlb.m_miss t = u64 (Tlb.m_alloc t + Tlb.m_bypass t)) chain'.
Proof. apply lookup_accounted. Qed.

(** A first-level TLB, which dpPred never bypasses, holds the page after a
    lookup: the next lookup of any address of the page hits. *)
Theorem l1_tlb_hits_after_lookup q n a a' ifetch ifetch' t rest g :
  tlb_wf n t -> Tlb.pfq_size (Tlb.settings t) = q -> Forall (tlb_ok q) rest -> pfq_wf q g ->
  address a -> address a' -> a' / 4096 = a / 4096 -> Tlb.in_llt t = false ->
  exists hit t1 rest1 g1, Tlb.lookup a ifetch true (t :: rest) g = Ok (hit, t1 :: rest1, g1) /\
    exists t2, Tlb.lookup a' ifetch' true (t1 :: rest1) g1 = Ok (true, t2 :: rest1, g1).
Proof.
  intros Hwf Hq Hrest Hg Ha Ha' Hpage Hllt.
  destruct (lookup_head q n a ifetch t rest g Hwf Hq Hrest Hg Ha)
    as (hit & t1 & rest1 & g1 & E & Hwf1 & Hg1 & Hrest1 & Hs1 & Hz1 & _ & Hcase).
  exists hit, t1, rest1, g1. split; [done|].
  assert (Hline : is_Some (line_of (Tlb.m_cache t1) (a / 4096))).
  { case_bool_decide as Hl.
    - destruct Hcase as (_ & _ & _ & _ & _ & _ & Hlines). by rewrite Hlines.
    - destruct Hcase as (t2 & g2 & _ & _ & Hal & _ & Hs2 & Hz2 & _).
      assert (Hllt2 : Tlb.in_llt t2 = false).
      { unfold Tlb.in_llt, Tlb.get_size in *. by rewrite Hz2, Hs2. }
      unfold allocated, predicted_dead in Hal. rewrite Hllt2, andb_false_r in Hal. apply Hal. }
  destruct (lookup_head q n a' ifetch' t1 rest1 g1) as (hit2 & t2 & rest2 & g2 & E2 & _ & _ & _ & _ & _ & _ & Hc2);
    [done|congruence|done|done|done|].
  rewrite Hpage, bool_decide_eq_true_2 in Hc2 by done. destruct Hc2 as (-> & -> & -> & _). eauto.
Qed.

(** A page that is in the shadow table (it was bypassed recently and missed
    again) is a wrong prediction: allocating it flushes the counters of its
    hash, and the page is brought into the TLB whatever they were. *)
Theorem shadow_hit_is_allocated n t g a :
  tlb_wf n t -> pfq_wf (Tlb.pfq_size (Tlb.settings t)) g -> address a ->
  line_of (Tlb.m_cache t) (a / 4096) = None ->
  Tlb.vpn_of t a ∈ Tlb.shadow_table t ->
  exists t', Tlb.allocate a t g = Ok (t', g) /\ is_Some (line_of (Tlb.m_cache t') (a / 4096)) /\
    Tlb.m_alloc t' = u64 (Tlb.m_alloc t + 1) /\ Tlb.m_bypass t' = Tlb.m_bypass t.
Proof.
  intros Hwf Hg Ha Hmiss Hsh. destruct (allocate_spec n t g a Hwf Hg Ha Hmiss)
    as (t' & g' & E & _ & _ & _ & _ & _ & _ & Hal).
  unfold allocated, predicted_dead in Hal.
  rewrite (proj2 (shadow_search_elem _ _) Hsh) in Hal. rewrite andb_false_r in Hal.
  destruct Hal as (Hl & Hm & Hb & ->). eauto.
Qed.

(** C8: a bypass happens exactly when the last-level TLB predicts the page
    dead: the page is not in the shadow table and its counter exceeds
    PHIST_THD.  The TLB content is then untouched, the page enters the shadow
    table, and its 128 kB region enters the queue cbPred consults. *)
Theorem bypass_iff_predicted_dead n t g a :
  tlb_wf n t -> pfq_wf (Tlb.pfq_size (Tlb.settings t)) g -> address a ->
  line_of (Tlb.m_cache t) (a / 4096) = None ->
  exists t' g', Tlb.allocate a t g = Ok (t', g') /\
    (predicted_dead t a = true <-> line_of (Tlb.m_cache t') (a / 4096) = None) /\
    (predicted_dead t a = true ->
       Tlb.m_cache t' = Tlb.m_cache t /\ Tlb.m_bypass t' = u64 (Tlb.m_bypass t + 1) /\
       Tlb.vpn_of t a ∈ Tlb.shadow_table t' /\ Z.shiftr a 17 ∈ Tlb.pfq g').
Proof.
  intros Hwf Hg Ha Hmiss. destruct (allocate_spec n t g a Hwf Hg Ha Hmiss)
    as (t' & g' & E & _ & _ & _ & _ & _ & _ & Hal).
  exists t', g'. split; [done|]. unfold allocated in Hal. destruct (predicted_dead t a).
  - destruct Hal as (Hc & _ & Hb & Hs & Hq). split; [by rewrite Hc|]. intros _.
    split; [done|]. split; [done|]. split; [done|].
    rewrite (vpn_of_value n) in Hq by done. replace (Z.shiftr a 17) with (Z.shiftr (a - a mod 4096) 17); [done|].
    rewrite !Z.shiftr_div_pow2 by lia. destruct Ha as [Ha _].
    pose proof (Z.div_mod a 4096 ltac:(lia)).
    replace (a - a mod 4096) with (a / 4096 * 4096) by lia.
    change (2 ^ 17) with (4096 * 32). rewrite <- !Z.div_div by lia. by rewrite Z.div_mul by lia.
  - destruct Hal as ((b & Hl) & _). split; [|done]. rewrite Hl. split; discriminate.
Qed.

(** ** The accesses of one last-level TLB *)

(** What a lookup that misses has left as it was when the page is allocated. *)
Definition seen (ifetch : bool) (a : Z) (t t1 : Tlb.TLB) : Prop :=
  Tlb.settings t1 = Tlb.settings t /\ Tlb.m_size t1 = Tlb.m_size t /\
  Tlb.phist t1 = Tlb.phist t /\ Tlb.shadow_table t1 = Tlb.shadow_table t /\
  Tlb.llt_hits t1 = Tlb.llt_hits t /\ Tlb.pc_hist t1 = Tlb.pc_hist t /\
  Tlb.m_bypass t1 = Tlb.m_bypass t /\ Tlb.last_pc t1 = (if ifetch then a else Tlb.last_pc t) /\
  forall tag, line_of (Tlb.m_cache t1) tag = line_of (Tlb.m_cache t) tag.

Lemma lookup_last n a f t g :
  tlb_wf n t -> address a ->
  match line_of (Tlb.m_cache t) (a / 4096) with
  | Some _ => exists t', Tlb.lookup a f true [t] g = Ok (true, [t'], g) /\ tlb_wf n t' /\
      Tlb.settings t' = Tlb.settings t /\ Tlb.m_size t' = Tlb.m_size t /\
      Tlb.shadow_table t' = Tlb.shadow_table t /\ Tlb.m_bypass t' = Tlb.m_bypass t /\
      forall tag, line_of (Tlb.m_cache t') tag = line_of (Tlb.m_cache t) tag
  | None => exists t1, tlb_wf n t1 /\ seen f a t t1 /\
      Tlb.lookup a f true [t] g = (let! (t', g') := Tlb.allocate a t1 g in Ok (false, [t'], g'))
  end.
Proof.
  intros Hwf Ha. cbn [Tlb.lookup].
  destruct (tlb_access n t a Hwf Ha) as (r & c' & -> & Hr & Hwf1 & Hl). cbn [rbind].
  fold (after_access f a c' t). pose proof (after_access_wf n f a c' t Hwf1 Ha) as Hwf2. rewrite <- Hr.
  destruct r as [[i b]|]; cbn [option_map].
  - eexists. split; [done|]. split; [destruct (Tlb.in_llt _); [destruct Hwf2; split; done|done]|].
    by destruct f; cbn [after_access]; destruct (Tlb.in_llt _).
  - exists (Tlb.incr_miss (after_access f a c' t)). split; [destruct Hwf2; split; done|].
    split; [by destruct f|]. done.
Qed.

(** ** The shadow table is a queue *)

(** [v] enters at the back; the front leaves when the table is full. *)
Definition pushed (size v : Z) (s s' : list Z) : Prop :=
  exists l, (if Z.of_nat (length s) =? size then Tlb.pop_front s else Ok s) = Ok l /\ s' = l ++ [v].

Lemma predict_shadow a t g b t' g' :
  Tlb.predict a t g = Ok (b, t', g') ->
  Tlb.shadow_table t' = Tlb.shadow_table t \/
  pushed (Tlb.shadow_table_size (Tlb.settings t)) (Tlb.vpn_of t a) (Tlb.shadow_table t) (Tlb.shadow_table t').
Proof.
  intros H. unfold Tlb.predict in H. destruct (Tlb.dppred (Tlb.settings t)); [|inv_ok; by left].
  apply rbind_Ok_inv in H as (v & _ & H). apply rbind_Ok_inv in H as (p & _ & H).
  destruct (Tlb.in_llt t); [|inv_ok; by left]. apply rbind_Ok_inv in H as (t2 & Ht2 & H).
  assert (Hf : Tlb.settings t2 = Tlb.settings t /\ Tlb.shadow_table t2 = Tlb.shadow_table t).
  { destruct (Tlb.shadow_table_search _ _); [|by inv_ok]. unfold Tlb.flushing_vpn_column in Ht2. inv_ok.
    match goal with |- context [Tlb.flush_loop ?k ?p ?v ?t] =>
      pose proof (flush_loop_fields k p v t) as (Hs & _ & _ & _ & _ & _ & _ & _ & _ & Hsh & _) end.
    by rewrite Hs, Hsh. }
  destruct Hf as [Hs Hsh]. destruct (_ >? _); [|inv_ok; by left].
  right. inv_ok. match goal with Hx : Tlb.shadow_table_insert _ _ = _ |- _ => rename Hx into Hins end.
  unfold Tlb.shadow_table_insert in Hins. inv_ok. cbn in *. rewrite Hs, Hsh in *. eexists. done.
Qed.

Lemma allocate_shadow a t g t' g' :
  Tlb.allocate a t g = Ok (t', g') ->
  Tlb.shadow_table t' = Tlb.shadow_table t \/
  pushed (Tlb.shadow_table_size (Tlb.settings t)) (Tlb.vpn_of t a) (Tlb.shadow_table t) (Tlb.shadow_table t').
Proof.
  intros H. unfold Tlb.allocate in H. apply rbind_Ok_inv in H as ([[b t1] g1] & Hp & H).
  apply predict_shadow in Hp. destruct b; [by inv_ok|]. inv_ok.
  destruct (_ && _); [|by inv_ok]. inv_ok.
  match goal with Hx : Tlb.updating_phist _ _ = _ |- _ => unfold Tlb.updating_phist in Hx; inv_ok end.
  by destruct (_ =? 0); inv_ok.
Qed.

(** [v] is followed by at most [k] younger entries. *)
Definition among_last (v : Z) (k : nat) (s : list Z) : Prop :=
  exists pre post, s = pre ++ v :: post /\ (length post <= k)%nat.

Lemma among_last_elem v k s : among_last v k s -> v ∈ s.
Proof. intros (pre & post & -> & _). apply elem_of_app. right. by left. Qed.

Lemma among_last_pushed size v w k s s' :
  among_last v k s -> pushed size w s s' -> Z.of_nat (S k) < size -> among_last v (S k) s'.
Proof.
  intros (pre & post & -> & Hk) (l & Hl & ->) Hsz. rewrite length_app in Hl. cbn [length] in Hl.
  destruct (Z.eqb_spec (Z.of_nat (length pre + S (length post))) size).
  - destruct pre as [|x pre]; [cbn in *; lia|]. cbn in Hl. inv_ok.
    exists pre, (post ++ [w]). rewrite length_app. cbn. split; [by rewrite <- app_assoc|lia].
  - inv_ok. exists pre, (post ++ [w]). rewrite length_app. cbn. split; [by rewrite <- app_assoc|lia].
Qed.

(** A lookup pushes at most one page into the table. *)
Lemma lookup_keeps_shadowed n a f t g v k :
  tlb_wf n t -> pfq_wf (Tlb.pfq_size (Tlb.settings t)) g -> address a ->
  exists hit t' g', Tlb.lookup a f true [t] g = Ok (hit, [t'], g') /\ tlb_wf n t' /\
    pfq_wf (Tlb.pfq_size (Tlb.settings t')) g' /\ Tlb.settings t' = Tlb.settings t /\
    (among_last v k (Tlb.shadow_table t) -> Z.of_nat (S k) < Tlb.shadow_table_size (Tlb.settings t) ->
     among_last v (S k) (Tlb.shadow_table t')).
Proof.
  intros Hwf Hg Ha. pose proof (lookup_last n a f t g Hwf Ha) as H.
  destruct (line_of (Tlb.m_cache t) (a / 4096)) eqn:Hline.
  - destruct H as (t' & -> & Hwf' & Hs & _ & Hsh & _). exists true, t', g.
    repeat (split; [by rewrite ?Hs|]). rewrite Hsh. intros (pre & post & -> & Hk) _. exists pre, post. split; [done|lia].
  - destruct H as (t1 & Hwf1 & (Hs & _ & _ & Hsh & _ & _ & _ & _ & Hl) & ->).
    destruct (allocate_spec n t1 g a Hwf1) as (t' & g' & E & Hwf' & Hg' & (Hs' & _) & _);
      [by rewrite Hs|done|by rewrite Hl|].
    rewrite E. exists false, t', g'. split; [done|]. split; [done|]. rewrite Hs', Hs in *.
    split; [done|]. split; [done|]. intros Hv Hk. apply allocate_shadow in E as [->|E].
    + rewrite Hsh. destruct Hv as (pre & post & -> & Hp). exists pre, post. split; [done|lia].
    + rewrite Hs, Hsh in E. by eapply among_last_pushed.
Qed.

Lemma run_keeps_shadowed n accs t g v k :
  tlb_wf n t -> pfq_wf (Tlb.pfq_size (Tlb.settings t)) g -> Forall (fun x => address (fst x)) accs ->
  exists t' g', run_lookups accs [t] g = Ok ([t'], g') /\ tlb_wf n t' /\
    pfq_wf (Tlb.pfq_size (Tlb.settings t')) g' /\ Tlb.settings t' = Tlb.settings t /\
    (among_last v k (Tlb.shadow_table t) ->
     Z.of_nat (k + length accs) < Tlb.shadow_table_size (Tlb.settings t) ->
     among_last v (k + length accs) (Tlb.shadow_table t')).
Proof.
  revert t g k. induction accs as [|[x f] accs IH]; intros t g k Hwf Hg Hacc; cbn [run_lookups].
  { exists t, g. rewrite Nat.add_0_r. done. }
  apply Forall_cons in Hacc as [Hx Hacc]. cbn [fst] in Hx.
  destruct (lookup_keeps_shadowed n x f t g v k Hwf Hg Hx) as (hit & t1 & g1 & -> & Hwf1 & Hg1 & Hs1 & Hk1).
  cbn [rbind]. destruct (IH t1 g1 (S k) Hwf1 Hg1 Hacc) as (t' & g' & -> & Hwf' & Hg' & Hs' & Hk').
  exists t', g'. repeat (split; [congruence|]). rewrite Hs1 in Hk'. cbn [length].
  replace (k + S (length accs))%nat with (S k + length accs)%nat by lia. intros Hv Hsz.
  apply Hk'; [apply Hk1; [done|lia]|done].
Qed.

Lemma predicted_dead_seen t t1 a :
  seen false a t t1 -> predicted_dead t1 a = predicted_dead t a /\ Tlb.vpn_of t1 a = Tlb.vpn_of t a.
Proof.
  intros (Hs & Hz & Hp & Hsh & _ & _ & _ & Hpc & _).
  unfold predicted_dead, dead_count, Tlb.in_llt, Tlb.get_size, Tlb.findHash, Tlb.shadow_table_search,
    Tlb.phist_get, Tlb.vpn_of. by rewrite Hs, Hz, Hp, Hsh, Hpc.
Qed.

(** C35: a wrong prediction is not repeated.  Let the last-level TLB bypass a
    page, and let it serve any accesses after that.  As long as there were
    fewer of them than the shadow table has entries, the page is still in the
    table; and while it is there, the next lookup of the page bypasses
    nothing and leaves the page in the TLB. *)
Theorem no_consecutive_bypass n t g a accs f :
  tlb_wf n t -> pfq_wf (Tlb.pfq_size (Tlb.settings t)) g -> address a ->
  Forall (fun x => address (fst x)) accs ->
  line_of (Tlb.m_cache t) (a / 4096) = None -> predicted_dead t a = true ->
  exists t1 g1 t2 g2,
    Tlb.lookup a false true [t] g = Ok (false, [t1], g1) /\
    Tlb.m_bypass t1 = u64 (Tlb.m_bypass t + 1) /\ line_of (Tlb.m_cache t1) (a / 4096) = None /\
    run_lookups accs [t1] g1 = Ok ([t2], g2) /\
    (Z.of_nat (length accs) < Tlb.shadow_table_size (Tlb.settings t) ->
     Tlb.vpn_of t a ∈ Tlb.shadow_table t2) /\
    (Tlb.vpn_of t a ∈ Tlb.shadow_table t2 ->
     exists hit t3 g3, Tlb.lookup a f true [t2] g2 = Ok (hit, [t3], g3) /\
       is_Some (line_of (Tlb.m_cache t3) (a / 4096)) /\ Tlb.m_bypass t3 = Tlb.m_bypass t2).
Proof.
  intros Hwf Hg Ha Haccs Hmiss Hdead.
  pose proof (lookup_last n a false t g Hwf Ha) as H. rewrite Hmiss in H.
  destruct H as (t0 & Hwf0 & Hseen & ->). destruct (predicted_dead_seen t t0 a Hseen) as [Hd0 Hv0].
  destruct Hseen as (Hs0 & _ & _ & Hsh0 & _ & _ & Hb0 & _ & Hl0).
  destruct (allocate_spec n t0 g a Hwf0) as (t1 & g1 & E & Hwf1 & Hg1 & (Hs1 & _) & _ & _ & _ & Hal);
    [by rewrite Hs0|done|by rewrite Hl0|].
  unfold allocated in Hal. rewrite Hd0, Hdead in Hal. destruct Hal as (Hc & _ & Hb & Hin & _).
  assert (Hlast : among_last (Tlb.vpn_of t a) 0 (Tlb.shadow_table t1)).
  { apply allocate_shadow in E as [E|(l & _ & ->)]; [|rewrite Hv0; exists l, []; done].
    exfalso. rewrite E, Hsh0, Hv0 in Hin. apply shadow_search_elem in Hin.
    unfold predicted_dead in Hdead. rewrite Hin, andb_false_r in Hdead. done. }
  rewrite <- Hs1 in Hg1. rewrite E. cbn [rbind].
  destruct (run_keeps_shadowed n accs t1 g1 (Tlb.vpn_of t a) 0 Hwf1 Hg1 Haccs)
    as (t2 & g2 & E2 & Hwf2 & Hg2 & Hs2 & Hk).
  exists t1, g1, t2, g2. split; [done|]. split; [by rewrite Hb, Hb0|]. split; [by rewrite Hc, Hl0|].
  split; [done|]. split.
  - intros Hsz. eapply among_last_elem, Hk; [done|]. by rewrite Hs1, Hs0.
  - intros Hin2. pose proof (lookup_last n a f t2 g2 Hwf2 Ha) as H2.
    destruct (line_of (Tlb.m_cache t2) (a / 4096)) eqn:Hl2.
    + destruct H2 as (t3 & -> & _ & _ & _ & _ & Hb3 & Hl3). exists true, t3, g2. rewrite Hl3. eauto.
    + destruct H2 as (t3 & Hwf3 & (Hs3 & _ & _ & Hsh3 & _ & _ & Hb3 & _ & Hl3) & ->).
      destruct (shadow_hit_is_allocated n t3 g2 a Hwf3) as (t4 & -> & Hl4 & _ & Hb4);
        [by rewrite Hs3|done|by rewrite Hl3|unfold Tlb.vpn_of in *; by rewrite Hsh3, Hs3, Hs2, Hs1, Hs0|].
      exists false, t4, g2. split; [done|]. split; [done|]. congruence.
Qed.

(** ** Learning from evictions *)

(** The counters a miss of [a] works with: a page found in the shadow table
    has the column of its hash cleared first. *)
Definition counter_at_miss (t : Tlb.TLB) (a v p : Z) : Z :=
  if Tlb.shadow_table_search (Tlb.vpn_of t a) t &&
     match Tlb.findHash t (Tlb.vpn_of t a) (Tlb.vpn_bits (Tlb.settings t)) with Ok h => h =? v | Err _ => false end &&
     (0 <=? p) && (p <? 2 ^ Tlb.pc_bits (Tlb.settings t))
  then 0 else Tlb.phist_get t v p.

Lemma counter_at_miss_seen t t1 a v p : seen false a t t1 -> counter_at_miss t1 a v p = counter_at_miss t a v p.
Proof.
  intros (Hs & _ & Hp & Hsh & _ & _ & _ & _ & _).
  unfold counter_at_miss, Tlb.shadow_table_search, Tlb.findHash, Tlb.phist_get, Tlb.vpn_of. by rewrite Hs, Hp, Hsh.
Qed.

Lemma flush_counters n t h v p :
  tlb_wf n t -> exists t', Tlb.flushing_vpn_column h t = Ok t' /\
    Tlb.phist_get t' v p =
    if (h =? v) && (0 <=? p) && (p <? 2 ^ Tlb.pc_bits (Tlb.settings t)) then 0 else Tlb.phist_get t v p.
Proof.
  intros Hwf. pose proof (so_pc _ (tw_settings _ _ Hwf)) as Hpc. unfold Tlb.flushing_vpn_column.
  rewrite (proj2 (Z.ltb_lt _ 64)) by lia. cbn [rguard rbind]. eexists. split; [done|].
  assert (2 ^ Tlb.pc_bits (Tlb.settings t) < 2 ^ 64) by (apply Z.pow_lt_mono_r; lia).
  rewrite Z.shiftl_1_l, u64_small, flush_loop_get by lia. case_decide as Hd.
  - destruct Hd as [-> Hp]. rewrite Z.eqb_refl, (proj2 (Z.leb_le 0 p)), (proj2 (Z.ltb_lt _ _)) by lia. done.
  - destruct (Z.eqb_spec h v), (Z.leb_spec 0 p), (Z.ltb_spec p (2 ^ Tlb.pc_bits (Tlb.settings t)));
      cbn [andb]; try done. exfalso. apply Hd. lia.
Qed.

(** A page that is not predicted dead starts with no hits and the program
    counter that missed. *)
Lemma predict_alive n t g a :
  tlb_wf n t -> pfq_wf (Tlb.pfq_size (Tlb.settings t)) g -> address a ->
  Tlb.dppred (Tlb.settings t) = true -> Tlb.in_llt t = true -> predicted_dead t a = false ->
  exists t1, Tlb.predict a t g = Ok (false, t1, g) /\ tlb_wf n t1 /\ same_config t t1 /\
    Tlb.m_cache t1 = Tlb.m_cache t /\
    Tlb.llt_hits t1 = <[Tlb.vpn_of t a := 0]> (Tlb.llt_hits t) /\
    Tlb.pc_hist t1 = <[Tlb.vpn_of t a := Tlb.last_pc t]> (Tlb.pc_hist t) /\
    forall v p, Tlb.phist_get t1 v p = counter_at_miss t a v p.
Proof.
  intros Hwf Hg Ha Hdp Hllt Halive.
  destruct (predict_spec n t g a Hwf Hg Ha) as (t1 & g1 & E & Hwf1 & _ & Hsame & Hc & _ & _ & _ & _ & Hcase).
  rewrite Halive in E, Hcase. destruct Hcase as [_ ->]. exists t1. do 4 (split; [done|]).
  unfold Tlb.predict in E. rewrite Hdp, Hllt in E.
  apply rbind_Ok_inv in E as (h & Hh & E). apply rbind_Ok_inv in E as (hp & _ & E).
  apply rbind_Ok_inv in E as (t2 & Ht2 & E). set (t' := Tlb.set_pc_hist _ t) in Ht2.
  assert (Hwf' : tlb_wf n t') by (destruct Hwf; split; try done; by apply map_Forall_insert_2).
  assert (Hf : Tlb.llt_hits t2 = Tlb.llt_hits t /\ Tlb.pc_hist t2 = Tlb.pc_hist t' /\
    forall v p, Tlb.phist_get t2 v p = counter_at_miss t a v p).
  { unfold counter_at_miss. rewrite Hh.
    change (Tlb.shadow_table_search _ t') with (Tlb.shadow_table_search (Tlb.vpn_of t a) t) in Ht2.
    destruct (Tlb.shadow_table_search (Tlb.vpn_of t a) t); cbn [andb]; [|by inv_ok].
    split; [|split].
    - unfold Tlb.flushing_vpn_column in Ht2. inv_ok. apply (flush_loop_fields _ 0 h t').
    - unfold Tlb.flushing_vpn_column in Ht2. inv_ok. apply (flush_loop_fields _ 0 h t').
    - intros v p. destruct (flush_counters n t' h v p Hwf') as (t3 & Ht3 & Hget).
      rewrite Ht3 in Ht2. by inv_ok. }
  destruct Hf as (Hhits & Hpcs & Hget). destruct (_ >? _).
  - apply rbind_Ok_inv in E as (? & _ & E). apply rbind_Ok_inv in E as (? & _ & E). by apply Ok_inj in E.
  - apply Ok_inj in E. simplify_eq. cbn. by rewrite Hhits, Hpcs.
Qed.

(** The pages of a TLB are pages of 64-bit addresses. *)
Definition pages_ok (t : Tlb.TLB) : Prop :=
  forall tag, is_Some (line_of (Tlb.m_cache t) tag) -> address (tag * 4096).

Lemma page_of_address a : address a -> address (a / 4096 * 4096).
Proof. unfold address. pose proof (Z.div_mod a 4096). pose proof (Z.mod_pos_bound a 4096). lia. Qed.

Lemma vpn_of_page n t tag : tlb_wf n t -> address (tag * 4096) -> Tlb.vpn_of t (tag * 4096) = tag * 4096.
Proof. intros Hwf Ha. rewrite (vpn_of_value n) by done. rewrite Z.mod_mul by lia. lia. Qed.

Lemma inserted_pages (c c' : Cache Lru.t) a o :
  address a -> (forall tag, is_Some (line_of c tag) -> address (tag * 4096)) -> inserted c c' (a / 4096) o ->
  forall tag, is_Some (line_of c' tag) -> address (tag * 4096).
Proof.
  intros Ha Hp (_ & _ & Hl) tag Htag. destruct (decide (tag = a / 4096)) as [->|Hne]; [by apply page_of_address|].
  rewrite Hl in Htag by done. destruct (_ && _); [by destruct Htag|]. by apply Hp.
Qed.

Lemma updating_phist_cache ev t t' : Tlb.updating_phist ev t = Ok t' -> Tlb.m_cache t' = Tlb.m_cache t.
Proof. intros H. unfold Tlb.updating_phist in H. inv_ok. by destruct (_ =? 0); inv_ok. Qed.

Lemma allocate_pages n a t g t' g' :
  tlb_wf n t -> pfq_wf (Tlb.pfq_size (Tlb.settings t)) g -> address a ->
  line_of (Tlb.m_cache t) (a / 4096) = None -> pages_ok t ->
  Tlb.allocate a t g = Ok (t', g') -> pages_ok t'.
Proof.
  intros Hwf Hg Ha Hmiss Hp H. unfold Tlb.allocate in H.
  destruct (predict_spec n t g a Hwf Hg Ha) as (t1 & g1 & E & Hwf1 & _ & _ & Hc & _).
  rewrite E in H. cbn [rbind] in H. destruct (predicted_dead t a); [inv_ok; unfold pages_ok; by rewrite Hc|].
  destruct (tlb_insert n (Tlb.incr_alloc t1) a) as (o & c' & E2 & _ & Hins & _);
    [destruct Hwf1; split; done|done|cbn; by rewrite Hc|].
  rewrite E2 in H. cbn [rbind] in H. cbn in Hins. rewrite Hc in Hins.
  pose proof (inserted_pages _ _ _ _ Ha Hp Hins) as Hp'.
  destruct (_ && _); inv_ok; [|done]. match goal with Hx : Tlb.updating_phist _ _ = _ |- _ =>
    apply updating_phist_cache in Hx as Hc' end. unfold pages_ok. by rewrite Hc'.
Qed.

(** The state of a last-level TLB whatever it has served. *)
Definition llt_inv (st : Tlb.Settings) (n : nat) (t : Tlb.TLB) : Prop :=
  tlb_wf n t /\ Tlb.settings t = st /\ Tlb.in_llt t = true /\ pages_ok t.

Lemma lookup_llt st n a f t g :
  llt_inv st n t -> pfq_wf (Tlb.pfq_size st) g -> address a ->
  exists hit t' g', Tlb.lookup a f true [t] g = Ok (hit, [t'], g') /\ llt_inv st n t' /\ pfq_wf (Tlb.pfq_size st) g'.
Proof.
  intros (Hwf & Hst & Hllt & Hp) Hg Ha. pose proof (lookup_last n a f t g Hwf Ha) as H.
  unfold Tlb.in_llt, Tlb.get_size in Hllt.
  destruct (line_of (Tlb.m_cache t) (a / 4096)) eqn:Hline.
  - destruct H as (t' & -> & Hwf' & Hs & Hz & _ & _ & Hl). exists true, t', g. split; [done|]. split; [|done].
    split; [done|]. split; [congruence|]. split; [unfold Tlb.in_llt, Tlb.get_size; by rewrite Hz, Hs|].
    intros tag. rewrite Hl. apply Hp.
  - destruct H as (t1 & Hwf1 & (Hs & Hz & _ & _ & _ & _ & _ & _ & Hl) & ->).
    assert (Hg1 : pfq_wf (Tlb.pfq_size (Tlb.settings t1)) g) by (by rewrite Hs, Hst).
    destruct (allocate_spec n t1 g a Hwf1 Hg1 Ha) as (t' & g' & E & Hwf' & Hg' & (Hs' & Hz' & _) & _);
      [by rewrite Hl|].
    rewrite E. exists false, t', g'. split; [done|]. rewrite Hs, Hst in Hg'. split; [|done].
    split; [done|]. split; [congruence|]. split; [unfold Tlb.in_llt, Tlb.get_size; by rewrite Hz', Hs', Hz, Hs|].
    eapply allocate_pages; [exact Hwf1|exact Hg1|exact Ha|by rewrite Hl| |exact E].
    intros tag. rewrite Hl. apply Hp.
Qed.

Lemma run_llt st n accs t g t' g' :
  llt_inv st n t -> pfq_wf (Tlb.pfq_size st) g -> Forall (fun x => address (fst x)) accs ->
  run_lookups accs [t] g = Ok ([t'], g') -> llt_inv st n t' /\ pfq_wf (Tlb.pfq_size st) g'.
Proof.
  revert t g. induction accs as [|[x f] accs IH]; intros t g Ht Hg Hacc H; cbn [run_lookups] in H.
  { apply Ok_inj in H. by simplify_eq. }
  apply Forall_cons in Hacc as [Hx Hacc].
  destruct (lookup_llt st n x f t g Ht Hg Hx) as (hit & t1 & g1 & E & Ht1 & Hg1).
  rewrite E in H. cbn [rbind] in H. by eapply IH.
Qed.

Lemma updating_phist_counters n t ev :
  tlb_wf n t -> 0 <= ev ->
  exists t' v p, Tlb.updating_phist ev t = Ok t' /\
    Tlb.findHash t (Tlb.vpn_of t ev) (Tlb.vpn_bits (Tlb.settings t)) = Ok v /\
    Tlb.findHash t (default 0 (Tlb.pc_hist t !! Tlb.vpn_of t ev)) (Tlb.pc_bits (Tlb.settings t)) = Ok p /\
    (forall v' p', Tlb.phist_get t' v' p' =
      if decide (v = v' /\ p = p') then
        (if default 0 (Tlb.llt_hits t !! Tlb.vpn_of t ev) =? 0
         then u64 (Tlb.phist_get t v p + 1) else 0)
      else Tlb.phist_get t v' p') /\ t' = Tlb.set_phist (Tlb.phist t') t.
Proof.
  intros Hwf Hev. destruct (updating_phist_spec n t ev Hwf Hev) as (m & E & _). rewrite E.
  unfold Tlb.updating_phist in E. apply rbind_Ok_inv in E as (v & Hv & E). apply rbind_Ok_inv in E as (p & Hp & E).
  eexists _, v, p. do 3 (split; [done|]). split; [|done].
  intros v' p'. apply Ok_inj in E || idtac. destruct (_ =? 0); inv_ok; rewrite <- phist_get_set;
    match goal with Hx : _ = Tlb.set_phist m t |- _ => by rewrite <- Hx end.
Qed.

Lemma create_llt st uninit entries ways t :
  settings_ok st -> 0 <= uninit -> 0 < ways <= 256 -> 0 < entries < 2 ^ 32 ->
  Bits.isPower2 (entries / ways) = true -> entries / ways * ways = entries -> Tlb.llt_size st = entries ->
  Tlb.create_tlb st uninit entries ways = Ok t -> llt_inv st (Z.to_nat ways) t.
Proof.
  intros Hst Hu Hw He Hp Hm Hllt H. destruct (create_tlb_wf st uninit entries ways t) as [Hwf Hs]; [done..|].
  split; [done|]. split; [done|]. unfold Tlb.create_tlb, Tlb.create_tlb_cache in H. inv_ok. cbn [create] in *. inv_ok.
  split; [unfold Tlb.in_llt, Tlb.get_size; cbn; rewrite Hllt; apply Z.eqb_refl|]. intros tag [b Hb]. exfalso. unfold line_of in Hb. cbn in Hb.
  destruct (set_of_tag _ tag) as [k|]; [|discriminate].
  apply bind_Some in Hb as (s & Hs' & Hb). apply lookup_replicate in Hs' as [-> _].
  unfold contents in Hb. cbn [m_cache_block_info_array] in Hb. rewrite contents_all_invalid in Hb by done. by rewrite lookup_empty in Hb.
Qed.

(** One allocation in the last-level TLB: which page left, and what the
    predictor learned. *)
Lemma allocate_learns n t g a :
  tlb_wf n t -> pfq_wf (Tlb.pfq_size (Tlb.settings t)) g -> address a -> pages_ok t ->
  Tlb.dppred (Tlb.settings t) = true -> Tlb.in_llt t = true ->
  line_of (Tlb.m_cache t) (a / 4096) = None -> predicted_dead t a = false ->
  exists t', Tlb.allocate a t g = Ok (t', g) /\
    Tlb.llt_hits t' !! Tlb.vpn_of t a = Some 0 /\ Tlb.pc_hist t' !! Tlb.vpn_of t a = Some (Tlb.last_pc t) /\
    ((forall tag, tag <> a / 4096 -> line_of (Tlb.m_cache t') tag = line_of (Tlb.m_cache t) tag) /\
     (forall v p, Tlb.phist_get t' v p = counter_at_miss t a v p) \/
     exists page v p,
       is_Some (line_of (Tlb.m_cache t) page) /\
       (forall tag, tag <> a / 4096 -> line_of (Tlb.m_cache t') tag =
          if page =? tag then None else line_of (Tlb.m_cache t) tag) /\
       Tlb.findHash t (page * 4096) (Tlb.vpn_bits (Tlb.settings t)) = Ok v /\
       Tlb.findHash t (default 0 (Tlb.pc_hist t !! (page * 4096))) (Tlb.pc_bits (Tlb.settings t)) = Ok p /\
       forall v' p', Tlb.phist_get t' v' p' =
         if decide (v = v' /\ p = p') then
           (if default 0 (Tlb.llt_hits t !! (page * 4096)) =? 0 then u64 (counter_at_miss t a v p + 1) else 0)
         else counter_at_miss t a v' p').
Proof.
  intros Hwf Hg Ha Hpages Hdp Hllt Hmiss Halive. unfold Tlb.allocate.
  destruct (predict_alive n t g a) as (t1 & -> & Hwf1 & (Hs1 & Hz1 & _) & Hc1 & Hhits & Hpcs & Hget); [done..|].
  cbn [rbind]. set (t2 := Tlb.incr_alloc t1).
  destruct (tlb_insert n t2 a) as (o & c' & -> & Hwf3 & Hins & _);
    [destruct Hwf1; split; done|done|cbn; by rewrite Hc1|]. cbn [rbind].
  change (Tlb.m_cache t2) with (Tlb.m_cache t1) in Hins. rewrite Hc1 in Hins. destruct Hins as (_ & Hev & Hlines).
  set (t3 := Tlb.set_cache c' t2).
  replace (Tlb.dppred (Tlb.settings t3)) with true by (cbn; by rewrite Hs1).
  replace (Tlb.in_llt t3) with true
    by (unfold Tlb.in_llt, Tlb.get_size in *; cbn; by rewrite Hz1, Hs1).
  assert (Hnew : Tlb.llt_hits t3 !! Tlb.vpn_of t a = Some 0 /\
    Tlb.pc_hist t3 !! Tlb.vpn_of t a = Some (Tlb.last_pc t)).
  { cbn. by rewrite Hhits, Hpcs, !lookup_insert_eq. }
  destruct (lo_eviction o); cbn [andb] in *.
  2:{ exists t3. split; [done|]. split; [apply Hnew|]. split; [apply Hnew|]. left. split; [done|]. exact Hget. }
  destruct Hev as (old & Hold & Htag & _ & _ & Hea).
  rewrite Htag in Hea. set (page := m_tag (lo_evict_block_info o)) in *.
  assert (Hpa : address (page * 4096)) by (apply Hpages; eauto).
  assert (Hq : lo_evict_addr o = page * 4096).
  { rewrite Hea. unfold tagToAddress. destruct (wf_base _ _ _ (tw_cache _ _ Hwf)) as ((k & Hk & Hbs & ->) & _).
    rewrite (tw_page _ _ Hwf) in Hbs. rewrite Z.shiftl_mul_pow2, <- Hbs by lia. by apply u64_small. }
  assert (Hne : Tlb.vpn_of t a <> page * 4096).
  { rewrite (vpn_of_value n) by done. intros E. assert (page = a / 4096).
    { pose proof (Z.div_mod a 4096). lia. } subst page. congruence. }
  destruct (updating_phist_counters n t3 (lo_evict_addr o) Hwf3) as (t4 & v & p & E4 & Hv & Hp & H4 & Hm4);
    [by rewrite Hq; apply Hpa|].
  rewrite E4. cbn [rbind]. exists t4. split; [done|].
  rewrite Hq, (vpn_of_page n t3) in Hv, Hp, H4 by done.
  split; [rewrite Hm4; apply Hnew|]. split; [rewrite Hm4; apply Hnew|].
  right. exists page, v, p. split; [by eexists|]. split; [rewrite Hm4; exact Hlines|].
  change (Tlb.pc_hist t3) with (Tlb.pc_hist t1) in Hp. rewrite Hpcs, lookup_insert_ne in Hp by done.
  change (Tlb.llt_hits t3) with (Tlb.llt_hits t1) in H4. rewrite Hhits, lookup_insert_ne in H4 by done.
  unfold Tlb.findHash in *. change (Tlb.settings t3) with (Tlb.settings t1) in Hv, Hp. rewrite Hs1 in Hv, Hp.
  split; [done|]. split; [done|]. intros v' p'. rewrite H4.
  change (Tlb.phist_get t3) with (Tlb.phist_get t1). by rewrite !Hget.
Qed.

(** C36: learning: in a last-level TLB with dpPred, after any accesses since it
    was built, a miss of a page that is not predicted dead brings the page in
    with no hits counted and the program counter recorded.  Either no page
    leaves and every counter stays, or exactly one page leaves: the counter of
    the hashes of that page and of the program counter recorded for it grows
    by one when no hit of the page was counted, is reset when one was, and
    every other counter stays.  (When the missing page is in the shadow table,
    the counters of its column start from 0, as the miss clears them.) *)
Theorem eviction_trains_counter st uninit entries ways t0 accs t g a :
  settings_ok st -> 0 <= uninit -> 0 < ways <= 256 -> 0 < entries < 2 ^ 32 ->
  Bits.isPower2 (entries / ways) = true -> entries / ways * ways = entries ->
  Tlb.dppred st = true -> Tlb.llt_size st = entries ->
  Tlb.create_tlb st uninit entries ways = Ok t0 ->
  Forall (fun x => address (fst x)) accs -> run_lookups accs [t0] (Tlb.mkShared [] 0) = Ok ([t], g) ->
  address a -> line_of (Tlb.m_cache t) (a / 4096) = None -> predicted_dead t a = false ->
  exists t', Tlb.lookup a false true [t] g = Ok (false, [t'], g) /\
    Tlb.llt_hits t' !! Tlb.vpn_of t a = Some 0 /\ Tlb.pc_hist t' !! Tlb.vpn_of t a = Some (Tlb.last_pc t) /\
    ((forall tag, tag <> a / 4096 -> line_of (Tlb.m_cache t') tag = line_of (Tlb.m_cache t) tag) /\
     (forall v p, Tlb.phist_get t' v p = counter_at_miss t a v p) \/
     exists page v p,
       is_Some (line_of (Tlb.m_cache t) page) /\
       (forall tag, tag <> a / 4096 -> line_of (Tlb.m_cache t') tag =
          if page =? tag then None else line_of (Tlb.m_cache t) tag) /\
       Tlb.findHash t (page * 4096) (Tlb.vpn_bits st) = Ok v /\
       Tlb.findHash t (default 0 (Tlb.pc_hist t !! (page * 4096))) (Tlb.pc_bits st) = Ok p /\
       forall v' p', Tlb.phist_get t' v' p' =
         if decide (v = v' /\ p = p') then
           (if default 0 (Tlb.llt_hits t !! (page * 4096)) =? 0 then u64 (counter_at_miss t a v p + 1) else 0)
         else counter_at_miss t a v' p').
Proof.
  intros Hst Hu Hw He Hp Hm Hdp Hllt Hc Haccs Hrun Ha Hmiss Halive.
  eapply run_llt in Hrun as ((Hwf & Hs & Hin & Hpages) & Hg);
    [|by eapply create_llt|unfold pfq_wf; cbn; pose proof (so_pfq _ Hst); lia|done].
  pose proof (lookup_last (Z.to_nat ways) a false t g Hwf Ha) as H. rewrite Hmiss in H.
  destruct H as (t1 & Hwf1 & Hseen & ->). pose proof (fun v p => counter_at_miss_seen t t1 a v p Hseen) as Hcnt.
  destruct (predicted_dead_seen t t1 a Hseen) as [Hd1 Hv1].
  destruct Hseen as (Hs1 & Hz1 & _ & _ & Hh1 & Hp1 & _ & Hpc1 & Hl1).
  destruct (allocate_learns (Z.to_nat ways) t1 g a) as (t' & -> & Hhit & Hpch & Hcase);
    [done|by rewrite Hs1, Hs|done|intros tag; rewrite Hl1; apply Hpages|by rewrite Hs1, Hs| |by rewrite Hl1|by rewrite Hd1|].
  { unfold Tlb.in_llt, Tlb.get_size in *. by rewrite Hz1, Hs1. }
  exists t'. split; [done|]. rewrite Hv1, Hpc1 in *. split; [done|]. split; [done|].
  destruct Hcase as [[Hl Hcn]|(page & v & p & Hpg & Hl & Hvh & Hph & Hcn)].
  - left. split; [intros tag Ht; by rewrite Hl, Hl1|]. intros v p. by rewrite Hcn, Hcnt.
  - right. exists page, v, p. unfold Tlb.findHash in *. rewrite Hl1 in Hpg. rewrite Hs1, Hp1 in *. rewrite Hs in *.
    split; [done|]. split; [intros tag Ht; by rewrite Hl, Hl1|]. split; [done|]. split; [done|].
    intros v' p'. by rewrite Hcn, !Hcnt, Hh1.
Qed.

Lemma lookup_last_pc q a chain g hit chain' g' :
  Forall (tlb_ok q) chain -> pfq_wf q g -> address a ->
  Tlb.lookup a false true chain g = Ok (hit, chain', g') ->
  map Tlb.last_pc chain' = map Tlb.last_pc chain.
Proof.
  intros Hok Hg Ha. revert g hit chain' g' Hok Hg.
  induction chain as [|t rest IH]; intros g hit chain' g' Hok Hg H; [discriminate|].
  pose proof Hok as Hok'. apply Forall_cons in Hok as [[[n Hwf] Hq] Hrest]. cbn [Tlb.lookup] in H.
  destruct (tlb_access n t a Hwf Ha) as (r & c' & E & Hr & Hwf1 & Hl). rewrite E in H. cbn [rbind] in H.
  destruct r as [[i b]|]; [inv_ok; by destruct (Tlb.in_llt _)|].
  apply rbind_Ok_inv in H as ([[hit1 rest1] g1] & Hnext & H). inv_ok. cbn [map]. f_equal.
  - match goal with Hx : Tlb.allocate _ _ _ = _ |- _ => rename Hx into Halloc end.
    set (t1 := Tlb.incr_miss _) in Halloc.
    assert (Hwf2 : tlb_wf n t1) by (destruct Hwf1; split; done).
    assert (Hg1 : pfq_wf (Tlb.pfq_size (Tlb.settings t1)) g1).
    { change (Tlb.settings t1) with (Tlb.settings t). rewrite Hq. destruct rest as [|r0 rs]; [by inv_ok|].
      destruct (lookup_total q a false true (r0 :: rs)
        (Tlb.mkShared (Tlb.pfq g) (Tlb.elapsed g + Tlb.L1_TLB_TIME))) as (? & ? & ? & E1 & _ & Hg1 & _);
        [done..|]. rewrite E1 in Hnext. by inv_ok. }
    destruct (allocate_spec n t1 g1 a Hwf2 Hg1 Ha) as (t' & g'' & E2 & _ & _ & (_ & _ & Hpc) & _);
      [cbn; rewrite Hl; by symmetry|]. rewrite E2 in Halloc. by inv_ok.
  - destruct rest as [|r0 rs]; [by inv_ok|]. by eapply IH in Hnext.
Qed.

(** The program counter never reaches the last-level TLB: a lookup passes
    [isIfetch = false] to the next level, so the [last_pc] the predictor hashes
    there keeps the value the constructor left uninitialised. *)
Theorem next_level_pc_never_set q n a ifetch t rest g hit t' rest' g' :
  tlb_wf n t -> Tlb.pfq_size (Tlb.settings t) = q -> Forall (tlb_ok q) rest -> pfq_wf q g -> address a ->
  Tlb.lookup a ifetch true (t :: rest) g = Ok (hit, t' :: rest', g') ->
  map Tlb.last_pc rest' = map Tlb.last_pc rest.
Proof.
  intros Hwf Hq Hrest Hg Ha H.
  destruct (lookup_head q n a ifetch t rest g Hwf Hq Hrest Hg Ha)
    as (hit1 & t1 & rest1 & g1 & E & _ & _ & _ & _ & _ & _ & Hcase).
  rewrite E in H. apply Ok_inj in H. simplify_eq. case_bool_decide.
  - by destruct Hcase as (_ & -> & _).
  - destruct Hcase as (t2 & g2 & [(-> & -> & _)|(r0 & rs & -> & Hnext)] & _); [done|].
    by eapply lookup_last_pc in Hnext.
Qed.

(** * A small last-level TLB: eight entries in two sets *)
Definition small_settings : Tlb.Settings :=
  Tlb.mkSettings true 8 6 8 2 6 4 32 0xfffffffffffff000 17.

Lemma small_settings_ok : settings_ok small_settings.
Proof. split; cbn; lia || reflexivity. Qed.

Definition dummy_tlb : Tlb.TLB :=
  Tlb.mk small_settings 0 (mkCache (mkBase 0 0 0 HASH_MASK 0 None 0 0) false 0 0 PR_L1_CACHE [] (mkEnv None 0) None)
    0 0 0 0 ∅ ∅ ∅ [] 0.

Definition small_tlb (entries ways : Z) : Tlb.TLB :=
  match Tlb.create_tlb small_settings 0 entries ways with Ok t => t | Err _ => dummy_tlb end.

Lemma small_tlb_create entries ways :
  0 < ways <= 256 -> 0 < entries < 2 ^ 32 -> Bits.isPower2 (entries / ways) = true ->
  entries / ways * ways = entries ->
  Tlb.create_tlb small_settings 0 entries ways = Ok (small_tlb entries ways).
Proof.
  intros Hw He Hp Hm. unfold small_tlb.
  destruct (create_tlb_ok small_settings 0 entries ways) as (t & ->); [exact small_settings_ok|lia|done..].
Qed.

Lemma small_tlb_wf entries ways :
  0 < ways <= 256 -> 0 < entries < 2 ^ 32 -> Bits.isPower2 (entries / ways) = true ->
  entries / ways * ways = entries ->
  tlb_wf (Z.to_nat ways) (small_tlb entries ways).
Proof.
  intros Hw He Hp Hm. eapply create_tlb_wf; [exact small_settings_ok| |exact Hw|exact He|exact Hp|exact Hm|];
    [|by apply small_tlb_create]. lia.
Qed.

Lemma set_phist_wf n m t : tlb_wf n t -> tlb_wf n (Tlb.set_phist m t).
Proof. intros []. by split. Qed.

Lemma set_shadow_wf n l t :
  tlb_wf n t -> Z.of_nat (length l) <= Tlb.shadow_table_size (Tlb.settings t) ->
  tlb_wf n (Tlb.set_shadow l t).
Proof. intros [] Hl. by split. Qed.

(** Page 0x5000 has been evicted unused seven times, and page 0x6000 has just
    been bypassed. *)
Definition trained_tlb : Tlb.TLB := Tlb.phist_set 5 0 7 (small_tlb 8 4).
Definition shadowed_tlb : Tlb.TLB := Tlb.set_shadow [0x6000] (small_tlb 8 4).

Lemma small_llt_wf : tlb_wf 4 (small_tlb 8 4).
Proof. apply (small_tlb_wf 8 4); [lia|lia|reflexivity|reflexivity]. Qed.

Lemma trained_tlb_wf : tlb_wf 4 trained_tlb.
Proof. apply set_phist_wf, small_llt_wf. Qed.

Lemma shadowed_tlb_wf : tlb_wf 4 shadowed_tlb.
Proof. apply set_shadow_wf; [apply small_llt_wf|]. vm_compute. discriminate. Qed.

Lemma page_address : address 0x5000 /\ address 0x5abc /\ address 0x6000.
Proof. repeat split; lia || reflexivity. Qed.

Lemma tlb_runs_safely_witness :
  exists chain g, run_lookups [(0x5000, true); (0x9000, false)] [small_tlb 4 2; small_tlb 8 4]
      (Tlb.mkShared [] 0) = Ok (chain, g) /\
    Z.of_nat (length (Tlb.pfq g)) <= Tlb.pfq_size small_settings /\
    Forall (fun t => Z.of_nat (length (Tlb.shadow_table t)) <= Tlb.shadow_table_size (Tlb.settings t)) chain.
Proof.
  apply (tlb_runs_safely small_settings 0 0 4 2 8 4 (small_tlb 4 2) (small_tlb 8 4));
    try exact small_settings_ok; try lia; try reflexivity; try (apply small_tlb_create; lia || reflexivity).
  repeat constructor; cbn; lia.
Defined.

(** The outcome of one lookup, in normal form. *)
Definition first_lookup : result (bool * list Tlb.TLB * Tlb.Shared) :=
  Tlb.lookup 0x5000 true true [small_tlb 4 2; small_tlb 8 4] (Tlb.mkShared [] 0).
Definition first_hit : bool := match first_lookup with Ok (h, _, _) => h | Err _ => true end.
Definition first_chain : list Tlb.TLB := match first_lookup with Ok (_, c, _) => c | Err _ => [] end.
Definition first_shared : Tlb.Shared :=
  match first_lookup with Ok (_, _, g) => g | Err _ => Tlb.mkShared [] 0 end.

Lemma small_chain_ok : Forall (tlb_ok 8) [small_tlb 4 2; small_tlb 8 4].
Proof.
  repeat constructor; [exists 2%nat; apply (small_tlb_wf 4 2); [lia|lia|reflexivity|reflexivity]|].
  exists 4%nat. apply small_llt_wf.
Qed.

Lemma misses_are_allocated_or_bypassed_witness :
  Forall (fun t => Tlb.m_miss t = u64 (Tlb.m_alloc t + Tlb.m_bypass t)) first_chain.
Proof.
  apply (misses_are_allocated_or_bypassed 8 0x5000 true [small_tlb 4 2; small_tlb 8 4] (Tlb.mkShared [] 0)
           first_hit first_chain first_shared).
  - apply small_chain_ok.
  - vm_compute. discriminate.
  - apply page_address.
  - repeat constructor.
  - vm_compute. reflexivity.
Defined.

Lemma l1_tlb_hits_after_lookup_witness :
  exists hit t1 rest1 g1, Tlb.lookup 0x5000 true true [small_tlb 4 2] (Tlb.mkShared [] 0)
      = Ok (hit, t1 :: rest1, g1) /\
    exists t2, Tlb.lookup 0x5abc false true (t1 :: rest1) g1 = Ok (true, t2 :: rest1, g1).
Proof.
  apply (l1_tlb_hits_after_lookup 8 2).
  - apply (small_tlb_wf 4 2); [lia|lia|reflexivity|reflexivity].
  - reflexivity.
  - constructor.
  - vm_compute. discriminate.
  - apply page_address.
  - apply page_address.
  - reflexivity.
  - reflexivity.
Defined.

Lemma shadow_hit_is_allocated_witness :
  exists t', Tlb.allocate 0x6000 shadowed_tlb (Tlb.mkShared [] 0) = Ok (t', Tlb.mkShared [] 0) /\
    is_Some (line_of (Tlb.m_cache t') (0x6000 / 4096)) /\
    Tlb.m_alloc t' = u64 (Tlb.m_alloc shadowed_tlb + 1) /\ Tlb.m_bypass t' = Tlb.m_bypass shadowed_tlb.
Proof.
  apply (shadow_hit_is_allocated 4).
  - apply shadowed_tlb_wf.
  - vm_compute. discriminate.
  - apply page_address.
  - vm_compute. reflexivity.
  - apply shadow_search_elem. vm_compute. reflexivity.
Defined.

Lemma bypass_iff_predicted_dead_witness :
  exists t' g', Tlb.allocate 0x5000 trained_tlb (Tlb.mkShared [] 0) = Ok (t', g') /\
    (predicted_dead trained_tlb 0x5000 = true <-> line_of (Tlb.m_cache t') (0x5000 / 4096) = None) /\
    (predicted_dead trained_tlb 0x5000 = true ->
       Tlb.m_cache t' = Tlb.m_cache trained_tlb /\ Tlb.m_bypass t' = u64 (Tlb.m_bypass trained_tlb + 1) /\
       Tlb.vpn_of trained_tlb 0x5000 ∈ Tlb.shadow_table t' /\ Z.shiftr 0x5000 17 ∈ Tlb.pfq g').
Proof.
  apply (bypass_iff_predicted_dead 4).
  - apply trained_tlb_wf.
  - vm_compute. discriminate.
  - apply page_address.
  - vm_compute. reflexivity.
Defined.

Lemma no_consecutive_bypass_witness :
  exists t1 g1 t2 g2,
    Tlb.lookup 0x5000 false true [trained_tlb] (Tlb.mkShared [] 0) = Ok (false, [t1], g1) /\
    Tlb.m_bypass t1 = u64 (Tlb.m_bypass trained_tlb + 1) /\ line_of (Tlb.m_cache t1) (0x5000 / 4096) = None /\
    run_lookups [(0x6000, false)] [t1] g1 = Ok ([t2], g2) /\
    (Z.of_nat 1 < Tlb.shadow_table_size (Tlb.settings trained_tlb) ->
     Tlb.vpn_of trained_tlb 0x5000 ∈ Tlb.shadow_table t2) /\
    (Tlb.vpn_of trained_tlb 0x5000 ∈ Tlb.shadow_table t2 ->
     exists hit t3 g3, Tlb.lookup 0x5000 false true [t2] g2 = Ok (hit, [t3], g3) /\
       is_Some (line_of (Tlb.m_cache t3) (0x5000 / 4096)) /\ Tlb.m_bypass t3 = Tlb.m_bypass t2).
Proof.
  apply (no_consecutive_bypass 4 trained_tlb (Tlb.mkShared [] 0) 0x5000 [(0x6000, false)] false).
  - apply trained_tlb_wf.
  - vm_compute. discriminate.
  - apply page_address.
  - constructor; [apply page_address|constructor].
  - vm_compute. reflexivity.
  - vm_compute. reflexivity.
Defined.

(** Four pages fill one set; one of them is used again. *)
Definition filling : list (Z * bool) :=
  [(0x1000, false); (0x3000, false); (0x5000, false); (0x7000, false); (0x3abc, false)].
Definition full_run : result (list Tlb.TLB * Tlb.Shared) := run_lookups filling [small_tlb 8 4] (Tlb.mkShared [] 0).
Definition full_llt : Tlb.TLB := match full_run with Ok ([t], _) => t | _ => dummy_tlb end.
Definition full_shared : Tlb.Shared := match full_run with Ok (_, g) => g | Err _ => Tlb.mkShared [] 0 end.

Lemma eviction_trains_counter_witness :
  exists t', Tlb.lookup 0x9000 false true [full_llt] full_shared = Ok (false, [t'], full_shared) /\
    Tlb.llt_hits t' !! Tlb.vpn_of full_llt 0x9000 = Some 0 /\
    Tlb.pc_hist t' !! Tlb.vpn_of full_llt 0x9000 = Some (Tlb.last_pc full_llt) /\
    ((forall tag, tag <> 0x9000 / 4096 ->
        line_of (Tlb.m_cache t') tag = line_of (Tlb.m_cache full_llt) tag) /\
     (forall v p, Tlb.phist_get t' v p = counter_at_miss full_llt 0x9000 v p) \/
     exists page v p,
       is_Some (line_of (Tlb.m_cache full_llt) page) /\
       (forall tag, tag <> 0x9000 / 4096 -> line_of (Tlb.m_cache t') tag =
          if page =? tag then None else line_of (Tlb.m_cache full_llt) tag) /\
       Tlb.findHash full_llt (page * 4096) (Tlb.vpn_bits small_settings) = Ok v /\
       Tlb.findHash full_llt (default 0 (Tlb.pc_hist full_llt !! (page * 4096))) (Tlb.pc_bits small_settings) = Ok p /\
       forall v' p', Tlb.phist_get t' v' p' =
         if decide (v = v' /\ p = p') then
           (if default 0 (Tlb.llt_hits full_llt !! (page * 4096)) =? 0
            then u64 (counter_at_miss full_llt 0x9000 v p + 1) else 0)
         else counter_at_miss full_llt 0x9000 v' p').
Proof.
  apply (eviction_trains_counter small_settings 0 8 4 (small_tlb 8 4) filling full_llt full_shared 0x9000).
  - exact small_settings_ok.
  - lia.
  - lia.
  - lia.
  - reflexivity.
  - reflexivity.
  - reflexivity.
  - reflexivity.
  - apply small_tlb_create; lia || reflexivity.
  - repeat constructor; cbn; lia.
  - vm_compute. reflexivity.
  - split; lia || reflexivity.
  - vm_compute. reflexivity.
  - vm_compute. reflexivity.
Defined.

(** There the first of the four pages leaves, and its counter is 1. *)
Example eviction_example :
  exists t', Tlb.lookup 0x9000 false true [full_llt] full_shared = Ok (false, [t'], full_shared) /\
    line_of (Tlb.m_cache full_llt) 1 <> None /\ line_of (Tlb.m_cache t') 1 = None /\ Tlb.phist_get t' 1 0 = 1.
Proof. eexists. split; [vm_compute; reflexivity|]. vm_compute. done. Qed.

Lemma next_level_pc_never_set_witness :
  map Tlb.last_pc (tl first_chain) = map Tlb.last_pc [small_tlb 8 4].
Proof.
  apply (next_level_pc_never_set 8 2 0x5000 true (small_tlb 4 2) [small_tlb 8 4] (Tlb.mkShared [] 0)
           first_hit (hd dummy_tlb first_chain) (tl first_chain) first_shared).
  - apply (small_tlb_wf 4 2); [lia|lia|reflexivity|reflexivity].
  - reflexivity.
  - repeat constructor. exists 4%nat. apply small_llt_wf.
  - vm_compute. discriminate.
  - apply page_address.
  - vm_compute. reflexivity.
Defined.
