(* ===== verification/SwLlc.v ===== *)
(** cbPred, the dead-block predictor: the software model of the last-level
    cache inside CacheCntlr
    (common/core/memory_subsystem/parametric_dram_directory_msi/cache_cntlr.cc,
    capCounters to accessLLCSw), and its link with dpPred through the queue of
    recently bypassed pages. *)
From stdpp Require Import base numbers list gmap strings.
From Stdlib Require Import ZArith Lia Bool.
From S2P Require Import Prelude Utils CacheBlock CacheBase Replacement PolicyLru CacheSet Cache Tlb.
Open Scope Z_scope.

Module SwLlc.

Definition LLC_SETS : Z := 2048.
Definition LLC_ASSOCIATIVITY : nat := 16.
Definition MAX_COUNTER_VAL : Z := 16.

(** Members of CacheCntlr the configuration and the class definition fix. *)
Record Settings := mkSettings {
  cbpred : bool;
  bhist_thd : Z;
  block_bits : Z;
  index_size : Z;
  sw_page_bitshift : Z
}.

Definition default_settings : Settings := mkSettings true 6 12 32 17.

(** The static members and the global counters.  [llc[set][i]] is the cell
    [set * LLC_ASSOCIATIVITY + i] of one array, as the compiler lays it out; of
    the pairs of [bhist] only [.second] is used. *)
Record State := mk {
  llc : list Z;
  alloc_blocks : list Z;
  bhist : gmap Z Z;
  llc_hits : gmap Z Z;
  llcAcc : Z;
  llcMiss : Z;
  llcBypass : Z
}.

Definition initial : State :=
  mk (replicate (Z.to_nat LLC_SETS * LLC_ASSOCIATIVITY) 0) (replicate (Z.to_nat LLC_SETS) 0)
    ∅ ∅ 0 0 0.

Definition cell (set i : nat) : nat := (set * LLC_ASSOCIATIVITY + i)%nat.

Definition set_llc (l : list Z) (s : State) : State :=
  mk l (alloc_blocks s) (bhist s) (llc_hits s) (llcAcc s) (llcMiss s) (llcBypass s).
Definition set_alloc (l : list Z) (s : State) : State :=
  mk (llc s) l (bhist s) (llc_hits s) (llcAcc s) (llcMiss s) (llcBypass s).
Definition set_bhist (m : gmap Z Z) (s : State) : State :=
  mk (llc s) (alloc_blocks s) m (llc_hits s) (llcAcc s) (llcMiss s) (llcBypass s).
Definition set_hits (m : gmap Z Z) (s : State) : State :=
  mk (llc s) (alloc_blocks s) (bhist s) m (llcAcc s) (llcMiss s) (llcBypass s).
Definition set_stats (acc miss bypass : Z) (s : State) : State :=
  mk (llc s) (alloc_blocks s) (bhist s) (llc_hits s) acc miss bypass.

(** [bhist[h].second] *)
Definition bget (s : State) (h : Z) : Z := default 0 (bhist s !! h).

(** [void capCounters(IntPtr block_hash)] *)
Definition capCounters (block_hash : Z) (s : State) : State :=
  if bget s block_hash >? MAX_COUNTER_VAL
  then set_bhist (<[block_hash := MAX_COUNTER_VAL]> (bhist s)) s else s.

(** [void updateCounters(uint64_t evict_tag)] *)
Definition updateCounters (st : Settings) (evict_tag : Z) (s : State) : result State :=
  match llc_hits s !! evict_tag with
  | None => Ok s
  | Some hits =>
      let! block_hash := PageHash.findHash (index_size st) evict_tag (block_bits st) in
      if hits =? 0 then
        let s := set_bhist (<[block_hash := u64 (bget s block_hash + 1)]> (bhist s)) s in
        Ok (capCounters block_hash s)
      else Ok (set_bhist (<[block_hash := 0]> (bhist s)) s)
  end.

(** [bool recentPFNContains(IntPtr tag)] on the queue TLB::pfq *)
Definition recentPFNContains (pfq : list Z) (tag : Z) : bool := existsb (fun x => x =? tag) pfq.

(** [bool shouldBypassLLC(uint64_t tag)] *)
Definition shouldBypassLLC (st : Settings) (pfq : list Z) (tag : Z) (s : State) : result bool :=
  if recentPFNContains pfq tag then
    let! h := PageHash.findHash (index_size st) tag (block_bits st) in
    Ok (bget s h >? bhist_thd st)
  else Ok false.

(** [for (int i = pivotIndex; i >= 1; i--) llc[set][i] = llc[set][i - 1];] *)
Fixpoint shift_loop (i : nat) (set : nat) (l : list Z) : result (list Z) :=
  match i with
  | O => Ok l
  | S i' =>
      let! x := aget l (cell set i') in
      let! l := aset l (cell set (S i')) x in
      shift_loop i' set l
  end.

(** [void updateLLCSw(uint64_t latestTag, uint64_t pivotIndex, uint64_t set)] *)
Definition updateLLCSw (pfq : list Z) (latestTag : Z) (pivotIndex : nat) (set : nat) (s : State)
  : result State :=
  let! l := shift_loop pivotIndex set (llc s) in
  let! l := aset l (cell set 0) latestTag in
  let s := set_llc l s in
  Ok (if recentPFNContains pfq latestTag
      then set_hits (<[latestTag := 0]> (llc_hits s)) s else s).

(** [void handleFullSetMiss(uint64_t tag, uint64_t set)] *)
Definition handleFullSetMiss (st : Settings) (pfq : list Z) (tag : Z) (set : nat) (s : State)
  : result State :=
  let! bypass := shouldBypassLLC st pfq tag s in
  if bypass : bool then Ok (set_stats (llcAcc s) (llcMiss s) (u64 (llcBypass s + 1)) s)
  else
    let! evict_tag := aget (llc s) (cell set (LLC_ASSOCIATIVITY - 1)) in
    let! s := updateCounters st evict_tag s in
    updateLLCSw pfq tag LLC_ASSOCIATIVITY set s.

(** [void insertIntoPartialSet(uint64_t tag, uint64_t set)] *)
Definition insertIntoPartialSet (pfq : list Z) (tag : Z) (set : nat) (s : State) : result State :=
  let! insert_pos := aget (alloc_blocks s) set in
  let! l := aset (alloc_blocks s) set (u64 (insert_pos + 1)) in
  updateLLCSw pfq tag (Z.to_nat insert_pos) set (set_alloc l s).

(** [void handleLLCMiss(uint64_t tag, uint64_t set)] *)
Definition handleLLCMiss (st : Settings) (pfq : list Z) (tag : Z) (set : nat) (s : State)
  : result State :=
  let s := set_stats (llcAcc s) (u64 (llcMiss s + 1)) (llcBypass s) s in
  let! n := aget (alloc_blocks s) set in
  if n <? Z.of_nat LLC_ASSOCIATIVITY then insertIntoPartialSet pfq tag set s
  else if n =? Z.of_nat LLC_ASSOCIATIVITY then handleFullSetMiss st pfq tag set s
  else Ok s.

(** [void handleLLCHit(uint64_t tag, int pivotIndex, uint64_t set)] *)
Definition handleLLCHit (pfq : list Z) (tag : Z) (pivotIndex : nat) (set : nat) (s : State)
  : result State := updateLLCSw pfq tag pivotIndex set s.

(** The loop of [findTagInSet] from position [i], for [k] more positions. *)
Fixpoint find_loop (k i set : nat) (tag : Z) (l : list Z) : result (option nat) :=
  match k with
  | O => Ok None
  | S k' =>
      let! x := aget l (cell set i) in
      if x =? tag then Ok (Some i) else find_loop k' (S i) set tag l
  end.

(** [int findTagInSet(uint64_t set, uint64_t tag)]; [None] is -1. *)
Definition findTagInSet (set : nat) (tag : Z) (s : State) : result (option nat * State) :=
  let! n := aget (alloc_blocks s) set in
  let! r := find_loop (Z.to_nat n) 0 set tag (llc s) in
  match r with
  | Some i =>
      Ok (Some i,
          match llc_hits s !! tag with
          | Some h => set_hits (<[tag := u64 (h + 1)]> (llc_hits s)) s
          | None => s
          end)
  | None => Ok (None, s)
  end.

(** [uint64_t getTagSw(IntPtr address)] and [getSetSw]. *)
Definition getTagSw (st : Settings) (address : Z) : Z := Z.shiftr address (sw_page_bitshift st).
Definition getSetSw (address : Z) : Z := Z.shiftr address 6 mod LLC_SETS.

(** [void accessLLCSw(IntPtr address)] *)
Definition accessLLCSw (st : Settings) (pfq : list Z) (address : Z) (s : State) : result State :=
  let s := set_stats (u64 (llcAcc s + 1)) (llcMiss s) (llcBypass s) s in
  let set := Z.to_nat (getSetSw address) in
  let tag := getTagSw st address in
  let! (pivotIndex, s) := findTagInSet set tag s in
  match pivotIndex with
  | Some i => handleLLCHit pfq tag i set s
  | None => handleLLCMiss st pfq tag set s
  end.

(** The call in processShmemReqFromPrevCache: [m_mem_component == 5] is the
    last-level cache. *)
Definition on_llc_request (st : Settings) (pfq : list Z) (mem_component : Z) (onCacheMiss : bool)
    (address : Z) (s : State) : result State :=
  if cbpred st && (mem_component =? 5) && onCacheMiss then accessLLCSw st pfq address s else Ok s.

End SwLlc.

(** * Shifting a row *)
Definition shifted (l : list Z) (b p : nat) (tag : Z) : list Z :=
  take b l ++ tag :: take p (drop b l) ++ drop (b + p + 1) l.

Lemma lookup_shifted l b p tag j :
  (b + p < length l)%nat ->
  shifted l b p tag !! j =
  if decide (j = b) then Some tag
  else if decide (b < j <= b + p)%nat then l !! (j - 1)%nat else l !! j.
Proof.
  intros Hlen. unfold shifted. destruct (decide (j < b)%nat) as [Hj|Hj].
  { rewrite lookup_app_l, lookup_take_lt by (rewrite ?length_take; lia).
    by rewrite !decide_False by lia. }
  rewrite lookup_app_r by (rewrite length_take; lia). rewrite length_take, Nat.min_l by lia.
  destruct (decide (j = b)) as [->|Hne]; [by rewrite Nat.sub_diag|].
  rewrite lookup_cons_ne_0 by lia.
  case_decide as Hin.
  - rewrite lookup_app_l by (rewrite length_take, length_drop; lia).
    rewrite lookup_take_lt, lookup_drop by lia. f_equal. lia.
  - rewrite lookup_app_r by (rewrite length_take, length_drop; lia).
    rewrite length_take, length_drop, Nat.min_l, lookup_drop by lia. f_equal. lia.
Qed.

Lemma length_shifted l b p tag : (b + p < length l)%nat -> length (shifted l b p tag) = length l.
Proof.
  intros Hlen. unfold shifted. rewrite length_app. cbn.
  rewrite length_app, !length_take, !length_drop. lia.
Qed.

Lemma shift_loop_lookup p set l :
  (SwLlc.cell set p < length l)%nat ->
  exists l', SwLlc.shift_loop p set l = Ok l' /\ length l' = length l /\
    forall j, l' !! j = if decide (SwLlc.cell set 0 < j <= SwLlc.cell set p)%nat
                        then l !! (j - 1)%nat else l !! j.
Proof.
  unfold SwLlc.cell. revert l. induction p as [|p IH]; intros l Hlen; cbn [SwLlc.shift_loop].
  - exists l. split; [done|]. split; [done|]. intros j. by rewrite decide_False by lia.
  - destruct (lookup_lt_is_Some_2 l (SwLlc.cell set p)) as [x Hx]; [unfold SwLlc.cell; lia|].
    rewrite (aget_Ok _ _ _ Hx). cbn [rbind]. rewrite aset_Ok by (unfold SwLlc.cell; lia). cbn [rbind].
    destruct (IH (<[SwLlc.cell set (S p) := x]> l)) as (l' & -> & Hl' & Hlk); [rewrite length_insert; lia|].
    exists l'. split; [done|]. rewrite length_insert in Hl'. split; [done|].
    unfold SwLlc.cell in *. intros j. rewrite Hlk.
    destruct (decide (j = set * SwLlc.LLC_ASSOCIATIVITY + S p)%nat) as [->|Hj].
    + rewrite decide_False by lia. rewrite lookup_insert_in, decide_True, decide_True by lia.
      rewrite <- Hx. f_equal. lia.
    + rewrite !lookup_insert_in by lia. repeat case_decide; try lia; try done.
Qed.

(** [updateLLCSw] shifts [pivotIndex] cells up from the start of the row. *)
Lemma updateLLCSw_spec pfq tag p set s :
  (SwLlc.cell set p < length (SwLlc.llc s))%nat ->
  exists s', SwLlc.updateLLCSw pfq tag p set s = Ok s' /\
    SwLlc.llc s' = shifted (SwLlc.llc s) (SwLlc.cell set 0) p tag /\
    SwLlc.alloc_blocks s' = SwLlc.alloc_blocks s /\ SwLlc.bhist s' = SwLlc.bhist s /\
    SwLlc.llc_hits s' = (if SwLlc.recentPFNContains pfq tag
                         then <[tag := 0]> (SwLlc.llc_hits s) else SwLlc.llc_hits s) /\
    SwLlc.llcAcc s' = SwLlc.llcAcc s /\ SwLlc.llcMiss s' = SwLlc.llcMiss s /\
    SwLlc.llcBypass s' = SwLlc.llcBypass s.
Proof.
  intros Hlen. unfold SwLlc.updateLLCSw.
  destruct (shift_loop_lookup p set (SwLlc.llc s) Hlen) as (l' & -> & Hl' & Hlk). cbn [rbind].
  assert (Hb : (SwLlc.cell set 0 + p < length (SwLlc.llc s))%nat) by (unfold SwLlc.cell in *; lia).
  rewrite aset_Ok by lia. cbn [rbind]. eexists. split; [done|].
  assert (Heq : <[SwLlc.cell set 0 := tag]> l' = shifted (SwLlc.llc s) (SwLlc.cell set 0) p tag).
  { apply list_eq. intros j. rewrite lookup_insert_in by lia. rewrite lookup_shifted by done.
    rewrite Hlk. unfold SwLlc.cell in *. repeat case_decide; try lia; done. }
  rewrite Heq. by destruct (SwLlc.recentPFNContains pfq tag).
Qed.

(** * Recency stacks *)

(** The live tags of a set, most recently used first. *)
Definition stack (s : SwLlc.State) (set : nat) : list Z :=
  take (Z.to_nat (default 0 (SwLlc.alloc_blocks s !! set))) (drop (SwLlc.cell set 0) (SwLlc.llc s)).

Definition sets : nat := Z.to_nat SwLlc.LLC_SETS.

Record llc_wf (s : SwLlc.State) : Prop := mkLlcWf {
  lw_llc : length (SwLlc.llc s) = (sets * SwLlc.LLC_ASSOCIATIVITY)%nat;
  lw_len : length (SwLlc.alloc_blocks s) = sets;
  lw_alloc : Forall (fun n => 0 <= n <= 16) (SwLlc.alloc_blocks s);
  lw_bhist : map_Forall (fun _ c => 0 <= c <= SwLlc.MAX_COUNTER_VAL) (SwLlc.bhist s)
}.

Lemma initial_wf : llc_wf SwLlc.initial.
Proof.
  split; cbn [SwLlc.llc SwLlc.alloc_blocks SwLlc.bhist SwLlc.initial].
  - apply length_replicate.
  - apply length_replicate.
  - apply Forall_replicate. lia.
  - apply map_Forall_empty.
Qed.

Lemma alloc_lookup s set :
  llc_wf s -> (set < sets)%nat ->
  exists n, SwLlc.alloc_blocks s !! set = Some n /\ 0 <= n <= 16.
Proof.
  intros Hwf Hset. destruct (lookup_lt_is_Some_2 (SwLlc.alloc_blocks s) set) as [n Hn];
    [rewrite (lw_len _ Hwf); done|].
  exists n. split; [done|]. pose proof (lw_alloc _ Hwf) as Ha. by eapply Forall_lookup_1 in Ha.
Qed.

Lemma lookup_stack s set n i :
  SwLlc.alloc_blocks s !! set = Some n ->
  stack s set !! i = if decide (i < Z.to_nat n)%nat then SwLlc.llc s !! SwLlc.cell set i else None.
Proof.
  intros Hn. unfold stack. rewrite Hn. cbn [default from_option id]. case_decide.
  - rewrite lookup_take_lt, lookup_drop by done. f_equal. unfold SwLlc.cell. lia.
  - by rewrite lookup_take_ge by lia.
Qed.

Lemma length_stack s set n :
  llc_wf s -> (set < sets)%nat -> SwLlc.alloc_blocks s !! set = Some n ->
  length (stack s set) = Z.to_nat n.
Proof.
  intros Hwf Hset Hn. unfold stack. rewrite Hn. cbn [default from_option id].
  rewrite length_take, length_drop, (lw_llc _ Hwf).
  destruct (alloc_lookup s set Hwf Hset) as (m & Hm & Hr). rewrite Hn in Hm. injection Hm as <-.
  unfold SwLlc.cell, SwLlc.LLC_ASSOCIATIVITY in *. lia.
Qed.

(** The search finds the first live position that holds the tag. *)
Lemma find_loop_spec k i set tag l :
  (SwLlc.cell set (i + k) <= length l)%nat ->
  exists r, SwLlc.find_loop k i set tag l = Ok r /\
    match r with
    | Some j => (i <= j < i + k)%nat /\ l !! SwLlc.cell set j = Some tag
    | None => forall j, (i <= j < i + k)%nat -> l !! SwLlc.cell set j <> Some tag
    end.
Proof.
  revert i. induction k as [|k IH]; intros i Hlen; cbn [SwLlc.find_loop].
  { exists None. split; [done|]. lia. }
  destruct (lookup_lt_is_Some_2 l (SwLlc.cell set i)) as [x Hx]; [unfold SwLlc.cell in *; lia|].
  rewrite (aget_Ok _ _ _ Hx). cbn [rbind]. destruct (Z.eqb_spec x tag) as [->|Hne].
  - exists (Some i). split; [done|]. split; [lia|done].
  - destruct (IH (S i)) as (r & -> & Hr); [unfold SwLlc.cell in *; lia|]. exists r. split; [done|].
    destruct r as [j|]; [destruct Hr as [? ?]; split; [lia|done]|].
    intros j Hj. destruct (decide (j = i)) as [->|]; [congruence|]. apply Hr. lia.
Qed.

Lemma findTagInSet_spec s set tag :
  llc_wf s -> (set < sets)%nat ->
  exists r m, SwLlc.findTagInSet set tag s = Ok (r, SwLlc.set_hits m s) /\
    m = match r, SwLlc.llc_hits s !! tag with
        | Some _, Some h => <[tag := u64 (h + 1)]> (SwLlc.llc_hits s)
        | _, _ => SwLlc.llc_hits s
        end /\
    match r with
    | Some j => stack s set !! j = Some tag /\ (j < SwLlc.LLC_ASSOCIATIVITY)%nat
    | None => tag ∉ stack s set
    end.
Proof.
  intros Hwf Hset. destruct (alloc_lookup s set Hwf Hset) as (n & Hn & Hr).
  unfold SwLlc.findTagInSet. rewrite (aget_Ok _ _ _ Hn). cbn [rbind].
  destruct (find_loop_spec (Z.to_nat n) 0 set tag (SwLlc.llc s)) as (r & -> & Hspec).
  { rewrite (lw_llc _ Hwf). unfold SwLlc.cell, SwLlc.LLC_ASSOCIATIVITY. lia. }
  cbn [rbind]. destruct r as [j|].
  - destruct Hspec as [Hj Hl]. exists (Some j), (match SwLlc.llc_hits s !! tag with
      Some h => <[tag := u64 (h + 1)]> (SwLlc.llc_hits s) | None => SwLlc.llc_hits s end).
    split; [|split; [done|]].
    + destruct (SwLlc.llc_hits s !! tag); [done|]. by destruct s.
    + rewrite (lookup_stack s set n j Hn), decide_True by lia. split; [done|].
      unfold SwLlc.LLC_ASSOCIATIVITY. lia.
  - exists None, (SwLlc.llc_hits s). split; [by destruct s|]. split; [done|].
    intros [i Hi]%list_elem_of_lookup_1. rewrite (lookup_stack s set n i Hn) in Hi.
    case_decide; [|done]. apply (Hspec i); [lia|done].
Qed.

(** ** Effect of a shift on the stacks *)

(** Case analysis on which cell of which row an index is. *)
Ltac cells := unfold SwLlc.cell, SwLlc.LLC_ASSOCIATIVITY in *;
  repeat case_decide; try lia; try done; f_equal; lia.

Section shift.
Context (s s' : SwLlc.State) (set p : nat) (tag n n' : Z).
Context (Hwf : llc_wf s) (Hset : (set < sets)%nat).
Context (Hn : SwLlc.alloc_blocks s !! set = Some n).
Context (Hllc : SwLlc.llc s' = shifted (SwLlc.llc s) (SwLlc.cell set 0) p tag).
Context (Hfit : (SwLlc.cell set p < length (SwLlc.llc s))%nat).

(** Positions of other rows are not reached by a shift inside the row. *)
Lemma stack_other set' :
  (p < SwLlc.LLC_ASSOCIATIVITY)%nat -> set' <> set -> (set' < sets)%nat ->
  SwLlc.alloc_blocks s' !! set' = SwLlc.alloc_blocks s !! set' ->
  stack s' set' = stack s set'.
Proof.
  intros Hp Hne Hs' Ha. destruct (alloc_lookup s set' Hwf Hs') as (m & Hm & Hr). rewrite Hm in Ha.
  apply list_eq. intros i. rewrite (lookup_stack s set' m i Hm), (lookup_stack s' set' m i Ha), Hllc.
  case_decide; [|done]. rewrite lookup_shifted by (unfold SwLlc.cell in *; lia).
  unfold SwLlc.cell, SwLlc.LLC_ASSOCIATIVITY in *. rewrite !decide_False by lia. done.
Qed.

Lemma stack_hit :
  SwLlc.alloc_blocks s' !! set = Some n -> (p < Z.to_nat n)%nat ->
  stack s' set = tag :: delete p (stack s set).
Proof.
  intros Ha Hp. apply list_eq. intros i. rewrite (lookup_stack s' set n i Ha), Hllc.
  destruct i as [|i].
  - rewrite decide_True by lia. rewrite lookup_shifted, decide_True by (unfold SwLlc.cell in *; lia). done.
  - rewrite lookup_cons_ne_0 by lia. cbn [pred].
    rewrite lookup_shifted by (unfold SwLlc.cell in *; lia).
    destruct (decide (i < p)%nat) as [Hip|Hip].
    + rewrite list_lookup_delete_lt, (lookup_stack s set n i Hn) by done. cells.
    + rewrite list_lookup_delete_ge, (lookup_stack s set n (S i) Hn) by lia.
      cells.
Qed.

Lemma stack_push :
  SwLlc.alloc_blocks s' !! set = Some (n + 1) -> 0 <= n -> p = Z.to_nat n ->
  stack s' set = tag :: stack s set.
Proof.
  intros Ha Hn0 Hp. apply list_eq. intros i. rewrite (lookup_stack s' set (n + 1) i Ha), Hllc.
  destruct i as [|i].
  - rewrite decide_True by lia. rewrite lookup_shifted, decide_True by (unfold SwLlc.cell in *; lia). done.
  - rewrite lookup_cons_ne_0 by lia. cbn [pred].
    rewrite lookup_shifted by (unfold SwLlc.cell in *; lia). rewrite (lookup_stack s set n i Hn).
    destruct (decide (i < Z.to_nat n)%nat).
    + cells.
    + cells.
Qed.

Lemma stack_evict :
  SwLlc.alloc_blocks s' !! set = Some n -> n = 16 -> p = SwLlc.LLC_ASSOCIATIVITY ->
  stack s' set = tag :: take 15 (stack s set).
Proof.
  intros Ha Hn16 Hp. apply list_eq. intros i. rewrite (lookup_stack s' set n i Ha), Hllc.
  unfold SwLlc.LLC_ASSOCIATIVITY in Hp. destruct i as [|i].
  - rewrite decide_True by lia. rewrite lookup_shifted, decide_True by (unfold SwLlc.cell in *; lia). done.
  - rewrite lookup_cons_ne_0 by lia. cbn [pred].
    rewrite lookup_shifted by (unfold SwLlc.cell in *; lia).
    destruct (decide (i < 15)%nat).
    + rewrite lookup_take_lt, (lookup_stack s set n i Hn) by done. cells.
    + rewrite lookup_take_ge by lia. by rewrite decide_False by lia.
Qed.
End shift.

(** * Addresses *)
Record llc_settings_ok (st : SwLlc.Settings) : Prop := mkLlcSettingsOk {
  ls_bits : 0 < SwLlc.block_bits st < 31;
  ls_shift : SwLlc.sw_page_bitshift st = 17;
  ls_thd : 0 <= SwLlc.bhist_thd st
}.

Definition set_of (a : Z) : nat := Z.to_nat (SwLlc.getSetSw a).

Lemma getSetSw_range a : 0 <= SwLlc.getSetSw a < SwLlc.LLC_SETS.
Proof. apply Z.mod_pos_bound. reflexivity. Qed.

Lemma set_of_lt a : (set_of a < sets)%nat.
Proof. pose proof (getSetSw_range a). unfold set_of, sets. lia. Qed.

Lemma getTagSw_nonneg st a : address a -> 0 <= SwLlc.getTagSw st a.
Proof. intros [Ha _]. by apply Z.shiftr_nonneg. Qed.

(** The pair of software tag and software set identifies a 64-byte block:
    two addresses agree on both exactly when they lie in the same block. *)
Theorem sw_tag_set_identify_block st a b :
  llc_settings_ok st -> address a -> address b ->
  SwLlc.getTagSw st a = SwLlc.getTagSw st b /\ SwLlc.getSetSw a = SwLlc.getSetSw b <-> a / 64 = b / 64.
Proof.
  intros Hst [Ha _] [Hb _]. unfold SwLlc.getTagSw, SwLlc.getSetSw, SwLlc.LLC_SETS.
  rewrite (ls_shift _ Hst), !Z.shiftr_div_pow2 by lia. change (2 ^ 17) with (64 * 2048).
  change (2 ^ 6) with 64. rewrite <- !Z.div_div by lia. split.
  - intros [Ht Hs]. rewrite (Z.div_mod (a / 64) 2048), (Z.div_mod (b / 64) 2048) by lia. congruence.
  - by intros ->.
Qed.

Lemma sw_tag_set_identify_block_witness :
  (SwLlc.getTagSw SwLlc.default_settings 131136 = SwLlc.getTagSw SwLlc.default_settings 131199 /\
   SwLlc.getSetSw 131136 = SwLlc.getSetSw 131199) <-> 131136 / 64 = 131199 / 64.
Proof.
  apply (sw_tag_set_identify_block SwLlc.default_settings);
    [split; cbn; lia|split; [lia|reflexivity]|split; [lia|reflexivity]].
Defined.

(** * The cases of an access *)
Lemma access_hits_wf s m a b c : llc_wf s -> llc_wf (SwLlc.set_hits m (SwLlc.set_stats a b c s)).
Proof. intros [? ? ? ?]. by split. Qed.

Lemma stack_set_hits s m a b c set : stack (SwLlc.set_hits m (SwLlc.set_stats a b c s)) set = stack s set.
Proof. done. Qed.

Lemma cell_fits s set p :
  llc_wf s -> (set < sets)%nat -> (p < SwLlc.LLC_ASSOCIATIVITY)%nat ->
  (SwLlc.cell set p < length (SwLlc.llc s))%nat.
Proof. intros Hwf Hs Hp. rewrite (lw_llc _ Hwf). unfold SwLlc.cell, SwLlc.LLC_ASSOCIATIVITY in *. lia. Qed.

Lemma shifted_wf s s' set p tag l :
  llc_wf s -> (SwLlc.cell set p < length (SwLlc.llc s))%nat ->
  SwLlc.llc s' = shifted (SwLlc.llc s) (SwLlc.cell set 0) p tag ->
  SwLlc.alloc_blocks s' = l -> length l = sets -> Forall (fun n => 0 <= n <= 16) l ->
  map_Forall (fun _ c => 0 <= c <= SwLlc.MAX_COUNTER_VAL) (SwLlc.bhist s') -> llc_wf s'.
Proof.
  intros Hwf Hfit Hllc Ha Hl Hf Hb. split; [|by rewrite Ha|by rewrite Ha|done].
  rewrite Hllc, length_shifted by (unfold SwLlc.cell in *; lia). apply Hwf.
Qed.

(** A hit of the software LLC moves the block to the front of its set, as an
    LRU stack does, and changes no other set. *)
Theorem sw_hit_moves_to_front st pfq a s :
  llc_wf s -> address a -> SwLlc.getTagSw st a ∈ stack s (set_of a) ->
  exists j s', SwLlc.accessLLCSw st pfq a s = Ok s' /\ llc_wf s' /\
    stack s (set_of a) !! j = Some (SwLlc.getTagSw st a) /\
    stack s' (set_of a) = SwLlc.getTagSw st a :: delete j (stack s (set_of a)) /\
    (forall set', (set' < sets)%nat -> set' <> set_of a -> stack s' set' = stack s set') /\
    SwLlc.llcMiss s' = SwLlc.llcMiss s.
Proof.
  intros Hwf Ha Hin. pose proof (set_of_lt a) as Hset. unfold SwLlc.accessLLCSw. fold (set_of a).
  set (tag := SwLlc.getTagSw st a) in *. set (s0 := SwLlc.set_stats _ _ _ s).
  assert (Hwf0 : llc_wf s0) by (by destruct Hwf).
  destruct (findTagInSet_spec s0 (set_of a) tag Hwf0 Hset) as (r & m & -> & _ & Hr). cbn [rbind].
  destruct r as [j|]; [|done]. destruct Hr as [Hj Hj16]. change (stack s0) with (stack s) in Hj.
  destruct (alloc_lookup s (set_of a) Hwf Hset) as (n & Hn & Hnr).
  set (s1 := SwLlc.set_hits m s0). assert (Hwf1 : llc_wf s1) by (by destruct Hwf0).
  unfold SwLlc.handleLLCHit.
  pose proof (cell_fits s1 (set_of a) j Hwf1 Hset Hj16) as Hfit.
  destruct (updateLLCSw_spec pfq tag j (set_of a) s1 Hfit) as (s' & E & Hllc & Hal & Hbh & _ & _ & Hmiss & _).
  exists j, s'. split; [done|]. split; [|split; [done|split; [|split]]].
  - eapply (shifted_wf s1); [done|done|done|exact Hal|apply Hwf1|apply Hwf1|]. rewrite Hbh. apply Hwf1.
  - apply (stack_hit s1 s' (set_of a) j tag n); try done; try (by rewrite Hal).
    apply lookup_lt_Some in Hj. by rewrite (length_stack s _ n) in Hj.
  - intros set' Hs' Hne. apply (stack_other s1 s' (set_of a) j tag); try done. by rewrite Hal.
  - by rewrite Hmiss.
Qed.

(** A miss in a set that is not full pushes the block on the set's stack
    and changes no other set. *)
Theorem sw_fill_pushes st pfq a s :
  llc_wf s -> address a -> SwLlc.getTagSw st a ∉ stack s (set_of a) ->
  (length (stack s (set_of a)) < SwLlc.LLC_ASSOCIATIVITY)%nat ->
  exists s', SwLlc.accessLLCSw st pfq a s = Ok s' /\ llc_wf s' /\
    stack s' (set_of a) = SwLlc.getTagSw st a :: stack s (set_of a) /\
    (forall set', (set' < sets)%nat -> set' <> set_of a -> stack s' set' = stack s set') /\
    SwLlc.llcMiss s' = u64 (SwLlc.llcMiss s + 1).
Proof.
  intros Hwf Ha Hin Hlen. pose proof (set_of_lt a) as Hset. unfold SwLlc.accessLLCSw. fold (set_of a).
  set (tag := SwLlc.getTagSw st a) in *. set (s0 := SwLlc.set_stats _ _ _ s).
  assert (Hwf0 : llc_wf s0) by (by destruct Hwf).
  destruct (findTagInSet_spec s0 (set_of a) tag Hwf0 Hset) as (r & m & -> & _ & Hr). cbn [rbind].
  destruct r as [j|].
  { destruct Hr as [Hj _]. exfalso. apply Hin. by eapply list_elem_of_lookup_2. }
  destruct (alloc_lookup s (set_of a) Hwf Hset) as (n & Hn & Hnr).
  rewrite (length_stack s _ n) in Hlen by done. unfold SwLlc.LLC_ASSOCIATIVITY in Hlen.
  unfold SwLlc.handleLLCMiss. set (s1 := SwLlc.set_stats _ _ _ _).
  assert (Hwf1 : llc_wf s1) by (by destruct Hwf0).
  assert (Hn1 : SwLlc.alloc_blocks s1 !! set_of a = Some n) by done.
  rewrite (aget_Ok _ _ _ Hn1). cbn [rbind]. unfold SwLlc.LLC_ASSOCIATIVITY.
  rewrite (proj2 (Z.ltb_lt n _)) by lia.
  unfold SwLlc.insertIntoPartialSet. rewrite (aget_Ok _ _ _ Hn1). cbn [rbind].
  rewrite aset_Ok by (rewrite (lw_len _ Hwf1); lia). cbn [rbind]. rewrite u64_small by lia.
  set (s2 := SwLlc.set_alloc _ s1).
  assert (Hfit : (SwLlc.cell (set_of a) (Z.to_nat n) < length (SwLlc.llc s2))%nat).
  { apply (cell_fits s1); [done|done|]. unfold SwLlc.LLC_ASSOCIATIVITY. lia. }
  destruct (updateLLCSw_spec pfq tag (Z.to_nat n) (set_of a) s2 Hfit)
    as (s' & E & Hllc & Hal & Hbh & _ & _ & Hmiss & _).
  assert (Hltl : (set_of a < length (SwLlc.alloc_blocks s1))%nat) by (rewrite (lw_len _ Hwf1); lia).
  exists s'. split; [done|]. split; [|split; [|split]].
  - eapply (shifted_wf s1); [done|exact Hfit|exact Hllc|exact Hal| | |].
    + cbn. rewrite length_insert. apply Hwf1.
    + cbn. apply Forall_insert; [apply Hwf1|lia].
    + rewrite Hbh. apply Hwf1.
  - apply (stack_push s1 s' (set_of a) (Z.to_nat n) tag n); try done; [|lia].
    rewrite Hal. cbn. rewrite lookup_insert_in by exact Hltl. by rewrite decide_True.
  - intros set' Hs' Hne. apply (stack_other s1 s' (set_of a) (Z.to_nat n) tag); try done.
    rewrite Hal. cbn. rewrite lookup_insert_in by exact Hltl. by rewrite decide_False.
  - by rewrite Hmiss.
Qed.

(** * Full sets *)
Definition predicted_dead_block (st : SwLlc.Settings) (pfq : list Z) (tag : Z) (s : SwLlc.State) : bool :=
  SwLlc.recentPFNContains pfq tag &&
  match PageHash.findHash (SwLlc.index_size st) tag (SwLlc.block_bits st) with
  | Ok h => SwLlc.bget s h >? SwLlc.bhist_thd st
  | Err _ => false
  end.

Lemma shouldBypassLLC_spec st pfq tag s :
  llc_settings_ok st -> 0 <= tag ->
  SwLlc.shouldBypassLLC st pfq tag s = Ok (predicted_dead_block st pfq tag s).
Proof.
  intros Hst Ht. unfold SwLlc.shouldBypassLLC, predicted_dead_block.
  destruct (SwLlc.recentPFNContains pfq tag); [|done].
  destruct (findHash_ok (SwLlc.index_size st) tag (SwLlc.block_bits st)) as (h & -> & _); [apply Hst|done|].
  done.
Qed.

(** Training on an eviction keeps the counters within the cap. *)
Lemma updateCounters_spec st tag s :
  llc_settings_ok st -> llc_wf s -> 0 <= tag ->
  exists m, SwLlc.updateCounters st tag s = Ok (SwLlc.set_bhist m s) /\
    map_Forall (fun _ c => 0 <= c <= SwLlc.MAX_COUNTER_VAL) m.
Proof.
  intros Hst Hwf Ht. pose proof (lw_bhist _ Hwf) as Hb. unfold SwLlc.updateCounters.
  destruct (SwLlc.llc_hits s !! tag) as [hits|].
  2: { exists (SwLlc.bhist s). split; [by destruct s|done]. }
  destruct (findHash_ok (SwLlc.index_size st) tag (SwLlc.block_bits st)) as (h & -> & _); [apply Hst|done|].
  cbn [rbind]. destruct (hits =? 0).
  - assert (Hbh : 0 <= SwLlc.bget s h <= SwLlc.MAX_COUNTER_VAL).
    { unfold SwLlc.bget. destruct (SwLlc.bhist s !! h) as [c|] eqn:Hc; cbn; [by apply (Hb h c Hc)|].
      unfold SwLlc.MAX_COUNTER_VAL. lia. }
    unfold SwLlc.capCounters, SwLlc.bget at 1. cbn [SwLlc.bhist SwLlc.set_bhist].
    rewrite lookup_insert_eq. cbn [default from_option id]. unfold SwLlc.MAX_COUNTER_VAL in *.
    rewrite u64_small by lia. destruct (Z.gtb_spec (SwLlc.bget s h + 1) 16).
    + eexists. split; [reflexivity|]. rewrite insert_insert_eq. apply map_Forall_insert_2; [lia|done].
    + eexists. split; [reflexivity|]. apply map_Forall_insert_2; [lia|done].
  - eexists. split; [reflexivity|]. apply map_Forall_insert_2; [|done]. unfold SwLlc.MAX_COUNTER_VAL. lia.
Qed.

(** The state in which the replacement decision of a full set is taken. *)
Definition counted (s : SwLlc.State) : SwLlc.State :=
  SwLlc.set_stats (u64 (SwLlc.llcAcc s + 1)) (u64 (SwLlc.llcMiss s + 1)) (SwLlc.llcBypass s) s.

Lemma full_miss_unfold st pfq a s :
  llc_wf s -> SwLlc.getTagSw st a ∉ stack s (set_of a) ->
  length (stack s (set_of a)) = SwLlc.LLC_ASSOCIATIVITY ->
  SwLlc.alloc_blocks s !! set_of a = Some 16 /\
  SwLlc.accessLLCSw st pfq a s =
    SwLlc.handleFullSetMiss st pfq (SwLlc.getTagSw st a) (set_of a) (counted s).
Proof.
  intros Hwf Hin Hlen. pose proof (set_of_lt a) as Hset. unfold SwLlc.accessLLCSw. fold (set_of a).
  set (tag := SwLlc.getTagSw st a) in *. set (s0 := SwLlc.set_stats _ _ _ s).
  assert (Hwf0 : llc_wf s0) by (by destruct Hwf).
  destruct (findTagInSet_spec s0 (set_of a) tag Hwf0 Hset) as (r & m & -> & Hm & Hr). cbn [rbind].
  destruct r as [j|].
  { destruct Hr as [Hj _]. exfalso. apply Hin. by eapply list_elem_of_lookup_2. }
  assert (m = SwLlc.llc_hits s) as -> by done.
  destruct (alloc_lookup s (set_of a) Hwf Hset) as (n & Hn & Hnr).
  rewrite (length_stack s _ n) in Hlen by done. unfold SwLlc.LLC_ASSOCIATIVITY in Hlen.
  assert (n = 16) as -> by lia. split; [done|].
  unfold SwLlc.handleLLCMiss. cbn [SwLlc.alloc_blocks SwLlc.set_stats SwLlc.set_hits s0].
  rewrite (aget_Ok _ _ _ Hn). cbn [rbind]. done.
Qed.

(** A full set bypasses a missing block whose page region was recently
    bypassed by the last-level TLB and whose own counter exceeds BHIST_THD; the
    bypass is counted and leaves every set as it was. *)
Theorem sw_predicted_block_bypassed st pfq a s :
  llc_settings_ok st -> llc_wf s -> address a ->
  SwLlc.getTagSw st a ∉ stack s (set_of a) ->
  length (stack s (set_of a)) = SwLlc.LLC_ASSOCIATIVITY ->
  predicted_dead_block st pfq (SwLlc.getTagSw st a) s = true ->
  exists s', SwLlc.accessLLCSw st pfq a s = Ok s' /\ SwLlc.llc s' = SwLlc.llc s /\
    SwLlc.llcBypass s' = u64 (SwLlc.llcBypass s + 1) /\
    forall set, stack s' set = stack s set.
Proof.
  intros Hst Hwf Ha Hin Hlen Hdead. destruct (full_miss_unfold st pfq a s Hwf Hin Hlen) as [_ ->].
  unfold SwLlc.handleFullSetMiss. rewrite shouldBypassLLC_spec by (done || by apply getTagSw_nonneg).
  assert (predicted_dead_block st pfq (SwLlc.getTagSw st a) (counted s) = true) as -> by exact Hdead.
  cbn [rbind]. eexists. split; [done|]. done.
Qed.

Lemma stack_last_cell s set n :
  SwLlc.alloc_blocks s !! set = Some n -> n = 16 ->
  stack s set !! 15%nat = SwLlc.llc s !! SwLlc.cell set 15.
Proof. intros Hn ->. by rewrite (lookup_stack s set 16 15 Hn). Qed.

Definition nonneg_tags (s : SwLlc.State) : Prop := Forall (fun x => 0 <= x) (SwLlc.llc s).

(** A full-set miss that is not bypassed, when the row after the set exists. *)
Lemma full_miss_spec st pfq a s ev :
  llc_settings_ok st -> llc_wf s -> nonneg_tags s -> address a ->
  SwLlc.getTagSw st a ∉ stack s (set_of a) ->
  length (stack s (set_of a)) = SwLlc.LLC_ASSOCIATIVITY ->
  predicted_dead_block st pfq (SwLlc.getTagSw st a) s = false ->
  stack s (set_of a) !! 15%nat = Some ev -> (S (set_of a) < sets)%nat ->
  exists s', SwLlc.accessLLCSw st pfq a s = Ok s' /\ llc_wf s' /\
    SwLlc.llc s' = shifted (SwLlc.llc s) (SwLlc.cell (set_of a) 0) 16 (SwLlc.getTagSw st a) /\
    SwLlc.alloc_blocks s' = SwLlc.alloc_blocks s /\ SwLlc.alloc_blocks s !! set_of a = Some 16.
Proof.
  intros Hst Hwf Hnn Ha Hin Hlen Hdead Hev Hnext.
  destruct (full_miss_unfold st pfq a s Hwf Hin Hlen) as [H16 ->].
  unfold SwLlc.handleFullSetMiss. rewrite shouldBypassLLC_spec by (done || by apply getTagSw_nonneg).
  assert (predicted_dead_block st pfq (SwLlc.getTagSw st a) (counted s) = false) as -> by exact Hdead.
  cbn [rbind]. rewrite (stack_last_cell s (set_of a) 16 H16 eq_refl) in Hev.
  change (SwLlc.LLC_ASSOCIATIVITY - 1)%nat with 15%nat.
  change (SwLlc.llc (counted s)) with (SwLlc.llc s). rewrite (aget_Ok _ _ _ Hev). cbn [rbind].
  assert (Hev0 : 0 <= ev) by (by eapply Forall_lookup_1 in Hnn).
  assert (Hwfc : llc_wf (counted s)) by (by destruct Hwf).
  destruct (updateCounters_spec st ev (counted s) Hst Hwfc Hev0) as (m & -> & Hm). cbn [rbind].
  set (s1 := SwLlc.set_bhist m (counted s)).
  assert (Hfit : (SwLlc.cell (set_of a) SwLlc.LLC_ASSOCIATIVITY < length (SwLlc.llc s1))%nat).
  { cbn. rewrite (lw_llc _ Hwf). unfold SwLlc.cell, SwLlc.LLC_ASSOCIATIVITY. lia. }
  destruct (updateLLCSw_spec pfq (SwLlc.getTagSw st a) SwLlc.LLC_ASSOCIATIVITY (set_of a) s1 Hfit)
    as (s' & E & Hllc & Hal & Hbh & _).
  exists s'. split; [done|]. split; [|done].
  eapply (shifted_wf s1); [|exact Hfit|exact Hllc|exact Hal|apply Hwf|apply Hwf|by rewrite Hbh].
  destruct Hwfc. by split.
Qed.

(** C28: a miss in a full set that is not bypassed overflows its row: the shift
    starts at index LLC_ASSOCIATIVITY, one past the last way, so the evicted
    tag is written over the most recent entry of the next set, which then
    holds a block that was never accessed there. *)
Theorem sw_full_miss_corrupts_next_set st pfq a s ev n :
  llc_settings_ok st -> llc_wf s -> nonneg_tags s -> address a ->
  SwLlc.getTagSw st a ∉ stack s (set_of a) ->
  length (stack s (set_of a)) = SwLlc.LLC_ASSOCIATIVITY ->
  predicted_dead_block st pfq (SwLlc.getTagSw st a) s = false ->
  stack s (set_of a) !! 15%nat = Some ev -> (S (set_of a) < sets)%nat ->
  SwLlc.alloc_blocks s !! S (set_of a) = Some n -> 0 < n ->
  exists s', SwLlc.accessLLCSw st pfq a s = Ok s' /\
    stack s' (set_of a) = SwLlc.getTagSw st a :: take 15 (stack s (set_of a)) /\
    stack s' (S (set_of a)) = <[0%nat := ev]> (stack s (S (set_of a))).
Proof.
  intros Hst Hwf Hnn Ha Hin Hlen Hdead Hev Hnext Hn Hpos.
  destruct (full_miss_spec st pfq a s ev) as (s' & E & Hwf' & Hllc & Hal & H16); [done..|].
  assert (Hfit : (SwLlc.cell (set_of a) 16 < length (SwLlc.llc s))%nat).
  { rewrite (lw_llc _ Hwf). unfold SwLlc.cell, SwLlc.LLC_ASSOCIATIVITY. lia. }
  exists s'. split; [done|]. split.
  - apply (stack_evict s s' (set_of a) 16 (SwLlc.getTagSw st a) 16); try done; [apply set_of_lt|by rewrite Hal].
  - rewrite (stack_last_cell s (set_of a) 16 H16 eq_refl) in Hev.
    assert (Hls : length (stack s (S (set_of a))) = Z.to_nat n) by (by apply length_stack).
    apply list_eq. intros i. rewrite (lookup_stack s' _ n i) by (by rewrite Hal). rewrite Hllc.
    rewrite lookup_insert_in by lia. rewrite (lookup_stack s _ n i Hn).
    rewrite lookup_shifted by (unfold SwLlc.cell in *; lia). destruct i as [|i].
    + rewrite !decide_True by lia. rewrite <- Hev. cells.
    + cells.
Qed.

(** In the last set the same miss leaves the array altogether: the program
    writes outside [llc]. *)
Theorem sw_last_set_writes_out_of_bounds st pfq a s :
  llc_settings_ok st -> llc_wf s -> nonneg_tags s -> address a ->
  SwLlc.getTagSw st a ∉ stack s (set_of a) ->
  length (stack s (set_of a)) = SwLlc.LLC_ASSOCIATIVITY ->
  predicted_dead_block st pfq (SwLlc.getTagSw st a) s = false ->
  S (set_of a) = sets ->
  SwLlc.accessLLCSw st pfq a s = Err Undefined.
Proof.
  intros Hst Hwf Hnn Ha Hin Hlen Hdead Hlast.
  destruct (full_miss_unfold st pfq a s Hwf Hin Hlen) as [H16 ->].
  unfold SwLlc.handleFullSetMiss. rewrite shouldBypassLLC_spec by (done || by apply getTagSw_nonneg).
  assert (predicted_dead_block st pfq (SwLlc.getTagSw st a) (counted s) = false) as -> by exact Hdead.
  cbn [rbind]. change (SwLlc.LLC_ASSOCIATIVITY - 1)%nat with 15%nat.
  change (SwLlc.llc (counted s)) with (SwLlc.llc s).
  pose proof (lw_llc _ Hwf) as Hl.
  destruct (lookup_lt_is_Some_2 (SwLlc.llc s) (SwLlc.cell (set_of a) 15)) as [ev Hev];
    [unfold SwLlc.cell, SwLlc.LLC_ASSOCIATIVITY in *; lia|].
  rewrite (aget_Ok _ _ _ Hev). cbn [rbind].
  assert (Hev0 : 0 <= ev) by (by eapply Forall_lookup_1 in Hnn).
  assert (Hwfc : llc_wf (counted s)) by (by destruct Hwf).
  destruct (updateCounters_spec st ev (counted s) Hst Hwfc Hev0) as (m & -> & Hm). cbn [rbind].
  unfold SwLlc.updateLLCSw. change (SwLlc.llc (SwLlc.set_bhist m (counted s))) with (SwLlc.llc s).
  assert (SwLlc.shift_loop SwLlc.LLC_ASSOCIATIVITY (set_of a) (SwLlc.llc s) = Err Undefined) as ->; [|done].
  unfold SwLlc.LLC_ASSOCIATIVITY at 1. cbn [SwLlc.shift_loop]. rewrite (aget_Ok _ _ _ Hev). cbn [rbind].
  unfold aset. rewrite decide_False; [done|]. unfold SwLlc.cell, SwLlc.LLC_ASSOCIATIVITY in *. lia.
Qed.

(** A reuse is forgotten at once: after a hit on a block whose page region
    is in the queue, the reuse count the predictor learns from is 0 again, so
    that the eviction of a reused block counts as a dead one. *)
Theorem sw_hit_forgets_reuse st pfq a s :
  llc_wf s -> address a -> SwLlc.getTagSw st a ∈ stack s (set_of a) ->
  SwLlc.recentPFNContains pfq (SwLlc.getTagSw st a) = true ->
  exists s', SwLlc.accessLLCSw st pfq a s = Ok s' /\
    SwLlc.llc_hits s' !! SwLlc.getTagSw st a = Some 0.
Proof.
  intros Hwf Ha Hin Hpfq. pose proof (set_of_lt a) as Hset. unfold SwLlc.accessLLCSw. fold (set_of a).
  set (tag := SwLlc.getTagSw st a) in *. set (s0 := SwLlc.set_stats _ _ _ s).
  assert (Hwf0 : llc_wf s0) by (by destruct Hwf).
  destruct (findTagInSet_spec s0 (set_of a) tag Hwf0 Hset) as (r & m & -> & _ & Hr). cbn [rbind].
  destruct r as [j|]; [|done]. destruct Hr as [Hj Hj16].
  set (s1 := SwLlc.set_hits m s0). assert (Hwf1 : llc_wf s1) by (by destruct Hwf0).
  pose proof (cell_fits s1 (set_of a) j Hwf1 Hset Hj16) as Hfit.
  destruct (updateLLCSw_spec pfq tag j (set_of a) s1 Hfit) as (s' & E & _ & _ & _ & Hh & _).
  exists s'. split; [done|]. rewrite Hh, Hpfq. apply lookup_insert_eq.
Qed.

(** * Runs *)

(** Accesses, each with the queue as the TLBs have left it. *)
Fixpoint run_llc (st : SwLlc.Settings) (accs : list (list Z * Z)) (s : SwLlc.State)
  : result SwLlc.State :=
  match accs with
  | [] => Ok s
  | (pfq, a) :: accs' =>
      let! s := SwLlc.accessLLCSw st pfq a s in
      run_llc st accs' s
  end.

Definition llc_inv (s : SwLlc.State) : Prop := llc_wf s /\ nonneg_tags s.

Lemma shift_loop_inv p set l l' :
  SwLlc.shift_loop p set l = Ok l' ->
  length l' = length l /\ (Forall (fun x => 0 <= x) l -> Forall (fun x => 0 <= x) l').
Proof.
  revert l. induction p as [|p IH]; intros l H; cbn [SwLlc.shift_loop] in H; [by inv_ok|].
  inv_ok. apply IH in Hk0 as [Hl Hf]. rewrite length_insert in Hl. split; [done|].
  intros Hall. apply Hf, Forall_insert; [done|]. by eapply Forall_lookup_1 in Hall.
Qed.

Lemma updateLLCSw_inv pfq tag p set s s' :
  0 <= tag -> SwLlc.updateLLCSw pfq tag p set s = Ok s' -> llc_inv s -> llc_inv s'.
Proof.
  intros Ht H [Hwf Hnn]. unfold SwLlc.updateLLCSw in H. inv_ok.
  match goal with Hx : SwLlc.shift_loop _ _ _ = _ |- _ => apply shift_loop_inv in Hx as [Hl Hf] end.
  assert (Hg : llc_inv (SwLlc.set_llc (<[SwLlc.cell set 0 := tag]> v) s)).
  { split.
    - destruct Hwf. split; cbn; [by rewrite length_insert, Hl|done..].
    - unfold nonneg_tags. cbn. apply Forall_insert; [by apply Hf|done]. }
  destruct (SwLlc.recentPFNContains pfq tag); [|done]. destruct Hg as [[? ? ? ?] ?]. by split.
Qed.

Lemma accessLLCSw_inv st pfq a s s' :
  llc_settings_ok st -> address a -> SwLlc.accessLLCSw st pfq a s = Ok s' -> llc_inv s -> llc_inv s'.
Proof.
  intros Hst Ha H [Hwf Hnn]. pose proof (set_of_lt a) as Hset. unfold SwLlc.accessLLCSw in H.
  fold (set_of a) in H. pose proof (getTagSw_nonneg st a Ha) as Htag.
  set (tag := SwLlc.getTagSw st a) in *. set (s0 := SwLlc.set_stats _ _ _ s) in H.
  assert (Hwf0 : llc_wf s0) by (by destruct Hwf).
  destruct (findTagInSet_spec s0 (set_of a) tag Hwf0 Hset) as (r & m & E & _ & Hr).
  rewrite E in H. cbn [rbind] in H.
  assert (Hi1 : llc_inv (SwLlc.set_hits m s0)) by (split; [by destruct Hwf0|done]).
  destruct r as [j|]; [by eapply updateLLCSw_inv|].
  unfold SwLlc.handleLLCMiss in H. set (s1 := SwLlc.set_stats _ _ _ _) in H.
  assert (Hi2 : llc_inv s1) by (destruct Hi1 as [[? ? ? ?] ?]; by split).
  inv_ok. destruct (Z.ltb_spec v (Z.of_nat SwLlc.LLC_ASSOCIATIVITY)) as [Hlt|Hge].
  - unfold SwLlc.insertIntoPartialSet in Hk. inv_ok.
    assert (v0 = v) as -> by congruence. eapply updateLLCSw_inv; [done|done|].
    destruct Hi2 as [[? ? Hal ?] ?]. split; [|done]. split; cbn; try done.
    + by rewrite length_insert.
    + apply Forall_insert; [done|]. eapply Forall_lookup_1 in Hal as Hv'; [|exact Hv].
      cbn in Hv'. unfold SwLlc.LLC_ASSOCIATIVITY in Hlt. rewrite u64_small; lia.
  - destruct (v =? _); [|by inv_ok]. unfold SwLlc.handleFullSetMiss in Hk. inv_ok.
    destruct v0; inv_ok; [destruct Hi2 as [[? ? ? ?] ?]; by split|].
    pose proof Hi2 as [Hwf2 Hnn2].
    assert (Hev : 0 <= v0) by (by eapply Forall_lookup_1 in Hnn2).
    destruct (updateCounters_spec st v0 s1 Hst Hwf2 Hev) as (mb & Eb & Hmb).
    assert (v1 = SwLlc.set_bhist mb s1) as -> by congruence.
    eapply updateLLCSw_inv; [exact Htag|exact Hk0|]. destruct Hwf2. by split.
Qed.

Lemma initial_inv : llc_inv SwLlc.initial.
Proof. split; [apply initial_wf|]. unfold nonneg_tags. apply Forall_replicate. lia. Qed.

(** The access that leaves the table: a miss in the last set when it is full,
    of a block that is not bypassed. *)
Definition overflows (st : SwLlc.Settings) (pfq : list Z) (a : Z) (s : SwLlc.State) : Prop :=
  SwLlc.getTagSw st a ∉ stack s (set_of a) /\ length (stack s (set_of a)) = SwLlc.LLC_ASSOCIATIVITY /\
  predicted_dead_block st pfq (SwLlc.getTagSw st a) s = false /\ S (set_of a) = sets.

Lemma access_or_overflow st pfq a s :
  llc_settings_ok st -> llc_inv s -> address a ->
  (exists s', SwLlc.accessLLCSw st pfq a s = Ok s') \/
  overflows st pfq a s /\ SwLlc.accessLLCSw st pfq a s = Err Undefined.
Proof.
  intros Hst [Hwf Hnn] Ha. destruct (decide (SwLlc.getTagSw st a ∈ stack s (set_of a))) as [Hin|Hin].
  { destruct (sw_hit_moves_to_front st pfq a s Hwf Ha Hin) as (j & s' & E & _). left. by exists s'. }
  pose proof (set_of_lt a) as Hset. destruct (alloc_lookup s (set_of a) Hwf Hset) as (n & Hn & Hnr).
  pose proof (length_stack s (set_of a) n Hwf Hset Hn) as Hl.
  destruct (decide (length (stack s (set_of a)) = SwLlc.LLC_ASSOCIATIVITY)) as [Hfull|Hpart].
  2: { destruct (sw_fill_pushes st pfq a s Hwf Ha Hin) as (s' & E & _); [|left; by exists s'].
    unfold SwLlc.LLC_ASSOCIATIVITY in *. lia. }
  destruct (predicted_dead_block st pfq (SwLlc.getTagSw st a) s) eqn:Hdead.
  { destruct (sw_predicted_block_bypassed st pfq a s Hst Hwf Ha Hin Hfull Hdead) as (s' & E & _). left. by exists s'. }
  destruct (decide (S (set_of a) = sets)) as [Hlast|Hnot].
  { right. split; [done|]. by apply sw_last_set_writes_out_of_bounds. }
  destruct (lookup_lt_is_Some_2 (stack s (set_of a)) 15) as [ev Hev]; [rewrite Hfull; unfold SwLlc.LLC_ASSOCIATIVITY; lia|].
  destruct (full_miss_spec st pfq a s ev) as (s' & E & _); [done..|lia|]. left. by exists s'.
Qed.

(** No counter of [bhist] exceeds MAX_COUNTER_VAL, and no set claims more blocks
    than it has ways. *)
Definition bounded (s : SwLlc.State) : Prop :=
  (forall h, 0 <= SwLlc.bget s h <= SwLlc.MAX_COUNTER_VAL) /\
  forall set n, SwLlc.alloc_blocks s !! set = Some n -> 0 <= n <= Z.of_nat SwLlc.LLC_ASSOCIATIVITY.

Lemma llc_inv_bounded s : llc_inv s -> bounded s.
Proof.
  intros [Hwf _]. split.
  - intros h. unfold SwLlc.bget. destruct (SwLlc.bhist s !! h) as [c|] eqn:Hc; cbn.
    + by apply (lw_bhist _ Hwf h c Hc).
    + unfold SwLlc.MAX_COUNTER_VAL. lia.
  - intros set n Hn. pose proof (lw_alloc _ Hwf) as Hal. by eapply Forall_lookup_1 in Hal.
Qed.

Lemma run_llc_bounded st accs s :
  llc_settings_ok st -> Forall (fun x => address (snd x)) accs -> llc_inv s ->
  exists k, (k <= length accs)%nat /\
    (forall j, (j <= k)%nat -> exists s', run_llc st (take j accs) s = Ok s' /\ bounded s') /\
    (k = length accs \/ exists s' pfq a, run_llc st (take k accs) s = Ok s' /\ accs !! k = Some (pfq, a) /\
       overflows st pfq a s' /\ SwLlc.accessLLCSw st pfq a s' = Err Undefined).
Proof.
  intros Hst Hacc. revert s. induction Hacc as [|[q a] accs Ha Hacc IH]; intros s Hi; cbn [snd] in *.
  { exists 0%nat. split; [done|]. split; [|by left]. intros j _. exists s. rewrite take_nil. split; [done|by apply llc_inv_bounded]. }
  destruct (access_or_overflow st q a s Hst Hi Ha) as [[s1 E]|[Hov E]].
  - assert (Hi1 : llc_inv s1) by (by eapply accessLLCSw_inv).
    destruct (IH s1 Hi1) as (k & Hk & Hall & Hend). exists (S k). split; [cbn; lia|]. split.
    + intros [|j] Hj; [exists s; split; [done|by apply llc_inv_bounded]|]. cbn [take firstn run_llc]. rewrite E. cbn [rbind].
      apply Hall. lia.
    + destruct Hend as [->|(s' & q' & a' & Er & R)]; [by left|right]. exists s', q', a'.
      cbn [take firstn run_llc]. rewrite E. done.
  - exists 0%nat. split; [lia|]. split.
    + intros j Hj. assert (j = 0%nat) as -> by lia. exists s. split; [done|by apply llc_inv_bounded].
    + right. by exists s, q, a.
Qed.

(** C34: cbPred's counters stay within their caps as long as the run lasts: any
    sequence of accesses from the initial state is either served to its end, or
    up to a miss in the last set, full, of a block that is not bypassed, which
    writes past the table; and in every state up to there no counter of [bhist]
    exceeds MAX_COUNTER_VAL and no set claims more than LLC_ASSOCIATIVITY
    blocks. *)
Theorem sw_counters_bounded st accs :
  llc_settings_ok st -> Forall (fun x => address (snd x)) accs ->
  exists k, (k <= length accs)%nat /\
    (forall j, (j <= k)%nat -> exists s, run_llc st (take j accs) SwLlc.initial = Ok s /\ bounded s) /\
    (k = length accs \/ exists s pfq a, run_llc st (take k accs) SwLlc.initial = Ok s /\ accs !! k = Some (pfq, a) /\
       overflows st pfq a s /\ SwLlc.accessLLCSw st pfq a s = Err Undefined).
Proof. intros Hst Hacc. apply run_llc_bounded; [done..|apply initial_inv]. Qed.

(** C23: the two predictors agree on pages: when the last-level TLB bypasses an
    address, cbPred finds the page region of every address of the same 128 kB
    in the queue, so that their blocks become candidates for bypassing. *)
Theorem tlb_bypass_reaches_cbpred st n t g a a' :
  llc_settings_ok st -> tlb_wf n t -> pfq_wf (Tlb.pfq_size (Tlb.settings t)) g ->
  address a -> address a' -> a' / 2 ^ 17 = a / 2 ^ 17 ->
  line_of (Tlb.m_cache t) (a / 4096) = None -> predicted_dead t a = true ->
  exists t' g', Tlb.allocate a t g = Ok (t', g') /\
    SwLlc.recentPFNContains (Tlb.pfq g') (SwLlc.getTagSw st a') = true.
Proof.
  intros Hst Hwf Hg Ha Ha' Hreg Hmiss Hdead.
  destruct (allocate_spec n t g a Hwf Hg Ha Hmiss) as (t' & g' & E & _ & _ & _ & _ & _ & _ & Hal).
  exists t', g'. split; [done|]. unfold allocated in Hal. rewrite Hdead in Hal.
  destruct Hal as (_ & _ & _ & _ & Hq). unfold SwLlc.recentPFNContains, SwLlc.getTagSw.
  rewrite (ls_shift _ Hst). apply existsb_exists. exists (Z.shiftr (Tlb.vpn_of t a) 17).
  split; [by apply list_elem_of_In|]. apply Z.eqb_eq.
  rewrite (vpn_of_value n) by done. rewrite !Z.shiftr_div_pow2 by lia. rewrite Hreg.
  destruct Ha as [Ha _]. pose proof (Z.div_mod a 4096 ltac:(lia)).
  replace (a - a mod 4096) with (a / 4096 * 4096) by lia.
  change (2 ^ 17) with (4096 * 32). rewrite <- !Z.div_div by lia. by rewrite Z.div_mul by lia.
Qed.

(** * A full software LLC: every set holds the tags 0 to 15 *)
Definition demo_row : list Z := [0; 1; 2; 3; 4; 5; 6; 7; 8; 9; 10; 11; 12; 13; 14; 15].

Definition full_llc (b : gmap Z Z) : SwLlc.State :=
  SwLlc.mk (concat (replicate sets demo_row)) (replicate sets 16) b ∅ 0 0 0.

Lemma length_concat_rows n : length (concat (replicate n demo_row)) = (n * SwLlc.LLC_ASSOCIATIVITY)%nat.
Proof.
  induction n as [|n IH]; [done|]. cbn [replicate concat]. rewrite length_app, IH. cbn [length demo_row].
  unfold SwLlc.LLC_ASSOCIATIVITY. lia.
Qed.

Lemma full_llc_wf b :
  map_Forall (fun _ c => 0 <= c <= SwLlc.MAX_COUNTER_VAL) b -> llc_wf (full_llc b).
Proof.
  intros Hb. split; cbn [SwLlc.llc SwLlc.alloc_blocks SwLlc.bhist full_llc].
  - apply length_concat_rows.
  - apply length_replicate.
  - apply Forall_replicate. lia.
  - done.
Qed.

Lemma full_llc_nonneg b : nonneg_tags (full_llc b).
Proof.
  unfold nonneg_tags. cbn [SwLlc.llc full_llc]. generalize sets. intros n.
  induction n as [|n IH]; [constructor|]. cbn [replicate concat]. apply Forall_app. split; [|done].
  unfold demo_row. repeat constructor; lia.
Qed.

Lemma default_llc_ok : llc_settings_ok SwLlc.default_settings.
Proof. split; cbn; lia. Qed.

(** Tag 100 in set 0 and in the last set, tag 3 in set 0. *)
Definition addr_new : Z := 100 * 2 ^ 17.
Definition addr_last : Z := 100 * 2 ^ 17 + 2047 * 64.
Definition addr_old : Z := 3 * 2 ^ 17.

Lemma demo_addresses : address addr_new /\ address addr_last /\ address addr_old.
Proof. repeat split; vm_compute; discriminate || reflexivity. Qed.

Lemma not_in_by_compute (x : Z) l : existsb (fun y => y =? x) l = false -> x ∉ l.
Proof.
  intros H Hin. rewrite (proj2 (existsb_exists _ _)) in H; [discriminate|].
  exists x. split; [by apply list_elem_of_In|apply Z.eqb_refl].
Qed.

Lemma in_by_compute (x : Z) l : existsb (fun y => y =? x) l = true -> x ∈ l.
Proof. intros (y & Hy & E)%existsb_exists. apply Z.eqb_eq in E as ->. by apply list_elem_of_In. Qed.

Lemma sw_hit_moves_to_front_witness :
  exists j s', SwLlc.accessLLCSw SwLlc.default_settings [] addr_old (full_llc ∅) = Ok s' /\ llc_wf s' /\
    stack (full_llc ∅) (set_of addr_old) !! j = Some (SwLlc.getTagSw SwLlc.default_settings addr_old) /\
    stack s' (set_of addr_old) =
      SwLlc.getTagSw SwLlc.default_settings addr_old :: delete j (stack (full_llc ∅) (set_of addr_old)) /\
    (forall set', (set' < sets)%nat -> set' <> set_of addr_old -> stack s' set' = stack (full_llc ∅) set') /\
    SwLlc.llcMiss s' = SwLlc.llcMiss (full_llc ∅).
Proof.
  apply sw_hit_moves_to_front.
  - apply full_llc_wf, map_Forall_empty.
  - apply demo_addresses.
  - apply in_by_compute. vm_compute. reflexivity.
Defined.

Lemma sw_fill_pushes_witness :
  exists s', SwLlc.accessLLCSw SwLlc.default_settings [] addr_new SwLlc.initial = Ok s' /\ llc_wf s' /\
    stack s' (set_of addr_new) =
      SwLlc.getTagSw SwLlc.default_settings addr_new :: stack SwLlc.initial (set_of addr_new) /\
    (forall set', (set' < sets)%nat -> set' <> set_of addr_new -> stack s' set' = stack SwLlc.initial set') /\
    SwLlc.llcMiss s' = u64 (SwLlc.llcMiss SwLlc.initial + 1).
Proof.
  apply sw_fill_pushes.
  - apply initial_wf.
  - apply demo_addresses.
  - apply not_in_by_compute. vm_compute. reflexivity.
  - vm_compute. lia.
Defined.

Lemma sw_predicted_block_bypassed_witness :
  exists s', SwLlc.accessLLCSw SwLlc.default_settings [100] addr_new (full_llc {[100 := 7]}) = Ok s' /\
    SwLlc.llc s' = SwLlc.llc (full_llc {[100 := 7]}) /\
    SwLlc.llcBypass s' = u64 (SwLlc.llcBypass (full_llc {[100 := 7]}) + 1) /\
    forall set, stack s' set = stack (full_llc {[100 := 7]}) set.
Proof.
  apply sw_predicted_block_bypassed.
  - exact default_llc_ok.
  - apply full_llc_wf, map_Forall_singleton. split; vm_compute; discriminate.
  - apply demo_addresses.
  - apply not_in_by_compute. vm_compute. reflexivity.
  - vm_compute. reflexivity.
  - vm_compute. reflexivity.
Defined.

Lemma sw_full_miss_corrupts_next_set_witness :
  exists s', SwLlc.accessLLCSw SwLlc.default_settings [] addr_new (full_llc ∅) = Ok s' /\
    stack s' (set_of addr_new) =
      SwLlc.getTagSw SwLlc.default_settings addr_new :: take 15 (stack (full_llc ∅) (set_of addr_new)) /\
    stack s' (S (set_of addr_new)) = <[0%nat := 15]> (stack (full_llc ∅) (S (set_of addr_new))).
Proof.
  apply (sw_full_miss_corrupts_next_set SwLlc.default_settings [] addr_new (full_llc ∅) 15 16).
  - exact default_llc_ok.
  - apply full_llc_wf, map_Forall_empty.
  - apply full_llc_nonneg.
  - apply demo_addresses.
  - apply not_in_by_compute. vm_compute. reflexivity.
  - vm_compute. reflexivity.
  - vm_compute. reflexivity.
  - vm_compute. reflexivity.
  - pose proof (Nat.ltb_lt (S (set_of addr_new)) sets) as Hlt. apply Hlt. vm_compute. reflexivity.
  - vm_compute. reflexivity.
  - lia.
Defined.

Lemma sw_last_set_writes_out_of_bounds_witness :
  SwLlc.accessLLCSw SwLlc.default_settings [] addr_last (full_llc ∅) = Err Undefined.
Proof.
  apply sw_last_set_writes_out_of_bounds.
  - exact default_llc_ok.
  - apply full_llc_wf, map_Forall_empty.
  - apply full_llc_nonneg.
  - apply demo_addresses.
  - apply not_in_by_compute. vm_compute. reflexivity.
  - vm_compute. reflexivity.
  - vm_compute. reflexivity.
  - vm_compute. reflexivity.
Defined.

Lemma sw_hit_forgets_reuse_witness :
  exists s', SwLlc.accessLLCSw SwLlc.default_settings [3] addr_old (full_llc ∅) = Ok s' /\
    SwLlc.llc_hits s' !! SwLlc.getTagSw SwLlc.default_settings addr_old = Some 0.
Proof.
  apply sw_hit_forgets_reuse.
  - apply full_llc_wf, map_Forall_empty.
  - apply demo_addresses.
  - apply in_by_compute. vm_compute. reflexivity.
  - vm_compute. reflexivity.
Defined.

Lemma sw_counters_bounded_witness :
  exists k, (k <= 1)%nat /\
    (forall j, (j <= k)%nat -> exists s, run_llc SwLlc.default_settings (take j [([], addr_new)]) SwLlc.initial = Ok s /\ bounded s) /\
    (k = 1%nat \/ exists s pfq a, run_llc SwLlc.default_settings (take k [([], addr_new)]) SwLlc.initial = Ok s /\
       [([], addr_new)] !! k = Some (pfq, a) /\
       overflows SwLlc.default_settings pfq a s /\ SwLlc.accessLLCSw SwLlc.default_settings pfq a s = Err Undefined).
Proof.
  apply (sw_counters_bounded SwLlc.default_settings [([], addr_new)]).
  - exact default_llc_ok.
  - repeat constructor; vm_compute; discriminate || reflexivity.
Defined.

Lemma tlb_bypass_reaches_cbpred_witness :
  exists t' g', Tlb.allocate 0x5000 trained_tlb (Tlb.mkShared [] 0) = Ok (t', g') /\
    SwLlc.recentPFNContains (Tlb.pfq g') (SwLlc.getTagSw SwLlc.default_settings 0x6000) = true.
Proof.
  apply (tlb_bypass_reaches_cbpred SwLlc.default_settings 4).
  - exact default_llc_ok.
  - apply trained_tlb_wf.
  - vm_compute. discriminate.
  - apply page_address.
  - apply page_address.
  - reflexivity.
  - vm_compute. reflexivity.
  - vm_compute. reflexivity.
Defined.
