(* ===== verification/BranchTables.v ===== *)
(** The tables of the branch predictors (common/performance_model/
    branch_predictors): saturating counters (saturating_predictor.h), the
    bimodal table (simple_bimodal_table.h), the branch target buffer
    (pentium_m_branch_target_buffer.h), the indirect branch target buffer
    (ibtb.h), the global predictor (global_predictor.h) and the loop predictor
    (lpb.h), with what each of them promises to the predictor that owns it. *)
From stdpp Require Import base numbers list.
From Stdlib Require Import ZArith Lia Bool.
From S2P Require Import Prelude.
Open Scope Z_scope.

Definition IntPtr := Z.

(** BranchPredictorReturnValue *)
Inductive BranchType :=
  | InvalidBranch
  | DirectBranch
  | IndirectBranch
  | UnconditionalBranch
  | ConditionalBranch.

#[global] Instance BranchType_eq_dec : EqDecision BranchType.
Proof. solve_decision. Defined.

Record BranchPredictorReturnValue := mkRet {
  prediction : bool;
  hit : bool;
  target : IntPtr;
  type : BranchType
}.

(** [{ 0, 0, 0, InvalidBranch }] *)
Definition ret_none : BranchPredictorReturnValue := mkRet false false 0 InvalidBranch.

(** * SaturatingPredictor<n>: an [int8_t] kept within [n] bits *)
Module Saturating.

(** [Pow2<N>::pow] *)
Fixpoint Pow2 (N : nat) : Z :=
  match N with
  | O => 1
  | S N' => 2 * Pow2 N'
  end.

Definition s8 (x : Z) : Z := swrap 8 x.

(** The constructor takes a UInt32 and stores it in an [int8_t]. *)
Definition create (initial_value : Z) : Z := s8 initial_value.

Definition predict (m_counter : Z) : bool := 0 <=? m_counter.

Definition reset (n : nat) (prediction : bool) : Z :=
  if prediction then s8 (Pow2 (n - 1) - 1) else s8 (- Pow2 (n - 1)).

Definition incr (n : nat) (m_counter : Z) : Z :=
  if negb (m_counter =? Pow2 (n - 1) - 1) then s8 (m_counter + 1) else m_counter.

Definition decr (n : nat) (m_counter : Z) : Z :=
  if negb (m_counter =? - Pow2 (n - 1)) then s8 (m_counter - 1) else m_counter.

Definition update (n : nat) (m_counter : Z) (actual : bool) : Z :=
  if actual then incr n m_counter else decr n m_counter.

End Saturating.

(** * The loops over the ways of a table *)
Module Ways.
Section loops.
Context {W : Type} (matches : W -> result bool) (lru : W -> result Z).

(** [for (w = 0; w < num_ways; ++w) if (match) { ...; break; }] *)
Fixpoint find_way (ways : list W) (k w : nat) : result (option nat) :=
  match k with
  | O => Ok None
  | S k' =>
      let! way := aget ways w in
      let! m := matches way in
      if m : bool then Ok (Some w) else find_way ways k' (S w)
  end.

(** The loop of the update functions: it returns at the first match ([inl]),
    and otherwise ends with the least recently used way ([inr]). *)
Fixpoint scan_lru (ways : list W) (k w lru_way : nat) : result (nat + nat) :=
  match k with
  | O => Ok (inr lru_way)
  | S k' =>
      let! way := aget ways w in
      let! m := matches way in
      if m : bool then Ok (inl w)
      else
        let! a := lru way in
        let! lway := aget ways lru_way in
        let! b := lru lway in
        scan_lru ways k' (S w) (if a <? b then w else lru_way)
  end.
End loops.
End Ways.

(** * SimpleBimodalTable *)
Module Bimodal.
Record t := mk {
  m_num_entries : Z;
  m_mask : IntPtr;
  m_table : list Z
}.

(** [for(i=0;n>0;n>>=1,i++) {} return i-1;] on a 32-bit argument: [fuel] rounds
    (32 halvings clear every UInt32). *)
Fixpoint ilog2_loop (fuel : nat) (n i : Z) : Z :=
  match fuel with
  | O => i
  | S fuel' => if 0 <? n then ilog2_loop fuel' (Z.shiftr n 1) (i + 1) else i
  end.
Definition ilog2 (n : Z) : Z := u32 (ilog2_loop 32 n 0 - 1).

(** [for (i = 0; i < ilog2(n); i++) m_mask |= (1L<<i);] *)
Fixpoint mask_loop (k : nat) (i mask : Z) : Z :=
  match k with
  | O => mask
  | S k' => mask_loop k' (i + 1) (Z.lor mask (Z.shiftl 1 i))
  end.

(** [reset()] *)
Definition reset (b : t) : t :=
  mk (m_num_entries b) (m_mask b) (map (fun _ => Saturating.reset 2 false) (m_table b)).

(** Without entries [ilog2] is the largest UInt32, and the loop shifts too far. *)
Definition create (entries : Z) : result t :=
  let b := reset (mk entries 0 (replicate (Z.to_nat entries) (Saturating.create 0))) in
  guard! ilog2 entries <? 63 else Undefined in
  Ok (mk entries (mask_loop (Z.to_nat (ilog2 entries)) 0 0) (m_table b)).

Definition predict (b : t) (ip target : IntPtr) : result bool :=
  let index := u32 (Z.land ip (m_mask b)) in
  let! c := aget (m_table b) (Z.to_nat index) in
  Ok (Saturating.predict c).

Definition update (b : t) (predicted actual : bool) (ip target : IntPtr) : result t :=
  let index := u32 (Z.land ip (m_mask b)) in
  let! c := aget (m_table b) (Z.to_nat index) in
  let! table := aset (m_table b) (Z.to_nat index)
                  (if actual then Saturating.incr 2 c else Saturating.decr 2 c) in
  Ok (mk (m_num_entries b) (m_mask b) table).
End Bimodal.

(** * PentiumMBranchTargetBuffer *)
Module Btb.
Definition NUM_WAYS : nat := 4.
Definition NUM_ENTRIES : nat := 512.
Definition TAG_OFFSET_MASK : Z := 0x3fe00f.
Definition IP_TO_INDEX (ip : IntPtr) : Z := Z.land (Z.shiftr ip 4) 0x1ff.
Definition IP_TO_TAGOFF (ip : IntPtr) : Z := Z.land ip TAG_OFFSET_MASK.

Record Way := mkWay {
  m_tag_offset : list Z;
  m_plru : list Z
}.
Definition create_way : Way := mkWay (replicate NUM_ENTRIES 0) (replicate NUM_ENTRIES 0).

Record t := mk {
  m_ways : list Way;
  m_lru_use_count : Z
}.
Definition create : t := mk (replicate NUM_WAYS create_way) 0.

(** [m_ways[i].m_tag_offset[index] == tag_offset] *)
Definition matches (index : nat) (tag_offset : Z) (w : Way) : result bool :=
  let! t := aget (m_tag_offset w) index in Ok (t =? tag_offset).
Definition way_lru (index : nat) (w : Way) : result Z := aget (m_plru w) index.

Definition lookup (b : t) (ip target : IntPtr) : result BranchPredictorReturnValue :=
  let tag_offset := u32 (IP_TO_TAGOFF ip) in
  let index := Z.to_nat (u32 (IP_TO_INDEX ip)) in
  let! w := Ways.find_way (matches index tag_offset) (m_ways b) NUM_WAYS 0 in
  Ok (mkRet false (bool_decide (is_Some w)) 0 InvalidBranch).

Definition update (b : t) (predicted actual : bool) (ip target : IntPtr) : result t :=
  let tag_offset := u32 (IP_TO_TAGOFF ip) in
  let index := Z.to_nat (u32 (IP_TO_INDEX ip)) in
  let! r := Ways.scan_lru (matches index tag_offset) (way_lru index) (m_ways b) NUM_WAYS 0 0 in
  match r with
  | inl w =>
      let! way := aget (m_ways b) w in
      let! plru := aset (m_plru way) index (m_lru_use_count b) in
      let! ways := aset (m_ways b) w (mkWay (m_tag_offset way) plru) in
      Ok (mk ways (u64 (m_lru_use_count b + 1)))
  | inr lru_way =>
      let! way := aget (m_ways b) lru_way in
      let! tags := aset (m_tag_offset way) index tag_offset in
      let! plru := aset (m_plru way) index (m_lru_use_count b) in
      let! ways := aset (m_ways b) lru_way (mkWay tags plru) in
      Ok (mk ways (u64 (m_lru_use_count b + 1)))
  end.
End Btb.

(** * IndirectBranchTargetBuffer *)
Module Ibtb.
Record t := mk {
  m_num_entries : Z;
  m_tag_bitwidth : Z;
  m_table : list Z
}.

Definition create (entries tag_bitwidth : Z) : result t :=
  guard! tag_bitwidth <=? 8 else AssertFailed in
  Ok (mk entries tag_bitwidth (replicate (Z.to_nat entries) 0)).

(** PentiumMIndirectBranchTargetBuffer *)
Definition create_pentium_m : result t := create 256 7.

Definition gen_index_tag (ip : IntPtr) : Z * Z :=
  (Z.land (Z.shiftr ip 6) 0xFF,
   Z.lor (Z.shiftr (Z.land ip 0x4000) 8) (Z.land ip 0x3F)).

Definition predict (b : t) (ip target : IntPtr) : result bool :=
  let '(index, tag) := gen_index_tag ip in
  let! v := aget (m_table b) (Z.to_nat index) in
  Ok (v =? tag).

Definition update (b : t) (predicted actual : bool) (ip target : IntPtr) : result t :=
  let '(index, tag) := gen_index_tag ip in
  let! table := aset (m_table b) (Z.to_nat index) (u8 tag) in
  Ok (mk (m_num_entries b) (m_tag_bitwidth b) table).
End Ibtb.

(** * GlobalPredictor *)
Module Global.
Record Way := mkWay {
  m_valid : list bool;
  m_tags : list Z;
  m_predictors : list Z;
  m_lru : list Z;
  m_num_entries : Z;
  m_tag_bitwidth : Z
}.

Definition create_way (entries tag_bitwidth : Z) : result Way :=
  guard! tag_bitwidth <=? 8 else AssertFailed in
  let n := Z.to_nat entries in
  Ok (mkWay (replicate n false) (replicate n 0) (replicate n (Saturating.create 0))
        (replicate n 0) entries tag_bitwidth).

Record t := mk {
  m_lru_use_count : Z;
  m_num_ways : nat;
  m_ways : list Way
}.

(** The argument [tag_bitwidth] is not used: every way has six tag bits. *)
Definition create (entries tag_bitwidth : Z) (ways : nat) : result t :=
  guard! negb (ways =? 0)%nat else Undefined in
  let! way := create_way (entries / Z.of_nat ways) 6 in
  Ok (mk 0 ways (replicate ways way)).

(** PentiumMGlobalPredictor *)
Definition create_pentium_m : result t := create 2048 6 4.

Definition gen_index_tag (ip pir : IntPtr) : Z * Z :=
  (Z.land (Z.lxor (Z.shiftr ip 4) (Z.shiftr pir 6)) 0x1FF,
   Z.land (Z.lxor (Z.shiftr ip 13) pir) 0x3F).

(** [m_ways[w].m_valid[index] && m_ways[w].m_tags[index] == tag] *)
Definition matches (index : nat) (tag : Z) (w : Way) : result bool :=
  let! v := aget (m_valid w) index in
  if v : bool then
    let! t := aget (m_tags w) index in Ok (t =? tag)
  else Ok false.
Definition way_lru (index : nat) (w : Way) : result Z := aget (m_lru w) index.

Definition predict (g : t) (ip target pir : IntPtr) : result bool :=
  let '(index, tag) := gen_index_tag ip pir in
  let! w := Ways.find_way (matches (Z.to_nat index) tag) (m_ways g) (m_num_ways g) 0 in
  Ok (bool_decide (is_Some w)).

Definition lookup (g : t) (ip target pir : IntPtr) : result BranchPredictorReturnValue :=
  let '(index, tag) := gen_index_tag ip pir in
  let! w := Ways.find_way (matches (Z.to_nat index) tag) (m_ways g) (m_num_ways g) 0 in
  match w with
  | Some w =>
      let! way := aget (m_ways g) w in
      let! c := aget (m_predictors way) (Z.to_nat index) in
      Ok (mkRet (Saturating.predict c) true 0 InvalidBranch)
  | None => Ok ret_none
  end.

Definition update (g : t) (predicted actual : bool) (ip target pir : IntPtr) : result t :=
  let '(index, tag) := gen_index_tag ip pir in
  let i := Z.to_nat index in
  let! r := Ways.scan_lru (matches i tag) (way_lru i) (m_ways g) (m_num_ways g) 0 0 in
  match r with
  | inl w =>
      let! way := aget (m_ways g) w in
      let! c := aget (m_predictors way) i in
      let! preds := aset (m_predictors way) i (Saturating.update 2 c actual) in
      let! lru := aset (m_lru way) i (m_lru_use_count g) in
      let! ways := aset (m_ways g) w
        (mkWay (m_valid way) (m_tags way) preds lru (m_num_entries way) (m_tag_bitwidth way)) in
      Ok (mk (u64 (m_lru_use_count g + 1)) (m_num_ways g) ways)
  | inr lru_way =>
      let! way := aget (m_ways g) lru_way in
      let! valid := aset (m_valid way) i true in
      let! tags := aset (m_tags way) i (u8 tag) in
      let! preds := aset (m_predictors way) i (Saturating.reset 2 actual) in
      let! lru := aset (m_lru way) i (m_lru_use_count g) in
      let! ways := aset (m_ways g) lru_way
        (mkWay valid tags preds lru (m_num_entries way) (m_tag_bitwidth way)) in
      Ok (mk (u64 (m_lru_use_count g + 1)) (m_num_ways g) ways)
  end.

Definition evict (g : t) (ip pir : IntPtr) : result t :=
  let '(index, tag) := gen_index_tag ip pir in
  let i := Z.to_nat index in
  let! w := Ways.find_way (matches i tag) (m_ways g) (m_num_ways g) 0 in
  match w with
  | Some w =>
      let! way := aget (m_ways g) w in
      let! valid := aset (m_valid way) i false in
      let! ways := aset (m_ways g) w
        (mkWay valid (m_tags way) (m_predictors way) (m_lru way) (m_num_entries way)
           (m_tag_bitwidth way)) in
      Ok (mk (m_lru_use_count g) (m_num_ways g) ways)
  | None => Ok g
  end.
End Global.

(** * LoopBranchPredictor *)
Module Loop.
Record Way := mkWay {
  m_tags : list Z;
  m_previous_actual : list Z;
  m_enabled : list Z;
  m_predictors : list Z;
  m_lru : list Z;
  m_count : list Z;
  m_limit : list Z;
  m_num_entries : Z;
  m_tag_bitwidth : Z
}.

Definition create_way (entries tag_bitwidth : Z) : result Way :=
  guard! tag_bitwidth <=? 8 else AssertFailed in
  let n := Z.to_nat entries in
  Ok (mkWay (replicate n 0) (replicate n 0) (replicate n 0) (replicate n (Saturating.create 0))
        (replicate n 0) (replicate n 0) (replicate n 0) entries tag_bitwidth).

Record t := mk {
  m_lru_use_count : Z;
  m_num_ways : nat;
  m_ways : list Way
}.

Definition create (entries tag_bitwidth : Z) (ways : nat) : result t :=
  guard! negb (ways =? 0)%nat else Undefined in
  let! way := create_way (entries / Z.of_nat ways) tag_bitwidth in
  Ok (mk 0 ways (replicate ways way)).

(** PentiumMLoopBranchPredictor *)
Definition create_pentium_m : result t := create 128 6 2.

Definition gen_index_tag (ip : IntPtr) : Z * Z :=
  (Z.land (Z.shiftr ip 4) 0x3F, Z.land (Z.shiftr ip 10) 0x3F).

(** One position of a way: the elements its seven vectors hold at an index. *)
Record Entry := mkEntry {
  e_tag : Z;
  e_previous_actual : Z;
  e_enabled : Z;
  e_predictor : Z;
  e_lru : Z;
  e_count : Z;
  e_limit : Z
}.

Definition get_entry (w : Way) (i : nat) : result Entry :=
  let! tag := aget (m_tags w) i in
  let! prev := aget (m_previous_actual w) i in
  let! en := aget (m_enabled w) i in
  let! p := aget (m_predictors w) i in
  let! l := aget (m_lru w) i in
  let! c := aget (m_count w) i in
  let! lim := aget (m_limit w) i in
  Ok (mkEntry tag prev en p l c lim).

Definition set_entry (w : Way) (i : nat) (e : Entry) : result Way :=
  let! tags := aset (m_tags w) i (e_tag e) in
  let! prevs := aset (m_previous_actual w) i (e_previous_actual e) in
  let! ens := aset (m_enabled w) i (e_enabled e) in
  let! ps := aset (m_predictors w) i (e_predictor e) in
  let! ls := aset (m_lru w) i (e_lru e) in
  let! cs := aset (m_count w) i (e_count e) in
  let! lims := aset (m_limit w) i (e_limit e) in
  Ok (mkWay tags prevs ens ps ls cs lims (m_num_entries w) (m_tag_bitwidth w)).

(** [m_ways[w].m_enabled[index] && m_ways[w].m_tags[index] == tag] *)
Definition matches_enabled (index : nat) (tag : Z) (w : Way) : result bool :=
  let! en := aget (m_enabled w) index in
  if negb (en =? 0) then
    let! t := aget (m_tags w) index in Ok (t =? tag)
  else Ok false.
(** [m_ways[w].m_tags[index] == tag] *)
Definition matches_tag (index : nat) (tag : Z) (w : Way) : result bool :=
  let! t := aget (m_tags w) index in Ok (t =? tag).
Definition way_lru (index : nat) (w : Way) : result Z := aget (m_lru w) index.

(** What a hit predicts. *)
Definition entry_prediction (e : Entry) : bool :=
  if e_count e =? e_limit e then negb (Saturating.predict (e_predictor e))
  else Saturating.predict (e_predictor e).

Definition touch (e : Entry) (lru : Z) : Entry :=
  mkEntry (e_tag e) (e_previous_actual e) (e_enabled e) (e_predictor e) lru (e_count e)
    (e_limit e).

Definition lookup (l : t) (ip target : IntPtr) : result (BranchPredictorReturnValue * t) :=
  let '(index, tag) := gen_index_tag ip in
  let i := Z.to_nat index in
  let! w := Ways.find_way (matches_enabled i tag) (m_ways l) (m_num_ways l) 0 in
  match w with
  | Some w =>
      let! way := aget (m_ways l) w in
      let! e := get_entry way i in
      let! way := set_entry way i (touch e (m_lru_use_count l)) in
      let! ways := aset (m_ways l) w way in
      Ok (mkRet (entry_prediction e) true 0 InvalidBranch,
          mk (u64 (m_lru_use_count l + 1)) (m_num_ways l) ways)
  | None => Ok (ret_none, l)
  end.

Definition prediction_match (e : Entry) (actual : bool) : bool :=
  let prediction := Saturating.predict (e_predictor e) in
  if e_count e =? e_limit e then negb (eqb prediction actual) else eqb prediction actual.

(** The same-direction control logic: the next counter, limit and enabled flag
    if the entry keeps its direction. *)
Definition same_direction (e : Entry) (actual : bool) : Z * Z * Z :=
  let current_counter := e_count e in
  let current_limit := e_limit e in
  if negb (prediction_match e actual) then
    if current_counter <? current_limit then (0, current_counter, e_enabled e)
    else (u32 (current_counter + 1), u32 (current_counter + 1), 0)
  else
    ((if current_counter =? current_limit then 0 else u32 (current_counter + 1)),
     current_limit, e_enabled e).

(** The body of the tag match in [update]. *)
Definition update_entry (e : Entry) (actual : bool) (lru : Z) : Entry :=
  let current_prediction := Saturating.predict (e_predictor e) in
  let previous_actual := negb (e_previous_actual e =? 0) in
  let '(same_counter, same_limit, same_enabled) := same_direction e actual in
  if eqb previous_actual actual && eqb actual (negb current_prediction) then
    mkEntry (e_tag e) (Z.b2z actual) 0 (Saturating.update 1 (e_predictor e) actual) lru 1 1
  else if negb (eqb previous_actual actual) && eqb actual (negb current_prediction)
          && (e_enabled e =? 0) then
    mkEntry (e_tag e) (Z.b2z actual) 1 (e_predictor e) lru 0 (e_limit e)
  else
    mkEntry (e_tag e) (Z.b2z actual) same_enabled (e_predictor e) lru same_counter same_limit.

(** The entry written when no way holds the tag; the enabled flag stays. *)
Definition allocate_entry (e : Entry) (tag : Z) (actual : bool) (lru : Z) : Entry :=
  mkEntry (u8 tag) (Z.b2z actual) (e_enabled e) (Saturating.reset 1 actual) lru 1 1.

Definition update (l : t) (predicted actual : bool) (ip target : IntPtr) : result t :=
  let '(index, tag) := gen_index_tag ip in
  let i := Z.to_nat index in
  let! r := Ways.scan_lru (matches_tag i tag) (way_lru i) (m_ways l) (m_num_ways l) 0 0 in
  let '(w, f) :=
    match r with
    | inl w => (w, fun e => update_entry e actual (m_lru_use_count l))
    | inr lru_way => (lru_way, fun e => allocate_entry e tag actual (m_lru_use_count l))
    end in
  let! way := aget (m_ways l) w in
  let! e := get_entry way i in
  let! way := set_entry way i (f e) in
  let! ways := aset (m_ways l) w way in
  Ok (mk (u64 (m_lru_use_count l + 1)) (m_num_ways l) ways).
End Loop.

(** * Lemmas on the loops *)
Section WayLoops.
Context {W : Type} (matches : W -> result bool) (lru : W -> result Z).
Context (hits : W -> bool) (age : W -> Z) (ways : list W).
Hypothesis matches_ok : forall j way, ways !! j = Some way -> matches way = Ok (hits way).
Hypothesis lru_ok : forall j way, ways !! j = Some way -> lru way = Ok (age way).

Lemma find_way_drop k w :
  (w + k = length ways)%nat ->
  Ways.find_way matches ways k w =
    Ok (option_map (Nat.add w) (find_first hits (drop w ways))).
Proof using matches_ok.
  revert w. induction k as [|k IH]; intros w Hk; simpl.
  - by rewrite drop_ge by lia.
  - destruct (lookup_lt_is_Some_2 ways w) as [way Hway]; [lia|].
    unfold aget. rewrite Hway. simpl. rewrite (matches_ok w) by done. simpl.
    rewrite (drop_S ways way w) by done. simpl. destruct (hits way); simpl.
    + by rewrite Nat.add_0_r.
    + rewrite IH by lia. destruct (find_first hits (drop (S w) ways)); simpl; [|done].
      by rewrite Nat.add_succ_r.
Qed.

Lemma find_way_first n :
  n = length ways -> Ways.find_way matches ways n 0 = Ok (find_first hits ways).
Proof using matches_ok.
  intros ->. rewrite find_way_drop by lia. rewrite drop_0. by destruct (find_first hits ways).
Qed.

(** What the update loop returns: the first match, or the oldest way. *)
Definition scan_result (r : nat + nat) : Prop :=
  match r with
  | inl w => find_first hits ways = Some w
  | inr v => find_first hits ways = None /\
      exists wv, ways !! v = Some wv /\
        forall j wj, ways !! j = Some wj -> age wv <= age wj
  end.

Lemma scan_lru_from k w lru_way wl :
  (w + k = length ways)%nat -> ways !! lru_way = Some wl ->
  (forall j wj, (j < w)%nat -> ways !! j = Some wj -> hits wj = false /\ age wl <= age wj) ->
  exists r, Ways.scan_lru matches lru ways k w lru_way = Ok r /\ scan_result r.
Proof using matches_ok lru_ok.
  revert w lru_way wl. induction k as [|k IH]; intros w lru_way wl Hk Hwl Hbefore; simpl.
  - exists (inr lru_way). split; [done|]. split.
    + apply find_first_None. intros j x Hx. apply (Hbefore j); [|done].
      apply lookup_lt_Some in Hx. lia.
    + exists wl. split; [done|]. intros j wj Hj. apply (Hbefore j); [|done].
      apply lookup_lt_Some in Hj. lia.
  - destruct (lookup_lt_is_Some_2 ways w) as [way Hway]; [lia|].
    unfold aget. rewrite Hway. simpl. rewrite (matches_ok w) by done. simpl.
    destruct (hits way) eqn:Hh.
    + exists (inl w). split; [done|]. simpl.
      destruct (find_first hits ways) as [w'|] eqn:Hf.
      * apply find_first_Some in Hf as [(x & Hx & Hhx) Hlt].
        destruct (Nat.lt_trichotomy w w') as [Hl|[->|Hl]]; [|done|].
        -- specialize (Hlt w way Hl Hway). congruence.
        -- destruct (Hbefore w' x Hl Hx). congruence.
      * rewrite find_first_None in Hf. specialize (Hf w way Hway). congruence.
    + rewrite (lru_ok w) by done. simpl. rewrite Hwl. simpl. rewrite (lru_ok lru_way) by done.
      simpl. destruct (Z.ltb_spec (age way) (age wl)).
      all: eapply IH; [lia|eassumption|]; intros j wj Hj Hwj.
      all: destruct (decide (j = w)) as [->|]; [|destruct (Hbefore j wj ltac:(lia) Hwj)].
      all: simplify_eq; split; [done|lia].
Qed.

Lemma scan_lru_spec n :
  n = length ways -> (0 < n)%nat ->
  exists r, Ways.scan_lru matches lru ways n 0 0 = Ok r /\ scan_result r.
Proof using matches_ok lru_ok.
  intros -> Hpos. destruct (lookup_lt_is_Some_2 ways 0%nat) as [wl Hwl]; [lia|].
  eapply scan_lru_from; [lia|done|lia].
Qed.
End WayLoops.

(** * Lemmas on saturating counters *)
Lemma s8_small x : -128 <= x < 128 -> Saturating.s8 x = x.
Proof.
  intros. unfold Saturating.s8, swrap. change (2 ^ (8 - 1)) with 128. change (2 ^ 8) with 256.
  rewrite Z.mod_small by lia. lia.
Qed.

Lemma Pow2_pow n : Saturating.Pow2 n = 2 ^ Z.of_nat n.
Proof.
  induction n as [|n IH]; [done|]. cbn [Saturating.Pow2].
  rewrite IH, Nat2Z.inj_succ, Z.pow_succ_r by lia. done.
Qed.

(** The values of an [n]-bit counter. *)
Definition sat_ok (n : nat) (c : Z) : Prop :=
  - 2 ^ (Z.of_nat n - 1) <= c <= 2 ^ (Z.of_nat n - 1) - 1.

Lemma sat_bound n : (1 <= n <= 8)%nat -> 1 <= 2 ^ (Z.of_nat n - 1) <= 128.
Proof.
  intros Hn. split.
  - change 1 with (2 ^ 0). apply Z.pow_le_mono_r; lia.
  - change 128 with (2 ^ 7). apply Z.pow_le_mono_r; lia.
Qed.

Lemma Pow2_half n : (1 <= n)%nat -> Saturating.Pow2 (n - 1) = 2 ^ (Z.of_nat n - 1).
Proof. intros. rewrite Pow2_pow. f_equal. lia. Qed.

Lemma sat_update_value n c a :
  (1 <= n <= 8)%nat -> sat_ok n c ->
  Saturating.update n c a =
    if a then Z.min (c + 1) (2 ^ (Z.of_nat n - 1) - 1)
    else Z.max (c - 1) (- 2 ^ (Z.of_nat n - 1)).
Proof.
  intros Hn Hc. pose proof (sat_bound n Hn) as Hb. unfold sat_ok in Hc.
  unfold Saturating.update, Saturating.incr, Saturating.decr. rewrite Pow2_half by lia.
  destruct a; case_match; zbool; rewrite ?s8_small by lia; lia.
Qed.

Lemma sat_update_ok n c a :
  (1 <= n <= 8)%nat -> sat_ok n c -> sat_ok n (Saturating.update n c a).
Proof.
  intros Hn Hc. rewrite sat_update_value by done. pose proof (sat_bound n Hn).
  unfold sat_ok in *. destruct a; lia.
Qed.

Lemma sat_reset_value n a :
  (1 <= n <= 8)%nat ->
  Saturating.reset n a = if a then 2 ^ (Z.of_nat n - 1) - 1 else - 2 ^ (Z.of_nat n - 1).
Proof.
  intros Hn. pose proof (sat_bound n Hn). unfold Saturating.reset. rewrite Pow2_half by lia.
  destruct a; apply s8_small; lia.
Qed.

Lemma sat_reset_ok n a : (1 <= n <= 8)%nat -> sat_ok n (Saturating.reset n a).
Proof.
  intros Hn. rewrite sat_reset_value by done. pose proof (sat_bound n Hn).
  unfold sat_ok. destruct a; lia.
Qed.

Lemma sat_reset_predict n a : (1 <= n <= 8)%nat -> Saturating.predict (Saturating.reset n a) = a.
Proof.
  intros Hn. rewrite sat_reset_value by done. pose proof (sat_bound n Hn).
  unfold Saturating.predict. destruct a; [apply Z.leb_le|apply Z.leb_gt]; lia.
Qed.

#[export] Hint Resolve sat_update_ok sat_reset_ok : sim.

(** The counter after a sequence of outcomes. *)
Definition sat_run (n : nat) (c : Z) (outcomes : list bool) : Z :=
  fold_left (Saturating.update n) outcomes c.

Lemma sat_run_ok n c l : (1 <= n <= 8)%nat -> sat_ok n c -> sat_ok n (sat_run n c l).
Proof.
  intros Hn. revert c. induction l as [|a l IH]; intros c Hc; [done|].
  simpl. apply IH. by apply sat_update_ok.
Qed.

Lemma sat_run_app n c l1 l2 : sat_run n c (l1 ++ l2) = sat_run n (sat_run n c l1) l2.
Proof. apply fold_left_app. Qed.

Lemma sat_run_repeat n c a k :
  (1 <= n <= 8)%nat -> sat_ok n c ->
  sat_run n c (replicate k a) =
    if a then Z.min (c + Z.of_nat k) (2 ^ (Z.of_nat n - 1) - 1)
    else Z.max (c - Z.of_nat k) (- 2 ^ (Z.of_nat n - 1)).
Proof.
  intros Hn. revert c. induction k as [|k IH]; intros c Hc.
  - unfold sat_ok in Hc. destruct a; simpl; lia.
  - cbn [replicate sat_run fold_left]. fold (sat_run n (Saturating.update n c a) (replicate k a)).
    rewrite IH by (by apply sat_update_ok). rewrite sat_update_value by done.
    pose proof (sat_bound n Hn). unfold sat_ok in Hc. destruct a; lia.
Qed.

(** Whatever a counter of [n >= 2] bits has seen before, [2 ^ n - 1] equal
    outcomes in a row make it predict that outcome, and a single different
    outcome does not change the prediction. *)
Theorem sat_learns_and_tolerates (n k : nat) (history : list bool) (a : bool) :
  (2 <= n <= 8)%nat -> 2 ^ Z.of_nat n - 1 <= Z.of_nat k ->
  let c := sat_run n (Saturating.create 0) (history ++ replicate k a) in
  sat_ok n c /\ Saturating.predict c = a /\
  Saturating.predict (Saturating.update n c (negb a)) = a.
Proof.
  intros Hn Hk c. assert (Hc0 : sat_ok n (Saturating.create 0)).
  { pose proof (sat_bound n ltac:(lia)). unfold Saturating.create. rewrite s8_small by lia.
    unfold sat_ok. lia. }
  pose proof (sat_run_ok n _ history ltac:(lia) Hc0) as Hh.
  assert (Hcv : c = if a then 2 ^ (Z.of_nat n - 1) - 1 else - 2 ^ (Z.of_nat n - 1)).
  { unfold c. rewrite sat_run_app, sat_run_repeat by (done || lia).
    replace (Z.of_nat n) with (Z.succ (Z.of_nat n - 1)) in Hk by lia.
    rewrite Z.pow_succ_r in Hk by lia. unfold sat_ok in Hh. destruct a; lia. }
  assert (2 <= 2 ^ (Z.of_nat n - 1)).
  { change 2 with (2 ^ 1) at 1. apply Z.pow_le_mono_r; lia. }
  assert (Hc : sat_ok n c) by (rewrite Hcv; unfold sat_ok; destruct a; lia).
  split; [done|]. rewrite sat_update_value by (done || lia). rewrite Hcv.
  unfold Saturating.predict. destruct a; simpl; split;
    first [apply Z.leb_le|apply Z.leb_gt]; lia.
Qed.

(** * The bits of an address used as an index *)
Lemma land_mask_range x m k :
  0 <= k -> m = 2 ^ k - 1 -> 0 <= Z.land x m < 2 ^ k.
Proof. intros Hk ->. rewrite land_ones_mod by done. apply Z.mod_pos_bound. lia. Qed.

Lemma lookup_replicate_all {A} (l : list A) n x j y : l = replicate n x -> l !! j = Some y -> y = x.
Proof. intros ->. by intros [? _]%lookup_replicate_1. Qed.

(** A write at one position of a table of ways, as the other positions see it. *)
Lemma ways_insert_lookup {W} (P : W -> Prop) (ways : list W) w way :
  (forall j x, ways !! j = Some x -> P x) -> P way ->
  forall j x, <[w := way]> ways !! j = Some x -> P x.
Proof.
  intros Hall Hway j x Hj. destruct (decide (w < length ways)%nat) as [Hw|Hw].
  - rewrite lookup_insert_in in Hj by done. case_decide; [congruence|by eapply Hall].
  - rewrite list_insert_ge in Hj by lia. by eapply Hall.
Qed.

(** * The branch target buffer *)
Section BtbFacts.
Import Btb.

Definition btb_way_ok (w : Way) : Prop :=
  length (m_tag_offset w) = NUM_ENTRIES /\ length (m_plru w) = NUM_ENTRIES.
Definition btb_wf (b : t) : Prop :=
  length (m_ways b) = NUM_WAYS /\ forall j w, m_ways b !! j = Some w -> btb_way_ok w.

Definition btb_index (ip : IntPtr) : nat := Z.to_nat (u32 (IP_TO_INDEX ip)).
Definition btb_tag (ip : IntPtr) : Z := u32 (IP_TO_TAGOFF ip).

Lemma btb_index_lt ip : (btb_index ip < NUM_ENTRIES)%nat.
Proof.
  unfold btb_index, IP_TO_INDEX, NUM_ENTRIES.
  pose proof (land_mask_range (Z.shiftr ip 4) 0x1ff 9 ltac:(lia) eq_refl) as H.
  change (2 ^ 9) with 512 in H. rewrite u32_small by lia. lia.
Qed.

Lemma btb_create_wf : btb_wf create.
Proof.
  split; [done|]. intros j w ->%(lookup_replicate_all _ NUM_WAYS create_way); [|done]. done.
Qed.

Lemma btb_matches_ok i tag w :
  btb_way_ok w -> (i < NUM_ENTRIES)%nat ->
  matches i tag w = Ok (default 0 (m_tag_offset w !! i) =? tag).
Proof.
  intros [Ht _] Hi. unfold matches, aget.
  destruct (lookup_lt_is_Some_2 (m_tag_offset w) i) as [x ->]; [lia|done].
Qed.

Lemma btb_lru_ok i w :
  btb_way_ok w -> (i < NUM_ENTRIES)%nat -> way_lru i w = Ok (default 0 (m_plru w !! i)).
Proof.
  intros [_ Hl] Hi. unfold way_lru, aget.
  destruct (lookup_lt_is_Some_2 (m_plru w) i) as [x ->]; [lia|done].
Qed.

(** A position of the buffer holds a tag. *)
Definition btb_holds (b : t) (i : nat) (tag : Z) : Prop :=
  exists w way, m_ways b !! w = Some way /\ m_tag_offset way !! i = Some tag.

Lemma btb_lookup_ok b ip tgt :
  btb_wf b -> exists r, lookup b ip tgt = Ok r /\
    (hit r = true <-> btb_holds b (btb_index ip) (btb_tag ip)).
Proof.
  intros [Hlen Hways]. pose proof (btb_index_lt ip) as Hi. unfold lookup.
  fold (btb_index ip) (btb_tag ip).
  rewrite (find_way_first _ (fun w => default 0 (m_tag_offset w !! btb_index ip) =? btb_tag ip))
    by (done || (intros; apply btb_matches_ok; eauto)).
  simpl. eexists. split; [done|]. simpl. rewrite bool_decide_eq_true. split.
  - intros [w Hf]. apply find_first_Some in Hf as [(way & Hw & Hm) _]. exists w, way.
    split; [done|].
    destruct (lookup_lt_is_Some_2 (m_tag_offset way) (btb_index ip)) as [x Hx].
    { destruct (Hways w way Hw) as [-> _]. done. }
    rewrite Hx in *. simpl in Hm. zbool. by subst.
  - intros (w & way & Hw & Hx). destruct (find_first _ _) eqn:Hf; [by eexists|].
    rewrite find_first_None in Hf. specialize (Hf w way Hw). rewrite Hx in Hf. simpl in Hf.
    zbool. done.
Qed.

(** Writing position [i] of one way. *)
Lemma btb_put b w way way' i tag c :
  btb_wf b -> m_ways b !! w = Some way -> btb_way_ok way' ->
  m_tag_offset way' !! i = Some tag ->
  (forall j, j <> i -> m_tag_offset way' !! j = m_tag_offset way !! j) ->
  let b' := mk (<[w := way']> (m_ways b)) c in
  btb_wf b' /\ btb_holds b' i tag /\
  forall j tag', j <> i -> btb_holds b j tag' -> btb_holds b' j tag'.
Proof.
  intros [Hlen Hways] Hw Hok Hi Hother b'. pose proof (lookup_lt_Some _ _ _ Hw).
  split_and!.
  - split; simpl; [by rewrite length_insert|]. by apply ways_insert_lookup.
  - exists w, way'. simpl. by rewrite list_lookup_insert_eq.
  - intros j tag' Hne (w' & x & Hw' & Hx). exists w'. simpl.
    destruct (decide (w = w')) as [<-|].
    + exists way'. rewrite list_lookup_insert_eq by done. rewrite Hother by done.
      split; [done|congruence].
    + exists x. by rewrite list_lookup_insert_ne.
Qed.

(** An update leaves the buffer well formed and holding the branch; the other
    positions keep what they hold. *)
Lemma btb_update_ok b predicted actual ip tgt :
  btb_wf b -> exists b', update b predicted actual ip tgt = Ok b' /\ btb_wf b' /\
    btb_holds b' (btb_index ip) (btb_tag ip) /\
    forall i tag, i <> btb_index ip -> btb_holds b i tag -> btb_holds b' i tag.
Proof.
  intros Hwf. pose proof Hwf as [Hlen Hways]. pose proof (btb_index_lt ip) as Hi.
  unfold update. fold (btb_index ip) (btb_tag ip).
  destruct (scan_lru_spec (matches (btb_index ip) (btb_tag ip)) (way_lru (btb_index ip))
    (fun w => default 0 (m_tag_offset w !! btb_index ip) =? btb_tag ip)
    (fun w => default 0 (m_plru w !! btb_index ip)) (m_ways b)) with (n := NUM_WAYS)
    as (r & -> & Hr); [eauto using btb_matches_ok|eauto using btb_lru_ok|done|unfold NUM_WAYS; lia|].
  destruct r as [w|w]; simpl in Hr |- *.
  - apply find_first_Some in Hr as [(way & Hw & Hm) _].
    destruct (Hways w way Hw) as [Ht Hp]. rewrite (aget_Ok _ _ _ Hw). simpl.
    rewrite aset_Ok by lia. simpl. rewrite aset_Ok by (by eapply lookup_lt_Some). simpl.
    eexists. split; [done|]. apply (btb_put b w way); simpl; try done.
    + split; simpl; by rewrite ?length_insert.
    + destruct (lookup_lt_is_Some_2 (m_tag_offset way) (btb_index ip)) as [x Hx]; [lia|].
      rewrite Hx in Hm |- *. simpl in Hm. zbool. by subst.
  - destruct Hr as (_ & way & Hw & _).
    destruct (Hways w way Hw) as [Ht Hp]. rewrite (aget_Ok _ _ _ Hw). simpl.
    rewrite !aset_Ok by lia. simpl. rewrite aset_Ok by (by eapply lookup_lt_Some). simpl.
    eexists. split; [done|]. apply (btb_put b w way); simpl; try done.
    + split; simpl; by rewrite ?length_insert.
    + apply list_lookup_insert_eq. lia.
    + intros. by apply list_lookup_insert_ne.
Qed.
End BtbFacts.

(** * The global predictor *)
Section GlobalFacts.
Import Global.

Definition gp_entries : nat := 512.

Definition gp_way_ok (w : Way) : Prop :=
  length (m_valid w) = gp_entries /\ length (m_tags w) = gp_entries /\
  length (m_predictors w) = gp_entries /\ length (m_lru w) = gp_entries /\
  (forall i c, m_predictors w !! i = Some c -> sat_ok 2 c).

(** Position [i] of a way holds a valid entry with this tag. *)
Definition gp_hits (i : nat) (tag : Z) (w : Way) : bool :=
  default false (m_valid w !! i) && (default 0 (m_tags w !! i) =? tag).

(** Sizes, and no two ways hold the same tag at the same index. *)
Definition gp_wf (g : t) : Prop :=
  length (m_ways g) = m_num_ways g /\ (0 < m_num_ways g)%nat /\
  (forall w way, m_ways g !! w = Some way -> gp_way_ok way) /\
  (forall i tag w1 w2 x1 x2, m_ways g !! w1 = Some x1 -> m_ways g !! w2 = Some x2 ->
     gp_hits i tag x1 = true -> gp_hits i tag x2 = true -> w1 = w2).

Definition gp_index (ip pir : IntPtr) : nat := Z.to_nat (fst (gen_index_tag ip pir)).
Definition gp_tag (ip pir : IntPtr) : Z := snd (gen_index_tag ip pir).

Lemma gp_index_lt ip pir : (gp_index ip pir < gp_entries)%nat.
Proof.
  unfold gp_index, gen_index_tag, gp_entries. cbn [fst].
  pose proof (land_mask_range (Z.lxor (Z.shiftr ip 4) (Z.shiftr pir 6)) 0x1FF 9 ltac:(lia) eq_refl).
  change (2 ^ 9) with 512 in *. lia.
Qed.

Lemma gp_tag_range ip pir : 0 <= gp_tag ip pir < 64.
Proof. apply (land_mask_range (Z.lxor (Z.shiftr ip 13) pir) 0x3F 6 ltac:(lia) eq_refl). Qed.

Lemma gp_matches_ok i tag w :
  gp_way_ok w -> (i < gp_entries)%nat -> matches i tag w = Ok (gp_hits i tag w).
Proof.
  intros (Hv & Ht & _) Hi. unfold matches, gp_hits, aget.
  destruct (lookup_lt_is_Some_2 (m_valid w) i) as [v ->]; [lia|]. simpl.
  destruct v; simpl; [|done].
  destruct (lookup_lt_is_Some_2 (m_tags w) i) as [x ->]; [lia|]. done.
Qed.

Lemma gp_lru_ok i w :
  gp_way_ok w -> (i < gp_entries)%nat -> way_lru i w = Ok (default 0 (m_lru w !! i)).
Proof.
  intros (_ & _ & _ & Hl & _) Hi. unfold way_lru, aget.
  destruct (lookup_lt_is_Some_2 (m_lru w) i) as [x ->]; [lia|done].
Qed.

Lemma gp_find_way g i tag :
  gp_wf g -> (i < gp_entries)%nat ->
  Ways.find_way (matches i tag) (m_ways g) (m_num_ways g) 0 =
    Ok (find_first (gp_hits i tag) (m_ways g)).
Proof.
  intros (Hlen & _ & Hways & _) Hi. apply find_way_first; [|done].
  intros j way Hj. apply gp_matches_ok; eauto.
Qed.

Lemma gp_scan g i tag :
  gp_wf g -> (i < gp_entries)%nat ->
  exists r, Ways.scan_lru (matches i tag) (way_lru i) (m_ways g) (m_num_ways g) 0 0 = Ok r /\
    scan_result (gp_hits i tag) (fun w => default 0 (m_lru w !! i)) (m_ways g) r.
Proof.
  intros (Hlen & Hpos & Hways & _) Hi. apply scan_lru_spec; [| |done|done].
  - intros j way Hj. apply gp_matches_ok; eauto.
  - intros j way Hj. apply gp_lru_ok; eauto.
Qed.

(** The unique way that hits is the one the loop finds. *)
Lemma gp_find_unique g i tag w way :
  gp_wf g -> m_ways g !! w = Some way -> gp_hits i tag way = true ->
  find_first (gp_hits i tag) (m_ways g) = Some w.
Proof.
  intros (_ & _ & _ & Huniq) Hw Hh. destruct (find_first _ _) as [w'|] eqn:Hf.
  - apply find_first_Some in Hf as [(x & Hx & Hhx) _]. f_equal. by eapply Huniq.
  - rewrite find_first_None in Hf. specialize (Hf w way Hw). congruence.
Qed.

(** What a lookup returns, read off the ways. *)
Definition gp_answer (i : nat) (tag : Z) (ways : list Way) : BranchPredictorReturnValue :=
  match find_first (gp_hits i tag) ways with
  | Some w =>
      mkRet (Saturating.predict (default 0 (way ← ways !! w; m_predictors way !! i)))
        true 0 InvalidBranch
  | None => ret_none
  end.

Lemma gp_answer_hit g i tag w way c :
  gp_wf g -> m_ways g !! w = Some way -> gp_hits i tag way = true ->
  m_predictors way !! i = Some c ->
  gp_answer i tag (m_ways g) = mkRet (Saturating.predict c) true 0 InvalidBranch.
Proof.
  intros Hwf Hw Hh Hc. unfold gp_answer. rewrite (gp_find_unique g i tag w way) by done.
  rewrite Hw. simpl. by rewrite Hc.
Qed.

Lemma gp_lookup_ok g ip tgt pir :
  gp_wf g -> lookup g ip tgt pir = Ok (gp_answer (gp_index ip pir) (gp_tag ip pir) (m_ways g)).
Proof.
  intros Hwf. pose proof (gp_index_lt ip pir) as Hi. unfold lookup.
  rewrite (surjective_pairing (gen_index_tag ip pir)). fold (gp_index ip pir) (gp_tag ip pir).
  rewrite gp_find_way by done. simpl. unfold gp_answer.
  destruct (find_first _ _) as [w|] eqn:Hf; [|done].
  apply find_first_Some in Hf as [(way & Hw & _) _].
  rewrite (aget_Ok _ _ _ Hw). simpl. rewrite Hw. simpl.
  destruct Hwf as (_ & _ & Hways & _). destruct (Hways w way Hw) as (_ & _ & Hp & _).
  destruct (lookup_lt_is_Some_2 (m_predictors way) (gp_index ip pir)) as [c Hc]; [lia|].
  rewrite (aget_Ok _ _ _ Hc). simpl. by rewrite Hc.
Qed.

(** Replacing one way by another that differs at index [i] only and that holds
    there at most [tag], which no other way holds. *)
Lemma gp_put g w way way' i tag c :
  gp_wf g -> m_ways g !! w = Some way -> gp_way_ok way' ->
  (forall j tag', j <> i -> gp_hits j tag' way' = gp_hits j tag' way) ->
  (forall tag', gp_hits i tag' way' = true -> tag' = tag) ->
  (forall w' x, w' <> w -> m_ways g !! w' = Some x -> gp_hits i tag x = false) ->
  gp_wf (mk c (m_num_ways g) (<[w := way']> (m_ways g))).
Proof.
  intros (Hlen & Hpos & Hways & Huniq) Hw Hok Hother Honly Hnone.
  pose proof (lookup_lt_Some _ _ _ Hw) as Hlt. split_and!; simpl; [by rewrite length_insert|done| |].
  - by apply ways_insert_lookup.
  - intros j tag' w1 w2 x1 x2. rewrite !lookup_insert_in by done.
    destruct (decide (w = w1)) as [<-|Hn1], (decide (w = w2)) as [<-|Hn2]; try done; intros H1 H2.
    + injection H1 as <-. intros Hh1 Hh2. destruct (decide (j = i)) as [->|Hj].
      * apply Honly in Hh1 as ->. rewrite (Hnone w2 x2) in Hh2; congruence.
      * rewrite Hother in Hh1 by done. by eapply Huniq.
    + injection H2 as <-. intros Hh1 Hh2. destruct (decide (j = i)) as [->|Hj].
      * apply Honly in Hh2 as ->. rewrite (Hnone w1 x1) in Hh1; congruence.
      * rewrite Hother in Hh2 by done. by eapply Huniq.
    + intros Hh1 Hh2. by eapply Huniq.
Qed.

(** The answers for the entries a write at [(w, i)] does not concern. *)
Lemma gp_answer_frame g w way way' i tag j tag' c :
  gp_wf g -> gp_wf (mk c (m_num_ways g) (<[w := way']> (m_ways g))) ->
  m_ways g !! w = Some way -> (j, tag') <> (i, tag) ->
  (forall k, k <> i -> m_predictors way' !! k = m_predictors way !! k) ->
  (forall k t', (k, t') <> (i, tag) -> gp_hits k t' way' = gp_hits k t' way) ->
  (j = i -> gp_hits j tag' way = false) ->
  gp_answer j tag' (<[w := way']> (m_ways g)) = gp_answer j tag' (m_ways g).
Proof.
  intros Hwf Hwf' Hw Hne Hpred Hhits Hsame. pose proof (lookup_lt_Some _ _ _ Hw) as Hlt.
  unfold gp_answer.
  assert (Hff : find_first (gp_hits j tag') (<[w := way']> (m_ways g)) =
                find_first (gp_hits j tag') (m_ways g)).
  { destruct (find_first (gp_hits j tag') (m_ways g)) as [v|] eqn:Hf.
    - apply find_first_Some in Hf as [(x & Hx & Hhx) _].
      destruct (decide (w = v)) as [<-|Hv].
      + refine (gp_find_unique _ _ _ w way' Hwf' _ _); simpl.
        * by apply list_lookup_insert_eq.
        * rewrite Hhits by done. congruence.
      + refine (gp_find_unique _ _ _ v x Hwf' _ Hhx). simpl. by rewrite list_lookup_insert_ne.
    - apply find_first_None. rewrite find_first_None in Hf. intros k x.
      rewrite lookup_insert_in by done. case_decide; [|apply Hf].
      intros [= <-]. rewrite Hhits by done. by eapply Hf. }
  rewrite Hff. clear Hff. destruct (find_first (gp_hits j tag') (m_ways g)) as [v|] eqn:Hf; [|reflexivity].
  do 3 f_equal.
  rewrite lookup_insert_in by done. case_decide as Hv; [subst v|done].
  rewrite Hw. cbn. apply Hpred. intros ->.
  apply find_first_Some in Hf as [(x & Hx & Hhx) _]. rewrite Hw in Hx.
  injection Hx as <-. rewrite Hsame in Hhx; done.
Qed.

Lemma gp_hits_insert_ne w i j tag v' t' p' l' n b :
  j <> i ->
  gp_hits j tag (mkWay (<[i := v']> (m_valid w)) (<[i := t']> (m_tags w)) p' l' n b) =
  gp_hits j tag w.
Proof. intros. unfold gp_hits. simpl. by rewrite !list_lookup_insert_ne. Qed.

Lemma gp_fresh_wf n ways way :
  n = gp_entries -> (0 < ways)%nat ->
  way = mkWay (replicate n false) (replicate n 0) (replicate n (Saturating.create 0))
          (replicate n 0) 512 6 ->
  gp_wf (mk 0 ways (replicate ways way)).
Proof.
  intros Hn Hpos Hway. split_and!; simpl; [apply length_replicate|done| |].
  - intros w x [-> _]%lookup_replicate_1. subst way.
    split_and!; simpl; rewrite ?length_replicate; try done.
    intros i c [-> _]%lookup_replicate_1. vm_compute. split; discriminate.
  - intros i tag w1 w2 x1 x2 [-> _]%lookup_replicate_1 _. subst way. unfold gp_hits. simpl.
    destruct (replicate n false !! i) as [v|] eqn:Hv; [|done].
    apply lookup_replicate_1 in Hv as [-> _]. done.
Qed.

Lemma gp_create_wf : exists g, create_pentium_m = Ok g /\ gp_wf g.
Proof.
  eexists. split; [reflexivity|].
  apply (gp_fresh_wf 512 4); [done|lia|reflexivity].
Qed.

Lemma gp_put_hit g w way way' i tag c n :
  gp_wf g -> m_ways g !! w = Some way -> gp_way_ok way' ->
  (forall j tag', j <> i -> gp_hits j tag' way' = gp_hits j tag' way) ->
  (forall tag', gp_hits i tag' way' = true -> tag' = tag) ->
  (forall w' x, w' <> w -> m_ways g !! w' = Some x -> gp_hits i tag x = false) ->
  gp_hits i tag way' = true -> m_predictors way' !! i = Some c ->
  let g' := mk n (m_num_ways g) (<[w := way']> (m_ways g)) in
  gp_wf g' /\
  gp_answer i tag (m_ways g') = mkRet (Saturating.predict c) true 0 InvalidBranch.
Proof.
  intros Hwf Hw Hok Hother Honly Hnone Hh Hc g'.
  assert (gp_wf g') by (by eapply gp_put). split; [done|].
  apply (gp_answer_hit g' i tag w way'); try done.
  apply list_lookup_insert_eq. by eapply lookup_lt_Some.
Qed.

(** A way whose vectors keep their sizes and gets a counter in range. *)
Lemma gp_way_ok_write way i c l v ts :
  gp_way_ok way -> sat_ok 2 c ->
  length v = gp_entries -> length ts = gp_entries ->
  gp_way_ok (mkWay v ts (<[i := c]> (m_predictors way)) (<[i := l]> (m_lru way))
    (m_num_entries way) (m_tag_bitwidth way)).
Proof.
  intros (_ & _ & Hp & Hl & Hsat) Hc Hv Ht.
  split_and!; simpl; rewrite ?length_insert; try done. intros j c' Hj.
  destruct (decide (i < length (m_predictors way))%nat).
  - rewrite lookup_insert_in in Hj by done. case_decide; [congruence|by eapply Hsat].
  - rewrite list_insert_ge in Hj by lia. by eapply Hsat.
Qed.

(** An update always succeeds, keeps the table well formed and makes the next
    lookup of the same branch hit: an entry that was there moves its counter,
    a new entry predicts the outcome just seen. *)
Lemma gp_update_ok g predicted actual ip tgt pir :
  gp_wf g ->
  exists g', update g predicted actual ip tgt pir = Ok g' /\ gp_wf g' /\
    exists c, sat_ok 2 c /\
      gp_answer (gp_index ip pir) (gp_tag ip pir) (m_ways g') =
        mkRet (Saturating.predict c) true 0 InvalidBranch /\
      (find_first (gp_hits (gp_index ip pir) (gp_tag ip pir)) (m_ways g) = None ->
       Saturating.predict c = actual).
Proof.
  intros Hwf. pose proof Hwf as (Hlen & Hpos & Hways & Huniq).
  pose proof (gp_index_lt ip pir) as Hi. pose proof (gp_tag_range ip pir) as Ht.
  unfold update. rewrite (surjective_pairing (gen_index_tag ip pir)).
  fold (gp_index ip pir) (gp_tag ip pir).
  set (i := gp_index ip pir) in *. set (tag := gp_tag ip pir) in *.
  destruct (gp_scan g i tag Hwf Hi) as (r & -> & Hr). destruct r as [w|w]; simpl in Hr |- *.
  - pose proof Hr as Hf. apply find_first_Some in Hf as [(way & Hw & Hh) _].
    pose proof (Hways w way Hw) as Hok. pose proof Hok as (Hv & Hta & Hp & Hl & Hsat).
    rewrite (aget_Ok _ _ _ Hw). simpl.
    destruct (lookup_lt_is_Some_2 (m_predictors way) i) as [c Hc]; [lia|].
    rewrite (aget_Ok _ _ _ Hc). simpl. rewrite !aset_Ok by lia. simpl.
    rewrite aset_Ok by (by eapply lookup_lt_Some). simpl.
    assert (Hc' : sat_ok 2 (Saturating.update 2 c actual)) by (apply sat_update_ok; eauto; lia).
    set (way' := mkWay _ _ _ _ _ _).
    destruct (gp_put_hit g w way way' i tag (Saturating.update 2 c actual)
      (u64 (m_lru_use_count g + 1))) as [Hwf' Hans];
      [done|done|by apply gp_way_ok_write|done| | | | |eexists; split; [done|];
       split; [exact Hwf'|]; eexists; split; [exact Hc'|]; split; [exact Hans|congruence]].
    + intros tag' Htag'. unfold gp_hits in *. simpl in *. zbool. congruence.
    + intros w' x Hne Hx. destruct (gp_hits i tag x) eqn:Hhx; [|done].
      destruct Hne. by eapply Huniq.
    + exact Hh.
    + apply list_lookup_insert_eq. lia.
  - destruct Hr as (Hnone & way & Hw & _). rewrite find_first_None in Hnone.
    pose proof (Hways w way Hw) as Hok. pose proof Hok as (Hv & Hta & Hp & Hl & Hsat).
    rewrite (aget_Ok _ _ _ Hw). simpl. rewrite !aset_Ok by lia. simpl.
    rewrite aset_Ok by (by eapply lookup_lt_Some). simpl. rewrite u8_small by lia.
    assert (Hc' : sat_ok 2 (Saturating.reset 2 actual)) by (apply sat_reset_ok; lia).
    assert (Hhit : forall tag' p l n b, gp_hits i tag' (mkWay (<[i := true]> (m_valid way))
      (<[i := tag]> (m_tags way)) p l n b) = (tag =? tag')).
    { intros. unfold gp_hits. simpl. by rewrite !list_lookup_insert_eq by lia. }
    set (way' := mkWay _ _ _ _ _ _).
    destruct (gp_put_hit g w way way' i tag (Saturating.reset 2 actual)
      (u64 (m_lru_use_count g + 1))) as [Hwf' Hans];
      [done|done|by apply gp_way_ok_write; rewrite ?length_insert| | | | | |
       eexists; split; [done|]; split; [exact Hwf'|]; eexists; split; [exact Hc'|];
       split; [exact Hans|intros _; apply sat_reset_predict; lia]].
    + intros j tag' Hj. by apply gp_hits_insert_ne.
    + intros tag'. unfold way'. rewrite Hhit. by intros ->%Z.eqb_eq.
    + intros w' x _ Hx. by eapply Hnone.
    + unfold way'. rewrite Hhit. apply Z.eqb_refl.
    + apply list_lookup_insert_eq. lia.
Qed.

(** An eviction always succeeds; afterwards the branch misses and every other
    branch gets the answer it got before. *)
Lemma gp_evict_ok g ip pir :
  gp_wf g ->
  exists g', evict g ip pir = Ok g' /\ gp_wf g' /\
    gp_answer (gp_index ip pir) (gp_tag ip pir) (m_ways g') = ret_none /\
    forall j tag, (j, tag) <> (gp_index ip pir, gp_tag ip pir) ->
      gp_answer j tag (m_ways g') = gp_answer j tag (m_ways g).
Proof.
  intros Hwf. pose proof Hwf as (Hlen & Hpos & Hways & Huniq).
  pose proof (gp_index_lt ip pir) as Hi. unfold evict.
  rewrite (surjective_pairing (gen_index_tag ip pir)).
  fold (gp_index ip pir) (gp_tag ip pir).
  set (i := gp_index ip pir) in *. set (tag := gp_tag ip pir) in *.
  rewrite gp_find_way by done. simpl.
  destruct (find_first (gp_hits i tag) (m_ways g)) as [w|] eqn:Hf.
  2:{ exists g. split_and!; try done. unfold gp_answer. by rewrite Hf. }
  apply find_first_Some in Hf as [(way & Hw & Hh) _].
  pose proof (Hways w way Hw) as (Hv & Hta & Hp & Hl & Hsat).
  rewrite (aget_Ok _ _ _ Hw). simpl. rewrite aset_Ok by lia. simpl.
  pose proof (lookup_lt_Some _ _ _ Hw) as Hlt. rewrite aset_Ok by done. simpl.
  set (way' := mkWay _ _ _ _ _ _).
  assert (Hmiss : forall t', gp_hits i t' way' = false).
  { intros t'. unfold gp_hits. simpl. by rewrite list_lookup_insert_eq by lia. }
  assert (Hsame : forall j t', j <> i -> gp_hits j t' way' = gp_hits j t' way).
  { intros j t' Hj. unfold gp_hits. simpl. by rewrite list_lookup_insert_ne. }
  assert (Hnone : forall w' x, w' <> w -> m_ways g !! w' = Some x -> gp_hits i tag x = false).
  { intros w' x Hne Hx. destruct (gp_hits i tag x) eqn:Hhx; [|done].
    destruct Hne. by eapply Huniq. }
  assert (Honly : forall t', gp_hits i t' way = true -> t' = tag).
  { intros t' Ht'. unfold gp_hits in *. zbool. congruence. }
  assert (Hwf' : gp_wf (mk (m_lru_use_count g) (m_num_ways g) (<[w := way']> (m_ways g)))).
  { apply (gp_put g w way _ i tag); try done.
    - split_and!; simpl; rewrite ?length_insert; done.
    - intros t'. by rewrite Hmiss. }
  eexists. split; [done|]. split; [exact Hwf'|]. split.
  - unfold gp_answer. simpl. rewrite (proj2 (find_first_None _ _)); [done|].
    intros k x. rewrite lookup_insert_in by done. case_decide; [intros [= <-]; apply Hmiss|].
    intros Hx. by eapply (Hnone k).
  - intros j t' Hne.
    apply (gp_answer_frame g w way _ i tag _ _ (m_lru_use_count g)); try done.
    + intros k t'' Hne'. destruct (decide (k = i)) as [->|]; [|by apply Hsame].
      rewrite Hmiss. destruct (gp_hits i t'' way) eqn:Ht''; [|done].
      apply Honly in Ht'' as ->. done.
    + intros ->. destruct (gp_hits i t' way) eqn:Ht'; [|done]. apply Honly in Ht' as ->. done.
Qed.
End GlobalFacts.
