(* ===== verification/LoopPredictor.v ===== *)
(** The loop predictor of the Pentium M model (lpb.h): it never leaves its
    tables, and it learns a loop after one execution of it. *)
From stdpp Require Import base numbers list.
From Stdlib Require Import ZArith Lia Bool.
From S2P Require Import Prelude BranchTables.
Open Scope Z_scope.
Import Loop.

(** * Well-formed tables *)
Definition lp_entries : nat := 64.

Definition lp_way_ok (w : Way) : Prop :=
  length (m_tags w) = lp_entries /\ length (m_previous_actual w) = lp_entries /\
  length (m_enabled w) = lp_entries /\ length (m_predictors w) = lp_entries /\
  length (m_lru w) = lp_entries /\ length (m_count w) = lp_entries /\
  length (m_limit w) = lp_entries.

Definition lp_wf (l : t) : Prop :=
  length (m_ways l) = m_num_ways l /\ (0 < m_num_ways l)%nat /\
  forall w way, m_ways l !! w = Some way -> lp_way_ok way.

Definition lp_index (ip : IntPtr) : nat := Z.to_nat (fst (gen_index_tag ip)).
Definition lp_tag (ip : IntPtr) : Z := snd (gen_index_tag ip).

(** What a way holds at an index. *)
Definition entry_of (i : nat) (w : Way) : option Entry :=
  match get_entry w i with
  | Ok e => Some e
  | Err _ => None
  end.
Definition entry_at (l : t) (w i : nat) : option Entry :=
  match m_ways l !! w with
  | Some way => entry_of i way
  | None => None
  end.

Definition tag_at (i : nat) (w : Way) : Z := default 0 (m_tags w !! i).
Definition enabled_at (i : nat) (w : Way) : Z := default 0 (m_enabled w !! i).
Definition lru_at (i : nat) (w : Way) : Z := default 0 (m_lru w !! i).

(** One executed branch: the prediction the table offers, if any, and the table
    after it was told the outcome. *)
Definition access (l : t) (ip tgt : IntPtr) (actual : bool) : result (option bool * t) :=
  let! (r, l) := lookup l ip tgt in
  let! l := update l (prediction r) actual ip tgt in
  Ok (if hit r then Some (prediction r) else None, l).

Fixpoint run_branch (l : t) (ip tgt : IntPtr) (outcomes : list bool)
  : result (list (option bool) * t) :=
  match outcomes with
  | [] => Ok ([], l)
  | a :: outcomes' =>
      let! (p, l) := access l ip tgt a in
      let! (ps, l) := run_branch l ip tgt outcomes' in
      Ok (p :: ps, l)
  end.

(** The outcomes of a loop branch that goes one way [k] times and then leaves. *)
Definition loop_pass (dir : bool) (k : nat) : list bool := replicate k dir ++ [negb dir].
Fixpoint loop_passes (dir : bool) (k m : nat) : list bool :=
  match m with
  | O => []
  | S m' => loop_pass dir k ++ loop_passes dir k m'
  end.

(** * The elements of a way *)
Lemma lp_index_lt ip : (lp_index ip < lp_entries)%nat.
Proof.
  unfold lp_index, gen_index_tag, lp_entries. cbn [fst].
  pose proof (land_mask_range (Z.shiftr ip 4) 0x3F 6 ltac:(lia) eq_refl).
  change (2 ^ 6) with 64 in *. lia.
Qed.

Lemma lp_tag_range ip : 0 <= lp_tag ip < 64.
Proof. apply (land_mask_range (Z.shiftr ip 10) 0x3F 6 ltac:(lia) eq_refl). Qed.

Lemma get_entry_ok w i :
  lp_way_ok w -> (i < lp_entries)%nat ->
  exists e, get_entry w i = Ok e /\
    e_tag e = tag_at i w /\ e_enabled e = enabled_at i w /\ e_lru e = lru_at i w.
Proof.
  intros (H1 & H2 & H3 & H4 & H5 & H6 & H7) Hi. unfold get_entry, tag_at, enabled_at, lru_at, aget.
  destruct (lookup_lt_is_Some_2 (m_tags w) i) as [? ->]; [lia|].
  destruct (lookup_lt_is_Some_2 (m_previous_actual w) i) as [? ->]; [lia|].
  destruct (lookup_lt_is_Some_2 (m_enabled w) i) as [? ->]; [lia|].
  destruct (lookup_lt_is_Some_2 (m_predictors w) i) as [? ->]; [lia|].
  destruct (lookup_lt_is_Some_2 (m_lru w) i) as [? ->]; [lia|].
  destruct (lookup_lt_is_Some_2 (m_count w) i) as [? ->]; [lia|].
  destruct (lookup_lt_is_Some_2 (m_limit w) i) as [? ->]; [lia|].
  by eexists.
Qed.

Lemma set_entry_ok w i e :
  lp_way_ok w -> (i < lp_entries)%nat ->
  exists w', set_entry w i e = Ok w' /\ lp_way_ok w' /\ get_entry w' i = Ok e /\
    forall j, j <> i -> get_entry w' j = get_entry w j.
Proof.
  intros (H1 & H2 & H3 & H4 & H5 & H6 & H7) Hi. unfold set_entry.
  rewrite !aset_Ok by lia. cbn [rbind]. eexists. split; [done|].
  split; [|split].
  - unfold lp_way_ok. simpl. rewrite !length_insert. done.
  - unfold get_entry, aget. simpl. rewrite !list_lookup_insert_eq by lia. by destruct e.
  - intros j Hj. unfold get_entry, aget. simpl. by rewrite !list_lookup_insert_ne.
Qed.

Lemma matches_tag_ok i tag w :
  lp_way_ok w -> (i < lp_entries)%nat -> matches_tag i tag w = Ok (tag_at i w =? tag).
Proof.
  intros (H1 & _) Hi. unfold matches_tag, tag_at, aget.
  destruct (lookup_lt_is_Some_2 (m_tags w) i) as [? ->]; [lia|done].
Qed.

Lemma matches_enabled_ok i tag w :
  lp_way_ok w -> (i < lp_entries)%nat ->
  matches_enabled i tag w = Ok (negb (enabled_at i w =? 0) && (tag_at i w =? tag)).
Proof.
  intros (H1 & _ & H3 & _) Hi. unfold matches_enabled, tag_at, enabled_at, aget.
  destruct (lookup_lt_is_Some_2 (m_enabled w) i) as [x ->]; [lia|]. simpl.
  destruct (x =? 0); simpl; [done|].
  destruct (lookup_lt_is_Some_2 (m_tags w) i) as [y ->]; [lia|done].
Qed.

Lemma way_lru_ok i w :
  lp_way_ok w -> (i < lp_entries)%nat -> way_lru i w = Ok (lru_at i w).
Proof.
  intros (_ & _ & _ & _ & H5 & _) Hi. unfold way_lru, lru_at, aget.
  destruct (lookup_lt_is_Some_2 (m_lru w) i) as [y ->]; [lia|done].
Qed.

Lemma lp_find l i tag :
  lp_wf l -> (i < lp_entries)%nat ->
  Ways.find_way (matches_enabled i tag) (m_ways l) (m_num_ways l) 0 =
    Ok (find_first (fun w => negb (enabled_at i w =? 0) && (tag_at i w =? tag)) (m_ways l)).
Proof.
  intros (Hlen & _ & Hways) Hi. apply find_way_first; [|done].
  intros j way Hj. apply matches_enabled_ok; eauto.
Qed.

Lemma lp_scan l i tag :
  lp_wf l -> (i < lp_entries)%nat ->
  exists r, Ways.scan_lru (matches_tag i tag) (way_lru i) (m_ways l) (m_num_ways l) 0 0 = Ok r /\
    scan_result (fun w => tag_at i w =? tag) (lru_at i) (m_ways l) r.
Proof.
  intros (Hlen & Hpos & Hways) Hi. apply scan_lru_spec; [| |done|done].
  - intros j way Hj. apply matches_tag_ok; eauto.
  - intros j way Hj. apply way_lru_ok; eauto.
Qed.

(** Writing the entry at [(w, i)]: the table stays well formed, the position
    holds the new entry, and nothing else changes. *)
Lemma lp_put l w way i e e' c :
  lp_wf l -> m_ways l !! w = Some way -> (i < lp_entries)%nat -> get_entry way i = Ok e ->
  exists way' ways',
    set_entry way i e' = Ok way' /\ aset (m_ways l) w way' = Ok ways' /\
    let l' := mk c (m_num_ways l) ways' in
    lp_wf l' /\ entry_at l' w i = Some e' /\
    forall w' j, (w', j) <> (w, i) -> entry_at l' w' j = entry_at l w' j.
Proof.
  intros (Hlen & Hpos & Hways) Hw Hi He.
  destruct (set_entry_ok way i e' (Hways w way Hw) Hi) as (way' & Hset & Hok & Hget & Hother).
  pose proof (lookup_lt_Some _ _ _ Hw) as Hlt.
  exists way', (<[w := way']> (m_ways l)). split; [done|]. split; [by apply aset_Ok|].
  split; [|split].
  - split_and!; simpl; [by rewrite length_insert|done|]. by apply ways_insert_lookup.
  - unfold entry_at. simpl. rewrite list_lookup_insert_eq by done. unfold entry_of. by rewrite Hget.
  - intros w' j Hne. unfold entry_at. simpl. rewrite lookup_insert_in by done. case_decide; [|done].
    subst w'. rewrite Hw. unfold entry_of. rewrite Hother; [done|]. congruence.
Qed.

Lemma entry_at_inv l w i e :
  entry_at l w i = Some e -> exists way, m_ways l !! w = Some way /\ get_entry way i = Ok e.
Proof.
  unfold entry_at, entry_of. destruct (m_ways l !! w) as [way|]; [|done].
  destruct (get_entry way i) eqn:He; [|done]. intros [= <-]. eauto.
Qed.

Lemma entry_at_intro l w way i :
  lp_wf l -> (i < lp_entries)%nat -> m_ways l !! w = Some way ->
  exists e, entry_at l w i = Some e /\ get_entry way i = Ok e /\
    e_tag e = tag_at i way /\ e_enabled e = enabled_at i way /\ e_lru e = lru_at i way.
Proof.
  intros (_ & _ & Hways) Hi Hw. destruct (get_entry_ok way i (Hways _ _ Hw) Hi) as (e & He & H).
  exists e. unfold entry_at, entry_of. rewrite Hw, He. done.
Qed.

(** * The operations, read at the level of entries *)
Lemma lp_lookup_spec l ip tgt :
  lp_wf l ->
  let i := lp_index ip in
  (lookup l ip tgt = Ok (ret_none, l) /\
   forall w e, entry_at l w i = Some e -> e_tag e = lp_tag ip -> e_enabled e = 0) \/
  exists w e l', entry_at l w i = Some e /\ e_tag e = lp_tag ip /\ e_enabled e <> 0 /\
    lookup l ip tgt = Ok (mkRet (entry_prediction e) true 0 InvalidBranch, l') /\ lp_wf l' /\
    entry_at l' w i = Some (touch e (m_lru_use_count l)) /\
    forall w' j, (w', j) <> (w, i) -> entry_at l' w' j = entry_at l w' j.
Proof.
  intros Hwf i. pose proof (lp_index_lt ip) as Hi. fold i in Hi. unfold lookup.
  rewrite (surjective_pairing (gen_index_tag ip)). fold (lp_index ip) (lp_tag ip). fold i.
  rewrite lp_find by done. cbn [rbind].
  destruct (find_first _ _) as [w|] eqn:Hf; [right|left].
  - apply find_first_Some in Hf as [(way & Hw & Hm) _].
    destruct (entry_at_intro l w way i Hwf Hi Hw) as (e & Hat & He & Het & Hee & _).
    zbool. rewrite (aget_Ok _ _ _ Hw). cbn [rbind]. rewrite He. cbn [rbind].
    destruct (lp_put l w way i e (touch e (m_lru_use_count l)) (u64 (m_lru_use_count l + 1)))
      as (way' & ways' & -> & Hset & Hwf' & Hnew & Hother); try done.
    cbn [rbind]. rewrite Hset. cbn [rbind].
    exists w, e. eexists. split_and!; try done; congruence.
  - split; [done|]. rewrite find_first_None in Hf.
    intros w e (way & Hw & He)%entry_at_inv Htag.
    destruct (entry_at_intro l w way i Hwf Hi Hw) as (e' & _ & He' & Het & Hee & _).
    assert (e' = e) as -> by congruence. specialize (Hf w way Hw). cbn beta in Hf.
    rewrite <- Het, <- Hee, Htag, Z.eqb_refl, andb_true_r in Hf. by zbool.
Qed.

Lemma lp_update_spec l predicted actual ip tgt :
  lp_wf l ->
  let i := lp_index ip in
  exists w e e' l', update l predicted actual ip tgt = Ok l' /\ lp_wf l' /\
    entry_at l w i = Some e /\ entry_at l' w i = Some e' /\
    (forall w' j, (w', j) <> (w, i) -> entry_at l' w' j = entry_at l w' j) /\
    ((e_tag e = lp_tag ip /\ e' = update_entry e actual (m_lru_use_count l)) \/
     (e' = allocate_entry e (lp_tag ip) actual (m_lru_use_count l) /\
      forall w' x, entry_at l w' i = Some x -> e_tag x <> lp_tag ip /\ e_lru e <= e_lru x)).
Proof.
  intros Hwf i. pose proof (lp_index_lt ip) as Hi. fold i in Hi. unfold update.
  rewrite (surjective_pairing (gen_index_tag ip)). fold (lp_index ip) (lp_tag ip). fold i.
  destruct (lp_scan l i (lp_tag ip) Hwf Hi) as (r & -> & Hr). cbn [rbind].
  assert (Hdone : forall w way (f : Entry -> Entry) c, m_ways l !! w = Some way ->
    exists e l', entry_at l w i = Some e /\ e_tag e = tag_at i way /\ e_lru e = lru_at i way /\
      (let! way := aget (m_ways l) w in
       let! e := get_entry way i in
       let! way := set_entry way i (f e) in
       let! ways := aset (m_ways l) w way in
       Ok (mk c (m_num_ways l) ways)) = Ok l' /\ lp_wf l' /\ entry_at l' w i = Some (f e) /\
      forall w' j, (w', j) <> (w, i) -> entry_at l' w' j = entry_at l w' j).
  { intros w way f c Hw.
    destruct (entry_at_intro l w way i Hwf Hi Hw) as (e & Hat & He & Het & _ & Hel).
    destruct (lp_put l w way i e (f e) c)
      as (way' & ways' & Hset & Hset' & Hwf' & Hnew & Hother); try done.
    exists e. eexists. rewrite (aget_Ok _ _ _ Hw). cbn [rbind]. rewrite He. cbn [rbind].
    rewrite Hset. cbn [rbind]. rewrite Hset'. cbn [rbind]. split_and!; done. }
  destruct r as [w|w]; simpl in Hr.
  - apply find_first_Some in Hr as [(way & Hw & Hm) _].
    destruct (Hdone w way (fun e => update_entry e actual (m_lru_use_count l))
      (u64 (m_lru_use_count l + 1)) Hw) as (e & l' & Hat & Het & _ & Heq & Hwf' & Hnew & Hother).
    exists w, e. eexists. exists l'. split_and!; try done. left. split; [|done]. zbool. congruence.
  - destruct Hr as (Hnone & way & Hw & Hmin).
    destruct (Hdone w way (fun e => allocate_entry e (lp_tag ip) actual (m_lru_use_count l))
      (u64 (m_lru_use_count l + 1)) Hw) as (e & l' & Hat & Het & Hel & Heq & Hwf' & Hnew & Hother).
    exists w, e. eexists. exists l'. split_and!; try done. right. split; [done|].
    intros w' x (way' & Hw' & Hx)%entry_at_inv.
    destruct (entry_at_intro l w' way' i Hwf Hi Hw') as (x' & _ & Hx' & Hxt & _ & Hxl).
    assert (x' = x) as -> by congruence. rewrite find_first_None in Hnone.
    specialize (Hnone w' way' Hw'). specialize (Hmin w' way' Hw'). cbn beta in Hnone.
    zbool. rewrite Hxt, Hel, Hxl. done.
Qed.

(** Every access succeeds and keeps the table well formed. *)
Lemma lp_access_ok l ip tgt actual :
  lp_wf l -> exists p l', access l ip tgt actual = Ok (p, l') /\ lp_wf l'.
Proof.
  intros Hwf. unfold access.
  assert (exists r l1, lookup l ip tgt = Ok (r, l1) /\ lp_wf l1) as (r & l1 & -> & Hwf1).
  { destruct (lp_lookup_spec l ip tgt Hwf) as [[-> _]|(w & e & l' & _ & _ & _ & -> & ? & _)]; eauto. }
  cbn [rbind].
  destruct (lp_update_spec l1 (prediction r) actual ip tgt Hwf1) as (w & e & e' & l' & -> & Hwf' & _).
  cbn [rbind]. eauto.
Qed.

Lemma lp_fresh_wf n ways way b :
  n = lp_entries -> (0 < ways)%nat ->
  way = mkWay (replicate n 0) (replicate n 0) (replicate n 0) (replicate n (Saturating.create 0))
          (replicate n 0) (replicate n 0) (replicate n 0) 64 b ->
  lp_wf (mk 0 ways (replicate ways way)).
Proof.
  intros Hn Hpos Hway. split_and!; simpl; [apply length_replicate|done|].
  intros w x [-> _]%lookup_replicate_1. subst way.
  unfold lp_way_ok. simpl. rewrite !length_replicate. done.
Qed.

Lemma lp_create_wf : exists l, create_pentium_m = Ok l /\ lp_wf l.
Proof.
  eexists. split; [reflexivity|]. apply (lp_fresh_wf 64 2 _ 6); [done|lia|reflexivity].
Qed.

(** * A branch and the entry it owns *)
Definition owns (l : t) (ip : IntPtr) (w : nat) (e : Entry) : Prop :=
  lp_wf l /\ e_tag e = lp_tag ip /\
  (exists x, entry_at l w (lp_index ip) = Some (touch e x)) /\
  forall w' e', w' <> w -> entry_at l w' (lp_index ip) = Some e' -> e_tag e' <> lp_tag ip.

Lemma update_entry_touch e x a y z :
  update_entry (touch e x) a y = touch (update_entry e a z) y.
Proof.
  unfold update_entry. change (same_direction (touch e x) a) with (same_direction e a).
  cbn [touch e_predictor e_previous_actual e_tag e_enabled e_limit].
  destruct (same_direction e a) as [[c l'] n]. do 2 (case_match; [done|]). done.
Qed.

Lemma update_entry_tag e a y : e_tag (update_entry e a y) = e_tag e.
Proof.
  unfold update_entry. destruct (same_direction e a) as [[c l'] n].
  do 2 (case_match; [done|]). done.
Qed.

(** What the owner of an entry is offered. *)
Definition offered (e : Entry) : option bool :=
  if e_enabled e =? 0 then None else Some (entry_prediction e).

Lemma owns_touch l ip w e l' c :
  owns l ip w e -> lp_wf l' -> entry_at l' w (lp_index ip) = Some (touch e c) ->
  (forall w' j, (w', j) <> (w, lp_index ip) -> entry_at l' w' j = entry_at l w' j) ->
  owns l' ip w e.
Proof.
  intros (_ & Htag & _ & Hothers) Hwf' Hat Hframe. split_and!; [done|done|eauto|].
  intros w' e' Hne. rewrite Hframe by congruence. by apply Hothers.
Qed.

Lemma owns_lookup l ip tgt w e :
  owns l ip w e ->
  exists r l', lookup l ip tgt = Ok (r, l') /\ owns l' ip w e /\
    (if hit r then Some (prediction r) else None) = offered e.
Proof.
  intros Ho. pose proof Ho as (Hwf & Htag & (x & Hx) & Hothers). unfold offered.
  destruct (lp_lookup_spec l ip tgt Hwf)
    as [[-> Hnone]|(w' & e' & l' & Hat & Ht & Hen & -> & Hwf' & Hnew & Hframe)].
  - exists ret_none, l. split; [done|]. split; [done|].
    specialize (Hnone w _ Hx Htag). cbn in Hnone. rewrite Hnone. done.
  - assert (w' = w) as ->.
    { destruct (decide (w' = w)); [done|]. destruct (Hothers w' e'); done. }
    rewrite Hx in Hat. injection Hat as <-. eexists _, l'. split; [done|]. split.
    + eapply owns_touch; try done.
    + cbn in Hen |- *. rewrite (proj2 (Z.eqb_neq _ _)) by done. done.
Qed.

Lemma owns_access l ip tgt w e a z :
  owns l ip w e ->
  exists l', access l ip tgt a = Ok (offered e, l') /\ owns l' ip w (update_entry e a z).
Proof.
  intros Ho. unfold access.
  destruct (owns_lookup l ip tgt w e Ho) as (r & l1 & -> & Ho1 & Hr). cbn [rbind]. rewrite Hr.
  destruct Ho1 as (Hwf & Htag & (x & Hx) & Hothers).
  destruct (lp_update_spec l1 (prediction r) a ip tgt Hwf)
    as (w' & e1 & e' & l' & -> & Hwf' & Hat & Hnew & Hframe & [[Ht ->]|[_ Hno]]).
  - assert (w' = w) as ->.
    { destruct (decide (w' = w)); [done|]. destruct (Hothers w' e1); done. }
    rewrite Hx in Hat. injection Hat as <-. cbn [rbind]. eexists. split; [done|].
    split_and!; [done|by rewrite update_entry_tag| |].
    + eexists. rewrite Hnew. f_equal. apply update_entry_touch.
    + intros w2 e2 Hne. rewrite Hframe by congruence. by apply Hothers.
  - destruct (Hno w _ Hx) as [[] _]. done.
Qed.

Lemma owns_allocate l ip tgt a z :
  lp_wf l ->
  (forall w e, entry_at l w (lp_index ip) = Some e -> e_tag e <> lp_tag ip) ->
  exists w e l', access l ip tgt a = Ok (None, l') /\
    owns l' ip w (allocate_entry e (lp_tag ip) a z).
Proof.
  intros Hwf Hnone. unfold access.
  destruct (lp_lookup_spec l ip tgt Hwf)
    as [[-> _]|(w & e & l' & Hat & Ht & _)]; [|destruct (Hnone w e); done].
  cbn [rbind].
  destruct (lp_update_spec l (prediction ret_none) a ip tgt Hwf)
    as (w & e & e' & l' & -> & Hwf' & Hat & Hnew & Hframe & [[Ht _]|[-> _]]).
  { destruct (Hnone w e); done. }
  cbn [rbind]. exists w, e, l'. split; [done|]. pose proof (lp_tag_range ip).
  split_and!; [done| | |].
  - change (u8 (lp_tag ip) = lp_tag ip). apply u8_small. lia.
  - eexists. rewrite Hnew. done.
  - intros w2 e2 Hne. rewrite Hframe by congruence. apply Hnone.
Qed.

(** * Learning a loop *)

(** An entry while it follows a loop branch: [p] predicts the direction [dir]. *)
Definition following (dir : bool) (prev en : Z) (c lim tag z : Z) : Entry :=
  mkEntry tag prev en (Saturating.reset 1 dir) z c lim.

Lemma following_predict dir : Saturating.predict (Saturating.reset 1 dir) = dir.
Proof. apply sat_reset_predict. lia. Qed.

Lemma b2z_negb (b : bool) : negb (Z.b2z b =? 0) = b.
Proof. by destruct b. Qed.

(** While training, every further [dir] makes the loop longer and disables the entry. *)
Lemma step_longer dir en c tag z :
  0 <= c < 2 ^ 32 - 1 ->
  update_entry (following dir (Z.b2z dir) en c c tag z) dir z =
  following dir (Z.b2z dir) 0 (c + 1) (c + 1) tag z.
Proof.
  intros Hc. unfold update_entry, same_direction, prediction_match, following.
  cbn [e_predictor e_previous_actual e_tag e_enabled e_limit e_count].
  rewrite following_predict, b2z_negb, Z.eqb_refl, Z.ltb_irrefl, u32_small by lia.
  by destruct dir.
Qed.

(** Leaving the loop at the limit enables the entry and restarts the count. *)
Lemma step_exit dir en k tag z :
  exists en', en' <> 0 /\
    update_entry (following dir (Z.b2z dir) en k k tag z) (negb dir) z =
    following dir (Z.b2z (negb dir)) en' 0 k tag z.
Proof.
  unfold update_entry, same_direction, prediction_match, following.
  cbn [e_predictor e_previous_actual e_tag e_enabled e_limit e_count].
  rewrite following_predict, b2z_negb, Z.eqb_refl.
  destruct (Z.eqb_spec en 0) as [->|Hen].
  - exists 1. split; [done|]. by destruct dir.
  - exists en. split; [done|]. by destruct dir.
Qed.

(** An enabled entry counts the iterations up to its limit. *)
Lemma step_iterate dir prev en c k tag z :
  en <> 0 -> 0 <= c < k -> k < 2 ^ 32 ->
  update_entry (following dir prev en c k tag z) dir z =
  following dir (Z.b2z dir) en (c + 1) k tag z.
Proof.
  intros Hen Hc Hk. unfold update_entry, same_direction, prediction_match, following.
  cbn [e_predictor e_previous_actual e_tag e_enabled e_limit e_count].
  rewrite following_predict, (proj2 (Z.eqb_neq c k)), u32_small by lia.
  rewrite eqb_reflx. cbn [negb]. by destruct dir, (prev =? 0).
Qed.

Lemma offered_iterate dir prev en c k tag z :
  en <> 0 -> c <> k -> offered (following dir prev en c k tag z) = Some dir.
Proof.
  intros. unfold offered, entry_prediction, following. cbn [e_enabled e_count e_limit e_predictor].
  rewrite !(proj2 (Z.eqb_neq _ _)) by done. by rewrite following_predict.
Qed.

Lemma offered_exit dir prev en k tag z :
  en <> 0 -> offered (following dir prev en k k tag z) = Some (negb dir).
Proof.
  intros. unfold offered, entry_prediction, following. cbn [e_enabled e_count e_limit e_predictor].
  rewrite (proj2 (Z.eqb_neq en 0)), Z.eqb_refl by done. by rewrite following_predict.
Qed.

Lemma run_branch_app l ip tgt o1 o2 p1 l1 p2 l2 :
  run_branch l ip tgt o1 = Ok (p1, l1) -> run_branch l1 ip tgt o2 = Ok (p2, l2) ->
  run_branch l ip tgt (o1 ++ o2) = Ok (p1 ++ p2, l2).
Proof.
  revert l p1. induction o1 as [|a o1 IH]; intros l p1 H1 H2; simpl in *.
  - by injection H1 as <- <-.
  - inv_ok. cbn [rbind]. rewrite Hv. cbn [rbind].
    erewrite IH; [|eassumption|eassumption]. done.
Qed.

Lemma train_loop dir k l ip tgt w en c :
  0 <= c -> c + Z.of_nat k < 2 ^ 32 ->
  owns l ip w (following dir (Z.b2z dir) en c c (lp_tag ip) 0) ->
  exists ps l' en', run_branch l ip tgt (replicate k dir) = Ok (ps, l') /\
    owns l' ip w (following dir (Z.b2z dir) en' (c + Z.of_nat k) (c + Z.of_nat k) (lp_tag ip) 0).
Proof.
  revert l en c. induction k as [|k IH]; intros l en c Hc Hk Ho.
  - exists [], l, en. split; [done|]. by rewrite Z.add_0_r.
  - destruct (owns_access l ip tgt w _ dir 0 Ho) as (l1 & Hacc & Ho1).
    rewrite step_longer in Ho1 by lia.
    destruct (IH l1 0 (c + 1) ltac:(lia) ltac:(lia) Ho1) as (ps & l' & en' & Hrun & Ho').
    eexists _, l', en'. cbn [replicate run_branch]. rewrite Hacc. cbn [rbind]. rewrite Hrun.
    cbn [rbind]. split; [done|]. by replace (c + Z.of_nat (S k)) with (c + 1 + Z.of_nat k) by lia.
Qed.

Lemma iterate_loop dir j k l ip tgt w prev en c :
  en <> 0 -> 0 <= c -> c + Z.of_nat j = k -> k < 2 ^ 32 -> (0 < j)%nat ->
  owns l ip w (following dir prev en c k (lp_tag ip) 0) ->
  exists l', run_branch l ip tgt (replicate j dir) = Ok (replicate j (Some dir), l') /\
    owns l' ip w (following dir (Z.b2z dir) en k k (lp_tag ip) 0).
Proof.
  intros Hen. revert l prev c. induction j as [|j IH]; intros l prev c Hc Hj Hk Hpos Ho; [lia|].
  destruct (owns_access l ip tgt w _ dir 0 Ho) as (l1 & Hacc & Ho1).
  rewrite step_iterate in Ho1 by lia. rewrite offered_iterate in Hacc by (done || lia).
  cbn [replicate run_branch]. rewrite Hacc. cbn [rbind].
  destruct j as [|j'].
  - exists l1. split; [done|]. replace k with (c + 1) in Ho1 |- * by lia. exact Ho1.
  - destruct (IH l1 _ (c + 1) ltac:(lia) ltac:(lia) Hk ltac:(lia) Ho1) as (l' & Hrun & Ho').
    rewrite Hrun. cbn [rbind]. eauto.
Qed.

(** A table that has learnt the loop predicts one pass and is back where it was. *)
Definition learnt (l : t) (ip : IntPtr) (dir : bool) (k : nat) : Prop :=
  exists w en, en <> 0 /\
    owns l ip w (following dir (Z.b2z (negb dir)) en 0 (Z.of_nat k) (lp_tag ip) 0).

Lemma pass_predicted dir k l ip tgt :
  (0 < k)%nat -> Z.of_nat k < 2 ^ 32 -> learnt l ip dir k ->
  exists l', run_branch l ip tgt (loop_pass dir k) = Ok (map Some (loop_pass dir k), l') /\
    learnt l' ip dir k.
Proof.
  intros Hk Hk32 (w & en & Hen & Ho).
  destruct (iterate_loop dir k (Z.of_nat k) l ip tgt w _ en 0 Hen ltac:(lia) ltac:(lia) Hk32 Hk Ho)
    as (l1 & Hrun & Ho1).
  destruct (owns_access l1 ip tgt w _ (negb dir) 0 Ho1) as (l2 & Hacc & Ho2).
  rewrite offered_exit in Hacc by done.
  destruct (step_exit dir en (Z.of_nat k) (lp_tag ip) 0) as (en' & Hen' & Heq).
  rewrite Heq in Ho2. exists l2. split; [|by exists w, en'].
  unfold loop_pass. rewrite map_app, (fmap_replicate Some).
  eapply run_branch_app; [exact Hrun|]. cbn [run_branch map]. by rewrite Hacc.
Qed.

Lemma first_pass_learns dir k l ip tgt :
  (0 < k)%nat -> Z.of_nat k < 2 ^ 32 -> lp_wf l ->
  (forall w e, entry_at l w (lp_index ip) = Some e -> e_tag e <> lp_tag ip) ->
  exists ps l', run_branch l ip tgt (loop_pass dir k) = Ok (ps, l') /\ learnt l' ip dir k.
Proof.
  intros Hk Hk32 Hwf Hnone. destruct k as [|k]; [lia|].
  destruct (owns_allocate l ip tgt dir 0 Hwf Hnone) as (w & e & l1 & Hacc & Ho).
  assert (Ho' : owns l1 ip w (following dir (Z.b2z dir) (e_enabled e) 1 1 (lp_tag ip) 0)).
  { unfold following. unfold allocate_entry in Ho. pose proof (lp_tag_range ip).
    by rewrite u8_small in Ho by lia. }
  destruct (train_loop dir k l1 ip tgt w _ 1 ltac:(lia) ltac:(lia) Ho')
    as (ps & l2 & en & Hrun & Ho2).
  destruct (owns_access l2 ip tgt w _ (negb dir) 0 Ho2) as (l3 & Hacc3 & Ho3).
  destruct (step_exit dir en (1 + Z.of_nat k) (lp_tag ip) 0) as (en' & Hen' & Heq).
  rewrite Heq in Ho3. replace (1 + Z.of_nat k) with (Z.of_nat (S k)) in Ho3 by lia.
  eexists _, l3. split; [|by exists w, en']. unfold loop_pass. cbn [replicate app].
  cbn [run_branch]. rewrite Hacc. cbn [rbind].
  erewrite run_branch_app; [|exact Hrun|cbn [run_branch]; by rewrite Hacc3]. done.
Qed.

Lemma passes_predicted dir k m l ip tgt :
  (0 < k)%nat -> Z.of_nat k < 2 ^ 32 -> learnt l ip dir k ->
  exists l', run_branch l ip tgt (loop_passes dir k m) = Ok (map Some (loop_passes dir k m), l').
Proof.
  intros Hk Hk32. revert l. induction m as [|m IH]; intros l Hl; [by exists l|].
  destruct (pass_predicted dir k l ip tgt Hk Hk32 Hl) as (l1 & Hrun & Hl1).
  destruct (IH l1 Hl1) as (l2 & Hrun2). exists l2. cbn [loop_passes].
  rewrite map_app. by eapply run_branch_app.
Qed.

Lemma run_branch_wf l ip tgt o ps l' :
  lp_wf l -> run_branch l ip tgt o = Ok (ps, l') -> lp_wf l'.
Proof.
  revert l ps. induction o as [|a o IH]; intros l ps Hwf Hrun; simpl in Hrun; inv_ok; [done|].
  destruct (lp_access_ok l ip tgt a Hwf) as (p & l1 & Hacc & Hwf1).
  rewrite Hacc in Hv. injection Hv as <- <-. by eapply IH.
Qed.

(** * Theorems *)

(** C24: the loop predictor learns a loop from one execution of it: take any
    well-formed table in which the branch has no entry, and let the branch go
    one way [k] times and then leave the loop.  From then on, for any number
    [m] of further executions of the loop, every one of the lookups hits and
    predicts the outcome, the loop exits included. *)
Theorem lpb_learns_loop (l : t) (ip tgt : IntPtr) (dir : bool) (k m : nat) :
  lp_wf l ->
  (forall w e, entry_at l w (lp_index ip) = Some e -> e_tag e <> lp_tag ip) ->
  (0 < k)%nat -> Z.of_nat k < 2 ^ 32 ->
  exists ps l1 l2,
    run_branch l ip tgt (loop_pass dir k) = Ok (ps, l1) /\
    run_branch l1 ip tgt (loop_passes dir k m) = Ok (map Some (loop_passes dir k m), l2).
Proof.
  intros Hwf Hnone Hk Hk32.
  destruct (first_pass_learns dir k l ip tgt Hk Hk32 Hwf Hnone) as (ps & l1 & Hrun & Hl).
  destruct (passes_predicted dir k m l1 ip tgt Hk Hk32 Hl) as (l2 & Hrun2). eauto.
Qed.

(** Allocating an entry leaves its enabled flag as the evicted branch set it.
    When the ways of the index are all enabled, a branch seen once, with outcome
    [a], is at its next execution offered the prediction [negb a], although the
    table has no experience of it. *)
Theorem lpb_allocation_inherits_enabled (l : t) (ip tgt : IntPtr) (a a' : bool) :
  lp_wf l ->
  (forall w e, entry_at l w (lp_index ip) = Some e ->
     e_tag e <> lp_tag ip /\ e_enabled e <> 0) ->
  exists l1 l2,
    access l ip tgt a = Ok (None, l1) /\ access l1 ip tgt a' = Ok (Some (negb a), l2).
Proof.
  intros Hwf Hall.
  destruct (lp_lookup_spec l ip tgt Hwf)
    as [[Hlook _]|(w & e & l' & Hat & Ht & _)]; [|destruct (Hall w e Hat); done].
  destruct (lp_update_spec l (prediction ret_none) a ip tgt Hwf)
    as (w & e & e' & l' & Hup & Hwf' & Hat & Hnew & Hframe & [[Ht _]|[-> _]]);
    [destruct (Hall w e Hat); done|].
  pose proof (lp_tag_range ip).
  assert (Ho : owns l' ip w (allocate_entry e (lp_tag ip) a (m_lru_use_count l))).
  { split_and!; [done| |by eexists|].
    - change (u8 (lp_tag ip) = lp_tag ip). apply u8_small. lia.
    - intros w2 e2 Hne. rewrite Hframe by congruence. apply Hall. }
  destruct (owns_access l' ip tgt w _ a' 0 Ho) as (l2 & Hacc & _).
  exists l', l2. split.
  - unfold access. rewrite Hlook. cbn [rbind]. rewrite Hup. done.
  - rewrite Hacc. do 2 f_equal. unfold offered, entry_prediction, allocate_entry.
    cbn [e_enabled e_count e_limit e_predictor]. rewrite Z.eqb_refl.
    rewrite (proj2 (Z.eqb_neq _ _)) by (by apply Hall in Hat as [_ ?]).
    by rewrite sat_reset_predict by lia.
Qed.

(** * Witnesses *)
Definition fresh_table : t :=
  match create_pentium_m with
  | Ok l => l
  | Err _ => mk 0 0 []
  end.

Lemma fresh_table_wf : lp_wf fresh_table.
Proof. unfold fresh_table. destruct lp_create_wf as (l & -> & Hwf). done. Qed.

(** The table after the branches at 0x410 and 0x810 each ran a short loop. *)
Definition used_table : t :=
  match run_branch fresh_table 0x410 0 (loop_pass true 2) with
  | Ok (_, l) =>
      match run_branch l 0x810 0 (loop_pass false 1) with
      | Ok (_, l) => l
      | Err _ => fresh_table
      end
  | Err _ => fresh_table
  end.

Lemma used_table_wf : lp_wf used_table.
Proof.
  unfold used_table.
  destruct (run_branch fresh_table 0x410 0 (loop_pass true 2)) as [[ps l]|] eqn:H1;
    [|apply fresh_table_wf].
  pose proof (run_branch_wf _ _ _ _ _ _ fresh_table_wf H1) as Hl.
  destruct (run_branch l 0x810 0 (loop_pass false 1)) as [[ps' l']|] eqn:H2;
    [|apply fresh_table_wf].
  by eapply run_branch_wf.
Qed.

Lemma lpb_learns_loop_witness :
  exists ps l1 l2,
    run_branch fresh_table 0x1410 0 (loop_pass true 3) = Ok (ps, l1) /\
    run_branch l1 0x1410 0 (loop_passes true 3 2) =
      Ok (map Some [true; true; true; false; true; true; true; false], l2).
Proof.
  apply (lpb_learns_loop fresh_table 0x1410 0 true 3 2).
  - exact fresh_table_wf.
  - intros [|[|w]] e; vm_compute; intros [= <-]; discriminate.
  - lia.
  - reflexivity.
Defined.

Lemma lpb_allocation_inherits_enabled_witness :
  exists l1 l2,
    access used_table 0xC10 0 true = Ok (None, l1) /\
    access l1 0xC10 0 true = Ok (Some false, l2).
Proof.
  apply (lpb_allocation_inherits_enabled used_table 0xC10 0 true true).
  - exact used_table_wf.
  - intros [|[|w]] e; vm_compute; intros [= <-]; split; discriminate.
Defined.
