(* ===== verification/BranchPredictor.v ===== *)
(** The branch predictors (common/performance_model): the base class and its
    factory (branch_predictor.cc), the one-bit predictor
    (one_bit_branch_predictor.cc), the Pentium M predictor that combines the
    tables (pentium_m_branch_predictor.cc), and the place where the core uses
    them (Core::accessBranchPredictor in common/core/core.cc and
    DynamicInstruction::getBranchCost).  The core is proved against the
    interface [DirectionPredictor], which both predictors implement. *)
From stdpp Require Import base numbers list strings.
From Stdlib Require Import ZArith Lia Bool.
From S2P Require Import Prelude BranchTables LoopPredictor.
Open Scope Z_scope.

(** * BranchPredictor: the counters of the base class *)
Record Counters := mkCounters {
  m_correct_predictions : Z;
  m_incorrect_predictions : Z
}.
Definition new_counters : Counters := mkCounters 0 0.
Definition resetCounters (c : Counters) : Counters := mkCounters 0 0.
Definition updateCounters (c : Counters) (predicted actual : bool) : Counters :=
  if eqb predicted actual then mkCounters (u64 (m_correct_predictions c + 1)) (m_incorrect_predictions c)
  else mkCounters (m_correct_predictions c) (u64 (m_incorrect_predictions c + 1)).

(** * OneBitBranchPredictor *)
Module OneBit.
Record t := mk { counters : Counters; m_bits : list bool }.
Definition create (size : Z) : t := mk new_counters (replicate (Z.to_nat size) false).
(** [UInt32 index = ip % m_bits.size()] *)
Definition index (p : t) (ip : IntPtr) : result nat :=
  guard! negb (length (m_bits p) =? 0)%nat else Undefined in
  Ok (Z.to_nat (u32 (ip mod Z.of_nat (length (m_bits p))))).
Definition predict (p : t) (ip target : IntPtr) : result (bool * t) :=
  let! i := index p ip in
  let! b := aget (m_bits p) i in
  Ok (b, p).
Definition update (p : t) (predicted actual : bool) (ip target : IntPtr) : result t :=
  let c := updateCounters (counters p) predicted actual in
  let! i := index p ip in
  let! bits := aset (m_bits p) i actual in
  Ok (mk c bits).
End OneBit.

(** * PentiumMBranchPredictor *)
Module PentiumM.
Record t := mk {
  counters : Counters;
  m_global_predictor : Global.t;
  m_btb : Btb.t;
  m_bimodal_table : Bimodal.t;
  m_lpb : Loop.t;
  m_pir : IntPtr;
  m_last_gp_hit : bool;
  m_last_bm_pred : option bool;  (** the constructor leaves it uninitialised *)
  m_last_lpb_hit : bool
}.

Definition create : result t :=
  let! g := Global.create_pentium_m in
  let! b := Bimodal.create 4096 in
  let! l := Loop.create_pentium_m in
  Ok (mk new_counters g Btb.create b l 0 false None false).

Definition predict (p : t) (ip target : IntPtr) : result (bool * t) :=
  let! global_pred_out := Global.lookup (m_global_predictor p) ip target (m_pir p) in
  let! btb_out := Btb.lookup (m_btb p) ip target in
  let! (lpb_out, lpb) := Loop.lookup (m_lpb p) ip target in
  let! bimodal_out := Bimodal.predict (m_bimodal_table p) ip target in
  let p := mk (counters p) (m_global_predictor p) (m_btb p) (m_bimodal_table p) lpb (m_pir p)
             (hit global_pred_out) (Some bimodal_out) (hit lpb_out && hit btb_out) in
  let res :=
    if hit global_pred_out then prediction global_pred_out
    else if hit lpb_out && hit btb_out then prediction lpb_out
    else bimodal_out in
  Ok (res, p).

Definition update_pir (pir : IntPtr) (actual : bool) (ip target : IntPtr)
    (branch_type : BranchType) : IntPtr :=
  let next rhs := Z.land (Z.lxor (u64 (Z.shiftl pir 2)) rhs) 0x7fff in
  if bool_decide (branch_type = ConditionalBranch) && actual then next (Z.shiftr ip 4)
  else if bool_decide (branch_type = IndirectBranch) then next (Z.lor (Z.shiftr ip 4) target)
  else pir.

(** [m_last_lpb_hit || m_last_bm_pred == actual] *)
Definition lpb_or_bm_hit (p : t) (actual : bool) : result bool :=
  if m_last_lpb_hit p then Ok true
  else let! b := of_option (m_last_bm_pred p) Undefined in Ok (eqb b actual).

(** What [update] does to the global predictor. *)
Definition update_global (p : t) (predicted actual : bool) (ip target : IntPtr)
    (lpb_or_bm : bool) : result Global.t :=
  let g := m_global_predictor p in
  if m_last_gp_hit p then
    if negb (eqb predicted actual) && lpb_or_bm then Global.evict g ip (m_pir p)
    else Global.update g predicted actual ip target (m_pir p)
  else if negb (eqb predicted actual) && (m_last_gp_hit p || negb lpb_or_bm) then
    Global.update g predicted actual ip target (m_pir p)
  else Ok g.

Definition update (p : t) (predicted actual : bool) (ip target : IntPtr) : result t :=
  let c := updateCounters (counters p) predicted actual in
  let! btb := Btb.update (m_btb p) predicted actual ip target in
  let! lpb := Loop.update (m_lpb p) predicted actual ip target in
  let! bm := if negb (m_last_gp_hit p) && negb (m_last_lpb_hit p)
             then Bimodal.update (m_bimodal_table p) predicted actual ip target
             else Ok (m_bimodal_table p) in
  let! lb := lpb_or_bm_hit p actual in
  let! g := update_global p predicted actual ip target lb in
  Ok (mk c g btb bm lpb (update_pir (m_pir p) actual ip target ConditionalBranch)
        (m_last_gp_hit p) (m_last_bm_pred p) (m_last_lpb_hit p)).
End PentiumM.

(** * The virtual interface of BranchPredictor *)
Class BranchPredictor (P : Type) := {
  predict : P -> IntPtr -> IntPtr -> result (bool * P);
  update : P -> bool -> bool -> IntPtr -> IntPtr -> result P;
  getCounters : P -> Counters
}.

#[global] Instance one_bit_predictor : BranchPredictor OneBit.t := {
  predict := OneBit.predict;
  update := OneBit.update;
  getCounters := OneBit.counters
}.
#[global] Instance pentium_m_predictor : BranchPredictor PentiumM.t := {
  predict := PentiumM.predict;
  update := PentiumM.update;
  getCounters := PentiumM.counters
}.

(** The object BranchPredictor::create returns (NULL for type "none"). *)
Inductive AnyPredictor :=
  | BpOneBit (p : OneBit.t)
  | BpPentiumM (p : PentiumM.t).

Definition create (type : string) (size : Z) : result (option AnyPredictor) :=
  if String.eqb type "none" then Ok None
  else if String.eqb type "one_bit" then Ok (Some (BpOneBit (OneBit.create (u32 size))))
  else if String.eqb type "pentium_m" then
    let! p := PentiumM.create in Ok (Some (BpPentiumM p))
  else Err LogError.

Definition any_predict (b : AnyPredictor) (ip target : IntPtr) : result (bool * AnyPredictor) :=
  match b with
  | BpOneBit p => let! (r, p) := predict p ip target in Ok (r, BpOneBit p)
  | BpPentiumM p => let! (r, p) := predict p ip target in Ok (r, BpPentiumM p)
  end.
Definition any_update (b : AnyPredictor) (predicted actual : bool) (ip target : IntPtr)
  : result AnyPredictor :=
  match b with
  | BpOneBit p => let! p := update p predicted actual ip target in Ok (BpOneBit p)
  | BpPentiumM p => let! p := update p predicted actual ip target in Ok (BpPentiumM p)
  end.
#[global] Instance any_predictor : BranchPredictor AnyPredictor := {
  predict := any_predict;
  update := any_update;
  getCounters b :=
    match b with
    | BpOneBit p => OneBit.counters p
    | BpPentiumM p => PentiumM.counters p
    end
}.

(** * The users of the predictor *)
Section core.
Context {P : Type} `{BranchPredictor P}.

(** Core::accessBranchPredictor: was the branch mispredicted? *)
Definition accessBranchPredictor (bp : option P) (eip : IntPtr) (taken : bool) (target : IntPtr)
  : result (bool * option P) :=
  match bp with
  | Some bp =>
      let! (prediction, bp) := predict bp eip target in
      let! bp := update bp prediction taken eip target in
      Ok (negb (eqb prediction taken), Some bp)
  | None => Ok (false, None)
  end.

(** DynamicInstruction::getBranchCost, in cycles: without a predictor no branch
    is mispredicted, and [bp->getMispredictPenalty()] is not called. *)
Definition getBranchCost (mispredict_penalty : Z) (bp : option P) (eip : IntPtr) (taken : bool)
    (target : IntPtr) : result (Z * bool * option P) :=
  let! (is_mispredict, bp) := accessBranchPredictor bp eip taken target in
  Ok (if is_mispredict then mispredict_penalty else 1, is_mispredict, bp).

(** The branches of an execution, in order: the number that were mispredicted. *)
Fixpoint run_branches (bp : option P) (trace : list (IntPtr * bool * IntPtr))
  : result (Z * option P) :=
  match trace with
  | [] => Ok (0, bp)
  | (ip, taken, tgt) :: trace' =>
      let! (m, bp) := accessBranchPredictor bp ip taken tgt in
      let! (n, bp) := run_branches bp trace' in
      Ok ((if m : bool then 1 else 0) + n, bp)
  end.
End core.

(** * What a predictor promises *)
Class DirectionPredictor (P : Type) `{BranchPredictor P} := {
  bp_wf : P -> Prop;
  bp_access_ok : forall p ip taken tgt, bp_wf p ->
    exists r p1 p2, predict p ip tgt = Ok (r, p1) /\ update p1 r taken ip tgt = Ok p2 /\ bp_wf p2 /\
      getCounters p2 = updateCounters (getCounters p) r taken
}.

(** ** The one-bit predictor *)
Lemma one_bit_index p ip :
  (0 < length (OneBit.m_bits p))%nat ->
  exists i, OneBit.index p ip = Ok i /\ (i < length (OneBit.m_bits p))%nat.
Proof.
  intros Hlen. unfold OneBit.index.
  rewrite (proj2 (Nat.eqb_neq _ _)) by lia. simpl. eexists. split; [done|].
  pose proof (Z.mod_pos_bound ip (Z.of_nat (length (OneBit.m_bits p))) ltac:(lia)) as Hm.
  unfold u32, uwrap.
  pose proof (Z.mod_le (ip mod Z.of_nat (length (OneBit.m_bits p))) (2 ^ 32) ltac:(lia) ltac:(lia)).
  pose proof (Z.mod_pos_bound (ip mod Z.of_nat (length (OneBit.m_bits p))) (2 ^ 32) ltac:(lia)).
  lia.
Qed.

Lemma one_bit_access_ok p ip taken tgt :
  (0 < length (OneBit.m_bits p))%nat ->
  exists r p1 p2, OneBit.predict p ip tgt = Ok (r, p1) /\
    OneBit.update p1 r taken ip tgt = Ok p2 /\
    (0 < length (OneBit.m_bits p2))%nat /\
    OneBit.counters p2 = updateCounters (OneBit.counters p) r taken.
Proof.
  intros Hlen. destruct (one_bit_index p ip Hlen) as (i & Hi & Hlt).
  destruct (lookup_lt_is_Some_2 (OneBit.m_bits p) i Hlt) as [b Hb].
  exists b, p. unfold OneBit.predict, OneBit.update. rewrite Hi. simpl.
  rewrite (aget_Ok _ _ _ Hb). simpl. rewrite aset_Ok by done. simpl.
  eexists. split_and!; try done. simpl. by rewrite length_insert.
Qed.

#[global] Instance one_bit_direction : DirectionPredictor OneBit.t := {
  bp_wf p := (0 < length (OneBit.m_bits p))%nat;
  bp_access_ok := one_bit_access_ok
}.

(** ** The Pentium M predictor *)
Definition bimodal_wf (b : Bimodal.t) : Prop :=
  Bimodal.m_mask b = 4095 /\ length (Bimodal.m_table b) = 4096%nat.

Lemma bimodal_index b ip :
  bimodal_wf b -> (Z.to_nat (u32 (Z.land ip (Bimodal.m_mask b))) < length (Bimodal.m_table b))%nat.
Proof.
  intros [-> ->]. pose proof (land_mask_range ip 4095 12 ltac:(lia) eq_refl) as H.
  change (2 ^ 12) with 4096 in H. rewrite u32_small by lia. lia.
Qed.

Lemma bimodal_predict_ok b ip tgt : bimodal_wf b -> exists r, Bimodal.predict b ip tgt = Ok r.
Proof.
  intros Hwf. pose proof (bimodal_index b ip Hwf) as Hi. unfold Bimodal.predict.
  destruct (lookup_lt_is_Some_2 _ _ Hi) as [c Hc]. rewrite (aget_Ok _ _ _ Hc). by eexists.
Qed.

Lemma bimodal_update_ok b predicted actual ip tgt :
  bimodal_wf b -> exists b', Bimodal.update b predicted actual ip tgt = Ok b' /\ bimodal_wf b'.
Proof.
  intros Hwf. pose proof (bimodal_index b ip Hwf) as Hi. unfold Bimodal.update.
  destruct (lookup_lt_is_Some_2 _ _ Hi) as [c Hc]. rewrite (aget_Ok _ _ _ Hc). cbn [rbind].
  rewrite aset_Ok by done. cbn [rbind]. eexists. split; [done|].
  destruct Hwf as [Hm Hl]. split; [done|]. cbn [Bimodal.m_table]. by rewrite length_insert.
Qed.

Lemma bimodal_create_wf : exists b, Bimodal.create 4096 = Ok b /\ bimodal_wf b.
Proof.
  eexists. split; [reflexivity|]. split; [reflexivity|].
  cbn [Bimodal.m_table Bimodal.reset]. rewrite length_map. apply length_replicate.
Qed.

(** The four tables are well formed and the path register has fifteen bits. *)
Definition pm_wf (p : PentiumM.t) : Prop :=
  gp_wf (PentiumM.m_global_predictor p) /\ btb_wf (PentiumM.m_btb p) /\
  bimodal_wf (PentiumM.m_bimodal_table p) /\ lp_wf (PentiumM.m_lpb p) /\
  0 <= PentiumM.m_pir p < 2 ^ 15.

Lemma update_pir_range pir actual ip tgt ty :
  0 <= pir < 2 ^ 15 -> 0 <= PentiumM.update_pir pir actual ip tgt ty < 2 ^ 15.
Proof.
  intros Hp. unfold PentiumM.update_pir.
  do 2 (case_match; [apply land_mask_range; [lia|reflexivity]|]). done.
Qed.

Lemma pm_predict_ok p ip tgt :
  pm_wf p ->
  exists r p', PentiumM.predict p ip tgt = Ok (r, p') /\ pm_wf p' /\
    is_Some (PentiumM.m_last_bm_pred p') /\ PentiumM.counters p' = PentiumM.counters p.
Proof.
  intros (Hg & Hb & Hm & Hl & Hp). unfold PentiumM.predict.
  rewrite gp_lookup_ok by done. cbn [rbind].
  destruct (btb_lookup_ok (PentiumM.m_btb p) ip tgt Hb) as (rb & -> & _). cbn [rbind].
  assert (exists r l1, Loop.lookup (PentiumM.m_lpb p) ip tgt = Ok (r, l1) /\ lp_wf l1)
    as (rl & l1 & -> & Hl1).
  { destruct (lp_lookup_spec (PentiumM.m_lpb p) ip tgt Hl)
      as [[-> _]|(w & e & l' & _ & _ & _ & -> & ? & _)]; eauto. }
  cbn [rbind]. destruct (bimodal_predict_ok (PentiumM.m_bimodal_table p) ip tgt Hm) as (bo & ->).
  cbn [rbind]. eexists _, _. split; [done|]. split; [|by split; [eexists|]]. done.
Qed.

Lemma pm_update_ok p predicted actual ip tgt :
  pm_wf p -> is_Some (PentiumM.m_last_bm_pred p) ->
  exists p', PentiumM.update p predicted actual ip tgt = Ok p' /\ pm_wf p' /\
    PentiumM.counters p' = updateCounters (PentiumM.counters p) predicted actual.
Proof.
  intros (Hg & Hb & Hm & Hl & Hp) [bm Hbm]. unfold PentiumM.update.
  destruct (btb_update_ok (PentiumM.m_btb p) predicted actual ip tgt Hb) as (b' & -> & Hb' & _).
  cbn [rbind].
  destruct (lp_update_spec (PentiumM.m_lpb p) predicted actual ip tgt Hl)
    as (_ & _ & _ & l' & -> & Hl' & _). cbn [rbind].
  assert (exists m', (if negb (PentiumM.m_last_gp_hit p) && negb (PentiumM.m_last_lpb_hit p)
     then Bimodal.update (PentiumM.m_bimodal_table p) predicted actual ip tgt
     else Ok (PentiumM.m_bimodal_table p)) = Ok m' /\ bimodal_wf m') as (m' & -> & Hm').
  { case_match; [by apply bimodal_update_ok|eauto]. }
  cbn [rbind].
  assert (exists lb, PentiumM.lpb_or_bm_hit p actual = Ok lb) as (lb & ->).
  { unfold PentiumM.lpb_or_bm_hit. rewrite Hbm. case_match; by eexists. }
  cbn [rbind].
  assert (exists g', PentiumM.update_global p predicted actual ip tgt lb = Ok g' /\ gp_wf g')
    as (g' & -> & Hg').
  { unfold PentiumM.update_global.
    destruct (gp_evict_ok _ ip (PentiumM.m_pir p) Hg) as (ge & He & Hwe & _).
    destruct (gp_update_ok _ predicted actual ip tgt (PentiumM.m_pir p) Hg) as (gu & Hu & Hwu & _).
    repeat case_match; eauto. }
  cbn [rbind]. eexists. split; [done|]. split; [|done].
  split_and!; try done. all: by apply update_pir_range.
Qed.

Lemma pm_access_ok p ip taken tgt :
  pm_wf p ->
  exists r p1 p2, PentiumM.predict p ip tgt = Ok (r, p1) /\
    PentiumM.update p1 r taken ip tgt = Ok p2 /\ pm_wf p2 /\
    PentiumM.counters p2 = updateCounters (PentiumM.counters p) r taken.
Proof.
  intros Hwf. destruct (pm_predict_ok p ip tgt Hwf) as (r & p1 & Hp & Hwf1 & Hbm & Hc).
  destruct (pm_update_ok p1 r taken ip tgt Hwf1 Hbm) as (p2 & Hu & Hwf2 & Hc2).
  exists r, p1, p2. rewrite <- Hc. done.
Qed.

#[global] Instance pentium_m_direction : DirectionPredictor PentiumM.t := {
  bp_wf := pm_wf;
  bp_access_ok := pm_access_ok
}.

Lemma any_access_ok b ip taken tgt :
  match b with
  | BpOneBit p => bp_wf p
  | BpPentiumM p => bp_wf p
  end ->
  exists r b1 b2, any_predict b ip tgt = Ok (r, b1) /\ any_update b1 r taken ip tgt = Ok b2 /\
    match b2 with
    | BpOneBit p => bp_wf p
    | BpPentiumM p => bp_wf p
    end /\ getCounters b2 = updateCounters (getCounters b) r taken.
Proof.
  destruct b as [p|p]; intros Hwf.
  all: destruct (bp_access_ok p ip taken tgt Hwf) as (r & p1 & p2 & Hp & Hu & Hwf2 & Hc).
  1: exists r, (BpOneBit p1), (BpOneBit p2).
  2: exists r, (BpPentiumM p1), (BpPentiumM p2).
  all: unfold any_predict, any_update; rewrite Hp; cbn [rbind]; rewrite Hu; cbn [rbind];
    split_and!; done.
Qed.

#[global] Instance any_direction : DirectionPredictor AnyPredictor := {
  bp_wf b :=
    match b with
    | BpOneBit p => bp_wf p
    | BpPentiumM p => bp_wf p
    end;
  bp_access_ok := any_access_ok
}.

(** * The core, against the interface *)
Section core_facts.
Context {P : Type} `{DirectionPredictor P}.

Definition branches_counted (c : Counters) : Z :=
  m_correct_predictions c + m_incorrect_predictions c.

Lemma access_counts bp ip taken tgt :
  bp_wf bp -> 0 <= m_correct_predictions (getCounters bp) ->
  0 <= m_incorrect_predictions (getCounters bp) ->
  branches_counted (getCounters bp) + 1 < 2 ^ 64 ->
  exists m bp', accessBranchPredictor (Some bp) ip taken tgt = Ok (m, Some bp') /\ bp_wf bp' /\
    m_incorrect_predictions (getCounters bp') =
      m_incorrect_predictions (getCounters bp) + (if m then 1 else 0) /\
    m_correct_predictions (getCounters bp') =
      m_correct_predictions (getCounters bp) + (if m then 0 else 1).
Proof.
  intros Hwf Hc Hi Hsum. unfold branches_counted in Hsum.
  destruct (bp_access_ok bp ip taken tgt Hwf) as (r & p1 & p2 & Hp & Hu & Hwf2 & Hcnt).
  unfold accessBranchPredictor. rewrite Hp. cbn [rbind]. rewrite Hu. cbn [rbind].
  eexists _, p2. split; [done|]. split; [done|]. rewrite Hcnt. unfold updateCounters.
  destruct (eqb r taken); cbn [m_incorrect_predictions m_correct_predictions negb];
    rewrite u64_small by lia; lia.
Qed.

Lemma run_branches_counts trace bp :
  bp_wf bp -> 0 <= m_correct_predictions (getCounters bp) ->
  0 <= m_incorrect_predictions (getCounters bp) ->
  branches_counted (getCounters bp) + Z.of_nat (length trace) < 2 ^ 64 ->
  exists n bp', run_branches (Some bp) trace = Ok (n, Some bp') /\ bp_wf bp' /\
    m_incorrect_predictions (getCounters bp') = m_incorrect_predictions (getCounters bp) + n /\
    branches_counted (getCounters bp') =
      branches_counted (getCounters bp) + Z.of_nat (length trace).
Proof.
  revert bp. induction trace as [|[[ip taken] tgt] trace IH]; intros bp Hwf Hc Hi Hsum.
  - exists 0, bp. split_and!; simpl; [done|done|lia|lia].
  - cbn [length] in Hsum |- *.
    destruct (access_counts bp ip taken tgt Hwf Hc Hi ltac:(lia)) as (m & bp1 & Ha & Hwf1 & Hi1 & Hc1).
    unfold branches_counted in *.
    destruct (IH bp1 Hwf1) as (n & bp2 & Hr & Hwf2 & Hi2 & Hs2);
      [destruct m; lia|destruct m; lia|destruct m; lia|].
    eexists _, bp2. cbn [run_branches]. rewrite Ha. cbn [rbind]. rewrite Hr. cbn [rbind].
    split_and!; [done|done|destruct m; lia|destruct m; lia].
Qed.
End core_facts.

(** * Theorems *)

(** C27: whatever predictor the configuration names, every execution runs to its
    end: no table is indexed outside its bounds, no uninitialised value is read,
    the number of mispredictions the core sees is the one the predictor counts,
    and every branch is counted once. *)
Theorem branch_predictors_run_safely (type : string) (size : Z) (b : AnyPredictor)
    (trace : list (IntPtr * bool * IntPtr)) :
  create type size = Ok (Some b) -> 0 < u32 size -> Z.of_nat (length trace) < 2 ^ 64 ->
  exists n b', run_branches (Some b) trace = Ok (n, Some b') /\
    m_incorrect_predictions (getCounters b') = n /\
    m_correct_predictions (getCounters b') = Z.of_nat (length trace) - n.
Proof.
  intros Hc Hsize Hlen.
  assert (Hb : bp_wf b /\ getCounters b = new_counters).
  { unfold create in Hc. repeat case_match; try discriminate.
    - injection Hc as <-. split; [|done]. cbn. rewrite length_replicate. lia.
    - unfold PentiumM.create in Hc.
      destruct gp_create_wf as (g & Hg & Hwg). destruct bimodal_create_wf as (m & Hm & Hwm).
      destruct lp_create_wf as (l & Hl & Hwl). rewrite Hg, Hm, Hl in Hc. cbn [rbind] in Hc.
      injection Hc as <-. split; [|done]. split_and!; try done. apply btb_create_wf. }
  destruct Hb as [Hwf Hcnt].
  destruct (run_branches_counts trace b Hwf) as (n & b' & Hr & _ & Hi & Hs).
  1-3: rewrite Hcnt; unfold branches_counted; cbn; lia.
  exists n, b'. rewrite Hcnt in Hi, Hs. unfold branches_counted, new_counters in *.
  cbn [m_incorrect_predictions m_correct_predictions] in Hi, Hs.
  split_and!; [done|lia|lia].
Qed.

(** A Pentium M predictor whose [update] is called before any [predict] reads
    [m_last_bm_pred], which no constructor sets: whatever the branch, the
    program has no defined behaviour. *)
Theorem pentium_m_update_needs_predict (predicted actual : bool) (ip tgt : IntPtr) :
  (let! p := PentiumM.create in PentiumM.update p predicted actual ip tgt) = Err Undefined.
Proof.
  unfold PentiumM.create. destruct gp_create_wf as (g & -> & Hwg).
  destruct bimodal_create_wf as (m & -> & Hwm). destruct lp_create_wf as (l & -> & Hwl).
  cbn [rbind]. unfold PentiumM.update. cbn [PentiumM.m_btb PentiumM.m_lpb
    PentiumM.m_bimodal_table PentiumM.m_last_gp_hit PentiumM.m_last_lpb_hit negb andb].
  destruct (btb_update_ok Btb.create predicted actual ip tgt btb_create_wf) as (b' & -> & _).
  cbn [rbind]. destruct (lp_update_spec l predicted actual ip tgt Hwl) as (_ & _ & _ & l' & -> & _).
  cbn [rbind]. destruct (bimodal_update_ok m predicted actual ip tgt Hwm) as (m' & -> & _).
  done.
Qed.

(** Evicting a branch from the global predictor removes exactly that branch:
    the next lookup of it misses, and every lookup that uses another index or
    another tag returns what it returned before. *)
Theorem global_evict_exact (g : Global.t) (ip pir : IntPtr) :
  gp_wf g ->
  exists g', Global.evict g ip pir = Ok g' /\
    (forall tgt, Global.lookup g' ip tgt pir = Ok ret_none) /\
    forall ip' pir' tgt, Global.gen_index_tag ip' pir' <> Global.gen_index_tag ip pir ->
      Global.lookup g' ip' tgt pir' = Global.lookup g ip' tgt pir'.
Proof.
  intros Hwf. destruct (gp_evict_ok g ip pir Hwf) as (g' & He & Hwf' & Hmiss & Hframe).
  exists g'. split; [done|]. split.
  - intros tgt. rewrite gp_lookup_ok by done. by rewrite Hmiss.
  - intros ip' pir' tgt Hne. rewrite !gp_lookup_ok by done. f_equal. apply Hframe.
    unfold gp_index, gp_tag. intros [Hi Ht]%pair_inj. apply Hne.
    assert (forall a b, 0 <= (Global.gen_index_tag a b).1) as Hpos.
    { intros a c. unfold Global.gen_index_tag. cbn [fst].
      apply (land_mask_range _ 0x1FF 9); [lia|reflexivity]. }
    pose proof (Hpos ip pir). pose proof (Hpos ip' pir').
    apply injective_projections; [lia|done].
Qed.

(** Updating the branch target buffer with a branch makes the next lookup of
    that branch hit, and drops no branch that maps to another index. *)
Theorem btb_update_then_hit (b : Btb.t) (predicted actual : bool) (ip tgt : IntPtr) :
  btb_wf b ->
  exists b' r, Btb.update b predicted actual ip tgt = Ok b' /\
    Btb.lookup b' ip tgt = Ok r /\ hit r = true /\
    forall ip' r', btb_index ip' <> btb_index ip -> Btb.lookup b ip' tgt = Ok r' -> hit r' = true ->
      exists r2, Btb.lookup b' ip' tgt = Ok r2 /\ hit r2 = true.
Proof.
  intros Hwf. destruct (btb_update_ok b predicted actual ip tgt Hwf) as (b' & Hu & Hwf' & Hh & Hf).
  destruct (btb_lookup_ok b' ip tgt Hwf') as (r & Hr & Hiff).
  exists b', r. split_and!; [done|done|by apply Hiff|]. intros ip' r' Hne Hl Hhit.
  destruct (btb_lookup_ok b ip' tgt Hwf) as (r1 & Hr1 & Hiff1).
  assert (r1 = r') as -> by congruence.
  destruct (btb_lookup_ok b' ip' tgt Hwf') as (r2 & Hr2 & Hiff2).
  exists r2. split; [done|]. apply Hiff2, Hf; [done|]. by apply Hiff1.
Qed.

(** * Witnesses *)
Definition pm0 : AnyPredictor :=
  match PentiumM.create with
  | Ok p => BpPentiumM p
  | Err _ => BpOneBit (OneBit.create 1)
  end.

Lemma branch_predictors_run_safely_witness :
  exists n b', run_branches (Some pm0) [(0x400, true, 0x380); (0x400, false, 0x404)] = Ok (n, Some b') /\
    m_incorrect_predictions (getCounters b') = n /\
    m_correct_predictions (getCounters b') = 2 - n.
Proof.
  apply (branch_predictors_run_safely "pentium_m" 1024 pm0).
  - vm_compute. reflexivity.
  - reflexivity.
  - reflexivity.
Defined.

Lemma global_evict_exact_witness :
  exists g g', Global.create_pentium_m = Ok g /\ Global.evict g 0x1230 0 = Ok g' /\
    forall tgt, Global.lookup g' 0x1230 tgt 0 = Ok ret_none.
Proof.
  destruct gp_create_wf as (g & Hg & Hwf).
  destruct (global_evict_exact g 0x1230 0 Hwf) as (g' & He & Hm & _). eauto.
Defined.

Lemma btb_update_then_hit_witness :
  exists b' r, Btb.update Btb.create true true 0x1230 0 = Ok b' /\
    Btb.lookup b' 0x1230 0 = Ok r /\ hit r = true.
Proof.
  destruct (btb_update_then_hit Btb.create true true 0x1230 0 btb_create_wf)
    as (b' & r & Hu & Hl & Hh & _). eauto.
Defined.
