(* ===== verification/Queues.v ===== *)
(** The queues of the simulator: CircularQueue (common/misc/circular_queue.h),
    the ring buffer behind the reorder buffer and the instruction queue, and
    ReqQueueListTemplate (common/core/memory_subsystem/cache/
    req_queue_list_template.h), the requests the tag directory keeps per
    address.  The ring buffer refines a bounded first-in first-out list. *)
From stdpp Require Import base numbers list gmap.
From Stdlib Require Import ZArith Lia Bool.
From S2P Require Import Prelude.
Open Scope Z_scope.

(** * CircularQueue *)
Module CircularQueue.
Section queue.
Context {T : Type}.

(** The cells of [new T\[m_size\]] have no value until something is pushed. *)
Record t := mk {
  m_size : Z;
  m_first : Z;
  m_last : Z;
  m_queue : list (option T)
}.

Definition create (size : Z) : t :=
  let sz := u32 (size + 1) in mk sz 0 0 (replicate (Z.to_nat sz) None).

(** [x % m_size] on UInt32 operands. *)
Definition modulo (q : t) (x : Z) : result Z :=
  guard! negb (m_size q =? 0) else Undefined in Ok (u32 x mod m_size q).

Definition full (q : t) : result bool :=
  let! n := modulo q (m_first q + 1) in Ok (n =? m_last q).
Definition empty (q : t) : bool := m_first q =? m_last q.
Definition size (q : t) : result Z := modulo q (m_first q + m_size q - m_last q).

(** Reading a cell nothing was written to gives an indeterminate value. *)
Definition cell (q : t) (i : Z) : result T :=
  let! c := aget (m_queue q) (Z.to_nat i) in of_option c Undefined.

Definition push (q : t) (x : T) : result t :=
  let! f := full q in
  guard! negb f else AssertFailed in
  let! cells := aset (m_queue q) (Z.to_nat (m_first q)) (Some x) in
  let! n := modulo q (m_first q + 1) in
  Ok (mk (m_size q) n (m_last q) cells).

(** [next()]: the new element is whatever the cell held; the caller gets a
    reference to it, here its position. *)
Definition next (q : t) : result (Z * t) :=
  let! f := full q in
  guard! negb f else AssertFailed in
  let! n := modulo q (m_first q + 1) in
  Ok (m_first q, mk (m_size q) n (m_last q) (m_queue q)).

Definition pop (q : t) : result (T * t) :=
  guard! negb (empty q) else AssertFailed in
  let idx := m_last q in
  let! n := modulo q (m_last q + 1) in
  let! x := cell q idx in
  Ok (x, mk (m_size q) (m_first q) n (m_queue q)).

Definition pushCircular (q : t) (x : T) : result t :=
  let! f := full q in
  let! q := if f : bool then let! (_, q) := pop q in Ok q else Ok q in
  push q x.

Definition front (q : t) : result T :=
  guard! negb (empty q) else AssertFailed in cell q (m_last q).
Definition back (q : t) : result T :=
  guard! negb (empty q) else AssertFailed in
  let! i := modulo q (m_first q + m_size q - 1) in cell q i.

(** [operator\[\]] and [at] *)
Definition index (q : t) (idx : Z) : result T :=
  let! i := modulo q (m_last q + idx) in cell q i.
Definition at_ (q : t) (idx : Z) : result T :=
  let! n := size q in
  guard! idx <? n else AssertFailed in index q idx.
End queue.
Arguments t : clear implicits.
End CircularQueue.

(** * ReqQueueListTemplate *)
Module ReqQueueList.

(** std::map<IntPtr, std::queue<T_Req*>*>: the requests of an address, oldest first. *)
Abbreviation t Req := (gmap Z (list Req)).

Section requests.
Context {Req : Type}.

Definition create : t Req := ∅.

Definition enqueue (m : t Req) (address : Z) (req : Req) : t Req :=
  <[address := default [] (m !! address) ++ [req]]> m.

(** A queue that is there has a front: the last [pop] erases it. *)
Definition front (m : t Req) (address : Z) : result Req :=
  let! q := of_option (m !! address) LogError in
  of_option (head q) Undefined.
Definition back (m : t Req) (address : Z) : result Req :=
  let! q := of_option (m !! address) LogError in
  of_option (last q) Undefined.
Definition dequeue (m : t Req) (address : Z) : result (Req * t Req) :=
  let! q := of_option (m !! address) LogError in
  match q with
  | [] => Err Undefined
  | r :: [] => Ok (r, delete address m)
  | r :: q' => Ok (r, <[address := q']> m)
  end.
(** The count of the queued requests; it is far below [2 ^ 32]. *)
Definition size (m : t Req) (address : Z) : Z :=
  match m !! address with
  | None => 0
  | Some q => Z.of_nat (length q)
  end.
Definition empty (m : t Req) (address : Z) : bool :=
  match m !! address with
  | None => true
  | Some _ => false
  end.
(** The request at the front is shared with the handlers, which update it in place. *)
Definition set_front (m : t Req) (address : Z) (req : Req) : t Req :=
  match m !! address with
  | Some (_ :: q) => <[address := req :: q]> m
  | _ => m
  end.
End requests.
End ReqQueueList.

(** * The ring buffer as a list *)
Section ring.
Context {T : Type}.
Import CircularQueue.

(** The cells from [m_last] on, around the end of the array, hold the list. *)
Definition cq_repr (q : t T) (l : list T) : Prop :=
  0 < m_size q < 2 ^ 31 /\ length (m_queue q) = Z.to_nat (m_size q) /\
  0 <= m_first q < m_size q /\ 0 <= m_last q < m_size q /\
  Z.of_nat (length l) < m_size q /\
  m_first q = (m_last q + Z.of_nat (length l)) mod m_size q /\
  forall i x, l !! i = Some x ->
    m_queue q !! Z.to_nat ((m_last q + Z.of_nat i) mod m_size q) = Some (Some x).

Lemma modulo_ok (q : t T) x :
  0 < m_size q < 2 ^ 31 -> 0 <= x < 2 ^ 32 -> modulo q x = Ok (x mod m_size q).
Proof.
  intros Hs Hx. unfold modulo. rewrite (proj2 (Z.eqb_neq _ _)) by lia. simpl.
  by rewrite u32_small.
Qed.

(** Two offsets below the size are the same position only if they are equal. *)
Lemma ring_inj n a i j :
  0 < n -> 0 <= i < n -> 0 <= j < n -> (a + i) mod n = (a + j) mod n -> i = j.
Proof.
  intros Hn Hi Hj He. assert ((a + i - (a + j)) mod n = 0) as Hd.
  { rewrite Zminus_mod, He, Z.sub_diag. apply Zmod_0_l. }
  replace (a + i - (a + j)) with (i - j) in Hd by lia.
  apply Z.mod_divide in Hd as [k Hk]; [|lia]. assert (k < 1) by nia. assert (-1 < k) by nia.
  assert (k = 0) as -> by lia. lia.
Qed.

Lemma mod_offset n a i : 0 < n -> ((a mod n) + i) mod n = (a + i) mod n.
Proof. intros. by rewrite Z.add_mod_idemp_l by lia. Qed.

Lemma cq_create_repr size : 0 <= size < 2 ^ 31 - 1 -> cq_repr (create size) [].
Proof.
  intros Hs. unfold create. rewrite u32_small by lia.
  split_and!; cbn [m_size m_first m_last m_queue length]; try lia; try done.
  apply length_replicate.
Qed.

Lemma cq_size_ok q l : cq_repr q l -> size q = Ok (Z.of_nat (length l)).
Proof.
  intros (Hs & _ & Hf & Hl & Hlen & He & _). unfold size. rewrite modulo_ok by lia. f_equal.
  rewrite He. replace ((m_last q + Z.of_nat (length l)) mod m_size q + m_size q - m_last q)
    with ((m_last q + Z.of_nat (length l)) mod m_size q + (m_size q - m_last q)) by lia.
  rewrite mod_offset by lia.
  replace (m_last q + Z.of_nat (length l) + (m_size q - m_last q))
    with (Z.of_nat (length l) + 1 * m_size q) by lia.
  rewrite Z.mod_add by lia. apply Z.mod_small. lia.
Qed.

Lemma cq_empty_ok q l : cq_repr q l -> empty q = (length l =? 0)%nat.
Proof.
  intros (Hs & _ & Hf & Hl & Hlen & He & _). unfold empty. rewrite He.
  destruct (Nat.eqb_spec (length l) 0) as [->|Hne].
  - rewrite Z.add_0_r, Z.mod_small by lia. apply Z.eqb_refl.
  - apply Z.eqb_neq. intros Heq.
    assert (Z.of_nat (length l) = 0); [|lia].
    apply (ring_inj (m_size q) (m_last q)); try lia.
    rewrite Heq, Z.add_0_r, Z.mod_small by lia. done.
Qed.

Lemma cq_full_ok q l :
  cq_repr q l -> full q = Ok (Z.of_nat (length l) =? m_size q - 1).
Proof.
  intros (Hs & _ & Hf & Hl & Hlen & He & _). unfold full. rewrite modulo_ok by lia. simpl. f_equal.
  rewrite He, mod_offset by lia.
  destruct (Z.eqb_spec (Z.of_nat (length l)) (m_size q - 1)) as [->|Hne].
  - replace (m_last q + (m_size q - 1) + 1) with (m_last q + 1 * m_size q) by lia.
    rewrite Z.mod_add, Z.mod_small by lia. apply Z.eqb_refl.
  - apply Z.eqb_neq. intros Heq.
    assert (Z.of_nat (length l) + 1 = 0); [|lia].
    apply (ring_inj (m_size q) (m_last q)); try lia.
    rewrite Z.add_assoc, Heq, Z.add_0_r, Z.mod_small by lia. done.
Qed.

Lemma cq_cell_ok q l i x :
  cq_repr q l -> l !! i = Some x ->
  cell q ((m_last q + Z.of_nat i) mod m_size q) = Ok x.
Proof.
  intros (Hs & _ & _ & _ & _ & _ & Hc) Hx. unfold cell.
  rewrite (aget_Ok _ _ _ (Hc i x Hx)). done.
Qed.

Lemma cq_push_ok q l x :
  cq_repr q l -> Z.of_nat (length l) < m_size q - 1 ->
  exists q', push q x = Ok q' /\ m_size q' = m_size q /\ cq_repr q' (l ++ [x]).
Proof.
  intros Hr Hroom. pose proof (cq_full_ok q l Hr) as Hfull.
  pose proof Hr as (Hs & Hq & Hf & Hl & Hlen & He & Hc). unfold push. rewrite Hfull. simpl.
  rewrite (proj2 (Z.eqb_neq _ _)) by lia. simpl. rewrite aset_Ok by lia. simpl.
  rewrite modulo_ok by lia. simpl. eexists. split; [done|]. split; [done|].
  pose proof (Z.mod_pos_bound (m_first q + 1) (m_size q) ltac:(lia)).
  split_and!; simpl; try lia; try done.
  - by rewrite length_insert.
  - rewrite length_app. simpl. lia.
  - rewrite length_app. simpl. rewrite He, mod_offset by lia. f_equal. lia.
  - intros i y [Hi|[Hi Hy]]%lookup_app_Some.
    + rewrite list_lookup_insert_ne; [by apply Hc|]. apply lookup_lt_Some in Hi as Hlt.
      intros Heq. apply Z2Nat.inj in Heq; [|lia|apply Z.mod_pos_bound; lia].
      rewrite He in Heq. apply ring_inj in Heq; lia.
    + apply list_lookup_singleton_Some in Hy as [Hi0 <-].
      replace i with (length l) by lia. rewrite <- He. apply list_lookup_insert_eq. lia.
Qed.

Lemma cq_pop_ok q x l :
  cq_repr q (x :: l) ->
  exists q', pop q = Ok (x, q') /\ m_size q' = m_size q /\ cq_repr q' l.
Proof.
  intros Hr. pose proof (cq_empty_ok q _ Hr) as Hempty.
  pose proof (cq_cell_ok q _ 0 x Hr eq_refl) as Hcell.
  pose proof Hr as (Hs & Hq & Hf & Hl & Hlen & He & Hc). cbn [length] in Hlen, He.
  rewrite Z.add_0_r, Z.mod_small in Hcell by lia.
  unfold pop. rewrite Hempty. simpl. rewrite modulo_ok by lia. simpl. rewrite Hcell. simpl.
  eexists. split; [done|]. split; [done|].
  pose proof (Z.mod_pos_bound (m_last q + 1) (m_size q) ltac:(lia)).
  split_and!; simpl; try lia; try done.
  - rewrite mod_offset, He by lia. f_equal. lia.
  - intros i y Hi. rewrite mod_offset by lia.
    replace (m_last q + 1 + Z.of_nat i) with (m_last q + Z.of_nat (S i)) by lia. by apply Hc.
Qed.
End ring.

(** * The bounded FIFO the ring buffer implements *)
Module BoundedFifo.
Section spec.
Context {T : Type}.

Inductive op :=
  | Push (x : T)
  | PushCircular (x : T)
  | Pop
  | Front
  | Back
  | At (i : nat)
  | Size.

Inductive answer :=
  | Done
  | Element (x : T)
  | Count (n : Z).

(** One operation on a list that holds at most [cap] elements. *)
Definition step (cap : Z) (l : list T) (o : op) : result (answer * list T) :=
  let full := Z.of_nat (length l) =? cap in
  match o with
  | Push x => if full then Err AssertFailed else Ok (Done, l ++ [x])
  | PushCircular x => Ok (Done, (if full then tail l else l) ++ [x])
  | Pop => match l with [] => Err AssertFailed | x :: l' => Ok (Element x, l') end
  | Front => match l with [] => Err AssertFailed | x :: _ => Ok (Element x, l) end
  | Back => match last l with None => Err AssertFailed | Some x => Ok (Element x, l) end
  | At i => match l !! i with None => Err AssertFailed | Some x => Ok (Element x, l) end
  | Size => Ok (Count (Z.of_nat (length l)), l)
  end.

(** The same operation on the ring buffer. *)
Definition ring_step (q : CircularQueue.t T) (o : op) : result (answer * CircularQueue.t T) :=
  match o with
  | Push x => let! q := CircularQueue.push q x in Ok (Done, q)
  | PushCircular x => let! q := CircularQueue.pushCircular q x in Ok (Done, q)
  | Pop => let! (x, q) := CircularQueue.pop q in Ok (Element x, q)
  | Front => let! x := CircularQueue.front q in Ok (Element x, q)
  | Back => let! x := CircularQueue.back q in Ok (Element x, q)
  | At i => let! x := CircularQueue.at_ q (Z.of_nat i) in Ok (Element x, q)
  | Size => let! n := CircularQueue.size q in Ok (Count n, q)
  end.

(** A sequence of operations: the answers. *)
Fixpoint run {S} (f : S -> op -> result (answer * S)) (s : S) (os : list op)
  : result (list answer) :=
  match os with
  | [] => Ok []
  | o :: os' =>
      let! (a, s) := f s o in
      let! rest := run f s os' in Ok (a :: rest)
  end.
End spec.
Arguments op : clear implicits.
Arguments answer : clear implicits.
End BoundedFifo.

Section refinement.
Context {T : Type}.
Import BoundedFifo.

Lemma cq_back_ok (q : CircularQueue.t T) l x :
  cq_repr q (l ++ [x]) -> CircularQueue.back q = Ok x.
Proof.
  intros Hr. pose proof (cq_empty_ok q _ Hr) as Hempty.
  pose proof (cq_cell_ok q _ (length l) x Hr) as Hcell.
  rewrite lookup_app_r, Nat.sub_diag in Hcell by lia. specialize (Hcell eq_refl).
  destruct Hr as (Hs & Hq & Hf & Hl & Hlen & He & Hc). rewrite length_app in *. cbn [length] in *.
  unfold CircularQueue.back. rewrite Hempty, (proj2 (Nat.eqb_neq _ _)) by lia. cbn [negb rguard rbind].
  rewrite modulo_ok by lia. cbn [rbind]. rewrite <- Hcell. f_equal. rewrite He.
  replace ((CircularQueue.m_last q + Z.of_nat (length l + 1)) mod CircularQueue.m_size q
           + CircularQueue.m_size q - 1)
    with ((CircularQueue.m_last q + Z.of_nat (length l + 1)) mod CircularQueue.m_size q
           + (CircularQueue.m_size q - 1)) by lia.
  rewrite mod_offset by lia.
  replace (CircularQueue.m_last q + Z.of_nat (length l + 1) + (CircularQueue.m_size q - 1))
    with (CircularQueue.m_last q + Z.of_nat (length l) + 1 * CircularQueue.m_size q) by lia.
  by rewrite Z.mod_add by lia.
Qed.

Lemma cq_at_ok (q : CircularQueue.t T) l i x :
  cq_repr q l -> l !! i = Some x -> CircularQueue.at_ q (Z.of_nat i) = Ok x.
Proof.
  intros Hr Hx. apply lookup_lt_Some in Hx as Hlt. unfold CircularQueue.at_.
  rewrite (cq_size_ok q l Hr). cbn [rbind]. rewrite (proj2 (Z.ltb_lt _ _)) by lia.
  cbn [rguard rbind]. unfold CircularQueue.index.
  pose proof Hr as (Hs & _ & _ & Hl & Hlen & _). rewrite modulo_ok by lia. cbn [rbind].
  by apply (cq_cell_ok q l).
Qed.

(** Results that agree, errors included, with related states. *)
Definition same_result (cap : Z) (r : result (answer T * CircularQueue.t T))
    (s : result (answer T * list T)) : Prop :=
  match r, s with
  | Ok (a, q), Ok (b, l) => a = b /\ CircularQueue.m_size q = cap + 1 /\ cq_repr q l
  | Err e, Err f => e = f
  | _, _ => False
  end.

Lemma cq_step_refines cap (q : CircularQueue.t T) l o :
  cq_repr q l -> CircularQueue.m_size q = cap + 1 ->
  match o with PushCircular _ => 0 < cap | _ => True end ->
  same_result cap (ring_step q o) (step cap l o).
Proof.
  intros Hr Hcap Ho. pose proof (cq_full_ok q l Hr) as Hfull.
  pose proof (cq_empty_ok q l Hr) as Hempty. pose proof (cq_size_ok q l Hr) as Hsize.
  pose proof Hr as (_ & _ & _ & _ & Hlen & _).
  replace (CircularQueue.m_size q - 1) with cap in Hfull by lia.
  destruct o as [x|x| | | |i|]; unfold ring_step, step.
  - destruct (Z.eqb_spec (Z.of_nat (length l)) cap).
    + unfold CircularQueue.push. rewrite Hfull. done.
    + destruct (cq_push_ok q l x Hr ltac:(lia)) as (q' & -> & Hs' & Hr').
      split_and!; [done|lia|done].
  - unfold CircularQueue.pushCircular. rewrite Hfull. cbn [rbind].
    destruct (Z.eqb_spec (Z.of_nat (length l)) cap) as [Heq|Hne].
    + destruct l as [|y l']; [simpl in Heq; lia|]. cbn [tail length] in *.
      destruct (cq_pop_ok q y l' Hr) as (q1 & -> & Hs1 & Hr1). cbn [rbind].
      destruct (cq_push_ok q1 l' x Hr1 ltac:(lia)) as (q2 & -> & Hs2 & Hr2).
      split_and!; [done|lia|done].
    + cbn [rbind]. destruct (cq_push_ok q l x Hr ltac:(lia)) as (q' & -> & Hs' & Hr').
      split_and!; [done|lia|done].
  - destruct l as [|x l']; [by unfold CircularQueue.pop; rewrite Hempty|].
    destruct (cq_pop_ok q x l' Hr) as (q' & -> & Hs' & Hr'). split_and!; [done|lia|done].
  - unfold CircularQueue.front. rewrite Hempty. destruct l as [|x l']; [done|].
    cbn [length Nat.eqb negb rguard rbind].
    pose proof (cq_cell_ok q _ 0 x Hr eq_refl) as Hcell.
    destruct Hr as (Hs & Hq & Hf & Hl & Hr). rewrite Z.add_0_r, Z.mod_small in Hcell by lia.
    rewrite Hcell. done.
  - destruct (last l) as [x|] eqn:Hlast.
    + apply last_Some in Hlast as [l' ->]. by rewrite (cq_back_ok q l' x).
    + apply last_None in Hlast as ->. unfold CircularQueue.back. by rewrite Hempty.
  - destruct (l !! i) as [x|] eqn:Hi.
    + by rewrite (cq_at_ok q l i x).
    + apply lookup_ge_None in Hi. unfold CircularQueue.at_. rewrite Hsize. cbn [rbind].
      by rewrite (proj2 (Z.ltb_ge _ _)) by lia.
  - by rewrite Hsize.
Qed.

Lemma cq_run_refines cap os : forall (q : CircularQueue.t T) l,
  cq_repr q l -> CircularQueue.m_size q = cap + 1 -> 0 < cap ->
  run ring_step q os = run (step cap) l os.
Proof.
  induction os as [|o os IH]; intros q l Hr Hs Hcap; [done|]. cbn [run].
  pose proof (cq_step_refines cap q l o Hr Hs ltac:(destruct o; done || lia)) as Hstep.
  unfold same_result in Hstep.
  destruct (ring_step q o) as [[a q']|e], (step cap l o) as [[b l']|f]; try done.
  - destruct Hstep as (-> & Hs' & Hr'). cbn [rbind]. by rewrite (IH q' l').
  - by rewrite Hstep.
Qed.
End refinement.

(** * Theorems *)

(** C26: a circular queue created for [n] elements behaves like a first-in
    first-out list that holds at most [n]: every sequence of pushes, circular
    pushes, pops, and reads of the front, the back, an element or the size gives
    the same answers, and stops with the same failed assertion, as the list. *)
Theorem circular_queue_is_bounded_fifo {T : Type} (n : Z) (os : list (BoundedFifo.op T)) :
  0 < n < 2 ^ 31 - 1 ->
  BoundedFifo.run BoundedFifo.ring_step (CircularQueue.create n) os =
  BoundedFifo.run (BoundedFifo.step n) [] os.
Proof.
  intros Hn. apply cq_run_refines; [by apply cq_create_repr; lia| |lia].
  unfold CircularQueue.create. cbn [CircularQueue.m_size]. apply u32_small. lia.
Qed.

Lemma circular_queue_is_bounded_fifo_witness :
  BoundedFifo.run BoundedFifo.ring_step (CircularQueue.create 2)
    [BoundedFifo.Push 7; BoundedFifo.PushCircular 8; BoundedFifo.PushCircular 9;
     BoundedFifo.Back; BoundedFifo.Pop; BoundedFifo.Size] =
  Ok [BoundedFifo.Done; BoundedFifo.Done; BoundedFifo.Done; BoundedFifo.Element 9;
      BoundedFifo.Element 8; BoundedFifo.Count 1].
Proof.
  rewrite (circular_queue_is_bounded_fifo 2); [reflexivity|lia].
Defined.
