(* ===== verification/Directory.v ===== *)
(** The tag directory: directory entries
    (common/core/memory_subsystem/directory_schemes/directory_entry*.h), the
    Directory that creates them on demand (directory.cc), and
    DramDirectoryCache, which finds, replaces and invalidates them
    (pr_l1_pr_l2_dram_directory_msi/dram_directory_cache.cc).

    The program passes entries around by pointer, and an entry that was replaced
    lives on until it is invalidated, so entries are kept in a store and every
    operation works on pointers into it.  Two values are read before the program
    ever writes them: [m_forwarder_id] of an entry and the cells of
    [m_replacement_ptrs].  What the memory held is a parameter of the
    constructors. *)
From stdpp Require Import base numbers list gmap strings.
From Stdlib Require Import ZArith Lia Bool.
From S2P Require Import Prelude Utils.
Open Scope Z_scope.

Definition INVALID_CORE_ID : Z := -1.
Definition INVALID_ADDRESS : Z := 2 ^ 64 - 1.

(** DirectoryState::dstate_t *)
Inductive dstate_t := UNCACHED | SHARED | OWNED | MODIFIED | EXCLUSIVE.
#[global] Instance dstate_eq_dec : EqDecision dstate_t.
Proof. solve_decision. Defined.

(** CoherencyProtocol::type_t *)
Inductive protocol_t := MSI | MESI | MESIF.
#[global] Instance protocol_eq_dec : EqDecision protocol_t.
Proof. solve_decision. Defined.

(** * DirectoryEntry *)
Module Entry.

(** The dynamic type of an entry with the fields of its own. *)
Inductive kind_t :=
  | LimitedNoBroadcast (m_rand_num : Z)
  | Limitless (m_software_trap_enabled : bool) (m_software_trap_penalty : Z).

Record t := mk {
  m_address : Z;
  m_dstate : dstate_t;
  m_owner_id : Z;
  m_forwarder_id : Z;
  m_sharers : list bool;
  kind : kind_t
}.

(** The constructor of DirectoryEntry leaves [m_forwarder_id] as it is. *)
Definition create (uninit : Z) (size : nat) (k : kind_t) : t :=
  mk INVALID_ADDRESS UNCACHED INVALID_CORE_ID uninit (replicate size false) k.

Definition setAddress (a : Z) (e : t) : t :=
  mk a (m_dstate e) (m_owner_id e) (m_forwarder_id e) (m_sharers e) (kind e).
Definition setDState (s : dstate_t) (e : t) : t :=
  mk (m_address e) s (m_owner_id e) (m_forwarder_id e) (m_sharers e) (kind e).
Definition setForwarder (f : Z) (e : t) : t :=
  mk (m_address e) (m_dstate e) (m_owner_id e) f (m_sharers e) (kind e).
Definition set_sharers (l : list bool) (k : kind_t) (e : t) : t :=
  mk (m_address e) (m_dstate e) (m_owner_id e) (m_forwarder_id e) l k.

(** [m_sharers\[sharer_id\]] *)
Definition hasSharer (sharer_id : Z) (e : t) : result bool :=
  guard! 0 <=? sharer_id else Undefined in aget (m_sharers e) (Z.to_nat sharer_id).

(** [m_sharers.count()] *)
Definition getNumSharers (e : t) : Z := Z.of_nat (length (filter (fun b => b = true) (m_sharers e))).

(** The positions of the bits that are set, in order; never a broadcast. *)
Fixpoint sharers_from (j : Z) (l : list bool) : list Z :=
  match l with
  | [] => []
  | b :: l' => if b : bool then j :: sharers_from (j + 1) l' else sharers_from (j + 1) l'
  end.
Definition getSharersList (e : t) : bool * list Z := (false, sharers_from 0 (m_sharers e)).

Definition addSharer (sharer_id max_hw_sharers : Z) (e : t) : result (bool * t) :=
  let! b := hasSharer sharer_id e in
  guard! negb b else AssertFailed in
  match kind e with
  | LimitedNoBroadcast r =>
      if max_hw_sharers <=? getNumSharers e then Ok (false, e)
      else
        let! l := aset (m_sharers e) (Z.to_nat sharer_id) true in
        Ok (true, set_sharers l (kind e) e)
  | Limitless trap penalty =>
      let trap := if Z.of_nat (length (m_sharers e)) =? max_hw_sharers then true else trap in
      let! l := aset (m_sharers e) (Z.to_nat sharer_id) true in
      Ok (true, set_sharers l (Limitless trap penalty) e)
  end.

Definition removeSharer (sharer_id : Z) (reply_expected : bool) (e : t) : result t :=
  guard! negb reply_expected else AssertFailed in
  let! b := hasSharer sharer_id e in
  guard! b else AssertFailed in
  let! l := aset (m_sharers e) (Z.to_nat sharer_id) false in
  Ok (set_sharers l (kind e) e).

Definition setOwner (owner_id : Z) (e : t) : result t :=
  let! _ := if negb (owner_id =? INVALID_CORE_ID) then
              let! b := hasSharer owner_id e in rguard b AssertFailed
            else Ok tt in
  Ok (mk (m_address e) (m_dstate e) owner_id (m_forwarder_id e) (m_sharers e) (kind e)).

Definition getOneSharer (e : t) : result (Z * t) :=
  match kind e with
  | LimitedNoBroadcast seed =>
      let l := snd (getSharersList e) in
      guard! 0 <? Z.of_nat (length l) else AssertFailed in
      let! (seed, i) := Rng.random_next seed (Z.of_nat (length l)) in
      let! s := aget l (Z.to_nat i) in
      Ok (s, set_sharers (m_sharers e) (LimitedNoBroadcast seed) e)
  | Limitless _ _ =>
      match snd (getSharersList e) with
      | [] => Err AssertFailed
      | s :: _ => Ok (s, e)
      end
  end.

Definition getLatency (e : t) : Z :=
  match kind e with
  | LimitedNoBroadcast _ => 0
  | Limitless enabled penalty => if enabled then penalty else 0
  end.
End Entry.

(** * Directory *)
Inductive DirectoryType := FULL_MAP | LIMITED_NO_BROADCAST | LIMITLESS.

Definition parseDirectoryType (s : string) : result DirectoryType :=
  if String.eqb s "full_map" then Ok FULL_MAP
  else if String.eqb s "limited_no_broadcast" then Ok LIMITED_NO_BROADCAST
  else if String.eqb s "limitless" then Ok LIMITLESS
  else Err LogError.

Record Directory := mkDirectory {
  m_directory_type : DirectoryType;
  m_num_entries : Z;
  m_num_entries_allocated : Z;
  m_max_hw_sharers : Z;
  m_use_max_hw_sharers : Z;
  m_max_num_sharers : Z;
  m_limitless_software_trap_penalty : Z;
  m_directory_entry_list : list (option nat)
}.

(** [penalty] is the configuration value, read for limitless directories only. *)
Definition create_directory (type : string) (num_entries max_hw_sharers max_num_sharers : Z)
    (penalty : result Z) : result Directory :=
  let! ty := parseDirectoryType type in
  let! pen := match ty with
              | LIMITLESS => match penalty with Ok p => Ok p | Err _ => Err LogError end
              | _ => Ok 0
              end in
  Ok (mkDirectory ty num_entries 0 max_hw_sharers max_hw_sharers max_num_sharers pen
        (replicate (Z.to_nat num_entries) None)).

(** The number of bits [createDirectoryEntry] chooses. *)
Definition sharers_size (max_num_sharers : Z) : nat :=
  if max_num_sharers <=? 64 then 64
  else if max_num_sharers <=? 128 then 128
  else if max_num_sharers <=? 256 then 256
  else if max_num_sharers <=? 1024 then 1024
  else Z.to_nat max_num_sharers.

(** * DramDirectoryCache *)
Record DramDirectoryCache := mkDirCache {
  m_directory : Directory;
  m_replacement_ptrs : list Z;
  m_replaced_directory_entry_list : list nat;
  m_total_entries : Z;
  m_associativity : Z;
  m_num_sets : Z;
  m_log_num_sets : Z;
  m_log_cache_block_size : Z;
  store : gmap nat Entry.t;     (** the entries allocated and not yet deleted *)
  next_ptr : nat;               (** the next address [new] returns *)
  uninit_forwarder : Z          (** what a fresh entry has in [m_forwarder_id] *)
}.

Section dircache.
Implicit Types d : DramDirectoryCache.

Definition with_directory (dir : Directory) d : DramDirectoryCache :=
  mkDirCache dir (m_replacement_ptrs d) (m_replaced_directory_entry_list d) (m_total_entries d)
    (m_associativity d) (m_num_sets d) (m_log_num_sets d) (m_log_cache_block_size d)
    (store d) (next_ptr d) (uninit_forwarder d).
Definition with_store (s : gmap nat Entry.t) (n : nat) d : DramDirectoryCache :=
  mkDirCache (m_directory d) (m_replacement_ptrs d) (m_replaced_directory_entry_list d)
    (m_total_entries d) (m_associativity d) (m_num_sets d) (m_log_num_sets d)
    (m_log_cache_block_size d) s n (uninit_forwarder d).
Definition with_replaced (l : list nat) d : DramDirectoryCache :=
  mkDirCache (m_directory d) (m_replacement_ptrs d) l (m_total_entries d) (m_associativity d)
    (m_num_sets d) (m_log_num_sets d) (m_log_cache_block_size d) (store d) (next_ptr d)
    (uninit_forwarder d).
Definition with_ptrs (l : list Z) d : DramDirectoryCache :=
  mkDirCache (m_directory d) l (m_replaced_directory_entry_list d) (m_total_entries d)
    (m_associativity d) (m_num_sets d) (m_log_num_sets d) (m_log_cache_block_size d) (store d)
    (next_ptr d) (uninit_forwarder d).

(** The constructor; [ptrs] is what [new UInt32\[m_num_sets\]] returned. *)
Definition create_dircache (type : string) (total_entries associativity cache_block_size
    max_hw_sharers max_num_sharers : Z) (penalty : result Z) (ptrs : list Z) (uninit : Z)
  : result DramDirectoryCache :=
  guard! negb (associativity =? 0) else Undefined in
  let num_sets := total_entries / associativity in
  let! dir := create_directory type total_entries max_hw_sharers max_num_sharers penalty in
  Ok (mkDirCache dir ptrs [] total_entries associativity num_sets (u32 (Bits.floorLog2 num_sets))
        (u32 (Bits.floorLog2 cache_block_size)) ∅ 0 uninit).

(** Reading and writing through a pointer. *)
Definition deref d (p : nat) : result Entry.t := of_option (store d !! p) Undefined.
Definition put_entry d (p : nat) (e : Entry.t) : DramDirectoryCache :=
  with_store (<[p := e]> (store d)) (next_ptr d) d.

(** [Directory::createDirectoryEntry]: a full-map directory also raises the
    number of sharers passed to [addSharer]. *)
Definition createDirectoryEntry d : nat * DramDirectoryCache :=
  let dir := m_directory d in
  let k := match m_directory_type dir with
           | LIMITLESS => Entry.Limitless false (m_limitless_software_trap_penalty dir)
           | _ => Entry.LimitedNoBroadcast 1
           end in
  let use := match m_directory_type dir with
             | FULL_MAP => m_max_num_sharers dir
             | _ => m_use_max_hw_sharers dir
             end in
  let dir := mkDirectory (m_directory_type dir) (m_num_entries dir) (m_num_entries_allocated dir)
               (m_max_hw_sharers dir) use (m_max_num_sharers dir)
               (m_limitless_software_trap_penalty dir) (m_directory_entry_list dir) in
  let e := Entry.create (uninit_forwarder d) (sharers_size (m_max_num_sharers dir)) k in
  let p := next_ptr d in
  (p, with_store (<[p := e]> (store d)) (S p) (with_directory dir d)).

Definition set_slot (i : nat) (p : nat) (allocated : Z) d : result DramDirectoryCache :=
  let dir := m_directory d in
  let! l := aset (m_directory_entry_list dir) i (Some p) in
  Ok (with_directory (mkDirectory (m_directory_type dir) (m_num_entries dir) allocated
        (m_max_hw_sharers dir) (m_use_max_hw_sharers dir) (m_max_num_sharers dir)
        (m_limitless_software_trap_penalty dir) l) d).

(** [Directory::getDirectoryEntry(entry_num)] *)
Definition dir_getDirectoryEntry (entry_num : Z) d : result (nat * DramDirectoryCache) :=
  guard! entry_num <? m_num_entries (m_directory d) else LogError in
  let! slot := aget (m_directory_entry_list (m_directory d)) (Z.to_nat entry_num) in
  match slot with
  | Some p => Ok (p, d)
  | None =>
      let '(p, d) := createDirectoryEntry d in
      let! d := set_slot (Z.to_nat entry_num) p
                  (u64 (m_num_entries_allocated (m_directory d) + 1)) d in
      Ok (p, d)
  end.

(** [Directory::setDirectoryEntry] *)
Definition dir_setDirectoryEntry (entry_num : Z) (p : nat) d : result DramDirectoryCache :=
  set_slot (Z.to_nat entry_num) p (m_num_entries_allocated (m_directory d)) d.

(** [splitAddress]: the tag and the set. *)
Definition dc_splitAddress (address : Z) d : Z * Z :=
  let cache_block_address := Z.shiftr address (m_log_cache_block_size d) in
  (Z.shiftr cache_block_address (m_log_num_sets d),
   Z.land (u32 cache_block_address) (u32 (m_num_sets d - 1))).

(** [set_index * m_associativity + i] *)
Definition entry_num (set_index i : Z) d : Z := u32 (u32 (set_index * m_associativity d) + i).

(** [for (i = 0; i < m_associativity; i++)]: the first entry of the set that has
    this address. *)
Fixpoint find_in_set (k : nat) (i set_index address : Z) d
  : result (option (nat * Z) * DramDirectoryCache) :=
  match k with
  | O => Ok (None, d)
  | S k' =>
      let! (p, d) := dir_getDirectoryEntry (entry_num set_index i d) d in
      let! e := deref d p in
      if Entry.m_address e =? address then Ok (Some (p, i), d)
      else find_in_set k' (i + 1) set_index address d
  end.

Fixpoint find_replaced (l : list nat) (address : Z) d : result (option nat) :=
  match l with
  | [] => Ok None
  | p :: l' =>
      let! e := deref d p in
      if Entry.m_address e =? address then Ok (Some p) else find_replaced l' address d
  end.

(** [getDirectoryEntry(address)]: the entry of the address, a free entry that
    now belongs to it, a replaced one that still exists, or NULL. *)
Definition getDirectoryEntry (address : Z) d : result (option nat * DramDirectoryCache) :=
  let '(_, set_index) := dc_splitAddress address d in
  let n := Z.to_nat (m_associativity d) in
  let! (found, d) := find_in_set n 0 set_index address d in
  match found with
  | Some (p, _) => Ok (Some p, d)
  | None =>
      let! (free, d) := find_in_set n 0 set_index INVALID_ADDRESS d in
      match free with
      | Some (p, _) =>
          let! e := deref d p in
          Ok (Some p, put_entry d p (Entry.setAddress address e))
      | None =>
          let! r := find_replaced (m_replaced_directory_entry_list d) address d in
          Ok (r, d)
      end
  end.

(** The candidates, starting at the replacement pointer of the set. *)
Fixpoint candidates_from (k : nat) (i set_index ptr : Z) d
  : result (list nat * DramDirectoryCache) :=
  match k with
  | O => Ok ([], d)
  | S k' =>
      let! (p, d) :=
        dir_getDirectoryEntry (entry_num set_index (u32 (i + ptr) mod m_associativity d) d) d in
      let! (l, d) := candidates_from k' (i + 1) set_index ptr d in
      Ok (p :: l, d)
  end.
Definition getReplacementCandidates (address : Z) d : result (list nat * DramDirectoryCache) :=
  let! (p, d) := getDirectoryEntry address d in
  guard! bool_decide (p = None) else AssertFailed in
  let '(_, set_index) := dc_splitAddress address d in
  let! ptr := aget (m_replacement_ptrs d) (Z.to_nat set_index) in
  let! (l, d) := candidates_from (Z.to_nat (m_associativity d)) 0 set_index ptr d in
  let! ptrs := aset (m_replacement_ptrs d) (Z.to_nat set_index) (u32 (ptr + 1)) in
  Ok (l, with_ptrs ptrs d).

(** [replaceDirectoryEntry]: the old entry moves to the replaced list, a fresh
    entry for [address] takes its place. *)
Definition replaceDirectoryEntry (replaced_address address : Z) d
  : result (nat * DramDirectoryCache) :=
  let '(_, set_index) := dc_splitAddress replaced_address d in
  let! (found, d) := find_in_set (Z.to_nat (m_associativity d)) 0 set_index replaced_address d in
  match found with
  | Some (p, i) =>
      let d := with_replaced (m_replaced_directory_entry_list d ++ [p]) d in
      let '(q, d) := createDirectoryEntry d in
      let! e := deref d q in
      let d := put_entry d q (Entry.setAddress address e) in
      let! d := dir_setDirectoryEntry (entry_num set_index i d) q d in
      Ok (q, d)
  | None => Err LogError
  end.

(** [invalidateDirectoryEntry]: delete the first replaced entry with this address. *)
Fixpoint invalidate_from (l : list nat) (address : Z) d
  : result (list nat * DramDirectoryCache) :=
  match l with
  | [] => Err LogError
  | p :: l' =>
      let! e := deref d p in
      if Entry.m_address e =? address then
        Ok (l', with_store (delete p (store d)) (next_ptr d) d)
      else let! (r, d) := invalidate_from l' address d in Ok (p :: r, d)
  end.
Definition invalidateDirectoryEntry (address : Z) d : result DramDirectoryCache :=
  let! (l, d) := invalidate_from (m_replaced_directory_entry_list d) address d in
  Ok (with_replaced l d).

Definition getMaxHwSharers d : Z := m_use_max_hw_sharers (m_directory d).
End dircache.
