(* ===== verification/DirectoryCntlr.v ===== *)
(** DramDirectoryCntlr (common/core/memory_subsystem/
    pr_l1_pr_l2_dram_directory_msi/dram_directory_cntlr.cc): the home node of
    the directory protocol.  It queues the requests of an address, asks the
    caches that hold the line to invalidate, flush or write back, fetches data
    from the NUCA cache or from DRAM, and answers the requester.

    The messages the controller sends are appended to a list; the network that
    carries them is not part of the model.  Simulated time and the ShmemPerf
    accounting are left out: no decision of the controller reads them. *)
From stdpp Require Import base numbers list gmap strings.
From Stdlib Require Import ZArith Lia Bool.
From S2P Require Import Prelude Utils Queues Directory.
Open Scope Z_scope.

(** ShmemMsg::msg_t *)
Inductive msg_t :=
  | INVALID_MSG_TYPE
  | EX_REQ | SH_REQ | UPGRADE_REQ | INV_REQ | FLUSH_REQ | WB_REQ
  | EX_REP | SH_REP | UPGRADE_REP | INV_REP | FLUSH_REP | WB_REP | NULLIFY_REQ
  | DRAM_READ_REQ | DRAM_WRITE_REQ | DRAM_READ_REP.
#[global] Instance msg_eq_dec : EqDecision msg_t.
Proof. solve_decision. Defined.

(** The part of HitWhere::where_t the controller uses. *)
Inductive where_t := W_UNKNOWN | W_MISS | W_NUCA_CACHE | W_DRAM_CACHE | W_DRAM | W_DRAM_LOCAL | W_DRAM_REMOTE
  | W_CACHE_REMOTE.
#[global] Instance where_eq_dec : EqDecision where_t.
Proof. solve_decision. Defined.

(** The bytes of a cache block; [None] for a buffer nobody has written. *)
Definition Data : Type := option (list Z).

(** ShmemMsg, as far as the controller reads it. *)
Record ShmemMsg := mkMsg {
  getMsgType : msg_t;
  getRequester : Z;
  getAddress : Z;
  getDataBuf : option Data;
  getWhere : where_t
}.

(** ShmemReq *)
Record ShmemReq := mkReq {
  getShmemMsg : ShmemMsg;
  getWaitForData : bool;
  getForwardingFrom : Z
}.

(** The constructor of ShmemReq copies the message, which must carry no data; the
    copy's [m_where] is never read. *)
Definition create_req (m : ShmemMsg) : result ShmemReq :=
  guard! bool_decide (getDataBuf m = None) else LogError in
  Ok (mkReq m false INVALID_CORE_ID).
Definition isForwarding (r : ShmemReq) : bool := negb (getForwardingFrom r =? INVALID_CORE_ID).
Definition setWaitForData (b : bool) (r : ShmemReq) : ShmemReq :=
  mkReq (getShmemMsg r) b (getForwardingFrom r).
Definition setForwardingFrom (c : Z) (r : ShmemReq) : ShmemReq :=
  mkReq (getShmemMsg r) (getWaitForData r) c.
Definition setDataBuf (b : option Data) (r : ShmemReq) : ShmemReq :=
  let m := getShmemMsg r in
  mkReq (mkMsg (getMsgType m) (getRequester m) (getAddress m) b (getWhere m))
    (getWaitForData r) (getForwardingFrom r).

(** Who a message of the tag directory goes to. *)
Inductive component_t := L2_CACHE | DRAM.
#[global] Instance component_eq_dec : EqDecision component_t.
Proof. solve_decision. Defined.

(** The arguments of [sendMsg]. *)
Record Packet := mkPacket {
  p_type : msg_t;
  p_component : component_t;
  p_requester : Z;
  p_receiver : Z;
  p_address : Z;
  p_data : option Data;
  p_where : where_t
}.

(** What the controller uses of NucaCache: [read] returns the data on a hit;
    [write] assigns the caller's [eviction], [evict_address] and [evict_buf], or
    none of them ([None]).  The first argument is [count]. *)
Class NucaCache (N : Type) := {
  nuca_read : bool -> Z -> N -> result (option Data * N);
  nuca_write : bool -> Z -> option Data -> N -> result (option (bool * Z * Data) * N)
}.

(** What the termination of the controller relies on: on a well-formed NUCA cache
    both operations end, and leave it well formed. *)
Class NucaLaws (N : Type) `{NucaCache N} := {
  nuca_wf : N -> Prop;
  nuca_read_halts : forall count a n, nuca_wf n ->
    halts (fun r => nuca_wf r.2) (nuca_read count a n);
  nuca_write_halts : forall count a d n, nuca_wf n ->
    halts (fun r => nuca_wf r.2) (nuca_write count a d n)
}.

Section cntlr.
Context {N : Type} `{NucaCache N}.

Record Cntlr := mkCntlr {
  m_dram_controller_home_lookup : AddressHome.AddressHomeLookup;
  m_dram_directory_cache : DramDirectoryCache;
  m_dram_directory_req_queue_list : ReqQueueList.t ShmemReq;
  m_nuca_cache : option N;
  m_core_id : Z;
  m_protocol : protocol_t;
  evict : list Z;
  forward : Z;
  forward_failed : Z;
  sent : list Packet
}.

Definition with_dc (d : DramDirectoryCache) (s : Cntlr) : Cntlr :=
  mkCntlr (m_dram_controller_home_lookup s) d (m_dram_directory_req_queue_list s) (m_nuca_cache s)
    (m_core_id s) (m_protocol s) (evict s) (forward s) (forward_failed s) (sent s).
Definition with_queues (q : ReqQueueList.t ShmemReq) (s : Cntlr) : Cntlr :=
  mkCntlr (m_dram_controller_home_lookup s) (m_dram_directory_cache s) q (m_nuca_cache s)
    (m_core_id s) (m_protocol s) (evict s) (forward s) (forward_failed s) (sent s).
Definition with_nuca (n : N) (s : Cntlr) : Cntlr :=
  mkCntlr (m_dram_controller_home_lookup s) (m_dram_directory_cache s)
    (m_dram_directory_req_queue_list s) (Some n) (m_core_id s) (m_protocol s) (evict s) (forward s)
    (forward_failed s) (sent s).
Definition with_stats (ev : list Z) (f ff : Z) (s : Cntlr) : Cntlr :=
  mkCntlr (m_dram_controller_home_lookup s) (m_dram_directory_cache s)
    (m_dram_directory_req_queue_list s) (m_nuca_cache s) (m_core_id s) (m_protocol s) ev f ff
    (sent s).
(** [getMemoryManager()->sendMsg(...)] from the tag directory *)
Definition sendMsg (p : Packet) (s : Cntlr) : Cntlr :=
  mkCntlr (m_dram_controller_home_lookup s) (m_dram_directory_cache s)
    (m_dram_directory_req_queue_list s) (m_nuca_cache s) (m_core_id s) (m_protocol s) (evict s)
    (forward s) (forward_failed s) (sent s ++ [p]).

Definition dstate_index (s : dstate_t) : nat :=
  match s with UNCACHED => 0 | SHARED => 1 | OWNED => 2 | MODIFIED => 3 | EXCLUSIVE => 4 end.

(** The configuration value caching_protocol/variant. *)
Definition parse_protocol (s : string) : result protocol_t :=
  if String.eqb s "msi" then Ok MSI
  else if String.eqb s "mesi" then Ok MESI
  else if String.eqb s "mesif" then Ok MESIF
  else Err LogError.

(** The constructor; the counter of UNCACHED evictions is never initialised. *)
Definition create_cntlr (ahl : AddressHome.AddressHomeLookup) (nuca : option N) (core_id : Z)
    (type : string) (total_entries associativity cache_block_size max_num_sharers max_hw_sharers : Z)
    (penalty : result Z) (ptrs : list Z) (uninit : Z) (variant : string) : result Cntlr :=
  let! d := create_dircache type total_entries associativity cache_block_size max_hw_sharers
              max_num_sharers penalty ptrs uninit in
  let! p := parse_protocol variant in
  Ok (mkCntlr ahl d ReqQueueList.create nuca core_id p [u64 uninit; 0; 0; 0; 0] 0 0 []).

(** [m_dram_directory_cache->getDirectoryEntry(address)], [->] on an entry. *)
Definition lookup_entry (address : Z) (s : Cntlr) : result (option nat * Cntlr) :=
  let! (p, d) := getDirectoryEntry address (m_dram_directory_cache s) in
  Ok (p, with_dc d s).
Definition entry (p : nat) (s : Cntlr) : result Entry.t := deref (m_dram_directory_cache s) p.
Definition set_entry (p : nat) (e : Entry.t) (s : Cntlr) : Cntlr :=
  with_dc (put_entry (m_dram_directory_cache s) p e) s.

Definition queue_size (address : Z) (s : Cntlr) : Z :=
  ReqQueueList.size (m_dram_directory_req_queue_list s) address.
Definition queue_front (address : Z) (s : Cntlr) : result ShmemReq :=
  ReqQueueList.front (m_dram_directory_req_queue_list s) address.
Definition set_front (address : Z) (r : ShmemReq) (s : Cntlr) : Cntlr :=
  with_queues (ReqQueueList.set_front (m_dram_directory_req_queue_list s) address r) s.

(** [for (i = 0; i < sharers.size(); i++) sendMsg(msg_type, ..., sharers\[i\], ...)] *)
Fixpoint send_all (ty : msg_t) (requester address : Z) (receivers : list Z) (s : Cntlr) : Cntlr :=
  match receivers with
  | [] => s
  | r :: rs =>
      send_all ty requester address rs
        (sendMsg (mkPacket ty L2_CACHE requester r address None W_UNKNOWN) s)
  end.
(** The invalidations of a sharers list.  A broadcast is sent with a NULL
    ShmemPerf, which MemoryManager::broadcastMsg dereferences. *)
Definition invalidate_sharers (requester address : Z) (sharers : bool * list Z) (s : Cntlr)
  : result Cntlr :=
  if sharers.1 then Err Undefined
  else Ok (send_all INV_REQ requester address sharers.2 s).

(** [sendDataToNUCA] *)
Definition sendDataToNUCA (address requester : Z) (data : option Data) (count : bool) (s : Cntlr)
  : result Cntlr :=
  match m_nuca_cache s with
  | None => Ok s
  | Some n =>
      let! (out, n) := nuca_write count address data n in
      let s := with_nuca n s in
      let! (eviction, evict_address, evict_buf) := of_option out Undefined in
      if eviction : bool then
        let! dram_node := AddressHome.getHome (m_dram_controller_home_lookup s) evict_address in
        Ok (sendMsg (mkPacket DRAM_WRITE_REQ DRAM (m_core_id s) dram_node evict_address
                       (Some evict_buf) W_UNKNOWN) s)
      else Ok s
  end.

(** [sendDataToDram] *)
Definition sendDataToDram (address requester : Z) (data : option Data) (s : Cntlr)
  : result Cntlr :=
  match m_nuca_cache s with
  | Some _ => sendDataToNUCA address requester data true s
  | None =>
      let! dram_node := AddressHome.getHome (m_dram_controller_home_lookup s) address in
      let! data := of_option data AssertFailed in
      Ok (sendMsg (mkPacket DRAM_WRITE_REQ DRAM requester dram_node address (Some data) W_UNKNOWN) s)
  end.

(** The handlers call each other in a circle that goes through
    [processNextReqFromL2Cache]: they are written over it. *)
Section handlers.
Context (processNextReqFromL2Cache : Z -> Cntlr -> result Cntlr).

(** The last part of [retrieveDataAndSendToL2Cache]: neither the caller nor NUCA
    has the data; ask the forwarder (MESIF) or DRAM. *)
Definition retrieve_remote (receiver address : Z) (e : Entry.t) (s : Cntlr) : result Cntlr :=
  guard! 0 <? queue_size address s else AssertFailed in
  let! shmem_req := queue_front address s in
  if bool_decide (m_protocol s = MESIF) && (getForwardingFrom shmem_req =? INVALID_CORE_ID)
     && bool_decide (Entry.m_dstate e = SHARED)
     && negb (Entry.m_forwarder_id e =? INVALID_CORE_ID) then
    let forwarder := Entry.m_forwarder_id e in
    let s := set_front address (setForwardingFrom forwarder shmem_req) s in
    Ok (sendMsg (mkPacket WB_REQ L2_CACHE receiver forwarder address None W_UNKNOWN) s)
  else
    let s := set_front address (setWaitForData true shmem_req) s in
    let! dram_node := AddressHome.getHome (m_dram_controller_home_lookup s) address in
    Ok (sendMsg (mkPacket DRAM_READ_REQ DRAM receiver dram_node address None W_UNKNOWN) s).

Definition retrieveDataAndSendToL2Cache (reply_msg_type : msg_t) (receiver address : Z)
    (cached_data_buf : option Data) (s : Cntlr) : result Cntlr :=
  let! (p, s) := lookup_entry address s in
  let! p := of_option p AssertFailed in
  let! e := entry p s in
  match cached_data_buf with
  | Some d =>
      let s := set_entry p (Entry.setForwarder receiver e) s in
      let s := sendMsg (mkPacket reply_msg_type L2_CACHE receiver receiver address (Some d)
                          W_CACHE_REMOTE) s in
      processNextReqFromL2Cache address s
  | None =>
      match m_nuca_cache s with
      | Some n =>
          let! (data, n) := nuca_read true address n in
          let s := with_nuca n s in
          match data with
          | Some d =>
              let s := sendMsg (mkPacket reply_msg_type L2_CACHE receiver receiver address (Some d)
                                  W_NUCA_CACHE) s in
              processNextReqFromL2Cache address s
          | None => retrieve_remote receiver address e s
          end
      | None => retrieve_remote receiver address e s
      end
  end.

Definition processNullifyReq (shmem_req : ShmemReq) (s : Cntlr) : result Cntlr :=
  let address := getAddress (getShmemMsg shmem_req) in
  let requester := getRequester (getShmemMsg shmem_req) in
  let! (p, s) := lookup_entry address s in
  let! p := of_option p AssertFailed in
  let! e := entry p s in
  match Entry.m_dstate e with
  | EXCLUSIVE | MODIFIED =>
      Ok (sendMsg (mkPacket FLUSH_REQ L2_CACHE requester (Entry.m_owner_id e) address None W_UNKNOWN) s)
  | SHARED => invalidate_sharers requester address (Entry.getSharersList e) s
  | UNCACHED =>
      let! d := invalidateDirectoryEntry address (m_dram_directory_cache s) in
      processNextReqFromL2Cache address (with_dc d s)
  | OWNED => Err LogError
  end.

(** The entry with the lowest number of sharers among those whose address has no
    request queued; the first such entry wins. *)
Fixpoint choose_candidate (l : list nat) (best : option nat) (s : Cntlr) : result (option nat) :=
  match l with
  | [] => Ok best
  | p :: l' =>
      let! e := entry p s in
      let! better := match best with
                     | None => Ok true
                     | Some b => let! eb := entry b s in
                                 Ok (Entry.getNumSharers e <? Entry.getNumSharers eb)
                     end in
      choose_candidate l'
        (if better && (queue_size (Entry.m_address e) s =? 0) then Some p else best) s
  end.

Definition processDirectoryEntryAllocationReq (shmem_req : ShmemReq) (s : Cntlr)
  : result (nat * Cntlr) :=
  let address := getAddress (getShmemMsg shmem_req) in
  let requester := getRequester (getShmemMsg shmem_req) in
  let! (cands, d) := getReplacementCandidates address (m_dram_directory_cache s) in
  let s := with_dc d s in
  let! c := choose_candidate cands None s in
  let! c := of_option c LogError in
  let! e := entry c s in
  let i := dstate_index (Entry.m_dstate e) in
  let! n := aget (evict s) i in
  let s := with_stats (<[i := u64 (n + 1)]> (evict s)) (forward s) (forward_failed s) s in
  let replaced_address := Entry.m_address e in
  let! (p, d) := replaceDirectoryEntry replaced_address address (m_dram_directory_cache s) in
  let s := with_dc d s in
  let! nullify_req := create_req (mkMsg NULLIFY_REQ requester replaced_address None W_UNKNOWN) in
  let s := with_queues (ReqQueueList.enqueue (m_dram_directory_req_queue_list s) replaced_address
                          nullify_req) s in
  guard! queue_size replaced_address s =? 1 else AssertFailed in
  let! s := processNullifyReq nullify_req s in
  Ok (p, s).

(** [getDirectoryEntry(address)], and the allocation when it returns NULL. *)
Definition find_or_allocate (shmem_req : ShmemReq) (s : Cntlr) : result (nat * Cntlr) :=
  let! (p, s) := lookup_entry (getAddress (getShmemMsg shmem_req)) s in
  match p with
  | Some p => Ok (p, s)
  | None => processDirectoryEntryAllocationReq shmem_req s
  end.

(** [addSharer(requester, getMaxHwSharers())] through the pointer. *)
Definition add_sharer (p : nat) (requester : Z) (s : Cntlr) : result (bool * Cntlr) :=
  let! e := entry p s in
  let! (r, e) := Entry.addSharer requester (getMaxHwSharers (m_dram_directory_cache s)) e in
  Ok (r, set_entry p e s).
Definition set_owner (p : nat) (owner : Z) (s : Cntlr) : result Cntlr :=
  let! e := entry p s in
  let! e := Entry.setOwner owner e in
  Ok (set_entry p e s).
Definition set_dstate (p : nat) (st : dstate_t) (s : Cntlr) : result Cntlr :=
  let! e := entry p s in Ok (set_entry p (Entry.setDState st e) s).

(** A line nobody holds goes to the requester in state [st]. *)
Definition grant_uncached (p : nat) (requester : Z) (st : dstate_t) (s : Cntlr) : result Cntlr :=
  let! (add_result, s) := add_sharer p requester s in
  guard! add_result else AssertFailed in
  let! s := set_owner p requester s in
  set_dstate p st s.

Definition processExReqFromL2Cache (shmem_req : ShmemReq) (cached_data_buf : option Data)
    (s : Cntlr) : result Cntlr :=
  let address := getAddress (getShmemMsg shmem_req) in
  let requester := getRequester (getShmemMsg shmem_req) in
  let! (p, s) := find_or_allocate shmem_req s in
  let! e := entry p s in
  match Entry.m_dstate e with
  | EXCLUSIVE | MODIFIED =>
      guard! bool_decide (cached_data_buf = None) else AssertFailed in
      Ok (sendMsg (mkPacket FLUSH_REQ L2_CACHE requester (Entry.m_owner_id e) address None W_UNKNOWN) s)
  | SHARED =>
      guard! bool_decide (cached_data_buf = None) else AssertFailed in
      invalidate_sharers requester address (Entry.getSharersList e) s
  | UNCACHED =>
      let! s := grant_uncached p requester MODIFIED s in
      retrieveDataAndSendToL2Cache EX_REP requester address cached_data_buf s
  | OWNED => Err LogError
  end.

(** The SHARED case of [processShReqFromL2Cache]. *)
Definition share_shared (p : nat) (requester address : Z) (cached_data_buf : option Data)
    (s : Cntlr) : result Cntlr :=
  let! e := entry p s in
  let! has := Entry.hasSharer requester e in
  if has : bool then
    let s := with_stats (evict s) (u64 (forward s + 1))
               (match cached_data_buf with
                | None => u64 (forward_failed s + 1)
                | Some _ => forward_failed s
                end) s in
    retrieveDataAndSendToL2Cache SH_REP requester address cached_data_buf s
  else
    let! (add_result, s) := add_sharer p requester s in
    if negb add_result then
      let! e := entry p s in
      let! (sharer_id, e) := Entry.getOneSharer e in
      Ok (sendMsg (mkPacket INV_REQ L2_CACHE requester sharer_id address None W_UNKNOWN)
            (set_entry p e s))
    else retrieveDataAndSendToL2Cache SH_REP requester address cached_data_buf s.

Definition processShReqFromL2Cache (shmem_req : ShmemReq) (cached_data_buf : option Data)
    (s : Cntlr) : result Cntlr :=
  let address := getAddress (getShmemMsg shmem_req) in
  let requester := getRequester (getShmemMsg shmem_req) in
  let! (p, s) := find_or_allocate shmem_req s in
  let! e := entry p s in
  match Entry.m_dstate e with
  | EXCLUSIVE =>
      guard! negb (requester =? Entry.m_owner_id e) else AssertFailed in
      guard! bool_decide (cached_data_buf = None) else AssertFailed in
      Ok (sendMsg (mkPacket WB_REQ L2_CACHE requester (Entry.m_owner_id e) address None W_UNKNOWN) s)
  | MODIFIED =>
      guard! bool_decide (cached_data_buf = None) else AssertFailed in
      Ok (sendMsg (mkPacket WB_REQ L2_CACHE requester (Entry.m_owner_id e) address None W_UNKNOWN) s)
  | SHARED => share_shared p requester address cached_data_buf s
  | UNCACHED =>
      if bool_decide (m_protocol s = MSI) then
        let! s := grant_uncached p requester SHARED s in
        retrieveDataAndSendToL2Cache SH_REP requester address cached_data_buf s
      else
        let! s := grant_uncached p requester EXCLUSIVE s in
        retrieveDataAndSendToL2Cache EX_REP requester address cached_data_buf s
  | OWNED => Err LogError
  end.

(** The upgrade of a line with other sharers: one of them is flushed instead of
    invalidated when the requester has no copy left. *)
Fixpoint upgrade_invalidate (i : nat) (sharers : list Z) (requester address : Z) (has_copy : bool)
    (s : Cntlr) : Cntlr :=
  match sharers with
  | [] => s
  | r :: rs =>
      let ty := if negb has_copy && (i =? 0)%nat then FLUSH_REQ else INV_REQ in
      upgrade_invalidate (S i) rs requester address has_copy
        (if r =? requester then s
         else sendMsg (mkPacket ty L2_CACHE requester r address None W_UNKNOWN) s)
  end.

Definition upgrade_rep (requester address : Z) : Packet :=
  mkPacket UPGRADE_REP L2_CACHE requester requester address None W_UNKNOWN.

Definition processUpgradeReqFromL2Cache (shmem_req : ShmemReq) (cached_data_buf : option Data)
    (s : Cntlr) : result Cntlr :=
  let shmem_msg := getShmemMsg shmem_req in
  let address := getAddress shmem_msg in
  let requester := getRequester shmem_msg in
  let! (p, s) := find_or_allocate shmem_req s in
  let! e := entry p s in
  let sharers := Entry.getSharersList e in
  match Entry.m_dstate e with
  | EXCLUSIVE | MODIFIED =>
      let! first := aget sharers.2 0 in
      if first =? requester then
        guard! Entry.m_owner_id e =? requester else AssertFailed in
        let s := sendMsg (upgrade_rep requester address) s in
        let! s := set_dstate p MODIFIED s in
        processNextReqFromL2Cache address s
      else
        Ok (sendMsg (mkPacket FLUSH_REQ L2_CACHE requester (Entry.m_owner_id e) address None W_UNKNOWN) s)
  | SHARED =>
      if bool_decide (sharers.2 = [requester]) then
        let! s := set_owner p requester s in
        let! s := set_dstate p MODIFIED s in
        processNextReqFromL2Cache address (sendMsg (upgrade_rep requester address) s)
      else
        let! has_copy := Entry.hasSharer requester e in
        if sharers.1 then Err Undefined
        else Ok (upgrade_invalidate 0 sharers.2 requester address has_copy s)
  | UNCACHED =>
      guard! bool_decide (sharers.2 = []) else AssertFailed in
      let! s := grant_uncached p requester MODIFIED s in
      let buf := match cached_data_buf with
                 | None => getDataBuf shmem_msg
                 | Some d => Some d
                 end in
      retrieveDataAndSendToL2Cache EX_REP requester address buf s
  | OWNED => Err LogError
  end.
End handlers.

(** [processNextReqFromL2Cache]: drop the request at the front, which is complete,
    and start the next one.  Each round removes a request of the address. *)
Fixpoint processNextReqFromL2Cache (fuel : nat) (address : Z) (s : Cntlr) : result Cntlr :=
  match fuel with
  | O => Err OutOfFuel
  | S fuel' =>
      guard! 1 <=? queue_size address s else AssertFailed in
      let! (_, q) := ReqQueueList.dequeue (m_dram_directory_req_queue_list s) address in
      let s := with_queues q s in
      if negb (ReqQueueList.empty (m_dram_directory_req_queue_list s) address) then
        let! shmem_req := queue_front address s in
        match getMsgType (getShmemMsg shmem_req) with
        | EX_REQ => processExReqFromL2Cache (processNextReqFromL2Cache fuel') shmem_req None s
        | SH_REQ => processShReqFromL2Cache (processNextReqFromL2Cache fuel') shmem_req None s
        | UPGRADE_REQ =>
            processUpgradeReqFromL2Cache (processNextReqFromL2Cache fuel') shmem_req None s
        | _ => Err LogError
        end
      else Ok s
  end.

(** Rounds enough for the requests queued at the address. *)
Definition enough (address : Z) (s : Cntlr) : nat :=
  S (S (length (default [] (m_dram_directory_req_queue_list s !! address)))).

(** The reply a request waiting for DRAM gets. *)
Definition dram_reply_type (r : ShmemReq) (e : Entry.t) : result msg_t :=
  match getMsgType (getShmemMsg r) with
  | SH_REQ =>
      match Entry.m_dstate e with
      | EXCLUSIVE => Ok EX_REP
      | SHARED => Ok SH_REP
      | _ => Err AssertFailed
      end
  | EX_REQ =>
      guard! bool_decide (Entry.m_dstate e = MODIFIED) else AssertFailed in Ok EX_REP
  | UPGRADE_REQ => Ok EX_REP
  | _ => Err LogError
  end.

Definition processDRAMReply (sender : Z) (shmem_msg : ShmemMsg) (s : Cntlr) : result Cntlr :=
  let address := getAddress shmem_msg in
  guard! 1 <=? queue_size address s else AssertFailed in
  let! shmem_req := queue_front address s in
  let! (p, s) := lookup_entry address s in
  let! p := of_option p AssertFailed in
  let! e := entry p s in
  let! ty := dram_reply_type shmem_req e in
  let hit_where := if bool_decide (getWhere shmem_msg = W_DRAM) then
                     if sender =? getRequester shmem_msg then W_DRAM_LOCAL else W_DRAM_REMOTE
                   else getWhere shmem_msg in
  let requester := getRequester (getShmemMsg shmem_req) in
  let! data := of_option (getDataBuf shmem_msg) AssertFailed in
  let s := sendMsg (mkPacket ty L2_CACHE requester requester address (Some data) hit_where) s in
  let! s := sendDataToNUCA address requester (Some data) false s in
  processNextReqFromL2Cache (enough address s) address s.

(** What an invalidation reply starts, once the sender is off the list. *)
Definition after_inv_rep (sender address : Z) (p : nat) (s : Cntlr) : result Cntlr :=
  let next := processNextReqFromL2Cache (enough address s) in
  let! shmem_req := queue_front address s in
  let! e := entry p s in
  match getMsgType (getShmemMsg shmem_req) with
  | EX_REQ =>
      if bool_decide (Entry.m_dstate e = UNCACHED) then
        processExReqFromL2Cache next shmem_req None s
      else Ok s
  | UPGRADE_REQ =>
      if Entry.getNumSharers e =? 1 then
        let! has := Entry.hasSharer (getRequester (getShmemMsg shmem_req)) e in
        if has : bool then processUpgradeReqFromL2Cache next shmem_req None s else Ok s
      else if Entry.getNumSharers e =? 0 then
        let! s := set_dstate p UNCACHED s in
        processUpgradeReqFromL2Cache next shmem_req None s
      else Ok s
  | SH_REQ =>
      if getWaitForData shmem_req then Ok s
      else if isForwarding shmem_req && negb (sender =? getForwardingFrom shmem_req) then Ok s
      else processShReqFromL2Cache next shmem_req None s
  | _ =>
      if bool_decide (Entry.m_dstate e = UNCACHED) then processNullifyReq next shmem_req s
      else Ok s
  end.

(** The entry once its sharer [sender] has been removed. *)
Definition sharer_gone (sender : Z) (e : Entry.t) : Entry.t :=
  let e := if Entry.m_forwarder_id e =? sender then Entry.setForwarder INVALID_CORE_ID e else e in
  if Entry.getNumSharers e =? 0 then Entry.setDState UNCACHED e else e.

Definition processInvRepFromL2Cache (sender : Z) (shmem_msg : ShmemMsg) (s : Cntlr)
  : result Cntlr :=
  let address := getAddress shmem_msg in
  let! (p, s) := lookup_entry address s in
  let! p := of_option p AssertFailed in
  let! e := entry p s in
  guard! bool_decide (Entry.m_dstate e = SHARED) || bool_decide (Entry.m_dstate e = EXCLUSIVE)
    else LogError in
  let! e := Entry.removeSharer sender false e in
  let s := set_entry p (sharer_gone sender e) s in
  if 0 <? queue_size address s then after_inv_rep sender address p s else Ok s.

(** What a flush reply starts. *)
Definition after_flush_rep (address : Z) (p : nat) (shmem_msg : ShmemMsg) (s : Cntlr)
  : result Cntlr :=
  let next := processNextReqFromL2Cache (enough address s) in
  let! shmem_req := queue_front address s in
  let! e := entry p s in
  match getMsgType (getShmemMsg shmem_req) with
  | EX_REQ => processExReqFromL2Cache next shmem_req (getDataBuf shmem_msg) s
  | SH_REQ =>
      let! s := sendDataToDram address (getRequester shmem_msg) (getDataBuf shmem_msg) s in
      processShReqFromL2Cache next shmem_req (getDataBuf shmem_msg) s
  | UPGRADE_REQ =>
      if Entry.getNumSharers e =? 0 then
        let! s := set_dstate p UNCACHED s in
        processUpgradeReqFromL2Cache next shmem_req (getDataBuf shmem_msg) s
      else Ok (set_front address (setDataBuf (getDataBuf shmem_msg) shmem_req) s)
  | _ =>
      let! s := sendDataToDram address (getRequester shmem_msg) (getDataBuf shmem_msg) s in
      processNullifyReq next shmem_req s
  end.

Definition processFlushRepFromL2Cache (sender : Z) (shmem_msg : ShmemMsg) (s : Cntlr)
  : result Cntlr :=
  let address := getAddress shmem_msg in
  let! (p, s) := lookup_entry address s in
  let! p := of_option p AssertFailed in
  let! e := entry p s in
  let! has := Entry.hasSharer sender e in
  guard! has else AssertFailed in
  let! e := Entry.removeSharer sender false e in
  let! e := Entry.setOwner INVALID_CORE_ID (Entry.setForwarder INVALID_CORE_ID e) in
  let! e := if Entry.getNumSharers e =? 0 then Ok (Entry.setDState UNCACHED e)
            else guard! bool_decide (Entry.m_dstate e = SHARED) else AssertFailed in Ok e in
  let s := set_entry p e s in
  if negb (queue_size address s =? 0) then after_flush_rep address p shmem_msg s
  else sendDataToDram address (getRequester shmem_msg) (getDataBuf shmem_msg) s.

Definition processWbRepFromL2Cache (sender : Z) (shmem_msg : ShmemMsg) (s : Cntlr)
  : result Cntlr :=
  let address := getAddress shmem_msg in
  let! (p, s) := lookup_entry address s in
  let! p := of_option p AssertFailed in
  let! e := entry p s in
  let! has := Entry.hasSharer sender e in
  guard! has else AssertFailed in
  let! e := Entry.setOwner INVALID_CORE_ID e in
  let s := set_entry p (Entry.setDState SHARED e) s in
  if negb (queue_size address s =? 0) then
    let! shmem_req := queue_front address s in
    guard! bool_decide (getMsgType (getShmemMsg shmem_req) = SH_REQ) else LogError in
    processShReqFromL2Cache (processNextReqFromL2Cache (enough address s)) shmem_req
      (getDataBuf shmem_msg) s
  else Err LogError.

(** A request joins the queue of its address, and starts if it is alone there. *)
Definition enqueue_request
    (process : (Z -> Cntlr -> result Cntlr) -> ShmemReq -> option Data -> Cntlr -> result Cntlr)
    (shmem_msg : ShmemMsg) (s : Cntlr) : result Cntlr :=
  let address := getAddress shmem_msg in
  let! shmem_req := create_req shmem_msg in
  let s := with_queues (ReqQueueList.enqueue (m_dram_directory_req_queue_list s) address shmem_req) s in
  if queue_size address s =? 1 then
    process (processNextReqFromL2Cache (enough address s)) shmem_req None s
  else Ok s.

Definition handleMsgFromL2Cache (sender : Z) (shmem_msg : ShmemMsg) (s : Cntlr) : result Cntlr :=
  let! (_, s) := lookup_entry (getAddress shmem_msg) s in
  match getMsgType shmem_msg with
  | EX_REQ => enqueue_request processExReqFromL2Cache shmem_msg s
  | SH_REQ => enqueue_request processShReqFromL2Cache shmem_msg s
  | INV_REP => processInvRepFromL2Cache sender shmem_msg s
  | FLUSH_REP => processFlushRepFromL2Cache sender shmem_msg s
  | WB_REP => processWbRepFromL2Cache sender shmem_msg s
  | UPGRADE_REQ => enqueue_request processUpgradeReqFromL2Cache shmem_msg s
  | _ => Err LogError
  end.

Definition handleMsgFromDRAM (sender : Z) (shmem_msg : ShmemMsg) (s : Cntlr) : result Cntlr :=
  match getMsgType shmem_msg with
  | DRAM_READ_REP => processDRAMReply sender shmem_msg s
  | _ => Err LogError
  end.
End cntlr.
Arguments Cntlr : clear implicits.
