(* ===== verification/DirectoryInv.v ===== *)
(** The invariant of the directory protocol: in every state the controller can
    reach, the sharers and the owner of each directory entry fit its state; in
    particular a line in state MODIFIED or EXCLUSIVE has exactly one holder,
    its owner. *)
From stdpp Require Import base numbers list gmap strings relations.
From Stdlib Require Import ZArith Lia Bool.
From S2P Require Import Prelude Utils Queues Directory DirectoryCntlr.
Open Scope Z_scope.

(** What the state of an entry says about its sharers. *)
Definition entry_ok (e : Entry.t) : Prop :=
  match Entry.m_dstate e with
  | UNCACHED => Entry.getNumSharers e = 0
  | SHARED => 0 < Entry.getNumSharers e
  | EXCLUSIVE | MODIFIED =>
      Entry.getNumSharers e = 1 /\ Entry.hasSharer (Entry.m_owner_id e) e = Ok true
  | OWNED => False
  end.

(** * Counting sharers *)
Lemma count_insert (l : list bool) i b b0 :
  l !! i = Some b0 ->
  Z.of_nat (length (filter (fun b => b = true) (<[i := b]> l))) =
  Z.of_nat (length (filter (fun b => b = true) l)) + Z.b2z b - Z.b2z b0.
Proof.
  revert i. induction l as [|x l IH]; intros [|i] Hi; simpl in Hi; [done|done| |].
  - injection Hi as ->. change (<[O := b]> (b0 :: l)) with (b :: l). rewrite !filter_cons.
    destruct b, b0; simpl; lia.
  - change (<[S i := b]> (x :: l)) with (x :: <[i := b]> l). rewrite !filter_cons.
    destruct x; simpl; rewrite ?Nat2Z.inj_succ, IH by done; lia.
Qed.

Lemma count_replicate n : length (filter (fun b => b = true) (replicate n false)) = 0%nat.
Proof. induction n as [|n IH]; [done|]. simpl. done. Qed.

Lemma count_nonneg e : 0 <= Entry.getNumSharers e.
Proof. unfold Entry.getNumSharers. lia. Qed.

Lemma hasSharer_Ok id e b :
  Entry.hasSharer id e = Ok b <-> 0 <= id /\ Entry.m_sharers e !! Z.to_nat id = Some b.
Proof.
  unfold Entry.hasSharer. split.
  - intros Hh. inv_ok. zbool. done.
  - intros [Hid Hb]. rewrite (proj2 (Z.leb_le 0 id)) by done. simpl. by apply aget_Ok.
Qed.

Lemma count_pos_has e id : Entry.hasSharer id e = Ok true -> 0 < Entry.getNumSharers e.
Proof.
  intros [_ Hb]%hasSharer_Ok. unfold Entry.getNumSharers.
  pose proof (count_insert _ _ false true Hb) as Hc. simpl in Hc. lia.
Qed.

(** The list of sharers: its length is the count, its elements the bits set. *)
Lemma sharers_from_length j l :
  Z.of_nat (length (Entry.sharers_from j l)) =
  Z.of_nat (length (filter (fun b => b = true) l)).
Proof.
  revert j. induction l as [|b l IH]; intros j; [done|].
  cbn [Entry.sharers_from]. rewrite filter_cons. destruct b; simpl; rewrite ?Nat2Z.inj_succ, IH; done.
Qed.

Lemma sharers_from_elem j l x :
  x ∈ Entry.sharers_from j l <-> exists i, l !! i = Some true /\ x = j + Z.of_nat i.
Proof.
  revert j. induction l as [|b l IH]; intros j; cbn [Entry.sharers_from].
  - split; [by intros ?%not_elem_of_nil|]. intros (i & Hi & _). done.
  - assert (Hrest : x ∈ Entry.sharers_from (j + 1) l <->
      exists i, (b :: l) !! S i = Some true /\ x = j + Z.of_nat (S i)).
    { rewrite IH. split; intros (i & Hi & Hx); exists i; (split; [done|lia]). }
    destruct b; [rewrite elem_of_cons|]; rewrite Hrest; split.
    + intros [->|(i & Hi & Hx)]; [exists O; split; [done|lia]|by exists (S i)].
    + intros ([|i] & Hi & Hx); [left; lia|right; by exists i].
    + intros (i & Hi & Hx). by exists (S i).
    + intros ([|i] & Hi & Hx); [done|by exists i].
Qed.

Lemma sharers_list_has e x :
  x ∈ (Entry.getSharersList e).2 <-> Entry.hasSharer x e = Ok true.
Proof.
  unfold Entry.getSharersList. cbn [snd]. rewrite sharers_from_elem, hasSharer_Ok. split.
  - intros (i & Hi & ->). rewrite Z.add_0_l, Nat2Z.id. split; [lia|done].
  - intros [Hx Hi]. exists (Z.to_nat x). split; [done|lia].
Qed.

(** * The operations of an entry *)
Lemma addSharer_inv id mx e r e' :
  Entry.addSharer id mx e = Ok (r, e') ->
  Entry.m_dstate e' = Entry.m_dstate e /\ Entry.m_address e' = Entry.m_address e /\
  (r = false -> e' = e) /\
  (r = true -> Entry.hasSharer id e = Ok false /\ Entry.hasSharer id e' = Ok true /\
     Entry.getNumSharers e' = Entry.getNumSharers e + 1).
Proof.
  unfold Entry.addSharer. intros Ha. inv_ok. zbool. subst.
  apply hasSharer_Ok in Hv as [Hid Hb].
  assert (Hset : forall k, Entry.hasSharer id e = Ok false /\
    Entry.hasSharer id (Entry.set_sharers (<[Z.to_nat id := true]> (Entry.m_sharers e)) k e) = Ok true /\
    Entry.getNumSharers (Entry.set_sharers (<[Z.to_nat id := true]> (Entry.m_sharers e)) k e) =
      Entry.getNumSharers e + 1).
  { intros k. split; [by apply hasSharer_Ok|]. split.
    - apply hasSharer_Ok. split; [done|]. simpl. apply list_lookup_insert_eq.
      by eapply lookup_lt_Some.
    - unfold Entry.getNumSharers. simpl. rewrite (count_insert _ _ _ false) by done. simpl. lia. }
  destruct (Entry.kind e) eqn:Hk; [case_match|]; inv_ok; split_and!; try done.
  all: intros _; apply Hset.
Qed.

Lemma removeSharer_inv id b e e' :
  Entry.removeSharer id b e = Ok e' ->
  Entry.hasSharer id e = Ok true /\ Entry.hasSharer id e' = Ok false /\
  Entry.m_dstate e' = Entry.m_dstate e /\ Entry.m_owner_id e' = Entry.m_owner_id e /\
  Entry.m_address e' = Entry.m_address e /\
  Entry.getNumSharers e' = Entry.getNumSharers e - 1 /\
  (forall x, x <> id -> Entry.hasSharer x e' = Entry.hasSharer x e).
Proof.
  unfold Entry.removeSharer. intros Hr. inv_ok. subst. split; [done|].
  apply hasSharer_Ok in Hv0 as [Hid Hb]. split_and!; try done.
  - apply hasSharer_Ok. split; [done|]. simpl. apply list_lookup_insert_eq. by eapply lookup_lt_Some.
  - unfold Entry.getNumSharers. simpl. rewrite (count_insert _ _ _ true) by done. simpl. lia.
  - intros x Hx. unfold Entry.hasSharer. destruct (Z.leb_spec 0 x) as [Hx0|]; [|done].
    simpl. unfold aget. rewrite list_lookup_insert_ne; [done|]. lia.
Qed.

Lemma setOwner_inv o e e' :
  Entry.setOwner o e = Ok e' ->
  Entry.m_dstate e' = Entry.m_dstate e /\ Entry.m_owner_id e' = o /\
  Entry.m_sharers e' = Entry.m_sharers e /\ Entry.m_address e' = Entry.m_address e /\
  (o <> INVALID_CORE_ID -> Entry.hasSharer o e = Ok true).
Proof.
  unfold Entry.setOwner. intros Hs. inv_ok. split_and!; try done.
  intros Ho. rewrite (proj2 (Z.eqb_neq _ _)) in Hv by done. cbn [negb] in Hv. inv_ok. by subst.
Qed.

Lemma getOneSharer_inv e x e' :
  Entry.getOneSharer e = Ok (x, e') ->
  Entry.hasSharer x e = Ok true /\ Entry.m_dstate e' = Entry.m_dstate e /\
  Entry.m_owner_id e' = Entry.m_owner_id e /\ Entry.m_sharers e' = Entry.m_sharers e /\
  Entry.m_address e' = Entry.m_address e.
Proof.
  unfold Entry.getOneSharer. intros Hg. destruct (Entry.kind e); [|case_match eqn:Hl; [done|]]; inv_ok.
  - split; [|done]. apply sharers_list_has. by eapply list_elem_of_lookup_2.
  - split; [|done]. apply sharers_list_has. rewrite Hl. left.
Qed.

(** The invariant reads only state, owner and sharers. *)
Lemma entry_ok_ext e e' :
  Entry.m_dstate e' = Entry.m_dstate e -> Entry.m_owner_id e' = Entry.m_owner_id e ->
  Entry.m_sharers e' = Entry.m_sharers e -> entry_ok e -> entry_ok e'.
Proof.
  intros H1 H2 H3. unfold entry_ok, Entry.getNumSharers, Entry.hasSharer. by rewrite H1, H2, H3.
Qed.

Lemma entry_ok_create u n k : entry_ok (Entry.create u n k).
Proof. unfold entry_ok, Entry.getNumSharers, Entry.create. simpl. by rewrite count_replicate. Qed.

Lemma entry_ok_setAddress a e : entry_ok e -> entry_ok (Entry.setAddress a e).
Proof. by apply entry_ok_ext. Qed.

Lemma entry_ok_setForwarder f e : entry_ok e -> entry_ok (Entry.setForwarder f e).
Proof. by apply entry_ok_ext. Qed.

(** * The directory cache only moves addresses around *)

(** Every entry of [d'] is an entry of [d] or a fresh one, up to its address. *)
Definition evolves (d d' : DramDirectoryCache) : Prop :=
  forall P : Entry.t -> Prop,
    (forall e a, P e -> P (Entry.setAddress a e)) ->
    (forall u n k, P (Entry.create u n k)) ->
    map_Forall (fun _ => P) (store d) -> map_Forall (fun _ => P) (store d').

#[global] Instance evolves_preorder : PreOrder evolves.
Proof.
  split.
  - by intros d P.
  - intros d1 d2 d3 H12 H23 P Hs Hc H1. apply H23; [done|done|]. by apply H12.
Qed.

Lemma evolves_same_store d d' : store d' = store d -> evolves d d'.
Proof. intros He P _ _. by rewrite He. Qed.

Lemma createDirectoryEntry_evolves d p d' : createDirectoryEntry d = (p, d') -> evolves d d'.
Proof.
  unfold createDirectoryEntry. intros [= <- <-] P Hs Hc Hd. simpl.
  apply map_Forall_insert_2; [apply Hc|done].
Qed.

Lemma set_slot_store i p a d d' : set_slot i p a d = Ok d' -> store d' = store d.
Proof. unfold set_slot. intros Hs. by inv_ok. Qed.

Lemma put_address_evolves d p e a :
  store d !! p = Some e -> evolves d (put_entry d p (Entry.setAddress a e)).
Proof.
  intros He P Hs Hc Hd. simpl. apply map_Forall_insert_2; [|done]. by apply Hs, (Hd p).
Qed.

Lemma dir_get_evolves n d p d' : dir_getDirectoryEntry n d = Ok (p, d') -> evolves d d'.
Proof.
  unfold dir_getDirectoryEntry. intros Hg. inv_ok. case_match; [by inv_ok|].
  destruct (createDirectoryEntry d) as [q d1] eqn:Hc. inv_ok.
  transitivity d1; [by eapply createDirectoryEntry_evolves|].
  apply evolves_same_store. by eapply set_slot_store.
Qed.

Lemma find_in_set_evolves k i st a d r d' : find_in_set k i st a d = Ok (r, d') -> evolves d d'.
Proof.
  revert i d. induction k as [|k IH]; intros i d Hf; simpl in Hf; inv_ok; [done|].
  transitivity b; [by eapply dir_get_evolves|]. case_match; inv_ok; [done|by eapply IH].
Qed.

Lemma getDirectoryEntry_evolves a d r d' : getDirectoryEntry a d = Ok (r, d') -> evolves d d'.
Proof.
  unfold getDirectoryEntry. destruct (dc_splitAddress a d) as [tag st]. intros Hg. inv_ok.
  apply find_in_set_evolves in Hv. transitivity b; [done|].
  destruct a0 as [[p i]|]; inv_ok; [done|]. apply find_in_set_evolves in Hv0.
  transitivity b0; [done|]. destruct a0 as [[p i]|]; unfold deref in *; inv_ok; [|done].
  by apply put_address_evolves.
Qed.

Lemma candidates_evolves k i st ptr d l d' :
  candidates_from k i st ptr d = Ok (l, d') -> evolves d d'.
Proof.
  revert i d l. induction k as [|k IH]; intros i d l Hf; simpl in Hf; inv_ok; [done|].
  transitivity b; [by eapply dir_get_evolves|]. by eapply IH.
Qed.

Lemma getReplacementCandidates_evolves a d l d' :
  getReplacementCandidates a d = Ok (l, d') -> evolves d d'.
Proof.
  unfold getReplacementCandidates. intros Hg. inv_ok.
  apply getDirectoryEntry_evolves in Hv. transitivity b; [done|].
  destruct (dc_splitAddress a b) as [tag st]. inv_ok.
  transitivity b1; [by eapply candidates_evolves|]. by apply evolves_same_store.
Qed.

Lemma replaceDirectoryEntry_evolves ra a d p d' :
  replaceDirectoryEntry ra a d = Ok (p, d') -> evolves d d'.
Proof.
  unfold replaceDirectoryEntry. destruct (dc_splitAddress ra d) as [tag st]. intros Hg. inv_ok.
  apply find_in_set_evolves in Hv. transitivity b; [done|].
  destruct a0 as [[q i]|]; [|done].
  destruct (createDirectoryEntry _) as [q' d1] eqn:Hc. unfold deref in *. inv_ok.
  apply createDirectoryEntry_evolves in Hc.
  transitivity d1; [etransitivity; [|exact Hc]; by apply evolves_same_store|].
  etransitivity; [by apply put_address_evolves|].
  apply evolves_same_store. by eapply set_slot_store.
Qed.

Lemma invalidate_from_evolves l a d r d' : invalidate_from l a d = Ok (r, d') -> evolves d d'.
Proof.
  revert r. induction l as [|p l IH]; intros r Hi; simpl in Hi; [done|]. inv_ok.
  case_match; inv_ok; [|by eapply IH].
  intros P _ _ Hd. simpl. by apply map_Forall_delete.
Qed.

Lemma invalidateDirectoryEntry_evolves a d d' :
  invalidateDirectoryEntry a d = Ok d' -> evolves d d'.
Proof.
  unfold invalidateDirectoryEntry. intros Hi. inv_ok.
  transitivity b; [by eapply invalidate_from_evolves|]. by apply evolves_same_store.
Qed.

#[export] Hint Resolve getDirectoryEntry_evolves getReplacementCandidates_evolves
  replaceDirectoryEntry_evolves invalidateDirectoryEntry_evolves : sim.

(** * The controller *)
Section controller.
Context {N : Type} `{NucaCache N}.
Implicit Types s : Cntlr N.

Definition dir_inv s : Prop := map_Forall (fun _ => entry_ok) (store (m_dram_directory_cache s)).

Lemma with_dc_inv d s :
  evolves (m_dram_directory_cache s) d -> dir_inv s -> dir_inv (with_dc d s).
Proof.
  intros He. unfold dir_inv. simpl. apply He; [|apply entry_ok_create].
  intros e a. apply entry_ok_setAddress.
Qed.

Lemma lookup_entry_inv a s p s' : lookup_entry a s = Ok (p, s') -> dir_inv s -> dir_inv s'.
Proof. unfold lookup_entry. intros Hl. inv_ok. apply with_dc_inv. eauto with sim. Qed.

Lemma entry_get p s e :
  entry p s = Ok e <-> store (m_dram_directory_cache s) !! p = Some e.
Proof.
  unfold entry, deref. split; [apply of_option_Ok_inv|]. by intros ->.
Qed.

Lemma entry_inv p s e : entry p s = Ok e -> dir_inv s -> entry_ok e.
Proof. intros He Hs. apply entry_get in He. by apply (Hs p). Qed.

Lemma set_entry_inv p e s : entry_ok e -> dir_inv s -> dir_inv (set_entry p e s).
Proof. intros He Hs. unfold dir_inv. simpl. by apply map_Forall_insert_2. Qed.

Lemma entry_set_entry p e s : entry p (set_entry p e s) = Ok e.
Proof. apply entry_get. simpl. apply lookup_insert_eq. Qed.

Lemma set_entry_twice p e1 e2 s : set_entry p e2 (set_entry p e1 s) = set_entry p e2 s.
Proof.
  unfold set_entry, with_dc, put_entry, with_store. simpl. by rewrite insert_insert_eq.
Qed.

(** Resolve reads of entries: after a write to the same pointer, or repeated. *)
Ltac read_entries :=
  repeat match goal with
  | Hr : entry ?p (set_entry ?p _ _) = Ok _ |- _ =>
      rewrite entry_set_entry in Hr; apply Ok_inj in Hr; eq_subst Hr
  | Hr : context [set_entry ?p _ (set_entry ?p _ _)] |- _ => rewrite set_entry_twice in Hr
  | |- context [set_entry ?p _ (set_entry ?p _ _)] => rewrite set_entry_twice
  | Hr : entry ?p (sendMsg _ ?x) = Ok ?e |- _ => change (entry p x = Ok e) in Hr
  | H1 : entry ?p ?s = Ok ?a, H2 : entry ?p ?s = Ok ?b |- _ =>
      rewrite H1 in H2; apply Ok_inj in H2; eq_subst H2
  end.

Lemma send_all_inv ty r a l s : dir_inv s -> dir_inv (send_all ty r a l s).
Proof. revert s. induction l as [|x l IH]; intros s Hs; simpl; [done|]. by apply IH. Qed.

Lemma invalidate_sharers_inv r a l s s' :
  invalidate_sharers r a l s = Ok s' -> dir_inv s -> dir_inv s'.
Proof.
  unfold invalidate_sharers. destruct l as [[|] l]; simpl; [done|]. intros [= <-].
  apply send_all_inv.
Qed.

Lemma upgrade_invalidate_inv i l r a b s : dir_inv s -> dir_inv (upgrade_invalidate i l r a b s).
Proof.
  revert i s. induction l as [|x l IH]; intros i s Hs; simpl; [done|]. apply IH. by case_match.
Qed.

Lemma sendDataToNUCA_inv a r b c s s' : sendDataToNUCA a r b c s = Ok s' -> dir_inv s -> dir_inv s'.
Proof.
  unfold sendDataToNUCA. intros Hs. case_match; inv_ok; [|done].
  inv_ok. case_match; inv_ok; done.
Qed.

Lemma sendDataToDram_inv a r b s s' : sendDataToDram a r b s = Ok s' -> dir_inv s -> dir_inv s'.
Proof.
  unfold sendDataToDram. intros Hs. case_match; [by eapply sendDataToNUCA_inv|]. by inv_ok.
Qed.

(** Granting an uncached line. *)
Lemma grant_uncached_value p r st s s' e :
  entry p s = Ok e -> grant_uncached p r st s = Ok s' ->
  exists e', s' = set_entry p e' s /\ Entry.m_dstate e' = st /\ Entry.m_owner_id e' = r /\
    Entry.hasSharer r e' = Ok true /\ Entry.m_address e' = Entry.m_address e /\
    Entry.getNumSharers e' = Entry.getNumSharers e + 1.
Proof.
  intros He Hg. unfold grant_uncached, add_sharer, set_owner, set_dstate in Hg. inv_ok.
  read_entries. subst.
  match goal with Ha : Entry.addSharer _ _ _ = Ok _ |- _ =>
    apply addSharer_inv in Ha as (Hd & Ha & _ & Hadd) end.
  destruct (Hadd eq_refl) as (_ & Hhas & Hn).
  match goal with Ho : Entry.setOwner _ _ = Ok _ |- _ =>
    apply setOwner_inv in Ho as (Hd' & Howner & Hsh & Ha' & _) end.
  eexists. split; [done|]. cbn [Entry.setDState Entry.m_dstate Entry.m_owner_id Entry.m_address].
  unfold Entry.hasSharer, Entry.getNumSharers in *. cbn [Entry.setDState Entry.m_sharers].
  rewrite Hsh, Ha'. split_and!; congruence.
Qed.

Lemma grant_uncached_inv p r st s s' e :
  grant_uncached p r st s = Ok s' -> entry p s = Ok e -> Entry.m_dstate e = UNCACHED ->
  st = MODIFIED \/ st = EXCLUSIVE \/ st = SHARED -> dir_inv s -> dir_inv s'.
Proof.
  intros Hg He Hu Hst Hs.
  destruct (grant_uncached_value p r st s s' e He Hg) as (e' & -> & Hd & Ho & Hh & _ & Hn).
  apply set_entry_inv; [|done]. pose proof (entry_inv p s e He Hs) as Hok.
  unfold entry_ok in Hok |- *. rewrite Hu in Hok. rewrite Hd, Ho.
  destruct Hst as [->|[->| ->]]; [split; [lia|done]|split; [lia|done]|lia].
Qed.

Section over_next.
Context (next : Z -> Cntlr N -> result (Cntlr N)).
Hypothesis next_inv : forall a s s', next a s = Ok s' -> dir_inv s -> dir_inv s'.

Lemma retrieve_remote_inv r a e s s' :
  retrieve_remote r a e s = Ok s' -> dir_inv s -> dir_inv s'.
Proof. unfold retrieve_remote. intros Hr. inv_ok. case_match; inv_ok; done. Qed.

Lemma retrieve_inv ty r a b s s' :
  retrieveDataAndSendToL2Cache next ty r a b s = Ok s' -> dir_inv s -> dir_inv s'.
Proof using next_inv.
  unfold retrieveDataAndSendToL2Cache. intros Hr Hs. inv_ok.
  apply lookup_entry_inv in Hv; [|done]. destruct b as [d|].
  - eapply next_inv; [eassumption|]. apply set_entry_inv; [|done].
    apply entry_ok_setForwarder. by eapply entry_inv.
  - case_match; [|by eapply retrieve_remote_inv]. inv_ok.
    case_match; [by eapply next_inv|by eapply retrieve_remote_inv].
Qed.

Lemma processNullifyReq_inv r s s' :
  processNullifyReq next r s = Ok s' -> dir_inv s -> dir_inv s'.
Proof using next_inv.
  unfold processNullifyReq. intros Hr Hs. inv_ok. apply lookup_entry_inv in Hv; [|done].
  case_match; inv_ok; try done.
  - eapply next_inv; [eassumption|]. apply with_dc_inv; [|done]. eauto with sim.
  - by eapply invalidate_sharers_inv.
Qed.

Lemma allocation_inv r s p s' :
  processDirectoryEntryAllocationReq next r s = Ok (p, s') -> dir_inv s -> dir_inv s'.
Proof using next_inv.
  unfold processDirectoryEntryAllocationReq. intros Hr Hs. inv_ok.
  eapply processNullifyReq_inv; [eassumption|].
  match goal with |- dir_inv (with_queues _ ?x) => change (dir_inv x) end.
  apply with_dc_inv; [eauto with sim|].
  match goal with |- dir_inv (with_stats _ _ _ ?x) => change (dir_inv x) end.
  apply with_dc_inv; [eauto with sim|done].
Qed.

Lemma find_or_allocate_inv r s p s' :
  find_or_allocate next r s = Ok (p, s') -> dir_inv s -> dir_inv s'.
Proof using next_inv.
  unfold find_or_allocate. intros Hr Hs. inv_ok. apply lookup_entry_inv in Hv; [|done].
  case_match; inv_ok; [done|by eapply allocation_inv].
Qed.

Lemma processEx_inv r b s s' :
  processExReqFromL2Cache next r b s = Ok s' -> dir_inv s -> dir_inv s'.
Proof using next_inv.
  unfold processExReqFromL2Cache. intros Hr Hs. inv_ok. apply find_or_allocate_inv in Hv; [|done].
  case_match; inv_ok; try done.
  - eapply retrieve_inv; [eassumption|]. eapply grant_uncached_inv; eauto.
  - by eapply invalidate_sharers_inv.
Qed.

Lemma add_sharer_shared_inv p r s b s' e :
  add_sharer p r s = Ok (b, s') -> entry p s = Ok e -> Entry.m_dstate e = SHARED ->
  dir_inv s -> dir_inv s'.
Proof.
  intros Ha He Hd Hs. pose proof (entry_inv p s _ He Hs) as Hok.
  unfold add_sharer in Ha. inv_ok. read_entries. apply set_entry_inv; [|done].
  match goal with Ha : Entry.addSharer _ _ _ = Ok (?x, _) |- _ =>
    apply addSharer_inv in Ha as (Hd' & _ & Hf & Ht); destruct x end.
  - destruct (Ht eq_refl) as (_ & _ & Hn). unfold entry_ok in Hok |- *. rewrite Hd', Hd in *. lia.
  - by rewrite Hf.
Qed.

Lemma share_shared_inv p r a b s s' e :
  share_shared next p r a b s = Ok s' -> entry p s = Ok e -> Entry.m_dstate e = SHARED ->
  dir_inv s -> dir_inv s'.
Proof using next_inv.
  intros Hr He Hd Hs. unfold share_shared in Hr. inv_ok. case_match; inv_ok.
  - by eapply retrieve_inv.
  - assert (Hb : dir_inv b0) by (by eapply add_sharer_shared_inv).
    case_match; inv_ok; [|by eapply retrieve_inv].
    match goal with |- dir_inv (sendMsg _ ?x) => change (dir_inv x) end.
    apply set_entry_inv; [|done].
    match goal with Hg : Entry.getOneSharer _ = Ok _ |- _ =>
      apply getOneSharer_inv in Hg as (_ & ? & ? & ? & _) end.
    eapply entry_ok_ext; [done|done|done|]. by eapply entry_inv.
Qed.

Lemma processSh_inv r b s s' :
  processShReqFromL2Cache next r b s = Ok s' -> dir_inv s -> dir_inv s'.
Proof using next_inv.
  unfold processShReqFromL2Cache. intros Hr Hs. inv_ok. apply find_or_allocate_inv in Hv; [|done].
  case_match; inv_ok; try done.
  - case_match; inv_ok; (eapply retrieve_inv; [eassumption|]);
      eapply grant_uncached_inv; eauto.
  - eapply share_shared_inv; eauto.
Qed.

Lemma sole_sharer e x :
  (Entry.getSharersList e).2 = [x] -> Entry.getNumSharers e = 1 /\ Entry.hasSharer x e = Ok true.
Proof.
  intros Hl. split.
  - unfold Entry.getNumSharers. rewrite <- (sharers_from_length 0).
    unfold Entry.getSharersList in Hl. cbn [snd] in Hl. by rewrite Hl.
  - apply sharers_list_has. rewrite Hl. left.
Qed.

Lemma processUpgrade_inv r b s s' :
  processUpgradeReqFromL2Cache next r b s = Ok s' -> dir_inv s -> dir_inv s'.
Proof using next_inv.
  unfold processUpgradeReqFromL2Cache. intros Hr Hs. inv_ok.
  apply find_or_allocate_inv in Hv; [|done]. pose proof (entry_inv _ _ _ Hv0 Hv) as Hok.
  assert (Hown : Entry.m_dstate v = EXCLUSIVE \/ Entry.m_dstate v = MODIFIED ->
    entry_ok (Entry.setDState MODIFIED v)).
  { unfold entry_ok in Hok |- *. intros [Hd|Hd]; rewrite Hd in Hok; done. }
  destruct (Entry.m_dstate v) eqn:Hd; inv_ok; try done.
  - eapply retrieve_inv; [eassumption|]. eapply grant_uncached_inv; eauto.
  - case_match eqn:Hone; inv_ok.
    + eapply next_inv; [eassumption|].
      match goal with |- dir_inv (sendMsg _ ?x) => change (dir_inv x) end.
      unfold set_owner, set_dstate in *. inv_ok. read_entries. apply set_entry_inv; [|done].
      apply bool_decide_eq_true in Hone.
      match goal with Hset : Entry.setOwner _ _ = Ok _ |- _ =>
        apply setOwner_inv in Hset as (_ & Ho & Hsh & _ & _) end.
      apply sole_sharer in Hone as [Hn Hh].
      unfold entry_ok, Entry.getNumSharers, Entry.hasSharer in *.
      cbn [Entry.setDState Entry.m_dstate Entry.m_owner_id Entry.m_sharers].
      by rewrite Hsh, Ho.
    + case_match; inv_ok; by apply upgrade_invalidate_inv.
  - case_match; inv_ok; [|done]. eapply next_inv; [eassumption|].
    unfold set_dstate in *. inv_ok. read_entries. apply set_entry_inv; auto.
  - case_match; inv_ok; [|done]. eapply next_inv; [eassumption|].
    unfold set_dstate in *. inv_ok. read_entries. apply set_entry_inv; auto.
Qed.
End over_next.

Lemma processNext_inv fuel a s s' :
  processNextReqFromL2Cache fuel a s = Ok s' -> dir_inv s -> dir_inv s'.
Proof.
  revert a s s'. induction fuel as [|fuel IH]; intros a s s' Hn Hs; simpl in Hn; [done|].
  inv_ok. case_match; inv_ok; [|done].
  case_match; inv_ok; try done.
  - by eapply (processEx_inv (processNextReqFromL2Cache fuel)).
  - by eapply (processSh_inv (processNextReqFromL2Cache fuel)).
  - by eapply (processUpgrade_inv (processNextReqFromL2Cache fuel)).
Qed.

Lemma processDRAMReply_inv sender m s s' :
  processDRAMReply sender m s = Ok s' -> dir_inv s -> dir_inv s'.
Proof.
  unfold processDRAMReply. intros Hr Hs. inv_ok.
  match goal with Hl : lookup_entry _ _ = Ok _ |- _ => apply lookup_entry_inv in Hl; [|done] end.
  eapply processNext_inv; [eassumption|]. eapply sendDataToNUCA_inv; [eassumption|]. done.
Qed.

Lemma set_dstate_uncached_inv p s s' e :
  set_dstate p UNCACHED s = Ok s' -> entry p s = Ok e -> Entry.getNumSharers e = 0 ->
  dir_inv s -> dir_inv s'.
Proof.
  intros Hd He Hn Hs. unfold set_dstate in Hd. inv_ok. read_entries. by apply set_entry_inv.
Qed.

Lemma after_inv_rep_inv sender a p s s' :
  after_inv_rep sender a p s = Ok s' -> dir_inv s -> dir_inv s'.
Proof.
  unfold after_inv_rep. intros Hr Hs. inv_ok.
  pose proof (processNext_inv (enough a s)) as Hnext.
  case_match; try (case_match; inv_ok; [by eapply processNullifyReq_inv|done]).
  - case_match; inv_ok; [by eapply processEx_inv|done].
  - repeat case_match; inv_ok; try done; by eapply processSh_inv.
  - case_match eqn:Hn1; [|case_match eqn:Hn0].
    + inv_ok. case_match; inv_ok; [by eapply processUpgrade_inv|done].
    + inv_ok. eapply processUpgrade_inv; [done|eassumption|]. zbool.
      by eapply set_dstate_uncached_inv.
    + by inv_ok.
Qed.

Lemma sharer_gone_ok sender e e' :
  entry_ok e -> Entry.m_dstate e = SHARED \/ Entry.m_dstate e = EXCLUSIVE ->
  Entry.removeSharer sender false e = Ok e' -> entry_ok (sharer_gone sender e').
Proof.
  intros Hok Hst (_ & _ & Hd & _ & _ & Hn & _)%removeSharer_inv. unfold sharer_gone.
  assert (Hf : forall b : bool,
    Entry.getNumSharers (if b then Entry.setForwarder INVALID_CORE_ID e' else e') =
    Entry.getNumSharers e') by (by intros []).
  rewrite Hf. pose proof (count_nonneg e') as Hpos.
  destruct (Z.eqb_spec (Entry.getNumSharers e') 0) as [H0|H0].
  - unfold entry_ok. cbn [Entry.setDState Entry.m_dstate]. by case_match.
  - assert (Entry.m_dstate e' = SHARED) as Hsh.
    { rewrite Hd. destruct Hst as [?|Hx]; [done|]. unfold entry_ok in Hok. rewrite Hx in Hok. lia. }
    assert (entry_ok e') by (unfold entry_ok; rewrite Hsh; lia).
    case_match; [by apply entry_ok_setForwarder|done].
Qed.

Lemma processInvRep_inv sender m s s' :
  processInvRepFromL2Cache sender m s = Ok s' -> dir_inv s -> dir_inv s'.
Proof.
  unfold processInvRepFromL2Cache. intros Hr Hs. inv_ok.
  match goal with Hl : lookup_entry _ _ = Ok _ |- _ => apply lookup_entry_inv in Hl; [|done] end.
  match goal with
  | He : entry ?p ?x = Ok ?e, Hrem : Entry.removeSharer _ _ ?e = Ok ?e', Hb : dir_inv ?x,
    Hst : (_ || _) = true |- _ =>
      assert (Hs1 : dir_inv (set_entry p (sharer_gone sender e') x));
      [apply set_entry_inv; [|done]; eapply sharer_gone_ok; [by eapply entry_inv| |exact Hrem];
       apply orb_prop in Hst as [Hst|Hst]; apply bool_decide_eq_true in Hst; auto|]
  end.
  case_match; [by eapply after_inv_rep_inv|by inv_ok].
Qed.

Lemma after_flush_rep_inv a p m s s' :
  after_flush_rep a p m s = Ok s' -> dir_inv s -> dir_inv s'.
Proof.
  unfold after_flush_rep. intros Hr Hs. inv_ok.
  pose proof (processNext_inv (enough a s)) as Hnext.
  case_match; inv_ok;
    try (eapply processNullifyReq_inv; [done|eassumption|]; by eapply sendDataToDram_inv).
  - by eapply processEx_inv.
  - eapply processSh_inv; [done|eassumption|]. by eapply sendDataToDram_inv.
  - case_match; inv_ok; [|done].
    eapply processUpgrade_inv; [done|eassumption|]. zbool. by eapply set_dstate_uncached_inv.
Qed.

Lemma processFlushRep_inv sender m s s' :
  processFlushRepFromL2Cache sender m s = Ok s' -> dir_inv s -> dir_inv s'.
Proof.
  unfold processFlushRepFromL2Cache. intros Hr Hs. inv_ok.
  match goal with Hl : lookup_entry _ _ = Ok _ |- _ => apply lookup_entry_inv in Hl; [|done] end.
  match goal with
  | Ho : Entry.setOwner _ _ = Ok ?eo, Hlast : (if _ then _ else _) = Ok ?e2 |- _ =>
      assert (Hnew : entry_ok e2)
  end.
  { match goal with Hlast : (if Entry.getNumSharers ?eo =? 0 then _ else _) = Ok _ |- _ =>
      pose proof (count_nonneg eo) as Hpos;
      destruct (Z.eqb_spec (Entry.getNumSharers eo) 0) end; inv_ok; [done|].
    match goal with Hsh : bool_decide _ = true |- _ => apply bool_decide_eq_true in Hsh;
      unfold entry_ok; rewrite Hsh end. lia. }
  match goal with Hk : (if _ then after_flush_rep _ ?p _ (set_entry ?p ?e ?x) else _) = Ok _ |- _ =>
    assert (Hs1 : dir_inv (set_entry p e x)) by (by apply set_entry_inv) end.
  case_match; [by eapply after_flush_rep_inv|by eapply sendDataToDram_inv].
Qed.

Lemma processWbRep_inv sender m s s' :
  processWbRepFromL2Cache sender m s = Ok s' -> dir_inv s -> dir_inv s'.
Proof.
  unfold processWbRepFromL2Cache. intros Hr Hs. inv_ok.
  match goal with Hl : lookup_entry _ _ = Ok _ |- _ => apply lookup_entry_inv in Hl; [|done] end.
  case_match; inv_ok.
  match goal with Hk : processShReqFromL2Cache ?n _ _ _ = Ok _ |- _ =>
    eapply (processSh_inv n); [intros ???; apply processNext_inv|exact Hk|] end.
  apply set_entry_inv; [|done]. subst.
  match goal with Ho : Entry.setOwner _ _ = Ok _ |- _ =>
    apply setOwner_inv in Ho as (_ & _ & Hsh & _ & _) end.
  match goal with Hh : Entry.hasSharer _ _ = Ok true |- _ => apply count_pos_has in Hh end.
  unfold entry_ok, Entry.getNumSharers in *. cbn [Entry.setDState Entry.m_dstate Entry.m_sharers].
  by rewrite Hsh.
Qed.

Lemma enqueue_request_inv process m s s' :
  (forall next, (forall a s s', next a s = Ok s' -> dir_inv s -> dir_inv s') ->
     forall r b s s', process next r b s = Ok s' -> dir_inv s -> dir_inv s') ->
  enqueue_request process m s = Ok s' -> dir_inv s -> dir_inv s'.
Proof.
  intros Hp Hr Hs. unfold enqueue_request in Hr. inv_ok. case_match; inv_ok; [|done].
  eapply Hp; [|eassumption|done]. intros a s1 s2. apply processNext_inv.
Qed.

Lemma handleMsgFromL2Cache_inv sender m s s' :
  handleMsgFromL2Cache sender m s = Ok s' -> dir_inv s -> dir_inv s'.
Proof.
  unfold handleMsgFromL2Cache. intros Hr Hs. inv_ok. apply lookup_entry_inv in Hv; [|done].
  case_match; try done.
  - eapply enqueue_request_inv; [exact processEx_inv|eassumption|done].
  - eapply enqueue_request_inv; [exact processSh_inv|eassumption|done].
  - eapply enqueue_request_inv; [exact processUpgrade_inv|eassumption|done].
  - by eapply processInvRep_inv.
  - by eapply processFlushRep_inv.
  - by eapply processWbRep_inv.
Qed.

(** * Reachable states *)

(** The controller handles one message. *)
Inductive dir_step : Cntlr N -> Cntlr N -> Prop :=
  | step_l2 sender m s s' : handleMsgFromL2Cache sender m s = Ok s' -> dir_step s s'
  | step_dram sender m s s' : handleMsgFromDRAM sender m s = Ok s' -> dir_step s s'.

Lemma dir_step_inv s s' : dir_step s s' -> dir_inv s -> dir_inv s'.
Proof.
  intros [sender m s1 s2 Hh|sender m s1 s2 Hh] Hs; [by eapply handleMsgFromL2Cache_inv|].
  unfold handleMsgFromDRAM in Hh. case_match; try done. by eapply processDRAMReply_inv.
Qed.

Lemma create_cntlr_inv ahl nuca core type te assoc bs mns mhs pen ptrs u variant s :
  create_cntlr ahl nuca core type te assoc bs mns mhs pen ptrs u variant = Ok s -> dir_inv s.
Proof.
  unfold create_cntlr, create_dircache. intros Hc. inv_ok.
  unfold dir_inv. simpl. apply map_Forall_empty.
Qed.
End controller.
