(* ===== verification/DirectoryTerm.v ===== *)
(** Termination of the directory controller: the handlers call each other through
    [processNextReqFromL2Cache], and the number of requests queued at an address
    bounds that recursion. *)
From stdpp Require Import base numbers list gmap strings.
From Stdlib Require Import ZArith Lia Bool.
From S2P Require Import Prelude Utils Queues Directory DirectoryCntlr DirectoryInv.
Open Scope Z_scope.

(** * Entries and the directory cache *)
Lemma hasSharer_halts id e : halts any (Entry.hasSharer id e).
Proof. unfold Entry.hasSharer. halts_auto. Qed.
#[export] Hint Resolve hasSharer_halts : sim.

Lemma addSharer_halts id m e : halts any (Entry.addSharer id m e).
Proof. unfold Entry.addSharer. halts_auto. Qed.

Lemma removeSharer_halts id b e : halts any (Entry.removeSharer id b e).
Proof. unfold Entry.removeSharer. halts_auto. Qed.

Lemma setOwner_halts o e : halts any (Entry.setOwner o e).
Proof. unfold Entry.setOwner. halts_auto. Qed.

Lemma getOneSharer_halts e : halts any (Entry.getOneSharer e).
Proof. unfold Entry.getOneSharer, Rng.random_next. halts_auto. Qed.

Lemma deref_halts d p : halts any (deref d p).
Proof. unfold deref. halts_auto. Qed.
#[export] Hint Resolve addSharer_halts removeSharer_halts setOwner_halts getOneSharer_halts
  deref_halts : sim.

Lemma set_slot_halts i p a d : halts any (set_slot i p a d).
Proof. unfold set_slot. halts_auto. Qed.
#[export] Hint Resolve set_slot_halts : sim.

Lemma dir_get_halts n d : halts any (dir_getDirectoryEntry n d).
Proof. unfold dir_getDirectoryEntry. halts_auto. Qed.
#[export] Hint Resolve dir_get_halts : sim.

Lemma find_in_set_halts k i st a d : halts any (find_in_set k i st a d).
Proof.
  revert i d. induction k as [|k IH]; intros i d; simpl; [exact I|]. halts_auto.
Qed.

Lemma find_replaced_halts l a d : halts any (find_replaced l a d).
Proof. induction l as [|p l IH]; simpl; [exact I|]. halts_auto. Qed.
#[export] Hint Resolve find_in_set_halts find_replaced_halts : sim.

Lemma getDirectoryEntry_halts a d : halts any (getDirectoryEntry a d).
Proof. unfold getDirectoryEntry. halts_auto. Qed.
#[export] Hint Resolve getDirectoryEntry_halts : sim.

Lemma candidates_halts k i st ptr d : halts any (candidates_from k i st ptr d).
Proof.
  revert i d. induction k as [|k IH]; intros i d; simpl; [exact I|]. halts_auto.
Qed.
#[export] Hint Resolve candidates_halts : sim.

Lemma getReplacementCandidates_halts a d : halts any (getReplacementCandidates a d).
Proof. unfold getReplacementCandidates. halts_auto. Qed.

Lemma replaceDirectoryEntry_halts ra a d : halts any (replaceDirectoryEntry ra a d).
Proof. unfold replaceDirectoryEntry, dir_setDirectoryEntry. halts_auto. Qed.

Lemma invalidate_from_halts l a d : halts any (invalidate_from l a d).
Proof. induction l as [|p l IH]; simpl; [discriminate|]. halts_auto. Qed.
#[export] Hint Resolve invalidate_from_halts : sim.

Lemma invalidateDirectoryEntry_halts a d : halts any (invalidateDirectoryEntry a d).
Proof. unfold invalidateDirectoryEntry. halts_auto. Qed.

Lemma getHome_halts ahl a : halts any (AddressHome.getHome ahl a).
Proof. unfold AddressHome.getHome. halts_auto. Qed.
#[export] Hint Resolve getReplacementCandidates_halts replaceDirectoryEntry_halts
  invalidateDirectoryEntry_halts getHome_halts : sim.

(** * The controller *)
Section controller.
Context {N : Type} `{NucaLaws N}.
Implicit Types s : Cntlr N.

(** The NUCA cache is well formed, and a request waits at its own address. *)
Definition nuca_ok (o : option N) : Prop :=
  match o with
  | Some n => nuca_wf n
  | None => True
  end.
Definition placed_requests (q : gmap Z (list ShmemReq)) : Prop :=
  map_Forall (fun a l => Forall (fun r => getAddress (getShmemMsg r) = a) l) q.
Definition good s : Prop :=
  nuca_ok (m_nuca_cache s) /\ placed_requests (m_dram_directory_req_queue_list s).

(** The requests queued at an address. *)
Definition qlen (a : Z) s : nat := length (default [] (m_dram_directory_req_queue_list s !! a)).

Lemma queue_size_qlen a s : queue_size a s = Z.of_nat (qlen a s).
Proof. unfold queue_size, ReqQueueList.size, qlen. by case_match. Qed.

(** States with the same queue lengths and a well-formed NUCA cache. *)
Definition same_queues s s' : Prop := good s' /\ forall a, qlen a s' = qlen a s.

Lemma lookup_entry_halts a s :
  good s -> halts (fun r => same_queues s r.2) (lookup_entry a s).
Proof.
  intros Hn. unfold lookup_entry. eapply (halts_bind any); [eauto with sim|].
  intros [p d] _. done.
Qed.

Lemma entry_halts p s : halts any (entry p s).
Proof. unfold entry. eauto with sim. Qed.

Lemma queue_front_halts a s : halts any (queue_front a s).
Proof. unfold queue_front, ReqQueueList.front. halts_auto. Qed.

Lemma set_front_qlen a r s b : qlen b (set_front a r s) = qlen b s.
Proof.
  unfold qlen, set_front, ReqQueueList.set_front, with_queues.
  cbn [m_dram_directory_req_queue_list].
  destruct (m_dram_directory_req_queue_list s !! a) as [[|x q]|] eqn:Hq; try done.
  destruct (decide (a = b)) as [<-|].
  - by rewrite lookup_insert_eq, Hq.
  - by rewrite lookup_insert_ne.
Qed.

(** Updating the request at the front in place. *)
Lemma set_front_good a r r' s :
  queue_front a s = Ok r -> getAddress (getShmemMsg r') = getAddress (getShmemMsg r) ->
  good s -> good (set_front a r' s).
Proof.
  intros Hf Ha [Hn Hp]. split; [done|]. unfold set_front, ReqQueueList.set_front.
  unfold queue_front, ReqQueueList.front in Hf. inv_ok. cbn [with_queues m_dram_directory_req_queue_list].
  rewrite Hv. destruct v as [|x q]; [done|]. injection Hk as ->.
  pose proof (Hp a _ Hv) as Hall. apply Forall_cons in Hall as [Hr Hq].
  apply map_Forall_insert_2; [|done]. apply Forall_cons. split; [congruence|done].
Qed.

Lemma enqueue_good a r s :
  getAddress (getShmemMsg r) = a -> good s ->
  good (with_queues (ReqQueueList.enqueue (m_dram_directory_req_queue_list s) a r) s).
Proof.
  intros Ha [Hn Hp]. split; [done|]. cbn [with_queues m_dram_directory_req_queue_list].
  unfold ReqQueueList.enqueue. apply map_Forall_insert_2; [|done].
  apply Forall_app. split; [|by apply Forall_singleton].
  destruct (m_dram_directory_req_queue_list s !! a) as [q|] eqn:Hq; [by apply (Hp a)|constructor].
Qed.

Lemma send_all_queues ty r a l s : good s -> same_queues s (send_all ty r a l s).
Proof.
  revert s. induction l as [|x l IH]; intros s Hn; simpl; [done|].
  apply (IH (sendMsg _ s)). done.
Qed.

Lemma upgrade_invalidate_queues i l r a b s :
  good s -> same_queues s (upgrade_invalidate i l r a b s).
Proof.
  revert i s. induction l as [|x l IH]; intros i s Hn; simpl; [done|].
  case_match; [by apply IH|]. apply (IH _ (sendMsg _ s)). done.
Qed.

Lemma sendDataToNUCA_halts a r d c s :
  good s -> halts (same_queues s) (sendDataToNUCA a r d c s).
Proof.
  intros Hn. unfold sendDataToNUCA. destruct (m_nuca_cache s) as [n|] eqn:Hc; [|done].
  destruct Hn as [Hn Hpl]. rewrite Hc in Hn. simpl in Hn.
  eapply halts_bind; [by apply nuca_write_halts|]. intros [out n'] Hn'.
  eapply (halts_bind any); [halts_auto|]. intros [[[|] ea] eb] _; [|by repeat split].
  eapply (halts_bind any); [eauto with sim|]. intros home _. by repeat split.
Qed.

Lemma sendDataToDram_halts a r d s :
  good s -> halts (same_queues s) (sendDataToDram a r d s).
Proof.
  intros Hn. unfold sendDataToDram. case_match; [by apply sendDataToNUCA_halts|].
  eapply (halts_bind any); [eauto with sim|]. intros home _.
  eapply (halts_bind any); [halts_auto|]. intros dat _. done.
Qed.

(** Operations on one entry. *)
Lemma add_sharer_halts p r s :
  good s -> halts (fun x => same_queues s x.2) (add_sharer p r s).
Proof.
  intros Hn. unfold add_sharer. eapply (halts_bind any); [apply entry_halts|]. intros e _.
  eapply (halts_bind any); [eauto with sim|]. intros [b e'] _. done.
Qed.

Lemma set_dstate_halts p st s : good s -> halts (same_queues s) (set_dstate p st s).
Proof. intros Hn. unfold set_dstate. eapply (halts_bind any); [apply entry_halts|]. done. Qed.

Lemma set_owner_halts p o s : good s -> halts (same_queues s) (set_owner p o s).
Proof.
  intros Hn. unfold set_owner. eapply (halts_bind any); [apply entry_halts|]. intros e _.
  eapply (halts_bind any); [eauto with sim|]. done.
Qed.

Lemma same_queues_trans s1 s2 s3 : same_queues s1 s2 -> same_queues s2 s3 -> same_queues s1 s3.
Proof. intros [_ H1] [Hn H2]. split; [done|]. intros a. by rewrite H2, H1. Qed.

Lemma grant_uncached_halts p r st s : good s -> halts (same_queues s) (grant_uncached p r st s).
Proof.
  intros Hn. unfold grant_uncached.
  eapply halts_bind; [by apply add_sharer_halts|]. intros [b s1] H1. cbn [snd] in H1.
  eapply (halts_bind any); [halts_auto|]. intros _ _.
  eapply halts_bind; [apply set_owner_halts; apply H1|]. intros s2 Hs2.
  eapply halts_mono; [apply set_dstate_halts; apply Hs2|]. intros s3 Hs3.
  eauto using same_queues_trans.
Qed.

(** What the handlers need of the call that ends a request, when at most [L]
    requests are queued at the address: it halts, and when it ends the last
    request of an address it leaves the other queues alone. *)
Definition next_halts (L : nat) (next : Z -> Cntlr N -> result (Cntlr N)) : Prop :=
  forall a s, good s -> (qlen a s <= L)%nat ->
    halts (fun s' => good s' /\
             (qlen a s = 1%nat -> forall b, b <> a -> qlen b s' = qlen b s)) (next a s).

Section over_next.
Context (L : nat) (next : Z -> Cntlr N -> result (Cntlr N)).
Hypothesis Hnext : next_halts L next.

Lemma next_ok a s : good s -> (qlen a s <= L)%nat -> halts good (next a s).
Proof using Hnext. intros Hn Hq. eapply halts_mono; [by apply Hnext|]. by intros s' [? _]. Qed.

Lemma retrieve_remote_halts r a e s : good s -> halts good (retrieve_remote r a e s).
Proof.
  intros Hn. unfold retrieve_remote. eapply (halts_bind any); [halts_auto|]. intros _ _.
  eapply (halts_bind_eq any); [apply queue_front_halts|]. intros req Hreq _.
  case_match.
  - by apply (set_front_good a req).
  - eapply (halts_bind any); [eauto with sim|]. intros home _. by apply (set_front_good a req).
Qed.

Lemma retrieve_halts ty r a b s :
  good s -> (qlen a s <= L)%nat -> halts good (retrieveDataAndSendToL2Cache next ty r a b s).
Proof using Hnext.
  intros Hn Hq. unfold retrieveDataAndSendToL2Cache.
  eapply halts_bind; [by apply lookup_entry_halts|]. intros [p s1] [Hn1 Hq1]. cbn [snd] in *.
  eapply (halts_bind any); [halts_auto|]. intros p' _.
  eapply (halts_bind any); [apply entry_halts|]. intros e _.
  destruct b as [d|].
  - apply next_ok; [done|]. change (qlen a s1 <= L)%nat. by rewrite Hq1.
  - destruct (m_nuca_cache s1) as [n|] eqn:Hc; [|by apply retrieve_remote_halts].
    destruct Hn1 as [Hn1 Hpl]. rewrite Hc in Hn1. simpl in Hn1.
    eapply halts_bind; [by apply nuca_read_halts|]. intros [[d|] n'] Hn';
      [|by apply retrieve_remote_halts].
    apply next_ok; [done|]. change (qlen a s1 <= L)%nat. by rewrite Hq1.
Qed.

Lemma invalidate_sharers_halts r a l s :
  good s -> halts (same_queues s) (invalidate_sharers r a l s).
Proof.
  intros Hn. unfold invalidate_sharers. case_match; [discriminate|]. by apply send_all_queues.
Qed.

(** A nullify request: alone in its queue, it disturbs no other. *)
Lemma processNullify_halts r s :
  good s -> (qlen (getAddress (getShmemMsg r)) s <= L)%nat ->
  halts (fun s' => good s' /\
    (qlen (getAddress (getShmemMsg r)) s = 1%nat ->
     forall b, b <> getAddress (getShmemMsg r) -> qlen b s' = qlen b s)) (processNullifyReq next r s).
Proof using Hnext.
  intros Hn Hq. unfold processNullifyReq.
  eapply halts_bind; [by apply lookup_entry_halts|]. intros [p s1] [Hn1 Hq1]. cbn [snd] in *.
  eapply (halts_bind any); [halts_auto|]. intros p' _.
  eapply (halts_bind any); [apply entry_halts|]. intros e _.
  assert (Hkeep : forall s2, same_queues s1 s2 -> good s2 /\
    (qlen (getAddress (getShmemMsg r)) s = 1%nat ->
     forall b, b <> getAddress (getShmemMsg r) -> qlen b s2 = qlen b s)).
  { intros s2 [Hn2 Hq2]. split; [done|]. intros _ b _. by rewrite Hq2. }
  destruct (Entry.m_dstate e); try discriminate; try by apply Hkeep.
  - eapply (halts_bind any); [eauto with sim|]. intros d _.
    eapply halts_mono; [apply Hnext; [done|]; by rewrite <- (Hq1 _) in Hq|].
    intros s2 [Hn2 Hq2]. split; [done|]. intros H1 b Hb.
    rewrite (Hq2 ltac:(by rewrite <- (Hq1 _) in H1) b Hb). apply Hq1.
  - eapply halts_mono; [by apply invalidate_sharers_halts|]. apply Hkeep.
Qed.

(** The candidate chosen has no request queued. *)
Lemma choose_candidate_halts l s : forall best,
  match best with
  | Some p => forall e, entry p s = Ok e -> qlen (Entry.m_address e) s = 0%nat
  | None => True
  end ->
  halts (fun r => forall p e, r = Some p -> entry p s = Ok e -> qlen (Entry.m_address e) s = 0%nat)
    (choose_candidate l best s).
Proof.
  induction l as [|p l IH]; intros best Hb; simpl.
  - intros q e -> He. by apply Hb.
  - eapply (halts_bind_eq any); [apply entry_halts|]. intros e He _.
    eapply (halts_bind any).
    { destruct best; [|done]. eapply (halts_bind any); [apply entry_halts|]. done. }
    intros better _. apply IH. destruct (better && (queue_size (Entry.m_address e) s =? 0)) eqn:Hc; [|done].
    intros e' He'. rewrite He in He'. injection He' as <-. zbool.
    rewrite queue_size_qlen in *. lia.
Qed.

Lemma enqueue_qlen a r s b :
  qlen b (with_queues (ReqQueueList.enqueue (m_dram_directory_req_queue_list s) a r) s) =
  (qlen b s + (if decide (b = a) then 1 else 0))%nat.
Proof.
  unfold qlen, with_queues, ReqQueueList.enqueue. cbn [m_dram_directory_req_queue_list].
  destruct (decide (b = a)) as [->|].
  - rewrite lookup_insert_eq. simpl. by rewrite length_app.
  - rewrite lookup_insert_ne by done. lia.
Qed.

Lemma create_req_halts m :
  halts (fun r => getAddress (getShmemMsg r) = getAddress m) (create_req m).
Proof. unfold create_req. eapply (halts_bind any); [halts_auto|]. done. Qed.

(** Allocating an entry for a queued request keeps the queue of its address. *)
Lemma allocation_halts r s :
  good s -> (1 <= qlen (getAddress (getShmemMsg r)) s <= L)%nat ->
  halts (fun x => good x.2 /\
    qlen (getAddress (getShmemMsg r)) x.2 = qlen (getAddress (getShmemMsg r)) s)
    (processDirectoryEntryAllocationReq next r s).
Proof using Hnext.
  intros Hn Hq. unfold processDirectoryEntryAllocationReq.
  eapply (halts_bind any); [eauto with sim|]. intros [cands d] _.
  eapply halts_bind; [by apply choose_candidate_halts|]. intros c Hc.
  eapply (halts_bind_eq any); [halts_auto|]. intros c' Hc' _. apply of_option_Ok_inv in Hc'.
  eapply (halts_bind_eq any); [apply entry_halts|]. intros e He _.
  assert (Hzero : qlen (Entry.m_address e) s = 0%nat) by (by apply (Hc c')).
  eapply (halts_bind any); [halts_auto|]. intros n _.
  eapply (halts_bind any); [eauto with sim|]. intros [p d'] _.
  eapply halts_bind; [apply create_req_halts|]. intros req Hreq. cbn [getAddress] in Hreq.
  eapply (halts_bind any); [halts_auto|]. intros _ _.
  set (s1 := with_queues _ _).
  assert (Hq1 : forall b, qlen b s1 = (qlen b s + (if decide (b = Entry.m_address e) then 1 else 0))%nat).
  { intros b. exact (enqueue_qlen (Entry.m_address e) req (with_dc d' (with_stats _ _ _ (with_dc d s))) b). }
  eapply halts_bind.
  { apply (processNullify_halts req s1); [by apply enqueue_good|]. rewrite Hreq, Hq1, Hzero, decide_True by done. lia. }
  intros s2 [Hn2 Hq2]. split; [done|]. cbn [snd].
  assert (Hne : getAddress (getShmemMsg r) <> Entry.m_address e) by (intros Heq; rewrite Heq in Hq; lia).
  rewrite Hq2, Hq1, decide_False; [lia|done| |congruence].
  rewrite Hreq, Hq1, Hzero, decide_True by done. lia.
Qed.

Lemma find_or_allocate_halts r s :
  good s -> (1 <= qlen (getAddress (getShmemMsg r)) s <= L)%nat ->
  halts (fun x => good x.2 /\ (qlen (getAddress (getShmemMsg r)) x.2 <= L)%nat)
    (find_or_allocate next r s).
Proof using Hnext.
  intros Hn Hq. unfold find_or_allocate.
  eapply halts_bind; [by apply lookup_entry_halts|]. intros [p s1] [Hn1 Hq1]. cbn [snd] in *.
  destruct p as [p|]; [split; [done|]; cbn [snd]; rewrite Hq1; lia|].
  eapply halts_mono; [apply allocation_halts; [done|by rewrite Hq1]|].
  intros [p s2] [Hn2 Hq2]. cbn [snd] in *. split; [done|]. rewrite Hq2, Hq1. lia.
Qed.

(** A process function applied to the request at the front of its queue. *)
Definition process_halts (process : ShmemReq -> option Data -> Cntlr N -> result (Cntlr N)) : Prop :=
  forall r b s, good s -> (1 <= qlen (getAddress (getShmemMsg r)) s <= L)%nat ->
    halts good (process r b s).

(** Granting the line and fetching the data. *)
Lemma grant_retrieve_halts p requester st ty a b s :
  good s -> (qlen a s <= L)%nat ->
  halts good
    (let! s := grant_uncached p requester st s in
     retrieveDataAndSendToL2Cache next ty requester a b s).
Proof using Hnext.
  intros Hn Hq. eapply halts_bind; [by apply grant_uncached_halts|]. intros s1 [Hn1 Hq1].
  apply retrieve_halts; [done|]. by rewrite Hq1.
Qed.

Lemma processEx_halts : process_halts (processExReqFromL2Cache next).
Proof using Hnext.
  intros r b s Hn Hq. unfold processExReqFromL2Cache.
  eapply halts_bind; [by apply find_or_allocate_halts|]. intros [p s1] [Hn1 Hq1]. cbn [snd] in *.
  eapply (halts_bind any); [apply entry_halts|]. intros e _.
  destruct (Entry.m_dstate e); try discriminate.
  - by apply grant_retrieve_halts.
  - eapply (halts_bind any); [halts_auto|]. intros _ _.
    eapply halts_mono; [by apply invalidate_sharers_halts|]. by intros s2 [? _].
  - eapply (halts_bind any); [halts_auto|]. done.
  - eapply (halts_bind any); [halts_auto|]. done.
Qed.

Lemma share_shared_halts p r a b s :
  good s -> (qlen a s <= L)%nat -> halts good (share_shared next p r a b s).
Proof using Hnext.
  intros Hn Hq. unfold share_shared. eapply (halts_bind any); [apply entry_halts|]. intros e _.
  eapply (halts_bind any); [eauto with sim|]. intros [|] _; [by apply retrieve_halts|].
  eapply halts_bind; [by apply add_sharer_halts|]. intros [add s1] [Hn1 Hq1]. cbn [snd] in *.
  destruct add; cbn [negb]; [apply retrieve_halts; [done|by rewrite Hq1]|].
  eapply (halts_bind any); [apply entry_halts|]. intros e1 _.
  eapply (halts_bind any); [eauto with sim|]. intros [x e2] _. done.
Qed.

Lemma processSh_halts : process_halts (processShReqFromL2Cache next).
Proof using Hnext.
  intros r b s Hn Hq. unfold processShReqFromL2Cache.
  eapply halts_bind; [by apply find_or_allocate_halts|]. intros [p s1] [Hn1 Hq1]. cbn [snd] in *.
  eapply (halts_bind any); [apply entry_halts|]. intros e _.
  destruct (Entry.m_dstate e); try discriminate.
  - case_match; by apply grant_retrieve_halts.
  - by apply share_shared_halts.
  - eapply (halts_bind any); [halts_auto|]. done.
  - eapply (halts_bind any); [halts_auto|]. intros _ _. eapply (halts_bind any); [halts_auto|]. done.
Qed.

Lemma processUpgrade_halts : process_halts (processUpgradeReqFromL2Cache next).
Proof using Hnext.
  intros r b s Hn Hq. unfold processUpgradeReqFromL2Cache.
  eapply halts_bind; [by apply find_or_allocate_halts|]. intros [p s1] [Hn1 Hq1]. cbn [snd] in *.
  eapply (halts_bind any); [apply entry_halts|]. intros e _.
  assert (Howner : forall a : Z, a = getAddress (getShmemMsg r) -> halts good
    (let! first := aget (Entry.getSharersList e).2 0 in
     if first =? getRequester (getShmemMsg r) then
       guard! Entry.m_owner_id e =? getRequester (getShmemMsg r) else AssertFailed in
       let! s := set_dstate p MODIFIED
         (sendMsg (upgrade_rep (getRequester (getShmemMsg r)) a) s1) in next a s
     else Ok (sendMsg (mkPacket FLUSH_REQ L2_CACHE (getRequester (getShmemMsg r))
                         (Entry.m_owner_id e) a None W_UNKNOWN) s1))).
  { intros a ->. eapply (halts_bind any); [halts_auto|]. intros first _. case_match; [|done].
    eapply (halts_bind any); [halts_auto|]. intros _ _.
    eapply halts_bind; [by apply set_dstate_halts|]. intros s2 [Hn2 Hq2].
    apply next_ok; [done|]. rewrite Hq2. done. }
  destruct (Entry.m_dstate e); try discriminate; try by apply Howner.
  - eapply (halts_bind any); [halts_auto|]. intros _ _. by apply grant_retrieve_halts.
  - case_match.
    + eapply halts_bind; [by apply set_owner_halts|]. intros s2 [Hn2 Hq2].
      eapply halts_bind; [by apply set_dstate_halts|]. intros s3 [Hn3 Hq3].
      apply next_ok; [done|]. change (qlen (getAddress (getShmemMsg r)) s3 <= L)%nat.
      by rewrite Hq3, Hq2.
    + eapply (halts_bind any); [eauto with sim|]. intros has _.
      case_match; [discriminate|]. by apply upgrade_invalidate_queues.
Qed.
End over_next.

(** ** The recursion *)
Lemma processNext_halts fuel : next_halts fuel (processNextReqFromL2Cache (S fuel)).
Proof.
  induction fuel as [|fuel IH]; intros a s Hn Hq.
  - cbn [processNextReqFromL2Cache]. rewrite queue_size_qlen.
    replace (1 <=? Z.of_nat (qlen a s)) with false by (symmetry; apply Z.leb_gt; lia). discriminate.
  - remember (S fuel) as f eqn:Hf. cbn [processNextReqFromL2Cache].
    rewrite queue_size_qlen. destruct (Z.leb_spec 1 (Z.of_nat (qlen a s))) as [Hg|]; [|discriminate].
    cbn [rguard rbind]. unfold ReqQueueList.dequeue. destruct Hn as [Hn Hp].
    unfold qlen in Hq, Hg |- *.
    destruct (m_dram_directory_req_queue_list s !! a) as [q|] eqn:Ha; simpl in Hg, Hq; [|lia].
    pose proof (Hp a q Ha) as Hall.
    cbn [of_option rbind]. destruct q as [|x [|y q]]; [simpl in Hg; lia| |]; cbn [rbind].
    + unfold ReqQueueList.empty. cbn [with_queues m_dram_directory_req_queue_list].
      rewrite lookup_delete_eq. cbn [negb]. split.
      * split; [done|]. by apply map_Forall_delete.
      * intros _ b Hb. cbn [with_queues m_dram_directory_req_queue_list].
        by rewrite lookup_delete_ne.
    + unfold ReqQueueList.empty. cbn [with_queues m_dram_directory_req_queue_list].
      rewrite lookup_insert_eq. cbn [negb]. unfold queue_front, ReqQueueList.front.
      cbn [with_queues m_dram_directory_req_queue_list]. rewrite lookup_insert_eq.
      cbn [of_option rbind head].
      set (s1 := with_queues _ s).
      apply Forall_cons in Hall as [_ Hall]. pose proof Hall as Hall'.
      apply Forall_cons in Hall' as [Hy _].
      assert (Hgood : good s1) by (split; [done|]; by apply map_Forall_insert_2).
      assert (Hq1 : (1 <= qlen (getAddress (getShmemMsg y)) s1 <= fuel)%nat).
      { rewrite Hy. unfold qlen, s1. cbn [with_queues m_dram_directory_req_queue_list].
        rewrite lookup_insert_eq. simpl in Hq |- *. lia. }
      cbn [from_option length]. 
      case_match; try discriminate.
      all: eapply halts_mono;
        [first [by apply (processEx_halts fuel)|by apply (processSh_halts fuel)
               |by apply (processUpgrade_halts fuel)]|].
      all: intros s2 Hs2; (split; [done|]); intros Hlen; simpl in Hlen; discriminate.
Qed.

(** ** The handlers *)
Lemma enough_halts a s : next_halts (S (qlen a s)) (processNextReqFromL2Cache (enough a s)).
Proof. apply processNext_halts. Qed.

Lemma front_address a s r : good s -> queue_front a s = Ok r -> getAddress (getShmemMsg r) = a /\ (1 <= qlen a s)%nat.
Proof.
  intros [_ Hp] Hf. unfold queue_front, ReqQueueList.front in Hf. inv_ok.
  pose proof (Hp a _ Hv) as Hall. unfold qlen. rewrite Hv. destruct v as [|x q]; [done|].
  injection Hk as ->. apply Forall_cons in Hall as [Hr _]. split; [done|]. simpl. lia.
Qed.

(** A process function started on the front request by a handler. *)
Lemma start_halts process a s r b s1 :
  good s -> queue_front a s = Ok r -> same_queues s s1 ->
  (forall L next, next_halts L next -> process_halts L (process next)) ->
  halts good (process (processNextReqFromL2Cache (enough a s)) r b s1).
Proof.
  intros Hg Hf [Hg1 Hq1] Hp. destruct (front_address a s r Hg Hf) as [Ha Hlen].
  apply (Hp (S (qlen a s))); [apply enough_halts|done|]. rewrite Ha, Hq1. lia.
Qed.

Lemma same_queues_refl s : good s -> same_queues s s.
Proof. done. Qed.

Lemma start_nullify_halts a s r s1 :
  good s -> queue_front a s = Ok r -> same_queues s s1 ->
  halts good (processNullifyReq (processNextReqFromL2Cache (enough a s)) r s1).
Proof.
  intros Hg Hf [Hg1 Hq1]. destruct (front_address a s r Hg Hf) as [Ha Hlen].
  eapply halts_mono;
    [apply (processNullify_halts (S (qlen a s))); [apply enough_halts|done|]|by intros s2 [? _]].
  rewrite Ha, Hq1. lia.
Qed.

Lemma after_inv_rep_halts sender a p s : good s -> halts good (after_inv_rep sender a p s).
Proof.
  intros Hg. unfold after_inv_rep.
  eapply (halts_bind_eq any); [apply queue_front_halts|]. intros r Hr _.
  eapply (halts_bind any); [apply entry_halts|]. intros e _.
  assert (Hnull : halts good (if bool_decide (Entry.m_dstate e = UNCACHED)
    then processNullifyReq (processNextReqFromL2Cache (enough a s)) r s else Ok s)).
  { case_match; [by apply start_nullify_halts|done]. }
  destruct (getMsgType (getShmemMsg r)); try exact Hnull; clear Hnull.
  - case_match; [apply start_halts; auto using processEx_halts, same_queues_refl|done].
  - case_match; [done|]. case_match; [done|].
    apply start_halts; auto using processSh_halts, same_queues_refl.
  - case_match; [|case_match; [|done]].
    + eapply (halts_bind any); [eauto with sim|]. intros [|] _; [|done].
      apply start_halts; auto using processUpgrade_halts, same_queues_refl.
    + eapply halts_bind; [by apply set_dstate_halts|]. intros s1 Hs1.
      apply start_halts; auto using processUpgrade_halts.
Qed.

Lemma processInvRep_halts sender m s : good s -> halts good (processInvRepFromL2Cache sender m s).
Proof.
  intros Hg. unfold processInvRepFromL2Cache.
  eapply halts_bind; [by apply lookup_entry_halts|]. intros [p s1] [Hg1 _]. cbn [snd] in *.
  eapply (halts_bind any); [halts_auto|]. intros p' _.
  eapply (halts_bind any); [apply entry_halts|]. intros e _.
  eapply (halts_bind any); [halts_auto|]. intros _ _.
  eapply (halts_bind any); [eauto with sim|]. intros e' _.
  case_match; [by apply after_inv_rep_halts|done].
Qed.

Lemma after_flush_rep_halts a p m s : good s -> halts good (after_flush_rep a p m s).
Proof.
  intros Hg. unfold after_flush_rep.
  eapply (halts_bind_eq any); [apply queue_front_halts|]. intros r Hr _.
  eapply (halts_bind any); [apply entry_halts|]. intros e _.
  case_match; try (eapply halts_bind; [by apply sendDataToDram_halts|]; intros s1 Hs1;
                   by apply start_nullify_halts).
  - apply start_halts; auto using processEx_halts, same_queues_refl.
  - eapply halts_bind; [by apply sendDataToDram_halts|]. intros s1 Hs1.
    apply start_halts; auto using processSh_halts.
  - case_match; [|by apply (set_front_good a r)].
    eapply halts_bind; [by apply set_dstate_halts|]. intros s1 Hs1.
    apply start_halts; auto using processUpgrade_halts.
Qed.

Lemma processFlushRep_halts sender m s : good s -> halts good (processFlushRepFromL2Cache sender m s).
Proof.
  intros Hg. unfold processFlushRepFromL2Cache.
  eapply halts_bind; [by apply lookup_entry_halts|]. intros [p s1] [Hg1 _]. cbn [snd] in *.
  eapply (halts_bind any); [halts_auto|]. intros p' _.
  eapply (halts_bind any); [apply entry_halts|]. intros e _.
  eapply (halts_bind any); [eauto with sim|]. intros has _.
  eapply (halts_bind any); [halts_auto|]. intros _ _.
  eapply (halts_bind any); [eauto with sim|]. intros e1 _.
  eapply (halts_bind any); [eauto with sim|]. intros e2 _.
  eapply (halts_bind any); [halts_auto|]. intros e3 _.
  case_match; [by apply after_flush_rep_halts|].
  eapply halts_mono; [by apply sendDataToDram_halts|]. by intros s2 [? _].
Qed.

Lemma processWbRep_halts sender m s : good s -> halts good (processWbRepFromL2Cache sender m s).
Proof.
  intros Hg. unfold processWbRepFromL2Cache.
  eapply halts_bind; [by apply lookup_entry_halts|]. intros [p s1] [Hg1 _]. cbn [snd] in *.
  eapply (halts_bind any); [halts_auto|]. intros p' _.
  eapply (halts_bind any); [apply entry_halts|]. intros e _.
  eapply (halts_bind any); [eauto with sim|]. intros has _.
  eapply (halts_bind any); [halts_auto|]. intros _ _.
  eapply (halts_bind any); [eauto with sim|]. intros e1 _.
  case_match; [|discriminate].
  eapply (halts_bind_eq any); [apply queue_front_halts|]. intros r Hr _.
  eapply (halts_bind any); [halts_auto|]. intros _ _.
  apply start_halts; auto using processSh_halts, same_queues_refl.
Qed.

Lemma enqueue_request_halts process m s :
  (forall L next, next_halts L next -> process_halts L (process next)) ->
  good s -> halts good (enqueue_request process m s).
Proof.
  intros Hp Hg. unfold enqueue_request.
  eapply halts_bind; [apply create_req_halts|]. intros r Hr.
  pose proof (enqueue_good (getAddress m) r s Hr Hg) as Hg1.
  set (s1 := with_queues _ s) in *. case_match; [|done].
  apply (Hp (S (qlen (getAddress m) s1))); [apply enough_halts|done|].
  rewrite Hr. unfold s1. rewrite enqueue_qlen, decide_True by done. lia.
Qed.

Lemma handleMsgFromL2Cache_halts sender m s : good s -> halts good (handleMsgFromL2Cache sender m s).
Proof.
  intros Hg. unfold handleMsgFromL2Cache.
  eapply halts_bind; [by apply lookup_entry_halts|]. intros [p s1] [Hg1 _]. cbn [snd] in *.
  case_match; try discriminate.
  - apply enqueue_request_halts; auto using processEx_halts.
  - apply enqueue_request_halts; auto using processSh_halts.
  - apply enqueue_request_halts; auto using processUpgrade_halts.
  - by apply processInvRep_halts.
  - by apply processFlushRep_halts.
  - by apply processWbRep_halts.
Qed.

Lemma processDRAMReply_halts sender m s : good s -> halts good (processDRAMReply sender m s).
Proof.
  intros Hg. unfold processDRAMReply.
  eapply (halts_bind any); [halts_auto|]. intros _ _.
  eapply (halts_bind any); [apply queue_front_halts|]. intros r _.
  eapply halts_bind; [by apply lookup_entry_halts|]. intros [p s1] [Hg1 _]. cbn [snd] in *.
  eapply (halts_bind any); [halts_auto|]. intros p' _.
  eapply (halts_bind any); [apply entry_halts|]. intros e _.
  eapply (halts_bind any); [unfold dram_reply_type; halts_auto|]. intros ty _.
  eapply (halts_bind any); [halts_auto|]. intros data _.
  eapply halts_bind; [by apply sendDataToNUCA_halts|]. intros s2 [Hg2 _].
  eapply (next_ok (S (qlen (getAddress m) s2))); [apply enough_halts|done|lia].
Qed.

Lemma handleMsgFromDRAM_halts sender m s : good s -> halts good (handleMsgFromDRAM sender m s).
Proof.
  intros Hg. unfold handleMsgFromDRAM. case_match; try discriminate.
  by apply processDRAMReply_halts.
Qed.
End controller.
