(* ===== verification/DirectoryFlow.v ===== *)
(** A request followed to its end: an exclusive request for a shared line is
    answered once the sharers have replied to their invalidations, in whatever
    order they reply, and DRAM has delivered the data. *)
From stdpp Require Import base numbers list gmap strings relations.
From Stdlib Require Import ZArith Lia Bool.
From S2P Require Import Prelude Utils Queues Directory DirectoryCntlr DirectoryInv DirectoryTerm.
Open Scope Z_scope.

(** * An address the directory has an entry for *)

(** Searching the set from way [i] on ends at the entry [p]; the ways before it
    are allocated and have other addresses. *)
Fixpoint found_at (k : nat) (i set_index a : Z) (d : DramDirectoryCache) (p : nat) : Prop :=
  match k with
  | O => False
  | S k' =>
      exists q e,
        entry_num set_index i d < m_num_entries (m_directory d) /\
        m_directory_entry_list (m_directory d) !! Z.to_nat (entry_num set_index i d) = Some (Some q) /\
        store d !! q = Some e /\
        if Entry.m_address e =? a then q = p else found_at k' (i + 1) set_index a d p
  end.

(** The entry [p] of address [a] holds [e]. *)
Definition tracks (d : DramDirectoryCache) (a : Z) (p : nat) (e : Entry.t) : Prop :=
  found_at (Z.to_nat (m_associativity d)) 0 (dc_splitAddress a d).2 a d p /\
  store d !! p = Some e /\ Entry.m_address e = a.

Lemma found_at_find k i st a d p :
  found_at k i st a d p -> exists j, find_in_set k i st a d = Ok (Some (p, j), d).
Proof.
  revert i. induction k as [|k IH]; intros i; [done|]. simpl.
  intros (q & e & Hlt & Hs & He & Hrest). unfold dir_getDirectoryEntry.
  rewrite (proj2 (Z.ltb_lt _ _) Hlt). cbn [rguard rbind]. rewrite (aget_Ok _ _ _ Hs). cbn [rbind].
  unfold deref. rewrite He. cbn [of_option rbind]. destruct (_ =? a); [subst; eauto|by apply IH].
Qed.

Lemma found_at_put k i st a d p e e' :
  store d !! p = Some e -> Entry.m_address e = a -> Entry.m_address e' = a ->
  found_at k i st a d p -> found_at k i st a (put_entry d p e') p.
Proof.
  intros He Ha Ha'. revert i. induction k as [|k IH]; intros i; [done|]. simpl.
  intros (q & x & Hlt & Hs & Hx & Hrest). exists q.
  destruct (decide (q = p)) as [->|Hne].
  - exists e'. rewrite lookup_insert_eq, Ha', Z.eqb_refl. done.
  - exists x. rewrite lookup_insert_ne by done. split; [done|]. split; [done|]. split; [done|].
    destruct (_ =? a); [done|by apply IH].
Qed.

Lemma tracks_put d a p e e' :
  tracks d a p e -> Entry.m_address e' = a -> tracks (put_entry d p e') a p e'.
Proof.
  intros (Hf & He & Ha) Ha'. split; [|split; [apply lookup_insert_eq|done]]. by eapply found_at_put.
Qed.

Lemma tracks_get d a p e : tracks d a p e -> getDirectoryEntry a d = Ok (Some p, d).
Proof.
  intros (Hf & _). apply found_at_find in Hf as (j & Hj). unfold getDirectoryEntry.
  destruct (dc_splitAddress a d) as [tag st]. cbn [snd] in Hj. by rewrite Hj.
Qed.

(** * Sharers as lists *)
Lemma sharers_from_lb j l x : x ∈ Entry.sharers_from j l -> j <= x.
Proof. intros (i & _ & ->)%sharers_from_elem. lia. Qed.

Lemma sharers_from_NoDup j l : NoDup (Entry.sharers_from j l).
Proof.
  revert j. induction l as [|b l IH]; intros j; simpl; [constructor|].
  destruct b; [|apply IH]. constructor; [|apply IH]. intros Hj%sharers_from_lb. lia.
Qed.

Lemma num_sharers_list e : Entry.getNumSharers e = Z.of_nat (length (Entry.getSharersList e).2).
Proof. unfold Entry.getNumSharers, Entry.getSharersList. cbn [snd]. by rewrite sharers_from_length. Qed.

(** Removing a sharer, on the list. *)
Lemma removeSharer_list x l e :
  (Entry.getSharersList e).2 ≡ₚ x :: l ->
  exists e', Entry.removeSharer x false e = Ok e' /\ (Entry.getSharersList e').2 ≡ₚ l /\
    Entry.m_address e' = Entry.m_address e /\ Entry.m_dstate e' = Entry.m_dstate e /\
    length (Entry.m_sharers e') = length (Entry.m_sharers e) /\ Entry.kind e' = Entry.kind e.
Proof.
  intros Hp. assert (Hx : Entry.hasSharer x e = Ok true).
  { apply sharers_list_has. rewrite Hp. left. }
  assert (Hnd : NoDup (x :: l)) by (rewrite <- Hp; apply sharers_from_NoDup).
  apply NoDup_cons in Hnd as [Hxl Hnd].
  pose proof Hx as [Hx0 Hb]%hasSharer_Ok.
  assert (Hrem : exists e', Entry.removeSharer x false e = Ok e' /\
    length (Entry.m_sharers e') = length (Entry.m_sharers e) /\ Entry.kind e' = Entry.kind e).
  { unfold Entry.removeSharer. cbn [negb rguard rbind]. rewrite Hx. cbn [rbind rguard].
    rewrite aset_Ok by (by eapply lookup_lt_Some). eexists. split; [done|].
    split; [simpl; apply length_insert|done]. }
  destruct Hrem as (e' & Hrem & Hlen & Hk). exists e'. split; [done|].
  destruct (removeSharer_inv _ _ _ _ Hrem) as (_ & Hgone & Hst & _ & Ha & _ & Hkeep).
  split_and!; try done. apply NoDup_Permutation; [apply sharers_from_NoDup|done|].
  intros y. rewrite sharers_list_has. destruct (decide (y = x)) as [->|Hne].
  - rewrite Hgone. split; [done|]. by intros.
  - rewrite Hkeep, <- sharers_list_has, Hp, elem_of_cons by done. naive_solver.
Qed.

(** Adding the first sharer. *)
Lemma addSharer_first r mx e :
  (Entry.getSharersList e).2 = [] -> 0 <= r < Z.of_nat (length (Entry.m_sharers e)) -> 0 < mx ->
  exists e', Entry.addSharer r mx e = Ok (true, e') /\ (Entry.getSharersList e').2 = [r] /\
    Entry.m_address e' = Entry.m_address e /\ Entry.hasSharer r e' = Ok true.
Proof.
  intros Hnil Hr Hmx.
  assert (Hno : Entry.hasSharer r e = Ok false).
  { destruct (lookup_lt_is_Some_2 (Entry.m_sharers e) (Z.to_nat r)) as [b Hb]; [lia|].
    assert (Hh : Entry.hasSharer r e = Ok b) by (apply hasSharer_Ok; split; [lia|done]).
    destruct b; [|done]. apply sharers_list_has in Hh. rewrite Hnil in Hh. by apply not_elem_of_nil in Hh. }
  assert (Hadd : exists e', Entry.addSharer r mx e = Ok (true, e') /\
                            forall x, x <> r -> Entry.hasSharer x e' = Entry.hasSharer x e).
  { unfold Entry.addSharer. rewrite Hno. cbn [rbind negb rguard].
    rewrite !aset_Ok by lia. cbn [rbind].
    assert (Hoth : forall k x, x <> r ->
      Entry.hasSharer x (Entry.set_sharers (<[Z.to_nat r := true]> (Entry.m_sharers e)) k e) =
      Entry.hasSharer x e).
    { intros k x Hx. unfold Entry.hasSharer. destruct (Z.leb_spec 0 x); [|done]. simpl.
      unfold aget. rewrite list_lookup_insert_ne; [done|]. lia. }
    destruct (Entry.kind e); [|eauto].
    destruct (Z.leb_spec mx (Entry.getNumSharers e)) as [Hle|_]; [|eauto].
    rewrite num_sharers_list, Hnil in Hle. simpl in Hle. lia. }
  destruct Hadd as (e' & Hadd & Hoth). exists e'. split; [done|].
  destruct (addSharer_inv _ _ _ _ _ Hadd) as (_ & Ha & _ & Hyes). destruct (Hyes eq_refl) as (_ & Hh & _).
  split_and!; try done. apply Permutation_singleton_r. apply NoDup_Permutation;
    [apply sharers_from_NoDup|apply NoDup_singleton|].
  intros y. rewrite sharers_list_has, list_elem_of_singleton. destruct (decide (y = r)) as [->|Hne].
  - by rewrite Hh.
  - rewrite Hoth, <- sharers_list_has, Hnil by done. split; [by intros ?%not_elem_of_nil|done].
Qed.

(** * An exclusive request for a shared line *)
Section flow.
Context {N : Type} `{NucaCache N}.
Implicit Types s : Cntlr N.

Lemma tracks_lookup s a p e :
  tracks (m_dram_directory_cache s) a p e -> lookup_entry a s = Ok (Some p, s).
Proof. intros Ht. unfold lookup_entry. rewrite (tracks_get _ _ _ _ Ht). by destruct s. Qed.

Lemma tracks_entry s a p e : tracks (m_dram_directory_cache s) a p e -> entry p s = Ok e.
Proof. intros (_ & He & _). unfold entry, deref. by rewrite He. Qed.

Lemma send_all_sent ty r a l s :
  sent (send_all ty r a l s) =
  sent s ++ map (fun x => mkPacket ty L2_CACHE r x a None W_UNKNOWN) l.
Proof.
  revert s. induction l as [|x l IH]; intros s; simpl; [by rewrite app_nil_r|].
  rewrite IH. simpl. by rewrite <- app_assoc.
Qed.

Lemma send_all_rest ty r a l s :
  m_dram_directory_cache (send_all ty r a l s) = m_dram_directory_cache s /\
  m_dram_directory_req_queue_list (send_all ty r a l s) = m_dram_directory_req_queue_list s /\
  m_nuca_cache (send_all ty r a l s) = m_nuca_cache s /\
  m_dram_controller_home_lookup (send_all ty r a l s) = m_dram_controller_home_lookup s.
Proof. revert s. induction l as [|x l IH]; intros s; [done|]. apply (IH (sendMsg _ s)). Qed.

(** The state while core [r] waits for the sharers [l] of [a] to reply; [home]
    is the node whose DRAM holds the line. *)
Record awaits (a : Z) (p : nat) (r home : Z) (req : ShmemReq) (l : list Z) s : Prop := mkAwaits {
  aw_entry : exists e, tracks (m_dram_directory_cache s) a p e /\ Entry.m_dstate e = SHARED /\
    (Entry.getSharersList e).2 ≡ₚ l /\ 0 <= r < Z.of_nat (length (Entry.m_sharers e));
  aw_queue : m_dram_directory_req_queue_list s !! a = Some [req];
  aw_req : getMsgType (getShmemMsg req) = EX_REQ /\ getRequester (getShmemMsg req) = r /\
    getAddress (getShmemMsg req) = a;
  aw_nuca : m_nuca_cache s = None;
  aw_home : AddressHome.getHome (m_dram_controller_home_lookup s) a = Ok home;
  aw_room : 0 < getMaxHwSharers (m_dram_directory_cache s)
}.

(** The state once the requester owns the line and waits for its data. *)
Record granted (a : Z) (p : nat) (r : Z) s : Prop := mkGranted {
  gr_entry : exists e, tracks (m_dram_directory_cache s) a p e /\ Entry.m_dstate e = MODIFIED /\
    Entry.m_owner_id e = r /\ Entry.getSharersList e = (false, [r]);
  gr_queue : exists req, m_dram_directory_req_queue_list s !! a = Some [req] /\
    getMsgType (getShmemMsg req) = EX_REQ /\ getRequester (getShmemMsg req) = r;
  gr_nuca : m_nuca_cache s = None
}.

Lemma queue_one a req s :
  m_dram_directory_req_queue_list s !! a = Some [req] ->
  queue_size a s = 1 /\ queue_front a s = Ok req.
Proof.
  intros Hq. unfold queue_size, queue_front, ReqQueueList.size, ReqQueueList.front. by rewrite Hq.
Qed.

(** A line nobody holds is granted, and its data requested from DRAM. *)
Lemma grant_from_dram next a p r home req e s :
  tracks (m_dram_directory_cache s) a p e -> Entry.m_dstate e = UNCACHED ->
  (Entry.getSharersList e).2 = [] -> 0 <= r < Z.of_nat (length (Entry.m_sharers e)) ->
  m_dram_directory_req_queue_list s !! a = Some [req] ->
  getMsgType (getShmemMsg req) = EX_REQ -> getRequester (getShmemMsg req) = r ->
  getAddress (getShmemMsg req) = a -> m_nuca_cache s = None ->
  AddressHome.getHome (m_dram_controller_home_lookup s) a = Ok home ->
  0 < getMaxHwSharers (m_dram_directory_cache s) ->
  exists s', processExReqFromL2Cache next req None s = Ok s' /\ granted a p r s' /\
    sent s' = sent s ++ [mkPacket DRAM_READ_REQ DRAM r home a None W_UNKNOWN].
Proof.
  intros Ht Hst Hnil Hr Hq Hty Hrq Had Hnu Hh Hmx. unfold processExReqFromL2Cache, find_or_allocate.
  rewrite Had, Hrq, (tracks_lookup s a p e Ht). cbn [rbind]. rewrite (tracks_entry s a p e Ht).
  cbn [rbind]. rewrite Hst. unfold grant_uncached, add_sharer. rewrite (tracks_entry s a p e Ht).
  cbn [rbind]. destruct (addSharer_first r _ e Hnil Hr Hmx) as (e1 & -> & Hl1 & Ha1 & Hh1).
  cbn [rbind rguard]. pose proof Ht as (_ & _ & Ha).
  pose proof (tracks_put _ _ _ _ e1 Ht ltac:(congruence)) as Ht1.
  unfold set_owner. set (s1 := set_entry p e1 s). change (tracks (m_dram_directory_cache s1) a p e1) in Ht1.
  rewrite (tracks_entry s1 a p e1 Ht1). cbn [rbind].
  assert (Ho : exists e2, Entry.setOwner r e1 = Ok e2 /\ Entry.m_owner_id e2 = r /\
    Entry.m_sharers e2 = Entry.m_sharers e1 /\ Entry.m_address e2 = Entry.m_address e1).
  { unfold Entry.setOwner. rewrite Hh1. destruct (negb _); cbn [rbind rguard]; eauto. }
  destruct Ho as (e2 & -> & Hown & Hsh2 & Ha2). cbn [rbind].
  pose proof (tracks_put _ _ _ _ e2 Ht1 ltac:(congruence)) as Ht2.
  unfold set_dstate. set (s2 := set_entry p e2 s1). change (tracks (m_dram_directory_cache s2) a p e2) in Ht2.
  rewrite (tracks_entry s2 a p e2 Ht2). cbn [rbind].
  set (e3 := Entry.setDState MODIFIED e2). pose proof (tracks_put _ _ _ _ e3 Ht2 ltac:(simpl; congruence)) as Ht3.
  set (s3 := set_entry p e3 s2). change (tracks (m_dram_directory_cache s3) a p e3) in Ht3.
  unfold retrieveDataAndSendToL2Cache. rewrite (tracks_lookup s3 a p e3 Ht3). cbn [rbind of_option].
  rewrite (tracks_entry s3 a p e3 Ht3). cbn [rbind]. change (m_nuca_cache s3) with (m_nuca_cache s).
  rewrite Hnu. unfold retrieve_remote.
  assert (Hq3 : m_dram_directory_req_queue_list s3 !! a = Some [req]) by done.
  destruct (queue_one _ _ _ Hq3) as [-> ->]. cbn [Z.ltb Z.compare rguard rbind].
  rewrite (bool_decide_eq_false_2 (Entry.m_dstate e3 = SHARED)) by done.
  rewrite andb_false_r. cbn [andb].
  change (m_dram_controller_home_lookup (set_front _ _ s3)) with (m_dram_controller_home_lookup s).
  rewrite Hh. cbn [rbind]. eexists. split; [done|]. split; [|done]. split; [|  |done].
  - exists e3. split; [done|]. split; [done|]. split; [done|].
    unfold Entry.getSharersList in *. cbn [snd] in Hl1. unfold e3. simpl. by rewrite Hsh2, Hl1.
  - exists (setWaitForData true req). cbn [sendMsg set_front with_queues m_dram_directory_req_queue_list].
    unfold ReqQueueList.set_front. rewrite Hq3, lookup_insert_eq. done.
Qed.

(** The messages of the exchange. *)
Definition ex_req (r a : Z) : ShmemMsg := mkMsg EX_REQ r a None W_UNKNOWN.
Definition inv_rep (r a : Z) : ShmemMsg := mkMsg INV_REP r a None W_UNKNOWN.
Definition dram_rep (r a : Z) (d : Data) : ShmemMsg := mkMsg DRAM_READ_REP r a (Some d) W_DRAM.

(** The request: every sharer is asked to invalidate its copy. *)
Lemma ex_req_starts a p e r home s :
  tracks (m_dram_directory_cache s) a p e -> Entry.m_dstate e = SHARED ->
  0 <= r < Z.of_nat (length (Entry.m_sharers e)) ->
  m_dram_directory_req_queue_list s !! a = None -> m_nuca_cache s = None ->
  AddressHome.getHome (m_dram_controller_home_lookup s) a = Ok home ->
  0 < getMaxHwSharers (m_dram_directory_cache s) ->
  exists s' req, handleMsgFromL2Cache r (ex_req r a) s = Ok s' /\
    awaits a p r home req (Entry.getSharersList e).2 s' /\
    sent s' = sent s ++
      map (fun x => mkPacket INV_REQ L2_CACHE r x a None W_UNKNOWN) (Entry.getSharersList e).2.
Proof.
  intros Ht Hst Hr Hq Hnu Hh Hmx. unfold handleMsgFromL2Cache.
  cbn [ex_req getAddress getMsgType]. rewrite (tracks_lookup s a p e Ht). cbn [rbind].
  unfold enqueue_request. cbn [create_req ex_req getDataBuf]. unfold create_req.
  rewrite bool_decide_eq_true_2 by done. cbn [rguard rbind ex_req getAddress].
  set (req := mkReq _ _ _). set (s1 := with_queues _ s).
  assert (Hq1 : m_dram_directory_req_queue_list s1 !! a = Some [req]).
  { unfold s1. cbn [with_queues m_dram_directory_req_queue_list]. unfold ReqQueueList.enqueue.
    by rewrite Hq, lookup_insert_eq. }
  destruct (queue_one _ _ _ Hq1) as [-> _]. cbn [Z.eqb Pos.eqb].
  unfold processExReqFromL2Cache, find_or_allocate. unfold req. cbn [ex_req getShmemMsg getAddress getRequester]. fold req.
  rewrite (tracks_lookup s1 a p e Ht). cbn [rbind]. rewrite (tracks_entry s1 a p e Ht). cbn [rbind].
  rewrite Hst, bool_decide_eq_true_2 by done. cbn [rguard rbind]. unfold invalidate_sharers.
  cbn [Entry.getSharersList fst snd].
  set (l := Entry.sharers_from 0 (Entry.m_sharers e)).
  destruct (send_all_rest INV_REQ r a l s1) as (Ed & Eq & En & Eh).
  eexists _, req. split; [done|]. split; [|by rewrite send_all_sent].
  split; rewrite ?Ed, ?Eq, ?En, ?Eh; try done. exists e. done.
Qed.

(** The entry without one of several sharers is still shared, without the last
    one uncached. *)
Lemma sharer_gone_list x e l :
  (Entry.getSharersList e).2 ≡ₚ l -> Entry.m_dstate e = SHARED ->
  (Entry.getSharersList (sharer_gone x e)).2 ≡ₚ l /\
  Entry.m_dstate (sharer_gone x e) = (match l with [] => UNCACHED | _ => SHARED end) /\
  Entry.m_address (sharer_gone x e) = Entry.m_address e /\
  Entry.m_sharers (sharer_gone x e) = Entry.m_sharers e.
Proof.
  intros Hp Hst. unfold sharer_gone.
  set (e1 := if Entry.m_forwarder_id e =? x then Entry.setForwarder INVALID_CORE_ID e else e).
  assert (E : Entry.m_sharers e1 = Entry.m_sharers e /\ Entry.m_dstate e1 = SHARED /\
              Entry.m_address e1 = Entry.m_address e) by (unfold e1; by case_match).
  destruct E as (Es & Ed & Ea).
  assert (Hp1 : (Entry.getSharersList e1).2 ≡ₚ l) by (unfold Entry.getSharersList in *; by rewrite Es).
  rewrite num_sharers_list, Hp1. destruct l as [|y l]; cbn [length]; split_and!; done.
Qed.

(** A reply takes its sender off the entry. *)
Lemma inv_rep_removes a p r home req x l s :
  awaits a p r home req (x :: l) s ->
  exists e, let s1 := set_entry p e s in
    handleMsgFromL2Cache x (inv_rep r a) s = after_inv_rep x a p s1 /\
    queue_front a s1 = Ok req /\ entry p s1 = Ok e /\
    tracks (m_dram_directory_cache s1) a p e /\ (Entry.getSharersList e).2 ≡ₚ l /\
    Entry.m_dstate e = (match l with [] => UNCACHED | _ => SHARED end) /\
    0 <= r < Z.of_nat (length (Entry.m_sharers e)).
Proof.
  intros [(e & Ht & Hst & Hp & Hr) Hq _ _ _ _].
  unfold handleMsgFromL2Cache. cbn [inv_rep getAddress getMsgType].
  rewrite (tracks_lookup s a p e Ht). cbn [rbind]. unfold processInvRepFromL2Cache.
  cbn [inv_rep getAddress]. rewrite (tracks_lookup s a p e Ht). cbn [rbind of_option].
  rewrite (tracks_entry s a p e Ht). cbn [rbind]. rewrite bool_decide_eq_true_2 by done.
  cbn [orb rguard rbind]. destruct (removeSharer_list x l e Hp) as (e1 & -> & Hp1 & Ha1 & Hst1 & Hl1 & _).
  cbn [rbind]. destruct (sharer_gone_list x e1 l Hp1 ltac:(congruence)) as (Hp2 & Hst2 & Ha2 & Hs2).
  set (e2 := sharer_gone x e1) in *. pose proof Ht as (_ & _ & Ha).
  pose proof (tracks_put _ _ _ _ e2 Ht ltac:(congruence)) as Ht2.
  exists e2. cbv zeta. destruct (queue_one a req (set_entry p e2 s) Hq) as [-> Hf].
  cbn [Z.ltb Z.compare]. rewrite Hs2, Hl1.
  split_and!; try done; [by apply (tracks_entry _ a)|lia|lia].
Qed.

(** One reply out of several. *)
Lemma inv_rep_step a p r home req x y l s :
  awaits a p r home req (x :: y :: l) s ->
  exists s', handleMsgFromL2Cache x (inv_rep r a) s = Ok s' /\
    awaits a p r home req (y :: l) s' /\ sent s' = sent s.
Proof.
  intros Hw. destruct (inv_rep_removes a p r home req x (y :: l) s Hw) as (e & -> & Hf & He & Ht & Hp & Hst & Hr).
  destruct Hw as [_ Hq Hreq Hnu Hh Hmx]. pose proof Hreq as (Hty & _ & _). unfold after_inv_rep.
  rewrite Hf. cbn [rbind]. rewrite He. cbn [rbind]. rewrite Hty, bool_decide_eq_false_2 by congruence.
  eexists. split; [done|]. split; [|done]. split; try done. by exists e.
Qed.

(** The last reply: the line is granted. *)
Lemma inv_rep_last a p r home req x s :
  awaits a p r home req [x] s ->
  exists s', handleMsgFromL2Cache x (inv_rep r a) s = Ok s' /\ granted a p r s' /\
    sent s' = sent s ++ [mkPacket DRAM_READ_REQ DRAM r home a None W_UNKNOWN].
Proof.
  intros Hw. destruct (inv_rep_removes a p r home req x [] s Hw) as (e & -> & Hf & He & Ht & Hp & Hst & Hr).
  destruct Hw as [_ Hq (Hty & Hrq & Had) Hnu Hh Hmx]. unfold after_inv_rep.
  rewrite Hf. cbn [rbind]. rewrite He. cbn [rbind]. rewrite Hty, bool_decide_eq_true_2 by congruence.
  apply (grant_from_dram _ a p r home req e (set_entry p e s)); try done. by apply Permutation_nil_r.
Qed.

(** The replies, one after the other. *)
Fixpoint replies (r a : Z) (l : list Z) s : result (Cntlr N) :=
  match l with
  | [] => Ok s
  | x :: l' => let! s := handleMsgFromL2Cache x (inv_rep r a) s in replies r a l' s
  end.

Lemma replies_grant a p r home req x l s :
  awaits a p r home req (x :: l) s ->
  exists s', replies r a (x :: l) s = Ok s' /\ granted a p r s' /\
    sent s' = sent s ++ [mkPacket DRAM_READ_REQ DRAM r home a None W_UNKNOWN].
Proof.
  revert x s. induction l as [|y l IH]; intros x s Hw; cbn [replies].
  - destruct (inv_rep_last _ _ _ _ _ _ _ Hw) as (s1 & -> & Hg & Hs). cbn [rbind]. eauto.
  - destruct (inv_rep_step _ _ _ _ _ _ _ _ _ Hw) as (s1 & -> & Hw1 & Hs1). cbn [rbind].
    destruct (IH y s1 Hw1) as (s2 & E & Hg & Hs2). cbn [replies] in E. exists s2.
    rewrite Hs2, Hs1. done.
Qed.

(** The data: the requester gets it, and its request is done. *)
Lemma dram_rep_ends a p r node d s :
  granted a p r s ->
  exists s' e w, handleMsgFromDRAM node (dram_rep r a d) s = Ok s' /\
    tracks (m_dram_directory_cache s') a p e /\ Entry.m_dstate e = MODIFIED /\
    Entry.m_owner_id e = r /\ Entry.getSharersList e = (false, [r]) /\
    m_dram_directory_req_queue_list s' !! a = None /\
    sent s' = sent s ++ [mkPacket EX_REP L2_CACHE r r a (Some d) w].
Proof.
  intros [(e & Ht & Hst & Ho & Hl) (req & Hq & Hty & Hrq) Hnu].
  unfold handleMsgFromDRAM, processDRAMReply. cbn [dram_rep getMsgType getAddress].
  destruct (queue_one _ _ _ Hq) as [-> ->]. cbn [Z.leb Z.compare rguard rbind].
  rewrite (tracks_lookup s a p e Ht). cbn [rbind of_option]. rewrite (tracks_entry s a p e Ht).
  cbn [rbind]. unfold dram_reply_type. rewrite Hty, Hst, bool_decide_eq_true_2 by done.
  cbn [rguard rbind dram_rep getDataBuf of_option]. rewrite Hrq.
  set (w := if bool_decide _ then _ else _). set (s1 := sendMsg _ s).
  unfold sendDataToNUCA. change (m_nuca_cache s1) with (m_nuca_cache s). rewrite Hnu. cbn [rbind].
  assert (Hq1 : m_dram_directory_req_queue_list s1 !! a = Some [req]) by done.
  unfold enough. cbn [processNextReqFromL2Cache]. destruct (queue_one _ _ _ Hq1) as [-> _].
  cbn [Z.leb Z.compare rguard rbind]. unfold ReqQueueList.dequeue. rewrite Hq1. cbn [of_option rbind].
  unfold ReqQueueList.empty. cbn [with_queues m_dram_directory_req_queue_list].
  rewrite lookup_delete_eq. cbn [negb]. eexists _, e, w. split; [done|].
  cbn [with_queues m_dram_directory_cache m_dram_directory_req_queue_list].
  split_and!; try done. apply lookup_delete_eq.
Qed.
End flow.
