(* ===== verification/Nuca.v ===== *)
(** NucaCache (common/core/memory_subsystem/parametric_dram_directory_msi/
    nuca_cache.cc): the slice of the last-level cache beside a directory, as the
    directory controller uses it.  Latencies and the queue model are left out. *)
From stdpp Require Import base numbers list gmap strings.
From Stdlib Require Import ZArith Lia Bool.
From S2P Require Import Prelude Utils CacheBlock CacheBase Replacement PolicyLru PolicyMisc PolicySrrip PolicyAny CacheSet Cache Queues Directory DirectoryCntlr.
Open Scope Z_scope.

Module Nuca.

Record t (P : Type) := mk {
  m_cache : Cache P;
  m_reads : Z;
  m_writes : Z;
  m_read_misses : Z;
  m_write_misses : Z
}.
Arguments mk {P} _ _ _ _ _.
Arguments m_cache {P} _.
Arguments m_reads {P} _.
Arguments m_writes {P} _.
Arguments m_read_misses {P} _.
Arguments m_write_misses {P} _.

(** The constructor; the name of the hash function comes from the parameters. *)
Definition create (cfg : Cfg) (time : Z) (depth : nat) (has_data : bool) (num_sets : Z)
    (associativity : nat) (cache_block_size : Z) (replacement_policy hash_function : string)
    (home_lookup : AddressHome.AddressHomeLookup) : result (t PolicyState) :=
  let! h := parseAddressHash hash_function in
  let! c := create_cache cfg time depth has_data "perf_model/nuca/cache" num_sets associativity
              cache_block_size replacement_policy PR_L1_CACHE h None (Some home_lookup) in
  Ok (mk c 0 0 0 0).

Section ops.
Context {P : Type} `{ReplacementPolicy P}.
Implicit Types n : t P.

Definition bump (count : bool) (x : Z) : Z := if count then u64 (x + 1) else x.

(** [NucaCache::read]: the buffer filled on a hit, [None] on a miss. *)
Definition read (count : bool) (address : Z) n : result (option Data * t P) :=
  let! block_info := peekSingleLine address (m_cache n) in
  match block_info with
  | Some _ =>
      let! (_, data, c) := accessSingleLine address LOAD true None (cb_blocksize (base (m_cache n)))
                             true (m_cache n) in
      Ok (Some data, mk c (bump count (m_reads n)) (m_writes n) (m_read_misses n) (m_write_misses n))
  | None =>
      Ok (None, mk (m_cache n) (bump count (m_reads n)) (m_writes n)
                  (bump count (m_read_misses n)) (m_write_misses n))
  end.

(** [block_info->setCState(state)] through the pointer [peekSingleLine] returned. *)
Definition set_cstate (address : Z) (st : CacheState.cstate_t) (c : Cache P) : result (Cache P) :=
  let! (tag, k, s) := locate c address in
  Ok (match find tag s with
      | Some (i, b) =>
          with_set c k (with_array s (<[i := setCState st b]> (m_cache_block_info_array s))) (m_env c)
      | None => c
      end).

(** The bytes a [data_buf] argument points to. *)
Definition bytes_of (data_buf : option Data) : option (list Z) := default None data_buf.

(** [NucaCache::write]: on a hit [eviction] and what goes with it stay unassigned. *)
Definition write (count : bool) (address : Z) (data_buf : option Data) n
  : result (option (bool * Z * Data) * t P) :=
  let! block_info := peekSingleLine address (m_cache n) in
  match block_info with
  | Some _ =>
      let! c := set_cstate address CacheState.MODIFIED (m_cache n) in
      let! (_, _, c) := accessSingleLine address STORE false (bytes_of data_buf)
                          (cb_blocksize (base (m_cache n))) true c in
      Ok (None, mk c (m_reads n) (bump count (m_writes n)) (m_read_misses n) (m_write_misses n))
  | None =>
      let! (o, c) := insertSingleLine address (bytes_of data_buf) (new_block (SubPrL1 false)) true None
                       (m_cache n) in
      let eviction := lo_eviction o
        && bool_decide (m_cstate (lo_evict_block_info o) = CacheState.MODIFIED) in
      Ok (Some (eviction, lo_evict_addr o, lo_evict_buff o),
          mk c (m_reads n) (bump count (m_writes n)) (m_read_misses n) (bump count (m_write_misses n)))
  end.
End ops.
End Nuca.

#[global] Instance nuca_cache {P} `{ReplacementPolicy P} : NucaCache (Nuca.t P) := {
  nuca_read := Nuca.read;
  nuca_write := Nuca.write
}.

(** * The operations end *)
Class PolicyHalts (P : Type) `{ReplacementPolicy P} := {
  replace_halts : forall cntlr blocks p e, halts any (getReplacementIndex cntlr blocks p e);
  update_halts : forall i p e, halts any (updateReplacementIndex (P := P) i p e)
}.

Lemma touch_bits_halts i l : halts any (touch_bits i l).
Proof. unfold touch_bits. halts_auto. Qed.
#[export] Hint Resolve touch_bits_halts : sim.

Lemma moveToMRU_halts i p : halts any (Lru.moveToMRU i p).
Proof. unfold Lru.moveToMRU. halts_auto. Qed.

Lemma with_set_info_halts f e : (forall s, halts any (f s)) -> halts any (with_set_info f e).
Proof. intros Hf. unfold with_set_info. halts_auto. Qed.

Lemma si_increment_halts i s : halts any (si_increment i s).
Proof. unfold si_increment. halts_auto. Qed.

Lemma si_incrementAttempt_halts i s : halts any (si_incrementAttempt i s).
Proof. unfold si_incrementAttempt. halts_auto. Qed.

Lemma isValidReplacement_halts l i : halts any (isValidReplacement l i).
Proof. unfold isValidReplacement. halts_auto. Qed.
#[export] Hint Resolve moveToMRU_halts with_set_info_halts si_increment_halts si_incrementAttempt_halts
  isValidReplacement_halts : sim.

Lemma lru_attempts_halts k a cntlr l i p e : halts any (Lru.attempts k a cntlr l i p e).
Proof.
  revert a i p e. induction k as [|k IH]; intros a i p e; [exact I|].
  cbn [Lru.attempts]. unfold Lru.qbs_query. halts_auto.
Qed.
#[export] Hint Resolve lru_attempts_halts : sim.

#[global] Instance lru_halts : PolicyHalts Lru.t.
Proof.
  split; cbn; intros.
  - unfold Lru.getReplacementIndex. halts_auto.
  - unfold Lru.updateReplacementIndex. halts_auto.
Qed.

Lemma srrip_scan_halts k n cntlr l p a e : halts any (Srrip.scan k n cntlr l p a e).
Proof.
  revert p a e. induction k as [|k IH]; intros p a e; [exact I|].
  cbn [Srrip.scan]. unfold Srrip.qbs_reject. halts_auto.
Qed.
#[export] Hint Resolve srrip_scan_halts : sim.

Lemma srrip_rounds_halts j n cntlr l p a e : halts any (Srrip.rounds j n cntlr l p a e).
Proof.
  revert p a e. induction j as [|j IH]; intros p a e; [discriminate|].
  cbn [Srrip.rounds]. halts_auto.
Qed.
#[export] Hint Resolve srrip_rounds_halts : sim.

#[global] Instance srrip_halts : PolicyHalts Srrip.t.
Proof.
  split; cbn; intros.
  - unfold Srrip.getReplacementIndex. halts_auto.
  - unfold Srrip.updateReplacementIndex. halts_auto.
Qed.

Lemma cyclic_search_halts k n ok ptr : (forall i, halts any (ok i)) -> halts any (cyclic_search k n ok ptr).
Proof.
  intros Hok. revert ptr. induction k as [|k IH]; intros ptr; [exact I|].
  cbn [cyclic_search]. halts_auto.
Qed.

#[global] Instance mru_halts : PolicyHalts Mru.t.
Proof.
  assert (Hup : forall i p e, halts any (Mru.updateReplacementIndex i p e))
    by (intros; unfold Mru.updateReplacementIndex; halts_auto).
  split; [|done]. cbn. intros. unfold Mru.getReplacementIndex. halts_auto.
Qed.

#[global] Instance nmru_halts : PolicyHalts Nmru.t.
Proof.
  assert (Hup : forall i p e, halts any (Nmru.updateReplacementIndex i p e))
    by (intros; unfold Nmru.updateReplacementIndex; halts_auto).
  split; [|done]. cbn. intros. unfold Nmru.getReplacementIndex. case_match; [halts_auto|].
  eapply (halts_bind any); [|intros [found ptr] _; halts_auto].
  apply cyclic_search_halts. intros i. unfold Nmru.candidate. halts_auto.
Qed.

#[global] Instance nru_halts : PolicyHalts Nru.t.
Proof.
  assert (Hup : forall i p e, halts any (Nru.updateReplacementIndex i p e))
    by (intros; unfold Nru.updateReplacementIndex; halts_auto).
  split; [|done]. cbn. intros. unfold Nru.getReplacementIndex. case_match; [halts_auto|].
  eapply (halts_bind any); [|intros [found ptr] _; halts_auto].
  apply cyclic_search_halts. intros i. unfold Nru.candidate. halts_auto.
Qed.

#[global] Instance plru_halts : PolicyHalts Plru.t.
Proof.
  assert (Hup : forall i p e, halts any (Plru.updateReplacementIndex i p e))
    by (intros; unfold Plru.updateReplacementIndex; repeat case_match; done).
  split; [|done]. cbn. intros. unfold Plru.getReplacementIndex. case_match; [halts_auto|].
  eapply (halts_bind any); [unfold Plru.victim; repeat case_match; done|]. intros i _. halts_auto.
Qed.

#[global] Instance rr_halts : PolicyHalts RoundRobin.t.
Proof.
  split; [|done]. cbn. intros cntlr blocks p e. unfold RoundRobin.getReplacementIndex.
  generalize (length blocks) at 1. intros k. revert p.
  induction k as [|k IH]; intros p; [discriminate|]. cbn [RoundRobin.replacement_loop].
  pose proof (isValidReplacement_halts blocks (if (p =? 0)%nat then (length blocks - 1)%nat else (p - 1)%nat))
    as Hv.
  destruct (isValidReplacement _ _) as [[|]|]; [done|apply IH|done].
Qed.

Lemma draw_halts k l s : halts any (RandomPolicy.draw k l s).
Proof.
  revert s. induction k as [|k IH]; intros s; [discriminate|]. cbn [RandomPolicy.draw].
  unfold Rng.random_next. halts_auto.
Qed.
#[export] Hint Resolve draw_halts : sim.

#[global] Instance random_halts : PolicyHalts RandomPolicy.t.
Proof. split; [|done]. cbn. intros. unfold RandomPolicy.getReplacementIndex. halts_auto. Qed.

Lemma wrap_replace_halts {P} (c : P -> PolicyState) r : halts any r -> halts any (wrap_replace c r).
Proof. intros Hr. unfold wrap_replace. eapply (halts_bind any); [done|]. by intros [[i q] e] _. Qed.

Lemma wrap_update_halts {P} (c : P -> PolicyState) r : halts any r -> halts any (wrap_update c r).
Proof. intros Hr. unfold wrap_update. eapply (halts_bind any); [done|]. by intros [q e] _. Qed.

#[global] Instance any_halts : PolicyHalts PolicyState.
Proof.
  split; cbn.
  - intros cntlr blocks p e. destruct p; cbn [any_getReplacementIndex]; apply wrap_replace_halts.
    + apply (replace_halts (P := RoundRobin.t)).
    + apply (replace_halts (P := Lru.t)).
    + apply (replace_halts (P := Nru.t)).
    + apply (replace_halts (P := Mru.t)).
    + apply (replace_halts (P := Nmru.t)).
    + apply (replace_halts (P := Plru.t)).
    + apply (replace_halts (P := Srrip.t)).
    + apply (replace_halts (P := RandomPolicy.t)).
  - intros i p e. destruct p; cbn [any_updateReplacementIndex]; apply wrap_update_halts.
    + apply (update_halts (P := RoundRobin.t)).
    + apply (update_halts (P := Lru.t)).
    + apply (update_halts (P := Nru.t)).
    + apply (update_halts (P := Mru.t)).
    + apply (update_halts (P := Nmru.t)).
    + apply (update_halts (P := Plru.t)).
    + apply (update_halts (P := Srrip.t)).
    + apply (update_halts (P := RandomPolicy.t)).
Qed.

Section halting.
Context {P : Type} `{PolicyHalts P}.
Implicit Types c : Cache P.

Lemma splitAddress_halts b a : halts any (splitAddress b a).
Proof.
  unfold splitAddress, AddressHome.getLinearAddress, AddressHome.getLinearBlock, set_index_of.
  unfold Rng.rng_next. halts_auto.
Qed.
Hint Resolve splitAddress_halts : sim.

Lemma locate_halts c a : halts any (locate c a).
Proof. unfold locate. halts_auto. Qed.
Hint Resolve locate_halts : sim.

Lemma touch_line_halts u i (s : CacheSet P) e : halts any (touch_line u i s e).
Proof.
  unfold touch_line. destruct u; [|exact I].
  eapply (halts_bind any); [apply update_halts|]. intros [p e'] _. exact I.
Qed.
Hint Resolve touch_line_halts : sim.

Lemma memread_halts m o l : halts any (memread m o l).
Proof. unfold memread. halts_auto. Qed.
Lemma memwrite_halts m o l : halts any (memwrite m o l).
Proof. unfold memwrite. halts_auto. Qed.
Hint Resolve memread_halts memwrite_halts : sim.

Lemma inject_halts f a k i by_ o n (s : CacheSet P) : halts any (inject f a k i by_ o n s).
Proof. unfold inject. halts_auto. Qed.
Hint Resolve inject_halts : sim.

Lemma accessSingleLine_halts a acc w b n u c : halts any (accessSingleLine a acc w b n u c).
Proof. unfold accessSingleLine, splitAddressOffset, read_line, write_line. halts_auto. Qed.

Lemma clone_halts x y : halts any (clone x y).
Proof. unfold clone. halts_auto. Qed.
Hint Resolve clone_halts : sim.

Lemma insert_halts cntlr b f ev w (s : CacheSet P) e : halts any (insert cntlr b f ev w s e).
Proof.
  unfold insert. eapply (halts_bind any); [apply replace_halts|]. intros [[i p] e'] _.
  unfold clone_evicted. halts_auto.
Qed.
Hint Resolve insert_halts : sim.

Lemma insertSingleLine_halts a f ev w cntlr c : halts any (insertSingleLine a f ev w cntlr c).
Proof.
  unfold insertSingleLine. eapply (halts_bind any); [eauto with sim|]. intros [[tag k] s] _.
  eapply (halts_bind any); [unfold create; halts_auto|]. intros b _. halts_auto.
Qed.

Lemma peekSingleLine_halts a c : halts any (peekSingleLine a c).
Proof. unfold peekSingleLine. halts_auto. Qed.
Hint Resolve accessSingleLine_halts insertSingleLine_halts peekSingleLine_halts : sim.

#[global] Instance nuca_laws : NucaLaws (Nuca.t P).
Proof.
  apply (Build_NucaLaws _ _ any).
  - intros count a n _. change (halts any (Nuca.read count a n)). unfold Nuca.read. halts_auto.
  - intros count a d n _. change (halts any (Nuca.write count a d n)).
    unfold Nuca.write, Nuca.set_cstate. halts_auto.
Defined.
End halting.
