(* ===== verification/DirectoryProps.v ===== *)
(** What the directory controller guarantees, from the invariant, the termination
    argument and the request flow of the files before, with and without a NUCA
    cache beside it. *)
From stdpp Require Import base numbers list gmap strings relations.
From Stdlib Require Import ZArith Lia Bool.
From S2P Require Import Prelude Utils CacheBlock CacheBase Replacement PolicyLru PolicyAny CacheSet Cache Queues Directory DirectoryCntlr DirectoryInv DirectoryTerm DirectoryFlow Nuca.
Open Scope Z_scope.

Lemma only_sharer e x :
  Entry.getNumSharers e = 1 -> Entry.hasSharer x e = Ok true -> (Entry.getSharersList e).2 = [x].
Proof.
  intros Hn Hx. apply sharers_list_has in Hx. rewrite num_sharers_list in Hn.
  destruct (Entry.getSharersList e).2 as [|y [|z l]]; simpl in Hn; [lia| |lia].
  apply list_elem_of_singleton in Hx. by subst.
Qed.

Section props.
Context {N : Type} `{NucaCache N}.
Implicit Types s : Cntlr N.

Lemma reachable_dir_inv s0 s : rtc dir_step s0 s -> dir_inv s0 -> dir_inv s.
Proof. intros Hr. induction Hr; eauto using dir_step_inv. Qed.

(** C2: in every state the directory controller reaches from its construction by
    handling messages, whatever their order, each entry's state agrees with its
    sharers: a MODIFIED or EXCLUSIVE line has one sharer, its owner; an UNCACHED
    line has none; a SHARED line has some; no line is ever OWNED. *)
Theorem directory_single_writer ahl nuca core type te assoc bs mns mhs pen ptrs u variant s0 s p e :
  create_cntlr ahl nuca core type te assoc bs mns mhs pen ptrs u variant = Ok s0 ->
  rtc dir_step s0 s -> entry p s = Ok e ->
  match Entry.m_dstate e with
  | MODIFIED | EXCLUSIVE => Entry.getSharersList e = (false, [Entry.m_owner_id e])
  | UNCACHED => Entry.getSharersList e = (false, [])
  | SHARED => (Entry.getSharersList e).2 <> []
  | OWNED => False
  end.
Proof.
  intros Hc Hr He. apply create_cntlr_inv in Hc. apply reachable_dir_inv in Hr; [|done].
  pose proof (entry_inv _ _ _ He Hr) as Hok. unfold entry_ok in Hok.
  assert (Hlist : forall l, (Entry.getSharersList e).2 = l -> Entry.getSharersList e = (false, l))
    by (intros l <-; done).
  pose proof (num_sharers_list e) as Hn. destruct (Entry.m_dstate e).
  - apply Hlist, nil_length_inv. lia.
  - intros Hnil. rewrite Hnil in Hn. simpl in Hn. lia.
  - done.
  - destruct Hok as [H1 Hh]. by apply Hlist, only_sharer.
  - destruct Hok as [H1 Hh]. by apply Hlist, only_sharer.
Qed.

(** C17: the handlers of the directory controller always end.  From construction
    on, handling any message in any reachable state takes no more nested rounds
    of [processNextReqFromL2Cache] than the queue of the address gives it: the
    result is a new state or one of the program's own errors, never an exhausted
    recursion bound. *)
Theorem directory_handlers_terminate `{!NucaLaws N} ahl nuca core type te assoc bs mns mhs pen ptrs u variant
    s0 s sender m :
  create_cntlr ahl nuca core type te assoc bs mns mhs pen ptrs u variant = Ok s0 ->
  nuca_ok nuca -> rtc dir_step s0 s ->
  handleMsgFromL2Cache sender m s <> Err OutOfFuel /\ handleMsgFromDRAM sender m s <> Err OutOfFuel.
Proof.
  intros Hc Hn Hr.
  assert (Hg : good s).
  { assert (Hg0 : good s0).
    { unfold create_cntlr in Hc. inv_ok. split; [done|]. apply map_Forall_empty. }
    clear Hc Hn. induction Hr as [|s1 s2 s3 Hs _ IH]; [done|]. apply IH.
    destruct Hs as [snd m1 s1 s2 Hh|snd m1 s1 s2 Hh].
    - pose proof (handleMsgFromL2Cache_halts snd m1 s1 Hg0) as Hk. by rewrite Hh in Hk.
    - pose proof (handleMsgFromDRAM_halts snd m1 s1 Hg0) as Hk. by rewrite Hh in Hk. }
  split; intros He.
  - pose proof (handleMsgFromL2Cache_halts sender m s Hg) as Hk. by rewrite He in Hk.
  - pose proof (handleMsgFromDRAM_halts sender m s Hg) as Hk. by rewrite He in Hk.
Qed.

(** C16: an exclusive request for a shared line completes.  With no other request
    on the line and no NUCA cache, once core [r] has asked for it, the sharers
    have answered their invalidations in any order [l], and DRAM has sent the
    line, the controller has succeeded at every message: it has sent one INV_REQ
    to each sharer, one DRAM_READ_REQ and then EX_REP with the data to [r], the
    entry is MODIFIED with owner and only sharer [r], and the queue is empty. *)
Theorem ex_req_completes s a p e r home node d l :
  tracks (m_dram_directory_cache s) a p e -> Entry.m_dstate e = SHARED ->
  (Entry.getSharersList e).2 <> [] -> l ≡ₚ (Entry.getSharersList e).2 ->
  0 <= r < Z.of_nat (length (Entry.m_sharers e)) ->
  0 < getMaxHwSharers (m_dram_directory_cache s) ->
  m_dram_directory_req_queue_list s !! a = None -> m_nuca_cache s = None ->
  AddressHome.getHome (m_dram_controller_home_lookup s) a = Ok home ->
  exists s' e' w,
    (let! s := handleMsgFromL2Cache r (ex_req r a) s in
     let! s := replies r a l s in
     handleMsgFromDRAM node (dram_rep r a d) s) = Ok s' /\
    getDirectoryEntry a (m_dram_directory_cache s') = Ok (Some p, m_dram_directory_cache s') /\
    entry p s' = Ok e' /\ Entry.m_dstate e' = MODIFIED /\ Entry.m_owner_id e' = r /\
    Entry.getSharersList e' = (false, [r]) /\
    m_dram_directory_req_queue_list s' !! a = None /\
    sent s' = sent s ++
      map (fun x => mkPacket INV_REQ L2_CACHE r x a None W_UNKNOWN) (Entry.getSharersList e).2 ++
      [mkPacket DRAM_READ_REQ DRAM r home a None W_UNKNOWN; mkPacket EX_REP L2_CACHE r r a (Some d) w].
Proof.
  intros Ht Hst Hne Hl Hr Hmx Hq Hnu Hh.
  destruct (ex_req_starts a p e r home s) as (s1 & req & -> & Hw & Hs1); [done..|]. cbn [rbind].
  assert (Hw' : awaits a p r home req l s1).
  { destruct Hw as [(e1 & Ht1 & Hst1 & Hp1 & Hr1) ? ? ? ? ?]. split; try done.
    exists e1. split_and!; try done; [by rewrite Hl|lia|lia]. }
  destruct l as [|x l]; [by apply Permutation_nil in Hl|].
  destruct (replies_grant _ _ _ _ _ _ _ _ Hw') as (s2 & -> & Hg & Hs2). cbn [rbind].
  destruct (dram_rep_ends a p r node d s2 Hg) as (s3 & e3 & w & E & Ht3 & Hst3 & Ho3 & Hl3 & Hq3 & Hs3).
  exists s3, e3, w. split_and!; try done; [by eapply tracks_get|by eapply tracks_entry|].
  rewrite Hs3, Hs2, Hs1, <- !app_assoc. done.
Qed.
End props.

(** A line written back to a NUCA cache that already holds it makes the
    controller read [eviction] before anything assigned it: [NucaCache::write]
    assigns it only when it inserts, so [sendDataToNUCA] never succeeds on a hit. *)
Theorem nuca_hit_eviction_unassigned {P} `{ReplacementPolicy P} (s : Cntlr (Nuca.t P)) n a r d count blk :
  m_nuca_cache s = Some n -> peekSingleLine a (Nuca.m_cache n) = Ok (Some blk) ->
  (forall out n', nuca_write count a d n = Ok (out, n') -> out = None) /\
  forall s', sendDataToNUCA a r d count s <> Ok s'.
Proof.
  intros Hn Hp. assert (Hw : forall out n', nuca_write count a d n = Ok (out, n') -> out = None).
  { intros out n' Hw. cbn in Hw. unfold Nuca.write in Hw. rewrite Hp in Hw. cbn [rbind] in Hw. by inv_ok. }
  split; [done|]. intros s' Hs. unfold sendDataToNUCA in Hs. rewrite Hn in Hs.
  apply rbind_Ok_inv in Hs as ([out n'] & Hw' & Hs). rewrite (Hw _ _ Hw') in Hs. by inv_ok.
Qed.

(** * A run: two readers and a writer of one line *)
Definition demo_ahl : AddressHome.AddressHomeLookup := AddressHome.mkAHL 6 63 [0; 1] 2 64.
Definition demo_create (nuca : option (Nuca.t PolicyState)) : result (Cntlr (Nuca.t PolicyState)) :=
  create_cntlr demo_ahl nuca 0 "full_map" 4 2 64 8 8 (Ok 0) [0; 0] 7 "msi".
Definition demo_msg (ty : msg_t) (r : Z) : ShmemMsg := mkMsg ty r 4096 None W_UNKNOWN.
Definition demo_read (r : Z) (s : Cntlr (Nuca.t PolicyState)) : result (Cntlr (Nuca.t PolicyState)) :=
  let! s := handleMsgFromL2Cache r (demo_msg SH_REQ r) s in
  handleMsgFromDRAM 0 (dram_rep r 4096 None) s.
Definition demo_shared : result (Cntlr (Nuca.t PolicyState)) :=
  let! s := demo_create None in
  let! s := demo_read 3 s in
  demo_read 5 s.

Definition demo_state (x : result (Cntlr (Nuca.t PolicyState))) : Cntlr (Nuca.t PolicyState) :=
  match x with
  | Ok s => s
  | Err _ => mkCntlr demo_ahl (mkDirCache (mkDirectory FULL_MAP 0 0 0 0 0 0 []) [] [] 0 1 0 0 0 ∅ 0 0)
               ∅ None 0 MSI [] 0 0 []
  end.
Definition demo_start : Cntlr (Nuca.t PolicyState) := Eval vm_compute in demo_state (demo_create None).
Definition demo_after : Cntlr (Nuca.t PolicyState) := Eval vm_compute in demo_state demo_shared.
Definition demo_entry : Entry.t :=
  Eval vm_compute in default (Entry.create 0 0 (Entry.Limitless false 0))
                       (store (m_dram_directory_cache demo_after) !! 0%nat).

Lemma demo_reached : rtc dir_step demo_start demo_after.
Proof.
  eapply rtc_l; [apply (step_l2 3 (demo_msg SH_REQ 3)); vm_compute; reflexivity|].
  eapply rtc_l; [apply (step_dram 0 (dram_rep 3 4096 None)); vm_compute; reflexivity|].
  eapply rtc_l; [apply (step_l2 5 (demo_msg SH_REQ 5)); vm_compute; reflexivity|].
  eapply rtc_l; [apply (step_dram 0 (dram_rep 5 4096 None)); vm_compute; reflexivity|].
  apply rtc_refl.
Qed.

Lemma directory_single_writer_witness :
  (Entry.getSharersList demo_entry).2 <> [] /\ Entry.m_dstate demo_entry = SHARED.
Proof.
  split; [|reflexivity].
  apply (directory_single_writer demo_ahl None 0 "full_map" 4 2 64 8 8 (Ok 0) [0; 0] 7 "msi"
           demo_start demo_after 0 demo_entry);
    [vm_compute; reflexivity|exact demo_reached|vm_compute; reflexivity].
Defined.

Lemma directory_handlers_terminate_witness :
  handleMsgFromL2Cache 3 (demo_msg EX_REQ 3) demo_after <> Err OutOfFuel /\
  handleMsgFromDRAM 3 (demo_msg EX_REQ 3) demo_after <> Err OutOfFuel.
Proof.
  apply (directory_handlers_terminate demo_ahl None 0 "full_map" 4 2 64 8 8 (Ok 0) [0; 0] 7 "msi" demo_start);
    [vm_compute; reflexivity|exact I|exact demo_reached].
Defined.

Lemma demo_tracks : tracks (m_dram_directory_cache demo_after) 4096 0 demo_entry.
Proof.
  split; [|split; vm_compute; reflexivity].
  change (found_at 2 0 0 4096 (m_dram_directory_cache demo_after) 0). exists 0%nat, demo_entry.
  split; [vm_compute; reflexivity|]. split; [vm_compute; reflexivity|].
  split; vm_compute; reflexivity.
Qed.

Lemma ex_req_completes_witness :
  exists s' e' w,
    (let! s := handleMsgFromL2Cache 6 (ex_req 6 4096) demo_after in
     let! s := replies 6 4096 [5; 3] s in
     handleMsgFromDRAM 0 (dram_rep 6 4096 None) s) = Ok s' /\
    getDirectoryEntry 4096 (m_dram_directory_cache s') = Ok (Some 0%nat, m_dram_directory_cache s') /\
    entry 0 s' = Ok e' /\ Entry.m_dstate e' = MODIFIED /\ Entry.m_owner_id e' = 6 /\
    Entry.getSharersList e' = (false, [6]) /\
    m_dram_directory_req_queue_list s' !! 4096 = None /\
    sent s' = sent demo_after ++
      map (fun x => mkPacket INV_REQ L2_CACHE 6 x 4096 None W_UNKNOWN) (Entry.getSharersList demo_entry).2 ++
      [mkPacket DRAM_READ_REQ DRAM 6 0 4096 None W_UNKNOWN; mkPacket EX_REP L2_CACHE 6 6 4096 (Some None) w].
Proof.
  apply (ex_req_completes demo_after 4096 0 demo_entry 6 0 0 None [5; 3]).
  - exact demo_tracks.
  - reflexivity.
  - discriminate.
  - apply Permutation_swap.
  - split; [lia|vm_compute; reflexivity].
  - vm_compute; reflexivity.
  - vm_compute; reflexivity.
  - reflexivity.
  - vm_compute; reflexivity.
Defined.

(** * The same directory with a NUCA cache of one line *)
Definition demo_nuca : result (Nuca.t PolicyState) :=
  Nuca.create demo_cfg 0 1 false 1 1 64 "lru" "mask" demo_ahl.
Definition demo_nuca_state (x : result (Nuca.t PolicyState)) : Nuca.t PolicyState :=
  match x with
  | Ok n => n
  | Err _ => Nuca.mk demo_empty_cache 0 0 0 0
  end.
Definition demo_nuca_filled : Nuca.t PolicyState :=
  Eval vm_compute in demo_nuca_state
    (let! n := demo_nuca in let! (_, n) := Nuca.write false 4096 (Some None) n in Ok n).
Definition demo_with_nuca : Cntlr (Nuca.t PolicyState) :=
  Eval vm_compute in demo_state (demo_create (Some demo_nuca_filled)).

Lemma nuca_hit_eviction_unassigned_witness :
  (forall out n', nuca_write true 4096 None demo_nuca_filled = Ok (out, n') -> out = None) /\
  forall s', sendDataToNUCA 4096 3 None true demo_with_nuca <> Ok s'.
Proof.
  eapply (nuca_hit_eviction_unassigned demo_with_nuca demo_nuca_filled 4096 3 None true);
    [vm_compute; reflexivity|vm_compute; reflexivity].
Defined.

(** A line written to the NUCA cache on a miss is not marked MODIFIED, so that its
    eviction by the next line is reported as one that needs no write to DRAM,
    whatever data the two writes carried. *)
Theorem nuca_written_line_dropped (d1 d2 : option Data) :
  exists n0 n1 n2 o b,
    demo_nuca = Ok n0 /\ Nuca.write true 4096 d1 n0 = Ok (Some o, n1) /\
    Nuca.write true 8192 d2 n1 = Ok (Some (false, 4096, b), n2) /\
    peekSingleLine 4096 (Nuca.m_cache n2) = Ok None.
Proof. destruct d1 as [[d1|]|], d2 as [[d2|]|]; do 5 eexists; repeat split; vm_compute; reflexivity. Qed.
