(* ===== verification/Sync.v ===== *)
(** SyncServer (common/system/sync_server.cc): the mutexes, condition variables
    and barriers of the simulated application, and the part of ThreadManager
    (common/system/thread_manager.cc) that stalls and resumes its threads.

    A call that stalls its thread ends in [Blocked]; the thread returns from it
    when another thread's call resumes it, at the wake-up time recorded there.
    Every operation holds the lock of the thread manager, so operations happen
    one after the other, in any order the threads make them.  The hooks called
    when a thread stalls or resumes are left out: they reschedule threads that
    are STALL_UNSCHEDULED and touch no thread that waits here. *)
From stdpp Require Import base numbers list gmap relations.
From Stdlib Require Import ZArith Lia Bool.
From S2P Require Import Prelude.
Open Scope Z_scope.

(** * Threads *)

(** Core::State *)
Inductive State := RUNNING | INITIALIZING | STALLED | SLEEPING | WAKING_UP | IDLE | BROKEN.
#[global] Instance State_eq_dec : EqDecision State.
Proof. solve_decision. Defined.

(** ThreadManager::stall_type_t *)
Inductive stall_type_t :=
  | STALL_UNSCHEDULED | STALL_BROKEN | STALL_JOIN | STALL_MUTEX | STALL_COND | STALL_BARRIER
  | STALL_FUTEX | STALL_PAUSE | STALL_SLEEP | STALL_SYSCALL.
#[global] Instance stall_type_eq_dec : EqDecision stall_type_t.
Proof. solve_decision. Defined.

(** ThreadManager::ThreadState, and the wake-up time of the Thread. *)
Record ThreadState := mkThread {
  status : State;
  stalled_reason : stall_type_t;
  wakeup_time : Z
}.

Definition INVALID_THREAD_ID : Z := -1.

(** The cell of a thread: [m_thread_state\[thread_id\]]. *)
Definition thread_at (l : list ThreadState) (t : Z) : option ThreadState :=
  if 0 <=? t then l !! Z.to_nat t else None.

(** [stallThread_async(thread_id, reason, time)] *)
Definition stallThread (t : Z) (reason : stall_type_t) (l : list ThreadState)
  : result (list ThreadState) :=
  let! th := of_option (thread_at l t) Undefined in
  Ok (<[Z.to_nat t := mkThread STALLED reason (wakeup_time th)]> l).

(** [resumeThread(thread_id, thread_by, time)]: signal the thread, which is then
    RUNNING; [getThreadFromID] checks the index. *)
Definition resumeThread (t : Z) (time : Z) (l : list ThreadState) : result (list ThreadState) :=
  let! th := of_option (thread_at l t) LogError in
  Ok (<[Z.to_nat t := mkThread RUNNING (stalled_reason th) time]> l).

(** * The objects *)
(** [static const thread_id_t NO_OWNER = UINT_MAX], a 32-bit signed integer. *)
Definition NO_OWNER : Z := -1.

Record SimMutex := mkMutex {
  mx_waiting : list Z;
  mx_owner : Z
}.
Definition new_mutex : SimMutex := mkMutex [] NO_OWNER.

(** A CondWaiter: the thread and the mutex to take again, by its key. *)
Record SimCond := mkCond { cd_waiting : list (Z * Z) }.
Definition new_cond : SimCond := mkCond [].

Record SimBarrier := mkBarrier {
  br_waiting : list Z;
  br_count : Z
}.

Record SyncServer := mkSync {
  m_mutexes : gmap Z SimMutex;
  m_conds : gmap Z SimCond;
  m_barriers : list SimBarrier;
  m_reschedule_cost : Z;
  m_thread_state : list ThreadState
}.

Definition with_mutex (k : Z) (m : SimMutex) (s : SyncServer) : SyncServer :=
  mkSync (<[k := m]> (m_mutexes s)) (m_conds s) (m_barriers s) (m_reschedule_cost s) (m_thread_state s).
Definition with_cond (k : Z) (c : SimCond) (s : SyncServer) : SyncServer :=
  mkSync (m_mutexes s) (<[k := c]> (m_conds s)) (m_barriers s) (m_reschedule_cost s) (m_thread_state s).
Definition with_barriers (l : list SimBarrier) (s : SyncServer) : SyncServer :=
  mkSync (m_mutexes s) (m_conds s) l (m_reschedule_cost s) (m_thread_state s).
Definition with_threads (l : list ThreadState) (s : SyncServer) : SyncServer :=
  mkSync (m_mutexes s) (m_conds s) (m_barriers s) (m_reschedule_cost s) l.

Definition stall (t : Z) (reason : stall_type_t) (s : SyncServer) : result SyncServer :=
  let! l := stallThread t reason (m_thread_state s) in Ok (with_threads l s).
Definition resume (t time : Z) (s : SyncServer) : result SyncServer :=
  let! l := resumeThread t time (m_thread_state s) in Ok (with_threads l s).

(** What a call gives its thread: the time it returns at (and whether the lock
    was taken), or nothing yet. *)
Inductive reply := Returned (time : Z) (acquired : bool) | Blocked.
#[global] Instance reply_eq_dec : EqDecision reply.
Proof. solve_decision. Defined.

(** ** SimMutex *)
Definition mutex_isLocked (t : Z) (m : SimMutex) : bool :=
  if mx_owner m =? NO_OWNER then false
  else if mx_owner m =? t then false
  else true.

Definition mutex_lock (k t time : Z) (s : SyncServer) : result (reply * SyncServer) :=
  let! m := of_option (m_mutexes s !! k) Undefined in
  if mx_owner m =? NO_OWNER then
    Ok (Returned time true, with_mutex k (mkMutex (mx_waiting m) t) s)
  else
    let s := with_mutex k (mkMutex (mx_waiting m ++ [t]) (mx_owner m)) s in
    let! s := stall t STALL_MUTEX s in
    Ok (Blocked, s).

Definition mutex_lock_async (k t thread_by time : Z) (s : SyncServer) : result (bool * SyncServer) :=
  let! m := of_option (m_mutexes s !! k) Undefined in
  if mx_owner m =? NO_OWNER then
    let s := with_mutex k (mkMutex (mx_waiting m) t) s in
    let! s := resume t time s in
    Ok (true, s)
  else Ok (false, with_mutex k (mkMutex (mx_waiting m ++ [t]) (mx_owner m)) s).

Definition mutex_unlock (k t time : Z) (s : SyncServer) : result (Z * SyncServer) :=
  let! m := of_option (m_mutexes s !! k) Undefined in
  guard! mx_owner m =? t else AssertFailed in
  match mx_waiting m with
  | [] => Ok (NO_OWNER, with_mutex k (mkMutex [] NO_OWNER) s)
  | waiter :: q =>
      let! s := resume waiter time (with_mutex k (mkMutex q waiter) s) in
      Ok (waiter, s)
  end.

(** ** SimCond *)
Definition cond_wait (c t time k : Z) (s : SyncServer) : result (reply * SyncServer) :=
  let! (_, s) := mutex_unlock k t time s in
  let! x := of_option (m_conds s !! c) Undefined in
  let s := with_cond c (mkCond (cd_waiting x ++ [(t, k)])) s in
  let! s := stall t STALL_COND s in
  Ok (Blocked, s).

Definition cond_signal (c t time : Z) (s : SyncServer) : result (Z * SyncServer) :=
  let! x := of_option (m_conds s !! c) Undefined in
  match cd_waiting x with
  | [] => Ok (INVALID_THREAD_ID, s)
  | (w, k) :: q =>
      let! (locked, s) := mutex_lock_async k w t time (with_cond c (mkCond q) s) in
      Ok (if locked : bool then w else INVALID_THREAD_ID, s)
  end.

(** [while(!m_waiting.empty())]: the queue is popped before each call. *)
Fixpoint broadcast_loop (c t time : Z) (waiting : list (Z * Z)) (s : SyncServer) : result SyncServer :=
  match waiting with
  | [] => Ok s
  | (w, k) :: q =>
      let! (_, s) := mutex_lock_async k w t time (with_cond c (mkCond q) s) in
      broadcast_loop c t time q s
  end.
Definition cond_broadcast (c t time : Z) (s : SyncServer) : result SyncServer :=
  let! x := of_option (m_conds s !! c) Undefined in
  broadcast_loop c t time (cd_waiting x) s.

(** ** SimBarrier *)
Definition set_barrier (b : nat) (x : SimBarrier) (s : SyncServer) : SyncServer :=
  with_barriers (<[b := x]> (m_barriers s)) s.

Fixpoint release_loop (b : nat) (count time : Z) (waiting : list Z) (s : SyncServer) : result SyncServer :=
  match waiting with
  | [] => Ok s
  | w :: q =>
      let! s := resume w time (set_barrier b (mkBarrier q count) s) in
      release_loop b count time q s
  end.

(** [m_count - 1] is computed on 32 bits. *)
Definition barrier_wait (b : nat) (t time : Z) (s : SyncServer) : result (reply * SyncServer) :=
  let! x := of_option (m_barriers s !! b) Undefined in
  if Z.of_nat (length (br_waiting x)) =? u32 (br_count x - 1) then
    let! s := release_loop b (br_count x) time (br_waiting x) s in
    Ok (Returned time true, s)
  else
    let! s := stall t STALL_BARRIER
                (set_barrier b (mkBarrier (br_waiting x ++ [t]) (br_count x)) s) in
    Ok (Blocked, s).

(** ** SyncServer *)
Definition getMutex (k : Z) (canCreate : bool) (s : SyncServer) : result SyncServer :=
  match m_mutexes s !! k with
  | Some _ => Ok s
  | None => if canCreate then Ok (with_mutex k new_mutex s) else Err LogError
  end.
Definition getCond (k : Z) (canCreate : bool) (s : SyncServer) : result SyncServer :=
  match m_conds s !! k with
  | Some _ => Ok s
  | None => if canCreate then Ok (with_cond k new_cond s) else Err LogError
  end.

Definition mutexInit (k : Z) (s : SyncServer) : result SyncServer := getMutex k true s.

Definition mutexLock (t k : Z) (tryLock : bool) (time : Z) (s : SyncServer) : result (reply * SyncServer) :=
  let! s := getMutex k true s in
  let! m := of_option (m_mutexes s !! k) Undefined in
  if tryLock && mutex_isLocked t m then Ok (Returned time false, s)
  else
    let! (r, s) := mutex_lock k t time s in
    Ok (match r with
        | Returned time_end _ => Returned (u64 (time_end + m_reschedule_cost s)) true
        | Blocked => Blocked
        end, s).

Definition mutexUnlock (t k time : Z) (s : SyncServer) : result (reply * SyncServer) :=
  let! s := getMutex k false s in
  let! (new_owner, s) := mutex_unlock k t (u64 (time + m_reschedule_cost s)) s in
  Ok (Returned (u64 (time + if new_owner =? NO_OWNER then 0 else m_reschedule_cost s)) true, s).

Definition condInit (c : Z) (s : SyncServer) : result SyncServer := getCond c true s.

Definition condWait (t c k time : Z) (s : SyncServer) : result (reply * SyncServer) :=
  let! s := getMutex k true s in
  let! s := getCond c true s in
  cond_wait c t time k s.

Definition condSignal (t c time : Z) (s : SyncServer) : result (reply * SyncServer) :=
  let! s := getCond c true s in
  let! (_, s) := cond_signal c t time s in
  Ok (Returned time true, s).

Definition condBroadcast (t c time : Z) (s : SyncServer) : result (reply * SyncServer) :=
  let! s := getCond c true s in
  let! s := cond_broadcast c t time s in
  Ok (Returned time true, s).

(** The new barrier's number. *)
Definition barrierInit (count : Z) (s : SyncServer) : Z * SyncServer :=
  (Z.of_nat (length (m_barriers s)), with_barriers (m_barriers s ++ [mkBarrier [] count]) s).

Definition barrierWait (t : Z) (b : nat) (time : Z) (s : SyncServer) : result (reply * SyncServer) :=
  barrier_wait b t time s.

(** * Calls *)
Inductive call :=
  | MutexInit (k : Z)
  | MutexLock (k : Z) (tryLock : bool)
  | MutexUnlock (k : Z)
  | CondInit (c : Z)
  | CondWait (c k : Z)
  | CondSignal (c : Z)
  | CondBroadcast (c : Z)
  | BarrierInit (count : Z)
  | BarrierWait (b : nat).

(** The call [o] of thread [t] at [time]. *)
Definition perform (t time : Z) (o : call) (s : SyncServer) : result (reply * SyncServer) :=
  match o with
  | MutexInit k => let! s := mutexInit k s in Ok (Returned time true, s)
  | MutexLock k tryLock => mutexLock t k tryLock time s
  | MutexUnlock k => mutexUnlock t k time s
  | CondInit c => let! s := condInit c s in Ok (Returned time true, s)
  | CondWait c k => condWait t c k time s
  | CondSignal c => condSignal t c time s
  | CondBroadcast c => condBroadcast t c time s
  | BarrierInit count => let '(_, s) := barrierInit count s in Ok (Returned time true, s)
  | BarrierWait b => barrierWait t b time s
  end.

Definition running (t : Z) (s : SyncServer) : Prop :=
  exists th, thread_at (m_thread_state s) t = Some th /\ status th = RUNNING.

(** A running thread makes a call. *)
Inductive sync_step : SyncServer -> SyncServer -> Prop :=
  | step_call t time o r s s' :
      running t s -> perform t time o s = Ok (r, s') -> sync_step s s'.
