(* ===== verification/SyncInv.v ===== *)
(** The invariant of the synchronisation server: no thread is lost, and none is
    queued twice.  A thread is stalled by the server exactly while it is in one
    waiting queue, once; free mutexes have no waiters. *)
From stdpp Require Import base numbers list gmap relations.
From Stdlib Require Import ZArith Lia Bool.
From S2P Require Import Prelude Sync.
Open Scope Z_scope.

(** * The waiting queues *)
Inductive place := InMutex (k : Z) | InCond (c : Z) | InBarrier (b : nat).
#[global] Instance place_eq_dec : EqDecision place.
Proof. solve_decision. Defined.

Definition queue (s : SyncServer) (p : place) : list Z :=
  match p with
  | InMutex k => from_option mx_waiting [] (m_mutexes s !! k)
  | InCond c => map fst (from_option cd_waiting [] (m_conds s !! c))
  | InBarrier b => from_option br_waiting [] (m_barriers s !! b)
  end.

Definition sync_reason (r : stall_type_t) : Prop :=
  match r with
  | STALL_MUTEX | STALL_COND | STALL_BARRIER => True
  | _ => False
  end.

(** Queues and threads agree. *)
Record consistent (Q : place -> list Z) (L : list ThreadState) : Prop := mkConsistent {
  c_nodup : forall p, NoDup (Q p);
  c_once : forall p q t, t ∈ Q p -> t ∈ Q q -> p = q;
  c_stalled : forall p t, t ∈ Q p ->
    exists th, thread_at L t = Some th /\ status th = STALLED /\ sync_reason (stalled_reason th);
  c_queued : forall t th, thread_at L t = Some th -> status th = STALLED -> sync_reason (stalled_reason th) ->
    exists p, t ∈ Q p
}.

(** ** Threads *)
Lemma thread_at_Some l t th : thread_at l t = Some th <-> 0 <= t /\ l !! Z.to_nat t = Some th.
Proof.
  unfold thread_at. destruct (Z.leb_spec 0 t); [|split; [done|lia]].
  split; [done|by intros [_ ?]].
Qed.

Lemma thread_at_insert l t t' th x :
  thread_at l t = Some th ->
  thread_at (<[Z.to_nat t := x]> l) t' = if decide (t' = t) then Some x else thread_at l t'.
Proof.
  intros [Ht Hl]%thread_at_Some. unfold thread_at. case_decide as Hd.
  - subst t'. rewrite (proj2 (Z.leb_le 0 t)) by done. apply list_lookup_insert_eq. by eapply lookup_lt_Some.
  - destruct (Z.leb_spec 0 t'); [|done]. apply list_lookup_insert_ne. lia.
Qed.

Lemma stallThread_spec t r l l' :
  stallThread t r l = Ok l' ->
  exists w, forall t', thread_at l' t' = if decide (t' = t) then Some (mkThread STALLED r w) else thread_at l t'.
Proof.
  unfold stallThread. intros Hs. inv_ok. exists (wakeup_time v). intros t'. by eapply thread_at_insert.
Qed.

Lemma resumeThread_spec t time l l' :
  resumeThread t time l = Ok l' ->
  exists r, forall t', thread_at l' t' = if decide (t' = t) then Some (mkThread RUNNING r time) else thread_at l t'.
Proof.
  unfold resumeThread. intros Hs. inv_ok. exists (stalled_reason v). intros t'. by eapply thread_at_insert.
Qed.

Definition runs (L : list ThreadState) (t : Z) : Prop :=
  exists th, thread_at L t = Some th /\ status th = RUNNING.

Lemma running_not_queued Q L t p : consistent Q L -> runs L t -> t ∉ Q p.
Proof.
  intros HC (th & Hth & Hr) Hin. destruct (c_stalled _ _ HC p t Hin) as (th' & Hth' & Hs & _). congruence.
Qed.

(** ** The four things a call does to the queues *)
Lemma consistent_ext Q Q' L : consistent Q L -> (forall p, Q' p = Q p) -> consistent Q' L.
Proof.
  intros [H1 H2 H3 H4] HQ. split.
  - intros p. by rewrite HQ.
  - intros p q t. rewrite !HQ. apply H2.
  - intros p t. rewrite HQ. apply H3.
  - intros t th Ht Hs Hr. destruct (H4 t th Ht Hs Hr) as [p Hp]. exists p. by rewrite HQ.
Qed.

Lemma consistent_enqueue Q Q' L L' p t r :
  consistent Q L -> runs L t -> stallThread t r L = Ok L' -> sync_reason r ->
  Q' p = Q p ++ [t] -> (forall q, q <> p -> Q' q = Q q) -> consistent Q' L'.
Proof.
  intros HC Hrun Hst Hr Hp Hq.
  assert (Hnot : forall q, t ∉ Q q) by (intros q; by eapply running_not_queued).
  destruct (stallThread_spec _ _ _ _ Hst) as (w & Hth).
  assert (Hin : forall q x, x ∈ Q' q <-> x ∈ Q q \/ (q = p /\ x = t)).
  { intros q x. destruct (decide (q = p)) as [->|Hne].
    - rewrite Hp, elem_of_app, list_elem_of_singleton. naive_solver.
    - rewrite Hq by done. naive_solver. }
  destruct HC as [H1 H2 H3 H4]. split.
  - intros q. destruct (decide (q = p)) as [->|Hne]; [|by rewrite Hq].
    rewrite Hp. apply NoDup_app. split_and!; [done| |apply NoDup_singleton].
    intros x Hx ->%list_elem_of_singleton. by eapply Hnot.
  - intros q1 q2 x. rewrite !Hin. intros [A|[-> ->]] [B|[-> B]]; subst; eauto; by exfalso; eapply Hnot.
  - intros q x. rewrite Hin, Hth. intros [A|[-> ->]]; [|rewrite decide_True by done; eauto].
    rewrite decide_False by (intros ->; by eapply Hnot). by apply (H3 q).
  - intros x th. rewrite Hth. case_decide as Hd.
    + intros _ _ _. exists p. rewrite Hin. by right.
    + intros A B C. destruct (H4 x th A B C) as [q Hx]. exists q. rewrite Hin. by left.
Qed.

Lemma consistent_dequeue Q Q' L L' p t q time :
  consistent Q L -> Q p = t :: q -> Q' p = q -> (forall p', p' <> p -> Q' p' = Q p') ->
  resumeThread t time L = Ok L' -> consistent Q' L'.
Proof.
  intros HC Hp Hp' Hq Hres. destruct (resumeThread_spec _ _ _ _ Hres) as (r & Hth).
  pose proof (c_nodup _ _ HC p) as Hnd. rewrite Hp in Hnd. apply NoDup_cons in Hnd as [Htq Hnd].
  assert (Hin : forall p' x, x ∈ Q' p' <-> x ∈ Q p' /\ x <> t).
  { intros p' x. destruct (decide (p' = p)) as [->|Hne].
    - rewrite Hp, Hp', elem_of_cons. naive_solver.
    - rewrite Hq by done. split; [|naive_solver]. intros Hx. split; [done|]. intros ->.
      apply Hne. apply (c_once _ _ HC p' p t); [done|]. rewrite Hp. left. }
  destruct HC as [H1 H2 H3 H4]. split.
  - intros p'. destruct (decide (p' = p)) as [->|Hne]; [by rewrite Hp'|by rewrite Hq].
  - intros p1 p2 x. rewrite !Hin. intros [A _] [B _]. eauto.
  - intros p' x. rewrite Hin, Hth. intros [A Hne]. rewrite decide_False by done. by apply (H3 p').
  - intros x th. rewrite Hth. case_decide as Hd; [by intros [= <-]|].
    intros A B C. destruct (H4 x th A B C) as [p' Hx]. exists p'. by rewrite Hin.
Qed.

Lemma consistent_move Q Q' L p p' t q :
  consistent Q L -> p <> p' -> Q p = t :: q -> Q' p = q -> Q' p' = Q p' ++ [t] ->
  (forall x, x <> p -> x <> p' -> Q' x = Q x) -> consistent Q' L.
Proof.
  intros HC Hpp Hp HQp HQp' Hq. pose proof (c_nodup _ _ HC p) as Hnd. rewrite Hp in Hnd.
  apply NoDup_cons in Hnd as [Htq Hnd].
  assert (Hto : forall x, t ∈ Q x -> x = p) by (intros x Hx; apply (c_once _ _ HC x p t); [done|rewrite Hp; left]).
  assert (Hin : forall a x, x ∈ Q' a <-> (x <> t /\ x ∈ Q a) \/ (x = t /\ a = p')).
  { intros a x. destruct (decide (a = p)) as [->|Hne].
    - rewrite HQp, Hp, elem_of_cons. naive_solver.
    - destruct (decide (a = p')) as [->|Hne'].
      + rewrite HQp', elem_of_app, list_elem_of_singleton. naive_solver.
      + rewrite Hq by done. naive_solver. }
  destruct HC as [H1 H2 H3 H4]. split.
  - intros a. destruct (decide (a = p)) as [->|Hne]; [by rewrite HQp|].
    destruct (decide (a = p')) as [->|Hne']; [|by rewrite Hq]. rewrite HQp'.
    apply NoDup_app. split_and!; [done| |apply NoDup_singleton].
    intros x Hx ->%list_elem_of_singleton. by apply Hto in Hx.
  - intros a b x. rewrite !Hin. intros [[A1 A2]|[-> ->]] [[B1 B2]|[B1 ->]]; subst; try done. eauto.
  - intros a x. rewrite Hin. intros [[_ A]|[-> _]]; [by apply (H3 a)|]. apply (H3 p). rewrite Hp. left.
  - intros x th A B C. destruct (H4 x th A B C) as [a Hx]. destruct (decide (x = t)) as [->|Hne].
    + exists p'. rewrite Hin. by right.
    + exists a. rewrite Hin. by left.
Qed.

(** * The calls keep the invariant *)
Record sync_inv (s : SyncServer) : Prop := mkInv {
  si_consistent : consistent (queue s) (m_thread_state s);
  si_free : forall k m, m_mutexes s !! k = Some m -> mx_owner m = NO_OWNER -> mx_waiting m = [];
  si_mutex : forall c x t k, m_conds s !! c = Some x -> (t, k) ∈ cd_waiting x -> is_Some (m_mutexes s !! k)
}.

Lemma queue_with_mutex k m s p :
  queue (with_mutex k m s) p = if decide (p = InMutex k) then mx_waiting m else queue s p.
Proof.
  destruct p as [k'|c|b]; cbn; try done. destruct (decide (k' = k)) as [->|Hne].
  - by rewrite lookup_insert_eq, decide_True.
  - rewrite lookup_insert_ne by done. by rewrite decide_False by congruence.
Qed.

Lemma queue_with_cond c x s p :
  queue (with_cond c x s) p = if decide (p = InCond c) then map fst (cd_waiting x) else queue s p.
Proof.
  destruct p as [k|c'|b]; cbn; try done. destruct (decide (c' = c)) as [->|Hne].
  - by rewrite lookup_insert_eq, decide_True.
  - rewrite lookup_insert_ne by done. by rewrite decide_False by congruence.
Qed.

Lemma queue_set_barrier b x y s p :
  m_barriers s !! b = Some y ->
  queue (set_barrier b x s) p = if decide (p = InBarrier b) then br_waiting x else queue s p.
Proof.
  intros Hb. apply lookup_lt_Some in Hb. destruct p as [k|c|b']; cbn; try done.
  destruct (decide (b' = b)) as [->|Hne].
  - by rewrite list_lookup_insert_eq, decide_True.
  - rewrite list_lookup_insert_ne by done. by rewrite decide_False by congruence.
Qed.

Lemma queue_mutex s k m : m_mutexes s !! k = Some m -> queue s (InMutex k) = mx_waiting m.
Proof. intros Hm. cbn. by rewrite Hm. Qed.

Lemma queue_cond s c x : m_conds s !! c = Some x -> queue s (InCond c) = map fst (cd_waiting x).
Proof. intros Hx. cbn. by rewrite Hx. Qed.

Lemma queue_barrier s b x : m_barriers s !! b = Some x -> queue s (InBarrier b) = br_waiting x.
Proof. intros Hx. cbn. by rewrite Hx. Qed.

Lemma runs_nonneg L t : runs L t -> 0 <= t.
Proof. intros (th & [? _]%thread_at_Some & _). done. Qed.

Lemma queued_nonneg Q L p t : consistent Q L -> t ∈ Q p -> 0 <= t.
Proof. intros HC Hin. destruct (c_stalled _ _ HC p t Hin) as (th & [? _]%thread_at_Some & _). done. Qed.

Lemma insert_keeps_Some {A} (m : gmap Z A) k x k' : is_Some (m !! k') -> is_Some (<[k := x]> m !! k').
Proof. intros Hk. rewrite lookup_insert_is_Some. destruct (decide (k = k')); eauto. Qed.
#[export] Hint Resolve insert_keeps_Some : sim.

(** Replacing a mutex whose waiters stay the same, by one that is not free. *)
Lemma inv_owner k m t s :
  sync_inv s -> m_mutexes s !! k = Some m -> t <> NO_OWNER ->
  sync_inv (with_mutex k (mkMutex (mx_waiting m) t) s).
Proof.
  intros [HC HF HM] Hm Ht. split.
  - eapply consistent_ext; [exact HC|]. intros p. rewrite queue_with_mutex. case_decide as Hd; [|done].
    subst p. symmetry. exact (queue_mutex s k m Hm).
  - intros k' m'. cbn. rewrite lookup_insert_Some. intros [[<- <-]|[_ Hk]]; [done|by eapply HF].
  - intros c x t' k' Hx Hin. cbn. eauto with sim.
Qed.

Lemma mutex_lock_inv k t time s r s' :
  sync_inv s -> running t s -> mutex_lock k t time s = Ok (r, s') -> sync_inv s'.
Proof.
  intros Hinv Hrun Hl. unfold mutex_lock in Hl. inv_ok. destruct (Z.eqb_spec (mx_owner v) NO_OWNER) as [Ho|Ho].
  - inv_ok. apply inv_owner; [done|done|].
    pose proof (runs_nonneg (m_thread_state s) t Hrun). unfold NO_OWNER. lia.
  - inv_ok. unfold stall in Hv0. inv_ok. destruct Hinv as [HC HF HM]. split.
    + eapply (consistent_enqueue _ _ _ _ (InMutex k) t STALL_MUTEX); [exact HC|exact Hrun|eassumption|done| |].
      * cbn [queue with_threads m_mutexes with_mutex]. rewrite lookup_insert_eq. cbn [from_option mx_waiting].
        by rewrite Hv.
      * intros q Hq. change (queue (with_threads _ ?x) q) with (queue x q). rewrite queue_with_mutex.
        by rewrite decide_False.
    + intros k' m'. cbn. rewrite lookup_insert_Some. intros [[<- <-]|[_ Hk]]; [done|by eapply HF].
    + intros c x t' k' Hx Hin. cbn. eauto with sim.
Qed.

Lemma resume_keeps_runs t time L L' x : resumeThread t time L = Ok L' -> runs L x -> runs L' x.
Proof.
  intros Hr (th & Hth & Hs). destruct (resumeThread_spec _ _ _ _ Hr) as (r & Hr'). unfold runs.
  rewrite Hr'. case_decide; eauto.
Qed.

Lemma mutex_unlock_inv k t time s o s' :
  sync_inv s -> mutex_unlock k t time s = Ok (o, s') ->
  sync_inv s' /\ (forall x, running x s -> running x s') /\ m_conds s' = m_conds s.
Proof.
  intros [HC HF HM] Hu. unfold mutex_unlock in Hu. inv_ok. destruct (mx_waiting v) as [|w q] eqn:Hw; inv_ok.
  - split; [|done]. split.
    + eapply consistent_ext; [exact HC|]. intros p. rewrite queue_with_mutex. case_decide as Hd; [|done].
      subst p. by rewrite (queue_mutex s k v).
    + intros k' m'. cbn. rewrite lookup_insert_Some. intros [[<- <-]|[_ Hk]]; [done|by eapply HF].
    + intros c x t' k' Hx Hin. cbn. eauto with sim.
  - unfold resume in Hv1. inv_ok. split; [|split; [|done]].
    + assert (Hq : queue s (InMutex k) = w :: q) by (by rewrite (queue_mutex s k v)). split.
      * eapply (consistent_dequeue _ _ _ _ (InMutex k) w q); [exact HC|exact Hq| | |eassumption].
        -- change (queue (with_threads _ ?x) ?p) with (queue x p). by rewrite queue_with_mutex, decide_True.
        -- intros p Hp. change (queue (with_threads _ ?x) ?p) with (queue x p).
           by rewrite queue_with_mutex, decide_False.
      * intros k' m'. cbn. rewrite lookup_insert_Some. intros [[<- <-]|[_ Hk]]; [|by eapply HF].
        cbn. intros Hn. assert (0 <= w) by (eapply (queued_nonneg _ _ (InMutex k)); [exact HC|rewrite Hq; left]).
        unfold NO_OWNER in Hn. lia.
      * intros c x t' k' Hx Hin. cbn. eauto with sim.
    + intros x Hx. eapply resume_keeps_runs; [eassumption|]. exact Hx.
Qed.

Lemma cond_wait_inv c t time k s r s' :
  sync_inv s -> running t s -> is_Some (m_mutexes s !! k) ->
  cond_wait c t time k s = Ok (r, s') -> sync_inv s'.
Proof.
  intros Hinv Hrun Hk Hw. unfold cond_wait in Hw. inv_ok.
  assert (Hk' : is_Some (m_mutexes b !! k)).
  { unfold mutex_unlock in Hv. inv_ok. case_match; inv_ok; [cbn; eauto with sim|].
    unfold resume in *. inv_ok. cbn. eauto with sim. }
  destruct (mutex_unlock_inv _ _ _ _ _ _ Hinv Hv) as ([HC HF HM] & Hrun1 & _).
  pose proof (Hrun1 t Hrun) as Ht. unfold stall in *. inv_ok. split.
  - eapply (consistent_enqueue _ _ _ _ (InCond c) t STALL_COND); [exact HC|exact Ht|eassumption|done| |].
    + cbn [queue with_threads m_conds with_cond]. rewrite lookup_insert_eq.
      cbn [from_option cd_waiting]. by rewrite map_app, Hv0.
    + intros q Hq. change (queue (with_threads _ ?x) q) with (queue x q).
      by rewrite queue_with_cond, decide_False.
  - exact HF.
  - intros c' x t' k'. cbn. rewrite lookup_insert_Some. intros [[<- <-]|[_ Hx]] Hin; [|by eapply HM].
    cbn in Hin. rewrite elem_of_app, list_elem_of_singleton in Hin.
    destruct Hin as [Hin|[= -> ->]]; [by eapply HM|done].
Qed.

(** A waiter leaves a condition variable: it gets its mutex, or queues for it. *)
Lemma wake_inv c w k q t time s r s' :
  sync_inv s -> m_conds s !! c = Some (mkCond ((w, k) :: q)) ->
  mutex_lock_async k w t time (with_cond c (mkCond q) s) = Ok (r, s') ->
  sync_inv s' /\ m_conds s' = <[c := mkCond q]> (m_conds s).
Proof.
  intros [HC HF HM] Hc Hl. unfold mutex_lock_async in Hl. inv_ok. cbn [with_cond m_mutexes] in Hv.
  assert (Hq : queue s (InCond c) = w :: map fst q) by (by rewrite (queue_cond _ _ _ Hc)).
  assert (HM' : forall c' x t' k', <[c := mkCond q]> (m_conds s) !! c' = Some x ->
    (t', k') ∈ cd_waiting x -> is_Some (m_mutexes s !! k')).
  { intros c' x t' k'. rewrite lookup_insert_Some. intros [[<- <-]|[_ Hx]] Hin; [|by eapply HM].
    eapply HM; [exact Hc|]. by right. }
  destruct (Z.eqb_spec (mx_owner v) NO_OWNER) as [Ho|Ho].
  - inv_ok. unfold resume in *. inv_ok. split; [|done]. split.
    + eapply (consistent_dequeue _ _ _ _ (InCond c) w (map fst q)); [exact HC|exact Hq| | |eassumption].
      * change (queue (with_threads _ ?x) ?p) with (queue x p).
        by rewrite queue_with_mutex, decide_False, queue_with_cond, decide_True.
      * intros p Hp. change (queue (with_threads _ ?x) ?p) with (queue x p). rewrite queue_with_mutex.
        case_decide as Hd; [|by rewrite queue_with_cond, decide_False].
        subst p. symmetry. exact (queue_mutex s k v Hv).
    + intros k' m'. cbn. rewrite lookup_insert_Some. intros [[<- <-]|[_ Hk]]; [|by eapply HF].
      intros _. by apply (HF k v).
    + intros c' x t' k' Hx Hin. cbn. eauto with sim.
  - inv_ok. split; [|done]. split.
    + eapply (consistent_move _ _ _ (InCond c) (InMutex k) w (map fst q)); [exact HC|done|exact Hq| | |].
      * by rewrite queue_with_mutex, decide_False, queue_with_cond, decide_True.
      * rewrite queue_with_mutex, decide_True by done. cbn. by rewrite Hv.
      * intros x Hx1 Hx2. by rewrite queue_with_mutex, decide_False, queue_with_cond, decide_False.
    + intros k' m'. cbn. rewrite lookup_insert_Some. intros [[<- <-]|[_ Hk]]; [done|by eapply HF].
    + intros c' x t' k' Hx Hin. cbn. eauto with sim.
Qed.

Lemma cond_signal_inv c t time s o s' : sync_inv s -> cond_signal c t time s = Ok (o, s') -> sync_inv s'.
Proof.
  intros Hinv Hs. unfold cond_signal in Hs. inv_ok. destruct v as [[|[w k] q]]; cbn in Hk; inv_ok; [done|].
  by eapply wake_inv.
Qed.

Lemma broadcast_loop_inv c t time l s s' :
  sync_inv s -> m_conds s !! c = Some (mkCond l) -> broadcast_loop c t time l s = Ok s' -> sync_inv s'.
Proof.
  revert s. induction l as [|[w k] q IH]; intros s Hinv Hc Hb; cbn in Hb; inv_ok; [done|].
  destruct (wake_inv _ _ _ _ _ _ _ _ _ Hinv Hc Hv) as [Hinv' Hc']. eapply IH; [exact Hinv'| |eassumption].
  rewrite Hc'. apply lookup_insert_eq.
Qed.

Lemma release_step_inv b count time w q s s' :
  sync_inv s -> m_barriers s !! b = Some (mkBarrier (w :: q) count) ->
  resume w time (set_barrier b (mkBarrier q count) s) = Ok s' -> sync_inv s'.
Proof.
  intros [HC HF HM] Hb Hr. unfold resume in Hr. inv_ok. split; [|exact HF|exact HM].
  eapply (consistent_dequeue _ _ _ _ (InBarrier b) w q); [exact HC|by rewrite (queue_barrier _ _ _ Hb)| | |eassumption].
  - change (queue (with_threads _ ?x) ?p) with (queue x p). by erewrite queue_set_barrier, decide_True.
  - intros p Hp. change (queue (with_threads _ ?x) ?p) with (queue x p).
    by erewrite queue_set_barrier, decide_False.
Qed.

Lemma release_loop_inv b count time l s s' :
  sync_inv s -> m_barriers s !! b = Some (mkBarrier l count) ->
  release_loop b count time l s = Ok s' -> sync_inv s'.
Proof.
  revert s. induction l as [|w q IH]; intros s Hinv Hb Hr; cbn in Hr; inv_ok; [done|].
  pose proof (release_step_inv _ _ _ _ _ _ _ Hinv Hb Hv) as Hinv1. eapply IH; [exact Hinv1| |eassumption].
  unfold resume in Hv. inv_ok. cbn. apply list_lookup_insert_eq. by eapply lookup_lt_Some.
Qed.

Lemma barrier_wait_inv b t time s r s' :
  sync_inv s -> running t s -> barrier_wait b t time s = Ok (r, s') -> sync_inv s'.
Proof.
  intros Hinv Hrun Hw. unfold barrier_wait in Hw. inv_ok. case_match; inv_ok.
  - eapply release_loop_inv; [exact Hinv| |eassumption]. rewrite Hv. by destruct v.
  - unfold stall in *. inv_ok. destruct Hinv as [HC HF HM]. split; [|exact HF|exact HM].
    eapply (consistent_enqueue _ _ _ _ (InBarrier b) t STALL_BARRIER); [exact HC|exact Hrun|eassumption|done| |].
    + change (queue (with_threads _ ?x) ?p) with (queue x p). erewrite queue_set_barrier, decide_True by done.
      cbn. by rewrite Hv.
    + intros q Hq. change (queue (with_threads _ ?x) ?p) with (queue x p).
      by erewrite queue_set_barrier, decide_False.
Qed.

(** Looking up an object creates it empty when it is new. *)
Lemma getMutex_inv k cc s s' :
  sync_inv s -> getMutex k cc s = Ok s' ->
  sync_inv s' /\ is_Some (m_mutexes s' !! k) /\ m_thread_state s' = m_thread_state s /\ m_conds s' = m_conds s.
Proof.
  intros Hinv Hg. unfold getMutex in Hg. destruct (m_mutexes s !! k) as [m|] eqn:Hm; [inv_ok; eauto|].
  destruct cc; inv_ok. destruct Hinv as [HC HF HM]. split_and!; try done; [|cbn; rewrite lookup_insert_eq; eauto].
  split.
  - eapply consistent_ext; [exact HC|]. intros p. rewrite queue_with_mutex. case_decide as Hd; [|done].
    subst p. cbn. by rewrite Hm.
  - intros k' m'. cbn. rewrite lookup_insert_Some. intros [[<- <-]|[_ Hk]]; [done|by eapply HF].
  - intros c x t' k' Hx Hin. cbn. eauto with sim.
Qed.

Lemma getCond_inv c cc s s' :
  sync_inv s -> getCond c cc s = Ok s' ->
  sync_inv s' /\ is_Some (m_conds s' !! c) /\ m_thread_state s' = m_thread_state s /\ m_mutexes s' = m_mutexes s.
Proof.
  intros Hinv Hg. unfold getCond in Hg. destruct (m_conds s !! c) as [m|] eqn:Hm; [inv_ok; eauto|].
  destruct cc; inv_ok. destruct Hinv as [HC HF HM]. split_and!; try done; [|cbn; rewrite lookup_insert_eq; eauto].
  split; [|exact HF|].
  - eapply consistent_ext; [exact HC|]. intros p. rewrite queue_with_cond. case_decide as Hd; [|done].
    subst p. cbn. by rewrite Hm.
  - intros c' x t' k'. cbn. rewrite lookup_insert_Some. intros [[<- <-]|[_ Hx]] Hin; [|by eapply HM].
    by apply not_elem_of_nil in Hin.
Qed.

Lemma barrierInit_inv count s : sync_inv s -> sync_inv (barrierInit count s).2.
Proof.
  intros [HC HF HM]. split; [|exact HF|exact HM]. eapply consistent_ext; [exact HC|].
  intros [k|c|b]; cbn; try done. destruct (decide (b < length (m_barriers s))%nat).
  - by rewrite lookup_app_l.
  - rewrite lookup_app_r by lia. rewrite (lookup_ge_None_2 (m_barriers s)) by lia.
    destruct (b - length (m_barriers s))%nat as [|n']; [done|]. by destruct n'.
Qed.

Lemma running_same t s s' : m_thread_state s' = m_thread_state s -> running t s -> running t s'.
Proof. unfold running. by intros ->. Qed.

Lemma perform_inv t time o s r s' :
  sync_inv s -> running t s -> perform t time o s = Ok (r, s') -> sync_inv s'.
Proof.
  intros Hinv Hrun Hp. destruct o; cbn in Hp.
  - unfold mutexInit in Hp. inv_ok. by eapply getMutex_inv.
  - unfold mutexLock in Hp. inv_ok. destruct (getMutex_inv _ _ _ _ Hinv Hv) as (Hi & _ & Ht & _).
    case_match; inv_ok; [done|]. eapply mutex_lock_inv; [exact Hi| |eassumption]. by eapply running_same.
  - unfold mutexUnlock in Hp. inv_ok. destruct (getMutex_inv _ _ _ _ Hinv Hv) as (Hi & _).
    by eapply mutex_unlock_inv.
  - unfold condInit in Hp. inv_ok. by eapply getCond_inv.
  - unfold condWait in Hp. inv_ok. destruct (getMutex_inv _ _ _ _ Hinv Hv) as (Hi & Hk & Ht & _).
    destruct (getCond_inv _ _ _ _ Hi Hv0) as (Hi' & _ & Ht' & Hm').
    eapply cond_wait_inv; [exact Hi'| | |eassumption]; [|by rewrite Hm'].
    eapply running_same; [|exact Hrun]. congruence.
  - unfold condSignal in Hp. inv_ok. destruct (getCond_inv _ _ _ _ Hinv Hv) as (Hi & _).
    by eapply cond_signal_inv.
  - unfold condBroadcast in Hp. inv_ok. destruct (getCond_inv _ _ _ _ Hinv Hv) as (Hi & _).
    unfold cond_broadcast in *. inv_ok. eapply broadcast_loop_inv; [exact Hi| |eassumption].
    match goal with Hx : m_conds _ !! c = Some ?x |- _ => rewrite Hx; by destruct x end.
  - inv_ok. by apply barrierInit_inv.
  - by eapply barrier_wait_inv.
Qed.

Lemma reachable_sync_inv s s' : rtc sync_step s s' -> sync_inv s -> sync_inv s'.
Proof.
  intros Hr. induction Hr as [|s1 s2 s3 Hs _ IH]; [done|]. intros Hi. apply IH.
  destruct Hs as [t time o r s1 s2 Hrun Hp]. by eapply perform_inv.
Qed.
