(* ===== verification/SyncProps.v ===== *)
(** What the synchronisation server guarantees the threads of the application. *)
From stdpp Require Import base numbers list gmap relations.
From Stdlib Require Import ZArith Lia Bool.
From S2P Require Import Prelude Sync SyncInv.
Open Scope Z_scope.

(** A server without objects. *)
Definition fresh_server (cost : Z) (threads : list ThreadState) : SyncServer :=
  mkSync ∅ ∅ [] cost threads.

Lemma fresh_server_inv cost threads :
  Forall (fun th => status th = STALLED -> ~ sync_reason (stalled_reason th)) threads ->
  sync_inv (fresh_server cost threads).
Proof.
  intros Hall. assert (HQ : forall p, queue (fresh_server cost threads) p = [])
    by (intros [k|c|b]; cbn; rewrite ?lookup_empty, ?lookup_nil; done).
  split; [|by intros k m Hm; cbn in Hm; rewrite lookup_empty in Hm|by intros c x t k Hx; cbn in Hx; rewrite lookup_empty in Hx].
  split.
  - intros p. rewrite HQ. constructor.
  - intros p q t. rewrite HQ. by intros ?%not_elem_of_nil.
  - intros p t. rewrite HQ. by intros ?%not_elem_of_nil.
  - intros t th [_ Hth]%thread_at_Some Hs Hr. exfalso. eapply Forall_lookup_1 in Hall; [|exact Hth]. by apply Hall.
Qed.

(** * Ownership *)

(** A mutex that is held keeps its owner, and its waiters keep their places. *)
Definition keeps (k : Z) (m : SimMutex) (s : SyncServer) : Prop :=
  exists l, m_mutexes s !! k = Some (mkMutex (mx_waiting m ++ l) (mx_owner m)).

Lemma keeps_refl k m s : m_mutexes s !! k = Some m -> keeps k m s.
Proof. intros Hm. exists []. rewrite app_nil_r, Hm. by destruct m. Qed.

Section ownership.
Context (k : Z) (m : SimMutex).
Hypothesis Hheld : mx_owner m <> NO_OWNER.

Lemma keeps_same s s' : m_mutexes s' = m_mutexes s -> keeps k m s -> keeps k m s'.
Proof. unfold keeps. by intros ->. Qed.

Lemma keeps_other k' m' s : k' <> k -> keeps k m s -> keeps k m (with_mutex k' m' s).
Proof. intros Hne [l Hl]. exists l. cbn. by rewrite lookup_insert_ne. Qed.

Lemma keeps_push s t l :
  m_mutexes s !! k = Some (mkMutex (mx_waiting m ++ l) (mx_owner m)) ->
  keeps k m (with_mutex k (mkMutex ((mx_waiting m ++ l) ++ [t]) (mx_owner m)) s).
Proof. intros Hl. exists (l ++ [t]). cbn. by rewrite lookup_insert_eq, app_assoc. Qed.

Lemma stall_mutexes t r s s' : stall t r s = Ok s' -> m_mutexes s' = m_mutexes s.
Proof. unfold stall. intros Hs. by inv_ok. Qed.

Lemma resume_mutexes t time s s' : resume t time s = Ok s' -> m_mutexes s' = m_mutexes s.
Proof. unfold resume. intros Hs. by inv_ok. Qed.

Lemma mutex_lock_keeps k' t time s r s' :
  mutex_lock k' t time s = Ok (r, s') -> keeps k m s -> keeps k m s'.
Proof using Hheld.
  intros Hl Hk. unfold mutex_lock in Hl. inv_ok. destruct (decide (k' = k)) as [->|Hne].
  - destruct Hk as [l Hk]. assert (v = mkMutex (mx_waiting m ++ l) (mx_owner m)) as -> by congruence.
    cbn [mx_owner mx_waiting] in *. rewrite (proj2 (Z.eqb_neq _ _) Hheld) in *. inv_ok.
    eapply keeps_same; [by eapply stall_mutexes|]. by apply keeps_push.
  - case_match; inv_ok; [by apply keeps_other|].
    eapply keeps_same; [by eapply stall_mutexes|]. by apply keeps_other.
Qed.

Lemma lock_async_keeps k' w t time s r s' :
  mutex_lock_async k' w t time s = Ok (r, s') -> keeps k m s -> keeps k m s'.
Proof using Hheld.
  intros Hl Hk. unfold mutex_lock_async in Hl. inv_ok. destruct (decide (k' = k)) as [->|Hne].
  - destruct Hk as [l Hk]. assert (v = mkMutex (mx_waiting m ++ l) (mx_owner m)) as -> by congruence.
    cbn [mx_owner mx_waiting] in *. rewrite (proj2 (Z.eqb_neq _ _) Hheld) in *. inv_ok. by apply keeps_push.
  - case_match; inv_ok; [|by apply keeps_other].
    eapply keeps_same; [by eapply resume_mutexes|]. by apply keeps_other.
Qed.

Lemma mutex_unlock_keeps k' t time s o s' :
  k' <> k \/ t <> mx_owner m ->
  mutex_unlock k' t time s = Ok (o, s') -> keeps k m s -> keeps k m s'.
Proof.
  intros Hor Hu Hk. unfold mutex_unlock in Hu. inv_ok. zbool. destruct (decide (k' = k)) as [->|Hne].
  - destruct Hk as [l Hk]. assert (v = mkMutex (mx_waiting m ++ l) (mx_owner m)) as -> by congruence.
    cbn [mx_owner] in *. destruct Hor; congruence.
  - case_match; inv_ok; [by apply keeps_other|].
    eapply keeps_same; [by eapply resume_mutexes|]. by apply keeps_other.
Qed.

Lemma broadcast_keeps c t time l s s' :
  broadcast_loop c t time l s = Ok s' -> keeps k m s -> keeps k m s'.
Proof using Hheld.
  revert s. induction l as [|[w k'] q IH]; intros s Hb Hk; cbn in Hb; inv_ok; [done|].
  eapply IH; [eassumption|]. by eapply lock_async_keeps.
Qed.

Lemma release_keeps b count time l s s' :
  release_loop b count time l s = Ok s' -> keeps k m s -> keeps k m s'.
Proof.
  revert s. induction l as [|w q IH]; intros s Hb Hk; cbn in Hb; inv_ok; [done|].
  eapply IH; [eassumption|]. eapply keeps_same; [by eapply resume_mutexes|]. done.
Qed.

Lemma getMutex_keeps k' cc s s' : getMutex k' cc s = Ok s' -> keeps k m s -> keeps k m s'.
Proof.
  intros Hg [l Hk]. unfold getMutex in Hg. destruct (m_mutexes s !! k') as [x|] eqn:Hx; [inv_ok; by exists l|].
  destruct cc; inv_ok. exists l. cbn. rewrite lookup_insert_ne; [done|]. congruence.
Qed.

Lemma getCond_keeps c cc s s' : getCond c cc s = Ok s' -> keeps k m s -> keeps k m s'.
Proof. intros Hg Hk. unfold getCond in Hg. case_match; [by inv_ok|]. destruct cc; by inv_ok. Qed.

(** Only the owner's own unlock, or its wait on a condition variable, ends its
    ownership. *)
Definition gives_up (t : Z) (o : call) : Prop :=
  t = mx_owner m /\ match o with MutexUnlock k' => k' = k | CondWait _ k' => k' = k | _ => False end.

Lemma perform_keeps t time o s r s' :
  ~ gives_up t o -> perform t time o s = Ok (r, s') -> keeps k m s -> keeps k m s'.
Proof using Hheld.
  intros Hng Hp Hk. unfold gives_up in Hng. destruct o; cbn in Hp.
  - unfold mutexInit in Hp. inv_ok. by eapply getMutex_keeps.
  - unfold mutexLock in Hp. inv_ok. pose proof (getMutex_keeps _ _ _ _ Hv Hk).
    case_match; inv_ok; [done|]. by eapply mutex_lock_keeps.
  - unfold mutexUnlock in Hp. inv_ok. pose proof (getMutex_keeps _ _ _ _ Hv Hk).
    eapply mutex_unlock_keeps; [|eassumption|done]. destruct (decide (k0 = k)); [right|left]; naive_solver.
  - unfold condInit in Hp. inv_ok. by eapply getCond_keeps.
  - unfold condWait in Hp. inv_ok. pose proof (getMutex_keeps _ _ _ _ Hv Hk) as Hkeep1.
    pose proof (getCond_keeps _ _ _ _ Hv0 Hkeep1) as Hkeep2. unfold cond_wait in *. inv_ok.
    eapply keeps_same; [by eapply stall_mutexes|]. apply (keeps_same b); [done|].
    eapply mutex_unlock_keeps; [|eassumption|done]. destruct (decide (k0 = k)); [right|left]; naive_solver.
  - unfold condSignal in Hp. inv_ok. pose proof (getCond_keeps _ _ _ _ Hv Hk) as Hkeep1.
    unfold cond_signal in *. inv_ok. case_match; [by inv_ok|]. case_match. inv_ok. by eapply lock_async_keeps.
  - unfold condBroadcast in Hp. inv_ok. pose proof (getCond_keeps _ _ _ _ Hv Hk) as Hkeep1.
    unfold cond_broadcast in *. inv_ok. by eapply broadcast_keeps.
  - inv_ok. eapply keeps_same; [|exact Hk]. done.
  - unfold barrierWait, barrier_wait in Hp. inv_ok. case_match; inv_ok; [by eapply release_keeps|].
    eapply keeps_same; [by eapply stall_mutexes|]. done.
Qed.
End ownership.

(** C29: no thread is lost or queued twice.  In every state the threads of the
    application can bring the server into, from a fresh one, by calls in any
    order, the threads stalled on a mutex, a condition variable or a barrier are
    exactly those in a waiting queue; each is in one queue only, once; and a
    mutex nobody owns has no waiters. *)
Theorem sync_threads_never_lost cost threads s :
  Forall (fun th => status th = STALLED -> ~ sync_reason (stalled_reason th)) threads ->
  rtc sync_step (fresh_server cost threads) s ->
  (forall t th, thread_at (m_thread_state s) t = Some th ->
     (status th = STALLED /\ sync_reason (stalled_reason th)) <-> exists p, t ∈ queue s p) /\
  (forall p q t, t ∈ queue s p -> t ∈ queue s q -> p = q) /\
  (forall p, NoDup (queue s p)) /\
  (forall k m, m_mutexes s !! k = Some m -> mx_owner m = NO_OWNER -> mx_waiting m = []).
Proof.
  intros Hall Hr. apply reachable_sync_inv in Hr as [[H1 H2 H3 H4] HF _]; [|by apply fresh_server_inv].
  split; [|done]. intros t th Ht. split.
  - intros [Hs Hw]. by eapply H4.
  - intros [p Hp]. destruct (H3 p t Hp) as (th' & Ht' & Hs & Hw). assert (th' = th) as -> by congruence. done.
Qed.

(** C30: mutual exclusion.  While thread [o] owns a mutex, whatever calls the
    threads make, [o] stays its owner and the waiters keep their places, until
    [o] itself unlocks the mutex or waits on a condition variable with it; and a
    call that takes the mutex leaves its caller the owner. *)
Theorem mutex_excludes s s' t time o r k m :
  m_mutexes s !! k = Some m -> mx_owner m <> NO_OWNER ->
  perform t time o s = Ok (r, s') ->
  (t = mx_owner m -> o <> MutexUnlock k /\ forall c, o <> CondWait c k) ->
  (exists l, m_mutexes s' !! k = Some (mkMutex (mx_waiting m ++ l) (mx_owner m))) /\
  (forall k' b time', o = MutexLock k' b -> r = Returned time' true ->
     exists m', m_mutexes s' !! k' = Some m' /\ mx_owner m' = t).
Proof.
  intros Hm Hheld Hp Hng. split.
  - eapply perform_keeps; [exact Hheld| |exact Hp|by apply keeps_refl].
    intros [Ht Ho]. destruct (Hng Ht) as [H1 H2]. destruct o; try done; subst; [by apply H1|by eapply H2].
  - intros k' b time' -> ->. cbn in Hp. unfold mutexLock in Hp. inv_ok. case_match; inv_ok; [done|].
    unfold mutex_lock in *. inv_ok. destruct (mx_owner _ =? NO_OWNER); inv_ok; [|done].
    eexists. cbn. by rewrite lookup_insert_eq.
Qed.

(** * Hand-over *)

(** The threads of [l] unlock mutex [k], one after the other. *)
Fixpoint unlocks (k time : Z) (l : list Z) (s : SyncServer) : result SyncServer :=
  match l with
  | [] => Ok s
  | t :: l' => let! (_, s) := perform t time (MutexUnlock k) s in unlocks k time l' s
  end.

Lemma unlock_hands_over k time s o w q :
  sync_inv s -> m_mutexes s !! k = Some (mkMutex (w :: q) o) ->
  exists r s', perform o time (MutexUnlock k) s = Ok (r, s') /\
    m_mutexes s' !! k = Some (mkMutex q w) /\ running w s' /\ sync_inv s' /\
    m_reschedule_cost s' = m_reschedule_cost s /\
    (exists th, thread_at (m_thread_state s') w = Some th /\ wakeup_time th = u64 (time + m_reschedule_cost s)).
Proof.
  intros Hinv Hm. cbn [perform]. unfold mutexUnlock, getMutex. rewrite Hm. cbn [rbind].
  unfold mutex_unlock. rewrite Hm. cbn [of_option rbind mx_owner mx_waiting]. rewrite Z.eqb_refl. cbn [rguard rbind].
  destruct (c_stalled _ _ (si_consistent _ Hinv) (InMutex k) w) as (th & Hth & _);
    [rewrite (queue_mutex _ _ _ Hm); left|].
  assert (Hres : exists l, resumeThread w (u64 (time + m_reschedule_cost s)) (m_thread_state s) = Ok l)
    by (unfold resumeThread; rewrite Hth; cbn; eauto).
  destruct Hres as [l Hres]. unfold resume. cbn [with_mutex m_thread_state]. rewrite Hres. cbn [rbind].
  destruct (resumeThread_spec _ _ _ _ Hres) as (rs & Hl).
  assert (Hw : thread_at l w = Some (mkThread RUNNING rs (u64 (time + m_reschedule_cost s))))
    by (by rewrite Hl, decide_True).
  eexists _, _. split; [done|]. cbn. rewrite lookup_insert_eq. split_and!; [done|by eexists| |done|by eexists].
  assert (Hu : mutex_unlock k o (u64 (time + m_reschedule_cost s)) s =
    Ok (w, with_threads l (with_mutex k (mkMutex q w) s))).
  { unfold mutex_unlock. rewrite Hm. cbn. rewrite Z.eqb_refl. cbn. unfold resume. cbn. by rewrite Hres. }
  by destruct (mutex_unlock_inv _ _ _ _ _ _ Hinv Hu).
Qed.

(** C31: every waiter of a mutex gets it, in the order of arrival.  When the owner
    and then the waiters before it in the queue unlock the mutex, each of them
    succeeds, and the waiter at position [i] is the owner, is running, and wakes
    up one reschedule cost after the last unlock. *)
Theorem mutex_waiters_served_in_order s k time o ws i w :
  sync_inv s -> m_mutexes s !! k = Some (mkMutex ws o) -> ws !! i = Some w ->
  exists s' th, unlocks k time (take (S i) (o :: ws)) s = Ok s' /\
    m_mutexes s' !! k = Some (mkMutex (drop (S i) ws) w) /\
    thread_at (m_thread_state s') w = Some th /\ status th = RUNNING /\
    wakeup_time th = u64 (time + m_reschedule_cost s).
Proof.
  revert s o ws. induction i as [|i IH]; intros s o ws Hinv Hm Hw; destruct ws as [|x ws]; try done.
  - injection Hw as ->. destruct (unlock_hands_over k time s o w ws Hinv Hm)
      as (r & s' & E & Hm' & (th & Hth & Hrun) & _ & _ & (th' & Hth' & Hwk)).
    exists s', th. cbn [take unlocks]. rewrite E. cbn [rbind].
    assert (th' = th) as -> by congruence. done.
  - destruct (unlock_hands_over k time s o x ws Hinv Hm) as (r & s1 & E & Hm1 & _ & Hinv1 & Hc & _).
    destruct (IH s1 x ws Hinv1 Hm1 Hw) as (s' & th & Hu & Hm' & Hth & Hrun & Hwk).
    exists s', th. rewrite Hc in Hwk. split_and!; try done.
    change (take (S (S i)) (o :: x :: ws)) with (o :: take (S i) (x :: ws)). cbn [unlocks].
    rewrite E. cbn [rbind]. exact Hu.
Qed.

(** * Barriers *)

(** The threads of [l] arrive at barrier [b], one after the other. *)
Fixpoint arrivals (b : nat) (time : Z) (l : list Z) (s : SyncServer) : result (list reply * SyncServer) :=
  match l with
  | [] => Ok ([], s)
  | t :: l' =>
      let! (r, s) := perform t time (BarrierWait b) s in
      let! (rs, s) := arrivals b time l' s in
      Ok (r :: rs, s)
  end.

Definition all_running (l : list Z) (s : SyncServer) : Prop := Forall (fun t => running t s) l.

Lemma stall_ok t r s : running t s -> exists s', stall t r s = Ok s'.
Proof. intros (th & Hth & _). unfold stall, stallThread. rewrite Hth. cbn. eauto. Qed.

Lemma stall_keeps_running t r s s' x : stall t r s = Ok s' -> x <> t -> running x s -> running x s'.
Proof.
  unfold stall. intros Hs Hne (th & Hth & Hr). inv_ok. destruct (stallThread_spec _ _ _ _ Hv) as (w & Hl).
  exists th. cbn. by rewrite Hl, decide_False.
Qed.

(** An arrival that is not the last. *)
Lemma arrive_blocks b t time n l s :
  sync_inv s -> running t s -> m_barriers s !! b = Some (mkBarrier l n) ->
  Z.of_nat (length l) <> u32 (n - 1) ->
  exists s', perform t time (BarrierWait b) s = Ok (Blocked, s') /\ sync_inv s' /\
    m_barriers s' !! b = Some (mkBarrier (l ++ [t]) n) /\
    (forall x, x <> t -> running x s -> running x s') /\
    m_mutexes s' = m_mutexes s /\ m_conds s' = m_conds s.
Proof.
  intros Hinv Hrun Hb Hn.
  destruct (stall_ok t STALL_BARRIER (set_barrier b (mkBarrier (l ++ [t]) n) s)) as [s' Hs']; [exact Hrun|].
  assert (E : perform t time (BarrierWait b) s = Ok (Blocked, s')).
  { cbn [perform]. unfold barrierWait, barrier_wait. rewrite Hb. cbn [of_option rbind br_waiting br_count].
    rewrite (proj2 (Z.eqb_neq _ _) Hn), Hs'. done. }
  exists s'. split; [exact E|]. split; [by eapply perform_inv|]. split; [|split].
  - unfold stall in Hs'. inv_ok. cbn. apply list_lookup_insert_eq. by eapply lookup_lt_Some.
  - intros x Hx Hr. eapply stall_keeps_running; [exact Hs'|done|exact Hr].
  - unfold stall in Hs'. by inv_ok.
Qed.

(** The last arrival releases the queue. *)
Lemma release_loop_ok b n time l s :
  sync_inv s -> m_barriers s !! b = Some (mkBarrier l n) ->
  exists s', release_loop b n time l s = Ok s' /\ m_barriers s' !! b = Some (mkBarrier [] n) /\
    all_running l s' /\ (forall x, running x s -> running x s').
Proof.
  revert s. induction l as [|w q IH]; intros s Hinv Hb; [exists s; split_and!; try done; constructor|].
  destruct (c_stalled _ _ (si_consistent _ Hinv) (InBarrier b) w) as (th & Hth & _);
    [rewrite (queue_barrier _ _ _ Hb); left|].
  assert (Hres : exists l, resumeThread w time (m_thread_state s) = Ok l)
    by (unfold resumeThread; rewrite Hth; cbn; eauto).
  destruct Hres as [l Hres]. set (s1 := with_threads l (set_barrier b (mkBarrier q n) s)).
  assert (E : resume w time (set_barrier b (mkBarrier q n) s) = Ok s1)
    by (unfold resume; cbn [set_barrier with_barriers m_thread_state]; by rewrite Hres).
  assert (Hb1 : m_barriers s1 !! b = Some (mkBarrier q n))
    by (cbn; apply list_lookup_insert_eq; by eapply lookup_lt_Some).
  pose proof (release_step_inv _ _ _ _ _ _ _ Hinv Hb E) as Hinv1.
  destruct (IH s1 Hinv1 Hb1) as (s' & Hrel & Hb' & Hall & Hkeep).
  assert (Hmono : forall x, running x s -> running x s1)
    by (intros x Hx; eapply (resume_keeps_runs w time (m_thread_state s)); [exact Hres|exact Hx]).
  exists s'. cbn [release_loop]. rewrite E. cbn [rbind]. split_and!; [done|done| |by eauto].
  constructor; [|done]. apply Hkeep. destruct (resumeThread_spec _ _ _ _ Hres) as (r & Hl).
  eexists. split; [cbn; by rewrite Hl, decide_True|done].
Qed.

Lemma arrivals_release b n time ts l s :
  sync_inv s -> m_barriers s !! b = Some (mkBarrier l n) -> 1 <= n < 2 ^ 32 ->
  Z.of_nat (length l) + Z.of_nat (length ts) = n -> ts <> [] -> NoDup ts -> all_running ts s ->
  exists s', arrivals b time ts s = Ok (replicate (length ts - 1) Blocked ++ [Returned time true], s') /\
    m_barriers s' !! b = Some (mkBarrier [] n) /\ all_running (l ++ ts) s'.
Proof.
  revert l s. induction ts as [|t ts IH]; intros l s Hinv Hb Hn Hlen Hne Hnd Hall; [done|].
  assert (Hu : u32 (n - 1) = n - 1) by (apply u32_small; lia).
  apply Forall_cons in Hall as [Hrun Hall]. apply NoDup_cons in Hnd as [Hnt Hnd].
  destruct ts as [|t' ts].
  - cbn [length] in Hlen. destruct (release_loop_ok b n time l s Hinv Hb) as (s' & Hrel & Hb' & Hall' & Hkeep).
    exists s'. cbn [arrivals perform]. unfold barrierWait, barrier_wait. rewrite Hb.
    cbn [of_option rbind br_waiting br_count].
    rewrite (proj2 (Z.eqb_eq _ _)) by lia. rewrite Hrel. cbn [rbind]. split_and!; [done|done|].
    apply Forall_app. split; [done|]. apply Forall_singleton. by apply Hkeep.
  - destruct (arrive_blocks b t time n l s Hinv Hrun Hb) as (s1 & E & Hinv1 & Hb1 & Hkeep & _).
    { cbn [length] in Hlen. lia. }
    destruct (IH (l ++ [t]) s1 Hinv1 Hb1 Hn) as (s' & Ha & Hb' & Hall'); [| |done| |].
    + rewrite length_app. cbn [length] in *. lia.
    + done.
    + apply Forall_forall. intros x Hx. apply Hkeep; [|by eapply Forall_forall in Hall].
      intros ->. by apply Hnt.
    + exists s'. rewrite <- app_assoc in Hall'. split_and!; [|done|exact Hall'].
      cbn [arrivals]. rewrite E. cbn [rbind]. cbn [arrivals] in Ha. rewrite Ha. cbn [rbind].
      cbn [length]. rewrite !Nat.sub_succ, Nat.sub_0_r. done.
Qed.

(** C32: a barrier of [n] threads releases them together and is ready for the next
    round.  When [n] running threads arrive one after the other, the first
    [n - 1] calls block and the last returns at its own time; then all [n] are
    running again and the queue is empty. *)
Theorem barrier_releases_all s b n ts time :
  sync_inv s -> m_barriers s !! b = Some (mkBarrier [] n) -> 1 <= n < 2 ^ 32 ->
  Z.of_nat (length ts) = n -> NoDup ts -> all_running ts s ->
  exists s', arrivals b time ts s = Ok (replicate (length ts - 1) Blocked ++ [Returned time true], s') /\
    m_barriers s' !! b = Some (mkBarrier [] n) /\ all_running ts s'.
Proof.
  intros Hinv Hb Hn Hlen Hnd Hall. apply (arrivals_release b n time ts [] s); try done.
  intros ->. cbn in Hlen. lia.
Qed.

(** * Trying to lock a mutex one owns *)

(** A thread queued for a mutex it owns. *)
Definition self_locked (k t : Z) (s : SyncServer) : Prop :=
  sync_inv s /\ exists m, m_mutexes s !! k = Some m /\ mx_owner m = t /\ t ∈ mx_waiting m.

Lemma self_locked_step k t s s' : t <> NO_OWNER -> sync_step s s' -> self_locked k t s -> self_locked k t s'.
Proof.
  intros Ht [t' time o r s1 s2 Hrun Hp] [Hinv (m & Hm & Ho & Hin)]. split; [by eapply perform_inv|].
  assert (Hne : t' <> t).
  { intros ->. eapply (running_not_queued _ _ _ (InMutex k) (si_consistent _ Hinv) Hrun).
    by rewrite (queue_mutex _ _ _ Hm). }
  destruct (perform_keeps k m ltac:(congruence) t' time o s1 r s2) as [l Hl]; [|exact Hp|by apply keeps_refl|].
  - intros [E _]. congruence.
  - eexists. split; [exact Hl|]. split; [done|]. cbn. apply elem_of_app. by left.
Qed.

(** A thread that tries to lock a mutex it already owns deadlocks.
    [isLocked] answers no to the owner, so the try goes on to [lock], which
    queues the owner behind itself; in no continuation does the thread run
    again, and the mutex is never released. *)
Theorem trylock_by_owner_deadlocks s t k m time :
  sync_inv s -> running t s -> m_mutexes s !! k = Some m -> mx_owner m = t ->
  exists s1, perform t time (MutexLock k true) s = Ok (Blocked, s1) /\
    forall s2, rtc sync_step s1 s2 ->
      ~ running t s2 /\ exists m2, m_mutexes s2 !! k = Some m2 /\ mx_owner m2 = t.
Proof.
  intros Hinv Hrun Hm Ho. pose proof (runs_nonneg (m_thread_state s) t Hrun) as Ht0.
  assert (Ht : t <> NO_OWNER) by (unfold NO_OWNER; lia).
  destruct (stall_ok t STALL_MUTEX (with_mutex k (mkMutex (mx_waiting m ++ [t]) t) s)) as [s1 Hs1]; [exact Hrun|].
  assert (E : perform t time (MutexLock k true) s = Ok (Blocked, s1)).
  { cbn [perform]. unfold mutexLock, getMutex. rewrite Hm. cbn [rbind]. rewrite Hm. cbn [of_option rbind].
    unfold mutex_isLocked. rewrite Ho, Z.eqb_refl, (proj2 (Z.eqb_neq _ _) Ht). cbn [andb].
    unfold mutex_lock. rewrite Hm. cbn [of_option rbind]. rewrite Ho, (proj2 (Z.eqb_neq _ _) Ht), Hs1. done. }
  exists s1. split; [exact E|].
  assert (Hself : self_locked k t s1).
  { split; [by eapply perform_inv|]. eexists. rewrite (stall_mutexes _ _ _ _ Hs1). cbn.
    rewrite lookup_insert_eq. split; [done|]. split; [done|]. cbn. apply elem_of_app. right. left. }
  clear E Hs1. intros s2 Hr. induction Hr as [x|x y z Hxy _ IH].
  - destruct Hself as [Hi (m2 & Hm2 & Ho2 & Hin)]. split; [|eauto]. intros Hrun2.
    eapply (running_not_queued _ _ _ (InMutex k) (si_consistent _ Hi) Hrun2).
    by rewrite (queue_mutex _ _ _ Hm2).
  - apply IH. by eapply self_locked_step.
Qed.

(** * Three threads and one mutex *)
Definition idle_threads : list ThreadState := replicate 3 (mkThread RUNNING STALL_UNSCHEDULED 0).
Definition server0 : SyncServer := fresh_server 5 idle_threads.

Lemma server0_threads :
  Forall (fun th => status th = STALLED -> ~ sync_reason (stalled_reason th)) idle_threads.
Proof. by repeat constructor. Qed.

Lemma server0_inv : sync_inv server0.
Proof. apply fresh_server_inv, server0_threads. Qed.

(** The state after a list of calls, each by its thread at its time. *)
Fixpoint performs (l : list (Z * Z * call)) (s : SyncServer) : result SyncServer :=
  match l with
  | [] => Ok s
  | (t, time, o) :: l' => let! (_, s) := perform t time o s in performs l' s
  end.
Definition state_of (r : result SyncServer) : SyncServer := match r with Ok s => s | Err _ => server0 end.

Definition owned : SyncServer :=
  Eval vm_compute in state_of (performs [(0, 10, MutexLock 100 false)] server0).
Definition contended : SyncServer :=
  Eval vm_compute in state_of
    (performs [(0, 10, MutexLock 100 false); (1, 11, MutexLock 100 false); (2, 12, MutexLock 100 false)] server0).
Definition with_barrier : SyncServer :=
  Eval vm_compute in state_of (performs [(0, 10, BarrierInit 3)] server0).

(** A concrete call: the thread runs, and the call computes. *)
Ltac sync_call := first [eexists; split; vm_compute; reflexivity|vm_compute; reflexivity].

Lemma owned_reached : rtc sync_step server0 owned.
Proof. apply rtc_once. apply (step_call 0 10 (MutexLock 100 false) (Returned 15 true)); sync_call. Qed.

Lemma contended_reached : rtc sync_step server0 contended.
Proof.
  eapply rtc_l; [apply (step_call 0 10 (MutexLock 100 false) (Returned 15 true)); sync_call|].
  eapply rtc_l; [apply (step_call 1 11 (MutexLock 100 false) Blocked); sync_call|].
  eapply rtc_l; [apply (step_call 2 12 (MutexLock 100 false) Blocked); sync_call|].
  apply rtc_refl.
Qed.

Lemma with_barrier_reached : rtc sync_step server0 with_barrier.
Proof. apply rtc_once. apply (step_call 0 10 (BarrierInit 3) (Returned 10 true)); sync_call. Qed.

Lemma sync_threads_never_lost_witness :
  (forall t th, thread_at (m_thread_state contended) t = Some th ->
     (status th = STALLED /\ sync_reason (stalled_reason th)) <-> exists p, t ∈ queue contended p) /\
  (forall p q t, t ∈ queue contended p -> t ∈ queue contended q -> p = q) /\
  (forall p, NoDup (queue contended p)) /\
  (forall k m, m_mutexes contended !! k = Some m -> mx_owner m = NO_OWNER -> mx_waiting m = []).
Proof. apply (sync_threads_never_lost 5 idle_threads); [exact server0_threads|exact contended_reached]. Defined.

Lemma mutex_excludes_witness :
  exists s' r, perform 1 13 (MutexLock 100 true) owned = Ok (r, s') /\
  (exists l, m_mutexes s' !! 100 = Some (mkMutex ([] ++ l) 0)) /\
  (forall k' b time', MutexLock 100 true = MutexLock k' b -> r = Returned time' true ->
     exists m', m_mutexes s' !! k' = Some m' /\ mx_owner m' = 1).
Proof.
  eexists _, _. split; [vm_compute; reflexivity|].
  eapply (mutex_excludes owned _ 1 13 (MutexLock 100 true) _ 100 (mkMutex [] 0));
    [vm_compute; reflexivity|discriminate|vm_compute; reflexivity|discriminate].
Defined.

Lemma mutex_waiters_served_in_order_witness :
  exists s' th, unlocks 100 50 [0; 1] contended = Ok s' /\
    m_mutexes s' !! 100 = Some (mkMutex [] 2) /\
    thread_at (m_thread_state s') 2 = Some th /\ status th = RUNNING /\ wakeup_time th = u64 (50 + 5).
Proof.
  apply (mutex_waiters_served_in_order contended 100 50 0 [1; 2] 1 2);
    [apply (reachable_sync_inv _ _ contended_reached), server0_inv|vm_compute; reflexivity|reflexivity].
Defined.

Lemma barrier_releases_all_witness :
  exists s', arrivals 0 20 [2; 0; 1] with_barrier = Ok ([Blocked; Blocked; Returned 20 true], s') /\
    m_barriers s' !! 0%nat = Some (mkBarrier [] 3) /\ all_running [2; 0; 1] s'.
Proof.
  apply (barrier_releases_all with_barrier 0 3 [2; 0; 1] 20).
  - apply (reachable_sync_inv _ _ with_barrier_reached), server0_inv.
  - reflexivity.
  - lia.
  - reflexivity.
  - apply (bool_decide_unpack _). vm_compute. exact I.
  - repeat constructor; eexists; split; vm_compute; reflexivity.
Defined.

Lemma trylock_by_owner_deadlocks_witness :
  exists s1, perform 0 30 (MutexLock 100 true) owned = Ok (Blocked, s1) /\
    forall s2, rtc sync_step s1 s2 ->
      ~ running 0 s2 /\ exists m2, m_mutexes s2 !! 100 = Some m2 /\ mx_owner m2 = 0.
Proof.
  apply (trylock_by_owner_deadlocks owned 0 100 (mkMutex [] 0) 30);
    [apply (reachable_sync_inv _ _ owned_reached), server0_inv|eexists; split; vm_compute; reflexivity
    |vm_compute; reflexivity|reflexivity].
Defined.
