(* ===== verification/Hierarchy.v ===== *)
(** The cache controllers: CacheCntlr and CacheMasterCntlr
    (common/core/memory_subsystem/parametric_dram_directory_msi/cache_cntlr.h,
    cache_cntlr.cc).  A core sends its memory operations to a first-level
    controller; a miss goes on to the next level, fills the levels on its way
    back, and back-invalidates what it evicts; a miss in the last level is a
    request to the directory, or to DRAM when the last level accesses it directly.

    The controllers are the elements of a list and point to each other by their
    index; [m_master] is the index under which the CacheMasterCntlr a controller
    uses is stored, its own or, for a shared cache, that of its master.  An operation runs under the lock of the
    sets it touches, so operations are modelled one after the other.  An
    operation that waits for the directory stays in [h_threads] until
    [handleMsgFromDramDirectory] wakes its thread and runs it to its end.

    Simulated time, with the MSHRs and contention models that serve only it, and
    statistics are left out.  No prefetcher is configured and no cache efficiency
    callback is registered; both are the defaults.  Sharer tracking
    (ENABLE_TRACK_SHARING_PREVCACHES) is compiled out, and with it the bodies of
    notifyPrevLevelInsert and notifyPrevLevelEvict. *)
From stdpp Require Import base numbers list gmap strings.
From Stdlib Require Import ZArith Lia Bool.
From S2P Require Import Prelude Utils CacheBlock CacheBase Replacement CacheSet Cache Queues DirectoryCntlr SwLlc.
Open Scope Z_scope.

(** Core::mem_op_t, Core::lock_signal_t *)
Inductive mem_op_t := READ | READ_EX | WRITE.
Inductive lock_signal_t := NONE | LOCK | UNLOCK.
#[global] Instance mem_op_eq_dec : EqDecision mem_op_t.
Proof. solve_decision. Defined.
#[global] Instance lock_signal_eq_dec : EqDecision lock_signal_t.
Proof. solve_decision. Defined.

(** HitWhere::where_t: the component of a cache of the hierarchy, plus [SIBLING]
    if a sibling supplied the data, or one of the places a directory message
    names.  The enumeration has four cache levels: the component of a fifth one is
    the value of MISS. *)
Notation hit_where := Z (only parsing).
Definition SIBLING : Z := 14.
Definition At (component : Z) (sibling : bool) : hit_where := if sibling then component + SIBLING else component.
Definition From (w : where_t) : hit_where :=
  match w with
  | W_MISS => 7
  | W_NUCA_CACHE => 8
  | W_DRAM_CACHE => 9
  | W_DRAM => 10
  | W_DRAM_LOCAL => 11
  | W_DRAM_REMOTE => 12
  | W_CACHE_REMOTE => 13
  | W_UNKNOWN => 21
  end.
Definition MISS : hit_where := From W_MISS.
Definition UNKNOWN : hit_where := From W_UNKNOWN.

(** The members of CacheCntlr that its constructor and the memory manager set. *)
Record Cntlr := mkCntlr {
  m_mem_component : Z;
  m_core_id : Z;
  m_shared_cores : Z;
  m_master : nat;
  m_next_cache_cntlr : option nat;
  m_perfect : bool;
  m_passthrough : bool;
  m_coherent : bool;
  m_cache_writethrough : bool
}.

(** [m_core_id - m_core_id % m_shared_cores] *)
Definition m_core_id_master (c : Cntlr) : Z := m_core_id c - Z.rem (m_core_id c) (m_shared_cores c).

(** CacheDirectoryWaiter *)
Record Waiter := mkWaiter {
  w_exclusive : bool;
  w_cache_cntlr : nat
}.

(** The accesses a DRAM controller counts. *)
Record DramCntlr := mkDram { m_reads : Z; m_writes : Z }.

(** CacheMasterCntlr; [m_evicting] is [m_evicting_address] and the buffer
    [m_evicting_buf], if that is not NULL. *)
Record Master (P : Type) := mkMaster {
  m_cache : Cache P;
  m_prev_cache_cntlrs : list nat;
  m_dram_cntlr : option DramCntlr;
  m_directory_waiters : ReqQueueList.t Waiter;
  m_evicting : option (Z * Data)
}.
Arguments mkMaster {P} _ _ _ _ _.
Arguments m_cache {P} _.
Arguments m_prev_cache_cntlrs {P} _.
Arguments m_dram_cntlr {P} _.
Arguments m_directory_waiters {P} _.
Arguments m_evicting {P} _.

(** A message from the last-level cache to the tag directory. *)
Record DirMsg := mkDirMsg {
  dm_type : msg_t;
  dm_requester : Z;
  dm_receiver : Z;
  dm_address : Z;
  dm_data : option Data
}.

(** An operation of a core: the arguments of processMemOpFromCore. *)
Record MemOp := mkOp {
  op_cntlr : nat;
  op_lock : lock_signal_t;
  op_type : mem_op_t;
  op_address : Z;
  op_offset : Z;
  op_data : option Data;
  op_length : Z;
  op_count : bool
}.

Record Hier (P : Type) := mkHier {
  h_cntlrs : list Cntlr;
  h_masters : gmap nat (Master P);
  h_last : list hit_where;
  h_home : AddressHome.AddressHomeLookup;
  h_block : Z;
  h_cache_only : bool;
  h_settings : SwLlc.Settings;
  h_pfq : list Z;
  h_sw : SwLlc.State;
  h_sent : list DirMsg;
  h_threads : gmap Z MemOp;
  h_finished : list (Z * hit_where * Data)
}.
Arguments mkHier {P} _ _ _ _ _ _ _ _ _ _ _ _.
Arguments h_cntlrs {P} _.
Arguments h_masters {P} _.
Arguments h_last {P} _.
Arguments h_home {P} _.
Arguments h_block {P} _.
Arguments h_cache_only {P} _.
Arguments h_settings {P} _.
Arguments h_pfq {P} _.
Arguments h_sw {P} _.
Arguments h_sent {P} _.
Arguments h_threads {P} _.
Arguments h_finished {P} _.

Section hier.
Context {P : Type} `{ReplacementPolicy P}.
Implicit Types h : Hier P.

Definition with_masters l h : Hier P :=
  mkHier (h_cntlrs h) l (h_last h) (h_home h) (h_block h) (h_cache_only h) (h_settings h) (h_pfq h)
    (h_sw h) (h_sent h) (h_threads h) (h_finished h).
Definition with_last l h : Hier P :=
  mkHier (h_cntlrs h) (h_masters h) l (h_home h) (h_block h) (h_cache_only h) (h_settings h) (h_pfq h)
    (h_sw h) (h_sent h) (h_threads h) (h_finished h).
Definition with_sw sw h : Hier P :=
  mkHier (h_cntlrs h) (h_masters h) (h_last h) (h_home h) (h_block h) (h_cache_only h) (h_settings h)
    (h_pfq h) sw (h_sent h) (h_threads h) (h_finished h).
Definition with_sent l h : Hier P :=
  mkHier (h_cntlrs h) (h_masters h) (h_last h) (h_home h) (h_block h) (h_cache_only h) (h_settings h)
    (h_pfq h) (h_sw h) l (h_threads h) (h_finished h).
Definition with_threads t f h : Hier P :=
  mkHier (h_cntlrs h) (h_masters h) (h_last h) (h_home h) (h_block h) (h_cache_only h) (h_settings h)
    (h_pfq h) (h_sw h) (h_sent h) t f.

(** ** Controllers and their masters *)
Definition cntlr (id : nat) h : result Cntlr := of_option (h_cntlrs h !! id) Undefined.

Definition master (id : nat) h : result (Master P) :=
  let! c := cntlr id h in of_option (h_masters h !! m_master c) Undefined.

Definition put_master (id : nat) (m : Master P) h : result (Hier P) :=
  let! c := cntlr id h in Ok (with_masters (<[m_master c := m]> (h_masters h)) h).

Definition with_cache (c : Cache P) (m : Master P) : Master P :=
  mkMaster c (m_prev_cache_cntlrs m) (m_dram_cntlr m) (m_directory_waiters m) (m_evicting m).
Definition with_evicting (e : option (Z * Data)) (m : Master P) : Master P :=
  mkMaster (m_cache m) (m_prev_cache_cntlrs m) (m_dram_cntlr m) (m_directory_waiters m) e.
Definition with_waiters (q : ReqQueueList.t Waiter) (m : Master P) : Master P :=
  mkMaster (m_cache m) (m_prev_cache_cntlrs m) (m_dram_cntlr m) q (m_evicting m).
Definition with_dram (d : DramCntlr) (m : Master P) : Master P :=
  mkMaster (m_cache m) (m_prev_cache_cntlrs m) (Some d) (m_directory_waiters m) (m_evicting m).

(** [m_master->m_cache = f(m_master->m_cache)] *)
Definition on_cache {A} (id : nat) (f : Cache P -> result (A * Cache P)) h : result (A * Hier P) :=
  let! m := master id h in
  let! (a, c) := f (m_cache m) in
  let! h := put_master id (with_cache c m) h in
  Ok (a, h).

(** More steps than a chain of next-level or previous-level pointers can have. *)
Definition depth h : nat := S (length (h_cntlrs h)).

(** ** Localized cache block operations *)

(** [getCacheBlockInfo]: the line, if it is there. *)
Definition getCacheBlockInfo (id : nat) (address : Z) h : result (option CacheBlockInfo) :=
  let! m := master id h in peekSingleLine address (m_cache m).

Definition cstate_of (info : option CacheBlockInfo) : CacheState.cstate_t :=
  match info with None => CacheState.INVALID | Some b => m_cstate b end.

Definition getCacheState (id : nat) (address : Z) h : result CacheState.cstate_t :=
  let! info := getCacheBlockInfo id address h in Ok (cstate_of info).

(** A member function called through the pointer [getCacheBlockInfo] returned. *)
Definition update_line (address : Z) (f : CacheBlockInfo -> CacheBlockInfo) (c : Cache P) : result (Cache P) :=
  let! (tag, k, s) := locate c address in
  match find tag s with
  | Some (i, b) => Ok (with_set c k (with_array s (<[i := f b]> (m_cache_block_info_array s))) (m_env c))
  | None => Err Undefined
  end.
Definition update_block (id : nat) (address : Z) (f : CacheBlockInfo -> CacheBlockInfo) h : result (Hier P) :=
  let! (_, h) := on_cache id (fun c => let! c := update_line address f c in Ok (tt, c)) h in Ok h.

Definition setCacheState (id : nat) (address : Z) (st : CacheState.cstate_t) h : result (Hier P) :=
  update_block id address (setCState st) h.

Definition permissible (mem_op_type : mem_op_t) (st : CacheState.cstate_t) : bool :=
  match mem_op_type with
  | READ => CacheState.readable st
  | READ_EX | WRITE => CacheState.writable st
  end.
Definition operationPermissibleinCache (id : nat) (address : Z) (mem_op_type : mem_op_t) h : result bool :=
  let! st := getCacheState id address h in Ok (permissible mem_op_type st).

Definition invalidateCacheBlock (id : nat) (address : Z) h : result (Hier P) :=
  let! old_cstate := getCacheState id address h in
  guard! negb (bool_decide (old_cstate = CacheState.MODIFIED)) else AssertFailed in
  guard! negb (bool_decide (old_cstate = CacheState.INVALID)) else AssertFailed in
  let! (_, h) := on_cache id (invalidateSingleLine address) h in
  Ok h.

(** [accessSingleLine] of the master's cache: the line found, and the bytes read. *)
Definition access (id : nat) (address : Z) (t : access_t) (want : bool) (buf : option Data) (length : Z)
    (update_replacement : bool) h : result (option CacheBlockInfo * Data * Hier P) :=
  let! (r, h) := on_cache id (fun c =>
    let! (line, out, c) := accessSingleLine address t want (default None buf) length update_replacement c in
    Ok (option_map snd line, out, c)) h in
  Ok (r.1, r.2, h).

Definition retrieveCacheBlock (id : nat) (address : Z) (update_replacement : bool) h : result (Data * Hier P) :=
  let! (info, data, h) := access id address LOAD true None (h_block h) update_replacement h in
  guard! bool_decide (is_Some info) else LogError in
  Ok (data, h).

Definition isInLowerLevelCache (prevs : list nat) (b : CacheBase) h (block_info : CacheBlockInfo) : bool :=
  existsb (fun p => match getCacheBlockInfo p (tagToAddress b (m_tag block_info)) h with
                    | Ok (Some _) => true
                    | _ => false
                    end) prevs.

(** ** Writing to the next level *)
Fixpoint writeCacheBlock (fuel : nat) (id : nat) (address offset : Z) (data_buf : option Data)
    (data_length : Z) h : result (Hier P) :=
  match fuel with
  | O => Err OutOfFuel
  | S fuel' =>
      let! c := cntlr id h in
      let! m := master id h in
      let! h :=
        match m_evicting m with
        | Some (evicting_address, buf) =>
            if address =? evicting_address then
              guard! offset =? 0 else AssertFailed in
              guard! data_length =? h_block h else AssertFailed in
              put_master id (with_evicting (Some (evicting_address, default buf data_buf)) m) h
            else
              let! (info, _, h) := access id (address + offset) STORE false data_buf data_length false h in
              guard! bool_decide (is_Some info) else LogError in
              guard! bool_decide (cstate_of info = CacheState.MODIFIED) else LogError in
              Ok h
        | None =>
            let! (info, _, h) := access id (address + offset) STORE false data_buf data_length false h in
            guard! bool_decide (is_Some info) else LogError in
            guard! bool_decide (cstate_of info = CacheState.MODIFIED) else LogError in
            Ok h
        end in
      if m_cache_writethrough c then
        let! next := of_option (m_next_cache_cntlr c) Undefined in
        writeCacheBlock fuel' next address offset data_buf data_length h
      else Ok h
  end.

(** ** Operations that update the previous levels *)

(** A loop over [m_prev_cache_cntlrs] that collects [sibling_hit]. *)
Fixpoint each_prev (f : nat -> Hier P -> result (bool * Hier P)) (l : list nat) (sibling_hit : bool) h
  : result (bool * Hier P) :=
  match l with
  | [] => Ok (sibling_hit, h)
  | p :: l' =>
      let! (hit, h) := f p h in
      each_prev f l' (sibling_hit || hit) h
  end.

(** The write-back of a MODIFIED line in [updateCacheBlock]: whether [out_buf]
    and, with it, its bytes were written, and [is_writeback]. *)
Definition write_back (id : nat) (c : Cntlr) (address : Z) (out_buf : bool) h
  : result (option Data * bool * Hier P) :=
  if m_cache_writethrough c then Ok (None, false, h)
  else
    match m_next_cache_cntlr c with
    | Some next =>
        let! (data_buf, h) := retrieveCacheBlock id address false h in
        let! h := writeCacheBlock (depth h) next address 0 (Some data_buf) (h_block h) h in
        Ok (None, true, h)
    | None =>
        guard! out_buf else LogError in
        let! (d, h) := retrieveCacheBlock id address false h in
        Ok (Some d, true, h)
    end.

(** [if (out_buf) retrieveCacheBlock(address, out_buf, ...)] *)
Definition copy_out (id : nat) (address : Z) (out_buf : bool) (written : option Data) (sibling_hit : bool) h
  : result (option Data * bool * Hier P) :=
  if out_buf then
    let! (d, h) := retrieveCacheBlock id address false h in Ok (Some d, true, h)
  else Ok (written, sibling_hit, h).

(** The transition of a line that is present, to another state. *)
Definition change_state (id : nat) (c : Cntlr) (b : CacheBlockInfo) (address : Z)
    (new_cstate : CacheState.cstate_t) (out_buf sibling_hit : bool) h
  : result (option Data * bool * Hier P) :=
  let! (written, sibling_hit, h) :=
    (if bool_decide (m_cstate b = CacheState.MODIFIED) then
       let! (written, is_writeback, h) := write_back id c address out_buf h in
       let! h := update_block id address (setCState CacheState.SHARED) h in
       Ok (written, sibling_hit || is_writeback, h)
     else Ok (None, sibling_hit, h)) in
  match new_cstate with
  | CacheState.INVALID =>
      let! (written, sibling_hit, h) := copy_out id address out_buf written sibling_hit h in
      if m_coherent c then
        let! h := invalidateCacheBlock id address h in Ok (written, sibling_hit, h)
      else Ok (written, sibling_hit, h)
  | CacheState.SHARED =>
      let! (written, sibling_hit, h) := copy_out id address out_buf written sibling_hit h in
      let! h := update_block id address (setCState CacheState.SHARED) h in
      Ok (written, sibling_hit, h)
  | CacheState.MODIFIED =>
      let! h := update_block id address (setCState CacheState.MODIFIED) h in
      Ok (written, sibling_hit, h)
  | _ => Err LogError
  end.

(** [new_cstate < CacheState::NUM_CSTATE_STATES] *)
Definition proper_cstate (st : CacheState.cstate_t) : bool :=
  match st with
  | CacheState.INVALID_COLD | CacheState.INVALID_EVICT | CacheState.INVALID_COHERENCY => false
  | _ => true
  end.

(** What [updateCacheBlock] does to the controller's own line, if it has it. *)
Definition update_self (id : nat) (c : Cntlr) (address : Z) (new_cstate : CacheState.cstate_t)
    (out_buf sibling_hit : bool) h : result (option Data * bool * Hier P) :=
  let! info := getCacheBlockInfo id address h in
  match info with
  | None => Ok (None, sibling_hit, h)
  | Some b =>
      if bool_decide (new_cstate = m_cstate b) && out_buf then
        let! (d, h) := retrieveCacheBlock id address false h in Ok (Some d, true, h)
      else change_state id c b address new_cstate out_buf sibling_hit h
  end.

(** [updateCacheBlock]; [out_buf] tells whether a buffer was passed, and the
    first component of the result is what was written to it.  The pointer
    [cache_block_info] and the lookup of the address see the same line, so the two
    closing checks of the state are one. *)
Fixpoint updateCacheBlock (fuel : nat) (id : nat) (address : Z) (new_cstate : CacheState.cstate_t)
    (out_buf : bool) h : result (option Data * bool * Hier P) :=
  match fuel with
  | O => Err OutOfFuel
  | S fuel' =>
      guard! proper_cstate new_cstate else LogError in
      let! c := cntlr id h in
      let! m := master id h in
      let! (sibling_hit, h) :=
        each_prev (fun p h => let! (_, hit, h) := updateCacheBlock fuel' p address new_cstate false h in
                              Ok (hit, h))
          (m_prev_cache_cntlrs m) false h in
      let! (written, sibling_hit, h) := update_self id c address new_cstate out_buf sibling_hit h in
      let! st := getCacheState id address h in
      guard! bool_decide (st = CacheState.INVALID) || bool_decide (st = new_cstate) || negb (m_coherent c)
        else LogError in
      guard! negb out_buf || bool_decide (is_Some written) else LogError in
      Ok (written, sibling_hit, h)
  end.

(** ** DRAM and the directory *)

(** [accessDRAM]: the controller counts the access.  Without fault injection it
    keeps no data, and leaves the buffer of a read as it is. *)
Definition accessDRAM (id : nat) (mem_op_type : mem_op_t) h : result (hit_where * Data * Hier P) :=
  let! m := master id h in
  let! d := of_option (m_dram_cntlr m) Undefined in
  let d := match mem_op_type with
           | READ => mkDram (u64 (m_reads d + 1)) (m_writes d)
           | READ_EX | WRITE => mkDram (m_reads d) (u64 (m_writes d + 1))
           end in
  let! h := put_master id (with_dram d m) h in
  Ok (From W_DRAM, None, h).

Definition getHome (address : Z) h : result Z := AddressHome.getHome (h_home h) address.

Definition sendMsg (t : msg_t) (requester receiver address : Z) (data : option Data) h : Hier P :=
  with_sent (h_sent h ++ [mkDirMsg t requester receiver address data]) h.

(** The three requests: [EX_REQ], [UPGRADE_REQ], [SH_REQ]. *)
Definition processExReqToDirectory (id : nat) (address : Z) h : result (Hier P) :=
  let! c := cntlr id h in
  let! st := getCacheState id address h in
  guard! negb (bool_decide (st = CacheState.SHARED)) else LogError in
  guard! bool_decide (st = CacheState.INVALID) else AssertFailed in
  let! home := getHome address h in
  Ok (sendMsg EX_REQ (m_core_id_master c) home address None h).

Definition processUpgradeReqToDirectory (id : nat) (address : Z) h : result (Hier P) :=
  let! c := cntlr id h in
  let! st := getCacheState id address h in
  guard! bool_decide (st = CacheState.SHARED) else AssertFailed in
  let! h := setCacheState id address CacheState.SHARED_UPGRADING h in
  let! home := getHome address h in
  Ok (sendMsg UPGRADE_REQ (m_core_id_master c) home address None h).

Definition processShReqToDirectory (id : nat) (address : Z) h : result (Hier P) :=
  let! c := cntlr id h in
  let! home := getHome address h in
  Ok (sendMsg SH_REQ (m_core_id_master c) home address None h).

Definition exclusive_op (mem_op_type : mem_op_t) : bool :=
  match mem_op_type with READ => false | READ_EX | WRITE => true end.

Definition initiateDirectoryAccess (id : nat) (mem_op_type : mem_op_t) (address : Z) h : result (Hier P) :=
  let exclusive := exclusive_op mem_op_type in
  let! m := master id h in
  let q := ReqQueueList.enqueue (m_directory_waiters m) address (mkWaiter exclusive id) in
  let! h := put_master id (with_waiters q m) h in
  if ReqQueueList.size q address =? 1 then
    if exclusive then
      let! info := getCacheBlockInfo id address h in
      match info with
      | Some b =>
          if bool_decide (m_cstate b = CacheState.SHARED) then processUpgradeReqToDirectory id address h
          else processExReqToDirectory id address h
      | None => processExReqToDirectory id address h
      end
    else processShReqToDirectory id address h
  else Ok h.

(** ** Insertion *)
Definition evict_initial : CacheBlockInfo := new_block (SubShared (mkShared 0 0 0 0 None)).

(** What becomes of the evicted line after the previous levels have given it up;
    [evict_buf] holds its data. *)
Definition dispose (id : nat) (c : Cntlr) (evict_address : Z) (st : CacheState.cstate_t) (evict_buf : Data) h
  : result (Hier P) :=
  let modified := bool_decide (st = CacheState.MODIFIED) in
  let! m := master id h in
  if m_perfect c then Ok h
  else if negb (m_coherent c) then
    guard! m_cache_writethrough c || negb modified else LogError in
    Ok h
  else
    match m_next_cache_cntlr c with
    | Some next =>
        if negb (m_cache_writethrough c) && modified then
          writeCacheBlock (depth h) next evict_address 0 (Some evict_buf) (h_block h) h
        else Ok h
    | None =>
        match m_dram_cntlr m with
        | Some _ =>
            if modified then let! (_, _, h) := accessDRAM id WRITE h in Ok h else Ok h
        | None =>
            let! home_node_id := getHome evict_address h in
            if modified then
              Ok (sendMsg FLUSH_REP (m_core_id c) home_node_id evict_address (Some evict_buf) h)
            else
              guard! bool_decide (st = CacheState.SHARED) || bool_decide (st = CacheState.EXCLUSIVE)
                else LogError in
              Ok (sendMsg INV_REP (m_core_id c) home_node_id evict_address None h)
        end
    end.

(** The propagation of an eviction to the previous levels, which write modified
    data to the eviction buffer. *)
Definition back_invalidate (id : nat) (evict_address : Z) (evict_buf : Data) h : result (Data * Hier P) :=
  let! m := master id h in
  match m_prev_cache_cntlrs m with
  | [] => Ok (evict_buf, h)
  | prevs =>
      let! h := put_master id (with_evicting (Some (evict_address, evict_buf)) m) h in
      let! (_, h) :=
        each_prev (fun p h =>
          let! (_, hit, h) := updateCacheBlock (depth h) p evict_address CacheState.INVALID false h in
          Ok (hit, h)) prevs false h in
      let! m := master id h in
      let! h := put_master id (with_evicting None m) h in
      Ok (match m_evicting m with Some (_, buf) => buf | None => evict_buf end, h)
  end.

Definition insertCacheBlock (id : nat) (address : Z) (cstate : CacheState.cstate_t) (data_buf : option Data) h
  : result (Hier P) :=
  let! c := cntlr id h in
  let! m := master id h in
  let! st := getCacheState id address h in
  guard! bool_decide (st = CacheState.INVALID) else LogError in
  let query := Replacement.mkCntlr (isInLowerLevelCache (m_prev_cache_cntlrs m) (base (m_cache m)) h) in
  let! (o, h) := on_cache id (insertSingleLine address (default None data_buf) evict_initial true (Some query)) h in
  let! h := setCacheState id address cstate h in
  let! h := (if h_cache_only h then update_block id address (setOption WARMUP) h else Ok h) in
  if lo_eviction o then
    let! (evict_buf, h) := back_invalidate id (lo_evict_addr o) (lo_evict_buff o) h in
    let! h := dispose id c (lo_evict_addr o) (m_cstate (lo_evict_block_info o)) evict_buf h in
    let! st := getCacheState id (lo_evict_addr o) h in
    guard! bool_decide (st = CacheState.INVALID) else LogError in
    Ok h
  else Ok h.

Definition copyDataFromNextLevel (id : nat) (mem_op_type : mem_op_t) (address : Z) h : result (Hier P) :=
  let! c := cntlr id h in
  let! next := of_option (m_next_cache_cntlr c) Undefined in
  let! ok := operationPermissibleinCache next address mem_op_type h in
  guard! ok else LogError in
  let! (data_buf, h) := retrieveCacheBlock next address false h in
  let! cstate := getCacheState next address h in
  let! info := getCacheBlockInfo id address h in
  match info with
  | Some _ => let! (_, _, h) := updateCacheBlock (depth h) id address cstate false h in Ok h
  | None => insertCacheBlock id address cstate (Some data_buf) h
  end.

(** ** Requests from the previous level *)

(** The loops over the siblings of the requester. *)
Definition snoop_siblings (id requester : nat) (address : Z) (st : CacheState.cstate_t) h
  : result (bool * Hier P) :=
  let! m := master id h in
  each_prev (fun p h =>
    if (p =? requester)%nat then Ok (false, h)
    else let! (_, hit, h) := updateCacheBlock (depth h) p address st false h in Ok (hit, h))
    (m_prev_cache_cntlrs m) false h.

(** The WARMUP mark of a line that is hit. *)
Definition clear_warmup (id : nat) (address : Z) h : result (Hier P) :=
  let! info := getCacheBlockInfo id address h in
  let! b := of_option info Undefined in
  if hasOption WARMUP b && negb (h_cache_only h) then update_block id address (clearOption WARMUP) h
  else Ok h.

Definition count_access (id : nat) (cache_hit : bool) h : result (Hier P) :=
  let! (_, h) := on_cache id (fun c => Ok (tt, updateCounters cache_hit c)) h in Ok h.

(** The hit case: the previous levels of the siblings give up, or share, the line. *)
Definition serve_hit (id requester : nat) (mem_op_type : mem_op_t) (address : Z) h : result (hit_where * Hier P) :=
  let! c := cntlr id h in
  let! h := clear_warmup id address h in
  let! st := getCacheState id address h in
  let! (sibling_hit, h) :=
    match mem_op_type, st with
    | READ, CacheState.MODIFIED | READ, CacheState.EXCLUSIVE =>
        snoop_siblings id requester address CacheState.SHARED h
    | READ, _ => Ok (false, h)
    | _, _ => snoop_siblings id requester address CacheState.INVALID h
    end in
  let! last := of_option (h_last h !! id) Undefined in
  if bool_decide (last <> UNKNOWN) then Ok (last, with_last (<[id := UNKNOWN]> (h_last h)) h)
  else Ok (At (m_mem_component c) sibling_hit, h).

(** The miss case at the last level: whether the line is there now, and where it
    came from. *)
Definition serve_last_level_miss (id requester : nat) (mem_op_type : mem_op_t) (address : Z) h
  : result (bool * hit_where * Hier P) :=
  let! c := cntlr id h in
  let! m := master id h in
  let! info := getCacheBlockInfo id address h in
  let from_next h :=
    match m_dram_cntlr m with
    | Some _ =>
        match info with
        | Some _ =>
            let! h := update_block id address (setCState CacheState.MODIFIED) h in
            Ok (true, At (m_mem_component c) false, h)
        | None =>
            let! (w, data_buf, h) := accessDRAM id READ h in
            let! h := insertCacheBlock id address
                        (if bool_decide (mem_op_type = READ) then CacheState.SHARED else CacheState.MODIFIED)
                        (Some data_buf) h in
            Ok (true, w, with_last (<[id := w]> (h_last h)) h)
        end
    | None =>
        let! h := initiateDirectoryAccess id mem_op_type address h in Ok (false, MISS, h)
    end in
  match info with
  | Some b =>
      if bool_decide (m_cstate b = CacheState.EXCLUSIVE) then
        let! (_, h) := snoop_siblings id requester address CacheState.INVALID h in
        let! h := update_block id address (setCState CacheState.MODIFIED) h in
        Ok (true, At (m_mem_component c) false, h)
      else from_next h
  | None => from_next h
  end.

Fixpoint processShmemReqFromPrevCache (fuel : nat) (id requester : nat) (mem_op_type : mem_op_t) (address : Z)
    (count onCacheMiss : bool) h : result (hit_where * Hier P) :=
  match fuel with
  | O => Err OutOfFuel
  | S fuel' =>
      let! c := cntlr id h in
      let! cache_hit := operationPermissibleinCache id address mem_op_type h in
      let! info := getCacheBlockInfo id address h in
      let! sw := SwLlc.on_llc_request (h_settings h) (h_pfq h) (m_mem_component c) onCacheMiss address (h_sw h) in
      let h := with_sw sw h in
      let! (cache_hit, first_hit, info, h) :=
        (if negb cache_hit && m_perfect c then
           let! h := match info with
                     | Some _ => update_block id address (setCState CacheState.MODIFIED) h
                     | None => insertCacheBlock id address
                                 (if bool_decide (mem_op_type = READ) then CacheState.SHARED
                                  else CacheState.MODIFIED) None h
                     end in
           let! info := getCacheBlockInfo id address h in
           Ok (true, cache_hit, info, h)
         else if cache_hit && m_passthrough c && count then
           let! h := update_block id address CacheBlock.invalidate h in
           guard! bool_decide (is_Some (m_next_cache_cntlr c)) else LogError in
           Ok (false, false, None, h)
         else Ok (cache_hit, cache_hit, info, h)) in
      let! h := (if count then count_access id cache_hit h else Ok h) in
      let! (cache_hit, w, h) :=
        (if cache_hit : bool then
           let! (w, h) := serve_hit id requester mem_op_type address h in Ok (true, w, h)
         else
           let! h := (if bool_decide (cstate_of info = CacheState.SHARED) then
                        let! (_, h) := snoop_siblings id requester address CacheState.INVALID h in Ok h
                      else Ok h) in
           match m_next_cache_cntlr c with
           | Some next =>
               let! h := match info with
                         | Some _ => invalidateCacheBlock id address h
                         | None => Ok h
                         end in
               let! (w, h) := processShmemReqFromPrevCache fuel' next id mem_op_type address count onCacheMiss h in
               if bool_decide (w <> MISS) then
                 let! h := copyDataFromNextLevel id mem_op_type address h in Ok (true, w, h)
               else Ok (false, w, h)
           | None => serve_last_level_miss id requester mem_op_type address h
           end) in
      let! h := (if cache_hit : bool then
                   let! (_, h) := retrieveCacheBlock id address (first_hit && count) h in Ok h
                 else Ok h) in
      Ok (w, h)
  end.

(** ** Operations of the core on the first level *)
Definition accessCache (id : nat) (o : MemOp) (update_replacement : bool) h : result (Data * Hier P) :=
  let! c := cntlr id h in
  let address := op_address o + op_offset o in
  match op_type o with
  | READ | READ_EX =>
      let! (_, data, h) :=
        access id address LOAD (bool_decide (is_Some (op_data o))) None (op_length o) update_replacement h in
      Ok (data, h)
  | WRITE =>
      let! (_, _, h) := access id address STORE false (op_data o) (op_length o) update_replacement h in
      if m_cache_writethrough c then
        let! next := of_option (m_next_cache_cntlr c) LogError in
        let! h := writeCacheBlock (depth h) next (op_address o) (op_offset o) (op_data o) (op_length o) h in
        Ok (None, h)
      else Ok (None, h)
  end.

(** The end of the miss case: the data is in the next level, go and get it. *)
Definition fill_first_level (o : MemOp) (w : hit_where) h : result (hit_where * Data * Hier P) :=
  let id := op_cntlr o in
  let! c := cntlr id h in
  let! h := copyDataFromNextLevel id (op_type o) (op_address o) h in
  let! ok := operationPermissibleinCache id (op_address o) (op_type o) h in
  guard! ok else LogError in
  let! (data, h) := accessCache id o (bool_decide (w = At (m_mem_component c) false) && op_count o) h in
  Ok (w, data, h).

(** What an operation gives its thread. *)
Inductive outcome := Done (w : hit_where) (data : Data) | Waiting.

Definition processMemOpFromCore (o : MemOp) h : result (outcome * Hier P) :=
  let id := op_cntlr o in
  let ca_address := op_address o in
  let! c := cntlr id h in
  guard! Z.land ca_address (h_block h - 1) =? 0 else LogError in
  guard! u32 (op_offset o + op_length o) <=? h_block h else LogError in
  let! cache_hit := operationPermissibleinCache id ca_address (op_type o) h in
  let! info := getCacheBlockInfo id ca_address h in
  let! (cache_hit, h) :=
    (if negb cache_hit && m_perfect c then
       let! h := match info with
                 | Some _ => update_block id ca_address (setCState CacheState.MODIFIED) h
                 | None => insertCacheBlock id ca_address
                             (if bool_decide (op_type o = READ) then CacheState.SHARED
                              else CacheState.MODIFIED) None h
                 end in
       Ok (true, h)
     else if cache_hit && m_passthrough c then
       let! h := update_block id ca_address CacheBlock.invalidate h in Ok (false, h)
     else Ok (cache_hit, h)) in
  let! h := (if op_count o then count_access id cache_hit h else Ok h) in
  if cache_hit : bool then
    let! h := clear_warmup id ca_address h in
    let! (data, h) := accessCache id o (op_count o) h in
    Ok (Done (At (m_mem_component c) false) data, h)
  else
    guard! negb (bool_decide (op_lock o = UNLOCK)) else LogError in
    let! st := getCacheState id ca_address h in
    let! h := (if bool_decide (st <> CacheState.INVALID) then invalidateCacheBlock id ca_address h else Ok h) in
    let! next := of_option (m_next_cache_cntlr c) Undefined in
    let! (w, h) := processShmemReqFromPrevCache (depth h) next id (op_type o) ca_address (op_count o) true h in
    if bool_decide (w <> MISS) then
      let! (w, data, h) := fill_first_level o w h in Ok (Done w data, h)
    else Ok (Waiting, with_threads (<[m_core_id c := o]> (h_threads h)) (h_finished h) h).

(** The part after [waitForNetworkThread]: the thread of core [core] runs on. *)
Definition resume_thread (core : Z) h : result (Hier P) :=
  let! o := of_option (h_threads h !! core) Undefined in
  let id := op_cntlr o in
  let! c := cntlr id h in
  let! next := of_option (m_next_cache_cntlr c) Undefined in
  let! (w, h) := processShmemReqFromPrevCache (depth h) next id (op_type o) (op_address o) false false h in
  guard! bool_decide (w <> MISS) else LogError in
  let! (w, data, h) := fill_first_level o w h in
  Ok (with_threads (delete core (h_threads h)) (h_finished h ++ [(core, w, data)]) h).

(** ** Messages from the directory *)
Definition processExRepFromDramDirectory (id : nat) (msg : ShmemMsg) h : result (Hier P) :=
  insertCacheBlock id (getAddress msg) CacheState.EXCLUSIVE (getDataBuf msg) h.

Definition processShRepFromDramDirectory (id : nat) (msg : ShmemMsg) h : result (Hier P) :=
  insertCacheBlock id (getAddress msg) CacheState.SHARED (getDataBuf msg) h.

Definition processUpgradeRepFromDramDirectory (id : nat) (msg : ShmemMsg) h : result (Hier P) :=
  let address := getAddress msg in
  let! cstate := getCacheState id address h in
  match cstate with
  | CacheState.INVALID =>
      guard! bool_decide (is_Some (getDataBuf msg)) else LogError in
      let! (_, _, h) := updateCacheBlock (depth h) id address CacheState.MODIFIED true h in Ok h
  | CacheState.SHARED_UPGRADING =>
      let! (_, _, h) := updateCacheBlock (depth h) id address CacheState.MODIFIED false h in Ok h
  | _ => Err LogError
  end.

Definition processInvReqFromDramDirectory (id : nat) (sender : Z) (msg : ShmemMsg) h : result (Hier P) :=
  let address := getAddress msg in
  let! cstate := getCacheState id address h in
  if bool_decide (cstate <> CacheState.INVALID) then
    let! (_, _, h) := updateCacheBlock (depth h) id address CacheState.INVALID false h in
    Ok (sendMsg INV_REP (getRequester msg) sender address None h)
  else Ok h.

Definition processFlushReqFromDramDirectory (id : nat) (sender : Z) (msg : ShmemMsg) h : result (Hier P) :=
  let address := getAddress msg in
  let! cstate := getCacheState id address h in
  if bool_decide (cstate <> CacheState.INVALID) then
    let! (data_buf, _, h) := updateCacheBlock (depth h) id address CacheState.INVALID true h in
    Ok (sendMsg FLUSH_REP (getRequester msg) sender address data_buf h)
  else Ok h.

(** The buffer of a line that is being upgraded is sent as it is, unwritten. *)
Definition processWbReqFromDramDirectory (id : nat) (sender : Z) (msg : ShmemMsg) h : result (Hier P) :=
  let address := getAddress msg in
  let! cstate := getCacheState id address h in
  if bool_decide (cstate <> CacheState.INVALID) then
    let! (data_buf, h) :=
      (if bool_decide (cstate <> CacheState.SHARED_UPGRADING) then
         let! (data_buf, _, h) := updateCacheBlock (depth h) id address CacheState.SHARED true h in
         Ok (data_buf, h)
       else Ok (Some None, h)) in
    Ok (sendMsg WB_REP (getRequester msg) sender address data_buf h)
  else Ok h.

(** The loop that wakes the threads waiting for the address, in their order; an
    exclusive request that finds the line SHARED asks for an upgrade instead, and
    the loop goes on when the answer comes. *)
Fixpoint wake_waiters (fuel : nat) (id : nat) (address : Z) (w : where_t) h : result (Hier P) :=
  let! m := master id h in
  if ReqQueueList.empty (m_directory_waiters m) address then Ok h
  else
    match fuel with
    | O => Err OutOfFuel
    | S fuel' =>
        let! request := ReqQueueList.front (m_directory_waiters m) address in
        let! st := getCacheState id address h in
        if w_exclusive request && bool_decide (st = CacheState.SHARED) then
          processUpgradeReqToDirectory id address h
        else
          let! c := cntlr (w_cache_cntlr request) h in
          let h := with_last (<[w_cache_cntlr request := From w]> (h_last h)) h in
          let! h := resume_thread (m_core_id c) h in
          let! m := master id h in
          let! (_, q) := ReqQueueList.dequeue (m_directory_waiters m) address in
          let! h := put_master id (with_waiters q m) h in
          wake_waiters fuel' id address w h
    end.

Definition is_reply (t : msg_t) : bool :=
  match t with EX_REP | SH_REP | UPGRADE_REP => true | _ => false end.

Definition handleMsgFromDramDirectory (id : nat) (sender : Z) (msg : ShmemMsg) h : result (Hier P) :=
  let address := getAddress msg in
  let! m := master id h in
  let! _ := (if is_reply (getMsgType msg) then
               let! _ := ReqQueueList.front (m_directory_waiters m) address in Ok tt
             else Ok tt) in
  let! h :=
    match getMsgType msg with
    | EX_REP => processExRepFromDramDirectory id msg h
    | SH_REP => processShRepFromDramDirectory id msg h
    | UPGRADE_REP => processUpgradeRepFromDramDirectory id msg h
    | INV_REQ => processInvReqFromDramDirectory id sender msg h
    | FLUSH_REQ => processFlushReqFromDramDirectory id sender msg h
    | WB_REQ => processWbReqFromDramDirectory id sender msg h
    | _ => Err LogError
    end in
  if is_reply (getMsgType msg) then
    let! m := master id h in
    wake_waiters (Z.to_nat (ReqQueueList.size (m_directory_waiters m) address)) id address (getWhere msg) h
  else Ok h.
End hier.
