(* ===== verification/HierView.v ===== *)
(** The caches of a hierarchy seen as one function from masters and blocks to
    coherence states, and what the elementary operations of the controllers do
    to it. *)
From stdpp Require Import base numbers list gmap strings.
From Stdlib Require Import ZArith Lia Bool.
From S2P Require Import Prelude Utils CacheBlock CacheBase Replacement CacheSet Cache Queues DirectoryCntlr SwLlc Hierarchy.
Open Scope Z_scope.

(** * One cache *)

(** Ways without a line have no coherence state. *)
Definition tidy_way (b : CacheBlockInfo) : Prop := isValid b = false -> m_cstate b = CacheState.INVALID.
Definition tidy {P} (c : Cache P) : Prop :=
  forall k s, m_sets c !! k = Some s -> Forall tidy_way (m_cache_block_info_array s).

Section tidy.
Context {P : Type} `{ReplacementPolicy P}.
Implicit Types c : Cache P.

Lemma tidy_with_set c k s e :
  tidy c -> Forall tidy_way (m_cache_block_info_array s) -> tidy (with_set c k s e).
Proof.
  intros Hc Hs j s' Hj. cbn in Hj. apply list_lookup_insert_Some in Hj as [(-> & <- & _)|[_ Hj]]; [done|].
  by eapply Hc.
Qed.

Lemma locate_tidy c a tag k s : locate c a = Ok (tag, k, s) -> tidy c -> Forall tidy_way (m_cache_block_info_array s).
Proof. unfold locate. intros Hl Hc. inv_ok. by eapply Hc. Qed.

Lemma touch_line_array u i s e s' e' :
  touch_line (P:=P) u i s e = Ok (s', e') -> m_cache_block_info_array s' = m_cache_block_info_array s.
Proof. unfold touch_line. destruct u; intros Ht; inv_ok; done. Qed.

Lemma inject_array f a k i n off assoc s s' :
  inject (P:=P) f a k i n off assoc s = Ok s' -> m_cache_block_info_array s' = m_cache_block_info_array s.
Proof. unfold inject. intros Ht. by inv_ok. Qed.

Lemma read_line_array i off want n u s e o s' e' :
  read_line (P:=P) i off want n u s e = Ok (o, s', e') ->
  m_cache_block_info_array s' = m_cache_block_info_array s.
Proof. unfold read_line. intros Hr. inv_ok. by eapply touch_line_array. Qed.

Lemma write_line_array i off buf n u s e s' e' :
  write_line (P:=P) i off buf n u s e = Ok (s', e') ->
  m_cache_block_info_array s' = m_cache_block_info_array s.
Proof.
  unfold write_line. intros Hr. inv_ok.
  match goal with Ht : touch_line _ _ _ _ = _ |- _ => by rewrite (touch_line_array _ _ _ _ _ _ Ht) end.
Qed.

Lemma access_tidy c a t want buf n u r c' :
  accessSingleLine a t want buf n u c = Ok (r, c') -> tidy c -> tidy c'.
Proof.
  unfold accessSingleLine. intros Ha Hc. inv_ok.
  match goal with Hl : locate _ _ = _ |- _ => pose proof (locate_tidy _ _ _ _ _ Hl Hc) as Hs end.
  destruct (find _ _) as [[i blk]|]; inv_ok; [|done].
  destruct t; inv_ok; (apply tidy_with_set; [done|]).
  - match goal with Hr : read_line _ _ _ _ _ _ _ = _ |- _ => rewrite (read_line_array _ _ _ _ _ _ _ _ _ _ Hr) end.
    destruct (m_fault_injector c); inv_ok; [|done].
    match goal with Hi : inject _ _ _ _ _ _ _ _ = _ |- _ => by rewrite (inject_array _ _ _ _ _ _ _ _ _ Hi) end.
  - match goal with Hr : write_line _ _ _ _ _ _ _ = _ |- _ => apply write_line_array in Hr as Ha end.
    destruct (m_fault_injector c); inv_ok; [|by rewrite Ha].
    match goal with Hi : inject _ _ _ _ _ _ _ _ = _ |- _ => by rewrite (inject_array _ _ _ _ _ _ _ _ _ Hi), Ha end.
Qed.

Lemma invalidate_tidy c a r c' : invalidateSingleLine a c = Ok (r, c') -> tidy c -> tidy c'.
Proof.
  unfold invalidateSingleLine. intros Hi Hc. inv_ok. apply tidy_with_set; [done|].
  match goal with Hl : locate_assert _ _ = _ |- _ => unfold locate_assert in Hl end. inv_ok.
  match goal with Hs : m_sets c !! _ = Some ?s, Hv : invalidate_tag _ ?s = _ |- _ =>
    pose proof (Hc _ _ Hs) as Hall; unfold invalidate_tag in Hv; destruct (find _ s) as [[? ?]|] end; inv_ok; [|done].
  simplify_eq. cbn. by apply Forall_insert.
Qed.

Lemma insert_tidy c a fill ev want q o c' : insertSingleLine a fill ev want q c = Ok (o, c') -> tidy c -> tidy c'.
Proof.
  unfold insertSingleLine. intros Hi Hc. inv_ok.
  match goal with Hl : locate _ _ = _ |- _ => pose proof (locate_tidy _ _ _ _ _ Hl Hc) as Hs end.
  apply tidy_with_set; [done|].
  match goal with Hv : insert _ _ _ _ _ _ _ = Ok (_, _, ?s1, _) |- Forall _ (m_cache_block_info_array ?s2) =>
    assert (m_cache_block_info_array s2 = m_cache_block_info_array s1) as ->; [|unfold insert in Hv] end.
  { destruct (m_fault_injector c); inv_ok; [|done]. by eapply inject_array. }
  inv_ok. cbn [m_cache_block_info_array]. apply Forall_insert; [done|]. intros _.
  match goal with Hcl : clone _ _ = _ |- _ => rewrite (clone_Ok_cstate _ _ _ Hcl) end. cbn.
  match goal with Hcr : create ?t = Ok ?b |- m_cstate ?b = _ =>
    destruct t; try discriminate Hcr; injection Hcr as <-; done end.
Qed.
End tidy.

Section line.
Context {P : Type} `{ReplacementLaws P} `{!EnvFrame P}.
Implicit Types c : Cache P.

(** A change of one line that keeps its tag and class. *)
Lemma update_line_refines t n c addr f b :
  cache_wf t n c -> address addr ->
  line_of c (addr / cb_blocksize (base c)) = Some b ->
  m_tag (f b) = m_tag b -> sub (f b) = sub b ->
  exists c', update_line addr f c = Ok c' /\ cache_wf t n c' /\ base c' = base c /\ (tidy c -> tidy c') /\
    forall tag', line_of c' tag' =
      if decide (tag' = addr / cb_blocksize (base c)) then Some (f b) else line_of c tag'.
Proof.
  intros Hwf Ha Hline Hft Hfs.
  destruct (locate_ok t n c addr Hwf Ha) as (k & s & Hl & _ & Hs & Hk & _ & Hne).
  set (tag := addr / cb_blocksize (base c)) in *.
  destruct (wf_sets _ _ _ Hwf k s Hs) as (Hset & Hm & Hbs & Hp).
  pose proof Hset as (Hlen & Hpol & Hu & Hc).
  unfold update_line. rewrite Hl. cbn [rbind].
  pose proof (find_contents tag s Hu Hne) as Hfc.
  rewrite (line_of_set c tag k s) in Hline by done. rewrite Hline in Hfc.
  destruct (find tag s) as [[i b1]|] eqn:Hf; [|done]. injection Hfc as ->.
  apply find_Some in Hf as [Hi Hbt].
  assert (Hv : isValid b = true) by (apply isValid_true; congruence).
  assert (Hv' : isValid (f b) = true) by (apply isValid_true; congruence).
  assert (Hfa : fresh_at (m_cache_block_info_array s) i (m_tag (f b))).
  { intros j x Hj Hx Hxt. symmetry. apply (Hu i j b x); try done. congruence. }
  assert (Hcs : contents (with_array s (<[i := f b]> (m_cache_block_info_array s))) = <[tag := f b]> (contents s)).
  { unfold contents. cbn [m_cache_block_info_array with_array].
    rewrite (contents_insert_valid _ i b), Hft by done. unfold forget.
    by rewrite Hv, Hbt, insert_delete_eq. }
  eexists. split; [done|]. split; [|split; [done|split]].
  - apply with_set_wf; [done|by eapply lookup_lt_Some|done|].
    split; [|split; [done|split; [done|]]].
    + split; [cbn; by rewrite length_insert|]. split; [done|]. split.
      * apply unique_tags_insert; [done|by eapply lookup_lt_Some|done].
      * apply Forall_insert; [done|]. eapply Forall_lookup_1 in Hc; [|done].
        by eapply class_set_fields.
    + intros tg blk. rewrite Hcs, lookup_insert_Some. intros [[<- _]|[_ Hb]]; [|by eapply Hp].
      by apply (Hp tag b).
  - intros Htd. apply tidy_with_set; [done|]. apply Forall_insert; [by eapply Htd|].
    intros Hiv. congruence.
  - intros tag'. rewrite (line_of_with_set c k s) by done. case_decide as Hk'.
    + rewrite Hcs. case_decide as E.
      * subst tag'. by rewrite lookup_insert_eq.
      * rewrite lookup_insert_ne by done. by rewrite (line_of_set c tag' k s).
    + rewrite decide_False; [done|]. intros ->. done.
Qed.
End line.

(** * The hierarchy *)
Section view.
Context {P : Type} `{AlwaysReplaces P} `{!EnvFrame P}.
Implicit Types h : Hier P.

(** The state of block [tag] in the cache of master [m]. *)
Definition lines h (m : nat) (tag : Z) : option CacheState.cstate_t :=
  M ← h_masters h !! m; m_cstate <$> line_of (m_cache M) tag.

(** The previous levels of a master, whether it accesses DRAM directly, the
    requests waiting there, and the address whose eviction it propagates. *)
Definition prevs h (m : nat) : list nat := default [] (m_prev_cache_cntlrs <$> h_masters h !! m).
Definition direct h (m : nat) : bool :=
  match h_masters h !! m with Some M => bool_decide (is_Some (m_dram_cntlr M)) | None => false end.
Definition waiters h (m : nat) : ReqQueueList.t Waiter := default ∅ (m_directory_waiters <$> h_masters h !! m).
Definition evicting h (m : nat) : option Z := M ← h_masters h !! m; fst <$> m_evicting M.

(** The number of the block of an address. *)
Definition block h (a : Z) : Z := a / h_block h.

(** A place data can come from, and what a controller remembers of it. *)
Definition located (w : hit_where) : Prop := w <> MISS /\ 0 <= w < UNKNOWN.
Definition hits_ok (l : list hit_where) : Prop := Forall (fun w => w = UNKNOWN \/ located w) l.

(** Everything but the lines, the DRAM counts and the hit information is as before. *)
Record same h h' : Prop := mkSame {
  same_cntlrs : h_cntlrs h' = h_cntlrs h;
  same_home : h_home h' = h_home h;
  same_block : h_block h' = h_block h;
  same_only : h_cache_only h' = h_cache_only h;
  same_settings : h_settings h' = h_settings h;
  same_pfq : h_pfq h' = h_pfq h;
  same_sent : h_sent h' = h_sent h;
  same_threads : h_threads h' = h_threads h;
  same_finished : h_finished h' = h_finished h;
  same_dom : dom (h_masters h') = dom (h_masters h);
  same_last : length (h_last h') = length (h_last h);
  same_hits : hits_ok (h_last h) -> hits_ok (h_last h');
  same_prevs : forall m, prevs h' m = prevs h m;
  same_direct : forall m, direct h' m = direct h m;
  same_waiters : forall m, waiters h' m = waiters h m
}.

#[export] Instance same_preorder : PreOrder same.
Proof.
  split; [by intros h; split|]. intros h1 h2 h3 [] []. split; intros; first [congruence|auto].
Qed.

(** What every operation relies on and keeps: well-formed caches of one block
    size, and blocks that are blocks of addresses. *)
Record hwf h : Prop := mkHwf {
  wf_master : forall m M, h_masters h !! m = Some M ->
    exists n, (0 < n)%nat /\ cache_wf SHARED_CACHE n (m_cache M) /\ cb_blocksize (base (m_cache M)) = h_block h /\
      tidy (m_cache M);
  wf_cntlr : forall id c, h_cntlrs h !! id = Some c -> is_Some (h_masters h !! m_master c);
  wf_last : length (h_last h) = length (h_cntlrs h);
  wf_tags : forall m tag st, lines h m tag = Some st -> address (tag * h_block h)
}.

Lemma hwf_get h id c : hwf h -> h_cntlrs h !! id = Some c -> exists M, h_masters h !! m_master c = Some M.
Proof. intros Hwf Hc. by eapply wf_cntlr. Qed.

Lemma master_ok h id c M :
  h_cntlrs h !! id = Some c -> h_masters h !! m_master c = Some M -> master id h = Ok M.
Proof. intros Hc HM. unfold master, cntlr. rewrite Hc. cbn. by rewrite HM. Qed.

(** Replacing the record of a master. *)
Definition upd (m : nat) (M : Master P) h : Hier P := with_masters (<[m := M]> (h_masters h)) h.

Lemma put_master_ok h id c M : h_cntlrs h !! id = Some c -> put_master id M h = Ok (upd (m_master c) M h).
Proof. intros Hc. unfold put_master, cntlr. by rewrite Hc. Qed.

Lemma lookup_upd m M M0 h x :
  h_masters h !! m = Some M0 ->
  h_masters (upd m M h) !! x = if decide (x = m) then Some M else h_masters h !! x.
Proof.
  intros HM. cbn. rewrite lookup_insert. repeat case_decide; congruence.
Qed.

Lemma same_upd m M M0 h :
  h_masters h !! m = Some M0 -> m_prev_cache_cntlrs M = m_prev_cache_cntlrs M0 ->
  (is_Some (m_dram_cntlr M) <-> is_Some (m_dram_cntlr M0)) ->
  m_directory_waiters M = m_directory_waiters M0 -> same h (upd m M h).
Proof.
  intros HM Hp Hd Hw. split; try done.
  - cbn. rewrite dom_insert_L. apply elem_of_dom_2 in HM. set_solver.
  - intros x. unfold prevs. rewrite (lookup_upd m M M0) by done. case_decide; [subst x; cbn; rewrite HM; cbn; congruence|done].
  - intros x. unfold direct. rewrite (lookup_upd m M M0) by done. case_decide; [subst x; rewrite HM|done].
    by apply bool_decide_ext.
  - intros x. unfold waiters. rewrite (lookup_upd m M M0) by done. case_decide; [subst x; cbn; rewrite HM; cbn; congruence|done].
Qed.

Lemma lines_upd m M M0 h x tag :
  h_masters h !! m = Some M0 ->
  lines (upd m M h) x tag = if decide (x = m) then m_cstate <$> line_of (m_cache M) tag else lines h x tag.
Proof. intros HM. unfold lines. rewrite (lookup_upd m M M0) by done. by case_decide. Qed.

Lemma evicting_upd m M M0 h x :
  h_masters h !! m = Some M0 ->
  evicting (upd m M h) x = if decide (x = m) then fst <$> m_evicting M else evicting h x.
Proof. intros HM. unfold evicting. rewrite (lookup_upd m M M0) by done. by case_decide. Qed.

(** Replacing the cache of a master by a well-formed one with known lines. *)
Lemma hwf_upd m M M0 n h :
  hwf h -> h_masters h !! m = Some M0 -> (0 < n)%nat -> cache_wf SHARED_CACHE n (m_cache M) ->
  cb_blocksize (base (m_cache M)) = h_block h -> tidy (m_cache M) ->
  (forall tag b, line_of (m_cache M) tag = Some b -> address (tag * h_block h)) ->
  hwf (upd m M h).
Proof.
  intros Hwf HM Hn Hc Hbs Htd Ht. split.
  - intros x M1. rewrite (lookup_upd m M M0) by done. case_decide; [intros [= <-]; by exists n|].
    apply (wf_master _ Hwf).
  - intros id c Hc'. rewrite (lookup_upd m M M0) by done. case_decide; [done|by eapply wf_cntlr].
  - apply (wf_last _ Hwf).
  - intros x tag st. rewrite (lines_upd m M M0) by done. case_decide.
    + intros (b & Hb & _)%fmap_Some. by eapply Ht.
    + apply (wf_tags _ Hwf).
Qed.

(** ** Reading *)
Lemma info_ok h id c a :
  hwf h -> h_cntlrs h !! id = Some c -> address a ->
  exists info, getCacheBlockInfo id a h = Ok info /\ m_cstate <$> info = lines h (m_master c) (block h a).
Proof.
  intros Hwf Hc Ha. destruct (hwf_get _ _ _ Hwf Hc) as [M HM].
  destruct (wf_master _ Hwf _ _ HM) as (n & _ & Hcw & Hbs & Htd).
  unfold getCacheBlockInfo. rewrite (master_ok _ _ _ _ Hc HM). cbn [rbind].
  rewrite (peek_line_of SHARED_CACHE n) by done. eexists. split; [done|].
  unfold lines, block. rewrite HM, Hbs. done.
Qed.

Lemma state_ok h id c a :
  hwf h -> h_cntlrs h !! id = Some c -> address a ->
  getCacheState id a h = Ok (default CacheState.INVALID (lines h (m_master c) (block h a))).
Proof.
  intros Hwf Hc Ha. destruct (info_ok h id c a Hwf Hc Ha) as (info & E & <-).
  unfold getCacheState. rewrite E. cbn. by destruct info.
Qed.

(** ** Changing one cache *)
(** The lines after the state of one block changed. *)
Definition set_line (m : nat) (tag : Z) (o : option CacheState.cstate_t) h h' : Prop :=
  forall x t, lines h' x t = if decide (x = m /\ t = tag) then o else lines h x t.

Definition keeps_lines h h' : Prop := forall x t, lines h' x t = lines h x t.
Definition keeps_evicting h h' : Prop := forall x, evicting h' x = evicting h x.

(** An operation on the cache of a controller, from its effect on the lines. *)
Lemma on_cache_ok {A} id (f : Cache P -> result (A * Cache P)) h c M n a c' :
  hwf h -> h_cntlrs h !! id = Some c -> h_masters h !! m_master c = Some M ->
  f (m_cache M) = Ok (a, c') -> (0 < n)%nat -> cache_wf SHARED_CACHE n c' -> base c' = base (m_cache M) ->
  tidy c' ->
  (forall tag b, line_of c' tag = Some b -> address (tag * h_block h)) ->
  exists h', on_cache id f h = Ok (a, h') /\ same h h' /\ hwf h' /\ keeps_evicting h h' /\
    h_masters h' !! m_master c = Some (with_cache c' M) /\
    forall x t, lines h' x t = if decide (x = m_master c) then m_cstate <$> line_of c' t else lines h x t.
Proof.
  intros Hwf Hc HM Hf Hn Hcw Hb Htd Ht. unfold on_cache. rewrite (master_ok _ _ _ _ Hc HM). cbn [rbind].
  rewrite Hf. cbn [rbind]. rewrite (put_master_ok h id c) by done. cbn [rbind].
  eexists. split; [done|]. split; [by apply (same_upd _ _ M)|].
  destruct (wf_master _ Hwf _ _ HM) as (n0 & _ & _ & Hbs & _).
  split; [apply (hwf_upd _ _ M n); cbn; try done; congruence|]. split; [|split].
  - intros x. rewrite (evicting_upd _ _ M) by done. case_decide; [subst x|done].
    unfold evicting. by rewrite HM.
  - rewrite (lookup_upd _ _ M) by done. by rewrite decide_True.
  - intros x t. by rewrite (lines_upd _ _ M).
Qed.

Lemma lines_master h id c M t :
  h_cntlrs h !! id = Some c -> h_masters h !! m_master c = Some M ->
  lines h (m_master c) t = m_cstate <$> line_of (m_cache M) t.
Proof. intros _ HM. unfold lines. by rewrite HM. Qed.

(** The state function of a controller's own lines, as [set_line]. *)
Lemma as_set_line h h' id c M (c' : Cache P) tag o :
  h_cntlrs h !! id = Some c -> h_masters h !! m_master c = Some M ->
  (forall x t, lines h' x t = if decide (x = m_master c) then m_cstate <$> line_of c' t else lines h x t) ->
  (forall t, m_cstate <$> line_of c' t =
     if decide (t = tag) then o else m_cstate <$> line_of (m_cache M) t) ->
  set_line (m_master c) tag o h h'.
Proof.
  intros Hc HM Hl Hc' x t. rewrite Hl. case_decide as Hx.
  - subst x. rewrite Hc'. rewrite (lines_master h id c M) by done.
    case_decide; [by rewrite decide_True|rewrite decide_False by tauto; done].
  - rewrite decide_False by tauto. done.
Qed.

Lemma tags_of h id c M tag b :
  hwf h -> h_cntlrs h !! id = Some c -> h_masters h !! m_master c = Some M ->
  line_of (m_cache M) tag = Some b -> address (tag * h_block h).
Proof.
  intros Hwf Hc HM Hb. eapply (wf_tags _ Hwf (m_master c) tag (m_cstate b)).
  rewrite (lines_master h id c M) by done. by rewrite Hb.
Qed.

Lemma update_block_ok h id c a f s :
  hwf h -> h_cntlrs h !! id = Some c -> address a ->
  lines h (m_master c) (block h a) = Some s ->
  (forall b, m_tag (f b) = m_tag b /\ sub (f b) = sub b) ->
  exists h' b, update_block id a f h = Ok h' /\ m_cstate b = s /\ same h h' /\ hwf h' /\ keeps_evicting h h' /\
    set_line (m_master c) (block h a) (Some (m_cstate (f b))) h h'.
Proof.
  intros Hwf Hc Ha Hs Hf. destruct (hwf_get _ _ _ Hwf Hc) as [M HM].
  destruct (wf_master _ Hwf _ _ HM) as (n & Hn & Hcw & Hbs & Htd).
  rewrite (lines_master h id c M) in Hs by done. unfold block in *. rewrite <- Hbs in Hs.
  apply fmap_Some in Hs as (b & Hb & ->). destruct (Hf b) as [Hft Hfs].
  destruct (update_line_refines SHARED_CACHE n (m_cache M) a f b Hcw Ha Hb Hft Hfs)
    as (c' & E & Hcw' & Hb' & Htd' & Hl). rewrite Hbs in Hl, Hb.
  destruct (on_cache_ok id (fun c => let! c := update_line a f c in Ok (tt, c)) h c M n tt c')
    as (h' & E' & Hsame & Hwf' & Hev & _ & Hlines); try done.
  - by rewrite E.
  - by apply Htd'.
  - intros tag x. rewrite Hl. case_decide as Ht.
    + intros _. subst tag. eapply tags_of; eassumption.
    + intros Hx. eapply tags_of; eassumption.
  - exists h', b. unfold update_block. rewrite E'. split; [done|]. split; [done|]. do 3 (split; [done|]).
    eapply as_set_line; [done..|]. intros t. rewrite Hl. by case_decide.
Qed.

Lemma setCacheState_ok h id c a s st :
  hwf h -> h_cntlrs h !! id = Some c -> address a -> lines h (m_master c) (block h a) = Some s ->
  exists h', setCacheState id a st h = Ok h' /\ same h h' /\ hwf h' /\ keeps_evicting h h' /\
    set_line (m_master c) (block h a) (Some st) h h'.
Proof.
  intros Hwf Hc Ha Hs.
  destruct (update_block_ok h id c a (setCState st) s Hwf Hc Ha Hs) as (h' & b & E & _ & R); [done|].
  by exists h'.
Qed.

(** A change of a line that leaves its state alone. *)
Lemma update_block_keeps h id c a f s :
  hwf h -> h_cntlrs h !! id = Some c -> address a -> lines h (m_master c) (block h a) = Some s ->
  (forall b, m_tag (f b) = m_tag b /\ sub (f b) = sub b) -> (forall b, m_cstate (f b) = m_cstate b) ->
  exists h', update_block id a f h = Ok h' /\ same h h' /\ hwf h' /\ keeps_evicting h h' /\ keeps_lines h h'.
Proof.
  intros Hwf Hc Ha Hs Hf Hst.
  destruct (update_block_ok h id c a f s Hwf Hc Ha Hs Hf) as (h' & b & E & Hb & ? & ? & ? & Hl).
  exists h'. do 4 (split; [done|]). intros x t. rewrite Hl. case_decide as Hd; [|done].
  destruct Hd as [-> ->]. congruence.
Qed.

Lemma invalidate_ok h id c a s :
  hwf h -> h_cntlrs h !! id = Some c -> address a -> lines h (m_master c) (block h a) = Some s ->
  s <> CacheState.MODIFIED -> s <> CacheState.INVALID ->
  exists h', invalidateCacheBlock id a h = Ok h' /\ same h h' /\ hwf h' /\ keeps_evicting h h' /\
    set_line (m_master c) (block h a) None h h'.
Proof.
  intros Hwf Hc Ha Hs Hm Hi. unfold invalidateCacheBlock.
  rewrite (state_ok h id c) by done. rewrite Hs. cbn [rbind default].
  rewrite !bool_decide_eq_false_2 by done. cbn [negb rguard rbind].
  destruct (hwf_get _ _ _ Hwf Hc) as [M HM]. destruct (wf_master _ Hwf _ _ HM) as (n & Hn & Hcw & Hbs & Htd).
  destruct (invalidateSingleLine_refines SHARED_CACHE n (m_cache M) a Hcw Ha) as (c' & E & Hcw' & Hb' & Hl).
  rewrite Hbs in Hl.
  destruct (on_cache_ok id (invalidateSingleLine a) h c M n _ c' Hwf Hc HM E Hn Hcw' Hb'
    (invalidate_tidy _ _ _ _ E Htd))
    as (h' & E' & Hsame & Hwf' & Hev & _ & Hlines).
  { intros tag b. rewrite Hl. case_decide; [done|]. intros Hx. eapply tags_of; eassumption. }
  exists h'. rewrite E'. do 4 (split; [done|]). eapply as_set_line; [done..|].
  intros t. rewrite Hl. unfold block. by case_decide.
Qed.

(** ** Accesses *)
Definition fits h (a len : Z) : Prop := 0 <= len /\ a mod h_block h + len <= h_block h.

Lemma access_ok h id c a t want buf len upd :
  hwf h -> h_cntlrs h !! id = Some c -> address a -> fits h a len ->
  exists info d h', access id a t want buf len upd h = Ok (info, d, h') /\
    m_cstate <$> info = lines h (m_master c) (block h a) /\
    same h h' /\ hwf h' /\ keeps_evicting h h' /\ keeps_lines h h'.
Proof.
  intros Hwf Hc Ha [Hl Hfit]. destruct (hwf_get _ _ _ Hwf Hc) as [M HM].
  destruct (wf_master _ Hwf _ _ HM) as (n & Hn & Hcw & Hbs & Htd).
  destruct (access_refines SHARED_CACHE n (m_cache M) a t want (default None buf) len upd Hcw Ha Hl)
    as (r & c' & E & Hr & Hcw' & Hb' & Hlines); [by rewrite Hbs|].
  destruct (on_cache_ok id (fun c =>
      let! (line, out, c) := accessSingleLine a t want (default None buf) len upd c in
      Ok (option_map snd line, out, c)) h c M n (option_map snd r, None) c')
    as (h' & E' & Hsame & Hwf' & Hev & _ & Hls); try done.
  - by rewrite E.
  - by eapply access_tidy.
  - intros tag b. rewrite Hlines. intros Hx. eapply tags_of; eassumption.
  - exists (option_map snd r), None, h'. unfold access. rewrite E'. split; [done|].
    split; [|split; [done|split; [done|split; [done|]]]].
    + rewrite Hr, (lines_master h id c M) by done. unfold block. by rewrite Hbs.
    + intros x tg. rewrite Hls. case_decide; [subst x|done].
      by rewrite Hlines, (lines_master h id c M).
Qed.

Lemma block_pos h id c : hwf h -> h_cntlrs h !! id = Some c -> 1 < h_block h.
Proof.
  intros Hwf Hc. destruct (hwf_get _ _ _ Hwf Hc) as [M HM].
  destruct (wf_master _ Hwf _ _ HM) as (n & _ & Hcw & Hbs & Htd). rewrite <- Hbs. apply (wf_block _ _ _ Hcw).
Qed.

Lemma retrieve_ok h id c a upd s :
  hwf h -> h_cntlrs h !! id = Some c -> address a -> a mod h_block h = 0 ->
  lines h (m_master c) (block h a) = Some s ->
  exists d h', retrieveCacheBlock id a upd h = Ok (d, h') /\
    same h h' /\ hwf h' /\ keeps_evicting h h' /\ keeps_lines h h'.
Proof.
  intros Hwf Hc Ha Hal Hs. pose proof (block_pos h id c Hwf Hc) as Hbp.
  destruct (access_ok h id c a LOAD true None (h_block h) upd Hwf Hc Ha)
    as (info & d & h' & E & Hi & R); [split; lia|].
  exists d, h'. unfold retrieveCacheBlock. rewrite E. cbn [rbind].
  rewrite Hs in Hi. destruct info; [|done]. by rewrite bool_decide_eq_true_2.
Qed.

(** A master takes a written-back line: it has it MODIFIED, or is evicting it. *)
Definition accepts h (m : nat) (a : Z) : Prop :=
  evicting h m = Some a \/ lines h m (block h a) = Some CacheState.MODIFIED.

Lemma write_ok h fuel id c a off data len :
  hwf h -> h_cntlrs h !! id = Some c -> m_cache_writethrough c = false -> address (a + off) ->
  fits h (a + off) len -> block h (a + off) = block h a ->
  (evicting h (m_master c) = Some a -> off = 0 /\ len = h_block h) -> accepts h (m_master c) a ->
  exists h', writeCacheBlock (S fuel) id a off data len h = Ok h' /\
    same h h' /\ hwf h' /\ keeps_evicting h h' /\ keeps_lines h h'.
Proof.
  intros Hwf Hc Hwt Ha Hfit Hblk Hwhole Hacc. destruct (hwf_get _ _ _ Hwf Hc) as [M HM].
  cbn [writeCacheBlock]. unfold cntlr at 1. rewrite Hc. cbn [of_option rbind].
  rewrite (master_ok _ _ _ _ Hc HM), Hwt. cbn [rbind].
  assert (Hev : evicting h (m_master c) = fst <$> m_evicting M) by (unfold evicting; by rewrite HM).
  assert (Hstore : lines h (m_master c) (block h a) = Some CacheState.MODIFIED ->
    exists h', (let! (info, _, h1) := access id (a + off) STORE false data len false h in
      guard! bool_decide (is_Some info) else LogError in
      guard! bool_decide (cstate_of info = CacheState.MODIFIED) else LogError in Ok h1) = Ok h' /\
    same h h' /\ hwf h' /\ keeps_evicting h h' /\ keeps_lines h h').
  { intros HMd. destruct (access_ok h id c (a + off) STORE false data len false Hwf Hc Ha Hfit)
      as (info & d & h' & E & Hi & R). rewrite Hblk, HMd in Hi. apply fmap_Some in Hi as (b & -> & Hb).
    exists h'. rewrite E. cbn [rbind]. rewrite bool_decide_eq_true_2 by done. cbn [rguard rbind].
    by rewrite bool_decide_eq_true_2. }
  destruct (m_evicting M) as [[e buf]|] eqn:Hm; cbn in Hev.
  - destruct (Z.eqb_spec a e) as [->|Hne].
    + destruct (Hwhole Hev) as [-> ->]. rewrite !Z.eqb_refl. cbn [rguard rbind].
      rewrite (put_master_ok h id c) by done. cbn [rbind]. eexists. split; [done|].
      split; [by apply (same_upd _ _ M)|].
      destruct (wf_master _ Hwf _ _ HM) as (n & Hn & Hcw & Hbs & Htd). split; [|split].
      * apply (hwf_upd _ _ M n); try done. intros tag b Hb. eapply tags_of; eassumption.
      * intros x. rewrite (evicting_upd _ _ M) by done. case_decide; [by subst|done].
      * intros x t. rewrite (lines_upd _ _ M) by done. case_decide; [subst x|done].
        by rewrite (lines_master h id c M).
    + destruct Hacc as [E|HMd]; [congruence|]. destruct (Hstore HMd) as (h' & E & R).
      exists h'. rewrite E. done.
  - destruct Hacc as [E|HMd]; [congruence|]. destruct (Hstore HMd) as (h' & E & R).
    exists h'. rewrite E. done.
Qed.

Lemma count_ok h id c b :
  hwf h -> h_cntlrs h !! id = Some c ->
  exists h', count_access id b h = Ok h' /\ same h h' /\ hwf h' /\ keeps_evicting h h' /\ keeps_lines h h'.
Proof.
  intros Hwf Hc. destruct (hwf_get _ _ _ Hwf Hc) as [M HM].
  destruct (wf_master _ Hwf _ _ HM) as (n & Hn & Hcw & Hbs & Htd).
  assert (Hl : forall tag, line_of (updateCounters b (m_cache M)) tag = line_of (m_cache M) tag)
    by (intros tag; unfold updateCounters; by destruct (m_enabled (m_cache M))).
  destruct (on_cache_ok id (fun c => Ok (tt, updateCounters b c)) h c M n tt (updateCounters b (m_cache M)))
    as (h' & E & R1 & R2 & R3 & _ & Hls); try done.
  - unfold updateCounters. destruct (m_enabled (m_cache M)); [by apply with_counters_wf|done].
  - unfold updateCounters. by destruct (m_enabled (m_cache M)).
  - unfold updateCounters. by destruct (m_enabled (m_cache M)).
  - intros tag x. rewrite Hl. intros Hx. eapply tags_of; eassumption.
  - exists h'. unfold count_access. rewrite E. do 4 (split; [done|]). intros x t. rewrite Hls.
    case_decide; [subst x|done]. by rewrite Hl, (lines_master h id c M).
Qed.
End view.
