(* ===== verification/HierLower.v ===== *)
(** Well-formed topologies of cache controllers, the order of the coherence
    states along them, and the operation that lowers the state of a block in a
    whole subtree: updateCacheBlock to INVALID or SHARED. *)
From stdpp Require Import base numbers list gmap strings.
From Stdlib Require Import ZArith Lia Bool.
From S2P Require Import Prelude Utils CacheBlock CacheBase Replacement CacheSet Cache Queues DirectoryCntlr SwLlc Hierarchy HierView.
Open Scope Z_scope.

(** * Topologies *)

(** A controller of a coherent write-back cache. *)
Definition plain (c : Cntlr) : Prop :=
  m_perfect c = false /\ m_passthrough c = false /\ m_coherent c = true /\ m_cache_writethrough c = false.

Section topology.
Context {P : Type}.
Implicit Types h : Hier P.

(** The master of the next level. *)
Definition parent h (c : Cntlr) : option nat :=
  n ← m_next_cache_cntlr c; nc ← h_cntlrs h !! n; Some (m_master nc).

Definition level h (m : nat) : Z := match h_cntlrs h !! m with Some c => m_mem_component c | None => 0 end.

(** What the memory manager sets up: masters are their own masters, levels grow
    towards the last one, all controllers of a shared cache agree on the next
    cache, and that one lists exactly the masters before it; there are at most
    four levels, those that have a name of their own. *)
Record topo h : Prop := mkTopo {
  t_plain : forall id c, h_cntlrs h !! id = Some c -> plain c;
  t_master : forall id c, h_cntlrs h !! id = Some c ->
    exists mc, h_cntlrs h !! m_master c = Some mc /\ m_master mc = m_master c /\
      m_mem_component mc = m_mem_component c;
  t_next : forall id c n, h_cntlrs h !! id = Some c -> m_next_cache_cntlr c = Some n ->
    exists nc, h_cntlrs h !! n = Some nc /\ m_mem_component c < m_mem_component nc;
  t_parent : forall i1 i2 c1 c2, h_cntlrs h !! i1 = Some c1 -> h_cntlrs h !! i2 = Some c2 ->
    m_master c1 = m_master c2 -> parent h c1 = parent h c2;
  t_prev : forall m p, p ∈ prevs h m ->
    exists pc n nc, h_cntlrs h !! p = Some pc /\ m_master pc = p /\ m_next_cache_cntlr pc = Some n /\
      h_cntlrs h !! n = Some nc /\ m_master nc = m;
  t_complete : forall id c n nc, h_cntlrs h !! id = Some c -> m_next_cache_cntlr c = Some n ->
    h_cntlrs h !! n = Some nc -> m_master c ∈ prevs h (m_master nc);
  t_range : forall id c, h_cntlrs h !! id = Some c -> 2 <= m_mem_component c < 2 + Z.of_nat (length (h_cntlrs h));
  t_named : forall id c, h_cntlrs h !! id = Some c -> m_mem_component c <= 6
}.

(** The masters of the subtree of [m]. *)
Inductive below h : nat -> nat -> Prop :=
  | below_refl m : below h m m
  | below_prev m p x : p ∈ prevs h m -> below h p x -> below h m x.

Lemma below_inv h m x : below h m x <-> x = m \/ exists p, p ∈ prevs h m /\ below h p x.
Proof.
  split.
  - intros [y|y p z Hp Hb]; [by left|right; eauto].
  - intros [->|(p & Hp & Hb)]; [constructor|by econstructor].
Qed.

Lemma below_down h m y p : below h m y -> p ∈ prevs h y -> below h m p.
Proof. induction 1; intros Hp; [econstructor; [done|constructor]|econstructor; eauto]. Qed.

Lemma below_trans h m y x : below h m y -> below h y x -> below h m x.
Proof. induction 1; [done|]. intros. econstructor; eauto. Qed.

Lemma level_master h id c : topo h -> h_cntlrs h !! id = Some c -> level h (m_master c) = m_mem_component c.
Proof. intros Ht Hc. destruct (t_master _ Ht id c Hc) as (mc & Hm & _ & E). unfold level. by rewrite Hm. Qed.

Lemma level_prev h m p : topo h -> p ∈ prevs h m -> level h p < level h m.
Proof.
  intros Ht Hp. destruct (t_prev _ Ht m p Hp) as (pc & n & nc & Hpc & Hpm & Hn & Hnc & <-).
  rewrite (level_master h n nc) by done. destruct (t_next _ Ht p pc n Hpc Hn) as (nc' & Hnc' & Hlt).
  assert (nc' = nc) as -> by congruence. unfold level. rewrite Hpc. lia.
Qed.

Lemma level_below h m x : topo h -> below h m x -> level h x <= level h m.
Proof. intros Ht. induction 1 as [|m p x Hp Hb IH]; [lia|]. pose proof (level_prev h m p Ht Hp). lia. Qed.

(** A master is not in the subtrees of its previous levels. *)
Lemma not_below_prev h m p : topo h -> p ∈ prevs h m -> ~ below h p m.
Proof. intros Ht Hp Hb. pose proof (level_prev h m p Ht Hp). pose proof (level_below h p m Ht Hb). lia. Qed.
End topology.

Section same_topology.
Context {P : Type} `{ReplacementPolicy P}.
Implicit Types h : Hier P.

Lemma topo_same h h' : same h h' -> topo h -> topo h'.
Proof.
  intros Hs Ht. pose proof (same_cntlrs _ _ Hs) as E. pose proof (same_prevs _ _ Hs) as Ep.
  destruct Ht as [H1 H2 H3 H4 H5 H6 H7].
  split; unfold parent in *; rewrite ?E; try done; intros *; rewrite ?Ep; [apply H5|apply H6].
Qed.

Lemma below_same h h' m x : same h h' -> below h m x <-> below h' m x.
Proof.
  intros Hs. pose proof (same_prevs _ _ Hs) as Ep.
  split; (induction 1 as [|m p x Hp _ IH]; [constructor|]); (apply (below_prev _ _ p); [|done]);
    [by rewrite Ep|by rewrite <- Ep].
Qed.
End same_topology.

(** * The order of the states *)
Definition rank (o : option CacheState.cstate_t) : nat :=
  match o with
  | None => 0
  | Some CacheState.SHARED | Some CacheState.SHARED_UPGRADING => 1
  | Some CacheState.EXCLUSIVE => 2
  | Some CacheState.MODIFIED => 3
  | Some _ => 4
  end.

(** The states a line of a cache can have. *)
Definition line_state (s : CacheState.cstate_t) : Prop :=
  match s with
  | CacheState.SHARED | CacheState.SHARED_UPGRADING | CacheState.EXCLUSIVE | CacheState.MODIFIED => True
  | _ => False
  end.

(** The state of a line after [updateCacheBlock] to [new], INVALID or SHARED. *)
Definition low (new : CacheState.cstate_t) (o : option CacheState.cstate_t) : option CacheState.cstate_t :=
  match new with
  | CacheState.INVALID => None
  | _ => (fun _ => CacheState.SHARED) <$> o
  end.
Definition lowering (new : CacheState.cstate_t) : Prop :=
  new = CacheState.INVALID \/ new = CacheState.SHARED.

Lemma low_idem new o : low new (low new o) = low new o.
Proof. by destruct new, o. Qed.

Lemma rank_low_le new o : (rank (low new o) <= rank o)%nat.
Proof. destruct new, o as [[]|]; cbn; lia. Qed.

Lemma rank_low_mono new o o' : (rank o <= rank o')%nat -> (rank (low new o) <= rank (low new o'))%nat.
Proof. destruct new, o as [[]|], o' as [[]|]; cbn; lia. Qed.

Lemma low_not_modified new o : low new o <> Some CacheState.MODIFIED.
Proof. by destruct new, o. Qed.

Section lowering.
Context {P : Type} `{AlwaysReplaces P} `{!EnvFrame P}.
Implicit Types h : Hier P.

Definition states_ok h : Prop := forall m t s, lines h m t = Some s -> line_state s.

(** The block [t] was lowered in the masters of [S], and nothing else changed. *)
Definition lowered h h' (S : nat -> Prop) (t : Z) (new : CacheState.cstate_t) : Prop :=
  (forall x t', lines h' x t' = lines h x t' \/
     t' = t /\ S x /\ lines h' x t' = low new (lines h x t')) /\
  (forall x, S x -> lines h' x t = low new (lines h x t)).

Lemma lowered_refl h t new : lowered h h (fun _ => False) t new.
Proof. split; [by left|done]. Qed.

Lemma lowered_keeps h h' t new : keeps_lines h h' -> lowered h h' (fun _ => False) t new.
Proof. intros Hk. split; [left; apply Hk|done]. Qed.

Lemma lowered_trans h h1 h2 S1 S2 t new :
  lowered h h1 S1 t new -> lowered h1 h2 S2 t new -> lowered h h2 (fun x => S1 x \/ S2 x) t new.
Proof.
  intros [A1 B1] [A2 B2]. split.
  - intros x t'. destruct (A1 x t') as [E1|(E & HS1 & E1)], (A2 x t') as [E2|(E' & HS2 & E2)].
    + left. congruence.
    + right. split; [done|]. split; [by right|]. congruence.
    + right. split; [done|]. split; [by left|]. congruence.
    + right. split; [done|]. split; [by left|]. by rewrite E2, E1, low_idem.
  - intros x [HS|HS].
    + destruct (A2 x t) as [E2|(_ & _ & E2)]; rewrite E2, (B1 x HS); [done|apply low_idem].
    + rewrite (B2 x HS). destruct (A1 x t) as [->|(_ & _ & ->)]; [done|apply low_idem].
Qed.

Lemma lowered_ext h h' S S' t new : (forall x, S x <-> S' x) -> lowered h h' S t new -> lowered h h' S' t new.
Proof.
  intros HS [A B]. split.
  - intros x t'. destruct (A x t') as [?|(? & ? & ?)]; [by left|right]. split; [done|]. by rewrite <- HS.
  - intros x Hx. apply B. by apply HS.
Qed.

Lemma lowered_out h h' S t new x t' : lowered h h' S t new -> ~ S x -> lines h' x t' = lines h x t'.
Proof. intros [A _] Hx. by destruct (A x t') as [?|(_ & ? & _)]. Qed.

Lemma lowered_other h h' S t new x t' : lowered h h' S t new -> t' <> t -> lines h' x t' = lines h x t'.
Proof. intros [A _] Ht. by destruct (A x t') as [?|(? & _)]. Qed.

Lemma lowered_rank_le h h' S t new x t' :
  lowered h h' S t new -> (rank (lines h' x t') <= rank (lines h x t'))%nat.
Proof. intros [A _]. destruct (A x t') as [->|(_ & _ & ->)]; [lia|apply rank_low_le]. Qed.

(** Along an edge whose lower end is lowered with the upper one, the order stays. *)
Lemma lowered_rank h h' S t new y q t' :
  lowered h h' S t new -> (S y -> S q) ->
  (rank (lines h q t') <= rank (lines h y t'))%nat -> (rank (lines h' q t') <= rank (lines h' y t'))%nat.
Proof.
  intros Hl Himp Hle. pose proof (lowered_rank_le _ _ _ _ _ q t' Hl) as Hq. destruct Hl as [A B].
  destruct (A y t') as [->|(-> & Hy & ->)]; [lia|]. rewrite (B q (Himp Hy)). by apply rank_low_mono.
Qed.

Lemma lowered_states h h' S t new : lowered h h' S t new -> states_ok h -> states_ok h'.
Proof.
  intros [A _] Hok m t' s Hs. destruct (A m t') as [E|(_ & _ & E)]; rewrite E in Hs; [by eapply Hok|].
  destruct new, (lines h m t'); cbn in Hs; simplify_eq; done.
Qed.

Lemma lowered_set h h' m t new :
  set_line m t (low new (lines h m t)) h h' -> lowered h h' (eq m) t new.
Proof.
  intros Hs. split.
  - intros x t'. rewrite Hs. case_decide as Hd; [destruct Hd as [-> ->]; by right|by left].
  - intros x <-. by rewrite Hs, decide_True.
Qed.

Lemma accepts_keep h h' m a :
  same h h' -> keeps_evicting h h' -> lines h' m (block h a) = lines h m (block h a) ->
  accepts h m a -> accepts h' m a.
Proof.
  intros Hs He Hl Hacc. unfold accepts, block in *. rewrite He, (same_block _ _ Hs), Hl. done.
Qed.

(** ** The loop over previous levels *)
Lemma each_prev_lowers (Pre : Hier P -> Prop) (S : nat -> nat -> Prop) t new f l :
  (forall p h1, p ∈ l -> Pre h1 ->
     returns (fun r => Pre r.2 /\ same h1 r.2 /\ keeps_evicting h1 r.2 /\ lowered h1 r.2 (S p) t new) (f p h1)) ->
  forall hit h, Pre h ->
  returns (fun r => Pre r.2 /\ same h r.2 /\ keeps_evicting h r.2 /\
             lowered h r.2 (fun x => exists p, p ∈ l /\ S p x) t new) (each_prev f l hit h).
Proof.
  induction l as [|p l IH]; intros Hf hit h Hpre.
  - cbn. split; [done|]. split; [done|]. split; [by intros x|].
    eapply lowered_ext; [|apply lowered_refl]. intros x. split; [done|]. by intros (p & Hp%not_elem_of_nil & _).
  - cbn [each_prev]. eapply returns_bind; [apply Hf; [left|done]|].
    intros [hit1 h1] (Hpre1 & Hs1 & He1 & Hl1). cbn [snd] in *.
    eapply returns_mono; [apply IH; [intros q h2 Hq; apply Hf; by right|done]|].
    intros [hit2 h2] (Hpre2 & Hs2 & He2 & Hl2). cbn [snd] in *.
    split; [done|]. split; [by etrans|]. split; [intros x; by rewrite He2, He1|].
    eapply lowered_ext; [|eapply lowered_trans; eassumption]. intros x. cbn. split.
    + intros [Hx|(q & Hq & Hx)]; [exists p; split; [left|done]|exists q; split; [by right|done]].
    + intros (q & [->|Hq]%elem_of_cons & Hx); [by left|right; eauto].
Qed.

(** ** The transition of one line *)
Lemma write_back_ok h id c next nc a s :
  hwf h -> h_cntlrs h !! id = Some c -> plain c -> m_next_cache_cntlr c = Some next ->
  h_cntlrs h !! next = Some nc -> plain nc -> address a -> a mod h_block h = 0 ->
  lines h (m_master c) (block h a) = Some s -> accepts h (m_master nc) a ->
  exists h', write_back id c a false h = Ok (None, true, h') /\
    same h h' /\ hwf h' /\ keeps_evicting h h' /\ keeps_lines h h'.
Proof.
  intros Hwf Hc (_ & _ & _ & Hwt) Hn Hnc (_ & _ & _ & Hnwt) Ha Hal Hs Hacc.
  unfold write_back. rewrite Hwt, Hn.
  destruct (retrieve_ok h id c a false s Hwf Hc Ha Hal Hs) as (d & h1 & E1 & Hs1 & Hw1 & He1 & Hk1).
  rewrite E1. cbn [rbind].
  pose proof (block_pos h id c Hwf Hc) as Hbp.
  destruct (write_ok h1 (length (h_cntlrs h1)) next nc a 0 (Some d) (h_block h1))
    as (h2 & E2 & Hs2 & Hw2 & He2 & Hk2); try done.
  - by rewrite (same_cntlrs _ _ Hs1).
  - by rewrite Z.add_0_r.
  - unfold fits. rewrite (same_block _ _ Hs1), Z.add_0_r. lia.
  - by rewrite Z.add_0_r.
  - apply (accepts_keep h); [done|done|apply Hk1|done].
  - exists h2. unfold depth. rewrite E2. split; [done|]. split; [by etrans|]. split; [done|].
    split; [intros x; by rewrite He2, He1|intros x t; by rewrite Hk2, Hk1].
Qed.

Lemma set_line_trans h h1 h2 m t o o1 :
  set_line m t o1 h h1 -> set_line m t o h1 h2 -> set_line m t o h h2.
Proof. intros H1' H2' x t'. rewrite H2'. case_decide; [done|]. by rewrite H1', decide_False. Qed.

Lemma change_state_ok h id c next nc b a new hit :
  hwf h -> h_cntlrs h !! id = Some c -> plain c -> m_next_cache_cntlr c = Some next ->
  h_cntlrs h !! next = Some nc -> plain nc -> address a -> a mod h_block h = 0 -> lowering new ->
  lines h (m_master c) (block h a) = Some (m_cstate b) -> line_state (m_cstate b) ->
  (m_cstate b = CacheState.MODIFIED -> accepts h (m_master nc) a) ->
  exists sib h', change_state id c b a new false hit h = Ok (None, sib, h') /\
    same h h' /\ hwf h' /\ keeps_evicting h h' /\ lowered h h' (eq (m_master c)) (block h a) new.
Proof.
  intros Hwf Hc Hp Hn Hnc Hnp Ha Hal Hnew Hs Hok Hacc.
  assert (Hfirst : exists sib h1 s, (if bool_decide (m_cstate b = CacheState.MODIFIED) then
       let! (written, is_writeback, h) := write_back id c a false h in
       let! h := update_block id a (setCState CacheState.SHARED) h in
       Ok (written, hit || is_writeback, h)
     else Ok (None, hit, h)) = Ok (None, sib, h1) /\
     same h h1 /\ hwf h1 /\ keeps_evicting h h1 /\ set_line (m_master c) (block h a) (Some s) h h1 /\
     s <> CacheState.MODIFIED /\ s <> CacheState.INVALID).
  { case_bool_decide as HM.
    - destruct (write_back_ok h id c next nc a (m_cstate b)) as (h1 & E1 & Hs1 & Hw1 & He1 & Hk1); try done; [by apply Hacc|].
      rewrite E1. cbn [rbind].
      assert (Hbk : block h1 a = block h a) by (unfold block; by rewrite (same_block _ _ Hs1)).
      destruct (setCacheState_ok h1 id c a (m_cstate b) CacheState.SHARED) as (h2 & E2 & Hs2 & Hw2 & He2 & Hl2);
        [done|by rewrite (same_cntlrs _ _ Hs1)|done|by rewrite Hbk, Hk1|].
      unfold setCacheState in E2. rewrite E2. cbn [rbind]. exists (hit || true), h2, CacheState.SHARED.
      split; [done|]. split; [by etrans|]. split; [done|]. split; [intros x; by rewrite He2, He1|].
      split; [|done]. rewrite Hbk in Hl2. intros x t. rewrite Hl2, Hk1. done.
    - exists hit, h, (m_cstate b). split; [done|]. split; [done|]. split; [done|]. split; [by intros x|].
      split; [|split; [done|by intros E; rewrite E in Hok]].
      intros x t. case_decide as Hd; [|done]. destruct Hd as [-> ->]. done. }
  destruct Hfirst as (sib & h1 & s & E1 & Hs1 & Hw1 & He1 & Hl1 & HnM & HnI).
  assert (Hbk : block h1 a = block h a) by (unfold block; by rewrite (same_block _ _ Hs1)).
  assert (Hst : lines h1 (m_master c) (block h1 a) = Some s) by (by rewrite Hbk, Hl1, decide_True).
  assert (Hc1 : h_cntlrs h1 !! id = Some c) by (by rewrite (same_cntlrs _ _ Hs1)).
  pose proof Hp as (_ & _ & Hcoh & _).
  unfold change_state. rewrite E1. cbn [rbind]. exists sib. destruct Hnew as [-> | ->]; cbn [copy_out rbind].
  - rewrite Hcoh. destruct (invalidate_ok h1 id c a s) as (h2 & E2 & Hs2 & Hw2 & He2 & Hl2); try done.
    rewrite E2. exists h2. split; [done|]. split; [by etrans|]. split; [done|].
    split; [intros x; by rewrite He2, He1|]. apply lowered_set. rewrite Hbk in Hl2. cbn [low].
    by eapply set_line_trans.
  - destruct (setCacheState_ok h1 id c a s CacheState.SHARED) as (h2 & E2 & Hs2 & Hw2 & He2 & Hl2); try done.
    unfold setCacheState in E2. rewrite E2. exists h2. split; [done|]. split; [by etrans|]. split; [done|].
    split; [intros x; by rewrite He2, He1|]. apply lowered_set. rewrite Hbk in Hl2. rewrite Hs. cbn [low fmap option_fmap].
    by eapply set_line_trans.
Qed.

(** ** The subtree of a controller *)
Definition sub_ordered h (m : nat) (t : Z) : Prop :=
  forall y p, below h m y -> p ∈ prevs h y -> (rank (lines h p t) <= rank (lines h y t))%nat.

Lemma sub_ordered_prev h m p t : sub_ordered h m t -> p ∈ prevs h m -> sub_ordered h p t.
Proof. intros Ho Hp y q Hy Hq. apply Ho; [|done]. by econstructor. Qed.

Lemma sub_ordered_lowered h h' m p t new :
  same h h' -> lowered h h' (below h p) t new -> sub_ordered h m t -> sub_ordered h' m t.
Proof.
  intros Hs Hl Ho y q Hy Hq. rewrite (same_prevs _ _ Hs) in Hq. apply (below_same h h') in Hy; [|done].
  eapply lowered_rank; [exact Hl|intros Hpy; by eapply below_down|]. by apply Ho.
Qed.

(** What [updateCacheBlock] relies on at a controller that has a next level. *)
Record lower_pre (fuel id : nat) (c : Cntlr) (next : nat) (nc : Cntlr) (a : Z) (new : CacheState.cstate_t) h
  : Prop := mkLowerPre {
  lp_wf : hwf h;
  lp_topo : topo h;
  lp_states : states_ok h;
  lp_cntlr : h_cntlrs h !! id = Some c;
  lp_next : m_next_cache_cntlr c = Some next;
  lp_next_cntlr : h_cntlrs h !! next = Some nc;
  lp_address : address a;
  lp_aligned : a mod h_block h = 0;
  lp_new : lowering new;
  lp_fuel : (Z.to_nat (m_mem_component c) - 2 < fuel)%nat;
  lp_ordered : sub_ordered h (m_master c) (block h a);
  lp_accepts : lines h (m_master c) (block h a) = Some CacheState.MODIFIED -> accepts h (m_master nc) a
}.

(** The effect: the block is lowered in the subtree of [m]. *)
Definition lower_post (m : nat) (a : Z) (new : CacheState.cstate_t) h h' : Prop :=
  same h h' /\ hwf h' /\ states_ok h' /\ keeps_evicting h h' /\ lowered h h' (below h m) (block h a) new.

Definition lowers (fuel : nat) : Prop :=
  forall id c next nc a new h, lower_pre fuel id c next nc a new h ->
  returns (fun r => lower_post (m_master c) a new h r.2) (updateCacheBlock fuel id a new false h).

(** The previous levels of master [m], except those to be skipped. *)
Lemma children_lower h m a new (fuel_of : Hier P -> nat) (skip : nat -> bool) :
  (forall h1, same h h1 -> lowers (fuel_of h1)) ->
  (forall h1 p pc, same h h1 -> p ∈ prevs h m -> h_cntlrs h !! p = Some pc ->
     (Z.to_nat (m_mem_component pc) - 2 < fuel_of h1)%nat) ->
  hwf h -> topo h -> states_ok h -> address a -> a mod h_block h = 0 -> lowering new ->
  (forall p, p ∈ prevs h m -> skip p = false -> sub_ordered h p (block h a)) ->
  (forall p, p ∈ prevs h m -> skip p = false -> lines h p (block h a) = Some CacheState.MODIFIED -> accepts h m a) ->
  forall hit,
  returns (fun r => same h r.2 /\ hwf r.2 /\ states_ok r.2 /\ keeps_evicting h r.2 /\
             lowered h r.2 (fun x => exists p, p ∈ prevs h m /\ skip p = false /\ below h p x) (block h a) new)
    (each_prev (fun p h1 =>
       if skip p then Ok (false, h1)
       else let! (_, hit, h1) := updateCacheBlock (fuel_of h1) p a new false h1 in Ok (hit, h1))
       (prevs h m) hit h).
Proof.
  intros Hlow Hfuel Hwf Ht Hok Ha Hal Hnew Hord Hacc hit.
  set (Pre := fun h1 : Hier P => same h h1 /\ hwf h1 /\ states_ok h1 /\ keeps_evicting h h1 /\
    (forall p, p ∈ prevs h m -> skip p = false -> sub_ordered h1 p (block h a)) /\
    lines h1 m (block h a) = lines h m (block h a) /\
    (forall p, lines h1 p (block h a) = Some CacheState.MODIFIED -> lines h p (block h a) = Some CacheState.MODIFIED)).
  eapply returns_mono.
  - apply (each_prev_lowers Pre (fun p x => skip p = false /\ below h p x) (block h a) new).
    2: { unfold Pre. do 3 (split; [done|]). split; [by intros x|]. by split_and!. }
    intros p h1 Hp (Hs1 & Hw1 & Hok1 & He1 & Ho1 & Hm1 & HM1). destruct (skip p) eqn:Hsk.
    { cbn. split; [by unfold Pre; split_and!|]. split; [done|]. split; [by intros x|].
      eapply lowered_ext; [|apply lowered_refl]. intros x. by split; [|intros [? _]]. }
    destruct (t_prev _ Ht m p Hp) as (pc & n & nc & Hpc & Hpm & Hn & Hnc & Hnm).
    assert (Hbk : block h1 a = block h a) by (unfold block; by rewrite (same_block _ _ Hs1)).
    eapply returns_bind.
    { apply (Hlow h1 Hs1 p pc n nc a new h1). split; rewrite ?(same_cntlrs _ _ Hs1), ?Hpm, ?Hbk; try done.
      - by eapply topo_same.
      - by rewrite (same_block _ _ Hs1).
      - by eapply Hfuel.
      - by apply Ho1.
      - intros HM. rewrite Hnm. apply (accepts_keep h); [done..|]. apply (Hacc p Hp Hsk). by apply HM1. }
    intros [[w hit1] h2] (Hs2 & Hw2 & Hok2 & He2 & Hl2). cbn [snd] in Hs2, Hw2, Hok2, He2, Hl2. cbn [returns snd].
    rewrite Hpm, Hbk in Hl2.
    assert (Hl2' : lowered h1 h2 (below h p) (block h a) new)
      by (eapply lowered_ext; [|exact Hl2]; intros x; symmetry; by apply below_same).
    split; [|split; [done|split; [done|]]].
    + split; [by etrans|]. split; [done|]. split; [done|]. split; [intros x; by rewrite He2, He1|].
      split; [intros q Hq Hskq; eapply sub_ordered_lowered; [done|exact Hl2|by apply Ho1]|].
      split; [rewrite <- Hm1; apply (lowered_out _ _ _ _ _ m _ Hl2'); by apply not_below_prev|].
      intros q HM. apply HM1. destruct Hl2' as [A _].
      destruct (A q (block h a)) as [<-|(_ & _ & E)]; [done|]. rewrite E in HM. by apply low_not_modified in HM.
    + eapply lowered_ext; [|exact Hl2']. intros x. by split; [|intros [_ ?]].
  - intros [hit1 h1] ((Hs1 & Hw1 & Hok1 & He1 & _) & _ & _ & Hl1). cbn [snd] in *. by split_and!.
Qed.

(** [updateCacheBlock] at one controller, given what it does to its own line
    after the previous levels were lowered. *)
Lemma updateCacheBlock_step fuel id c a new (out : bool) h :
  lowers fuel -> hwf h -> topo h -> states_ok h -> h_cntlrs h !! id = Some c ->
  address a -> a mod h_block h = 0 -> lowering new -> (Z.to_nat (m_mem_component c) - 2 < S fuel)%nat ->
  sub_ordered h (m_master c) (block h a) ->
  (forall hit h1, same h h1 -> hwf h1 -> states_ok h1 -> keeps_evicting h h1 ->
    (forall x, level h (m_master c) <= level h x -> lines h1 x (block h a) = lines h x (block h a)) ->
    exists written sib h2, update_self id c a new out hit h1 = Ok (written, sib, h2) /\
      (out = true -> is_Some written) /\ same h1 h2 /\ hwf h2 /\ keeps_evicting h1 h2 /\
      lowered h1 h2 (eq (m_master c)) (block h a) new) ->
  returns (fun r => (out = true -> is_Some r.1.1) /\ lower_post (m_master c) a new h r.2)
    (updateCacheBlock (S fuel) id a new out h).
Proof.
  intros IH Hwf Ht Hok Hc Ha Hal Hnew Hf Hord Hself. destruct (hwf_get _ _ _ Hwf Hc) as [M HM].
  assert (HMp : m_prev_cache_cntlrs M = prevs h (m_master c)) by (unfold prevs; by rewrite HM).
  cbn [updateCacheBlock]. apply returns_guard; [by destruct Hnew as [-> | ->]|].
  unfold cntlr at 1. rewrite Hc. cbn [of_option rbind]. rewrite (master_ok _ _ _ _ Hc HM). cbn [rbind].
  rewrite HMp. eapply returns_bind.
  { apply (children_lower h (m_master c) a new (fun _ => fuel) (fun _ => false)); try done.
    - intros h1 p pc _ Hpin Hpc. pose proof (level_prev h _ _ Ht Hpin) as Hlt.
      rewrite (level_master h id c) in Hlt by done. unfold level in Hlt. rewrite Hpc in Hlt.
      pose proof (t_range _ Ht p pc Hpc). lia.
    - intros p Hpin _. by eapply sub_ordered_prev.
    - intros p Hpin _ HpM. right. pose proof (Hord (m_master c) p (below_refl _ _) Hpin) as Hr.
      rewrite HpM in Hr. cbn in Hr. destruct (lines h (m_master c) (block h a)) as [s|] eqn:E; [|cbn in Hr; lia].
      pose proof (Hok _ _ _ E) as Hs. destruct s; cbn in Hr, Hs; try lia; try done. }
  intros [hit h1] (Hs1 & Hw1 & Hok1 & He1 & Hl1). cbn [snd] in *.
  assert (Hsame : forall x, level h (m_master c) <= level h x -> lines h1 x (block h a) = lines h x (block h a)).
  { intros x Hx. apply (lowered_out _ _ _ _ _ _ _ Hl1). intros (p & Hpin & _ & Hb).
    pose proof (level_prev h _ _ Ht Hpin). pose proof (level_below h p x Ht Hb). lia. }
  destruct (Hself hit h1 Hs1 Hw1 Hok1 He1 Hsame) as (written & sib & h2 & E2 & Hwr & Hs2 & Hw2 & He2 & Hl2).
  rewrite E2. cbn [rbind].
  rewrite (state_ok h2 id c) by (rewrite ?(same_cntlrs _ _ Hs2), ?(same_cntlrs _ _ Hs1); done). cbn [rbind].
  assert (Hbk2 : block h2 a = block h a) by (unfold block; by rewrite (same_block _ _ Hs2), (same_block _ _ Hs1)).
  apply returns_guard.
  { rewrite Hbk2, (proj2 Hl2) by done. rewrite Hsame by lia.
    destruct Hnew as [-> | ->]; destruct (lines h (m_master c) (block h a)); done. }
  apply returns_guard; [destruct out; [cbn; apply bool_decide_eq_true_2; by apply Hwr|done]|].
  cbn [returns fst snd]. split; [done|]. split; [by etrans|]. split; [done|].
  assert (Hl : lowered h h2 (below h (m_master c)) (block h a) new).
  { eapply lowered_ext; [|eapply lowered_trans; eassumption]. intros x. cbn. rewrite (below_inv h (m_master c) x).
    split; [intros [(p & ? & _ & ?)|<-]; [right; eauto|by left]|intros [->|(p & ? & ?)]; [by right|left; eauto]]. }
  split; [by eapply lowered_states|]. split; [intros x; by rewrite He2, He1|done].
Qed.

(** A line that is absent stays absent. *)
Lemma absent_lowered h m t new : lines h m t = None -> lowered h h (eq m) t new.
Proof.
  intros Hn. apply lowered_set. rewrite Hn. intros x t'. case_decide as Hd; [|done].
  destruct Hd as [-> ->]. rewrite Hn. by destruct new.
Qed.

Lemma updateCacheBlock_lowers fuel : lowers fuel.
Proof.
  induction fuel as [|fuel IH]; intros id c next nc a new h [Hwf Ht Hok Hc Hn Hnc Ha Hal Hnew Hf Hord Hacc]; [lia|].
  pose proof (t_plain _ Ht _ _ Hc) as Hp.
  eapply returns_mono; [apply (updateCacheBlock_step fuel id c a new false h); try done|by intros r [_ ?]].
  intros hit h1 Hs1 Hw1 Hok1 He1 Hsame.
  assert (Hbk : block h1 a = block h a) by (unfold block; by rewrite (same_block _ _ Hs1)).
  assert (Hc1 : h_cntlrs h1 !! id = Some c) by (by rewrite (same_cntlrs _ _ Hs1)).
  unfold update_self. destruct (info_ok h1 id c a Hw1 Hc1 Ha) as (info & Ei & Hi). rewrite Ei. cbn [rbind]. rewrite Hbk in Hi.
  destruct info as [b|]; cbn in Hi.
  - rewrite andb_false_r, <- Hbk.
    destruct (change_state_ok h1 id c next nc b a new hit) as (sib & h2 & E & R); try done; rewrite ?Hbk; try done.
    + by rewrite (same_cntlrs _ _ Hs1).
    + by apply (t_plain _ Ht next).
    + by rewrite (same_block _ _ Hs1).
    + by apply (Hok1 (m_master c) (block h a)).
    + intros E. apply (accepts_keep h); [done..| |].
      * apply Hsame. rewrite !(level_master h _ _ Ht) by eassumption.
        destruct (t_next _ Ht _ _ _ Hc Hn) as (nc' & Hnc' & Hlt). assert (nc' = nc) as -> by congruence. lia.
      * apply Hacc. rewrite <- Hsame by lia. rewrite <- Hi. by rewrite E.
    + exists None, sib, h2. rewrite Hbk in R. by split_and!; [..|apply R|apply R|apply R|apply R].
  - exists None, hit, h1. split_and!; try done. by apply absent_lowered.
Qed.
End lowering.
