(* ===== verification/HierInsert.v ===== *)
(** Filling a line: insertCacheBlock keeps the order of the states along the
    hierarchy, whatever line it evicts, and always succeeds. *)
From stdpp Require Import base numbers list gmap strings.
From Stdlib Require Import ZArith Lia Bool.
From S2P Require Import Prelude Utils CacheBlock CacheBase Replacement CacheSet Cache Queues DirectoryCntlr SwLlc Hierarchy HierView HierLower.
Open Scope Z_scope.

(** The address of a block. *)
Lemma tagToAddress_mul b tag :
  base_wf b -> address (tag * cb_blocksize b) -> tagToAddress b tag = tag * cb_blocksize b.
Proof.
  intros ((k & Hk & Hbs & Hlog) & _) Ha. unfold tagToAddress. rewrite Hlog, Z.shiftl_mul_pow2, <- Hbs by lia.
  apply u64_small. exact Ha.
Qed.

Lemma evict_initial_ok : evict_ok SHARED_CACHE evict_initial.
Proof. intros way _. eexists. done. Qed.

Section insert.
Context {P : Type} `{AlwaysReplaces P} `{!EnvFrame P}.
Implicit Types h : Hier P.

(** No line of a cache is being upgraded. *)
Definition settled h (m : nat) : Prop := forall t, lines h m t <> Some CacheState.SHARED_UPGRADING.

Lemma settled_replaceable h m M k s :
  hwf h -> settled h m -> h_masters h !! m = Some M -> m_sets (m_cache M) !! k = Some s ->
  Forall (fun b => replaceable b = true) (m_cache_block_info_array s).
Proof.
  intros Hwf Hset HM Hs. destruct (wf_master _ Hwf _ _ HM) as (n & _ & Hcw & _ & Htd).
  pose proof (Htd k s Hs) as Hall. apply Forall_forall. intros b Hb. eapply Forall_forall in Hall; [|exact Hb].
  unfold replaceable. apply negb_true_iff, bool_decide_eq_false_2. intros Hup.
  destruct (isValid b) eqn:Hv; [|by rewrite (Hall Hv) in Hup].
  apply list_elem_of_lookup in Hb as [i Hi]. apply (Hset (m_tag b)). unfold lines. rewrite HM. cbn.
  destruct (wf_sets _ _ _ Hcw k s Hs) as ((_ & _ & Hu & _) & _ & _ & Hp).
  assert (Hc : contents s !! m_tag b = Some b) by (apply lookup_contents_of; eauto).
  destruct (Hp _ _ Hc) as [_ Hk]. rewrite (line_of_set _ _ k s), Hc by done. cbn. by rewrite Hup.
Qed.

(** The line a fill evicts: the block [e], which was in state [s]. *)
Definition evicts (o : LineOut) h (m : nat) (t e : Z) (s : CacheState.cstate_t) : Prop :=
  lo_evict_addr o = e * h_block h /\ address (e * h_block h) /\ e <> t /\ lines h m e = Some s /\
  m_cstate (lo_evict_block_info o) = s.

Lemma insert_line_ok h id c a fill q :
  hwf h -> h_cntlrs h !! id = Some c -> address a -> lines h (m_master c) (block h a) = None ->
  settled h (m_master c) ->
  exists o h', on_cache id (insertSingleLine a fill evict_initial true (Some q)) h = Ok (o, h') /\
    same h h' /\ hwf h' /\ keeps_evicting h h' /\
    lines h' (m_master c) (block h a) = Some CacheState.INVALID /\
    if lo_eviction o then exists e s, evicts o h (m_master c) (block h a) e s /\
      forall x t, ~ (x = m_master c /\ t = block h a) ->
        lines h' x t = if decide (x = m_master c /\ t = e) then None else lines h x t
    else forall x t, ~ (x = m_master c /\ t = block h a) -> lines h' x t = lines h x t.
Proof.
  intros Hwf Hc Ha Hmiss Hset. destruct (hwf_get _ _ _ Hwf Hc) as [M HM].
  destruct (wf_master _ Hwf _ _ HM) as (n & Hn & Hcw & Hbs & Htd).
  rewrite (lines_master h id c M) in Hmiss by done. unfold block in *. rewrite <- Hbs in Hmiss |- *.
  apply fmap_None in Hmiss.
  destruct (locate_ok SHARED_CACHE n (m_cache M) a Hcw Ha) as (k & s & _ & _ & Hs & Hk & _).
  destruct (wf_sets _ _ _ Hcw k s Hs) as ((Hlen & Hp & _) & _).
  pose proof (settled_replaceable h (m_master c) M k s Hwf Hset HM Hs) as Hall.
  destruct (replace_total n (Some q) _ (m_policy s) (m_env (m_cache M)) Hp Hn Hlen) as (i & p' & e' & Hr); [done..|].
  destruct (insertSingleLine_total SHARED_CACHE n (m_cache M) a fill evict_initial true (Some q) k s _ Hcw Ha
              evict_initial_ok Hk Hs Hr) as (o & c' & E).
  destruct (insertSingleLine_refines SHARED_CACHE n (m_cache M) a fill evict_initial true (Some q) o c' Hcw Ha Hmiss E)
    as (Hcw' & Hb & (new & Hnew & Htag & Hst) & Hev & Hoth).
  assert (Hbp : 0 < cb_blocksize (base (m_cache M))) by (pose proof (wf_block _ _ _ Hcw); lia).
  set (t := a / cb_blocksize (base (m_cache M))) in *.
  assert (Hta : address (t * h_block h)).
  { unfold address in *. rewrite <- Hbs. subst t. pose proof (Z.mul_div_le a (cb_blocksize (base (m_cache M))) Hbp).
    pose proof (Z.div_pos a (cb_blocksize (base (m_cache M)))). nia. }
  destruct (on_cache_ok id (insertSingleLine a fill evict_initial true (Some q)) h c M n o c' Hwf Hc HM E Hn Hcw' Hb
              (insert_tidy _ _ _ _ _ _ _ _ E Htd)) as (h' & E' & Hsame & Hwf' & Hke & _ & Hl).
  { intros tag b Htb. destruct (decide (tag = t)) as [->|Hne]; [done|]. rewrite Hoth in Htb by done.
    destruct (lo_eviction o && (m_tag (lo_evict_block_info o) =? tag)); [done|]. eapply tags_of; eassumption. }
  exists o, h'. rewrite E'. do 4 (split; [done|]).
  split; [rewrite Hl, decide_True, Hnew by done; cbn; by rewrite Hst|].
  destruct (lo_eviction o) eqn:Ho; cbn [andb] in Hoth.
  - destruct Hev as (old & Hold & Hot & Hos & _ & Hoa). set (e := m_tag (lo_evict_block_info o)) in *.
    assert (Het : address (e * h_block h)) by (eapply tags_of; eassumption).
    assert (Hne : e <> t) by (intros ->; congruence).
    exists e, (m_cstate old). split.
    + split; [rewrite Hoa, Hot, tagToAddress_mul, Hbs; [done|apply Hcw|by rewrite Hbs]|].
      split; [done|]. split; [done|]. split; [|done].
      rewrite (lines_master h id c M) by done. by rewrite Hold.
    + intros x tg Hx. rewrite Hl. destruct (decide (x = m_master c)) as [->|Hxm].
      * assert (tg <> t) by naive_solver. rewrite Hoth by done.
        destruct (Z.eqb_spec e tg) as [->|Hetg]; [by rewrite decide_True|].
        rewrite decide_False by naive_solver. by rewrite (lines_master h id c M).
      * rewrite decide_False by naive_solver. done.
  - intros x tg Hx. rewrite Hl. destruct (decide (x = m_master c)) as [->|Hxm]; [|done].
    rewrite Hoth by naive_solver. by rewrite (lines_master h id c M).
Qed.

(** ** The pieces of insertCacheBlock *)
Lemma set_evicting_ok h id c M v :
  hwf h -> h_cntlrs h !! id = Some c -> h_masters h !! m_master c = Some M ->
  exists h', put_master id (with_evicting v M) h = Ok h' /\ same h h' /\ hwf h' /\ keeps_lines h h' /\
    forall x, evicting h' x = if decide (x = m_master c) then fst <$> v else evicting h x.
Proof.
  intros Hwf Hc HM. destruct (wf_master _ Hwf _ _ HM) as (n & Hn & Hcw & Hbs & Htd).
  rewrite (put_master_ok h id c) by done. eexists. split; [done|]. split; [by apply (same_upd _ _ M)|].
  split; [|split].
  - apply (hwf_upd _ _ M n); try done. intros tag b Hb. eapply tags_of; eassumption.
  - intros x t. rewrite (lines_upd _ _ M) by done. case_decide; [subst x|done]. by rewrite (lines_master h id c M).
  - intros x. by rewrite (evicting_upd _ _ M).
Qed.

Lemma accessDRAM_ok h id c op :
  hwf h -> h_cntlrs h !! id = Some c -> direct h (m_master c) = true ->
  exists h', accessDRAM id op h = Ok (From W_DRAM, None, h') /\ same h h' /\ hwf h' /\
    keeps_evicting h h' /\ keeps_lines h h'.
Proof.
  intros Hwf Hc Hd. destruct (hwf_get _ _ _ Hwf Hc) as [M HM].
  destruct (wf_master _ Hwf _ _ HM) as (n & Hn & Hcw & Hbs & Htd).
  unfold direct in Hd. rewrite HM in Hd. apply bool_decide_eq_true in Hd. pose proof Hd as [d Hdr].
  unfold accessDRAM. rewrite (master_ok _ _ _ _ Hc HM). cbn [rbind]. rewrite Hdr. cbn [of_option rbind].
  rewrite (put_master_ok h id c) by done. cbn [rbind]. eexists. split; [done|].
  split; [apply (same_upd _ _ M); try done|]. split; [|split].
  - apply (hwf_upd _ _ M n); try done. intros tag b Hb. eapply tags_of; eassumption.
  - intros x. rewrite (evicting_upd _ _ M) by done. case_decide; [subst x|done]. unfold evicting. by rewrite HM.
  - intros x t. rewrite (lines_upd _ _ M) by done. case_decide; [subst x|done]. by rewrite (lines_master h id c M).
Qed.

(** ** The order of the states *)
Definition ordered h : Prop :=
  forall m p t, p ∈ prevs h m -> (rank (lines h p t) <= rank (lines h m t))%nat.

Lemma ordered_sub h m t : ordered h -> sub_ordered h m t.
Proof. intros Ho y p _ Hp. by apply Ho. Qed.

Lemma ordered_modified h m p t :
  ordered h -> states_ok h -> p ∈ prevs h m -> lines h p t = Some CacheState.MODIFIED ->
  lines h m t = Some CacheState.MODIFIED.
Proof.
  intros Ho Hok Hp HM. pose proof (Ho m p t Hp) as Hr. rewrite HM in Hr. cbn in Hr.
  destruct (lines h m t) as [s|] eqn:E; [|cbn in Hr; lia].
  pose proof (Hok _ _ _ E) as Hs. destruct s; cbn in Hr, Hs; try lia; done.
Qed.

(** The master of the next level. *)
Lemma next_prevs h id c n :
  topo h -> h_cntlrs h !! id = Some c -> m_next_cache_cntlr c = Some n ->
  exists nc, h_cntlrs h !! n = Some nc /\ plain nc /\ m_master c ∈ prevs h (m_master nc) /\
    level h (m_master c) < level h (m_master nc).
Proof.
  intros Ht Hc Hn. destruct (t_next _ Ht id c n Hc Hn) as (nc & Hnc & Hlt). exists nc. split; [done|].
  split; [by eapply t_plain|]. split; [by eapply t_complete|]. by rewrite !(level_master h _ _ Ht) by eassumption.
Qed.

(** An eviction propagated to the previous levels of its cache. *)
Lemma back_invalidate_ok h id c e buf :
  hwf h -> topo h -> states_ok h -> h_cntlrs h !! id = Some c -> (forall m, evicting h m = None) ->
  address (e * h_block h) ->
  (forall p, p ∈ prevs h (m_master c) -> sub_ordered h p e) ->
  exists buf' h', back_invalidate id (e * h_block h) buf h = Ok (buf', h') /\
    same h h' /\ hwf h' /\ states_ok h' /\ (forall m, evicting h' m = None) /\
    lowered h h' (fun x => exists p, p ∈ prevs h (m_master c) /\ below h p x) e CacheState.INVALID.
Proof.
  intros Hwf Ht Hok Hc Hev Ha Hord. destruct (hwf_get _ _ _ Hwf Hc) as [M HM].
  assert (HMp : m_prev_cache_cntlrs M = prevs h (m_master c)) by (unfold prevs; by rewrite HM).
  pose proof (block_pos h id c Hwf Hc) as Hbp.
  unfold back_invalidate. rewrite (master_ok _ _ _ _ Hc HM). cbn [rbind]. rewrite HMp.
  destruct (prevs h (m_master c)) as [|p0 ps] eqn:Hps.
  { exists buf, h. do 4 (split; [done|]). split; [done|]. eapply lowered_ext; [|apply lowered_refl].
    intros x. split; [done|]. by intros (p & Hp%not_elem_of_nil & _). }
  rewrite <- Hps in *.
  destruct (set_evicting_ok h id c M (Some (e * h_block h, buf)) Hwf Hc HM) as (h1 & E1 & Hs1 & Hw1 & Hk1 & He1).
  rewrite E1. cbn [rbind].
  assert (Hbk : block h1 (e * h_block h) = e) by (unfold block; rewrite (same_block _ _ Hs1); apply Z.div_mul; lia).
  pose proof (children_lower h1 (m_master c) (e * h_block h) CacheState.INVALID (fun h => depth h) (fun _ => false)) as Hcl.
  rewrite (same_prevs _ _ Hs1), Hbk in Hcl.
  destruct (returns_inv _ _ (Hcl ltac:(intros; apply updateCacheBlock_lowers)
    ltac:(intros h2 p pc Hs2 Hp Hpc; pose proof (t_range _ (topo_same _ _ Hs1 Ht) p pc Hpc); unfold depth;
          rewrite (same_cntlrs _ _ Hs2); lia) Hw1 (topo_same _ _ Hs1 Ht)
    ltac:(intros m t s Hs; rewrite Hk1 in Hs; by eapply Hok) Ha
    ltac:(rewrite (same_block _ _ Hs1); apply Z.mod_mul; lia) (or_introl eq_refl)
    ltac:(intros p Hp _ y q Hy Hq; rewrite !Hk1; rewrite (same_prevs _ _ Hs1) in Hq;
          apply (Hord p Hp); [by apply (below_same h h1)|done])
    ltac:(intros p Hp _ _; left; by rewrite He1, decide_True) false)) as ([hit h2] & E2 & Hs2 & Hw2 & Hok2 & He2 & Hl2).
  cbn [snd] in *. rewrite E2. cbn [rbind].
  assert (Hc2 : h_cntlrs h2 !! id = Some c) by (by rewrite (same_cntlrs _ _ Hs2), (same_cntlrs _ _ Hs1)).
  destruct (hwf_get _ _ _ Hw2 Hc2) as [M2 HM2]. rewrite (master_ok _ _ _ _ Hc2 HM2). cbn [rbind].
  destruct (set_evicting_ok h2 id c M2 None Hw2 Hc2 HM2) as (h3 & E3 & Hs3 & Hw3 & Hk3 & He3).
  rewrite E3. cbn [rbind]. eexists _, h3. split; [done|]. split; [by etrans; [etrans|]|]. split; [done|].
  split; [intros m t s Hs; rewrite Hk3 in Hs; by eapply Hok2|]. split.
  - intros m. rewrite He3. case_decide; [done|]. by rewrite He2, He1, decide_False.
  - destruct Hl2 as [A B]. split.
    + intros x t'. rewrite Hk3. destruct (A x t') as [->|(-> & (p & Hp & _ & Hb) & ->)]; [left; apply Hk1|right].
      split; [done|]. split; [exists p; split; [done|by apply (below_same h h1)]|done].
    + intros x (p & Hp & Hb). rewrite Hk3, B; [done|]. exists p. split; [done|]. split; [done|].
      by apply (below_same h h1).
Qed.

(** What is done with the evicted line. *)
Lemma dispose_ok h id c e s buf :
  hwf h -> topo h -> h_cntlrs h !! id = Some c -> (forall m, evicting h m = None) ->
  (m_next_cache_cntlr c = None -> direct h (m_master c) = true) -> address (e * h_block h) ->
  (s = CacheState.MODIFIED -> forall y, m_master c ∈ prevs h y -> lines h y e = Some CacheState.MODIFIED) ->
  exists h', dispose id c (e * h_block h) s buf h = Ok h' /\ same h h' /\ hwf h' /\
    keeps_evicting h h' /\ keeps_lines h h'.
Proof.
  intros Hwf Ht Hc Hev Hdir Ha HM. destruct (hwf_get _ _ _ Hwf Hc) as [M HMm].
  pose proof (t_plain _ Ht _ _ Hc) as (Hpf & _ & Hcoh & Hwt). pose proof (block_pos h id c Hwf Hc) as Hbp.
  assert (Hid : exists h', Ok h = Ok h' /\ same h h' /\ hwf h' /\ keeps_evicting h h' /\ keeps_lines h h')
    by (exists h; split_and!; done).
  unfold dispose. rewrite (master_ok _ _ _ _ Hc HMm), Hpf, Hcoh, Hwt. cbn [rbind negb andb].
  destruct (m_next_cache_cntlr c) as [n|] eqn:Hn.
  - case_bool_decide as Hs; [|done].
    destruct (next_prevs h id c n Ht Hc Hn) as (nc & Hnc & (_ & _ & _ & Hnwt) & Hin & _).
    assert (Hbk : block h (e * h_block h) = e) by (unfold block; apply Z.div_mul; lia).
    apply (write_ok h (length (h_cntlrs h)) n nc); try done.
    + by rewrite Z.add_0_r.
    + unfold fits. rewrite Z.add_0_r, Z.mod_mul by lia. lia.
    + by rewrite Z.add_0_r.
    + right. rewrite Hbk. by apply HM.
  - specialize (Hdir eq_refl). pose proof Hdir as Hd. unfold direct in Hd. rewrite HMm in Hd.
    apply bool_decide_eq_true in Hd as [d Hd]. rewrite Hd. case_bool_decide as Hs; [|done].
    destruct (accessDRAM_ok h id c WRITE Hwf Hc Hdir) as (h' & E & R). rewrite E. by exists h'.
Qed.

(** ** insertCacheBlock *)

(** What a fill of block [t] at master [m] does to the lines: it may evict one
    other block, from [m] and from everything below it. *)
Definition filled h h' (m : nat) (t : Z) (st : CacheState.cstate_t) : Prop :=
  lines h' m t = Some st /\
  exists e, e <> t /\
    (forall x t', ~ (x = m /\ t' = t) -> lines h' x t' = lines h x t' \/
       t' = e /\ below h m x /\ lines h' x t' = None) /\
    ((forall x, below h m x -> lines h' x e = None) \/ forall x t', ~ (x = m /\ t' = t) -> lines h' x t' = lines h x t').

Lemma filled_ordered h h' m t st :
  topo h -> same h h' -> ordered h -> lines h m t = None -> filled h h' m t st ->
  (forall y, m ∈ prevs h y -> (rank (Some st) <= rank (lines h y t))%nat) -> ordered h'.
Proof.
  intros Ht Hs Ho Hmiss (Hnew & e & Het & HB & HC) Hup y p t' Hp. rewrite (same_prevs _ _ Hs) in Hp.
  assert (Hpy : p <> y) by (intros ->; pose proof (level_prev h y y Ht Hp); lia).
  assert (Hle : forall x, ~ (x = m /\ t' = t) -> (rank (lines h' x t') <= rank (lines h x t'))%nat).
  { intros x Hx. destruct (HB x t' Hx) as [->|(_ & _ & ->)]; [lia|cbn; lia]. }
  pose proof (Ho y p t' Hp) as Hpy'.
  destruct (decide (y = m /\ t' = t)) as [[-> ->]|Hy].
  - pose proof (Hle p ltac:(naive_solver)) as Hp'. rewrite Hmiss in Hpy'. cbn in Hpy'. lia.
  - destruct (HB y t' Hy) as [Ey|(-> & Hby & Ey)].
    + rewrite Ey. destruct (decide (p = m /\ t' = t)) as [[-> ->]|Hpm]; [rewrite Hnew; by apply Hup|].
      pose proof (Hle p Hpm). lia.
    + destruct HC as [HC|HC]; [rewrite (HC p); [cbn; lia|by eapply below_down]|].
      rewrite (HC p e), (HC y e) by naive_solver. done.
Qed.

Lemma filled_states h h' m t st : states_ok h -> line_state st -> filled h h' m t st -> states_ok h'.
Proof.
  intros Hok Hst (Hnew & e & _ & HB & _) x t' s Hs. destruct (decide (x = m /\ t' = t)) as [[-> ->]|Hx].
  - congruence.
  - destruct (HB x t' Hx) as [E|(_ & _ & E)]; rewrite E in Hs; [by eapply Hok|done].
Qed.

Lemma insertCacheBlock_ok h id c a st data :
  hwf h -> topo h -> states_ok h -> ordered h -> (forall m, evicting h m = None) ->
  h_cntlrs h !! id = Some c -> address a -> lines h (m_master c) (block h a) = None ->
  settled h (m_master c) -> line_state st ->
  (m_next_cache_cntlr c = None -> direct h (m_master c) = true) ->
  exists h', insertCacheBlock id a st data h = Ok h' /\ same h h' /\ hwf h' /\
    (forall m, evicting h' m = None) /\ filled h h' (m_master c) (block h a) st.
Proof.
  intros Hwf Ht Hok Ho Hev Hc Ha Hmiss Hset Hst Hdir. destruct (hwf_get _ _ _ Hwf Hc) as [M HM].
  pose proof (block_pos h id c Hwf Hc) as Hbp.
  unfold insertCacheBlock. unfold cntlr at 1. rewrite Hc. cbn [of_option rbind].
  rewrite (master_ok _ _ _ _ Hc HM). cbn [rbind]. rewrite (state_ok h id c), Hmiss by done. cbn [rbind default].
  rewrite bool_decide_eq_true_2 by done. cbn [rguard rbind].
  destruct (insert_line_ok h id c a (default None data)
    (Replacement.mkCntlr (isInLowerLevelCache (m_prev_cache_cntlrs M) (base (m_cache M)) h)) Hwf Hc Ha Hmiss Hset)
    as (o & h1 & E1 & Hs1 & Hw1 & He1 & Hl1 & Hev1). unfold default in E1. unfold default. rewrite E1. cbn [rbind].
  assert (Hbk1 : block h1 a = block h a) by (unfold block; by rewrite (same_block _ _ Hs1)).
  destruct (setCacheState_ok h1 id c a CacheState.INVALID st Hw1) as (h2 & E2 & Hs2 & Hw2 & He2 & Hl2);
    [by rewrite (same_cntlrs _ _ Hs1)|done|by rewrite Hbk1|]. rewrite E2. cbn [rbind]. rewrite Hbk1 in Hl2.
  assert (Hs02 : same h h2) by (by etrans).
  assert (Hc2 : h_cntlrs h2 !! id = Some c) by (by rewrite (same_cntlrs _ _ Hs02)).
  assert (Hbk2 : block h2 a = block h a) by (unfold block; by rewrite (same_block _ _ Hs02)).
  assert (Hwarm : exists h3, (if h_cache_only h2 then update_block id a (setOption WARMUP) h2 else Ok h2) = Ok h3 /\
    same h2 h3 /\ hwf h3 /\ keeps_evicting h2 h3 /\ keeps_lines h2 h3).
  { destruct (h_cache_only h2); [|exists h2; split_and!; done].
    apply (update_block_keeps h2 id c a (setOption WARMUP) st); try done.
    rewrite Hbk2, Hl2, decide_True by done. done. }
  destruct Hwarm as (h3 & E3 & Hs3 & Hw3 & He3 & Hk3). rewrite E3. cbn [rbind].
  assert (Hs03 : same h h3) by (by etrans).
  assert (Hc3 : h_cntlrs h3 !! id = Some c) by (by rewrite (same_cntlrs _ _ Hs03)).
  assert (Hev3 : forall m, evicting h3 m = None) by (intros m; by rewrite He3, He2, He1).
  assert (Hnew3 : lines h3 (m_master c) (block h a) = Some st) by (rewrite Hk3, Hl2, decide_True by done; done).
  assert (Hoth3 : forall x t, ~ (x = m_master c /\ t = block h a) -> lines h3 x t = lines h1 x t)
    by (intros x t Hx; rewrite Hk3, Hl2, decide_False by done; done).
  destruct (lo_eviction o) eqn:Hlo.
  2: { exists h3. do 4 (split; [done|]). split; [done|]. exists (block h a + 1). split; [lia|].
       assert (Hall : forall x t, ~ (x = m_master c /\ t = block h a) -> lines h3 x t = lines h x t)
         by (intros x t Hx; rewrite Hoth3, Hev1 by done; done).
       split; [intros x t Hx; left; by apply Hall|by right]. }
  destruct Hev1 as (e & s & (Hea & Haddr & Hne & Hes & Hei) & Hl1').
  assert (Hline3 : forall x t, ~ (x = m_master c /\ t = block h a) ->
            lines h3 x t = if decide (x = m_master c /\ t = e) then None else lines h x t)
    by (intros x t Hx; rewrite Hoth3, Hl1' by done; done).
  assert (Hprev3 : forall x, x <> m_master c -> lines h3 x e = lines h x e)
    by (intros x Hx; rewrite Hline3, decide_False by naive_solver; done).
  assert (Hok3 : states_ok h3).
  { intros x t s' Hs. destruct (decide (x = m_master c /\ t = block h a)) as [[-> ->]|Hx]; [congruence|].
    rewrite Hline3 in Hs by done. case_decide; [done|]. by eapply Hok. }
  assert (Hbs3 : h_block h3 = h_block h) by apply (same_block _ _ Hs03).
  destruct (back_invalidate_ok h3 id c e (lo_evict_buff o) Hw3 (topo_same _ _ Hs03 Ht) Hok3 Hc3 Hev3)
    as (buf & h4 & E4 & Hs4 & Hw4 & Hok4 & Hev4 & Hl4); [by rewrite Hbs3| |].
  { intros p Hp y q Hy Hq. rewrite (same_prevs _ _ Hs03) in Hp, Hq. apply (below_same h h3) in Hy; [|done].
    pose proof (level_prev h _ _ Ht Hp). pose proof (level_below h p y Ht Hy). pose proof (level_prev h _ _ Ht Hq).
    rewrite !Hprev3 by (intros ->; lia). by apply Ho. }
  rewrite Hbs3 in E4. rewrite Hea, E4. cbn [rbind].
  assert (Hs04 : same h h4) by (by etrans).
  assert (Hc4 : h_cntlrs h4 !! id = Some c) by (by rewrite (same_cntlrs _ _ Hs04)).
  assert (Hbs4 : h_block h4 = h_block h) by apply (same_block _ _ Hs04).
  assert (Hhigh : forall x t, level h (m_master c) <= level h x -> lines h4 x t = lines h3 x t).
  { intros x t Hx. apply (lowered_out _ _ _ _ _ _ _ Hl4). intros (p & Hp & Hb).
    rewrite (same_prevs _ _ Hs03) in Hp. apply (below_same h h3) in Hb; [|done].
    pose proof (level_prev h _ _ Ht Hp). pose proof (level_below h p x Ht Hb). lia. }
  destruct (dispose_ok h4 id c e (m_cstate (lo_evict_block_info o)) buf Hw4 (topo_same _ _ Hs04 Ht) Hc4 Hev4)
    as (h5 & E5 & Hs5 & Hw5 & He5 & Hk5).
  { intros Hn. rewrite (same_direct _ _ Hs04). by apply Hdir. }
  { by rewrite Hbs4. }
  { intros Hmod y Hy. rewrite (same_prevs _ _ Hs04) in Hy. pose proof (level_prev h _ _ Ht Hy).
    rewrite Hhigh by lia. rewrite Hprev3 by (intros ->; lia). eapply ordered_modified; [done..|]. congruence. }
  rewrite Hbs4 in E5. rewrite E5. cbn [rbind].
  assert (Hc5 : h_cntlrs h5 !! id = Some c) by (by rewrite (same_cntlrs _ _ Hs5)).
  assert (Hown : lines h5 (m_master c) e = None)
    by (rewrite Hk5, Hhigh, Hline3, decide_True by (lia || naive_solver); done).
  rewrite (state_ok h5 id c) by done. unfold block at 1. rewrite (same_block _ _ Hs5), Hbs4, Z.div_mul, Hown by lia.
  cbn [default rbind]. rewrite bool_decide_eq_true_2 by done. cbn [rguard rbind]. exists h5. split; [done|].
  split; [by etrans|]. split; [done|]. split; [intros m; by rewrite He5|].
  split; [rewrite Hk5, Hhigh by lia; done|]. exists e. split; [done|].
  assert (Hbelow : forall x, (exists p, p ∈ prevs h3 (m_master c) /\ below h3 p x) -> below h (m_master c) x).
  { intros x (p & Hp & Hb). rewrite (same_prevs _ _ Hs03) in Hp. apply (below_same h h3) in Hb; [|done]. by econstructor. }
  split.
  - intros x t Hx. rewrite Hk5. destruct Hl4 as [A _]. destruct (A x t) as [->|(-> & HS & ->)].
    + rewrite Hline3 by done. case_decide as Hd; [|by left]. destruct Hd as [-> ->]. right.
      split; [done|]. split; [constructor|done].
    + right. split; [done|]. split; [by apply Hbelow|done].
  - left. intros x [->|(p & Hp & Hb)]%below_inv; [done|]. rewrite Hk5. destruct Hl4 as [_ B]. rewrite B; [done|].
    exists p. rewrite (same_prevs _ _ Hs03). split; [done|]. by apply (below_same h h3).
Qed.
End insert.
