(* ===== verification/HierMsg.v ===== *)
(** Messages of the tag directory to a last-level cache: an invalidation, a flush
    or a write-back request is answered exactly when the line is there, and
    lowers the block in the whole hierarchy below. *)
From stdpp Require Import base numbers list gmap strings.
From Stdlib Require Import ZArith Lia Bool.
From S2P Require Import Prelude Utils CacheBlock CacheBase Replacement CacheSet Cache Queues DirectoryCntlr SwLlc Hierarchy HierView HierLower HierInsert.
Open Scope Z_scope.

Section msg.
Context {P : Type} `{AlwaysReplaces P} `{!EnvFrame P}.
Implicit Types h : Hier P.

(** A step that changes no line. *)
Definition quiet_step h h' : Prop := same h h' /\ hwf h' /\ keeps_evicting h h' /\ keeps_lines h h'.

Lemma quiet_refl h : hwf h -> quiet_step h h.
Proof. intros Hw. by split. Qed.

Lemma copy_out_ok h id c a (out : bool) written sib s :
  hwf h -> h_cntlrs h !! id = Some c -> address a -> a mod h_block h = 0 ->
  lines h (m_master c) (block h a) = Some s ->
  exists written' sib' h', copy_out id a out written sib h = Ok (written', sib', h') /\
    (out = true -> is_Some written') /\ quiet_step h h'.
Proof.
  intros Hwf Hc Ha Hal Hs. unfold copy_out. destruct out; [|exists written, sib, h; split_and!; [done..|by apply quiet_refl]].
  destruct (retrieve_ok h id c a false s Hwf Hc Ha Hal Hs) as (d & h' & E & R). rewrite E. cbn.
  eexists _, _, h'. split; [done|]. by split.
Qed.

(** The last level can write a modified line back only to a buffer. *)
Lemma llc_write_back h id c a (out hit : bool) b :
  hwf h -> h_cntlrs h !! id = Some c -> plain c -> m_next_cache_cntlr c = None -> address a -> a mod h_block h = 0 ->
  lines h (m_master c) (block h a) = Some (m_cstate b) -> line_state (m_cstate b) ->
  (out = false -> m_cstate b <> CacheState.MODIFIED) ->
  exists written sib h' s, (if bool_decide (m_cstate b = CacheState.MODIFIED) then
       let! (written, is_writeback, h) := write_back id c a out h in
       let! h := update_block id a (setCState CacheState.SHARED) h in
       Ok (written, hit || is_writeback, h)
     else Ok (None, hit, h)) = Ok (written, sib, h') /\
    same h h' /\ hwf h' /\ keeps_evicting h h' /\ set_line (m_master c) (block h a) (Some s) h h' /\
    s <> CacheState.MODIFIED /\ s <> CacheState.INVALID.
Proof.
  intros Hwf Hc (_ & _ & _ & Hwt) Hn Ha Hal Hs Hok Hout. case_bool_decide as HM.
  - destruct out; [|by destruct (Hout eq_refl)]. unfold write_back. rewrite Hwt, Hn. cbn [rguard rbind].
    destruct (retrieve_ok h id c a false _ Hwf Hc Ha Hal Hs) as (d & h1 & E1 & Hs1 & Hw1 & He1 & Hk1). rewrite E1. cbn [rbind].
    assert (Hbk : block h1 a = block h a) by (unfold block; by rewrite (same_block _ _ Hs1)).
    destruct (setCacheState_ok h1 id c a (m_cstate b) CacheState.SHARED) as (h2 & E2 & Hs2 & Hw2 & He2 & Hl2);
      [done|by rewrite (same_cntlrs _ _ Hs1)|done|by rewrite Hbk, Hk1|].
    unfold setCacheState in E2. rewrite E2. cbn [rbind]. eexists _, _, h2, CacheState.SHARED.
    split; [done|]. split; [by etrans|]. split; [done|]. split; [intros x; by rewrite He2, He1|].
    split; [|done]. rewrite Hbk in Hl2. intros x t. by rewrite Hl2, Hk1.
  - eexists _, _, h, (m_cstate b). split; [done|]. split_and!; try done; [|by intros E; rewrite E in Hok].
    intros x t. case_decide as Hd; [|done]. by destruct Hd as [-> ->].
Qed.

(** What a request of the directory does to the last level's own line. *)
Lemma llc_self h id c a new (out hit : bool) :
  hwf h -> states_ok h -> h_cntlrs h !! id = Some c -> plain c -> m_next_cache_cntlr c = None ->
  address a -> a mod h_block h = 0 -> lowering new ->
  (out = false -> lines h (m_master c) (block h a) <> Some CacheState.MODIFIED) ->
  (out = true -> is_Some (lines h (m_master c) (block h a))) ->
  exists written sib h', update_self id c a new out hit h = Ok (written, sib, h') /\
    (out = true -> is_Some written) /\ same h h' /\ hwf h' /\ keeps_evicting h h' /\
    lowered h h' (eq (m_master c)) (block h a) new.
Proof.
  intros Hwf Hok Hc Hp Hn Ha Hal Hnew Hmod Hthere. unfold update_self.
  destruct (info_ok h id c a Hwf Hc Ha) as (info & Ei & Hi). rewrite Ei. cbn [rbind].
  destruct info as [b|]; cbn in Hi; symmetry in Hi.
  2: { exists None, hit, h. split; [done|]. split; [intros E; destruct (Hthere E) as [? ?]; congruence|].
       split_and!; try done. by apply absent_lowered. }
  destruct (bool_decide (new = m_cstate b) && out) eqn:Eq.
  { apply andb_prop in Eq as [Eq%bool_decide_eq_true ->].
    destruct (retrieve_ok h id c a false _ Hwf Hc Ha Hal Hi) as (d & h' & E & Hs & Hw & He & Hk). rewrite E. cbn.
    eexists _, _, h'. split; [done|]. split; [done|]. split_and!; try done. apply lowered_set.
    assert (E' : low new (lines h (m_master c) (block h a)) = lines h (m_master c) (block h a)).
    { rewrite Hi. pose proof (Hok _ _ _ Hi) as Hst. rewrite <- Eq in *. destruct Hnew as [-> | ->]; done. }
    rewrite E'. intros x t. rewrite Hk. case_decide as Hd; [|done]. by destruct Hd as [-> ->]. }
  destruct (llc_write_back h id c a out hit b) as (written & sib & h1 & s & E1 & Hs1 & Hw1 & He1 & Hl1 & HnM & HnI); try done.
  { by eapply Hok. }
  { intros E HM. apply (Hmod E). by rewrite Hi, HM. }
  unfold change_state. rewrite E1. cbn [rbind].
  assert (Hbk : block h1 a = block h a) by (unfold block; by rewrite (same_block _ _ Hs1)).
  assert (Hc1 : h_cntlrs h1 !! id = Some c) by (by rewrite (same_cntlrs _ _ Hs1)).
  assert (Hst : lines h1 (m_master c) (block h1 a) = Some s) by (by rewrite Hbk, Hl1, decide_True).
  destruct (copy_out_ok h1 id c a out written sib s Hw1 Hc1 Ha) as (written' & sib' & h2 & E2 & Hwr & Hs2 & Hw2 & He2 & Hk2);
    [by rewrite (same_block _ _ Hs1)|done|].
  assert (Hc2 : h_cntlrs h2 !! id = Some c) by (by rewrite (same_cntlrs _ _ Hs2)).
  assert (Hbk2 : block h2 a = block h a) by (unfold block; by rewrite (same_block _ _ Hs2), (same_block _ _ Hs1)).
  assert (Hst2 : lines h2 (m_master c) (block h2 a) = Some s) by (rewrite Hbk2, Hk2, <- Hbk; done).
  assert (Hl2 : set_line (m_master c) (block h a) (Some s) h h2) by (intros x t; by rewrite Hk2).
  pose proof Hp as (_ & _ & Hcoh & _). destruct Hnew as [-> | ->]; rewrite E2; cbn [rbind].
  - rewrite Hcoh. destruct (invalidate_ok h2 id c a s) as (h3 & E3 & Hs3 & Hw3 & He3 & Hl3); try done.
    rewrite E3. cbn. eexists _, _, h3. split; [done|]. split; [done|]. split; [by do 2 etrans|]. split; [done|].
    split; [intros x; by rewrite He3, He2, He1|]. apply lowered_set. rewrite Hbk2 in Hl3. by eapply set_line_trans.
  - destruct (setCacheState_ok h2 id c a s CacheState.SHARED) as (h3 & E3 & Hs3 & Hw3 & He3 & Hl3); try done.
    unfold setCacheState in E3. rewrite E3. cbn. eexists _, _, h3. split; [done|]. split; [done|]. split; [by do 2 etrans|].
    split; [done|]. split; [intros x; by rewrite He3, He2, He1|]. apply lowered_set. rewrite Hi. rewrite Hbk2 in Hl3.
    by eapply set_line_trans.
Qed.

(** A state transition in a last-level cache and everything below it. *)
Lemma last_level_lowers h id c a new (out : bool) :
  hwf h -> topo h -> states_ok h -> ordered h -> h_cntlrs h !! id = Some c -> m_next_cache_cntlr c = None ->
  address a -> a mod h_block h = 0 -> lowering new ->
  (out = false -> lines h (m_master c) (block h a) <> Some CacheState.MODIFIED) ->
  (out = true -> is_Some (lines h (m_master c) (block h a))) ->
  exists written sib h', updateCacheBlock (depth h) id a new out h = Ok (written, sib, h') /\
    (out = true -> is_Some written) /\ lower_post (m_master c) a new h h'.
Proof.
  intros Hwf Ht Hok Ho Hc Hn Ha Hal Hnew Hmod Hthere.
  destruct (returns_inv _ _ (updateCacheBlock_step (length (h_cntlrs h)) id c a new out h
    (updateCacheBlock_lowers _) Hwf Ht Hok Hc Ha Hal Hnew
    ltac:(pose proof (t_range _ Ht _ _ Hc); lia) (ordered_sub _ _ _ Ho)
    ltac:(intros hit h1 Hs1 Hw1 Hok1 He1 Hsame;
      assert (Hbk : block h1 a = block h a) by (unfold block; by rewrite (same_block _ _ Hs1));
      rewrite <- Hbk; apply llc_self; rewrite ?(same_cntlrs _ _ Hs1), ?(same_block _ _ Hs1), ?Hbk, ?Hsame; try done;
      by apply (t_plain _ Ht _ _ Hc)))) as ([[written sib] h'] & E & Hwr & Hpost).
  by exists written, sib, h'.
Qed.

(** ** Requests *)
Definition lowered_to (t : msg_t) : CacheState.cstate_t :=
  match t with WB_REQ => CacheState.SHARED | _ => CacheState.INVALID end.
Definition reply_to (t : msg_t) : msg_t :=
  match t with INV_REQ => INV_REP | FLUSH_REQ => FLUSH_REP | _ => WB_REP end.

Lemma present_state h m t : states_ok h ->
  bool_decide (default CacheState.INVALID (lines h m t) <> CacheState.INVALID) = bool_decide (is_Some (lines h m t)).
Proof.
  intros Hok. destruct (lines h m t) as [s|] eqn:E; cbn.
  - rewrite !bool_decide_eq_true_2; [done|first [by eexists|intros ->; by apply Hok in E]..].
  - rewrite !bool_decide_eq_false_2; [done|first [by intros [? [=]]|by intros Hx; apply Hx]..].
Qed.

Lemma absent_below_lowered h m t new : ordered h -> lines h m t = None -> lowered h h (below h m) t new.
Proof.
  intros Ho Hm. split; [by left|]. intros x Hx. assert (E : lines h x t = None); [|rewrite E; by destruct new].
  induction Hx as [|m p x Hp Hx IH]; [done|]. apply IH.
  pose proof (Ho m p t Hp) as Hr. rewrite Hm in Hr. cbn in Hr. destruct (lines h p t) as [[]|]; cbn in Hr; try lia; done.
Qed.

(** The three requests, in one statement. *)
Lemma directory_request h id c sender t a req buf w :
  hwf h -> topo h -> states_ok h -> ordered h -> h_cntlrs h !! id = Some c -> m_next_cache_cntlr c = None ->
  address a -> a mod h_block h = 0 -> t = INV_REQ \/ t = FLUSH_REQ \/ t = WB_REQ ->
  (t = INV_REQ -> lines h (m_master c) (block h a) <> Some CacheState.MODIFIED) ->
  (t = WB_REQ -> lines h (m_master c) (block h a) <> Some CacheState.SHARED_UPGRADING) ->
  exists d h', handleMsgFromDramDirectory id sender (mkMsg t req a buf w) h = Ok h' /\
    h_sent h' = h_sent h ++ (if bool_decide (is_Some (lines h (m_master c) (block h a)))
                             then [mkDirMsg (reply_to t) req sender a d] else []) /\
    (t <> INV_REQ -> is_Some (lines h (m_master c) (block h a)) -> is_Some d) /\
    lowered h h' (below h (m_master c)) (block h a) (lowered_to t).
Proof.
  intros Hwf Ht Hok Ho Hc Hn Ha Hal Htype Hinv Hwb. destruct (hwf_get _ _ _ Hwf Hc) as [M HM].
  set (line := lines h (m_master c) (block h a)) in *.
  assert (Hlow : lowering (lowered_to t)) by (destruct Htype as [->|[-> | ->]]; [by left..|by right]).
  assert (Hupd : forall out, (out = false -> t = INV_REQ) -> is_Some line ->
    exists written sib h', updateCacheBlock (depth h) id a (lowered_to t) out h = Ok (written, sib, h') /\
      (out = true -> is_Some written) /\ lower_post (m_master c) a (lowered_to t) h h').
  { intros out Hout Hl. apply last_level_lowers; try done. intros E. by apply Hinv, Hout. }
  unfold handleMsgFromDramDirectory. rewrite (master_ok _ _ _ _ Hc HM). cbn [rbind getMsgType getAddress getRequester].
  assert (Hrep : is_reply t = false) by (by destruct Htype as [->|[-> | ->]]). rewrite Hrep. cbn [rbind].
  destruct (decide (is_Some line)) as [Hl|Hl].
  - rewrite (bool_decide_eq_true_2 _ Hl). destruct Htype as [->|[-> | ->]]; cbn [lowered_to reply_to] in *.
    + destruct (Hupd false) as (d & sib & h' & E & _ & Hs & _ & _ & _ & Hlo); [done..|].
      unfold processInvReqFromDramDirectory. cbn [getAddress getRequester]. rewrite (state_ok h id c) by done. cbn [rbind].
      rewrite present_state, (bool_decide_eq_true_2 _ Hl) by done. rewrite E. cbn [rbind].
      eexists None, _. split; [done|]. cbn. rewrite (same_sent _ _ Hs). by split_and!.
    + destruct (Hupd true) as (d & sib & h' & E & Hd & Hs & _ & _ & _ & Hlo); [done..|].
      unfold processFlushReqFromDramDirectory. cbn [getAddress getRequester]. rewrite (state_ok h id c) by done. cbn [rbind].
      rewrite present_state, (bool_decide_eq_true_2 _ Hl) by done. rewrite E. cbn [rbind].
      eexists d, _. split; [done|]. cbn. rewrite (same_sent _ _ Hs). split_and!; try done. intros _ _. by apply Hd.
    + destruct (Hupd true) as (d & sib & h' & E & Hd & Hs & _ & _ & _ & Hlo); [done..|].
      unfold processWbReqFromDramDirectory. cbn [getAddress getRequester]. rewrite (state_ok h id c) by done. cbn [rbind].
      rewrite present_state, (bool_decide_eq_true_2 _ Hl) by done.
      rewrite bool_decide_eq_true_2; [rewrite E; cbn [rbind]|].
      * eexists d, _. split; [done|]. cbn. rewrite (same_sent _ _ Hs). split_and!; try done. intros _ _. by apply Hd.
      * fold line. destruct line as [s|]; [|by destruct Hl]. cbn. intros ->. by apply Hwb.
  - rewrite (bool_decide_eq_false_2 _ Hl), app_nil_r. exists None, h.
    assert (Hno : (if bool_decide (default CacheState.INVALID line <> CacheState.INVALID) then false else true) = true).
    { unfold line. rewrite present_state by done. fold line. by rewrite bool_decide_eq_false_2. }
    destruct (bool_decide (default CacheState.INVALID line <> CacheState.INVALID)) eqn:Ed; [done|].
    split; [|split; [done|split; [done|apply absent_below_lowered; [done|by apply eq_None_not_Some]]]].
    destruct Htype as [->|[-> | ->]];
      unfold processInvReqFromDramDirectory, processFlushReqFromDramDirectory, processWbReqFromDramDirectory;
      cbn [getAddress getRequester]; rewrite (state_ok h id c) by done; cbn [rbind]; fold line; by rewrite Ed.
Qed.

(** ** A transition of a block nobody has *)
Lemma absent_update fuel : forall h id c a new (out : bool),
  hwf h -> topo h -> ordered h -> h_cntlrs h !! id = Some c -> address a -> proper_cstate new = true ->
  (Z.to_nat (m_mem_component c) - 2 < fuel)%nat -> lines h (m_master c) (block h a) = None ->
  updateCacheBlock fuel id a new out h = if out then Err LogError else Ok (None, false, h).
Proof.
  induction fuel as [|fuel IH]; intros h id c a new out Hwf Ht Ho Hc Ha Hnew Hf Hnone; [lia|].
  destruct (hwf_get _ _ _ Hwf Hc) as [M HM].
  assert (HMp : m_prev_cache_cntlrs M = prevs h (m_master c)) by (unfold prevs; by rewrite HM).
  cbn [updateCacheBlock]. rewrite Hnew. cbn [rguard rbind]. unfold cntlr at 1. rewrite Hc. cbn [of_option rbind].
  rewrite (master_ok _ _ _ _ Hc HM). cbn [rbind]. rewrite HMp.
  assert (Hprev : forall l, (forall p, p ∈ l -> p ∈ prevs h (m_master c)) ->
    each_prev (fun p h => let! (_, hit, h) := updateCacheBlock fuel p a new false h in Ok (hit, h)) l false h = Ok (false, h)).
  { induction l as [|p l IHl]; intros Hl; [done|]. cbn [each_prev].
    assert (Hp : p ∈ prevs h (m_master c)) by (apply Hl; by left).
    destruct (t_prev _ Ht _ _ Hp) as (pc & n & nc & Hpc & Hpm & _).
    rewrite (IH h p pc a new false); try done; [|pose proof (level_prev h _ _ Ht Hp) as Hlt;
      rewrite (level_master h id c) in Hlt by done; unfold level in Hlt; rewrite Hpc in Hlt;
      pose proof (t_range _ Ht p pc Hpc); lia|].
    - cbn [rbind orb]. apply IHl. intros q Hq. apply Hl. by right.
    - rewrite Hpm. pose proof (Ho _ _ (block h a) Hp) as Hr. rewrite Hnone in Hr. cbn in Hr.
      destruct (lines h p (block h a)) as [[]|]; cbn in Hr; try lia; done. }
  rewrite Hprev by done. cbn [rbind]. unfold update_self.
  destruct (info_ok h id c a Hwf Hc Ha) as (info & Ei & Hi). rewrite Ei. cbn [rbind]. rewrite Hnone in Hi.
  destruct info; [done|]. cbn [rbind]. rewrite (state_ok h id c), Hnone by done. cbn. by destruct out.
Qed.
End msg.
