(* ===== verification/HierInv.v ===== *)
(** A hierarchy of coherent write-back caches whose last level accesses DRAM
    directly: the invariant of the coherence states, and that every request of a
    core succeeds and keeps it. *)
From stdpp Require Import base numbers list gmap strings.
From Stdlib Require Import ZArith Lia Bool.
From S2P Require Import Prelude Utils CacheBlock CacheBase Replacement CacheSet Cache Queues DirectoryCntlr SwLlc Hierarchy HierView HierLower HierInsert.
Open Scope Z_scope.

Section inv.
Context {P : Type} `{AlwaysReplaces P} `{!EnvFrame P}.
Implicit Types h : Hier P.

(** The invariant: lines are SHARED or MODIFIED, and a cache has no more rights
    to a block than the next level; in particular caches are inclusive. *)
Record hinv h : Prop := mkInv {
  i_wf : hwf h;
  i_topo : topo h;
  i_ordered : ordered h;
  i_evicting : forall m, evicting h m = None;
  i_states : forall m t s, lines h m t = Some s -> s = CacheState.SHARED \/ s = CacheState.MODIFIED;
  i_direct : forall id c, h_cntlrs h !! id = Some c -> m_next_cache_cntlr c = None -> direct h (m_master c) = true;
  i_hits : hits_ok (h_last h);
  i_cbpred : SwLlc.cbpred (h_settings h) = false
}.

Lemma hinv_states h : hinv h -> states_ok h.
Proof. intros Hi m t s Hs. by destruct (i_states _ Hi m t s Hs) as [-> | ->]. Qed.

Lemma hinv_settled h m : hinv h -> settled h m.
Proof. intros Hi t Hs. by destruct (i_states _ Hi m t _ Hs). Qed.

(** The invariant after a step that keeps everything but the lines. *)
Lemma hinv_step h h' :
  hinv h -> same h h' -> hwf h' -> ordered h' -> (forall m, evicting h' m = None) ->
  (forall m t s, lines h' m t = Some s -> s = CacheState.SHARED \/ s = CacheState.MODIFIED) -> hinv h'.
Proof.
  intros [? ? ? ? ? Hd Hh Hcb] Hs Hw Ho He Hst. split; try done.
  - by eapply topo_same.
  - intros id c. rewrite (same_cntlrs _ _ Hs), (same_direct _ _ Hs). apply Hd.
  - by apply (same_hits _ _ Hs).
  - by rewrite (same_settings _ _ Hs).
Qed.

Lemma hinv_keeps h h' : hinv h -> same h h' -> hwf h' -> keeps_evicting h h' -> keeps_lines h h' -> hinv h'.
Proof.
  intros Hi Hs Hw He Hk. apply (hinv_step h); [done..| | |].
  - intros m p t Hp. rewrite !Hk. apply (i_ordered _ Hi). by rewrite <- (same_prevs _ _ Hs).
  - intros m. rewrite He. apply (i_evicting _ Hi).
  - intros m t s. rewrite Hk. apply (i_states _ Hi).
Qed.

(** ** What a request may do to the lines *)

(** A line stays, is lowered, or leaves. *)
Definition le_line (o' o : option CacheState.cstate_t) : Prop :=
  o' = o \/ o' = None \/ (o <> None /\ o' = Some CacheState.SHARED).

Lemma le_line_trans o1 o2 o3 : le_line o3 o2 -> le_line o2 o1 -> le_line o3 o1.
Proof.
  unfold le_line. intros [->|[->|[Hn ->]]] Ho; [done|by right; left|].
  destruct Ho as [->|[->|[? _]]]; [by right; right|done|by right; right].
Qed.

(** Only block [t] may gain rights, in the caches from level [lev] on. *)
Definition moved (lev t : Z) h h' : Prop :=
  forall x t', le_line (lines h' x t') (lines h x t') \/ (t' = t /\ lev <= level h x).

Lemma moved_refl lev t h : moved lev t h h.
Proof. intros x t'. left. by left. Qed.

Lemma moved_keeps lev t h h' : keeps_lines h h' -> moved lev t h h'.
Proof. intros Hk x t'. left. left. apply Hk. Qed.

Lemma moved_trans lev t h h1 h2 : same h h1 -> moved lev t h h1 -> moved lev t h1 h2 -> moved lev t h h2.
Proof.
  intros Hs H1' H2' x t'. assert (El : level h1 x = level h x) by (unfold level; by rewrite (same_cntlrs _ _ Hs)).
  destruct (H1' x t') as [A|A]; [|by right]. destruct (H2' x t') as [B|B]; [left|right; by rewrite <- El].
  by eapply le_line_trans.
Qed.

Lemma moved_weaken lev lev' t h h' : lev' <= lev -> moved lev t h h' -> moved lev' t h h'.
Proof. intros Hl Hm x t'. destruct (Hm x t') as [?|[? ?]]; [by left|right; lia]. Qed.

Lemma moved_lowered lev t h h' S new : lowering new -> lowered h h' S t new -> moved lev t h h'.
Proof.
  intros Hn [A _] x t'. left. destruct (A x t') as [->|(_ & _ & ->)]; [by left|].
  destruct Hn as [-> | ->]; [by right; left|]. destruct (lines h x t'); [by right; right|by left].
Qed.

Lemma moved_filled t h h' m st lev : level h m = lev -> filled h h' m t st -> moved lev t h h'.
Proof.
  intros Hl (Hnew & e & _ & HB & _) x t'. destruct (decide (x = m /\ t' = t)) as [[-> ->]|Hx]; [right; lia|left].
  destruct (HB x t' Hx) as [->|(_ & _ & ->)]; [by left|by right; left].
Qed.

(** ** The parts of a request *)
Lemma permissible_ok h id c a op :
  hwf h -> h_cntlrs h !! id = Some c -> address a ->
  operationPermissibleinCache id a op h =
  Ok (permissible op (default CacheState.INVALID (lines h (m_master c) (block h a)))).
Proof. intros Hwf Hc Ha. unfold operationPermissibleinCache. by rewrite (state_ok h id c). Qed.

(** A permitted line is there; one that is not permitted is absent, or SHARED
    and to be written. *)
Lemma permitted_present op o : permissible op (default CacheState.INVALID o) = true -> exists s, o = Some s.
Proof. destruct o as [s|]; [by exists s|]. by destruct op. Qed.

Lemma not_permitted op o :
  permissible op (default CacheState.INVALID o) = false ->
  (forall s, o = Some s -> s = CacheState.SHARED \/ s = CacheState.MODIFIED) ->
  o = None \/ (o = Some CacheState.SHARED /\ op <> READ).
Proof.
  destruct o as [s|]; [|by left]. intros Hp Hs. right.
  destruct (Hs s eq_refl) as [-> | ->]; destruct op; done.
Qed.

Lemma depth_enough h p pc : topo h -> h_cntlrs h !! p = Some pc -> (Z.to_nat (m_mem_component pc) - 2 < depth h)%nat.
Proof. intros Ht Hp. pose proof (t_range _ Ht p pc Hp). unfold depth. lia. Qed.

Lemma hinv_lowered h h' S t new :
  hinv h -> same h h' -> hwf h' -> keeps_evicting h h' -> lowered h h' S t new ->
  (forall y q, S y -> q ∈ prevs h y -> S q) -> hinv h'.
Proof.
  intros Hi Hs Hw He Hl Hdown. apply (hinv_step h); [done..| | |].
  - intros m p t' Hp. rewrite (same_prevs _ _ Hs) in Hp.
    eapply lowered_rank; [exact Hl|intros Hm; by eapply Hdown|]. by apply (i_ordered _ Hi).
  - intros m. rewrite He. apply (i_evicting _ Hi).
  - intros m t' s Hst. destruct Hl as [A _]. destruct (A m t') as [E|(_ & _ & E)]; rewrite E in Hst.
    + by eapply (i_states _ Hi).
    + destruct new, (lines h m t'); cbn in Hst; simplify_eq; by left.
Qed.

(** The siblings of the requester, with their subtrees. *)
Definition siblings h (m requester x : nat) : Prop :=
  exists p, p ∈ prevs h m /\ (p =? requester)%nat = false /\ below h p x.

Lemma snoop_ok h id c requester a new :
  hinv h -> h_cntlrs h !! id = Some c -> address a -> a mod h_block h = 0 -> lowering new ->
  exists hit h', snoop_siblings id requester a new h = Ok (hit, h') /\ hinv h' /\ same h h' /\
    lowered h h' (siblings h (m_master c) requester) (block h a) new /\
    lines h' (m_master c) (block h a) = lines h (m_master c) (block h a).
Proof.
  intros Hi Hc Ha Hal Hnew. pose proof (i_wf _ Hi) as Hwf. pose proof (i_topo _ Hi) as Ht.
  destruct (hwf_get _ _ _ Hwf Hc) as [M HM].
  assert (HMp : m_prev_cache_cntlrs M = prevs h (m_master c)) by (unfold prevs; by rewrite HM).
  unfold snoop_siblings. rewrite (master_ok _ _ _ _ Hc HM). cbn [rbind]. rewrite HMp.
  pose proof (children_lower h (m_master c) a new (fun h => depth h) (fun p => (p =? requester)%nat)) as Hcl.
  destruct (returns_inv _ _ (Hcl ltac:(intros; apply updateCacheBlock_lowers)
    ltac:(intros h2 p pc Hs2 Hp Hpc; unfold depth; rewrite (same_cntlrs _ _ Hs2); by apply (depth_enough h p))
    Hwf Ht (hinv_states _ Hi) Ha Hal Hnew
    ltac:(intros p Hp _; apply ordered_sub, (i_ordered _ Hi))
    ltac:(intros p Hp _ HpM; right; eapply ordered_modified; [apply (i_ordered _ Hi)|by apply hinv_states|exact Hp|done]) false))
    as ([hit h'] & E & Hs & Hw & _ & He & Hl). cbn [snd] in *.
  exists hit, h'. split; [exact E|].
  split; [eapply hinv_lowered; [done..|exact Hl|]|split; [done|split; [exact Hl|]]].
  - intros y q (p & Hp & Hne & Hb) Hq. exists p. split; [done|]. split; [done|]. by eapply below_down.
  - apply (lowered_out _ _ _ _ _ _ _ Hl). intros (p & Hp & _ & Hb). by apply (not_below_prev h _ _ Ht Hp).
Qed.

(** Replacing the hit information. *)
Lemma with_last_ok h id w l :
  hinv h -> l = <[id := w]> (h_last h) -> w = UNKNOWN \/ located w ->
  hinv (with_last l h) /\ same h (with_last l h) /\ keeps_lines h (with_last l h).
Proof.
  intros Hi -> Hw.
  assert (Hs : same h (with_last (<[id := w]> (h_last h)) h)).
  { split; try done; cbn; [by rewrite length_insert|]. intros Hall. by apply Forall_insert. }
  assert (Hk : keeps_lines h (with_last (<[id := w]> (h_last h)) h)) by done.
  split; [|done]. apply (hinv_keeps h); try done. destruct (i_wf _ Hi) as [H1' H2' H3' H4'].
  split; try done. cbn. by rewrite length_insert.
Qed.

Lemma clear_warmup_ok h id c a s :
  hinv h -> h_cntlrs h !! id = Some c -> address a -> lines h (m_master c) (block h a) = Some s ->
  exists h', clear_warmup id a h = Ok h' /\ hinv h' /\ same h h' /\ keeps_lines h h'.
Proof.
  intros Hi Hc Ha Hs. pose proof (i_wf _ Hi) as Hwf. unfold clear_warmup.
  destruct (info_ok h id c a Hwf Hc Ha) as (info & E & Hin). rewrite E. cbn [rbind].
  rewrite Hs in Hin. destruct info as [b|]; [|done]. cbn [of_option rbind].
  destruct (hasOption WARMUP b && negb (h_cache_only h)); [|exists h; split_and!; done].
  destruct (update_block_keeps h id c a (clearOption WARMUP) s) as (h' & E' & Hs' & Hw' & He' & Hk'); try done.
  exists h'. split; [done|]. split; [by eapply hinv_keeps|done].
Qed.

(** The name of a level is not the one of a miss. *)
Lemma dram_located : located (From W_DRAM).
Proof. by unfold located, MISS, UNKNOWN; cbn. Qed.

Lemma At_located h id c sib : topo h -> h_cntlrs h !! id = Some c -> located (At (m_mem_component c) sib).
Proof.
  intros Ht Hc. pose proof (t_range _ Ht _ _ Hc). pose proof (t_named _ Ht _ _ Hc).
  unfold located, At, MISS, UNKNOWN, SIBLING. cbn. destruct sib; lia.
Qed.

Lemma serve_hit_ok h id c requester op a :
  hinv h -> h_cntlrs h !! id = Some c -> address a -> a mod h_block h = 0 ->
  permissible op (default CacheState.INVALID (lines h (m_master c) (block h a))) = true ->
  exists w h', serve_hit id requester op a h = Ok (w, h') /\ located w /\ hinv h' /\ same h h' /\
    lines h' (m_master c) (block h a) = lines h (m_master c) (block h a) /\
    (forall lev, moved lev (block h a) h h') /\
    (op <> READ -> forall x, siblings h (m_master c) requester x -> lines h' x (block h a) = None).
Proof.
  intros Hi Hc Ha Hal Hp. destruct (permitted_present _ _ Hp) as [s Hs].
  unfold serve_hit. unfold cntlr at 1. rewrite Hc. cbn [of_option rbind].
  destruct (clear_warmup_ok h id c a s Hi Hc Ha Hs) as (h1 & E1 & Hi1 & Hs1 & Hk1). rewrite E1. cbn [rbind].
  assert (Hc1 : h_cntlrs h1 !! id = Some c) by (by rewrite (same_cntlrs _ _ Hs1)).
  assert (Hbk1 : block h1 a = block h a) by (unfold block; by rewrite (same_block _ _ Hs1)).
  rewrite (state_ok h1 id c), Hbk1, Hk1, Hs by (try apply (i_wf _ Hi1); done). cbn [from_option Datatypes.id rbind].
  assert (Hsn : exists hit h2, match op, s with
      | READ, CacheState.MODIFIED | READ, CacheState.EXCLUSIVE => snoop_siblings id requester a CacheState.SHARED h1
      | READ, _ => Ok (false, h1)
      | _, _ => snoop_siblings id requester a CacheState.INVALID h1
      end = Ok (hit, h2) /\ hinv h2 /\ same h1 h2 /\ lines h2 (m_master c) (block h a) = lines h1 (m_master c) (block h a) /\
      (forall lev, moved lev (block h a) h1 h2) /\
      (op <> READ -> forall x, siblings h (m_master c) requester x -> lines h2 x (block h a) = None)).
  { assert (Hdo : forall new, lowering new -> exists hit h2, snoop_siblings id requester a new h1 = Ok (hit, h2) /\
      hinv h2 /\ same h1 h2 /\ lines h2 (m_master c) (block h a) = lines h1 (m_master c) (block h a) /\
      (forall lev, moved lev (block h a) h1 h2) /\
      (forall x, siblings h (m_master c) requester x -> lines h2 x (block h a) = low new (lines h1 x (block h a)))).
    { intros new Hnew. destruct (snoop_ok h1 id c requester a new Hi1 Hc1 Ha) as (hit & h2 & E & Hi2 & Hs2 & Hl2 & Ho2);
        [by rewrite (same_block _ _ Hs1)|done|]. rewrite Hbk1 in Hl2, Ho2. exists hit, h2. do 4 (split; [done|]).
      split; [intros lev; by eapply moved_lowered|]. intros x (p & Hpp & Hne & Hb). apply (proj2 Hl2).
      exists p. rewrite (same_prevs _ _ Hs1). split; [done|]. split; [done|]. by apply (below_same h h1). }
    destruct (Hdo CacheState.INVALID (or_introl eq_refl)) as (hitI & hI & EI & HiI & HsI & HoI & HmI & HlI).
    destruct (Hdo CacheState.SHARED (or_intror eq_refl)) as (hitS & hS & ES & HiS & HsS & HoS & HmS & _).
    destruct op; [|by exists hitI, hI..].
    destruct s; try (by exists hitS, hS);
      (exists false, h1; split_and!; try done; intros lev; apply moved_refl). }
  destruct Hsn as (hit & h2 & E2 & Hi2 & Hs2 & Ho2 & Hm2 & Hx2). rewrite E2. cbn [rbind].
  assert (Hs02 : same h h2) by (by etrans).
  assert (Hm02 : forall lev, moved lev (block h a) h h2).
  { intros lev. eapply moved_trans; [exact Hs1|by apply moved_keeps|apply Hm2]. }
  destruct (lookup_lt_is_Some_2 (h_last h2) id) as [last Hlast].
  { rewrite (wf_last _ (i_wf _ Hi2)), (same_cntlrs _ _ Hs02). by eapply lookup_lt_Some. }
  rewrite Hlast. cbn [of_option rbind].
  pose proof (Forall_lookup_1 _ _ _ _ (i_hits _ Hi2) Hlast) as Hnm. cbv beta in Hnm.
  case_bool_decide as Hun.
  - destruct (with_last_ok h2 id UNKNOWN _ Hi2 eq_refl) as (Hi3 & Hs3 & Hk3); [by left|].
    eexists _, _. split; [done|]. split; [by destruct Hnm|]. split; [exact Hi3|]. split; [by etrans|].
    split; [by rewrite Hk3, Ho2, Hk1|]. split.
    + intros lev. eapply moved_trans; [exact Hs02|apply Hm02|by apply moved_keeps].
    + intros Hop x Hx. rewrite Hk3. by apply Hx2.
  - eexists _, _. split; [done|]. split; [by eapply At_located; [apply Hi|]|]. split; [done|]. split; [done|].
    split; [by rewrite Ho2, Hk1|]. split; [exact Hm02|exact Hx2].
Qed.

(** Copying a line the next level has. *)
Lemma copy_ok h id c n nc op a :
  hinv h -> h_cntlrs h !! id = Some c -> m_next_cache_cntlr c = Some n -> h_cntlrs h !! n = Some nc ->
  address a -> a mod h_block h = 0 -> lines h (m_master c) (block h a) = None ->
  permissible op (default CacheState.INVALID (lines h (m_master nc) (block h a))) = true ->
  exists h', copyDataFromNextLevel id op a h = Ok h' /\ hinv h' /\ same h h' /\
    lines h' (m_master c) (block h a) = lines h (m_master nc) (block h a) /\
    moved (level h (m_master c)) (block h a) h h' /\
    (forall x, x <> m_master c -> lines h' x (block h a) = lines h x (block h a)).
Proof.
  intros Hi Hc Hn Hnc Ha Hal Hmiss Hp. destruct (permitted_present _ _ Hp) as [s Hs].
  pose proof (i_wf _ Hi) as Hwf. pose proof (i_topo _ Hi) as Ht.
  unfold copyDataFromNextLevel. unfold cntlr at 1. rewrite Hc. cbn [of_option rbind]. rewrite Hn. cbn [of_option rbind].
  rewrite (permissible_ok h n nc), Hp by done. cbn [rguard rbind].
  destruct (retrieve_ok h n nc a false s Hwf Hnc Ha Hal Hs) as (d & h1 & E1 & Hs1 & Hw1 & He1 & Hk1).
  rewrite E1. cbn [rbind]. pose proof (hinv_keeps _ _ Hi Hs1 Hw1 He1 Hk1) as Hi1.
  assert (Hbk1 : block h1 a = block h a) by (unfold block; by rewrite (same_block _ _ Hs1)).
  assert (Hc1 : h_cntlrs h1 !! id = Some c) by (by rewrite (same_cntlrs _ _ Hs1)).
  rewrite (state_ok h1 n nc), Hbk1, Hk1, Hs by (rewrite ?(same_cntlrs _ _ Hs1); done). cbn [from_option Datatypes.id rbind].
  destruct (info_ok h1 id c a Hw1 Hc1 Ha) as (info & Ei & Hin). rewrite Ei. cbn [rbind].
  rewrite Hbk1, Hk1, Hmiss in Hin. destruct info; [done|].
  destruct (insertCacheBlock_ok h1 id c a s (Some d)) as (h2 & E2 & Hs2 & Hw2 & He2 & Hf2);
    try done; try apply Hi1.
  - by apply hinv_states.
  - by rewrite Hbk1, Hk1.
  - by apply hinv_settled.
  - by destruct (i_states _ Hi _ _ _ Hs) as [-> | ->].
  - intros E. congruence.
  - rewrite E2. exists h2. rewrite Hbk1 in Hf2. split; [done|]. assert (Hs02 : same h h2) by (by etrans).
    assert (Hlev : level h1 (m_master c) = level h (m_master c)) by (unfold level; by rewrite (same_cntlrs _ _ Hs1)).
    split; [|split; [done|split; [by rewrite (proj1 Hf2)|split]]].
    + apply (hinv_step h); try done.
      * eapply (filled_ordered h1 h2); [apply Hi1|done|apply Hi1|by rewrite Hk1|exact Hf2|].
        intros y Hy. rewrite (same_prevs _ _ Hs1) in Hy.
        destruct (t_prev _ Ht y (m_master c) Hy) as (mc & n' & nc' & Hmc & Hmm & Hn' & Hnc' & Hy').
        pose proof (t_parent _ Ht _ _ _ _ Hc Hmc (eq_sym Hmm)) as Hpar. unfold parent in Hpar.
        rewrite Hn, Hn' in Hpar. cbn in Hpar. rewrite Hnc, Hnc' in Hpar. cbn in Hpar. injection Hpar as Epar.
        rewrite Hk1. subst y. rewrite <- Epar. by rewrite Hs.
      * intros m t s' Hst. destruct (decide (m = m_master c /\ t = block h a)) as [[-> ->]|Hx].
        { rewrite (proj1 Hf2) in Hst. injection Hst as <-. by eapply (i_states _ Hi). }
        destruct Hf2 as (_ & e & _ & HB & _). destruct (HB m t Hx) as [E|(_ & _ & E)]; rewrite E in Hst; [|done].
        rewrite Hk1 in Hst. by eapply (i_states _ Hi).
    + eapply moved_trans; [exact Hs1|by apply moved_keeps|]. by eapply moved_filled.
    + intros x Hx. destruct Hf2 as (_ & e & Hne & HB & _).
      destruct (HB x (block h a)) as [->|(E & _)]; [naive_solver|apply Hk1|congruence].
Qed.

(** A miss in the last level. *)
Lemma last_level_ok h id c requester op a :
  hinv h -> h_cntlrs h !! id = Some c -> m_next_cache_cntlr c = None -> address a ->
  lines h (m_master c) (block h a) = None \/
    (lines h (m_master c) (block h a) = Some CacheState.SHARED /\ op <> READ) ->
  exists w h', serve_last_level_miss id requester op a h = Ok (true, w, h') /\ located w /\ hinv h' /\ same h h' /\
    permissible op (default CacheState.INVALID (lines h' (m_master c) (block h a))) = true /\
    moved (level h (m_master c)) (block h a) h h' /\
    (forall x, x <> m_master c -> lines h' x (block h a) = lines h x (block h a)).
Proof.
  intros Hi Hc Hn Ha Hmiss. pose proof (i_wf _ Hi) as Hwf. pose proof (i_topo _ Hi) as Ht.
  pose proof (i_direct _ Hi _ _ Hc Hn) as Hdir. destruct (hwf_get _ _ _ Hwf Hc) as [M HM].
  assert (exists d, m_dram_cntlr M = Some d) as [d Hd].
  { unfold direct in Hdir. rewrite HM in Hdir. by apply bool_decide_eq_true in Hdir. }
  assert (Hnopar : forall y, m_master c ∈ prevs h y -> False).
  { intros y Hy. destruct (t_prev _ Ht y _ Hy) as (mc & n' & nc' & Hmc & Hmm & Hn' & Hnc' & _).
    pose proof (t_parent _ Ht _ _ _ _ Hc Hmc (eq_sym Hmm)) as Hpar. unfold parent in Hpar.
    rewrite Hn, Hn' in Hpar. cbn in Hpar. by rewrite Hnc' in Hpar. }
  unfold serve_last_level_miss. unfold cntlr at 1. rewrite Hc. cbn [of_option rbind].
  rewrite (master_ok _ _ _ _ Hc HM). cbn [rbind].
  destruct (info_ok h id c a Hwf Hc Ha) as (info & Ei & Hin). rewrite Ei. cbn [rbind]. rewrite Hd.
  destruct info as [b|]; cbn in Hin; destruct Hmiss as [Hmiss|[Hmiss Hop]]; rewrite Hmiss in Hin; try done.
  - injection Hin as Hb. rewrite Hb. cbn.
    destruct (setCacheState_ok h id c a _ CacheState.MODIFIED Hwf Hc Ha Hmiss) as (h1 & E1 & Hs1 & Hw1 & He1 & Hl1).
    unfold setCacheState in E1. rewrite E1. cbn [rbind]. eexists _, h1. split; [done|].
    split; [exact (At_located h id c false Ht Hc)|].
    split; [|split; [done|split; [|split]]].
    + apply (hinv_step h); try done.
      * intros m p t Hp. rewrite (same_prevs _ _ Hs1) in Hp. rewrite !Hl1.
        pose proof (i_ordered _ Hi m p t Hp) as Hr.
        destruct (decide (p = m_master c /\ t = block h a)) as [[-> _]|Hx]; [by destruct (Hnopar m)|].
        case_decide as Hd'; [|done]. destruct Hd' as [-> ->]. rewrite Hmiss in Hr. cbn in Hr |- *. lia.
      * intros m. rewrite He1. apply (i_evicting _ Hi).
      * intros m t s. rewrite Hl1. case_decide; [intros [= <-]; by right|]. apply (i_states _ Hi).
    + rewrite Hl1, decide_True by done. by destruct op.
    + intros x t. rewrite Hl1. case_decide as Hd'; [destruct Hd' as [-> ->]; right; lia|left; by left].
    + intros x Hx. rewrite Hl1, decide_False by naive_solver. done.
  - destruct (accessDRAM_ok h id c READ Hwf Hc Hdir) as (h1 & E1 & Hs1 & Hw1 & He1 & Hk1). rewrite E1. cbn [rbind].
    pose proof (hinv_keeps _ _ Hi Hs1 Hw1 He1 Hk1) as Hi1.
    assert (Hbk1 : block h1 a = block h a) by (unfold block; by rewrite (same_block _ _ Hs1)).
    set (st := if bool_decide (op = READ) then CacheState.SHARED else CacheState.MODIFIED).
    assert (Hst : st = CacheState.SHARED \/ st = CacheState.MODIFIED) by (subst st; case_bool_decide; auto).
    match goal with |- context [insertCacheBlock id a st ?d h1] =>
      destruct (insertCacheBlock_ok h1 id c a st d) as (h2 & E2 & Hs2 & Hw2 & He2 & Hf2) end;
      try done; try apply Hi1; [by apply hinv_states|by rewrite (same_cntlrs _ _ Hs1)|by rewrite Hbk1, Hk1
        |by apply hinv_settled|by destruct Hst as [-> | ->]|by rewrite (same_direct _ _ Hs1)|].
    rewrite E2. cbn [rbind]. rewrite Hbk1 in Hf2. assert (Hs02 : same h h2) by (by etrans).
    assert (Hi2 : hinv h2).
    { apply (hinv_step h); try done.
      - eapply (filled_ordered h1 h2); [apply Hi1|done|apply Hi1|by rewrite Hk1|exact Hf2|].
        intros y Hy. rewrite (same_prevs _ _ Hs1) in Hy. by destruct (Hnopar y).
      - intros m t s' Hs'. destruct (decide (m = m_master c /\ t = block h a)) as [[-> ->]|Hx].
        + rewrite (proj1 Hf2) in Hs'. by injection Hs' as <-.
        + destruct Hf2 as (_ & e & _ & HB & _). destruct (HB m t Hx) as [E|(_ & _ & E)]; rewrite E in Hs'; [|done].
          rewrite Hk1 in Hs'. by eapply (i_states _ Hi). }
    destruct (with_last_ok h2 id (From W_DRAM) _ Hi2 eq_refl) as (Hi3 & Hs3 & Hk3); [right; apply dram_located|].
    eexists _, _. split; [done|]. split; [apply dram_located|]. split; [exact Hi3|]. split; [by etrans|].
    assert (Hlev : level h1 (m_master c) = level h (m_master c)) by (unfold level; by rewrite (same_cntlrs _ _ Hs1)).
    split; [|split].
    + rewrite Hk3, (proj1 Hf2). cbn. subst st. case_bool_decide as Hr; [by rewrite Hr|]. by destruct op.
    + eapply moved_trans; [exact Hs02| |by apply moved_keeps].
      eapply moved_trans; [exact Hs1|by apply moved_keeps|by eapply moved_filled].
    + intros x Hx. rewrite Hk3. destruct Hf2 as (_ & e & Hne & HB & _).
      destruct (HB x (block h a)) as [->|(E & _)]; [naive_solver|apply Hk1|congruence].
Qed.
End inv.
