(* ===== verification/HierReq.v ===== *)
(** Requests through the hierarchy: processShmemReqFromPrevCache at every level,
    and processMemOpFromCore at the first. *)
From stdpp Require Import base numbers list gmap strings.
From Stdlib Require Import ZArith Lia Bool.
From S2P Require Import Prelude Utils CacheBlock CacheBase Replacement CacheSet Cache Queues DirectoryCntlr SwLlc Hierarchy HierView HierLower HierInsert HierInv.
Open Scope Z_scope.

Section req.
Context {P : Type} `{AlwaysReplaces P} `{!EnvFrame P}.
Implicit Types h : Hier P.

Lemma with_sw_same h : with_sw (h_sw h) h = h.
Proof. by destruct h. Qed.

Lemma no_cbpred h comp miss a : hinv h ->
  SwLlc.on_llc_request (h_settings h) (h_pfq h) comp miss a (h_sw h) = Ok (h_sw h).
Proof. intros Hi. unfold SwLlc.on_llc_request. by rewrite (i_cbpred _ Hi). Qed.

Lemma maybe_count_ok h id c (count hit : bool) :
  hinv h -> h_cntlrs h !! id = Some c ->
  exists h', (if count then count_access id hit h else Ok h) = Ok h' /\ hinv h' /\ same h h' /\ keeps_lines h h'.
Proof.
  intros Hi Hc. destruct count; [|exists h; split_and!; done].
  destruct (count_ok h id c hit (i_wf _ Hi) Hc) as (h' & E & Hs & Hw & He & Hk).
  exists h'. split; [done|]. split; [by eapply hinv_keeps|done].
Qed.

(** What a request to controller [id] achieves. *)
Definition served (c : Cntlr) (requester : nat) (op : mem_op_t) (t : Z) h h' : Prop :=
  hinv h' /\ same h h' /\
  permissible op (default CacheState.INVALID (lines h' (m_master c) t)) = true /\
  moved (level h (m_master c)) t h h' /\
  (op <> READ -> forall x, siblings h (m_master c) requester x -> lines h' x t = None).

Lemma siblings_level h m requester x : topo h -> siblings h m requester x -> level h x < level h m.
Proof. intros Ht (p & Hp & _ & Hb). pose proof (level_prev h m p Ht Hp). pose proof (level_below h p x Ht Hb). lia. Qed.

(** In a well-ordered hierarchy an absent block is absent below. *)
Lemma absent_below h m x t : ordered h -> below h m x -> lines h m t = None -> lines h x t = None.
Proof.
  intros Ho Hb. induction Hb as [|m p x Hp Hb IH]; [done|]. intros Hm. apply IH.
  pose proof (Ho m p t Hp) as Hr. rewrite Hm in Hr. cbn in Hr. destruct (lines h p t) as [s|]; [|done].
  destruct s; cbn in Hr; lia.
Qed.

(** Giving up a SHARED line after the siblings have: the order stays. *)
Lemma drop_line_ok h id c a :
  hinv h -> h_cntlrs h !! id = Some c -> address a ->
  lines h (m_master c) (block h a) = Some CacheState.SHARED ->
  (forall p, p ∈ prevs h (m_master c) -> lines h p (block h a) = None) ->
  exists h', invalidateCacheBlock id a h = Ok h' /\ hinv h' /\ same h h' /\
    set_line (m_master c) (block h a) None h h'.
Proof.
  intros Hi Hc Ha Hs Hch.
  destruct (invalidate_ok h id c a _ (i_wf _ Hi) Hc Ha Hs) as (h' & E & Hs' & Hw' & He' & Hl'); [done..|].
  exists h'. split; [done|]. split; [|done]. apply (hinv_step h); try done.
  - intros m p t Hp. rewrite (same_prevs _ _ Hs') in Hp. rewrite !Hl'. pose proof (i_ordered _ Hi m p t Hp) as Hr.
    destruct (decide (p = m_master c /\ t = block h a)) as [_|Hx]; [cbn; lia|].
    case_decide as Hd; [|done]. destruct Hd as [-> ->]. by rewrite (Hch p Hp).
  - intros m. rewrite He'. apply (i_evicting _ Hi).
  - intros m t s. rewrite Hl'. case_decide; [done|]. apply (i_states _ Hi).
Qed.

(** The last step of a request that found its line. *)
Lemma retrieve_hinv h id c a upd s :
  hinv h -> h_cntlrs h !! id = Some c -> address a -> a mod h_block h = 0 ->
  lines h (m_master c) (block h a) = Some s ->
  exists d h', retrieveCacheBlock id a upd h = Ok (d, h') /\ hinv h' /\ same h h' /\ keeps_lines h h'.
Proof.
  intros Hi Hc Ha Hal Hs. destruct (retrieve_ok h id c a upd s (i_wf _ Hi) Hc Ha Hal Hs) as (d & h' & E & Hs' & Hw & He & Hk).
  exists d, h'. split; [done|]. split; [by eapply hinv_keeps|done].
Qed.

Lemma served_keeps c requester op t h h1 h2 :
  served c requester op t h h1 -> hinv h2 -> same h1 h2 -> keeps_lines h1 h2 -> served c requester op t h h2.
Proof.
  intros (Hi1 & Hs1 & Hp1 & Hm1 & Hx1) Hi2 Hs2 Hk. split; [done|]. split; [by etrans|].
  split; [by rewrite Hk|]. split; [by eapply moved_trans; [| |apply moved_keeps]|].
  intros Hop x Hx. rewrite Hk. by apply Hx1.
Qed.

(** The miss case below the last level, from the request to the next one. *)
Lemma miss_next_ok h id c n nc requester op a (rec : Hier P -> result (hit_where * Hier P)) :
  hinv h -> h_cntlrs h !! id = Some c -> m_next_cache_cntlr c = Some n -> h_cntlrs h !! n = Some nc ->
  address a -> a mod h_block h = 0 ->
  lines h (m_master c) (block h a) = None ->
  (forall x, siblings h (m_master c) requester x -> lines h x (block h a) = None) ->
  (exists w h1, rec h = Ok (w, h1) /\ located w /\ served nc id op (block h a) h h1) ->
  exists w h', (let! (w, h) := rec h in
      if bool_decide (w <> MISS) then
        let! h := copyDataFromNextLevel id op a h in Ok (true, w, h)
      else Ok (false, w, h)) = Ok (true, w, h') /\ located w /\ served c requester op (block h a) h h'.
Proof.
  intros Hi Hc Hn Hnc Ha Hal Hmiss Hsib (w & h1 & E1 & Hw & Hi1 & Hs1 & Hp1 & Hm1 & _).
  pose proof (i_topo _ Hi) as Ht. destruct (next_prevs h id c n Ht Hc Hn) as (nc' & Hnc' & _ & Hin & Hlev).
  assert (nc' = nc) as -> by congruence.
  rewrite E1. cbn [rbind]. rewrite bool_decide_eq_true_2 by apply Hw.
  assert (Hbk1 : block h1 a = block h a) by (unfold block; by rewrite (same_block _ _ Hs1)).
  assert (Hstay : forall x, level h x < level h (m_master nc) -> lines h x (block h a) = None -> lines h1 x (block h a) = None).
  { intros x Hx Hnone. destruct (Hm1 x (block h a)) as [Hle|[_ ?]]; [|lia]. rewrite Hnone in Hle.
    by destruct Hle as [?|[?|[? _]]]. }
  destruct (copy_ok h1 id c n nc op a Hi1) as (h2 & E2 & Hi2 & Hs2 & Hl2 & Hm2 & Ho2);
    rewrite ?(same_cntlrs _ _ Hs1), ?Hbk1; try done; [by rewrite (same_block _ _ Hs1)|by apply Hstay|].
  rewrite E2. cbn [rbind]. exists w, h2. rewrite Hbk1 in Hl2, Hm2, Ho2. split; [done|]. split; [done|].
  split; [done|]. split; [by etrans|]. split; [by rewrite Hl2|].
  assert (Hlev1 : level h1 (m_master c) = level h (m_master c)) by (unfold level; by rewrite (same_cntlrs _ _ Hs1)).
  split.
  - eapply moved_trans; [exact Hs1|eapply moved_weaken; [|exact Hm1]; lia|]. by rewrite <- Hlev1.
  - intros _ x Hx. pose proof (siblings_level _ _ _ _ Ht Hx) as Hlx. rewrite Ho2 by (intros ->; lia).
    apply Hstay; [lia|by apply Hsib].
Qed.

(** The line of a requester that is one of the previous levels is gone. *)
Definition released h (m requester : nat) (t : Z) : Prop := requester ∈ prevs h m -> lines h requester t = None.

(** The hit case of a request. *)
Lemma request_hit_ok h id c requester op a count :
  hinv h -> h_cntlrs h !! id = Some c -> address a -> a mod h_block h = 0 ->
  permissible op (default CacheState.INVALID (lines h (m_master c) (block h a))) = true ->
  exists w h', serve_hit id requester op a h = Ok (w, h') /\ located w /\ served c requester op (block h a) h h' /\
    exists d h'', retrieveCacheBlock id a count h' = Ok (d, h'') /\ served c requester op (block h a) h h''.
Proof.
  intros Hi Hc Ha Hal Hhit.
  destruct (serve_hit_ok h id c requester op a Hi Hc Ha Hal Hhit) as (w & h2 & E2 & Hw & Hi2 & Hs2 & Hl2 & Hm2 & Hx2).
  assert (Hserved : served c requester op (block h a) h h2) by (split_and!; try done; by rewrite Hl2).
  destruct (permitted_present _ _ Hhit) as [s Hs].
  destruct (retrieve_hinv h2 id c a count s Hi2) as (d & h3 & E3 & Hi3 & Hs3 & Hk3); try done.
  { by rewrite (same_cntlrs _ _ Hs2). }
  { by rewrite (same_block _ _ Hs2). }
  { unfold block. rewrite (same_block _ _ Hs2). fold (block h a). by rewrite Hl2. }
  exists w, h2. do 3 (split; [done|]). exists d, h3. split; [done|]. by eapply served_keeps.
Qed.

(** The state in which a miss goes on: the siblings have given the block up. *)
Record quiet (c : Cntlr) (requester : nat) (t : Z) h h' : Prop := mkQuiet {
  q_inv : hinv h';
  q_same : same h h';
  q_moved : moved (level h (m_master c)) t h h';
  q_siblings : forall x, siblings h (m_master c) requester x -> lines h' x t = None;
  q_released : released h' (m_master c) requester t
}.

Lemma snoop_quiet h id c requester op a info :
  hinv h -> h_cntlrs h !! id = Some c -> address a -> a mod h_block h = 0 ->
  released h (m_master c) requester (block h a) ->
  permissible op (default CacheState.INVALID (lines h (m_master c) (block h a))) = false ->
  option_map m_cstate info = lines h (m_master c) (block h a) ->
  exists h', (if bool_decide (cstate_of info = CacheState.SHARED) then
      let! (_, h) := snoop_siblings id requester a CacheState.INVALID h in Ok h else Ok h) = Ok h' /\
    quiet c requester (block h a) h h' /\
    lines h' (m_master c) (block h a) = lines h (m_master c) (block h a).
Proof.
  intros Hi Hc Ha Hal Hrel Hhit Hin.
  destruct (not_permitted _ _ Hhit (fun s Hs => i_states _ Hi _ _ s Hs)) as [Hnone|[Hsh Hop]].
  - rewrite Hnone in Hin. destruct info; [done|]. cbn [cstate_of]. rewrite bool_decide_eq_false_2 by done.
    exists h. split; [done|]. split; [|done]. split; [done..|apply moved_refl| |done].
    intros x (p & Hp & _ & Hb). eapply absent_below; [apply (i_ordered _ Hi)| |exact Hnone]. by econstructor.
  - rewrite Hsh in Hin. apply fmap_Some in Hin as (b & -> & Hb). cbn [cstate_of]. rewrite bool_decide_eq_true_2 by done.
    destruct (snoop_ok h id c requester a CacheState.INVALID Hi Hc Ha Hal) as (hit & h2 & E2 & Hi2 & Hs2 & Hl2 & Ho2);
      [by left|]. rewrite E2. cbn [rbind]. exists h2. split; [done|]. split; [|done].
    split; [done..|eapply moved_lowered; [by left|exact Hl2]|apply (proj2 Hl2)|].
    intros Hr. rewrite (same_prevs _ _ Hs2) in Hr.
    destruct Hl2 as [A _]. destruct (A requester (block h a)) as [->|(_ & _ & ->)]; [by apply Hrel|done].
Qed.

(** The controller gives up its own line before it asks the next level. *)
Lemma drop_quiet h h2 id c requester op a info :
  h_cntlrs h !! id = Some c -> address a -> quiet c requester (block h a) h h2 ->
  permissible op (default CacheState.INVALID (lines h2 (m_master c) (block h a))) = false ->
  option_map m_cstate info = lines h2 (m_master c) (block h a) ->
  exists h', match info with Some _ => invalidateCacheBlock id a h2 | None => Ok h2 end = Ok h' /\
    quiet c requester (block h a) h h' /\ lines h' (m_master c) (block h a) = None.
Proof.
  intros Hc Ha Hq Hhit Hin. destruct Hq as [Hi2 Hs2 Hm2 Hx2 Hr2].
  destruct (not_permitted _ _ Hhit (fun s Hs => i_states _ Hi2 _ _ s Hs)) as [Hnone|[Hsh Hop]].
  { rewrite Hnone in Hin. destruct info; [done|]. by exists h2. }
  rewrite Hsh in Hin. destruct info; [|done].
  assert (Hbk2 : block h2 a = block h a) by (unfold block; by rewrite (same_block _ _ Hs2)).
  destruct (drop_line_ok h2 id c a Hi2) as (h3 & E3 & Hi3 & Hs3 & Hl3);
    [by rewrite (same_cntlrs _ _ Hs2)|done|by rewrite Hbk2| |].
  - intros p Hp. rewrite Hbk2. destruct (Nat.eqb_spec p requester) as [->|Hne]; [by apply Hr2|].
    rewrite (same_prevs _ _ Hs2) in Hp. apply Hx2. exists p. split; [done|]. split; [by apply Nat.eqb_neq|constructor].
  - rewrite Hbk2 in Hl3. exists h3. split; [done|]. split; [|by rewrite Hl3, decide_True].
    split; [done|by etrans| | |].
    + eapply moved_trans; [exact Hs2|exact Hm2|]. intros x t. rewrite Hl3. left. case_decide; [by right; left|by left].
    + intros x Hx. rewrite Hl3. case_decide; [done|by apply Hx2].
    + intros Hr. rewrite (same_prevs _ _ Hs3) in Hr. rewrite Hl3. case_decide; [done|by apply Hr2].
Qed.

Lemma served_quiet c requester op t h h1 h2 :
  quiet c requester t h h1 -> served c requester op t h1 h2 -> served c requester op t h h2.
Proof.
  intros [Hi1 Hs1 Hm1 _ _] (Hi2 & Hs2 & Hp2 & Hm2 & Hx2).
  assert (Hlev : level h1 (m_master c) = level h (m_master c)) by (unfold level; by rewrite (same_cntlrs _ _ Hs1)).
  rewrite Hlev in Hm2. split; [done|]. split; [by etrans|]. split; [done|]. split; [by eapply moved_trans|].
  intros Hop x (p & Hp & Hne & Hb). apply Hx2; [done|]. exists p. rewrite (same_prevs _ _ Hs1).
  split; [done|]. split; [done|]. by apply (below_same h h1).
Qed.

(** The miss case, once the siblings are quiet. *)
Lemma request_miss_ok h h2 id c requester op a info rec :
  hinv h -> h_cntlrs h !! id = Some c -> address a -> a mod h_block h = 0 ->
  quiet c requester (block h a) h h2 ->
  permissible op (default CacheState.INVALID (lines h2 (m_master c) (block h a))) = false ->
  option_map m_cstate info = lines h2 (m_master c) (block h a) ->
  (forall n nc h3, h_cntlrs h3 !! n = Some nc -> m_next_cache_cntlr c = Some n -> quiet c requester (block h a) h h3 ->
    lines h3 (m_master c) (block h a) = None ->
    exists w h', rec n h3 = Ok (w, h') /\ located w /\ served nc id op (block h a) h3 h') ->
  exists w h', (match m_next_cache_cntlr c with
      | Some next =>
          let! h := match info with Some _ => invalidateCacheBlock id a h2 | None => Ok h2 end in
          let! (w, h) := rec next h in
          if bool_decide (w <> MISS) then let! h := copyDataFromNextLevel id op a h in Ok (true, w, h)
          else Ok (false, w, h)
      | None => serve_last_level_miss id requester op a h2
      end) = Ok (true, w, h') /\ located w /\ served c requester op (block h a) h h'.
Proof.
  intros Hi Hc Ha Hal Hq Hhit Hin Hrec. pose proof (i_topo _ Hi) as Ht.
  destruct (m_next_cache_cntlr c) as [n|] eqn:Hn.
  - destruct (drop_quiet h h2 id c requester op a info Hc Ha Hq Hhit Hin) as (h3 & E3 & Hq3 & Hl3).
    rewrite E3. cbn [rbind]. pose proof Hq3 as [Hi3 Hs3 _ Hx3 _].
    destruct (next_prevs h id c n Ht Hc Hn) as (nc & Hnc & _).
    assert (Hnc3 : h_cntlrs h3 !! n = Some nc) by (by rewrite (same_cntlrs _ _ Hs3)).
    assert (Hbk3 : block h3 a = block h a) by (unfold block; by rewrite (same_block _ _ Hs3)).
    destruct (miss_next_ok h3 id c n nc requester op a (rec n) Hi3) as (w & h4 & E4 & Hw & Hs4);
      rewrite ?(same_cntlrs _ _ Hs3), ?(same_block _ _ Hs3), ?Hbk3; try done.
    + intros x (p & Hp & Hne & Hb). apply Hx3. exists p. rewrite <- (same_prevs _ _ Hs3).
      split; [done|]. split; [done|]. by apply (below_same h h3).
    + by eapply Hrec.
    + exists w, h4. rewrite Hbk3 in Hs4. split; [exact E4|]. split; [done|]. by eapply served_quiet.
  - pose proof Hq as [Hi2 Hs2 Hm2 Hx2 _].
    assert (Hbk2 : block h2 a = block h a) by (unfold block; by rewrite (same_block _ _ Hs2)).
    destruct (last_level_ok h2 id c requester op a Hi2) as (w & h3 & E3 & Hw & Hi3 & Hs3 & Hp3 & Hm3 & Ho3);
      rewrite ?(same_cntlrs _ _ Hs2), ?Hbk2; try done.
    { by apply not_permitted; [|intros s; apply (i_states _ Hi2)]. }
    rewrite Hbk2 in *. exists w, h3. split; [exact E3|]. split; [done|]. eapply served_quiet; [done|].
    split_and!; try done. intros _ x Hx. pose proof (siblings_level _ _ _ _ (i_topo _ Hi2) Hx) as Hlx.
    rewrite Ho3 by (intros ->; lia). destruct Hx as (p & Hp & Hne & Hb). apply Hx2. exists p.
    rewrite <- (same_prevs _ _ Hs2). split; [done|]. split; [done|]. by apply (below_same h h2).
Qed.

(** What served the caller is unchanged by the counting before it. *)
Lemma served_from c requester op t h h1 h2 :
  same h h1 -> keeps_lines h h1 -> served c requester op t h1 h2 -> served c requester op t h h2.
Proof.
  intros Hs1 Hk1 (Hi2 & Hs2 & Hp2 & Hm2 & Hx2).
  assert (Hlev : level h1 (m_master c) = level h (m_master c)) by (unfold level; by rewrite (same_cntlrs _ _ Hs1)).
  rewrite Hlev in Hm2. split; [done|]. split; [by etrans|]. split; [done|].
  split; [eapply moved_trans; [done|by apply moved_keeps|done]|].
  intros Hop x (p & Hp & Hne & Hb). apply Hx2; [done|]. exists p. rewrite (same_prevs _ _ Hs1).
  split; [done|]. split; [done|]. by apply (below_same h h1).
Qed.

(** A request to any level succeeds, given fuel for the levels above it. *)
Lemma request_ok fuel : forall id c requester op a count onCacheMiss h,
  hinv h -> h_cntlrs h !! id = Some c -> address a -> a mod h_block h = 0 ->
  released h (m_master c) requester (block h a) ->
  Z.of_nat (length (h_cntlrs h)) + 2 - m_mem_component c <= Z.of_nat fuel ->
  exists w h', processShmemReqFromPrevCache fuel id requester op a count onCacheMiss h = Ok (w, h') /\
    located w /\ served c requester op (block h a) h h'.
Proof.
  induction fuel as [|fuel IH]; intros id c requester op a count onCacheMiss h Hi Hc Ha Hal Hrel Hf.
  { pose proof (t_range _ (i_topo _ Hi) id c Hc). lia. }
  pose proof (t_plain _ (i_topo _ Hi) _ _ Hc) as (Hpf & Hpt & _ & _).
  cbn [processShmemReqFromPrevCache]. unfold cntlr at 1. rewrite Hc. cbn [of_option rbind].
  rewrite (permissible_ok h id c) by (try apply Hi; done). cbn [rbind].
  destruct (info_ok h id c a (i_wf _ Hi) Hc Ha) as (info & Ei & Hin). rewrite Ei. cbn [rbind].
  rewrite no_cbpred by done. cbn [rbind]. rewrite with_sw_same, Hpf, Hpt. cbn [andb rbind].
  rewrite !andb_false_r. cbn [andb rbind].
  destruct (maybe_count_ok h id c count (permissible op (default CacheState.INVALID (lines h (m_master c) (block h a)))) Hi Hc)
    as (h1 & E1 & Hi1 & Hs1 & Hk1). rewrite E1. cbn [rbind].
  assert (Hc1 : h_cntlrs h1 !! id = Some c) by (by rewrite (same_cntlrs _ _ Hs1)).
  assert (Hbk1 : block h1 a = block h a) by (unfold block; by rewrite (same_block _ _ Hs1)).
  assert (Hal1 : a mod h_block h1 = 0) by (by rewrite (same_block _ _ Hs1)).
  destruct (permissible op _) eqn:Hhit.
  - destruct (request_hit_ok h1 id c requester op a (true && count) Hi1 Hc1 Ha Hal1) as (w & h2 & E2 & Hw & _ & d & h3 & E3 & Hs3);
      [by rewrite Hbk1, Hk1|]. rewrite E2. cbn [rbind]. rewrite E3. cbn [rbind]. rewrite Hbk1 in Hs3.
    exists w, h3. split; [done|]. split; [done|]. by eapply served_from.
  - destruct (snoop_quiet h1 id c requester op a info Hi1 Hc1 Ha Hal1) as (h2 & E2 & Hq2 & Ho2);
      rewrite ?Hbk1, ?Hk1; try done.
    { intros Hr. rewrite Hk1. apply Hrel. by rewrite <- (same_prevs _ _ Hs1). }
    rewrite E2. cbn [rbind].
    destruct (request_miss_ok h1 h2 id c requester op a info
      (fun n h => processShmemReqFromPrevCache fuel n id op a count onCacheMiss h) Hi1 Hc1 Ha Hal1 Hq2)
      as (w & h3 & E3 & Hw & Hs3); rewrite ?Ho2, ?Hbk1, ?Hk1; try done.
    { intros n nc h3 Hnc Hn Hq3 Hl3. pose proof Hq3 as [Hi3 Hs3 _ _ _].
      assert (Hs03 : same h h3) by (by etrans).
      assert (Hbk3 : block h3 a = block h a) by (unfold block; by rewrite (same_block _ _ Hs03)).
      rewrite <- Hbk3. apply IH; rewrite ?(same_block _ _ Hs03); try done.
      - intros Hr. destruct (t_prev _ (i_topo _ Hi3) _ _ Hr) as (pc & ? & ? & Hpc & Hpm & _).
        rewrite (same_cntlrs _ _ Hs03) in Hpc. assert (pc = c) as -> by congruence. by rewrite <- Hpm, Hbk3.
      - rewrite (same_cntlrs _ _ Hs03) in Hnc |- *.
        destruct (next_prevs h id c n (i_topo _ Hi) Hc Hn) as (nc' & Hnc' & _ & _ & Hlev).
        rewrite !(level_master h _ _ (i_topo _ Hi)) in Hlev by eassumption. assert (nc' = nc) as -> by congruence. lia. }
    rewrite E3. cbn [rbind]. rewrite Hbk1 in Hs3. pose proof Hs3 as (Hi3 & Hs13 & Hp3 & _).
    destruct (permitted_present _ _ Hp3) as [s Hs]. assert (Hs03 : same h h3) by (by etrans).
    destruct (retrieve_hinv h3 id c a (false && count) s Hi3) as (d & h4 & E4 & Hi4 & Hs4 & Hk4); try done;
      [by rewrite (same_cntlrs _ _ Hs03)|by rewrite (same_block _ _ Hs03)|unfold block; by rewrite (same_block _ _ Hs03)|].
    rewrite E4. cbn [rbind]. exists w, h4. split; [done|]. split; [done|]. apply (served_from _ _ _ _ h h1); [done..|]. by eapply served_keeps.
Qed.
End req.
