(* ===== verification/HierOps.v ===== *)
(** Operations of the cores: processMemOpFromCore at the first level, and the
    state a read finds when a level above holds the block MODIFIED. *)
From stdpp Require Import base numbers list gmap strings.
From Stdlib Require Import ZArith Lia Bool.
From S2P Require Import Prelude Utils CacheBlock CacheBase Replacement CacheSet Cache Queues DirectoryCntlr SwLlc Hierarchy HierView HierLower HierInsert HierInv HierReq.
Open Scope Z_scope.

Section ops.
Context {P : Type} `{AlwaysReplaces P} `{!EnvFrame P}.
Implicit Types h : Hier P.

(** An operation on part of one block, sent to a first-level controller. *)
Record valid_op h (o : MemOp) (c : Cntlr) : Prop := mkValid {
  v_cntlr : h_cntlrs h !! op_cntlr o = Some c;
  v_next : is_Some (m_next_cache_cntlr c);
  v_first : prevs h (m_master c) = [];
  v_address : address (op_address o);
  v_end : address (op_address o + op_offset o);
  v_aligned : op_address o mod h_block h = 0;
  v_offset : 0 <= op_offset o < h_block h;
  v_length : 0 <= op_length o;
  v_fits : op_offset o + op_length o <= h_block h
}.

(** The rights a controller has to the block of an address. *)
Definition allowed h (op : mem_op_t) (c : Cntlr) (a : Z) : bool :=
  permissible op (default CacheState.INVALID (lines h (m_master c) (block h a))).

Lemma valid_same h h' o c : same h h' -> valid_op h o c -> valid_op h' o c.
Proof.
  intros Hs []. split; rewrite ?(same_cntlrs _ _ Hs), ?(same_prevs _ _ Hs), ?(same_block _ _ Hs); done.
Qed.

Lemma block_power h id c : hwf h -> h_cntlrs h !! id = Some c -> exists k, 0 <= k <= 31 /\ h_block h = 2 ^ k.
Proof.
  intros Hwf Hc. destruct (hwf_get _ _ _ Hwf Hc) as [M HM].
  destruct (wf_master _ Hwf _ _ HM) as (n & _ & Hcw & Hbs & _). rewrite <- Hbs.
  destruct (wf_base _ _ _ Hcw) as ((k & Hk & Hbk & _) & _). exists k. split; [lia|done].
Qed.

(** The two checks of the arguments. *)
Lemma op_checks h o c : hwf h -> valid_op h o c ->
  (Z.land (op_address o) (h_block h - 1) =? 0) = true /\ (u32 (op_offset o + op_length o) <=? h_block h) = true.
Proof.
  intros Hwf [Hc _ _ _ _ Hal Ho Hl Hf]. destruct (block_power h _ c Hwf Hc) as (k & Hk & Hb).
  split; [rewrite Hb, land_ones_mod, <- Hb by lia; by apply Z.eqb_eq|].
  rewrite u32_small; [by apply Z.leb_le|].
  assert (2 ^ k <= 2 ^ 31) by (apply Z.pow_le_mono_r; lia). lia.
Qed.

Lemma op_fits h o c : valid_op h o c ->
  fits h (op_address o + op_offset o) (op_length o) /\ block h (op_address o + op_offset o) = block h (op_address o).
Proof.
  intros [_ _ _ _ _ Hal Ho Hl Hf]. unfold fits, block.
  assert (op_address o = h_block h * (op_address o / h_block h)) as E by (apply Z.div_exact; lia).
  rewrite E, (Z.add_comm _ (op_offset o)), (Z.mul_comm (h_block h)).
  rewrite Z.mod_add, Z.div_add, Z.mod_small, Z.div_small, Z.div_mul by lia. lia.
Qed.

(** Reading or writing the line: nothing but its data and its age changes. *)
Lemma accessCache_ok h o c upd :
  hinv h -> valid_op h o c ->
  exists d h', accessCache (op_cntlr o) o upd h = Ok (d, h') /\ hinv h' /\ same h h' /\ keeps_lines h h'.
Proof.
  intros Hi Hv. destruct (op_fits h o c Hv) as [Hfit Hblk]. pose proof (v_cntlr _ _ _ Hv) as Hc.
  pose proof (t_plain _ (i_topo _ Hi) _ _ Hc) as (_ & _ & _ & Hwt).
  unfold accessCache. unfold cntlr at 1. rewrite Hc. cbn [of_option rbind]. rewrite Hwt.
  assert (Hacc : forall t want buf, exists info d h', access (op_cntlr o) (op_address o + op_offset o) t want buf
    (op_length o) upd h = Ok (info, d, h') /\ hinv h' /\ same h h' /\ keeps_lines h h').
  { intros t want buf. destruct (access_ok h _ c (op_address o + op_offset o) t want buf (op_length o) upd
      (i_wf _ Hi) Hc (v_end _ _ _ Hv) Hfit) as (info & d & h' & E & _ & Hs & Hw & He & Hk).
    exists info, d, h'. split; [done|]. split; [by eapply hinv_keeps|done]. }
  destruct (op_type o).
  1, 2: destruct (Hacc LOAD (bool_decide (is_Some (op_data o))) None) as (info & d & h' & E & R);
    rewrite E; exists d, h'; by split.
  destruct (Hacc STORE false (op_data o)) as (info & d & h' & E & R). rewrite E. exists None, h'. by split.
Qed.

(** What an operation of a core achieves. *)
Definition achieved o c h h' : Prop :=
  hinv h' /\ same h h' /\ allowed h' (op_type o) c (op_address o) = true /\
  forall t, t <> block h (op_address o) -> forall x, le_line (lines h' x t) (lines h x t).

Lemma moved_other lev t h h' : moved lev t h h' ->
  forall t', t' <> t -> forall x, le_line (lines h' x t') (lines h x t').
Proof. intros Hm t' Ht x. by destruct (Hm x t') as [|[? _]]. Qed.

(** The hit case of an operation. *)
Lemma op_hit_ok h o c :
  hinv h -> valid_op h o c -> allowed h (op_type o) c (op_address o) = true ->
  exists h1 d h', clear_warmup (op_cntlr o) (op_address o) h = Ok h1 /\
    accessCache (op_cntlr o) o (op_count o) h1 = Ok (d, h') /\ achieved o c h h' /\ keeps_lines h h'.
Proof.
  intros Hi Hv Hhit. destruct (permitted_present _ _ Hhit) as [s Hs].
  destruct (clear_warmup_ok h _ c _ s Hi (v_cntlr _ _ _ Hv) (v_address _ _ _ Hv) Hs) as (h1 & E1 & Hi1 & Hs1 & Hk1).
  destruct (accessCache_ok h1 o c (op_count o) Hi1 (valid_same _ _ _ _ Hs1 Hv)) as (d & h2 & E2 & Hi2 & Hs2 & Hk2).
  assert (Hs02 : same h h2) by (by etrans).
  assert (Hk : keeps_lines h h2) by (intros x t; by rewrite Hk2, Hk1).
  exists h1, d, h2. do 2 (split; [done|]). split; [|done]. split; [done|]. split; [done|]. split.
  - unfold allowed, block. rewrite (same_block _ _ Hs02), Hk. exact Hhit.
  - intros t _ x. rewrite Hk. by left.
Qed.

(** The data of the block comes from the next level. *)
Lemma fill_first_level_ok h o c n nc w :
  hinv h -> valid_op h o c -> m_next_cache_cntlr c = Some n -> h_cntlrs h !! n = Some nc ->
  lines h (m_master c) (block h (op_address o)) = None -> allowed h (op_type o) nc (op_address o) = true ->
  exists d h', fill_first_level o w h = Ok (w, d, h') /\ achieved o c h h'.
Proof.
  intros Hi Hv Hn Hnc Hmiss Hp. pose proof (v_cntlr _ _ _ Hv) as Hc.
  destruct (copy_ok h _ c n nc (op_type o) _ Hi Hc Hn Hnc (v_address _ _ _ Hv) (v_aligned _ _ _ Hv) Hmiss Hp)
    as (h1 & E1 & Hi1 & Hs1 & Hl1 & Hm1 & _).
  assert (Hbk : forall h', same h h' -> block h' (op_address o) = block h (op_address o))
    by (intros h' Hs'; unfold block; by rewrite (same_block _ _ Hs')).
  assert (Hv1 : valid_op h1 o c) by (by eapply valid_same).
  assert (Hp1 : allowed h1 (op_type o) c (op_address o) = true)
    by (unfold allowed; rewrite Hbk, Hl1 by done; exact Hp).
  unfold fill_first_level. unfold cntlr at 1. rewrite Hc. cbn [of_option rbind]. rewrite E1. cbn [rbind].
  rewrite (permissible_ok h1 _ c) by (try apply Hi1; apply Hv1). cbn [rbind].
  unfold allowed in Hp1. rewrite Hp1. cbn [rguard].
  destruct (accessCache_ok h1 o c (bool_decide (w = At (m_mem_component c) false) && op_count o) Hi1 Hv1)
    as (d & h2 & E2 & Hi2 & Hs2 & Hk2). rewrite E2. cbn [rbind].
  exists d, h2. split; [done|]. assert (Hs02 : same h h2) by (by etrans). split; [done|]. split; [done|]. split.
  - unfold allowed. rewrite Hbk, Hk2, <- (Hbk h1) by done. exact Hp1.
  - intros t Ht x. rewrite Hk2. by eapply moved_other.
Qed.

(** The first level gives up a line it may not use as the operation wants. *)
Lemma op_drop_ok h o c :
  hinv h -> valid_op h o c -> allowed h (op_type o) c (op_address o) = false ->
  exists h', (if bool_decide (default CacheState.INVALID (lines h (m_master c) (block h (op_address o))) <> CacheState.INVALID)
      then invalidateCacheBlock (op_cntlr o) (op_address o) h else Ok h) = Ok h' /\
    hinv h' /\ same h h' /\ lines h' (m_master c) (block h (op_address o)) = None /\
    (forall x t, le_line (lines h' x t) (lines h x t)).
Proof.
  intros Hi Hv Hhit.
  destruct (not_permitted _ _ Hhit (fun s Hs => i_states _ Hi _ _ s Hs)) as [Hnone|[Hsh _]].
  - rewrite Hnone. exists h. split_and!; try done. intros x t. by left.
  - destruct (drop_line_ok h _ c _ Hi (v_cntlr _ _ _ Hv) (v_address _ _ _ Hv) Hsh) as (h' & E & Hi' & Hs' & Hl').
    { intros p. rewrite (v_first _ _ _ Hv). intros Hp. by apply elem_of_nil in Hp. }
    rewrite Hsh. exists h'. split; [exact E|]. do 2 (split; [done|]). split; [by rewrite Hl', decide_True|].
    intros x t. rewrite Hl'. case_decide; [by right; left|by left].
Qed.

(** The miss case: the next level serves the request, then the line is copied. *)
Lemma op_miss_ok h o c n count :
  hinv h -> valid_op h o c -> m_next_cache_cntlr c = Some n ->
  lines h (m_master c) (block h (op_address o)) = None ->
  exists w h1 d h', processShmemReqFromPrevCache (depth h) n (op_cntlr o) (op_type o) (op_address o) count true h = Ok (w, h1) /\
    located w /\ fill_first_level o w h1 = Ok (w, d, h') /\ achieved o c h h'.
Proof.
  intros Hi Hv Hn Hmiss. pose proof (v_cntlr _ _ _ Hv) as Hc. pose proof (i_topo _ Hi) as Ht.
  destruct (next_prevs h _ c n Ht Hc Hn) as (nc & Hnc & _ & _ & Hlev).
  destruct (request_ok (depth h) n nc (op_cntlr o) (op_type o) (op_address o) count true h Hi Hnc
    (v_address _ _ _ Hv) (v_aligned _ _ _ Hv)) as (w & h1 & E1 & Hw & Hi1 & Hs1 & Hp1 & Hm1 & _).
  { intros Hr. destruct (t_prev _ Ht _ _ Hr) as (pc & _ & _ & Hpc & Hpm & _).
    assert (pc = c) as -> by congruence. by rewrite <- Hpm at 1. }
  { pose proof (t_range _ Ht _ _ Hnc). unfold depth. lia. }
  assert (Hbk : block h1 (op_address o) = block h (op_address o)) by (unfold block; by rewrite (same_block _ _ Hs1)).
  destruct (fill_first_level_ok h1 o c n nc w Hi1) as (d & h2 & E2 & Hi2 & Hs2 & Ha2 & Ho2);
    [by eapply valid_same|done|by rewrite (same_cntlrs _ _ Hs1)| |by unfold allowed; rewrite Hbk|].
  - rewrite Hbk. destruct (Hm1 (m_master c) (block h (op_address o))) as [Hle|[_ ?]]; [|lia].
    rewrite Hmiss in Hle. by destruct Hle as [?|[?|[? _]]].
  - exists w, h1, d, h2. do 3 (split; [done|]). split; [done|]. split; [by etrans|]. split; [done|].
    rewrite Hbk in Ho2. intros t Ht' x. eapply le_line_trans; [by apply Ho2|by eapply moved_other].
Qed.

(** Every operation of a core completes at once; an unlocking one finds the line
    its locking counterpart left. *)
Lemma op_ok h o c :
  hinv h -> valid_op h o c -> (op_lock o = UNLOCK -> allowed h (op_type o) c (op_address o) = true) ->
  exists w d h', processMemOpFromCore o h = Ok (Done w d, h') /\ located w /\ achieved o c h h' /\
    (allowed h (op_type o) c (op_address o) = true -> w = At (m_mem_component c) false /\ keeps_lines h h').
Proof.
  intros Hi Hv Hun. pose proof (v_cntlr _ _ _ Hv) as Hc. pose proof (i_wf _ Hi) as Hwf.
  pose proof (t_plain _ (i_topo _ Hi) _ _ Hc) as (Hpf & Hpt & _ & _).
  destruct (op_checks h o c Hwf Hv) as [C1 C2]. pose proof (v_address _ _ _ Hv) as Ha.
  unfold processMemOpFromCore. unfold cntlr at 1. rewrite Hc. cbn [of_option rbind]. rewrite C1, C2. cbn [rguard].
  rewrite (permissible_ok h _ c) by done. cbn [rbind].
  destruct (info_ok h _ c _ Hwf Hc Ha) as (info & Ei & _). rewrite Ei. cbn [rbind].
  rewrite Hpf, Hpt, !andb_false_r. cbn [rbind]. fold (allowed h (op_type o) c (op_address o)).
  destruct (maybe_count_ok h _ c (op_count o) (allowed h (op_type o) c (op_address o)) Hi Hc)
    as (h1 & E1 & Hi1 & Hs1 & Hk1). rewrite E1. cbn [rbind].
  assert (Hv1 : valid_op h1 o c) by (by eapply valid_same).
  assert (Hbk : block h1 (op_address o) = block h (op_address o)) by (unfold block; by rewrite (same_block _ _ Hs1)).
  assert (Hall : allowed h1 (op_type o) c (op_address o) = allowed h (op_type o) c (op_address o))
    by (unfold allowed; by rewrite Hbk, Hk1).
  assert (Hfrom : forall h2, achieved o c h1 h2 -> achieved o c h h2).
  { intros h2 (? & ? & ? & Ho). split; [done|]. split; [by etrans|]. split; [done|].
    intros t Ht x. rewrite <- Hk1. apply Ho. by rewrite Hbk. }
  destruct (allowed h _ _ _) eqn:Hhit.
  - destruct (op_hit_ok h1 o c Hi1 Hv1 Hall) as (h2 & d & h3 & E2 & E3 & Hach & Hk). rewrite E2. cbn [rbind].
    rewrite E3. cbn [rbind]. eexists _, d, h3. split; [done|].
    split; [by eapply At_located; [apply Hi|]|]. split; [by apply Hfrom|].
    intros _. split; [done|]. intros x t. by rewrite Hk, Hk1.
  - rewrite bool_decide_eq_false_2 by (intros Hu; by specialize (Hun Hu)). cbn [negb rguard].
    rewrite (state_ok h1 _ c) by (try apply Hi1; apply Hv1). cbn [rbind].
    destruct (op_drop_ok h1 o c Hi1 Hv1 Hall) as (h2 & E2 & Hi2 & Hs2 & Hl2 & Hle2). rewrite E2. cbn [rbind].
    destruct (v_next _ _ _ Hv) as [n Hn]. rewrite Hn. cbn [of_option rbind].
    assert (Hbk2 : block h2 (op_address o) = block h1 (op_address o)) by (unfold block; by rewrite (same_block _ _ Hs2)).
    destruct (op_miss_ok h2 o c n (op_count o) Hi2) as (w & h3 & d & h4 & E3 & Hw & E4 & Hi4 & Hs4 & Ha4 & Ho4);
      [by eapply valid_same|done|by rewrite Hbk2|].
    rewrite E3. cbn [rbind]. rewrite bool_decide_eq_true_2 by apply Hw. rewrite E4. cbn [rbind].
    exists w, d, h4. split; [done|]. split; [done|]. split; [|done]. apply Hfrom. split; [done|]. split; [by etrans|]. split; [done|].
    intros t Ht x. eapply le_line_trans; [apply Ho4; by rewrite Hbk2|apply Hle2].
Qed.
(** ** Reads of a block that a level above holds MODIFIED *)

(** No cache has lost its line of the block. *)
Definition kept (t : Z) h h' : Prop := forall x, is_Some (lines h x t) -> is_Some (lines h' x t).

(** On the way up from a controller, the first level that has the block has it
    MODIFIED. *)
Inductive owned_above h (t : Z) : nat -> Prop :=
| owned_here id c : h_cntlrs h !! id = Some c -> lines h (m_master c) t = Some CacheState.MODIFIED ->
    owned_above h t id
| owned_next id c n : h_cntlrs h !! id = Some c -> lines h (m_master c) t = None ->
    m_next_cache_cntlr c = Some n -> owned_above h t n -> owned_above h t id.

Lemma kept_lines t h h' : keeps_lines h h' -> kept t h h'.
Proof. intros Hk x. by rewrite Hk. Qed.

Lemma kept_trans t h h1 h2 : kept t h h1 -> kept t h1 h2 -> kept t h h2.
Proof. intros H1' H2' x Hx. by apply H2', H1'. Qed.

Lemma owned_above_same h h' t id : same h h' -> keeps_lines h h' -> owned_above h t id -> owned_above h' t id.
Proof.
  intros Hs Hk. induction 1 as [id c Hc Hl|id c n Hc Hl Hn _ IH].
  - apply (owned_here h' t id c); [by rewrite (same_cntlrs _ _ Hs)|by rewrite Hk].
  - apply (owned_next h' t id c n); [by rewrite (same_cntlrs _ _ Hs)|by rewrite Hk|done|done].
Qed.

(** A read that hits a MODIFIED line lowers the siblings and takes nothing away. *)
Lemma serve_read_kept h id c requester a w h' :
  hinv h -> h_cntlrs h !! id = Some c -> address a -> a mod h_block h = 0 ->
  lines h (m_master c) (block h a) = Some CacheState.MODIFIED ->
  serve_hit id requester READ a h = Ok (w, h') -> kept (block h a) h h'.
Proof.
  intros Hi Hc Ha Hal Hs E. unfold serve_hit in E. unfold cntlr at 1 in E. rewrite Hc in E. cbn [of_option rbind] in E.
  destruct (clear_warmup_ok h id c a _ Hi Hc Ha Hs) as (h1 & E1 & Hi1 & Hs1 & Hk1). rewrite E1 in E. cbn [rbind] in E.
  assert (Hc1 : h_cntlrs h1 !! id = Some c) by (by rewrite (same_cntlrs _ _ Hs1)).
  assert (Hbk1 : block h1 a = block h a) by (unfold block; by rewrite (same_block _ _ Hs1)).
  rewrite (state_ok h1 id c), Hbk1, Hk1, Hs in E by (try apply (i_wf _ Hi1); done).
  cbn [from_option Datatypes.id rbind] in E.
  destruct (snoop_ok h1 id c requester a CacheState.SHARED Hi1 Hc1 Ha) as (hit & h2 & E2 & _ & _ & (HA & _) & _);
    [by rewrite (same_block _ _ Hs1)|by right|]. rewrite E2 in E. cbn [rbind] in E.
  apply rbind_Ok_inv in E as (last & _ & E). assert (Hk2 : keeps_lines h2 h').
  { case_bool_decide; apply Ok_inj in E; by simplify_eq. }
  intros x Hx. rewrite Hk2. rewrite <- Hk1 in Hx. destruct (HA x (block h a)) as [-> | (_ & _ & ->)]; [done|].
  destruct Hx as [s ->]. by eexists.
Qed.

Lemma read_hit_modified h id c requester a count :
  hinv h -> h_cntlrs h !! id = Some c -> address a -> a mod h_block h = 0 ->
  lines h (m_master c) (block h a) = Some CacheState.MODIFIED ->
  exists w h1 d h2, serve_hit id requester READ a h = Ok (w, h1) /\ retrieveCacheBlock id a count h1 = Ok (d, h2) /\
    lines h2 (m_master c) (block h a) = Some CacheState.MODIFIED /\ kept (block h a) h h2.
Proof.
  intros Hi Hc Ha Hal Hl.
  destruct (serve_hit_ok h id c requester READ a Hi Hc Ha Hal) as (w & h1 & E1 & _ & Hi1 & Hs1 & Hl1 & _);
    [by rewrite Hl|]. pose proof (serve_read_kept _ _ _ _ _ _ _ Hi Hc Ha Hal Hl E1) as Hkp.
  assert (Hbk1 : block h1 a = block h a) by (unfold block; by rewrite (same_block _ _ Hs1)).
  destruct (retrieve_hinv h1 id c a count CacheState.MODIFIED Hi1) as (d & h2 & E2 & _ & _ & Hk2);
    [by rewrite (same_cntlrs _ _ Hs1)|done|by rewrite (same_block _ _ Hs1)|by rewrite Hbk1, Hl1|].
  exists w, h1, d, h2. do 2 (split; [done|]). split; [by rewrite Hk2, Hl1|].
  eapply kept_trans; [exact Hkp|by apply kept_lines].
Qed.

(** A fill takes the state of the next level over. *)
Lemma copy_modified h id c n nc a :
  hinv h -> h_cntlrs h !! id = Some c -> m_next_cache_cntlr c = Some n -> h_cntlrs h !! n = Some nc ->
  address a -> a mod h_block h = 0 -> lines h (m_master c) (block h a) = None ->
  lines h (m_master nc) (block h a) = Some CacheState.MODIFIED ->
  exists h', copyDataFromNextLevel id READ a h = Ok h' /\ hinv h' /\ same h h' /\
    lines h' (m_master c) (block h a) = Some CacheState.MODIFIED /\ kept (block h a) h h'.
Proof.
  intros Hi Hc Hn Hnc Ha Hal Hmiss Hl.
  destruct (copy_ok h id c n nc READ a Hi) as (h1 & E1 & Hi1 & Hs1 & Hl1 & _ & Ho1); try done; [by rewrite Hl|].
  rewrite Hl in Hl1. exists h1. do 4 (split; [done|]). intros x Hx.
  destruct (decide (x = m_master c)) as [->|Hne]; [by rewrite Hl1|by rewrite Ho1].
Qed.

(** What the level below the one asked does not have, it does not have after
    the request either. *)
Lemma moved_absent h h1 m lev t : moved lev t h h1 -> level h m < lev -> lines h m t = None -> lines h1 m t = None.
Proof.
  intros Hm Hlev Hl. destruct (Hm m t) as [Hle|[_ Hx]]; [|lia].
  rewrite Hl in Hle. by destruct Hle as [?|[?|[? _]]].
Qed.

(** A read request finds such a block with all its rights, on every level it
    passes. *)
Lemma read_request_modified fuel : forall id c requester a count onCacheMiss h w h',
  hinv h -> h_cntlrs h !! id = Some c -> address a -> a mod h_block h = 0 ->
  released h (m_master c) requester (block h a) ->
  Z.of_nat (length (h_cntlrs h)) + 2 - m_mem_component c <= Z.of_nat fuel ->
  owned_above h (block h a) id ->
  processShmemReqFromPrevCache fuel id requester READ a count onCacheMiss h = Ok (w, h') ->
  lines h' (m_master c) (block h a) = Some CacheState.MODIFIED /\ kept (block h a) h h'.
Proof.
  induction fuel as [|fuel IH]; intros id c requester a count onCacheMiss h w h' Hi Hc Ha Hal Hrel Hf Hown E; [done|].
  pose proof (t_plain _ (i_topo _ Hi) _ _ Hc) as (Hpf & Hpt & _ & _).
  cbn [processShmemReqFromPrevCache] in E. unfold cntlr at 1 in E. rewrite Hc in E. cbn [of_option rbind] in E.
  rewrite (permissible_ok h id c) in E by (try apply Hi; done). cbn [rbind] in E.
  destruct (info_ok h id c a (i_wf _ Hi) Hc Ha) as (info & Ei & Hin). rewrite Ei in E. cbn [rbind] in E.
  rewrite no_cbpred in E by done. cbn [rbind] in E. rewrite with_sw_same, Hpf, Hpt in E. cbn [andb rbind] in E.
  rewrite !andb_false_r in E. cbn [andb rbind] in E.
  destruct (maybe_count_ok h id c count (permissible READ (default CacheState.INVALID (lines h (m_master c) (block h a)))) Hi Hc)
    as (h1 & E1 & Hi1 & Hs1 & Hk1). rewrite E1 in E. cbn [rbind] in E.
  assert (Hc1 : h_cntlrs h1 !! id = Some c) by (by rewrite (same_cntlrs _ _ Hs1)).
  assert (Hbk1 : block h1 a = block h a) by (unfold block; by rewrite (same_block _ _ Hs1)).
  assert (Hal1 : a mod h_block h1 = 0) by (by rewrite (same_block _ _ Hs1)).
  pose proof (owned_above_same _ _ _ _ Hs1 Hk1 Hown) as Hown1.
  inversion Hown as [id' c' Hc' Hl Hid|id' c' n Hc' Hl Hn Hnext Hid]; subst id'; assert (c' = c) as -> by congruence; clear Hc' Hown.
  - rewrite Hl in E. cbn [from_option Datatypes.id permissible CacheState.readable] in E.
    destruct (read_hit_modified h1 id c requester a count Hi1 Hc1 Ha Hal1) as (w2 & h2 & d & h3 & E2 & E3 & Hl3 & Hkp);
      [by rewrite Hbk1, Hk1|]. rewrite E2 in E. cbn [rbind andb] in E. rewrite E3 in E. cbn [rbind] in E.
    apply Ok_inj in E. simplify_eq. rewrite Hbk1 in *. split; [done|].
    eapply kept_trans; [by apply kept_lines|done].
  - rewrite Hl in E, Hin. destruct info; [done|]. cbn [from_option Datatypes.id permissible CacheState.readable cstate_of] in E.
    rewrite bool_decide_eq_false_2 in E by done. cbn [rbind] in E. rewrite Hn in E.
    destruct (next_prevs h1 id c n (i_topo _ Hi1) Hc1 Hn) as (nc & Hnc & _ & _ & Hlev).
    assert (Hrel1 : released h1 (m_master nc) id (block h1 a)).
    { intros Hr. destruct (t_prev _ (i_topo _ Hi1) _ _ Hr) as (pc & ? & ? & Hpc & Hpm & _).
      assert (pc = c) as -> by congruence. by rewrite <- Hpm, Hbk1, Hk1. }
    assert (Hf1 : Z.of_nat (length (h_cntlrs h1)) + 2 - m_mem_component nc <= Z.of_nat fuel).
    { pose proof Hlev as Hlev'. rewrite !(level_master h1 _ _ (i_topo _ Hi1)) in Hlev' by eassumption.
      rewrite (same_cntlrs _ _ Hs1). lia. }
    destruct (request_ok fuel n nc id READ a count onCacheMiss h1 Hi1 Hnc Ha Hal1 Hrel1 Hf1)
      as (w2 & h2 & E2 & Hw2 & Hi2 & Hs2 & _ & Hm2 & _).
    destruct (IH n nc id a count onCacheMiss h1 w2 h2 Hi1 Hnc Ha Hal1 Hrel1 Hf1) as [Hl2 Hkp2]; [|done|].
    { rewrite Hbk1. by eapply owned_above_same. }
    rewrite E2 in E. cbn [rbind] in E. rewrite bool_decide_eq_true_2 in E by apply Hw2.
    assert (Hbk2 : block h2 a = block h a) by (rewrite <- Hbk1; unfold block; by rewrite (same_block _ _ Hs2)).
    rewrite Hbk1 in *.
    destruct (copy_modified h2 id c n nc a Hi2) as (h3 & E3 & Hi3 & Hs3 & Hl3 & Hkp3);
      rewrite ?(same_cntlrs _ _ Hs2), ?(same_block _ _ Hs2), ?Hbk2; try done.
    { eapply moved_absent; [exact Hm2|exact Hlev|by rewrite Hk1]. }
    rewrite Hbk2 in Hl3, Hkp3. rewrite E3 in E. cbn [rbind andb] in E. assert (Hs13 : same h1 h3) by (by etrans).
    destruct (retrieve_hinv h3 id c a false CacheState.MODIFIED Hi3) as (d & h4 & E4 & _ & _ & Hk4);
      [by rewrite (same_cntlrs _ _ Hs13)|done|by rewrite (same_block _ _ Hs13)
      |unfold block in *; by rewrite (same_block _ _ Hs13), Hbk1|].
    rewrite E4 in E. cbn [rbind] in E. apply Ok_inj in E. simplify_eq. split; [by rewrite Hk4|].
    eapply kept_trans; [by apply kept_lines|]. eapply kept_trans; [exact Hkp2|].
    eapply kept_trans; [exact Hkp3|by apply kept_lines].
Qed.

(** The request to the next level and the fill of the first. *)
Lemma read_fill_modified h o c n count :
  hinv h -> valid_op h o c -> op_type o = READ -> m_next_cache_cntlr c = Some n ->
  lines h (m_master c) (block h (op_address o)) = None -> owned_above h (block h (op_address o)) n ->
  exists w h1 d h', processShmemReqFromPrevCache (depth h) n (op_cntlr o) READ (op_address o) count true h = Ok (w, h1) /\
    w <> MISS /\ fill_first_level o w h1 = Ok (w, d, h') /\
    lines h' (m_master c) (block h (op_address o)) = Some CacheState.MODIFIED /\ kept (block h (op_address o)) h h'.
Proof.
  intros Hi Hv Hop Hn Hmiss Hown. pose proof (v_cntlr _ _ _ Hv) as Hc. pose proof (i_topo _ Hi) as Ht.
  pose proof (v_address _ _ _ Hv) as Ha. pose proof (v_aligned _ _ _ Hv) as Hal.
  destruct (next_prevs h _ c n Ht Hc Hn) as (nc & Hnc & _ & _ & Hlev).
  assert (Hrel : released h (m_master nc) (op_cntlr o) (block h (op_address o))).
  { intros Hr. destruct (t_prev _ Ht _ _ Hr) as (pc & _ & _ & Hpc & Hpm & _).
    assert (pc = c) as -> by congruence. by rewrite <- Hpm at 1. }
  assert (Hf : Z.of_nat (length (h_cntlrs h)) + 2 - m_mem_component nc <= Z.of_nat (depth h))
    by (pose proof (t_range _ Ht _ _ Hnc); unfold depth; lia).
  destruct (request_ok (depth h) n nc (op_cntlr o) READ (op_address o) count true h Hi Hnc Ha Hal Hrel Hf)
    as (w & h1 & E1 & Hw & Hi1 & Hs1 & _ & Hm1 & _).
  destruct (read_request_modified _ _ _ _ _ _ _ _ _ _ Hi Hnc Ha Hal Hrel Hf Hown E1) as [Hl1 Hkp1].
  assert (Hbk1 : block h1 (op_address o) = block h (op_address o)) by (unfold block; by rewrite (same_block _ _ Hs1)).
  destruct (fill_first_level_ok h1 o c n nc w Hi1) as (d & h3 & E3 & _);
    [by eapply valid_same|done|by rewrite (same_cntlrs _ _ Hs1)|rewrite Hbk1; by eapply moved_absent
    |by unfold allowed; rewrite Hbk1, Hl1, Hop|].
  exists w, h1, d, h3. split; [done|]. split; [apply Hw|]. split; [done|].
  destruct (copy_modified h1 (op_cntlr o) c n nc (op_address o) Hi1) as (h2 & E2 & Hi2 & Hs2 & Hl2 & Hkp2);
    rewrite ?(same_cntlrs _ _ Hs1), ?(same_block _ _ Hs1), ?Hbk1; try done; [by eapply moved_absent|].
  assert (Hv2 : valid_op h2 o c) by (eapply valid_same; [|exact Hv]; by etrans).
  unfold fill_first_level in E3. unfold cntlr at 1 in E3. rewrite (same_cntlrs _ _ Hs1), Hc in E3.
  cbn [of_option rbind] in E3. rewrite Hop, E2 in E3. cbn [rbind] in E3.
  apply rbind_Ok_inv in E3 as (ok & _ & E3). apply rbind_Ok_inv in E3 as (u & _ & E3).
  destruct (accessCache_ok h2 o c (bool_decide (w = At (m_mem_component c) false) && op_count o) Hi2 Hv2)
    as (d' & h3' & E3' & _ & _ & Hk3). rewrite E3' in E3. cbn [rbind] in E3. apply Ok_inj in E3. simplify_eq.
  rewrite Hbk1 in *. split; [by rewrite Hk3|].
  eapply kept_trans; [exact Hkp1|]. eapply kept_trans; [exact Hkp2|by apply kept_lines].
Qed.

(** A read that misses the first level ends with the line MODIFIED there. *)
Lemma read_op_modified h o c n :
  hinv h -> valid_op h o c -> op_type o = READ -> op_lock o <> UNLOCK -> m_next_cache_cntlr c = Some n ->
  lines h (m_master c) (block h (op_address o)) = None -> owned_above h (block h (op_address o)) n ->
  exists w d h', processMemOpFromCore o h = Ok (Done w d, h') /\ hinv h' /\ same h h' /\
    lines h' (m_master c) (block h (op_address o)) = Some CacheState.MODIFIED /\ kept (block h (op_address o)) h h'.
Proof.
  intros Hi Hv Hop Hun Hn Hmiss Hown.
  destruct (op_ok h o c Hi Hv) as (w & d & h' & E & _ & (Hi' & Hs' & _) & _); [done|].
  exists w, d, h'. do 3 (split; [done|]).
  pose proof (v_cntlr _ _ _ Hv) as Hc. pose proof (i_wf _ Hi) as Hwf. pose proof (v_address _ _ _ Hv) as Ha.
  pose proof (t_plain _ (i_topo _ Hi) _ _ Hc) as (Hpf & Hpt & _ & _). destruct (op_checks h o c Hwf Hv) as [C1 C2].
  unfold processMemOpFromCore in E. unfold cntlr at 1 in E. rewrite Hc in E. cbn [of_option rbind] in E.
  rewrite C1, C2 in E. cbn [rguard rbind] in E.
  rewrite (permissible_ok h _ c), Hmiss, Hop in E by done. cbn [rbind from_option Datatypes.id permissible CacheState.readable] in E.
  destruct (info_ok h _ c _ Hwf Hc Ha) as (info & Ei & _). rewrite Ei in E. cbn [rbind] in E.
  rewrite Hpf, Hpt, !andb_false_r in E. cbn [rbind andb] in E.
  destruct (maybe_count_ok h _ c (op_count o) false Hi Hc) as (h1 & E1 & Hi1 & Hs1 & Hk1). rewrite E1 in E. cbn [rbind] in E.
  rewrite bool_decide_eq_false_2 in E by done. cbn [negb rguard rbind] in E.
  assert (Hv1 : valid_op h1 o c) by (by eapply valid_same).
  assert (Hbk1 : block h1 (op_address o) = block h (op_address o)) by (unfold block; by rewrite (same_block _ _ Hs1)).
  rewrite (state_ok h1 _ c), Hbk1, Hk1, Hmiss in E by (try apply Hi1; apply Hv1). cbn [rbind from_option Datatypes.id] in E.
  rewrite bool_decide_eq_false_2 in E by naive_solver. cbn [rbind] in E. rewrite Hn in E. cbn [of_option rbind] in E.
  destruct (read_fill_modified h1 o c n (op_count o) Hi1 Hv1 Hop Hn) as (w2 & h2 & d2 & h3 & E2 & Hw & E3 & Hl3 & Hkp3);
    [by rewrite Hbk1, Hk1|rewrite Hbk1; by eapply owned_above_same|].
  rewrite E2 in E. cbn [rbind] in E. rewrite bool_decide_eq_true_2 in E by done. rewrite E3 in E. cbn [rbind] in E.
  apply Ok_inj in E. simplify_eq. rewrite Hbk1 in *. split; [done|].
  eapply kept_trans; [by apply kept_lines|done].
Qed.
End ops.
