(* ===== verification/MemoryManager.v ===== *)
(** The memory managers: how MemoryManager
    (common/core/memory_subsystem/parametric_dram_directory_msi/memory_manager.cc)
    builds the cache controllers of a core and links them to each other, and how
    it takes the memory accesses of its core through the TLBs to the hierarchy. *)
From stdpp Require Import base numbers list gmap strings.
From Stdlib Require Import ZArith Lia Bool.
From S2P Require Import Prelude Utils CacheBlock CacheBase Replacement PolicyLru CacheSet Cache Tlb Queues DirectoryCntlr SwLlc Hierarchy.
Open Scope Z_scope.

(** MemComponent::component_t *)
Definition FIRST_LEVEL_CACHE : Z := 2.
Definition L1_ICACHE : Z := 2.
Definition L1_DCACHE : Z := 3.
Definition L2_CACHE : Z := 4.

(** CacheParameters, of a core and a component, as far as the controllers use them. *)
Record CacheParameters := mkParams {
  perfect : bool;
  passthrough : bool;
  coherent : bool;
  writethrough : bool;
  shared_cores : Z
}.

(** What the constructor reads from the configuration; [new_cache] is the Cache
    constructor with the parameters of the core and component, [tlbs_present] tells
    whether none of the three TLBs has size 0. *)
Record MemConfig (P : Type) := mkMemConfig {
  last_level_cache : Z;
  application_cores : Z;
  cache_parameters : Z -> Z -> CacheParameters;
  new_cache : Z -> Z -> result (Cache P);
  dram_direct_access : bool;
  core_list_with_dram_controllers : list Z;
  core_list_with_tag_directories : list Z;
  tlbs_present : bool
}.
Arguments last_level_cache {P} _.
Arguments application_cores {P} _.
Arguments cache_parameters {P} _ _ _.
Arguments new_cache {P} _ _ _.
Arguments dram_direct_access {P} _.
Arguments core_list_with_dram_controllers {P} _.
Arguments core_list_with_tag_directories {P} _.
Arguments tlbs_present {P} _.

Section wiring.
Context {P : Type}.
Implicit Types h : Hier P.
Implicit Types cfg : MemConfig P.

Definition with_cntlrs l h : Hier P :=
  mkHier l (h_masters h) (h_last h) (h_home h) (h_block h) (h_cache_only h) (h_settings h) (h_pfq h)
    (h_sw h) (h_sent h) (h_threads h) (h_finished h).

(** The components of a core, in the order of the loops. *)
Definition components cfg : list Z :=
  seqZ FIRST_LEVEL_CACHE (last_level_cache cfg - FIRST_LEVEL_CACHE + 1).

(** [m_all_cache_cntlrs], and [m_cache_cntlrs] of one core: controllers are
    numbered in the order they are made. *)
Definition getCacheCntlrAt cfg (core_id component : Z) h : result nat :=
  let levels := last_level_cache cfg - FIRST_LEVEL_CACHE + 1 in
  let id := Z.to_nat (core_id * levels + (component - FIRST_LEVEL_CACHE)) in
  guard! (FIRST_LEVEL_CACHE <=? component) && (component <=? last_level_cache cfg) else Undefined in
  guard! (id <? length (h_cntlrs h))%nat else Undefined in
  Ok id.

(** Caches of cores that run no application are not shared. *)
Definition shared_cores_of cfg (core_id component : Z) : Z :=
  if application_cores cfg <=? core_id then 1 else shared_cores (cache_parameters cfg core_id component).

Definition isMasterCache (c : Cntlr) : bool := m_core_id_master c =? m_core_id c.

(** The constructor CacheCntlr::CacheCntlr. *)
Definition new_cntlr cfg (core_id component : Z) h : result (Hier P) :=
  let params := cache_parameters cfg core_id component in
  let shared := shared_cores_of cfg core_id component in
  guard! negb (shared =? 0) else Undefined in
  guard! negb ((component =? last_level_cache cfg) && passthrough params) else LogError in
  let id := length (h_cntlrs h) in
  let c m := mkCntlr component core_id shared m None (perfect params) (passthrough params)
               (coherent params) (writethrough params) in
  let! (m, h) :=
    (if isMasterCache (c id) then
       let! cache := new_cache cfg core_id component in
       Ok (id, with_masters (<[id := mkMaster cache [] None ∅ None]> (h_masters h)) h)
     else
       let! mid := getCacheCntlrAt cfg (m_core_id_master (c id)) component h in
       let! mc := cntlr mid h in
       Ok (m_master mc, h)) in
  Ok (with_last (h_last h ++ [UNKNOWN]) (with_cntlrs (h_cntlrs h ++ [c m]) h)).

Definition with_next (next : nat) (c : Cntlr) : Cntlr :=
  mkCntlr (m_mem_component c) (m_core_id c) (m_shared_cores c) (m_master c) (Some next)
    (m_perfect c) (m_passthrough c) (m_coherent c) (m_cache_writethrough c).
Definition setNextCacheCntlr (id next : nat) h : result (Hier P) :=
  let! c := cntlr id h in Ok (with_cntlrs (<[id := with_next next c]> (h_cntlrs h)) h).

(** The next level of a component below the last level. *)
Definition next_component (component : Z) : Z := if component <=? L1_DCACHE then L2_CACHE else component + 1.

Definition link_next cfg (core_id component : Z) h : result (Hier P) :=
  let! id := getCacheCntlrAt cfg core_id component h in
  let! next := getCacheCntlrAt cfg core_id (next_component component) h in
  setNextCacheCntlr id next h.

Definition push_prev (p : nat) (m : Master P) : Master P :=
  mkMaster (m_cache m) (m_prev_cache_cntlrs m ++ [p]) (m_dram_cntlr m) (m_directory_waiters m) (m_evicting m).
(** [setPrevCacheCntlrs], for one element of the list it is given. *)
Definition setPrevCacheCntlr (id prev : nat) h : result (Hier P) :=
  let! pc := cntlr prev h in
  if isMasterCache pc then
    let! m := master id h in put_master id (push_prev prev m) h
  else Ok h.

Definition link_prev cfg (core_id component : Z) h : result (Hier P) :=
  let! id := getCacheCntlrAt cfg core_id (next_component component) h in
  let! prev := getCacheCntlrAt cfg core_id component h in
  setPrevCacheCntlr id prev h.

Definition setDRAMDirectAccess (id : nat) h : result (Hier P) :=
  let! m := master id h in put_master id (with_dram (mkDram 0 0) m) h.

(** A loop over the elements of a list. *)
Fixpoint each {A S} (f : A -> S -> result S) (l : list A) (s : S) : result S :=
  match l with
  | [] => Ok s
  | x :: l' => let! s := f x s in each f l' s
  end.

(** The checks and the DRAM access after the controllers are linked; the TLBs are
    called without a check that there are any. *)
Definition finish_core cfg (core_id : Z) h : result (Hier P) :=
  let! llc := getCacheCntlrAt cfg core_id (last_level_cache cfg) h in
  let! c := cntlr llc h in
  let here l := bool_decide (core_id ∈ l) in
  guard! negb (here (core_list_with_dram_controllers cfg)) || isMasterCache c else LogError in
  guard! negb (here (core_list_with_tag_directories cfg)) || isMasterCache c else LogError in
  if isMasterCache c then
    let! h := (if dram_direct_access cfg && (core_id <? application_cores cfg) then
                 guard! application_cores cfg <=? m_shared_cores c else LogError in
                 guard! here (core_list_with_dram_controllers cfg) else LogError in
                 setDRAMDirectAccess llc h
               else Ok h) in
    guard! tlbs_present cfg else Undefined in
    Ok h
  else Ok h.

(** The constructor of the memory manager of a core. *)
Definition new_memory_manager cfg (core_id : Z) h : result (Hier P) :=
  let! h := each (new_cntlr cfg core_id) (components cfg) h in
  let below_last := seqZ FIRST_LEVEL_CACHE (last_level_cache cfg - FIRST_LEVEL_CACHE) in
  let! h := each (link_next cfg core_id) below_last h in
  let! h := each (link_prev cfg core_id) below_last h in
  finish_core cfg core_id h.

(** The cores are made in order. *)
Definition build cfg (num_cores : Z) h : result (Hier P) := each (new_memory_manager cfg) (seqZ 0 num_cores) h.
End wiring.

(** Before the first core. *)
Definition no_cores {P} (home : AddressHome.AddressHomeLookup) (block : Z) (settings : SwLlc.Settings) : Hier P :=
  mkHier [] ∅ [] home block false settings [] SwLlc.initial [] ∅ [].

(** ** Accesses of a core *)
Inductive MemModeled := MEM_MODELED_NONE | MEM_MODELED_COUNT | MEM_MODELED_COUNT_TLBTIME | MEM_MODELED_TIME
  | MEM_MODELED_FENCED | MEM_MODELED_RETURN.
#[global] Instance mem_modeled_eq_dec : EqDecision MemModeled.
Proof. solve_decision. Defined.

(** The TLBs of a core, and everything an access works on. *)
Record CoreTlbs := mkCoreTlbs {
  m_itlb : option Tlb.TLB;
  m_dtlb : option Tlb.TLB;
  m_stlb : option Tlb.TLB
}.
Record System (P : Type) := mkSystem {
  sys_config : MemConfig P;
  sys_hier : Hier P;
  sys_tlbs : list CoreTlbs;
  sys_shared : Tlb.Shared
}.
Arguments mkSystem {P} _ _ _ _.
Arguments sys_config {P} _.
Arguments sys_hier {P} _.
Arguments sys_tlbs {P} _.
Arguments sys_shared {P} _.

(** [accessTLB] on a first-level TLB, with the second level behind it.  The
    penalty of a miss is simulated time. *)
Definition accessTLB (tlb : Tlb.TLB) (stlb : option Tlb.TLB) (address : Z) (isIfetch : bool) (g : Tlb.Shared)
  : result (Tlb.TLB * option Tlb.TLB * Tlb.Shared) :=
  let! (_, chain, g) := Tlb.lookup address isIfetch true (tlb :: option_list stlb) g in
  match chain with
  | [] => Err Undefined
  | t :: rest => Ok (t, head rest, g)
  end.

(** The translation an access starts with. *)
Definition translate (component address : Z) (t : CoreTlbs) (g : Tlb.Shared) : result (CoreTlbs * Tlb.Shared) :=
  if component =? L1_ICACHE then
    match m_itlb t with
    | Some tlb =>
        let! (tlb, stlb, g) := accessTLB tlb (m_stlb t) address true g in
        Ok (mkCoreTlbs (Some tlb) (m_dtlb t) stlb, g)
    | None => Ok (t, g)
    end
  else if component =? L1_DCACHE then
    match m_dtlb t with
    | Some tlb =>
        let! (tlb, stlb, g) := accessTLB tlb (m_stlb t) address false g in
        Ok (mkCoreTlbs (m_itlb t) (Some tlb) stlb, g)
    | None => Ok (t, g)
    end
  else Ok (t, g).

Section access.
Context {P : Type} `{ReplacementPolicy P}.

Definition with_pfq (q : list Z) (h : Hier P) : Hier P :=
  mkHier (h_cntlrs h) (h_masters h) (h_last h) (h_home h) (h_block h) (h_cache_only h) (h_settings h) q
    (h_sw h) (h_sent h) (h_threads h) (h_finished h).

(** The queue of recent pages is the static member [TLB::pfq], which the
    controllers read. *)
Definition coreInitiateMemoryAccess (core_id component : Z) (lock : lock_signal_t) (op : mem_op_t)
    (address offset : Z) (data_buf : option Data) (data_length : Z) (modeled : MemModeled) (sys : System P)
  : result (outcome * System P) :=
  let cfg := sys_config sys in
  guard! component <=? last_level_cache cfg else LogError in
  let! t := of_option (sys_tlbs sys !! Z.to_nat core_id) Undefined in
  let! (t, g) := translate component address t (sys_shared sys) in
  let h := with_pfq (Tlb.pfq g) (sys_hier sys) in
  let! id := getCacheCntlrAt cfg core_id component h in
  let o := mkOp id lock op address offset data_buf data_length (negb (bool_decide (modeled = MEM_MODELED_NONE))) in
  let! (r, h) := processMemOpFromCore o h in
  Ok (r, mkSystem cfg h (<[Z.to_nat core_id := t]> (sys_tlbs sys)) g).
End access.
