(* ===== verification/MemoryWire.v ===== *)
(** The hierarchy the memory managers build: for a configuration with direct
    DRAM access whose caches are shared by whole groups of the caches before
    them, it satisfies the invariant of HierInv. *)
From stdpp Require Import base numbers list gmap strings.
From Stdlib Require Import ZArith Lia Bool.
From S2P Require Import Prelude Utils CacheBlock CacheBase Replacement PolicyLru CacheSet Cache Tlb Queues DirectoryCntlr SwLlc Hierarchy HierView HierLower HierInsert HierInv MemoryManager.
Open Scope Z_scope.

(** A loop whose steps succeed and move an invariant along. *)
Lemma each_steps {A S} (f : A -> S -> result S) (I : nat -> S -> Prop) l s :
  I 0%nat s ->
  (forall k x s, l !! k = Some x -> I k s -> exists s', f x s = Ok s' /\ I (Datatypes.S k) s') ->
  exists s', each f l s = Ok s' /\ I (length l) s'.
Proof.
  revert I s. induction l as [|x l IH]; intros I s H0 Hstep; [by exists s|].
  destruct (Hstep 0%nat x s eq_refl H0) as (s1 & E1 & H1). cbn [each]. rewrite E1. cbn [rbind].
  apply (IH (fun k => I (Datatypes.S k))); [done|]. intros k y s2 Hy. by apply (Hstep (Datatypes.S k)).
Qed.

(** ** Numbers of controllers *)
Section numbers.
Context (L : nat) (s : nat -> nat).
Open Scope nat_scope.

(** Controller [i] belongs to core [i / L] and level [i mod L]; its master is the
    one of the first core of its group. *)
Definition group (i : nat) : nat := s (i mod L) * (i / L / s (i mod L)).
Definition master_ix (i : nat) : nat := group i * L + i mod L.
Definition next_level (j : nat) : nat := Nat.max 2 (S j).
Definition next_ix (i : nat) : option nat :=
  if i mod L <? L - 1 then Some (i / L * L + next_level (i mod L)) else None.

Context (HL : 3 <= L) (Hs : forall j, 0 < s j).

Lemma split_ix k j : j < L -> (k * L + j) / L = k /\ (k * L + j) mod L = j.
Proof.
  intros Hj. rewrite Nat.div_add_l, Nat.div_small, (Nat.add_comm (k * L)), Nat.Div0.mod_add, Nat.mod_small by lia. lia.
Qed.

Lemma join_ix i : i = i / L * L + i mod L /\ i mod L < L.
Proof. split; [rewrite Nat.mul_comm; apply Nat.div_mod_eq|apply Nat.mod_upper_bound; lia]. Qed.

Lemma group_le i : group i <= i / L.
Proof. unfold group. apply Nat.Div0.mul_div_le. Qed.

Lemma master_ix_le i : master_ix i <= i.
Proof. unfold master_ix. pose proof (group_le i). destruct (join_ix i). nia. Qed.

Lemma master_ix_split i : master_ix i / L = group i /\ master_ix i mod L = i mod L.
Proof. apply split_ix, join_ix. Qed.

Lemma master_ix_idem i : master_ix (master_ix i) = master_ix i.
Proof.
  unfold master_ix at 1. unfold group. destruct (master_ix_split i) as [-> ->]. unfold master_ix. f_equal. f_equal.
  unfold group. f_equal. rewrite Nat.mul_comm. apply Nat.div_mul. specialize (Hs (i mod L)). lia.
Qed.

Lemma master_ix_group i : master_ix i = i <-> group i = i / L.
Proof. unfold master_ix. destruct (join_ix i). split; nia. Qed.

Lemma next_ix_Some i n : next_ix i = Some n <-> i mod L < L - 1 /\ n = i / L * L + next_level (i mod L).
Proof.
  unfold next_ix. case_match eqn:E; [apply Nat.ltb_lt in E|apply Nat.ltb_ge in E]; split.
  - intros [= <-]. lia.
  - by intros [_ ->].
  - done.
  - lia.
Qed.

Lemma next_ix_split i n : next_ix i = Some n -> n / L = i / L /\ n mod L = next_level (i mod L).
Proof. intros [Hj ->]%next_ix_Some. apply split_ix. unfold next_level. lia. Qed.

(** Groups of a level are unions of groups of the previous ones. *)
Context (Hdiv : forall j, j < L - 1 -> Nat.divide (s j) (s (next_level j))).

Lemma same_parent i1 i2 n1 n2 :
  master_ix i1 = master_ix i2 -> next_ix i1 = Some n1 -> next_ix i2 = Some n2 -> master_ix n1 = master_ix n2.
Proof.
  intros Hm H1 H2. destruct (next_ix_split _ _ H1) as [D1 M1], (next_ix_split _ _ H2) as [D2 M2].
  destruct (master_ix_split i1) as [G1 J1], (master_ix_split i2) as [G2 J2].
  assert (EJ : i1 mod L = i2 mod L) by congruence. assert (EG : group i1 = group i2) by congruence.
  apply next_ix_Some in H1 as [Hj1 _]. destruct (Hdiv _ Hj1) as [q Hq].
  unfold master_ix, group. rewrite D1, M1, D2, M2, <- EJ, Hq. f_equal. f_equal.
  unfold group in EG. rewrite <- EJ in EG. pose proof (Hs (i1 mod L)) as Hp.
  apply Nat.mul_cancel_l in EG; [|lia].
  rewrite (Nat.mul_comm q), <- !Nat.Div0.div_div, EG. done.
Qed.

Lemma next_master i n : next_ix i = Some n -> exists n', next_ix (master_ix i) = Some n' /\ master_ix n' = master_ix n.
Proof.
  intros H1. pose proof H1 as [Hj _]%next_ix_Some. destruct (master_ix_split i) as [G J].
  exists (group i * L + next_level (i mod L)).
  assert (H2 : next_ix (master_ix i) = Some (group i * L + next_level (i mod L)))
    by (apply next_ix_Some; rewrite G, J; lia).
  split; [done|]. eapply same_parent; [apply master_ix_idem|done..].
Qed.
End numbers.

(** A cache as its constructor makes it: well formed, of the given block size,
    empty. *)
Definition fresh {P} `{ReplacementLaws P} (block : Z) (c : Cache P) : Prop :=
  (exists n, (0 < n)%nat /\ cache_wf SHARED_CACHE n c) /\ cb_blocksize (base c) = block /\ tidy c /\
  forall tag, line_of c tag = None.

(** The configurations: [L] controllers for each core, level [j] shared by [s j]
    cores, coherent write-back caches, and one last-level cache with direct
    access to the DRAM of core 0. *)
Record direct_config {P} `{ReplacementLaws P} (cfg : MemConfig P) (cores L : nat) (s : nat -> nat) (block : Z)
  : Prop := mkDirect {
  dc_levels : (3 <= L <= 5)%nat;
  dc_last : last_level_cache cfg = Z.of_nat L + 1;
  dc_cores : (0 < cores)%nat /\ application_cores cfg = Z.of_nat cores;
  dc_params : forall core component, cache_parameters cfg core component =
    mkParams false false true false (shared_cores (cache_parameters cfg core component));
  dc_shared : forall core j, (j < L)%nat -> shared_cores (cache_parameters cfg core (Z.of_nat j + 2)) = Z.of_nat (s j);
  dc_pos : forall j, (0 < s j)%nat;
  dc_groups : forall j, (j < L - 1)%nat -> Nat.divide (s j) (s (next_level j));
  dc_one : (cores <= s (L - 1))%nat;
  dc_cache : forall core component, exists c, new_cache cfg core component = Ok c /\ fresh block c;
  dc_direct : dram_direct_access cfg = true;
  dc_dram : 0 ∈ core_list_with_dram_controllers cfg;
  dc_masters : forall k, (0 < k < cores)%nat -> (Z.of_nat k ∉ core_list_with_dram_controllers cfg) /\
    (Z.of_nat k ∉ core_list_with_tag_directories cfg);
  dc_tlbs : tlbs_present cfg = true
}.

Section wire.
Context {P : Type} `{ReplacementLaws P}.
Context (cfg : MemConfig P) (cores L : nat) (s : nat -> nat) (block : Z).
Context (Hcfg : direct_config cfg cores L s block).
Implicit Types h : Hier P.

(** The controllers, before and after they are linked to the next level. *)
Definition spec_cntlr (i : nat) (linked : bool) : Cntlr :=
  mkCntlr (Z.of_nat (i mod L) + 2) (Z.of_nat (i / L)) (Z.of_nat (s (i mod L))) (master_ix L s i)
    (if linked then next_ix L i else None) false false true false.

(** What is there when [n1] controllers are made, [n2] of them are linked to the
    next level and [n3] are listed there; [d] tells whether the last level has
    access to the DRAM. *)
Record wired (n1 n2 n3 : nat) (d : bool) h : Prop := mkWired {
  w_len : length (h_cntlrs h) = n1;
  w_cntlr : forall i, (i < n1)%nat -> h_cntlrs h !! i = Some (spec_cntlr i (i <? n2)%nat);
  w_last : h_last h = replicate n1 UNKNOWN;
  w_masters : forall m, is_Some (h_masters h !! m) <-> (m < n1)%nat /\ master_ix L s m = m;
  w_fresh : forall m M, h_masters h !! m = Some M -> fresh block (m_cache M) /\ m_evicting M = None;
  w_prevs : forall m p, p ∈ prevs h m <->
    (p < n3)%nat /\ master_ix L s p = p /\ exists n, next_ix L p = Some n /\ master_ix L s n = m;
  w_direct : direct h (L - 1) = d;
  w_block : h_block h = block;
  w_cbpred : SwLlc.cbpred (h_settings h) = false
}.

Lemma L_pos : (3 <= L)%nat.
Proof. pose proof (dc_levels _ _ _ _ _ Hcfg). lia. Qed.

Lemma at_ok k j h : (j < L)%nat -> (k * L + j < length (h_cntlrs h))%nat ->
  getCacheCntlrAt cfg (Z.of_nat k) (Z.of_nat j + 2) h = Ok (k * L + j)%nat.
Proof.
  intros Hj Hn. unfold getCacheCntlrAt, FIRST_LEVEL_CACHE. rewrite (dc_last _ _ _ _ _ Hcfg).
  rewrite (proj2 (Z.leb_le 2 _)), (proj2 (Z.leb_le _ (Z.of_nat L + 1))) by lia. cbn [andb rguard rbind].
  replace (Z.to_nat (Z.of_nat k * (Z.of_nat L + 1 - 2 + 1) + (Z.of_nat j + 2 - 2))) with (k * L + j)%nat by nia.
  by rewrite (proj2 (Nat.ltb_lt _ _)).
Qed.

Lemma shared_ok k j : (k < cores)%nat -> (j < L)%nat ->
  shared_cores_of cfg (Z.of_nat k) (Z.of_nat j + 2) = Z.of_nat (s j).
Proof.
  intros Hk Hj. unfold shared_cores_of. destruct (dc_cores _ _ _ _ _ Hcfg) as [_ ->].
  rewrite (proj2 (Z.leb_gt _ _)) by lia. by apply (dc_shared _ _ _ _ _ Hcfg).
Qed.

(** The first core of the group of a core. *)
Lemma core_master_ok i b :
  m_core_id_master (spec_cntlr i b) = Z.of_nat (group L s i) /\
  isMasterCache (spec_cntlr i b) = bool_decide (master_ix L s i = i).
Proof.
  pose proof (dc_pos _ _ _ _ _ Hcfg (i mod L)) as Hp.
  assert (E : m_core_id_master (spec_cntlr i b) = Z.of_nat (group L s i)).
  { unfold m_core_id_master. cbn. rewrite Z.rem_mod_nonneg, <- Nat2Z.inj_mod by lia. unfold group.
    pose proof (Nat.div_mod_eq (i / L) (s (i mod L))). lia. }
  split; [done|]. unfold isMasterCache. rewrite E. cbn. apply eq_iff_eq_true.
  rewrite bool_decide_eq_true, (master_ix_group L s L_pos), Z.eqb_eq. lia.
Qed.

Lemma spec_at k j b : (j < L)%nat ->
  spec_cntlr (k * L + j) b = mkCntlr (Z.of_nat j + 2) (Z.of_nat k) (Z.of_nat (s j)) (master_ix L s (k * L + j))
    (if b then next_ix L (k * L + j) else None) false false true false.
Proof. intros Hj. unfold spec_cntlr. by destruct (split_ix L L_pos k j Hj) as [-> ->]. Qed.

(** The controllers of earlier cores stay below those of core [k]. *)
Lemma earlier_next k p n : (p < k * L)%nat -> next_ix L p = Some n -> (master_ix L s n < k * L)%nat.
Proof.
  intros Hp Hn. pose proof (master_ix_le L s L_pos n). destruct (next_ix_split L L_pos _ _ Hn) as [D M].
  assert (p / L < k)%nat by (apply Nat.Div0.div_lt_upper_bound; lia). destruct (join_ix L L_pos n).
  assert (n / L * L + L <= k * L)%nat by nia. lia.
Qed.

(** Appending a controller that uses a master that is there. *)
Lemma wired_append i n3 d h c :
  c = spec_cntlr i false -> (n3 <= i)%nat ->
  wired i n3 n3 d h -> master_ix L s i <> i ->
  wired (S i) n3 n3 d (with_last (h_last h ++ [UNKNOWN]) (with_cntlrs (h_cntlrs h ++ [c]) h)).
Proof.
  intros -> Hn [Hl Hc Hla Hm Hf Hp Hd Hb Hcb] Hnm. split; try done; cbn [h_cntlrs h_last h_masters with_last with_cntlrs with_masters].
  - rewrite length_app, Hl. cbn. lia.
  - intros x Hx. destruct (decide (x = i)) as [->|Hne].
    + rewrite lookup_app_r, Hl, Nat.sub_diag by lia. by rewrite (proj2 (Nat.ltb_ge i n3)).
    + rewrite lookup_app_l by lia. apply Hc. lia.
  - rewrite Hla, replicate_S_end. done.
  - intros m. rewrite Hm. split; [intros [? ?]; split; [lia|done]|]. intros [? E]. split; [|done].
    destruct (decide (m = i)) as [->|]; [done|lia].
Qed.

(** Making a master that is not there yet. *)
Lemma wired_new_master k i d h cache :
  (k * L <= i)%nat -> fresh block cache -> (i = (L - 1)%nat -> d = false) ->
  wired i (k * L) (k * L) d h -> master_ix L s i = i ->
  wired (S i) (k * L) (k * L) d
    (with_last (h_last h ++ [UNKNOWN]) (with_cntlrs (h_cntlrs h ++ [spec_cntlr i false])
      (with_masters (<[i := mkMaster cache [] None ∅ None]> (h_masters h)) h))).
Proof.
  intros Hk Hfr Hdf [Hl Hc Hla Hm Hf Hp Hd Hb Hcb] Him.
  assert (Hno : h_masters h !! i = None).
  { apply eq_None_not_Some. rewrite Hm. lia. }
  split; try done; cbn [h_cntlrs h_last h_masters with_last with_cntlrs with_masters].
  - rewrite length_app, Hl. cbn. lia.
  - intros x Hx. destruct (decide (x = i)) as [->|Hne].
    + rewrite lookup_app_r, Hl, Nat.sub_diag by lia. by rewrite (proj2 (Nat.ltb_ge i (k * L))).
    + rewrite lookup_app_l by lia. apply Hc. lia.
  - rewrite Hla, replicate_S_end. done.
  - intros m. rewrite lookup_insert. case_decide as E; [subst m; split; [intros _; split; [lia|done]|by eexists]|].
    rewrite Hm. split; [intros [? ?]|intros [? ?]]; split; try done; lia.
  - intros m M. rewrite lookup_insert. case_decide; [intros [= <-]; by split|apply Hf].
  - intros m p. unfold prevs. cbn. rewrite lookup_insert. case_decide as E; [subst m; cbn|apply Hp].
    split; [intros Hx; by apply elem_of_nil in Hx|]. intros (Hpk & _ & n & Hn & Hmn).
    pose proof (earlier_next k p n Hpk Hn). lia.
  - unfold direct. cbn. rewrite lookup_insert. case_decide as E; [cbn; symmetry; by apply Hdf|apply Hd].
Qed.

Lemma new_cntlr_ok k j h :
  (k < cores)%nat -> (j < L)%nat -> wired (k * L + j) (k * L) (k * L) (0 <? k)%nat h ->
  exists h', new_cntlr cfg (Z.of_nat k) (Z.of_nat j + 2) h = Ok h' /\
    wired (k * L + S j) (k * L) (k * L) (0 <? k)%nat h'.
Proof.
  intros Hk Hj Hw. unfold new_cntlr. rewrite shared_ok by done.
  rewrite (dc_params _ _ _ _ _ Hcfg (Z.of_nat k) (Z.of_nat j + 2)). cbn [perfect passthrough coherent writethrough].
  pose proof (dc_pos _ _ _ _ _ Hcfg j) as Hs. pose proof L_pos as HL.
  rewrite (proj2 (Z.eqb_neq (Z.of_nat (s j)) 0)), andb_false_r by lia. cbn [negb rguard rbind].
  assert (Hmast : forall m, let c := mkCntlr (Z.of_nat j + 2) (Z.of_nat k) (Z.of_nat (s j)) m None false false true false in
    m_core_id_master c = Z.of_nat (group L s (k * L + j)) /\
    isMasterCache c = bool_decide (master_ix L s (k * L + j) = (k * L + j)%nat)).
  { intros m. pose proof (core_master_ok (k * L + j) false) as [E1 E2]. rewrite spec_at in E1, E2 by done. by split. }
  destruct (Hmast (length (h_cntlrs h))) as [E1 E2]. cbv zeta. rewrite E2. clear E2. rewrite (w_len _ _ _ _ _ Hw) in *.
  replace (k * L + S j)%nat with (S (k * L + j)) by lia.
  case_bool_decide as Hm.
  - destruct (dc_cache _ _ _ _ _ Hcfg (Z.of_nat k) (Z.of_nat j + 2)) as (cache & -> & Hfr). cbn [rbind].
    eexists. split; [done|]. pose proof (spec_at k j false Hj) as Hsp. rewrite Hm in Hsp. rewrite <- Hsp.
    apply (wired_new_master k (k * L + j) (0 <? k)%nat h cache); try done; [lia|]. intros E. destruct k; [done|nia].
  - rewrite E1. destruct (split_ix L HL k j Hj) as [D M].
    pose proof (master_ix_le L s HL (k * L + j)) as Hle.
    assert (Hmi : master_ix L s (k * L + j) = (group L s (k * L + j) * L + j)%nat) by (unfold master_ix; by rewrite M).
    rewrite at_ok by (rewrite ?(w_len _ _ _ _ _ Hw); lia). cbn [rbind]. unfold cntlr.
    rewrite (w_cntlr _ _ _ _ _ Hw) by lia. cbn [of_option rbind m_master spec_cntlr].
    rewrite <- Hmi, master_ix_idem by (try done; apply (dc_pos _ _ _ _ _ Hcfg)). eexists. split; [done|].
    apply wired_append; try done; [|lia]. by rewrite spec_at.
Qed.

Lemma next_component_ok j : next_component (Z.of_nat j + 2) = Z.of_nat (next_level j) + 2.
Proof. unfold next_component, next_level, L1_DCACHE, L2_CACHE. destruct (Z.leb_spec (Z.of_nat j + 2) 3); lia. Qed.

Lemma next_at k j : (j < L - 1)%nat -> next_ix L (k * L + j) = Some (k * L + next_level j)%nat.
Proof.
  intros Hj. apply (next_ix_Some L L_pos). pose proof L_pos as HL. destruct (split_ix L HL k j) as [-> ->]; [lia|]. by split.
Qed.

Lemma link_next_ok k j n1 n3 d h :
  (j < L - 1)%nat -> n1 = (S k * L)%nat -> wired n1 (k * L + j) n3 d h ->
  exists h', link_next cfg (Z.of_nat k) (Z.of_nat j + 2) h = Ok h' /\ wired n1 (k * L + S j) n3 d h'.
Proof.
  intros Hj -> Hw. pose proof L_pos as HL. unfold link_next, next_level. rewrite next_component_ok.
  rewrite !at_ok by (rewrite ?(w_len _ _ _ _ _ Hw); unfold next_level; nia). cbn [rbind].
  unfold setNextCacheCntlr, cntlr. rewrite (w_cntlr _ _ _ _ _ Hw), (proj2 (Nat.ltb_ge _ _)) by nia. cbn [of_option rbind].
  eexists. split; [done|]. destruct Hw as [Hl Hc Hla Hm Hf Hp Hd Hb Hcb].
  split; try done; cbn [h_cntlrs with_cntlrs].
  - by rewrite length_insert.
  - intros x Hx. rewrite list_lookup_insert. case_decide as E.
    + destruct E as [<- _]. rewrite (proj2 (Nat.ltb_lt _ _)) by lia. f_equal.
      unfold with_next, spec_cntlr. cbn. f_equal. symmetry. by apply next_at.
    + rewrite Hc by done. do 2 f_equal. apply eq_iff_eq_true. rewrite !Nat.ltb_lt. lia.
Qed.

(** Linking the last level changes nothing. *)
Lemma wired_last n1 k n3 d h : wired n1 (k * L + (L - 1)) n3 d h -> wired n1 (S k * L) n3 d h.
Proof.
  pose proof L_pos as HL. intros [Hl Hc Hla Hm Hf Hp Hd Hb Hcb]. split; try done. intros i Hi. rewrite Hc by done. f_equal.
  destruct (decide (i = k * L + (L - 1))%nat) as [->|Hne].
  - rewrite !spec_at by lia. assert (E : next_ix L (k * L + (L - 1)) = None).
    { unfold next_ix. destruct (split_ix L HL k (L - 1)) as [_ ->]; [lia|]. by rewrite Nat.ltb_irrefl. }
    rewrite E. by do 2 destruct (_ <? _)%nat.
  - f_equal. apply eq_iff_eq_true. rewrite !Nat.ltb_lt. lia.
Qed.

Lemma wired_last_prev n1 n2 k d h : wired n1 n2 (k * L + (L - 1)) d h -> wired n1 n2 (S k * L) d h.
Proof.
  pose proof L_pos as HL. intros [Hl Hc Hla Hm Hf Hp Hd Hb Hcb]. split; try done. intros m p. rewrite Hp.
  split; intros (Hlt & Hpm & n & Hn & E); (split; [|eauto]); [lia|].
  destruct (decide (p = k * L + (L - 1))%nat) as [->|]; [|lia].
  apply (next_ix_Some L L_pos) in Hn as [Hn _]. destruct (split_ix L HL k (L - 1)) as [_ E']; lia.
Qed.

Lemma push_prev_ok n1 n2 i d h n M :
  wired n1 n2 i d h -> next_ix L i = Some n -> master_ix L s i = i -> h_masters h !! master_ix L s n = Some M ->
  wired n1 n2 (S i) d (with_masters (<[master_ix L s n := push_prev i M]> (h_masters h)) h).
Proof.
  intros [Hl Hc Hla Hm Hf Hp Hd Hb Hcb] Hn Hi HM. split; try done; cbn [h_masters with_masters].
  - intros m. rewrite lookup_insert. case_decide as E; [subst m|apply Hm]. rewrite <- Hm, HM. split; by eexists.
  - intros m M'. rewrite lookup_insert. case_decide; [intros [= <-]; apply (Hf _ _ HM)|apply Hf].
  - intros m p. assert (Hpr : prevs (with_masters (<[master_ix L s n := push_prev i M]> (h_masters h)) h) m =
      if decide (master_ix L s n = m) then prevs h m ++ [i] else prevs h m).
    { unfold prevs. cbn [h_masters with_masters]. rewrite lookup_insert. case_decide as E; [subst m; by rewrite HM|done]. }
    rewrite Hpr. case_decide as E.
    + rewrite elem_of_app, list_elem_of_singleton, Hp. split.
      * intros [(? & ? & ?)| ->]; (split; [lia|eauto]).
      * intros (? & ? & ?). destruct (decide (p = i)); [by right|left; split; [lia|eauto]].
    + rewrite Hp. split; intros (? & ? & n' & Hn' & ?); (split; [|eauto]); [lia|].
      destruct (decide (p = i)) as [->|]; [|lia]. rewrite Hn in Hn'. congruence.
  - unfold direct in *. cbn [h_masters with_masters]. rewrite lookup_insert. case_decide as E; [|done].
    rewrite <- E, HM in Hd. exact Hd.
Qed.

Lemma link_prev_ok k j n1 d h :
  (j < L - 1)%nat -> n1 = (S k * L)%nat -> wired n1 n1 (k * L + j) d h ->
  exists h', link_prev cfg (Z.of_nat k) (Z.of_nat j + 2) h = Ok h' /\ wired n1 n1 (k * L + S j) d h'.
Proof.
  intros Hj -> Hw. pose proof L_pos as HL. unfold link_prev. rewrite next_component_ok.
  rewrite !at_ok by (rewrite ?(w_len _ _ _ _ _ Hw); unfold next_level; nia). cbn [rbind].
  unfold setPrevCacheCntlr. unfold cntlr at 1. rewrite (w_cntlr _ _ _ _ _ Hw) by nia. cbn [of_option rbind].
  rewrite (proj2 (core_master_ok _ _)). replace (k * L + S j)%nat with (S (k * L + j)) by lia.
  set (n := (k * L + next_level j)%nat). assert (Hn : (n < S k * L)%nat) by (unfold n, next_level; lia).
  case_bool_decide as Hm.
  - assert (is_Some (h_masters h !! master_ix L s n)) as [M HM].
    { apply (w_masters _ _ _ _ _ Hw). pose proof (master_ix_le L s HL n).
      split; [lia|by apply master_ix_idem; [done|apply (dc_pos _ _ _ _ _ Hcfg)]]. }
    unfold master, put_master, cntlr. rewrite (w_cntlr _ _ _ _ _ Hw) by done. cbn [of_option rbind spec_cntlr m_master].
    rewrite HM. cbn [of_option rbind]. eexists. split; [done|].
    apply push_prev_ok; try done. by apply next_at.
  - exists h. split; [done|]. destruct Hw as [Hl Hc Hla Hma Hf Hp Hd Hb Hcb]. split; try done.
    intros m p. rewrite Hp. split; intros (? & ? & ?); (split; [|eauto]); [lia|].
    destruct (decide (p = k * L + j)%nat) as [->|]; [done|lia].
Qed.

(** Only core 0 has a last-level cache of its own. *)
Lemma llc_master k : (k < cores)%nat -> master_ix L s (k * L + (L - 1)) = (k * L + (L - 1))%nat <-> k = 0%nat.
Proof.
  intros Hk. pose proof L_pos as HL. rewrite (master_ix_group L s HL). unfold group.
  destruct (split_ix L HL k (L - 1)) as [-> ->]; [lia|]. pose proof (dc_one _ _ _ _ _ Hcfg) as Ho.
  rewrite Nat.div_small by lia. lia.
Qed.

Lemma finish_core_ok k n h :
  (k < cores)%nat -> n = (S k * L)%nat -> wired n n n (0 <? k)%nat h ->
  exists h', finish_core cfg (Z.of_nat k) h = Ok h' /\ wired n n n (0 <? S k)%nat h'.
Proof.
  intros Hk -> Hw. pose proof L_pos as HL. unfold finish_core.
  replace (last_level_cache cfg) with (Z.of_nat (L - 1) + 2) by (rewrite (dc_last _ _ _ _ _ Hcfg); lia).
  rewrite at_ok by (rewrite ?(w_len _ _ _ _ _ Hw); nia). cbn [rbind]. unfold cntlr at 1.
  rewrite (w_cntlr _ _ _ _ _ Hw) by nia. cbn [of_option rbind]. rewrite (proj2 (core_master_ok _ _)).
  destruct (dc_cores _ _ _ _ _ Hcfg) as [_ Hac]. destruct k as [|k].
  - rewrite (bool_decide_eq_true_2 (master_ix _ _ _ = _)) by (by apply llc_master). rewrite !orb_true_r. cbn [rguard rbind].
    rewrite (dc_direct _ _ _ _ _ Hcfg), Hac, (proj2 (Z.ltb_lt _ _)) by lia. cbn [andb].
    rewrite spec_at by lia. cbn [m_shared_cores]. pose proof (dc_one _ _ _ _ _ Hcfg).
    rewrite (proj2 (Z.leb_le _ _)), bool_decide_eq_true_2 by (try apply (dc_dram _ _ _ _ _ Hcfg); lia). cbn [rguard rbind].
    unfold setDRAMDirectAccess, master, put_master, cntlr. rewrite (w_cntlr _ _ _ _ _ Hw) by nia. cbn [of_option rbind].
    rewrite spec_at by lia. cbn [m_master]. rewrite (proj2 (llc_master 0 Hk) eq_refl).
    destruct (proj2 (w_masters _ _ _ _ _ Hw (0 * L + (L - 1)))) as [M HM]; [split; [lia|by apply llc_master]|].
    rewrite HM. cbn [of_option rbind]. rewrite (dc_tlbs _ _ _ _ _ Hcfg). cbn [rguard].
    eexists. split; [done|]. change (0 * L + (L - 1))%nat with (L - 1)%nat in *.
    destruct Hw as [Hl Hc Hla Hma Hf Hp Hd Hb Hcb]. split; try done; cbn [h_masters with_masters].
    + intros m. rewrite lookup_insert. case_decide as E; [subst m; rewrite <- Hma, HM; split; by eexists|apply Hma].
    + intros m M'. rewrite lookup_insert. case_decide; [intros [= <-]; apply (Hf _ _ HM)|apply Hf].
    + intros m p. rewrite <- Hp. unfold prevs. cbn [h_masters with_masters]. rewrite lookup_insert.
      case_decide as E; [subst m; by rewrite HM|done].
    + unfold direct. cbn [h_masters with_masters]. by rewrite lookup_insert_eq.
  - destruct (dc_masters _ _ _ _ _ Hcfg (S k)) as [Hn1 Hn2]; [lia|].
    rewrite !(bool_decide_eq_false_2 (_ ∈ _)) by done. cbn [negb orb rguard rbind].
    rewrite bool_decide_eq_false_2 by (intros E; apply llc_master in E; [done|lia]). by exists h.
Qed.

(** A loop over consecutive components. *)
Lemma each_components (f : Z -> Hier P -> result (Hier P)) (I : nat -> Hier P -> Prop) len h :
  I 0%nat h ->
  (forall j h, (j < len)%nat -> I j h -> exists h', f (Z.of_nat j + 2) h = Ok h' /\ I (S j) h') ->
  exists h', each f (seqZ FIRST_LEVEL_CACHE (Z.of_nat len)) h = Ok h' /\ I len h'.
Proof.
  intros H0' Hstep. destruct (each_steps f I (seqZ FIRST_LEVEL_CACHE (Z.of_nat len)) h H0') as (h' & E & HI).
  - intros k x h1 Hx. apply lookup_seqZ in Hx as [-> Hlt]. rewrite Z.add_comm. apply Hstep. lia.
  - exists h'. split; [done|]. by rewrite length_seqZ, Nat2Z.id in HI.
Qed.

Lemma new_memory_manager_ok k h :
  (k < cores)%nat -> wired (k * L) (k * L) (k * L) (0 <? k)%nat h ->
  exists h', new_memory_manager cfg (Z.of_nat k) h = Ok h' /\
    wired (S k * L) (S k * L) (S k * L) (0 <? S k)%nat h'.
Proof.
  intros Hk Hw. pose proof L_pos as HL. unfold new_memory_manager, components. rewrite (dc_last _ _ _ _ _ Hcfg).
  replace (Z.of_nat L + 1 - FIRST_LEVEL_CACHE + 1) with (Z.of_nat L) by (unfold FIRST_LEVEL_CACHE; lia).
  replace (Z.of_nat L + 1 - FIRST_LEVEL_CACHE) with (Z.of_nat (L - 1)) by (unfold FIRST_LEVEL_CACHE; lia).
  destruct (each_components (new_cntlr cfg (Z.of_nat k))
    (fun j => wired (k * L + j) (k * L) (k * L) (0 <? k)%nat) L h) as (h1 & E1 & H1).
  { by rewrite Nat.add_0_r. }
  { intros j h1 Hj. by apply new_cntlr_ok. }
  rewrite E1. cbn [rbind]. replace (k * L + L)%nat with (S k * L)%nat in H1 by lia.
  destruct (each_components (link_next cfg (Z.of_nat k))
    (fun j => wired (S k * L) (k * L + j) (k * L) (0 <? k)%nat) (L - 1) h1) as (h2 & E2 & H2).
  { by rewrite Nat.add_0_r. }
  { intros j h2 Hj. by apply link_next_ok. }
  rewrite E2. cbn [rbind]. apply wired_last in H2.
  destruct (each_components (link_prev cfg (Z.of_nat k))
    (fun j => wired (S k * L) (S k * L) (k * L + j) (0 <? k)%nat) (L - 1) h2) as (h3 & E3 & H3).
  { by rewrite Nat.add_0_r. }
  { intros j h3 Hj. by apply link_prev_ok. }
  rewrite E3. cbn [rbind]. apply wired_last_prev in H3. by apply finish_core_ok.
Qed.

Lemma build_wired h0 :
  wired 0 0 0 false h0 ->
  exists h, build cfg (Z.of_nat cores) h0 = Ok h /\ wired (cores * L) (cores * L) (cores * L) true h.
Proof.
  intros H0'. unfold build. destruct (dc_cores _ _ _ _ _ Hcfg) as [Hc _].
  destruct (each_steps (new_memory_manager cfg) (fun k => wired (k * L) (k * L) (k * L) (0 <? k)%nat)
    (seqZ 0 (Z.of_nat cores)) h0 H0') as (h & E & Hw).
  - intros k x h Hx. apply lookup_seqZ in Hx as [-> Hlt]. rewrite Z.add_0_l. apply new_memory_manager_ok. lia.
  - rewrite length_seqZ, Nat2Z.id in Hw. exists h. split; [done|].
    by rewrite (proj2 (Nat.ltb_lt 0 cores)) in Hw.
Qed.

(** ** The links form a hierarchy *)
Section built.
Context (n : nat) (h : Hier P).
Context (Hn : n = (cores * L)%nat) (Hw : wired n n n true h).

Lemma built_cntlr id c : h_cntlrs h !! id = Some c <-> (id < n)%nat /\ c = spec_cntlr id true.
Proof.
  split.
  - intros Hc. pose proof (lookup_lt_Some _ _ _ Hc) as Hlt. rewrite (w_len _ _ _ _ _ Hw) in Hlt. split; [done|].
    rewrite (w_cntlr _ _ _ _ _ Hw), (proj2 (Nat.ltb_lt _ _)) in Hc by done. congruence.
  - intros [Hlt ->]. by rewrite (w_cntlr _ _ _ _ _ Hw), (proj2 (Nat.ltb_lt _ _)).
Qed.

Lemma built_next i m : (i < n)%nat -> next_ix L i = Some m -> (m < n)%nat.
Proof.
  intros Hi Hm. destruct (next_ix_split L L_pos _ _ Hm) as [D M]. destruct (join_ix L L_pos m) as [Em Hmod].
  assert (i / L < cores)%nat by (apply Nat.Div0.div_lt_upper_bound; lia). assert (m / L * L + L <= cores * L)%nat by nia. lia.
Qed.

Lemma built_parent id c : h_cntlrs h !! id = Some c ->
  parent h c = master_ix L s <$> next_ix L id.
Proof.
  intros [Hid ->]%built_cntlr. unfold parent. cbn [m_next_cache_cntlr spec_cntlr].
  destruct (next_ix L id) as [m|] eqn:Hm; [|done]. cbn.
  rewrite (proj2 (built_cntlr m (spec_cntlr m true))) by (split; [by eapply built_next|done]). done.
Qed.

Lemma next_ix_level i1 i2 : (i1 mod L = i2 mod L)%nat -> is_Some (next_ix L i1) -> is_Some (next_ix L i2).
Proof. unfold next_ix. intros ->. by case_match. Qed.

Lemma built_topo : topo h.
Proof.
  pose proof L_pos as HL. pose proof (dc_pos _ _ _ _ _ Hcfg) as Hs. pose proof (dc_groups _ _ _ _ _ Hcfg) as Hdiv. split.
  - intros id c [_ ->]%built_cntlr. done.
  - intros id c [Hid ->]%built_cntlr. pose proof (master_ix_le L s HL id). eexists.
    split; [apply built_cntlr; split; [cbn; lia|done]|]. cbn. rewrite master_ix_idem by done.
    by destruct (master_ix_split L s HL id) as [_ ->].
  - intros id c m [Hid ->]%built_cntlr Hm. cbn in Hm. eexists.
    split; [apply built_cntlr; split; [by eapply built_next|done]|]. cbn.
    destruct (next_ix_split L HL _ _ Hm) as [_ ->]. unfold next_level. lia.
  - intros i1 i2 c1 c2 H1 H2 Hm. rewrite (built_parent i1), (built_parent i2) by done.
    apply built_cntlr in H1 as [_ ->], H2 as [_ ->]. cbn in Hm.
    destruct (master_ix_split L s HL i1) as [_ J1], (master_ix_split L s HL i2) as [_ J2].
    assert (EJ : (i1 mod L = i2 mod L)%nat) by congruence.
    destruct (next_ix L i1) as [m1|] eqn:E1, (next_ix L i2) as [m2|] eqn:E2; cbn; try done.
    + f_equal. by eapply same_parent.
    + destruct (next_ix_level i1 i2) as [? ?]; [done|by rewrite E1|congruence].
    + destruct (next_ix_level i2 i1) as [? ?]; [done|by rewrite E2|congruence].
  - intros m p (Hp & Hpm & m' & Hm' & <-)%(w_prevs _ _ _ _ _ Hw).
    eexists _, m', _. split; [by apply built_cntlr|]. split; [done|]. split; [done|].
    split; [apply built_cntlr; split; [by eapply built_next|done]|done].
  - intros id c m mc [Hid ->]%built_cntlr Hm [Hlt ->]%built_cntlr. cbn in Hm |- *.
    apply (w_prevs _ _ _ _ _ Hw). pose proof (master_ix_le L s HL id). split; [lia|].
    split; [by apply master_ix_idem|]. by apply next_master.
  - intros id c [Hid ->]%built_cntlr. rewrite (w_len _ _ _ _ _ Hw). cbn.
    pose proof (Nat.Div0.mod_le id L). lia.
  - intros id c [Hid ->]%built_cntlr. cbn. pose proof (dc_levels _ _ _ _ _ Hcfg). destruct (join_ix L HL id). lia.
Qed.

Lemma built_lines m t : lines h m t = None.
Proof.
  unfold lines. destruct (h_masters h !! m) as [M|] eqn:HM; [|done]. cbn.
  destruct (w_fresh _ _ _ _ _ Hw m M HM) as [(_ & _ & _ & ->) _]. done.
Qed.

Lemma built_hwf : hwf h.
Proof.
  split.
  - intros m M HM. destruct (w_fresh _ _ _ _ _ Hw m M HM) as [((nw & Hnw & Hcw) & Hb & Ht & _) _].
    exists nw. rewrite (w_block _ _ _ _ _ Hw). by split_and!.
  - intros id c [Hid ->]%built_cntlr. cbn. apply (w_masters _ _ _ _ _ Hw). pose proof (master_ix_le L s L_pos id).
    split; [lia|by apply master_ix_idem; [apply L_pos|apply (dc_pos _ _ _ _ _ Hcfg)]].
  - by rewrite (w_last _ _ _ _ _ Hw), length_replicate, (w_len _ _ _ _ _ Hw).
  - intros m t st. by rewrite built_lines.
Qed.

Lemma built_hinv : hinv h.
Proof.
  split; [apply built_hwf|apply built_topo|..].
  - intros m p t Hp. by rewrite !built_lines.
  - intros m. unfold evicting. destruct (h_masters h !! m) as [M|] eqn:HM; [|done]. cbn.
    by destruct (w_fresh _ _ _ _ _ Hw m M HM) as [_ ->].
  - intros m t st. by rewrite built_lines.
  - intros id c [Hid ->]%built_cntlr Hnx. cbn in *. pose proof L_pos as HL. destruct (join_ix L HL id) as [Eid Hmod].
    assert (Hj : (id mod L = L - 1)%nat).
    { unfold next_ix in Hnx. case_match eqn:E; [done|]. apply Nat.ltb_ge in E. lia. }
    assert (id / L < cores)%nat by (apply Nat.Div0.div_lt_upper_bound; lia). pose proof (dc_one _ _ _ _ _ Hcfg).
    unfold master_ix, group. rewrite Hj, Nat.div_small, Nat.mul_0_r by lia. apply (w_direct _ _ _ _ _ Hw).
  - rewrite (w_last _ _ _ _ _ Hw). apply Forall_replicate. by left.
  - apply (w_cbpred _ _ _ _ _ Hw).
Qed.
End built.
End wire.
