(* ===== verification/Core.v ===== *)
(** The core's side of a memory access (common/core/core.cc): an access is cut
    at the borders of cache blocks and each part goes to the memory system, and
    an instruction fetch goes there only when it leaves the line last fetched.

    The memory system is an interface here ([MemorySystem] with the laws
    [MemoryLaws]); the memory managers with their TLBs and caches are its
    instance.  Simulated time is left out, and so are the native memory
    operations that hold a program's data. *)
From stdpp Require Import base numbers list gmap strings.
From Stdlib Require Import ZArith Lia Bool.
From S2P Require Import Prelude Utils CacheBlock CacheBase Replacement CacheSet Cache Tlb Queues DirectoryCntlr SwLlc Hierarchy HierView MemoryManager.
Open Scope Z_scope.

(** What a core calls. *)
Class MemorySystem (M : Type) := {
  initiate : forall (core_id component : Z) (lock : lock_signal_t) (op : mem_op_t) (address offset : Z)
    (data_buf : option Data) (data_length : Z) (modeled : MemModeled), M -> result (outcome * M);
  getCacheBlockSize : M -> Z
}.

#[export] Instance system_memory {P} `{ReplacementPolicy P} : MemorySystem (System P) := {
  initiate := coreInitiateMemoryAccess;
  getCacheBlockSize := fun sys => h_block (sys_hier sys)
}.

Definition NUM_HITWHERES : Z := 24.

(** [m_icache_last_block] of a core, -1 at first. *)
Record Core := mkCore { m_icache_last_block : Z }.
Definition new_core : Core := mkCore (u64 (-1)).

Section core.
Context {M : Type} `{MemorySystem M}.
Implicit Types sys : M.

Definition makeMemoryResult (w : hit_where) : result hit_where :=
  guard! w <? NUM_HITWHERES else LogError in Ok w.

(** The part of a buffer that starts at [head]. *)
Definition slice (head size : Z) (buf : option Data) : option Data :=
  fmap (M := option) (fmap (M := option) (fun l => take (Z.to_nat size) (drop (Z.to_nat head) l))) buf.

(** [if (hit_where == UNKNOWN || (this != UNKNOWN && this > hit_where)) hit_where = this] *)
Definition farther (w this : hit_where) : hit_where :=
  if (w =? UNKNOWN) || (negb (this =? UNKNOWN) && (w <? this)) then this else w.

(** The loop over the lines; the last component of the result is [None] when the
    thread has to wait for the directory, and otherwise where the data was and
    what was read. *)
Fixpoint access_lines (fuel : nat) (access : Z -> Z -> option Data -> Z -> M -> result (outcome * M))
    (bs begin_addr begin_aligned end_addr end_aligned : Z) (data_buf : option Data)
    (curr head : Z) (w : hit_where) (got : list Data) sys : result (option (hit_where * list Data) * M) :=
  match fuel with
  | O => Err OutOfFuel
  | S fuel' =>
      if curr <=? end_aligned then
        let curr_offset := if curr =? begin_aligned then begin_addr mod bs else 0 in
        let curr_size := u32 (if curr =? end_aligned then end_addr mod bs - curr_offset else bs - curr_offset) in
        if (curr =? end_aligned) && (curr_size =? 0) then
          access_lines fuel' access bs begin_addr begin_aligned end_addr end_aligned data_buf
            (u64 (curr + bs)) head w got sys
        else
          let! (r, sys) := access curr curr_offset (slice head curr_size data_buf) curr_size sys in
          match r with
          | Waiting => Ok (None, sys)
          | Done this data =>
              access_lines fuel' access bs begin_addr begin_aligned end_addr end_aligned data_buf
                (u64 (curr + bs)) (head + curr_size) (farther w this) (got ++ [data]) sys
          end
      else Ok (Some (w, got), sys)
  end.

(** [initiateMemoryAccess]; the fuel is for more lines than an access can touch. *)
Definition initiateMemoryAccess (fuel : nat) (core_id component : Z) (lock : lock_signal_t) (op : mem_op_t)
    (address : Z) (data_buf : option Data) (data_size : Z) (modeled : MemModeled) sys
  : result (option (hit_where * list Data) * M) :=
  if data_size <=? 0 then
    let! w := makeMemoryResult component in Ok (Some (w, []), sys)
  else
    let bs := getCacheBlockSize sys in
    let end_addr := u64 (address + data_size) in
    let begin_aligned := address - address mod bs in
    let end_aligned := end_addr - end_addr mod bs in
    let! (r, sys) :=
      access_lines fuel (fun a off buf len => initiate core_id component lock op a off buf len modeled)
        bs address begin_aligned end_addr end_aligned data_buf begin_aligned 0 UNKNOWN [] sys in
    match r with
    | None => Ok (None, sys)
    | Some (w, got) =>
        guard! negb (w =? UNKNOWN) else LogError in
        let! w := makeMemoryResult w in
        Ok (Some (w, got), sys)
    end.

(** [readInstructionMemory] *)
Definition readInstructionMemory (fuel : nat) (core_id : Z) (address instruction_size : Z) (c : Core) sys
  : result (option (hit_where * list Data) * Core * M) :=
  let bs := getCacheBlockSize sys in
  let blockmask := u64 (Z.lnot (bs - 1)) in
  let line a := Z.land a blockmask in
  let single_cache_line := line address =? line (u64 (address + instruction_size - 1)) in
  let last := m_icache_last_block c in
  if (line address =? last) && single_cache_line then
    let! w := makeMemoryResult (At L1_ICACHE false) in Ok (Some (w, []), c, sys)
  else
    let address := if line address =? last then u64 (line address + bs) else address in
    let c := mkCore (line address) in
    let! (r, sys) := initiateMemoryAccess fuel core_id L1_ICACHE NONE READ (line address) None bs
                       MEM_MODELED_COUNT_TLBTIME sys in
    Ok (r, c, sys).

(** [accessMemory]: the data a program asks for is copied natively. *)
Definition accessMemory (fuel : nat) (core_id : Z) (lock : lock_signal_t) (op : mem_op_t) (d_addr : Z)
    (data_buffer : option Data) (data_size : Z) (modeled : MemModeled) (is_fault_mask : bool) sys
  : result (option (hit_where * list Data) * M) :=
  let data_buffer := if bool_decide (is_Some data_buffer) && negb is_fault_mask then None else data_buffer in
  if bool_decide (modeled = MEM_MODELED_NONE) then
    let! w := makeMemoryResult UNKNOWN in Ok (Some (w, []), sys)
  else initiateMemoryAccess fuel core_id L1_DCACHE lock op d_addr data_buffer data_size modeled sys.
End core.
