(* ===== verification/CoreLines.v ===== *)
(** Cutting an access at the borders of cache blocks: the loop of
    initiateMemoryAccess against a reference definition, and its end. *)
From stdpp Require Import base numbers list gmap strings.
From Stdlib Require Import ZArith Lia Bool.
From S2P Require Import Prelude Utils CacheBlock CacheBase Replacement CacheSet Cache Tlb Queues DirectoryCntlr SwLlc Hierarchy HierView MemoryManager Core.
Open Scope Z_scope.

(** ** Reference *)

(** The part of [a, e) in block [b]: the block's address, and the offset and
    length in it. *)
Definition part (bs a e b : Z) : Z * Z * Z :=
  (b * bs, Z.max a (b * bs) - b * bs, Z.min e ((b + 1) * bs) - Z.max a (b * bs)).

Definition parts_from (bs a e b : Z) : list (Z * Z * Z) := part bs a e <$> seqZ b ((e - 1) / bs + 1 - b).
Definition parts (bs a e : Z) : list (Z * Z * Z) := parts_from bs a e (a / bs).

(** The addresses of the bytes of a part. *)
Definition bytes_of (p : Z * Z * Z) : list Z := seqZ (p.1.1 + p.1.2) p.2.

Lemma parts_from_done bs a e b : (e - 1) / bs < b -> parts_from bs a e b = [].
Proof. intros Hb. unfold parts_from. by rewrite seqZ_nil by lia. Qed.

Lemma parts_from_cons bs a e b :
  b <= (e - 1) / bs -> parts_from bs a e b = part bs a e b :: parts_from bs a e (b + 1).
Proof.
  intros Hb. unfold parts_from. rewrite seqZ_cons by lia. cbn [fmap list_fmap]. f_equal. do 2 f_equal; lia.
Qed.

Section cut.
Context (bs a e : Z) (Hbs : 0 < bs) (Hae : 0 <= a < e).

Lemma block_bounds b : b <= (e - 1) / bs -> b * bs < e.
Proof. intros Hb. pose proof (Z.mul_div_le (e - 1) bs Hbs). nia. Qed.

Lemma first_block b : a / bs <= b -> a < (b + 1) * bs.
Proof. intros Hb. pose proof (Z.mul_succ_div_gt a bs Hbs). nia. Qed.

(** Every part is a non-empty part of one block. *)
Lemma part_fits b : a / bs <= b <= (e - 1) / bs ->
  let '(al, off, len) := part bs a e b in
  al mod bs = 0 /\ 0 <= off /\ 0 < len /\ off + len <= bs /\ 0 <= al /\ al + off + len <= e.
Proof.
  intros [H1 H2]. pose proof (block_bounds b H2). pose proof (first_block b H1). pose proof (Z.div_pos a bs).
  unfold part. split; [by apply Z_mod_mult|]. nia.
Qed.

Lemma parts_fit p : p ∈ parts bs a e ->
  let '(al, off, len) := p in
  al mod bs = 0 /\ 0 <= off /\ 0 < len /\ off + len <= bs /\ 0 <= al /\ al + off + len <= e.
Proof.
  intros (b & -> & Hb)%list_elem_of_fmap. apply elem_of_seqZ in Hb. apply part_fits. lia.
Qed.

(** The parts are the bytes of the access, in order, each once. *)
Lemma parts_from_bytes n b :
  Z.of_nat n = (e - 1) / bs + 1 - b -> a / bs <= b ->
  mjoin (bytes_of <$> parts_from bs a e b) = seqZ (Z.max a (b * bs)) (e - Z.max a (b * bs)).
Proof.
  revert b. induction n as [|n IH]; intros b Hn Hb.
  - rewrite parts_from_done by lia. cbn. rewrite seqZ_nil; [done|].
    pose proof (Z.mul_succ_div_gt (e - 1) bs Hbs). nia.
  - rewrite parts_from_cons by lia. cbn [fmap list_fmap mjoin list_join]. rewrite IH by lia.
    pose proof (block_bounds b ltac:(lia)). pose proof (first_block b Hb).
    rewrite (Z.max_r a ((b + 1) * bs)) by lia. unfold bytes_of, part. cbn [fst snd].
    destruct (Z.le_gt_cases e ((b + 1) * bs)) as [He|He].
    + rewrite (Z.min_l e) by lia. rewrite (seqZ_nil ((b + 1) * bs)), app_nil_r by lia. f_equal; lia.
    + rewrite (Z.min_r e) by lia.
      replace (e - Z.max a (b * bs)) with (((b + 1) * bs - Z.max a (b * bs)) + (e - (b + 1) * bs)) by lia.
      rewrite seqZ_app by lia. f_equal; f_equal; lia.
Qed.

Lemma parts_bytes : mjoin (bytes_of <$> parts bs a e) = seqZ a (e - a).
Proof.
  unfold parts. pose proof (Z.div_le_mono a (e - 1) bs Hbs ltac:(lia)).
  rewrite (parts_from_bytes (Z.to_nat ((e - 1) / bs + 1 - a / bs))) by lia.
  pose proof (Z.mul_div_le a bs Hbs). rewrite Z.max_l by lia. done.
Qed.
End cut.

(** ** The loop *)
Section loop.
Context {M : Type} `{MemorySystem M}.
Implicit Types sys : M.

(** Sending a list of parts to the memory system. *)
Fixpoint access_parts (access : Z -> Z -> option Data -> Z -> M -> result (outcome * M)) (data_buf : option Data)
    (l : list (Z * Z * Z)) (head : Z) (w : hit_where) (got : list Data) sys
  : result (option (hit_where * list Data) * M) :=
  match l with
  | [] => Ok (Some (w, got), sys)
  | (al, off, len) :: l' =>
      let! (r, sys) := access al off (slice head len data_buf) len sys in
      match r with
      | Waiting => Ok (None, sys)
      | Done this data => access_parts access data_buf l' (head + len) (farther w this) (got ++ [data]) sys
      end
  end.

(** One round of the loop computes a part. *)
Lemma round_part bs a e b :
  0 < bs < 2 ^ 32 -> 0 <= a < e -> a / bs <= b <= (e - 1) / bs ->
  let curr := b * bs in
  let off := if curr =? a - a mod bs then a mod bs else 0 in
  part bs a e b = (curr, off, u32 (if curr =? e - e mod bs then e mod bs - off else bs - off)) /\
  curr <= e - e mod bs /\ u32 (if curr =? e - e mod bs then e mod bs - off else bs - off) <> 0.
Proof.
  intros Hbs Hae Hb. cbv zeta.
  pose proof (part_fits bs a e ltac:(lia) Hae b Hb) as Hfit. unfold part in Hfit. destruct Hfit as (_ & Hf1 & Hf2 & Hf3 & _).
  pose proof (Z.div_mod a bs ltac:(lia)) as Ea. pose proof (Z.mod_pos_bound a bs ltac:(lia)) as Ha.
  pose proof (Z.div_mod e bs ltac:(lia)) as Ee. pose proof (Z.mod_pos_bound e bs ltac:(lia)) as He.
  pose proof (block_bounds bs e ltac:(lia) b ltac:(lia)) as Hbe.
  pose proof (first_block bs a ltac:(lia) b ltac:(lia)) as Hba.
  assert (Hoff : (if b * bs =? a - a mod bs then a mod bs else 0) = Z.max a (b * bs) - b * bs).
  { destruct (Z.eqb_spec (b * bs) (a - a mod bs)) as [E|E]; [lia|].
    assert (a / bs < b) by nia. assert (a < b * bs) by nia. lia. }
  rewrite Hoff. assert (Hbd : b <= e / bs) by (apply Z.div_le_lower_bound; lia).
  assert (Hlen : (if b * bs =? e - e mod bs then e mod bs - (Z.max a (b * bs) - b * bs)
                  else bs - (Z.max a (b * bs) - b * bs)) = Z.min e ((b + 1) * bs) - Z.max a (b * bs)).
  { destruct (Z.eqb_spec (b * bs) (e - e mod bs)) as [E|E]; [lia|].
    assert (b < e / bs) by nia. assert ((b + 1) * bs <= e) by nia. lia. }
  rewrite Hlen, u32_small by lia. unfold part. split; [done|]. split; [nia|lia].
Qed.

Lemma access_lines_parts access bs a e data_buf fuel b head w got sys :
  0 < bs < 2 ^ 32 -> 0 <= a < e -> e - e mod bs + bs < 2 ^ 64 -> a / bs <= b <= (e - 1) / bs + 1 ->
  e / bs + 2 - b <= Z.of_nat fuel ->
  access_lines fuel access bs a (a - a mod bs) e (e - e mod bs) data_buf (b * bs) head w got sys =
  access_parts access data_buf (parts_from bs a e b) head w got sys.
Proof.
  intros Hbs Hae Hwrap. pose proof (Z.div_pos a bs) as Hpos.
  pose proof (Z.div_mod e bs ltac:(lia)) as Ee. pose proof (Z.mod_pos_bound e bs ltac:(lia)) as He.
  pose proof (Z.div_mod (e - 1) bs ltac:(lia)) as Ee1. pose proof (Z.mod_pos_bound (e - 1) bs ltac:(lia)) as He1.
  revert b head w got sys. induction fuel as [|fuel IH]; intros b head w got sys Hb Hf; [nia|].
  destruct (Z.le_gt_cases b ((e - 1) / bs)) as [Hin|Hout].
  - destruct (round_part bs a e b Hbs Hae ltac:(lia)) as (Hpart & Hcond & Hne). cbv zeta in Hpart, Hcond, Hne.
    rewrite parts_from_cons, Hpart by lia. cbn [access_lines access_parts].
    rewrite (proj2 (Z.leb_le _ _) Hcond), (proj2 (Z.eqb_neq _ 0) Hne), andb_false_r.
    destruct (access _ _ _ _ sys) as [[[this d|] sys']|err]; cbn [rbind]; try done.
    rewrite u64_small by nia. replace (b * bs + bs) with ((b + 1) * bs) by lia. apply IH; [lia|nia].
  - rewrite parts_from_done by lia. cbn [access_parts access_lines]. assert (b = (e - 1) / bs + 1) as -> by lia.
    destruct (Z.leb_spec (((e - 1) / bs + 1) * bs) (e - e mod bs)) as [Hle|Hgt]; [|done].
    assert (Em : e mod bs = 0) by nia. assert (Eq : ((e - 1) / bs + 1) * bs = e) by nia.
    assert (Hnb : (((e - 1) / bs + 1) * bs =? a - a mod bs) = false).
    { apply Z.eqb_neq. pose proof (Z.mod_pos_bound a bs ltac:(lia)). lia. }
    rewrite Hnb, Eq, Em, !Z.sub_0_r, Z.eqb_refl. cbn [andb]. change (u32 0 =? 0) with true. cbv iota.
    rewrite u64_small by lia. destruct fuel as [|fuel]; [nia|]. cbn [access_lines].
    by rewrite (proj2 (Z.leb_gt (e + bs) e)) by lia.
Qed.
End loop.
