(* ===== verification/CoreProps.v ===== *)
(** Accesses of the cores end to end: the laws of the memory system, the core
    against them, and the memory managers as their instance. *)
From stdpp Require Import base numbers list gmap strings.
From Stdlib Require Import ZArith Lia Bool.
From S2P Require Import Prelude Utils CacheBlock CacheBase Replacement PolicyLru CacheSet Cache Tlb Queues DirectoryCntlr SwLlc Hierarchy HierView HierLower HierInsert HierInv HierReq HierOps MemoryManager MemoryWire Core CoreLines.
Open Scope Z_scope.

(** What a core relies on: in a good state a part of a block sent to a component
    the memory system serves is accessed at once. *)
Class MemoryLaws (M : Type) `{MemorySystem M} := {
  mem_ok : M -> Prop;
  mem_serves : M -> Z -> Z -> Prop;
  mem_block sys : mem_ok sys -> exists k, 1 <= k <= 31 /\ getCacheBlockSize sys = 2 ^ k;
  mem_access sys core component op a off buf len modeled :
    mem_ok sys -> mem_serves sys core component ->
    a mod getCacheBlockSize sys = 0 -> 0 <= a -> a + off + len <= 2 ^ 64 ->
    0 <= off -> 0 < len -> off + len <= getCacheBlockSize sys ->
    exists w d sys', initiate core component NONE op a off buf len modeled sys = Ok (Done w d, sys') /\
      located w /\ mem_ok sys' /\ getCacheBlockSize sys' = getCacheBlockSize sys /\
      forall k c, mem_serves sys k c -> mem_serves sys' k c
}.

Section client.
Context {M : Type} `{MemoryLaws M}.
Implicit Types sys : M.

(** A later good state. *)
Definition after sys sys' : Prop :=
  mem_ok sys' /\ getCacheBlockSize sys' = getCacheBlockSize sys /\
  forall k c, mem_serves sys k c -> mem_serves sys' k c.

Lemma after_trans sys1 sys2 sys3 : after sys1 sys2 -> after sys2 sys3 -> after sys1 sys3.
Proof. intros (_ & B1 & S1) (? & B2 & S2). split; [done|]. split; [congruence|]. intros k c Hs. by apply S2, S1. Qed.

Lemma farther_located w this : w = UNKNOWN \/ located w -> located this -> located (farther w this).
Proof.
  intros Hw Ht. unfold farther. destruct Hw as [->|Hw]; [by rewrite Z.eqb_refl|]. by destruct (_ || _).
Qed.

Lemma access_parts_ok core component op modeled buf l : forall head w got sys,
  mem_ok sys -> mem_serves sys core component -> w = UNKNOWN \/ located w ->
  (forall p, p ∈ l -> let '(al, off, len) := p in
    al mod getCacheBlockSize sys = 0 /\ 0 <= off /\ 0 < len /\ off + len <= getCacheBlockSize sys /\ 0 <= al /\
    al + off + len <= 2 ^ 64) ->
  exists w' got' sys', access_parts (fun a off buf len => initiate core component NONE op a off buf len modeled)
      buf l head w got sys = Ok (Some (w', got'), sys') /\
    (l <> [] \/ located w -> located w') /\ after sys sys' /\ length got' = (length got + length l)%nat.
Proof.
  induction l as [|[[al off] len] l IH]; intros head w got sys Hok Hsv Hw Hl; cbn [access_parts].
  { exists w, got, sys. split; [done|]. split; [by intros [?|?]|]. split; [done|cbn; lia]. }
  destruct (Hl (al, off, len)) as (Hal & Ho & Hlen & Hfit & Ha & Hend); [by left|].
  destruct (mem_access sys core component op al off (slice head len buf) len modeled Hok Hsv Hal Ha Hend Ho Hlen Hfit)
    as (this & d & sys1 & E1 & Ht & Hok1 & Hb1 & Hs1). rewrite E1. cbn [rbind].
  pose proof (farther_located w this Hw Ht) as Hf.
  destruct (IH (head + len) (farther w this) (got ++ [d]) sys1) as (w' & got' & sys' & E2 & Hw' & Haf & Hg);
    [done|by apply Hs1|by right| |].
  { intros p Hp. rewrite Hb1. apply Hl. by right. }
  exists w', got', sys'. split; [done|]. split; [intros _; apply Hw'; by right|].
  split; [by eapply after_trans|]. rewrite length_app in Hg. cbn in *. lia.
Qed.

(** Enough rounds for an access of [size] bytes. *)
Definition rounds (size : Z) : nat := Z.to_nat (size + 3).

Lemma rounds_ok bs a size : 1 <= bs -> 0 < size -> (a + size) / bs + 2 - a / bs <= Z.of_nat (rounds size).
Proof.
  intros Hb Hs. unfold rounds. rewrite Z2Nat.id by lia.
  assert ((a + size) / bs <= a / bs + size) by (rewrite <- Z.div_add by lia; apply Z.div_le_mono; nia). lia.
Qed.

Lemma access_end bs e : 0 < bs -> e + bs < 2 ^ 64 -> e - e mod bs + bs < 2 ^ 64.
Proof. intros Hb He. pose proof (Z.mod_pos_bound e bs Hb). lia. Qed.

Lemma initiate_ok core component op a buf size modeled sys :
  mem_ok sys -> mem_serves sys core component -> 0 <= a -> 0 < size < 2 ^ 32 ->
  a + size + getCacheBlockSize sys < 2 ^ 64 ->
  exists w got sys', initiateMemoryAccess (rounds size) core component NONE op a buf size modeled sys =
      Ok (Some (w, got), sys') /\ located w /\ after sys sys' /\
    length got = length (parts (getCacheBlockSize sys) a (a + size)).
Proof.
  intros Hok Hsv Ha Hsize Hend. destruct (mem_block sys Hok) as (k & Hk & Hbs).
  assert (Hbs2 : 2 <= getCacheBlockSize sys < 2 ^ 32).
  { rewrite Hbs. split; [change 2 with (2 ^ 1) at 1; apply Z.pow_le_mono_r|apply Z.pow_lt_mono_r]; lia. }
  unfold initiateMemoryAccess. cbv zeta. rewrite (proj2 (Z.leb_gt size 0)), u64_small by lia.
  set (bs := getCacheBlockSize sys) in *. set (e := a + size) in *.
  assert (Hstart : a - a mod bs = a / bs * bs) by (pose proof (Z.div_mod a bs ltac:(lia)); lia).
  pose proof (Z.div_le_mono a (e - 1) bs ltac:(lia) ltac:(lia)) as Hmono.
  assert (Hloop : forall access, access_lines (rounds size) access bs a (a - a mod bs) e (e - e mod bs) buf (a - a mod bs)
    0 UNKNOWN [] sys = access_parts access buf (parts bs a e) 0 UNKNOWN [] sys).
  { intros access. unfold parts. rewrite <- access_lines_parts with (fuel := rounds size)
      by (try apply access_end; try apply rounds_ok; lia). by rewrite Hstart. }
  rewrite Hloop.
  destruct (access_parts_ok core component op modeled buf (parts bs a e) 0 UNKNOWN [] sys Hok Hsv)
    as (w & got & sys' & E & Hw & Haf & Hg); [by left| |].
  { intros [[al off] len] Hp. pose proof (parts_fit bs a e ltac:(lia) ltac:(lia) _ Hp) as Hfit. cbn in Hfit. fold bs. lia. }
  rewrite E. cbn [rbind]. assert (Hlw : located w).
  { apply Hw. left. unfold parts. rewrite parts_from_cons by lia. done. }
  unfold makeMemoryResult, NUM_HITWHERES. destruct Hlw as [Hm Hr]. change UNKNOWN with 21 in Hr |- *.
  rewrite (proj2 (Z.eqb_neq w 21)), (proj2 (Z.ltb_lt w 24)) by lia. cbn.
  exists w, got, sys'. split; [done|]. split; [|done]. by split.
Qed.

(** ** Instruction fetches *)
Definition line_of_address (bs a : Z) : Z := a - a mod bs.

Lemma line_mask sys a : mem_ok sys -> 0 <= a < 2 ^ 64 ->
  Z.land a (u64 (Z.lnot (getCacheBlockSize sys - 1))) = line_of_address (getCacheBlockSize sys) a.
Proof.
  intros Hok Ha. destruct (mem_block sys Hok) as (k & Hk & Hbs). rewrite Hbs. unfold line_of_address.
  assert (0 < 2 ^ k < 2 ^ 64) by (split; [lia|apply Z.pow_lt_mono_r; lia]).
  assert (u64 (Z.lnot (2 ^ k - 1)) = 2 ^ 64 - 2 ^ k) as ->.
  { unfold u64, uwrap, Z.lnot. rewrite <- (Z.mod_add _ 1), Z.mod_small by lia. lia. }
  apply land_high_mask; lia.
Qed.

Lemma line_bounds bs a : 0 < bs -> 0 <= a -> 0 <= line_of_address bs a <= a /\ line_of_address bs a mod bs = 0.
Proof.
  intros Hb Ha. unfold line_of_address. pose proof (Z.mod_pos_bound a bs Hb). pose proof (Z.mod_le a bs Ha Hb).
  split; [lia|]. rewrite Zminus_mod_idemp_r, Z.sub_diag. by apply Z.mod_0_l; lia.
Qed.

(** The line an instruction fetch asks the L1-I for, if it asks. *)
Definition fetched (bs last a size : Z) : option Z :=
  let line := line_of_address bs a in
  if line =? last then
    if line =? line_of_address bs (a + size - 1) then None else Some (line + bs)
  else Some line.

Lemma fetch_ok core a size c sys :
  mem_ok sys -> mem_serves sys core L1_ICACHE -> 0 <= a -> 0 < size ->
  a + size + 2 * getCacheBlockSize sys < 2 ^ 64 ->
  exists w got c' sys', readInstructionMemory (rounds (getCacheBlockSize sys)) core a size c sys =
      Ok (Some (w, got), c', sys') /\ located w /\ after sys sys' /\
    match fetched (getCacheBlockSize sys) (m_icache_last_block c) a size with
    | None => c' = c /\ sys' = sys
    | Some line => m_icache_last_block c' = line /\ length got = 1%nat
    end.
Proof.
  intros Hok Hsv Ha Hsize Hend. destruct (mem_block sys Hok) as (k & Hk & Hbs).
  set (bs := getCacheBlockSize sys) in *.
  assert (Hbs2 : 2 <= bs < 2 ^ 32).
  { rewrite Hbs. split; [change 2 with (2 ^ 1) at 1; apply Z.pow_le_mono_r|apply Z.pow_lt_mono_r]; lia. }
  assert (Hline : forall x, 0 <= x < 2 ^ 64 -> Z.land x (u64 (Z.lnot (bs - 1))) = line_of_address bs x)
    by (intros x Hx; by apply line_mask).
  pose proof (line_bounds bs a ltac:(lia) Ha) as [Hl Hm].
  assert (Hread : forall x, 0 <= x -> x + 2 * bs < 2 ^ 64 -> x mod bs = 0 ->
    exists w got sys', initiateMemoryAccess (rounds bs) core L1_ICACHE NONE READ x None bs MEM_MODELED_COUNT_TLBTIME sys =
      Ok (Some (w, got), sys') /\ located w /\ after sys sys' /\ length got = 1%nat).
  { intros x Hx Hxe Hxm. destruct (initiate_ok core L1_ICACHE READ x None bs MEM_MODELED_COUNT_TLBTIME sys)
      as (w & got & sys' & E & Hw & Haf & Hg); try done; try (fold bs; lia).
    exists w, got, sys'. do 3 (split; [done|]). rewrite Hg. fold bs. unfold parts, parts_from.
    rewrite length_fmap, length_seqZ. apply Z.div_exact in Hxm; [|lia].
    replace ((x + bs - 1) / bs) with (x / bs); [lia|].
    rewrite Hxm at 2. replace (bs * (x / bs) + bs - 1) with (x / bs * bs + (bs - 1)) by lia.
    rewrite Z.div_add_l, (Z.div_small (bs - 1)) by lia. lia. }
  unfold readInstructionMemory. fold bs. cbv zeta. rewrite (u64_small (a + size - 1)) by lia.
  rewrite (Hline a), (Hline (a + size - 1)) by lia. unfold fetched.
  destruct (line_of_address bs a =? m_icache_last_block c) eqn:E1; cbn [andb].
  - destruct (line_of_address bs a =? line_of_address bs (a + size - 1)) eqn:E2.
    + exists L1_ICACHE, [], c, sys. split; [done|]. split; [done|]. split; [|done]. split; [done|]. done.
    + pose proof (Z.div_mod a bs ltac:(lia)). pose proof (Z.div_mod (a + size - 1) bs ltac:(lia)).
      pose proof (Z.mod_pos_bound a bs ltac:(lia)). pose proof (Z.mod_pos_bound (a + size - 1) bs ltac:(lia)).
      assert (Hnext : line_of_address bs a + bs <= a + size - 1).
      { apply Z.eqb_neq in E2. unfold line_of_address in *. pose proof (Z.div_le_mono a (a + size - 1) bs ltac:(lia) ltac:(lia)).
        assert (a / bs <> (a + size - 1) / bs) by (intros Heq; rewrite Heq in *; lia).
        assert (bs * (a / bs) + bs <= bs * ((a + size - 1) / bs)) by nia. lia. }
      assert (Hmod : (line_of_address bs a + bs) mod bs = 0).
      { replace (line_of_address bs a + bs) with (line_of_address bs a + 1 * bs) by lia. by rewrite Z.mod_add by lia. }
      assert (Hself : line_of_address bs (line_of_address bs a + bs) = line_of_address bs a + bs)
        by (unfold line_of_address at 1; rewrite Hmod; lia).
      rewrite (u64_small (line_of_address bs a + bs)), Hline, Hself by lia.
      destruct (Hread (line_of_address bs a + bs)) as (w & got & sys' & E & Hw & Haf & Hg); [lia..|done|].
      rewrite E. cbn [rbind]. by exists w, got, (mkCore (line_of_address bs a + bs)), sys'.
  - rewrite (Hline a) by lia. destruct (Hread (line_of_address bs a)) as (w & got & sys' & E & Hw & Haf & Hg); [lia..|done|].
    rewrite E. cbn [rbind]. by exists w, got, (mkCore (line_of_address bs a)), sys'.
Qed.
End client.

(** ** The memory managers implement the interface *)
Definition tlb_opt_ok (q : Z) (o : option Tlb.TLB) : Prop := forall t, o = Some t -> tlb_ok q t.
Record core_tlbs_ok (q : Z) (t : CoreTlbs) : Prop := mkTlbsOk {
  to_itlb : tlb_opt_ok q (m_itlb t);
  to_dtlb : tlb_opt_ok q (m_dtlb t);
  to_stlb : tlb_opt_ok q (m_stlb t)
}.

Lemma accessTLB_ok q tlb stlb a ifetch g :
  tlb_ok q tlb -> tlb_opt_ok q stlb -> pfq_wf q g -> address a ->
  exists tlb' stlb' g', accessTLB tlb stlb a ifetch g = Ok (tlb', stlb', g') /\
    tlb_ok q tlb' /\ tlb_opt_ok q stlb' /\ pfq_wf q g'.
Proof.
  intros Ht Hs Hg Ha. unfold accessTLB.
  destruct (lookup_total q a ifetch true (tlb :: option_list stlb) g) as (hit & chain & g' & E & Hok & Hg' & Hlen);
    [done| |done|done|].
  { constructor; [done|]. destruct stlb as [t|]; cbn; [|constructor]. constructor; [by apply Hs|constructor]. }
  rewrite E. cbn [rbind]. destruct chain as [|t rest]; [done|]. apply Forall_cons in Hok as [Ht' Hrest].
  exists t, (head rest), g'. split; [done|]. split; [done|]. split; [|done].
  intros t1 Ht1. destruct rest as [|t2 rest]; [done|]. injection Ht1 as <-. by apply Forall_cons in Hrest as [? _].
Qed.

Lemma translate_ok q component a t g :
  core_tlbs_ok q t -> pfq_wf q g -> address a ->
  exists t' g', translate component a t g = Ok (t', g') /\ core_tlbs_ok q t' /\ pfq_wf q g'.
Proof.
  intros [Hi Hd Hs] Hg Ha. unfold translate. destruct (component =? L1_ICACHE); [|destruct (component =? L1_DCACHE)].
  - destruct (m_itlb t) as [tlb|] eqn:E; [|exists t, g; split; [done|split; [split; by rewrite ?E|done]]].
    destruct (accessTLB_ok q tlb (m_stlb t) a true g (Hi _ eq_refl) Hs Hg Ha) as (tlb' & stlb' & g' & -> & Ht' & Hs' & Hg').
    eexists _, g'. split; [done|]. split; [|done]. split; [by intros ? [= <-]|done..].
  - destruct (m_dtlb t) as [tlb|] eqn:E; [|exists t, g; split; [done|split; [split; by rewrite ?E|done]]].
    destruct (accessTLB_ok q tlb (m_stlb t) a false g (Hd _ eq_refl) Hs Hg Ha) as (tlb' & stlb' & g' & -> & Ht' & Hs' & Hg').
    eexists _, g'. split; [done|]. split; [|done]. split; [done|by intros ? [= <-]|done].
  - by exists t, g.
Qed.

Section system.
Context {P : Type} `{AlwaysReplaces P} `{!EnvFrame P}.
Implicit Types sys : System P.

Record sys_good sys : Prop := mkGood {
  g_hier : hinv (sys_hier sys);
  g_some : exists id c, h_cntlrs (sys_hier sys) !! id = Some c;
  g_tlbs : exists q, pfq_wf q (sys_shared sys) /\ Forall (core_tlbs_ok q) (sys_tlbs sys)
}.

(** The component is a first-level cache of a core that exists. *)
Record sys_serves sys (core component : Z) : Prop := mkServes {
  v_tlbs : is_Some (sys_tlbs sys !! Z.to_nat core);
  v_component : component <= last_level_cache (sys_config sys);
  v_controller : exists id c, getCacheCntlrAt (sys_config sys) core component (sys_hier sys) = Ok id /\
    h_cntlrs (sys_hier sys) !! id = Some c /\ is_Some (m_next_cache_cntlr c) /\
    prevs (sys_hier sys) (m_master c) = []
}.

Lemma hinv_with_pfq q (h : Hier P) : hinv h -> hinv (with_pfq q h).
Proof. intros [[] []]. by split. Qed.

Lemma system_block sys : sys_good sys -> exists k, 1 <= k <= 31 /\ h_block (sys_hier sys) = 2 ^ k.
Proof.
  intros [Hi (id & c & Hc) _]. destruct (block_power _ _ _ (i_wf _ Hi) Hc) as (k & Hk & Hb).
  pose proof (block_pos _ _ _ (i_wf _ Hi) Hc) as Hpos. exists k. split; [|done].
  destruct (decide (k = 0)) as [->|]; [rewrite Hb in Hpos; lia|lia].
Qed.

Lemma serves_same sys core component h t g k :
  same (with_pfq (Tlb.pfq g) (sys_hier sys)) h -> sys_serves sys core component ->
  sys_serves (mkSystem (sys_config sys) h (<[k := t]> (sys_tlbs sys)) g) core component.
Proof.
  intros Hs [Ht Hc (id & c & Hat & Hid & Hn & Hp)].
  assert (Hcn : h_cntlrs h = h_cntlrs (sys_hier sys)) by apply (same_cntlrs _ _ Hs).
  split; cbn [sys_config sys_hier sys_tlbs]; [|done|].
  - apply lookup_lt_is_Some_2. rewrite length_insert. by apply lookup_lt_is_Some_1.
  - exists id, c. split; [by unfold getCacheCntlrAt; rewrite Hcn|]. rewrite Hcn. split; [done|]. split; [done|].
    by rewrite (same_prevs _ _ Hs).
Qed.

Lemma system_access sys core component op a off buf len modeled :
  sys_good sys -> sys_serves sys core component ->
  a mod h_block (sys_hier sys) = 0 -> 0 <= a -> a + off + len <= 2 ^ 64 ->
  0 <= off -> 0 < len -> off + len <= h_block (sys_hier sys) ->
  exists w d sys', coreInitiateMemoryAccess core component NONE op a off buf len modeled sys = Ok (Done w d, sys') /\
    located w /\ sys_good sys' /\ h_block (sys_hier sys') = h_block (sys_hier sys) /\
    forall k c, sys_serves sys k c -> sys_serves sys' k c.
Proof.
  intros [Hi Hsome (q & Hg & Ht)] Hsv Hal Ha Hend Ho Hl Hf.
  pose proof Hsv as [[t Htl] Hcomp (id & c & Hat & Hid & Hn & Hp)].
  unfold coreInitiateMemoryAccess. rewrite (proj2 (Z.leb_le _ _) Hcomp), Htl. cbn [rguard of_option rbind].
  destruct (translate_ok q component a t (sys_shared sys)) as (t' & g' & E & Ht' & Hg'); try done.
  { by eapply Forall_lookup_1. }
  { unfold address. lia. }
  rewrite E. cbn [rbind]. pose proof (hinv_with_pfq (Tlb.pfq g') _ Hi) as Hi1.
  change (getCacheCntlrAt (sys_config sys) core component (with_pfq (Tlb.pfq g') (sys_hier sys)))
    with (getCacheCntlrAt (sys_config sys) core component (sys_hier sys)). rewrite Hat. cbn [rbind].
  set (o := mkOp id NONE op a off buf len _).
  destruct (op_ok (with_pfq (Tlb.pfq g') (sys_hier sys)) o c Hi1) as (w & d & h' & E1 & Hw & (Hi' & Hs' & _) & _);
    [split; cbn; try done; unfold address; lia|done|].
  rewrite E1. cbn [rbind]. eexists w, d, _. split; [done|]. split; [done|]. split; [|split; [by apply (same_block _ _ Hs')|]].
  - split; cbn; [done|by rewrite (same_cntlrs _ _ Hs')|]. exists q. split; [done|]. by apply Forall_insert.
  - intros k c' Hk. by apply serves_same.
Qed.

#[export] Instance system_laws : MemoryLaws (System P) := {
  mem_ok := sys_good;
  mem_serves := sys_serves;
  mem_block := system_block;
  mem_access := system_access
}.
End system.
