(* ===== verification/SystemProps.v ===== *)
(** The whole machine: cores, TLBs, cache hierarchy and DRAM, as the constructors
    build them, run by sequences of fetches and memory accesses. *)
From stdpp Require Import base numbers list gmap strings.
From Stdlib Require Import ZArith Lia Bool.
From S2P Require Import Prelude Utils CacheBlock CacheBase Replacement PolicyLru CacheSet Cache Tlb Queues DirectoryCntlr SwLlc Hierarchy HierView HierLower HierInsert HierInv HierReq HierOps MemoryManager MemoryWire Core CoreLines CoreProps.
Open Scope Z_scope.

(** The TLBs as MemoryManager reads them from the configuration: entries and
    associativity, no TLB for 0 entries. *)
Record TlbConfig := mkTlbConfig {
  tc_settings : Tlb.Settings;
  tc_uninit : Z;
  tc_itlb : Z * Z;
  tc_dtlb : Z * Z;
  tc_stlb : Z * Z
}.

Definition new_tlb (tc : TlbConfig) (sz : Z * Z) : result (option Tlb.TLB) :=
  if sz.1 =? 0 then Ok None
  else let! t := Tlb.create_tlb (tc_settings tc) (tc_uninit tc) sz.1 sz.2 in Ok (Some t).

Definition new_tlbs (tc : TlbConfig) : result CoreTlbs :=
  let! stlb := new_tlb tc (tc_stlb tc) in
  let! itlb := new_tlb tc (tc_itlb tc) in
  let! dtlb := new_tlb tc (tc_dtlb tc) in
  Ok (mkCoreTlbs itlb dtlb stlb).

Record Machine (P : Type) := mkMachine {
  cores_of : list Core;
  memory_of : System P
}.
Arguments mkMachine {P} _ _.
Arguments cores_of {P} _.
Arguments memory_of {P} _.

(** What the cores of a program do. *)
Inductive event :=
  | Fetch (core address size : Z)
  | Access (core : Z) (op : mem_op_t) (address size : Z) (modeled : MemModeled).

Section machine.
Context {P : Type} `{ReplacementPolicy P}.

Definition boot (cfg : MemConfig P) (num_cores : nat) (home : AddressHome.AddressHomeLookup) (block : Z)
    (settings : SwLlc.Settings) (tc : TlbConfig) : result (Machine P) :=
  let! h := build cfg (Z.of_nat num_cores) (no_cores home block settings) in
  let! t := new_tlbs tc in
  Ok (mkMachine (replicate num_cores new_core) (mkSystem cfg h (replicate num_cores t) (Tlb.mkShared [] 0))).

Definition run_event (e : event) (m : Machine P) : result (option hit_where * Machine P) :=
  match e with
  | Fetch core a size =>
      let! c := of_option (cores_of m !! Z.to_nat core) Undefined in
      let! (r, c, sys) := readInstructionMemory (rounds (getCacheBlockSize (memory_of m))) core a size c (memory_of m) in
      Ok (fst <$> r, mkMachine (<[Z.to_nat core := c]> (cores_of m)) sys)
  | Access core op a size modeled =>
      let! (r, sys) := accessMemory (rounds size) core NONE op a None size modeled false (memory_of m) in
      Ok (fst <$> r, mkMachine (cores_of m) sys)
  end.

(** The places the data came from, or [None] if a thread has to wait. *)
Fixpoint run_events (l : list event) (m : Machine P) : result (option (list hit_where) * Machine P) :=
  match l with
  | [] => Ok (Some [], m)
  | e :: l' =>
      let! (w, m) := run_event e m in
      match w with
      | None => Ok (None, m)
      | Some w =>
          let! (ws, m) := run_events l' m in
          Ok (cons w <$> ws, m)
      end
  end.
End machine.

(** Accesses below the last two blocks of the address space. *)
Definition valid_event (cores : nat) (block : Z) (e : event) : Prop :=
  match e with
  | Fetch core a size => 0 <= core < Z.of_nat cores /\ 0 <= a /\ 0 < size /\ a + size + 2 * block < 2 ^ 64
  | Access core _ a size _ =>
      0 <= core < Z.of_nat cores /\ 0 <= a /\ 0 <= size < 2 ^ 32 /\ a + size + block < 2 ^ 64
  end.

Definition tlb_size_ok (sz : Z * Z) : Prop :=
  0 < sz.2 <= 256 /\ 0 < sz.1 < 2 ^ 32 /\ Bits.isPower2 (sz.1 / sz.2) = true /\ sz.1 / sz.2 * sz.2 = sz.1.
Definition tlb_config_ok (tc : TlbConfig) : Prop :=
  settings_ok (tc_settings tc) /\ 0 <= tc_uninit tc /\
  tlb_size_ok (tc_itlb tc) /\ tlb_size_ok (tc_dtlb tc) /\ tlb_size_ok (tc_stlb tc).

Lemma new_tlb_ok tc sz :
  settings_ok (tc_settings tc) -> 0 <= tc_uninit tc -> tlb_size_ok sz ->
  exists t, new_tlb tc sz = Ok (Some t) /\ tlb_ok (Tlb.pfq_size (tc_settings tc)) t.
Proof.
  intros Hs Hu (Hw & Hn & Hp & Hm). unfold new_tlb. rewrite (proj2 (Z.eqb_neq _ 0)) by lia.
  destruct (create_tlb_ok (tc_settings tc) (tc_uninit tc) sz.1 sz.2) as [t E]; try done.
  rewrite E. exists t. split; [done|]. apply create_tlb_wf in E as [Hwf Hset]; try done.
  split; [by eexists|]. by rewrite Hset.
Qed.

Lemma new_tlbs_ok tc : tlb_config_ok tc ->
  exists t, new_tlbs tc = Ok t /\ core_tlbs_ok (Tlb.pfq_size (tc_settings tc)) t.
Proof.
  intros (Hs & Hu & Hi & Hd & Hst). unfold new_tlbs.
  destruct (new_tlb_ok tc _ Hs Hu Hst) as (t1 & -> & H1), (new_tlb_ok tc _ Hs Hu Hi) as (t2 & -> & H2),
    (new_tlb_ok tc _ Hs Hu Hd) as (t3 & -> & H3).
  eexists. split; [done|]. split; by intros ? [= <-].
Qed.

Section safe.
Context {P : Type} `{AlwaysReplaces P} `{!EnvFrame P}.
Implicit Types m : Machine P.

Definition machine_good (cores : nat) (block : Z) m : Prop :=
  mem_ok (memory_of m) /\ length (cores_of m) = cores /\ getCacheBlockSize (memory_of m) = block /\
  forall k, 0 <= k < Z.of_nat cores ->
    mem_serves (memory_of m) k L1_ICACHE /\ mem_serves (memory_of m) k L1_DCACHE.

Lemma machine_after cores block m c' sys' :
  machine_good cores block m -> after (memory_of m) sys' -> length c' = cores ->
  machine_good cores block (mkMachine c' sys').
Proof.
  intros (_ & _ & Hb & Hsv) (Hok & Hb' & Hs') Hc. split; [done|]. split; [done|]. split; [by etrans|].
  intros k Hk. destruct (Hsv k Hk). split; by apply Hs'.
Qed.

(** Every event runs to its end and finds its data somewhere. *)
Lemma run_event_ok cores block e m :
  machine_good cores block m -> valid_event cores block e ->
  exists w m', run_event e m = Ok (Some w, m') /\ (w = UNKNOWN \/ located w) /\ machine_good cores block m'.
Proof.
  intros Hm Hv. pose proof Hm as (Hok & Hlen & Hb & Hsv). destruct e as [k a size|k op a size modeled]; cbn in Hv.
  - destruct Hv as (Hk & Ha & Hsize & Hend). destruct (Hsv k Hk) as [Hi _]. unfold run_event.
    destruct (lookup_lt_is_Some_2 (cores_of m) (Z.to_nat k)) as [c Hc]; [lia|]. rewrite Hc. cbn [of_option rbind].
    destruct (fetch_ok k a size c (memory_of m) Hok Hi Ha Hsize) as (w & got & c' & sys' & E & Hw & Haf & _);
      [rewrite Hb; lia|]. rewrite E. cbn [rbind]. eexists w, _. split; [done|]. split; [by right|].
    eapply machine_after; [done..|]. by rewrite length_insert.
  - destruct Hv as (Hk & Ha & Hsize & Hend). destruct (Hsv k Hk) as [_ Hd]. unfold run_event, accessMemory. cbn [andb].
    rewrite (bool_decide_eq_false_2 (is_Some None)) by apply is_Some_None. cbn [andb].
    case_bool_decide.
    { cbn. eexists _, _. split; [done|]. split; [by left|]. by destruct m. }
    destruct (decide (size = 0)) as [->|Hne].
    { cbn. eexists _, _. split; [done|]. split; [by right|]. by destruct m. }
    destruct (initiate_ok k L1_DCACHE op a None size modeled (memory_of m) Hok Hd Ha) as (w & got & sys' & E & Hw & Haf & _);
      [lia|rewrite Hb; lia|]. rewrite E. cbn [rbind]. eexists w, _. split; [done|]. split; [by right|].
    by eapply machine_after.
Qed.

Lemma run_events_ok cores block l : forall m,
  machine_good cores block m -> Forall (valid_event cores block) l ->
  exists ws m', run_events l m = Ok (Some ws, m') /\ length ws = length l /\
    Forall (fun w => w = UNKNOWN \/ located w) ws /\ machine_good cores block m'.
Proof.
  induction l as [|e l IH]; intros m Hm Hl; cbn [run_events].
  { exists [], m. by split_and!. }
  apply Forall_cons in Hl as [He Hl]. destruct (run_event_ok cores block e m Hm He) as (w & m1 & E & Hw & Hm1).
  rewrite E. cbn [rbind]. destruct (IH m1 Hm1 Hl) as (ws & m' & E' & Hlen & Hws & Hm'). rewrite E'. cbn.
  eexists _, m'. split; [done|]. split; [cbn; lia|]. split; [by constructor|done].
Qed.

Lemma first_level_prevs L s block n (h : Hier P) (Hw : wired L s block n n n true h) i :
  (3 <= L)%nat -> (i mod L < 2)%nat -> prevs h (m_master (spec_cntlr L s i true)) = [].
Proof.
  intros HL Hi. destruct (prevs h _) as [|p l] eqn:E; [done|].
  assert (Hp : p ∈ prevs h (m_master (spec_cntlr L s i true))) by (rewrite E; by left).
  apply (w_prevs _ _ _ _ _ _ _ _ Hw) in Hp as (_ & _ & m & Hm & Hmi). cbn in Hmi.
  destruct (next_ix_split L HL _ _ Hm) as [_ Hlev], (master_ix_split L s HL m) as [_ J1], (master_ix_split L s HL i) as [_ J2].
  rewrite Hmi in J1. unfold next_level in Hlev. lia.
Qed.

Lemma no_cores_wired L s home block settings :
  SwLlc.cbpred settings = false -> wired L s block 0 0 0 false (no_cores (P := P) home block settings).
Proof.
  intros Hcb. split; try done; try (cbn; intros; lia).
  - intros m. cbn. rewrite lookup_empty. split; [by intros [? ?]|lia].
  - intros m p. unfold prevs. cbn. split; [intros Hx; by apply elem_of_nil in Hx|lia].
Qed.

(** The machine the constructors build is a good one. *)
Lemma boot_ok cfg cores L s home block settings tc :
  direct_config cfg cores L s block -> SwLlc.cbpred settings = false -> tlb_config_ok tc ->
  exists m, boot cfg cores home block settings tc = Ok m /\ machine_good cores block m.
Proof.
  intros Hcfg Hcb Htc. unfold boot.
  destruct (build_wired cfg cores L s block Hcfg _ (no_cores_wired L s home block settings Hcb)) as (h & E & Hw).
  rewrite E. cbn [rbind]. destruct (new_tlbs_ok tc Htc) as (t & -> & Ht). cbn [rbind].
  eexists. split; [done|]. pose proof (built_hinv cfg cores L s block Hcfg _ h eq_refl Hw) as Hi.
  pose proof (dc_cores _ _ _ _ _ Hcfg) as [Hc _]. pose proof (dc_levels _ _ _ _ _ Hcfg) as HL.
  split; [|split; [apply length_replicate|split; [apply (w_block _ _ _ _ _ _ _ _ Hw)|]]].
  - split; cbn; [done| |].
    + exists 0%nat, (spec_cntlr L s 0 true). apply (built_cntlr L s block _ h Hw). split; [nia|done].
    + exists (Tlb.pfq_size (tc_settings tc)). split; [|by apply Forall_replicate].
      unfold pfq_wf. cbn. pose proof (so_pfq _ (proj1 Htc)). lia.
  - intros k Hk. cbn [memory_of]. assert (Hsv : forall j, (j < 2)%nat ->
      sys_serves (mkSystem cfg h (replicate cores t) (Tlb.mkShared [] 0)) k (Z.of_nat j + 2)).
    { intros j Hj. set (i := (Z.to_nat k * L + j)%nat). destruct (split_ix L ltac:(lia) (Z.to_nat k) j) as [D M]; [lia|].
      assert (Hi' : (i < cores * L)%nat) by (unfold i; nia).
      split; cbn [sys_tlbs sys_config sys_hier].
      - apply lookup_lt_is_Some_2. rewrite length_replicate. lia.
      - rewrite (dc_last _ _ _ _ _ Hcfg). lia.
      - exists i, (spec_cntlr L s i true). split.
        { rewrite <- (Z2Nat.id k) at 1 by lia. apply (at_ok cfg cores L s block Hcfg); [lia|].
          rewrite (w_len _ _ _ _ _ _ _ _ Hw). exact Hi'. }
        split; [by apply (built_cntlr L s block _ h Hw)|]. split; [cbn; unfold next_ix, i; rewrite M, (proj2 (Nat.ltb_lt _ _)) by lia; by eexists|].
        apply (first_level_prevs L s block _ h Hw); [lia|]. unfold i. by rewrite M. }
    split; [apply (Hsv 0%nat); lia|apply (Hsv 1%nat); lia].
Qed.
End safe.

(** ** Machines with LRU caches *)

(** The cache of a level as the constructor makes it for the policy "lru". *)
Definition lru_cache (num_sets : Z) (ways : nat) (block : Z) : result (Cache Lru.t) :=
  let! b := create_base num_sets ways block HASH_MASK None in
  let! blk := create SHARED_CACHE in
  Ok (mkCache b false 0 0 SHARED_CACHE
        (replicate (Z.to_nat num_sets) (mkSet (replicate ways blk) None block (Lru.create ways 1)))
        (mkEnv (Some (create_set_info ways 1)) 0) None).

Lemma lru_cache_fresh num_sets ways block k :
  0 < num_sets < 2 ^ 32 -> Bits.isPower2 num_sets = true -> (0 < ways <= 256)%nat ->
  1 <= k <= 31 -> block = 2 ^ k ->
  exists c, lru_cache num_sets ways block = Ok c /\ fresh block c.
Proof.
  intros Hn Hp Hw Hk ->. unfold lru_cache.
  assert (Hb : exists b, create_base num_sets ways (2 ^ k) HASH_MASK None = Ok b /\
                 cb_blocksize b = 2 ^ k /\ m_num_sets b = num_sets).
  { unfold create_base. rewrite (proj2 (Z.eqb_neq num_sets 0)) by lia. cbn [negb rguard rbind].
    rewrite floorLog2_log2, Z.shiftl_1_l by lia.
    rewrite (proj2 (Z.eqb_eq num_sets (2 ^ Z.log2 num_sets))) by (by apply isPower2_spec). cbn. eauto. }
  destruct Hb as (b & Hb & Hbs & Hnum). rewrite Hb. cbn [rbind create]. eexists. split; [done|].
  assert (Hbw : base_wf b).
  { eapply (create_base_wf num_sets ways (2 ^ k) HASH_MASK b k); try done; lia. }
  split; [|split; [done|split]].
  - exists ways. split; [lia|]. rewrite <- Hnum, <- Hbs. apply empty_cache_wf; try done.
    + rewrite Hbs. change 1 with (2 ^ 0). apply Z.pow_lt_mono_r; lia.
    + apply lru_create_wf; lia.
  - intros j st Hj. apply lookup_replicate in Hj as [-> _]. cbn. by apply Forall_replicate.
  - intros tag. unfold line_of. destruct (set_of_tag _ tag); [|done]. cbn.
    destruct (replicate _ _ !! _) as [st|] eqn:Hst; [|done]. apply lookup_replicate in Hst as [-> _].
    change (contents_of (replicate ways evict_initial) !! tag = None). by rewrite contents_all_invalid.
Qed.

(** * Main theorems *)

(** C1: the machine runs: cores with TLBs, a cache hierarchy and DRAM, as the
    constructors build them, complete every sequence of instruction fetches and
    data accesses, with no failed assertion, missing line or endless loop; every
    access is told a place its data came from, and afterwards every cache still
    holds only blocks the next level holds, with no more rights than that.  The
    configurations are those with two to four levels of plain write-back caches
    (neither perfect nor pass-through nor write-through) under replacement
    policies that always find a victim, one last level shared by all cores with
    direct access to the DRAM of core 0, TLBs of sizes the constructor accepts
    with dpPred on or off, and cbPred switched off; the addresses end before the
    end of the address space. *)
Theorem machine_runs_safely {P} `{AlwaysReplaces P} `{!EnvFrame P} (cfg : MemConfig P) cores L s home block settings tc evs :
  direct_config cfg cores L s block -> SwLlc.cbpred settings = false -> tlb_config_ok tc ->
  Forall (valid_event cores block) evs ->
  exists m ws m', boot cfg cores home block settings tc = Ok m /\
    run_events evs m = Ok (Some ws, m') /\ length ws = length evs /\
    Forall (fun w => w = UNKNOWN \/ located w) ws /\
    let h := sys_hier (memory_of m') in
    forall c p t, p ∈ prevs h c -> (rank (lines h p t) <= rank (lines h c t))%nat.
Proof.
  intros Hcfg Hcb Htc Hev. destruct (boot_ok cfg cores L s home block settings tc Hcfg Hcb Htc) as (m & E & Hm).
  destruct (run_events_ok cores block evs m Hm Hev) as (ws & m' & E' & Hlen & Hws & Hm').
  exists m, ws, m'. do 4 (split; [done|]). intros h c p t. destruct Hm' as (Hok & _). apply (i_ordered _ (g_hier _ Hok)).
Qed.

(** Two cores with private first and second levels of 64-byte lines and one
    shared third level. *)
Definition demo_levels (j : nat) : nat := if (j =? 3)%nat then 2 else 1.
Definition demo_config : MemConfig Lru.t := mkMemConfig Lru.t 5 2
  (fun _ component => mkParams false false true false (if component =? 5 then 2 else 1))
  (fun _ component => lru_cache (if component =? 5 then 4 else 2) 2 64) true [0] [0] true.

Lemma demo_machine_config_ok : direct_config demo_config 2 4 demo_levels 64.
Proof.
  split; try done; try lia.
  - split; [lia|done].
  - intros core j Hj. unfold demo_levels. do 4 (destruct j as [|j]; [done|]). lia.
  - intros j. unfold demo_levels. destruct (j =? 3)%nat; lia.
  - intros j Hj. unfold demo_levels. destruct (Nat.eqb_spec j 3); [lia|].
    exists (if (next_level j =? 3)%nat then 2 else 1)%nat. by destruct (next_level j =? 3)%nat.
  - intros core component. cbn [new_cache demo_config].
    destruct (component =? 5); apply (lru_cache_fresh _ 2 64 6); try done; lia.
  - by apply list_elem_of_singleton.
  - intros k Hk. split; intros E%list_elem_of_singleton; lia.
Qed.

Definition demo_tlbs : TlbConfig := mkTlbConfig Tlb.default_settings 0 (128, 4) (64, 4) (1024, 4).
Definition no_cbpred_settings : SwLlc.Settings := SwLlc.mkSettings false 6 12 32 17.
Definition demo_home : AddressHome.AddressHomeLookup := AddressHome.mkAHL 6 63 [0] 1 64.
(** Both cores fetch, core 0 writes across a block border, core 1 reads it back. *)
Definition demo_events : list event :=
  [Fetch 0 0x400000 4; Access 0 WRITE 0x7f3c 8 MEM_MODELED_COUNT; Fetch 1 0x400ffe 4;
   Access 1 READ 0x7f3c 8 MEM_MODELED_TIME].

Lemma demo_tlbs_ok : tlb_config_ok demo_tlbs.
Proof. split; [split; cbn; lia|]. split; [cbn; lia|]. split_and!; (split_and!; [cbn; lia..|vm_compute; reflexivity|done]). Qed.

Lemma machine_runs_safely_witness :
  exists m ws m', boot demo_config 2 demo_home 64 no_cbpred_settings demo_tlbs = Ok m /\
    run_events demo_events m = Ok (Some ws, m') /\ length ws = 4%nat /\
    Forall (fun w => w = UNKNOWN \/ located w) ws /\
    let h := sys_hier (memory_of m') in
    forall c p t, p ∈ prevs h c -> (rank (lines h p t) <= rank (lines h c t))%nat.
Proof.
  apply (machine_runs_safely demo_config 2 4 demo_levels demo_home 64 no_cbpred_settings demo_tlbs demo_events).
  - apply demo_machine_config_ok.
  - reflexivity.
  - apply demo_tlbs_ok.
  - repeat constructor; cbn; lia.
Defined.
