(* ===== verification/HierProps.v ===== *)
(** What the cache hierarchy guarantees, and where it does not: operations of the
    cores, requests between levels, messages of the directory. *)
From stdpp Require Import base numbers list gmap strings.
From Stdlib Require Import ZArith Lia Bool.
From S2P Require Import Prelude Utils CacheBlock CacheBase Replacement PolicyLru CacheSet Cache Tlb Queues DirectoryCntlr SwLlc Hierarchy HierView HierLower HierInsert HierMsg HierInv HierReq HierOps MemoryManager MemoryWire Core CoreLines CoreProps SystemProps.
Open Scope Z_scope.

Section theorems.
Context {P : Type} `{AlwaysReplaces P} `{!EnvFrame P}.
Implicit Types h : Hier P.

(** C4: an operation of a core on part of a block completes at once and the first
    level then has the rights the operation needs; if it had them before, the
    first level answers and no line of any cache changes; otherwise lines of
    other blocks are at most lowered or evicted.  The invariant of the hierarchy
    is kept. *)
Theorem memory_op_served h o c :
  hinv h -> valid_op h o c -> (op_lock o = UNLOCK -> allowed h (op_type o) c (op_address o) = true) ->
  exists w d h', processMemOpFromCore o h = Ok (Done w d, h') /\ hinv h' /\
    allowed h' (op_type o) c (op_address o) = true /\
    (allowed h (op_type o) c (op_address o) = true ->
      w = At (m_mem_component c) false /\ forall x t, lines h' x t = lines h x t) /\
    (forall x t, t <> block h (op_address o) -> le_line (lines h' x t) (lines h x t)).
Proof.
  intros Hi Hv Hun. destruct (op_ok h o c Hi Hv Hun) as (w & d & h' & E & _ & (Hi' & _ & Ha & Ho) & Hhit).
  exists w, d, h'. do 4 (split; [done|]). intros x t Ht. by apply Ho.
Qed.

(** A locked pair: a read for ownership with the lock, and then the write
    that unlocks, on the same block with nothing between them; both complete,
    and the write hits the first level. *)
Theorem locked_pair_completes h o1 o2 c :
  hinv h -> valid_op h o1 c -> valid_op h o2 c ->
  op_lock o1 = LOCK -> op_type o1 = READ_EX -> op_lock o2 = UNLOCK -> op_type o2 = WRITE ->
  op_address o2 = op_address o1 ->
  exists w1 d1 h1 d2 h2, processMemOpFromCore o1 h = Ok (Done w1 d1, h1) /\
    processMemOpFromCore o2 h1 = Ok (Done (At (m_mem_component c) false) d2, h2) /\ hinv h2.
Proof.
  intros Hi Hv1 Hv2 Hl1 Ht1 Hl2 Ht2 Ha.
  destruct (op_ok h o1 c Hi Hv1) as (w1 & d1 & h1 & E1 & _ & (Hi1 & Hs1 & Ha1 & _) & _); [congruence|].
  assert (Hall : allowed h1 (op_type o2) c (op_address o2) = true).
  { rewrite Ht2, Ha. rewrite Ht1 in Ha1. exact Ha1. }
  destruct (op_ok h1 o2 c Hi1 (valid_same _ _ _ _ Hs1 Hv2)) as (w2 & d2 & h2 & E2 & _ & (Hi2 & _) & Hhit); [done|].
  destruct (Hhit Hall) as [-> _]. by exists w1, d1, h1, d2, h2.
Qed.

(** C5: a request to write: in a consistent hierarchy whose last level accesses
    the DRAM directly, with cbPred switched off, whatever level a request for
    ownership of a block reaches from a cache that does not hold the block, it
    succeeds, that level then holds the block MODIFIED, and no cache below the
    other previous levels holds it any more. *)
Theorem write_request_exclusive h id c requester op a count onCacheMiss :
  hinv h -> h_cntlrs h !! id = Some c -> address a -> a mod h_block h = 0 ->
  released h (m_master c) requester (block h a) -> op <> READ ->
  exists w h', processShmemReqFromPrevCache (depth h) id requester op a count onCacheMiss h = Ok (w, h') /\
    hinv h' /\ lines h' (m_master c) (block h a) = Some CacheState.MODIFIED /\
    forall x, siblings h (m_master c) requester x -> lines h' x (block h a) = None.
Proof.
  intros Hi Hc Ha Hal Hrel Hop.
  destruct (request_ok (depth h) id c requester op a count onCacheMiss h Hi Hc Ha Hal Hrel)
    as (w & h' & E & _ & Hi' & _ & Hp & _ & Hx); [pose proof (t_range _ (i_topo _ Hi) _ _ Hc); unfold depth; lia|].
  exists w, h'. do 2 (split; [done|]). split; [|by apply Hx].
  destruct (permitted_present _ _ Hp) as [s Hs]. rewrite Hs in Hp |- *. cbn in Hp.
  by destruct (i_states _ Hi' _ _ _ Hs) as [-> | ->]; destruct op.
Qed.

(** C6: messages of the directory: an invalidation, flush or write-back request
    at a last-level cache succeeds; it is answered, with the data where the
    reply carries data, exactly when the cache has the line; afterwards the
    block is gone from (for a write-back: at most SHARED in) the cache and all
    caches below it, and no other line has changed.  This assumes that an
    invalidation does not find the line MODIFIED, where the code fails an
    assertion, and that a write-back does not find it SHARED_UPGRADING, where
    the code answers and leaves the line as it is. *)
Theorem directory_request_lowers h id c sender t a req buf w :
  hwf h -> topo h -> states_ok h -> ordered h -> h_cntlrs h !! id = Some c -> m_next_cache_cntlr c = None ->
  address a -> a mod h_block h = 0 -> t = INV_REQ \/ t = FLUSH_REQ \/ t = WB_REQ ->
  (t = INV_REQ -> lines h (m_master c) (block h a) <> Some CacheState.MODIFIED) ->
  (t = WB_REQ -> lines h (m_master c) (block h a) <> Some CacheState.SHARED_UPGRADING) ->
  exists d h', handleMsgFromDramDirectory id sender (mkMsg t req a buf w) h = Ok h' /\
    h_sent h' = h_sent h ++ (if bool_decide (is_Some (lines h (m_master c) (block h a)))
                             then [mkDirMsg (reply_to t) req sender a d] else []) /\
    (t <> INV_REQ -> is_Some (lines h (m_master c) (block h a)) -> is_Some d) /\
    lowered h h' (below h (m_master c)) (block h a) (lowered_to t).
Proof. apply directory_request. Qed.

(** The answer to an upgrade whose line was lost: when an UPGRADE_REP reaches
    a last-level cache that no longer has the line, handling it always ends in
    an error, whether the message carries the data or not: the data is passed
    to updateCacheBlock as a buffer to be filled, and the line is not inserted. *)
Theorem upgrade_reply_for_lost_line_fails h id c msg :
  hwf h -> topo h -> ordered h -> h_cntlrs h !! id = Some c -> address (getAddress msg) ->
  lines h (m_master c) (block h (getAddress msg)) = None ->
  processUpgradeRepFromDramDirectory id msg h = Err LogError.
Proof.
  intros Hwf Ht Ho Hc Ha Hl. unfold processUpgradeRepFromDramDirectory.
  rewrite (state_ok h id c), Hl by done. cbn [from_option rbind].
  destruct (bool_decide (is_Some (getDataBuf msg))); [|done]. cbn [rguard rbind].
  rewrite (absent_update (depth h) h id c (getAddress msg)); try done.
  pose proof (t_range _ Ht _ _ Hc). unfold depth. lia.
Qed.
(** C40: a reader gets the right to write, and nobody is told when it does.  In
    a consistent hierarchy with direct DRAM access, let a core read a block that
    its first level does not have and that the nearest level above with the
    block holds MODIFIED (another core has written it).  The fill takes that
    state over, so the reader's first level holds the block MODIFIED; a cache
    that had the block still has it.  A write of the reader then hits its first
    level and changes no line of any cache, so that a core that had the block
    in its first level reads its own, now stale, copy. *)
Theorem reader_gets_write_rights h o1 o2 o3 c n c' :
  hinv h -> valid_op h o1 c -> valid_op h o2 c -> valid_op h o3 c' ->
  op_type o1 = READ -> op_type o2 = WRITE -> op_type o3 = READ -> op_lock o1 <> UNLOCK ->
  op_address o2 = op_address o1 -> op_address o3 = op_address o1 ->
  m_next_cache_cntlr c = Some n -> lines h (m_master c) (block h (op_address o1)) = None ->
  owned_above h (block h (op_address o1)) n -> is_Some (lines h (m_master c') (block h (op_address o1))) ->
  exists w1 d1 h1 d2 h2 d3 h3,
    processMemOpFromCore o1 h = Ok (Done w1 d1, h1) /\
    lines h1 (m_master c) (block h (op_address o1)) = Some CacheState.MODIFIED /\
    processMemOpFromCore o2 h1 = Ok (Done (At (m_mem_component c) false) d2, h2) /\
    (forall x t, lines h2 x t = lines h1 x t) /\
    processMemOpFromCore o3 h2 = Ok (Done (At (m_mem_component c') false) d3, h3) /\
    (forall x t, lines h3 x t = lines h2 x t).
Proof.
  intros Hi Hv1 Hv2 Hv3 Ht1 Ht2 Ht3 Hun Ha2 Ha3 Hn Hmiss Hown Hother.
  destruct (read_op_modified h o1 c n) as (w1 & d1 & h1 & E1 & Hi1 & Hs1 & Hl1 & Hkp); [done..|].
  assert (Hbk : forall h', same h h' -> block h' (op_address o1) = block h (op_address o1))
    by (intros h' Hs'; unfold block; by rewrite (same_block _ _ Hs')).
  assert (Hall2 : allowed h1 (op_type o2) c (op_address o2) = true)
    by (unfold allowed; by rewrite Ha2, Hbk, Hl1, Ht2).
  destruct (op_ok h1 o2 c Hi1) as (w2 & d2 & h2 & E2 & _ & (Hi2 & Hs2 & _) & Hhit2);
    [by eapply valid_same|done|]. destruct (Hhit2 Hall2) as [-> Hk2].
  assert (Hs02 : same h h2) by (by etrans).
  assert (Hall3 : allowed h2 (op_type o3) c' (op_address o3) = true).
  { unfold allowed. rewrite Ha3, Hbk, Hk2, Ht3 by done. destruct (Hkp _ Hother) as [s Hs]. rewrite Hs.
    by destruct (i_states _ Hi1 _ _ _ Hs) as [-> | ->]. }
  destruct (op_ok h2 o3 c' Hi2) as (w3 & d3 & h3 & E3 & _ & _ & Hhit3); [by eapply valid_same|done|].
  destruct (Hhit3 Hall3) as [-> Hk3]. exists w1, d1, h1, d2, h2, d3, h3. done.
Qed.

End theorems.

(** C9: construction: for every accepted configuration with direct DRAM access
    the memory managers of the cores, made one after the other, succeed and
    link their controllers to a hierarchy that satisfies the invariant: every
    cache lists exactly the caches whose next level it is, proxies of a shared
    cache agree on the next one, levels ascend, and the last one has the DRAM. *)
Theorem managers_build_hierarchy {P} `{AlwaysReplaces P} `{!EnvFrame P} (cfg : MemConfig P) cores L s home block settings :
  direct_config cfg cores L s block -> SwLlc.cbpred settings = false ->
  exists h, build cfg (Z.of_nat cores) (no_cores home block settings) = Ok h /\ hinv h /\
    length (h_cntlrs h) = (cores * L)%nat /\
    forall m p, p ∈ prevs h m <->
      (p < cores * L)%nat /\ master_ix L s p = p /\ exists n, next_ix L p = Some n /\ master_ix L s n = m.
Proof.
  intros Hcfg Hcb. destruct (build_wired cfg cores L s block Hcfg _ (no_cores_wired L s home block settings Hcb)) as (h & E & Hw).
  exists h. split; [done|]. split; [by apply (built_hinv cfg cores L s block Hcfg _ h eq_refl)|].
  split; [apply (w_len _ _ _ _ _ _ _ _ Hw)|apply (w_prevs _ _ _ _ _ _ _ _ Hw)].
Qed.

(** ** A machine with two cores *)
Definition demo_machine : Machine Lru.t :=
  match boot demo_config 2 demo_home 64 no_cbpred_settings demo_tlbs with
  | Ok m => m
  | Err _ => mkMachine [] (mkSystem demo_config (no_cores demo_home 64 no_cbpred_settings) [] (Tlb.mkShared [] 0))
  end.
Definition demo_run (evs : list event) : Machine Lru.t :=
  match run_events evs demo_machine with Ok (_, m) => m | Err _ => demo_machine end.
Definition demo_hits (evs : list event) (m : Machine Lru.t) : list hit_where :=
  match run_events evs m with Ok (Some ws, _) => ws | _ => [] end.
Definition demo_hier (evs : list event) : Hier Lru.t := sys_hier (memory_of (demo_run evs)).

Lemma demo_hier_inv evs : Forall (valid_event 2 64) evs -> hinv (demo_hier evs).
Proof.
  intros Hv. unfold demo_hier, demo_run, demo_machine.
  destruct (boot_ok demo_config 2 4 demo_levels demo_home 64 no_cbpred_settings demo_tlbs demo_machine_config_ok eq_refl demo_tlbs_ok)
    as (m & -> & Hm).
  destruct (run_events_ok 2 64 evs m Hm Hv) as (ws & m' & -> & _ & _ & (Hok & _)). apply Hok.
Qed.

(** The block of address 0x8000, and the second-core accesses to it. *)
Definition core0_writes : event := Access 0 WRITE 0x8000 8 MEM_MODELED_COUNT.
Definition core0_reads : event := Access 0 READ 0x8000 8 MEM_MODELED_COUNT.
Definition core1_writes : event := Access 1 WRITE 0x8000 8 MEM_MODELED_COUNT.
Definition core1_reads : event := Access 1 READ 0x8000 8 MEM_MODELED_COUNT.
Definition reads_other (core : Z) : event := Access core READ 0x9000 8 MEM_MODELED_COUNT.

(** Where data came from: with direct DRAM access the last level remembers
    the place of a fill also after it has reported it; the core's next request
    is a hit there, for another block, and is reported as a DRAM access. *)
Theorem stale_hit_where :
  let h := demo_hier [reads_other 1; core0_reads] in
  lines h 3 0x240 = Some CacheState.SHARED /\ lines h 1 0x240 = None /\ lines h 2 0x240 = None /\
  demo_hits [reads_other 0] (demo_run [reads_other 1; core0_reads]) = [From W_DRAM].
Proof. by vm_compute. Qed.

(** ** Witnesses *)
Definition demo_op (lock : lock_signal_t) (op : mem_op_t) : MemOp := mkOp 1 lock op 0x8000 8 None 8 true.
Definition l1d0 : Cntlr := spec_cntlr 4 demo_levels 1 true.
Definition llc0 : Cntlr := spec_cntlr 4 demo_levels 3 true.
Definition demo_h : Hier Lru.t := demo_hier [core0_writes; core1_reads].

Lemma demo_h_inv : hinv demo_h.
Proof. apply demo_hier_inv. repeat constructor; cbn; lia. Qed.

Lemma demo_op_valid lock op : valid_op demo_h (demo_op lock op) l1d0.
Proof.
  split; cbn [demo_op op_cntlr op_address op_offset op_length]; try (vm_compute; reflexivity).
  - by eexists.
  - unfold address. lia.
  - unfold address. lia.
  - assert (h_block demo_h = 64) as -> by (vm_compute; reflexivity). lia.
  - lia.
  - assert (h_block demo_h = 64) as -> by (vm_compute; reflexivity). lia.
Qed.

Lemma memory_op_served_witness :
  exists w d h', processMemOpFromCore (demo_op NONE WRITE) demo_h = Ok (Done w d, h') /\ hinv h' /\
    allowed h' WRITE l1d0 0x8000 = true /\
    (allowed demo_h WRITE l1d0 0x8000 = true ->
      w = At (m_mem_component l1d0) false /\ forall x t, lines h' x t = lines demo_h x t) /\
    (forall x t, t <> block demo_h 0x8000 -> le_line (lines h' x t) (lines demo_h x t)).
Proof.
  apply (memory_op_served demo_h (demo_op NONE WRITE) l1d0 demo_h_inv (demo_op_valid NONE WRITE)).
  discriminate.
Defined.

Lemma locked_pair_completes_witness :
  exists w1 d1 h1 d2 h2, processMemOpFromCore (demo_op LOCK READ_EX) demo_h = Ok (Done w1 d1, h1) /\
    processMemOpFromCore (demo_op UNLOCK WRITE) h1 = Ok (Done (At (m_mem_component l1d0) false) d2, h2) /\ hinv h2.
Proof.
  apply (locked_pair_completes demo_h (demo_op LOCK READ_EX) (demo_op UNLOCK WRITE) l1d0 demo_h_inv
    (demo_op_valid LOCK READ_EX) (demo_op_valid UNLOCK WRITE)); reflexivity.
Defined.

(** Core 0 has written the block, core 1 has not seen it. *)
Definition demo_h0 : Hier Lru.t := demo_hier [core0_writes].

Lemma demo_h0_inv : hinv demo_h0.
Proof. apply demo_hier_inv. repeat constructor; cbn; lia. Qed.

(** Operations on the block by either core's first-level data cache. *)
Definition data_op (id : nat) (op : mem_op_t) : MemOp := mkOp id NONE op 0x8000 8 None 8 true.
Definition l1d1 : Cntlr := spec_cntlr 4 demo_levels 5 true.

Lemma data_op_valid id c op :
  h_cntlrs demo_h0 !! id = Some c -> is_Some (m_next_cache_cntlr c) -> prevs demo_h0 (m_master c) = [] ->
  valid_op demo_h0 (data_op id op) c.
Proof.
  intros Hc Hn Hp. assert (Hb : h_block demo_h0 = 64) by (vm_compute; reflexivity).
  split; cbn [data_op op_cntlr op_address op_offset op_length]; rewrite ?Hb.
  - exact Hc.
  - exact Hn.
  - exact Hp.
  - unfold address. lia.
  - unfold address. lia.
  - reflexivity.
  - lia.
  - lia.
  - lia.
Qed.

Lemma data_ops_valid op : valid_op demo_h0 (data_op 1 op) l1d0 /\ valid_op demo_h0 (data_op 5 op) l1d1.
Proof. split; apply data_op_valid; try (vm_compute; reflexivity); by eexists. Qed.

Lemma reader_gets_write_rights_witness :
  exists w1 d1 h1 d2 h2 d3 h3,
    processMemOpFromCore (data_op 5 READ) demo_h0 = Ok (Done w1 d1, h1) /\
    lines h1 (m_master l1d1) (block demo_h0 0x8000) = Some CacheState.MODIFIED /\
    processMemOpFromCore (data_op 5 WRITE) h1 = Ok (Done (At (m_mem_component l1d1) false) d2, h2) /\
    (forall x t, lines h2 x t = lines h1 x t) /\
    processMemOpFromCore (data_op 1 READ) h2 = Ok (Done (At (m_mem_component l1d0) false) d3, h3) /\
    (forall x t, lines h3 x t = lines h2 x t).
Proof.
  apply (reader_gets_write_rights demo_h0 (data_op 5 READ) (data_op 5 WRITE) (data_op 1 READ) l1d1 6 l1d0).
  - apply demo_h0_inv.
  - apply data_ops_valid.
  - apply data_ops_valid.
  - apply data_ops_valid.
  - reflexivity.
  - reflexivity.
  - reflexivity.
  - discriminate.
  - reflexivity.
  - reflexivity.
  - reflexivity.
  - vm_compute. reflexivity.
  - apply (owned_next _ _ 6 (spec_cntlr 4 demo_levels 6 true) 7); try (vm_compute; reflexivity).
    apply (owned_here _ _ 7 (spec_cntlr 4 demo_levels 7 true)); vm_compute; reflexivity.
  - vm_compute. by eexists.
Defined.

Lemma write_request_exclusive_witness :
  lines demo_h0 1 0x200 = Some CacheState.MODIFIED /\
  exists w h', processShmemReqFromPrevCache (depth demo_h0) 3 6 WRITE 0x8000 true true demo_h0 = Ok (w, h') /\
    hinv h' /\ lines h' (m_master llc0) (block demo_h0 0x8000) = Some CacheState.MODIFIED /\
    forall x, siblings demo_h0 (m_master llc0) 6 x -> lines h' x (block demo_h0 0x8000) = None.
Proof.
  split; [vm_compute; reflexivity|].
  apply (write_request_exclusive demo_h0 3 llc0 6 WRITE 0x8000 true true demo_h0_inv).
  - vm_compute. reflexivity.
  - unfold address. lia.
  - vm_compute. reflexivity.
  - intros _. vm_compute. reflexivity.
  - discriminate.
Defined.

Lemma directory_request_lowers_witness :
  exists d h', handleMsgFromDramDirectory 3 0 (mkMsg FLUSH_REQ 1 0x8000 None W_UNKNOWN) demo_h0 = Ok h' /\
    h_sent h' = h_sent demo_h0 ++ (if bool_decide (is_Some (lines demo_h0 (m_master llc0) (block demo_h0 0x8000)))
                             then [mkDirMsg (reply_to FLUSH_REQ) 1 0 0x8000 d] else []) /\
    (FLUSH_REQ <> INV_REQ -> is_Some (lines demo_h0 (m_master llc0) (block demo_h0 0x8000)) -> is_Some d) /\
    lowered demo_h0 h' (below demo_h0 (m_master llc0)) (block demo_h0 0x8000) (lowered_to FLUSH_REQ).
Proof.
  apply (directory_request_lowers demo_h0 3 llc0 0 FLUSH_REQ 0x8000 1 None W_UNKNOWN).
  - apply demo_h0_inv.
  - apply demo_h0_inv.
  - apply hinv_states, demo_h0_inv.
  - apply demo_h0_inv.
  - vm_compute. reflexivity.
  - reflexivity.
  - unfold address. lia.
  - vm_compute. reflexivity.
  - right. left. reflexivity.
  - intros E. discriminate E.
  - intros E. discriminate E.
Defined.

Lemma upgrade_reply_for_lost_line_fails_witness :
  processUpgradeRepFromDramDirectory 3 (mkMsg UPGRADE_REP 0 0x9000 (Some None) W_UNKNOWN) demo_h0 = Err LogError.
Proof.
  apply (upgrade_reply_for_lost_line_fails demo_h0 3 llc0).
  - apply demo_h0_inv.
  - apply demo_h0_inv.
  - apply demo_h0_inv.
  - vm_compute. reflexivity.
  - unfold address. cbn. lia.
  - vm_compute. reflexivity.
Defined.

Lemma managers_build_hierarchy_witness :
  exists h, build demo_config 2 (no_cores demo_home 64 no_cbpred_settings) = Ok h /\ hinv h /\
    length (h_cntlrs h) = 8%nat /\
    forall m p, p ∈ prevs h m <->
      (p < 8)%nat /\ master_ix 4 demo_levels p = p /\ exists n, next_ix 4 p = Some n /\ master_ix 4 demo_levels n = m.
Proof.
  apply (managers_build_hierarchy demo_config 2 4 demo_levels demo_home 64 no_cbpred_settings).
  - apply demo_machine_config_ok.
  - reflexivity.
Defined.
