(* ===== verification/CoreTheorems.v ===== *)
(** What the core does with an access: the cut into blocks, instruction fetches,
    and the ends of the address space. *)
From stdpp Require Import base numbers list gmap strings.
From Stdlib Require Import ZArith Lia Bool.
From S2P Require Import Prelude Utils CacheBlock CacheBase Replacement PolicyLru CacheSet Cache Tlb Queues DirectoryCntlr SwLlc Hierarchy HierView HierLower HierInsert HierInv HierReq HierOps MemoryManager MemoryWire Core CoreLines CoreProps SystemProps HierProps.
Open Scope Z_scope.

Section endless.
Context {M : Type} `{MemoryLaws M}.
Implicit Types sys : M.

(** Rounds of the loop when the last block of the access is the last block of the
    address space: the counter wraps around before it exceeds the bound. *)
Lemma endless_rounds core component op modeled buf k bs a e : forall fuel curr head w got sys,
  1 <= k <= 31 -> bs = 2 ^ k -> 0 <= a < e -> e < 2 ^ 64 -> 2 ^ 64 - bs <= e ->
  mem_ok sys -> mem_serves sys core component -> getCacheBlockSize sys = bs ->
  0 <= curr <= 2 ^ 64 - bs -> curr mod bs = 0 ->
  access_lines fuel (fun a off buf len => initiate core component NONE op a off buf len modeled)
    bs a (a - a mod bs) e (e - e mod bs) buf curr head w got sys = Err OutOfFuel.
Proof.
  intros fuel curr head w got sys Hk Hbs Hae He Hlast.
  revert curr head w got sys. induction fuel as [|fuel IH]; intros curr head w got sys Hok Hsv Hb Hc Hm; [done|].
  assert (Hbp : 2 <= bs < 2 ^ 32).
  { rewrite Hbs. split; [change 2 with (2 ^ 1) at 1; apply Z.pow_le_mono_r|apply Z.pow_lt_mono_r]; lia. }
  assert (H64 : 2 ^ 64 = 2 ^ (64 - k) * bs) by (rewrite Hbs, <- Z.pow_add_r by lia; f_equal; lia).
  assert (Hend : e - e mod bs = 2 ^ 64 - bs).
  { rewrite (Z.mod_eq e bs) by lia. replace (e / bs) with (2 ^ (64 - k) - 1); [lia|].
    apply (Z.div_unique_pos e bs _ (e - (2 ^ 64 - bs))); lia. }
  pose proof (Z.mod_pos_bound a bs ltac:(lia)) as Ham. pose proof (Z.mod_pos_bound e bs ltac:(lia)) as Hem.
  cbn [access_lines]. rewrite Hend, (proj2 (Z.leb_le curr (2 ^ 64 - bs))) by lia.
  set (off := if curr =? a - a mod bs then a mod bs else 0).
  assert (Hoff : 0 <= off < bs) by (unfold off; destruct (curr =? _); lia).
  set (size := if curr =? 2 ^ 64 - bs then e mod bs - off else bs - off).
  assert (Hsize : 0 <= size /\ off + size <= bs).
  { unfold size, off. clear - Hae Hend Ham Hem Hbp. generalize dependent (a mod bs). generalize dependent (e mod bs).
    intros em Hend Hem am Ham. destruct (Z.eqb_spec curr (2 ^ 64 - bs)), (Z.eqb_spec curr (a - am)); lia. }
  rewrite (u32_small size) by lia.
  assert (Hnext : 0 <= u64 (curr + bs) <= 2 ^ 64 - bs /\ u64 (curr + bs) mod bs = 0).
  { destruct (decide (curr = 2 ^ 64 - bs)) as [->|Hne].
    - replace (2 ^ 64 - bs + bs) with (2 ^ 64) by lia. change (u64 (2 ^ 64)) with 0. rewrite Z.mod_0_l by lia. lia.
    - apply Z.mod_divide in Hm as [q Hq]; [|lia]. rewrite u64_small by lia.
      assert (q < 2 ^ (64 - k) - 1) by (apply (Z.mul_lt_mono_pos_r bs); lia).
      assert ((q + 1) * bs <= (2 ^ (64 - k) - 1) * bs) by (apply Z.mul_le_mono_nonneg_r; lia). split; [lia|].
      replace (curr + bs) with ((q + 1) * bs) by lia. apply Z_mod_mult. }
  destruct Hnext as [Hn1 Hn2].
  destruct ((curr =? 2 ^ 64 - bs) && (size =? 0)) eqn:Eq; [rewrite <- Hend; by apply IH|].
  assert (Hpos : 0 < size).
  { apply andb_false_iff in Eq as [Eq|Eq]; [|apply Z.eqb_neq in Eq; lia]. unfold size. rewrite Eq. lia. }
  destruct (mem_access sys core component op curr off (slice head size buf) size modeled Hok Hsv)
    as (this & d & sys1 & E1 & _ & Hok1 & Hb1 & Hs1); rewrite ?Hb; try done; try lia.
  rewrite E1. cbn [rbind]. rewrite <- Hend. apply IH; try done; [by apply Hs1|congruence].
Qed.
End endless.

(** C10: the cut of an access: for any block size and any access that ends below
    the last block of the address space, the loop of initiateMemoryAccess sends
    the memory system exactly the parts of the reference definition, one for
    each block touched, in order; each is a non-empty part of one block, and
    together they are the bytes of the access, each once. *)
Theorem access_cut_at_blocks {M} `{MemorySystem M} access bs a size buf fuel (sys : M) :
  0 < bs < 2 ^ 32 -> 0 <= a -> 0 < size -> a + size + bs < 2 ^ 64 -> (rounds size <= fuel)%nat ->
  access_lines fuel access bs a (a - a mod bs) (a + size) (a + size - (a + size) mod bs) buf (a - a mod bs)
    0 UNKNOWN [] sys = access_parts access buf (parts bs a (a + size)) 0 UNKNOWN [] sys /\
  mjoin (bytes_of <$> parts bs a (a + size)) = seqZ a size /\
  Forall (fun p => p.1.1 mod bs = 0 /\ 0 <= p.1.2 /\ 0 < p.2 /\ p.1.2 + p.2 <= bs) (parts bs a (a + size)).
Proof.
  intros Hbs Ha Hs Hend Hf. split; [|split].
  - unfold parts. rewrite <- access_lines_parts with (fuel := fuel).
    + f_equal. pose proof (Z.div_mod a bs ltac:(lia)). lia.
    + lia.
    + lia.
    + apply access_end; lia.
    + pose proof (Z.div_le_mono a (a + size - 1) bs ltac:(lia) ltac:(lia)). lia.
    + pose proof (rounds_ok bs a size ltac:(lia) Hs). lia.
  - rewrite parts_bytes by lia. f_equal. lia.
  - apply Forall_forall. intros [[al off] len] Hp. pose proof (parts_fit bs a (a + size) ltac:(lia) ltac:(lia) _ Hp) as Hfit.
    cbn in *. lia.
Qed.

(** The end of the address space: an access that ends in the last block never
    ends, since the address of the current block wraps around to 0 before it
    exceeds the last one; an access that goes beyond the last byte touches no
    block and stops the simulation with an error. *)
Theorem access_at_the_end {M} `{MemoryLaws M} core component op a buf size modeled (sys : M) :
  mem_ok sys -> mem_serves sys core component -> 0 <= a < 2 ^ 64 -> 0 < size < 2 ^ 32 ->
  2 ^ 64 - getCacheBlockSize sys <= a + size ->
  forall fuel, initiateMemoryAccess (S fuel) core component NONE op a buf size modeled sys =
    Err (if a + size <? 2 ^ 64 then OutOfFuel else LogError).
Proof.
  intros Hok Hsv Ha Hsize Hend fuel. destruct (mem_block sys Hok) as (k & Hk & Hbs).
  unfold initiateMemoryAccess. cbv zeta. rewrite (proj2 (Z.leb_gt size 0)) by lia.
  set (bs := getCacheBlockSize sys) in *.
  assert (Hbp : 2 <= bs < 2 ^ 32).
  { rewrite Hbs. split; [change 2 with (2 ^ 1) at 1; apply Z.pow_le_mono_r|apply Z.pow_lt_mono_r]; lia. }
  destruct (Z.ltb_spec (a + size) (2 ^ 64)) as [Hlt|Hge].
  - rewrite u64_small by lia. rewrite (endless_rounds core component op modeled buf k); try done; try lia.
    + assert (H64 : 2 ^ 64 = 2 ^ (64 - k) * bs) by (rewrite Hbs, <- Z.pow_add_r by lia; f_equal; lia).
      assert (a / bs < 2 ^ (64 - k)) by (apply Z.div_lt_upper_bound; lia).
      assert (a - a mod bs = a / bs * bs) by (rewrite (Z.mod_eq a bs) by lia; lia).
      pose proof (Z.div_pos a bs ltac:(lia) ltac:(lia)).
      assert (a / bs * bs <= (2 ^ (64 - k) - 1) * bs) by (apply Z.mul_le_mono_nonneg_r; lia). nia.
    + rewrite Zminus_mod_idemp_r, Z.sub_diag. apply Z.mod_0_l. lia.
  - assert (u64 (a + size) = a + size - 2 ^ 64) as ->.
    { unfold u64, uwrap. rewrite <- (Z.mod_add _ (-1)) by lia. rewrite Z.mod_small; lia. }
    cbn [access_lines]. rewrite (proj2 (Z.leb_gt (a - a mod bs) _)); [done|].
    pose proof (Z.mod_pos_bound a bs ltac:(lia)). pose proof (Z.mod_pos_bound (a + size - 2 ^ 64) bs ltac:(lia)). lia.
Qed.

(** Instruction fetches: a fetch from the line fetched last, and only from
    it, is answered without an access; any other makes exactly one access to
    the L1-I, for one line: the first line of the instruction unless that was
    fetched last, the second one then.  So an instruction across two new lines
    does not bring in its second line. *)
Theorem instruction_fetch_one_line {M} `{MemoryLaws M} core a size c (sys : M) :
  mem_ok sys -> mem_serves sys core L1_ICACHE -> 0 <= a -> 0 < size ->
  a + size + 2 * getCacheBlockSize sys < 2 ^ 64 ->
  exists w got c' sys', readInstructionMemory (rounds (getCacheBlockSize sys)) core a size c sys =
      Ok (Some (w, got), c', sys') /\ located w /\ mem_ok sys' /\
    match fetched (getCacheBlockSize sys) (m_icache_last_block c) a size with
    | None => c' = c /\ sys' = sys
    | Some line => m_icache_last_block c' = line /\ length got = 1%nat
    end.
Proof.
  intros Hok Hsv Ha Hs Hend.
  destruct (fetch_ok core a size c sys Hok Hsv Ha Hs Hend) as (w & got & c' & sys' & E & Hw & (Hok' & _) & Hf).
  by exists w, got, c', sys'.
Qed.

(** ** Witnesses *)
Lemma demo_machine_good : machine_good 2 64 demo_machine.
Proof.
  unfold demo_machine.
  by destruct (boot_ok demo_config 2 4 demo_levels demo_home 64 no_cbpred_settings demo_tlbs demo_machine_config_ok eq_refl demo_tlbs_ok)
    as (m & -> & Hm).
Qed.
Definition demo_system : System Lru.t := memory_of demo_machine.

Lemma access_cut_at_blocks_witness :
  parts 64 0x7f3c 0x7fc4 = [(0x7f00, 60, 4); (0x7f40, 0, 64); (0x7f80, 0, 64); (0x7fc0, 0, 4)] /\
  access_lines (rounds 136) (fun a off buf len => initiate 0 3 NONE READ a off buf len MEM_MODELED_COUNT) 64 0x7f3c
    (0x7f3c - 0x7f3c mod 64) (0x7f3c + 136) (0x7f3c + 136 - (0x7f3c + 136) mod 64) None (0x7f3c - 0x7f3c mod 64)
    0 UNKNOWN [] demo_system =
  access_parts (fun a off buf len => initiate 0 3 NONE READ a off buf len MEM_MODELED_COUNT) None
    (parts 64 0x7f3c (0x7f3c + 136)) 0 UNKNOWN [] demo_system /\
  mjoin (bytes_of <$> parts 64 0x7f3c (0x7f3c + 136)) = seqZ 0x7f3c 136 /\
  Forall (fun p => p.1.1 mod 64 = 0 /\ 0 <= p.1.2 /\ 0 < p.2 /\ p.1.2 + p.2 <= 64) (parts 64 0x7f3c (0x7f3c + 136)).
Proof. split; [vm_compute; reflexivity|]. apply access_cut_at_blocks; lia. Defined.

Lemma demo_serves core component :
  core = 0 \/ core = 1 -> component = L1_ICACHE \/ component = L1_DCACHE -> mem_serves demo_system core component.
Proof.
  intros Hc Hcomp. destruct demo_machine_good as (_ & _ & _ & Hsv). destruct (Hsv core) as [? ?]; [lia|].
  by destruct Hcomp as [-> | ->].
Qed.

Lemma access_at_the_end_witness :
  (forall fuel, initiateMemoryAccess (S fuel) 0 L1_DCACHE NONE READ (2 ^ 64 - 100) None 50 MEM_MODELED_COUNT demo_system =
    Err OutOfFuel) /\
  (forall fuel, initiateMemoryAccess (S fuel) 0 L1_DCACHE NONE READ (2 ^ 64 - 100) None 200 MEM_MODELED_COUNT demo_system =
    Err LogError).
Proof.
  destruct demo_machine_good as (Hok & _ & Hb & _).
  split; apply access_at_the_end; try exact Hok; try lia;
    first [apply demo_serves; [by left|by right]|change (getCacheBlockSize demo_system) with (getCacheBlockSize (memory_of demo_machine)); rewrite Hb; lia].
Defined.

Lemma instruction_fetch_one_line_witness :
  exists w got c' sys', readInstructionMemory (rounds (getCacheBlockSize demo_system)) 1 0x40003e 4 new_core demo_system =
      Ok (Some (w, got), c', sys') /\ located w /\ mem_ok sys' /\
    match fetched (getCacheBlockSize demo_system) (m_icache_last_block new_core) 0x40003e 4 with
    | None => c' = new_core /\ sys' = demo_system
    | Some line => m_icache_last_block c' = line /\ length got = 1%nat
    end.
Proof.
  destruct demo_machine_good as (Hok & _ & Hb & _).
  apply (instruction_fetch_one_line 1 0x40003e 4 new_core demo_system).
  - exact Hok.
  - apply demo_serves; [by right|by left].
  - lia.
  - lia.
  - change (getCacheBlockSize demo_system) with (getCacheBlockSize (memory_of demo_machine)). rewrite Hb. lia.
Defined.
