(* ===== verification/Sift.v ===== *)
(** The instruction trace format SIFT (sift/sift_format.h, sift_writer.cc,
    sift_reader.cc): the instrumented program writes records to the simulator,
    which answers some of them over a second stream, and may access the program's
    memory before it answers.

    A stream is the list of the bytes in it.  Reading beyond its end leaves the
    variable that is read unassigned.  Compression is left out: zlib carries the
    bytes of one stream over another.  The callbacks of both sides are arguments:
    [getCodeFunc] and the page table of the program, [handleAccessMemoryFunc], and
    the handlers of the simulator, which are scripts of memory accesses. *)
From stdpp Require Import base numbers list gmap strings.
From Stdlib Require Import ZArith Lia Bool.
From S2P Require Import Prelude.
Open Scope Z_scope.

(** ** Bytes *)

(** The [n] bytes of an integer, little-endian. *)
Fixpoint le (n : nat) (x : Z) : list Z :=
  match n with
  | O => []
  | S n' => x mod 256 :: le n' (x / 256)
  end.

Fixpoint of_le (l : list Z) : Z :=
  match l with
  | [] => 0
  | b :: l' => b + 256 * of_le l'
  end.

Notation stream := (list Z) (only parsing).

(** [input->read(buf, n)] *)
Definition get (n : Z) (s : stream) : result (list Z * stream) :=
  guard! n <=? Z.of_nat (length s) else Undefined in Ok (take (Z.to_nat n) s, drop (Z.to_nat n) s).

(** ... into an unsigned integer of [n] bytes *)
Definition get_u (n : nat) (s : stream) : result (Z * stream) :=
  let! (b, s) := get (Z.of_nat n) s in Ok (of_le b, s).

Definition peek (s : stream) : Z := match s with [] => 255 | b :: _ => b end.

(** ** The format *)
Definition MagicNumber : Z := 0x54464953.
Definition PAGE_SIZE_SIFT : Z := 4096.
Definition ICACHE_SIZE : Z := 0x1000.
Definition ICACHE_OFFSET_MASK : Z := ICACHE_SIZE - 1.
Definition icache_page (a : Z) : Z := Z.land a (u64 (Z.lnot ICACHE_OFFSET_MASK)).
Definition MAX_DYNAMIC_ADDRESSES : nat := 2.

Definition CompressionZlib : Z := 1.
Definition ArchIA32 : Z := 2.
Definition IcacheVariable : Z := 4.
Definition PhysicalAddress : Z := 8.

Inductive RecOtherType :=
  | RecOtherIcache | RecOtherOutput | RecOtherSyscallRequest | RecOtherSyscallResponse | RecOtherNewThread
  | RecOtherNewThreadResponse | RecOtherMemoryRequest | RecOtherMemoryResponse | RecOtherJoin
  | RecOtherJoinResponse | RecOtherEndResponse | RecOtherIcacheVariable | RecOtherSync | RecOtherSyncResponse
  | RecOtherLogical2Physical | RecOtherMagicInstruction | RecOtherMagicInstructionResponse
  | RecOtherRoutineChange | RecOtherRoutineAnnounce | RecOtherEmu | RecOtherEmuResponse | RecOtherFork
  | RecOtherForkResponse | RecOtherInstructionCount | RecOtherCacheOnly | RecOtherISAChange | RecOtherEnd.
#[global] Instance rec_other_eq_dec : EqDecision RecOtherType.
Proof. solve_decision. Defined.

Definition rec_types : list RecOtherType :=
  [RecOtherIcache; RecOtherOutput; RecOtherSyscallRequest; RecOtherSyscallResponse; RecOtherNewThread;
   RecOtherNewThreadResponse; RecOtherMemoryRequest; RecOtherMemoryResponse; RecOtherJoin;
   RecOtherJoinResponse; RecOtherEndResponse; RecOtherIcacheVariable; RecOtherSync; RecOtherSyncResponse;
   RecOtherLogical2Physical; RecOtherMagicInstruction; RecOtherMagicInstructionResponse;
   RecOtherRoutineChange; RecOtherRoutineAnnounce; RecOtherEmu; RecOtherEmuResponse; RecOtherFork;
   RecOtherForkResponse; RecOtherInstructionCount; RecOtherCacheOnly; RecOtherISAChange].

(** The value of the enumeration, and its constant for a byte that was read. *)
Definition rec_code (t : RecOtherType) : Z :=
  match t with
  | RecOtherEnd => 0xff
  | _ => match list_find (eq t) rec_types with Some (i, _) => Z.of_nat i | None => 0 end
  end.
Definition rec_of (b : Z) : option RecOtherType :=
  if b =? 0xff then Some RecOtherEnd else rec_types !! Z.to_nat b.

(** [Record::Other], without its data. *)
Definition other (t : RecOtherType) (size : Z) : list Z := le 1 0 ++ le 1 (rec_code t) ++ le 4 size.

(** [Record::Instruction] and [Record::InstructionExt], without the addresses: the
    bit fields are allocated from the lowest bit. *)
Definition bit_field (x : Z) (pos width : Z) : Z := Z.land (Z.shiftr x pos) (2 ^ width - 1).
Definition instruction_byte (size num : Z) (is_branch taken : bool) : Z :=
  Z.lor (Z.land size 15) (Z.lor (Z.shiftl (Z.land num 3) 4)
    (Z.lor (Z.shiftl (Z.b2z is_branch) 6) (Z.shiftl (Z.b2z taken) 7))).
Definition ext_byte0 (size : Z) : Z := Z.shiftl (Z.land size 15) 4.
Definition ext_byte1 (num : Z) (is_branch taken is_predicate executed : bool) : Z :=
  Z.lor (Z.land num 3) (Z.lor (Z.shiftl (Z.b2z is_branch) 2) (Z.lor (Z.shiftl (Z.b2z taken) 3)
    (Z.lor (Z.shiftl (Z.b2z is_predicate) 4) (Z.shiftl (Z.b2z executed) 5)))).

(** MemoryOpType *)
Definition MemRead : Z := 1.
Definition MemWrite : Z := 2.

(** sizeof(EmuRequest), sizeof(EmuReply) *)
Definition emu_request_size : nat := 8.
Definition emu_reply_size : nat := 48.

(** ** The writer *)
Record Writer := mkWriter {
  w_open : bool;
  w_last_address : Z;
  w_icache : gset Z;
  w_va2pa : gset Z;
  w_requires_icache_per_insn : bool;
  w_send_va2pa_mapping : bool;
  w_output : stream
}.

(** The methods that write. *)
Inductive call :=
  | Instruction (addr size : Z) (addresses : list Z) (is_branch taken is_predicate executed : bool)
  | InstructionCount (icount : Z)
  | CacheOnly (icount type eip address : Z)
  | Output (fd : Z) (data : list Z)
  | NewThread
  | Syscall (syscall_number : Z) (data : list Z)
  | Join (thread : Z)
  | Sync
  | Fork
  | Magic (a b c : Z)
  | Emulate (type : Z) (req : list Z)
  | RoutineChange (event eip esp callEip : Z)
  | RoutineAnnounce (eip : Z) (name imgname : list Z) (offset line column : Z) (filename : list Z)
  | ISAChange (new_isa : Z)
  | End_.

Section writer.
(** The code of the program from an address on, and the entry of a virtual page in
    /proc/self/pagemap, if it can be read. *)
Variable getCodeFunc : Z -> Z -> list Z.
Variable pagemap : Z -> option Z.

Definition put (l : list Z) (w : Writer) : Writer :=
  mkWriter (w_open w) (w_last_address w) (w_icache w) (w_va2pa w) (w_requires_icache_per_insn w)
    (w_send_va2pa_mapping w) (w_output w ++ l).
Definition with_output (l : stream) (w : Writer) : Writer :=
  mkWriter (w_open w) (w_last_address w) (w_icache w) (w_va2pa w) (w_requires_icache_per_insn w)
    (w_send_va2pa_mapping w) l.
Definition sent_code (a : Z) (w : Writer) : Writer :=
  mkWriter (w_open w) (w_last_address w) ({[a]} ∪ w_icache w) (w_va2pa w) (w_requires_icache_per_insn w)
    (w_send_va2pa_mapping w) (w_output w).
Definition sent_page (vp : Z) (w : Writer) : Writer :=
  mkWriter (w_open w) (w_last_address w) (w_icache w) ({[vp]} ∪ w_va2pa w) (w_requires_icache_per_insn w)
    (w_send_va2pa_mapping w) (w_output w).
Definition with_last_address (a : Z) (w : Writer) : Writer :=
  mkWriter (w_open w) a (w_icache w) (w_va2pa w) (w_requires_icache_per_insn w)
    (w_send_va2pa_mapping w) (w_output w).
Definition close (w : Writer) : Writer :=
  mkWriter false (w_last_address w) (w_icache w) (w_va2pa w) (w_requires_icache_per_insn w)
    (w_send_va2pa_mapping w) (w_output w).

(** The constructor, for an output that could be opened. *)
Definition new_writer (useCompression arch32 requires_icache_per_insn send_va2pa_mapping : bool) : Writer :=
  let opt b o := if b : bool then o else 0 in
  let options := Z.lor (opt useCompression CompressionZlib) (Z.lor (opt arch32 ArchIA32)
    (Z.lor (opt requires_icache_per_insn IcacheVariable) (opt send_va2pa_mapping PhysicalAddress))) in
  mkWriter true 0 ∅ ∅ requires_icache_per_insn send_va2pa_mapping
    (le 4 MagicNumber ++ le 4 0 ++ le 8 options).

Definition va2pa_lookup (vp : Z) : result Z :=
  if (0xffffffffff600 <=? vp) && (vp <? 0xfffffffffffff) then Ok vp
  else match pagemap vp with
       | None => Ok vp
       | Some pp =>
           if negb (Z.testbit pp 63) then Ok vp
           else let pfn := Z.land pp (2 ^ 54 - 1) in
                guard! negb (pfn =? 0) else AssertFailed in Ok pfn
       end.

Definition send_va2pa (va : Z) (w : Writer) : result Writer :=
  if negb (w_open w) then Ok w
  else if w_send_va2pa_mapping w then
    let vp := va / PAGE_SIZE_SIFT in
    if bool_decide (vp ∈ w_va2pa w) then Ok w
    else
      let! pp := va2pa_lookup vp in
      if pp =? 0 then Ok w
      else Ok (sent_page vp (put (other RecOtherLogical2Physical 16 ++ le 8 vp ++ le 8 pp) w))
  else Ok w.

Fixpoint send_all_va2pa (l : list Z) (w : Writer) : result Writer :=
  match l with
  | [] => Ok w
  | va :: l' => let! w := send_va2pa va w in send_all_va2pa l' w
  end.

(** The loop over the pages of an instruction. *)
Fixpoint send_pages (fuel : nat) (base_addr last : Z) (w : Writer) : result Writer :=
  match fuel with
  | O => Err OutOfFuel
  | S fuel' =>
      if base_addr <=? last then
        let w := if bool_decide (base_addr ∈ w_icache w) then w
                 else sent_code base_addr (put (other RecOtherIcache (8 + ICACHE_SIZE) ++ le 8 base_addr ++
                                                 getCodeFunc base_addr ICACHE_SIZE) w) in
        send_pages fuel' (u64 (base_addr + ICACHE_SIZE)) last w
      else Ok w
  end.

(** The code of an instruction that has not been sent before; an instruction lies
    in at most two pages. *)
Definition send_code (addr size : Z) (w : Writer) : result Writer :=
  if w_requires_icache_per_insn w then
    if bool_decide (addr ∈ w_icache w) then Ok w
    else Ok (sent_code addr (put (other RecOtherIcacheVariable (8 + size) ++ le 8 addr ++ getCodeFunc addr size) w))
  else send_pages 3 (icache_page addr) (icache_page (u64 (addr + size - 1))) w.

Definition write_instruction (addr size : Z) (addresses : list Z) (is_branch taken is_predicate executed : bool)
    (w : Writer) : result Writer :=
  guard! size <? 16 else AssertFailed in
  guard! (length addresses <=? MAX_DYNAMIC_ADDRESSES)%nat else AssertFailed in
  if negb (w_open w) then Ok w
  else
    let! w := send_code addr size w in
    let! w := send_va2pa addr w in
    let! w := send_all_va2pa addresses w in
    let num := Z.of_nat (length addresses) in
    let w := if (addr =? w_last_address w) && negb is_predicate
             then put (le 1 (instruction_byte size num is_branch taken)) w
             else with_last_address addr
                    (put (le 1 (ext_byte0 size) ++ le 1 (ext_byte1 num is_branch taken is_predicate executed) ++
                          le 8 addr) w) in
    let w := put (concat (le 8 <$> addresses)) w in
    Ok (with_last_address (u64 (w_last_address w + size)) w).

(** The argument [i] of a system call. *)
Definition syscall_arg (i : nat) (data : list Z) : result Z :=
  let! (_, data) := get (8 * Z.of_nat i) data in
  let! (a, _) := get_u 8 data in Ok a.

Definition SYS_write : Z := 1.
Definition SYS_futex : Z := 202.

(** A C string of which [u16 (strlen s + 1)] bytes are written. *)
Definition cstring (s : list Z) : list Z := take (Z.to_nat (u16 (Z.of_nat (length s) + 1))) (s ++ [0]).
Definition len_cstring (s : list Z) : Z := u16 (Z.of_nat (length s) + 1).

(** What each method writes, before it waits for an answer if it does. *)
Definition write (f : Writer -> result Writer) (w : Writer) : result Writer := if w_open w then f w else Ok w.

Definition write_instruction_count (icount : Z) : Writer -> result Writer := write (fun w =>
  Ok (put (other RecOtherInstructionCount 4 ++ le 4 icount) w)).
Definition write_cache_only (icount type eip address : Z) : Writer -> result Writer := write (fun w =>
  let! w := send_va2pa eip w in
  let! w := send_va2pa address w in
  Ok (put (other RecOtherCacheOnly 18 ++ le 1 icount ++ le 1 type ++ le 8 eip ++ le 8 address) w)).
Definition write_output (fd : Z) (data : list Z) : Writer -> result Writer := write (fun w =>
  Ok (put (other RecOtherOutput (1 + Z.of_nat (length data)) ++ le 1 fd ++ data) w)).
Definition write_new_thread : Writer -> result Writer := write (fun w => Ok (put (other RecOtherNewThread 0) w)).
Definition write_syscall (n : Z) (data : list Z) : Writer -> result Writer := write (fun w =>
  let! w := (if n =? SYS_futex then let! a := syscall_arg 0 data in send_va2pa a w
             else if n =? SYS_write then let! a := syscall_arg 1 data in send_va2pa a w
             else Ok w) in
  Ok (put (other RecOtherSyscallRequest (2 + Z.of_nat (length data)) ++ le 2 n ++ data) w)).
Definition write_join (thread : Z) : Writer -> result Writer := write (fun w =>
  Ok (put (other RecOtherJoin 4 ++ le 4 thread) w)).
Definition write_sync : Writer -> result Writer := write (fun w => Ok (put (other RecOtherSync 0) w)).
Definition write_fork : Writer -> result Writer := write (fun w => Ok (put (other RecOtherFork 0) w)).
Definition write_magic (a b c : Z) : Writer -> result Writer := write (fun w =>
  Ok (put (other RecOtherMagicInstruction 24 ++ le 8 a ++ le 8 b ++ le 8 c) w)).
Definition write_emulate (type : Z) (req : list Z) : Writer -> result Writer := write (fun w =>
  Ok (put (other RecOtherEmu (2 + Z.of_nat emu_request_size) ++ le 2 type ++ req) w)).
Definition write_routine_change (event eip esp callEip : Z) : Writer -> result Writer := write (fun w =>
  Ok (put (other RecOtherRoutineChange 25 ++ le 1 event ++ le 8 eip ++ le 8 esp ++ le 8 callEip) w)).
Definition write_routine_announce (eip : Z) (name imgname : list Z) (offset line column : Z) (filename : list Z)
  : Writer -> result Writer := write (fun w =>
  Ok (put (other RecOtherRoutineAnnounce
        (8 + 2 + len_cstring name + 2 + len_cstring imgname + 8 + 4 + 4 + 2 + len_cstring filename) ++
      le 8 eip ++ le 2 (len_cstring name) ++ cstring name ++ le 2 (len_cstring imgname) ++ cstring imgname ++
      le 8 offset ++ le 4 line ++ le 4 column ++ le 2 (len_cstring filename) ++ cstring filename) w)).
Definition write_isa_change (new_isa : Z) : Writer -> result Writer := write (fun w =>
  Ok (put (other RecOtherISAChange 4 ++ le 4 new_isa) w)).
Definition write_end : Writer -> result Writer := write (fun w => Ok (close (put (other RecOtherEnd 0) w))).

Definition request (c : call) : Writer -> result Writer :=
  match c with
  | Instruction addr size addresses is_branch taken is_predicate executed =>
      write_instruction addr size addresses is_branch taken is_predicate executed
  | InstructionCount icount => write_instruction_count icount
  | CacheOnly icount type eip address => write_cache_only icount type eip address
  | Output fd data => write_output fd data
  | NewThread => write_new_thread
  | Syscall n data => write_syscall n data
  | Join thread => write_join thread
  | Sync => write_sync
  | Fork => write_fork
  | Magic a b c => write_magic a b c
  | Emulate type req => write_emulate type req
  | RoutineChange event eip esp callEip => write_routine_change event eip esp callEip
  | RoutineAnnounce eip name imgname offset line column filename =>
      write_routine_announce eip name imgname offset line column filename
  | ISAChange new_isa => write_isa_change new_isa
  | End_ => write_end
  end.
End writer.

(** ** Answers, at the writer *)

(** What a method returns: an integer, or the flag and the reply of Emulate. *)
Inductive reply := Int (x : Z) | Emu (handled : Z) (res : list Z).

Definition get_other (s : stream) : result (Z * Z * Z * stream) :=
  let! (zero, s) := get_u 1 s in
  let! (type, s) := get_u 1 s in
  let! (size, s) := get_u 4 s in
  Ok (zero, type, size, s).
Definition has_other (s : stream) : bool := (6 <=? length s)%nat.
Definition is_type (b : Z) (t : RecOtherType) : bool := b =? rec_code t.

(** InstructionCount, NewThread, Join: one record with a 32-bit value, or else the
    default of the method. *)
Definition one_response (t : RecOtherType) (otherwise : Z) (convert : Z -> Z) (s : stream) : result (reply * stream) :=
  let! (zero, type, size, s) := get_other s in
  if (zero =? 0) && is_type type t && (size =? 4) then
    let! (x, s) := get_u 4 s in Ok (Int (convert x), s)
  else Ok (Int otherwise, s).

Definition ModeUnknown : Z := 0.
Definition response_instruction_count : stream -> result (reply * stream) :=
  one_response RecOtherSyncResponse ModeUnknown (fun x => x).
Definition response_new_thread : stream -> result (reply * stream) :=
  one_response RecOtherNewThreadResponse (-1) s32.
Definition response_join : stream -> result (reply * stream) :=
  one_response RecOtherJoinResponse (-1) s32.
(** Fork also checks the stream. *)
Definition response_fork (s : stream) : result (reply * stream) :=
  if has_other s then one_response RecOtherForkResponse (-1) s32 s else Ok (Int (-1), []).

Section answers.
(** [handleAccessMemoryFunc]: the memory of the program, and what the buffer holds
    afterwards. *)
Context {A : Type}.
Variable access_memory : Z -> Z -> Z -> list Z -> A -> list Z * A.

Definition handleMemoryRequest (rec_size : Z) (s : stream) (m : A) (w : Writer) : result (stream * A * Writer) :=
  if negb (w_open w) then Ok (s, m, w)
  else if rec_size <? 20 then Ok (s, m, w)
  else
    let! (addr, s) := get_u 8 s in
    let! (size, s) := get_u 4 s in
    let! (lock, s) := get_u 4 s in
    let! (type, s) := get_u 4 s in
    let payload_size := u32 (rec_size - 20) in
    if type =? MemRead then
      if negb (payload_size =? 0) || (size =? 0) then Ok (s, m, w)
      else
        let '(read_data, m) := access_memory lock type addr (replicate (Z.to_nat size) 0) m in
        Ok (s, m, put (other RecOtherMemoryResponse (12 + size) ++ le 8 addr ++ le 4 type ++ read_data) w)
    else if type =? MemWrite then
      if (payload_size =? 0) || negb (payload_size =? size) then Ok (s, m, w)
      else
        let! (payload, s) := get payload_size s in
        let '(_, m) := access_memory lock type addr payload m in
        Ok (s, m, put (other RecOtherMemoryResponse 12 ++ le 8 addr ++ le 4 type) w)
    else Ok (s, m, w).

(** One turn of the loop in which a method waits: [None] when it waits on. *)
Definition turn := (option reply * stream * A * Writer)%type.

Definition response_syscall (s : stream) (m : A) (w : Writer) : result turn :=
  guard! has_other s else AssertFailed in
  let! (zero, type, size, s) := get_other s in
  guard! zero =? 0 else AssertFailed in
  if is_type type RecOtherSyscallResponse then
    if size =? 8 then let! (x, s) := get_u 8 s in Ok (Some (Int x), s, m, w)
    else Ok (Some (Int 1), s, m, w)
  else if is_type type RecOtherMemoryRequest then
    let! (s, m, w) := handleMemoryRequest size s m w in Ok (None, s, m, w)
  else Ok (None, s, m, w).

Definition response_sync (s : stream) (m : A) (w : Writer) : result turn :=
  if has_other s then
    let! (zero, type, size, s) := get_other s in
    if negb (zero =? 0) then Ok (Some (Int ModeUnknown), s, m, w)
    else if is_type type RecOtherSyncResponse then
      if size =? 4 then let! (x, s) := get_u 4 s in Ok (Some (Int x), s, m, w)
      else Ok (Some (Int ModeUnknown), s, m, w)
    else if is_type type RecOtherMemoryRequest then
      let! (s, m, w) := handleMemoryRequest size s m w in Ok (None, s, m, w)
    else Ok (Some (Int ModeUnknown), s, m, w)
  else Ok (Some (Int ModeUnknown), [], m, w).

Definition response_magic (s : stream) (m : A) (w : Writer) : result turn :=
  guard! has_other s else AssertFailed in
  let! (zero, type, size, s) := get_other s in
  guard! zero =? 0 else AssertFailed in
  if is_type type RecOtherMagicInstructionResponse then
    guard! size =? 8 else AssertFailed in
    let! (x, s) := get_u 8 s in Ok (Some (Int x), s, m, w)
  else if is_type type RecOtherMemoryRequest then
    let! (s, m, w) := handleMemoryRequest size s m w in Ok (None, s, m, w)
  else Err AssertFailed.

(** A shorter reply leaves the end of the caller's buffer as it was. *)
Definition response_emulate (s : stream) (m : A) (w : Writer) : result turn :=
  guard! has_other s else AssertFailed in
  let! (zero, type, size, s) := get_other s in
  guard! zero =? 0 else AssertFailed in
  if is_type type RecOtherEmuResponse then
    guard! size <=? 1 + Z.of_nat emu_reply_size else AssertFailed in
    let! (result, s) := get_u 1 s in
    let! (res, s) := get (u64 (size - 1)) s in
    Ok (Some (Emu (Z.b2z (negb (result =? 0))) res), s, m, w)
  else if is_type type RecOtherMemoryRequest then
    let! (s, m, w) := handleMemoryRequest size s m w in Ok (None, s, m, w)
  else Ok (Some (Emu 0 []), s, m, w).

(** The answer a call waits for; [None] for a call that does not wait. *)
Definition on_response (c : call) : option (stream -> A -> Writer -> result turn) :=
  let once f := Some (fun s m w => let! (r, s) := f s in Ok (Some r, s, m, w)) in
  match c with
  | InstructionCount _ => once response_instruction_count
  | NewThread => once response_new_thread
  | Join _ => once response_join
  | Fork => once response_fork
  | Syscall _ _ => Some response_syscall
  | Sync => Some response_sync
  | Magic _ _ _ => Some response_magic
  | Emulate _ _ => Some response_emulate
  | _ => None
  end.

(** What a call returns when the output is closed. *)
Definition closed_reply (c : call) : option reply :=
  match c with
  | InstructionCount _ | Sync => Some (Int ModeUnknown)
  | NewThread | Join _ | Fork => Some (Int (-1))
  | Syscall _ _ | Magic _ _ _ => Some (Int 1)
  | Emulate _ _ => Some (Emu 0 [])
  | _ => None
  end.
End answers.

(** ** The reader *)

(** A byte of the code cache that no record has filled is [None]. *)
Notation code := (list (option Z)) (only parsing).

(** StaticInstruction; [s_next] is the address of the instruction that followed. *)
Record Static := mkStatic {
  s_addr : Z;
  s_size : Z;
  s_data : code;
  s_next : option Z
}.

(** Sift::Instruction *)
Record Inst := mkInst {
  i_addr : Z;
  i_size : Z;
  i_data : code;
  i_addresses : list Z;
  i_is_branch : bool;
  i_taken : bool;
  i_is_predicate : bool;
  i_executed : bool;
  i_isa : Z
}.

(** The calls of the handlers. *)
Inductive item :=
  | HandleInstructionCount (icount : Z)
  | HandleCacheOnly (icount type eip address : Z)
  | HandleOutput (fd : Z) (data : list Z)
  | HandleSyscall (syscall_number : Z) (data : list Z)
  | HandleNewThread
  | HandleJoin (thread : Z)
  | HandleFork
  | HandleMagic (a b c : Z)
  | HandleEmu (type : Z) (req : list Z)
  | HandleRoutineChange (event eip esp callEip : Z)
  | HandleRoutineAnnounce (eip : Z) (name imgname : list Z) (offset line column : Z) (filename : list Z).

Record Reader := mkReader {
  r_last_address : Z;
  r_icache : gmap Z code;
  r_scache : gmap Z Static;
  r_vcache : gmap Z Z;
  r_trace_has_pa : bool;
  r_seen_end : bool;
  r_last_sinst : option Z;
  r_isa : Z
}.

Definition new_reader : Reader := mkReader 0 ∅ ∅ ∅ false false None 0.
Definition with_code (c : gmap Z code) (r : Reader) : Reader :=
  mkReader (r_last_address r) c (r_scache r) (r_vcache r) (r_trace_has_pa r) (r_seen_end r) (r_last_sinst r) (r_isa r).
Definition with_static (c : gmap Z Static) (l : option Z) (r : Reader) : Reader :=
  mkReader (r_last_address r) (r_icache r) c (r_vcache r) (r_trace_has_pa r) (r_seen_end r) l (r_isa r).
Definition with_vcache (c : gmap Z Z) (r : Reader) : Reader :=
  mkReader (r_last_address r) (r_icache r) (r_scache r) c (r_trace_has_pa r) (r_seen_end r) (r_last_sinst r) (r_isa r).
Definition with_position (a : Z) (r : Reader) : Reader :=
  mkReader a (r_icache r) (r_scache r) (r_vcache r) (r_trace_has_pa r) (r_seen_end r) (r_last_sinst r) (r_isa r).
Definition with_isa (i : Z) (r : Reader) : Reader :=
  mkReader (r_last_address r) (r_icache r) (r_scache r) (r_vcache r) (r_trace_has_pa r) (r_seen_end r) (r_last_sinst r) i.
Definition with_pa (b : bool) (r : Reader) : Reader :=
  mkReader (r_last_address r) (r_icache r) (r_scache r) (r_vcache r) b (r_seen_end r) (r_last_sinst r) (r_isa r).
Definition seen_end (r : Reader) : Reader :=
  mkReader (r_last_address r) (r_icache r) (r_scache r) (r_vcache r) (r_trace_has_pa r) true (r_last_sinst r) (r_isa r).

(** [initStream], for a stream that could be opened: whether the trace is accepted.
    [inflate] is the decompression of zlib. *)
Definition initStream (inflate : stream -> stream) (r : Reader) (s : stream) : result (bool * Reader * stream) :=
  let! (magic, s) := get_u 4 s in
  let! (_, s) := get_u 4 s in
  let! (options, s) := get_u 8 s in
  if negb (magic =? MagicNumber) then Ok (false, r, s)
  else
    let s := if Z.land options CompressionZlib =? 0 then s else inflate s in
    let r := if Z.land options PhysicalAddress =? 0 then r else with_pa true r in
    let known := Z.lor CompressionZlib (Z.lor ArchIA32 (Z.lor PhysicalAddress IcacheVariable)) in
    Ok (Z.ldiff options known =? 0, r, s).

(** The loop that reads a RecOtherIcacheVariable record into the pages. *)
Fixpoint read_code (fuel : nat) (address size_left : Z) (c : gmap Z code) (s : stream) : result (gmap Z code * stream) :=
  match fuel with
  | O => Err OutOfFuel
  | S fuel' =>
      if 0 <? size_left then
        let base_addr := icache_page address in
        let page := default (replicate (Z.to_nat ICACHE_SIZE) None) (c !! base_addr) in
        let offset := Z.land address ICACHE_OFFSET_MASK in
        let read_amount := Z.min size_left (ICACHE_SIZE - offset) in
        let! (bytes, s) := get read_amount s in
        let page := take (Z.to_nat offset) page ++ (Some <$> bytes) ++ drop (Z.to_nat (offset + read_amount)) page in
        read_code fuel' (u64 (base_addr + ICACHE_SIZE)) (size_left - read_amount) (<[base_addr := page]> c) s
      else Ok (c, s)
  end.

(** [staticInfoInstruction]: the code of an instruction, from the pages it lies in. *)
Fixpoint copy_code (fuel : nat) (base_addr offset size : Z) (c : gmap Z code) : result code :=
  match fuel with
  | O => Err OutOfFuel
  | S fuel' =>
      if 0 <? size then
        let _size := Z.min size (ICACHE_SIZE - offset) in
        let! page := of_option (c !! base_addr) AssertFailed in
        let! rest := copy_code fuel' (u64 (base_addr + ICACHE_SIZE)) 0 (size - _size) c in
        Ok (take (Z.to_nat _size) (drop (Z.to_nat offset) page) ++ rest)
      else Ok []
  end.

Definition staticInfoInstruction (addr size : Z) (r : Reader) : result Static :=
  let! data := copy_code 17 (icache_page addr) (Z.land addr ICACHE_OFFSET_MASK) size (r_icache r) in
  Ok (mkStatic addr size data None).

Definition set_next (n : Z) (s : Static) : Static := mkStatic (s_addr s) (s_size s) (s_data s) (Some n).

(** Static instructions are named by their addresses. *)
Definition getStaticInstruction (addr size : Z) (r : Reader) : result (Static * Reader) :=
  let last := l ← r_last_sinst r; r_scache r !! l in
  let! (sinst, sc) :=
    (if bool_decide ((last ≫= s_next) = Some addr) then
       let! sinst := of_option (r_scache r !! addr) Undefined in Ok (sinst, r_scache r)
     else
       match r_scache r !! addr with
       | Some sinst => guard! s_size sinst =? size else AssertFailed in Ok (sinst, r_scache r)
       | None =>
           let! sinst := staticInfoInstruction addr size r in
           Ok (sinst, <[addr := sinst]> (r_scache r))
       end) in
  let sc := match r_last_sinst r, last with
            | Some l, Some s => if bool_decide (s_next s = None) then alter (set_next addr) l sc else sc
            | _, _ => sc
            end in
  Ok (sinst, with_static sc (Some addr) r).

Fixpoint get_addresses (n : nat) (s : stream) : result (list Z * stream) :=
  match n with
  | O => Ok ([], s)
  | S n' =>
      let! (a, s) := get_u 8 s in
      let! (l, s) := get_addresses n' s in
      Ok (a :: l, s)
  end.

(** What one turn of the loop in [Read] does: nothing for the caller, a call of a
    handler without or with an answer, an instruction, or the end. *)
Inductive step := Skip | Tell (i : item) | Ask (i : item) | Got (i : Inst) | Ended.

(** The second half of the loop: an instruction. *)
Definition read_instruction (byte : Z) (r : Reader) (s : stream) : result (step * Reader * stream) :=
  let! (size, addr, num, fields, r, s) :=
    (if negb (Z.land byte 15 =? 0) then
       let! (b, s) := get_u 1 s in
       Ok (bit_field b 0 4, r_last_address r, bit_field b 4 2,
           (Z.testbit b 6, Z.testbit b 7, false, true), r, s)
     else
       let! (b0, s) := get_u 1 s in
       let! (b1, s) := get_u 1 s in
       let! (addr, s) := get_u 8 s in
       Ok (bit_field b0 4 4, addr, bit_field b1 0 2,
           (Z.testbit b1 2, Z.testbit b1 3, Z.testbit b1 4, Z.testbit b1 5), with_position addr r, s)) in
  let r := with_position (u64 (r_last_address r + size)) r in
  guard! (Z.to_nat num <=? MAX_DYNAMIC_ADDRESSES)%nat else Undefined in
  let! (addresses, s) := get_addresses (Z.to_nat num) s in
  let! (sinst, r) := getStaticInstruction addr size r in
  let '(is_branch, taken, is_predicate, executed) := fields in
  Ok (Got (mkInst (s_addr sinst) (s_size sinst) (s_data sinst) addresses is_branch taken is_predicate executed
             (r_isa r)), r, s).

Definition read_other (r : Reader) (s : stream) : result (step * Reader * stream) :=
  let! (_, type, size, s) := get_other s in
  let check (b : bool) (k : result (step * Reader * stream)) := guard! b else AssertFailed in k in
  match rec_of type with
  | Some RecOtherEnd => check (size =? 0) (Ok (Ended, seen_end r, s))
  | Some RecOtherIcache => check (size =? 8 + ICACHE_SIZE) (
      let! (address, s) := get_u 8 s in
      let! (bytes, s) := get ICACHE_SIZE s in
      Ok (Skip, with_code (<[address := Some <$> bytes]> (r_icache r)) r, s))
  | Some RecOtherIcacheVariable =>
      let! (address, s) := get_u 8 s in
      let! (c, s) := read_code (S (length s)) address (u64 (size - 8)) (r_icache r) s in
      Ok (Skip, with_code c r, s)
  | Some RecOtherLogical2Physical => check (size =? 16) (
      let! (vp, s) := get_u 8 s in
      let! (pp, s) := get_u 8 s in
      Ok (Skip, with_vcache (<[vp := pp]> (r_vcache r)) r, s))
  | Some RecOtherInstructionCount => check (size =? 4) (
      let! (icount, s) := get_u 4 s in Ok (Ask (HandleInstructionCount icount), r, s))
  | Some RecOtherCacheOnly => check (size =? 18) (
      let! (icount, s) := get_u 1 s in
      let! (type, s) := get_u 1 s in
      let! (eip, s) := get_u 8 s in
      let! (address, s) := get_u 8 s in
      Ok (Tell (HandleCacheOnly icount type eip address), r, s))
  | Some RecOtherOutput => check (1 <? size) (
      let! (fd, s) := get_u 1 s in
      let! (data, s) := get (size - 1) s in
      Ok (Tell (HandleOutput fd data), r, s))
  | Some RecOtherSyscallRequest => check (2 <? size) (
      let! (n, s) := get_u 2 s in
      let! (data, s) := get (size - 2) s in
      Ok (Ask (HandleSyscall n data), r, s))
  | Some RecOtherNewThread => check (size =? 0) (Ok (Ask HandleNewThread, r, s))
  | Some RecOtherJoin => check (size =? 4) (
      let! (thread, s) := get_u 4 s in Ok (Ask (HandleJoin (s32 thread)), r, s))
  | Some RecOtherSync => check (size =? 0) (Ok (Ask (HandleInstructionCount 0), r, s))
  | Some RecOtherFork => check (size =? 0) (Ok (Ask HandleFork, r, s))
  | Some RecOtherMagicInstruction => check (size =? 24) (
      let! (a, s) := get_u 8 s in
      let! (b, s) := get_u 8 s in
      let! (c, s) := get_u 8 s in
      Ok (Ask (HandleMagic a b c), r, s))
  | Some RecOtherEmu => check (size <=? 2 + Z.of_nat emu_request_size) (
      let! (type, s) := get_u 2 s in
      let! (req, s) := get (u64 (size - 2)) s in
      Ok (Ask (HandleEmu type req), r, s))
  | Some RecOtherRoutineChange => check (size =? 25) (
      let! (event, s) := get_u 1 s in
      let! (eip, s) := get_u 8 s in
      let! (esp, s) := get_u 8 s in
      let! (callEip, s) := get_u 8 s in
      Ok (Tell (HandleRoutineChange event eip esp callEip), r, s))
  | Some RecOtherRoutineAnnounce =>
      let! (eip, s) := get_u 8 s in
      let! (len_name, s) := get_u 2 s in
      let! (name, s) := get len_name s in
      let! (len_imgname, s) := get_u 2 s in
      let! (imgname, s) := get len_imgname s in
      let! (offset, s) := get_u 8 s in
      let! (line, s) := get_u 4 s in
      let! (column, s) := get_u 4 s in
      let! (len_filename, s) := get_u 2 s in
      let! (filename, s) := get len_filename s in
      Ok (Tell (HandleRoutineAnnounce eip name imgname offset line column filename), r, s)
  | Some RecOtherISAChange => check (size =? 4) (
      let! (new_isa, s) := get_u 4 s in Ok (Skip, with_isa (s32 new_isa) r, s))
  | _ => let! (_, s) := get size s in Ok (Skip, r, s)
  end.

(** One turn of the loop in [Read]. *)
Definition read_record (r : Reader) (s : stream) : result (step * Reader * stream) :=
  let byte := peek s in
  if byte =? 0 then read_other r s else read_instruction byte r s.

(** [va2pa] *)
Definition va2pa (r : Reader) (va : Z) : Z :=
  if r_trace_has_pa r then
    match r_vcache r !! (va / PAGE_SIZE_SIFT) with
    | None => 0
    | Some pp => Z.lor (u64 (pp * PAGE_SIZE_SIFT)) (Z.land va (PAGE_SIZE_SIFT - 1))
    end
  else va.

(** The answers. *)
Definition sendSimpleResponse (t : RecOtherType) (data : list Z) : list Z := other t (Z.of_nat (length data)) ++ data.
Definition sendSyscallResponse (return_code : Z) : list Z := other RecOtherSyscallResponse 8 ++ le 8 return_code.
Definition sendEmuResponse (handled : Z) (res : list Z) : list Z :=
  other RecOtherEmuResponse (1 + Z.of_nat emu_reply_size) ++ le 1 handled ++ res.

(** What [Read] sends for the result of a handler. *)
Definition respond (i : item) (a : reply) : list Z :=
  match i, a with
  | HandleInstructionCount _, Int mode => sendSimpleResponse RecOtherSyncResponse (le 4 mode)
  | HandleSyscall _ _, Int ret => sendSyscallResponse ret
  | HandleNewThread, Int ret => sendSimpleResponse RecOtherNewThreadResponse (le 4 ret)
  | HandleJoin _, Int ret => sendSimpleResponse RecOtherJoinResponse (le 4 ret)
  | HandleFork, Int ret => sendSimpleResponse RecOtherForkResponse (le 4 ret)
  | HandleMagic _ _ _, Int result => sendSimpleResponse RecOtherMagicInstructionResponse (le 8 result)
  | HandleEmu _ _, Emu handled res => sendEmuResponse handled res
  | _, _ => []
  end.

(** [AccessMemory]: what it sends, and what it makes of the answer. *)
Definition memory_request (lock op d_addr : Z) (buf : list Z) : list Z :=
  let data_size := Z.of_nat (length buf) in
  other RecOtherMemoryRequest (20 + if op =? MemWrite then data_size else 0) ++
  le 8 d_addr ++ le 4 data_size ++ le 4 lock ++ le 4 op ++ (if op =? MemWrite then buf else []).

(** [Some] is a return value of true, with what was read. *)
Definition memory_response (op d_addr data_size : Z) (s : stream) : result (option (list Z) * stream) :=
  let! (_, type, size, s) := get_other s in
  if negb (is_type type RecOtherMemoryResponse) then Ok (None, s)
  else
    let! (addr, s) := get_u 8 s in
    let! (_, s) := get_u 4 s in
    if negb (addr =? d_addr) then Ok (None, s)
    else
      let payload_size := u32 (size - 12) in
      if op =? MemRead then
        if negb (data_size =? payload_size) then Ok (None, s)
        else let! (data, s) := get data_size s in Ok (Some data, s)
      else if op =? MemWrite then
        if negb (payload_size =? 0) then Ok (None, s) else Ok (Some [], s)
      else Ok (None, s).

(** ** The two sides together *)

(** A handler of the simulator: it may access the program's memory, and goes on
    with what it has read, before it returns. *)
Inductive script :=
  | Answer (a : reply)
  | Access (lock op addr : Z) (buf : list Z) (k : option (list Z) -> script).

(** What the simulator sees of a program. *)
Inductive event := Executed (i : Inst) | Called (i : item) | Finished.

Section session.
Variable getCodeFunc : Z -> Z -> list Z.
Variable pagemap : Z -> option Z.
Context {A : Type}.
Variable access_memory : Z -> Z -> Z -> list Z -> A -> list Z * A.

(** [w_output] of the writer holds the bytes the reader has not read yet. *)
Record Session := mkSession {
  se_writer : Writer;
  se_reader : Reader;
  se_response : stream;
  se_memory : A
}.

(** The reader's side of an answer while the writer waits for it: each access is
    sent, handled by the writer and its result read.  A writer that does not wait
    any more, or waits on after the answer, is out of step. *)
Fixpoint serve (i : item) (sc : script) (on : stream -> A -> Writer -> result (turn (A := A))) (se : Session)
  : result (reply * Session) :=
  match sc with
  | Answer a =>
      let! (r, resp, m, w) := on (se_response se ++ respond i a) (se_memory se) (se_writer se) in
      let! r := of_option r Undefined in
      Ok (r, mkSession w (se_reader se) resp m)
  | Access lock op addr buf k =>
      let! (r, resp, m, w) := on (se_response se ++ memory_request lock op addr buf) (se_memory se) (se_writer se) in
      guard! bool_decide (r = None) else Undefined in
      let! (data, s) := memory_response op addr (Z.of_nat (length buf)) (w_output w) in
      serve i (k data) on (mkSession (with_output s w) (se_reader se) resp m)
  end.

(** The simulator reads what the program has written. *)
Fixpoint read_all (fuel : nat) (h : item -> script) (on : option (stream -> A -> Writer -> result (turn (A := A))))
    (evs : list event) (se : Session) : result (option reply * list event * Session) :=
  match w_output (se_writer se) with
  | [] => Ok (None, evs, se)
  | s =>
      match fuel with
      | O => Err OutOfFuel
      | S fuel' =>
          let! (st, r, s) := read_record (se_reader se) s in
          let se := mkSession (with_output s (se_writer se)) r (se_response se) (se_memory se) in
          match st with
          | Skip => read_all fuel' h on evs se
          | Tell i => read_all fuel' h on (evs ++ [Called i]) se
          | Got i => read_all fuel' h on (evs ++ [Executed i]) se
          | Ended => Ok (None, evs ++ [Finished], se)
          | Ask i =>
              let! on := of_option on Undefined in
              let! (a, se) := serve i (h i) on se in
              Ok (Some a, evs ++ [Called i], se)
          end
      end
  end.

(** A call of the program, with the handler the simulator has for it. *)
Definition do_call (c : call) (h : item -> script) (se : Session) : result (option reply * list event * Session) :=
  let! w := request getCodeFunc pagemap c (se_writer se) in
  if negb (w_open (se_writer se)) then Ok (closed_reply c, [], se)
  else read_all (length (w_output w)) h (on_response access_memory c) []
         (mkSession w (se_reader se) (se_response se) (se_memory se)).

Fixpoint do_calls (l : list (call * (item -> script))) (se : Session)
  : result (list (option reply) * list event * Session) :=
  match l with
  | [] => Ok ([], [], se)
  | (c, h) :: l' =>
      let! (a, evs, se) := do_call c h se in
      let! (as_, evs', se) := do_calls l' se in
      Ok (a :: as_, evs ++ evs', se)
  end.

(** Both sides open a trace that is not compressed. *)
Definition start (inflate : stream -> stream) (arch32 requires_icache_per_insn send_va2pa_mapping : bool) (m : A)
  : result Session :=
  let w := new_writer false arch32 requires_icache_per_insn send_va2pa_mapping in
  let! (ok, r, s) := initStream inflate new_reader (w_output w) in
  guard! ok else LogError in
  Ok (mkSession (with_output s w) r [] m).
End session.
Arguments mkSession {A} _ _ _ _.
Arguments se_writer {A} _.
Arguments se_reader {A} _.
Arguments se_response {A} _.
Arguments se_memory {A} _.
