(* ===== verification/SiftLink.v ===== *)
(** What the reader of a SIFT trace makes of the bytes the writer has put into
    it: the round trips of bytes, records and bit fields, and the relation
    [paired] between the tables of the writer and the reader. *)
From stdpp Require Import base numbers list gmap strings.
From Stdlib Require Import ZArith Lia Bool.
From S2P Require Import Prelude Sift.
Open Scope Z_scope.

(** ** Bytes *)
Lemma length_le n x : length (le n x) = n.
Proof. revert x. induction n as [|n IH]; intros x; simpl; [done|]. by rewrite IH. Qed.

Lemma of_le_le n x : of_le (le n x) = x mod 2 ^ (8 * Z.of_nat n).
Proof.
  revert x. induction n as [|n IH]; intros x; simpl of_le; [by rewrite Z.mod_1_r|].
  rewrite IH. replace (8 * Z.of_nat (S n)) with (8 + 8 * Z.of_nat n) by lia.
  rewrite Z.pow_add_r by lia. change (2 ^ 8) with 256.
  rewrite Z.rem_mul_r by (try apply Z.pow_pos_nonneg; lia). done.
Qed.

Lemma of_le_range l : Forall (fun b => 0 <= b < 256) l -> 0 <= of_le l < 2 ^ (8 * Z.of_nat (length l)).
Proof.
  induction 1 as [|b l Hb _ IH]; simpl of_le; [simpl; lia|].
  replace (8 * Z.of_nat (length (b :: l))) with (8 + 8 * Z.of_nat (length l)) by (simpl length; lia).
  rewrite Z.pow_add_r by lia. change (2 ^ 8) with 256. nia.
Qed.

(** ** Reading what was written *)
Lemma get_app n l s : n = Z.of_nat (length l) -> get n (l ++ s) = Ok (l, s).
Proof.
  intros ->. unfold get. rewrite length_app. rewrite (proj2 (Z.leb_le _ _)) by lia. cbn [rguard rbind].
  by rewrite Nat2Z.id, take_app_length, drop_app_length.
Qed.

Lemma get_u_app n x s : get_u n (le n x ++ s) = Ok (x mod 2 ^ (8 * Z.of_nat n), s).
Proof. unfold get_u. rewrite get_app by (by rewrite length_le). cbn [rbind]. by rewrite of_le_le. Qed.

Lemma get_u_small n x s : 0 <= x < 2 ^ (8 * Z.of_nat n) -> get_u n (le n x ++ s) = Ok (x, s).
Proof. intros H. by rewrite get_u_app, Z.mod_small. Qed.

Lemma rec_of_code t : rec_of (rec_code t) = Some t.
Proof. by destruct t. Qed.

Lemma rec_code_range t : 0 <= rec_code t < 2 ^ (8 * Z.of_nat 1).
Proof. destruct t; vm_compute; split; congruence. Qed.

Lemma rec_code_inj t t' : is_type (rec_code t) t' = bool_decide (t = t').
Proof. by destruct t, t'. Qed.

Lemma length_other t size : length (other t size) = 6%nat.
Proof. unfold other. by rewrite !length_app, !length_le. Qed.

Lemma get_other_app t size s : 0 <= size < 2 ^ 32 -> get_other (other t size ++ s) = Ok (0, rec_code t, size, s).
Proof.
  intros Hs. unfold get_other, other. rewrite <- !app_assoc.
  rewrite (get_u_small 1 0) by (cbn; lia). cbn [rbind].
  rewrite (get_u_small 1) by apply rec_code_range. cbn [rbind].
  by rewrite (get_u_small 4) by done.
Qed.

Lemma has_other_app t size s : has_other (other t size ++ s) = true.
Proof. unfold has_other. rewrite length_app, length_other. apply Nat.leb_le. lia. Qed.

Lemma peek_other t size s : peek (other t size ++ s) = 0.
Proof. done. Qed.

Lemma read_record_other r t size s :
  read_record r (other t size ++ s) = read_other r (other t size ++ s).
Proof. unfold read_record. by rewrite peek_other. Qed.

(** Read one field after another of the bytes at the head of a stream. *)
Ltac range := solve [assumption | cbn -[Z.pow] in *; lia | vm_compute; split; congruence].
Ltac read1 :=
  first
    [ rewrite get_other_app by range
    | rewrite get_u_small by range
    | rewrite (get_app _ _ _) by (rewrite ?length_le, ?length_app; first [reflexivity | lia | done]) ];
  cbn [rbind].
Ltac reads := rewrite <- ?app_assoc; repeat read1.

(** ** Bit fields *)
Lemma in_bools (b : bool) : In b [false; true].
Proof. destruct b; simpl; auto. Qed.

Lemma in_seqZ x m n : m <= x < m + n -> In x (seqZ m n).
Proof. intros. apply list_elem_of_In, elem_of_seqZ. lia. Qed.

Definition fields_ok (size num : Z) (b t p e : bool) : bool :=
  let x := instruction_byte size num b t in
  let y0 := ext_byte0 size in
  let y1 := ext_byte1 num b t p e in
  (bit_field x 0 4 =? size) && (bit_field x 4 2 =? num) && eqb (Z.testbit x 6) b && eqb (Z.testbit x 7) t &&
  negb (Z.land x 15 =? 0) && (0 <? x) && (x <? 256) &&
  (bit_field y0 4 4 =? size) && (Z.land y0 15 =? 0) && (0 <? y0) && (y0 <? 256) &&
  (bit_field y1 0 2 =? num) && eqb (Z.testbit y1 2) b && eqb (Z.testbit y1 3) t && eqb (Z.testbit y1 4) p &&
  eqb (Z.testbit y1 5) e && (0 <=? y1) && (y1 <? 256).

Lemma fields_all :
  forallb (fun size => forallb (fun num => forallb (fun b => forallb (fun t => forallb (fun p => forallb (fun e =>
    fields_ok size num b t p e) [false; true]) [false; true]) [false; true]) [false; true]) (seqZ 0 3)) (seqZ 1 15) = true.
Proof. vm_compute. reflexivity. Qed.

Lemma fields_spec size num b t p e : 1 <= size < 16 -> 0 <= num <= 2 -> fields_ok size num b t p e = true.
Proof.
  intros Hs Hn. pose proof fields_all as H.
  rewrite forallb_forall in H. specialize (H size (in_seqZ size 1 15 ltac:(lia))).
  rewrite forallb_forall in H. specialize (H num (in_seqZ num 0 3 ltac:(lia))).
  rewrite forallb_forall in H. specialize (H b (in_bools b)). rewrite forallb_forall in H.
  specialize (H t (in_bools t)). rewrite forallb_forall in H. specialize (H p (in_bools p)).
  rewrite forallb_forall in H. exact (H e (in_bools e)).
Qed.

Lemma simple_fields size num b t : 1 <= size < 16 -> 0 <= num <= 2 ->
  let x := instruction_byte size num b t in
  bit_field x 0 4 = size /\ bit_field x 4 2 = num /\ Z.testbit x 6 = b /\ Z.testbit x 7 = t /\
  Z.land x 15 <> 0 /\ 0 < x < 256.
Proof.
  intros Hs Hn x. pose proof (fields_spec size num b t false false Hs Hn) as H. unfold fields_ok in H. fold x in H.
  rewrite !andb_true_iff, !Z.eqb_eq, !eqb_true_iff, negb_true_iff, !Z.ltb_lt, !Z.eqb_neq in H. tauto.
Qed.

Lemma extended_fields size num b t p e : 1 <= size < 16 -> 0 <= num <= 2 ->
  let y0 := ext_byte0 size in let y1 := ext_byte1 num b t p e in
  (bit_field y0 4 4 = size /\ Z.land y0 15 = 0 /\ 0 < y0 < 256) /\
  bit_field y1 0 2 = num /\ Z.testbit y1 2 = b /\ Z.testbit y1 3 = t /\ Z.testbit y1 4 = p /\ Z.testbit y1 5 = e /\
  0 <= y1 < 256.
Proof.
  intros Hs Hn y0 y1. pose proof (fields_spec size num b t p e Hs Hn) as H. unfold fields_ok in H. fold y0 y1 in H.
  rewrite !andb_true_iff, !Z.eqb_eq, !eqb_true_iff, !Z.ltb_lt, Z.leb_le in H. tauto.
Qed.

(** ** Pages of code *)
Lemma page_of a : 0 <= a < 2 ^ 64 -> icache_page a = a - a mod 4096.
Proof.
  intros Ha. unfold icache_page, ICACHE_OFFSET_MASK, ICACHE_SIZE.
  change (u64 (Z.lnot (0x1000 - 1))) with (2 ^ 64 - 2 ^ 12). by rewrite land_high_mask by lia.
Qed.

Lemma page_offset a : Z.land a ICACHE_OFFSET_MASK = a mod 4096.
Proof. apply (land_ones_mod a 12). lia. Qed.

Definition byte_at (c : gmap Z code) (x : Z) : option (option Z) :=
  p ← c !! (x - x mod 4096); p !! Z.to_nat (x mod 4096).

Lemma byte_at_page c b p x : c !! b = Some p -> b mod 4096 = 0 -> b <= x < b + 4096 ->
  byte_at c x = p !! Z.to_nat (x - b).
Proof.
  intros Hp Hb Hx. unfold byte_at.
  assert (x mod 4096 = x - b) as ->. { symmetry. apply (Zmod_unique _ _ (b / 4096)); [lia|]. pose proof (Z.div_mod b 4096). lia. }
  replace (x - (x - b)) with b by lia. by rewrite Hp.
Qed.

Lemma byte_at_other c b p x : x - x mod 4096 <> b -> byte_at (<[b := p]> c) x = byte_at c x.
Proof. intros Hn. unfold byte_at. by rewrite lookup_insert_ne. Qed.

#[local] Opaque Z.to_nat.

Definition pages_ok (c : gmap Z code) : Prop := forall b p, c !! b = Some p -> length p = Z.to_nat 4096.

Section link.
(** The code of the program, the lengths of its instructions, its page table, and
    [getCodeFunc], which copies code. *)
Variable prog : Z -> Z.
Variable ilen : Z -> Z.
Variable pagemap : Z -> option Z.
Variable getCodeFunc : Z -> Z -> list Z.
Hypothesis getCode_spec : forall a n, getCodeFunc a n = prog <$> seqZ a n.
(** A page that is present has a frame number. *)
Hypothesis pagemap_ok : forall vp pp, pagemap vp = Some pp ->
  0 <= pp < 2 ^ 64 /\ (Z.testbit pp 63 = true -> Z.land pp (2 ^ 54 - 1) <> 0).

Definition code_at (a n : Z) : code := Some <$> (prog <$> seqZ a n).
Definition covered (c : gmap Z code) (a n : Z) : Prop := forall x, a <= x < a + n -> byte_at c x = Some (Some (prog x)).

Lemma length_code n a : 0 <= n -> Z.of_nat (length (getCodeFunc a n)) = n.
Proof. intros. rewrite getCode_spec, length_fmap, length_seqZ. lia. Qed.

Lemma code_at_app a n m : 0 <= n -> 0 <= m -> code_at a (n + m) = code_at a n ++ code_at (a + n) m.
Proof. intros. unfold code_at. by rewrite seqZ_app, !fmap_app by lia. Qed.

Lemma lookup_code_at a n i : (i < Z.to_nat n)%nat -> code_at a n !! i = Some (Some (prog (a + Z.of_nat i))).
Proof. intros Hi. unfold code_at. rewrite !list_lookup_fmap, lookup_seqZ_lt by lia. done. Qed.

Lemma page_slice c b p off n : c !! b = Some p -> b mod 4096 = 0 -> length p = Z.to_nat 4096 ->
  0 <= off -> 0 <= n -> off + n <= 4096 -> covered c (b + off) n ->
  take (Z.to_nat n) (drop (Z.to_nat off) p) = code_at (b + off) n.
Proof.
  intros Hp Hb Hlen Ho Hn Hon Hc. apply list_eq. intros i. destruct (decide (i < Z.to_nat n)%nat) as [Hi|Hi].
  - rewrite lookup_take_lt, lookup_drop, lookup_code_at by lia.
    rewrite <- (Hc (b + off + Z.of_nat i)) by lia. rewrite (byte_at_page c b p) by (done || lia). f_equal. lia.
  - rewrite lookup_take_ge by lia. symmetry. apply lookup_ge_None. unfold code_at. rewrite !length_fmap, length_seqZ. lia.
Qed.

Lemma page_end a : (a - a mod 4096) mod 4096 = 0 /\ 0 <= a mod 4096 < 4096.
Proof. split; [|apply Z.mod_pos_bound; lia]. rewrite Zminus_mod_idemp_r, Z.sub_diag. done. Qed.

Lemma copy_code_ok c : pages_ok c -> forall fuel a n,
  0 <= a -> 0 <= n < Z.of_nat fuel -> a + n + 4096 <= 2 ^ 64 -> covered c a n ->
  copy_code fuel (a - a mod 4096) (a mod 4096) n c = Ok (code_at a n).
Proof.
  intros Hc fuel. induction fuel as [|fuel IH]; intros a n Ha Hn Hend Hcov; [lia|].
  cbn [copy_code]. destruct (Z.ltb_spec 0 n) as [Hpos|]; [|by replace n with 0 by lia].
  destruct (page_end a) as [Hb Ho]. set (off := a mod 4096) in *. set (b := a - off) in *.
  destruct (c !! b) as [p|] eqn:Hp.
  2: { specialize (Hcov a ltac:(lia)). unfold byte_at in Hcov. fold off b in Hcov. by rewrite Hp in Hcov. }
  cbn [of_option rbind]. unfold ICACHE_SIZE in *. set (k := Z.min n (0x1000 - off)).
  rewrite u64_small by lia. replace n with (k + (n - k)) at 2 by lia. rewrite code_at_app by lia.
  assert (Hslice : take (Z.to_nat k) (drop (Z.to_nat off) p) = code_at a k).
  { replace a with (b + off) by lia. apply (page_slice c); try done; try lia; [by apply (Hc b)|].
    replace (b + off) with a by lia. intros x Hx. apply Hcov. lia. }
  destruct (Z.eq_dec k n) as [->|Hk].
  - rewrite Z.sub_diag. destruct fuel; [lia|]. cbn. by rewrite Hslice.
  - assert (Hk' : k = 0x1000 - off) by lia.
    assert (Hm : (a + k) mod 4096 = 0).
    { replace (a + k) with (b + 1 * 4096) by lia. by rewrite Z.mod_add by lia. }
    assert (E : copy_code fuel (b + 0x1000) 0 (n - k) c = Ok (code_at (a + k) (n - k))).
    { rewrite <- (IH (a + k) (n - k)); [rewrite Hm; f_equal; lia|lia|lia|lia|].
      intros x Hx. apply Hcov. lia. }
    rewrite E. cbn [rbind]. by rewrite Hslice.
Qed.

(** The bytes a RecOtherIcacheVariable record brings. *)
Lemma page_update c b p off n a : default (replicate (Z.to_nat 4096) None) (c !! b) = p -> length p = Z.to_nat 4096 ->
  b mod 4096 = 0 -> a = b + off -> 0 <= off -> 0 <= n -> off + n <= 4096 ->
  let c' := <[b := take (Z.to_nat off) p ++ code_at a n ++ drop (Z.to_nat (off + n)) p]> c in
  covered c' a n /\ forall x v, ~ (a <= x < a + n) -> byte_at c x = Some v -> byte_at c' x = Some v.
Proof.
  intros Hp Hlen Hb -> Ho Hn Hon c'.
  assert (Hl : length (take (Z.to_nat off) p) = Z.to_nat off) by (rewrite length_take; lia).
  assert (Hl2 : length (code_at (b + off) n) = Z.to_nat n) by (unfold code_at; by rewrite !length_fmap, length_seqZ).
  split.
  - intros x Hx. unfold c'. rewrite (byte_at_page _ b _ x (lookup_insert_eq _ _ _)) by lia.
    rewrite lookup_app_r by lia. rewrite Hl, lookup_app_l by lia. rewrite lookup_code_at by lia. do 3 f_equal. lia.
  - intros x v Hx Hv. destruct (decide (x - x mod 4096 = b)) as [E|E]; [|unfold c'; by rewrite byte_at_other].
    destruct (page_end x) as [_ Hr]. unfold byte_at in Hv. rewrite E in Hv.
    destruct (c !! b) as [q|] eqn:Hq; [|done]. simpl in Hv, Hp. subst q.
    unfold c'. rewrite (byte_at_page _ b _ x (lookup_insert_eq _ _ _)) by lia.
    replace (x - b) with (x mod 4096) by lia. destruct (Z.lt_ge_cases (x mod 4096) off).
    + rewrite lookup_app_l by lia. rewrite lookup_take_lt by lia. done.
    + rewrite lookup_app_r by lia. rewrite Hl, lookup_app_r by lia. rewrite Hl2, lookup_drop. rewrite <- Hv. f_equal. lia.
Qed.

Lemma default_page c b : pages_ok c -> length (default (replicate (Z.to_nat 4096) None) (c !! b)) = Z.to_nat 4096.
Proof. intros Hc. destruct (c !! b) as [p|] eqn:E; [exact (Hc b p E)|exact (length_replicate _ _)]. Qed.

Lemma read_code_ok bound : forall a n c, pages_ok c ->
  0 <= a -> 0 <= n < Z.of_nat bound -> a + n + 4096 <= 2 ^ 64 ->
  exists c', (forall fuel s, n < Z.of_nat fuel -> read_code fuel a n c ((prog <$> seqZ a n) ++ s) = Ok (c', s)) /\
    pages_ok c' /\ covered c' a n /\ forall x v, ~ (a <= x < a + n) -> byte_at c x = Some v -> byte_at c' x = Some v.
Proof.
  induction bound as [|bound IH]; intros a n c Hc Ha Hn Hend; [lia|].
  destruct (Z.eq_dec n 0) as [->|Hpos].
  { exists c. split; [intros [|fuel] s Hf; [lia|done]|]. split; [done|]. split; [intros x; lia|done]. }
  destruct (page_end a) as [Hb Ho]. set (off := a mod 4096) in *. set (b := a - off) in *.
  set (k := Z.min n (4096 - off)). assert (Hk : 0 < k <= n) by lia.
  destruct (page_update c b _ off k a eq_refl (default_page c b Hc)) as [Hcov Hold]; try lia.
  set (page := default (replicate (Z.to_nat 4096) None) (c !! b)) in *.
  assert (Hlp : length page = Z.to_nat 4096) by apply default_page, Hc.
  set (page' := take (Z.to_nat off) page ++ code_at a k ++ drop (Z.to_nat (off + k)) page) in *.
  assert (Hc1 : pages_ok (<[b := page']> c)).
  { intros b' p'. rewrite lookup_insert_Some. intros [[_ <-]|[_ Hp']]; [|by apply (Hc b')].
    unfold page', code_at. rewrite !length_app, length_take, !length_fmap, length_seqZ, length_drop. lia. }
  assert (exists c', (forall fuel s, n - k < Z.of_nat fuel ->
      read_code fuel (b + 4096) (n - k) (<[b := page']> c) ((prog <$> seqZ (a + k) (n - k)) ++ s) = Ok (c', s)) /\
    pages_ok c' /\ covered c' (a + k) (n - k) /\
    forall x v, ~ (a + k <= x < a + n) -> byte_at (<[b := page']> c) x = Some v -> byte_at c' x = Some v)
    as (c' & E & Hc' & Hcov' & Hold').
  { destruct (Z.eq_dec k n) as [->|Hne].
    - rewrite Z.sub_diag. exists (<[b := page']> c). split; [intros [|fuel] s Hf; [lia|done]|].
      split; [done|]. split; [intros x; lia|done].
    - replace (b + 4096) with (a + k) by lia. destruct (IH (a + k) (n - k) _ Hc1) as (c' & E & ? & ? & Ho'); [lia|lia|lia|].
      exists c'. split; [exact E|]. split; [done|]. split; [done|]. intros x v Hx. apply Ho'. lia. }
  exists c'. split; [|split; [done|split]].
  - intros [|fuel] s Hf; [lia|]. cbn [read_code]. rewrite (proj2 (Z.ltb_lt 0 n)) by lia.
    rewrite page_of, page_offset by lia. fold off b. unfold ICACHE_SIZE. fold k page.
    replace (seqZ a n) with (seqZ a (k + (n - k))) by (f_equal; lia). rewrite seqZ_app, fmap_app, <- app_assoc by lia.
    rewrite get_app by (rewrite length_fmap, length_seqZ; lia). cbn [rbind].
    change (Some <$> (prog <$> seqZ a k)) with (code_at a k). fold page'. rewrite u64_small by lia.
    exact (E fuel s ltac:(lia)).
  - intros x Hx. destruct (Z.lt_ge_cases x (a + k)); [apply Hold'; [lia|]; apply Hcov; lia|apply Hcov'; lia].
  - intros x v Hx Hv. apply Hold'; [lia|]. apply Hold; [lia|done].
Qed.

(** ** The tables of the two sides *)

(** How much code a record covers. *)
Definition unit_of (w : Writer) (a : Z) : Z := if w_requires_icache_per_insn w then ilen a else 4096.

Record paired (w : Writer) (r : Reader) : Prop := {
  p_last : w_last_address w = r_last_address r;
  p_pages : pages_ok (r_icache r);
  p_code : forall a, a ∈ w_icache w -> covered (r_icache r) a (unit_of w a);
  p_static : forall a s, r_scache r !! a = Some s ->
    s_addr s = a /\ s_size s = ilen a /\ s_data s = code_at a (ilen a) /\
    forall n, s_next s = Some n -> is_Some (r_scache r !! n);
  p_current : forall l, r_last_sinst r = Some l -> is_Some (r_scache r !! l);
  p_pa : r_trace_has_pa r = w_send_va2pa_mapping w;
  p_va : forall vp, vp ∈ w_va2pa w -> exists pp, va2pa_lookup pagemap vp = Ok pp /\ r_vcache r !! vp = Some pp
}.

(** What the writer keeps when it sends tables. *)
Definition same_flags (w w' : Writer) : Prop :=
  w_open w' = w_open w /\ w_last_address w' = w_last_address w /\
  w_requires_icache_per_insn w' = w_requires_icache_per_insn w /\ w_send_va2pa_mapping w' = w_send_va2pa_mapping w.

Lemma same_flags_refl w : same_flags w w.
Proof. done. Qed.

Lemma same_flags_trans w w1 w2 : same_flags w w1 -> same_flags w1 w2 -> same_flags w w2.
Proof. unfold same_flags. intuition congruence. Qed.

(** The reader takes bytes that concern only its tables. *)
Inductive skips : Reader -> list Z -> Reader -> Prop :=
  | skips_nil r : skips r [] r
  | skips_cons r l r1 l' r2 : l <> [] -> (forall s, read_record r (l ++ s) = Ok (Skip, r1, s)) ->
      skips r1 l' r2 -> skips r (l ++ l') r2.

Lemma skips_app r l r1 l' r2 : skips r l r1 -> skips r1 l' r2 -> skips r (l ++ l') r2.
Proof.
  induction 1 as [|r l r1 l1 r2' Hl Hr _ IH]; intros H2; [done|]. rewrite <- app_assoc.
  econstructor; [done|done|]. by apply IH.
Qed.

Lemma skips_one r l r1 : l <> [] -> (forall s, read_record r (l ++ s) = Ok (Skip, r1, s)) -> skips r l r1.
Proof. intros Hl Hr. rewrite <- (app_nil_r l). econstructor; [done|done|constructor]. Qed.

Lemma lookup_page_ok vp : 0 <= vp < 2 ^ 52 -> exists pp, va2pa_lookup pagemap vp = Ok pp /\ 0 <= pp < 2 ^ 64.
Proof.
  intros Hvp. unfold va2pa_lookup. destruct (_ && _); [exists vp; split; [done|lia]|].
  destruct (pagemap vp) as [pp|] eqn:E; [|exists vp; split; [done|lia]].
  destruct (pagemap_ok vp pp E) as [Hr Hz]. destruct (Z.testbit pp 63) eqn:Eb; cbn [negb]; [|exists vp; split; [done|lia]].
  cbv zeta. rewrite (proj2 (Z.eqb_neq _ _) (Hz eq_refl)). cbn [negb rguard rbind]. eexists. split; [done|].
  rewrite land_ones_mod by lia. pose proof (Z.mod_pos_bound pp (2 ^ 54) ltac:(lia)). lia.
Qed.

Lemma page_number va : 0 <= va < 2 ^ 64 -> 0 <= va / PAGE_SIZE_SIFT < 2 ^ 52.
Proof.
  intros. unfold PAGE_SIZE_SIFT. split; [apply Z.div_pos; lia|]. apply Z.div_lt_upper_bound; lia.
Qed.

Lemma paired_page w r vp pp : paired w r -> va2pa_lookup pagemap vp = Ok pp ->
  paired (sent_page vp w) (with_vcache (<[vp := pp]> (r_vcache r)) r).
Proof.
  intros [] Hpp. split; try done. cbn. intros v Hv. destruct (decide (v = vp)) as [->|Hne].
  - exists pp. by rewrite lookup_insert_eq.
  - rewrite lookup_insert_ne by done. apply p_va0. apply elem_of_union in Hv as [Hv%elem_of_singleton|]; done.
Qed.

Lemma paired_put w r l : paired (put l w) r <-> paired w r.
Proof. split; intros []; split; done. Qed.

Lemma with_vcache_id r : with_vcache (r_vcache r) r = r.
Proof. by destruct r. Qed.

Lemma send_va2pa_ok w r va : paired w r -> 0 <= va < 2 ^ 64 ->
  exists w' l vc, send_va2pa pagemap va w = Ok w' /\ w_output w' = w_output w ++ l /\ same_flags w w' /\
    w_icache w' = w_icache w /\ skips r l (with_vcache vc r) /\ paired w' (with_vcache vc r).
Proof.
  intros Hp Hva. unfold send_va2pa.
  assert (Hid : exists w' l vc, Ok w = Ok w' /\ w_output w' = w_output w ++ l /\ same_flags w w' /\
    w_icache w' = w_icache w /\ skips r l (with_vcache vc r) /\ paired w' (with_vcache vc r)).
  { exists w, [], (r_vcache r). rewrite app_nil_r, with_vcache_id.
    do 4 (split; [done|]). split; [constructor|done]. }
  destruct (w_open w); cbn [negb]; [|done]. destruct (w_send_va2pa_mapping w); [|done].
  set (vp := va / PAGE_SIZE_SIFT). case_bool_decide; [done|].
  destruct (lookup_page_ok vp (page_number va Hva)) as (pp & E & Hpp). rewrite E. cbn [rbind].
  destruct (pp =? 0); [done|]. eexists _, _, (<[vp := pp]> (r_vcache r)). split; [done|]. split; [done|].
  split; [done|]. split; [done|]. split.
  - apply skips_one; [done|]. intros s. rewrite <- app_assoc, read_record_other. unfold read_other.
    pose proof (page_number va Hva) as Hn. fold vp in Hn. read1. rewrite rec_of_code. cbn [rguard rbind Z.eqb Pos.eqb].
    by reads.
  - by apply paired_page; [apply paired_put|].
Qed.

Lemma send_all_va2pa_ok l : forall w r, paired w r -> Forall (fun va => 0 <= va < 2 ^ 64) l ->
  exists w' out vc, send_all_va2pa pagemap l w = Ok w' /\ w_output w' = w_output w ++ out /\ same_flags w w' /\
    w_icache w' = w_icache w /\ skips r out (with_vcache vc r) /\ paired w' (with_vcache vc r).
Proof.
  induction l as [|va l IH]; intros w r Hp Hl.
  - exists w, [], (r_vcache r). rewrite app_nil_r, with_vcache_id. do 4 (split; [done|]). split; [constructor|done].
  - apply Forall_cons in Hl as [Hva Hl]. cbn [send_all_va2pa].
    destruct (send_va2pa_ok w r va Hp Hva) as (w1 & l1 & vc1 & -> & Ho1 & Hf1 & Hi1 & Hs1 & Hp1). cbn [rbind].
    destruct (IH w1 _ Hp1 Hl) as (w2 & l2 & vc2 & -> & Ho2 & Hf2 & Hi2 & Hs2 & Hp2).
    exists w2, (l1 ++ l2), vc2. split; [done|]. split; [by rewrite Ho2, Ho1, app_assoc|].
    split; [by eapply same_flags_trans|]. split; [congruence|].
    change (with_vcache vc2 (with_vcache vc1 r)) with (with_vcache vc2 r) in *.
    split; [by eapply skips_app|done].
Qed.

(** *** Code *)
Lemma paired_code w r c a : paired w r -> pages_ok c -> covered c a (unit_of w a) ->
  (forall b, b ∈ w_icache w -> covered c b (unit_of w b)) ->
  paired (sent_code a w) (with_code c r).
Proof.
  intros [] Hc Ha Hold. split; try done. cbn. intros b Hb. destruct (decide (b = a)) as [->|Hne]; [done|].
  apply Hold. apply elem_of_union in Hb as [Hb%elem_of_singleton|]; done.
Qed.

Lemma covered_page c b : b mod 4096 = 0 -> c !! b = Some (code_at b 4096) -> covered c b 4096.
Proof.
  intros Hb Hc x Hx. rewrite (byte_at_page c b _ x Hc) by lia. rewrite lookup_code_at by lia. do 3 f_equal. lia.
Qed.

Lemma covered_insert c b a n : b mod 4096 = 0 -> covered c a n -> covered (<[b := code_at b 4096]> c) a n.
Proof.
  intros Hb Hc x Hx. destruct (decide (x - x mod 4096 = b)) as [<-|Hne]; [|rewrite byte_at_other by done; by apply Hc].
  apply (covered_page _ (x - x mod 4096)); [done|by rewrite lookup_insert_eq|]. destruct (page_end x). lia.
Qed.

Lemma skip_page r b s : 0 <= b < 2 ^ 64 ->
  read_record r ((other RecOtherIcache (8 + ICACHE_SIZE) ++ le 8 b ++ getCodeFunc b ICACHE_SIZE) ++ s) =
    Ok (Skip, with_code (<[b := code_at b 4096]> (r_icache r)) r, s).
Proof.
  intros Hb. rewrite <- app_assoc, read_record_other. unfold read_other. read1. rewrite rec_of_code.
  unfold ICACHE_SIZE. cbn [rguard rbind Z.eqb Pos.eqb Z.add Pos.add Pos.succ]. rewrite <- app_assoc. read1.
  rewrite get_app by (by rewrite length_code). cbn [rbind]. unfold code_at. by rewrite getCode_spec.
Qed.

(** One page of the loop. *)
Lemma send_page_ok w r b : w_requires_icache_per_insn w = false -> paired w r -> 0 <= b < 2 ^ 64 -> b mod 4096 = 0 ->
  exists w' l c, (if bool_decide (b ∈ w_icache w) then w
     else sent_code b (put (other RecOtherIcache (8 + ICACHE_SIZE) ++ le 8 b ++ getCodeFunc b ICACHE_SIZE) w)) = w' /\
    w_output w' = w_output w ++ l /\ same_flags w w' /\ skips r l (with_code c r) /\
    paired w' (with_code c r) /\ covered c b 4096 /\ (forall x v, byte_at (r_icache r) x = Some (Some v) -> v = prog x ->
      byte_at c x = Some (Some v)).
Proof.
  intros Hm Hp Hb Hal. case_bool_decide as Hin.
  - exists w, [], (r_icache r). rewrite app_nil_r. assert (with_code (r_icache r) r = r) as -> by (by destruct r).
    do 3 (split; [done|]). split; [constructor|]. split; [done|]. split; [|done].
    pose proof (p_code _ _ Hp b Hin) as Hc. unfold unit_of in Hc. by rewrite Hm in Hc.
  - eexists _, _, _. do 3 (split; [done|]). split; [apply skips_one; [done|]; intros s; by apply skip_page|].
    assert (Hl : length (code_at b 4096) = Z.to_nat 4096) by (unfold code_at; by rewrite !length_fmap, length_seqZ).
    assert (Hcb : covered (<[b := code_at b 4096]> (r_icache r)) b 4096)
      by (apply covered_page; [done|apply lookup_insert_eq]).
    split; [|split; [done|]].
    + apply paired_code; [by apply paired_put| | |].
      * intros b' p. rewrite lookup_insert_Some. intros [[_ <-]|[_ H]]; [done|by apply (p_pages _ _ Hp b')].
      * unfold unit_of. cbn. by rewrite Hm.
      * intros b' Hb'. apply covered_insert; [done|]. by apply (p_code _ _ Hp).
    + intros x v Hx ->. destruct (decide (x - x mod 4096 = b)) as [<-|Hne]; [|by rewrite byte_at_other].
      apply Hcb. destruct (page_end x). lia.
Qed.

(** An instruction lies in one page or in two. *)
Lemma send_pages_ok w r b last : w_requires_icache_per_insn w = false -> paired w r ->
  0 <= b -> b mod 4096 = 0 -> last = b \/ last = b + 4096 -> last + 4096 < 2 ^ 64 ->
  exists w' l c, send_pages getCodeFunc 3 b last w = Ok w' /\ w_output w' = w_output w ++ l /\ same_flags w w' /\
    skips r l (with_code c r) /\ paired w' (with_code c r) /\ covered c b (last + 4096 - b).
Proof.
  intros Hm Hp Hb Hal Hlast Hend. cbn [send_pages]. rewrite (proj2 (Z.leb_le b last)) by lia.
  assert (Hu : forall x, 0 <= x -> x + 4096 < 2 ^ 64 -> u64 (x + ICACHE_SIZE) = x + 4096)
    by (intros; unfold ICACHE_SIZE; by rewrite u64_small by lia).
  destruct (send_page_ok w r b Hm Hp) as (w1 & l1 & c1 & E1 & Ho1 & Hf1 & Hs1 & Hp1 & Hc1 & Hk1); [lia|done|].
  cbv zeta. rewrite E1, Hu by lia. destruct Hlast as [->| ->].
  - rewrite (proj2 (Z.leb_gt (b + 4096) b)) by lia. exists w1, l1, c1. replace (b + 4096 - b) with 4096 by lia. done.
  - rewrite Z.leb_refl. destruct Hf1 as (? & ? & Hm1 & ?).
    destruct (send_page_ok w1 _ (b + 4096) ltac:(congruence) Hp1) as (w2 & l2 & c2 & E2 & Ho2 & Hf2 & Hs2 & Hp2 & Hc2 & Hk2);
      [lia|rewrite Z.add_mod, Hal by lia; done|].
    rewrite E2, Hu by lia. rewrite (proj2 (Z.leb_gt _ _)) by lia.
    exists w2, (l1 ++ l2), c2. split; [done|]. split; [by rewrite Ho2, Ho1, app_assoc|].
    split; [by eapply (same_flags_trans _ w1)|]. split; [by eapply skips_app|]. split; [done|].
    intros x Hx. destruct (Z.lt_ge_cases x (b + 4096)); [|apply Hc2; lia].
    apply (Hk2 x (prog x)); [|done]. apply Hc1. lia.
Qed.

Lemma last_page a n : 0 <= a -> 1 <= n <= 16 -> a + n - 1 < 2 ^ 64 ->
  let b := icache_page a in let last := icache_page (u64 (a + n - 1)) in
  b = a - a mod 4096 /\ (last = b \/ last = b + 4096) /\ a + n <= last + 4096 /\ last <= a + n - 1.
Proof.
  intros Ha Hn Hend b last. unfold b, last. rewrite u64_small by lia. rewrite !page_of by lia.
  pose proof (Z.div_mod a 4096 ltac:(lia)). pose proof (Z.div_mod (a + n - 1) 4096 ltac:(lia)).
  pose proof (Z.mod_pos_bound a 4096 ltac:(lia)). pose proof (Z.mod_pos_bound (a + n - 1) 4096 ltac:(lia)).
  split; [done|]. split; [|lia].
  lia.
Qed.

Lemma send_code_ok w r a : paired w r -> 0 <= a -> 1 <= ilen a < 16 -> a + 8192 < 2 ^ 64 ->
  exists w' l c, send_code getCodeFunc a (ilen a) w = Ok w' /\ w_output w' = w_output w ++ l /\ same_flags w w' /\
    skips r l (with_code c r) /\ paired w' (with_code c r) /\ covered c a (ilen a).
Proof.
  intros Hp Ha Hn Hend. unfold send_code. destruct (w_requires_icache_per_insn w) eqn:Hm.
  - case_bool_decide as Hin.
    + exists w, [], (r_icache r). rewrite app_nil_r. assert (with_code (r_icache r) r = r) as -> by (by destruct r).
      do 3 (split; [done|]). split; [constructor|]. split; [done|].
      pose proof (p_code _ _ Hp a Hin) as Hc. unfold unit_of in Hc. by rewrite Hm in Hc.
    + destruct (read_code_ok 16 a (ilen a) (r_icache r) (p_pages _ _ Hp)) as (c & E & Hc & Hcov & Hold); [lia..|].
      eexists _, _, c. do 3 (split; [done|]). split; [apply skips_one; [done|]; intros s|split; [|done]].
      * rewrite <- app_assoc, read_record_other. unfold read_other. read1. rewrite rec_of_code. rewrite <- app_assoc.
        read1. rewrite u64_small, getCode_spec by lia. replace (8 + ilen a - 8) with (ilen a) by lia.
        rewrite E by (rewrite length_app, length_fmap, length_seqZ; lia). done.
      * apply paired_code; [by apply paired_put|done|unfold unit_of; cbn; by rewrite Hm|].
        intros b Hb x Hx. pose proof (p_code _ _ Hp b Hb x Hx) as Hcb.
        destruct (decide (a <= x < a + ilen a)); [by apply Hcov|by apply Hold].
  - destruct (last_page a (ilen a)) as (Eb & Hlast & Hin & Hle); [lia..|].
    destruct (send_pages_ok w r (icache_page a) (icache_page (u64 (a + ilen a - 1))) Hm Hp)
      as (w' & l & c & E & Ho & Hf & Hs & Hp' & Hc); [destruct (page_end a); pose proof (Z.mod_le a 4096); lia| |done|lia|].
    { rewrite Eb. apply page_end. }
    exists w', l, c. do 5 (split; [done|]). intros x Hx. apply Hc. destruct (page_end a). lia.
Qed.

(** *** Instructions *)
Lemma static_insert (sc : gmap Z Static) a s : (forall b t, sc !! b = Some t -> forall n, s_next t = Some n -> is_Some (sc !! n)) ->
  s_next s = None -> forall b t, <[a := s]> sc !! b = Some t -> forall n, s_next t = Some n -> is_Some (<[a := s]> sc !! n).
Proof.
  intros H Hs b t. rewrite lookup_insert_Some. intros [[_ <-]|[_ Ht]] n Hn; [congruence|].
  rewrite lookup_insert_is_Some. destruct (decide (a = n)); [by left|]. right. split; [done|]. by eapply H.
Qed.

Definition statics_ok (sc : gmap Z Static) : Prop := forall a s, sc !! a = Some s ->
  s_addr s = a /\ s_size s = ilen a /\ s_data s = code_at a (ilen a) /\
  forall n, s_next s = Some n -> is_Some (sc !! n).

Lemma statics_insert sc a : statics_ok sc ->
  statics_ok (<[a := mkStatic a (ilen a) (code_at a (ilen a)) None]> sc).
Proof.
  intros H b s Hb. split; [|split; [|split]].
  1-3: apply lookup_insert_Some in Hb as [[<- <-]|[_ Hb]]; [done|by apply (H b s Hb)].
  revert b s Hb. apply static_insert; [|done]. intros b t Ht. by apply (H b t Ht).
Qed.

Lemma statics_next sc a l : statics_ok sc -> is_Some (sc !! a) -> statics_ok (alter (set_next a) l sc).
Proof.
  intros H Ha b s Hb. rewrite lookup_alter_Some in Hb.
  assert (Hk : forall n, is_Some (alter (set_next a) l sc !! n) <-> is_Some (sc !! n))
    by (intros n; apply lookup_alter_is_Some).
  destruct Hb as [(-> & s0 & Hs0 & ->)|(_ & Hs)].
  - destruct (H b s0 Hs0) as (? & ? & ? & _). do 3 (split; [done|]). intros n [= <-]. by rewrite Hk.
  - destruct (H b s Hs) as (? & ? & ? & Hn). do 3 (split; [done|]). intros n E. rewrite Hk. by apply Hn.
Qed.

Lemma getStatic_ok w r a : paired w r -> 0 <= a -> 1 <= ilen a < 16 -> a + 8192 < 2 ^ 64 ->
  covered (r_icache r) a (ilen a) ->
  exists s sc, getStaticInstruction a (ilen a) r = Ok (s, with_static sc (Some a) r) /\
    s_addr s = a /\ s_size s = ilen a /\ s_data s = code_at a (ilen a) /\ paired w (with_static sc (Some a) r).
Proof.
  intros Hp Ha Hn Hend Hcov. unfold getStaticInstruction. cbv zeta.
  set (last := l ← r_last_sinst r; r_scache r !! l).
  pose proof (p_static _ _ Hp : statics_ok (r_scache r)) as Hst.
  assert (Hsel : exists s sc, (if bool_decide ((last ≫= s_next) = Some a) then
       let! sinst := of_option (r_scache r !! a) Undefined in Ok (sinst, r_scache r)
     else match r_scache r !! a with
       | Some sinst => guard! s_size sinst =? ilen a else AssertFailed in Ok (sinst, r_scache r)
       | None => let! sinst := staticInfoInstruction a (ilen a) r in Ok (sinst, <[a := sinst]> (r_scache r))
       end) = Ok (s, sc) /\ s_addr s = a /\ s_size s = ilen a /\ s_data s = code_at a (ilen a) /\
       statics_ok sc /\ is_Some (sc !! a) /\ (forall l, is_Some (r_scache r !! l) -> is_Some (sc !! l))).
  { case_bool_decide as Hnext.
    - assert (is_Some (r_scache r !! a)) as [s Hs].
      { unfold last in Hnext. destruct (r_last_sinst r) as [l|]; [|done]. cbn in Hnext.
        destruct (r_scache r !! l) as [s|] eqn:Hl; [|done]. cbn in Hnext. by apply (Hst l s Hl). }
      exists s, (r_scache r). rewrite Hs. cbn. destruct (Hst a s Hs) as (? & ? & ? & _).
      do 5 (split; [done|]). split; [by eexists|done].
    - destruct (r_scache r !! a) as [s|] eqn:Hs.
      + exists s, (r_scache r). destruct (Hst a s Hs) as (? & E & ? & _). rewrite E, Z.eqb_refl. cbn.
        do 5 (split; [done|]). split; [by eexists|done].
      + unfold staticInfoInstruction. rewrite page_of, page_offset by lia.
        rewrite (copy_code_ok _ (p_pages _ _ Hp)) by (try done; lia). cbn [rbind].
        eexists _, _. split; [done|]. do 3 (split; [done|]). split; [by apply statics_insert|].
        split; [rewrite lookup_insert_is_Some; by left|]. intros l Hl.
        rewrite lookup_insert_is_Some. destruct (decide (a = l)); [by left|by right]. }
  destruct Hsel as (s & sc & -> & Hs1 & Hs2 & Hs3 & Hsc & Hsa & Hmono). cbn [rbind].
  set (sc' := match r_last_sinst r with Some l => _ | None => _ end).
  assert (Hsc' : statics_ok sc' /\ (forall l, is_Some (sc !! l) -> is_Some (sc' !! l))).
  { unfold sc'. destruct (r_last_sinst r) as [l|]; [|done]. destruct last; [|done]. case_bool_decide; [|done].
    split; [by apply statics_next|]. intros b Hb. by rewrite lookup_alter_is_Some. }
  destruct Hsc' as [Hsc' Hmono']. exists s, sc'. split; [done|]. do 3 (split; [done|]).
  destruct Hp. split; try done. cbn. intros l [= <-]. by apply Hmono'.
Qed.

Lemma get_addresses_app l s : Forall (fun a => 0 <= a < 2 ^ 64) l ->
  get_addresses (length l) (concat (le 8 <$> l) ++ s) = Ok (l, s).
Proof.
  induction 1 as [|a l Ha _ IH]; [done|]. cbn [length get_addresses fmap list_fmap concat].
  rewrite <- app_assoc. read1. by rewrite IH.
Qed.

(** The fields of an encoded instruction, and where it is. *)
Lemma read_simple r a addresses b t s :
  r_last_address r = a -> 1 <= ilen a < 16 -> (length addresses <= 2)%nat -> Forall (fun x => 0 <= x < 2 ^ 64) addresses ->
  read_record r (le 1 (instruction_byte (ilen a) (Z.of_nat (length addresses)) b t) ++ concat (le 8 <$> addresses) ++ s) =
  let! (st, r') := getStaticInstruction a (ilen a) (with_position (u64 (a + ilen a)) r) in
  Ok (Got (mkInst (s_addr st) (s_size st) (s_data st) addresses b t false true (r_isa r')), r', s).
Proof.
  intros Hr Hn Hl Ha. destruct (simple_fields (ilen a) (Z.of_nat (length addresses)) b t Hn ltac:(lia))
    as (Hf0 & Hf1 & Hf2 & Hf3 & Hf4 & Hf5).
  set (x := instruction_byte _ _ _ _) in *.
  unfold read_record. assert (peek (le 1 x ++ concat (le 8 <$> addresses) ++ s) = x) as ->.
  { cbn. rewrite Z.mod_small by lia. done. }
  rewrite (proj2 (Z.eqb_neq x 0)) by lia. unfold read_instruction. rewrite (proj2 (Z.eqb_neq _ _)) by lia. cbn [negb].
  rewrite get_u_small by (cbn -[Z.pow]; lia). cbn [rbind]. rewrite Hf0, Hf1, Hf2, Hf3, Hr, Nat2Z.id.
  rewrite (proj2 (Nat.leb_le _ _)) by (unfold MAX_DYNAMIC_ADDRESSES; lia). cbn [rguard rbind].
  by rewrite get_addresses_app.
Qed.

Lemma read_extended r a addresses b t p e s :
  0 <= a < 2 ^ 64 -> 1 <= ilen a < 16 -> (length addresses <= 2)%nat -> Forall (fun x => 0 <= x < 2 ^ 64) addresses ->
  read_record r ((le 1 (ext_byte0 (ilen a)) ++ le 1 (ext_byte1 (Z.of_nat (length addresses)) b t p e) ++ le 8 a) ++
      concat (le 8 <$> addresses) ++ s) =
  let! (st, r') := getStaticInstruction a (ilen a) (with_position (u64 (a + ilen a)) r) in
  Ok (Got (mkInst (s_addr st) (s_size st) (s_data st) addresses b t p e (r_isa r')), r', s).
Proof.
  intros Hr Hn Hl Ha. destruct (extended_fields (ilen a) (Z.of_nat (length addresses)) b t p e Hn ltac:(lia))
    as ((Hf0 & Hf1 & Hf2) & Hf4 & Hf5 & Hf6 & Hf7 & Hf8 & Hf9).
  set (y0 := ext_byte0 _) in *. set (y1 := ext_byte1 _ _ _ _ _) in *.
  unfold read_record. rewrite <- !app_assoc.
  assert (peek (le 1 y0 ++ le 1 y1 ++ le 8 a ++ concat (le 8 <$> addresses) ++ s) = y0) as ->.
  { cbn. rewrite Z.mod_small by lia. done. }
  rewrite (proj2 (Z.eqb_neq y0 0)) by lia. unfold read_instruction. rewrite (proj2 (Z.eqb_eq _ _) Hf1). cbn [negb].
  do 2 (rewrite get_u_small by (cbn -[Z.pow]; lia); cbn [rbind]). rewrite get_u_small by done. cbn [rbind].
  rewrite Hf0, Hf4, Hf5, Hf6, Hf7, Hf8, Nat2Z.id.
  rewrite (proj2 (Nat.leb_le _ _)) by (unfold MAX_DYNAMIC_ADDRESSES; lia). cbn [rguard rbind].
  by rewrite get_addresses_app.
Qed.

Lemma with_code_vcache r c vc : with_vcache vc (with_code c r) = with_code c (with_vcache vc r).
Proof. done. Qed.

Lemma paired_position w r a : paired w r -> paired (with_last_address a w) (with_position a r).
Proof. intros []. by split. Qed.

(** The whole of an Instruction call: records for the tables, then the instruction. *)
Lemma write_instruction_ok w r a addresses b t p e : paired w r -> w_open w = true ->
  0 <= a -> 1 <= ilen a < 16 -> a + 8192 < 2 ^ 64 -> (length addresses <= 2)%nat ->
  Forall (fun x => 0 <= x < 2 ^ 64) addresses -> p || e = true ->
  exists w' l r1 rec r2, write_instruction getCodeFunc pagemap a (ilen a) addresses b t p e w = Ok w' /\
    w_output w' = w_output w ++ l ++ rec /\ skips r l r1 /\ rec <> [] /\
    (forall s, read_record r1 (rec ++ s) =
      Ok (Got (mkInst a (ilen a) (code_at a (ilen a)) addresses b t p e (r_isa r)), r2, s)) /\
    paired w' r2 /\ w_open w' = true /\ r_isa r2 = r_isa r.
Proof.
  intros Hp Hw Ha Hn Hend Hl Hads Hpe. unfold write_instruction. rewrite (proj2 (Z.ltb_lt _ _)) by lia.
  rewrite (proj2 (Nat.leb_le _ _)) by (unfold MAX_DYNAMIC_ADDRESSES; lia). cbn [rguard rbind]. rewrite Hw. cbn [negb].
  destruct (send_code_ok w r a Hp Ha Hn Hend) as (w1 & l1 & c & -> & Ho1 & Hf1 & Hs1 & Hp1 & Hcov). cbn [rbind].
  destruct (send_va2pa_ok w1 _ a Hp1 ltac:(lia)) as (w2 & l2 & v2 & -> & Ho2 & Hf2 & _ & Hs2 & Hp2). cbn [rbind].
  destruct (send_all_va2pa_ok addresses w2 _ Hp2 Hads) as (w3 & l3 & v3 & -> & Ho3 & Hf3 & _ & Hs3 & Hp3). cbn [rbind].
  set (r1 := with_vcache v3 (with_vcache v2 (with_code c r))) in *.
  assert (Hsk : skips r (l1 ++ l2 ++ l3) r1) by (eapply skips_app; [done|]; by eapply skips_app).
  assert (Hout : w_output w3 = w_output w ++ l1 ++ l2 ++ l3) by (by rewrite Ho3, Ho2, Ho1, !app_assoc).
  assert (Hopen : w_open w3 = true) by (destruct Hf1 as (? & _), Hf2 as (? & _), Hf3 as (? & _); congruence).
  destruct (getStatic_ok (with_last_address (u64 (a + ilen a)) w3) (with_position (u64 (a + ilen a)) r1) a
    (paired_position _ _ _ Hp3) Ha Hn Hend Hcov) as (st & sc & Hst & E1 & E2 & E3 & Hp4).
  destruct ((a =? w_last_address w3) && negb p) eqn:Es.
  - apply andb_true_iff in Es as [Ea%Z.eqb_eq Ep%negb_true_iff]. subst p. cbn in Hpe. subst e.
    eexists _, (l1 ++ l2 ++ l3), r1,
      (le 1 (instruction_byte (ilen a) (Z.of_nat (length addresses)) b t) ++ concat (le 8 <$> addresses)),
      (with_static sc (Some a) (with_position (u64 (a + ilen a)) r1)).
    split; [done|]. split; [cbn [w_output put with_last_address]; by rewrite Hout, <- !app_assoc|].
    split; [done|]. split; [done|]. split; [|split; [|done]].
    + intros s. rewrite <- app_assoc, (read_simple r1 a) by (try done; by rewrite <- (p_last _ _ Hp3)).
      rewrite Hst. cbn [rbind]. by rewrite E1, E2, E3.
    + cbn. rewrite <- Ea. destruct Hp4. by split.
  - eexists _, (l1 ++ l2 ++ l3), r1, ((le 1 (ext_byte0 (ilen a)) ++
        le 1 (ext_byte1 (Z.of_nat (length addresses)) b t p e) ++ le 8 a) ++ concat (le 8 <$> addresses)),
      (with_static sc (Some a) (with_position (u64 (a + ilen a)) r1)).
    split; [done|]. split; [cbn [w_output put with_last_address]; by rewrite Hout, <- !app_assoc|].
    split; [done|]. split; [done|]. split; [|split; [|done]].
    + intros s. rewrite <- (app_assoc _ (concat _) s).
      rewrite (read_extended r1 a) by (try done; lia). rewrite Hst. cbn [rbind]. by rewrite E1, E2, E3.
    + cbn. destruct Hp4. by split.
Qed.
End link.
