(* ===== verification/SiftSession.v ===== *)
(** The conversation of program and simulator over a SIFT trace refines direct
    calls of the simulator's handlers. *)
From stdpp Require Import base numbers list gmap strings.
From Stdlib Require Import ZArith Lia Bool.
From S2P Require Import Prelude Sift SiftLink.
Open Scope Z_scope.

(** ** Calls within the limits of the format *)
Definition bits (n x : Z) : Prop := 0 <= x < 2 ^ n.
Definition signed (n x : Z) : Prop := - 2 ^ (n - 1) <= x < 2 ^ (n - 1).

Definition valid_call (ilen : Z -> Z) (c : call) : Prop :=
  match c with
  | Instruction addr size addresses _ _ is_predicate executed =>
      0 <= addr /\ addr + 8192 < 2 ^ 64 /\ size = ilen addr /\ 1 <= size < 16 /\ (length addresses <= 2)%nat /\
      Forall (bits 64) addresses /\ is_predicate || executed = true
  | InstructionCount icount => bits 32 icount
  | CacheOnly icount type eip address => bits 8 icount /\ bits 8 type /\ bits 64 eip /\ bits 64 address
  | Output fd data => bits 8 fd /\ 0 < Z.of_nat (length data) < 2 ^ 32 - 1
  | Syscall n data => bits 16 n /\ 0 < Z.of_nat (length data) < 2 ^ 32 - 2 /\ Forall (bits 8) data /\
      (n = SYS_futex -> (8 <= length data)%nat) /\ (n = SYS_write -> (16 <= length data)%nat)
  | Join thread => signed 32 thread
  | Magic a b c => bits 64 a /\ bits 64 b /\ bits 64 c
  | Emulate type req => bits 16 type /\ length req = emu_request_size
  | RoutineChange event eip esp callEip => bits 8 event /\ bits 64 eip /\ bits 64 esp /\ bits 64 callEip
  | RoutineAnnounce eip name imgname offset line column filename =>
      bits 64 eip /\ bits 64 offset /\ bits 32 line /\ bits 32 column /\
      Z.of_nat (length name) < 65535 /\ Z.of_nat (length imgname) < 65535 /\ Z.of_nat (length filename) < 65535
  | ISAChange new_isa => bits 32 new_isa
  | NewThread | Sync | Fork | End_ => True
  end.

(** The handler a call reaches; strings arrive with their final zero. *)
Definition item_of (c : call) : option item :=
  match c with
  | InstructionCount icount => Some (HandleInstructionCount icount)
  | CacheOnly icount type eip address => Some (HandleCacheOnly icount type eip address)
  | Output fd data => Some (HandleOutput fd data)
  | NewThread => Some HandleNewThread
  | Syscall n data => Some (HandleSyscall n data)
  | Join thread => Some (HandleJoin thread)
  | Sync => Some (HandleInstructionCount 0)
  | Fork => Some HandleFork
  | Magic a b c => Some (HandleMagic a b c)
  | Emulate type req => Some (HandleEmu type req)
  | RoutineChange event eip esp callEip => Some (HandleRoutineChange event eip esp callEip)
  | RoutineAnnounce eip name imgname offset line column filename =>
      Some (HandleRoutineAnnounce eip (name ++ [0]) (imgname ++ [0]) offset line column (filename ++ [0]))
  | Instruction _ _ _ _ _ _ _ | ISAChange _ | End_ => None
  end.

Definition waits (c : call) : bool :=
  match c with
  | InstructionCount _ | NewThread | Syscall _ _ | Join _ | Sync | Fork | Magic _ _ _ | Emulate _ _ => true
  | _ => false
  end.

(** The calls during which the simulator may access the program's memory. *)
Definition may_access (c : call) : bool :=
  match c with Syscall _ _ | Sync | Magic _ _ _ | Emulate _ _ => true | _ => false end.

Definition valid_reply (c : call) (a : reply) : Prop :=
  match c, a with
  | (InstructionCount _ | Sync), Int x => bits 32 x
  | (NewThread | Join _ | Fork), Int x => signed 32 x
  | (Syscall _ _ | Magic _ _ _), Int x => bits 64 x
  | Emulate _ _, Emu handled res => (handled = 0 \/ handled = 1) /\ length res = emu_reply_size
  | _, _ => False
  end.

Fixpoint valid_script (c : call) (sc : script) : Prop :=
  match sc with
  | Answer a => valid_reply c a
  | Access lock op addr buf k =>
      may_access c = true /\ (op = MemRead \/ op = MemWrite) /\ bits 32 lock /\ bits 64 addr /\
      0 < Z.of_nat (length buf) < 2 ^ 32 - 20 /\ forall data, valid_script c (k data)
  end.

(** ** Direct calls *)
Section direct.
Context {A : Type}.
Variable getCodeFunc : Z -> Z -> list Z.
Variable access_memory : Z -> Z -> Z -> list Z -> A -> list Z * A.

Fixpoint run_script (sc : script) (m : A) : reply * A :=
  match sc with
  | Answer a => (a, m)
  | Access lock op addr buf k =>
      let reading := op =? MemRead in
      let '(data, m) := access_memory lock op addr (if reading then replicate (length buf) 0 else buf) m in
      run_script (k (Some (if reading then data else []))) m
  end.

(** The simulator's view of a program that calls it directly. *)
Record Direct := mkDirect { d_open : bool; d_isa : Z; d_memory : A }.

Definition direct_call (c : call) (h : item -> script) (d : Direct) : option reply * list event * Direct :=
  if negb (d_open d) then (closed_reply c, [], d)
  else
    match c with
    | Instruction addr size addresses is_branch taken is_predicate executed =>
        (None, [Executed (mkInst addr size (Some <$> getCodeFunc addr size) addresses is_branch taken is_predicate
                            executed (d_isa d))], d)
    | ISAChange new_isa => (None, [], mkDirect true (s32 new_isa) (d_memory d))
    | End_ => (None, [Finished], mkDirect false (d_isa d) (d_memory d))
    | _ =>
        match item_of c with
        | Some i =>
            if waits c then let '(a, m) := run_script (h i) (d_memory d) in (Some a, [Called i], mkDirect true (d_isa d) m)
            else (None, [Called i], d)
        | None => (None, [], d)
        end
    end.

Fixpoint direct_calls (l : list (call * (item -> script))) (d : Direct) : list (option reply) * list event * Direct :=
  match l with
  | [] => ([], [], d)
  | (c, h) :: l' =>
      let '(a, evs, d) := direct_call c h d in
      let '(as_, evs', d) := direct_calls l' d in
      (a :: as_, evs ++ evs', d)
  end.
End direct.
Arguments mkDirect {A} _ _ _.
Arguments d_open {A} _.
Arguments d_isa {A} _.
Arguments d_memory {A} _.

(** ** What the reader makes of a call *)
Section session.
Variable prog : Z -> Z.
Variable ilen : Z -> Z.
Variable pagemap : Z -> option Z.
Variable getCodeFunc : Z -> Z -> list Z.
Hypothesis getCode_spec : forall a n, getCodeFunc a n = prog <$> seqZ a n.
Hypothesis pagemap_ok : forall vp pp, pagemap vp = Some pp ->
  0 <= pp < 2 ^ 64 /\ (Z.testbit pp 63 = true -> Z.land pp (2 ^ 54 - 1) <> 0).

Notation paired := (paired prog ilen pagemap).

Definition step_of (isa : Z) (c : call) : step :=
  match c with
  | Instruction addr size addresses is_branch taken is_predicate executed =>
      Got (mkInst addr size (code_at prog addr size) addresses is_branch taken is_predicate executed isa)
  | End_ => Ended
  | _ => match item_of c with Some i => if waits c then Ask i else Tell i | None => Skip end
  end.
Definition isa_after (isa : Z) (c : call) : Z := match c with ISAChange new_isa => s32 new_isa | _ => isa end.
Definition ends (c : call) : bool := match c with End_ => true | _ => false end.

(** The bytes of a call: records the reader only enters into its tables, and the
    record of the call itself. *)
Definition transmits (w w' : Writer) (r r2 : Reader) (st : step) : Prop :=
  exists l r1 rec, w_output w' = w_output w ++ l ++ rec /\ skips r l r1 /\ rec <> [] /\
    forall s, read_record r1 (rec ++ s) = Ok (st, r2, s).

Lemma transmit_record w r r2 rec st : paired w r -> rec <> [] ->
  (forall s, read_record r (rec ++ s) = Ok (st, r2, s)) -> transmits w (put rec w) r r2 st.
Proof. intros Hp Hr H. exists [], r, rec. split; [done|]. split; [constructor|]. done. Qed.

Lemma other_nonempty t size l : other t size ++ l <> [].
Proof. done. Qed.

(** Unfold the reading of a record that starts with a known header. *)
Ltac header :=
  intros s; rewrite <- ?app_assoc, read_record_other; unfold read_other; read1; rewrite rec_of_code;
  cbn [rguard rbind Z.eqb Pos.eqb].

Lemma cstring_ok s : Z.of_nat (length s) < 65535 ->
  len_cstring s = Z.of_nat (length s) + 1 /\ cstring s = s ++ [0].
Proof.
  intros Hs. unfold cstring, len_cstring, u16. rewrite uwrap_small by lia. split; [done|].
  apply take_ge. rewrite length_app. simpl. lia.
Qed.

(** What a call that only writes one record does to both sides. *)
Definition conveyed (c : call) (w w' : Writer) (r r2 : Reader) : Prop :=
  transmits w w' r r2 (step_of (r_isa r) c) /\ paired w' r2 /\ w_open w' = negb (ends c) /\
  r_isa r2 = isa_after (r_isa r) c.

Lemma convey_record c w r rec : paired w r -> w_open w = true -> ends c = false -> rec <> [] ->
  isa_after (r_isa r) c = r_isa r ->
  (forall s, read_record r (rec ++ s) = Ok (step_of (r_isa r) c, r, s)) -> conveyed c w (put rec w) r r.
Proof.
  intros Hp Hw He Hrec Hisa Hr. split; [by apply transmit_record|]. split; [by apply paired_put|].
  split; [by rewrite He|by rewrite Hisa].
Qed.

(** ... after records for the tables. *)
Lemma transmit_after w w1 w2 r r1 r2 l st : w_output w1 = w_output w ++ l -> skips r l r1 ->
  transmits w1 w2 r1 r2 st -> transmits w w2 r r2 st.
Proof.
  intros Ho Hs (l' & r1' & rec & Ho' & Hs' & Hrec & Hr). exists (l ++ l'), r1', rec.
  split; [by rewrite Ho', Ho, !app_assoc|]. split; [by eapply skips_app|]. done.
Qed.

Lemma convey_tables c w w1 r l vc w2 : w_output w1 = w_output w ++ l -> skips r l (with_vcache vc r) ->
  conveyed c w1 w2 (with_vcache vc r) (with_vcache vc r) -> conveyed c w w2 r (with_vcache vc r).
Proof.
  intros Ho Hs (Ht & Hp & Hw & Hi). split; [by eapply transmit_after|]. done.
Qed.

Lemma instruction_count_ok w r n : paired w r -> w_open w = true -> bits 32 n ->
  exists w', write_instruction_count n w = Ok w' /\ conveyed (InstructionCount n) w w' r r.
Proof.
  intros Hp Hw Hn. unfold write_instruction_count, write. rewrite Hw. eexists. split; [done|].
  apply convey_record; try done. unfold bits in Hn. header. by reads.
Qed.

Lemma cache_only_ok w r n ty eip a : paired w r -> w_open w = true ->
  bits 8 n -> bits 8 ty -> bits 64 eip -> bits 64 a ->
  exists w' r2, write_cache_only pagemap n ty eip a w = Ok w' /\ conveyed (CacheOnly n ty eip a) w w' r r2.
Proof.
  intros Hp Hw Hn Ht He Ha. unfold write_cache_only, write. rewrite Hw.
  destruct (send_va2pa_ok prog ilen pagemap pagemap_ok w r eip Hp He) as (w1 & l1 & v1 & -> & Ho1 & Hf1 & _ & Hs1 & Hp1). cbn [rbind].
  destruct (send_va2pa_ok prog ilen pagemap pagemap_ok w1 _ a Hp1 Ha) as (w2 & l2 & v2 & -> & Ho2 & Hf2 & _ & Hs2 & Hp2). cbn [rbind].
  change (with_vcache v2 (with_vcache v1 r)) with (with_vcache v2 r) in *.
  eexists _, (with_vcache v2 r). split; [done|].
  eapply (convey_tables _ w w2); [by rewrite Ho2, Ho1, <- app_assoc|by eapply skips_app|].
  apply convey_record; try done; [destruct Hf1 as (? & _), Hf2 as (? & _); congruence|].
  unfold bits in *. header. by reads.
Qed.

Lemma output_ok w r fd data : paired w r -> w_open w = true -> bits 8 fd -> 0 < Z.of_nat (length data) < 2 ^ 32 - 1 ->
  exists w', write_output fd data w = Ok w' /\ conveyed (Output fd data) w w' r r.
Proof.
  intros Hp Hw Hn Hd. unfold write_output, write. rewrite Hw. eexists. split; [done|].
  apply convey_record; try done. unfold bits in *. intros s. rewrite <- ?app_assoc, read_record_other. unfold read_other.
  read1. rewrite rec_of_code. rewrite (proj2 (Z.ltb_lt _ _)) by lia. cbn [rguard rbind]. reads. done.
Qed.

Lemma syscall_arg_ok i data : (8 * i + 8 <= length data)%nat -> Forall (bits 8) data ->
  exists a, syscall_arg i data = Ok a /\ bits 64 a.
Proof.
  intros Hl Hb. unfold syscall_arg, get_u, get. rewrite (proj2 (Z.leb_le _ _)) by lia. cbn [rguard rbind].
  rewrite length_drop. rewrite (proj2 (Z.leb_le _ _)) by lia. cbn [rguard rbind]. eexists. split; [done|].
  match goal with |- bits 64 (of_le ?l) => pose proof (of_le_range l) as H; assert (Hl' : length l = 8%nat) by (rewrite length_take, length_drop; lia) end.
  rewrite Hl' in H. apply H. apply Forall_take, Forall_drop, Hb.
Qed.

Lemma syscall_ok w r n data : paired w r -> w_open w = true -> valid_call ilen (Syscall n data) ->
  exists w' r2, write_syscall pagemap n data w = Ok w' /\ conveyed (Syscall n data) w w' r r2.
Proof.
  intros Hp Hw (Hn & Hd & Hb & Hfu & Hwr). unfold write_syscall, write. rewrite Hw.
  assert (Ht : exists w1 l vc, (if n =? SYS_futex then let! a := syscall_arg 0 data in send_va2pa pagemap a w
             else if n =? SYS_write then let! a := syscall_arg 1 data in send_va2pa pagemap a w
             else Ok w) = Ok w1 /\ w_output w1 = w_output w ++ l /\ w_open w1 = true /\
             skips r l (with_vcache vc r) /\ paired w1 (with_vcache vc r)).
  { assert (Hsend : forall i, (8 * i + 8 <= length data)%nat ->
      exists w1 l vc, (let! a := syscall_arg i data in send_va2pa pagemap a w) = Ok w1 /\ w_output w1 = w_output w ++ l /\
        w_open w1 = true /\ skips r l (with_vcache vc r) /\ paired w1 (with_vcache vc r)).
    { intros i Hi. destruct (syscall_arg_ok i data Hi Hb) as (a & -> & Ha). cbn [rbind].
      destruct (send_va2pa_ok prog ilen pagemap pagemap_ok w r a Hp Ha) as (w1 & l1 & v1 & E & Ho1 & Hf1 & _ & Hs1 & Hp1).
      exists w1, l1, v1. destruct Hf1 as (? & _). split; [done|]. split; [done|]. split; [congruence|done]. }
    destruct (Z.eqb_spec n SYS_futex); [apply Hsend; specialize (Hfu ltac:(done)); lia|].
    destruct (Z.eqb_spec n SYS_write); [apply Hsend; specialize (Hwr ltac:(done)); lia|].
    exists w, [], (r_vcache r). rewrite app_nil_r, with_vcache_id. do 3 (split; [done|]). split; [constructor|done]. }
  destruct Ht as (w1 & l & vc & -> & Ho & Hw1 & Hs & Hp1). cbn [rbind].
  eexists _, (with_vcache vc r). split; [done|]. eapply (convey_tables _ w w1); [done|done|].
  apply convey_record; try done. unfold bits in *. intros s. rewrite <- ?app_assoc, read_record_other. unfold read_other.
  read1. rewrite rec_of_code. rewrite (proj2 (Z.ltb_lt _ _)) by lia. cbn [rguard rbind]. by reads.
Qed.

Lemma s32_small x : signed 32 x -> s32 x = x.
Proof. intros [H1 H2]. unfold s32, swrap. rewrite Z.mod_small; lia. Qed.

Lemma s32_mod x : signed 32 x -> s32 (x mod 2 ^ 32) = x.
Proof. intros [H1 H2]. unfold s32, swrap. rewrite Zplus_mod_idemp_l. rewrite Z.mod_small; lia. Qed.

Lemma join_ok w r n : paired w r -> w_open w = true -> signed 32 n ->
  exists w', write_join n w = Ok w' /\ conveyed (Join n) w w' r r.
Proof.
  intros Hp Hw Hn. unfold write_join, write. rewrite Hw. eexists. split; [done|].
  apply convey_record; try done. header. rewrite get_u_app. cbn [rbind].
  change (2 ^ (8 * Z.of_nat 4)) with (2 ^ 32). by rewrite s32_mod.
Qed.

Lemma magic_ok w r a b c : paired w r -> w_open w = true -> bits 64 a -> bits 64 b -> bits 64 c ->
  exists w', write_magic a b c w = Ok w' /\ conveyed (Magic a b c) w w' r r.
Proof.
  intros Hp Hw Ha Hb Hc. unfold write_magic, write. rewrite Hw. eexists. split; [done|].
  apply convey_record; try done. unfold bits in *. header. by reads.
Qed.

Lemma emulate_ok w r ty req : paired w r -> w_open w = true -> bits 16 ty -> length req = emu_request_size ->
  exists w', write_emulate ty req w = Ok w' /\ conveyed (Emulate ty req) w w' r r.
Proof.
  intros Hp Hw Ht Hr. unfold write_emulate, write. rewrite Hw. eexists. split; [done|].
  apply convey_record; try done. unfold bits in *. intros s. rewrite <- ?app_assoc, read_record_other. unfold read_other.
  read1. rewrite rec_of_code. cbn [rguard rbind Z.leb]. rewrite Z.leb_refl. cbn [rguard rbind]. read1.
  rewrite get_app by (by rewrite Hr). done.
Qed.

Lemma routine_change_ok w r e eip esp ce : paired w r -> w_open w = true ->
  bits 8 e -> bits 64 eip -> bits 64 esp -> bits 64 ce ->
  exists w', write_routine_change e eip esp ce w = Ok w' /\ conveyed (RoutineChange e eip esp ce) w w' r r.
Proof.
  intros Hp Hw He Hi Hs Hc. unfold write_routine_change, write. rewrite Hw. eexists. split; [done|].
  apply convey_record; try done. unfold bits in *. header. by reads.
Qed.

Lemma routine_announce_ok w r eip name img off line col file : paired w r -> w_open w = true ->
  valid_call ilen (RoutineAnnounce eip name img off line col file) ->
  exists w', write_routine_announce eip name img off line col file w = Ok w' /\
    conveyed (RoutineAnnounce eip name img off line col file) w w' r r.
Proof.
  intros Hp Hw (He & Ho & Hl & Hc & H1 & H2 & H3). unfold write_routine_announce, write. rewrite Hw.
  destruct (cstring_ok name H1) as [-> ->], (cstring_ok img H2) as [-> ->], (cstring_ok file H3) as [-> ->].
  eexists. split; [done|]. apply convey_record; try done. unfold bits in *.
  assert (Hlen : forall l : list Z, Z.of_nat (length l) + 1 = Z.of_nat (length (l ++ [0])))
    by (intros l; rewrite length_app; simpl; lia).
  rewrite !Hlen. assert (Z.of_nat (length (name ++ [0])) <= 65535) by (rewrite length_app; simpl; lia).
  assert (Z.of_nat (length (img ++ [0])) <= 65535) by (rewrite length_app; simpl; lia).
  assert (Z.of_nat (length (file ++ [0])) <= 65535) by (rewrite length_app; simpl; lia).
  cbn [step_of item_of waits]. generalize dependent (name ++ [0]). generalize dependent (img ++ [0]).
  generalize dependent (file ++ [0]). intros f Hf i Hi n Hn. header. by reads.
Qed.

Lemma plain_ok c w r t : paired w r -> w_open w = true ->
  (c = NewThread /\ t = RecOtherNewThread) \/ (c = Sync /\ t = RecOtherSync) \/ (c = Fork /\ t = RecOtherFork) ->
  exists w', write (fun w => Ok (put (other t 0) w)) w = Ok w' /\ conveyed c w w' r r.
Proof.
  intros Hp Hw Hc. unfold write. rewrite Hw. eexists. split; [done|].
  destruct Hc as [[-> ->]|[[-> ->]|[-> ->]]]; apply convey_record; try done; header; done.
Qed.

Lemma isa_change_ok w r n : paired w r -> w_open w = true -> bits 32 n ->
  exists w' r2, write_isa_change n w = Ok w' /\ conveyed (ISAChange n) w w' r r2.
Proof.
  intros Hp Hw Hn. unfold write_isa_change, write. rewrite Hw. eexists _, (with_isa (s32 n) r). split; [done|].
  split; [|split; [apply paired_put; destruct Hp; by split|done]].
  apply transmit_record; try done. unfold bits in Hn. header. by reads.
Qed.

Lemma end_ok w r : paired w r -> w_open w = true ->
  exists w' r2, write_end w = Ok w' /\ conveyed End_ w w' r r2.
Proof.
  intros Hp Hw. unfold write_end, write. rewrite Hw. eexists _, (seen_end r). split; [done|].
  split; [|split; [destruct Hp; by split|done]].
  exists [], r, (other RecOtherEnd 0). split; [done|]. split; [constructor|]. split; [done|]. by header.
Qed.

Lemma call_conveyed c w r : paired w r -> w_open w = true -> valid_call ilen c ->
  exists w' r2, request getCodeFunc pagemap c w = Ok w' /\ conveyed c w w' r r2.
Proof.
  intros Hp Hw Hv. destruct c; cbn [request]; cbn [valid_call] in Hv.
  - destruct Hv as (Ha & Hend & -> & Hn & Hl & Hads & Hpe).
    destruct (write_instruction_ok prog ilen pagemap getCodeFunc getCode_spec pagemap_ok w r addr addresses is_branch taken
      is_predicate executed Hp Hw Ha Hn Hend Hl Hads Hpe) as (w' & l & r1 & rec & r2 & E & Ho & Hs & Hrec & Hr & Hp' & Hw' & Hi).
    exists w', r2. split; [done|]. split; [exists l, r1, rec; done|]. done.
  - destruct (instruction_count_ok w r icount Hp Hw Hv) as (w' & ?). by exists w', r.
  - destruct Hv as (? & ? & ? & ?). by apply cache_only_ok.
  - destruct Hv as (? & ?). destruct (output_ok w r fd data Hp Hw) as (w' & ?); [done|done|]. by exists w', r.
  - destruct (plain_ok NewThread w r RecOtherNewThread Hp Hw) as (w' & ?); [by left|]. by exists w', r.
  - by apply syscall_ok.
  - destruct (join_ok w r thread Hp Hw Hv) as (w' & ?). by exists w', r.
  - destruct (plain_ok Sync w r RecOtherSync Hp Hw) as (w' & ?); [by right; left|]. by exists w', r.
  - destruct (plain_ok Fork w r RecOtherFork Hp Hw) as (w' & ?); [by right; right|]. by exists w', r.
  - destruct Hv as (? & ? & ?). destruct (magic_ok w r a b c Hp Hw) as (w' & ?); try done. by exists w', r.
  - destruct Hv as (? & ?). destruct (emulate_ok w r type req Hp Hw) as (w' & ?); try done. by exists w', r.
  - destruct Hv as (? & ? & ? & ?). destruct (routine_change_ok w r event eip esp callEip Hp Hw) as (w' & ?); try done.
    by exists w', r.
  - destruct (routine_announce_ok w r eip name imgname offset line column filename Hp Hw Hv) as (w' & ?). by exists w', r.
  - by apply isa_change_ok.
  - by apply end_ok.
Qed.

(** ** Answers *)
Context {A : Type}.
Variable access_memory : Z -> Z -> Z -> list Z -> A -> list Z * A.
(** The callback fills the buffer it is given. *)
Hypothesis access_length : forall lock op addr buf m, length (access_memory lock op addr buf m).1 = length buf.

Ltac response :=
  rewrite ?has_other_app; cbn [rguard rbind]; rewrite get_other_app by (rewrite ?length_le; range); cbn [rbind rguard];
  rewrite ?rec_code_inj; repeat (first [rewrite bool_decide_true by done | rewrite bool_decide_false by done]);
  cbn [rguard rbind andb negb Z.eqb Pos.eqb].

Lemma one_response_ok t otherwise f x y : f (x mod 2 ^ 32) = y ->
  one_response t otherwise f (sendSimpleResponse t (le 4 x)) = Ok (Int y, []).
Proof.
  intros <-. unfold one_response, sendSimpleResponse. rewrite length_le. response.
  rewrite <- (app_nil_r (le 4 x)), get_u_app. done.
Qed.

Lemma answer_ok c i a f m w : item_of c = Some i -> valid_reply c a -> on_response access_memory c = Some f ->
  f (respond i a) m w = Ok (Some a, [], m, w).
Proof.
  intros Hi Ha Hf. destruct c; try done; injection Hi as <-; injection Hf as <-; destruct a as [x|e res]; try done;
    cbn [valid_reply] in Ha; cbn [respond].
  - unfold response_instruction_count. rewrite (one_response_ok _ _ _ _ x); [done|]. by apply Z.mod_small.
  - unfold response_new_thread. rewrite (one_response_ok _ _ _ _ x); [done|]. by apply s32_mod.
  - unfold response_syscall, sendSyscallResponse. response. rewrite <- (app_nil_r (le 8 x)), get_u_small; done.
  - unfold response_join. rewrite (one_response_ok _ _ _ _ x); [done|]. by apply s32_mod.
  - unfold response_sync, sendSimpleResponse. rewrite length_le. response. rewrite <- (app_nil_r (le 4 x)), get_u_small; done.
  - unfold response_fork, sendSimpleResponse at 1. rewrite has_other_app.
    rewrite (one_response_ok _ _ _ _ x); [done|]. by apply s32_mod.
  - unfold response_magic, sendSimpleResponse. rewrite length_le. response.
    rewrite <- (app_nil_r (le 8 x)), get_u_small; done.
  - destruct Ha as [He Hres]. unfold response_emulate, sendEmuResponse. response.
    rewrite (proj2 (Z.leb_le _ _)) by (cbn; lia). cbn [rguard rbind]. rewrite get_u_small by (cbn; destruct He; lia). cbn [rbind].
    rewrite <- (app_nil_r res) at 1. rewrite get_app by (rewrite Hres; done). cbn [rbind]. by destruct He as [-> | ->].
Qed.

(** The data an access gives the simulator, and the memory afterwards. *)
Definition accessed (lock op addr : Z) (buf : list Z) (m : A) : list Z * A :=
  let reading := op =? MemRead in
  let '(data, m) := access_memory lock op addr (if reading then replicate (length buf) 0 else buf) m in
  (if reading then data else [], m).

Definition valid_access (lock op addr : Z) (buf : list Z) : Prop :=
  (op = MemRead \/ op = MemWrite) /\ bits 32 lock /\ bits 64 addr /\ 0 < Z.of_nat (length buf) < 2 ^ 32 - 20.

Lemma memory_request_ok lock op addr buf m w : valid_access lock op addr buf -> w_open w = true ->
  exists size body resp, memory_request lock op addr buf = other RecOtherMemoryRequest size ++ body /\ bits 32 size /\
    handleMemoryRequest access_memory size body m w = Ok ([], (accessed lock op addr buf m).2, put resp w) /\
    memory_response op addr (Z.of_nat (length buf)) resp = Ok (Some (accessed lock op addr buf m).1, []).
Proof.
  intros (Hop & Hlock & Haddr & Hb) Hw. unfold bits in *. unfold memory_request, accessed. cbv zeta.
  assert (Hop' : 0 <= op < 2 ^ (8 * Z.of_nat 4)) by (destruct Hop as [-> | ->]; vm_compute; split; congruence).
  destruct (access_memory lock op addr _ m) as [data m'] eqn:E.
  pose proof (access_length lock op addr (if op =? MemRead then replicate (length buf) 0 else buf) m) as Hlen.
  rewrite E in Hlen. cbn [fst snd] in *. unfold handleMemoryRequest, memory_response. rewrite Hw. cbn [negb].
  destruct Hop as [-> | ->].
  - change (MemRead =? MemWrite) with false. change (MemRead =? MemRead) with true in *. rewrite Z.add_0_r.
    cbn iota in *. rewrite length_replicate in Hlen.
    eexists _, _, (other RecOtherMemoryResponse (12 + Z.of_nat (length buf)) ++ le 8 addr ++ le 4 MemRead ++ data).
    split; [done|]. split; [lia|]. cbn [Z.ltb Z.compare Pos.compare Pos.compare_cont].
    split.
    + reads.
      change (MemRead =? MemRead) with true. cbn iota. rewrite u32_small by lia.
      change (20 - 20 =? 0) with true. rewrite (proj2 (Z.eqb_neq _ _)) by lia. cbn [negb orb].
      rewrite Nat2Z.id, E. done.
    + read1. rewrite rec_code_inj, bool_decide_true by done. cbn [negb]. reads. rewrite Z.eqb_refl. cbn [negb].
      rewrite u32_small by lia. replace (12 + Z.of_nat (length buf) - 12) with (Z.of_nat (length buf)) by lia.
      rewrite Z.eqb_refl. cbn [negb]. rewrite <- (app_nil_r data), get_app by lia. by rewrite app_nil_r.
  - change (MemWrite =? MemWrite) with true. change (MemWrite =? MemRead) with false in *. cbn iota in *.
    eexists _, _, (other RecOtherMemoryResponse 12 ++ le 8 addr ++ le 4 MemWrite).
    split; [done|]. split; [lia|]. rewrite (proj2 (Z.ltb_ge _ _)) by lia.
    split.
    + reads. rewrite u32_small by lia. replace (20 + Z.of_nat (length buf) - 20) with (Z.of_nat (length buf)) by lia.
      change (MemWrite =? MemRead) with false. change (MemWrite =? MemWrite) with true. cbn iota.
      rewrite (proj2 (Z.eqb_neq _ _)) by lia. rewrite Z.eqb_refl. cbn [negb orb].
      rewrite <- (app_nil_r buf) at 2. rewrite get_app by done. cbn [rbind]. by rewrite E.
    + read1. rewrite rec_code_inj, bool_decide_true by done. cbn [negb]. rewrite <- (app_nil_r (le 4 MemWrite)). reads.
      rewrite Z.eqb_refl. done.
Qed.

Lemma access_turn_ok c f lock op addr buf m w : may_access c = true -> on_response access_memory c = Some f ->
  valid_access lock op addr buf -> w_open w = true ->
  exists resp, f (memory_request lock op addr buf) m w = Ok (None, [], (accessed lock op addr buf m).2, put resp w) /\
    memory_response op addr (Z.of_nat (length buf)) resp = Ok (Some (accessed lock op addr buf m).1, []).
Proof.
  intros Hc Hf Hv Hw. destruct (memory_request_ok lock op addr buf m w Hv Hw) as (size & body & resp & -> & Hsize & E & Hr).
  exists resp. split; [|done]. unfold bits in Hsize.
  destruct c; try done; injection Hf as <-;
    unfold response_syscall, response_sync, response_magic, response_emulate; response; by rewrite E.
Qed.

Lemma with_output_put l w : w_output w = [] -> with_output [] (put l w) = w /\ w_output (put l w) = l.
Proof. intros H. destruct w. cbn in *. by subst. Qed.

Lemma serve_ok c i f sc : item_of c = Some i -> on_response access_memory c = Some f -> valid_script c sc ->
  forall m w r, w_open w = true -> w_output w = [] ->
  serve i sc f (mkSession w r [] m) =
    Ok ((run_script access_memory sc m).1, mkSession w r [] (run_script access_memory sc m).2).
Proof.
  intros Hi Hf. induction sc as [a|lock op addr buf k IH]; intros Hv m w r Hw Ho; cbn [serve run_script].
  - cbn [se_response se_memory se_writer app]. by rewrite (answer_ok c i a f m w Hi Hv Hf).
  - destruct Hv as (Hc & Hop & Hl & Ha & Hb & Hk). cbn [se_response se_memory se_writer se_reader app].
    destruct (access_turn_ok c f lock op addr buf m w Hc Hf) as (resp & -> & Hr); [done|done|]. cbn [rbind].
    rewrite bool_decide_true by done. cbn [rguard rbind]. destruct (with_output_put resp w Ho) as [E1 E2].
    rewrite E2, Hr. cbn [rbind]. rewrite E1, IH by (done || apply Hk). unfold accessed. cbv zeta.
    by destruct (access_memory lock op addr _ m).
Qed.

(** ** A session *)
Lemma read_all_skips r l r' : skips r l r' -> forall fuel h on evs w resp (m : A) s, (length (l ++ s) <= fuel)%nat ->
  exists fuel', (length s <= fuel')%nat /\
    read_all fuel h on evs (mkSession (with_output (l ++ s) w) r resp m) =
    read_all fuel' h on evs (mkSession (with_output s w) r' resp m).
Proof.
  induction 1 as [r|r l r1 l' r2 Hl Hr _ IH]; intros fuel h on evs w resp m s Hf; [by exists fuel|].
  destruct fuel as [|fuel]; [rewrite !length_app in Hf; destruct l; [done|]; simpl in Hf; lia|].
  destruct (IH fuel h on evs w resp m s) as (fuel' & Hf' & E).
  { rewrite !length_app in *. destruct l; [done|]. simpl in Hf. lia. }
  exists fuel'. split; [done|]. rewrite <- E. cbn [read_all se_writer w_output with_output].
  rewrite <- app_assoc. destruct (l ++ l' ++ s) as [|x rest] eqn:El; [by destruct l|].
  rewrite <- El. cbn [se_reader]. by rewrite Hr.
Qed.

Record linked (se : Session (A := A)) (d : Direct (A := A)) : Prop := {
  l_paired : paired (se_writer se) (se_reader se);
  l_output : w_output (se_writer se) = [];
  l_response : se_response se = [];
  l_memory : se_memory se = d_memory d;
  l_open : w_open (se_writer se) = d_open d;
  l_isa : r_isa (se_reader se) = d_isa d
}.

(** The last record of a call, after its tables. *)
Definition finish (st : step) (h : item -> script) (w : Writer) (r : Reader) (m : A)
  : option reply * list event * Session (A := A) :=
  match st with
  | Skip => (None, [], mkSession w r [] m)
  | Tell i => (None, [Called i], mkSession w r [] m)
  | Got i => (None, [Executed i], mkSession w r [] m)
  | Ended => (None, [Finished], mkSession w r [] m)
  | Ask i => let '(a, m) := run_script access_memory (h i) m in (Some a, [Called i], mkSession w r [] m)
  end.

Lemma waits_on c : waits c = true -> exists f, on_response access_memory c = Some f.
Proof. destruct c; try done; by eexists. Qed.

Lemma step_of_ask isa c i : step_of isa c = Ask i -> item_of c = Some i /\ waits c = true.
Proof. destruct c; cbn; intros E; try discriminate E; by injection E as <-. Qed.

Lemma ask_open c isa i : step_of isa c = Ask i -> ends c = false.
Proof. by destruct c. Qed.

Lemma read_last fuel c isa h w r0 r2 rec (m : A) : rec <> [] -> (0 < fuel)%nat ->
  (forall s, read_record r0 (rec ++ s) = Ok (step_of isa c, r2, s)) -> w_open w = negb (ends c) -> w_output w = [] ->
  (forall i, item_of c = Some i -> waits c = true -> valid_script c (h i)) ->
  read_all fuel h (on_response access_memory c) [] (mkSession (with_output rec w) r0 [] m) =
    Ok (finish (step_of isa c) h w r2 m).
Proof.
  intros Hrec Hf Hr Hw Ho Hh. assert (Ew : with_output [] w = w) by (destruct w; cbn in *; by subst).
  destruct fuel as [|fuel]; [lia|]. cbn [read_all se_writer w_output with_output].
  destruct rec as [|x rec'] eqn:E; [done|]. rewrite <- E in *. cbn [se_reader].
  pose proof (Hr []) as Hr0. rewrite app_nil_r in Hr0. rewrite Hr0. cbn [rbind].
  cbn [se_writer se_response se_memory].
  change (with_output [] (with_output rec w)) with (with_output [] w). rewrite Ew. unfold finish.
  assert (Hrest : forall evs, read_all fuel h (on_response access_memory c) evs (mkSession w r2 [] m) =
    Ok (None, evs, mkSession w r2 [] m)) by (intros evs; destruct fuel; cbn [read_all se_writer]; by rewrite Ho).
  destruct (step_of isa c) as [|i|i|i|] eqn:Es; try (by rewrite Hrest); [|done].
  destruct (step_of_ask _ _ _ Es) as [Hi Hwt]. destruct (waits_on c Hwt) as [f Hf']. rewrite Hf'. cbn [of_option rbind].
  rewrite (serve_ok c i f (h i) Hi Hf' (Hh i Hi Hwt)); [|by rewrite Hw, (ask_open _ _ _ Es)|done]. cbn [rbind].
  by destruct (run_script access_memory (h i) m).
Qed.

Definition valid_pair (p : call * (item -> script)) : Prop :=
  valid_call ilen p.1 /\ forall i, item_of p.1 = Some i -> waits p.1 = true -> valid_script p.1 (p.2 i).

Lemma do_call_ok c h se d : linked se d -> valid_pair (c, h) ->
  let '(a, evs, d') := direct_call getCodeFunc access_memory c h d in
  exists se', do_call getCodeFunc pagemap access_memory c h se = Ok (a, evs, se') /\ linked se' d'.
Proof.
  intros Hl [Hv Hh]. cbn [fst snd] in *. unfold do_call, direct_call. rewrite <- (l_open _ _ Hl).
  destruct (w_open (se_writer se)) eqn:Hw; cbn [negb].
  2: { assert (exists w', request getCodeFunc pagemap c (se_writer se) = Ok w') as [w' ->].
       { destruct c; cbn [request]; unfold write_instruction_count, write_cache_only, write_output, write_new_thread,
           write_syscall, write_join, write_sync, write_fork, write_magic, write_emulate, write_routine_change,
           write_routine_announce, write_isa_change, write_end, write; rewrite ?Hw; try (by eexists).
         unfold write_instruction. destruct Hv as (_ & _ & _ & Hs & Ha & _).
         rewrite (proj2 (Z.ltb_lt _ _)) by lia. rewrite (proj2 (Nat.leb_le _ _)) by (unfold MAX_DYNAMIC_ADDRESSES; lia).
         cbn [rguard rbind]. rewrite Hw. by eexists. }
       cbn [rbind]. by exists se. }
  destruct (call_conveyed c _ _ (l_paired _ _ Hl) Hw Hv) as (w' & r2 & E & (l & r1 & rec & Ho & Hs & Hrec & Hr) & Hp' & Hw' & Hi').
  rewrite E. cbn [rbind]. rewrite (l_output _ _ Hl), app_nil_l in Ho. rewrite (l_response _ _ Hl).
  destruct (read_all_skips _ _ _ Hs (length (w_output w')) h (on_response access_memory c) [] w' [] (se_memory se) rec)
    as (fuel & Hf & Ea); [by rewrite Ho|].
  assert (Ew : with_output (l ++ rec) w' = w') by (rewrite <- Ho; by destruct w'). rewrite Ew in Ea. rewrite Ea.
  assert (Hf0 : (0 < fuel)%nat) by (destruct rec; [done|]; simpl in Hf; lia).
  change (with_output rec w') with (with_output rec (with_output [] w')).
  rewrite (read_last fuel c (r_isa (se_reader se)) h (with_output [] w') r1 r2 rec (se_memory se) Hrec Hf0 Hr); try done.
  assert (Hp0 : paired (with_output [] w') r2) by (destruct Hp'; by split).
  assert (Hlink : forall m' isa', r_isa r2 = isa' -> linked (mkSession (with_output [] w') r2 [] m') (mkDirect (negb (ends c)) isa' m'))
    by (intros; by split).
  rewrite (l_memory _ _ Hl), (l_isa _ _ Hl) in *. unfold finish.
  destruct d as [o isa m]. cbn [d_open d_isa d_memory] in *.
  pose proof (l_open _ _ Hl) as Hod. cbn in Hod. rewrite Hw in Hod. subst o.
  destruct c; cbn [step_of item_of waits ends negb isa_after] in *;
    try (destruct (run_script access_memory (h _) m) as [a' m']); eexists; (split; [|by apply Hlink]); try done.
  unfold code_at. by rewrite getCode_spec.
Qed.

Lemma do_calls_ok l : forall se d, linked se d -> Forall valid_pair l ->
  let '(as_, evs, d') := direct_calls getCodeFunc access_memory l d in
  exists se', do_calls getCodeFunc pagemap access_memory l se = Ok (as_, evs, se') /\ linked se' d'.
Proof.
  induction l as [|[c h] l IH]; intros se d Hl Hv; cbn [direct_calls do_calls]; [by exists se|].
  apply Forall_cons in Hv as [Hc Hv]. pose proof (do_call_ok c h se d Hl Hc) as H1.
  destruct (direct_call getCodeFunc access_memory c h d) as [[a evs] d1]. destruct H1 as (se1 & -> & Hl1). cbn [rbind].
  pose proof (IH se1 d1 Hl1 Hv) as H2. destruct (direct_calls getCodeFunc access_memory l d1) as [[as_ evs'] d2].
  destruct H2 as (se2 & -> & Hl2). cbn [rbind]. by exists se2.
Qed.

Lemma start_ok inflate a32 per va m : exists se, start inflate a32 per va m = Ok se /\ linked se (mkDirect true 0 m) /\
  w_send_va2pa_mapping (se_writer se) = va.
Proof.
  assert (E : exists r, start inflate a32 per va m = Ok (mkSession (with_output [] (new_writer false a32 per va)) r [] m) /\
    r_trace_has_pa r = va /\ with_pa false r = new_reader).
  { by destruct a32, per, va; eexists. }
  destruct E as (r & E & Hpa & Hr). eexists. split; [exact E|]. split; [|done].
  assert (Hnew : r = with_pa va new_reader) by (rewrite <- Hr, <- Hpa; by destruct r). subst r.
  split; done.
Qed.
End session.
