(* ===== verification/SiftProps.v ===== *)
(** Theorems about the SIFT trace format, with a session as witness. *)
From stdpp Require Import base numbers list gmap strings.
From Stdlib Require Import ZArith Lia Bool.
From S2P Require Import Prelude Sift SiftLink SiftSession.
Open Scope Z_scope.

(** * Main theorems *)

(** C11: a traced program is seen as it is: for any uncompressed trace and any
    sequence of calls within the limits of the format, program and simulator,
    talking over the two streams, complete the session; the simulator sees the
    same instructions (address, code, operands, flags) and handler calls, in the
    same order, the program gets the same answers, and the simulator's accesses
    read and change the program's memory, as if the handlers were called
    directly; nothing is left in the streams. *)
Theorem sift_session_refines_calls {A} (prog ilen : Z -> Z) (pagemap : Z -> option Z) (getCodeFunc : Z -> Z -> list Z)
    (access_memory : Z -> Z -> Z -> list Z -> A -> list Z * A) inflate arch32 per_insn va2pa m calls :
  (forall a n, getCodeFunc a n = prog <$> seqZ a n) ->
  (forall vp pp, pagemap vp = Some pp -> 0 <= pp < 2 ^ 64 /\ (Z.testbit pp 63 = true -> Z.land pp (2 ^ 54 - 1) <> 0)) ->
  (forall lock op addr buf m, length (access_memory lock op addr buf m).1 = length buf) ->
  Forall (valid_pair ilen) calls ->
  let '(answers, events, d) := direct_calls getCodeFunc access_memory calls (mkDirect true 0 m) in
  exists se se', start inflate arch32 per_insn va2pa m = Ok se /\
    do_calls getCodeFunc pagemap access_memory calls se = Ok (answers, events, se') /\
    se_memory se' = d_memory d /\ w_output (se_writer se') = [] /\ se_response se' = [].
Proof.
  intros Hcode Hpm Hlen Hv.
  destruct (start_ok prog ilen pagemap inflate arch32 per_insn va2pa m) as (se & Hs & Hl & _).
  pose proof (do_calls_ok prog ilen pagemap getCodeFunc Hcode Hpm access_memory Hlen calls se _ Hl Hv) as H.
  destruct (direct_calls getCodeFunc access_memory calls (mkDirect true 0 m)) as [[answers events] d].
  destruct H as (se' & E & []). by exists se, se'.
Qed.

(** The last page: the writer's loop over the code pages of an instruction
    does not end when the instruction lies in the last page of the address
    space, whose successor is page 0. *)
Theorem sift_last_page_endless getCodeFunc a w fuel : 2 ^ 64 - 4096 <= a < 2 ^ 64 ->
  send_pages getCodeFunc fuel (icache_page a) (icache_page a) w = Err OutOfFuel.
Proof.
  intros Ha.
  assert (Hall : forall fuel b w, 0 <= b <= 2 ^ 64 - 4096 -> b mod 4096 = 0 ->
    send_pages getCodeFunc fuel b (2 ^ 64 - 4096) w = Err OutOfFuel).
  { clear. induction fuel as [|fuel IH]; intros b w Hb Hm; [done|]. cbn [send_pages].
    rewrite (proj2 (Z.leb_le _ _)) by lia. unfold ICACHE_SIZE.
    assert (Hn : u64 (b + 0x1000) = 0 \/ u64 (b + 0x1000) = b + 4096).
    { destruct (Z.eq_dec b (2 ^ 64 - 4096)) as [->|Hne]; [by left|right; apply u64_small; lia]. }
    cbv zeta. assert (b / 4096 * 4096 = b) by (pose proof (Z.div_mod b 4096); lia).
    destruct Hn as [-> | Hn]; [apply IH; [lia|done]|].
    destruct (Z.eq_dec b (2 ^ 64 - 4096)) as [->|Hne]; [vm_compute in Hn; lia|].
    rewrite Hn. apply IH; [|rewrite Z.add_mod, Hm by lia; done].
    assert (2 ^ 64 - 4096 = (2 ^ 52 - 1) * 4096) by reflexivity. lia. }
  rewrite page_of by lia. assert (a - a mod 4096 = 2 ^ 64 - 4096) as ->.
  { pose proof (Z.div_mod a 4096). pose proof (Z.mod_pos_bound a 4096).
    assert (2 ^ 64 - 4096 = (2 ^ 52 - 1) * 4096) by reflexivity. lia. }
  apply Hall; [lia|done].
Qed.

(** C38: empty messages: the reader stops at an assertion on output of no bytes and
    on a system call without arguments, which the writer sends; and the writer
    does not answer a request to read no bytes, for which the reader waits. *)
Theorem sift_empty_messages_fail {A} (access_memory : Z -> Z -> Z -> list Z -> A -> list Z * A) getCodeFunc pagemap
    fd n lock addr w r (m : A) h f : w_open w = true -> w_output w = [] ->
  bits 8 fd -> bits 16 n -> n <> SYS_futex -> n <> SYS_write -> bits 32 lock -> bits 64 addr ->
  do_call getCodeFunc pagemap access_memory (Output fd []) h (mkSession w r [] m) = Err AssertFailed /\
  do_call getCodeFunc pagemap access_memory (Syscall n []) h (mkSession w r [] m) = Err AssertFailed /\
  (on_response access_memory Sync = Some f ->
   forall i k, serve i (Access lock MemRead addr [] k) f (mkSession w r [] m) = Err Undefined).
Proof.
  intros Hw Ho Hfd Hn Hnf Hnw Hlock Haddr. unfold bits in *. split; [|split].
  - unfold do_call. cbn [request se_writer]. unfold write_output, write. rewrite Hw. cbn [rbind negb].
    cbn [length Z.of_nat app]. rewrite app_nil_r. unfold put. rewrite Ho. reflexivity.
  - unfold do_call. cbn [request se_writer]. unfold write_syscall, write. rewrite Hw.
    rewrite (proj2 (Z.eqb_neq _ _) Hnf), (proj2 (Z.eqb_neq _ _) Hnw). cbn [rbind negb length Z.of_nat app].
    rewrite app_nil_r. unfold put. rewrite Ho. reflexivity.
  - intros [= <-] i k.
    assert (E : response_sync access_memory (memory_request lock MemRead addr []) m w = Ok (None, [], m, w)).
    { unfold memory_request, response_sync. change (MemRead =? MemWrite) with false. cbn iota. cbn [length Z.of_nat].
      rewrite has_other_app. read1. rewrite !rec_code_inj, bool_decide_false, bool_decide_true by done. cbn [negb Z.eqb].
      unfold handleMemoryRequest. rewrite Hw. cbn [negb Z.ltb Z.compare Pos.compare Pos.compare_cont]. by reads. }
    cbn [serve se_response se_writer se_memory app]. rewrite E. cbn [rbind].
    rewrite bool_decide_true by done. cbn [rguard rbind]. by rewrite Ho.
Qed.

(** * A session *)

(** A program of three-byte instructions, the first of which crosses a page, that
    makes a system call during which the simulator writes and reads its memory. *)
Definition demo_prog (a : Z) : Z := a mod 251.
Definition demo_ilen (a : Z) : Z := if a =? 0x1ffe then 4 else 3.
Definition demo_code (a n : Z) : list Z := demo_prog <$> seqZ a n.
Definition demo_pagemap (vp : Z) : option Z :=
  if (0 <=? vp) && (vp <? 2 ^ 52) then Some (2 ^ 63 + (vp + 1)) else None.
Definition demo_access (lock op addr : Z) (buf : list Z) (m : gmap Z Z) : list Z * gmap Z Z :=
  let places := seqZ addr (Z.of_nat (length buf)) in
  if op =? MemRead then ((fun a => default 0 (m !! a)) <$> places, m)
  else (buf, foldr (fun p m => <[p.1 := p.2]> m) m (zip places buf)).
Definition demo_handler (i : item) : script :=
  match i with
  | HandleSyscall _ _ =>
      Access 1 MemWrite 0x100 [1; 2; 3] (fun _ => Access 1 MemRead 0x101 [0; 0] (fun d => Answer (Int (u64 (of_le (default [] d))))))
  | HandleMagic a _ _ => Answer (Int a)
  | _ => Answer (Int 7)
  end.
Definition demo_calls : list (call * (item -> script)) :=
  map (fun c => (c, demo_handler))
    [Instruction 0x1ffe 4 [0x5000] true false false true; Instruction 0x2002 3 [] false false false true; ISAChange 1;
     Instruction 0x2005 3 [0x5008; 0x6000] false false true false; Syscall SYS_write (replicate 24 3); Output 1 [65; 66];
     NewThread; Magic 1 2 3; RoutineAnnounce 0x2002 [109; 97; 105; 110] [] 2 0 0 [97]; End_; Sync].

Lemma demo_access_length lock op addr buf m : length (demo_access lock op addr buf m).1 = length buf.
Proof. unfold demo_access. destruct (op =? MemRead); cbn; [|done]. rewrite length_fmap, length_seqZ. lia. Qed.

Lemma demo_pagemap_ok vp pp : demo_pagemap vp = Some pp ->
  0 <= pp < 2 ^ 64 /\ (Z.testbit pp 63 = true -> Z.land pp (2 ^ 54 - 1) <> 0).
Proof.
  unfold demo_pagemap. destruct (Z.leb_spec 0 vp), (Z.ltb_spec vp (2 ^ 52)); cbn [andb]; intros [= <-].
  split; [lia|]. intros _. rewrite land_ones_mod by lia. change (2 ^ 63) with (2 ^ 9 * 2 ^ 54).
  rewrite Z.add_comm, Z.mod_add, Z.mod_small by lia. lia.
Qed.

Lemma demo_calls_valid : Forall (valid_pair demo_ilen) demo_calls.
Proof.
  repeat constructor; cbn; unfold bits, signed; try lia; try done; intros i; try (by intros [= <-]);
    intros [= <-] _; cbn; unfold bits, signed; try lia.
  repeat split; try lia; auto; intros; apply u64_range.
Qed.

Lemma sift_session_refines_calls_witness :
  let '(answers, events, d) := direct_calls demo_code demo_access demo_calls (mkDirect true 0 ∅) in
  (answers = [None; None; None; None; Some (Int 770); None; Some (Int 7); Some (Int 1); None; None; Some (Int 0)] /\
   length events = 9%nat) /\
  exists se se', start id false false true ∅ = Ok se /\
    do_calls demo_code demo_pagemap demo_access demo_calls se = Ok (answers, events, se') /\
    se_memory se' = d_memory d /\ w_output (se_writer se') = [] /\ se_response se' = [].
Proof.
  split; [split; vm_compute; reflexivity|].
  apply (sift_session_refines_calls demo_prog demo_ilen demo_pagemap demo_code demo_access id false false true ∅ demo_calls).
  - reflexivity.
  - exact demo_pagemap_ok.
  - exact demo_access_length.
  - exact demo_calls_valid.
Defined.

Lemma sift_last_page_endless_witness :
  send_pages demo_code 50 (icache_page (2 ^ 64 - 8)) (icache_page (2 ^ 64 - 8)) (new_writer false false false false) =
    Err OutOfFuel.
Proof. apply (sift_last_page_endless demo_code (2 ^ 64 - 8)). lia. Defined.

Lemma sift_empty_messages_fail_witness :
  let w := with_output [] (new_writer false false false false) in
  do_call demo_code demo_pagemap demo_access (Output 1 []) demo_handler (mkSession w new_reader [] ∅) = Err AssertFailed /\
  do_call demo_code demo_pagemap demo_access (Syscall 60 []) demo_handler (mkSession w new_reader [] ∅) = Err AssertFailed /\
  (on_response demo_access Sync = Some (response_sync demo_access) ->
   forall i k, serve i (Access 1 MemRead 0x100 [] k) (response_sync demo_access) (mkSession w new_reader [] ∅) = Err Undefined).
Proof.
  apply (sift_empty_messages_fail demo_access demo_code demo_pagemap 1 60 1 0x100); unfold bits; first [reflexivity | lia | discriminate].
Defined.
