(* ===== verification/Timing.v ===== *)
(** Simulated time and the models that compute delays: misc/subsecond_time.h,
    misc/modulo_num, misc/moving_average.h, performance_model/contention_model,
    queue_model and its subclasses, and the DRAM latency models.

    A time is a number of femtoseconds in 64 bits; [tadd] and [tsub] wrap as the
    operators of SubsecondTime do.  The counters kept for statistics are fields of
    the records.  Floating-point numbers occur only where a configuration is read
    (a bandwidth in bits per nanosecond), in the geometric mean and in the
    windowed M/G/1 queue: bandwidths are given as the integers the constructors
    compute, the root of the geometric mean is a parameter, and the M/G/1 queue is
    left out. *)
From stdpp Require Import base numbers list strings.
From Stdlib Require Import ZArith Lia Bool.
From S2P Require Import Prelude.
Open Scope Z_scope.

(** * Time *)
Definition tadd (a b : Z) : Z := u64 (a + b).
Definition tsub (a b : Z) : Z := u64 (a - b).
Definition tmul (a : Z) (n : Z) : Z := u64 (a * n).
Definition MaxTime : Z := 0xffffffffffffffff.
Definition PS_1 : Z := 1000.
Definition NS_1 : Z := PS_1 * 1000.
Definition US_1 : Z := NS_1 * 1000.
Definition MS_1 : Z := US_1 * 1000.
Definition SEC_1 : Z := MS_1 * 1000.

(** An integer division of the machine. *)
Definition udiv (a b : Z) : result Z := guard! negb (b =? 0) else Undefined in Ok (a / b).

(** [SubsecondTime::divideRounded] *)
Definition divideRounded (lhs rhs : Z) : result Z := udiv (u64 (lhs + (rhs / 2 + 1))) rhs.

(** [ComponentPeriod::fromFreqHz] *)
Definition fromFreqHz (freq_in_hz : Z) : result Z := udiv SEC_1 freq_in_hz.

(** [SubsecondTimeCycleConverter], for a period *)
Definition cyclesToSubsecondTime (period cycles : Z) : Z := tmul period cycles.
Definition subsecondTimeToCycles (period time : Z) : result Z := udiv time period.

(** [getRoundedLatency] of ComponentBandwidth and of ComponentBandwidthPerCycle *)
Definition bw_getRoundedLatency (bits_per_us bits_transmitted : Z) : result Z :=
  udiv (tadd (tmul US_1 bits_transmitted) (US_1 / 2)) bits_per_us.
Definition bw_getLatency (bits_per_us bits_transmitted : Z) : result Z :=
  udiv (tmul US_1 bits_transmitted) bits_per_us.
Definition bwpc_getRoundedLatency (period bits_per_cycle bits_transmitted : Z) : result Z :=
  udiv (tadd (tmul period bits_transmitted) (period / 2)) bits_per_cycle.

(** [ComponentTime]: a period and the time that has passed. *)
Module ComponentTime.
Record t := mk { m_period : Z; m_time : Z }.
Definition create (period : Z) : t := mk period 0.
Definition addCycleLatency (num_cycles : Z) (c : t) : t :=
  mk (m_period c) (tadd (m_time c) (tmul (m_period c) num_cycles)).
Definition addLatency (time_to_add : Z) (c : t) : t := mk (m_period c) (tadd (m_time c) time_to_add).
Definition getElapsedTime (c : t) : Z := m_time c.
Definition getCycleCount (c : t) : result Z := divideRounded (m_time c) (m_period c).
End ComponentTime.

(** * Moving averages *)
Module ModuloNum.
Record t := mk { m_value : Z; m_max_value : Z }.
Definition create (max_value : Z) : t := mk 0 max_value.
Definition add_num (a b : t) : result t :=
  guard! m_max_value a =? m_max_value b else AssertFailed in
  guard! negb (m_max_value a =? 0) else Undefined in
  Ok (mk (u32 (m_value a + m_value b) mod m_max_value a) (m_max_value a)).
Definition sub_num (a b : t) : result t :=
  guard! m_max_value a =? m_max_value b else AssertFailed in
  if m_value b <=? m_value a then Ok (mk (u32 (m_value a - m_value b)) (m_max_value a))
  else Ok (mk (u32 (m_max_value a - m_value b + m_value a)) (m_max_value a)).
Definition add (a : t) (value : Z) : result t :=
  guard! negb (m_max_value a =? 0) else Undefined in
  add_num a (mk (value mod m_max_value a) (m_max_value a)).
Definition eqb (a b : t) : bool := (m_value a =? m_value b) && (m_max_value a =? m_max_value b).
End ModuloNum.

Module MovingAverage.
Inductive AvgType_t := ARITHMETIC_MEAN | GEOMETRIC_MEAN | MEDIAN.

Definition parseAvgType (avg_type : string) : result AvgType_t :=
  if String.eqb avg_type "arithmetic_mean" then Ok ARITHMETIC_MEAN
  else if String.eqb avg_type "geometric_mean" then Ok GEOMETRIC_MEAN
  else if String.eqb avg_type "median" then Ok MEDIAN
  else Err LogError.

(** [sum] is used by the arithmetic mean only. *)
Record t := mk {
  avg_type : AvgType_t;
  m_num_list : list Z;
  m_max_window_size : Z;
  m_curr_window_front : ModuloNum.t;
  m_curr_window_back : ModuloNum.t;
  sum : Z
}.

Definition createAvgType (ty : AvgType_t) (max_window_size : Z) : t :=
  let n := u32 (max_window_size + 1) in
  mk ty (replicate (Z.to_nat n) 0) max_window_size (ModuloNum.create n) (ModuloNum.create n) 0.

Definition window_size (a : t) : result Z :=
  let! d := ModuloNum.sub_num (m_curr_window_back a) (m_curr_window_front a) in Ok (ModuloNum.m_value d).

Definition addToWindow (next_num : Z) (a : t) : result t :=
  let! l := aset (m_num_list a) (Z.to_nat (ModuloNum.m_value (m_curr_window_back a))) next_num in
  let! back := ModuloNum.add (m_curr_window_back a) 1 in
  let! front := (if ModuloNum.eqb back (m_curr_window_front a) then ModuloNum.add (m_curr_window_front a) 1
                 else Ok (m_curr_window_front a)) in
  Ok (mk (avg_type a) l (m_max_window_size a) front back (sum a)).

Definition with_sum (s : Z) (a : t) : t :=
  mk (avg_type a) (m_num_list a) (m_max_window_size a) (m_curr_window_front a) (m_curr_window_back a) s.

Definition update (next_num : Z) (a : t) : result t :=
  match avg_type a with
  | ARITHMETIC_MEAN =>
      let! n := window_size a in
      let! s := (if n =? m_max_window_size a then
                   let! old := aget (m_num_list a) (Z.to_nat (ModuloNum.m_value (m_curr_window_front a))) in
                   Ok (tsub (sum a) old)
                 else Ok (sum a)) in
      addToWindow next_num (with_sum (tadd s next_num) a)
  | GEOMETRIC_MEAN | MEDIAN => addToWindow next_num a
  end.

(** The product of the window, from front to back. *)
Fixpoint product (fuel : nat) (curr back : ModuloNum.t) (l : list Z) (acc : Z) : result Z :=
  if ModuloNum.eqb curr back then Ok acc
  else match fuel with
       | O => Err OutOfFuel
       | S fuel' =>
           let! x := aget l (Z.to_nat (ModuloNum.m_value curr)) in
           let! curr := ModuloNum.add curr 1 in
           product fuel' curr back l (tmul acc x)
       end.

Section compute.
(** [pow (double) x, 1.0 / n], converted to an integer *)
Variable root : Z -> Z -> Z.

Definition compute (a : t) : result Z :=
  let! n := window_size a in
  match avg_type a with
  | ARITHMETIC_MEAN => udiv (sum a) n
  | GEOMETRIC_MEAN =>
      let! p := product (length (m_num_list a)) (m_curr_window_front a) (m_curr_window_back a) (m_num_list a) 1 in
      Ok (u64 (root p n))
  | MEDIAN =>
      let! i := ModuloNum.add (m_curr_window_front a) (n / 2) in
      aget (m_num_list a) (Z.to_nat (ModuloNum.m_value i))
  end.

Definition compute_next (next_num : Z) (a : t) : result (Z * t) :=
  let! a := update next_num a in
  let! r := compute a in
  Ok (r, a).
End compute.
End MovingAverage.

(** * Contention for a number of equal units *)
Module ContentionModel.
Record t := mk {
  m_num_outstanding : Z;
  m_time : list (Z * Z);
  m_t_last : Z;
  m_n_requests : Z;
  m_n_barriers : Z;
  m_n_outoforder : Z;
  m_n_simultaneous : Z;
  m_n_hasfreefail : Z;
  m_total_delay : Z;
  m_total_barrier_delay : Z
}.

Definition create (num_outstanding : Z) : t :=
  mk num_outstanding (replicate (Z.to_nat num_outstanding) (0, 0)) 0 0 0 0 0 0 0 0.

Definition getNumUsed (t_start : Z) (c : t) : Z :=
  Z.of_nat (length (filter (fun e => t_start < e.1) (m_time c))).

Definition getTagCompletionTime (tag : Z) (c : t) : Z :=
  match find_first (fun e => e.2 =? tag) (m_time c) with
  | Some i => match m_time c !! i with Some e => e.1 | None => MaxTime end
  | None => MaxTime
  end.

Definition hasTag (tag : Z) (c : t) : bool := existsb (fun e => e.2 =? tag) (m_time c).

Definition hasFreeSlot (t_start tag : Z) (c : t) : bool * t :=
  if existsb (fun e => (e.1 <=? t_start) || (e.2 =? tag)) (m_time c) then (true, c)
  else (false, mk (m_num_outstanding c) (m_time c) (m_t_last c) (m_n_requests c) (m_n_barriers c) (m_n_outoforder c)
                 (m_n_simultaneous c) (u64 (m_n_hasfreefail c + 1)) (m_total_delay c) (m_total_barrier_delay c)).

Definition getBarrierCompletionTime (t_start t_delay tag : Z) (c : t) : Z * t :=
  if m_num_outstanding c =? 0 then (tadd t_start t_delay, c)
  else
    let max_time := foldl (fun m e => if m <? e.1 then e.1 else m) t_start (m_time c) in
    (tadd max_time t_delay,
     mk (m_num_outstanding c) (map (fun _ => (tadd max_time t_delay, tag)) (m_time c)) (m_t_last c) (m_n_requests c)
       (u64 (m_n_barriers c + 1)) (m_n_outoforder c) (m_n_simultaneous c) (m_n_hasfreefail c) (m_total_delay c)
       (tadd (m_total_barrier_delay c) (tsub max_time t_start))).

(** The loop that looks for a unit: whether one is free at [t_start], and its
    number or that of the one that is free first.  [unit] is free at [best]. *)
Fixpoint find_unit (t_start : Z) (i unit : nat) (best : Z) (l : list (Z * Z)) : bool * nat :=
  match l with
  | [] => (false, unit)
  | (t, _) :: l' =>
      if t <=? t_start then (true, i)
      else if t <? best then find_unit t_start (S i) i t l'
      else find_unit t_start (S i) unit best l'
  end.

Definition unit_time (u : nat) (c : t) : result Z := let! e := aget (m_time c) u in Ok e.1.

Definition getCompletionTime (t_start t_delay tag : Z) (c : t) : result (Z * t) :=
  if m_num_outstanding c =? 0 then Ok (tadd t_start t_delay, c)
  else if t_start =? 0 then
    Ok (t_delay, mk (m_num_outstanding c) (m_time c) (m_t_last c) (u64 (m_n_requests c + 1)) (m_n_barriers c)
                   (m_n_outoforder c) (m_n_simultaneous c) (m_n_hasfreefail c) (m_total_delay c)
                   (m_total_barrier_delay c))
  else if t_start <? m_t_last c then
    Ok (tadd t_start t_delay,
        mk (m_num_outstanding c) (m_time c) (m_t_last c) (u64 (m_n_requests c + 1)) (m_n_barriers c)
          (u64 (m_n_outoforder c + 1)) (m_n_simultaneous c) (m_n_hasfreefail c) (m_total_delay c)
          (m_total_barrier_delay c))
  else
    let simultaneous := if t_start =? m_t_last c then u64 (m_n_simultaneous c + 1) else m_n_simultaneous c in
    let! first := unit_time 0 c in
    let unit := (find_unit t_start 0 0 first (m_time c)).2 in
    let! free := unit_time unit c in
    let t_begin := if t_start <? free then free else t_start in
    let t_end := tadd t_begin t_delay in
    let! times := aset (m_time c) unit (t_end, tag) in
    Ok (t_end, mk (m_num_outstanding c) times t_start (u64 (m_n_requests c + 1)) (m_n_barriers c) (m_n_outoforder c)
                 simultaneous (m_n_hasfreefail c) (tadd (m_total_delay c) (tsub t_begin t_start))
                 (m_total_barrier_delay c)).

Definition getStartTime (t_start : Z) (c : t) : result Z :=
  if m_num_outstanding c =? 0 then Ok t_start
  else if t_start <? m_t_last c then Ok t_start
  else
    let! first := unit_time 0 c in
    let '(free_now, unit) := find_unit t_start 0 0 first (m_time c) in
    if free_now then Ok t_start
    else let! free := unit_time unit c in Ok (if t_start <? free then free else t_start).
End ContentionModel.

(** * Queue models *)
Module QueueModelBasic.
Record t := mk { m_queue_time : Z; m_moving_average : option MovingAverage.t }.

Definition create (moving_avg_enabled : bool) (window_size : Z) (avg_type : string) : result t :=
  if moving_avg_enabled then
    let! ty := MovingAverage.parseAvgType avg_type in
    Ok (mk 0 (Some (MovingAverage.createAvgType ty window_size)))
  else Ok (mk 0 None).

Section basic.
Variable root : Z -> Z -> Z.

Definition computeQueueDelay (pkt_time processing_time : Z) (q : t) : result (Z * t) :=
  let! (ref_time, avg) :=
    match m_moving_average q with
    | Some a => let! (r, a) := MovingAverage.compute_next root pkt_time a in Ok (r, Some a)
    | None => Ok (pkt_time, None)
    end in
  let queue_delay := if ref_time <? m_queue_time q then tsub (m_queue_time q) ref_time else 0 in
  Ok (queue_delay, mk (tadd (Z.max (m_queue_time q) ref_time) processing_time) avg).
End basic.
End QueueModelBasic.

Module QueueModelHistoryList.
Record t := mk {
  m_min_processing_time : Z;
  m_max_free_interval_list_size : nat;
  m_free_interval_list : list (Z * Z);
  m_utilized_time : Z;
  m_total_queue_delay : Z;
  m_average_delay : MovingAverage.t;
  m_analytical_model_enabled : bool;
  m_total_requests : Z;
  m_total_requests_using_analytical_model : Z
}.

Definition max_simulation_time : Z := Z.shiftl 1 63.

Definition create (min_processing_time : Z) (analytical : bool) (max_list_size : nat) : t :=
  mk min_processing_time max_list_size [(0, max_simulation_time)] 0 0
    (MovingAverage.createAvgType MovingAverage.ARITHMETIC_MEAN (Z.of_nat max_list_size)) analytical 0 0.

(** The loop over the free intervals: the delay, [MaxTime] if none was found, and
    the list with the interval that was used cut. *)
Fixpoint use_interval (min pkt_time processing_time : Z) (l : list (Z * Z)) : Z * list (Z * Z) :=
  match l with
  | [] => (MaxTime, [])
  | (first, second) :: l' =>
      if (first <=? pkt_time) && (tadd pkt_time processing_time <=? second) then
        (0, (if min <=? tsub pkt_time first then [(first, pkt_time)] else []) ++
            (if min <=? tsub second (tadd pkt_time processing_time)
             then [(tadd pkt_time processing_time, second)] else []) ++ l')
      else if pkt_time <? first then
        (tsub first pkt_time,
         (if min <=? tsub second (tadd first processing_time)
          then [(tadd first processing_time, second)] else []) ++ l')
      else let '(d, l'') := use_interval min pkt_time processing_time l' in (d, (first, second) :: l'')
  end.

Definition with_list (l : list (Z * Z)) (q : t) : t :=
  mk (m_min_processing_time q) (m_max_free_interval_list_size q) l (m_utilized_time q) (m_total_queue_delay q)
    (m_average_delay q) (m_analytical_model_enabled q) (m_total_requests q) (m_total_requests_using_analytical_model q).

Definition computeUsingHistoryList (pkt_time processing_time : Z) (q : t) : result (Z * t) :=
  guard! (length (m_free_interval_list q) <=? m_max_free_interval_list_size q)%nat else LogError in
  let '(queue_delay, l) :=
    use_interval (m_min_processing_time q) pkt_time processing_time (m_free_interval_list q) in
  guard! negb (queue_delay =? MaxTime) else LogError in
  let l := if (m_max_free_interval_list_size q <? length l)%nat then tail l else l in
  Ok (queue_delay, with_list l q).

Definition updateAverageDelay (queue_delay : Z) (q : t) : result t :=
  let! a := MovingAverage.update queue_delay (m_average_delay q) in
  Ok (mk (m_min_processing_time q) (m_max_free_interval_list_size q) (m_free_interval_list q) (m_utilized_time q)
        (m_total_queue_delay q) a (m_analytical_model_enabled q) (m_total_requests q)
        (m_total_requests_using_analytical_model q)).

(** A request older than the list reaches back. *)
Definition is_old (pkt_time processing_time : Z) (q : t) : result bool :=
  let! oldest := of_option (head (m_free_interval_list q)) LogError in
  Ok (m_analytical_model_enabled q && (tadd pkt_time processing_time <=? oldest.1)).

Section history_list.
Variable root : Z -> Z -> Z.

Definition computeQueueDelay (pkt_time processing_time : Z) (q : t) : result (Z * t) :=
  let! old := is_old pkt_time processing_time q in
  let! (queue_delay, q) :=
    (if old : bool then
       let! d := MovingAverage.compute root (m_average_delay q) in
       Ok (d, mk (m_min_processing_time q) (m_max_free_interval_list_size q) (m_free_interval_list q)
                (m_utilized_time q) (m_total_queue_delay q) (m_average_delay q) (m_analytical_model_enabled q)
                (m_total_requests q) (u64 (m_total_requests_using_analytical_model q + 1)))
     else
       let! (d, q) := computeUsingHistoryList pkt_time processing_time q in
       let! q := updateAverageDelay d q in
       Ok (d, q)) in
  Ok (queue_delay,
      mk (m_min_processing_time q) (m_max_free_interval_list_size q) (m_free_interval_list q)
        (tadd (m_utilized_time q) processing_time) (tadd (m_total_queue_delay q) queue_delay) (m_average_delay q)
        (m_analytical_model_enabled q) (u64 (m_total_requests q + 1)) (m_total_requests_using_analytical_model q)).
End history_list.
End QueueModelHistoryList.

Module QueueModelContention.
Definition computeQueueDelay (pkt_time processing_time : Z) (c : ContentionModel.t) : result (Z * ContentionModel.t) :=
  let! (t_complete, c) := ContentionModel.getCompletionTime pkt_time processing_time 0 c in
  Ok (tsub (tsub t_complete pkt_time) processing_time, c).
End QueueModelContention.

(** The parameters in the configuration file. *)
Record QueueConfig := mkQueueConfig {
  moving_avg_enabled : bool;
  moving_avg_window_size : Z;
  moving_avg_type : string;
  analytical_model_enabled : bool;
  max_list_size : nat
}.

Inductive QueueModel :=
  | Basic (q : QueueModelBasic.t)
  | HistoryList (q : QueueModelHistoryList.t)
  | Contention (c : ContentionModel.t).

Definition create_queue (cfg : QueueConfig) (model_type : string) (min_processing_time : Z) : result QueueModel :=
  if String.eqb model_type "basic" then
    let! q := QueueModelBasic.create (moving_avg_enabled cfg) (moving_avg_window_size cfg) (moving_avg_type cfg) in
    Ok (Basic q)
  else if String.eqb model_type "history_list" then
    Ok (HistoryList (QueueModelHistoryList.create min_processing_time (analytical_model_enabled cfg) (max_list_size cfg)))
  else if String.eqb model_type "contention" then Ok (Contention (ContentionModel.create 1))
  else Err LogError.

Section queue.
Variable root : Z -> Z -> Z.

Definition computeQueueDelay (pkt_time processing_time : Z) (q : QueueModel) : result (Z * QueueModel) :=
  match q with
  | Basic q => let! (d, q) := QueueModelBasic.computeQueueDelay root pkt_time processing_time q in Ok (d, Basic q)
  | HistoryList q =>
      let! (d, q) := QueueModelHistoryList.computeQueueDelay root pkt_time processing_time q in Ok (d, HistoryList q)
  | Contention c => let! (d, c) := QueueModelContention.computeQueueDelay pkt_time processing_time c in Ok (d, Contention c)
  end.

(** * DRAM latency *)
Inductive dram_access := READ | WRITE.

Record DramPerfModel := mkDram {
  m_enabled : bool;
  m_num_accesses : Z;
  m_queue_model : option QueueModel;
  m_queue_model_write : option QueueModel;
  m_dram_access_cost : Z;
  m_dram_bandwidth : Z;
  m_shared_readwrite : bool;
  m_total_queueing_delay : Z;
  m_total_write_queueing_delay : Z;
  m_total_access_latency : Z
}.

(** [DramPerfModelConstant], in which the fields of the write queue are not used *)
Definition new_dram_constant (cfg : QueueConfig) (queue_enabled : bool) (queue_type : string)
    (bandwidth latency cache_block_size : Z) : result DramPerfModel :=
  let! q := (if queue_enabled then
               let! min := bw_getRoundedLatency bandwidth (u32 (8 * cache_block_size)) in
               let! q := create_queue cfg queue_type min in Ok (Some q)
             else Ok None) in
  Ok (mkDram false 0 q None latency bandwidth false 0 0 0).

Definition new_dram_readwrite (cfg : QueueConfig) (queue_enabled shared : bool) (queue_type : string)
    (bandwidth latency cache_block_size : Z) : result DramPerfModel :=
  let! (r, w) := (if queue_enabled then
                    let! min := bw_getRoundedLatency bandwidth (u32 (8 * cache_block_size)) in
                    let! r := create_queue cfg queue_type min in
                    let! w := create_queue cfg queue_type min in Ok (Some r, Some w)
                  else Ok (None, None)) in
  Ok (mkDram false 0 r w latency bandwidth shared 0 0 0).

Definition enable (d : DramPerfModel) : DramPerfModel :=
  mkDram true (m_num_accesses d) (m_queue_model d) (m_queue_model_write d) (m_dram_access_cost d) (m_dram_bandwidth d)
    (m_shared_readwrite d) (m_total_queueing_delay d) (m_total_write_queueing_delay d) (m_total_access_latency d).

(** The delay of an optional queue. *)
Definition queue_delay_of (pkt_time processing_time : Z) (q : option QueueModel) : result (Z * option QueueModel) :=
  match q with
  | Some q => let! (d, q) := computeQueueDelay pkt_time processing_time q in Ok (d, Some q)
  | None => Ok (0, None)
  end.

(** [application_core] is whether the requester is below getApplicationCores. *)
Definition constant_getAccessLatency (pkt_time pkt_size : Z) (application_core : bool) (d : DramPerfModel)
  : result (Z * DramPerfModel) :=
  if negb (m_enabled d) || negb application_core then Ok (0, d)
  else
    let! processing_time := bw_getRoundedLatency (m_dram_bandwidth d) (u64 (8 * pkt_size)) in
    let! (queue_delay, q) := queue_delay_of pkt_time processing_time (m_queue_model d) in
    let access_latency := tadd (tadd queue_delay processing_time) (m_dram_access_cost d) in
    Ok (access_latency,
        mkDram (m_enabled d) (u64 (m_num_accesses d + 1)) q (m_queue_model_write d) (m_dram_access_cost d)
          (m_dram_bandwidth d) (m_shared_readwrite d) (tadd (m_total_queueing_delay d) queue_delay)
          (m_total_write_queueing_delay d) (tadd (m_total_access_latency d) access_latency)).

Definition readwrite_getAccessLatency (pkt_time pkt_size : Z) (application_core : bool) (access_type : dram_access)
    (d : DramPerfModel) : result (Z * DramPerfModel) :=
  if negb (m_enabled d) || negb application_core then Ok (0, d)
  else
    let! processing_time := bw_getRoundedLatency (m_dram_bandwidth d) (u64 (8 * pkt_size)) in
    let! (queue_delay, r, w) :=
      match m_queue_model d, access_type with
      | None, _ => Ok (0, None, m_queue_model_write d)
      | Some r, READ =>
          let! (queue_delay, r) := computeQueueDelay pkt_time processing_time r in
          if m_shared_readwrite d then
            let! w := of_option (m_queue_model_write d) Undefined in
            let! (_, w) := computeQueueDelay pkt_time processing_time w in
            Ok (queue_delay, Some r, Some w)
          else Ok (queue_delay, Some r, m_queue_model_write d)
      | Some r, WRITE =>
          let! w := of_option (m_queue_model_write d) Undefined in
          let! (queue_delay, w) := computeQueueDelay pkt_time processing_time w in
          Ok (queue_delay, Some r, Some w)
      end in
    let access_latency := tadd (tadd queue_delay processing_time) (m_dram_access_cost d) in
    Ok (access_latency,
        mkDram (m_enabled d) (u64 (m_num_accesses d + 1)) r w (m_dram_access_cost d) (m_dram_bandwidth d)
          (m_shared_readwrite d)
          (match access_type with READ => tadd (m_total_queueing_delay d) queue_delay | WRITE => m_total_queueing_delay d end)
          (match access_type with WRITE => tadd (m_total_write_queueing_delay d) queue_delay | READ => m_total_write_queueing_delay d end)
          (tadd (m_total_access_latency d) access_latency)).
End queue.
