(* ===== verification/QueueLemmas.v ===== *)
(** Lemmas about the delay models of Timing: the ring of a moving average holds the
    last values, and a history list hands out its free time once. *)
From stdpp Require Import base numbers list sets strings.
From Stdlib Require Import ZArith Lia Bool.
From S2P Require Import Prelude Timing.
Open Scope Z_scope.

Lemma tadd_small a b : 0 <= a + b < 2 ^ 64 -> tadd a b = a + b.
Proof. apply u64_small. Qed.
Lemma tsub_small a b : 0 <= a - b < 2 ^ 64 -> tsub a b = a - b.
Proof. apply u64_small. Qed.
Lemma tmul_small a b : 0 <= a * b < 2 ^ 64 -> tmul a b = a * b.
Proof. apply u64_small. Qed.

Lemma mod_wrap x n : n <= x < 2 * n -> x mod n = x - n.
Proof. intros H. symmetry. apply (Zmod_unique x n 1); lia. Qed.

(** * Moving averages *)
Module Average.
Import MovingAverage.

(** [l] is the window of [a], oldest first; at most [n] values are kept. *)
Record holds (n : nat) (l : list Z) (a : MovingAverage.t) : Prop := {
  h_type : avg_type a = ARITHMETIC_MEAN;
  h_max : m_max_window_size a = Z.of_nat n;
  h_size : length (m_num_list a) = S n;
  h_front_max : ModuloNum.m_max_value (m_curr_window_front a) = Z.of_nat (S n);
  h_back_max : ModuloNum.m_max_value (m_curr_window_back a) = Z.of_nat (S n);
  h_front : 0 <= ModuloNum.m_value (m_curr_window_front a) < Z.of_nat (S n);
  h_length : (length l <= n)%nat;
  h_back : ModuloNum.m_value (m_curr_window_back a) =
           (ModuloNum.m_value (m_curr_window_front a) + Z.of_nat (length l)) mod Z.of_nat (S n);
  h_cells : forall i x, l !! i = Some x ->
    m_num_list a !! Z.to_nat ((ModuloNum.m_value (m_curr_window_front a) + Z.of_nat i) mod Z.of_nat (S n)) = Some x;
  h_sum : sum a = u64 (foldr Z.add 0 l)
}.

(** The window after one more value. *)
Definition slide (n : nat) (l : list Z) (x : Z) : list Z :=
  (if (length l =? n)%nat then tail l else l) ++ [x].

Lemma create_holds n : Z.of_nat (S n) < 2 ^ 32 -> holds n [] (createAvgType ARITHMETIC_MEAN (Z.of_nat n)).
Proof.
  intros Hn. unfold createAvgType. rewrite u32_small by lia.
  replace (Z.of_nat n + 1) with (Z.of_nat (S n)) by lia.
  split; cbn -[Z.of_nat]; try done; try lia. by rewrite length_replicate, Nat2Z.id.
Qed.

Lemma window_size_holds n l a : Z.of_nat (S n) < 2 ^ 32 -> holds n l a -> window_size a = Ok (Z.of_nat (length l)).
Proof.
  intros Hn []. unfold window_size, ModuloNum.sub_num. rewrite h_front_max0, h_back_max0, Z.eqb_refl. cbn [rguard rbind].
  set (f := ModuloNum.m_value (m_curr_window_front a)) in *. rewrite h_back0.
  destruct (Z.leb_spec f ((f + Z.of_nat (length l)) mod Z.of_nat (S n))) as [H|H]; cbn [rbind ModuloNum.m_value].
  - destruct (Z.lt_ge_cases (f + Z.of_nat (length l)) (Z.of_nat (S n))).
    + rewrite Z.mod_small in * by lia. f_equal. rewrite u32_small; lia.
    + rewrite mod_wrap in * by lia. lia.
  - destruct (Z.lt_ge_cases (f + Z.of_nat (length l)) (Z.of_nat (S n))).
    + rewrite Z.mod_small in H by lia. lia.
    + rewrite mod_wrap by lia. f_equal. rewrite u32_small; lia.
Qed.


Lemma add_1 m n : (1 <= n)%nat -> Z.of_nat (S n) < 2 ^ 32 -> ModuloNum.m_max_value m = Z.of_nat (S n) ->
  0 <= ModuloNum.m_value m < Z.of_nat (S n) ->
  ModuloNum.add m 1 = Ok (ModuloNum.mk ((ModuloNum.m_value m + 1) mod Z.of_nat (S n)) (Z.of_nat (S n))).
Proof.
  intros H1 Hn Hm Hv. unfold ModuloNum.add, ModuloNum.add_num. cbn [ModuloNum.m_value ModuloNum.m_max_value].
  rewrite Hm, Z.eqb_refl, (proj2 (Z.eqb_neq (Z.of_nat (S n)) 0)) by lia. cbn [negb rguard rbind].
  rewrite (Z.mod_small 1) by lia. by rewrite u32_small by lia.
Qed.

Lemma foldr_add_app l x : foldr Z.add 0 (l ++ [x]) = foldr Z.add 0 l + x.
Proof. induction l as [|y l IH]; cbn; lia. Qed.

Lemma lookup_slide n l x i y : (1 <= n)%nat -> (length l <= n)%nat -> slide n l x !! i = Some y ->
  (i = length (slide n l x) - 1)%nat /\ y = x \/
  (i < length (slide n l x) - 1)%nat /\ l !! (if (length l =? n)%nat then S i else i) = Some y.
Proof.
  intros Hn Hl. unfold slide. rewrite length_app. cbn [length].
  destruct (Nat.eqb_spec (length l) n) as [E|E].
  - destruct l as [|z l]; cbn [length tail lookup] in *; [lia|].
    intros [H|[H1 H2]]%lookup_app_Some.
    + right. split; [apply lookup_lt_Some in H; lia|done].
    + left. apply list_lookup_singleton_Some in H2 as [H2 <-]. split; [lia|done].
  - intros [H|[H1 H2]]%lookup_app_Some.
    + right. split; [apply lookup_lt_Some in H; lia|done].
    + left. apply list_lookup_singleton_Some in H2 as [H2 <-]. split; [lia|done].
Qed.

Lemma length_slide n l x : (1 <= n)%nat -> (length l <= n)%nat ->
  length (slide n l x) = if (length l =? n)%nat then n else S (length l).
Proof.
  intros Hn Hl. unfold slide. rewrite length_app. cbn [length]. destruct (Nat.eqb_spec (length l) n); [|lia].
  destruct l; cbn in *; lia.
Qed.

(** One more value. *)
Lemma update_holds n l a x : (1 <= n)%nat -> Z.of_nat (S n) < 2 ^ 32 -> holds n l a ->
  exists a', update x a = Ok a' /\ holds n (slide n l x) a'.
Proof.
  intros H1 Hn Ha. pose proof (window_size_holds n l a Hn Ha) as Hw. destruct Ha.
  set (f := ModuloNum.m_value (m_curr_window_front a)) in *.
  set (b := ModuloNum.m_value (m_curr_window_back a)) in *.
  set (N := Z.of_nat (S n)) in *.
  assert (Hb : 0 <= b < N) by (rewrite h_back0; apply Z.mod_pos_bound; lia).
  unfold update. rewrite h_type0, Hw. cbn [rbind]. rewrite h_max0. fold f.
  assert (Hs : exists s, (if Z.of_nat (length l) =? Z.of_nat n
      then let! old := aget (m_num_list a) (Z.to_nat f) in Ok (tsub (sum a) old) else Ok (sum a)) = Ok s /\
      tadd s x = u64 (foldr Z.add 0 (slide n l x))).
  { unfold slide. rewrite foldr_add_app. destruct (Z.eqb_spec (Z.of_nat (length l)) (Z.of_nat n)) as [E|E].
    - rewrite (proj2 (Nat.eqb_eq _ _)) by lia. destruct l as [|y l]; [cbn in E; lia|].
      pose proof (h_cells0 O y eq_refl) as Hc. rewrite Z.add_0_r, Z.mod_small in Hc by (unfold f; lia).
      rewrite (aget_Ok _ _ _ Hc). cbn [rbind tail]. eexists. split; [done|].
      rewrite h_sum0. cbn [foldr]. unfold tadd, tsub, u64, uwrap.
      rewrite Zminus_mod_idemp_l, Zplus_mod_idemp_l. f_equal. lia.
    - rewrite (proj2 (Nat.eqb_neq _ _)) by lia. eexists. split; [done|].
      rewrite h_sum0. unfold tadd, u64, uwrap. by rewrite Zplus_mod_idemp_l. }
  destruct Hs as (s & -> & Hs). cbn [rbind]. rewrite Hs.
  unfold addToWindow, with_sum. cbn [m_num_list m_curr_window_back m_curr_window_front avg_type m_max_window_size sum].
  fold b. rewrite aset_Ok by lia. cbn [rbind]. rewrite add_1 with (n := n) by done. cbn [rbind]. fold b N.
  unfold ModuloNum.eqb. cbn [ModuloNum.m_value ModuloNum.m_max_value]. rewrite h_front_max0, Z.eqb_refl, andb_true_r.
  fold f. assert (Hfull : (b + 1) mod N = f <-> length l = n).
  { rewrite h_back0, Zplus_mod_idemp_l. split; intros E.
    - destruct (Z.lt_ge_cases (f + Z.of_nat (length l) + 1) N).
      + rewrite Z.mod_small in E by lia. lia.
      + rewrite mod_wrap in E by lia. lia.
    - rewrite mod_wrap by lia. lia. }
  set (full := (length l =? n)%nat) in *.
  assert (Hc : if full then length l = n else length l <> n).
  { subst full. by destruct (Nat.eqb_spec (length l) n). }
  assert (Hfront : exists front, (if (b + 1) mod N =? f then ModuloNum.add (m_curr_window_front a) 1
      else Ok (m_curr_window_front a)) = Ok front /\ ModuloNum.m_max_value front = N /\
      ModuloNum.m_value front = (f + (if full then 1 else 0)) mod N).
  { subst full. destruct (Z.eqb_spec ((b + 1) mod N) f) as [E|E].
    - rewrite (proj2 (Nat.eqb_eq _ _) (proj1 Hfull E)). rewrite add_1 with (n := n) by done. by eexists.
    - rewrite (proj2 (Nat.eqb_neq _ _)) by (intros E'; apply E; tauto). eexists. split; [done|].
      split; [done|]. rewrite Z.add_0_r, Z.mod_small; [done|lia]. }
  destruct Hfront as (front & -> & Hfm & Hfv). cbn [rbind]. eexists. split; [done|].
  pose proof (length_slide n l x H1 h_length0) as Hlen. fold full in Hlen.
  assert (Hmodf : 0 <= (f + (if full then 1 else 0)) mod N < N) by (apply Z.mod_pos_bound; lia).
  split; cbn [avg_type m_num_list m_max_window_size m_curr_window_front m_curr_window_back sum ModuloNum.m_value
    ModuloNum.m_max_value]; try done.
  - by rewrite length_insert.
  - by rewrite Hfv.
  - rewrite Hlen. clearbody full. destruct full; lia.
  - rewrite Hfv, Zplus_mod_idemp_l, h_back0, Zplus_mod_idemp_l. f_equal. rewrite Hlen.
    clearbody full. destruct full; lia.
  - intros i y Hi. rewrite Hfv, Zplus_mod_idemp_l.
    assert (Hcell : forall j, (f + Z.of_nat j) mod N = b -> (j < S n)%nat -> j = length l).
    { intros j E Hj. rewrite h_back0 in E.
      destruct (Z.lt_ge_cases (f + Z.of_nat j) N), (Z.lt_ge_cases (f + Z.of_nat (length l)) N);
        rewrite ?Z.mod_small, ?mod_wrap in E by lia; rewrite ?Z.mod_small, ?mod_wrap in E by lia; lia. }
    pose proof (lookup_slide n l x i y H1 h_length0 Hi) as Hcase. fold full in Hcase. rewrite Hlen in Hcase.
    assert (Hshift : f + (if full then 1 else 0) + Z.of_nat i = f + Z.of_nat (if full then S i else i)) by (destruct full; lia).
    rewrite Hshift. destruct Hcase as [[-> ->]|[Hlt Hy]].
    + fold N. assert (E : (if full then S ((if full then n else S (length l)) - 1)
                            else ((if full then n else S (length l)) - 1)%nat) = length l).
      { clearbody full. destruct full; lia. }
      rewrite E, <- h_back0. apply list_lookup_insert_eq. lia.
    + rewrite list_lookup_insert_ne; [by apply h_cells0|]. intros E.
      apply Z2Nat.inj in E; [|lia|apply Z.mod_pos_bound; lia].
      apply eq_sym, Hcell in E; apply lookup_lt_Some in Hy; lia.
Qed.

Lemma compute_holds root n l a : Z.of_nat (S n) < 2 ^ 32 -> holds n l a -> l <> [] ->
  compute root a = Ok (u64 (foldr Z.add 0 l) / Z.of_nat (length l)).
Proof.
  intros Hn Ha Hl. unfold compute. rewrite (window_size_holds n l a Hn Ha). cbn [rbind]. destruct Ha.
  rewrite h_type0, h_sum0. unfold udiv. rewrite (proj2 (Z.eqb_neq _ _)); [done|]. destruct l; cbn; [done|lia].
Qed.
End Average.

(** * Free intervals *)

(** Two intervals of time that do not overlap. *)
Definition apart (i j : Z * Z) : Prop := i.2 <= j.1 \/ j.2 <= i.1.
Definition inside (i j : Z * Z) : Prop := j.1 <= i.1 /\ i.2 <= j.2.

Lemma apart_sym i j : apart i j -> apart j i.
Proof. unfold apart. tauto. Qed.

Lemma apart_inside i j k : apart i j -> inside k j -> apart i k.
Proof. unfold apart, inside. lia. Qed.

Module History.
Import QueueModelHistoryList.

(** Intervals in order, from [lo] on, each at least [min] long. *)
Fixpoint ordered (min lo : Z) (l : list (Z * Z)) : Prop :=
  match l with
  | [] => True
  | (first, second) :: l' => lo <= first /\ first + min <= second /\ ordered min second l'
  end.

(** The last interval starts by [h] and lasts to the end of time. *)
Definition open_end (h : Z) (l : list (Z * Z)) : Prop :=
  exists first, last l = Some (first, max_simulation_time) /\ first <= h.

Lemma ordered_weaken min lo lo' l : lo' <= lo -> ordered min lo l -> ordered min lo' l.
Proof. destruct l as [|[a b] l]; cbn; [done|]. intros ? (? & ? & ?). split; [lia|done]. Qed.

Lemma ordered_tail min lo l : 0 <= min -> ordered min lo l -> ordered min lo (tail l).
Proof.
  destruct l as [|[a b] l]; cbn; [done|]. intros ? (? & ? & H). eapply ordered_weaken; [|exact H]. lia.
Qed.

Lemma ordered_In min lo l i : 0 <= min -> ordered min lo l -> i ∈ l -> lo <= i.1 /\ i.1 + min <= i.2.
Proof.
  revert lo. induction l as [|[a b] l IH]; intros lo Hm; cbn; [set_solver|].
  intros (? & ? & H) [->|Hin]%elem_of_cons; [cbn; lia|]. specialize (IH b Hm H Hin). lia.
Qed.

Lemma ordered_below min lo l i : 0 <= min -> ordered min lo l -> open_end i l -> forall j, j ∈ l -> j.2 <= max_simulation_time.
Proof.
  intros Hm. revert lo. induction l as [|[a b] l IH]; intros lo; [set_solver|].
  intros (? & ? & H) (f & Hf & Hi) j [->|Hin]%elem_of_cons.
  - destruct l as [|[c d] l]; [cbn in Hf; injection Hf as -> ->; cbn; lia|]. cbn.
    assert (Hd : d <= max_simulation_time).
    { apply (IH b H) with (j := (c, d)); [by exists f|apply elem_of_cons; by left]. }
    destruct H as (? & ? & _). lia.
  - destruct l as [|c l]; [by apply elem_of_nil in Hin|]. apply (IH b H); [by exists f|done].
Qed.

(** What serving a request from the list does. *)
Record served (min lo pkt p h : Z) (l : list (Z * Z)) (d : Z) (l' : list (Z * Z)) : Prop := {
  sv_delay : 0 <= d < MaxTime;
  sv_free : exists i, i ∈ l /\ inside (pkt + d, pkt + d + p) i;
  sv_ordered : ordered min lo l';
  sv_rest : forall j, j ∈ l' -> (exists i, i ∈ l /\ inside j i) /\ apart (pkt + d, pkt + d + p) j;
  sv_open : open_end (Z.max h pkt + p) l';
  sv_length : (length l' <= S (length l))%nat
}.

Lemma max_time : max_simulation_time = 2 ^ 63.
Proof. reflexivity. Qed.

Lemma last_cons_ne {A} (x : A) l : l <> [] -> last (x :: l) = last l.
Proof. by destruct l. Qed.

(** The cases of a request at the interval [(a, b)]. *)
Section serve.
Context (min lo pkt p h a b : Z) (l : list (Z * Z)).
Hypotheses (Hlo0 : 0 <= lo) (Hpkt : 0 <= pkt) (Hp : 0 < p <= min) (Hroom : Z.max h pkt + p + min <= 2 ^ 63)
  (Hord : ordered min lo ((a, b) :: l)) (Hopen : open_end h ((a, b) :: l)).

Lemma cell_below : b <= 2 ^ 63.
Proof.
  apply (ordered_below min lo _ h) with (j := (a, b)) in Hord; [done|lia|done|]. by left.
Qed.

Lemma rest_after j : j ∈ l -> b <= j.1 /\ j.1 + min <= j.2.
Proof. intros Hj. destruct Hord as (_ & _ & H). apply (ordered_In min b l); [lia|done|done]. Qed.

Lemma last_or_more : l = [] /\ b = 2 ^ 63 /\ a <= h \/ l <> [] /\ open_end h l.
Proof.
  destruct Hopen as (f & Hf & Hfh). destruct l as [|c l']; [left|right; split; [done|by exists f]].
  cbn in Hf. injection Hf as -> ->. done.
Qed.

Lemma open_with k x : (l = [] -> last x = Some (k, b) /\ k <= Z.max h pkt + p) -> open_end (Z.max h pkt + p) (x ++ l).
Proof.
  intros Hx. destruct last_or_more as [(-> & E & Ha)|(Hne & f & Hf & Hfh)].
  - rewrite app_nil_r. exists k. rewrite E, <- max_time in Hx. by apply Hx.
  - exists f. split; [|lia]. by rewrite last_app, Hf.
Qed.

Lemma rest_apart s j : s + p <= b -> j ∈ l ->
  (exists i, i ∈ (a, b) :: l /\ inside j i) /\ apart (s, s + p) j.
Proof.
  intros Hs Hj. split; [exists j; split; [by right|unfold inside; lia]|].
  pose proof (rest_after j Hj). unfold apart. cbn. lia.
Qed.

Lemma serve_fit : a <= pkt -> pkt + p <= b ->
  served min lo pkt p h ((a, b) :: l) 0
    ((if min <=? pkt - a then [(a, pkt)] else []) ++ (if min <=? b - (pkt + p) then [(pkt + p, b)] else []) ++ l).
Proof.
  intros Ha Hb. pose proof cell_below. destruct Hord as (Hlo & Hab & Hl). rewrite app_assoc. split; rewrite ?Z.add_0_r.
  - unfold MaxTime. lia.
  - exists (a, b). split; [by left|]. unfold inside. cbn. lia.
  - destruct (Z.leb_spec min (pkt - a)), (Z.leb_spec min (b - (pkt + p))); cbn; repeat split; try lia; try done;
      eapply ordered_weaken; try exact Hl; lia.
  - intros j [Hj|Hj]%elem_of_app; [|by apply rest_apart].
    assert (j = (a, pkt) \/ j = (pkt + p, b)) as Hj'.
    { destruct (Z.leb_spec min (pkt - a)), (Z.leb_spec min (b - (pkt + p))); set_solver. }
    split; [exists (a, b); split; [by left|]|]; unfold inside, apart; destruct Hj' as [-> | ->]; cbn; lia.
  - apply (open_with (pkt + p)). intros El. destruct last_or_more as [(_ & Eb & _)|(Hne & _)]; [|done].
    rewrite (proj2 (Z.leb_le min (b - (pkt + p)))) by lia. rewrite last_snoc. split; [done|lia].
  - rewrite !length_app. destruct (min <=? pkt - a), (min <=? b - (pkt + p)); cbn; lia.
Qed.

Lemma serve_next : pkt < a ->
  served min lo pkt p h ((a, b) :: l) (a - pkt) ((if min <=? b - (a + p) then [(a + p, b)] else []) ++ l).
Proof.
  intros Ha. pose proof cell_below. destruct Hord as (Hlo & Hab & Hl).
  split; replace (pkt + (a - pkt)) with a by lia.
  - unfold MaxTime. lia.
  - exists (a, b). split; [by left|]. unfold inside. cbn. lia.
  - destruct (Z.leb_spec min (b - (a + p))); cbn; repeat split; try lia; try done;
      eapply ordered_weaken; try exact Hl; lia.
  - intros j [Hj|Hj]%elem_of_app; [|apply rest_apart; [lia|done]].
    assert (j = (a + p, b)) as -> by (destruct (Z.leb_spec min (b - (a + p))); set_solver).
    split; [exists (a, b); split; [by left|]|]; unfold inside, apart; cbn; lia.
  - apply (open_with (a + p)). intros El. destruct last_or_more as [(_ & Eb & Hah)|(Hne & _)]; [|done].
    rewrite (proj2 (Z.leb_le min (b - (a + p)))) by lia. split; [done|lia].
  - rewrite length_app. destruct (min <=? b - (a + p)); cbn; lia.
Qed.

Lemma serve_later d l' : served min b pkt p h l d l' ->
  served min lo pkt p h ((a, b) :: l) d ((a, b) :: l').
Proof.
  intros []. destruct Hord as (Hlo & Hab & _). split; [done| |done| | |cbn; lia].
  - destruct sv_free0 as (i & Hi & ?). exists i. split; [by right|done].
  - intros j [->|Hj]%elem_of_cons.
    + split; [exists (a, b); split; [by left|unfold inside; lia]|].
      destruct sv_free0 as (i & Hi & Hin). pose proof (rest_after i Hi). unfold inside, apart in *. cbn in *. lia.
    + destruct (sv_rest0 j Hj) as [(i & Hi & ?) ?]. split; [exists i; split; [by right|done]|done].
  - destruct sv_open0 as (f & Hf & ?). exists f. split; [|done]. rewrite last_cons_ne; [done|]. by intros ->.
Qed.
End serve.

(** Every request finds time after it arrives. *)
Lemma use_interval_served min lo pkt p h l : 0 <= lo -> 0 <= pkt -> 0 < p <= min ->
  Z.max h pkt + p + min <= max_simulation_time -> ordered min lo l -> open_end h l ->
  let '(d, l') := use_interval min pkt p l in served min lo pkt p h l d l'.
Proof.
  intros Hlo0 Hpkt Hp Hroom. rewrite max_time in Hroom.
  revert lo Hlo0. induction l as [|[a b] l IH]; intros lo Hlo0 Hord Hopen; [by destruct Hopen as (? & ? & _)|].
  assert (Hb : b <= 2 ^ 63) by (by eapply cell_below).
  pose proof Hord as (Hlo & Hab & Hl). cbn [use_interval].
  destruct ((a <=? pkt) && (tadd pkt p <=? b)) eqn:Efit; zbool.
  - rewrite tadd_small in * by lia. rewrite !tsub_small by lia. by apply serve_fit.
  - destruct (Z.ltb_spec pkt a) as [Hlt|Hge].
    + rewrite tadd_small, !tsub_small by lia. by apply serve_next.
    + assert (Hmore : l = [] /\ b = 2 ^ 63 /\ a <= h \/ l <> [] /\ open_end h l) by (by eapply last_or_more).
      destruct Hmore as [(-> & Eb & Ha)|(Hne & Hl')].
      { rewrite Eb, tadd_small in Efit by lia. lia. }
      specialize (IH b ltac:(lia) Hl Hl'). destruct (use_interval min pkt p l) as [d l']. by apply serve_later.
Qed.

(** ** The queue *)

(** A queue that has handed out the times [taken], and last those up to [h]. *)
Record inv (min : Z) (size : nat) (h : Z) (taken : list (Z * Z)) (q : QueueModelHistoryList.t) : Prop := {
  i_min : m_min_processing_time q = min;
  i_size : m_max_free_interval_list_size q = size;
  i_ordered : ordered min 0 (m_free_interval_list q);
  i_open : open_end h (m_free_interval_list q);
  i_length : (length (m_free_interval_list q) <= size)%nat;
  i_apart : ForallOrdPairs apart taken;
  i_free : forall i j, i ∈ taken -> j ∈ m_free_interval_list q -> apart i j;
  i_average : exists w, Average.holds size w (m_average_delay q) /\
    (w = [] -> m_free_interval_list q = [(0, max_simulation_time)])
}.

Lemma create_inv min an size : 0 <= min <= max_simulation_time -> (1 <= size)%nat -> Z.of_nat (S size) < 2 ^ 32 ->
  inv min size 0 [] (QueueModelHistoryList.create min an size).
Proof.
  intros Hm H1 Hs. split; cbn -[Z.of_nat max_simulation_time]; try done; try lia.
  - by exists 0.
  - constructor.
  - intros i j Hi. by apply elem_of_nil in Hi.
  - exists []. split; [by apply Average.create_holds|done].
Qed.

Lemma inv_head min size h taken q : inv min size h taken q ->
  exists oldest, head (m_free_interval_list q) = Some oldest /\ oldest ∈ m_free_interval_list q.
Proof.
  intros []. destruct i_open0 as (f & Hf & _). destruct (m_free_interval_list q) as [|o l]; [done|].
  exists o. split; [done|by left].
Qed.

(** Serving from the list. *)
Lemma history_inv min size h taken q pkt p : (1 <= size)%nat -> 0 <= pkt -> 0 < p <= min ->
  Z.max h pkt + p + min <= max_simulation_time -> inv min size h taken q ->
  exists d l, computeUsingHistoryList pkt p q = Ok (d, with_list l q) /\ (0 <= d /\ pkt + d + p <= max_simulation_time) /\
    ordered min 0 l /\ open_end (Z.max h pkt + p) l /\ (length l <= size)%nat /\
    (forall i, i ∈ taken -> apart i (pkt + d, pkt + d + p)) /\
    (forall i j, i ∈ (pkt + d, pkt + d + p) :: taken -> j ∈ l -> apart i j).
Proof.
  intros H1 Hpkt Hp Hroom []. unfold computeUsingHistoryList. rewrite i_min0, i_size0.
  rewrite (proj2 (Nat.leb_le _ _)) by done. cbn [rguard rbind].
  pose proof (use_interval_served min 0 pkt p h _ (Z.le_refl 0) Hpkt Hp Hroom i_ordered0 i_open0) as H.
  destruct (use_interval min pkt p (m_free_interval_list q)) as [d l]. destruct H.
  rewrite (proj2 (Z.eqb_neq _ _)) by lia. cbn [negb rguard rbind].
  set (l' := if (size <? length l)%nat then tail l else l). exists d, l'.
  assert (Hsub : forall j, j ∈ l' -> j ∈ l).
  { intros j. subst l'. destruct (size <? length l)%nat; [|done]. destruct l; [done|]. by right. }
  assert (Htaken : forall i, i ∈ taken -> apart i (pkt + d, pkt + d + p)).
  { intros i Hi. destruct sv_free0 as (k & Hk & Hin). eapply apart_inside; [by apply i_free0|done]. }
  split; [done|]. split; [|split; [|split; [|split; [|split; [done|]]]]].
  - split; [lia|]. destruct sv_free0 as (k & Hk & _ & Hin). cbn in Hin.
    pose proof (ordered_below min 0 _ h ltac:(lia) i_ordered0 i_open0 k Hk). lia.
  - subst l'. destruct (size <? length l)%nat; [apply ordered_tail; [lia|]|]; done.
  - subst l'. destruct (Nat.ltb_spec size (length l)); [|done]. destruct sv_open0 as (f & Hf & Hle).
    exists f. split; [|done]. destruct l as [|x [|y l]]; cbn in *; [lia|lia|done].
  - subst l'. destruct (Nat.ltb_spec size (length l)); [|done]. destruct l; cbn in *; lia.
  - intros i j [->|Hi]%elem_of_cons Hj.
    + by apply sv_rest0, Hsub.
    + destruct (sv_rest0 j (Hsub j Hj)) as [(k & Hk & Hin) _]. eapply apart_inside; [by apply i_free0|done].
Qed.

(** A request: one the list serves takes a time of its own, after its arrival. *)
Lemma delay_inv root min size h taken q pkt p : (1 <= size)%nat -> Z.of_nat (S size) < 2 ^ 32 -> 0 <= pkt -> 0 < p <= min ->
  Z.max h pkt + p + min <= max_simulation_time -> inv min size h taken q ->
  exists old d q', is_old pkt p q = Ok old /\ computeQueueDelay root pkt p q = Ok (d, q') /\
    if old : bool then inv min size h taken q'
    else (0 <= d /\ pkt + d + p <= max_simulation_time) /\ inv min size (Z.max h pkt + p) ((pkt + d, pkt + d + p) :: taken) q'.
Proof.
  intros H1 Hs Hpkt Hp Hroom Hq. destruct (inv_head _ _ _ _ _ Hq) as (oldest & Ho & Hin).
  unfold computeQueueDelay, is_old. rewrite Ho. cbn [of_option rbind].
  set (old := m_analytical_model_enabled q && (tadd pkt p <=? oldest.1)). exists old.
  destruct old eqn:Eold; subst old.
  - destruct (i_average _ _ _ _ _ Hq) as (w & Hw & Hwe).
    assert (w <> []) as Hne.
    { intros ->. rewrite Hwe in Ho by done. injection Ho as <-. cbn in Eold. zbool.
      rewrite max_time in Hroom. rewrite tadd_small in H0 by lia. lia. }
    rewrite (Average.compute_holds root size w _ Hs Hw Hne). cbn [rbind]. do 2 eexists. split; [done|].
    split; [reflexivity|]. destruct Hq. by split.
  - destruct (history_inv min size h taken q pkt p H1 Hpkt Hp Hroom Hq) as (d & l & -> & Hd & Hord & Hopen & Hlen & Ht & Hf).
    cbn [rbind]. unfold updateAverageDelay, with_list. cbn [m_average_delay].
    destruct (i_average _ _ _ _ _ Hq) as (w & Hw & _).
    destruct (Average.update_holds size w _ d H1 Hs Hw) as (a & -> & Ha). cbn [rbind].
    do 2 eexists. split; [done|]. split; [reflexivity|]. split; [done|]. destruct Hq. split; cbn; try done.
    + constructor; [|done]. apply List.Forall_forall. intros i Hi. apply apart_sym, Ht. by apply list_elem_of_In.
    + eexists. split; [exact Ha|]. unfold Average.slide. by intros [_ ?]%app_eq_nil.
Qed.
End History.

(** * Units that serve one request at a time each *)
Module Units.
Import ContentionModel.

(** The unit the loop ends with is one that is free, or the first to be free. *)
Lemma find_unit_spec t_start prefix l unit e0 : prefix !! unit = Some e0 ->
  (forall e, e ∈ prefix -> t_start < e.1 /\ e0.1 <= e.1) ->
  let '(found, u) := find_unit t_start (length prefix) unit e0.1 l in
  exists e, (prefix ++ l) !! u = Some e /\
    if found : bool then e.1 <= t_start else forall e', e' ∈ prefix ++ l -> t_start < e'.1 /\ e.1 <= e'.1.
Proof.
  revert prefix unit e0. induction l as [|[t tag] l IH]; intros prefix unit e0 Hu Hall; cbn [find_unit].
  - exists e0. by rewrite app_nil_r.
  - destruct (Z.leb_spec t t_start).
    + exists (t, tag). by rewrite lookup_app_r, Nat.sub_diag by lia.
    + replace (prefix ++ (t, tag) :: l) with ((prefix ++ [(t, tag)]) ++ l) by (by rewrite <- app_assoc).
      replace (S (length prefix)) with (length (prefix ++ [(t, tag)])) by (rewrite length_app; cbn; lia).
      destruct (Z.ltb_spec t e0.1).
      * apply (IH _ _ (t, tag)); [by rewrite lookup_app_r, Nat.sub_diag by lia|].
        intros e [He|He]%elem_of_app; [specialize (Hall e He); cbn; lia|].
        apply list_elem_of_singleton in He as ->. cbn. lia.
      * apply (IH _ _ e0); [by apply lookup_app_l_Some|].
        intros e [He|He]%elem_of_app; [by apply Hall|].
        apply list_elem_of_singleton in He as ->. cbn. lia.
Qed.

Lemma find_unit_first t_start e0 l :
  let '(found, u) := find_unit t_start 0 0 e0.1 (e0 :: l) in
  exists e, (e0 :: l) !! u = Some e /\
    if found : bool then e.1 <= t_start else forall e', e' ∈ e0 :: l -> t_start < e'.1 /\ e.1 <= e'.1.
Proof.
  destruct e0 as [t tag]. cbn [find_unit fst]. destruct (Z.leb_spec t t_start); [by exists (t, tag)|].
  rewrite Z.ltb_irrefl. apply (find_unit_spec t_start [(t, tag)] l 0 (t, tag)); [done|].
  intros e He. apply list_elem_of_singleton in He as ->. cbn. lia.
Qed.

(** A request in order is served from [begin] on by the unit that is free first. *)
Lemma completion_spec t_start t_delay tag c : 0 < m_num_outstanding c -> m_time c <> [] -> 0 < t_start ->
  m_t_last c <= t_start ->
  exists u e c' begin, getCompletionTime t_start t_delay tag c = Ok (tadd begin t_delay, c') /\
    getStartTime t_start c = Ok begin /\
    m_time c !! u = Some e /\ begin = Z.max t_start e.1 /\
    (t_start < begin -> forall e', e' ∈ m_time c -> begin <= e'.1) /\
    m_time c' = <[u := (tadd begin t_delay, tag)]> (m_time c) /\ m_t_last c' = t_start /\
    m_num_outstanding c' = m_num_outstanding c.
Proof.
  intros Hn Hne Ht Hlast. unfold getCompletionTime, getStartTime.
  rewrite !(proj2 (Z.eqb_neq _ 0)), !(proj2 (Z.ltb_ge t_start _)) by lia.
  destruct (m_time c) as [|e0 l] eqn:El; [done|]. unfold unit_time. rewrite El. cbn [aget lookup list_lookup of_option rbind].
  pose proof (find_unit_first t_start e0 l) as H.
  destruct (find_unit t_start 0 0 e0.1 (e0 :: l)) as [found u]. destruct H as (e & He & Hf). cbn [snd].
  rewrite (aget_Ok _ _ _ He). cbn [rbind].
  rewrite aset_Ok by (apply lookup_lt_Some in He; done). cbn [rbind].
  exists u, e. do 2 eexists. split; [reflexivity|].
  assert (Hb : (if t_start <? e.1 then e.1 else t_start) = Z.max t_start e.1) by (destruct (Z.ltb_spec t_start e.1); lia).
  split.
  { destruct found; [|done]. by rewrite (proj2 (Z.ltb_ge _ _)). }
  rewrite Hb. split; [done|]. split; [done|]. split; [|done].
  intros Hlt e' He'. destruct found; [lia|]. specialize (Hf e' He'). lia.
Qed.

(** [done_] lists the services, newest first, each with its unit. *)
Record busy (n : nat) (done_ : list (nat * (Z * Z))) (c : ContentionModel.t) : Prop := {
  b_num : m_num_outstanding c = Z.of_nat n;
  b_length : length (m_time c) = n;
  b_time : forall e, e ∈ m_time c -> 0 <= e.1;
  b_before : forall u i, (u, i) ∈ done_ -> exists e, m_time c !! u = Some e /\ i.2 <= e.1;
  b_last : forall u e, m_time c !! u = Some e -> 0 < e.1 -> exists b, (u, (b, e.1)) ∈ done_;
  b_apart : ForallOrdPairs (fun x y => x.1 = y.1 -> y.2.2 <= x.2.1) done_
}.

Lemma create_busy n : busy n [] (ContentionModel.create (Z.of_nat n)).
Proof.
  unfold create. rewrite Nat2Z.id.
  split; cbn; try done.
  - by rewrite length_replicate.
  - intros e [-> _]%elem_of_replicate. done.
  - intros u i Hi. by apply elem_of_nil in Hi.
  - intros u e [-> _]%lookup_replicate. cbn. lia.
  - constructor.
Qed.

(** Serving one more request. *)
Lemma busy_serve n done_ c c' u e begin finish tag : busy n done_ c -> m_time c !! u = Some e -> e.1 <= begin ->
  0 <= begin <= finish -> m_time c' = <[u := (finish, tag)]> (m_time c) -> m_num_outstanding c' = m_num_outstanding c ->
  busy n ((u, (begin, finish)) :: done_) c'.
Proof.
  intros [] Hu He Hb Ht Hn. pose proof (lookup_lt_Some _ _ _ Hu) as Hlt. split; rewrite ?Ht, ?Hn; try done.
  - by rewrite length_insert.
  - intros e' He'. apply list_elem_of_lookup in He' as (k & Hk). apply list_lookup_insert_Some in Hk.
    destruct Hk as [(_ & <- & _)|(_ & Hk)]; [cbn; lia|]. apply b_time0. by eapply list_elem_of_lookup_2.
  - intros v i [E|Hi]%elem_of_cons.
    + injection E as -> ->. eexists. split; [by apply list_lookup_insert_eq|]. cbn. lia.
    + destruct (b_before0 v i Hi) as (e' & He' & Hle). destruct (decide (u = v)) as [->|Hne].
      * eexists. split; [by apply list_lookup_insert_eq|]. cbn. rewrite He' in Hu. injection Hu as ->. lia.
      * exists e'. by rewrite list_lookup_insert_ne.
  - intros v e' Hv Hpos. apply list_lookup_insert_Some in Hv as [(<- & <- & _)|(_ & Hv)].
    + exists begin. by left.
    + destruct (b_last0 v e' Hv Hpos) as (b & Hb'). exists b. by right.
  - constructor; [|done]. apply List.Forall_forall. intros [v i] Hi%list_elem_of_In. cbn. intros <-.
    destruct (b_before0 u i Hi) as (e' & He' & Hle). rewrite He' in Hu. injection Hu as ->. lia.
Qed.

(** The services in progress at [t], and those that have not ended then. *)
Definition in_progress (t : Z) (l : list (Z * Z)) : list (Z * Z) := filter (fun i => i.1 <= t < i.2) l.
Definition not_ended (t : Z) (l : list (Z * Z)) : list (Z * Z) := filter (fun i => t < i.2) l.

Lemma length_filter_snd (P : Z * Z -> Prop) `{!forall i, Decision (P i)} (l : list (nat * (Z * Z))) :
  length (filter P l.*2) = length (filter (fun x => P x.2) l).
Proof.
  induction l as [|x l IH]; [done|]. cbn [fmap list_fmap]. rewrite !filter_cons.
  case_decide; cbn [length]; by rewrite ?IH.
Qed.

Lemma busy_at_most n done_ c t : busy n done_ c -> (length (in_progress t done_.*2) <= n)%nat.
Proof.
  intros []. unfold in_progress. rewrite length_filter_snd.
  rewrite <- (length_fmap fst). transitivity (length (seq 0 n)); [|by rewrite length_seq].
  apply submseteq_length, NoDup_submseteq.
  - clear b_before0 b_last0. induction b_apart0 as [|x l Hx Hl IH]; [by constructor|]. rewrite filter_cons.
    case_decide as Ht; [|done]. cbn [fmap list_fmap]. constructor; [|done].
    intros (y & Hy & [Hty Hin]%list_elem_of_filter)%list_elem_of_fmap.
    rewrite List.Forall_forall in Hx. specialize (Hx y (proj1 (list_elem_of_In _ _) Hin) Hy). lia.
  - intros u (y & -> & [_ Hin]%list_elem_of_filter)%list_elem_of_fmap. destruct y as [u i]. cbn.
    destruct (b_before0 u i Hin) as (e & He & _). apply lookup_lt_Some in He. apply elem_of_seq. lia.
Qed.

Lemma busy_all n done_ c t : busy n done_ c -> 0 <= t -> (forall e, e ∈ m_time c -> t < e.1) ->
  (n <= length (not_ended t done_.*2))%nat.
Proof.
  intros [] Ht Hall. unfold not_ended. rewrite length_filter_snd.
  rewrite <- (length_fmap fst). transitivity (length (seq 0 n)); [by rewrite length_seq|].
  apply submseteq_length, NoDup_submseteq; [apply NoDup_seq|].
  intros u Hu%elem_of_seq. destruct (lookup_lt_is_Some_2 (m_time c) u ltac:(lia)) as (e & He).
  pose proof (Hall e ltac:(by eapply list_elem_of_lookup_2)) as Hlt.
  destruct (b_last0 u e He ltac:(lia)) as (b & Hb). apply list_elem_of_fmap. exists (u, (b, e.1)).
  split; [done|]. by apply list_elem_of_filter.
Qed.
End Units.
