(* ===== verification/TimingProps.v ===== *)
(** Theorems about the delay models: units in contention, the history list and the
    DRAM that uses it. *)
From stdpp Require Import base numbers list sets strings.
From Stdlib Require Import ZArith Lia Bool Sorted.
From S2P Require Import Prelude Timing QueueLemmas.
Open Scope Z_scope.

(** * Contention *)
Section contention.
Import ContentionModel Units.

(** Requests (arrival, duration) in turn, with the time each is served. *)
Fixpoint serve_requests (reqs : list (Z * Z)) (c : ContentionModel.t) : result (list (Z * Z) * ContentionModel.t) :=
  match reqs with
  | [] => Ok ([], c)
  | (t_start, t_delay) :: reqs' =>
      let! (t_end, c) := getCompletionTime t_start t_delay 0 c in
      let! (s, c) := serve_requests reqs' c in
      Ok ((t_end - t_delay, t_end) :: s, c)
  end.

Definition total (reqs : list (Z * Z)) : Z := foldr (fun r s => r.2 + s) 0 reqs.

(** [s] serves [reqs] after the services [before], without needless delay. *)
Fixpoint prompt (n : nat) (before : list (Z * Z)) (reqs s : list (Z * Z)) : Prop :=
  match reqs, s with
  | (t_start, t_delay) :: reqs', (b, e) :: s' =>
      t_start <= b /\ e = b + t_delay /\
      (forall t, t_start <= t < b -> (n <= length (not_ended t before))%nat) /\
      prompt n (before ++ [(b, e)]) reqs' s'
  | [], [] => True
  | _, _ => False
  end.

Lemma in_progress_perm t l l' : l ≡ₚ l' -> length (in_progress t l) = length (in_progress t l').
Proof. intros H. unfold in_progress. by rewrite H. Qed.

Lemma not_ended_perm t l l' : l ≡ₚ l' -> length (not_ended t l) = length (not_ended t l').
Proof. intros H. unfold not_ended. by rewrite H. Qed.

Lemma total_cons r reqs : total (r :: reqs) = r.2 + total reqs.
Proof. done. Qed.

Lemma total_nonneg reqs : (forall r, r ∈ reqs -> 0 <= r.2) -> 0 <= total reqs.
Proof.
  induction reqs as [|r reqs IH]; intros H; [done|]. rewrite total_cons.
  pose proof (H r ltac:(by left)). specialize (IH ltac:(intros; apply H; by right)). lia.
Qed.

Lemma serve_requests_ok n reqs done_ c : (1 <= n)%nat -> busy n done_ c ->
  (forall e, e ∈ m_time c -> e.1 + total reqs < 2 ^ 64) ->
  (forall r, r ∈ reqs -> 0 < r.1 /\ 0 <= r.2 /\ r.1 + total reqs < 2 ^ 64) ->
  Sorted Z.le (m_t_last c :: reqs.*1) ->
  exists s c' done', serve_requests reqs c = Ok (s, c') /\ busy n done' c' /\
    (done_.*2 ++ s) ≡ₚ done'.*2 /\ prompt n (reverse done_.*2) reqs s.
Proof.
  intros Hn. revert done_ c. induction reqs as [|[t_start t_delay] reqs IH]; intros done_ c Hb Htime Hreq Hsort.
  { exists [], c, done_. by rewrite app_nil_r. }
  cbn [serve_requests]. destruct (Hreq (t_start, t_delay) ltac:(by left)) as (Hpos & Hd & Hbound).
  rewrite total_cons in *. cbn [fst snd] in *.
  assert (Htot : 0 <= total reqs) by (apply total_nonneg; intros r Hr; apply Hreq; by right).
  apply Sorted_inv in Hsort as [Hsort Hhd]. apply HdRel_inv in Hhd. cbn in Hhd, Hsort.
  assert (Hne : m_time c <> []) by (intros E; pose proof (b_length _ _ _ Hb) as El; rewrite E in El; cbn in El; lia).
  destruct (completion_spec t_start t_delay 0 c ltac:(rewrite (b_num _ _ _ Hb); lia) Hne Hpos Hhd)
    as (u & e & c1 & begin & -> & _ & Hu & Hbeg & Hwait & Ht1 & Hl1 & Hn1).
  cbn [rbind]. pose proof (Htime e ltac:(by eapply list_elem_of_lookup_2)) as He.
  pose proof (b_time _ _ _ Hb e ltac:(by eapply list_elem_of_lookup_2)) as He0.
  rewrite tadd_small in * by lia.
  pose proof (busy_serve n done_ c c1 u e begin (begin + t_delay) 0 Hb Hu ltac:(lia) ltac:(lia) Ht1 Hn1) as Hb1.
  destruct (IH _ c1 Hb1) as (s & c' & done' & -> & Hb' & Hperm & Hprompt).
  - rewrite Ht1. intros e' [k Hk]%list_elem_of_lookup. apply list_lookup_insert_Some in Hk as [(_ & <- & _)|(_ & Hk)].
    + cbn. lia.
    + pose proof (Htime e' ltac:(by eapply list_elem_of_lookup_2)). lia.
  - intros r Hr. destruct (Hreq r ltac:(by right)) as (? & ? & ?). lia.
  - by rewrite Hl1.
  - cbn [rbind]. replace (begin + t_delay - t_delay) with begin by lia. exists ((begin, begin + t_delay) :: s), c', done'.
    split; [done|]. split; [done|]. cbn [fmap list_fmap snd] in Hperm, Hprompt. split.
    + rewrite <- Hperm. cbn. by rewrite Permutation_middle.
    + cbn [prompt]. rewrite reverse_cons in Hprompt. split; [lia|]. split; [done|]. split; [|done].
      intros t Ht. rewrite (not_ended_perm t _ done_.*2) by apply reverse_Permutation.
      apply (busy_all n done_ c); [done|lia|]. intros e' He'. specialize (Hwait ltac:(lia) e' He'). lia.
Qed.

(** C20: contention: [n] units serve any sequence of requests that arrive in order,
    never more than [n] at a time; a request is served as a whole, no sooner than
    it arrives, and is delayed only while [n] requests before it have not ended. *)
Theorem contention_serves_n_at_a_time n reqs : (1 <= n)%nat ->
  (forall r, r ∈ reqs -> 0 < r.1 /\ 0 <= r.2 /\ r.1 + total reqs < 2 ^ 64) -> Sorted Z.le (0 :: reqs.*1) ->
  exists s c, serve_requests reqs (create (Z.of_nat n)) = Ok (s, c) /\
    (forall t, length (in_progress t s) <= n)%nat /\ prompt n [] reqs s.
Proof.
  intros Hn Hreq Hsort.
  destruct (serve_requests_ok n reqs [] (create (Z.of_nat n)) Hn (create_busy n)) as (s & c & done' & E & Hb & Hp & Hpr); [|done|done|].
  - intros e He. unfold create in He. cbn in He. apply elem_of_replicate in He as [-> _]. cbn.
    destruct reqs as [|r reqs]; [done|]. destruct (Hreq r ltac:(by left)) as (? & ? & ?). lia.
  - exists s, c. split; [done|]. split; [|done]. intros t. cbn in Hp. rewrite (in_progress_perm t _ _ Hp). by eapply busy_at_most.
Qed.

Lemma contention_serves_n_at_a_time_witness :
  (exists s c, serve_requests [(5, 10); (6, 10); (7, 4); (30, 2)] (create 2) = Ok (s, c) /\
    (forall t, length (in_progress t s) <= 2)%nat /\ prompt 2 [] [(5, 10); (6, 10); (7, 4); (30, 2)] s) /\
  exists c, serve_requests [(5, 10); (6, 10); (7, 4); (30, 2)] (create 2) = Ok ([(5, 15); (6, 16); (15, 19); (30, 32)], c).
Proof.
  split; [|eexists; vm_compute; reflexivity].
  apply (contention_serves_n_at_a_time 2).
  - lia.
  - intros r Hr. repeat (apply elem_of_cons in Hr as [->|Hr]; [cbn; lia|]). by apply elem_of_nil in Hr.
  - cbn. repeat (apply Sorted_cons); try apply Sorted_nil; repeat constructor; lia.
Defined.
End contention.

(** * The data bus of a DRAM controller *)
Section dram.
Variable root : Z -> Z -> Z.

(** Whether an access is older than the queue of [d] reaches back. *)
Definition old_access (pkt_time p : Z) (d : DramPerfModel) : result bool :=
  match m_queue_model d with
  | Some (HistoryList q) => QueueModelHistoryList.is_old pkt_time p q
  | _ => Ok false
  end.

(** Accesses to whole blocks, in turn, with the time each one that is not too old
    has the data bus: the last [p] before the device latency. *)
Fixpoint dram_accesses (block p : Z) (times : list Z) (d : DramPerfModel) : result (list (Z * (Z * Z)) * DramPerfModel) :=
  match times with
  | [] => Ok ([], d)
  | pkt_time :: times' =>
      let! old := old_access pkt_time p d in
      let! (latency, d) := constant_getAccessLatency root pkt_time block true d in
      let on_bus := pkt_time + latency - m_dram_access_cost d in
      let! (slots, d) := dram_accesses block p times' d in
      Ok (if old : bool then (slots, d) else ((pkt_time, (on_bus - p, on_bus)) :: slots, d))
  end.

(** A DRAM model whose bus has been given out as in [taken]. *)
Record dram_inv (p cost bw : Z) (size : nat) (an : bool) (h : Z) (taken : list (Z * Z)) (d : DramPerfModel) : Prop := {
  di_enabled : m_enabled d = true;
  di_cost : m_dram_access_cost d = cost;
  di_bw : m_dram_bandwidth d = bw;
  di_queue : exists q, m_queue_model d = Some (HistoryList q) /\ History.inv p size h taken q /\
    QueueModelHistoryList.m_analytical_model_enabled q = an
}.

Lemma delay_keeps_analytical pkt p q d q' : QueueModelHistoryList.computeQueueDelay root pkt p q = Ok (d, q') ->
  QueueModelHistoryList.m_analytical_model_enabled q' = QueueModelHistoryList.m_analytical_model_enabled q.
Proof.
  unfold QueueModelHistoryList.computeQueueDelay. intros H. inv_ok. cbn. destruct v; inv_ok; cbn; [done|].
  unfold QueueModelHistoryList.updateAverageDelay, QueueModelHistoryList.computeUsingHistoryList in *. inv_ok. done.
Qed.

Lemma access_step block p cost bw size an h taken d pkt : (1 <= size)%nat -> Z.of_nat (S size) < 2 ^ 32 ->
  bw_getRoundedLatency bw (u64 (8 * block)) = Ok p -> 0 < p -> 0 <= cost < 2 ^ 62 -> 0 <= pkt -> 0 <= h ->
  Z.max h pkt + p + p <= 2 ^ 63 -> dram_inv p cost bw size an h taken d ->
  exists old lat d', old_access pkt p d = Ok old /\ constant_getAccessLatency root pkt block true d = Ok (lat, d') /\
    m_dram_access_cost d' = cost /\
    if old : bool then an = true /\ dram_inv p cost bw size an h taken d'
    else pkt <= pkt + lat - cost - p /\
      dram_inv p cost bw size an (Z.max h pkt + p) ((pkt + lat - cost - p, pkt + lat - cost) :: taken) d'.
Proof.
  intros H1 Hs Hbw Hp Hc Hpkt Hh Hroom [He Hcost Hb (q & Hq & Hinv & Han)].
  unfold old_access, constant_getAccessLatency, queue_delay_of. rewrite He, Hq, Hb, Hbw. cbn [negb orb rbind computeQueueDelay].
  destruct (History.delay_inv root p size h taken q pkt p H1 Hs Hpkt ltac:(lia) Hroom Hinv) as (old & dd & q' & Hold & E & Hinv').
  rewrite E, Hold. cbn [rbind]. do 3 eexists. split; [done|]. split; [reflexivity|]. split; [done|].
  assert (Hq' : QueueModelHistoryList.m_analytical_model_enabled q' = an) by (rewrite <- Han; by eapply delay_keeps_analytical).
  destruct old.
  - split; [|split; try done; by exists q']. unfold QueueModelHistoryList.is_old in Hold.
    destruct (head _); cbn in Hold; [|done]. rewrite Han in Hold. by destruct an.
  - destruct Hinv' as [[Hd Hend] Hinv']. rewrite History.max_time in Hend. rewrite Hcost, !tadd_small by (rewrite ?tadd_small; lia).
    replace (pkt + (dd + p + cost) - cost - p) with (pkt + dd) by lia.
    replace (pkt + (dd + p + cost) - cost) with (pkt + dd + p) by lia. split; [lia|].
    split; try done. by exists q'.
Qed.

Lemma dram_inv_mono p cost bw size an h h' taken d : h <= h' -> dram_inv p cost bw size an h taken d ->
  dram_inv p cost bw size an h' taken d.
Proof.
  intros Hh [? ? ? (q & Hq & [] & Ha)]. split; try done. exists q. split; [done|]. split; [|done]. split; try done.
  destruct i_open as (f & Hf & Hle). exists f. split; [done|lia].
Qed.

Lemma accesses_ok block p cost bw size an top times : (1 <= size)%nat -> Z.of_nat (S size) < 2 ^ 32 ->
  bw_getRoundedLatency bw (u64 (8 * block)) = Ok p -> 0 < p -> 0 <= cost < 2 ^ 62 ->
  (forall t, t ∈ times -> 0 <= t <= top) -> forall h taken d, 0 <= top <= h ->
  h + (Z.of_nat (length times) + 1) * p <= 2 ^ 63 -> dram_inv p cost bw size an h taken d ->
  exists slots d' taken', dram_accesses block p times d = Ok (slots, d') /\
    Forall (fun s => s.1 <= s.2.1 /\ s.2.2 = s.2.1 + p) slots /\ ForallOrdPairs apart taken' /\
    (taken ++ slots.*2) ≡ₚ taken' /\ (an = false -> length slots = length times).
Proof.
  intros H1 Hs Hbw Hp Hc. induction times as [|pkt times IH]; intros Htimes h taken d Hh Hroom Hinv.
  { exists [], d, taken. split; [done|]. split; [constructor|]. split; [|by rewrite app_nil_r].
    destruct Hinv as [_ _ _ (q & _ & [] & _)]. done. }
  cbn [length] in Hroom. pose proof (Htimes pkt ltac:(by left)) as Hpkt.
  assert (Htimes' : forall t, t ∈ times -> 0 <= t <= top) by (intros; apply Htimes; by right).
  destruct (access_step block p cost bw size an h taken d pkt H1 Hs Hbw Hp Hc ltac:(lia) ltac:(lia) ltac:(lia) Hinv)
    as (old & lat & d1 & Hold & E & Hcost & Hstep).
  cbn [dram_accesses]. rewrite Hold, E. cbn [rbind]. rewrite Hcost. destruct old.
  - destruct Hstep as [-> Hinv1].
    destruct (IH Htimes' h taken d1 Hh ltac:(lia) Hinv1) as (slots & d' & taken' & -> & Hsl & Hap & Hperm & Hlen).
    exists slots, d', taken'. cbn. done.
  - destruct Hstep as [Hge Hinv1]. apply (dram_inv_mono _ _ _ _ _ _ (h + p)) in Hinv1; [|lia].
    destruct (IH Htimes' (h + p) _ d1 ltac:(lia) ltac:(lia) Hinv1) as (slots & d' & taken' & -> & Hsl & Hap & Hperm & Hlen).
    eexists _, d', taken'. split; [reflexivity|]. split; [constructor; [cbn; lia|done]|]. split; [done|].
    split; [|intros Han; cbn; by rewrite Hlen]. rewrite <- Hperm. cbn. by rewrite Permutation_middle.
Qed.
End dram.

Lemma ForallOrdPairs_perm {A} (R : A -> A -> Prop) l l' : (forall x y, R x y -> R y x) -> l ≡ₚ l' ->
  ForallOrdPairs R l -> ForallOrdPairs R l'.
Proof.
  intros Hsym. induction 1 as [|x l l' Hp IH|x y l|l1 l2 l3 _ IH1 _ IH2]; intros H; try done; eauto.
  - inversion H as [|? ? Hx Hl]; subst. constructor; [|by apply IH]. by rewrite <- Hp.
  - inversion H as [|? ? Hx Hl]; subst. inversion Hl as [|? ? Hy Hl']; subst. inversion Hx; subst.
    repeat constructor; auto.
Qed.

(** C19: the DRAM bus: accesses to whole blocks, in any order of their times, to a
    DRAM controller with a history-list queue are all served; those the queue
    still covers wait for and then have the data bus for the time of a block, no
    two of them at the same time; without the analytical model these are all. *)
Theorem dram_bus_exclusive root cfg bw cost block p times top :
  (1 <= max_list_size cfg)%nat -> Z.of_nat (S (max_list_size cfg)) < 2 ^ 32 ->
  0 <= 8 * block < 2 ^ 32 -> bw_getRoundedLatency bw (8 * block) = Ok p -> 0 < p -> 0 <= cost < 2 ^ 62 ->
  (forall t, t ∈ times -> 0 <= t <= top) -> 0 <= top -> top + (Z.of_nat (length times) + 1) * p <= 2 ^ 63 ->
  exists d slots d', new_dram_constant cfg true "history_list" bw cost block = Ok d /\
    dram_accesses root block p times (enable d) = Ok (slots, d') /\
    Forall (fun s => s.1 <= s.2.1 /\ s.2.2 = s.2.1 + p) slots /\ ForallOrdPairs apart slots.*2 /\
    (analytical_model_enabled cfg = false -> length slots = length times).
Proof.
  intros H1 Hs Hblock Hbw Hp Hc Htimes Htop Hroom. unfold new_dram_constant. rewrite u32_small, Hbw by lia.
  cbn [rbind create_queue String.eqb Ascii.eqb Bool.eqb]. eexists. 
  destruct (accesses_ok root block p cost bw (max_list_size cfg) (analytical_model_enabled cfg) top times H1 Hs) with
    (h := top) (taken := @nil (Z * Z)) (d := enable (mkDram false 0 (Some (HistoryList (QueueModelHistoryList.create p
      (analytical_model_enabled cfg) (max_list_size cfg)))) None cost bw false 0 0 0))
    as (slots & d' & taken' & E & Hsl & Hap & Hperm & Hlen); [|done|done|done|lia|done| |].
  - rewrite u64_small by lia. done.
  - apply (dram_inv_mono _ _ _ _ _ 0); [lia|]. split; try done. eexists. split; [reflexivity|]. split; [|done].
    apply History.create_inv; [rewrite History.max_time; lia|done|done].
  - exists slots, d'. split; [reflexivity|]. split; [exact E|]. split; [done|]. split; [|done].
    eapply ForallOrdPairs_perm; [exact apart_sym| |exact Hap]. by symmetry.
Qed.

Definition demo_queue_config : QueueConfig := mkQueueConfig true 1024 "median" true 3.

Lemma dram_bus_exclusive_witness :
  (exists d slots d', new_dram_constant demo_queue_config true "history_list" 64000 45000000 64 = Ok d /\
    dram_accesses (fun _ _ => 0) 64 8007812 [50000000; 10000000; 52000000; 9000000; 1000; 90000000] (enable d) = Ok (slots, d') /\
    Forall (fun s => s.1 <= s.2.1 /\ s.2.2 = s.2.1 + 8007812) slots /\ ForallOrdPairs apart slots.*2 /\
    (analytical_model_enabled demo_queue_config = false -> length slots = 6%nat)).
Proof.
  apply (dram_bus_exclusive (fun _ _ => 0) demo_queue_config 64000 45000000 64 8007812
    [50000000; 10000000; 52000000; 9000000; 1000; 90000000] 90000000).
  - cbn. lia.
  - cbn. lia.
  - lia.
  - reflexivity.
  - lia.
  - lia.
  - intros t Ht. repeat (apply elem_of_cons in Ht as [->|Ht]; [lia|]). by apply elem_of_nil in Ht.
  - lia.
  - cbn. lia.
Defined.

(** * Requests that do not fit *)
Section phantom.
Import QueueModelHistoryList.

(** Requests of [p] that arrive at the times [pkts], served from a list: the times
    they begin, and the list. *)
Fixpoint use_intervals (min p : Z) (pkts : list Z) (l : list (Z * Z)) : list Z * list (Z * Z) :=
  match pkts with
  | [] => ([], l)
  | pkt :: pkts' =>
      let '(d, l) := use_interval min pkt p l in
      let '(s, l) := use_intervals min p pkts' l in
      (pkt + d :: s, l)
  end.

(** Phantom time: a request that arrives before a free interval too short for
    it leaves an interval that ends before it begins; from then on requests that
    arrive before that point are served from it one after the other, whatever else
    the server is doing, and it is never used up. *)
Theorem history_list_phantom_interval min first second pkt p q pkts l : 0 <= min < 2 ^ 63 -> 0 <= pkt < first ->
  first <= second -> second < first + p -> 0 < q -> first + p + (Z.of_nat (length pkts) + 1) * q < 2 ^ 63 ->
  (forall t, t ∈ pkts -> 0 <= t < first) ->
  use_interval min pkt p ((first, second) :: l) = (first - pkt, (first + p, second) :: l) /\
  use_intervals min q pkts ((first + p, second) :: l) =
    ((fun k => first + p + Z.of_nat k * q) <$> seq 0 (length pkts),
     (first + p + Z.of_nat (length pkts) * q, second) :: l).
Proof.
  intros Hmin Hpkt Hfs Hshort Hq Hroom Hpkts.
  assert (Hone : forall a t r, first <= a -> second < a + r -> 0 <= r -> a + r < 2 ^ 63 -> 0 <= t < first ->
    use_interval min t r ((a, second) :: l) = (a - t, (a + r, second) :: l)).
  { intros a t r Ha Har Hr Hb Ht. cbn [use_interval].
    rewrite (proj2 (Z.leb_gt a t)), (proj2 (Z.ltb_lt t a)) by lia. cbn [andb].
    rewrite tadd_small, (tsub_small a t) by lia.
    assert (E : tsub second (a + r) = second - (a + r) + 2 ^ 64).
    { unfold tsub, u64, uwrap. symmetry. apply (Zmod_unique _ _ (-1)); lia. }
    rewrite E, (proj2 (Z.leb_le _ _)) by lia. done. }
  split; [apply Hone; lia|]. clear Hpkt.
  assert (Hgen : forall pkts a, first + p <= a -> a + (Z.of_nat (length pkts) + 1) * q < 2 ^ 63 ->
    (forall t, t ∈ pkts -> 0 <= t < first) ->
    use_intervals min q pkts ((a, second) :: l) =
      ((fun k => a + Z.of_nat k * q) <$> seq 0 (length pkts), (a + Z.of_nat (length pkts) * q, second) :: l)).
  { clear Hpkts Hroom pkts. induction pkts as [|t pkts IH]; intros a Ha Hroom Hpkts; cbn [use_intervals length seq].
    { cbn. do 3 f_equal. lia. }
    cbn [length] in Hroom. pose proof (Hpkts t ltac:(by left)). rewrite Hone by lia.
    rewrite (IH (a + q)) by first [lia | intros; apply Hpkts; by right].
    rewrite fmap_cons. rewrite <- fmap_S_seq, <- list_fmap_compose. f_equal; [|do 2 f_equal; lia]. f_equal; [lia|].
    apply list_fmap_ext. intros i x _. cbn. lia. }
  by apply Hgen.
Qed.

Lemma history_list_phantom_interval_witness :
  use_interval 1 11 3 [(15, 16); (26, 2 ^ 63)] = (4, [(18, 16); (26, 2 ^ 63)]) /\
  use_intervals 1 5 [10; 12; 10] [(18, 16); (26, 2 ^ 63)] = ([18; 23; 28], [(33, 16); (26, 2 ^ 63)]).
Proof.
  apply (history_list_phantom_interval 1 15 16 11 3 5 [10; 12; 10] [(26, 2 ^ 63)]); try (cbn; lia).
  intros t Ht. repeat (apply elem_of_cons in Ht as [->|Ht]; [lia|]). by apply elem_of_nil in Ht.
Defined.
End phantom.
