(* ===== verification/Network.v ===== *)
(** The network between the cores: network/network.cc and the four network models
    network_model_emesh_hop_by_hop, network_model_emesh_hop_counter,
    network_model_bus and network_model_magic.

    A model is the state of all its nodes: routing a packet at a core gives the hops
    it takes next and may update queues.  [Network] states this interface and
    [netSend] and [netPullFromTransport] are written against it.  The payload of a
    packet is kept as what the network asks of it, its requester and its length;
    packets on the transport are a list of destinations and packets.  The traffic
    matrix, an option for statistics, is left out.  Core numbers and mesh
    coordinates are small, and are not wrapped. *)
From stdpp Require Import base numbers list strings.
From Stdlib Require Import ZArith Lia Bool.
From S2P Require Import Prelude Utils Timing.
Open Scope Z_scope.

(** * Packets *)
Record NetPacket := mkPacket {
  p_start_time : Z;
  p_time : Z;
  p_queue_delay : Z;
  p_shmem : option (Z * Z);   (* SHARED_MEM_1: requester and modelled length of the message *)
  p_sender : Z;
  p_receiver : Z;
  p_length : Z
}.

Definition BROADCAST : Z := s32 0xDEADBABE.
Definition sizeof_NetPacket : Z := 48.

Record Hop := mkHop { final_dest : Z; next_dest : Z; h_time : Z }.

Definition with_time (t : Z) (p : NetPacket) : NetPacket :=
  mkPacket (p_start_time p) t (p_queue_delay p) (p_shmem p) (p_sender p) (p_receiver p) (p_length p).
Definition with_receiver (r : Z) (p : NetPacket) : NetPacket :=
  mkPacket (p_start_time p) (p_time p) (p_queue_delay p) (p_shmem p) (p_sender p) r (p_length p).
Definition with_start_time (t : Z) (p : NetPacket) : NetPacket :=
  mkPacket t (p_time p) (p_queue_delay p) (p_shmem p) (p_sender p) (p_receiver p) (p_length p).
Definition add_queue_delay (d : Z) (p : NetPacket) : NetPacket :=
  mkPacket (p_start_time p) (p_time p) (tadd (p_queue_delay p) d) (p_shmem p) (p_sender p) (p_receiver p) (p_length p).

(** [Config::computeCoreIDLength] *)
Definition computeCoreIDLength (core_count : Z) : Z :=
  let num_bits := u32 (Bits.ceilLog2 core_count) in
  if num_bits mod 8 =? 0 then num_bits / 8 else num_bits / 8 + 1.

(** [Network::getModeledLength] *)
Definition getModeledLength (total_cores : Z) (p : NetPacket) : Z :=
  match p_shmem p with
  | Some (_, data_size) => u32 (1 + 2 * computeCoreIDLength total_cores + 2 + data_size)
  | None => u32 (sizeof_NetPacket + p_length p)
  end.

(** The requester on whose behalf a packet is sent. *)
Definition requester_of (total_cores : Z) (p : NetPacket) : result Z :=
  let requester := match p_shmem p with Some (r, _) => r | None => p_sender p end in
  guard! (0 <=? requester) && (requester <? total_cores) else LogError in Ok requester.

(** All cores, [0 .. total_cores - 1]. *)
Definition all_cores (total_cores : Z) : list Z := seqZ 0 total_cores.

(** * Network models *)
Class NetworkModel (M : Type) := {
  routePacket : Z -> NetPacket -> M -> result (list Hop * NetPacket * M);
  processReceivedPacket : Z -> NetPacket -> M -> result (NetPacket * M)
}.

Section network.
Context {M : Type} `{NetworkModel M}.

(** The loop of [netSend] that takes a hop on through the routers to its
    destination. *)
Fixpoint follow (fuel : nat) (h : Hop) (packet : NetPacket) (m : M) : result (Hop * NetPacket * M) :=
  if next_dest h =? final_dest h then Ok (h, packet, m)
  else match fuel with
       | O => Err OutOfFuel
       | S fuel' =>
           let packet := with_receiver (final_dest h) (with_time (h_time h) packet) in
           let! (hops, packet, m) := routePacket (next_dest h) packet m in
           match hops with
           | [h] => follow fuel' h packet m
           | _ => Err AssertFailed
           end
       end.

(** The hops of a packet, each sent to its next destination; [buffer] is the copy
    of the packet that is sent. *)
Fixpoint send_hops (fuel : nat) (me start_time : Z) (hops : list Hop) (buffer packet : NetPacket) (m : M)
  : result (list (Z * NetPacket) * M) :=
  match hops with
  | [] => Ok ([], m)
  | h :: hops' =>
      let! (h, packet, m) := (if final_dest h =? BROADCAST then Ok (h, packet, m) else follow fuel h packet m) in
      let buffer := if me =? p_sender buffer then with_start_time start_time buffer else buffer in
      let buffer := with_receiver (final_dest h) (with_time (h_time h) buffer) in
      let! (sent, m) := send_hops fuel me start_time hops' buffer packet m in
      Ok ((next_dest h, buffer) :: sent, m)
  end.

(** [Network::netSend] of core [me]: what is put on the transport. *)
Definition netSend (fuel : nat) (me : Z) (packet : NetPacket) (m : M) : result (list (Z * NetPacket) * M) :=
  let! (hops, packet, m) := routePacket me packet m in
  send_hops fuel me (p_time packet) hops packet packet m.

(** [netPullFromTransport] of core [me] for one packet: what is forwarded, and the
    packet if it has been received. *)
Definition netPullFromTransport (fuel : nat) (total_cores me : Z) (packet : NetPacket) (m : M)
  : result (list (Z * NetPacket) * option NetPacket * M) :=
  guard! (0 <=? p_sender packet) && (p_sender packet <? total_cores) else AssertFailed in
  let! (sent, m) := (if p_receiver packet =? me then Ok ([], m) else netSend fuel me packet m) in
  if negb (p_receiver packet =? me) && negb (p_receiver packet =? BROADCAST) then Ok (sent, None, m)
  else let! (packet, m) := processReceivedPacket me packet m in Ok (sent, Some packet, m).
End network.

(** * The mesh *)
Module EMesh.
Inductive OutputDirection := UP | DOWN | LEFT | RIGHT | SELF | PEER | DESTINATION.

(** The number of the queue of a direction; the last three have none. *)
Definition link (d : OutputDirection) : option nat :=
  match d with
  | UP => Some 0%nat | DOWN => Some 1%nat | LEFT => Some 2%nat | RIGHT => Some 3%nat
  | SELF | PEER | DESTINATION => None
  end.

(** The configuration: [m_concentration] is per node, counting SMT threads. *)
Record Config := mkConfig {
  total_cores : Z;
  m_concentration : Z;
  m_dimensions : Z;
  m_size : option (Z * Z);
  m_wrap_around : bool;
  m_link_bandwidth : Z;
  m_hop_latency : Z;
  m_period : Z -> Z;
  m_queue_model_enabled : bool;
  m_queue_model_type : string;
  m_queue_config : QueueConfig;
  m_broadcast_tree_enabled : bool
}.

Record Ports := mkPorts {
  m_queue_models : list QueueModel;
  m_injection_port_queue_model : QueueModel;
  m_ejection_port_queue_model : QueueModel
}.

(** A node; one that is not the master of its concentrated node is a fake node and
    has no ports. *)
Record Node := mkNode {
  m_core_id : Z;
  m_ports : option Ports;
  m_enabled : bool;
  m_total_bytes_sent : Z;
  m_total_packets_sent : Z;
  m_total_bytes_received : Z;
  m_total_packets_received : Z;
  m_total_contention_delay : Z;
  m_total_packet_latency : Z
}.
Definition m_fake_node (n : Node) : bool := match m_ports n with Some _ => false | None => true end.

Record t := mk { cfg : Config; m_mesh_width : Z; m_mesh_height : Z; nodes : list Node }.

(** [floor(sqrt(n))] of an integer is its integer square root; the height is a
    ceiling, which the check below makes exact. *)
Definition computeMeshDimensions (c : Config) : result (Z * Z) :=
  let! (width, height) :=
    match m_size c with
    | None =>
        guard! negb (m_concentration c =? 0) else Undefined in
        if m_dimensions c =? 1 then Ok (Z.quot (total_cores c) (m_concentration c), 1)
        else if m_dimensions c =? 2 then
          let width := Z.sqrt (Z.quot (total_cores c) (m_concentration c)) in
          guard! negb (width =? 0) else Undefined in
          Ok (width, (total_cores c + m_concentration c * width - 1) / (m_concentration c * width))
        else Err LogError
    | Some size => Ok size
    end in
  guard! total_cores c =? m_concentration c * height * width else LogError in
  Ok (width, height).

Definition createQueueModels (c : Config) (core_id : Z) : result Ports :=
  let min_processing_time := m_period c core_id in
  let create := create_queue (m_queue_config c) (m_queue_model_type c) min_processing_time in
  let! q_down := create in
  let! q_left := create in
  let! q_up := create in
  let! q_right := create in
  let! injection := create in
  let! ejection := create in
  Ok (mkPorts [q_up; q_down; q_left; q_right] injection ejection).

Definition new_node (c : Config) (width height core_id : Z) : result Node :=
  guard! negb (m_concentration c =? 0) else Undefined in
  let fake := negb (Z.rem core_id (m_concentration c) =? 0) || (m_concentration c * width * height <=? core_id) in
  let! ports := (if fake : bool then Ok None else let! p := createQueueModels c core_id in Ok (Some p)) in
  Ok (mkNode core_id ports false 0 0 0 0 0 0).

Definition new_mesh (c : Config) : result t :=
  let! (width, height) := computeMeshDimensions c in
  let! ns := mapM_r (new_node c width height) (all_cores (total_cores c)) in
  Ok (mk c width height ns).

Definition enable (m : t) : t :=
  mk (cfg m) (m_mesh_width m) (m_mesh_height m)
    (map (fun n => mkNode (m_core_id n) (m_ports n) true (m_total_bytes_sent n) (m_total_packets_sent n)
                     (m_total_bytes_received n) (m_total_packets_received n) (m_total_contention_delay n)
                     (m_total_packet_latency n)) (nodes m)).

(** [computeMemoryControllerPositions]: the nodes along the border, clockwise, and
    the cores of those that have a memory controller. *)
Definition core_id_list_along_perimeter (c : Config) (width height : Z) : list Z :=
  seqZ 0 width ++
  (if (1 <? m_dimensions c) && (1 <? height) then
     map (fun i => i * width + width - 1) (seqZ 1 (height - 2)) ++
     map (fun i => (height - 1) * width + i) (reverse (seqZ 0 width)) ++
     map (fun i => i * width) (reverse (seqZ 1 (height - 2)))
   else []).

Definition computeMemoryControllerPositions (c : Config) (num_memory_controllers : Z) : result (list Z) :=
  let! (width, height) := computeMeshDimensions c in
  let perimeter := core_id_list_along_perimeter c width height in
  let size := Z.of_nat (length perimeter) in
  guard! negb ((1 <? m_dimensions c) && (1 <? height)) || (size =? u32 (2 * (width + height - 2))) else AssertFailed in
  guard! u32 num_memory_controllers <=? size else LogError in
  guard! negb (num_memory_controllers =? 0) else Undefined in
  let spacing := size / num_memory_controllers in
  guard! negb (size =? 0) else Undefined in
  mapM_r (fun i => let! core := aget perimeter (Z.to_nat ((i * spacing + Z.quot width 2) mod size)) in
                   Ok (m_concentration c * core)) (seqZ 0 num_memory_controllers).

(** ** Routing *)
Definition computePosition (m : t) (core_id : Z) : Z * Z :=
  let node := Z.quot core_id (m_concentration (cfg m)) in
  (Z.rem node (m_mesh_width m), Z.quot node (m_mesh_width m)).

Definition computeCoreId (m : t) (x y : Z) : Z :=
  let x := Z.rem (x + m_mesh_width m) (m_mesh_width m) in
  let y := Z.rem (y + m_mesh_height m) (m_mesh_height m) in
  (y * m_mesh_width m + x) * m_concentration (cfg m).

Definition computeDistance (m : t) (sender receiver : Z) : Z :=
  let '(sx, sy) := computePosition m sender in
  let '(dx, dy) := computePosition m receiver in
  if m_wrap_around (cfg m) then
    Z.min (Z.abs (sx - dx)) (m_mesh_width m - Z.abs (sx - dx)) +
    Z.min (Z.abs (sy - dy)) (m_mesh_height m - Z.abs (sy - dy))
  else Z.abs (sx - dx) + Z.abs (sy - dy).

Definition getNextDest (m : t) (n : Node) (final_dest : Z) : OutputDirection * Z :=
  let wrap := m_wrap_around (cfg m) in
  let conc := m_concentration (cfg m) in
  if total_cores (cfg m) <=? final_dest then (DESTINATION, final_dest)
  else if Z.quot (m_core_id n) conc =? Z.quot final_dest conc then (DESTINATION, final_dest)
  else if m_fake_node n then (PEER, m_core_id n - Z.rem (m_core_id n) conc)
  else
    let '(sx, sy) := computePosition m (m_core_id n) in
    let '(dx, dy) := computePosition m final_dest in
    if xorb (dx <? sx) (wrap && (Z.quot (m_mesh_width m + 1) 2 <? Z.abs (sx - dx))) then
      (LEFT, computeCoreId m (sx - 1) sy)
    else if negb (sx =? dx) then (RIGHT, computeCoreId m (sx + 1) sy)
    else if xorb (dy <? sy) (wrap && (Z.quot (m_mesh_height m + 1) 2 <? Z.abs (sy - dy))) then
      (DOWN, computeCoreId m sx (sy - 1))
    else if negb (sy =? dy) then (UP, computeCoreId m sx (sy + 1))
    else (SELF, m_core_id n).

(** ** Latency *)
Section latency.
Variable root : Z -> Z -> Z.
Variable m : t.
Notation c := (cfg m).

Definition with_ports (p : Ports) (n : Node) : Node :=
  mkNode (m_core_id n) (Some p) (m_enabled n) (m_total_bytes_sent n) (m_total_packets_sent n)
    (m_total_bytes_received n) (m_total_packets_received n) (m_total_contention_delay n) (m_total_packet_latency n).

Definition computeProcessingTime (pkt_length : Z) (n : Node) : result Z :=
  guard! negb (m_fake_node n) else LogError in
  bwpc_getRoundedLatency (m_period c (m_core_id n)) (m_link_bandwidth c) (u32 (pkt_length * 8)).

(** [ComponentLatency::getLatency] of the hop latency *)
Definition hop_latency (n : Node) : Z := tmul (m_period c (m_core_id n)) (m_hop_latency c).

(** The latency over a link, and the queueing delay in it. *)
Definition computeLatency (direction : OutputDirection) (pkt_time pkt_length requester : Z) (n : Node)
  : result (Z * Z * Node) :=
  let! ports := of_option (m_ports n) LogError in
  let! i := of_option (link direction) LogError in
  if negb (m_enabled n) || (total_cores c <=? requester) then Ok (0, 0, n)
  else
    let! processing_time := computeProcessingTime pkt_length n in
    let! (queue_delay, n) :=
      (if m_queue_model_enabled c then
         let! q := aget (m_queue_models ports) i in
         let! (d, q) := computeQueueDelay root pkt_time processing_time q in
         let! qs := aset (m_queue_models ports) i q in
         Ok (d, with_ports (mkPorts qs (m_injection_port_queue_model ports) (m_ejection_port_queue_model ports)) n)
       else Ok (0, n)) in
    Ok (tadd (hop_latency n) queue_delay, queue_delay, n).

Definition computeInjectionPortQueueDelay (pkt_receiver pkt_time pkt_length : Z) (n : Node) : result (Z * Node) :=
  let! ports := of_option (m_ports n) LogError in
  if negb (m_queue_model_enabled c) then Ok (0, n)
  else if pkt_receiver =? m_core_id n then Ok (0, n)
  else
    let! processing_time := computeProcessingTime pkt_length n in
    let! (d, q) := computeQueueDelay root pkt_time processing_time (m_injection_port_queue_model ports) in
    Ok (d, with_ports (mkPorts (m_queue_models ports) q (m_ejection_port_queue_model ports)) n).

Definition computeEjectionPortQueueDelay (pkt_time pkt_length : Z) (n : Node) : result (Z * Node) :=
  let! ports := of_option (m_ports n) LogError in
  if negb (m_queue_model_enabled c) then Ok (0, n)
  else
    let! processing_time := computeProcessingTime pkt_length n in
    let! (d, q) := computeQueueDelay root pkt_time processing_time (m_ejection_port_queue_model ports) in
    Ok (d, with_ports (mkPorts (m_queue_models ports) (m_injection_port_queue_model ports) q) n).

(** A hop, with the queueing delay of its link. *)
Definition addHop (direction : OutputDirection) (final_dest next_dest pkt_time pkt_length requester : Z) (n : Node)
  : result (Hop * Z * Node) :=
  match direction with
  | SELF | PEER | DESTINATION => Ok (mkHop final_dest next_dest pkt_time, 0, n)
  | UP | DOWN | LEFT | RIGHT =>
      let! (latency, queue_delay, n) := computeLatency direction pkt_time pkt_length requester n in
      Ok (mkHop final_dest next_dest (tadd pkt_time latency), queue_delay, n)
  end.

Fixpoint addHops (l : list (OutputDirection * Z * Z * Z)) (pkt_length requester : Z) (n : Node)
  : result (list Hop * Node) :=
  match l with
  | [] => Ok ([], n)
  | (direction, final, next, time) :: l' =>
      let! (h, _, n) := addHop direction final next time pkt_length requester n in
      let! (hops, n) := addHops l' pkt_length requester n in
      Ok (h :: hops, n)
  end.

(** A broadcast without the tree: a message to each core. *)
Fixpoint unicasts (dests : list Z) (pkt_time pkt_length requester : Z) (n : Node) : result (list Hop * Node) :=
  match dests with
  | [] => Ok ([], n)
  | i :: dests' =>
      let! (d, n) := computeInjectionPortQueueDelay i pkt_time pkt_length n in
      let '(direction, next) := getNextDest m n i in
      let! (h, _, n) := addHop direction i next (tadd pkt_time d) pkt_length requester n in
      let! (hops, n) := unicasts dests' pkt_time pkt_length requester n in
      Ok (h :: hops, n)
  end.

(** The directions a broadcast takes in the tree. *)
Definition broadcast_hops (me sender curr_time : Z) : list (OutputDirection * Z * Z * Z) :=
  let '(sx, sy) := computePosition m sender in
  let '(cx, cy) := computePosition m me in
  (if sy <=? cy then [(UP, BROADCAST, computeCoreId m cx (cy + 1), curr_time)] else []) ++
  (if cy <=? sy then [(DOWN, BROADCAST, computeCoreId m cx (cy - 1), curr_time)] else []) ++
  (if cy =? sy then
     (if sx <=? cx then [(RIGHT, BROADCAST, computeCoreId m (cx + 1) cy, curr_time)] else []) ++
     (if cx <=? sx then [(LEFT, BROADCAST, computeCoreId m (cx - 1) cy, curr_time)] else []) ++
     (if cx =? sx then [(SELF, me, me, curr_time)] else [])
   else []).

(** The packets and bytes a core sends. *)
Definition count_sent (pkt_length : Z) (pkt : NetPacket) (n : Node) : Node :=
  if p_sender pkt =? m_core_id n then
    mkNode (m_core_id n) (m_ports n) (m_enabled n) (u64 (m_total_bytes_sent n + pkt_length))
      (u64 (m_total_packets_sent n + 1)) (m_total_bytes_received n) (m_total_packets_received n)
      (m_total_contention_delay n) (m_total_packet_latency n)
  else n.

Definition route_at (n : Node) (pkt : NetPacket) : result (list Hop * NetPacket * Node) :=
  let! requester := requester_of (total_cores c) pkt in
  let pkt_length := getModeledLength (total_cores c) pkt in
  let n := count_sent pkt_length pkt n in
  if p_receiver pkt =? BROADCAST then
    if m_fake_node n then
      let! (hops, n) := addHops (map (fun i => (DESTINATION, i, i, p_time pkt)) (all_cores (total_cores c)))
                          pkt_length requester n in
      Ok (hops, pkt, n)
    else if m_broadcast_tree_enabled c then
      let! (d, n) := (if p_sender pkt =? m_core_id n
                      then computeInjectionPortQueueDelay (p_receiver pkt) (p_time pkt) pkt_length n else Ok (0, n)) in
      let! (hops, n) := addHops (broadcast_hops (m_core_id n) (p_sender pkt) (tadd (p_time pkt) d)) pkt_length requester n in
      Ok (hops, pkt, n)
    else
      guard! p_sender pkt =? m_core_id n else LogError in
      let! (hops, n) := unicasts (all_cores (total_cores c)) (p_time pkt) pkt_length requester n in
      Ok (hops, pkt, n)
  else if m_fake_node n then
    let! (h, _, n) := addHop DESTINATION (p_receiver pkt) (p_receiver pkt) (p_time pkt) pkt_length requester n in
    Ok ([h], pkt, n)
  else
    let! (d, n) := (if p_sender pkt =? m_core_id n
                    then computeInjectionPortQueueDelay (p_receiver pkt) (p_time pkt) pkt_length n else Ok (0, n)) in
    let pkt := if p_sender pkt =? m_core_id n then add_queue_delay d pkt else pkt in
    let '(direction, next) := getNextDest m n (p_receiver pkt) in
    let! (h, qd, n) := addHop direction (p_receiver pkt) next (tadd (p_time pkt) d) pkt_length requester n in
    Ok ([h], add_queue_delay qd pkt, n).

Definition receive_at (n : Node) (pkt : NetPacket) : result (NetPacket * Node) :=
  let pkt_length := getModeledLength (total_cores c) pkt in
  let! requester := requester_of (total_cores c) pkt in
  if negb (m_enabled n) || (total_cores c <=? requester) || (total_cores c <=? m_core_id n) then Ok (pkt, n)
  else
    let packet_latency := tsub (p_time pkt) (p_start_time pkt) in
    let contention_delay := tsub packet_latency (tmul (hop_latency n) (computeDistance m (p_sender pkt) (m_core_id n))) in
    let! (packet_latency, contention_delay, pkt, n) :=
      (if negb (p_sender pkt =? m_core_id n) && negb (m_fake_node n) then
         let! processing_time := computeProcessingTime pkt_length n in
         let! (d, n) := computeEjectionPortQueueDelay (p_time pkt) pkt_length n in
         Ok (tadd packet_latency (tadd d processing_time), tadd contention_delay d,
             add_queue_delay d (with_time (tadd (p_time pkt) (tadd d processing_time)) pkt), n)
       else Ok (packet_latency, contention_delay, pkt, n)) in
    Ok (pkt, mkNode (m_core_id n) (m_ports n) (m_enabled n) (m_total_bytes_sent n) (m_total_packets_sent n)
               (u64 (m_total_bytes_received n + pkt_length)) (u64 (m_total_packets_received n + 1))
               (tadd (m_total_contention_delay n) contention_delay) (tadd (m_total_packet_latency n) packet_latency)).
End latency.

Definition with_node (i : nat) (n : Node) (m : t) : t :=
  mk (cfg m) (m_mesh_width m) (m_mesh_height m) (<[i := n]> (nodes m)).

(** [getCoreFromID] gives NULL for a core that does not exist. *)
Definition node_at (core : Z) (m : t) : result Node :=
  if 0 <=? core then aget (nodes m) (Z.to_nat core) else Err Undefined.

#[export] Instance model (root : Z -> Z -> Z) : NetworkModel t := {
  routePacket core pkt m :=
    let! n := node_at core m in
    let! (hops, pkt, n) := route_at root m n pkt in
    Ok (hops, pkt, with_node (Z.to_nat core) n m);
  processReceivedPacket core pkt m :=
    let! n := node_at core m in
    let! (pkt, n) := receive_at root m n pkt in
    Ok (pkt, with_node (Z.to_nat core) n m)
}.
End EMesh.

(** * The hop counter: a mesh without contention *)
Module HopCounter.
Record Config := mkConfig { total_cores : Z; link_bandwidth : Z; hop_latency : Z; period : Z -> Z }.
Record Node := mkNode { enabled : bool; num_packets : Z; num_bytes : Z; total_latency : Z }.
Record t := mk { cfg : Config; meshWidth : Z; meshHeight : Z; nodes : list Node }.

Definition create (c : Config) : result t :=
  let width := Z.sqrt (total_cores c) in
  guard! negb (width =? 0) else Undefined in
  let height := (total_cores c + width - 1) / width in
  guard! total_cores c <=? width * height else AssertFailed in
  guard! (width - 1) * height <? total_cores c else AssertFailed in
  guard! width * (height - 1) <? total_cores c else AssertFailed in
  Ok (mk c width height (replicate (Z.to_nat (total_cores c)) (mkNode false 0 0 0))).

Definition computePosition (m : t) (core : Z) : Z * Z := (Z.rem core (meshWidth m), Z.quot core (meshWidth m)).
Definition computeDistance (x1 y1 x2 y2 : Z) : Z := Z.abs (x1 - x2) + Z.abs (y1 - y2).
Definition computeSerializationLatency (m : t) (core pkt_length : Z) : result Z :=
  bwpc_getRoundedLatency (period (cfg m) core) (link_bandwidth (cfg m)) (u32 (pkt_length * 8)).

(** The latency from [s] to [d]. *)
Definition latency (m : t) (core s d serialization_latency : Z) : Z :=
  let '(sx, sy) := computePosition m s in
  let '(dx, dy) := computePosition m d in
  let l := tmul (tmul (period (cfg m) core) (hop_latency (cfg m))) (computeDistance sx sy dx dy) in
  if d =? s then l else tadd l serialization_latency.

Fixpoint broadcast (m : t) (core s ser curr_time : Z) (dests : list Z) : list Hop :=
  match dests with
  | [] => []
  | i :: dests' =>
      mkHop i i (tadd curr_time (latency m core s i ser)) :: broadcast m core s ser (tadd curr_time ser) dests'
  end.

Definition route_at (core : Z) (pkt : NetPacket) (m : t) : result (list Hop * NetPacket * t) :=
  let! ser := computeSerializationLatency m core (getModeledLength (total_cores (cfg m)) pkt) in
  if p_receiver pkt =? BROADCAST then
    Ok (broadcast m core (p_sender pkt) ser (p_time pkt) (all_cores (total_cores (cfg m))), pkt, m)
  else
    let r := p_receiver pkt in
    Ok ([mkHop r r (tadd (p_time pkt) (latency m core (p_sender pkt) r ser))], pkt, m).

Definition receive_at (core : Z) (pkt : NetPacket) (m : t) : result (NetPacket * t) :=
  let pkt_length := getModeledLength (total_cores (cfg m)) pkt in
  let! requester := requester_of (total_cores (cfg m)) pkt in
  let! n := aget (nodes m) (Z.to_nat core) in
  if negb (enabled n) || (total_cores (cfg m) <=? requester) then Ok (pkt, m)
  else
    let n := mkNode (enabled n) (u64 (num_packets n + 1)) (u64 (num_bytes n + pkt_length))
               (tadd (total_latency n) (tsub (p_time pkt) (p_start_time pkt))) in
    Ok (pkt, mk (cfg m) (meshWidth m) (meshHeight m) (<[Z.to_nat core := n]> (nodes m))).

#[export] Instance model : NetworkModel t := { routePacket := route_at; processReceivedPacket := receive_at }.
End HopCounter.

(** * The bus, shared by all cores *)
Module Bus.
Record t := mk {
  total_cores : Z;
  enabled : bool;
  ignore_local : bool;
  bandwidth : Z;
  queue_model : QueueModel;
  num_packets : Z;
  num_packets_delayed : Z;
  num_bytes : Z;
  time_used : Z;
  total_delay : Z
}.

Definition create (cores : Z) (ignore_local : bool) (bandwidth : Z) (qc : QueueConfig) (queue_type : string)
    (proc_period : Z) : result t :=
  let! q := create_queue qc queue_type (tmul proc_period 10) in
  Ok (mk cores false ignore_local bandwidth q 0 0 0 0 0).

Section bus.
Variable root : Z -> Z -> Z.

Definition accountPacket (pkt : NetPacket) (b : t) : result bool :=
  let! requester := requester_of (total_cores b) pkt in
  Ok (negb (negb (enabled b) || (ignore_local b && (p_sender pkt =? p_receiver pkt)) ||
            (total_cores b <=? requester) || (total_cores b <=? p_sender pkt) || (total_cores b <=? p_receiver pkt))).

(** When a packet has left the bus, and how long it waited. *)
Definition useBus (t_start length : Z) (b : t) : result (Z * Z * t) :=
  let! t_delay := bw_getLatency (bandwidth b) (u32 (length * 8)) in
  let! (t_queue, q) := computeQueueDelay root t_start t_delay (queue_model b) in
  Ok (tadd (tadd t_start t_queue) t_delay, t_queue,
      mk (total_cores b) (enabled b) (ignore_local b) (bandwidth b) q (num_packets b)
        (if 0 <? t_queue then u64 (num_packets_delayed b + 1) else num_packets_delayed b) (num_bytes b)
        (tadd (time_used b) t_delay) (tadd (total_delay b) t_queue)).

Definition route_at (core : Z) (pkt : NetPacket) (b : t) : result (list Hop * NetPacket * t) :=
  let! account := accountPacket pkt b in
  let! (t_recv, pkt, b) :=
    (if account : bool then
       let b := mk (total_cores b) (enabled b) (ignore_local b) (bandwidth b) (queue_model b) (u64 (num_packets b + 1))
                  (num_packets_delayed b) (u64 (num_bytes b + getModeledLength (total_cores b) pkt)) (time_used b)
                  (total_delay b) in
       let! (t_recv, t_queue, b) := useBus (p_time pkt) (p_length pkt) b in
       Ok (t_recv, add_queue_delay t_queue pkt, b)
     else Ok (p_time pkt, pkt, b)) in
  if p_receiver pkt =? BROADCAST then Ok (map (fun i => mkHop i i t_recv) (all_cores (total_cores b)), pkt, b)
  else Ok ([mkHop (p_receiver pkt) (p_receiver pkt) t_recv], pkt, b).

#[export] Instance model : NetworkModel t := {
  routePacket := route_at;
  processReceivedPacket _ pkt b := Ok (pkt, b)
}.
End bus.
End Bus.

(** * The magic network: one cycle to anywhere *)
Module Magic.
Record t := mk { total_cores : Z; enabled : bool; period : Z -> Z; counts : list (Z * Z) }.

Definition create (cores : Z) (period : Z -> Z) : t :=
  mk cores false period (replicate (Z.to_nat cores) (0, 0)).

Definition route_at (core : Z) (pkt : NetPacket) (m : t) : result (list Hop * NetPacket * t) :=
  let time := tadd (p_time pkt) (tmul (period m core) 1) in
  if p_receiver pkt =? BROADCAST then Ok (map (fun i => mkHop i i time) (all_cores (total_cores m)), pkt, m)
  else Ok ([mkHop (p_receiver pkt) (p_receiver pkt) time], pkt, m).

(** [counts] are the packets and bytes received by each core. *)
Definition receive_at (core : Z) (pkt : NetPacket) (m : t) : result (NetPacket * t) :=
  let! requester := requester_of (total_cores m) pkt in
  if negb (enabled m) || (total_cores m <=? requester) then Ok (pkt, m)
  else
    let! (packets, bytes) := aget (counts m) (Z.to_nat core) in
    let e := (u64 (packets + 1), u64 (bytes + getModeledLength (total_cores m) pkt)) in
    Ok (pkt, mk (total_cores m) (enabled m) (period m) (<[Z.to_nat core := e]> (counts m))).

#[export] Instance model : NetworkModel t := { routePacket := route_at; processReceivedPacket := receive_at }.
End Magic.
