(* ===== verification/NetworkLemmas.v ===== *)
(** Lemmas about the mesh: one step in a ring or line brings a packet one closer,
    and the loop of [netSend] takes it to its destination. *)
From stdpp Require Import base numbers list strings.
From Stdlib Require Import ZArith Lia Bool.
From S2P Require Import Prelude Timing QueueLemmas Network.
Open Scope Z_scope.
Import EMesh.

(** * One dimension *)

(** The hops from [a] to [b] in a dimension of size [w]. *)
Definition steps (wrap : bool) (w a b : Z) : Z :=
  let d := Z.abs (a - b) in if wrap && (Z.quot (w + 1) 2 <? d) then w - d else d.

(** The way to go. *)
Definition backward (wrap : bool) (w s d : Z) : bool :=
  xorb (d <? s) (wrap && (Z.quot (w + 1) 2 <? Z.abs (s - d))).

Lemma half_bounds w : 0 < w -> w <= 2 * Z.quot (w + 1) 2 <= w + 1.
Proof. intros Hw. rewrite Z.quot_div_nonneg by lia. pose proof (Z.div_mod (w + 1) 2). pose proof (Z.mod_pos_bound (w + 1) 2). lia. Qed.

Lemma rem_wrap x w : 0 < w -> -1 <= x <= w ->
  Z.rem (x + w) w = if x =? -1 then w - 1 else if x =? w then 0 else x.
Proof.
  intros Hw Hx. rewrite Z.rem_mod_nonneg by lia.
  destruct (Z.eqb_spec x (-1)), (Z.eqb_spec x w).
  - lia.
  - rewrite Z.mod_small; lia.
  - subst x. replace (w + w) with (2 * w) by lia. apply Z.mod_mul. lia.
  - rewrite mod_wrap; lia.
Qed.

Lemma backward_same wrap w s : 0 < w -> backward wrap w s s = false.
Proof.
  intros Hw. unfold backward. rewrite Z.ltb_irrefl, Z.sub_diag. cbn [Z.abs xorb].
  pose proof (half_bounds w Hw). rewrite (proj2 (Z.ltb_ge _ _)) by lia. by destruct wrap.
Qed.

Lemma steps_same wrap w s : 0 < w -> steps wrap w s s = 0.
Proof.
  intros Hw. unfold steps. rewrite Z.sub_diag. cbn [Z.abs]. pose proof (half_bounds w Hw).
  rewrite (proj2 (Z.ltb_ge _ _)) by lia. by destruct wrap.
Qed.

(** A hop that way brings the packet one closer. *)
Lemma one_closer wrap w s d : 0 <= s < w -> 0 <= d < w -> s <> d ->
  let s' := Z.rem ((if backward wrap w s d then s - 1 else s + 1) + w) w in
  0 <= s' < w /\ steps wrap w s' d = steps wrap w s d - 1.
Proof.
  intros Hs Hd Hne. pose proof (half_bounds w ltac:(lia)) as Hh. cbv zeta. unfold backward, steps.
  set (h := Z.quot (w + 1) 2) in *.
  rewrite rem_wrap by (try lia; match goal with |- context [if ?b then _ else _] => destruct b end; lia).
  destruct wrap; cbn [andb].
  - destruct (Z.ltb_spec d s), (Z.ltb_spec h (Z.abs (s - d))); cbn [xorb];
      match goal with |- context [if ?a =? -1 then _ else _] =>
        destruct (Z.eqb_spec a (-1)), (Z.eqb_spec a w) end; try lia;
      match goal with |- context [h <? ?a] => destruct (Z.ltb_spec h a) end; lia.
  - rewrite xorb_false_r. destruct (Z.ltb_spec d s);
      match goal with |- context [if ?a =? -1 then _ else _] =>
        destruct (Z.eqb_spec a (-1)), (Z.eqb_spec a w) end; lia.
Qed.

Lemma steps_nonneg wrap w a b : 0 <= a < w -> 0 <= b < w -> 0 <= steps wrap w a b < w.
Proof. intros. unfold steps. destruct (wrap && _) eqn:E; zbool; pose proof (half_bounds w ltac:(lia)); lia. Qed.

(** The extra hop of a ring of odd size. *)
Definition detour (wrap : bool) (w a b : Z) : Z :=
  if wrap && Z.odd w && (2 * Z.abs (a - b) =? w + 1) then 1 else 0.

Lemma steps_distance wrap w a b : 0 <= a < w -> 0 <= b < w ->
  steps wrap w a b = (if wrap then Z.min (Z.abs (a - b)) (w - Z.abs (a - b)) else Z.abs (a - b)) + detour wrap w a b.
Proof.
  intros Ha Hb. unfold steps, detour. destruct wrap; cbn [andb]; [|lia].
  rewrite Z.quot_div_nonneg by lia. pose proof (Z.div_mod (w + 1) 2). pose proof (Z.mod_pos_bound (w + 1) 2).
  pose proof (Zodd_mod w) as Ho. pose proof (Zmod_odd w) as Hm. pose proof (Z.div_mod w 2).
  destruct (Z.ltb_spec ((w + 1) / 2) (Z.abs (a - b))), (Z.odd w) eqn:E; cbn [andb];
    destruct (Z.eqb_spec (2 * Z.abs (a - b)) (w + 1)); lia.
Qed.

(** * Positions *)
Section mesh.
Variable root : Z -> Z -> Z.
Context (c : Config) (w h : Z).
Hypotheses (Hconc : 0 < m_concentration c) (Hw : 0 < w) (Hh : 0 < h)
  (Htotal : total_cores c = m_concentration c * h * w).

(** The master core at a position. *)
Definition core_at (x y : Z) : Z := (y * w + x) * m_concentration c.

Lemma core_at_range x y : 0 <= x < w -> 0 <= y < h -> 0 <= core_at x y < total_cores c.
Proof. intros Hx Hy. unfold core_at. rewrite Htotal. assert (0 <= y * w + x < h * w) by nia. nia. Qed.

Lemma core_at_rem x y : 0 <= x < w -> 0 <= y < h -> Z.rem (core_at x y) (m_concentration c) = 0.
Proof. intros Hx Hy. unfold core_at. apply Z.rem_mul. lia. Qed.

(** A mesh of the right shape, whatever its queues and counters. *)
Record shaped (m : t) : Prop := {
  sh_cfg : cfg m = c;
  sh_width : m_mesh_width m = w;
  sh_height : m_mesh_height m = h
}.

Lemma position_core_at m x y : shaped m -> 0 <= x < w -> 0 <= y < h -> computePosition m (core_at x y) = (x, y).
Proof.
  intros [] Hx Hy. unfold computePosition, core_at. rewrite sh_cfg0, sh_width0, Z.quot_mul by lia.
  rewrite Z.rem_mod_nonneg, Z.quot_div_nonneg by nia.
  f_equal; [rewrite Z.add_comm, Z.mod_add, Z.mod_small by lia; lia|].
  rewrite Z.add_comm, Z.div_add, Z.div_small by lia. lia.
Qed.

(** The node of a core, and where it is. *)
Lemma position_range m r : shaped m -> 0 <= r < total_cores c ->
  let '(x, y) := computePosition m r in
  0 <= x < w /\ 0 <= y < h /\ Z.quot r (m_concentration c) = y * w + x.
Proof.
  intros [] Hr. unfold computePosition. rewrite sh_cfg0, sh_width0.
  rewrite Z.quot_div_nonneg by lia. set (k := r / m_concentration c).
  assert (Hk : 0 <= k < h * w).
  { split; [apply Z.div_pos; lia|]. apply Z.div_lt_upper_bound; [lia|]. rewrite Htotal in Hr. lia. }
  rewrite Z.rem_mod_nonneg, Z.quot_div_nonneg by lia.
  split; [apply Z.mod_pos_bound; lia|]. split.
  - split; [apply Z.div_pos; lia|]. apply Z.div_lt_upper_bound; [lia|]. lia.
  - pose proof (Z.div_mod k w). lia.
Qed.

(** The same node is the same position. *)
Lemma same_node m x y r dx dy : shaped m -> 0 <= x < w -> 0 <= y < h -> 0 <= r < total_cores c ->
  computePosition m r = (dx, dy) ->
  Z.quot (core_at x y) (m_concentration c) = Z.quot r (m_concentration c) <-> x = dx /\ y = dy.
Proof.
  intros Hm Hx Hy Hr Hp. pose proof (position_range m r Hm Hr) as H. rewrite Hp in H. destruct H as (Hdx & Hdy & ->).
  unfold core_at. rewrite Z.quot_mul by lia. split; [|intros [-> ->]; lia]. intros E.
  assert (y = dy) by (destruct (Z.lt_trichotomy y dy) as [|[|]]; nia). subst. lia.
Qed.

(** The hops of a packet from one position to another. *)
Definition hops (x y dx dy : Z) : Z := steps (m_wrap_around c) w x dx + steps (m_wrap_around c) h y dy.

Definition is_link (d : OutputDirection) : bool := match link d with Some _ => true | None => false end.

Lemma next_dest_arrived m n x y r : shaped m -> m_core_id n = core_at x y -> 0 <= x < w -> 0 <= y < h ->
  0 <= r < total_cores c -> computePosition m r = (x, y) -> getNextDest m n r = (DESTINATION, r).
Proof.
  intros Hm Hn Hx Hy Hr Hp. unfold getNextDest. pose proof Hm as []. rewrite sh_cfg0, (proj2 (Z.leb_gt _ _)), Hn by lia.
  by rewrite (proj2 (Z.eqb_eq _ _)) by (by apply (same_node m x y r x y)).
Qed.

(** Each router sends a packet over a link to the next node on its way. *)
Lemma next_dest_closer m n x y r dx dy : shaped m -> m_core_id n = core_at x y -> m_fake_node n = false ->
  0 <= x < w -> 0 <= y < h -> 0 <= r < total_cores c -> computePosition m r = (dx, dy) -> x <> dx \/ y <> dy ->
  exists d x' y', getNextDest m n r = (d, core_at x' y') /\ is_link d = true /\ 0 <= x' < w /\ 0 <= y' < h /\
    hops x' y' dx dy = hops x y dx dy - 1.
Proof.
  intros Hm Hn Hf Hx Hy Hr Hp Hne. pose proof (position_range m r Hm Hr) as Hd. rewrite Hp in Hd.
  destruct Hd as (Hdx & Hdy & _). unfold getNextDest. pose proof Hm as [].
  rewrite sh_cfg0, (proj2 (Z.leb_gt _ _)), Hn by lia.
  rewrite (proj2 (Z.eqb_neq _ _)) by (rewrite (same_node m x y r dx dy) by done; lia).
  rewrite Hf, position_core_at, Hp, sh_width0, sh_height0 by done.
  change (xorb (dx <? x) _) with (backward (m_wrap_around c) w x dx).
  change (xorb (dy <? y) _) with (backward (m_wrap_around c) h y dy).
  unfold computeCoreId. rewrite sh_cfg0, sh_width0, sh_height0.
  assert (Hxy : forall v s, 0 <= v < s -> Z.rem (v + s) s = v).
  { intros v s Hv. rewrite rem_wrap by lia. rewrite !(proj2 (Z.eqb_neq _ _)) by lia. done. }
  unfold hops. destruct (Z.eq_dec x dx) as [->|Hxd].
  - pose proof (one_closer (m_wrap_around c) h y dy Hy Hdy ltac:(lia)) as [Hr' Hs]. rewrite backward_same by lia.
    rewrite Z.eqb_refl, (proj2 (Z.eqb_neq y dy)), (Hxy dx w) by lia. cbn [negb].
    destruct (backward (m_wrap_around c) h y dy);
      [eexists DOWN, dx, (Z.rem (y - 1 + h) h)|eexists UP, dx, (Z.rem (y + 1 + h) h)];
      (split; [done|]); rewrite Hs; repeat split; lia.
  - pose proof (one_closer (m_wrap_around c) w x dx Hx Hdx Hxd) as [Hr' Hs].
    rewrite (proj2 (Z.eqb_neq x dx)), (Hxy y h) by lia. cbn [negb].
    destruct (backward (m_wrap_around c) w x dx);
      [eexists LEFT, (Z.rem (x - 1 + w) w), y|eexists RIGHT, (Z.rem (x + 1 + w) w), y];
      (split; [done|]); rewrite Hs; repeat split; lia.
Qed.

(** * Queues that always answer *)
Definition steady (q : QueueModel) : Prop :=
  match q with
  | Basic q => QueueModelBasic.m_moving_average q = None
  | Contention u => ContentionModel.m_num_outstanding u = 1 /\ length (ContentionModel.m_time u) = 1%nat
  | HistoryList _ => False
  end.

Lemma steady_delay t p q : steady q -> exists d q', computeQueueDelay root t p q = Ok (d, q') /\ steady q'.
Proof.
  destruct q as [q|q|u]; cbn [steady computeQueueDelay]; [|done|].
  - intros E. unfold QueueModelBasic.computeQueueDelay. rewrite E. cbn [rbind]. do 2 eexists. by split.
  - intros [En El]. unfold QueueModelContention.computeQueueDelay, ContentionModel.getCompletionTime. rewrite En.
    cbn [Z.eqb]. destruct (t =? 0); [cbn [rbind]; do 2 eexists; by split|].
    destruct (t <? ContentionModel.m_t_last u); [cbn [rbind]; do 2 eexists; by split|].
    destruct (ContentionModel.m_time u) as [|[a b] [|]] eqn:Et; try done.
    unfold ContentionModel.unit_time. rewrite Et.
    assert (Ef : (ContentionModel.find_unit t 0 0 a [(a, b)]).2 = 0%nat).
    { cbn. destruct (a <=? t); [done|]. by destruct (a <? a). }
    cbn [aget lookup list_lookup of_option rbind fst]. rewrite Ef. cbn. do 2 eexists. by split.
Qed.

Definition ports_ok (p : Ports) : Prop := m_queue_model_enabled c = true ->
  length (m_queue_models p) = 4%nat /\ Forall steady (m_queue_models p) /\
  steady (m_injection_port_queue_model p) /\ steady (m_ejection_port_queue_model p).

Record good_node (core : Z) (n : Node) : Prop := {
  gn_core : m_core_id n = core;
  gn_enabled : m_enabled n = true;
  gn_fake : m_fake_node n = negb (Z.rem core (m_concentration c) =? 0);
  gn_ports : forall p, m_ports n = Some p -> ports_ok p
}.

Record good (m : t) : Prop := {
  g_shaped : shaped m;
  g_nodes : forall core, 0 <= core < total_cores c -> exists n, node_at core m = Ok n /\ good_node core n
}.

Lemma with_node_good m core n : good m -> 0 <= core < total_cores c -> good_node core n ->
  good (with_node (Z.to_nat core) n m).
Proof.
  intros [[] Hn] Hc Hg. split; [by split|]. intros core' Hc'. destruct (Hn core' Hc') as (n' & Hn' & Hg').
  unfold node_at in *. rewrite (proj2 (Z.leb_le 0 core')) in * by lia. cbn [with_node nodes].
  apply aget_Ok_inv in Hn'. destruct (Z.eq_dec core core') as [->|Hne].
  - exists n. split; [|done]. apply aget_Ok, list_lookup_insert_eq. by eapply lookup_lt_Some.
  - exists n'. split; [|done]. apply aget_Ok. rewrite list_lookup_insert_ne by lia. done.
Qed.

(** * One router *)
Context (Hbw : m_link_bandwidth c <> 0).

Definition link_time (core : Z) : Z := tmul (m_period c core) (m_hop_latency c).

(** A packet on behalf of a core. *)
Definition on_behalf (pkt : NetPacket) : Prop := exists r, requester_of (total_cores c) pkt = Ok r /\ r < total_cores c.

Lemma on_behalf_same pkt pkt' : p_shmem pkt' = p_shmem pkt -> p_sender pkt' = p_sender pkt -> on_behalf pkt -> on_behalf pkt'.
Proof. unfold on_behalf, requester_of. by intros -> ->. Qed.

Lemma processing_time m n len : shaped m -> m_fake_node n = false -> exists p, computeProcessingTime m len n = Ok p.
Proof.
  intros [] Hf. unfold computeProcessingTime, bwpc_getRoundedLatency, udiv. rewrite Hf, sh_cfg0. cbn [negb rguard rbind].
  rewrite (proj2 (Z.eqb_neq _ _)) by done. by eexists.
Qed.

(** A link of a good node. *)
Lemma latency_ok m n core d t len r : shaped m -> good_node core n -> m_fake_node n = false -> is_link d = true ->
  r < total_cores c -> exists l qd n', computeLatency root m d t len r n = Ok (l, qd, n') /\ good_node core n' /\
    (m_queue_model_enabled c = false -> l = u64 (link_time core)).
Proof.
  intros Hm [] Hf Hd Hr. unfold computeLatency. destruct (processing_time m n len Hm Hf) as (p & Hp). destruct Hm.
  unfold m_fake_node in Hf. destruct (m_ports n) as [ports|] eqn:Ep; [|done]. cbn [of_option rbind].
  unfold is_link in Hd. destruct (link d) as [i|] eqn:Ei; [|done]. cbn [of_option rbind].
  rewrite gn_enabled0, sh_cfg0, (proj2 (Z.leb_gt _ _)), Hp by done. cbn [negb orb rbind].
  destruct (m_queue_model_enabled c) eqn:Eq.
  - destruct (gn_ports0 ports eq_refl Eq) as (Hl & Hq & Hi & He).
    destruct (lookup_lt_is_Some_2 (m_queue_models ports) i) as (q & Hlook); [destruct d; cbn in Ei; simplify_eq; lia|].
    rewrite (aget_Ok _ _ _ Hlook). cbn [rbind].
    destruct (steady_delay t p q) as (qd & q' & -> & Hq'); [by eapply Forall_lookup_1|]. cbn [rbind].
    rewrite aset_Ok by (by eapply lookup_lt_Some). cbn [rbind]. do 3 eexists. split; [reflexivity|]. split; [|done].
    split; cbn; try done; [by unfold m_fake_node in gn_fake0; rewrite Ep in gn_fake0|].
    intros ? [= <-] _. cbn. rewrite length_insert. split; [done|]. split; [by apply Forall_insert|done].
  - cbn [rbind]. do 3 eexists. split; [reflexivity|]. split; [split; try done; by rewrite Ep|]. intros _.
    unfold hop_latency, link_time. rewrite sh_cfg0, gn_core0. unfold tadd. by rewrite Z.add_0_r.
Qed.

Lemma injection_ok m n core r t len : shaped m -> good_node core n -> m_fake_node n = false ->
  exists d n', computeInjectionPortQueueDelay root m r t len n = Ok (d, n') /\ good_node core n' /\
    m_fake_node n' = false /\ (m_queue_model_enabled c = false -> d = 0).
Proof.
  intros Hm Hg Hf. unfold computeInjectionPortQueueDelay. destruct (processing_time m n len Hm Hf) as (p & Hp).
  destruct Hm, Hg. pose proof Hf as Hf'. unfold m_fake_node in Hf. destruct (m_ports n) as [ports|] eqn:Ep; [|done].
  cbn [of_option rbind]. rewrite sh_cfg0.
  assert (Hid : good_node core n) by (split; try done; by rewrite Ep).
  destruct (m_queue_model_enabled c) eqn:Eq; cbn [negb]; [|by exists 0, n].
  destruct (r =? m_core_id n); [by exists 0, n|]. rewrite Hp. cbn [rbind].
  destruct (gn_ports0 ports eq_refl Eq) as (Hl & Hq & Hi & He).
  destruct (steady_delay t p _ Hi) as (d & q & -> & Hq'). cbn [rbind]. exists d. eexists. split; [reflexivity|].
  split; [|done]. split; cbn; try done; [by unfold m_fake_node in gn_fake0; rewrite Ep in gn_fake0|].
  intros ? [= <-] _. done.
Qed.

Lemma count_sent_good core len pkt n : good_node core n -> good_node core (count_sent len pkt n) /\
  m_fake_node (count_sent len pkt n) = m_fake_node n.
Proof. intros Hg. unfold count_sent. destruct (_ =? _); [|done]. split; [|done]. by destruct Hg. Qed.

Lemma getNextDest_same m n n' r : m_core_id n' = m_core_id n -> m_fake_node n' = m_fake_node n ->
  getNextDest m n' r = getNextDest m n r.
Proof. unfold getNextDest. by intros -> ->. Qed.

(** The packet as far as its way is concerned. *)
Definition same_packet (p p' : NetPacket) : Prop :=
  p_shmem p' = p_shmem p /\ p_sender p' = p_sender p /\ p_receiver p' = p_receiver p.

(** A router passes a packet on over the link of [getNextDest]. *)
Lemma route_unicast m n core pkt r d next : shaped m -> good_node core n -> m_fake_node n = false -> on_behalf pkt ->
  p_receiver pkt = r -> 0 <= r -> 0 <= p_time pkt < 2 ^ 64 -> getNextDest m n r = (d, next) ->
  exists t' pkt' n', route_at root m n pkt = Ok ([mkHop r next t'], pkt', n') /\ good_node core n' /\
    same_packet pkt pkt' /\ p_start_time pkt' = p_start_time pkt /\ p_time pkt' = p_time pkt /\ 0 <= t' < 2 ^ 64 /\
    (m_queue_model_enabled c = false -> t' = u64 (p_time pkt + if is_link d then link_time core else 0)).
Proof.
  intros Hm Hg Hf (rq & Hrq & Hrt) Hr Hr0 Ht Hnext. unfold route_at. pose proof Hm as []. rewrite sh_cfg0, Hrq. cbn [rbind].
  set (len := getModeledLength (total_cores c) pkt).
  destruct (count_sent_good core len pkt n Hg) as [Hg1 Hf1]. rewrite Hf in Hf1.
  set (n1 := count_sent len pkt n) in *. rewrite Hr.
  rewrite (proj2 (Z.eqb_neq r BROADCAST)) by (assert (BROADCAST < 0) by reflexivity; lia). rewrite Hf1.
  assert (Hinj : exists i n2, (if p_sender pkt =? m_core_id n1 then computeInjectionPortQueueDelay root m r (p_time pkt) len n1
      else Ok (0, n1)) = Ok (i, n2) /\ good_node core n2 /\ m_fake_node n2 = false /\ (m_queue_model_enabled c = false -> i = 0)).
  { destruct (_ =? _); [by apply injection_ok|]. by exists 0, n1. }
  destruct Hinj as (i & n2 & -> & Hg2 & Hf2 & Hi). cbn [rbind].
  set (pkt1 := if p_sender pkt =? m_core_id n2 then add_queue_delay i pkt else pkt).
  assert (Hs1 : same_packet pkt pkt1 /\ p_start_time pkt1 = p_start_time pkt /\ p_time pkt1 = p_time pkt).
  { subst pkt1. by destruct (_ =? _). }
  destruct Hs1 as ((S1 & S2 & S3) & S4 & S5). rewrite S3, S5, Hr.
  rewrite (getNextDest_same m n n2 r) by
    (first [by rewrite (gn_core _ _ Hg2), (gn_core _ _ Hg) | by rewrite Hf, Hf2]). rewrite Hnext.
  assert (Hu0 : m_queue_model_enabled c = false -> tadd (p_time pkt) i = p_time pkt).
  { intros E. rewrite (Hi E), tadd_small by lia. lia. }
  destruct (is_link d) eqn:Ed.
  - destruct (latency_ok m n2 core d (tadd (p_time pkt) i) len rq Hm Hg2 Hf2 Ed Hrt) as (l & qd & n3 & El & Hg3 & Hl).
    assert (Ea : addHop root m d r next (tadd (p_time pkt) i) len rq n2 =
      Ok (mkHop r next (tadd (tadd (p_time pkt) i) l), qd, n3)) by (destruct d; cbn in Ed; try done; cbn; by rewrite El).
    rewrite Ea. cbn [rbind]. do 3 eexists. split; [reflexivity|]. split; [done|]. split; [done|].
    split; [done|]. split; [done|]. split; [apply u64_range|]. intros E. rewrite Hu0, Hl by done.
    unfold tadd, u64, uwrap. by rewrite Zplus_mod_idemp_r.
  - assert (Ea : addHop root m d r next (tadd (p_time pkt) i) len rq n2 = Ok (mkHop r next (tadd (p_time pkt) i), 0, n2))
      by (by destruct d).
    rewrite Ea. cbn [rbind]. do 3 eexists. split; [reflexivity|]. split; [done|]. split; [done|].
    split; [done|]. split; [done|]. split; [apply u64_range|]. intros E. rewrite Hu0, Z.add_0_r by done. by rewrite u64_small.
Qed.

(** * The way of a packet *)
Context (L : Z) (HL : forall core, link_time core = L).

(** From any router the packet reaches its destination. *)
Lemma follow_ok r dx dy fuel : (forall m, shaped m -> computePosition m r = (dx, dy)) -> 0 <= r < total_cores c ->
  forall m x y time pkt, good m -> 0 <= x < w -> 0 <= y < h -> on_behalf pkt -> 0 <= time < 2 ^ 64 ->
  hops x y dx dy < Z.of_nat fuel ->
  exists t' pkt' m', @follow t (model root) fuel (mkHop r (core_at x y) time) pkt m = Ok (mkHop r r t', pkt', m') /\
    good m' /\ (m_queue_model_enabled c = false -> t' = u64 (time + hops x y dx dy * L)).
Proof.
  intros Hpos Hr. pose proof (fun m Hm => position_range m r Hm Hr) as Hd.
  induction fuel as [|fuel IH]; intros m x y time pkt Hm Hx Hy Hb Ht Hk.
  { pose proof (Hd m (g_shaped m Hm)) as H. rewrite (Hpos m (g_shaped m Hm)) in H. destruct H as (? & ? & _).
    pose proof (steps_nonneg (m_wrap_around c) w x dx). pose proof (steps_nonneg (m_wrap_around c) h y dy).
    unfold hops in Hk. lia. }
  specialize (Hd m (g_shaped m Hm)). rewrite (Hpos m (g_shaped m Hm)) in Hd. destruct Hd as (Hdx & Hdy & _).
  cbn [follow next_dest final_dest h_time].
  destruct (Z.eqb_spec (core_at x y) r) as [E|E].
  { rewrite <- E in Hpos. pose proof (Hpos m (g_shaped m Hm)) as Hp.
    rewrite position_core_at in Hp by (try done; by destruct Hm). injection Hp as <- <-.
    exists time, pkt, m. rewrite E. split; [done|]. split; [done|]. intros _. unfold hops. rewrite !steps_same by lia.
    rewrite u64_small; lia. }
  set (pkt1 := with_receiver r (with_time time pkt)).
  assert (Hb1 : on_behalf pkt1) by (by apply (on_behalf_same pkt)).
  destruct (g_nodes m Hm (core_at x y) (core_at_range x y Hx Hy)) as (n & Hn & Hg).
  assert (Hf : m_fake_node n = false) by (rewrite (gn_fake _ _ Hg), core_at_rem by done; done).
  cbn [routePacket model]. rewrite Hn. cbn [rbind].
  destruct (decide (x = dx /\ y = dy)) as [[-> ->]|Hne].
  - pose proof (next_dest_arrived m n dx dy r (g_shaped m Hm) (gn_core _ _ Hg) Hx Hy Hr (Hpos m (g_shaped m Hm))) as Hnext.
    destruct (route_unicast m n _ pkt1 r _ _ (g_shaped m Hm) Hg Hf Hb1 eq_refl ltac:(lia) Ht Hnext)
      as (t' & pkt' & n' & -> & Hg' & Hs & _ & _ & Ht' & Htime).
    cbn [rbind]. exists t', pkt'. eexists. split; [destruct fuel; cbn [follow next_dest final_dest]; by rewrite Z.eqb_refl|].
    split; [apply with_node_good; [done|by apply core_at_range|done]|]. intros E'. rewrite (Htime E').
    unfold hops. rewrite !steps_same by lia. cbn; f_equal; lia.
  - destruct (next_dest_closer m n x y r dx dy (g_shaped m Hm) (gn_core _ _ Hg) Hf Hx Hy Hr (Hpos m (g_shaped m Hm)) ltac:(lia))
      as (d & x' & y' & Hnext & Hl & Hx' & Hy' & Hh').
    destruct (route_unicast m n _ pkt1 r _ _ (g_shaped m Hm) Hg Hf Hb1 eq_refl ltac:(lia) Ht Hnext)
      as (t1 & pkt2 & n' & -> & Hg' & (S1 & S2 & S3) & _ & _ & Ht1 & Htime).
    cbn [rbind].
    destruct (IH (with_node (Z.to_nat (core_at x y)) n' m) x' y' t1 pkt2) as (t' & pkt' & m' & -> & Hm' & Htime'); try done.
    + apply with_node_good; [done|by apply core_at_range|done].
    + by apply (on_behalf_same pkt1).
    + lia.
    + exists t', pkt', m'. split; [done|]. split; [done|]. intros E'. rewrite (Htime' E'), (Htime E'), Hl, HL, Hh'.
      unfold u64, uwrap. rewrite Zplus_mod_idemp_l. f_equal. cbn [p_time pkt1 with_receiver with_time]. lia.
Qed.

Definition direction_time (d : OutputDirection) : Z := if is_link d then L else 0.

(** A packet sent by the master core of a node arrives. *)
Lemma netSend_ok m x y r dx dy fuel pkt : (forall m, shaped m -> computePosition m r = (dx, dy)) ->
  0 <= r < total_cores c -> good m -> 0 <= x < w -> 0 <= y < h -> on_behalf pkt -> p_receiver pkt = r ->
  0 <= p_time pkt < 2 ^ 64 -> w + h <= Z.of_nat fuel ->
  exists pkt' m', @netSend t (model root) fuel (core_at x y) pkt m = Ok ([(r, pkt')], m') /\ good m' /\
    same_packet pkt pkt' /\
    (m_queue_model_enabled c = false -> p_time pkt' = u64 (p_time pkt + hops x y dx dy * L)).
Proof.
  intros Hpos Hr Hm Hx Hy Hb Hrecv Ht Hfuel.
  pose proof (position_range m r (g_shaped m Hm) Hr) as Hd. rewrite (Hpos m (g_shaped m Hm)) in Hd. destruct Hd as (Hdx & Hdy & _).
  destruct (g_nodes m Hm (core_at x y) (core_at_range x y Hx Hy)) as (n & Hn & Hg).
  assert (Hf : m_fake_node n = false) by (rewrite (gn_fake _ _ Hg), core_at_rem by done; done).
  assert (HB : BROADCAST < 0) by reflexivity.
  unfold netSend. cbn [routePacket model]. rewrite Hn. cbn [rbind].
  destruct (getNextDest m n r) as [d next] eqn:Hnext.
  destruct (route_unicast m n _ pkt r d next (g_shaped m Hm) Hg Hf Hb Hrecv ltac:(lia) Ht Hnext)
    as (t1 & pkt1 & n' & -> & Hg' & (S1 & S2 & S3) & S4 & S5 & Ht1 & Htime).
  cbn [rbind send_hops final_dest]. rewrite (proj2 (Z.eqb_neq _ _)) by lia.
  set (m1 := with_node (Z.to_nat (core_at x y)) n' m).
  assert (Hm1 : good m1) by (apply with_node_good; [done|by apply core_at_range|done]).
  assert (Hfollow : exists t' pkt2 m2, @follow t (model root) fuel (mkHop r next t1) pkt1 m1 = Ok (mkHop r r t', pkt2, m2) /\
    good m2 /\ (m_queue_model_enabled c = false -> t' = u64 (p_time pkt + hops x y dx dy * L))).
  { destruct (decide (x = dx /\ y = dy)) as [[-> ->]|Hne].
    - rewrite (next_dest_arrived m n dx dy r (g_shaped m Hm) (gn_core _ _ Hg) Hx Hy Hr (Hpos m (g_shaped m Hm))) in Hnext.
      injection Hnext as <- <-. exists t1, pkt1, m1. split; [destruct fuel; cbn [follow next_dest final_dest]; by rewrite Z.eqb_refl|].
      split; [done|]. intros E. rewrite (Htime E). unfold hops. rewrite !steps_same by lia. cbn; f_equal; lia.
    - destruct (next_dest_closer m n x y r dx dy (g_shaped m Hm) (gn_core _ _ Hg) Hf Hx Hy Hr (Hpos m (g_shaped m Hm)) ltac:(lia))
        as (d' & x' & y' & Hnext' & Hl & Hx' & Hy' & Hh'). rewrite Hnext' in Hnext. injection Hnext as <- <-.
      pose proof (steps_nonneg (m_wrap_around c) w x' dx Hx' Hdx). pose proof (steps_nonneg (m_wrap_around c) h y' dy Hy' Hdy).
      destruct (follow_ok r dx dy fuel Hpos Hr m1 x' y' t1 pkt1 Hm1 Hx' Hy') as (t' & pkt2 & m2 & E & Hm2 & Htime');
        [by apply (on_behalf_same pkt)|done|unfold hops; lia|].
      exists t', pkt2, m2. split; [done|]. split; [done|]. intros Eq. rewrite (Htime' Eq), (Htime Eq), Hl, HL, Hh'.
      unfold u64, uwrap. rewrite Zplus_mod_idemp_l. f_equal. lia. }
  destruct Hfollow as (t' & pkt2 & m2 & -> & Hm2 & Htime2). cbn [rbind send_hops final_dest next_dest h_time].
  do 2 eexists. split; [reflexivity|]. split; [done|]. unfold same_packet. rewrite <- S1, <- S2, <- S3, Hrecv in *.
  split; [by destruct (_ =? p_sender pkt1)|by destruct (_ =? p_sender pkt1)].
Qed.

(** * Receiving *)
Lemma receive_ok m n core pkt : shaped m -> good_node core n -> on_behalf pkt ->
  exists pkt' n', receive_at root m n pkt = Ok (pkt', n') /\ good_node core n'.
Proof.
  intros Hm Hg (rq & Hrq & Hrt). unfold receive_at. pose proof Hm as []. rewrite sh_cfg0, Hrq. cbn [rbind].
  destruct (_ || _); [by exists pkt, n|].
  assert (Hport : forall t len, m_fake_node n = false -> exists d n', computeEjectionPortQueueDelay root m t len n = Ok (d, n') /\
    good_node core n').
  { intros t len Hf. unfold computeEjectionPortQueueDelay. destruct (processing_time m n len Hm Hf) as (p & Hp).
    unfold m_fake_node in Hf. destruct (m_ports n) as [ports|] eqn:Ep; [|done]. cbn [of_option rbind]. rewrite sh_cfg0.
    destruct (m_queue_model_enabled c) eqn:Eq; cbn [negb]; [|by exists 0, n]. rewrite Hp. cbn [rbind].
    destruct Hg. destruct (gn_ports0 ports Ep Eq) as (Hl & Hq & Hi & He).
    destruct (steady_delay t p _ He) as (d & q & -> & Hq'). cbn [rbind]. do 2 eexists. split; [reflexivity|].
    split; cbn; try done; [by unfold m_fake_node in gn_fake0; rewrite Ep in gn_fake0|]. intros ? [= <-] _. done. }
  assert (Hcount : forall n' a b x y, good_node core n' -> good_node core (mkNode (m_core_id n') (m_ports n') (m_enabled n')
    (m_total_bytes_sent n') (m_total_packets_sent n') a b x y)) by (intros n' a b x y []; by split).
  destruct (negb (p_sender pkt =? m_core_id n) && negb (m_fake_node n)) eqn:E.
  - zbool. destruct (processing_time m n (getModeledLength (total_cores c) pkt) Hm H0) as (p & ->). cbn [rbind].
    destruct (Hport (p_time pkt) (getModeledLength (total_cores c) pkt) H0) as (d & n' & -> & Hg'). cbn [rbind].
    do 2 eexists. split; [reflexivity|]. by apply Hcount.
  - cbn [rbind]. do 2 eexists. split; [reflexivity|]. by apply Hcount.
Qed.

(** * Broadcasts *)

(** The hops of a list of directions. *)
Lemma addHops_ok m core len rq l n : shaped m -> good_node core n -> m_fake_node n = false -> rq < total_cores c ->
  exists hs n', addHops root m l len rq n = Ok (hs, n') /\ good_node core n' /\
    map (fun e => (e.1.1.2, e.1.2)) l = map (fun e => (final_dest e, next_dest e)) hs.
Proof.
  intros Hm. revert n. induction l as [|[[[d f] next] tm] l IH]; intros n Hg Hf Hr; [by exists [], n|]. cbn [addHops].
  assert (Hhop : exists t' qd n', addHop root m d f next tm len rq n = Ok (mkHop f next t', qd, n') /\ good_node core n').
  { destruct (is_link d) eqn:Ed; [|exists tm, 0, n; by destruct d].
    destruct (latency_ok m n core d tm len rq Hm Hg Hf Ed Hr) as (lat & qd & n' & El & Hg' & _).
    exists (tadd tm lat), qd, n'. split; [|done]. destruct d; cbn in Ed; try done; cbn; by rewrite El. }
  destruct Hhop as (t' & qd & n1 & -> & Hg1). cbn [rbind].
  destruct (IH n1 Hg1) as (hs & n' & -> & Hg' & Hl); [by rewrite (gn_fake _ _ Hg1), <- (gn_fake _ _ Hg)|done|].
  cbn [rbind]. do 2 eexists. split; [reflexivity|]. split; [done|]. cbn. by rewrite Hl.
Qed.

(** In the tree every router passes a broadcast on, up or down. *)
Lemma broadcast_goes_on m x y sender tm : shaped m -> 0 <= x < w -> 0 <= y < h ->
  (forall f next, (f, next) ∈ map (fun e => (e.1.1.2, e.1.2)) (broadcast_hops m (core_at x y) sender tm) ->
    f = next /\ f = core_at x y \/ f = BROADCAST /\ exists x' y', next = core_at x' y' /\ 0 <= x' < w /\ 0 <= y' < h) /\
  exists next, (BROADCAST, next) ∈ map (fun e => (e.1.1.2, e.1.2)) (broadcast_hops m (core_at x y) sender tm).
Proof.
  intros Hm Hx Hy. unfold broadcast_hops. destruct (computePosition m sender) as [sx sy].
  rewrite position_core_at by done.
  assert (Hc : forall a b, -1 <= a <= w -> -1 <= b <= h -> exists x' y', computeCoreId m a b = core_at x' y' /\ 0 <= x' < w /\ 0 <= y' < h).
  { intros a b Ha Hb. destruct Hm. unfold computeCoreId. rewrite sh_cfg0, sh_width0, sh_height0. do 2 eexists. split; [done|].
    rewrite !rem_wrap by lia. destruct (Z.eqb_spec a (-1)), (Z.eqb_spec a w), (Z.eqb_spec b (-1)), (Z.eqb_spec b h); lia. }
  split.
  - intros f next Hin. rewrite !map_app in Hin.
    destruct (sy <=? y), (y <=? sy), (y =? sy), (sx <=? x), (x <=? sx), (x =? sx); cbn in Hin;
      repeat (apply elem_of_cons in Hin as [[= -> ->]|Hin];
        [first [by left | right; split; [done|]; apply Hc; lia]|]); by apply elem_of_nil in Hin.
  - destruct (Z.leb_spec sy y).
    + eexists. cbn. by left.
    + rewrite (proj2 (Z.leb_le y sy)) by lia. eexists. cbn. by left.
Qed.
End mesh.
