(* ===== verification/NetworkProps.v ===== *)
(** Theorems about the network: packets arrive, broadcasts in the tree do not end,
    and the memory controllers have places of their own. *)
From stdpp Require Import base numbers list sets strings.
From Stdlib Require Import ZArith Lia Bool.
From S2P Require Import Prelude Utils Timing QueueLemmas Network NetworkLemmas.
Open Scope Z_scope.
Import EMesh.

Lemma mapM_r_lookup {A B} (f : A -> result B) l l' i x : mapM_r f l = Ok l' -> l !! i = Some x ->
  exists y, f x = Ok y /\ l' !! i = Some y.
Proof.
  revert l' i. induction l as [|a l IH]; intros l' i; cbn [mapM_r]; [done|]. intros H. inv_ok.
  destruct i as [|i]; cbn; [intros [= ->]; by exists v|]. by apply IH.
Qed.

Lemma mapM_r_Ok {A B} (f : A -> result B) (g : A -> B) l : (forall x, x ∈ l -> f x = Ok (g x)) -> mapM_r f l = Ok (map g l).
Proof.
  induction l as [|a l IH]; intros H; [done|]. cbn [mapM_r map]. rewrite (H a) by (by left). cbn [rbind].
  rewrite IH by (intros; apply H; by right). done.
Qed.

(** * The mesh that is built *)

(** Queues that always answer, or none. *)
Definition simple_queues (c : Config) : Prop := m_queue_model_enabled c = true ->
  m_queue_model_type c = "contention" \/
  m_queue_model_type c = "basic" /\ moving_avg_enabled (m_queue_config c) = false.

Lemma create_steady c min q : simple_queues c -> m_queue_model_enabled c = true ->
  create_queue (m_queue_config c) (m_queue_model_type c) min = Ok q -> steady q.
Proof.
  intros Hq Hen. destruct (Hq Hen) as [-> | [-> Ha]]; unfold create_queue; cbn [String.eqb Ascii.eqb Bool.eqb].
  - intros [= <-]. done.
  - unfold QueueModelBasic.create. rewrite Ha. by intros [= <-].
Qed.

Lemma createQueueModels_ok c core p : simple_queues c -> createQueueModels c core = Ok p -> ports_ok c p.
Proof.
  intros Hq H Hen. unfold createQueueModels in H. inv_ok. cbn.
  split; [done|]. split; [repeat constructor|split]; by eapply create_steady.
Qed.

Lemma new_mesh_good c m : new_mesh c = Ok m -> 0 < m_concentration c -> 0 < m_mesh_width m -> 0 < m_mesh_height m ->
  simple_queues c ->
  total_cores c = m_concentration c * m_mesh_height m * m_mesh_width m /\
  cfg m = c /\ good c (m_mesh_width m) (m_mesh_height m) (enable m).
Proof.
  unfold new_mesh. intros H Hc Hw Hh Hq. apply rbind_Ok_inv in H as ([w h] & Hdim & H). inv_ok. cbn in *.
  assert (Ht : total_cores c = m_concentration c * h * w).
  { unfold computeMeshDimensions in Hdim. apply rbind_Ok_inv in Hdim as ([w' h'] & _ & H). inv_ok. zbool. lia. }
  split; [done|]. split; [done|]. split; [done|]. intros core Hcore.
  assert (Hl : all_cores (total_cores c) !! Z.to_nat core = Some core).
  { unfold all_cores. apply lookup_seqZ. lia. }
  destruct (mapM_r_lookup _ _ _ _ _ Hv Hl) as (n & Hn & Hlook).
  unfold node_at, enable, aget. cbn. rewrite (proj2 (Z.leb_le 0 core)), list_lookup_fmap, Hlook by lia. cbn.
  eexists. split; [reflexivity|]. unfold new_node in Hn. inv_ok. cbn.
  rewrite (proj2 (Z.leb_gt _ core)), orb_false_r in Hv1 by lia.
  destruct (Z.rem core (m_concentration c) =? 0) eqn:E; cbn [negb] in Hv1; inv_ok.
  - split; cbn; try done; [by rewrite E|]. intros p [= <-]. by eapply createQueueModels_ok.
  - split; cbn; try done. by rewrite E.
Qed.

(** * Packets to one core *)

(** The hops from one core to another, beyond those of [computeDistance]. *)
Definition detours (m : t) (s r : Z) : Z :=
  let '(sx, sy) := computePosition m s in
  let '(dx, dy) := computePosition m r in
  detour (m_wrap_around (cfg m)) (m_mesh_width m) sx dx + detour (m_wrap_around (cfg m)) (m_mesh_height m) sy dy.

Lemma hops_distance c m s r sx sy dx dy : cfg m = c -> computePosition m s = (sx, sy) -> computePosition m r = (dx, dy) ->
  0 <= sx < m_mesh_width m -> 0 <= dx < m_mesh_width m -> 0 <= sy < m_mesh_height m -> 0 <= dy < m_mesh_height m ->
  hops c (m_mesh_width m) (m_mesh_height m) sx sy dx dy = computeDistance m s r + detours m s r.
Proof.
  intros <- Hs Hr Hsx Hdx Hsy Hdy. unfold hops, computeDistance, detours. rewrite Hs, Hr, !steps_distance by done.
  destruct (m_wrap_around (cfg m)); lia.
Qed.

(** Packets are sent one after the other, and each that comes out of the
    transport is taken in by the core it comes out at. *)
Section exchange.
Variables (root : Z -> Z -> Z) (cores : Z) (fuel : nat).

(** What each packet of the transport led to: forwarded packets, and the packet
    if it was for the core. *)
Fixpoint take_in (sent : list (Z * NetPacket)) (m : t) : result (list (list (Z * NetPacket) * option NetPacket) * t) :=
  match sent with
  | [] => Ok ([], m)
  | (d, p) :: sent' =>
      let! (forwarded, got, m) := @netPullFromTransport t (model root) fuel cores d p m in
      let! (rest, m) := take_in sent' m in
      Ok ((forwarded, got) :: rest, m)
  end.

Fixpoint exchange (l : list (Z * NetPacket)) (m : t)
  : result (list (list (Z * NetPacket) * list (list (Z * NetPacket) * option NetPacket)) * t) :=
  match l with
  | [] => Ok ([], m)
  | (s, pkt) :: l' =>
      let! (sent, m) := @netSend t (model root) fuel s pkt m in
      let! (got, m) := take_in sent m in
      let! (rest, m) := exchange l' m in
      Ok ((sent, got) :: rest, m)
  end.
End exchange.

(** A packet for one core, on behalf of a core. *)
Record sendable (c : Config) (e : Z * NetPacket) : Prop := mkSendable {
  sd_core : 0 <= e.1 < total_cores c;
  sd_sender : 0 <= p_sender e.2 < total_cores c;
  sd_receiver : 0 <= p_receiver e.2 < total_cores c;
  sd_requester : is_ok (requester_of (total_cores c) e.2);
  sd_time : 0 <= p_time e.2 < 2 ^ 64
}.

(** One packet comes out of the transport, at its receiver, which takes it in.
    Only the master core of a node has a router. *)
Definition arrives (c : Config) (m : t) (latency : Z) (e : Z * NetPacket)
    (o : list (Z * NetPacket) * list (list (Z * NetPacket) * option NetPacket)) : Prop :=
  exists pkt' pkt'', o = ([(p_receiver e.2, pkt')], [([], Some pkt'')]) /\
    same_packet e.2 pkt' /\ same_packet e.2 pkt'' /\
    (m_queue_model_enabled c = false ->
     p_time pkt' = if Z.rem e.1 (m_concentration c) =? 0
       then u64 (p_time e.2 + (computeDistance m e.1 (p_receiver e.2) + detours m e.1 (p_receiver e.2)) * latency)
       else p_time e.2).

Lemma same_packet_trans p1 p2 p3 : same_packet p1 p2 -> same_packet p2 p3 -> same_packet p1 p3.
Proof. intros (? & ? & ?) (? & ? & ?). unfold same_packet. split_and!; congruence. Qed.

Lemma receive_same root m n pkt pkt' n' : receive_at root m n pkt = Ok (pkt', n') -> same_packet pkt pkt'.
Proof.
  unfold receive_at. intros H. apply rbind_Ok_inv in H as (rq & _ & H).
  destruct (_ || _); [apply Ok_inj in H; by simplify_eq|].
  apply rbind_Ok_inv in H as ([[[pl cd] pkt1] n1] & Hp & H). apply Ok_inj in H. simplify_eq.
  destruct (_ && _); [|apply Ok_inj in Hp; by simplify_eq].
  apply rbind_Ok_inv in Hp as (p & _ & Hp). apply rbind_Ok_inv in Hp as ([d n2] & _ & Hp).
  apply Ok_inj in Hp. by simplify_eq.
Qed.

Section arrival.
Variable root : Z -> Z -> Z.
Context (c : Config) (m0 : t) (latency : Z).
Hypotheses (Hconc : 0 < m_concentration c) (Hcfg : cfg m0 = c)
  (Htotal : total_cores c = m_concentration c * m_mesh_height m0 * m_mesh_width m0)
  (Hw : 0 < m_mesh_width m0) (Hh : 0 < m_mesh_height m0) (Hbw : m_link_bandwidth c <> 0)
  (HL : forall core, tmul (m_period c core) (m_hop_latency c) = latency).

Notation ok_mesh := (good c (m_mesh_width m0) (m_mesh_height m0)).

Lemma sendable_on_behalf e : sendable c e -> on_behalf c e.2.
Proof. intros []. destruct sd_requester0 as [rq Hrq]. exists rq. split; [done|]. unfold requester_of in Hrq. inv_ok. zbool. lia. Qed.

(** The master core of a node. *)
Lemma master_sends fuel e m : ok_mesh m -> sendable c e -> Z.rem e.1 (m_concentration c) = 0 ->
  m_mesh_width m0 + m_mesh_height m0 <= Z.of_nat fuel ->
  exists pkt' m', @netSend t (model root) fuel e.1 e.2 m = Ok ([(p_receiver e.2, pkt')], m') /\ ok_mesh m' /\
    same_packet e.2 pkt' /\
    (m_queue_model_enabled c = false ->
     p_time pkt' = u64 (p_time e.2 + (computeDistance m0 e.1 (p_receiver e.2) + detours m0 e.1 (p_receiver e.2)) * latency)).
Proof.
  destruct e as [s pkt]. intros Hm He Hrem Hfuel. pose proof He as [Hs _ Hr _ Ht]. cbn [fst snd] in *.
  set (w := m_mesh_width m0) in *. set (h := m_mesh_height m0) in *.
  assert (Hsh : shaped c w h m0) by (by split).
  pose proof (position_range c w h Hconc Hw Htotal m0 s Hsh Hs) as Ps.
  pose proof (position_range c w h Hconc Hw Htotal m0 (p_receiver pkt) Hsh Hr) as Pr.
  destruct (computePosition m0 s) as [x y] eqn:Es. destruct (computePosition m0 (p_receiver pkt)) as [dx dy] eqn:Er.
  destruct Ps as (Hx & Hy & Hxy). destruct Pr as (Hdx & Hdy & _).
  assert (Hcore : s = core_at c w x y).
  { unfold core_at. rewrite <- Hxy. pose proof (Z.quot_rem' s (m_concentration c)). lia. }
  assert (Hpos : forall m', shaped c w h m' -> computePosition m' (p_receiver pkt) = (dx, dy)).
  { intros m' []. rewrite <- Er. unfold computePosition. by rewrite sh_cfg, sh_width, Hcfg. }
  destruct (netSend_ok root c w h Hconc Hw Hh Htotal Hbw latency HL m x y (p_receiver pkt) dx dy fuel pkt Hpos Hr
    Hm Hx Hy (sendable_on_behalf _ He)) as (pkt' & m' & E & Hm' & Hsame & Htime); [done..|].
  rewrite <- Hcore in E. exists pkt', m'. do 3 (split; [done|]). intros Eq. rewrite (Htime Eq).
  by rewrite <- (hops_distance c m0 s (p_receiver pkt) x y dx dy).
Qed.

(** The other cores of a node reach every core without the network. *)
Lemma other_core_sends fuel e m : ok_mesh m -> sendable c e -> Z.rem e.1 (m_concentration c) <> 0 ->
  exists pkt' m', @netSend t (model root) fuel e.1 e.2 m = Ok ([(p_receiver e.2, pkt')], m') /\ ok_mesh m' /\
    same_packet e.2 pkt' /\ p_time pkt' = p_time e.2.
Proof.
  destruct e as [s pkt]. intros Hm [Hs _ Hr [rq Hrq] _] Hrem. cbn [fst snd] in *.
  destruct (g_nodes _ _ _ m Hm s Hs) as (n & Hn & Hg). assert (HB : BROADCAST < 0) by reflexivity.
  assert (Hf : m_fake_node n = true) by (rewrite (gn_fake _ _ _ Hg), (proj2 (Z.eqb_neq _ _)); done).
  unfold netSend. cbn [routePacket model]. rewrite Hn. cbn [rbind]. unfold route_at.
  pose proof (g_shaped _ _ _ m Hm) as []. rewrite sh_cfg, Hrq. cbn [rbind]. rewrite (proj2 (Z.eqb_neq _ BROADCAST)) by lia.
  destruct (count_sent_good c s (getModeledLength (total_cores c) pkt) pkt n Hg) as [Hg1 Hf1]. rewrite Hf1, Hf. cbn [rbind].
  assert (E : forall h p m1, @follow t (model root) fuel (mkHop h h (p_time pkt)) p m1 = Ok (mkHop h h (p_time pkt), p, m1))
    by (intros; destruct fuel; cbn [follow next_dest final_dest]; by rewrite Z.eqb_refl).
  cbn [addHop rbind send_hops final_dest next_dest h_time]. rewrite (proj2 (Z.eqb_neq _ BROADCAST)) by lia. rewrite E. cbn [rbind final_dest next_dest h_time].
  do 2 eexists. split; [reflexivity|]. split; [by apply with_node_good|].
  by destruct (_ =? _).
Qed.

Lemma packet_arrives fuel e m : ok_mesh m -> sendable c e -> m_mesh_width m0 + m_mesh_height m0 <= Z.of_nat fuel ->
  exists sent m1 got m2, @netSend t (model root) fuel e.1 e.2 m = Ok (sent, m1) /\
    take_in root (total_cores c) fuel sent m1 = Ok (got, m2) /\ ok_mesh m2 /\ arrives c m0 latency e (sent, got).
Proof.
  intros Hm He Hfuel.
  assert (exists pkt' m1, @netSend t (model root) fuel e.1 e.2 m = Ok ([(p_receiver e.2, pkt')], m1) /\ ok_mesh m1 /\
    same_packet e.2 pkt' /\ (m_queue_model_enabled c = false ->
     p_time pkt' = if Z.rem e.1 (m_concentration c) =? 0
       then u64 (p_time e.2 + (computeDistance m0 e.1 (p_receiver e.2) + detours m0 e.1 (p_receiver e.2)) * latency)
       else p_time e.2)) as (pkt' & m1 & E & Hm1 & Hsame & Htime).
  { destruct (Z.eqb_spec (Z.rem e.1 (m_concentration c)) 0); [by apply master_sends|].
    destruct (other_core_sends fuel e m) as (pkt' & m1 & ? & ? & ? & ?); [done..|]. by exists pkt', m1. }
  pose proof Hsame as (Hsm & Hsd & Hrc). pose proof He as [_ Hps Hr _ _].
  destruct (g_nodes _ _ _ m1 Hm1 _ Hr) as (n & Hn & Hg).
  destruct (receive_ok root c (m_mesh_width m0) (m_mesh_height m0) Hbw m1 n _ pkt' (g_shaped _ _ _ m1 Hm1) Hg) as (pkt'' & n' & Erec & Hg');
    [by eapply on_behalf_same, sendable_on_behalf|].
  exists [(p_receiver e.2, pkt')], m1, [([], Some pkt'')], (with_node (Z.to_nat (p_receiver e.2)) n' m1). split; [done|].
  split; [|split; [by apply with_node_good|]].
  - cbn [take_in]. unfold netPullFromTransport. rewrite Hsd, Hrc, (proj2 (Z.leb_le _ _)), (proj2 (Z.ltb_lt _ _)), Z.eqb_refl by lia.
    cbn [andb negb rguard rbind processReceivedPacket model]. rewrite Hn. cbn [rbind]. rewrite Erec. cbn [rbind]. done.
  - exists pkt', pkt''. split; [done|]. split; [done|]. split; [|done].
    by eapply same_packet_trans, receive_same.
Qed.

Lemma exchange_arrives fuel l m : ok_mesh m -> Forall (sendable c) l ->
  m_mesh_width m0 + m_mesh_height m0 <= Z.of_nat fuel ->
  exists out m', exchange root (total_cores c) fuel l m = Ok (out, m') /\ Forall2 (arrives c m0 latency) l out.
Proof.
  intros Hm Hl Hfuel. revert m Hm. induction Hl as [|[s pkt] l He Hl IH]; intros m Hm; cbn [exchange]; [by exists [], m|].
  destruct (packet_arrives fuel (s, pkt) m Hm He Hfuel) as (sent & m1 & got & m2 & E1 & E2 & Hm2 & Har). cbn [fst snd] in E1.
  rewrite E1. cbn [rbind]. rewrite E2. cbn [rbind]. destruct (IH m2 Hm2) as (out & m' & -> & Hout). cbn [rbind].
  do 2 eexists. split; [reflexivity|]. by constructor.
Qed.
End arrival.

(** C18: packets arrive: on a mesh or torus that has just been built, without
    queue models or with the models "contention" or "basic" without a moving
    average, and with links of some bandwidth and one hop latency, any sequence of
    packets from any cores to any cores, each on behalf of a core, is delivered:
    every packet comes out of the transport once, at its receiver, which takes it
    in whole, and nothing is forwarded.  Without queue models the time on the way
    is that of the hops of the distance and, in a ring of odd size, one more for
    the cores just beyond half way; a core that is not the master of its node
    reaches every core at no cost. *)
Theorem mesh_packets_arrive root c m l fuel latency : new_mesh c = Ok m -> 0 < m_concentration c ->
  0 < m_mesh_width m -> 0 < m_mesh_height m -> m_link_bandwidth c <> 0 -> simple_queues c ->
  (forall core, tmul (m_period c core) (m_hop_latency c) = latency) ->
  m_mesh_width m + m_mesh_height m <= Z.of_nat fuel -> Forall (sendable c) l ->
  exists out m', exchange root (total_cores c) fuel l (enable m) = Ok (out, m') /\ Forall2 (arrives c m latency) l out.
Proof.
  intros Hm Hc Hw Hh Hbw Hq HL Hfuel Hl.
  destruct (new_mesh_good c m Hm Hc Hw Hh Hq) as (Htot & Hcfg & Hgood).
  by apply exchange_arrives.
Qed.

(** A torus of 3 by 5 nodes of two cores, in which core 0 sends to core 21. *)
Definition demo_mesh_config : Config :=
  mkConfig 30 2 2 (Some (3, 5)) true 64 2 (fun _ => 1000) false "contention" (mkQueueConfig false 0 "median" true 100) true.
Definition demo_packet (receiver : Z) : NetPacket := mkPacket 0 5000 0 (Some (0, 72)) 0 receiver 80.

Definition demo_mesh : t := match new_mesh demo_mesh_config with Ok m => m | Err _ => mk demo_mesh_config 0 0 [] end.

Lemma demo_mesh_built : new_mesh demo_mesh_config = Ok demo_mesh.
Proof. reflexivity. Qed.

(** Core 0 sends to core 21, core 21 answers, and core 3, which has no router,
    sends to itself. *)
Definition demo_packets : list (Z * NetPacket) :=
  [(0, demo_packet 21); (21, mkPacket 0 9000 0 (Some (0, 72)) 21 0 80); (3, mkPacket 0 9500 0 (Some (0, 72)) 3 3 80)].

Lemma demo_packets_sendable : Forall (sendable demo_mesh_config) demo_packets.
Proof. repeat constructor; cbn; first [lia | by eexists]. Qed.

Lemma mesh_packets_arrive_witness : computeDistance demo_mesh 0 21 = 3 /\ detours demo_mesh 0 21 = 1 /\
  exists out m', exchange (fun _ _ => 0) (total_cores demo_mesh_config) 8 demo_packets (enable demo_mesh) = Ok (out, m') /\
    Forall2 (arrives demo_mesh_config demo_mesh 2000) demo_packets out.
Proof.
  split; [reflexivity|]. split; [reflexivity|].
  apply (mesh_packets_arrive (fun _ _ => 0) demo_mesh_config demo_mesh demo_packets 8 2000 demo_mesh_built);
    first [exact demo_packets_sendable | cbn; lia | done | vm_compute; discriminate].
Defined.

(** * Broadcasts in the tree *)
Section broadcast.
Variable root : Z -> Z -> Z.
Context (c : Config) (w h : Z).
Hypotheses (Hconc : 0 < m_concentration c) (Hw : 0 < w) (Hh : 0 < h)
  (Htotal : total_cores c = m_concentration c * h * w) (Hbw : m_link_bandwidth c <> 0)
  (Htree : m_broadcast_tree_enabled c = true).

(** Packets in flight are delivered in order, and what is forwarded is sent after
    the others. *)
Fixpoint deliver (k fuel : nat) (flight : list (Z * NetPacket)) (m : t) : result (list (Z * NetPacket) * t) :=
  match k, flight with
  | O, _ => Ok (flight, m)
  | S k', [] => Ok ([], m)
  | S k', (d, p) :: flight' =>
      let! (sent, _, m) := @netPullFromTransport t (model root) fuel (total_cores c) d p m in
      deliver k' fuel (flight' ++ sent) m
  end.

(** A packet on its way to a node: a broadcast, or one for the core there. *)
Definition flying (f : Z * NetPacket) : Prop :=
  (exists x y, f.1 = core_at c w x y /\ 0 <= x < w /\ 0 <= y < h) /\ 0 <= p_sender f.2 < total_cores c /\
  on_behalf c f.2 /\ (p_receiver f.2 = BROADCAST \/ p_receiver f.2 = f.1).

Lemma BROADCAST_neg : BROADCAST < 0.
Proof. reflexivity. Qed.

(** Hops that need no routers in between. *)
Lemma send_hops_direct fuel me start hs buffer packet m :
  (forall hp, hp ∈ hs -> final_dest hp = BROADCAST \/ next_dest hp = final_dest hp) ->
  exists sent, @send_hops t (model root) fuel me start hs buffer packet m = Ok (sent, m) /\
    map (fun f => (p_receiver f.2, f.1)) sent = map (fun hp => (final_dest hp, next_dest hp)) hs /\
    (forall f, f ∈ sent -> p_sender f.2 = p_sender buffer /\ p_shmem f.2 = p_shmem buffer).
Proof.
  revert buffer. induction hs as [|[f n tm] hs IH]; intros buffer Hd; cbn [send_hops final_dest next_dest h_time].
  { exists []. split; [done|]. split; [done|]. intros f Hf. by apply elem_of_nil in Hf. }
  assert (E : (if f =? BROADCAST then Ok (mkHop f n tm, packet, m) else @follow t (model root) fuel (mkHop f n tm) packet m) =
    Ok (mkHop f n tm, packet, m)).
  { destruct (Z.eqb_spec f BROADCAST); [done|]. destruct (Hd (mkHop f n tm) ltac:(by left)) as [|En]; [done|]. cbn in En.
    destruct fuel; cbn [follow next_dest final_dest]; by rewrite En, Z.eqb_refl. }
  rewrite E. cbn [rbind final_dest next_dest h_time].
  set (b := with_receiver f (with_time tm (if me =? p_sender buffer then with_start_time start buffer else buffer))).
  assert (Hb : p_sender b = p_sender buffer /\ p_shmem b = p_shmem buffer) by (subst b; by destruct (me =? p_sender buffer)).
  destruct (IH b) as (sent & -> & Hl & Hs); [intros; apply Hd; by right|].
  cbn [rbind]. eexists. split; [reflexivity|]. split; [cbn; by rewrite Hl|].
  intros g [->|Hg]%elem_of_cons; [done|]. destruct (Hs g Hg). by destruct Hb as [<- <-].
Qed.

(** A router forwards a broadcast. *)
Lemma broadcast_sent fuel m x y pkt : good c w h m -> 0 <= x < w -> 0 <= y < h -> p_receiver pkt = BROADCAST ->
  0 <= p_sender pkt < total_cores c -> on_behalf c pkt ->
  exists sent m', @netSend t (model root) fuel (core_at c w x y) pkt m = Ok (sent, m') /\ good c w h m' /\
    Forall flying sent /\ exists f, f ∈ sent /\ p_receiver f.2 = BROADCAST.
Proof.
  intros Hm Hx Hy Hrecv Hsend Hb. pose proof (core_at_range c w h Hconc Hw Hh Htotal x y Hx Hy) as Hrange.
  destruct (g_nodes _ _ _ m Hm _ Hrange) as (n & Hn & Hg).
  assert (Hf : m_fake_node n = false) by (rewrite (gn_fake _ _ _ Hg), (core_at_rem c w h) by done; done).
  pose proof (g_shaped _ _ _ m Hm) as Hsh. pose proof Hsh as []. pose proof Hb as (rq & Hrq & Hrt).
  unfold netSend. cbn [routePacket model]. rewrite Hn. cbn [rbind]. unfold route_at. rewrite sh_cfg, Hrq. cbn [rbind].
  set (len := getModeledLength (total_cores c) pkt). rewrite Hrecv, Z.eqb_refl.
  destruct (count_sent_good c _ len pkt n Hg) as [Hg1 Hf1]. rewrite Hf in Hf1. set (n1 := count_sent len pkt n) in *.
  rewrite Hf1, Htree.
  assert (Hinj : exists i n2, (if p_sender pkt =? m_core_id n1 then
      computeInjectionPortQueueDelay root m BROADCAST (p_time pkt) len n1 else Ok (0, n1)) = Ok (i, n2) /\
      good_node c (core_at c w x y) n2 /\ m_fake_node n2 = false).
  { destruct (_ =? _); [|by exists 0, n1].
    destruct (injection_ok root c w h Hbw m n1 _ BROADCAST (p_time pkt) len Hsh Hg1 Hf1) as (i & n2 & E & G & F & _).
    by exists i, n2. }
  destruct Hinj as (i & n2 & -> & Hg2 & Hf2). cbn [rbind]. rewrite (gn_core _ _ _ Hg2).
  set (l := broadcast_hops m (core_at c w x y) (p_sender pkt) (tadd (p_time pkt) i)).
  destruct (addHops_ok root c w h Hw Hh Htotal Hbw m _ len rq l n2 Hsh Hg2 Hf2 Hrt) as (hs & n3 & -> & Hg3 & Hl). cbn [rbind].
  destruct (broadcast_goes_on c w h Hconc Hw Hh m x y (p_sender pkt) (tadd (p_time pkt) i) Hsh Hx Hy) as [Hall (next & Hone)].
  fold l in Hall, Hone. rewrite Hl in Hall, Hone.
  destruct (send_hops_direct fuel (core_at c w x y) (p_time pkt) hs pkt pkt (with_node (Z.to_nat (core_at c w x y)) n3 m))
    as (sent & -> & Hsl & Hss).
  { intros [f nx tm] Hin. cbn. destruct (Hall f nx) as [[-> _]|[-> _]]; [|by right|by left].
    apply list_elem_of_fmap. by eexists (mkHop f nx tm). }
  eexists _, _. split; [reflexivity|]. split; [by apply with_node_good|].
  rewrite <- Hsl in Hall, Hone. split.
  - apply Forall_forall. intros [d p] Hin. destruct (Hss _ Hin) as [E1 E2]. cbn in E1, E2.
    assert (Hin' : (p_receiver p, d) ∈ map (fun f => (p_receiver f.2, f.1)) sent) by (apply list_elem_of_fmap; by exists (d, p)).
    split; [|split; [cbn; lia|split; [by apply (on_behalf_same c pkt)|]]].
    + destruct (Hall _ _ Hin') as [[<- ->]|[_ (x' & y' & -> & ?)]]; [by exists x, y|by exists x', y'].
    + destruct (Hall _ _ Hin') as [[E _]|[E _]]; [right|left]; done.
  - apply list_elem_of_fmap in Hone as ([d p] & [= E1 E2] & Hin). by exists (d, p).
Qed.

(** Delivering a packet. *)
Lemma pull_ok fuel m f : good c w h m -> flying f ->
  exists sent o m', @netPullFromTransport t (model root) fuel (total_cores c) f.1 f.2 m = Ok (sent, o, m') /\
    good c w h m' /\ Forall flying sent /\ (p_receiver f.2 = BROADCAST -> exists g, g ∈ sent /\ p_receiver g.2 = BROADCAST).
Proof.
  destruct f as [d pkt]. intros Hm ((x & y & -> & Hx & Hy) & Hs & Hb & Hr). cbn [fst snd] in *.
  pose proof (core_at_range c w h Hconc Hw Hh Htotal x y Hx Hy) as Hrange. pose proof BROADCAST_neg as HB.
  unfold netPullFromTransport. rewrite (proj2 (Z.leb_le _ _)), (proj2 (Z.ltb_lt _ _)) by lia. cbn [andb rguard rbind].
  assert (Hsent : exists sent m', (if p_receiver pkt =? core_at c w x y then Ok ([], m)
      else @netSend t (model root) fuel (core_at c w x y) pkt m) = Ok (sent, m') /\ good c w h m' /\ Forall flying sent /\
      (p_receiver pkt = BROADCAST -> exists g, g ∈ sent /\ p_receiver g.2 = BROADCAST)).
  { destruct (Z.eqb_spec (p_receiver pkt) (core_at c w x y)) as [E|E].
    - exists [], m. split; [done|]. split; [done|]. split; [constructor|]. lia.
    - destruct Hr as [Hr|Hr]; [|done]. destruct (broadcast_sent fuel m x y pkt Hm Hx Hy Hr Hs Hb) as (sent & m' & -> & ? & ? & ?).
      by exists sent, m'. }
  destruct Hsent as (sent & m1 & -> & Hm1 & Hfl & Hgo). cbn [rbind].
  assert (Hout : negb (p_receiver pkt =? core_at c w x y) && negb (p_receiver pkt =? BROADCAST) = false).
  { destruct Hr as [-> | ->]; rewrite Z.eqb_refl; [by rewrite andb_false_r|done]. }
  rewrite Hout. cbn [processReceivedPacket model].
  destruct (g_nodes _ _ _ m1 Hm1 _ Hrange) as (n & -> & Hg). cbn [rbind].
  destruct (receive_ok root c w h Hbw m1 n _ pkt (g_shaped _ _ _ m1 Hm1) Hg Hb) as (pkt' & n' & -> & Hg'). cbn [rbind].
  do 3 eexists. split; [reflexivity|]. split; [by apply with_node_good|done].
Qed.

Lemma deliver_ok k fuel flight m : good c w h m -> Forall flying flight ->
  (exists f, f ∈ flight /\ p_receiver f.2 = BROADCAST) ->
  exists flight' m', deliver k fuel flight m = Ok (flight', m') /\ exists f, f ∈ flight' /\ p_receiver f.2 = BROADCAST.
Proof.
  revert flight m. induction k as [|k IH]; intros flight m Hm Hfl Hex; [by exists flight, m|]. cbn [deliver].
  destruct flight as [|[d p] flight]; [destruct Hex as (? & Hf & _); by apply elem_of_nil in Hf|].
  apply Forall_cons in Hfl as [Hf Hfl].
  destruct (pull_ok fuel m (d, p) Hm Hf) as (sent & o & m1 & E & Hm1 & Hs & Hgo). cbn [fst snd] in *. rewrite E. cbn [rbind].
  apply IH; [done|by apply Forall_app|]. destruct Hex as (f & [->|Hin]%elem_of_cons & Hr).
  - destruct (Hgo Hr) as (g & ? & ?). exists g. split; [apply elem_of_app; by right|done].
  - exists f. split; [apply elem_of_app; by left|done].
Qed.
End broadcast.

(** C39: endless broadcasts: with the broadcast tree, whatever the size of the mesh,
    a broadcast is forwarded for ever: after any number of deliveries copies of it
    are still in flight. *)
Theorem broadcast_tree_never_ends root c m s pkt fuel k : new_mesh c = Ok m -> 0 < m_concentration c ->
  0 < m_mesh_width m -> 0 < m_mesh_height m -> m_link_bandwidth c <> 0 -> simple_queues c ->
  m_broadcast_tree_enabled c = true -> 0 <= s < total_cores c -> Z.rem s (m_concentration c) = 0 ->
  p_receiver pkt = BROADCAST -> p_sender pkt = s -> is_ok (requester_of (total_cores c) pkt) ->
  exists flight m1 flight' m2, @netSend t (model root) fuel s pkt (enable m) = Ok (flight, m1) /\
    deliver root c k fuel flight m1 = Ok (flight', m2) /\ exists f, f ∈ flight' /\ p_receiver f.2 = BROADCAST.
Proof.
  intros Hm Hc Hw Hh Hbw Hq Htree Hs Hrem Hr Hsend [rq Hrq].
  destruct (new_mesh_good c m Hm Hc Hw Hh Hq) as (Htot & Hcfg & Hgood).
  set (w := m_mesh_width m) in *. set (h := m_mesh_height m) in *.
  assert (Hsh : shaped c w h m) by (by split).
  pose proof (position_range c w h Hc Hw Htot m s Hsh Hs) as Ps. destruct (computePosition m s) as [x y].
  destruct Ps as (Hx & Hy & Hxy).
  assert (Hcore : s = core_at c w x y).
  { unfold core_at. rewrite <- Hxy. pose proof (Z.quot_rem' s (m_concentration c)). lia. }
  assert (Hb : on_behalf c pkt).
  { exists rq. split; [done|]. unfold requester_of in Hrq. inv_ok. zbool. lia. }
  destruct (broadcast_sent root c w h Hc Hw Hh Htot Hbw Htree fuel (enable m) x y pkt Hgood Hx Hy Hr ltac:(lia) Hb)
    as (flight & m1 & E & Hm1 & Hfl & Hex). rewrite <- Hcore in E.
  destruct (deliver_ok root c w h Hc Hw Hh Htot Hbw Htree k fuel flight m1 Hm1 Hfl Hex) as (flight' & m2 & E2 & Hex2).
  by exists flight, m1, flight', m2.
Qed.

Lemma broadcast_tree_never_ends_witness :
  exists flight m1 flight' m2,
    @netSend t (model (fun _ _ => 0)) 8 0 (demo_packet BROADCAST) (enable demo_mesh) = Ok (flight, m1) /\
    deliver (fun _ _ => 0) demo_mesh_config 100 8 flight m1 = Ok (flight', m2) /\
    exists f, f ∈ flight' /\ p_receiver f.2 = BROADCAST.
Proof.
  apply (broadcast_tree_never_ends (fun _ _ => 0) demo_mesh_config demo_mesh 0 (demo_packet BROADCAST) 8 100 demo_mesh_built);
    try reflexivity; first [cbn; lia | by eexists | done | vm_compute; discriminate].
Defined.

(** * Cores that share a node *)

(** A core that is not the master of its node sends to any core at no cost: its
    packets do not enter the network. *)
Lemma shared_node_sends_for_free root m n pkt : m_fake_node n = true -> p_receiver pkt <> BROADCAST ->
  is_ok (requester_of (total_cores (cfg m)) pkt) ->
  exists n', route_at root m n pkt = Ok ([mkHop (p_receiver pkt) (p_receiver pkt) (p_time pkt)], pkt, n').
Proof.
  intros Hf Hr [rq Hrq]. unfold route_at. rewrite Hrq. cbn [rbind]. rewrite (proj2 (Z.eqb_neq _ _)) by done.
  assert (E : m_fake_node (count_sent (getModeledLength (total_cores (cfg m)) pkt) pkt n) = true)
    by (unfold count_sent; by destruct (_ =? _)).
  rewrite E. cbn. by eexists.
Qed.

(** * Memory controllers *)
Section controllers.
Context (c : Config) (w h : Z).
Hypotheses (Hw : 1 < w) (Hh : 0 < h).

(** The nodes on the border, by position. *)
Lemma decompose x y x' y' : 0 <= x < w -> 0 <= x' < w -> y * w + x = y' * w + x' -> x = x' /\ y = y'.
Proof. intros Hx Hx' E. assert (y = y') by (destruct (Z.lt_trichotomy y y') as [|[|]]; nia). subst. lia. Qed.

Lemma perimeter_spec k : k ∈ core_id_list_along_perimeter c w h -> 0 <= k < h * w.
Proof.
  unfold core_id_list_along_perimeter. intros [Hk|Hk]%elem_of_app; [apply elem_of_seqZ in Hk; nia|].
  destruct (1 <? m_dimensions c), (Z.ltb_spec 1 h); cbn [andb] in Hk; try (by apply elem_of_nil in Hk).
  apply elem_of_app in Hk as [Hk|Hk]; [|apply elem_of_app in Hk as [Hk|Hk]];
    apply list_elem_of_fmap in Hk as (i & -> & Hi); rewrite ?elem_of_reverse in Hi; apply elem_of_seqZ in Hi; nia.
Qed.

Lemma perimeter_length : length (core_id_list_along_perimeter c w h) =
  Z.to_nat (if (1 <? m_dimensions c) && (1 <? h) then 2 * (w + h - 2) else w).
Proof.
  unfold core_id_list_along_perimeter. rewrite length_app, length_seqZ.
  destruct (1 <? m_dimensions c), (Z.ltb_spec 1 h); cbn [andb length]; try lia.
  rewrite !length_app, !length_map, !length_reverse, !length_seqZ. lia.
Qed.

Lemma NoDup_map_seqZ (f : Z -> Z) a n : (forall i j, a <= i < a + n -> a <= j < a + n -> f i = f j -> i = j) -> NoDup (map f (seqZ a n)).
Proof.
  intros Hf. apply NoDup_alt. intros i j x Hi Hj.
  apply list_lookup_fmap_Some in Hi as (u & Eu & Hu). apply list_lookup_fmap_Some in Hj as (v & Ev & Hv).
  apply lookup_seqZ in Hu as [-> ?]. apply lookup_seqZ in Hv as [-> ?].
  assert (a + Z.of_nat i = a + Z.of_nat j) by (apply Hf; [lia|lia|congruence]). lia.
Qed.

Lemma map_reverse {A B} (f : A -> B) l : map f (reverse l) = reverse (map f l).
Proof. exact (fmap_reverse f l). Qed.

Lemma perimeter_NoDup : NoDup (core_id_list_along_perimeter c w h).
Proof.
  unfold core_id_list_along_perimeter. apply NoDup_app. split; [apply NoDup_seqZ|].
  destruct (1 <? m_dimensions c), (Z.ltb_spec 1 h); cbn [andb]; try (split; [|constructor]; intros ? _ H0; by apply elem_of_nil in H0).
  rewrite !map_reverse. split; [|apply NoDup_app; split; [|split; [|apply NoDup_app; split; [|split]]]].
  - intros x Hx Hin. apply elem_of_seqZ in Hx.
    apply elem_of_app in Hin as [Hin|Hin]; [|apply elem_of_app in Hin as [Hin|Hin]]; rewrite ?elem_of_reverse in Hin;
      apply list_elem_of_fmap in Hin as (i & E & Hi); apply elem_of_seqZ in Hi; nia.
  - apply NoDup_map_seqZ. intros i j Hi Hj E. nia.
  - intros x Hx Hin. apply list_elem_of_fmap in Hx as (i & E & Hi). apply elem_of_seqZ in Hi.
    apply elem_of_app in Hin as [Hin|Hin]; rewrite elem_of_reverse in Hin; apply list_elem_of_fmap in Hin as (j & E' & Hj);
      apply elem_of_seqZ in Hj.
    + destruct (decompose (w - 1) i j (h - 1)); lia.
    + destruct (decompose (w - 1) i 0 j); lia.
  - rewrite reverse_Permutation. apply NoDup_map_seqZ. intros i j Hi Hj E. lia.
  - intros x Hx Hin. rewrite elem_of_reverse in *. apply list_elem_of_fmap in Hx as (i & E & Hi). apply elem_of_seqZ in Hi.
    apply list_elem_of_fmap in Hin as (j & E' & Hj). apply elem_of_seqZ in Hj. destruct (decompose i (h - 1) 0 j); lia.
  - rewrite reverse_Permutation. apply NoDup_map_seqZ. intros i j Hi Hj E. nia.
Qed.

Lemma spread_inj size num k i j : 0 < size -> 0 < num <= size -> 0 <= i < num -> 0 <= j < num ->
  (i * (size / num) + k) mod size = (j * (size / num) + k) mod size -> i = j.
Proof.
  intros Hs Hn Hi Hj E. set (sp := size / num) in *.
  assert (Hsp : 1 <= sp /\ num * sp <= size).
  { split; [apply Z.div_le_lower_bound; lia|apply Z.mul_div_le; lia]. }
  pose proof (Z.div_mod (i * sp + k) size). pose proof (Z.div_mod (j * sp + k) size). rewrite E in *.
  set (q := (i * sp + k) / size) in *. set (q' := (j * sp + k) / size) in *.
  assert (Hq : (i - j) * sp = (q - q') * size) by lia.
  assert (q - q' = 0) by nia. nia.
Qed.
End controllers.

(** Memory controllers: in a mesh at least two nodes wide, any number of memory
    controllers up to the number of nodes on the border are given places on
    different nodes, at the master core of each. *)
Theorem memory_controllers_distinct c w h num : computeMeshDimensions c = Ok (w, h) -> 0 < m_concentration c ->
  1 < w -> 0 < h -> 2 * (w + h) < 2 ^ 32 ->
  0 < num <= Z.of_nat (length (core_id_list_along_perimeter c w h)) ->
  exists l, computeMemoryControllerPositions c num = Ok l /\ length l = Z.to_nat num /\ NoDup l /\
    Forall (fun core => 0 <= core < total_cores c /\ Z.rem core (m_concentration c) = 0) l.
Proof.
  intros Hdim Hc Hw Hh Hsmall Hnum. unfold computeMemoryControllerPositions. rewrite Hdim. cbn [rbind].
  pose proof (perimeter_length c w h Hw) as Hlen. set (per := core_id_list_along_perimeter c w h) in *.
  assert (Hbound : Z.of_nat (length per) < 2 ^ 32) by (rewrite Hlen; destruct (_ && _); lia).
  assert (Hguard : negb ((1 <? m_dimensions c) && (1 <? h)) || (Z.of_nat (length per) =? u32 (2 * (w + h - 2))) = true).
  { rewrite Hlen. destruct ((1 <? m_dimensions c) && (1 <? h)); [|done]. cbn [negb orb]. rewrite u32_small by lia. apply Z.eqb_eq. lia. }
  rewrite Hguard, (u32_small num), (proj2 (Z.leb_le _ _)), (proj2 (Z.eqb_neq num 0)) by lia. cbn [rguard rbind negb].
  rewrite (proj2 (Z.eqb_neq (Z.of_nat (length per)) 0)) by lia. cbn [negb rguard rbind].
  set (size := Z.of_nat (length per)) in *. set (idx := fun i => (i * (size / num) + Z.quot w 2) mod size).
  assert (Hidx : forall i, exists core, per !! Z.to_nat (idx i) = Some core /\ 0 <= idx i < size).
  { intros i. assert (0 <= idx i < size) by (apply Z.mod_pos_bound; lia).
    destruct (lookup_lt_is_Some_2 per (Z.to_nat (idx i)) ltac:(lia)) as (core & Hcore). by exists core. }
  set (g := fun i => m_concentration c * default 0 (per !! Z.to_nat (idx i))).
  assert (Ht : total_cores c = m_concentration c * h * w).
  { unfold computeMeshDimensions in Hdim. apply rbind_Ok_inv in Hdim as ([w' h'] & _ & H). inv_ok. zbool. lia. }
  exists (map g (seqZ 0 num)). split; [|split; [|split]].
  - apply mapM_r_Ok. intros i _. destruct (Hidx i) as (core & Hcore & _). fold (idx i). unfold g.
    rewrite (aget_Ok _ _ _ Hcore), Hcore. done.
  - by rewrite length_map, length_seqZ.
  - apply NoDup_map_seqZ. intros i j Hi Hj E. unfold g in E.
    destruct (Hidx i) as (a & Ha & Ra), (Hidx j) as (b & Hb & Rb). rewrite Ha, Hb in E. cbn in E.
    assert (a = b) as -> by nia.
    pose proof (NoDup_lookup per _ _ b (perimeter_NoDup c w h Hw Hh) Ha Hb) as Eidx.
    apply (spread_inj size num (Z.quot w 2)); try lia. fold (idx i) (idx j). lia.
  - apply Forall_forall. intros core Hin. apply list_elem_of_fmap in Hin as (i & -> & _). unfold g.
    destruct (Hidx i) as (a & Ha & _). rewrite Ha. cbn.
    pose proof (perimeter_spec c w h Hw Hh a ltac:(by eapply list_elem_of_lookup_2)) as Hr.
    split; [rewrite Ht; nia|]. rewrite Z.mul_comm. apply Z.rem_mul. lia.
Qed.

Lemma memory_controllers_distinct_witness :
  exists l, computeMemoryControllerPositions demo_mesh_config 4 = Ok l /\ length l = 4%nat /\ NoDup l /\
    Forall (fun core => 0 <= core < total_cores demo_mesh_config /\ Z.rem core (m_concentration demo_mesh_config) = 0) l.
Proof.
  apply (memory_controllers_distinct demo_mesh_config 3 5 4); first [reflexivity | cbn; lia | split; [lia | vm_compute; discriminate]].
Defined.
