(* ===== verification/MicroOp.v ===== *)
(** Micro-operations: the fixed part an instruction decodes to
    (performance_models/micro_op/micro_op.cc), the decoding itself
    (instruction_decoder_wlib.cc) and the dynamic part a core model adds for
    every execution (dynamic_micro_op.cc), with the dependencies between
    micro-operations.

    The disassembler (decoder_lib/decoder.h) is an interface here: its x86 and
    RISC-V implementations call libraries that are not part of the repository. *)
From stdpp Require Import base numbers list.
From Stdlib Require Import ZArith Lia Bool.
From S2P Require Import Prelude.
Open Scope Z_scope.

(** * The disassembler *)
Class Decoder (Inst : Type) := {
  largest_enclosing_register : Z -> Z;
  invalid_register : Z -> bool;
  reg_is_program_counter : Z -> bool;
  last_reg : Z;
  num_operands : Inst -> nat;
  num_memory_operands : Inst -> nat;
  mem_base_reg : Inst -> nat -> Z;
  mem_index_reg : Inst -> nat -> Z;
  op_read_mem : Inst -> nat -> bool;
  op_write_mem : Inst -> nat -> bool;
  op_read_reg : Inst -> nat -> bool;
  op_write_reg : Inst -> nat -> bool;
  is_addr_gen : Inst -> nat -> bool;
  op_is_reg : Inst -> nat -> bool;
  get_op_reg : Inst -> nat -> Z;
  size_mem_op : Inst -> nat -> Z;
  get_exec_microops : Inst -> Z -> Z -> Z;
  get_operand_size : Inst -> Z;
  is_pause_opcode : Z -> bool;
  is_branch_opcode : Z -> bool;
  is_fpvector_addsub_opcode : Z -> option Inst -> bool;
  is_fpvector_muldiv_opcode : Z -> option Inst -> bool;
  is_fpvector_ldst_opcode : Z -> option Inst -> bool;
  inst_num_id : Inst -> Z;
  is_nop : Inst -> bool;
  is_atomic : Inst -> bool;
  is_serializing : Inst -> bool;
  is_conditional_branch : Inst -> bool;
  is_barrier : Inst -> bool;
  src_dst_merge : Inst -> bool;
  is_X87 : Inst -> bool
}.

Definition DL_OPCODE_INVALID : Z := 0.
Definition DL_REG_INVALID : Z := 0.

(** * MicroOp *)
Definition MAXIMUM_NUMBER_OF_SOURCE_REGISTERS : nat := 14.
Definition MAXIMUM_NUMBER_OF_ADDRESS_REGISTERS : nat := 2.
Definition MAXIMUM_NUMBER_OF_DESTINATION_REGISTERS : nat := 14.
Definition MAXIMUM_NUMBER_OF_DEPENDENCIES : nat := 14.
Definition INVALID_SEQNR : Z := 0xffffffffffffffff.

Inductive uop_type_t := UOP_INVALID | UOP_LOAD | UOP_EXECUTE | UOP_STORE.
Inductive uop_subtype_t :=
  | UOP_SUBTYPE_FP_ADDSUB | UOP_SUBTYPE_FP_MULDIV | UOP_SUBTYPE_LOAD | UOP_SUBTYPE_STORE
  | UOP_SUBTYPE_GENERIC | UOP_SUBTYPE_BRANCH.
#[export] Instance uop_type_eq_dec : EqDecision uop_type_t.
Proof. solve_decision. Defined.
#[export] Instance uop_subtype_eq_dec : EqDecision uop_subtype_t.
Proof. solve_decision. Defined.

(** A register array and its length are a list.  The subtype and the access size
    have no value until one of the make functions sets them; nothing reads
    them before. *)
Record MicroOp {Inst : Type} := mkMicroOp {
  uop_type : uop_type_t;
  uop_subtype : uop_subtype_t;
  uop_first : bool;
  uop_last : bool;
  instructionOpcode : Z;
  decodedInstruction : option Inst;
  instruction : option Z;
  microOpTypeOffset : Z;
  intraInstructionDependencies : Z;
  sourceRegisters : list Z;
  addressRegisters : list Z;
  destinationRegisters : list Z;
  instructionPointer : Z;
  serializing : bool;
  branch : bool;
  m_membar : bool;
  is_x87 : bool;
  operand_size : Z;
  memoryAccessSize : Z
}.
Arguments MicroOp : clear implicits.

Section microop.
Context {Inst : Type} `{Decoder Inst}.
Implicit Types u : MicroOp Inst.

Definition new_MicroOp : MicroOp Inst :=
  mkMicroOp Inst UOP_INVALID UOP_SUBTYPE_GENERIC false false DL_OPCODE_INVALID None None 0 0 [] [] [] 0
    false false false false 0 0.

Definition isLoad u : bool := bool_decide (uop_type u = UOP_LOAD).
Definition isStore u : bool := bool_decide (uop_type u = UOP_STORE).
Definition isExecute u : bool := bool_decide (uop_type u = UOP_EXECUTE).
Definition isBranch u : bool := branch u.
Definition isSerializing u : bool := serializing u.
Definition isMemBarrier u : bool := m_membar u.
Definition isX87 u : bool := is_x87 u.
Definition isPause u : bool := is_pause_opcode (instructionOpcode u).

Definition getSubtype_Exec u : uop_subtype_t :=
  if is_branch_opcode (instructionOpcode u) then UOP_SUBTYPE_BRANCH
  else if is_fpvector_addsub_opcode (instructionOpcode u) (decodedInstruction u) then UOP_SUBTYPE_FP_ADDSUB
  else if is_fpvector_muldiv_opcode (instructionOpcode u) (decodedInstruction u) then UOP_SUBTYPE_FP_MULDIV
  else UOP_SUBTYPE_GENERIC.

Definition getSubtype u : uop_subtype_t :=
  if isLoad u then UOP_SUBTYPE_LOAD
  else if isStore u then UOP_SUBTYPE_STORE
  else if isBranch u then UOP_SUBTYPE_BRANCH
  else if isExecute u then getSubtype_Exec u
  else UOP_SUBTYPE_GENERIC.

Definition isFpLoadStore u : bool :=
  if isLoad u || isStore u then
    match getSubtype_Exec u with
    | UOP_SUBTYPE_FP_ADDSUB | UOP_SUBTYPE_FP_MULDIV => true
    | _ => is_fpvector_ldst_opcode (instructionOpcode u) (decodedInstruction u)
    end
  else false.

Definition setTypes u : MicroOp Inst :=
  mkMicroOp Inst (uop_type u) (getSubtype u) (uop_first u) (uop_last u) (instructionOpcode u) (decodedInstruction u)
    (instruction u) (microOpTypeOffset u) (intraInstructionDependencies u) (sourceRegisters u) (addressRegisters u)
    (destinationRegisters u) (instructionPointer u) (serializing u) (branch u) (m_membar u) (is_x87 u)
    (operand_size u) (memoryAccessSize u).

(** The fields the make functions assign. *)
Definition make (ty : uop_type_t) (offset intra opcode : Z) (isBranch : bool) (mem_size : Z) u : MicroOp Inst :=
  setTypes (mkMicroOp Inst ty (uop_subtype u) (uop_first u) (uop_last u) opcode (decodedInstruction u)
    (instruction u) offset intra (sourceRegisters u) (addressRegisters u)
    (destinationRegisters u) (instructionPointer u) (serializing u) isBranch (m_membar u) (is_x87 u)
    (operand_size u) mem_size).
Definition makeLoad (offset opcode mem_size : Z) u : MicroOp Inst :=
  make UOP_LOAD offset 0 opcode (branch u) (u16 mem_size) u.
Definition makeExecute (offset num_loads opcode : Z) (isBranch : bool) u : MicroOp Inst :=
  make UOP_EXECUTE offset num_loads opcode isBranch (memoryAccessSize u) u.
Definition makeStore (offset num_execute opcode mem_size : Z) u : MicroOp Inst :=
  make UOP_STORE offset num_execute opcode (branch u) (u16 mem_size) u.
Definition makeDynamic u : MicroOp Inst :=
  make UOP_EXECUTE 0 0 DL_OPCODE_INVALID false (memoryAccessSize u) u.

Definition with_registers (src addr dst : list Z) u : MicroOp Inst :=
  mkMicroOp Inst (uop_type u) (uop_subtype u) (uop_first u) (uop_last u) (instructionOpcode u) (decodedInstruction u)
    (instruction u) (microOpTypeOffset u) (intraInstructionDependencies u) src addr dst (instructionPointer u)
    (serializing u) (branch u) (m_membar u) (is_x87 u) (operand_size u) (memoryAccessSize u).
Definition addSourceRegister (reg : Z) u : result (MicroOp Inst) :=
  guard! bool_decide (length (sourceRegisters u) < MAXIMUM_NUMBER_OF_SOURCE_REGISTERS)%nat else AssertFailed in
  Ok (with_registers (sourceRegisters u ++ [reg]) (addressRegisters u) (destinationRegisters u) u).
Definition addAddressRegister (reg : Z) u : result (MicroOp Inst) :=
  guard! bool_decide (length (addressRegisters u) < MAXIMUM_NUMBER_OF_ADDRESS_REGISTERS)%nat else AssertFailed in
  Ok (with_registers (sourceRegisters u) (addressRegisters u ++ [reg]) (destinationRegisters u) u).
Definition addDestinationRegister (reg : Z) u : result (MicroOp Inst) :=
  guard! bool_decide (length (destinationRegisters u) < MAXIMUM_NUMBER_OF_DESTINATION_REGISTERS)%nat else AssertFailed in
  Ok (with_registers (sourceRegisters u) (addressRegisters u) (destinationRegisters u ++ [reg]) u).

Definition with_flags (first last serializing membar x87 : bool) u : MicroOp Inst :=
  mkMicroOp Inst (uop_type u) (uop_subtype u) first last (instructionOpcode u) (decodedInstruction u)
    (instruction u) (microOpTypeOffset u) (intraInstructionDependencies u) (sourceRegisters u) (addressRegisters u)
    (destinationRegisters u) (instructionPointer u) serializing (branch u) membar x87
    (operand_size u) (memoryAccessSize u).
Definition setFirst b u := with_flags b (uop_last u) (serializing u) (m_membar u) (is_x87 u) u.
Definition setLast b u := with_flags (uop_first u) b (serializing u) (m_membar u) (is_x87 u) u.
Definition setSerializing b u := with_flags (uop_first u) (uop_last u) b (m_membar u) (is_x87 u) u.
Definition setMemBarrier b u := with_flags (uop_first u) (uop_last u) (serializing u) b (is_x87 u) u.
Definition setIsX87 b u := with_flags (uop_first u) (uop_last u) (serializing u) (m_membar u) b u.

(** [setInstructionPointer], [setOperandSize], [setInstruction] and [setDecodedInstruction] *)
Definition of_instruction (address size : Z) (ins_ptr : option Z) (ins : Inst) u : MicroOp Inst :=
  mkMicroOp Inst (uop_type u) (uop_subtype u) (uop_first u) (uop_last u) (instructionOpcode u) (Some ins)
    ins_ptr (microOpTypeOffset u) (intraInstructionDependencies u) (sourceRegisters u) (addressRegisters u)
    (destinationRegisters u) address (serializing u) (branch u) (m_membar u) (is_x87 u) size (memoryAccessSize u).

(** * InstructionDecoder *)

(** [std::set]: the elements in ascending order. *)
Fixpoint set_insert (x : Z) (l : list Z) : list Z :=
  match l with
  | [] => [x]
  | y :: l' => if x <? y then x :: l else if x =? y then l else y :: set_insert x l'
  end.
Definition set_union (l l' : list Z) : list Z := foldl (fun acc x => set_insert x acc) l l'.
Definition set_count (x : Z) (l : list Z) : bool := existsb (Z.eqb x) l.

(** The loop of [addSrcs], [addAddrs] and [addDsts]. *)
Fixpoint add_registers (add : Z -> MicroOp Inst -> result (MicroOp Inst)) (regs : list Z) u : result (MicroOp Inst) :=
  match regs with
  | [] => Ok u
  | r :: regs' =>
      let reg := largest_enclosing_register r in
      if negb (invalid_register r) && negb (reg_is_program_counter reg)
      then let! u := add reg u in add_registers add regs' u
      else add_registers add regs' u
  end.
Definition addSrcs := add_registers addSourceRegister.
Definition addAddrs := add_registers addAddressRegister.
Definition addDsts := add_registers addDestinationRegister.

(** The memory operands: registers and sizes of the loads and of the stores, and all registers. *)
Record mem_operands := mkMem {
  regs_loads : list (list Z);
  memop_load_size : list Z;
  regs_stores : list (list Z);
  memop_store_size : list Z;
  regs_mem : list Z
}.
Fixpoint scan_memory (ins : Inst) (mem_idx : nat) (n : nat) (m : mem_operands) : mem_operands :=
  match n with
  | O => m
  | S n' =>
      let regs := set_insert (mem_index_reg ins mem_idx) (set_insert (mem_base_reg ins mem_idx) []) in
      let size := u16 (size_mem_op ins mem_idx) in
      let m := if op_read_mem ins mem_idx
               then mkMem (regs_loads m ++ [regs]) (memop_load_size m ++ [size]) (regs_stores m) (memop_store_size m)
                      (regs_mem m)
               else m in
      let m := if op_write_mem ins mem_idx
               then mkMem (regs_loads m) (memop_load_size m) (regs_stores m ++ [regs]) (memop_store_size m ++ [size])
                      (regs_mem m)
               else m in
      scan_memory ins (S mem_idx) n'
        (mkMem (regs_loads m) (memop_load_size m) (regs_stores m) (memop_store_size m) (set_union (regs_mem m) regs))
  end.

(** The registers read and written by the operands. *)
Fixpoint scan_operands (ins : Inst) (mem : list Z) (idx : nat) (n : nat) (src dst : list Z) : list Z * list Z :=
  match n with
  | O => (src, dst)
  | S n' =>
      let '(src, dst) :=
        if is_addr_gen ins idx then (set_union src mem, dst)
        else if op_is_reg ins idx then
          let reg := get_op_reg ins idx in
          (if op_read_reg ins idx && negb (set_count reg mem) then set_insert reg src else src,
           if op_write_reg ins idx then set_insert reg dst else dst)
        else (src, dst) in
      scan_operands ins mem (S idx) n' src dst
  end.

(** One iteration of the loop that generates the micro-operations. *)
Definition decode_one (address : Z) (ins : Inst) (ins_ptr : option Z) (m : mem_operands) (src dst : list Z)
    (numLoads numExecs numStores : nat) (index : nat) : result (MicroOp Inst) :=
  let total := (numLoads + numExecs + numStores)%nat in
  let u := of_instruction address (u16 (get_operand_size ins)) ins_ptr ins new_MicroOp in
  let opcode := inst_num_id ins in
  let! u :=
    if bool_decide (index < numLoads)%nat then
      let! size := aget (memop_load_size m) index in
      let! regs := aget (regs_loads m) index in
      let u := makeLoad (Z.of_nat index) opcode size u in
      let! u := addSrcs regs u in
      let! u := addAddrs regs u in
      if bool_decide (numExecs = 0%nat) then
        let! u := addSrcs src u in
        if bool_decide (numStores = 0%nat) then addDsts dst u else Ok u
      else Ok u
    else if bool_decide (index < numLoads + numExecs)%nat then
      guard! bool_decide (numExecs <= 2)%nat else LogError in
      let u := makeExecute (Z.of_nat (index - numLoads)) (Z.of_nat numLoads) opcode (is_conditional_branch ins) u in
      let! u := addSrcs src u in
      let! u := addDsts dst u in
      let u := if is_barrier ins then setMemBarrier true u else u in
      if src_dst_merge ins then addSrcs dst u else Ok u
    else
      let storeIndex := (index - numLoads - numExecs)%nat in
      let! size := aget (memop_store_size m) storeIndex in
      let! regs := aget (regs_stores m) storeIndex in
      let u := makeStore (Z.of_nat storeIndex) (Z.of_nat numExecs) opcode size u in
      let u := if is_atomic ins then setMemBarrier true u else u in
      let! u := addSrcs regs u in
      let! u := addAddrs regs u in
      if bool_decide (numExecs = 0%nat) then
        let! u := addDsts dst u in
        if bool_decide (numLoads = 0%nat) then addSrcs src u else Ok u
      else Ok u in
  let u := if bool_decide (index = 0%nat) then
             let u := setFirst true u in if is_X87 ins then setIsX87 true u else u
           else u in
  Ok (if bool_decide (S index = total) then
        let u := setLast true u in if is_serializing ins then setSerializing true u else u
      else u).

Definition decode (address : Z) (ins : Inst) (ins_ptr : option Z) : result (list (MicroOp Inst)) :=
  let m := if is_nop ins then mkMem [] [] [] [] []
           else scan_memory ins 0 (num_memory_operands ins) (mkMem [] [] [] [] []) in
  let numLoads := length (regs_loads m) in
  let numStores := length (regs_stores m) in
  let '(src, dst) := scan_operands ins (regs_mem m) 0 (num_operands ins) [] [] in
  let numExecs := Z.to_nat (get_exec_microops ins (Z.of_nat numLoads) (Z.of_nat numStores)) in
  let numExecs := if bool_decide (numLoads + numExecs + numStores = 0)%nat then 1%nat else numExecs in
  mapM_r (decode_one address ins ins_ptr m src dst numLoads numExecs numStores)
    (seq 0 (numLoads + numExecs + numStores)).
End microop.

(** * DynamicMicroOp

    [Info] is what a core model adds to it (the derived classes).  The array of
    dependencies and its length are a list. *)
Record DynamicMicroOp {Inst Info : Type} := mkDynamic {
  m_uop : MicroOp Inst;
  sequenceNumber : Z;
  address : Z;
  squashed : bool;
  intraDependencies : Z;
  typeOffset : Z;
  squashedCount : Z;
  dependencies : list Z;
  execLatency : Z;
  branchTaken : bool;
  branchMispredicted : bool;
  branchTargetAddress : Z;
  dCacheHitWhere : Z;
  iCacheHitWhere : Z;
  iCacheLatency : Z;
  m_forceLongLatencyLoad : bool;
  d_first : bool;
  d_last : bool;
  core_info : Info
}.
Arguments DynamicMicroOp : clear implicits.

(** HitWhere::where_t (performance_model/hit_where.h), by number. *)
Definition HIT_L1I : Z := 2.
Definition HIT_L1_OWN : Z := 3.
Definition HIT_UNKNOWN : Z := 21.
Definition NUM_WHERES : Z := 24.

Section dynamic.
Context {Inst Info : Type}.
Abbreviation Dyn := (DynamicMicroOp Inst Info).
Implicit Types u : Dyn.

(** The constructor; the core model gives the latency and the derived part.  The
    address and the branch target have no value until they are set. *)
Definition new_DynamicMicroOp (uop : MicroOp Inst) (latency : Z) (info : Info) : Dyn :=
  mkDynamic _ _ uop INVALID_SEQNR 0 false (intraInstructionDependencies uop) (microOpTypeOffset uop) 0 [] (u32 latency)
    false false 0 HIT_UNKNOWN HIT_L1I 0 false (uop_first uop) (uop_last uop) info.

Definition with_deps (intra : Z) (deps : list Z) u : Dyn :=
  mkDynamic _ _ (m_uop u) (sequenceNumber u) (address u) (squashed u) intra (typeOffset u) (squashedCount u) deps
    (execLatency u) (branchTaken u) (branchMispredicted u) (branchTargetAddress u) (dCacheHitWhere u)
    (iCacheHitWhere u) (iCacheLatency u) (m_forceLongLatencyLoad u) (d_first u) (d_last u) (core_info u).
Definition setSequenceNumber (n : Z) u : Dyn :=
  mkDynamic _ _ (m_uop u) n (address u) (squashed u) (intraDependencies u) (typeOffset u) (squashedCount u)
    (dependencies u) (execLatency u) (branchTaken u) (branchMispredicted u) (branchTargetAddress u) (dCacheHitWhere u)
    (iCacheHitWhere u) (iCacheLatency u) (m_forceLongLatencyLoad u) (d_first u) (d_last u) (core_info u).
(** [setExecLatency] and [setDCacheHitWhere] *)
Definition set_access (latency where_ : Z) u : Dyn :=
  mkDynamic _ _ (m_uop u) (sequenceNumber u) (address u) (squashed u) (intraDependencies u) (typeOffset u)
    (squashedCount u) (dependencies u) (u32 latency) (branchTaken u) (branchMispredicted u) (branchTargetAddress u)
    where_ (iCacheHitWhere u) (iCacheLatency u) (m_forceLongLatencyLoad u) (d_first u) (d_last u) (core_info u).
(** [setICacheHitWhere] and [setICacheLatency] *)
Definition set_icache (where_ latency : Z) u : Dyn :=
  mkDynamic _ _ (m_uop u) (sequenceNumber u) (address u) (squashed u) (intraDependencies u) (typeOffset u)
    (squashedCount u) (dependencies u) (execLatency u) (branchTaken u) (branchMispredicted u) (branchTargetAddress u)
    (dCacheHitWhere u) where_ (u32 latency) (m_forceLongLatencyLoad u) (d_first u) (d_last u) (core_info u).
Definition setAddress (a : Z) u : Dyn :=
  mkDynamic _ _ (m_uop u) (sequenceNumber u) a (squashed u) (intraDependencies u) (typeOffset u) (squashedCount u)
    (dependencies u) (execLatency u) (branchTaken u) (branchMispredicted u) (branchTargetAddress u) (dCacheHitWhere u)
    (iCacheHitWhere u) (iCacheLatency u) (m_forceLongLatencyLoad u) (d_first u) (d_last u) (core_info u).
Definition setBranchMispredicted (b : bool) u : Dyn :=
  mkDynamic _ _ (m_uop u) (sequenceNumber u) (address u) (squashed u) (intraDependencies u) (typeOffset u)
    (squashedCount u) (dependencies u) (execLatency u) (branchTaken u) b (branchTargetAddress u) (dCacheHitWhere u)
    (iCacheHitWhere u) (iCacheLatency u) (m_forceLongLatencyLoad u) (d_first u) (d_last u) (core_info u).

Definition isBranchMispredicted u : result bool :=
  guard! isBranch (m_uop u) else LogError in Ok (branchMispredicted u).
Definition isLongLatencyLoad (cutoff : Z) u : result bool :=
  guard! isLoad (m_uop u) else LogError in
  Ok (m_forceLongLatencyLoad u || ((0 <? cutoff) && (cutoff <? execLatency u))).

(** ** Dependencies *)

(** The first of the intra-instruction dependencies. *)
Definition intra_base u : Z := u64 (sequenceNumber u - typeOffset u - intraDependencies u).

Definition getDependenciesLength u : Z := u32 (intraDependencies u + Z.of_nat (length (dependencies u))).

Definition getDependency (index : Z) u : result Z :=
  if index <? intraDependencies u then Ok (u64 (intra_base u + index))
  else of_option (dependencies u !! Z.to_nat (index - intraDependencies u)) AssertFailed.

Definition addDependency (n : Z) u : result Dyn :=
  if existsb (Z.eqb n) (dependencies u) then Ok u
  else
    guard! bool_decide (length (dependencies u) < MAXIMUM_NUMBER_OF_DEPENDENCIES)%nat else AssertFailed in
    Ok (with_deps (intraDependencies u) (dependencies u ++ [n]) u).

(** The loop that moves the intra-instruction dependencies before [n] to the
    list.  The cell is written before the length is checked. *)
Fixpoint spill_intra (fuel : nat) (n : Z) u : result Dyn :=
  if (intraDependencies u =? 0) || (n =? intra_base u) then Ok u
  else
    match fuel with
    | O => Err OutOfFuel
    | S fuel' =>
        guard! bool_decide (length (dependencies u) < MAXIMUM_NUMBER_OF_DEPENDENCIES)%nat else Undefined in
        let deps := dependencies u ++ [intra_base u] in
        guard! bool_decide (length deps < MAXIMUM_NUMBER_OF_DEPENDENCIES)%nat else LogError in
        spill_intra fuel' n (with_deps (intraDependencies u - 1) deps u)
    end.

Definition removeDependency (n : Z) u : result Dyn :=
  if intra_base u <=? n then
    let! u := spill_intra (Z.to_nat (intraDependencies u)) n u in
    guard! 0 <? intraDependencies u else LogError in
    Ok (with_deps (intraDependencies u - 1) (dependencies u) u)
  else
    guard! bool_decide (0 < length (dependencies u))%nat else LogError in
    let last_ := (length (dependencies u) - 1)%nat in
    let! x := aget (dependencies u) last_ in
    if x =? n then Ok (with_deps (intraDependencies u) (take last_ (dependencies u)) u)
    else
      let! i := of_option (find_first (fun y => y =? n) (dependencies u)) LogError in
      Ok (with_deps (intraDependencies u) (take last_ (<[i := x]> (dependencies u))) u).

(** ** Squashing *)
Definition set_flags (sq first last : bool) u : Dyn :=
  mkDynamic _ _ (m_uop u) (sequenceNumber u) (address u) sq (intraDependencies u) (typeOffset u) (squashedCount u)
    (dependencies u) (execLatency u) (branchTaken u) (branchMispredicted u) (branchTargetAddress u) (dCacheHitWhere u)
    (iCacheHitWhere u) (iCacheLatency u) (m_forceLongLatencyLoad u) first last (core_info u).

(** The first micro-operation of the list that is not squashed becomes the first
    of the instruction, and likewise the last. *)
Fixpoint mark_first (l : list Dyn) : list Dyn :=
  match l with
  | [] => []
  | u :: l' => if squashed u then u :: mark_first l' else set_flags false true (d_last u) u :: l'
  end.
Fixpoint mark_last (l : list Dyn) : list Dyn :=
  match l with
  | [] => []
  | u :: l' =>
      if existsb (fun v => negb (squashed v)) l' then u :: mark_last l'
      else (if squashed u then u else set_flags false (d_first u) true u) :: l'
  end.
Definition squash (i : nat) (l : list Dyn) : result (list Dyn) :=
  let! u := aget l i in
  Ok (mark_last (mark_first (<[i := set_flags true (d_first u) (d_last u) u]> l))).

(** ** MicroOpPerformanceModel::doSquashing *)
Definition set_squash_info (offset count : Z) u : Dyn :=
  mkDynamic _ _ (m_uop u) (sequenceNumber u) (address u) (squashed u) (intraDependencies u) offset count
    (dependencies u) (execLatency u) (branchTaken u) (branchMispredicted u) (branchTargetAddress u) (dCacheHitWhere u)
    (iCacheHitWhere u) (iCacheLatency u) (m_forceLongLatencyLoad u) (d_first u) (d_last u) (core_info u).
Fixpoint recount (ty : uop_type_t) (count offset : Z) (l : list Dyn) : list Dyn :=
  match l with
  | [] => []
  | u :: l' =>
      if squashed u then set_squash_info (typeOffset u) (u32 (count + 1)) u :: recount ty (u32 (count + 1)) offset l'
      else
        let offset := if bool_decide (uop_type (m_uop u) = ty) then offset else 0 in
        set_squash_info offset count u :: recount (uop_type (m_uop u)) count (u32 (offset + 1)) l'
  end.
Definition resize_intra (l : list Dyn) (i : nat) u : result Dyn :=
  if squashed u || (intraDependencies u =? 0) then Ok u
  else
    let iBase := u32 (Z.of_nat i - microOpTypeOffset (m_uop u)) in
    guard! intraDependencies u <=? iBase else LogError in
    let! b := aget l (Z.to_nat iBase) in
    let! a := aget l (Z.to_nat (iBase - intraDependencies u)) in
    Ok (with_deps (u32 (intraDependencies u - (squashedCount b - squashedCount a))) (dependencies u) u).
Fixpoint resize_from (l : list Dyn) (first_squashed i : nat) (rest : list Dyn) : result (list Dyn) :=
  match rest with
  | [] => Ok []
  | u :: rest' =>
      let! u := if bool_decide (first_squashed <= i)%nat then resize_intra l i u else Ok u in
      let! l' := resize_from l first_squashed (S i) rest' in
      Ok (u :: l')
  end.
Definition doSquashing (current_uops : list Dyn) (first_squashed : nat) : result (list Dyn) :=
  let l := recount UOP_INVALID 0 0 current_uops in
  resize_from l first_squashed 0 l.
End dynamic.
