(* ===== verification/DecodeProps.v ===== *)
(** What an instruction decodes to (instruction_decoder_wlib.cc): the loads, then the
    executes, then the stores, each depending on the ones of the kind before. *)
From stdpp Require Import base numbers list.
From Stdlib Require Import ZArith Lia Bool.
From S2P Require Import Prelude NetworkProps MicroOp.
Open Scope Z_scope.

Section decode.
Context {Inst : Type} `{Decoder Inst}.
Implicit Types u : MicroOp Inst.

(** * Registers *)

(** The registers that are added for a set of registers. *)
Definition kept (regs : list Z) : list Z :=
  omap (fun r => let reg := largest_enclosing_register r in
                 if negb (invalid_register r) && negb (reg_is_program_counter reg) then Some reg else None) regs.

Lemma length_kept regs : (length (kept regs) <= length regs)%nat.
Proof. induction regs as [|r regs IH]; [done|]. unfold kept in *. cbn [omap list_omap length] in *.
  destruct (negb _ && negb _); cbn [length]; unfold omap in *; lia. Qed.

Lemma add_registers_eq (add : Z -> MicroOp Inst -> result (MicroOp Inst)) (put : list Z -> MicroOp Inst -> MicroOp Inst)
    (room : MicroOp Inst -> nat) :
  (forall u, put [] u = u) -> (forall u l l', put l' (put l u) = put (l ++ l') u) ->
  (forall r u, (0 < room u)%nat -> add r u = Ok (put [r] u) /\ room (put [r] u) = (room u - 1)%nat) ->
  forall regs u, (length regs <= room u)%nat -> add_registers add regs u = Ok (put (kept regs) u).
Proof.
  intros Hnil Happ Hadd. induction regs as [|r regs IH]; intros u Hroom; cbn [add_registers length] in *; [by rewrite Hnil|].
  unfold kept. cbn [omap list_omap]. destruct (negb _ && negb _).
  - destruct (Hadd (largest_enclosing_register r) u) as [-> Hr]; [lia|]. cbn [rbind]. rewrite IH by lia. by rewrite Happ.
  - apply IH. lia.
Qed.

Lemma addSrcs_eq regs u : (length (sourceRegisters u) + length regs <= 14)%nat ->
  addSrcs regs u = Ok (with_registers (sourceRegisters u ++ kept regs) (addressRegisters u) (destinationRegisters u) u).
Proof.
  intros Hr. apply (add_registers_eq addSourceRegister
    (fun l v => with_registers (sourceRegisters v ++ l) (addressRegisters v) (destinationRegisters v) v) (fun v => 14 - length (sourceRegisters v))%nat);
    [intros []; cbn; by rewrite app_nil_r|intros [] l l'; cbn; by rewrite app_assoc| |lia].
  intros r v Hv. unfold addSourceRegister, rguard, MAXIMUM_NUMBER_OF_SOURCE_REGISTERS. rewrite bool_decide_true by lia.
  cbn -[Nat.sub]. rewrite length_app. split; [done|simpl length; lia].
Qed.

Lemma addAddrs_eq regs u : (length (addressRegisters u) + length regs <= 2)%nat ->
  addAddrs regs u = Ok (with_registers (sourceRegisters u) (addressRegisters u ++ kept regs) (destinationRegisters u) u).
Proof.
  intros Hr. apply (add_registers_eq addAddressRegister
    (fun l v => with_registers (sourceRegisters v) (addressRegisters v ++ l) (destinationRegisters v) v) (fun v => 2 - length (addressRegisters v))%nat);
    [intros []; cbn; by rewrite app_nil_r|intros [] l l'; cbn; by rewrite app_assoc| |lia].
  intros r v Hv. unfold addAddressRegister, rguard, MAXIMUM_NUMBER_OF_ADDRESS_REGISTERS. rewrite bool_decide_true by lia.
  cbn -[Nat.sub]. rewrite length_app. split; [done|simpl length; lia].
Qed.

Lemma addDsts_eq regs u : (length (destinationRegisters u) + length regs <= 14)%nat ->
  addDsts regs u = Ok (with_registers (sourceRegisters u) (addressRegisters u) (destinationRegisters u ++ kept regs) u).
Proof.
  intros Hr. apply (add_registers_eq addDestinationRegister
    (fun l v => with_registers (sourceRegisters v) (addressRegisters v) (destinationRegisters v ++ l) v) (fun v => 14 - length (destinationRegisters v))%nat);
    [intros []; cbn; by rewrite app_nil_r|intros [] l l'; cbn; by rewrite app_assoc| |lia].
  intros r v Hv. unfold addDestinationRegister, rguard, MAXIMUM_NUMBER_OF_DESTINATION_REGISTERS. rewrite bool_decide_true by lia.
  cbn -[Nat.sub]. rewrite length_app. split; [done|simpl length; lia].
Qed.

(** * Operands *)

(** The memory operands an instruction reads, and those it writes. *)
Definition reads (ins : Inst) (k n : nat) : list nat := filter (fun i => op_read_mem ins i = true) (seq k n).
Definition writes (ins : Inst) (k n : nat) : list nat := filter (fun i => op_write_mem ins i = true) (seq k n).

Definition small_sets (l : list (list Z)) : Prop := Forall (fun s => (length s <= 2)%nat) l.

Lemma length_set_insert x l : (length (set_insert x l) <= S (length l))%nat.
Proof. induction l as [|y l IH]; cbn [set_insert length]; [lia|]. repeat case_match; cbn [length]; lia. Qed.

Lemma scan_memory_ok ins n : forall k m, let m' := scan_memory ins k n m in
  length (regs_loads m') = (length (regs_loads m) + length (reads ins k n))%nat /\
  length (regs_stores m') = (length (regs_stores m) + length (writes ins k n))%nat /\
  (length (memop_load_size m) = length (regs_loads m) -> length (memop_load_size m') = length (regs_loads m')) /\
  (length (memop_store_size m) = length (regs_stores m) -> length (memop_store_size m') = length (regs_stores m')) /\
  (small_sets (regs_loads m) -> small_sets (regs_loads m')) /\ (small_sets (regs_stores m) -> small_sets (regs_stores m')).
Proof.
  induction n as [|n IH]; intros k m; cbn [scan_memory]; [unfold reads, writes; simpl; split_and!; (done || lia)|].
  set (regs := set_insert _ _).
  assert (Hregs : (length regs <= 2)%nat).
  { etrans; [apply length_set_insert|]. apply le_n_S. etrans; [apply length_set_insert|]. done. }
  clearbody regs. unfold reads, writes. cbn [seq]. rewrite !filter_cons. cbv zeta.
  match goal with |- context [scan_memory ins (S k) n ?m0] => specialize (IH (S k) m0) end.
  destruct IH as (-> & -> & Hls & Hss & Hl & Hs). unfold reads, writes in *.
  destruct (op_read_mem ins k), (op_write_mem ins k); repeat first [rewrite decide_True by done|rewrite decide_False by done];
    cbn -[scan_memory seq] in *; rewrite ?length_app in *; cbn [length] in *;
    (split_and!; [lia|lia|intros; apply Hls; rewrite ?length_app; cbn [length]; lia|intros; apply Hss; rewrite ?length_app; cbn [length]; lia
      |intros; apply Hl|intros; apply Hs]);
    try done; apply Forall_app; (split; [done|by apply Forall_singleton]).
Qed.

(** * One micro-operation *)

(** What the micro-operation with index [i] is when there are [nl] loads, [ne]
    executes and [ns] stores. *)
Record decoded (ins : Inst) (nl ne ns i : nat) u : Prop := mkDecoded {
  de_type : uop_type u = (if bool_decide (i < nl)%nat then UOP_LOAD else if bool_decide (i < nl + ne)%nat then UOP_EXECUTE else UOP_STORE);
  de_offset : microOpTypeOffset u =
    Z.of_nat (if bool_decide (i < nl)%nat then i else if bool_decide (i < nl + ne)%nat then (i - nl)%nat else (i - nl - ne)%nat);
  de_intra : intraInstructionDependencies u =
    Z.of_nat (if bool_decide (i < nl)%nat then 0%nat else if bool_decide (i < nl + ne)%nat then nl else ne);
  de_first : uop_first u = bool_decide (i = 0%nat);
  de_last : uop_last u = bool_decide (S i = nl + ne + ns)%nat;
  de_serializing : serializing u = bool_decide (S i = nl + ne + ns)%nat && is_serializing ins;
  de_membar : m_membar u = (if bool_decide (i < nl)%nat then false else if bool_decide (i < nl + ne)%nat then is_barrier ins else is_atomic ins);
  de_address : forall r, r ∈ addressRegisters u -> r ∈ sourceRegisters u
}.

(** The memory operands found for [nl] loads and [ns] stores. *)
Record scanned (nl ns : nat) (m : mem_operands) : Prop := mkScanned {
  sc_loads : length (regs_loads m) = nl;
  sc_load_sizes : length (memop_load_size m) = nl;
  sc_stores : length (regs_stores m) = ns;
  sc_store_sizes : length (memop_store_size m) = ns;
  sc_small_loads : small_sets (regs_loads m);
  sc_small_stores : small_sets (regs_stores m)
}.

Lemma aget_ok {A} (l : list A) i : (i < length l)%nat -> exists x, aget l i = Ok x /\ l !! i = Some x.
Proof. intros [x Hx]%lookup_lt_is_Some_2. exists x. unfold aget. by rewrite Hx. Qed.

(** The flags set at the end of the loop. *)
Definition flagged (ins : Inst) (total i : nat) u : MicroOp Inst :=
  let u := if bool_decide (i = 0%nat) then let u := setFirst true u in if is_X87 ins then setIsX87 true u else u else u in
  if bool_decide (S i = total) then let u := setLast true u in if is_serializing ins then setSerializing true u else u else u.

Lemma flagged_eq ins total i u :
  uop_first u = false -> uop_last u = false -> serializing u = false -> exists x,
  flagged ins total i u =
    with_flags (bool_decide (i = 0%nat)) (bool_decide (S i = total)) (bool_decide (S i = total) && is_serializing ins) (m_membar u) x u.
Proof.
  intros Hf Hl Hs. exists (is_x87 (flagged ins total i u)). unfold flagged.
  destruct (bool_decide (i = 0%nat)), (bool_decide (S i = total)), (is_X87 ins), (is_serializing ins); destruct u; cbn in *; by subst.
Qed.

(** The fields of a micro-operation that is written out. *)
Ltac decoded_fields :=
  (eexists; split_and!; [done..|]); intros; split; cbn; subst; try done;
  first [by repeat case_bool_decide|idtac]; intros r Hin; rewrite ?elem_of_app; rewrite ?elem_of_nil in Hin; tauto.

Lemma decode_one_ok address ins ptr m src dst nl ne ns i :
  scanned nl ns m -> (ne <= 2)%nat -> (length src + length dst <= 12)%nat -> (i < nl + ne + ns)%nat ->
  exists u, decode_one address ins ptr m src dst nl ne ns i = Ok u /\ decoded ins nl ne ns i u.
Proof.
  intros [Hl Hls Hs Hss Hsl Hst] Hne Hr Hi. unfold decode_one. cbv zeta.
  set (body := if bool_decide (i < nl)%nat then _ else _).
  enough (Hb : exists u, body = Ok u /\ uop_first u = false /\ uop_last u = false /\ serializing u = false /\
    forall b b' b'' x, b = bool_decide (i = 0%nat) -> b' = bool_decide (S i = nl + ne + ns)%nat -> b'' = b' && is_serializing ins ->
      decoded ins nl ne ns i (with_flags b b' b'' (m_membar u) x u)).
  { destruct Hb as (u & -> & Hf & Hla & Hse & Hd). cbn [rbind]. destruct (flagged_eq ins (nl + ne + ns) i u Hf Hla Hse) as (x & Hx).
    unfold flagged in Hx. cbv zeta in Hx. rewrite Hx. eexists. split; [done|]. by apply Hd. }
  subst body. destruct (decide (i < nl)%nat) as [Hlt|Hge]; [|destruct (decide (i < nl + ne)%nat) as [Hlt|Hge']].
  - rewrite bool_decide_true by done.
    destruct (aget_ok (memop_load_size m) i) as (size & -> & _); [lia|]. destruct (aget_ok (regs_loads m) i) as (regs & -> & Hrg); [lia|].
    cbn [rbind]. assert (Hrl : (length regs <= 2)%nat) by (by apply (proj1 (Forall_lookup _ _) Hsl i)). pose proof (length_kept regs).
    pose proof (length_kept src).
    rewrite addSrcs_eq by (cbn; lia). cbn [rbind]. rewrite addAddrs_eq by (cbn; lia). cbn [rbind].
    destruct (bool_decide (ne = 0%nat)); [rewrite addSrcs_eq by (cbn; lia); cbn [rbind]; destruct (bool_decide (ns = 0%nat));
      [rewrite addDsts_eq by (cbn; lia)|]|]; decoded_fields.
  - rewrite bool_decide_false, bool_decide_true by done. unfold rguard. rewrite bool_decide_true by done.
    pose proof (length_kept dst). pose proof (length_kept src). rewrite addSrcs_eq by (cbn; lia). cbn [rbind]. rewrite addDsts_eq by (cbn; lia). cbn [rbind].
    destruct (is_barrier ins) eqn:Hb, (src_dst_merge ins); try (rewrite addSrcs_eq by (cbn; lia)); decoded_fields.
  - rewrite !bool_decide_false by done.
    destruct (aget_ok (memop_store_size m) (i - nl - ne)) as (size & -> & _); [lia|].
    destruct (aget_ok (regs_stores m) (i - nl - ne)) as (regs & -> & Hrg); [lia|].
    cbn [rbind]. assert (Hrl : (length regs <= 2)%nat) by (by apply (proj1 (Forall_lookup _ _) Hst (i - nl - ne)%nat)). pose proof (length_kept regs).
    pose proof (length_kept src). destruct (is_atomic ins) eqn:Hat;
    (rewrite addSrcs_eq by (cbn; lia); cbn [rbind]; rewrite addAddrs_eq by (cbn; lia); cbn [rbind];
    destruct (bool_decide (ne = 0%nat)); [rewrite addDsts_eq by (cbn; lia); cbn [rbind]; destruct (bool_decide (nl = 0%nat));
      [rewrite addSrcs_eq by (cbn; rewrite ?length_app; cbn; lia)|]|]); decoded_fields.
Qed.

(** * The instruction *)

Definition memory_scan (ins : Inst) : mem_operands :=
  if is_nop ins then mkMem [] [] [] [] [] else scan_memory ins 0 (num_memory_operands ins) (mkMem [] [] [] [] []).
Definition memory_operand_count (ins : Inst) : nat := if is_nop ins then 0%nat else num_memory_operands ins.
Definition load_count (ins : Inst) : nat := length (reads ins 0 (memory_operand_count ins)).
Definition store_count (ins : Inst) : nat := length (writes ins 0 (memory_operand_count ins)).
Definition exec_count (ins : Inst) : nat :=
  let n := Z.to_nat (get_exec_microops ins (Z.of_nat (load_count ins)) (Z.of_nat (store_count ins))) in
  if bool_decide (load_count ins + n + store_count ins = 0)%nat then 1%nat else n.
Definition operand_registers (ins : Inst) : list Z * list Z :=
  scan_operands ins (regs_mem (memory_scan ins)) 0 (num_operands ins) [] [].

Lemma memory_scan_ok ins : scanned (load_count ins) (store_count ins) (memory_scan ins).
Proof.
  unfold memory_scan, load_count, store_count, memory_operand_count. destruct (is_nop ins); [by split; try apply Forall_nil_2|].
  pose proof (scan_memory_ok ins (num_memory_operands ins) 0 (mkMem [] [] [] [] [])) as (Hl & Hs & Hls & Hss & Hsl & Hst).
  cbn in Hl, Hs. split; [done|rewrite Hls by done; done|done|rewrite Hss by done; done|apply Hsl, Forall_nil_2|apply Hst, Forall_nil_2].
Qed.

Lemma mapM_r_seq {B} (f : nat -> result B) (Q : nat -> B -> Prop) n : forall k,
  (forall i, (k <= i < k + n)%nat -> exists y, f i = Ok y /\ Q i y) ->
  exists ys, mapM_r f (seq k n) = Ok ys /\ length ys = n /\ forall i y, ys !! i = Some y -> Q (k + i)%nat y.
Proof.
  induction n as [|n IH]; intros k Hf; cbn [seq mapM_r]; [by exists []|].
  destruct (Hf k) as (y & -> & Hy); [lia|]. destruct (IH (S k)) as (ys & -> & Hlen & Hys); [intros i Hi; apply Hf; lia|].
  exists (y :: ys). cbn [rbind length]. split_and!; [done|by rewrite Hlen|]. intros [|i] z; cbn [lookup list_lookup].
  - intros [= <-]. by rewrite Nat.add_0_r.
  - intros Hz. rewrite <- Nat.add_succ_comm. by apply Hys.
Qed.

Lemma decode_ok address ins ptr :
  (exec_count ins <= 2)%nat -> (length (fst (operand_registers ins)) + length (snd (operand_registers ins)) <= 12)%nat ->
  exists us, decode address ins ptr = Ok us /\ length us = (load_count ins + exec_count ins + store_count ins)%nat /\
    forall i u, us !! i = Some u -> decoded ins (load_count ins) (exec_count ins) (store_count ins) i u.
Proof.
  intros He Hr. unfold decode. fold (memory_scan ins). cbv zeta. fold (operand_registers ins). destruct (operand_registers ins) as [src dst].
  rewrite (sc_loads _ _ _ (memory_scan_ok ins)), (sc_stores _ _ _ (memory_scan_ok ins)). fold (exec_count ins).
  apply (mapM_r_seq _ (decoded ins (load_count ins) (exec_count ins) (store_count ins)) _ 0). intros i Hi.
  apply decode_one_ok; [apply memory_scan_ok|done|done|lia].
Qed.

(** The positions of the kinds of micro-operations. *)
Lemma decoded_kinds ins nl ne ns i u : decoded ins nl ne ns i u ->
  (isLoad u = true <-> (i < nl)%nat) /\ (isExecute u = true <-> (nl <= i < nl + ne)%nat) /\ (isStore u = true <-> (nl + ne <= i)%nat).
Proof.
  intros [Ht _ _ _ _ _ _ _]. unfold isLoad, isExecute, isStore. rewrite Ht, !bool_decide_eq_true.
  repeat case_bool_decide; split_and!; split; intros; (done || lia).
Qed.

(** The dependencies of a micro-operation that has just been numbered are those on the
    [intra] numbers before the micro-operations of its kind. *)
Lemma numbered_dependencies {Info} (u : MicroOp Inst) n latency (info : Info) (offset intra : Z) :
  microOpTypeOffset u = offset -> intraInstructionDependencies u = intra -> 0 <= offset -> 0 <= intra < 2 ^ 32 ->
  offset + intra <= n < 2 ^ 64 -> let d := setSequenceNumber n (new_DynamicMicroOp u latency info) in
  forall q, (exists k, 0 <= k < getDependenciesLength d /\ getDependency k d = Ok q) <-> n - offset - intra <= q < n - offset.
Proof.
  intros <- <- Ho Hi Hn d q. unfold getDependenciesLength, getDependency, intra_base. subst d. cbn. rewrite Z.add_0_r, u32_small by lia. split.
  - intros (k & Hk & Hq). rewrite (proj2 (Z.ltb_lt _ _)) in Hq by lia. injection Hq as <-. rewrite (u64_small (n - _ - _)), u64_small by lia. lia.
  - intros Hq. exists (q - (n - microOpTypeOffset u - intraInstructionDependencies u)). split; [lia|].
    rewrite (proj2 (Z.ltb_lt _ _)) by lia. rewrite (u64_small (n - _ - _)), u64_small by lia. f_equal. lia.
Qed.

Lemma decoded_types ins nl ne ns us : length us = (nl + ne + ns)%nat -> (forall i u, us !! i = Some u -> decoded ins nl ne ns i u) ->
  map uop_type us = replicate nl UOP_LOAD ++ replicate ne UOP_EXECUTE ++ replicate ns UOP_STORE.
Proof.
  intros Hlen Hus. apply (list_eq_same_length _ _ (nl + ne + ns)); [by rewrite !length_app, !length_replicate; lia|by rewrite length_map|].
  intros i x y Hi. rewrite list_lookup_fmap. intros (u & Hu & ->)%fmap_Some Hy. rewrite (de_type _ _ _ _ _ _ (Hus i u Hu)).
  rewrite lookup_app_Some, lookup_app_Some, !lookup_replicate, !length_replicate in Hy. repeat case_bool_decide; intuition (done || lia).
Qed.

(** What [u] at position [i] depends on, by position. *)
Lemma depends_positions ins nl ne ns us i u n q :
  length us = (nl + ne + ns)%nat -> (forall i u, us !! i = Some u -> decoded ins nl ne ns i u) -> us !! i = Some u ->
  (exists j v, us !! j = Some v /\ q = n + Z.of_nat j /\ isExecute u && isLoad v || isStore u && isExecute v = true) <->
  ((nl <= i < nl + ne)%nat /\ n <= q < n + Z.of_nat nl) \/ ((nl + ne <= i)%nat /\ n + Z.of_nat nl <= q < n + Z.of_nat (nl + ne)).
Proof.
  intros Hlen Hus Hu. destruct (decoded_kinds _ _ _ _ _ _ (Hus i u Hu)) as (HL & HE & HS). pose proof (lookup_lt_Some _ _ _ Hu). split.
  - intros (j & v & Hv & -> & Hd). destruct (decoded_kinds _ _ _ _ _ _ (Hus j v Hv)) as (HL' & HE' & HS').
    rewrite orb_true_iff, !andb_true_iff, HE, HS, HL', HE' in Hd. lia.
  - intros Hq. destruct (lookup_lt_is_Some_2 us (Z.to_nat (q - n))) as [v Hv]; [lia|]. exists (Z.to_nat (q - n)), v.
    destruct (decoded_kinds _ _ _ _ _ _ (Hus _ v Hv)) as (HL' & HE' & HS'). split_and!; [done|lia|].
    rewrite orb_true_iff, !andb_true_iff, HE, HS, HL', HE'. lia.
Qed.

(** C33: an instruction with at most two executes and twelve registers decodes to a
    load for every memory operand it reads, its executes, and a store for every
    memory operand it writes, in this order; the first is marked as the first and
    the last as the last, which alone may be serializing.  With consecutive
    numbers, an execute depends on all the loads and nothing else of the
    instruction, and a store on all the executes. *)
Theorem decode_micro_ops {Info} address ins ptr n latency (info : Info) :
  (exec_count ins <= 2)%nat -> (length (fst (operand_registers ins)) + length (snd (operand_registers ins)) <= 12)%nat ->
  0 <= n -> n + Z.of_nat (load_count ins + exec_count ins + store_count ins) < 2 ^ 64 -> Z.of_nat (load_count ins) < 2 ^ 32 ->
  exists us, decode address ins ptr = Ok us /\
    map uop_type us = replicate (load_count ins) UOP_LOAD ++ replicate (exec_count ins) UOP_EXECUTE ++ replicate (store_count ins) UOP_STORE /\
    forall i u, us !! i = Some u ->
      uop_first u = bool_decide (i = 0%nat) /\ uop_last u = bool_decide (S i = length us) /\
      serializing u = bool_decide (S i = length us) && is_serializing ins /\
      let d := setSequenceNumber (n + Z.of_nat i) (new_DynamicMicroOp u latency info) in
      forall q, (exists k, 0 <= k < getDependenciesLength d /\ getDependency k d = Ok q) <->
        (exists j v, us !! j = Some v /\ q = n + Z.of_nat j /\ isExecute u && isLoad v || isStore u && isExecute v = true).
Proof.
  intros He Hr Hn Hmax Hl. destruct (decode_ok address ins ptr He Hr) as (us & Hd & Hlen & Hus). exists us.
  revert He Hmax Hl Hlen Hus. generalize (load_count ins) (exec_count ins) (store_count ins). intros nl ne ns He Hmax Hl Hlen Hus.
  split_and!; [done|by apply (decoded_types ins)|]. intros i u Hu. destruct (Hus i u Hu) as [_ Ho Hi Hf Hla Hse _ _]. rewrite Hlen.
  split_and!; [done..|]. cbv zeta. intros q.
  destruct (decoded_kinds _ _ _ _ _ _ (Hus i u Hu)) as (HL & HE & HS). pose proof (lookup_lt_Some _ _ _ Hu) as Hlt.
  rewrite (numbered_dependencies u _ _ _ _ _ Ho Hi) by (repeat case_bool_decide; lia). rewrite (depends_positions ins nl ne ns us) by done.
  repeat case_bool_decide; lia.
Qed.
End decode.

(** An instruction that adds a register to a word of memory: [add [rbx+rcx], rax]. *)
Module ReadModifyWrite.
#[export] Instance decoder : Decoder unit := {
  largest_enclosing_register := id; invalid_register := Z.eqb 0; reg_is_program_counter := Z.eqb 40; last_reg := 64;
  num_operands := fun _ => 3%nat; num_memory_operands := fun _ => 1%nat; mem_base_reg := fun _ _ => 4; mem_index_reg := fun _ _ => 2;
  op_read_mem := fun _ _ => true; op_write_mem := fun _ _ => true; op_read_reg := fun _ i => Nat.eqb i 1; op_write_reg := fun _ i => Nat.eqb i 2;
  is_addr_gen := fun _ _ => false; op_is_reg := fun _ i => negb (Nat.eqb i 0); get_op_reg := fun _ i => if Nat.eqb i 1 then 1 else 33;
  size_mem_op := fun _ _ => 8;
  get_exec_microops := fun _ _ _ => 1; get_operand_size := fun _ => 64; is_pause_opcode := fun _ => false; is_branch_opcode := fun _ => false;
  is_fpvector_addsub_opcode := fun _ _ => false; is_fpvector_muldiv_opcode := fun _ _ => false; is_fpvector_ldst_opcode := fun _ _ => false;
  inst_num_id := fun _ => 7; is_nop := fun _ => false; is_atomic := fun _ => true; is_serializing := fun _ => true;
  is_conditional_branch := fun _ => false; is_barrier := fun _ => false; src_dst_merge := fun _ => false; is_X87 := fun _ => false
}.

Example decoded_registers :
  (let! us := decode 4096 tt None in Ok (map (fun u => (sourceRegisters u, addressRegisters u, destinationRegisters u)) us))
  = Ok [([2; 4], [2; 4], []); ([1], [], [33]); ([2; 4], [2; 4], [])].
Proof. vm_compute. reflexivity. Qed.

Lemma decode_micro_ops_witness : (load_count tt = 1 /\ exec_count tt = 1 /\ store_count tt = 1)%nat /\ exists us, decode 4096 tt None = Ok us /\
  map uop_type us = replicate (load_count tt) UOP_LOAD ++ replicate (exec_count tt) UOP_EXECUTE ++ replicate (store_count tt) UOP_STORE /\
  forall i u, us !! i = Some u ->
    uop_first u = bool_decide (i = 0%nat) /\ uop_last u = bool_decide (S i = length us) /\
    serializing u = bool_decide (S i = length us) && is_serializing tt /\
    let d := setSequenceNumber (10 + Z.of_nat i) (new_DynamicMicroOp u 1 tt) in
    forall q, (exists k, 0 <= k < getDependenciesLength d /\ getDependency k d = Ok q) <->
      (exists j v, us !! j = Some v /\ q = 10 + Z.of_nat j /\ isExecute u && isLoad v || isStore u && isExecute v = true).
Proof. split; [done|]. apply (decode_micro_ops 4096 tt None 10 1 tt); vm_compute; (lia || congruence). Defined.
End ReadModifyWrite.
