(* ===== verification/Dependencies.v ===== *)
(** Who produces what a micro-operation reads: the last writer of every register
    (performance_models/micro_op/register_dependencies.cc) and the stores and
    memory barriers in flight (memory_dependencies.cc). *)
From stdpp Require Import base numbers list.
From Stdlib Require Import ZArith Lia Bool.
From S2P Require Import Prelude Queues MicroOp.
Open Scope Z_scope.

(** * RegisterDependencies

    The array has 280 cells of which [clear] writes the first [last_reg]; the
    others have no value. *)
Module RegisterDependencies.
Definition size : Z := 280.

Section registers.
Context {Inst Info : Type} `{Decoder Inst}.
Abbreviation Dyn := (DynamicMicroOp Inst Info).

Definition create : result (list Z) :=
  guard! last_reg <=? size else Undefined in Ok (replicate (Z.to_nat last_reg) INVALID_SEQNR).

Fixpoint add_sources (lowest : Z) (regs : list Z) (producers : list Z) (u : Dyn) : result (list Z * Dyn) :=
  match regs with
  | [] => Ok (producers, u)
  | r :: regs' =>
      guard! r <? last_reg else LogError in
      let! p := aget producers (Z.to_nat r) in
      if p =? INVALID_SEQNR then add_sources lowest regs' producers u
      else if lowest <=? p then
        let! u := addDependency p u in add_sources lowest regs' producers u
      else
        let! producers := aset producers (Z.to_nat r) INVALID_SEQNR in add_sources lowest regs' producers u
  end.
Fixpoint set_producers (n : Z) (regs : list Z) (producers : list Z) : result (list Z) :=
  match regs with
  | [] => Ok producers
  | r :: regs' =>
      guard! r <? last_reg else LogError in
      let! producers := aset producers (Z.to_nat r) n in set_producers n regs' producers
  end.
Definition setDependencies (u : Dyn) (lowest : Z) (producers : list Z) : result (list Z * Dyn) :=
  let! (producers, u) := add_sources lowest (sourceRegisters (m_uop u)) producers u in
  let! producers := set_producers (sequenceNumber u) (destinationRegisters (m_uop u)) producers in
  Ok (producers, u).

Definition peekProducer (reg lowest : Z) (producers : list Z) : result Z :=
  if reg =? DL_REG_INVALID then Ok INVALID_SEQNR
  else
    let! p := aget producers (Z.to_nat reg) in
    Ok (if (p =? INVALID_SEQNR) || (p <? lowest) then INVALID_SEQNR else p).
End registers.
End RegisterDependencies.

(** * MemoryDependencies *)
Module MemoryDependencies.
(** The stores in flight, as sequence number and address, and the last barrier. *)
Record t := mk { producers : CircularQueue.t (Z * Z); membar : Z }.

Definition create : t := mk (CircularQueue.create 1024) INVALID_SEQNR.

Fixpoint pop_below (fuel : nat) (lowest : Z) (q : CircularQueue.t (Z * Z)) : result (CircularQueue.t (Z * Z)) :=
  if CircularQueue.empty q then Ok q
  else
    let! p := CircularQueue.front q in
    if p.1 <? lowest then
      match fuel with
      | O => Err OutOfFuel
      | S fuel' => let! (_, q) := CircularQueue.pop q in pop_below fuel' lowest q
      end
    else Ok q.
(** The queue holds at most 1024 stores. *)
Definition clean (lowest : Z) (m : t) : result t :=
  let! q := pop_below 1024 lowest (producers m) in Ok (mk q (membar m)).

Definition add (n address : Z) (m : t) : result t :=
  let! q := CircularQueue.push (producers m) (n, address) in Ok (mk q (membar m)).

Fixpoint find_down (i : nat) (address : Z) (q : CircularQueue.t (Z * Z)) : result Z :=
  match i with
  | O => Ok INVALID_SEQNR
  | S i' =>
      let! p := CircularQueue.at_ q (Z.of_nat i') in
      if p.2 =? address then Ok p.1 else find_down i' address q
  end.
Definition find (address : Z) (m : t) : result Z :=
  let! n := CircularQueue.size (producers m) in find_down (Z.to_nat n) address (producers m).

Section memory.
Context {Inst Info : Type}.
Abbreviation Dyn := (DynamicMicroOp Inst Info).

Definition depend_membar (lowest : Z) (m : t) (u : Dyn) : result Dyn :=
  if negb (membar m =? INVALID_SEQNR) && (lowest <? membar m) then addDependency (membar m) u else Ok u.

Definition setDependencies (u : Dyn) (lowest : Z) (m : t) : result (t * Dyn) :=
  let! m := clean lowest m in
  if isLoad (m_uop u) then
    let! p := find (address u) m in
    let! u := if p =? INVALID_SEQNR then Ok u else addDependency p u in
    let! u := depend_membar lowest m u in
    Ok (m, u)
  else if isStore (m_uop u) then
    let! m := add (sequenceNumber u) (address u) m in
    let! u := depend_membar lowest m u in
    Ok (m, u)
  else if isMemBarrier (m_uop u) then
    let! u := depend_membar lowest m u in
    Ok (mk (producers m) (sequenceNumber u), u)
  else Ok (m, u).
End memory.
End MemoryDependencies.
