(* ===== verification/RobContention.v ===== *)
(** The core models: which port and which unit a micro-operation needs, its
    latency, and the contention for ports and units within a cycle
    (performance_models/core_model/ and rob_contention_nehalem.cc,
    rob_contention_boom_v1.cc).

    The interface of the reorder buffer to them is the class [RobContention]. *)
From stdpp Require Import base numbers list.
From Stdlib Require Import ZArith Lia Bool.
From S2P Require Import Prelude Timing MicroOp.
Open Scope Z_scope.

(** * Interfaces *)

(** What a core model says of a micro-operation (class CoreModel). *)
Class CoreModel (Inst Info : Type) := {
  getInstructionLatency : MicroOp Inst -> result Z;
  getAluLatency : MicroOp Inst -> result Z;
  core_info_of : MicroOp Inst -> result Info;
  getBypassLatency : Info -> Z
}.

Definition createDynamicMicroOp {Inst Info} `{CoreModel Inst Info} (uop : MicroOp Inst)
  : result (DynamicMicroOp Inst Info) :=
  let! latency := getInstructionLatency uop in
  let! info := core_info_of uop in
  Ok (new_DynamicMicroOp uop latency info).

(** Class RobContention, for a type of micro-operations. *)
Class RobContention (C Uop : Type) := {
  initCycle : Z -> C -> C;
  tryIssue : Uop -> C -> bool * C;
  noMore : C -> bool;
  doIssue : Uop -> C -> result C
}.

(** Both core models have one unit that is not pipelined. *)
Inductive uop_alu_t := UOP_ALU_NONE | UOP_ALU_TRIG.
Inductive uop_bypass_t := UOP_BYPASS_NONE | UOP_BYPASS_LOAD_FP | UOP_BYPASS_FP_STORE.
#[export] Instance uop_alu_eq_dec : EqDecision uop_alu_t.
Proof. solve_decision. Defined.

(** [getBypassType], the same in both. *)
Definition getBypassType {Inst} `{Decoder Inst} (u : MicroOp Inst) : uop_bypass_t :=
  match uop_subtype u with
  | UOP_SUBTYPE_LOAD => if isFpLoadStore u then UOP_BYPASS_LOAD_FP else UOP_BYPASS_NONE
  | UOP_SUBTYPE_STORE => if isFpLoadStore u then UOP_BYPASS_FP_STORE else UOP_BYPASS_NONE
  | _ => UOP_BYPASS_NONE
  end.

(** * Nehalem *)

(** The instruction classes of XED that the core model names. *)
Inductive xed_iclass :=
  | XED_ADDPD | XED_ADDPS | XED_ADDSD | XED_ADDSS | XED_ADDSUBPD | XED_ADDSUBPS | XED_ANDNPD | XED_ANDNPS
  | XED_ANDPD | XED_ANDPS | XED_COMISD | XED_COMISS | XED_CVTDQ2PD | XED_CVTDQ2PS | XED_CVTPD2DQ | XED_CVTPD2PI
  | XED_CVTPD2PS | XED_CVTPI2PD | XED_CVTPI2PS | XED_CVTPS2DQ | XED_CVTPS2PD | XED_CVTPS2PI | XED_CVTSD2SI
  | XED_CVTSD2SS | XED_CVTSI2SD | XED_CVTSI2SS | XED_CVTSS2SD | XED_CVTSS2SI | XED_CVTTPD2DQ | XED_CVTTPD2PI
  | XED_CVTTPS2DQ | XED_CVTTPS2PI | XED_CVTTSD2SI | XED_CVTTSS2SI | XED_DIV | XED_DIVPD | XED_DIVPS | XED_DIVSD
  | XED_DIVSS | XED_FDIV | XED_FDIVP | XED_FDIVR | XED_FDIVRP | XED_FIDIV | XED_FLDENV | XED_FNSTENV | XED_IDIV
  | XED_IMUL | XED_LEA | XED_MAXPD | XED_MAXPS | XED_MAXSD | XED_MAXSS | XED_MINPD | XED_MINPS | XED_MINSD
  | XED_MINSS | XED_MOVAPD | XED_MOVAPS | XED_MOVHLPS | XED_MOVHPD | XED_MOVHPS | XED_MOVLHPS | XED_MOVLPD
  | XED_MOVLPS | XED_MOVMSKPD | XED_MOVMSKPS | XED_MOVSD_XMM | XED_MOVSHDUP | XED_MOVSLDUP | XED_MOVSS | XED_MUL
  | XED_MULPD | XED_MULPS | XED_MULSD | XED_MULSS | XED_ORPD | XED_ORPS | XED_ROUNDPD | XED_ROUNDPS | XED_RSQRTPS
  | XED_RSQRTSS | XED_SQRTPD | XED_SQRTPS | XED_SQRTSD | XED_SQRTSS | XED_SUBPD | XED_SUBPS | XED_SUBSD | XED_SUBSS
  | XED_UCOMISD | XED_UCOMISS | XED_UNPCKHPD | XED_UNPCKHPS | XED_UNPCKLPD | XED_UNPCKLPS | XED_VADDPD | XED_VADDPS
  | XED_VADDSD | XED_VADDSS | XED_VADDSUBPD | XED_VADDSUBPS | XED_VDIVPD | XED_VDIVPS | XED_VDIVSD | XED_VDIVSS
  | XED_VMOVAPD | XED_VMOVAPS | XED_VMOVHLPS | XED_VMOVHPD | XED_VMOVHPS | XED_VMOVLHPS | XED_VMOVLPD | XED_VMOVLPS
  | XED_VMOVMSKPD | XED_VMOVMSKPS | XED_VMOVSD | XED_VMOVSHDUP | XED_VMOVSLDUP | XED_VMOVSS | XED_VMULPD
  | XED_VMULPS | XED_VMULSD | XED_VMULSS | XED_VRSQRTPS | XED_VRSQRTSS | XED_VSQRTPD | XED_VSQRTPS | XED_VSQRTSD
  | XED_VSQRTSS | XED_VSUBPD | XED_VSUBPS | XED_VSUBSD | XED_VSUBSS | XED_XORPD | XED_XORPS | XED_OTHER.

(** The numbers of the classes are XED's. *)
Class Xed := { iclass_of : Z -> xed_iclass; XED_ICLASS_LAST : Z }.

Module Nehalem.
Inductive uop_port_t := UOP_PORT0 | UOP_PORT1 | UOP_PORT2 | UOP_PORT34 | UOP_PORT5 | UOP_PORT05 | UOP_PORT015.
#[export] Instance uop_port_eq_dec : EqDecision uop_port_t.
Proof. solve_decision. Defined.

(** The members of DynamicMicroOpNehalem. *)
Record info := mkInfo { uop_port : uop_port_t; uop_alu : uop_alu_t; uop_bypass : uop_bypass_t }.

Definition instructionLatencies (c : xed_iclass) : Z :=
  match c with
  | XED_CVTPS2PD => 2
  | XED_MUL | XED_IMUL | XED_ADDPS | XED_ADDSS | XED_ADDSUBPS | XED_SUBPS | XED_SUBSS | XED_VADDPS | XED_VADDSS
  | XED_VADDSUBPS | XED_VSUBPS | XED_VSUBSS | XED_ADDPD | XED_ADDSD | XED_ADDSUBPD | XED_SUBPD | XED_SUBSD
  | XED_VADDPD | XED_VADDSD | XED_VADDSUBPD | XED_VSUBPD | XED_VSUBSD | XED_MAXSS | XED_MAXSD | XED_MAXPS
  | XED_MAXPD | XED_MINSS | XED_MINSD | XED_MINPS | XED_MINPD | XED_RSQRTSS | XED_RSQRTPS | XED_VRSQRTSS
  | XED_VRSQRTPS | XED_COMISS | XED_COMISD | XED_UCOMISS | XED_UCOMISD => 3
  | XED_MULSS | XED_MULPS | XED_VMULSS | XED_VMULPS | XED_CVTPD2PS | XED_CVTSD2SS => 4
  | XED_MULSD | XED_MULPD | XED_VMULSD | XED_VMULPD | XED_CVTDQ2PS | XED_CVTPS2DQ | XED_CVTTPS2DQ | XED_CVTPI2PS
  | XED_CVTPS2PI | XED_CVTTPS2PI | XED_CVTSI2SS | XED_CVTSS2SI | XED_CVTTSS2SI | XED_CVTSD2SI | XED_CVTTSD2SI => 5
  | XED_CVTDQ2PD | XED_CVTPD2DQ | XED_CVTTPD2DQ | XED_CVTPI2PD | XED_CVTPD2PI | XED_CVTTPD2PI | XED_CVTSI2SD => 6
  | XED_DIVSS | XED_DIVPS | XED_VDIVSS | XED_VDIVPS => 11
  | XED_DIVSD | XED_DIVPD | XED_VDIVSD | XED_VDIVPD => 17
  | XED_SQRTSS | XED_SQRTPS | XED_VSQRTSS | XED_VSQRTPS => 18
  | XED_DIV | XED_IDIV => 28
  | XED_SQRTSD | XED_SQRTPD | XED_VSQRTSD | XED_VSQRTPD => 32
  | XED_FNSTENV => 75
  | XED_FLDENV => 110
  | _ => 1
  end.

Definition bypassLatencies (b : uop_bypass_t) : Z :=
  match b with
  | UOP_BYPASS_NONE => 0
  | UOP_BYPASS_LOAD_FP => 2
  | UOP_BYPASS_FP_STORE => 1
  end.

(** The port of a generic micro-operation. *)
Definition generic_port (c : xed_iclass) (size : Z) : uop_port_t :=
  match c with
  | XED_IMUL => if size =? 64 then UOP_PORT0 else UOP_PORT1
  | XED_LEA => UOP_PORT1
  | XED_CVTPS2PD | XED_CVTSS2SD | XED_SQRTSS | XED_SQRTPS | XED_SQRTSD | XED_SQRTPD | XED_VSQRTSS | XED_VSQRTPS
  | XED_VSQRTSD | XED_VSQRTPD => UOP_PORT0
  | XED_COMISD | XED_COMISS | XED_UCOMISD | XED_UCOMISS | XED_MAXSS | XED_MAXSD | XED_MAXPS | XED_MAXPD | XED_MINSS
  | XED_MINSD | XED_MINPS | XED_MINPD | XED_ROUNDPS | XED_ROUNDPD | XED_CVTPD2PS | XED_CVTSD2SS | XED_CVTDQ2PS
  | XED_CVTPS2DQ | XED_CVTTPS2DQ | XED_CVTDQ2PD | XED_CVTPD2DQ | XED_CVTTPD2DQ | XED_CVTPI2PS | XED_CVTPS2PI
  | XED_CVTTPS2PI | XED_CVTPI2PD | XED_CVTPD2PI | XED_CVTTPD2PI | XED_CVTSI2SS | XED_CVTSS2SI | XED_CVTTSS2SI
  | XED_CVTSI2SD | XED_CVTSD2SI | XED_CVTTSD2SI | XED_RSQRTSS | XED_RSQRTPS | XED_VRSQRTSS | XED_VRSQRTPS => UOP_PORT1
  | XED_ANDPS | XED_ANDPD | XED_ANDNPS | XED_ANDNPD | XED_ORPS | XED_ORPD | XED_XORPS | XED_XORPD | XED_MOVAPD
  | XED_MOVAPS | XED_MOVHLPS | XED_MOVHPD | XED_MOVHPS | XED_MOVLHPS | XED_MOVLPD | XED_MOVLPS | XED_MOVMSKPD
  | XED_MOVMSKPS | XED_MOVSD_XMM | XED_MOVSHDUP | XED_MOVSLDUP | XED_MOVSS | XED_VMOVAPD | XED_VMOVAPS
  | XED_VMOVHLPS | XED_VMOVHPD | XED_VMOVHPS | XED_VMOVLHPS | XED_VMOVLPD | XED_VMOVLPS | XED_VMOVMSKPD
  | XED_VMOVMSKPS | XED_VMOVSD | XED_VMOVSHDUP | XED_VMOVSLDUP | XED_VMOVSS | XED_UNPCKHPD | XED_UNPCKHPS
  | XED_UNPCKLPD | XED_UNPCKLPS => UOP_PORT5
  | _ => UOP_PORT015
  end.

Section model.
Context {Inst : Type} `{Decoder Inst} `{Xed}.
Implicit Types u : MicroOp Inst.

Definition getPort u : uop_port_t :=
  match uop_subtype u with
  | UOP_SUBTYPE_FP_ADDSUB => UOP_PORT1
  | UOP_SUBTYPE_FP_MULDIV => UOP_PORT0
  | UOP_SUBTYPE_LOAD => UOP_PORT2
  | UOP_SUBTYPE_STORE => UOP_PORT34
  | UOP_SUBTYPE_GENERIC => generic_port (iclass_of (instructionOpcode u)) (operand_size u)
  | UOP_SUBTYPE_BRANCH => UOP_PORT5
  end.

Definition trig_class (c : xed_iclass) : uop_alu_t :=
  match c with
  | XED_DIV | XED_IDIV | XED_FDIV | XED_FIDIV | XED_FDIVP | XED_FDIVR | XED_FDIVRP | XED_DIVSS | XED_DIVPS
  | XED_DIVSD | XED_DIVPD | XED_VDIVSS | XED_VDIVPS | XED_VDIVSD | XED_VDIVPD | XED_SQRTSS | XED_SQRTPS | XED_SQRTSD
  | XED_SQRTPD | XED_VSQRTSS | XED_VSQRTPS | XED_VSQRTSD | XED_VSQRTPD | XED_RSQRTSS | XED_RSQRTPS | XED_VRSQRTSS
  | XED_VRSQRTPS => UOP_ALU_TRIG
  | _ => UOP_ALU_NONE
  end.
Definition getAlu u : uop_alu_t :=
  match uop_type u with
  | UOP_EXECUTE => trig_class (iclass_of (instructionOpcode u))
  | _ => UOP_ALU_NONE
  end.

Definition instruction_latency u : result Z :=
  guard! (0 <=? instructionOpcode u) && (instructionOpcode u <? XED_ICLASS_LAST) else LogError in
  Ok (instructionLatencies (iclass_of (instructionOpcode u))).
Definition alu_latency u : result Z :=
  match iclass_of (instructionOpcode u) with
  | XED_DIV | XED_IDIV => Ok (if 32 <? operand_size u then 28 else 9)
  | _ => instruction_latency u
  end.

#[export] Instance core_model : CoreModel Inst info := {
  getInstructionLatency := instruction_latency;
  getAluLatency := alu_latency;
  core_info_of := fun u => Ok (mkInfo (getPort u) (getAlu u) (getBypassType u));
  getBypassLatency := fun i => bypassLatencies (uop_bypass i)
}.

(** [RobContentionNehalem].  An array over an enumeration is a function. *)
Record contention := mkContention {
  m_now : ComponentTime.t;
  ports : uop_port_t -> bool;
  ports_generic : Z;
  ports_generic05 : Z;
  alu_used_until : uop_alu_t -> Z
}.
Definition create (period : Z) : contention :=
  mkContention (ComponentTime.create period) (fun _ => false) 0 0 (fun _ => 0).

Definition init_cycle (now : Z) (c : contention) : contention :=
  mkContention (ComponentTime.mk (ComponentTime.m_period (m_now c)) now) (fun _ => false) 0 0 (alu_used_until c).

Definition set_port (p : uop_port_t) (c : contention) (generic generic05 : Z) : contention :=
  mkContention (m_now c) (fun q => if bool_decide (q = p) then true else ports c q) generic generic05 (alu_used_until c).
Definition set_generic (generic generic05 : Z) (c : contention) : contention :=
  mkContention (m_now c) (ports c) generic generic05 (alu_used_until c).

(** The port part of [tryIssue]. *)
Definition take_port (p : uop_port_t) (c : contention) : option contention :=
  match p with
  | UOP_PORT015 => if 3 <=? ports_generic c then None else Some (set_generic (ports_generic c + 1) (ports_generic05 c) c)
  | UOP_PORT05 => if 2 <=? ports_generic05 c then None else Some (set_generic (ports_generic c) (ports_generic05 c + 1) c)
  | UOP_PORT2 | UOP_PORT34 => if ports c p then None else Some (set_port p c (ports_generic c) (ports_generic05 c))
  | _ =>
      if ports c p then None
      else if 3 <=? ports_generic c then None
      else if bool_decide (p <> UOP_PORT1) && (2 <=? ports_generic05 c) then None
      else Some (set_port p c (ports_generic c + 1)
                   (if bool_decide (p <> UOP_PORT1) then ports_generic05 c + 1 else ports_generic05 c))
  end.
Definition try_issue (u : DynamicMicroOp Inst info) (c : contention) : bool * contention :=
  match take_port (uop_port (core_info u)) c with
  | None => (false, c)
  | Some c =>
      match uop_alu (core_info u) with
      | UOP_ALU_NONE => (true, c)
      | alu => (alu_used_until c alu <=? ComponentTime.m_time (m_now c), c)
      end
  end.

Definition do_issue (u : DynamicMicroOp Inst info) (c : contention) : result contention :=
  match uop_alu (core_info u) with
  | UOP_ALU_NONE => Ok c
  | alu =>
      let! latency := alu_latency (m_uop u) in
      let until := ComponentTime.m_time (ComponentTime.addCycleLatency latency (m_now c)) in
      Ok (mkContention (m_now c) (ports c) (ports_generic c) (ports_generic05 c)
            (fun a => if bool_decide (a = alu) then until else alu_used_until c a))
  end.

Definition no_more (c : contention) : bool := ports c UOP_PORT2 && ports c UOP_PORT34 && (3 <=? ports_generic c).

#[export] Instance rob_contention : RobContention contention (DynamicMicroOp Inst info) := {
  initCycle := init_cycle;
  tryIssue := try_issue;
  noMore := no_more;
  doIssue := do_issue
}.
End model.
End Nehalem.

(** * BOOM *)
Module BoomV1.
(** The table of instructions (core_model/riscv_meta.h): runs of entries with the
    same seven flags, has_alu in bit 0, then has_mul, has_div, has_fpu, has_fdiv,
    has_ifpu and is_memory. *)
Definition instr_runs : list (Z * Z) :=
  [
    (1, 0); (10, 1); (8, 65); (21, 1); (3, 65); (21, 1); (4, 3); (4, 5); (1, 3); (4, 5); (1, 3); (4, 5); (3, 65);
    (8, 1); (3, 65); (8, 1); (3, 65); (23, 1); (2, 73); (6, 9); (2, 25); (9, 9); (4, 41); (3, 9); (4, 41);
    (2, 73); (6, 9); (2, 25); (5, 9); (2, 41); (4, 9); (4, 41); (1, 9); (2, 41); (1, 9); (2, 41); (1, 9); (2, 73);
    (6, 9); (2, 25); (24, 9); (1, 1); (6, 65); (30, 1); (2, 65); (1, 1); (4, 65); (48, 1); (1, 0)
  ].
Definition instrlist : list Z := mjoin (map (fun r => replicate (Z.to_nat r.1) r.2) instr_runs).
Definition rv_op_last : Z := 318.
Definition has_alu (f : Z) : bool := Z.testbit f 0.
Definition has_mul (f : Z) : bool := Z.testbit f 1.
Definition has_div (f : Z) : bool := Z.testbit f 2.
Definition has_fpu (f : Z) : bool := Z.testbit f 3.
Definition has_fdiv (f : Z) : bool := Z.testbit f 4.
Definition is_memory (f : Z) : bool := Z.testbit f 6.

Inductive uop_port_t := UOP_PORT0 | UOP_PORT1 | UOP_PORT2 | UOP_PORT012.
#[export] Instance uop_port_eq_dec : EqDecision uop_port_t.
Proof. solve_decision. Defined.
Record info := mkInfo { uop_port : uop_port_t; uop_alu : uop_alu_t; uop_bypass : uop_bypass_t }.

Section model.
Context {Inst : Type} `{Decoder Inst}.
Implicit Types u : MicroOp Inst.

Definition getPort u : result uop_port_t :=
  let! f := aget instrlist (Z.to_nat (instructionOpcode u)) in
  Ok (if has_fpu f || has_fdiv f || has_mul f then UOP_PORT0
      else if has_div f then UOP_PORT1
      else if is_memory f then UOP_PORT2
      else UOP_PORT012).

(** div, divu, divw, divuw, divd, divud, and fdiv in three precisions *)
Definition divisions : list Z := [68; 69; 73; 74; 78; 79; 139; 169; 201].
(** fsqrt in three precisions *)
Definition roots : list Z := [145; 177; 211].
Definition getAlu u : uop_alu_t :=
  match uop_type u with
  | UOP_EXECUTE =>
      if existsb (Z.eqb (instructionOpcode u)) (divisions ++ roots) then UOP_ALU_TRIG else UOP_ALU_NONE
  | _ => UOP_ALU_NONE
  end.

Definition instructionLatencies (f : Z) : Z :=
  if has_fpu f && has_alu f then 4 else if has_alu f && has_mul f then 3 else 1.
Definition instruction_latency u : result Z :=
  guard! (0 <? instructionOpcode u) && (instructionOpcode u <? rv_op_last) else LogError in
  let! f := aget instrlist (Z.to_nat (instructionOpcode u)) in Ok (instructionLatencies f).
Definition alu_latency u : result Z :=
  if existsb (Z.eqb (instructionOpcode u)) divisions then Ok 32 else instruction_latency u.

(** The array of bypass latencies is static and never written. *)
#[export] Instance core_model : CoreModel Inst info := {
  getInstructionLatency := instruction_latency;
  getAluLatency := alu_latency;
  core_info_of := fun u => let! p := getPort u in Ok (mkInfo p (getAlu u) (getBypassType u));
  getBypassLatency := fun _ => 0
}.

(** [RobContentionBoomV1] *)
Record contention := mkContention {
  m_now : ComponentTime.t;
  ports : uop_port_t -> bool;
  ports_generic012 : Z;
  alu_used_until : uop_alu_t -> Z
}.
Definition create (period : Z) : contention :=
  mkContention (ComponentTime.create period) (fun _ => false) 0 (fun _ => 0).
Definition init_cycle (now : Z) (c : contention) : contention :=
  mkContention (ComponentTime.mk (ComponentTime.m_period (m_now c)) now) (fun _ => false) 0 (alu_used_until c).

Definition take_port (p : uop_port_t) (c : contention) : option contention :=
  match p with
  | UOP_PORT012 =>
      if 3 <=? ports_generic012 c then None
      else Some (mkContention (m_now c) (ports c) (ports_generic012 c + 1) (alu_used_until c))
  | _ =>
      if ports c p then None
      else if 3 <=? ports_generic012 c then None
      else Some (mkContention (m_now c) (fun q => if bool_decide (q = p) then true else ports c q)
                   (ports_generic012 c + 1) (alu_used_until c))
  end.
Definition try_issue (u : DynamicMicroOp Inst info) (c : contention) : bool * contention :=
  match take_port (uop_port (core_info u)) c with
  | None => (false, c)
  | Some c =>
      match uop_alu (core_info u) with
      | UOP_ALU_NONE => (true, c)
      | alu => (alu_used_until c alu <=? ComponentTime.m_time (m_now c), c)
      end
  end.

Definition do_issue (u : DynamicMicroOp Inst info) (c : contention) : result contention :=
  match uop_alu (core_info u) with
  | UOP_ALU_NONE => Ok c
  | alu =>
      let! latency := alu_latency (m_uop u) in
      let until := ComponentTime.m_time (ComponentTime.addCycleLatency latency (m_now c)) in
      Ok (mkContention (m_now c) (ports c) (ports_generic012 c)
            (fun a => if bool_decide (a = alu) then until else alu_used_until c a))
  end.

Definition no_more (c : contention) : bool := ports c UOP_PORT2 && (3 <=? ports_generic012 c).

#[export] Instance rob_contention : RobContention contention (DynamicMicroOp Inst info) := {
  initCycle := init_cycle;
  tryIssue := try_issue;
  noMore := no_more;
  doIssue := do_issue
}.
End model.
End BoomV1.
