(* ===== verification/RobTimer.v ===== *)
(** The out-of-order core model (rob_performance_model/rob_timer.cc): micro-
    operations enter a reorder buffer, are dispatched in order into a window,
    issue when what they read is there, and commit in order.

    The ring buffer that holds the entries is written as the list of its elements
    (Queues shows that it behaves as one).  A pointer to an entry is written as
    the sequence number of the entry, which no other entry of the buffer has.  The
    data cache is the interface [DataMemory], the ports and units are the interface
    [RobContention].  What is handed to the instruction tracer at commit is a
    list in the state.  The counters kept for statistics are a record. *)
From stdpp Require Import base numbers list.
From Stdlib Require Import ZArith Lia Bool.
From S2P Require Import Prelude Timing MicroOp Dependencies RobContention.
Open Scope Z_scope.

(** [Core::accessMemory] as the core model calls it: whether it is a store, the
    address and size, the program counter and the time; the result is a latency
    and where the data was found. *)
Class DataMemory (M : Type) := {
  access_data : forall (store : bool) (address size eip now : Z), M -> result (Z * Z * M)
}.

(** HitWhereIsValid: the values HitWhereString has a name for. *)
Definition HitWhereIsValid (h : Z) : bool :=
  ((2 <=? h) && (h <=? 13)) || ((17 <=? h) && (h <=? 23)).

Record RobConfig := mkRobConfig {
  dispatchWidth : Z;
  commitWidth : Z;
  windowSize : Z;
  rsEntries : Z;
  misprediction_penalty : Z;
  m_store_to_load_forwarding : bool;
  m_no_address_disambiguation : bool;
  inorder : bool;
  m_mlp_histogram : bool;
  lll_cutoff : Z;
  outstanding_loads : Z;
  outstanding_stores : Z
}.

(** * Entries *)
Record RobEntry {Inst Info : Type} := mkEntry {
  inlineDependants : list Z;
  vectorDependants : option (list Z);
  addressProducers : list Z;
  uop : DynamicMicroOp Inst Info;
  dispatched : Z;
  ready : Z;
  readyMax : Z;
  addressReady : Z;
  addressReadyMax : Z;
  issued : Z;
  done_ : Z
}.
Arguments RobEntry : clear implicits.

Definition MAX_INLINE_DEPENDANTS : nat := 8.

Section entry.
Context {Inst Info : Type}.
Abbreviation Dyn := (DynamicMicroOp Inst Info).
Abbreviation Entry := (RobEntry Inst Info).
Implicit Types e : Entry.

(** [RobEntry::init]; [dispatched] is written when the entry is dispatched and
    not read before. *)
Definition init_entry (u : Dyn) (n : Z) : Entry :=
  mkEntry _ _ [] None [] (setSequenceNumber n u) 0 MaxTime 0 MaxTime 0 MaxTime MaxTime.

Definition seq_of e : Z := sequenceNumber (uop e).
Definition mop e : MicroOp Inst := m_uop (uop e).
Definition is_done e : bool := negb (done_ e =? MaxTime).

Definition addDependant (n : Z) e : Entry :=
  if bool_decide (length (inlineDependants e) < MAX_INLINE_DEPENDANTS)%nat
  then mkEntry _ _ (inlineDependants e ++ [n]) (vectorDependants e) (addressProducers e) (uop e) (dispatched e)
         (ready e) (readyMax e) (addressReady e) (addressReadyMax e) (issued e) (done_ e)
  else mkEntry _ _ (inlineDependants e) (Some (default [] (vectorDependants e) ++ [n])) (addressProducers e) (uop e)
         (dispatched e) (ready e) (readyMax e) (addressReady e) (addressReadyMax e) (issued e) (done_ e).
Definition getNumDependants e : nat :=
  (length (inlineDependants e) + match vectorDependants e with Some l => length l | None => 0 end)%nat.
Definition getDependant (idx : nat) e : result Z :=
  if bool_decide (idx < MAX_INLINE_DEPENDANTS)%nat then of_option (inlineDependants e !! idx) LogError
  else
    let! l := of_option (vectorDependants e) Undefined in
    of_option (l !! (idx - MAX_INLINE_DEPENDANTS)%nat) LogError.
(** The calls of [getDependant] for all indices below [getNumDependants]. *)
Definition all_dependants e : result (list Z) := mapM_r (fun i => getDependant i e) (seq 0 (getNumDependants e)).

Definition with_uop (u : Dyn) e : Entry :=
  mkEntry _ _ (inlineDependants e) (vectorDependants e) (addressProducers e) u (dispatched e)
    (ready e) (readyMax e) (addressReady e) (addressReadyMax e) (issued e) (done_ e).
Definition addAddressProducer (n : Z) e : Entry :=
  mkEntry _ _ (inlineDependants e) (vectorDependants e) (addressProducers e ++ [n]) (uop e) (dispatched e)
    (ready e) (readyMax e) (addressReady e) (addressReadyMax e) (issued e) (done_ e).
Definition with_ready (t tmax : Z) e : Entry :=
  mkEntry _ _ (inlineDependants e) (vectorDependants e) (addressProducers e) (uop e) (dispatched e)
    t tmax (addressReady e) (addressReadyMax e) (issued e) (done_ e).
Definition with_addressReady (t tmax : Z) e : Entry :=
  mkEntry _ _ (inlineDependants e) (vectorDependants e) (addressProducers e) (uop e) (dispatched e)
    (ready e) (readyMax e) t tmax (issued e) (done_ e).
Definition with_dispatched (t : Z) e : Entry :=
  mkEntry _ _ (inlineDependants e) (vectorDependants e) (addressProducers e) (uop e) t
    (ready e) (readyMax e) (addressReady e) (addressReadyMax e) (issued e) (done_ e).
Definition with_done (i d : Z) e : Entry :=
  mkEntry _ _ (inlineDependants e) (vectorDependants e) (addressProducers e) (uop e) (dispatched e)
    (ready e) (readyMax e) (addressReady e) (addressReadyMax e) i d.

(** The dependencies of a micro-operation, in the order the loops read them. *)
Definition dep_list (u : Dyn) : result (list Z) :=
  mapM_r (fun i => getDependency (Z.of_nat i) u) (seq 0 (Z.to_nat (getDependenciesLength u))).

(** [findEntryBySequenceNumber]: the position of the entry. *)
Definition findEntryBySequenceNumber (n : Z) (rob : list Entry) : result (nat * Entry) :=
  let! e0 := aget rob 0 in
  let position := u64 (n - seq_of e0) in
  guard! position <? Z.of_nat (length rob) else LogError in
  let! e := aget rob (Z.to_nat position) in
  guard! seq_of e =? n else LogError in
  Ok (Z.to_nat position, e).

(** Following a pointer to an entry: it has to point into the buffer. *)
Definition deref (n : Z) (rob : list Entry) : result (nat * Entry) :=
  let! e0 := aget rob 0 in
  let i := Z.to_nat (n - seq_of e0) in
  let! e := aget rob i in
  guard! seq_of e =? n else Undefined in Ok (i, e).
End entry.

(** * Statistics *)
Inductive cpi_t :=
  | CpiBase | CpiBranchPredictor | CpiSerialization | CpiRSFull
  | CpiInstructionCache (h : Z) | CpiDataCache (h : Z).
#[export] Instance cpi_eq_dec : EqDecision cpi_t.
Proof. solve_decision. Defined.

(** A pointer into one of the vectors with a cell for every place. *)
Definition cpi_at (c : Z -> cpi_t) (h : Z) : result cpi_t :=
  guard! (0 <=? h) && (h <? NUM_WHERES) else Undefined in Ok (c h).

Definition MAX_OUTSTANDING : nat := 32.

Record RobStats := mkStats {
  m_uop_type_count : uop_subtype_t -> Z;
  m_uops_total : Z;
  m_uops_x87 : Z;
  m_uops_pause : Z;
  m_loads_count : Z;
  m_loads_latency : Z;
  m_stores_count : Z;
  m_stores_latency : Z;
  m_outstandingLongLatencyInsns : Z;
  m_outstandingLongLatencyCycles : Z;
  m_lastAccountedMemoryCycle : Z;
  m_totalProducerInsDistance : Z;
  m_totalConsumers : Z;
  m_producerInsDistance : list Z;
  m_cpi : cpi_t -> Z;
  m_outstandingLoads : list (list Z);
  m_outstandingLoadsAll : list Z
}.

Definition new_stats (cfg : RobConfig) : RobStats :=
  mkStats (fun _ => 0) 0 0 0 0 0 0 0 0 0 0 0 0 (replicate (Z.to_nat (windowSize cfg)) 0) (fun _ => 0)
    (map (fun h => if m_mlp_histogram cfg && HitWhereIsValid (Z.of_nat h) then replicate MAX_OUTSTANDING 0 else [])
       (seq 0 (Z.to_nat NUM_WHERES)))
    (if m_mlp_histogram cfg then replicate MAX_OUTSTANDING 0 else []).

(** Counting a micro-operation that enters. *)
Definition count_uop (ty : uop_subtype_t) (x87 pause : bool) (st : RobStats) : RobStats :=
  mkStats (fun t => if bool_decide (t = ty) then u64 (m_uop_type_count st t + 1) else m_uop_type_count st t)
    (u64 (m_uops_total st + 1)) (if x87 then u64 (m_uops_x87 st + 1) else m_uops_x87 st)
    (if pause then u64 (m_uops_pause st + 1) else m_uops_pause st)
    (m_loads_count st) (m_loads_latency st) (m_stores_count st) (m_stores_latency st)
    (m_outstandingLongLatencyInsns st) (m_outstandingLongLatencyCycles st) (m_lastAccountedMemoryCycle st)
    (m_totalProducerInsDistance st) (m_totalConsumers st) (m_producerInsDistance st) (m_cpi st)
    (m_outstandingLoads st) (m_outstandingLoadsAll st).

(** The distance to the nearest producer; [None] when nothing in the buffer is one. *)
Definition count_distance (distance : option Z) (st : RobStats) : result RobStats :=
  let total := match distance with Some d => u64 (m_totalProducerInsDistance st + d) | None => m_totalProducerInsDistance st end in
  let n := Z.of_nat (length (m_producerInsDistance st)) in
  let cell := match distance with Some d => if n <=? d then u64 (n - 1) else d | None => 0 end in
  let! x := aget (m_producerInsDistance st) (Z.to_nat cell) in
  let! l := aset (m_producerInsDistance st) (Z.to_nat cell) (u64 (x + 1)) in
  Ok (mkStats (m_uop_type_count st) (m_uops_total st) (m_uops_x87 st) (m_uops_pause st)
        (m_loads_count st) (m_loads_latency st) (m_stores_count st) (m_stores_latency st)
        (m_outstandingLongLatencyInsns st) (m_outstandingLongLatencyCycles st) (m_lastAccountedMemoryCycle st)
        total (u64 (m_totalConsumers st + 1)) l (m_cpi st) (m_outstandingLoads st) (m_outstandingLoadsAll st)).

Definition count_load (latency : Z) (st : RobStats) : RobStats :=
  mkStats (m_uop_type_count st) (m_uops_total st) (m_uops_x87 st) (m_uops_pause st)
    (u64 (m_loads_count st + 1)) (tadd (m_loads_latency st) latency) (m_stores_count st) (m_stores_latency st)
    (m_outstandingLongLatencyInsns st) (m_outstandingLongLatencyCycles st) (m_lastAccountedMemoryCycle st)
    (m_totalProducerInsDistance st) (m_totalConsumers st) (m_producerInsDistance st) (m_cpi st)
    (m_outstandingLoads st) (m_outstandingLoadsAll st).
Definition count_store (latency : Z) (st : RobStats) : RobStats :=
  mkStats (m_uop_type_count st) (m_uops_total st) (m_uops_x87 st) (m_uops_pause st)
    (m_loads_count st) (m_loads_latency st) (u64 (m_stores_count st + 1)) (tadd (m_stores_latency st) latency)
    (m_outstandingLongLatencyInsns st) (m_outstandingLongLatencyCycles st) (m_lastAccountedMemoryCycle st)
    (m_totalProducerInsDistance st) (m_totalConsumers st) (m_producerInsDistance st) (m_cpi st)
    (m_outstandingLoads st) (m_outstandingLoadsAll st).

(** The accounting of memory-level parallelism for a long-latency load issued at
    [now] that is done at [d]. *)
Definition count_long_latency (now d : Z) (st : RobStats) : RobStats :=
  let last_ := if m_lastAccountedMemoryCycle st <? now then now else m_lastAccountedMemoryCycle st in
  let d := Z.max now d in
  let insns := tadd (m_outstandingLongLatencyInsns st) (tsub d now) in
  mkStats (m_uop_type_count st) (m_uops_total st) (m_uops_x87 st) (m_uops_pause st)
    (m_loads_count st) (m_loads_latency st) (m_stores_count st) (m_stores_latency st) insns
    (if last_ <? d then tadd (m_outstandingLongLatencyCycles st) (tsub d last_) else m_outstandingLongLatencyCycles st)
    (if last_ <? d then d else last_)
    (m_totalProducerInsDistance st) (m_totalConsumers st) (m_producerInsDistance st) (m_cpi st)
    (m_outstandingLoads st) (m_outstandingLoadsAll st).

Definition add_cpi (c : cpi_t) (latency : Z) (st : RobStats) : RobStats :=
  mkStats (m_uop_type_count st) (m_uops_total st) (m_uops_x87 st) (m_uops_pause st)
    (m_loads_count st) (m_loads_latency st) (m_stores_count st) (m_stores_latency st)
    (m_outstandingLongLatencyInsns st) (m_outstandingLongLatencyCycles st) (m_lastAccountedMemoryCycle st)
    (m_totalProducerInsDistance st) (m_totalConsumers st) (m_producerInsDistance st)
    (fun c' => if bool_decide (c' = c) then tadd (m_cpi st c') latency else m_cpi st c')
    (m_outstandingLoads st) (m_outstandingLoadsAll st).

Definition with_outstanding (l : list (list Z)) (all : list Z) (st : RobStats) : RobStats :=
  mkStats (m_uop_type_count st) (m_uops_total st) (m_uops_x87 st) (m_uops_pause st)
    (m_loads_count st) (m_loads_latency st) (m_stores_count st) (m_stores_latency st)
    (m_outstandingLongLatencyInsns st) (m_outstandingLongLatencyCycles st) (m_lastAccountedMemoryCycle st)
    (m_totalProducerInsDistance st) (m_totalConsumers st) (m_producerInsDistance st) (m_cpi st) l all.

(** * The timer *)

(** What [traceInstruction] is given. *)
Record Traced {Inst Info : Type} := mkTraced {
  t_uop : DynamicMicroOp Inst Info;
  t_dispatch : Z;
  t_issue : Z;
  t_done : Z;
  t_commit : Z
}.
Arguments Traced : clear implicits.

Record RobTimer {Inst Info C M : Type} := mkTimer {
  rob : list (RobEntry Inst Info);
  m_num_in_rob : Z;
  m_rs_entries_used : Z;
  m_rob_contention : option C;
  now : ComponentTime.t;
  frontend_stalled_until : Z;
  in_icache_miss : bool;
  last_store_done : Z;
  load_queue : ContentionModel.t;
  store_queue : ContentionModel.t;
  nextSequenceNumber : Z;
  will_skip : bool;
  time_skipped : Z;
  registerDependencies : list Z;
  memoryDependencies : MemoryDependencies.t;
  m_cpiCurrentFrontEndStall : option cpi_t;
  stats : RobStats;
  memory : M;
  traced : list (Traced Inst Info)
}.
Arguments RobTimer : clear implicits.

Section timer.
Context {Inst Info C M : Type} `{Decoder Inst} `{DataMemory M} `{RobContention C (DynamicMicroOp Inst Info)}.
Abbreviation Dyn := (DynamicMicroOp Inst Info).
Abbreviation Entry := (RobEntry Inst Info).
Abbreviation Timer := (RobTimer Inst Info C M).
Implicit Types s : Timer.
Implicit Types e : Entry.
Variable cfg : RobConfig.

Definition new_timer (period : Z) (contention : option C) (mem : M) : result Timer :=
  let! regs := RegisterDependencies.create in
  Ok (mkTimer _ _ _ _ [] 0 0 contention (ComponentTime.create period) 0 false 0
        (ContentionModel.create (outstanding_loads cfg)) (ContentionModel.create (outstanding_stores cfg))
        0 false 0 regs MemoryDependencies.create None (new_stats cfg) mem []).

(** The time, and the time [n] cycles on. *)
Definition time s : Z := ComponentTime.m_time (now s).
Definition period s : Z := ComponentTime.m_period (now s).
Definition after_cycles (n : Z) s : Z := ComponentTime.m_time (ComponentTime.addCycleLatency n (now s)).

Definition with_rob (r : list Entry) s : Timer :=
  mkTimer _ _ _ _ r (m_num_in_rob s) (m_rs_entries_used s) (m_rob_contention s) (now s) (frontend_stalled_until s)
    (in_icache_miss s) (last_store_done s) (load_queue s) (store_queue s) (nextSequenceNumber s) (will_skip s)
    (time_skipped s) (registerDependencies s) (memoryDependencies s) (m_cpiCurrentFrontEndStall s) (stats s)
    (memory s) (traced s).
Definition with_entry (i : nat) e s : Timer := with_rob (<[i := e]> (rob s)) s.
Definition with_counts (num rs : Z) s : Timer :=
  mkTimer _ _ _ _ (rob s) num rs (m_rob_contention s) (now s) (frontend_stalled_until s)
    (in_icache_miss s) (last_store_done s) (load_queue s) (store_queue s) (nextSequenceNumber s) (will_skip s)
    (time_skipped s) (registerDependencies s) (memoryDependencies s) (m_cpiCurrentFrontEndStall s) (stats s)
    (memory s) (traced s).
Definition with_contention (c : option C) s : Timer :=
  mkTimer _ _ _ _ (rob s) (m_num_in_rob s) (m_rs_entries_used s) c (now s) (frontend_stalled_until s)
    (in_icache_miss s) (last_store_done s) (load_queue s) (store_queue s) (nextSequenceNumber s) (will_skip s)
    (time_skipped s) (registerDependencies s) (memoryDependencies s) (m_cpiCurrentFrontEndStall s) (stats s)
    (memory s) (traced s).
Definition with_frontend (until : Z) (miss : bool) s : Timer :=
  mkTimer _ _ _ _ (rob s) (m_num_in_rob s) (m_rs_entries_used s) (m_rob_contention s) (now s) until
    miss (last_store_done s) (load_queue s) (store_queue s) (nextSequenceNumber s) (will_skip s)
    (time_skipped s) (registerDependencies s) (memoryDependencies s) (m_cpiCurrentFrontEndStall s) (stats s)
    (memory s) (traced s).
Definition with_last_store_done (t : Z) s : Timer :=
  mkTimer _ _ _ _ (rob s) (m_num_in_rob s) (m_rs_entries_used s) (m_rob_contention s) (now s)
    (frontend_stalled_until s) (in_icache_miss s) t (load_queue s) (store_queue s) (nextSequenceNumber s) (will_skip s)
    (time_skipped s) (registerDependencies s) (memoryDependencies s) (m_cpiCurrentFrontEndStall s) (stats s)
    (memory s) (traced s).
Definition with_queues (l st : ContentionModel.t) s : Timer :=
  mkTimer _ _ _ _ (rob s) (m_num_in_rob s) (m_rs_entries_used s) (m_rob_contention s) (now s)
    (frontend_stalled_until s) (in_icache_miss s) (last_store_done s) l st (nextSequenceNumber s) (will_skip s)
    (time_skipped s) (registerDependencies s) (memoryDependencies s) (m_cpiCurrentFrontEndStall s) (stats s)
    (memory s) (traced s).
Definition with_time (t : ComponentTime.t) (skip : bool) (skipped : Z) s : Timer :=
  mkTimer _ _ _ _ (rob s) (m_num_in_rob s) (m_rs_entries_used s) (m_rob_contention s) t
    (frontend_stalled_until s) (in_icache_miss s) (last_store_done s) (load_queue s) (store_queue s)
    (nextSequenceNumber s) skip skipped (registerDependencies s) (memoryDependencies s) (m_cpiCurrentFrontEndStall s)
    (stats s) (memory s) (traced s).
Definition with_stall (c : option cpi_t) s : Timer :=
  mkTimer _ _ _ _ (rob s) (m_num_in_rob s) (m_rs_entries_used s) (m_rob_contention s) (now s)
    (frontend_stalled_until s) (in_icache_miss s) (last_store_done s) (load_queue s) (store_queue s)
    (nextSequenceNumber s) (will_skip s) (time_skipped s) (registerDependencies s) (memoryDependencies s) c
    (stats s) (memory s) (traced s).
Definition with_stats (st : RobStats) s : Timer :=
  mkTimer _ _ _ _ (rob s) (m_num_in_rob s) (m_rs_entries_used s) (m_rob_contention s) (now s)
    (frontend_stalled_until s) (in_icache_miss s) (last_store_done s) (load_queue s) (store_queue s)
    (nextSequenceNumber s) (will_skip s) (time_skipped s) (registerDependencies s) (memoryDependencies s)
    (m_cpiCurrentFrontEndStall s) st (memory s) (traced s).
Definition with_memory (m : M) s : Timer :=
  mkTimer _ _ _ _ (rob s) (m_num_in_rob s) (m_rs_entries_used s) (m_rob_contention s) (now s)
    (frontend_stalled_until s) (in_icache_miss s) (last_store_done s) (load_queue s) (store_queue s)
    (nextSequenceNumber s) (will_skip s) (time_skipped s) (registerDependencies s) (memoryDependencies s)
    (m_cpiCurrentFrontEndStall s) (stats s) m (traced s).
Definition with_traced (l : list (Traced Inst Info)) s : Timer :=
  mkTimer _ _ _ _ (rob s) (m_num_in_rob s) (m_rs_entries_used s) (m_rob_contention s) (now s)
    (frontend_stalled_until s) (in_icache_miss s) (last_store_done s) (load_queue s) (store_queue s)
    (nextSequenceNumber s) (will_skip s) (time_skipped s) (registerDependencies s) (memoryDependencies s)
    (m_cpiCurrentFrontEndStall s) (stats s) (memory s) l.
(** An entry has been added at the end of the buffer. *)
Definition with_entered (r : list Entry) (next : Z) (regs : list Z) (m : MemoryDependencies.t) (st : RobStats) s : Timer :=
  mkTimer _ _ _ _ r (m_num_in_rob s) (m_rs_entries_used s) (m_rob_contention s) (now s)
    (frontend_stalled_until s) (in_icache_miss s) (last_store_done s) (load_queue s) (store_queue s) next
    (will_skip s) (time_skipped s) regs m (m_cpiCurrentFrontEndStall s) st (memory s) (traced s).

(** ** Entering the buffer: the first loop of [simulate]

    [older] are the entries before the new one, [e], which is the last one. *)

(** A store looks up the producers of its address. *)
Fixpoint find_address_producers (regs : list Z) (lowest : Z) (producers : list Z) (older : list Entry) e : result Entry :=
  match regs with
  | [] => Ok e
  | r :: regs' =>
      let! p := RegisterDependencies.peekProducer r lowest producers in
      let! e :=
        if p =? INVALID_SEQNR then Ok e
        else
          let! (_, prod) := findEntryBySequenceNumber p (older ++ [e]) in
          Ok (if is_done prod then with_addressReady (addressReady e) (Z.max (addressReadyMax e) (done_ prod)) e
              else addAddressProducer p e) in
      find_address_producers regs' lowest producers older e
  end.

Fixpoint add_all (deps : list Z) (u : Dyn) : result Dyn :=
  match deps with
  | [] => Ok u
  | d :: deps' => let! u := addDependency d u in add_all deps' u
  end.
Fixpoint remove_all (deps : list Z) (u : Dyn) : result Dyn :=
  match deps with
  | [] => Ok u
  | d :: deps' => let! u := removeDependency d u in remove_all deps' u
  end.

(** Store-to-load forwarding: the first store among the producers is replaced by
    what it depends on. *)
Fixpoint forward_store (deps : list Z) (older : list Entry) e : result Entry :=
  match deps with
  | [] => Ok e
  | d :: deps' =>
      let! (_, prod) := findEntryBySequenceNumber d (older ++ [e]) in
      if isStore (mop prod) then
        let! u := removeDependency d (uop e) in
        let! through := dep_list (uop prod) in
        let! u := add_all through u in
        Ok (with_uop u e)
      else forward_store deps' older e
  end.

(** The entry becomes a dependant of its producers that are not done; the others
    are collected in an array of eight cells. *)
Fixpoint link_producers (deps : list Z) (older : list Entry) e (distance : option Z) (to_remove : list Z)
  : result (list Entry * Entry * option Z * list Z) :=
  match deps with
  | [] => Ok (older, e, distance, to_remove)
  | d :: deps' =>
      let! (i, prod) := findEntryBySequenceNumber d (older ++ [e]) in
      let away := u64 (seq_of e - seq_of prod) in
      let distance := Some (match distance with Some x => Z.min x away | None => away end) in
      if is_done prod then
        guard! bool_decide (length to_remove < 8)%nat else Undefined in
        link_producers deps' older (with_ready (ready e) (Z.max (readyMax e) (done_ prod)) e) distance (to_remove ++ [d])
      else
        link_producers deps' (<[i := addDependant (seq_of e) prod]> older) e distance to_remove
  end.

Definition enter (u : Dyn) s : result Timer :=
  guard! Z.of_nat (length (rob s)) <? windowSize cfg + 255 else AssertFailed in
  let older := rob s in
  let e := init_entry u (nextSequenceNumber s) in
  let lowest := match head (older ++ [e]) with Some e0 => seq_of e0 | None => 0 end in
  let! e :=
    if isStore (mop e) then
      let! e := find_address_producers (addressRegisters (mop e)) lowest (registerDependencies s) older e in
      Ok (if bool_decide (addressProducers e = []) then with_addressReady (addressReadyMax e) (addressReadyMax e) e else e)
    else Ok e in
  let! (regs, u) := RegisterDependencies.setDependencies (uop e) lowest (registerDependencies s) in
  let! (mem, u) := MemoryDependencies.setDependencies u lowest (memoryDependencies s) in
  let e := with_uop u e in
  let! e :=
    if m_store_to_load_forwarding cfg && isLoad (mop e) then
      let! deps := dep_list (uop e) in forward_store deps older e
    else Ok e in
  let! deps := dep_list (uop e) in
  let! (older, e, distance, to_remove) := link_producers deps older e None [] in
  let! st := count_distance distance (stats s) in
  (* sizeof(deps_to_remove)/sizeof(8) *)
  guard! Z.of_nat (length to_remove) <? 16 else LogError in
  let! u := remove_all to_remove (uop e) in
  let e := with_uop u e in
  let e := if getDependenciesLength u =? 0 then with_ready (readyMax e) (readyMax e) e else e in
  let st := count_uop (uop_subtype (mop e)) (isX87 (mop e)) (isPause (mop e)) st in
  Ok (with_entered (older ++ [e]) (u64 (nextSequenceNumber s + 1)) regs mem st s).

Fixpoint enter_all (insts : list Dyn) s : result Timer :=
  match insts with
  | [] => Ok s
  | u :: insts' => if squashed u then enter_all insts' s else let! s := enter u s in enter_all insts' s
  end.

(** ** Dispatch *)
Fixpoint find_cpi (n : nat) (t : Z) (l : list Entry) : result (option cpi_t) :=
  match n with
  | O => Ok None
  | S n' =>
      match l with
      | [] => Err AssertFailed
      | e :: l' =>
          if done_ e <? t then find_cpi n' t l'
          else if isSerializing (mop e) || isMemBarrier (mop e) then Ok (Some CpiSerialization)
          else if isLoad (mop e) || isStore (mop e) then
            let! c := cpi_at CpiDataCache (dCacheHitWhere (uop e)) in Ok (Some c)
          else Ok None
      end
  end.
Definition findCpiComponent s : result (option cpi_t) := find_cpi (Z.to_nat (m_num_in_rob s)) (time s) (rob s).

(** The loop of [doDispatch], which dispatches at most [dispatchWidth]
    micro-operations; the fuel counts down from [windowSize]. *)
Fixpoint dispatch_loop (fuel : nat) (uops_dispatched : Z) (next_event : Z) s : result (Z * option cpi_t * Timer) :=
  if windowSize cfg <=? m_num_in_rob s then Ok (next_event, None, s)
  else
    match fuel with
    | O => Err OutOfFuel
    | S fuel' =>
        guard! m_num_in_rob s <? Z.of_nat (length (rob s)) else LogError in
        let i := Z.to_nat (m_num_in_rob s) in
        let! e := of_option (rob s !! i) AssertFailed in
        if uops_dispatched =? dispatchWidth cfg then Ok (next_event, None, s)
        else if negb (iCacheHitWhere (uop e) =? HIT_L1I) && negb (in_icache_miss s) then
          let! c := cpi_at CpiInstructionCache (iCacheHitWhere (uop e)) in
          Ok (next_event, Some c, with_frontend (after_cycles (iCacheLatency (uop e)) s) true s)
        else
          let s := if negb (iCacheHitWhere (uop e) =? HIT_L1I) then with_frontend (frontend_stalled_until s) false s else s in
          if m_rs_entries_used s =? rsEntries cfg then Ok (next_event, Some CpiRSFull, s)
          else
            let e := with_dispatched (time s) e in
            let e := with_ready (Z.max (ready e) (after_cycles 1 s)) (readyMax e) e in
            let s := with_counts (u64 (m_num_in_rob s + 1)) (u64 (m_rs_entries_used s + 1)) (with_entry i e s) in
            let next_event := Z.min next_event (ready e) in
            if isBranch (mop e) then
              let! wrong := isBranchMispredicted (uop e) in
              if wrong : bool then
                Ok (next_event, Some CpiBranchPredictor, with_frontend MaxTime (in_icache_miss s) s)
              else dispatch_loop fuel' (u32 (uops_dispatched + 1)) next_event s
            else dispatch_loop fuel' (u32 (uops_dispatched + 1)) next_event s
    end.

Definition doDispatch s : result (Z * cpi_t * Timer) :=
  let! (next_event, cpiFrontEnd, s) :=
    if frontend_stalled_until s <=? time s then
      let! (next_event, c, s) := dispatch_loop (Z.to_nat (windowSize cfg)) 0 MaxTime s in
      Ok (next_event, c, with_stall c s)
    else Ok (MaxTime, m_cpiCurrentFrontEndStall s, s) in
  let! cpiRobHead := findCpiComponent s in
  let cpi :=
    match cpiFrontEnd with
    | Some c => match cpiRobHead with Some h => h | None => c end
    | None =>
        if m_num_in_rob s =? windowSize cfg then match cpiRobHead with Some h => h | None => CpiBase end
        else CpiBase
    end in
  Ok (if m_num_in_rob s =? windowSize cfg then next_event else Z.min (frontend_stalled_until s) next_event, cpi, s).

(** ** Issue *)

(** Whether all producers of a store's address have been issued, looking at the
    producers one by one; [i] is the entry issued just now, whose result is
    available at [depend]. *)
Fixpoint check_address (producers : list Z) (i : nat) (depend : Z) (rob : list Entry) (is_ready : bool) (tmax : Z)
  : result (bool * Z) :=
  match producers with
  | [] => Ok (is_ready, tmax)
  | p :: producers' =>
      let! e0 := of_option (head rob) AssertFailed in
      if seq_of e0 <=? p then
        let! (j, prod) := findEntryBySequenceNumber p rob in
        let tmax := if bool_decide (j = i) then Z.max tmax depend else tmax in
        check_address producers' i depend rob (is_ready && is_done prod) tmax
      else check_address producers' i depend rob is_ready tmax
  end.

(** One iteration of the loop over the dependants of the entry [i], whose
    sequence number is [n]. *)
Definition wake (i : nat) (n depend : Z) (dep : Z) (rob : list Entry) : result (list Entry) :=
  let! (j, e) := deref dep rob in
  guard! 0 <? getDependenciesLength (uop e) else LogError in
  let! u := removeDependency n (uop e) in
  let e := with_uop u (with_ready (ready e) (Z.max (readyMax e) depend) e) in
  let e := if getDependenciesLength u =? 0 then with_ready (readyMax e) (readyMax e) e else e in
  let rob := <[j := e]> rob in
  if isStore (mop e) && (addressReady e =? MaxTime) then
    let! (is_ready, tmax) := check_address (addressProducers e) i depend rob true (addressReadyMax e) in
    Ok (<[j := with_addressReady (if is_ready then tmax else addressReady e) tmax e]> rob)
  else Ok rob.
Fixpoint wake_all (i : nat) (n depend : Z) (deps : list Z) (rob : list Entry) : result (list Entry) :=
  match deps with
  | [] => Ok rob
  | d :: deps' => let! rob := wake i n depend d rob in wake_all i n depend deps' rob
  end.

(** The access of a load or store whose latency is not known yet. *)
Definition access_memory (i : nat) e s : result (Entry * Timer) :=
  if (isLoad (mop e) || isStore (mop e)) && (dCacheHitWhere (uop e) =? HIT_UNKNOWN) then
    let! (latency, where_, m) := access_data (isStore (mop e)) (address (uop e)) (memoryAccessSize (mop e))
                                   (default 0 (instruction (mop e))) (time s) (memory s) in
    let! cycles := divideRounded latency (period s) in
    let e := with_uop (set_access (execLatency (uop e) + cycles) where_ (uop e)) e in
    Ok (e, with_entry i e (with_memory m s))
  else Ok (e, s).

(** The queues of outstanding loads and stores, with the counts. *)
Definition use_queue e s : result Timer :=
  let delay := tmul (period s) (execLatency (uop e)) in
  if isLoad (mop e) then
    let! (_, q) := ContentionModel.getCompletionTime (time s) delay (address (uop e)) (load_queue s) in
    Ok (with_stats (count_load delay (stats s)) (with_queues q (store_queue s) s))
  else if isStore (mop e) then
    let! (_, q) := ContentionModel.getCompletionTime (time s) delay (address (uop e)) (store_queue s) in
    Ok (with_stats (count_store delay (stats s)) (with_queues (load_queue s) q s))
  else Ok s.

Definition issueInstruction (idx : nat) (next_event : Z) s : result (Z * Timer) :=
  let! e := aget (rob s) idx in
  let! (e, s) := access_memory idx e s in
  let! s := use_queue e s in
  let depend := ComponentTime.addCycleLatency (execLatency (uop e)) (now s) in
  let finished := ComponentTime.m_time (ComponentTime.addCycleLatency 1 depend) in
  let! s :=
    if isStore (mop e) then
      guard! addressReady e <=? ready e else LogError in
      Ok (with_last_store_done (Z.max (last_store_done s) finished) s)
    else Ok s in
  let depend := if isStore (mop e) then after_cycles 1 s else ComponentTime.m_time depend in
  let finished := if isStore (mop e) then after_cycles 1 s else finished in
  let! c := match m_rob_contention s with
            | Some c => let! c := doIssue (uop e) c in Ok (Some c)
            | None => Ok None
            end in
  let e := with_done (time s) finished e in
  let s := with_contention c (with_entry idx e s) in
  let next_event := Z.min next_event finished in
  let s := with_counts (m_num_in_rob s) (u64 (m_rs_entries_used s - 1)) s in
  let! deps := all_dependants e in
  let! r := wake_all idx (seq_of e) depend deps (rob s) in
  let s := with_rob r s in
  if isBranch (mop e) then
    let! wrong := isBranchMispredicted (uop e) in
    Ok (next_event,
        if wrong : bool then with_frontend (after_cycles (u64 (misprediction_penalty cfg - 2)) s) (in_icache_miss s) s else s)
  else Ok (next_event, s).

(** The variables of [doIssue] that live across the iterations of its loop. *)
Record scan := mkScan {
  num_issued : Z;
  head_of_queue : bool;
  no_more_load : bool;
  no_more_store : bool;
  have_unresolved_store : bool
}.
Inductive verdict := CanIssue | CannotIssue | Stop.

(** [hasFreeSlot] of the queue a micro-operation needs; the tag is the default one. *)
Definition free_slot_load s : bool * Timer :=
  let '(b, q) := ContentionModel.hasFreeSlot (time s) (u64 (-1)) (load_queue s) in (b, with_queues q (store_queue s) s).
Definition free_slot_store s : bool * Timer :=
  let '(b, q) := ContentionModel.hasFreeSlot (time s) (u64 (-1)) (store_queue s) in (b, with_queues (load_queue s) q s).

(** The chain of conditions that decides whether the entry can issue. *)
Definition consider e (sc : scan) s : verdict * scan * Timer :=
  let u := mop e in
  if time s <? ready e then (CannotIssue, sc, s)
  else if (no_more_load sc && isLoad u) || (no_more_store sc && isStore u) then (CannotIssue, sc, s)
  else if isSerializing u then
    (if head_of_queue sc && (last_store_done s <=? time s) then CanIssue else Stop, sc, s)
  else if isMemBarrier u then
    if head_of_queue sc && (last_store_done s <=? time s) then (CanIssue, sc, s)
    else (CannotIssue, mkScan (num_issued sc) (head_of_queue sc) true true (have_unresolved_store sc), s)
  else if bool_decide (m_rob_contention s = None) && (num_issued sc =? dispatchWidth cfg) then (CannotIssue, sc, s)
  else
    let '(full, s) := if isLoad u then let '(b, s) := free_slot_load s in (negb b, s) else (false, s) in
    if full then (CannotIssue, sc, s)
    else if isLoad u && m_no_address_disambiguation cfg && have_unresolved_store sc then (CannotIssue, sc, s)
    else
      let '(full, s) :=
        if isStore u then
          if negb (head_of_queue sc) then (true, s) else let '(b, s) := free_slot_store s in (negb b, s)
        else (false, s) in
      (if full then CannotIssue else CanIssue, sc, s).

(** An entry that can issue asks for its port last. *)
Definition ask_port e (v : verdict) s : verdict * Timer :=
  match v, m_rob_contention s with
  | CanIssue, Some c => let '(b, c) := tryIssue (uop e) c in (if b then CanIssue else CannotIssue, with_contention (Some c) s)
  | _, _ => (v, s)
  end.

(** The entry issues, with the accounting for long-latency loads.  The entry read
    again after [issueInstruction] is the one just issued. *)
Definition issue_entry (i : nat) (next_event : Z) s : result (Z * Timer) :=
  let! (next_event, s) := issueInstruction i next_event s in
  let! e := aget (rob s) i in
  if isLoad (mop e) then
    let! long := isLongLatencyLoad (lll_cutoff cfg) (uop e) in
    Ok (next_event,
        if long && negb (dCacheHitWhere (uop e) =? HIT_L1_OWN)
        then with_stats (count_long_latency (time s) (done_ e) (stats s)) s else s)
  else Ok (next_event, s).

(** Whether the walk over the window ends after this entry. *)
Definition walk_ends (sc : scan) s : bool :=
  match m_rob_contention s with
  | Some c => noMore c
  | None => num_issued sc =? dispatchWidth cfg
  end.

(** The walk over the window from position [i] on, [n] entries. *)
Fixpoint issue_loop (n : nat) (i : nat) (sc : scan) (next_event : Z) s : result (Z * Timer) :=
  match n with
  | O => Ok (next_event, s)
  | S n' =>
      let! e := of_option (rob s !! i) AssertFailed in
      if is_done e then issue_loop n' (S i) sc (Z.min next_event (done_ e)) s
      else
        let next_event := Z.min next_event (ready e) in
        let '(v, sc, s) := consider e sc s in
        let '(v, s) := ask_port e v s in
        match v with
        | Stop => Ok (next_event, s)
        | CanIssue =>
            let sc := mkScan (u64 (num_issued sc + 1)) (head_of_queue sc) (no_more_load sc) (no_more_store sc)
                        (have_unresolved_store sc) in
            let! (next_event, s) := issue_entry i next_event s in
            if walk_ends sc s then Ok (next_event, s) else issue_loop n' (S i) sc next_event s
        | CannotIssue =>
            let sc := mkScan (num_issued sc) false (no_more_load sc) (no_more_store sc)
                        (have_unresolved_store sc || (isStore (mop e) && (time s <? addressReady e))) in
            if inorder cfg then Ok (next_event, s)
            else if walk_ends sc s then Ok (next_event, s) else issue_loop n' (S i) sc next_event s
        end
  end.

Definition doIssue_ s : result (Z * Timer) :=
  let s := match m_rob_contention s with
           | Some c => with_contention (Some (initCycle (time s) c)) s
           | None => s
           end in
  issue_loop (Z.to_nat (m_num_in_rob s)) 0 (mkScan 0 true false false false) MaxTime s.

(** ** Commit *)
Fixpoint commit_loop (fuel : nat) (num_committed executed : Z) s : result (Z * Timer) :=
  match rob s with
  | [] => Ok (executed, s)
  | e :: rest =>
      if done_ e <=? time s then
        match fuel with
        | O => Err OutOfFuel
        | S fuel' =>
            let s := with_traced (traced s ++ [mkTraced _ _ (uop e) (dispatched e) (issued e) (done_ e) (time s)]) s in
            let executed := if d_last (uop e) then u64 (executed + 1) else executed in
            let s := with_counts (u64 (m_num_in_rob s - 1)) (m_rs_entries_used s) (with_rob rest s) in
            let num_committed := u64 (num_committed + 1) in
            if num_committed =? commitWidth cfg then Ok (executed, s)
            else commit_loop fuel' num_committed executed s
        end
      else Ok (executed, s)
  end.
Definition doCommit s : result (Z * Z * Timer) :=
  let! (executed, s) := commit_loop (length (rob s)) 0 0 s in
  Ok (match rob s with e :: _ => done_ e | [] => MaxTime end, executed, s).

(** ** One cycle *)
Definition bucket (n : nat) : nat := Nat.min n (MAX_OUTSTANDING - 1).

Fixpoint add_outstanding (counts : list nat) (h : nat) (t : Z) (l : list (list Z)) : result (list (list Z)) :=
  match counts with
  | [] => Ok l
  | c :: counts' =>
      let! l :=
        if bool_decide (0 < c)%nat then
          let! row := aget l h in
          let! x := aget row (bucket c) in
          let! row := aset row (bucket c) (tadd x t) in
          aset l h row
        else Ok l in
      add_outstanding counts' (S h) t l
  end.
(** The loads of the window that are issued and not done. *)
Definition in_flight (t : Z) e : bool := is_done e && (t <? done_ e) && isLoad (mop e).
Definition countOutstandingMemop (t : Z) s : result Timer :=
  let window := take (Z.to_nat (m_num_in_rob s)) (rob s) in
  guard! m_num_in_rob s <=? Z.of_nat (length (rob s)) else AssertFailed in
  let loads := base.filter (fun e => in_flight (time s) e) window in
  guard! forallb (fun e => (0 <=? dCacheHitWhere (uop e)) && (dCacheHitWhere (uop e) <? NUM_WHERES)) loads else Undefined in
  let counts := map (fun h => length (base.filter (fun e => dCacheHitWhere (uop e) = Z.of_nat h) loads))
                  (seq 0 (Z.to_nat NUM_WHERES)) in
  let! l := add_outstanding counts 0 t (m_outstandingLoads (stats s)) in
  let! all :=
    if bool_decide (0 < length loads)%nat then
      let! x := aget (m_outstandingLoadsAll (stats s)) (bucket (length loads)) in
      aset (m_outstandingLoadsAll (stats s)) (bucket (length loads)) (tadd x t)
    else Ok (m_outstandingLoadsAll (stats s)) in
  Ok (with_stats (with_outstanding l all (stats s)) s).

(** [execute]: the instructions that were completed and the time that passed; no
    time passes when there are too few micro-operations to dispatch. *)
Definition execute s : result (Z * Z * Timer) :=
  if (frontend_stalled_until s <=? time s)
     && (Z.of_nat (length (rob s)) <? m_num_in_rob s + 2 * dispatchWidth cfg)
  then Ok (0, 0, s)
  else
    let! (next_dispatch, cpi, s) := doDispatch s in
    let! (next_issue, s) := doIssue_ s in
    let! (next_commit, executed, s) := doCommit s in
    let next_event := Z.min next_dispatch (Z.min next_issue next_commit) in
    let will := negb (next_event =? MaxTime) && (after_cycles 1 s <? next_event) in
    let skip := if will then tsub next_event (time s) else period s in
    let s := with_time (ComponentTime.addLatency skip (now s)) will
               (if period s <? skip then tadd (time_skipped s) (tsub skip (period s)) else time_skipped s) s in
    let! s := if m_mlp_histogram cfg then countOutstandingMemop skip s else Ok s in
    Ok (executed, skip, with_stats (add_cpi cpi skip (stats s)) s).

(** The second loop of [simulate]. *)
Fixpoint execute_all (fuel : nat) (insns latency : Z) s : result (Z * Z * Timer) :=
  match fuel with
  | O => Err OutOfFuel
  | S fuel' =>
      let! (n, t, s) := execute s in
      if t =? 0 then Ok (u64 (insns + n), tadd latency t, s)
      else execute_all fuel' (u64 (insns + n)) (tadd latency t) s
  end.

Definition simulate (fuel : nat) (insts : list Dyn) s : result (Z * Z * Timer) :=
  let! s := enter_all insts s in execute_all fuel 0 0 s.

Definition synchronize (t : Z) s : Timer :=
  with_time (ComponentTime.mk (period s) t) (will_skip s) (time_skipped s) s.
End timer.
