(* ===== verification/RobDeps.v ===== *)
(** Dependencies as lists: what [addDependency] and [removeDependency] do to the
    dependencies of a micro-operation, and what the register and memory
    dependency tables add. *)
From stdpp Require Import base numbers list sets sorting.
From Stdlib Require Import ZArith Lia Bool Sorted.
From S2P Require Import Prelude Queues MicroOp Dependencies.
Open Scope Z_scope.

(** Reading a list index by index. *)
Lemma mapM_r_index {A} (f : nat -> result A) (l : list A) : forall k,
  (forall i x, l !! i = Some x -> f (k + i)%nat = Ok x) -> mapM_r f (seq k (length l)) = Ok l.
Proof.
  induction l as [|x l IH]; intros k Hf; cbn [length seq mapM_r]; [done|].
  pose proof (Hf 0%nat x eq_refl) as H0. rewrite Nat.add_0_r in H0. rewrite H0. cbn [rbind].
  rewrite IH; [done|]. intros i y Hy. specialize (Hf (S i) y Hy). by rewrite <- Nat.add_succ_comm in Hf.
Qed.

Section deps.
Context {Inst Info : Type}.
Abbreviation Dyn := (DynamicMicroOp Inst Info).
Implicit Types u : Dyn.

(** The number of the first micro-operation of the same type in the instruction:
    what [u] depends on comes before it. *)
Definition deps_end u : Z := sequenceNumber u - typeOffset u.

(** The dependencies of a micro-operation in the order of the indices. *)
Definition deps u : list Z :=
  seqZ (deps_end u - intraDependencies u) (intraDependencies u) ++ dependencies u.

Record wf_deps u : Prop := mkWfDeps {
  wd_intra : 0 <= intraDependencies u;
  wd_offset : 0 <= typeOffset u;
  wd_base : typeOffset u + intraDependencies u <= sequenceNumber u;
  wd_seq : sequenceNumber u < INVALID_SEQNR;
  wd_before : Forall (fun d => 0 <= d < deps_end u) (dependencies u);
  wd_room : (length (deps u) <= 14)%nat;
  wd_intra_room : intraDependencies u <> 0 -> (length (deps u) <= 13)%nat
}.

(** Only the dependencies of [u'] differ from those of [u]. *)
Definition same_but_deps u u' : Prop := u' = with_deps (intraDependencies u') (dependencies u') u.

Lemma same_but_deps_refl u : same_but_deps u u.
Proof. by destruct u. Qed.

Lemma same_but_deps_with u i l : same_but_deps u (with_deps i l u).
Proof. done. Qed.

Lemma same_but_deps_trans u1 u2 u3 : same_but_deps u1 u2 -> same_but_deps u2 u3 -> same_but_deps u1 u3.
Proof. unfold same_but_deps. intros -> ->. done. Qed.

Lemma same_but_deps_end u u' : same_but_deps u u' -> deps_end u' = deps_end u.
Proof. by intros ->. Qed.

Lemma length_deps u : 0 <= intraDependencies u ->
  Z.of_nat (length (deps u)) = intraDependencies u + Z.of_nat (length (dependencies u)).
Proof. intros. unfold deps. rewrite length_app, length_seqZ. lia. Qed.

Lemma wf_intra_base u : wf_deps u -> intra_base u = deps_end u - intraDependencies u.
Proof.
  intros []. unfold intra_base, deps_end. apply u64_small.
  unfold INVALID_SEQNR in *. lia.
Qed.

Lemma getDependenciesLength_ok u : wf_deps u -> getDependenciesLength u = Z.of_nat (length (deps u)).
Proof.
  intros Hwf. pose proof (length_deps u (wd_intra u Hwf)) as Hl. pose proof (wd_room u Hwf).
  unfold getDependenciesLength. rewrite <- Hl. apply u32_small. lia.
Qed.

Lemma getDependency_ok u i d : wf_deps u -> deps u !! i = Some d -> getDependency (Z.of_nat i) u = Ok d.
Proof.
  intros Hwf Hi. pose proof (wf_intra_base u Hwf) as Hb.
  destruct Hwf. unfold getDependency. rewrite Hb. unfold deps in Hi.
  destruct (Z.ltb_spec (Z.of_nat i) (intraDependencies u)) as [Hlt|Hge].
  - rewrite lookup_app_l in Hi by (rewrite length_seqZ; lia).
    apply lookup_seqZ in Hi as [-> _]. f_equal. apply u64_small. unfold deps_end, INVALID_SEQNR in *. lia.
  - rewrite lookup_app_r in Hi by (rewrite length_seqZ; lia).
    rewrite length_seqZ in Hi. replace (Z.to_nat (Z.of_nat i - intraDependencies u)) with (i - Z.to_nat (intraDependencies u))%nat by lia.
    by rewrite Hi.
Qed.

Lemma deps_before u d : wf_deps u -> d ∈ deps u -> 0 <= d < deps_end u.
Proof.
  intros [] [Hd|Hd]%elem_of_app.
  - apply elem_of_seqZ in Hd. unfold deps_end in *. lia.
  - by apply (proj1 (Forall_forall _ _) wd_before0).
Qed.

Lemma wf_with_deps u i l :
  wf_deps u -> 0 <= i <= intraDependencies u -> Forall (fun d => 0 <= d < deps_end u) l ->
  (i + Z.of_nat (length l) <= 14) -> (i <> 0 -> i + Z.of_nat (length l) <= 13) ->
  wf_deps (with_deps i l u).
Proof.
  intros [] Hi Hl H14 H13.
  assert (Hlen : Z.of_nat (length (deps (with_deps i l u))) = i + Z.of_nat (length l)) by (by rewrite length_deps; [|simpl; lia]).
  split; try (simpl; try done; lia).
Qed.

(** ** Adding *)

(** There is room for [k] more. *)
Definition room (k : nat) u : Prop :=
  (length (deps u) + k <= 13)%nat \/ (intraDependencies u = 0 /\ (length (deps u) + k <= 14)%nat).

(** At most [k] dependencies were added, all of which satisfy [P]. *)
Record grown (P : Z -> Prop) (k : nat) u u' : Prop := mkGrown {
  gr_wf : wf_deps u';
  gr_same : same_but_deps u u';
  gr_intra : intraDependencies u' = intraDependencies u;
  gr_more : exists more, deps u' = deps u ++ more /\ Forall P more /\ (length more <= k)%nat
}.

Lemma gr_length P k u u' : grown P k u u' -> (length (deps u') <= length (deps u) + k)%nat.
Proof. intros [_ _ _ (more & -> & _ & ?)]. rewrite length_app. lia. Qed.

Lemma gr_from P k u u' d : grown P k u u' -> d ∈ deps u' -> d ∈ deps u \/ P d.
Proof.
  intros [_ _ _ (more & -> & Hf & _)] [?|Hd]%elem_of_app; [by left|right]. by apply (proj1 (Forall_forall _ _) Hf).
Qed.

Lemma gr_old P k u u' d : grown P k u u' -> d ∈ deps u -> d ∈ deps u'.
Proof. intros [_ _ _ (more & -> & _)] Hd. apply elem_of_app. by left. Qed.

Lemma grown_refl P k u : wf_deps u -> grown P k u u.
Proof. split; auto using same_but_deps_refl. exists []. rewrite app_nil_r. split_and!; [done|done|simpl; lia]. Qed.

Lemma grown_trans P k k' u1 u2 u3 : grown P k u1 u2 -> grown P k' u2 u3 -> grown P (k + k') u1 u3.
Proof.
  intros [? ? ? (m1 & E1 & F1 & L1)] [? ? ? (m2 & E2 & F2 & L2)].
  split; [done|by eapply same_but_deps_trans|congruence|]. exists (m1 ++ m2).
  rewrite E2, E1, length_app. split_and!; [by rewrite app_assoc|by apply Forall_app|lia].
Qed.

Lemma grown_mono (P Q : Z -> Prop) k k' u u' :
  grown P k u u' -> (forall d, P d -> Q d) -> (k <= k')%nat -> grown Q k' u u'.
Proof.
  intros [? ? ? (m & ? & F & ?)] HPQ Hk. split; [done..|]. exists m. split_and!; [done| |lia].
  by eapply Forall_impl.
Qed.

Lemma grown_room P k m u u' : grown P k u u' -> room (k + m) u -> room m u'.
Proof. intros Hg. pose proof (gr_length _ _ _ _ Hg). destruct Hg. intros [?|[? ?]]; [left; lia|right]. split; [congruence|lia]. Qed.

Lemma addDependency_ok u n :
  wf_deps u -> 0 <= n < deps_end u -> room 1 u ->
  exists u', addDependency n u = Ok u' /\ grown (eq n) 1 u u' /\ n ∈ deps u'.
Proof.
  intros Hwf Hn Hroom. pose proof (wd_intra u Hwf). pose proof (length_deps u ltac:(lia)) as Hl.
  unfold room in Hroom. unfold addDependency. destruct (existsb _ _) eqn:Hex.
  - exists u. split_and!; [done|by apply grown_refl|].
    apply existsb_exists in Hex as (x & Hx & ->%Z.eqb_eq). apply elem_of_app. right. by apply list_elem_of_In.
  - unfold rguard. rewrite bool_decide_true by (unfold MAXIMUM_NUMBER_OF_DEPENDENCIES; lia). cbn [rbind].
    eexists. split; [done|].
    assert (Hdeps : deps (with_deps (intraDependencies u) (dependencies u ++ [n]) u) = deps u ++ [n]).
    { unfold deps, deps_end. simpl. by rewrite app_assoc. }
    split; [|rewrite Hdeps; apply elem_of_app; right; by constructor].
    split; [|done|done|exists [n]; split_and!; [done|by constructor|simpl; lia]].
    apply wf_with_deps; [done|lia| |rewrite length_app; simpl; lia|rewrite length_app; simpl; lia].
    apply Forall_app. split; [by apply wd_before|by constructor].
Qed.

(** ** Removing *)
Lemma seqZ_head m n : 0 < n -> seqZ m n = m :: seqZ (m + 1) (n - 1).
Proof. intros. rewrite seqZ_cons by done. by rewrite <- Z.add_1_r, <- Z.sub_1_r. Qed.

Lemma spill_intra_ok fuel : forall u n,
  wf_deps u -> (Z.to_nat (intraDependencies u) <= fuel)%nat ->
  deps_end u - intraDependencies u <= n < deps_end u ->
  exists u', spill_intra fuel n u = Ok u' /\ wf_deps u' /\ same_but_deps u u' /\ deps u ≡ₚ deps u' /\
    0 < intraDependencies u' /\ n = deps_end u' - intraDependencies u'.
Proof.
  induction fuel as [|fuel IH]; intros u n Hwf Hf Hn.
  { pose proof (wd_intra u Hwf). lia. }
  pose proof (wd_intra u Hwf). pose proof (wd_intra_room u Hwf) as H13.
  pose proof (length_deps u ltac:(lia)) as Hl. cbn [spill_intra]. rewrite (wf_intra_base u Hwf).
  rewrite (proj2 (Z.eqb_neq (intraDependencies u) 0)) by lia. cbn [orb].
  destruct (Z.eqb_spec n (deps_end u - intraDependencies u)) as [He|Hne].
  { exists u. split_and!; auto using same_but_deps_refl; lia. }
  unfold rguard. rewrite bool_decide_true by (unfold MAXIMUM_NUMBER_OF_DEPENDENCIES; lia). cbn [rbind].
  rewrite bool_decide_true by (rewrite length_app; unfold MAXIMUM_NUMBER_OF_DEPENDENCIES; simpl; lia). cbn [rbind].
  set (u1 := with_deps _ _ u).
  assert (Hwf1 : wf_deps u1).
  { apply wf_with_deps; [done|lia| |rewrite length_app; simpl; lia|rewrite length_app; simpl; lia].
    apply Forall_app. split; [by apply wd_before|]. constructor; [|done].
    pose proof (wd_base u Hwf). unfold deps_end in *. lia. }
  destruct (IH u1 n Hwf1) as (u' & -> & Hwf' & Hsame & Hp & Hpos & Hn').
  { simpl. lia. } { simpl. unfold deps_end in *. simpl. lia. }
  exists u'. split_and!; [done..|by apply (same_but_deps_trans u u1)| |done|done].
  rewrite <- Hp. unfold deps at 1. rewrite seqZ_head by lia. subst u1. unfold deps, deps_end. simpl.
  replace (sequenceNumber u - typeOffset u - intraDependencies u + 1)
    with (sequenceNumber u - typeOffset u - (intraDependencies u - 1)) by lia.
  rewrite app_assoc. rewrite (Permutation_app_comm _ [_]). done.
Qed.

Lemma take_insert_last (l : list Z) i x y :
  l !! i = Some y -> l !! (length l - 1)%nat = Some x -> i <> (length l - 1)%nat ->
  l ≡ₚ y :: take (length l - 1) (<[i := x]> l).
Proof.
  intros Hi Hx Hne. pose proof (lookup_lt_Some _ _ _ Hi) as Hlt.
  rewrite <- (take_drop_middle l i y Hi) at 1.
  rewrite insert_take_drop by done. rewrite take_app. rewrite length_take, Nat.min_l by lia.
  rewrite take_take, Nat.min_r by lia.
  replace (length l - 1 - i)%nat with (S (length l - 2 - i)) by lia. rewrite firstn_cons.
  assert (Hd : drop (S i) l = take (length l - 2 - i) (drop (S i) l) ++ [x]).
  { rewrite <- (take_drop (length l - 2 - i) (drop (S i) l)) at 1. f_equal. rewrite drop_drop.
    replace (S i + (length l - 2 - i))%nat with (length l - 1)%nat by lia.
    rewrite (drop_S _ x (length l - 1)) by done. rewrite drop_ge by lia. done. }
  rewrite Hd at 1. rewrite <- Permutation_middle. apply Permutation_skip.
  apply Permutation_app_head. rewrite (Permutation_app_comm _ [x]). done.
Qed.

Lemma removeDependency_ok u n :
  wf_deps u -> n ∈ deps u ->
  exists u', removeDependency n u = Ok u' /\ wf_deps u' /\ same_but_deps u u' /\ deps u ≡ₚ n :: deps u'.
Proof.
  intros Hwf Hin. pose proof (deps_before u n Hwf Hin) as Hb. pose proof (wd_intra u Hwf).
  pose proof (length_deps u ltac:(lia)) as Hl. pose proof (wd_room u Hwf). pose proof (wd_intra_room u Hwf).
  unfold removeDependency. rewrite (wf_intra_base u Hwf).
  destruct (Z.leb_spec (deps_end u - intraDependencies u) n) as [Hge|Hlt].
  - destruct (spill_intra_ok (Z.to_nat (intraDependencies u)) u n Hwf) as (u1 & -> & Hwf1 & Hs1 & Hp1 & Hpos & Hn); [lia|lia|].
    cbn [rbind]. unfold rguard. rewrite (proj2 (Z.ltb_lt _ _) Hpos). cbn [rbind].
    pose proof (length_deps u1 ltac:(lia)) as Hl1. pose proof (Permutation_length Hp1) as Hpl.
    eexists. split; [done|]. split_and!.
    + apply wf_with_deps; [done|lia|by apply wd_before|lia|lia].
    + by apply (same_but_deps_trans u u1).
    + rewrite Hp1. unfold deps at 1. rewrite seqZ_head by lia. unfold deps, deps_end in *. simpl.
      rewrite Hn. replace (sequenceNumber u1 - typeOffset u1 - intraDependencies u1 + 1)
        with (sequenceNumber u1 - typeOffset u1 - (intraDependencies u1 - 1)) by lia. done.
  - apply elem_of_app in Hin as [Hin|Hin].
    { apply elem_of_seqZ in Hin. lia. }
    apply list_elem_of_lookup in Hin as (i0 & Hi0). pose proof (lookup_lt_Some _ _ _ Hi0) as Hi0l.
    unfold rguard. rewrite bool_decide_true by lia. cbn [rbind].
    destruct (lookup_lt_is_Some_2 (dependencies u) (length (dependencies u) - 1)) as [x Hx]; [lia|].
    rewrite (aget_Ok _ _ _ Hx). cbn [rbind].
    assert (Hgoal : forall l, dependencies u ≡ₚ n :: l ->
      wf_deps (with_deps (intraDependencies u) l u) /\
      same_but_deps u (with_deps (intraDependencies u) l u) /\
      deps u ≡ₚ n :: deps (with_deps (intraDependencies u) l u)).
    { intros l Hp. pose proof (Permutation_length Hp) as Hpl. simpl in Hpl. split_and!; [|done|].
      - apply wf_with_deps; [done|lia| |lia|lia].
        pose proof (wd_before u Hwf) as Hf. rewrite Hp in Hf. by apply Forall_cons in Hf as [_ Hf].
      - unfold deps, deps_end. simpl. rewrite Hp. by rewrite <- Permutation_middle. }
    destruct (Z.eqb_spec x n) as [->|Hxn].
    + eexists. split; [done|]. apply Hgoal.
      rewrite <- (take_drop (length (dependencies u) - 1) (dependencies u)) at 1.
      rewrite (drop_S _ n) by done. rewrite drop_ge by lia. rewrite (Permutation_app_comm _ [n]). done.
    + destruct (find_first _ _) as [i|] eqn:Hf; cbn [of_option rbind].
      * apply find_first_Some in Hf as [(y & Hy & Hyn) _]. apply Z.eqb_eq in Hyn as ->.
        eexists. split; [done|]. apply Hgoal. apply take_insert_last; [done|done|congruence].
      * pose proof (proj1 (find_first_None _ _) Hf _ _ Hi0) as Hc. simpl in Hc. by rewrite Z.eqb_refl in Hc.
Qed.

Lemma spill_intra_le n fuel : forall u u', spill_intra fuel n u = Ok u' -> intraDependencies u' <= intraDependencies u.
Proof.
  induction fuel as [|fuel IH]; intros u u'; cbn [spill_intra]; destruct (_ || _); intros Heq; inv_ok; try lia.
  apply IH in Hk0. simpl in Hk0. lia.
Qed.

Lemma removeDependency_intra n u u' : removeDependency n u = Ok u' -> intraDependencies u' <= intraDependencies u.
Proof.
  unfold removeDependency. destruct (_ <=? _); intros Heq; inv_ok; zbool.
  - apply spill_intra_le in Hv. simpl. lia.
  - destruct (_ =? _); inv_ok; simpl; lia.
Qed.
End deps.

(** * Registers *)
Section registers.
Context {Inst Info : Type} `{Decoder Inst}.
Abbreviation Dyn := (DynamicMicroOp Inst Info).
Implicit Types u : Dyn.
Implicit Types producers : list Z.

(** The producer of a register that is still in the buffer. *)
Definition live_producer producers (lowest r : Z) : option Z :=
  match producers !! Z.to_nat r with
  | Some p => if (p =? INVALID_SEQNR) || (p <? lowest) then None else Some p
  | None => None
  end.

Definition regs_ok producers (next : Z) : Prop :=
  length producers = Z.to_nat last_reg /\ Forall (fun p => p = INVALID_SEQNR \/ 0 <= p < next) producers.

(** Entries below [lowest] may have been cleared. *)
Definition cleared (lowest : Z) producers producers' : Prop :=
  length producers' = length producers /\
  forall i p, producers !! i = Some p ->
    producers' !! i = Some p \/ (producers' !! i = Some INVALID_SEQNR /\ p < lowest).

Lemma cleared_refl lowest producers : cleared lowest producers producers.
Proof. split; auto. Qed.

Lemma cleared_live lowest producers producers' r :
  cleared lowest producers producers' -> live_producer producers' lowest r = live_producer producers lowest r.
Proof.
  intros [Hlen Hc]. unfold live_producer.
  destruct (producers !! Z.to_nat r) as [p|] eqn:Hp.
  - destruct (Hc _ _ Hp) as [-> |[-> Hlt]]; [done|].
    rewrite Z.eqb_refl. cbn [orb]. rewrite (proj2 (Z.ltb_lt _ _) Hlt). by rewrite orb_true_r.
  - apply lookup_ge_None in Hp. by rewrite (proj2 (lookup_ge_None producers' _)) by lia.
Qed.

Lemma cleared_trans lowest l1 l2 l3 : cleared lowest l1 l2 -> cleared lowest l2 l3 -> cleared lowest l1 l3.
Proof.
  intros [Hl1 H1] [Hl2 H2]. split; [congruence|]. intros i p Hp.
  destruct (H1 _ _ Hp) as [H'|[H' Hlt]]; [by apply H2|]. right. split; [|done].
  by destruct (H2 _ _ H') as [?|[? _]].
Qed.

Lemma cleared_ok lowest producers producers' next :
  cleared lowest producers producers' -> regs_ok producers next -> regs_ok producers' next.
Proof.
  intros [Hlen Hc] [Hl Hf]. split; [congruence|]. apply Forall_lookup. intros i p' Hp'.
  destruct (lookup_lt_is_Some_2 producers i) as [p Hp]; [rewrite <- Hlen; by eapply lookup_lt_Some|].
  destruct (Hc _ _ Hp) as [Hq|[Hq _]]; rewrite Hp' in Hq; injection Hq as ->; [|by left].
  by apply (Forall_lookup_1 _ _ _ _ Hf Hp).
Qed.

Lemma cleared_insert lowest producers i p :
  producers !! i = Some p -> p < lowest -> cleared lowest producers (<[i := INVALID_SEQNR]> producers).
Proof.
  intros Hp Hlt. split; [apply length_insert|]. intros j q Hq. destruct (decide (i = j)) as [->|Hne].
  - right. rewrite list_lookup_insert_eq by (by eapply lookup_lt_Some). split; [done|congruence].
  - left. by rewrite list_lookup_insert_ne.
Qed.

Lemma peekProducer_ok r lowest producers next :
  regs_ok producers next -> 0 <= r < last_reg ->
  RegisterDependencies.peekProducer r lowest producers =
    Ok (if r =? DL_REG_INVALID then INVALID_SEQNR else default INVALID_SEQNR (live_producer producers lowest r)).
Proof.
  intros [Hlen _] Hr. unfold RegisterDependencies.peekProducer, live_producer.
  destruct (r =? DL_REG_INVALID); [done|].
  destruct (lookup_lt_is_Some_2 producers (Z.to_nat r)) as [p Hp]; [lia|].
  rewrite (aget_Ok _ _ _ Hp), Hp. cbn [rbind]. by destruct (_ || _).
Qed.

(** One of [regs] has the live producer [d]. *)
Definition produces producers (lowest : Z) (regs : list Z) (d : Z) : Prop :=
  exists r, r ∈ regs /\ live_producer producers lowest r = Some d.

Lemma produces_cons producers lowest r regs d :
  produces producers lowest (r :: regs) d <-> live_producer producers lowest r = Some d \/ produces producers lowest regs d.
Proof.
  unfold produces. split.
  - intros (x & [->|Hx]%elem_of_cons & Hl); eauto.
  - intros [Hl|(x & Hx & Hl)]; eauto using list_elem_of_here, list_elem_of_further.
Qed.

Lemma produces_cleared lowest producers producers' regs d :
  cleared lowest producers producers' -> produces producers' lowest regs d <-> produces producers lowest regs d.
Proof. intros Hc. unfold produces. by setoid_rewrite (cleared_live lowest producers producers'). Qed.

(** What the loop over the source registers adds. *)
Lemma add_sources_ok lowest regs : forall producers u next,
  regs_ok producers next -> Forall (fun r => 0 <= r < last_reg) regs -> wf_deps u -> room (length regs) u ->
  (forall d, produces producers lowest regs d -> 0 <= d < deps_end u) ->
  exists producers' u', RegisterDependencies.add_sources lowest regs producers u = Ok (producers', u') /\
    cleared lowest producers producers' /\ grown (produces producers lowest regs) (length regs) u u' /\
    (forall d, produces producers lowest regs d -> d ∈ deps u').
Proof.
  induction regs as [|r regs IH]; intros producers u next Hok Hregs Hwf Hroom Hlive.
  { exists producers, u. split_and!; auto using cleared_refl, grown_refl. intros d (? & ? & _). set_solver. }
  apply Forall_cons in Hregs as [Hr Hregs]. pose proof (proj1 Hok) as Hlen.
  cbn [RegisterDependencies.add_sources length] in *. unfold rguard.
  rewrite (proj2 (Z.ltb_lt r last_reg)) by lia. cbn [rbind].
  destruct (lookup_lt_is_Some_2 producers (Z.to_nat r)) as [p Hp]; [lia|].
  rewrite (aget_Ok _ _ _ Hp). cbn [rbind].
  assert (Hstep : forall producers1 u1 k, cleared lowest producers producers1 -> grown (produces producers lowest (r :: regs)) k u u1 ->
    (k <= 1)%nat -> (forall d, live_producer producers lowest r = Some d -> d ∈ deps u1) ->
    exists producers' u', RegisterDependencies.add_sources lowest regs producers1 u1 = Ok (producers', u') /\
    cleared lowest producers producers' /\ grown (produces producers lowest (r :: regs)) (S (length regs)) u u' /\
    (forall d, produces producers lowest (r :: regs) d -> d ∈ deps u')).
  { intros producers1 u1 k Hcl Hg Hk Hr1.
    destruct (IH producers1 u1 next) as (producers' & u' & Heq & Hcl' & Hg' & Hnew);
      [by eapply cleared_ok|done|apply Hg|eapply grown_room; [exact Hg|unfold room in *; lia]| |].
    { intros d Hd. rewrite (same_but_deps_end u u1) by apply Hg. apply Hlive, produces_cons. right.
      by apply (produces_cleared lowest producers producers1). }
    exists producers', u'. split_and!; [done|by eapply cleared_trans| |].
    - eapply grown_mono; [eapply grown_trans; [exact Hg|eapply grown_mono; [exact Hg'| |reflexivity]]|done|lia].
      intros d Hd. apply produces_cons. right. by apply (produces_cleared lowest producers producers1).
    - intros d [Hd|Hd]%produces_cons; [by apply (gr_old _ _ _ _ _ Hg'), Hr1|].
      apply Hnew. by apply (produces_cleared lowest producers producers1). }
  destruct (Z.eqb_spec p INVALID_SEQNR) as [Hpi|Hpi]; [|destruct (Z.leb_spec lowest p) as [Hge|Hlt]].
  - apply (Hstep _ _ 0%nat); [apply cleared_refl|by apply grown_refl|lia|].
    unfold live_producer. rewrite Hp, (proj2 (Z.eqb_eq _ _) Hpi). done.
  - assert (Hlp : live_producer producers lowest r = Some p).
    { unfold live_producer. rewrite Hp, (proj2 (Z.eqb_neq _ _) Hpi), (proj2 (Z.ltb_ge _ _)) by lia. done. }
    destruct (addDependency_ok u p Hwf) as (u1 & -> & Hg1 & Hin1).
    { apply Hlive, produces_cons. by left. } { unfold room in *. lia. }
    cbn [rbind]. apply (Hstep _ _ 1%nat); [apply cleared_refl| |lia|congruence].
    eapply grown_mono; [exact Hg1| |lia]. intros d <-. apply produces_cons. by left.
  - rewrite aset_Ok by (by eapply lookup_lt_Some). cbn [rbind].
    apply (Hstep _ _ 0%nat); [by eapply cleared_insert|by apply grown_refl|lia|].
    unfold live_producer. rewrite Hp, (proj2 (Z.ltb_lt _ _) Hlt), orb_true_r. done.
Qed.

(** After the destination registers have been written. *)
Lemma set_producers_ok n regs : forall producers next,
  regs_ok producers next -> Forall (fun r => 0 <= r < last_reg) regs -> 0 <= n -> next <= n + 1 ->
  exists producers', RegisterDependencies.set_producers n regs producers = Ok producers' /\
    regs_ok producers' (n + 1) /\
    forall r, 0 <= r -> producers' !! Z.to_nat r = if bool_decide (r ∈ regs) then Some n else producers !! Z.to_nat r.
Proof.
  induction regs as [|r regs IH]; intros producers next Hok Hregs Hn Hnext.
  { exists producers. split_and!; [done| |done].
    destruct Hok as [Hl Hf]. split; [done|]. eapply Forall_impl; [exact Hf|]. simpl. intros p [?|?]; [by left|right; lia]. }
  apply Forall_cons in Hregs as [Hr Hregs]. destruct Hok as [Hlen Hf].
  cbn [RegisterDependencies.set_producers]. unfold rguard. rewrite (proj2 (Z.ltb_lt r last_reg)) by lia. cbn [rbind].
  rewrite aset_Ok by lia. cbn [rbind].
  destruct (IH (<[Z.to_nat r := n]> producers) (n + 1)) as (producers' & -> & Hok' & Hl'); [|done|done|lia|].
  { split; [by rewrite length_insert|]. apply Forall_insert; [|right; lia].
    eapply Forall_impl; [exact Hf|]. simpl. intros p [?|?]; [by left|right; lia]. }
  exists producers'. split_and!; [done|done|]. intros r' Hr'. rewrite (Hl' r' Hr').
  destruct (decide (r = r')) as [->|Hne].
  - rewrite list_lookup_insert_eq by lia. repeat case_bool_decide; set_solver.
  - rewrite list_lookup_insert_ne by lia. repeat case_bool_decide; set_solver.
Qed.
End registers.

(** * Memory *)
Section memory.
Context {Inst Info : Type}.
Abbreviation Dyn := (DynamicMicroOp Inst Info).
Implicit Types u : Dyn.
Implicit Types m : MemoryDependencies.t.
Import MemoryDependencies.

(** The queue holds stores in the order of their numbers. *)
Definition mem_ok (isst isbar : Z -> Prop) (next : Z) m : Prop :=
  (exists l, cq_repr (producers m) l /\ CircularQueue.m_size (producers m) = 1025 /\
     StronglySorted (fun a b : Z * Z => a.1 < b.1) l /\ Forall (fun q => 0 <= q.1 < next /\ isst q.1) l) /\
  (membar m = INVALID_SEQNR \/ (0 <= membar m < next /\ isbar (membar m))).

Lemma sorted_below (l : list (Z * Z)) lowest :
  StronglySorted (fun a b : Z * Z => a.1 < b.1) l -> (match l with [] => True | x :: _ => lowest <= x.1 end) ->
  Forall (fun q => lowest <= q.1) l.
Proof.
  destruct l as [|x l]; intros Hs Hx; [done|]. apply StronglySorted_inv in Hs as [_ Hf].
  constructor; [done|]. eapply Forall_impl; [exact Hf|]. simpl. lia.
Qed.

Lemma pop_below_ok lowest fuel : forall q l,
  cq_repr q l -> (length l <= fuel)%nat -> StronglySorted (fun a b : Z * Z => a.1 < b.1) l ->
  exists q' l1 l2, pop_below fuel lowest q = Ok q' /\ l = l1 ++ l2 /\ cq_repr q' l2 /\
    CircularQueue.m_size q' = CircularQueue.m_size q /\ Forall (fun q => lowest <= q.1) l2.
Proof.
  induction fuel as [|fuel IH]; intros q l Hr Hl Hs; cbn [pop_below]; rewrite (cq_empty_ok q l Hr).
  { destruct l; [|simpl in Hl; lia]. simpl. exists q, [], []. split_and!; done. }
  destruct l as [|x l]; [simpl; exists q, [], []; split_and!; done|].
  cbn [length Nat.eqb]. unfold CircularQueue.front. rewrite (cq_empty_ok q _ Hr). cbn [length Nat.eqb rguard negb rbind].
  pose proof (cq_cell_ok q _ 0 x Hr eq_refl) as Hc.
  assert (Hlast : 0 <= CircularQueue.m_last q < CircularQueue.m_size q) by apply Hr.
  rewrite Z.add_0_r, Z.mod_small in Hc by done. rewrite Hc. cbn [rbind].
  destruct (Z.ltb_spec x.1 lowest) as [Hlt|Hge].
  - destruct (cq_pop_ok q x l Hr) as (q1 & -> & Hs1 & Hr1). cbn [rbind].
    apply StronglySorted_inv in Hs as [Hs _]. simpl in Hl.
    destruct (IH q1 l Hr1 ltac:(lia) Hs) as (q' & l1 & l2 & -> & -> & Hr' & Hs' & Hf).
    exists q', (x :: l1), l2. split_and!; [done|done|done|congruence|done].
  - exists q, [], (x :: l). split_and!; [done..|]. by apply sorted_below.
Qed.

Lemma find_down_ok address q l : forall i,
  cq_repr q l -> (i <= length l)%nat ->
  exists p, find_down i address q = Ok p /\ (p = INVALID_SEQNR \/ exists x, x ∈ l /\ p = x.1).
Proof.
  induction i as [|i IH]; intros Hr Hi; cbn [find_down]; [eauto|].
  destruct (lookup_lt_is_Some_2 l i) as [x Hx]; [lia|].
  rewrite (cq_at_ok q l i x Hr Hx). cbn [rbind]. destruct (x.2 =? address).
  - exists x.1. split; [done|]. right. exists x. split; [by eapply list_elem_of_lookup_2|done].
  - apply IH; [done|lia].
Qed.

Lemma sorted_length (l : list (Z * Z)) : forall lo hi,
  StronglySorted (fun a b : Z * Z => a.1 < b.1) l -> Forall (fun q => lo <= q.1 < hi) l -> lo <= hi ->
  Z.of_nat (length l) <= hi - lo.
Proof.
  induction l as [|x l IH]; intros lo hi Hs Hf Hle; [simpl; lia|].
  apply StronglySorted_inv in Hs as [Hs Hx]. apply Forall_cons in Hf as [Hx1 Hf]. cbn [length].
  assert (Z.of_nat (length l) <= hi - (x.1 + 1)); [|lia]. apply IH; [done| |lia].
  apply Forall_lookup. intros i y Hy. pose proof (Forall_lookup_1 _ _ _ _ Hf Hy). pose proof (Forall_lookup_1 _ _ _ _ Hx Hy).
  simpl in *. lia.
Qed.

Lemma clean_ok isst isbar next lowest m :
  mem_ok isst isbar next m -> 
  exists m', clean lowest m = Ok m' /\ mem_ok isst isbar next m' /\ membar m' = membar m /\
    exists l, cq_repr (producers m') l /\ CircularQueue.m_size (producers m') = 1025 /\
      StronglySorted (fun a b : Z * Z => a.1 < b.1) l /\ Forall (fun q => lowest <= q.1 < next /\ 0 <= q.1 /\ isst q.1) l.
Proof.
  intros [(l & Hr & Hsz & Hs & Hf) Hbar].
  assert (Hlen : (length l <= 1024)%nat) by (pose proof Hr as (_ & _ & _ & _ & Hl & _); lia).
  destruct (pop_below_ok lowest 1024 (producers m) l Hr Hlen Hs) as (q' & l1 & l2 & Heq & -> & Hr' & Hs' & Hlow).
  unfold clean. rewrite Heq. cbn [rbind]. eexists. split; [done|].
  assert (Hs2 : StronglySorted (fun a b : Z * Z => a.1 < b.1) l2) by (by apply StronglySorted_app in Hs as (_ & _ & ?)).
  apply Forall_app in Hf as [_ Hf2].
  split_and!; [|done|].
  - split; [|done]. exists l2. split_and!; [done|simpl; congruence|done|done].
  - exists l2. split_and!; [done|simpl; congruence|done|].
    apply Forall_lookup. intros i y Hy. pose proof (Forall_lookup_1 _ _ _ _ Hlow Hy). pose proof (Forall_lookup_1 _ _ _ _ Hf2 Hy).
    simpl in *. naive_solver lia.
Qed.

Lemma depend_membar_ok (isbar : Z -> Prop) next lowest m u :
  membar m = INVALID_SEQNR \/ (0 <= membar m < next /\ isbar (membar m)) -> wf_deps u -> room 1 u -> next <= INVALID_SEQNR ->
  (forall q, isbar q -> 0 <= q < next -> q < deps_end u) ->
  exists u', depend_membar lowest m u = Ok u' /\ grown (fun d => lowest <= d < next) 1 u u'.
Proof.
  intros Hbar Hwf Hroom Hnext Hlt. unfold depend_membar.
  destruct (Z.eqb_spec (membar m) INVALID_SEQNR) as [|Hne]; [cbn [negb andb]; eauto using grown_refl|].
  destruct Hbar as [?|[Hb Hisb]]; [done|]. cbn [negb andb].
  destruct (Z.ltb_spec lowest (membar m)); [|eauto using grown_refl].
  destruct (addDependency_ok u (membar m) Hwf) as (u' & -> & Hg & _); [specialize (Hlt _ Hisb Hb); lia|done|].
  exists u'. split; [done|]. eapply grown_mono; [exact Hg| |lia]. intros d <-. lia.
Qed.

(** Weakening what is known of the stores and barriers when one more
    micro-operation has entered. *)
Lemma mem_ok_mono (isst isbar isst' isbar' : Z -> Prop) next next' m :
  mem_ok isst isbar next m -> (forall q, isst q -> isst' q) -> (forall q, isbar q -> isbar' q) -> next <= next' ->
  mem_ok isst' isbar' next' m.
Proof.
  intros [(l & Hr & Hsz & Hs & Hf) Hbar] Hst Hb Hle. split.
  - exists l. split_and!; [done..|]. eapply Forall_impl; [exact Hf|]. simpl. naive_solver lia.
  - destruct Hbar as [?|[? ?]]; [by left|right]. split; [lia|auto].
Qed.

Lemma memory_setDependencies_ok (isst isbar isst' isbar' : Z -> Prop) next lowest m u :
  mem_ok isst isbar next m -> wf_deps u -> room 2 u -> sequenceNumber u = next -> 0 <= next < INVALID_SEQNR ->
  lowest <= next -> next - lowest < 1024 ->
  (isLoad (m_uop u) = true -> forall q, isst q -> 0 <= q < next -> q < deps_end u) ->
  (isLoad (m_uop u) || isStore (m_uop u) || isMemBarrier (m_uop u) = true -> forall q, isbar q -> 0 <= q < next -> q < deps_end u) ->
  (forall q, isst q -> isst' q) -> (forall q, isbar q -> isbar' q) ->
  (isStore (m_uop u) = true -> isst' next) ->
  (isLoad (m_uop u) = false -> isStore (m_uop u) = false -> isMemBarrier (m_uop u) = true -> isbar' next) ->
  exists m' u', setDependencies u lowest m = Ok (m', u') /\
    grown (fun d => lowest <= d < next) (if isLoad (m_uop u) then 2 else 1) u u' /\
    mem_ok isst' isbar' (next + 1) m'.
Proof.
  intros Hm Hwf Hroom Hseq Hnext Hlow Hroomq Hld Hbar Hst' Hbar' Hnst Hnbar. unfold setDependencies.
  destruct (clean_ok isst isbar next lowest m Hm) as (m1 & -> & Hm1 & Hmb & l & Hr & Hsz & Hs & Hf). cbn [rbind].
  assert (Hm1' : mem_ok isst' isbar' (next + 1) m1) by (eapply mem_ok_mono; [done..|lia]).
  assert (Hroom1 : room 1 u) by (unfold room in *; lia).
  assert (Hlen : Z.of_nat (length l) <= next - lowest).
  { apply sorted_length; [done| |done]. eapply Forall_impl; [exact Hf|]. simpl. naive_solver. }
  destruct (isLoad (m_uop u)) eqn:Hl; [|destruct (isStore (m_uop u)) eqn:Hst; [|destruct (isMemBarrier (m_uop u)) eqn:Hmbar]].
  - unfold find. rewrite (cq_size_ok _ _ Hr). cbn [rbind].
    destruct (find_down_ok (address u) (producers m1) l (Z.to_nat (Z.of_nat (length l))) Hr) as (p & -> & Hp); [lia|]. cbn [rbind].
    assert (Hu1 : exists u1, (if p =? INVALID_SEQNR then Ok u else addDependency p u) = Ok u1 /\
      grown (fun d => lowest <= d < next) 1 u u1).
    { destruct (Z.eqb_spec p INVALID_SEQNR) as [|Hne]; [eauto using grown_refl|].
      destruct Hp as [?|(x & Hx & ->)]; [done|].
      pose proof (proj1 (Forall_forall _ _) Hf x Hx) as (Hx1 & Hx0 & Hxs). simpl in *.
      destruct (addDependency_ok u x.1 Hwf) as (u1 & -> & Hg & _); [specialize (Hld eq_refl _ Hxs); lia|done|].
      exists u1. split; [done|]. eapply grown_mono; [exact Hg| |lia]. intros d <-. lia. }
    destruct Hu1 as (u1 & -> & Hg1). cbn [rbind].
    destruct (depend_membar_ok isbar next lowest m1 u1 (proj2 Hm1)) as (u2 & -> & Hg2); [apply Hg1| |lia| |].
    { eapply grown_room; [exact Hg1|done]. }
    { rewrite (same_but_deps_end u u1) by apply Hg1. by apply Hbar. }
    cbn [rbind]. exists m1, u2. split_and!; [done| |done]. by apply (grown_trans _ 1 1 u u1 u2).
  - unfold add. rewrite Hseq.
    destruct (cq_push_ok (producers m1) l (next, address u) Hr) as (q2 & -> & Hs2 & Hr2); [lia|]. cbn [rbind].
    assert (Hm2 : forall isb, (membar m1 = INVALID_SEQNR \/ (0 <= membar m1 < next + 1 /\ isb (membar m1))) ->
      mem_ok isst' isb (next + 1) (mk q2 (membar m1))).
    { intros isb Hb. split; [|done]. exists (l ++ [(next, address u)]). split_and!; [done|simpl; congruence| |].
      - apply StronglySorted_app. split_and!; [|done|by repeat constructor].
        intros x y Hx Hy. apply list_elem_of_singleton in Hy as ->.
        pose proof (proj1 (Forall_forall _ _) Hf x Hx) as (Hx1 & _). simpl. lia.
      - apply Forall_app. split; [|constructor; [simpl; split; [lia|by apply Hnst]|done]].
        eapply Forall_impl; [exact Hf|]. simpl. intros q (? & ? & ?). split; [lia|auto]. }
    destruct (depend_membar_ok isbar next lowest (mk q2 (membar m1)) u (proj2 Hm1)) as (u2 & -> & Hg2);
      [done|done|lia|by apply Hbar|].
    cbn [rbind]. eexists _, u2. split_and!; [done|done|].
    apply Hm2. destruct Hm1' as [_ [?|[? ?]]]; [by left|right; split; [lia|done]].
  - destruct (depend_membar_ok isbar next lowest m1 u (proj2 Hm1)) as (u2 & -> & Hg2); [done|done|lia|by apply Hbar|].
    cbn [rbind]. exists (mk (producers m1) (sequenceNumber u2)), u2.
    assert (Hseq2 : sequenceNumber u2 = next) by (by rewrite (gr_same _ _ _ _ Hg2)).
    rewrite Hseq2. split_and!; [done|done|].
    split; [apply Hm1'|]. right. simpl. split; [lia|by apply Hnbar].
  - exists m1, u. split_and!; [done|by apply grown_refl|done].
Qed.
End memory.
