(* ===== verification/RobEntries.v ===== *)
(** The entries of the reorder buffer and their links: finding an entry by its
    number, the lists of dependants, and the invariant that ties the
    dependencies of an entry to the dependants of its producers. *)
From stdpp Require Import base numbers list sets.
From Stdlib Require Import ZArith Lia Bool.
From S2P Require Import Prelude Timing Queues MicroOp Dependencies RobDeps RobContention RobTimer.
Open Scope Z_scope.

(** How often [x] occurs in [l]. *)
Abbreviation cnt l x := (count_occ Z.eq_dec l x).

Section entries.
Context {Inst Info : Type}.
Abbreviation Dyn := (DynamicMicroOp Inst Info).
Abbreviation Entry := (RobEntry Inst Info).
Implicit Types e : Entry.
Implicit Types l : list Entry.

(** * Dependants *)
Definition dependants e : list Z := inlineDependants e ++ default [] (vectorDependants e).

Definition wf_dependants e : Prop :=
  (length (inlineDependants e) <= MAX_INLINE_DEPENDANTS)%nat /\
  (vectorDependants e <> None -> length (inlineDependants e) = MAX_INLINE_DEPENDANTS).

Lemma getNumDependants_ok e : getNumDependants e = length (dependants e).
Proof. unfold getNumDependants, dependants. rewrite length_app. by destruct (vectorDependants e). Qed.

Lemma getDependant_ok e i d : wf_dependants e -> dependants e !! i = Some d -> getDependant i e = Ok d.
Proof.
  unfold dependants, getDependant. intros [Hle Hv] Hi.
  case_bool_decide as Hlt.
  - destruct (decide (i < length (inlineDependants e))%nat) as [Hi'|Hi'].
    + rewrite lookup_app_l in Hi by done. by rewrite Hi.
    + rewrite lookup_app_r in Hi by lia. destruct (vectorDependants e); [|simpl in Hi; by rewrite lookup_nil in Hi].
      specialize (Hv ltac:(done)). lia.
  - rewrite lookup_app_r in Hi by lia.
    destruct (vectorDependants e) as [v|]; simpl in *; [|by rewrite lookup_nil in Hi].
    rewrite Hv in Hi by done. by rewrite Hi.
Qed.

Lemma all_dependants_ok e : wf_dependants e -> all_dependants e = Ok (dependants e).
Proof.
  intros Hwf. unfold all_dependants. rewrite getNumDependants_ok.
  apply mapM_r_index. intros i d. by apply getDependant_ok.
Qed.

Lemma addDependant_ok n e :
  wf_dependants e -> wf_dependants (addDependant n e) /\ dependants (addDependant n e) = dependants e ++ [n].
Proof.
  intros [Hle Hv]. unfold addDependant, dependants. case_bool_decide as Hlt.
  - destruct (vectorDependants e) eqn:Hve; [specialize (Hv ltac:(done)); lia|].
    split; [split; simpl|simpl]; rewrite ?length_app, ?Hve; simpl; [lia|done|]. by rewrite !app_nil_r.
  - split; [split; simpl; lia|]. simpl. by rewrite app_assoc.
Qed.

(** * Numbers *)
Definition numbered (b : Z) l : Prop :=
  0 <= b /\ b + Z.of_nat (length l) < 2 ^ 64 /\ forall i e, l !! i = Some e -> seq_of e = b + Z.of_nat i.

Lemma numbered_insert b l i e e' :
  numbered b l -> l !! i = Some e -> seq_of e' = seq_of e -> numbered b (<[i := e']> l).
Proof.
  intros (Hb & Hl & Hn) Hi He. split; [done|]. split; [by rewrite length_insert|].
  intros j x Hx. destruct (decide (i = j)) as [->|Hne].
  - rewrite list_lookup_insert_eq in Hx by (by eapply lookup_lt_Some). injection Hx as <-. rewrite He. by apply Hn.
  - rewrite list_lookup_insert_ne in Hx by done. by apply Hn.
Qed.

Lemma findEntry_ok b l i e n :
  numbered b l -> l !! i = Some e -> n = b + Z.of_nat i -> findEntryBySequenceNumber n l = Ok (i, e).
Proof.
  intros (Hb & Hl & Hn) Hi ->. pose proof (lookup_lt_Some _ _ _ Hi) as Hlt. unfold findEntryBySequenceNumber.
  destruct (lookup_lt_is_Some_2 l 0) as [e0 H0]; [lia|]. rewrite (aget_Ok _ _ _ H0). cbn [rbind].
  rewrite (Hn 0%nat e0 H0). replace (b + Z.of_nat i - (b + Z.of_nat 0)) with (Z.of_nat i) by lia.
  rewrite u64_small by lia. unfold rguard. rewrite (proj2 (Z.ltb_lt _ _)) by lia. cbn [rbind].
  rewrite Nat2Z.id, (aget_Ok _ _ _ Hi). cbn [rbind]. by rewrite (Hn i e Hi), Z.eqb_refl.
Qed.

Lemma deref_ok b l i e n :
  numbered b l -> l !! i = Some e -> n = b + Z.of_nat i -> deref n l = Ok (i, e).
Proof.
  intros (Hb & Hl & Hn) Hi ->. pose proof (lookup_lt_Some _ _ _ Hi) as Hlt. unfold deref.
  destruct (lookup_lt_is_Some_2 l 0) as [e0 H0]; [lia|]. rewrite (aget_Ok _ _ _ H0). cbn [rbind].
  rewrite (Hn 0%nat e0 H0). replace (b + Z.of_nat i - (b + Z.of_nat 0)) with (Z.of_nat i) by lia.
  rewrite Nat2Z.id, (aget_Ok _ _ _ Hi). cbn [rbind]. by rewrite (Hn i e Hi), Z.eqb_refl.
Qed.

Lemma dep_list_ok (u : Dyn) : wf_deps u -> dep_list u = Ok (deps u).
Proof.
  intros Hwf. unfold dep_list. rewrite (getDependenciesLength_ok u Hwf), Nat2Z.id.
  apply mapM_r_index. intros i d. by apply getDependency_ok.
Qed.

(** * Links

    An entry that is not issued has a list of dependants; while an entry is
    being issued, [hot] is its position with the dependants not visited yet. *)
Abbreviation Hot := (option (nat * list Z)).
Implicit Types hot : Hot.

Definition waiting hot (i : nat) e : option (list Z) :=
  match hot with
  | Some (h, rem) => if bool_decide (h = i) then Some rem else if is_done e then None else Some (dependants e)
  | None => if is_done e then None else Some (dependants e)
  end.

Record links hot (b : Z) l : Prop := mkLinks {
  lk_numbered : numbered b l;
  lk_deps : forall i e, l !! i = Some e -> wf_deps (uop e);
  lk_dependants : forall i e, l !! i = Some e -> wf_dependants e;
  lk_small : forall i e, l !! i = Some e -> isStore (mop e) = true -> (length (deps (uop e)) <= 7)%nat;
  lk_older : forall j e d, l !! j = Some e -> d ∈ deps (uop e) ->
    exists i e', l !! i = Some e' /\ (i < j)%nat /\ d = b + Z.of_nat i /\ waiting hot i e' <> None;
  lk_issued : forall j e, l !! j = Some e -> is_done e = true -> deps (uop e) = [];
  lk_count : forall i e j e' w, l !! i = Some e -> l !! j = Some e' -> waiting hot i e = Some w ->
    cnt w (b + Z.of_nat j) = cnt (deps (uop e')) (b + Z.of_nat i);
  lk_range : forall i e w d, l !! i = Some e -> waiting hot i e = Some w -> d ∈ w ->
    exists j e', l !! j = Some e' /\ d = b + Z.of_nat j
}.

(** When the dependencies of an entry are resolved, and when the address of a
    store is. *)
Definition ready_ok e : Prop :=
  is_done e = false ->
  readyMax e < MaxTime /\ (deps (uop e) = [] -> readyMax e <= ready e < MaxTime) /\
  (deps (uop e) <> [] -> ready e = MaxTime).

Definition produced (b : Z) l (p : Z) : Prop :=
  p < b \/ exists i e, l !! i = Some e /\ p = b + Z.of_nat i /\ is_done e = true.

Definition addr_ok (b : Z) l e : Prop :=
  isStore (mop e) = true -> is_done e = false ->
  addressReadyMax e <= readyMax e /\
  (forall p, p ∈ addressProducers e -> 0 <= p < b + Z.of_nat (length l) /\ (p ∈ deps (uop e) \/ produced b l p)) /\
  (addressReady e = MaxTime /\ (exists p, p ∈ addressProducers e /\ p ∈ deps (uop e)) \/ addressReady e <= readyMax e).

(** The entries of [l'] are done exactly when those of [l] are. *)
Definition same_done l l' : Prop :=
  length l = length l' /\ forall i e e', l !! i = Some e -> l' !! i = Some e' -> is_done e' = is_done e.

Lemma same_done_produced b l l' p : same_done l l' -> produced b l p -> produced b l' p.
Proof.
  intros [Hlen Hd] [?|(i & e & Hi & -> & Hdone)]; [by left|]. right.
  destruct (lookup_lt_is_Some_2 l' i) as [e' Hi']; [rewrite <- Hlen; by eapply lookup_lt_Some|].
  exists i, e'. split_and!; [done..|]. by rewrite (Hd i e e').
Qed.

Lemma same_done_addr b l l' e : same_done l l' -> addr_ok b l e -> addr_ok b l' e.
Proof.
  intros Hs Ha Hst Hd. destruct (Ha Hst Hd) as (H1 & H2 & H3). split_and!; [done| |done].
  intros p Hp. destruct (H2 p Hp) as [Hr Hc]. rewrite <- (proj1 Hs). split; [done|].
  destruct Hc; [by left|right]. by eapply same_done_produced.
Qed.

Lemma same_done_insert l i e e' : l !! i = Some e -> is_done e' = is_done e -> same_done l (<[i := e']> l).
Proof.
  intros Hi He. split; [by rewrite length_insert|]. intros j x x' Hx Hx'.
  destruct (decide (i = j)) as [->|Hne].
  - rewrite list_lookup_insert_eq in Hx' by (by eapply lookup_lt_Some). congruence.
  - rewrite list_lookup_insert_ne in Hx' by done. congruence.
Qed.

(** What becoming aware that [n] is available at [depend] does to an entry. *)
Record woken (n depend : Z) e e' : Prop := mkWoken {
  wk_uop : same_but_deps (uop e) (uop e');
  wk_dispatched : dispatched e' = dispatched e;
  wk_issued : issued e' = issued e;
  wk_done : done_ e' = done_ e;
  wk_dependants : dependants e' = dependants e;
  wk_deps : forall d, d <> n -> cnt (deps (uop e')) d = cnt (deps (uop e)) d;
  wk_changed : e' = e \/
    (n ∈ deps (uop e) /\ readyMax e' = Z.max (readyMax e) depend /\ (ready e' = ready e \/ ready e' = readyMax e'))
}.

Lemma woken_refl n depend e : woken n depend e e.
Proof. split; auto using same_but_deps_refl. Qed.

Lemma cnt_elem (l : list Z) x : x ∈ l <-> (0 < cnt l x)%nat.
Proof. rewrite list_elem_of_In. apply count_occ_In. Qed.

Lemma woken_trans n depend e1 e2 e3 :
  woken n depend e1 e2 -> woken n depend e2 e3 -> (n ∈ deps (uop e2) -> n ∈ deps (uop e1)) -> woken n depend e1 e3.
Proof.
  intros [] [] Hn. split; [by eapply same_but_deps_trans|congruence..| |].
  { intros d Hd. by rewrite wk_deps1, wk_deps0. }
  destruct wk_changed1 as [-> |(Hin2 & Hmax2 & Hr2)]; [done|].
  destruct wk_changed0 as [-> |(Hin1 & Hmax1 & Hr1)]; [by right|].
  right. split; [done|]. rewrite Hmax2, Hmax1. split; [lia|].
  destruct Hr2 as [->|Hr2]; [|by right; rewrite Hr2, Hmax2, Hmax1]. destruct Hr1 as [->|Hr1]; [by left|].
  right. lia.
Qed.

(** * The address of a store *)
Lemma check_address_ok b l i depend : forall producers r tmax,
  numbered b l -> l <> [] -> (forall p, p ∈ producers -> 0 <= p < b + Z.of_nat (length l)) ->
  exists r' tmax', check_address producers i depend l r tmax = Ok (r', tmax') /\
    tmax <= tmax' <= Z.max tmax depend /\
    (r' = true -> r = true) /\
    (r = true -> r' = false -> exists p, p ∈ producers /\ ~ produced b l p).
Proof.
  induction producers as [|p producers IH]; intros r tmax Hnum Hne Hr; cbn [check_address].
  { exists r, tmax. split_and!; [done|lia|lia|done|congruence]. }
  destruct (head l) as [e0|] eqn:H0; [|by destruct l]. cbn [of_option rbind].
  assert (Hs0 : seq_of e0 = b).
  { destruct l as [|x l]; [done|]. injection H0 as ->. destruct Hnum as (_ & _ & Hn). rewrite (Hn 0%nat e0 eq_refl). lia. }
  rewrite Hs0. assert (Hp : 0 <= p < b + Z.of_nat (length l)) by (apply Hr; by left).
  assert (Hrec : forall r1 tmax1, (r1 = true -> r = true) -> (r = true -> r1 = false -> ~ produced b l p) ->
    tmax <= tmax1 <= Z.max tmax depend ->
    exists r' tmax', check_address producers i depend l r1 tmax1 = Ok (r', tmax') /\
    tmax <= tmax' <= Z.max tmax depend /\ (r' = true -> r = true) /\
    (r = true -> r' = false -> exists p', p' ∈ p :: producers /\ ~ produced b l p')).
  { intros r1 tmax1 Hr1 Hr1' Ht1. destruct (IH r1 tmax1 Hnum Hne) as (r' & tmax' & -> & Ht & Htrue & Hfalse).
    { intros q Hq. apply Hr. by right. }
    exists r', tmax'. split_and!; [done|lia|lia|auto|].
    intros Hrt Hrf. destruct r1; [destruct (Hfalse eq_refl Hrf) as (q & Hq & Hnq); exists q; split; [by right|done]|].
    exists p. split; [by left|auto]. }
  destruct (Z.leb_spec b p) as [Hge|Hlt].
  - destruct (lookup_lt_is_Some_2 l (Z.to_nat (p - b))) as [e He]; [lia|].
    rewrite (findEntry_ok b l (Z.to_nat (p - b)) e p Hnum He) by lia. cbn [rbind]. apply Hrec.
    + by destruct r.
    + intros -> Hd [?|(k & x & Hx & Hk & Hxd)]; [lia|].
      assert (k = Z.to_nat (p - b)) as -> by lia. rewrite He in Hx. injection Hx as ->. by rewrite Hxd in Hd.
    + case_bool_decide; lia.
  - apply Hrec; [done|congruence|lia].
Qed.
End entries.
