(* ===== verification/RobWake.v ===== *)
(** Issuing an entry tells its dependants when its result is there: the loop over
    the dependants never fails, removes the entry from all lists of
    dependencies, and keeps the links. *)
From stdpp Require Import base numbers list sets.
From Stdlib Require Import ZArith Lia Bool.
From S2P Require Import Prelude Timing Queues MicroOp Dependencies RobDeps RobContention RobTimer RobEntries.
Open Scope Z_scope.

Lemma insert_cases {A} (l : list A) i k (x y : A) :
  <[i := x]> l !! k = Some y -> (k = i /\ y = x) \/ (k <> i /\ l !! k = Some y).
Proof.
  destruct (decide (i = k)) as [->|Hne].
  - intros H. pose proof (lookup_lt_Some _ _ _ H) as Hlt. rewrite length_insert in Hlt.
    rewrite list_lookup_insert_eq in H by done. injection H as <-. by left.
  - rewrite list_lookup_insert_ne by done. intros. by right.
Qed.

Section wake.
Context {Inst Info : Type}.
Abbreviation Dyn := (DynamicMicroOp Inst Info).
Abbreviation Entry := (RobEntry Inst Info).
Implicit Types e : Entry.
Implicit Types l : list Entry.

(** All entries have consistent times. *)
Definition entries_ok (b : Z) l : Prop := forall j e, l !! j = Some e -> ready_ok e /\ addr_ok b l e.

(** An entry gets a new uop with one dependency less, and new times. *)
Lemma links_remove_one (b : Z) l (i j : nat) rem e e' :
  links (Some (i, (b + Z.of_nat j) :: rem)) b l -> l !! j = Some e -> j <> i ->
  seq_of e' = seq_of e -> mop e' = mop e -> is_done e' = is_done e -> wf_deps (uop e') -> wf_dependants e' -> dependants e' = dependants e ->
  deps (uop e) ≡ₚ (b + Z.of_nat i) :: deps (uop e') ->
  links (Some (i, rem)) b (<[j := e']> l).
Proof.
  intros [Hnum Hwd Hwp Hsmall Holder Hiss Hcount Hrange] Hj Hji Hseq Hmop Hdone Hwf Hwf' Hdep Hperm.
  assert (Hin : forall d, d ∈ deps (uop e') -> d ∈ deps (uop e)) by (intros d Hd; rewrite Hperm; by right).
  assert (Hwait : forall k (x : Entry), waiting (Some (i, rem)) k x = if bool_decide (i = k) then Some rem
            else waiting (Some (i, (b + Z.of_nat j) :: rem)) k x).
  { intros k x. unfold waiting. by case_bool_decide. }
  assert (Hwe' : forall h, waiting (Some (i, h)) j e' = waiting (Some (i, h)) j e).
  { intros h. unfold waiting. by rewrite Hdone, Hdep. }
  split.
  - by eapply numbered_insert.
  - intros k x [[-> ->]|[_ Hx]]%insert_cases; eauto.
  - intros k x [[-> ->]|[_ Hx]]%insert_cases; eauto.
  - intros k x [[-> ->]|[_ Hx]]%insert_cases; [|eauto]. rewrite Hmop. intros Hst.
    pose proof (Hsmall j e Hj Hst). apply Permutation_length in Hperm. simpl in Hperm. lia.
  - intros k x d Hx Hd.
    assert (exists x0, l !! k = Some x0 /\ d ∈ deps (uop x0)) as (x0 & Hx0 & Hd0).
    { apply insert_cases in Hx as [[-> ->]|[_ Hx]]; eauto. }
    destruct (Holder k x0 d Hx0 Hd0) as (m & y & Hy & Hlt & -> & Hw).
    destruct (decide (m = j)) as [->|Hmj].
    + exists j, e'. rewrite list_lookup_insert_eq by (by eapply lookup_lt_Some). rewrite Hj in Hy. injection Hy as ->.
      split_and!; [done..|]. rewrite Hwait. case_bool_decide; [done|]. by rewrite Hwe'.
    + exists m, y. rewrite list_lookup_insert_ne by done. split_and!; [done..|]. rewrite Hwait. by case_bool_decide.
  - intros k x [[-> ->]|[_ Hx]]%insert_cases Hd; [|eauto].
    rewrite Hdone in Hd. specialize (Hiss j e Hj Hd). rewrite Hiss in Hperm. by apply Permutation_nil_cons in Hperm.
  - intros k x m y w Hx Hy Hw. rewrite Hwait in Hw.
    assert (Hcnt : forall h, cnt (deps (uop e)) h = if Z.eq_dec (b + Z.of_nat i) h then S (cnt (deps (uop e')) h) else cnt (deps (uop e')) h).
    { intros h. rewrite (Permutation_count_occ Z.eq_dec _ _) in Hperm. by rewrite Hperm. }
    assert (Hgen : forall x0 w0, l !! k = Some x0 -> waiting (Some (i, (b + Z.of_nat j) :: rem)) k x0 = Some w0 ->
      cnt w0 (b + Z.of_nat m) = if decide (m = j) then (if Z.eq_dec (b + Z.of_nat i) (b + Z.of_nat k) then S (cnt (deps (uop y)) (b + Z.of_nat k)) else cnt (deps (uop y)) (b + Z.of_nat k)) else cnt (deps (uop y)) (b + Z.of_nat k)).
    { intros x0 w0 Hx0 Hw0. apply insert_cases in Hy as [[-> ->]|[Hmj Hy]].
      - rewrite decide_True by done. by rewrite (Hcount k x0 j e w0 Hx0 Hj Hw0), Hcnt.
      - rewrite decide_False by done. by apply (Hcount k x0 m y w0). }
    case_bool_decide as Hik.
    + subst k. injection Hw as <-. apply insert_cases in Hx as [[-> _]|[_ Hx]]; [done|].
      specialize (Hgen x ((b + Z.of_nat j) :: rem) Hx). unfold waiting in Hgen. rewrite bool_decide_true in Hgen by done.
      specialize (Hgen eq_refl). cbn [count_occ] in Hgen. case_decide as Hm.
      * subst m. destruct (Z.eq_dec (b + Z.of_nat j) (b + Z.of_nat j)); [|done]. destruct (Z.eq_dec _ _) in Hgen; [lia|done].
      * destruct (Z.eq_dec (b + Z.of_nat j) (b + Z.of_nat m)); [lia|done].
    + assert (exists x0, l !! k = Some x0 /\ waiting (Some (i, (b + Z.of_nat j) :: rem)) k x0 = Some w) as (x0 & Hx0 & Hw0).
      { apply insert_cases in Hx as [[-> ->]|[_ Hx]]; [|eauto]. exists e. by rewrite <- Hwe'. }
      rewrite (Hgen x0 w Hx0 Hw0). case_decide; [|done]. destruct (Z.eq_dec _ _); [lia|done].
  - intros k x w d Hx Hw Hd.
    assert (exists m y, l !! m = Some y /\ d = b + Z.of_nat m) as (m & y & Hy & ->).
    { rewrite Hwait in Hw. case_bool_decide as Hik.
      - subst k. injection Hw as <-. apply insert_cases in Hx as [[-> _]|[_ Hx]]; [done|].
        eapply (Hrange i x); [done|unfold waiting; by rewrite bool_decide_true|by right].
      - apply insert_cases in Hx as [[-> ->]|[_ Hx]]; [rewrite Hwe' in Hw|]; by eapply Hrange. }
    destruct (lookup_lt_is_Some_2 (<[j := e']> l) m) as [z Hz]; [rewrite length_insert; by eapply lookup_lt_Some|].
    exists m, z. done.
Qed.

(** The entry [j] with its first times updated. *)
Definition resolved (u' : Dyn) (depend : Z) e : Entry :=
  let e1 := with_uop u' (with_ready (ready e) (Z.max (readyMax e) depend) e) in
  if getDependenciesLength u' =? 0 then with_ready (readyMax e1) (readyMax e1) e1 else e1.

Lemma resolved_fields u' depend e :
  uop (resolved u' depend e) = u' /\ readyMax (resolved u' depend e) = Z.max (readyMax e) depend /\
  addressReady (resolved u' depend e) = addressReady e /\ addressReadyMax (resolved u' depend e) = addressReadyMax e /\
  addressProducers (resolved u' depend e) = addressProducers e /\ dispatched (resolved u' depend e) = dispatched e /\
  issued (resolved u' depend e) = issued e /\ done_ (resolved u' depend e) = done_ e /\
  dependants (resolved u' depend e) = dependants e /\
  (ready (resolved u' depend e) = ready e \/ ready (resolved u' depend e) = readyMax (resolved u' depend e)).
Proof. unfold resolved. destruct (_ =? 0); simpl; split_and!; auto. Qed.

Lemma resolved_ready u' n depend e :
  ready_ok e -> is_done e = false -> deps (uop e) ≡ₚ n :: deps u' -> wf_deps u' -> 0 <= depend < MaxTime ->
  ready_ok (resolved u' depend e).
Proof.
  intros Hr Hd Hp Hwf Hdep _. destruct (Hr Hd) as (Hmax & _ & Hne).
  assert (Hready : ready e = MaxTime) by (apply Hne; intros E; rewrite E in Hp; by apply Permutation_nil_cons in Hp).
  unfold resolved. rewrite (getDependenciesLength_ok u' Hwf).
  destruct (Z.eqb_spec (Z.of_nat (length (deps u'))) 0) as [H0|H0]; simpl.
  - assert (deps u' = []) as Hnil by (apply length_zero_iff_nil; lia). rewrite Hnil. split_and!; [lia|intros; lia|congruence].
  - split_and!; [lia| |done]. intros E. rewrite E in H0. done.
Qed.

(** The address part of an iteration: the address of the store [e] is known when
    all its producers are issued. *)
Lemma wake_address b l i j e depend :
  numbered b l -> l !! j = Some e -> depend <= readyMax e ->
  (isStore (mop e) = true ->
    addressReadyMax e <= readyMax e /\
    (forall p, p ∈ addressProducers e -> 0 <= p < b + Z.of_nat (length l) /\ (p ∈ deps (uop e) \/ produced b l p)) /\
    (addressReady e = MaxTime \/ addressReady e <= readyMax e)) ->
  exists t tmax,
    (if isStore (mop e) && (addressReady e =? MaxTime) then
       let! (is_ready, tmax) := check_address (addressProducers e) i depend l true (addressReadyMax e) in
       Ok (<[j := with_addressReady (if is_ready then tmax else addressReady e) tmax e]> l)
     else Ok l) = Ok (<[j := with_addressReady t tmax e]> l) /\
    addr_ok b l (with_addressReady t tmax e).
Proof.
  intros Hnum Hj Hdep Hstore.
  destruct (isStore (mop e) && (addressReady e =? MaxTime)) eqn:Hst.
  - zbool. destruct Hstore as (Hmax & Hprod & _); [done|].
    destruct (check_address_ok b l i depend (addressProducers e) true (addressReadyMax e) Hnum) as
      (r & tmax & -> & Ht & _ & Hr); [by intros ->|intros p Hp; by apply Hprod|]. cbn [rbind].
    eexists _, tmax. split; [done|]. intros _ _. simpl. split_and!; [lia|done|].
    destruct r; [right; lia|]. left. split; [done|].
    destruct (Hr eq_refl eq_refl) as (p & Hp & Hnp). exists p. split; [done|]. by destruct (Hprod p Hp) as [_ [?|?]].
  - exists (addressReady e), (addressReadyMax e).
    assert (with_addressReady (addressReady e) (addressReadyMax e) e = e) as -> by (by destruct e).
    rewrite list_insert_id by done. split; [done|]. intros Hs _. destruct (Hstore Hs) as (Hmax & Hprod & Hready).
    rewrite Hs in Hst. cbn [andb] in Hst. zbool. split_and!; [done|done|]. right. by destruct Hready.
Qed.

Lemma same_done_trans l1 l2 l3 : same_done l1 l2 -> same_done l2 l3 -> same_done l1 l3.
Proof.
  intros [Hl1 H1] [Hl2 H2]. split; [congruence|]. intros i e1 e3 He1 He3.
  destruct (lookup_lt_is_Some_2 l2 i) as [e2 He2]; [rewrite <- Hl1; by eapply lookup_lt_Some|].
  by rewrite (H2 i e2 e3 He2 He3), (H1 i e1 e2 He1 He2).
Qed.

(** One entry has changed in a way that is fine. *)
Lemma entries_ok_insert b l j e e' :
  entries_ok b l -> l !! j = Some e -> is_done e' = is_done e -> ready_ok e' -> addr_ok b l e' ->
  entries_ok b (<[j := e']> l).
Proof.
  intros Hok Hj Hd Hr Ha k x Hx. pose proof (same_done_insert l j e e' Hj Hd) as Hs.
  apply insert_cases in Hx as [[-> ->]|[_ Hx]]; (split; [|eapply same_done_addr; [exact Hs|]]); [done|done|by apply (Hok k)..].
Qed.

Lemma Forall2_insert_r {A} (R : A -> A -> Prop) (l : list A) j x y :
  (forall z, R z z) -> l !! j = Some x -> R x y -> Forall2 R l (<[j := y]> l).
Proof.
  intros Hrefl Hj Hxy. apply Forall2_same_length_lookup_2; [by rewrite length_insert|].
  intros k a c Ha [[-> ->]|[_ Hc]]%insert_cases; [congruence|]. rewrite Ha in Hc. injection Hc as <-. done.
Qed.

Lemma wake_ok b l i rem d depend ei :
  links (Some (i, d :: rem)) b l -> entries_ok b l -> l !! i = Some ei -> is_done ei = true -> 0 <= depend < MaxTime ->
  exists l', wake i (b + Z.of_nat i) depend d l = Ok l' /\ links (Some (i, rem)) b l' /\ entries_ok b l' /\
    Forall2 (woken (b + Z.of_nat i) depend) l l' /\ l' !! i = Some ei.
Proof.
  intros Hl Hok Hi Hdi Hdep. pose proof Hl as [Hnum Hwd Hwp Hsmall Holder Hiss Hcount Hrange].
  assert (Hwi : waiting (Some (i, d :: rem)) i ei = Some (d :: rem)) by (unfold waiting; by rewrite bool_decide_true).
  destruct (Hrange i ei _ d Hi Hwi) as (j & e & Hj & ->); [by left|].
  pose proof (Hcount i ei j e _ Hi Hj Hwi) as Hc. cbn [count_occ] in Hc. destruct (Z.eq_dec _ _) as [_|]; [|done].
  assert (Hin : (b + Z.of_nat i) ∈ deps (uop e)) by (apply cnt_elem; lia).
  assert (Hnil : deps (uop e) <> []) by (intros E; rewrite E in Hin; by apply not_elem_of_nil in Hin).
  assert (Hji : j <> i) by (intros ->; rewrite Hi in Hj; injection Hj as <-; by apply Hnil, (Hiss i)).
  assert (Hd : is_done e = false) by (destruct (is_done e) eqn:E; [by destruct Hnil; apply (Hiss j)|done]).
  unfold wake. rewrite (deref_ok b l j e) by done. cbn [rbind]. pose proof (Hwd j e Hj) as Hwf.
  unfold rguard. rewrite (getDependenciesLength_ok _ Hwf), (proj2 (Z.ltb_lt _ _)) by (destruct (deps (uop e)); [done|simpl; lia]).
  cbn [rbind]. destruct (removeDependency_ok (uop e) _ Hwf Hin) as (u' & -> & Hwf' & Hsame & Hperm). cbn [rbind].
  change (if getDependenciesLength u' =? 0 then _ else _) with (resolved u' depend e).
  destruct (resolved_fields u' depend e) as (Hu & Hrm & Har & Harm & Hap & Hdp & His & Hdn & Hdd & Hrr).
  destruct (Hok j e Hj) as [Hrok Haok].
  pose proof (resolved_ready u' _ depend e Hrok Hd Hperm Hwf' Hdep) as Hrok2.
  set (e2 := resolved u' depend e) in *.
  assert (Hdone2 : is_done e2 = is_done e) by (unfold is_done; by rewrite Hdn).
  assert (Hmop2 : mop e2 = mop e) by (unfold mop; rewrite Hu; by rewrite Hsame).
  assert (Hseq2 : seq_of e2 = seq_of e) by (unfold seq_of; rewrite Hu; by rewrite Hsame).
  pose proof (same_done_insert l j e e2 Hj Hdone2) as Hsd.
  destruct (wake_address b (<[j := e2]> l) i j e2 depend) as (t & tmax & Heq & Hao).
  { by eapply numbered_insert. } { apply list_lookup_insert_eq. by eapply lookup_lt_Some. } { lia. }
  { rewrite Hmop2. intros Hst. destruct (Haok Hst Hd) as (Ha1 & Ha2 & Ha3). rewrite Harm, Hap, Har, Hrm, Hu, length_insert.
    split_and!; [lia| |destruct Ha3 as [[? _]|?]; [by left|right; lia]].
    intros p Hp. destruct (Ha2 p Hp) as [Hr Hcase]. split; [done|].
    destruct Hcase as [Hpd|Hpp]; [|right; by eapply same_done_produced].
    rewrite Hperm in Hpd. apply elem_of_cons in Hpd as [->|Hpd]; [|by left]. right. right.
    exists i, ei. by rewrite list_lookup_insert_ne. }
  rewrite Heq, list_insert_insert_eq. eexists. split; [done|].
  set (e3 := with_addressReady t tmax e2) in *.
  assert (Ha3 : addr_ok b l e3).
  { eapply same_done_addr; [|exact Hao]. split; [by rewrite length_insert|]. intros k x x' Hx Hx'. symmetry. by apply (proj2 Hsd k). }
  split_and!.
  - eapply links_remove_one; [done|done|done|done|done|done|simpl; by rewrite Hu| |exact Hdd|simpl; by rewrite Hu].
    destruct (Hwp j e Hj). unfold wf_dependants. subst e3 e2. unfold resolved. by destruct (_ =? 0).
  - eapply entries_ok_insert; done.
  - eapply Forall2_insert_r; [apply woken_refl|done|].
    split; [simpl; by rewrite Hu|done..| |].
    + intros x Hx. simpl. rewrite Hu. rewrite (Permutation_count_occ Z.eq_dec _ _) in Hperm. rewrite Hperm. cbn [count_occ].
      destruct (Z.eq_dec _ _); [congruence|done].
    + right. done.
  - by rewrite list_lookup_insert_ne.
Qed.

Lemma Forall2_woken_trans n depend l1 : forall l2 l3,
  Forall2 (woken n depend) l1 l2 -> Forall2 (woken n depend) l2 l3 -> Forall2 (woken n depend) l1 l3.
Proof.
  induction l1 as [|e1 l1 IH]; intros l2 l3 H12 H23; inversion H12; subst; inversion H23; subst; constructor; [|by eapply IH].
  eapply woken_trans; [done|done|]. intros Hn.
  destruct (wk_changed _ _ _ _ H1) as [<-|(? & _)]; done.
Qed.

Lemma wake_all_ok b i depend ei : forall rem l,
  links (Some (i, rem)) b l -> entries_ok b l -> l !! i = Some ei -> is_done ei = true -> 0 <= depend < MaxTime ->
  exists l', wake_all i (b + Z.of_nat i) depend rem l = Ok l' /\ links None b l' /\ entries_ok b l' /\
    Forall2 (woken (b + Z.of_nat i) depend) l l' /\ l' !! i = Some ei /\
    (forall j e, l' !! j = Some e -> ~ (b + Z.of_nat i) ∈ deps (uop e)).
Proof.
  induction rem as [|d rem IH]; intros l Hl Hok Hi Hdi Hdep; cbn [wake_all].
  - exists l. destruct Hl as [Hnum Hwd Hwp Hsmall Holder Hiss Hcount Hrange].
    assert (Hwi : waiting (Some (i, [])) i ei = Some []) by (unfold waiting; by rewrite bool_decide_true).
    assert (Hgone : forall j e, l !! j = Some e -> ~ (b + Z.of_nat i) ∈ deps (uop e)).
    { intros j e Hj Hin%cnt_elem. pose proof (Hcount i ei j e _ Hi Hj Hwi) as Hc. simpl in Hc. lia. }
    assert (Hwait : forall k e w, l !! k = Some e -> waiting None k e = Some w -> waiting (Some (i, [])) k e = Some w).
    { intros k e w Hk. unfold waiting. case_bool_decide; [|done]. subst k. rewrite Hi in Hk. injection Hk as <-. by rewrite Hdi. }
    split_and!; [done| |done| |done|done].
    + split; [done..| |done| |].
      * intros j e d Hj Hd. destruct (Holder j e d Hj Hd) as (k & x & Hx & Hlt & -> & Hw). exists k, x.
        split_and!; [done..|]. destruct (decide (i = k)) as [->|Hne]; [by destruct (Hgone j e Hj)|].
        revert Hw. unfold waiting. by rewrite bool_decide_false.
      * intros k x j e w Hx Hj Hw. eapply (Hcount k x j e); eauto.
      * intros k x w d Hx Hw. eapply (Hrange k x); eauto.
    + apply Forall2_same_length_lookup_2; [done|]. intros k x y Hx Hy. rewrite Hx in Hy. injection Hy as <-. apply woken_refl.
  - destruct (wake_ok b l i rem d depend ei Hl Hok Hi Hdi Hdep) as (l1 & -> & Hl1 & Hok1 & Hw1 & Hi1). cbn [rbind].
    destruct (IH l1 Hl1 Hok1 Hi1 Hdi Hdep) as (l2 & -> & Hl2 & Hok2 & Hw2 & Hi2 & Hgone).
    exists l2. split_and!; [done..|by eapply Forall2_woken_trans|done|done].
Qed.
End wake.
