(* ===== verification/RobEnter.v ===== *)
(** A micro-operation enters the reorder buffer: its dependencies are found, a
    load looks through the store it depends on, and the entry is linked to the
    producers it has to wait for. *)
From stdpp Require Import base numbers list sets.
From Stdlib Require Import ZArith Lia Bool.
From S2P Require Import Prelude Timing Queues MicroOp Dependencies RobDeps RobContention RobTimer RobEntries RobWake.
Open Scope Z_scope.

Section enter.
Context {Inst Info : Type} `{Decoder Inst}.
Abbreviation Dyn := (DynamicMicroOp Inst Info).
Abbreviation Entry := (RobEntry Inst Info).
Implicit Types e x : Entry.
Implicit Types l older : list Entry.
Implicit Types u : Dyn.

(** The entry with number [d] is done. *)
Definition done_at (b : Z) l (d : Z) : bool :=
  match l !! Z.to_nat (d - b) with Some e => is_done e | None => false end.

Definition in_range (b : Z) l (d : Z) : Prop := b <= d < b + Z.of_nat (length l).

Lemma in_range_lookup b l d : in_range b l d -> exists i e, l !! i = Some e /\ d = b + Z.of_nat i.
Proof.
  intros Hr. destruct (lookup_lt_is_Some_2 l (Z.to_nat (d - b))) as [e He]; [unfold in_range in Hr; lia|].
  exists (Z.to_nat (d - b)), e. split; [done|]. unfold in_range in Hr. lia.
Qed.

Lemma done_at_lookup b l i e : l !! i = Some e -> done_at b l (b + Z.of_nat i) = is_done e.
Proof. intros Hi. unfold done_at. replace (Z.to_nat (b + Z.of_nat i - b)) with i by lia. by rewrite Hi. Qed.

(** * Lists of dependencies *)
Lemma add_all_ok ds : forall u,
  wf_deps u -> Forall (fun d => 0 <= d < deps_end u) ds -> room (length ds) u ->
  exists u', add_all ds u = Ok u' /\ grown (fun d => d ∈ ds) (length ds) u u'.
Proof.
  induction ds as [|d ds IH]; intros u Hwf Hf Hroom; cbn [add_all]; [eauto using grown_refl|].
  apply Forall_cons in Hf as [Hd Hf]. cbn [length] in *.
  destruct (addDependency_ok u d Hwf Hd) as (u1 & -> & Hg1 & _); [unfold room in *; lia|]. cbn [rbind].
  destruct (IH u1) as (u2 & -> & Hg2); [apply Hg1| |eapply grown_room; [exact Hg1|done]|].
  { rewrite (same_but_deps_end u u1) by apply Hg1. done. }
  exists u2. split; [done|]. apply (grown_trans _ 1 (length ds) u u1 u2).
  - eapply grown_mono; [exact Hg1| |done]. intros ? <-. by left.
  - eapply grown_mono; [exact Hg2| |done]. intros. by right.
Qed.

Lemma remove_all_ok ds : forall u rest,
  wf_deps u -> deps u ≡ₚ ds ++ rest ->
  exists u', remove_all ds u = Ok u' /\ wf_deps u' /\ same_but_deps u u' /\ deps u' ≡ₚ rest.
Proof.
  induction ds as [|d ds IH]; intros u rest Hwf Hp; cbn [remove_all].
  { exists u. split_and!; auto using same_but_deps_refl. }
  destruct (removeDependency_ok u d Hwf) as (u1 & -> & Hwf1 & Hs1 & Hp1); [rewrite Hp; by left|]. cbn [rbind].
  destruct (IH u1 rest Hwf1) as (u2 & -> & Hwf2 & Hs2 & Hp2).
  { rewrite Hp1 in Hp. by apply Permutation_cons_inv in Hp. }
  exists u2. split_and!; [done..|by eapply same_but_deps_trans|done].
Qed.

(** * The producers of a store's address *)
Definition with_address (ps : list Z) (t : Z) e : Entry :=
  mkEntry _ _ (inlineDependants e) (vectorDependants e) ps (uop e) (dispatched e) (ready e) (readyMax e)
    (addressReady e) t (issued e) (done_ e).

(** The producers in [P] that are not done were recorded, those that are done
    raised the time. *)
Definition address_found (b : Z) older (P : Z -> Prop) e e' : Prop :=
  (exists ps t, e' = with_address ps t e) /\
  (forall p, p ∈ addressProducers e' -> p ∈ addressProducers e \/ (P p /\ done_at b older p = false)) /\
  (forall t, addressReadyMax e <= t ->
     (forall i x, P (b + Z.of_nat i) -> older !! i = Some x -> is_done x = true -> done_ x <= t) -> addressReadyMax e' <= t).

Lemma address_found_refl b older P e : address_found b older P e e.
Proof. split_and!; [exists (addressProducers e), (addressReadyMax e); by destruct e|by left|done]. Qed.

Lemma address_found_trans b older (P Q : Z -> Prop) e1 e2 e3 :
  address_found b older P e1 e2 -> address_found b older Q e2 e3 -> (forall d, Q d -> P d) -> address_found b older P e1 e3.
Proof.
  intros ((ps & t & ->) & Hp & Ht) ((ps' & t' & ->) & Hp' & Ht') HQ. split_and!; [by eexists _, _| |].
  - intros p Hpp. destruct (Hp' p Hpp) as [?|[? ?]]; [by apply Hp|right; auto].
  - intros t0 H0 Hall. apply Ht'; [by apply Ht|]. intros i x Hi. apply Hall. auto.
Qed.

Lemma numbered_last b older e e' : numbered b (older ++ [e]) -> seq_of e' = seq_of e -> numbered b (older ++ [e']).
Proof.
  intros Hn He. replace (older ++ [e']) with (<[length older := e']> (older ++ [e])).
  - eapply numbered_insert; [done| |done]. rewrite lookup_app_r by lia. by rewrite Nat.sub_diag.
  - rewrite insert_app_r_alt by lia. by rewrite Nat.sub_diag.
Qed.

Lemma live_producer_valid producers lowest r p : live_producer producers lowest r = Some p -> p <> INVALID_SEQNR.
Proof.
  unfold live_producer. destruct (producers !! Z.to_nat r) as [q|]; [|done].
  destruct ((q =? INVALID_SEQNR) || (q <? lowest)) eqn:Hq; [done|]. intros [= ->]. zbool. done.
Qed.

Lemma find_address_producers_ok b older lowest producers next regs : forall e,
  numbered b (older ++ [e]) -> regs_ok producers next -> Forall (fun r => 0 <= r < last_reg) regs ->
  (forall d, produces producers lowest regs d -> in_range b older d) ->
  exists e', find_address_producers regs lowest producers older e = Ok e' /\
    address_found b older (produces producers lowest regs) e e'.
Proof.
  induction regs as [|r regs IH]; intros e Hnum Hregs Hfr Hrange; cbn [find_address_producers].
  { eauto using address_found_refl. }
  apply Forall_cons in Hfr as [Hr Hfr]. rewrite (peekProducer_ok r lowest producers next Hregs Hr). cbn [rbind].
  assert (Hrec : forall e1, address_found b older (produces producers lowest (r :: regs)) e e1 ->
    exists e', find_address_producers regs lowest producers older e1 = Ok e' /\
      address_found b older (produces producers lowest (r :: regs)) e e').
  { intros e1 Hf1. destruct (IH e1) as (e' & -> & Hf'); [|done|done| |].
    { destruct Hf1 as ((ps & t & ->) & _). by eapply numbered_last. }
    { intros d Hd. apply Hrange, produces_cons. by right. }
    exists e'. split; [done|]. eapply address_found_trans; [done|done|]. intros d Hd. apply produces_cons. by right. }
  destruct (r =? DL_REG_INVALID); [rewrite Z.eqb_refl; apply Hrec, address_found_refl|].
  destruct (live_producer producers lowest r) as [p|] eqn:Hlp; simpl; [|apply Hrec, address_found_refl].
  assert (Hpr : produces producers lowest (r :: regs) p) by (apply produces_cons; by left).
  destruct (in_range_lookup b older p (Hrange p Hpr)) as (i & x & Hx & ->).
  rewrite (proj2 (Z.eqb_neq _ _) (live_producer_valid _ _ _ _ Hlp)).
  rewrite (findEntry_ok b (older ++ [e]) i x) by (done || by apply lookup_app_l_Some). cbn [rbind].
  apply Hrec. destruct (is_done x) eqn:Hdx; split_and!.
  - by eexists (addressProducers e), _.
  - by left.
  - intros t Ht Hall. simpl. specialize (Hall i x Hpr Hx Hdx). lia.
  - by exists (addressProducers e ++ [b + Z.of_nat i]), (addressReadyMax e).
  - simpl. intros q [Hq|Hq]%elem_of_app; [by left|]. apply list_elem_of_singleton in Hq as ->. right. split; [done|].
    by rewrite (done_at_lookup b older i x).
  - done.
Qed.

(** * Store-to-load forwarding *)

(** The dependencies of a load after it has looked through a store: what it
    depended on without the store, and what the store waits for. *)
Definition forwarded (b : Z) older (u u' : Dyn) : Prop :=
  wf_deps u' /\ same_but_deps u u' /\
  (deps u' = deps u \/
   exists i x rest more, older !! i = Some x /\ isStore (mop x) = true /\ deps u ≡ₚ (b + Z.of_nat i) :: rest /\
     deps u' ≡ₚ rest ++ more /\ Forall (fun d => d ∈ deps (uop x)) more).

Lemma forward_store_ok b older e : forall ds,
  links None b older -> numbered b (older ++ [e]) -> wf_deps (uop e) ->
  (forall d, d ∈ ds -> d ∈ deps (uop e) /\ in_range b older d) ->
  intraDependencies (uop e) = 0 -> (length (deps (uop e)) <= 8)%nat ->
  exists u', forward_store ds older e = Ok (with_uop u' e) /\ forwarded b older (uop e) u'.
Proof.
  induction ds as [|d ds IH]; intros Hl Hnum Hwf Hds Hintra Hlen; cbn [forward_store].
  { exists (uop e). split; [by destruct e|]. split_and!; auto using same_but_deps_refl. }
  destruct (Hds d) as [Hd Hr]; [by left|]. destruct (in_range_lookup b older d Hr) as (i & x & Hx & ->).
  rewrite (findEntry_ok b (older ++ [e]) i x) by (done || by apply lookup_app_l_Some). cbn [rbind].
  destruct (isStore (mop x)) eqn:Hst; [|apply IH; [done..| |done|done]; intros d' Hd'; apply Hds; by right].
  destruct (removeDependency_ok (uop e) _ Hwf Hd) as (u1 & Hrem & Hwf1 & Hs1 & Hp1). rewrite Hrem. cbn [rbind].
  rewrite (dep_list_ok (uop x)) by (by eapply lk_deps). cbn [rbind].
  pose proof (lk_small _ _ _ Hl i x Hx Hst) as Hsmall. pose proof (Permutation_length Hp1) as Hpl. simpl in Hpl.
  pose proof (deps_before _ _ Hwf Hd) as Hbefore.
  destruct (add_all_ok (deps (uop x)) u1 Hwf1) as (u2 & -> & Hg2).
  { apply Forall_forall. intros d' Hd'. rewrite (same_but_deps_end (uop e) u1 Hs1).
    destruct (lk_older _ _ _ Hl i x d' Hx Hd') as (k & y & Hy & Hlt & -> & _). destruct Hnum. lia. }
  { right. pose proof (wd_intra u1 Hwf1). apply removeDependency_intra in Hrem. lia. }
  cbn [rbind]. exists u2. split; [done|]. split_and!; [apply Hg2|eapply same_but_deps_trans; [done|apply Hg2]|].
  right. destruct (gr_more _ _ _ _ Hg2) as (more & E & F & _). exists i, x, (deps u1), more.
  split_and!; [done..|by rewrite E|done].
Qed.

(** * Linking the entry to its producers *)
Definition with_dependants (inl : list Z) (vec : option (list Z)) e : Entry :=
  mkEntry _ _ inl vec (addressProducers e) (uop e) (dispatched e) (ready e) (readyMax e)
    (addressReady e) (addressReadyMax e) (issued e) (done_ e).

(** The dependant [n] was added [k] times. *)
Definition linked (n : Z) (k : nat) x x' : Prop :=
  (exists inl vec, x' = with_dependants inl vec x) /\
  (wf_dependants x -> wf_dependants x' /\ dependants x' = dependants x ++ replicate k n).

Lemma linked_refl n x : linked n 0 x x.
Proof.
  split; [exists (inlineDependants x), (vectorDependants x); by destruct x|]. intros. simpl. by rewrite app_nil_r.
Qed.

Lemma linked_add n k x x' : linked n k (addDependant n x) x' -> linked n (S k) x x'.
Proof.
  intros [(inl & vec & ->) Hd]. split.
  - exists inl, vec. unfold addDependant. by case_bool_decide.
  - intros Hwf. destruct (addDependant_ok n x Hwf) as [Hwf1 Hd1]. destruct (Hd Hwf1) as [? Hd2]. split; [done|].
    rewrite Hd2, Hd1, <- app_assoc. done.
Qed.

Lemma linked_done n k x x' : linked n k x x' -> is_done x' = is_done x.
Proof. by intros [(? & ? & ->) _]. Qed.

Lemma done_at_insert b l i e e' d :
  l !! i = Some e -> is_done e' = is_done e -> done_at b (<[i := e']> l) d = done_at b l d.
Proof.
  intros Hi He. unfold done_at. destruct (<[i := e']> l !! Z.to_nat (d - b)) as [y|] eqn:Hy.
  - apply insert_cases in Hy as [[-> ->]|[_ ->]]; [by rewrite Hi|done].
  - apply lookup_ge_None in Hy. rewrite length_insert in Hy. by rewrite (proj2 (lookup_ge_None l _)).
Qed.

Definition dones (b : Z) l (ds : list Z) : list Z := base.filter (fun d => done_at b l d = true) ds.

Lemma dones_insert b l i e e' ds :
  l !! i = Some e -> is_done e' = is_done e -> dones b (<[i := e']> l) ds = dones b l ds.
Proof.
  intros Hi He. unfold dones. apply list_filter_iff. intros d. by rewrite (done_at_insert b l i e e').
Qed.

Lemma link_producers_ok b : forall ds older e (dist : option Z) (rm : list Z),
  numbered b (older ++ [e]) -> (forall d, d ∈ ds -> in_range b older d) ->
  (length rm + length (dones b older ds) <= 8)%nat -> (forall z, dist = Some z -> 0 <= z) ->
  exists older' t dist',
    link_producers ds older e dist rm = Ok (older', with_ready (ready e) t e, dist', rm ++ dones b older ds) /\
    length older' = length older /\
    (forall i x, older !! i = Some x ->
       exists x', older' !! i = Some x' /\ linked (seq_of e) (if is_done x then 0 else cnt ds (b + Z.of_nat i)) x x') /\
    readyMax e <= t /\
    (forall i x, (b + Z.of_nat i) ∈ ds -> older !! i = Some x -> is_done x = true -> done_ x <= t) /\
    (forall m, readyMax e <= m -> (forall i x, older !! i = Some x -> is_done x = true -> done_ x <= m) -> t <= m) /\
    (forall z, dist' = Some z -> 0 <= z).
Proof.
  induction ds as [|d ds IH]; intros older e dist rm Hnum Hr H8 Hdist; cbn [link_producers].
  { exists older, (readyMax e), dist. rewrite app_nil_r. split_and!; [by destruct e|done| |lia| |by intros|done].
    - intros i x Hx. exists x. split; [done|]. destruct (is_done x); apply linked_refl.
    - intros i x Hin. by apply not_elem_of_nil in Hin. }
  destruct (in_range_lookup b older d) as (i & x & Hx & ->); [apply Hr; by left|].
  rewrite (findEntry_ok b (older ++ [e]) i x) by (done || by apply lookup_app_l_Some). cbn [rbind].
  set (dist1 := Some _). assert (Hdist1 : forall y, dist1 = Some y -> 0 <= y).
  { subst dist1. intros y [= <-]. pose proof (u64_range (seq_of e - seq_of x)).
    destruct dist as [z|]; [specialize (Hdist z eq_refl); lia|lia]. }
  assert (Hr' : forall d, d ∈ ds -> in_range b older d) by (intros d' ?; apply Hr; by right).
  destruct (is_done x) eqn:Hdx.
  - assert (Hd1 : dones b older ((b + Z.of_nat i) :: ds) = (b + Z.of_nat i) :: dones b older ds).
    { unfold dones. rewrite filter_cons, (done_at_lookup b older i x Hx), Hdx. by rewrite decide_True. }
    rewrite Hd1 in *. cbn [length] in H8. unfold rguard. rewrite bool_decide_true by lia. cbn [rbind].
    destruct (IH older (with_ready (ready e) (Z.max (readyMax e) (done_ x)) e) dist1 (rm ++ [b + Z.of_nat i]))
      as (older' & t & dist' & -> & Hlen & Hlink & Hle & Hmax & Hmin & Hdist'); [by eapply numbered_last|done|rewrite length_app; simpl; lia|done|].
    exists older', t, dist'. simpl in *. split_and!; [by rewrite <- app_assoc|done| |lia| | |done].
    + intros k y Hy. destruct (Hlink k y Hy) as (y' & Hy' & Hl). exists y'. split; [done|].
      destruct (is_done y) eqn:Hdy; [done|]. destruct (Z.eq_dec _ _) as [E|]; [|done].
      assert (k = i) as -> by lia. congruence.
    + intros k y [E|Hk]%elem_of_cons Hy Hdy; [|by eapply Hmax].
      assert (k = i) as -> by lia. rewrite Hx in Hy. injection Hy as <-. lia.
    + intros m Hm Hall. apply Hmin; [|done]. specialize (Hall i x Hx Hdx). lia.
  - assert (Hd1 : dones b older ((b + Z.of_nat i) :: ds) = dones b older ds).
    { unfold dones. rewrite filter_cons, (done_at_lookup b older i x Hx), Hdx. by rewrite decide_False. }
    rewrite Hd1 in *. set (x1 := addDependant (seq_of e) x).
    assert (Hdx1 : is_done x1 = is_done x) by (subst x1; unfold addDependant; by case_bool_decide).
    assert (Hsx1 : seq_of x1 = seq_of x) by (subst x1; unfold addDependant; by case_bool_decide).
    destruct (IH (<[i := x1]> older) e dist1 rm)
      as (older' & t & dist' & -> & Hlen & Hlink & Hle & Hmax & Hmin & Hdist').
    { rewrite <- insert_app_l by (by eapply lookup_lt_Some). eapply numbered_insert; [done|by apply lookup_app_l_Some|done]. }
    { intros d' Hd'. unfold in_range. rewrite length_insert. by apply Hr'. }
    { by rewrite (dones_insert b older i x x1). } { done. }
    exists older', t, dist'. rewrite (dones_insert b older i x x1) by done. rewrite length_insert in Hlen.
    split_and!; [done|done| |done| | |done].
    + intros k y Hy. destruct (decide (k = i)) as [->|Hki].
      * rewrite Hx in Hy. injection Hy as <-.
        destruct (Hlink i x1) as (y' & Hy' & Hl); [apply list_lookup_insert_eq; by eapply lookup_lt_Some|].
        exists y'. split; [done|]. rewrite Hdx1, Hdx in Hl. rewrite Hdx. cbn [count_occ].
        destruct (Z.eq_dec _ _); [|done]. by apply linked_add.
      * destruct (Hlink k y) as (y' & Hy' & Hl); [by rewrite list_lookup_insert_ne|]. exists y'. split; [done|].
        destruct (is_done y); [done|]. cbn [count_occ]. destruct (Z.eq_dec _ _); [lia|done].
    + intros k y Hk Hy Hdy. assert (k <> i) by (intros ->; congruence).
      apply elem_of_cons in Hk as [?|Hk]; [lia|]. eapply Hmax; [done| |done]. by rewrite list_lookup_insert_ne.
    + intros m Hm Hall. apply Hmin; [done|]. intros k y [[-> ->]|[_ Hy]]%insert_cases Hdy; [congruence|by eapply Hall].
Qed.

(** * The links after an entry has been added *)
Lemma cnt_replicate (k : nat) (x y : Z) : cnt (replicate k x) y = if Z.eq_dec x y then k else 0%nat.
Proof. induction k as [|k IH]; simpl; destruct (Z.eq_dec x y); congruence. Qed.

Lemma cnt_zero (l : list Z) (x : Z) : ~ x ∈ l -> cnt l x = 0%nat.
Proof. intros Hx. apply count_occ_not_In. by rewrite <- list_elem_of_In. Qed.

Lemma cnt_filter (P : Z -> Prop) `{!forall z, Decision (P z)} (l : list Z) (x : Z) :
  cnt (base.filter P l) x = if decide (P x) then cnt l x else 0%nat.
Proof.
  induction l as [|y l IH]; [by case_decide|]. rewrite filter_cons. cbn [count_occ].
  destruct (Z.eq_dec y x) as [->|Hne].
  - destruct (decide (P x)); [|done]. cbn [count_occ]. destruct (Z.eq_dec x x); [by rewrite IH|done].
  - destruct (decide (P y)); [|done]. cbn [count_occ]. by destruct (Z.eq_dec y x).
Qed.

Lemma filter_split (P : Z -> Prop) `{!forall z, Decision (P z)} (l : list Z) :
  l ≡ₚ base.filter P l ++ base.filter (fun z => ~ P z) l.
Proof.
  induction l as [|x l IH]; [done|]. rewrite !filter_cons.
  destruct (decide (P x)); destruct (decide (~ P x)); try done.
  - by rewrite IH at 1.
  - rewrite <- Permutation_middle. by rewrite IH at 1.
Qed.

(** The dependencies that are not done yet. *)
Definition undone (b : Z) l (ds : list Z) : list Z := base.filter (fun d => ~ done_at b l d = true) ds.

Lemma lookup_snoc {A} (l : list A) (x : A) i y :
  (l ++ [x]) !! i = Some y -> (l !! i = Some y /\ (i < length l)%nat) \/ (i = length l /\ y = x).
Proof.
  intros [Hy|[Hge Hy]]%lookup_app_Some; [left; eauto using lookup_lt_Some|right].
  apply list_lookup_singleton_Some in Hy as [Hi <-]. split; [lia|done].
Qed.

Section add.
Variables (b : Z) (older older' : list Entry) (e' : Entry) (ds : list Z).
Hypothesis Hlinks : links None b older.
Hypothesis Hentries : entries_ok b older.
Hypothesis Hlen : length older' = length older.
Hypothesis Hlinked : forall i x, older !! i = Some x ->
  exists x', older' !! i = Some x' /\
    linked (b + Z.of_nat (length older)) (if is_done x then 0 else cnt ds (b + Z.of_nat i)) x x'.
Hypothesis Hseq : seq_of e' = b + Z.of_nat (length older).
Hypothesis Hroom : b + Z.of_nat (S (length older)) < 2 ^ 64.
Hypothesis Hwf : wf_deps (uop e').
Hypothesis Hnodeps : dependants e' = [] /\ wf_dependants e'.
Hypothesis Hnew : is_done e' = false.
Hypothesis Hsmall : isStore (mop e') = true -> (length (deps (uop e')) <= 7)%nat.
Hypothesis Hrange : forall d, d ∈ ds -> in_range b older d.
Hypothesis Hdeps : deps (uop e') ≡ₚ undone b older ds.

Lemma added_old i x' : older' !! i = Some x' -> exists x, older !! i = Some x /\
  linked (b + Z.of_nat (length older)) (if is_done x then 0 else cnt ds (b + Z.of_nat i)) x x'.
Proof.
  intros Hx'. destruct (lookup_lt_is_Some_2 older i) as [x Hx]; [rewrite <- Hlen; by eapply lookup_lt_Some|].
  exists x. split; [done|]. destruct (Hlinked i x Hx) as (y & Hy & Hl). congruence.
Qed.

Lemma added_lookup i x : (older' ++ [e']) !! i = Some x ->
  (exists x0, older !! i = Some x0 /\ (i < length older)%nat /\
     linked (b + Z.of_nat (length older)) (if is_done x0 then 0 else cnt ds (b + Z.of_nat i)) x0 x) \/
  (i = length older /\ x = e').
Proof.
  intros [[Hx Hlt]|[-> ->]]%lookup_snoc; [left|right; by rewrite Hlen].
  destruct (added_old i x Hx) as (x0 & Hx0 & Hl). exists x0. split_and!; [done|by eapply lookup_lt_Some|done].
Qed.

Lemma added_dep d : d ∈ deps (uop e') -> exists i x, older !! i = Some x /\ d = b + Z.of_nat i /\ is_done x = false.
Proof.
  rewrite Hdeps. intros [Hnd Hd]%list_elem_of_filter. destruct (in_range_lookup b older d (Hrange d Hd)) as (i & x & Hx & ->).
  exists i, x. split_and!; [done|done|]. rewrite (done_at_lookup b older i x Hx) in Hnd. by destruct (is_done x).
Qed.

Lemma added_count i x : older !! i = Some x -> is_done x = false ->
  cnt (deps (uop e')) (b + Z.of_nat i) = cnt ds (b + Z.of_nat i).
Proof.
  intros Hx Hd. rewrite (Permutation_count_occ Z.eq_dec _ _) in Hdeps. rewrite Hdeps. unfold undone.
  rewrite cnt_filter, (done_at_lookup b older i x Hx), Hd. by rewrite decide_True.
Qed.

Lemma links_added : links None b (older' ++ [e']).
Proof.
  destruct Hlinks as [Hnum Hwd Hwp Hsm Holder Hiss Hcount Hrng].
  assert (Hold : forall i x w, older !! i = Some x -> is_done x = false -> w = dependants x -> waiting None i x = Some w)
    by (intros i x w _ Hd ->; unfold waiting; by rewrite Hd).
  split.
  - destruct Hnum as (Hb & _ & Hn). split_and!; [done|rewrite length_app; simpl; lia|].
    intros i x [(x0 & Hx0 & _ & (inl & vec & ->) & _)|[-> ->]]%added_lookup; [exact (Hn i x0 Hx0)|done].
  - intros i x [(x0 & Hx0 & _ & (inl & vec & ->) & _)|[-> ->]]%added_lookup; [exact (Hwd i x0 Hx0)|done].
  - intros i x [(x0 & Hx0 & _ & Hl)|[-> ->]]%added_lookup; [by apply Hl, (Hwp i)|by apply Hnodeps].
  - intros i x [(x0 & Hx0 & _ & (inl & vec & ->) & _)|[-> ->]]%added_lookup; [exact (Hsm i x0 Hx0)|done].
  - intros j x d Hx Hd. assert (Hd' : exists i y, older !! i = Some y /\ (i < j)%nat /\ d = b + Z.of_nat i /\ is_done y = false).
    { apply added_lookup in Hx as [(x0 & Hx0 & _ & (inl & vec & ->) & _)|[-> ->]].
      - destruct (Holder j x0 d Hx0 Hd) as (i & y & Hy & Hlt & -> & Hw). exists i, y. split_and!; [done..|].
        unfold waiting in Hw. by destruct (is_done y).
      - destruct (added_dep d Hd) as (i & y & Hy & -> & Hdy). exists i, y. split_and!; [done|by eapply lookup_lt_Some|done..]. }
    destruct Hd' as (i & y & Hy & Hlt & -> & Hdy). destruct (Hlinked i y Hy) as (y' & Hy' & Hl). exists i, y'.
    split_and!; [by apply lookup_app_l_Some|done|done|]. unfold waiting. by rewrite (linked_done _ _ _ _ Hl), Hdy.
  - intros j x [(x0 & Hx0 & _ & (inl & vec & ->) & _)|[-> ->]]%added_lookup Hd; [exact (Hiss j x0 Hx0 Hd)|congruence].
  - intros i x j y w Hx Hy Hw.
    apply added_lookup in Hx as [(x0 & Hx0 & Hi & Hl)|[-> ->]].
    + unfold waiting in Hw. rewrite (linked_done _ _ _ _ Hl) in Hw. destruct (is_done x0) eqn:Hdx; [done|]. injection Hw as <-.
      rewrite (proj2 (proj2 Hl (Hwp i x0 Hx0))), count_occ_app, cnt_replicate.
      apply added_lookup in Hy as [(y0 & Hy0 & Hj & (inl & vec & ->) & _)|[-> ->]].
      * destruct (Z.eq_dec _ _); [lia|]. rewrite (Hcount i x0 j y0 (dependants x0) Hx0 Hy0) by eauto. simpl. lia.
      * destruct (Z.eq_dec _ _) as [_|]; [|done]. rewrite (added_count i x0) by done. rewrite cnt_zero; [done|].
        intros Hin. destruct (Hrng i x0 (dependants x0) _ Hx0 (Hold _ _ _ Hx0 Hdx eq_refl) Hin) as (k & z & Hz & Hk).
        apply lookup_lt_Some in Hz. lia.
    + unfold waiting in Hw. rewrite Hnew in Hw. injection Hw as <-. rewrite (proj1 Hnodeps). simpl. symmetry. apply cnt_zero.
      intros Hin. apply added_lookup in Hy as [(y0 & Hy0 & Hj & (inl & vec & ->) & _)|[-> ->]].
      * destruct (Holder j y0 _ Hy0 Hin) as (k & z & Hz & Hlt & Hk & _). lia.
      * destruct (added_dep _ Hin) as (k & z & Hz & Hk & _). apply lookup_lt_Some in Hz. lia.
  - intros i x w d Hx Hw Hd. unfold waiting in Hw.
    apply added_lookup in Hx as [(x0 & Hx0 & Hi & Hl)|[-> ->]].
    + rewrite (linked_done _ _ _ _ Hl) in Hw. destruct (is_done x0) eqn:Hdx; [done|]. injection Hw as <-.
      rewrite (proj2 (proj2 Hl (Hwp i x0 Hx0))) in Hd. apply elem_of_app in Hd as [Hd|Hd].
      * destruct (Hrng i x0 _ d Hx0 (Hold _ _ _ Hx0 Hdx eq_refl) Hd) as (k & z & Hz & ->).
        destruct (Hlinked k z Hz) as (z' & Hz' & _). exists k, z'. split; [by apply lookup_app_l_Some|done].
      * apply elem_of_replicate in Hd as [-> _]. exists (length older'), e'. rewrite lookup_app_r, Nat.sub_diag by done.
        by rewrite Hlen.
    + rewrite Hnew in Hw. injection Hw as <-. rewrite (proj1 Hnodeps) in Hd. by apply not_elem_of_nil in Hd.
Qed.

Lemma produced_added p : produced b older p -> produced b (older' ++ [e']) p.
Proof.
  intros [?|(i & x & Hx & -> & Hd)]; [by left|]. right. destruct (Hlinked i x Hx) as (x' & Hx' & Hl).
  exists i, x'. split_and!; [by apply lookup_app_l_Some|done|]. by rewrite (linked_done _ _ _ _ Hl).
Qed.

Lemma entries_added : ready_ok e' -> addr_ok b (older' ++ [e']) e' -> entries_ok b (older' ++ [e']).
Proof.
  intros Hr Ha i x [(x0 & Hx0 & Hi & Hl)|[-> ->]]%added_lookup; [|done].
  destruct (Hentries i x0 Hx0) as [Hr0 Ha0]. pose proof (linked_done _ _ _ _ Hl) as Hd. destruct Hl as [(inl & vec & ->) _].
  split; [exact Hr0|]. intros Hst Hnd. destruct (Ha0 Hst Hnd) as (H1 & H2 & H3). split_and!; [done| |done].
  intros p Hp. destruct (H2 p Hp) as [Hpr Hpc]. split; [rewrite length_app, Hlen; simpl; lia|].
  destruct Hpc; [by left|right; by apply produced_added].
Qed.
End add.
End enter.
