(* ===== verification/RobInv.v ===== *)
(** The invariant of the out-of-order core model, what it asks of its
    configuration, of the data cache and of the core model, and the proof that a
    micro-operation that enters keeps it. *)
From stdpp Require Import base numbers list sets.
From Stdlib Require Import ZArith Lia Bool.
From S2P Require Import Prelude Timing Queues QueueLemmas MicroOp Dependencies RobDeps RobContention RobTimer RobEntries RobWake RobEnter.
Open Scope Z_scope.

(** * What the core model relies on *)

(** The data cache answers, within a bounded time. *)
Class DataMemoryLaws (M : Type) `{DataMemory M} := {
  mem_inv : M -> Prop;
  max_latency : Z;
  access_data_ok : forall store a size eip t m, mem_inv m ->
    exists latency where_ m', access_data store a size eip t m = Ok (latency, where_, m') /\
      0 <= latency <= max_latency /\ HitWhereIsValid where_ = true /\ mem_inv m'
}.

(** Ports are free at the start of a cycle, and units that are not pipelined are
    free from some time on. *)
Class RobContentionLaws (C Inst Info : Type) `{RobContention C (DynamicMicroOp Inst Info)} := {
  issuable : MicroOp Inst -> Info -> Prop;
  clock : C -> Z;
  busy : C -> Z;
  c_period : C -> Z;
  max_alu_latency : Z;
  init_cycle_ok : forall t (c : C), clock (initCycle t c) = t /\ busy (initCycle t c) = busy c /\ c_period (initCycle t c) = c_period c;
  try_first : forall u t (c : C), busy c <= t -> (tryIssue u (initCycle t c)).1 = true;
  try_keeps : forall u (c : C), clock (tryIssue u c).2 = clock c /\ busy (tryIssue u c).2 = busy c /\ c_period (tryIssue u c).2 = c_period c;
  do_issue_ok : forall u (c : C), issuable (m_uop u) (core_info u) -> 0 <= clock c -> 0 <= c_period c ->
    clock c + max_alu_latency * c_period c < 2 ^ 64 ->
    exists c', doIssue u c = Ok c' /\ clock c' = clock c /\ c_period c' = c_period c /\
      busy c' <= Z.max (busy c) (clock c + max_alu_latency * c_period c)
}.

(** * The queues of outstanding accesses *)
Definition default_tag : Z := u64 (-1).
Definition queue_ok (n : Z) (q : ContentionModel.t) : Prop :=
  ContentionModel.m_num_outstanding q = n /\ length (ContentionModel.m_time q) = Z.to_nat n /\
  Forall (fun e => e.2 <> default_tag) (ContentionModel.m_time q).

(** All slots are free at [t]. *)
Definition slots_by (t : Z) (q : ContentionModel.t) : Prop := Forall (fun e => e.1 <= t) (ContentionModel.m_time q).

Lemma slots_by_mono t t' q : slots_by t q -> t <= t' -> slots_by t' q.
Proof. intros Hs Ht. eapply Forall_impl; [exact Hs|]. simpl. lia. Qed.

Lemma has_free_slot n t q :
  queue_ok n q -> 1 <= n -> slots_by t q -> ContentionModel.hasFreeSlot t default_tag q = (true, q).
Proof.
  intros (Hn & Hlen & _) Hpos Hs. unfold slots_by in Hs. unfold ContentionModel.hasFreeSlot.
  destruct (ContentionModel.m_time q) as [|x l] eqn:Hq; [simpl in Hlen; lia|].
  apply Forall_cons in Hs as [Hx _]. cbn [existsb]. by rewrite (proj2 (Z.leb_le _ _) Hx).
Qed.

(** Asking for a free slot changes a counter only, and a slot that is reported is free. *)
Lemma hasFreeSlot_ok n t q b q' :
  queue_ok n q -> ContentionModel.hasFreeSlot t default_tag q = (b, q') ->
  queue_ok n q' /\ ContentionModel.m_time q' = ContentionModel.m_time q /\
  (b = true -> exists e, e ∈ ContentionModel.m_time q /\ e.1 <= t).
Proof.
  intros Hq. unfold ContentionModel.hasFreeSlot. destruct (existsb _ _) eqn:Hex; intros [= <- <-]; [|done].
  split_and!; [done|done|]. intros _. apply existsb_exists in Hex as (x & Hx & Hc). exists x.
  apply list_elem_of_In in Hx. split; [done|]. zbool. destruct Hc as [Hc|Hc]; zbool; [done|].
  destruct Hq as (_ & _ & Hf). by destruct (proj1 (Forall_forall _ _) Hf x Hx).
Qed.

(** A request that finds a free slot keeps it for its latency. *)
Lemma getCompletionTime_ok n t delay tag q :
  queue_ok n q -> 1 <= n -> 0 <= t -> 0 <= delay -> t + delay < 2 ^ 64 -> tag <> default_tag ->
  (exists e, e ∈ ContentionModel.m_time q /\ e.1 <= t) ->
  exists r q', ContentionModel.getCompletionTime t delay tag q = Ok (r, q') /\ queue_ok n q' /\
    forall e, e ∈ ContentionModel.m_time q' -> e ∈ ContentionModel.m_time q \/ e.1 <= t + delay.
Proof.
  intros (Hn & Hlen & Hf) Hpos Ht Hd Hsum Htag (e & He & Hfree).
  destruct (decide (t = 0)) as [->|Hne]; [|destruct (decide (t < ContentionModel.m_t_last q)) as [Hlt|Hge]].
  - unfold ContentionModel.getCompletionTime. rewrite (proj2 (Z.eqb_neq _ 0)) by lia. cbn [Z.eqb].
    eexists _, _. split_and!; [done|done..|]. by left.
  - unfold ContentionModel.getCompletionTime. rewrite !(proj2 (Z.eqb_neq _ 0)) by lia. rewrite (proj2 (Z.ltb_lt _ _) Hlt).
    eexists _, _. split_and!; [done|done..|]. by left.
  - destruct (Units.completion_spec t delay tag q) as (i & x & q' & begin & Heq & _ & Hx & -> & Hmin & Htm & _ & Hn');
      [lia|by intros E; rewrite E in He; apply not_elem_of_nil in He|lia|lia|].
    assert (Hb : Z.max t x.1 = t).
    { destruct (decide (t < Z.max t x.1)) as [Hlt|]; [|lia]. specialize (Hmin Hlt e He). lia. }
    rewrite Hb in *. rewrite tadd_small in * by lia. eexists _, q'. split; [done|].
    unfold queue_ok. rewrite Hn', Htm, length_insert. split_and!; [done|done|by apply Forall_insert|].
    intros y Hy. apply list_elem_of_lookup in Hy as (k & [[-> ->]|[_ Hk]]%insert_cases); [right; simpl; lia|left].
    by eapply list_elem_of_lookup_2.
Qed.

Section inv.
Context {Inst Info C M : Type} `{Decoder Inst} `{!DataMemory M} `{!DataMemoryLaws M}
  `{!RobContention C (DynamicMicroOp Inst Info)} `{!RobContentionLaws C Inst Info}.
Abbreviation Dyn := (DynamicMicroOp Inst Info).
Abbreviation Entry := (RobEntry Inst Info).
Abbreviation Timer := (RobTimer Inst Info C M).
Implicit Types s : Timer.
Implicit Types e : Entry.
Implicit Types u : Dyn.

(** The configuration, the length of a cycle and a bound on latencies in cycles. *)
Variable cfg : RobConfig.
Variables (P L : Z).

(** Cycles an access of the data cache takes at most. *)
Definition memory_cycles : Z := max_latency / P + 1.

Record config_ok : Prop := mkConfigOk {
  co_dispatch : 1 <= dispatchWidth cfg < 2 ^ 31;
  co_window : 1 <= windowSize cfg <= 769;
  co_rs : 1 <= rsEntries cfg;
  co_penalty : 2 <= misprediction_penalty cfg <= L + 2;
  co_loads : 1 <= outstanding_loads cfg;
  co_stores : 1 <= outstanding_stores cfg;
  co_period : 1 <= P;
  co_latency : memory_cycles <= L;
  co_alu : max_alu_latency <= L;
  co_max : 0 <= max_latency;
  co_small : 0 <= L < 2 ^ 31 /\ max_latency < 2 ^ 62 /\ P < 2 ^ 32
}.

(** The longest time anything takes. *)
Definition D : Z := (L + 2) * P.

(** * Micro-operations *)
Record uop_static u : Prop := mkStatic {
  us_exec : 0 <= execLatency u <= L;
  us_icache : 0 <= iCacheLatency u <= L /\ 0 <= iCacheHitWhere u < NUM_WHERES;
  us_hit : HitWhereIsValid (dCacheHitWhere u) = true;
  us_address : 0 <= address u < 2 ^ 64 - 1;
  us_load : isLoad (m_uop u) = true -> isSerializing (m_uop u) = false /\ isMemBarrier (m_uop u) = false;
  us_issuable : issuable (m_uop u) (core_info u);
  us_src : Forall (fun r => 0 <= r < last_reg) (sourceRegisters (m_uop u));
  us_dst : Forall (fun r => 0 <= r < last_reg) (destinationRegisters (m_uop u));
  us_addr : isStore (m_uop u) = true -> forall r, r ∈ addressRegisters (m_uop u) -> r ∈ sourceRegisters (m_uop u)
}.

(** The latency of an access still to be made is added to that of the operation. *)
Definition access_fits u : Prop :=
  isLoad (m_uop u) || isStore (m_uop u) = true -> dCacheHitWhere u = HIT_UNKNOWN -> execLatency u + memory_cycles <= L.

(** A barrier as MemoryDependencies sees it. *)
Definition is_bar (v : MicroOp Inst) : bool := negb (isLoad v) && negb (isStore v) && isMemBarrier v.

(** A micro-operation [v] of the same instruction and type before [u] produces
    nothing [u] depends on. *)
Definition no_hazard (v : MicroOp Inst) u : Prop :=
  (forall r, r ∈ sourceRegisters (m_uop u) -> ~ r ∈ destinationRegisters v) /\
  (isLoad (m_uop u) = true -> isStore v = false) /\
  (isLoad (m_uop u) || isStore (m_uop u) || isMemBarrier (m_uop u) = true -> is_bar v = false).

(** [u] can follow the micro-operations [pre] of its instruction. *)
Record follows (pre : list (MicroOp Inst)) u : Prop := mkFollows {
  fo_static : uop_static u;
  fo_access : access_fits u;
  fo_empty : dependencies u = [];
  fo_offset : 0 <= typeOffset u;
  fo_intra : 0 <= intraDependencies u;
  fo_before : typeOffset u + intraDependencies u <= Z.of_nat (length pre);
  fo_few : intraDependencies u + Z.of_nat (length (sourceRegisters (m_uop u))) <= 6;
  fo_load : isLoad (m_uop u) = true -> intraDependencies u = 0;
  fo_run : forall k v, pre !! k = Some v -> Z.of_nat (length pre) - typeOffset u <= Z.of_nat k -> no_hazard v u
}.

(** The micro-operations of a call of [simulate]. *)
Fixpoint batch_from (pre : list (MicroOp Inst)) (us : list Dyn) : Prop :=
  match us with
  | [] => True
  | u :: us' => if squashed u then batch_from pre us' else follows pre u /\ batch_from (pre ++ [m_uop u]) us'
  end.
Definition batch_ok (us : list Dyn) : Prop := batch_from [] us.

(** * The state *)

(** All micro-operations that have entered, in order; the number of one is its position. *)
Definition program s : list (MicroOp Inst) := map (fun t => m_uop (t_uop t)) (traced s) ++ map mop (rob s).
Definition base s : Z := Z.of_nat (length (traced s)).

Definition store_in (prog : list (MicroOp Inst)) (q : Z) : Prop :=
  exists v, prog !! Z.to_nat q = Some v /\ isStore v = true.
Definition bar_in (prog : list (MicroOp Inst)) (q : Z) : Prop :=
  exists v, prog !! Z.to_nat q = Some v /\ is_bar v = true.

(** The table of producers has the last writer of every register, unless that one
    has left the buffer. *)
Definition writers_ok (prog : list (MicroOp Inst)) (b : Z) (producers : list Z) : Prop :=
  forall r p, 0 <= r -> producers !! Z.to_nat r = Some p ->
    if p =? INVALID_SEQNR then forall k v, prog !! k = Some v -> r ∈ destinationRegisters v -> Z.of_nat k < b
    else exists v, prog !! Z.to_nat p = Some v /\ r ∈ destinationRegisters v /\
      forall k v, prog !! k = Some v -> r ∈ destinationRegisters v -> Z.of_nat k <= p.

Definition in_window s (i : nat) : Prop := Z.of_nat i < m_num_in_rob s.

(** The window and the entries of it that wait for a reservation station to be freed. *)
Definition window s : list Entry := take (Z.to_nat (m_num_in_rob s)) (rob s).
Definition unissued (l : list Entry) : nat := length (base.filter (fun e => is_done e = false) l).

Definition stats_ok (st : RobStats) : Prop :=
  length (m_producerInsDistance st) = Z.to_nat (windowSize cfg) /\
  (m_mlp_histogram cfg = true ->
    length (m_outstandingLoadsAll st) = MAX_OUTSTANDING /\ length (m_outstandingLoads st) = Z.to_nat NUM_WHERES /\
    forall h row, HitWhereIsValid h = true -> m_outstandingLoads st !! Z.to_nat h = Some row -> length row = MAX_OUTSTANDING).

Record inv s : Prop := mkInv {
  i_links : links None (base s) (rob s);
  i_entries : entries_ok (base s) (rob s);
  i_next : nextSequenceNumber s = base s + Z.of_nat (length (rob s));
  i_bound : nextSequenceNumber s < INVALID_SEQNR;
  i_num : 0 <= m_num_in_rob s <= Z.of_nat (length (rob s)) /\ m_num_in_rob s <= windowSize cfg;
  i_room : Z.of_nat (length (rob s)) <= windowSize cfg + 255;
  i_prerob : forall i e, rob s !! i = Some e -> m_num_in_rob s <= Z.of_nat i -> is_done e = false;
  i_rs : m_rs_entries_used s = Z.of_nat (unissued (window s)) /\ m_rs_entries_used s <= rsEntries cfg;
  i_static : forall i e, rob s !! i = Some e -> uop_static (uop e);
  i_access : forall i e, rob s !! i = Some e -> is_done e = false -> access_fits (uop e);
  i_period : period s = P;
  i_regs : regs_ok (registerDependencies s) (nextSequenceNumber s);
  i_writers : writers_ok (program s) (base s) (registerDependencies s);
  i_mem : mem_ok (store_in (program s)) (bar_in (program s)) (nextSequenceNumber s) (memoryDependencies s);
  i_front : frontend_stalled_until s = MaxTime ->
    exists i e, rob s !! i = Some e /\ in_window s i /\ is_done e = false /\ isBranch (mop e) && branchMispredicted (uop e) = true;
  i_loads : queue_ok (outstanding_loads cfg) (load_queue s);
  i_stores : queue_ok (outstanding_stores cfg) (store_queue s) /\ slots_by (last_store_done s) (store_queue s);
  i_contention : match m_rob_contention s with Some c => c_period c = P | None => True end;
  i_memory : mem_inv (memory s);
  i_stats : stats_ok (stats s)
}.

(** All times known so far are at most [t], that of the front end apart. *)
Record times_ok (t : Z) e : Prop := mkTimesOk {
  to_readyMax : readyMax e <= t;
  to_ready : ready e = MaxTime \/ ready e <= t;
  to_done : is_done e = true -> done_ e <= t
}.

Record bounded (t : Z) s : Prop := mkBounded {
  bd_entries : forall i e, rob s !! i = Some e -> times_ok t e;
  bd_store : last_store_done s <= t;
  bd_loads : slots_by t (load_queue s);
  bd_contention : match m_rob_contention s with Some c => busy c <= t | None => True end
}.

Definition front_by (t : Z) s : Prop := frontend_stalled_until s = MaxTime \/ frontend_stalled_until s <= t.
End inv.
