(* ===== verification/RobArrive.v ===== *)
(** A micro-operation that may follow the others of its instruction enters the
    buffer without an error and keeps the invariant; what it reads is either
    awaited or known to be there. *)
From stdpp Require Import base numbers list sets.
From Stdlib Require Import ZArith Lia Bool.
From S2P Require Import Prelude Timing Queues QueueLemmas MicroOp Dependencies RobDeps RobContention RobTimer RobEntries RobWake RobEnter RobInv.
Open Scope Z_scope.

Lemma filter_none {A} (P : A -> Prop) `{!forall x, Decision (P x)} (l : list A) :
  (forall x, x ∈ l -> ~ P x) -> base.filter P l = [].
Proof.
  induction l as [|x l IH]; intros Hl; [done|]. rewrite filter_cons, decide_False by (apply Hl; by left).
  apply IH. intros y Hy. apply Hl. by right.
Qed.

Section arrive.
Context {Inst Info C M : Type} `{Decoder Inst} `{!DataMemory M} `{!DataMemoryLaws M}
  `{!RobContention C (DynamicMicroOp Inst Info)} `{!RobContentionLaws C Inst Info}.
Abbreviation Dyn := (DynamicMicroOp Inst Info).
Abbreviation Entry := (RobEntry Inst Info).
Abbreviation Timer := (RobTimer Inst Info C M).
Implicit Types s : Timer.
Implicit Types e x : Entry.
Implicit Types u : Dyn.
Variable cfg : RobConfig.
Variables (P L : Z).
Abbreviation inv := (inv cfg P L).

Lemma store_not_load (v : MicroOp Inst) : isStore v = true -> isLoad v = false.
Proof. unfold isStore, isLoad. by destruct (uop_type v). Qed.

(** * The program so far *)
Lemma length_program s : inv s -> Z.of_nat (length (program s)) = nextSequenceNumber s.
Proof.
  intros Hi. rewrite (i_next _ _ _ _ Hi). unfold program, base. rewrite length_app, !length_map. lia.
Qed.

Lemma program_rob s i e : rob s !! i = Some e -> program s !! Z.to_nat (base s + Z.of_nat i) = Some (mop e).
Proof.
  intros Hi. unfold program, base. rewrite lookup_app_r by (rewrite length_map; lia). rewrite length_map.
  replace (Z.to_nat (Z.of_nat (length (traced s)) + Z.of_nat i) - length (traced s))%nat with i by lia.
  by rewrite list_lookup_fmap, Hi.
Qed.

(** The micro-operations in the run of [u] are the last ones of the program. *)
Lemma run_no_hazard s pre prog0 u q v :
  inv s -> program s = prog0 ++ pre -> follows P L pre u -> program s !! Z.to_nat q = Some v -> 0 <= q ->
  nextSequenceNumber s - typeOffset u <= q -> no_hazard v u.
Proof.
  intros Hi Hprog Hf Hq H0 Hge. pose proof (length_program s Hi) as Hlen. destruct Hf.
  rewrite Hprog in *. rewrite length_app in Hlen.
  rewrite lookup_app_r in Hq by lia. apply (fo_run (Z.to_nat q - length prog0)%nat); [done|lia].
Qed.

Lemma lowest_ok s e0 : inv s -> seq_of e0 = nextSequenceNumber s ->
  match head (rob s ++ [e0]) with Some x => seq_of x | None => 0 end = base s.
Proof.
  intros Hi He. pose proof (i_next _ _ _ _ Hi) as Hn. destruct (rob s) as [|x l] eqn:Hr; simpl in *; [lia|].
  destruct (lk_numbered _ _ _ (i_links _ _ _ _ Hi)) as (_ & _ & Hnum). rewrite Hr in Hnum.
  rewrite (Hnum 0%nat x eq_refl). lia.
Qed.

(** The micro-operation that wrote a register [v] reads last, when [v] comes at
    position [n]. *)
Definition awaits (prog : list (MicroOp Inst)) (n : nat) (v : MicroOp Inst) (p : nat) : Prop :=
  exists r, r ∈ sourceRegisters v /\ (exists w, prog !! p = Some w /\ r ∈ destinationRegisters w) /\ (p < n)%nat /\
    forall k w, (k < n)%nat -> prog !! k = Some w -> r ∈ destinationRegisters w -> (k <= p)%nat.

(** Only dependants were added to an entry. *)
Definition kept x x' : Prop := exists inl vec, x' = with_dependants inl vec x.

Lemma unissued_done (l l' : list Entry) : Forall2 (fun x x' => is_done x' = is_done x) l l' -> unissued l' = unissued l.
Proof.
  unfold unissued. induction 1 as [|x x' l l' Hx _ IH]; [done|]. rewrite !filter_cons, Hx.
  destruct (decide _); simpl; by rewrite IH.
Qed.

(** * Dependencies *)
Section one.
Variables (s : Timer) (u : Dyn) (pre prog0 : list (MicroOp Inst)).
Hypothesis Hinv : inv s.
Hypothesis Hcfg : config_ok cfg P L.
Hypothesis Hprog : program s = prog0 ++ pre.
Hypothesis Hpre : (length pre <= length (rob s))%nat.
Hypothesis Hfollows : follows P L pre u.
Hypothesis Hroom : Z.of_nat (length (rob s)) < windowSize cfg + 255.
Hypothesis Hmore : nextSequenceNumber s + 1 < INVALID_SEQNR.

Let b := base s.
Let next := nextSequenceNumber s.
Let u0 := setSequenceNumber next u.

Lemma next_eq : next = b + Z.of_nat (length (rob s)).
Proof. apply (i_next _ _ _ _ Hinv). Qed.

Lemma program_next : Z.of_nat (length (program s)) = next.
Proof. by apply length_program. Qed.

Lemma u0_deps : deps u0 = seqZ (next - typeOffset u - intraDependencies u) (intraDependencies u).
Proof. unfold deps, deps_end. simpl. by rewrite (fo_empty _ _ _ _ Hfollows), app_nil_r. Qed.

Lemma u0_wf : wf_deps u0.
Proof.
  destruct Hfollows. pose proof next_eq. assert (0 <= b) by (unfold b, base; lia).
  assert (Hl : Z.of_nat (length (deps u0)) = intraDependencies u).
  { rewrite u0_deps, length_seqZ. lia. }
  split; simpl; [done|done|lia|lia|by rewrite fo_empty|lia|lia].
Qed.

Lemma u0_range d : d ∈ deps u0 -> in_range b (rob s) d.
Proof.
  rewrite u0_deps, elem_of_seqZ. destruct Hfollows. pose proof next_eq. unfold in_range. lia.
Qed.

Lemma live_range d : produces (registerDependencies s) b (sourceRegisters (m_uop u)) d ->
  in_range b (rob s) d /\ 0 <= d < deps_end u0.
Proof.
  intros (r & Hr & Hl). pose proof (live_producer_valid _ _ _ _ Hl) as Hv. unfold live_producer in Hl.
  destruct (registerDependencies s !! Z.to_nat r) as [p|] eqn:Hp; [|done].
  destruct ((p =? INVALID_SEQNR) || (p <? b)) eqn:Hc; [done|]. injection Hl as ->. zbool.
  destruct (i_regs _ _ _ _ Hinv) as [_ Hf]. pose proof (Forall_lookup_1 _ _ _ _ Hf Hp) as Hd. simpl in Hd.
  pose proof next_eq. unfold in_range. fold next in Hd. split; [lia|]. split; [lia|].
  pose proof (us_src _ _ (fo_static _ _ _ _ Hfollows)) as Hsrc. pose proof (proj1 (Forall_forall _ _) Hsrc r Hr) as Hr0.
  pose proof (i_writers _ _ _ _ Hinv r d ltac:(simpl in Hr0; lia) Hp) as Hw.
  rewrite (proj2 (Z.eqb_neq _ _) Hv) in Hw. destruct Hw as (v & Hpv & Hdst & _).
  unfold deps_end. simpl. destruct (Z.lt_ge_cases d (next - typeOffset u)) as [|Hge]; [done|].
  destruct (run_no_hazard s pre prog0 u d v Hinv Hprog Hfollows Hpv) as [Hno _]; [lia|done|]. by destruct (Hno r Hr).
Qed.

Lemma store_before q : isLoad (m_uop u) = true -> store_in (program s) q -> 0 <= q < next -> q < deps_end u0.
Proof.
  intros Hl (v & Hq & Hst) Hr. unfold deps_end. simpl. destruct (Z.lt_ge_cases q (next - typeOffset u)) as [|Hge]; [done|].
  destruct (run_no_hazard s pre prog0 u q v Hinv Hprog Hfollows Hq) as (_ & Hno & _); [lia|done|]. by rewrite (Hno Hl) in Hst.
Qed.

Lemma bar_before q : isLoad (m_uop u) || isStore (m_uop u) || isMemBarrier (m_uop u) = true ->
  bar_in (program s) q -> 0 <= q < next -> q < deps_end u0.
Proof.
  intros Hl (v & Hq & Hst) Hr. unfold deps_end. simpl. destruct (Z.lt_ge_cases q (next - typeOffset u)) as [|Hge]; [done|].
  destruct (run_no_hazard s pre prog0 u q v Hinv Hprog Hfollows Hq) as (_ & _ & Hno); [lia|done|]. by rewrite (Hno Hl) in Hst.
Qed.

Abbreviation prog' := (program s ++ [m_uop u]).

Lemma lookup_program_snoc k v : prog' !! k = Some v -> program s !! k = Some v \/ (Z.of_nat k = next /\ v = m_uop u).
Proof.
  intros [[Hk _]|[-> ->]]%lookup_snoc; [by left|right]. split; [|done]. by apply length_program.
Qed.

(** Registers and memory together. *)
Lemma gather_ok :
  exists regs u1 mem u2,
    RegisterDependencies.setDependencies u0 b (registerDependencies s) = Ok (regs, u1) /\
    MemoryDependencies.setDependencies u1 b (memoryDependencies s) = Ok (mem, u2) /\
    wf_deps u2 /\ same_but_deps u0 u2 /\ intraDependencies u2 = intraDependencies u /\
    (forall d, d ∈ deps u2 -> in_range b (rob s) d) /\
    (length (deps u2) <= 8)%nat /\ (isLoad (m_uop u) = false -> (length (deps u2) <= 7)%nat) /\
    (forall d, produces (registerDependencies s) b (sourceRegisters (m_uop u)) d -> d ∈ deps u2) /\
    regs_ok regs (next + 1) /\ writers_ok prog' b regs /\ mem_ok (store_in prog') (bar_in prog') (next + 1) mem.
Proof.
  pose proof u0_wf as Hwf0. pose proof next_eq as Hnext. destruct Hfollows as [[] ? ? ? ? ? ? ? ?].
  assert (Hlen0 : Z.of_nat (length (deps u0)) = intraDependencies u) by (rewrite u0_deps, length_seqZ; lia).
  assert (Hb : 0 <= b) by (unfold b, base; lia).
  destruct (add_sources_ok b (sourceRegisters (m_uop u)) (registerDependencies s) u0 next)
    as (regs1 & u1 & Heq1 & Hcl & Hg1 & Hnew1); [apply (i_regs _ _ _ _ Hinv)|done|done|left; lia|by apply live_range|].
  assert (Hu1 : m_uop u1 = m_uop u /\ sequenceNumber u1 = next) by (by rewrite (gr_same _ _ _ _ Hg1)).
  destruct Hu1 as [Hmop1 Hseq1].
  destruct (set_producers_ok next (destinationRegisters (m_uop u)) regs1 next)
    as (regs & Heq2 & Hregs & Hlook); [eapply cleared_ok; [done|apply (i_regs _ _ _ _ Hinv)]|done|lia|lia|].
  destruct (memory_setDependencies_ok (store_in (program s)) (bar_in (program s)) (store_in prog') (bar_in prog') next b
              (memoryDependencies s) u1) as (mem & u2 & Heq3 & Hg2 & Hmem); rewrite ?Hmop1, ?(same_but_deps_end _ _ (gr_same _ _ _ _ Hg1)).
  { apply (i_mem _ _ _ _ Hinv). } { apply Hg1. }
  { eapply grown_room; [exact Hg1|]. left. lia. } { done. } { split; [lia|]. unfold next. lia. } { lia. }
  { pose proof (co_window _ _ _ Hcfg). lia. } { intros Hl q. by apply store_before. } { intros Hl q. by apply bar_before. }
  { intros q (v & Hq & Hv). exists v. split; [by apply lookup_app_l_Some|done]. }
  { intros q (v & Hq & Hv). exists v. split; [by apply lookup_app_l_Some|done]. }
  { intros Hst. exists (m_uop u). split; [|done]. apply list_lookup_middle. pose proof program_next. lia. }
  { intros H1 H2 H3. exists (m_uop u). unfold is_bar. rewrite H1, H2, H3. split; [|done].
    apply list_lookup_middle. pose proof program_next. lia. }
  exists regs, u1, mem, u2. rewrite Hmop1 in Hg2.
  pose proof (gr_length _ _ _ _ Hg1) as Hl1. pose proof (gr_length _ _ _ _ Hg2) as Hl2.
  split_and!.
  - unfold RegisterDependencies.setDependencies. change (m_uop u0) with (m_uop u). rewrite Heq1. cbn [rbind].
    rewrite Hmop1, Hseq1, Heq2. done.
  - done.
  - apply Hg2.
  - eapply same_but_deps_trans; [apply Hg1|apply Hg2].
  - rewrite (gr_intra _ _ _ _ Hg2), (gr_intra _ _ _ _ Hg1). done.
  - intros d Hd. destruct (gr_from _ _ _ _ d Hg2 Hd) as [Hd1|?]; [|unfold in_range; lia].
    destruct (gr_from _ _ _ _ d Hg1 Hd1) as [Hd0|Hp]; [by apply u0_range|by apply live_range].
  - destruct (isLoad (m_uop u)); lia.
  - intros Hl. rewrite Hl in Hl2. lia.
  - intros d Hd. apply (gr_old _ _ _ _ d Hg2). by apply Hnew1.
  - done.
  - intros r p Hr Hp. rewrite (Hlook r Hr) in Hp. case_bool_decide as Hin.
    + injection Hp as <-. rewrite (proj2 (Z.eqb_neq _ _)) by lia. exists (m_uop u). split_and!; [|done|].
      * apply list_lookup_middle. pose proof program_next. lia.
      * intros k v Hk _. apply lookup_lt_Some in Hk. rewrite length_app in Hk. simpl in Hk.
        pose proof program_next. lia.
    + destruct (lookup_lt_is_Some_2 (registerDependencies s) (Z.to_nat r)) as [p0 Hp0].
      { rewrite <- (proj1 Hcl). by eapply lookup_lt_Some. }
      pose proof (i_writers _ _ _ _ Hinv r p0 Hr Hp0) as Hw.
      destruct (proj2 Hcl _ _ Hp0) as [Hp'|[Hp' Hlt]]; rewrite Hp in Hp'; injection Hp' as ->.
      * destruct (p0 =? INVALID_SEQNR).
        -- intros k v [Hk|[_ ->]]%lookup_program_snoc Hdst; [by apply (Hw k v)|done].
        -- destruct Hw as (v & Hv & Hdst & Hlast). exists v. split_and!; [by apply lookup_app_l_Some|done|].
           intros k w [Hk|[_ ->]]%lookup_program_snoc Hd; [by apply (Hlast k w)|done].
      * rewrite Z.eqb_refl. intros k v [Hk|[_ ->]]%lookup_program_snoc Hdst; [|done].
        destruct (p0 =? INVALID_SEQNR); [by apply (Hw k v)|]. destruct Hw as (_ & _ & _ & Hlast).
        specialize (Hlast k v Hk Hdst). fold b in Hlt. lia.
  - done.
Qed.

(** The first step: the producers of the address of a store. *)
Abbreviation e0 := (init_entry u next).

Lemma numbered_e0 : numbered b (rob s ++ [e0]).
Proof.
  destruct (lk_numbered _ _ _ (i_links _ _ _ _ Hinv)) as (Hb & _ & Hn). pose proof next_eq. fold b in Hb, Hn.
  split_and!; [done|rewrite length_app; simpl; unfold next, INVALID_SEQNR in *; lia|].
  intros i x [[Hx _]|[-> ->]]%lookup_snoc; [by apply Hn|]. done.
Qed.

Lemma address_step :
  exists e1,
    (if isStore (mop e0) then
       let! e := find_address_producers (addressRegisters (mop e0)) b (registerDependencies s) (rob s) e0 in
       Ok (if bool_decide (addressProducers e = []) then with_addressReady (addressReadyMax e) (addressReadyMax e) e else e)
     else Ok e0) = Ok e1 /\
    (exists ps t tmax, e1 = with_addressReady t tmax (with_address ps 0 e0)) /\
    (forall p, p ∈ addressProducers e1 ->
       produces (registerDependencies s) b (sourceRegisters (m_uop u)) p /\ done_at b (rob s) p = false) /\
    (forall t, 0 <= t -> (forall i x, produces (registerDependencies s) b (sourceRegisters (m_uop u)) (b + Z.of_nat i) ->
       rob s !! i = Some x -> is_done x = true -> done_ x <= t) -> addressReadyMax e1 <= t) /\
    (isStore (m_uop u) = true -> addressReady e1 = if bool_decide (addressProducers e1 = []) then addressReadyMax e1 else MaxTime).
Proof.
  change (mop e0) with (m_uop u). destruct (isStore (m_uop u)) eqn:Hst.
  2:{ exists e0. split_and!; [done|by exists [], MaxTime, 0|intros p Hp; by apply not_elem_of_nil in Hp|done|done]. }
  pose proof (us_addr _ _ (fo_static _ _ _ _ Hfollows) Hst) as Hsub.
  assert (Hprod : forall d, produces (registerDependencies s) b (addressRegisters (m_uop u)) d ->
    produces (registerDependencies s) b (sourceRegisters (m_uop u)) d).
  { intros d (r & Hr & Hl). exists r. split; [by apply Hsub|done]. }
  destruct (find_address_producers_ok b (rob s) b (registerDependencies s) next (addressRegisters (m_uop u)) e0)
    as (e & -> & (ps & t & ->) & Hps & Ht).
  { apply numbered_e0. } { apply (i_regs _ _ _ _ Hinv). }
  { apply Forall_forall. intros r Hr. by apply (proj1 (Forall_forall _ _) (us_src _ _ (fo_static _ _ _ _ Hfollows))), Hsub. }
  { intros d Hd. by apply live_range, Hprod. }
  cbn [rbind]. eexists. split; [done|]. simpl in *.
  assert (Hps' : forall p, p ∈ ps -> produces (registerDependencies s) b (sourceRegisters (m_uop u)) p /\ done_at b (rob s) p = false).
  { intros p Hp. destruct (Hps p Hp) as [Hn|[Hn ?]]; [by apply not_elem_of_nil in Hn|]. split; [by apply Hprod|done]. }
  assert (Ht' : forall t0, 0 <= t0 -> (forall i x, produces (registerDependencies s) b (sourceRegisters (m_uop u)) (b + Z.of_nat i) ->
       rob s !! i = Some x -> is_done x = true -> done_ x <= t0) -> t <= t0).
  { intros t0 H0 Hall. apply Ht; [done|]. intros i x Hi. by apply Hall, Hprod. }
  case_bool_decide as Hnil; simpl; (split_and!; [by eexists ps, _, t|done|done|]); intros _.
  - by rewrite bool_decide_true.
  - by rewrite bool_decide_false.
Qed.

(** The second step: a load looks through a store. *)
Lemma forward_step u2 e1 :
  wf_deps u2 -> same_but_deps u0 u2 -> intraDependencies u2 = intraDependencies u -> uop e1 = u2 ->
  (forall d, d ∈ deps u2 -> in_range b (rob s) d) -> (length (deps u2) <= 8)%nat ->
  exists u3,
    (if m_store_to_load_forwarding cfg && isLoad (mop e1) then
       let! ds := dep_list (uop e1) in forward_store ds (rob s) e1
     else Ok e1) = Ok (with_uop u3 e1) /\
    wf_deps u3 /\ same_but_deps u0 u3 /\
    (forall d, d ∈ deps u3 -> in_range b (rob s) d) /\
    (length (dones b (rob s) (deps u3)) <= 8)%nat /\
    (isLoad (m_uop u) = false -> deps u3 = deps u2) /\
    (forall d, d ∈ deps u2 -> d ∈ deps u3 \/
       (m_store_to_load_forwarding cfg = true /\ isLoad (m_uop u) = true /\ store_in (program s) d)).
Proof.
  intros Hwf Hsame Hintra Hu Hrange Hlen. pose proof (i_links _ _ _ _ Hinv) as Hl. fold b in Hl.
  assert (Hmop : mop e1 = m_uop u) by (unfold mop; rewrite Hu; by rewrite Hsame). rewrite Hmop.
  assert (Hd8 : forall l, (length (dones b (rob s) l) <= length l)%nat) by (intros l; apply length_filter).
  destruct (m_store_to_load_forwarding cfg && isLoad (m_uop u)) eqn:Hc.
  - zbool. rewrite Hu, (dep_list_ok u2 Hwf). cbn [rbind].
    destruct (forward_store_ok b (rob s) e1 (deps u2)) as (u3 & -> & Hwf3 & Hs3 & Hcase); rewrite ?Hu.
    { done. } { eapply numbered_last; [apply numbered_e0|]. unfold seq_of. rewrite Hu. by rewrite Hsame. } { done. }
    { intros d Hd. split; [done|by apply Hrange]. } { rewrite Hintra. by apply (fo_load _ _ _ _ Hfollows). } { done. }
    rewrite Hu in *. exists u3. split; [done|]. split; [done|]. split; [by eapply same_but_deps_trans|].
    destruct Hcase as [->|(i & x & rest & more & Hx & Hst & Hp & Hp3 & Hmore')].
    { split_and!; [done|specialize (Hd8 (deps u2)); lia|done|by left]. }
    assert (Hm : forall d, d ∈ more -> exists k y, rob s !! k = Some y /\ d = b + Z.of_nat k /\ is_done y = false).
    { intros d Hd. destruct (lk_older _ _ _ Hl i x d Hx) as (k & y & Hy & _ & -> & Hw); [by apply (proj1 (Forall_forall _ _) Hmore')|].
      exists k, y. split_and!; [done..|]. unfold waiting in Hw. by destruct (is_done y). }
    split_and!; [|  |congruence|].
    + intros d. rewrite Hp3. intros [Hd|Hd]%elem_of_app; [apply Hrange; rewrite Hp; by right|].
      destruct (Hm d Hd) as (k & y & Hy & -> & _). apply lookup_lt_Some in Hy. unfold in_range. lia.
    + unfold dones. rewrite Hp3, filter_app, length_app.
      assert (base.filter (fun d => done_at b (rob s) d = true) more = []) as ->.
      { apply filter_none. intros d Hd. destruct (Hm d Hd) as (k & y & Hy & -> & Hdy).
        by rewrite (done_at_lookup b (rob s) k y Hy), Hdy. }
      simpl. specialize (Hd8 rest). unfold dones in Hd8. apply Permutation_length in Hp. simpl in Hp. lia.
    + intros d. rewrite Hp, Hp3. intros [->|Hd]%elem_of_cons; [right|left; apply elem_of_app; by left].
      split_and!; [done|done|]. exists (mop x). split; [by apply program_rob|done].
  - exists u2. split; [by rewrite <- Hu; destruct e1|]. split_and!; [done..|specialize (Hd8 (deps u2)); lia|done|by left].
Qed.
(** The distance to the nearest producer is counted in the last cell when it is long. *)
Lemma count_distance_ok dist (st : RobStats) :
  stats_ok cfg st -> (forall z, dist = Some z -> 0 <= z) -> exists st', count_distance dist st = Ok st' /\ stats_ok cfg st'.
Proof.
  intros [Hlen Hm] Hd. pose proof (co_window _ _ _ Hcfg) as Hw. unfold count_distance. rewrite Hlen, Z2Nat.id by lia.
  set (cell := match dist with Some _ => _ | None => 0 end).
  assert (Hc : 0 <= cell < windowSize cfg).
  { subst cell. destruct dist as [d|]; [|lia]. specialize (Hd d eq_refl). destruct (Z.leb_spec (windowSize cfg) d); [|lia].
    rewrite u64_small; lia. }
  destruct (lookup_lt_is_Some_2 (m_producerInsDistance st) (Z.to_nat cell)) as [x Hx]; [lia|].
  rewrite (aget_Ok _ _ _ Hx). cbn [rbind]. rewrite aset_Ok by (by eapply lookup_lt_Some). cbn [rbind].
  eexists. split; [done|]. split; simpl; [by rewrite length_insert|done].
Qed.

(** The third step: the entry is linked to its producers, and those that are
    done are removed. *)
Lemma link_step u3 e2 (st : RobStats) :
  wf_deps u3 -> same_but_deps u0 u3 -> uop e2 = u3 ->
  (forall d, d ∈ deps u3 -> in_range b (rob s) d) -> (length (dones b (rob s) (deps u3)) <= 8)%nat -> stats_ok cfg st ->
  exists older' u4 t st',
    (let! ds := dep_list (uop e2) in
     let! (older, e, distance, to_remove) := link_producers ds (rob s) e2 None [] in
     let! st := count_distance distance st in
     guard! Z.of_nat (length to_remove) <? 16 else LogError in
     let! v := remove_all to_remove (uop e) in
     Ok (older, st, v, with_uop v e)) = Ok (older', st', u4, with_uop u4 (with_ready (ready e2) t e2)) /\
    wf_deps u4 /\ same_but_deps u0 u4 /\ deps u4 ≡ₚ undone b (rob s) (deps u3) /\
    length older' = length (rob s) /\
    (forall i x, rob s !! i = Some x -> exists x', older' !! i = Some x' /\
       linked next (if is_done x then 0 else cnt (deps u3) (b + Z.of_nat i)) x x') /\
    readyMax e2 <= t /\
    (forall i x, (b + Z.of_nat i) ∈ deps u3 -> rob s !! i = Some x -> is_done x = true -> done_ x <= t) /\
    (forall m, readyMax e2 <= m -> (forall i x, rob s !! i = Some x -> is_done x = true -> done_ x <= m) -> t <= m) /\
    stats_ok cfg st'.
Proof.
  intros Hwf Hsame Hu Hrange H8 Hst. rewrite Hu, (dep_list_ok u3 Hwf). cbn [rbind].
  assert (Hseq : seq_of e2 = next) by (unfold seq_of; rewrite Hu; by rewrite Hsame).
  destruct (link_producers_ok b (deps u3) (rob s) e2 None []) as (older' & t & dist & -> & Hlen & Hlink & Hle & Hmax & Hmin & Hdist);
    [eapply numbered_last; [apply numbered_e0|done]|done|done|done|].
  cbn [rbind app]. destruct (count_distance_ok dist st Hst Hdist) as (st' & -> & Hst'). cbn [rbind].
  unfold rguard. rewrite (proj2 (Z.ltb_lt _ _)) by lia. cbn [rbind uop with_ready]. rewrite Hu.
  destruct (remove_all_ok (dones b (rob s) (deps u3)) u3 (undone b (rob s) (deps u3)) Hwf) as (u4 & -> & Hwf4 & Hs4 & Hp4).
  { apply filter_split. }
  cbn [rbind]. exists older', u4, t, st'. rewrite Hseq in Hlink.
  split_and!; [done|done|by eapply same_but_deps_trans|done..].
Qed.
(** The entry with its last times. *)
Abbreviation settle u4 t e := (if getDependenciesLength u4 =? 0 then with_ready t t e else e).

Record landing (older' : list Entry) (e' : Entry) (u2 u3 u4 : Dyn) (ps : list Z) (ta tamax t : Z) : Prop := mkLanding {
  la_entry : e' = settle u4 t (with_uop u4 (with_ready MaxTime t (with_addressReady ta tamax (with_address ps 0 e0))));
  la_ps : forall p, p ∈ ps -> produces (registerDependencies s) b (sourceRegisters (m_uop u)) p /\ done_at b (rob s) p = false;
  la_tamax : forall m, 0 <= m -> (forall i x, produces (registerDependencies s) b (sourceRegisters (m_uop u)) (b + Z.of_nat i) ->
     rob s !! i = Some x -> is_done x = true -> done_ x <= m) -> tamax <= m;
  la_ta : isStore (m_uop u) = true -> ta = if bool_decide (ps = []) then tamax else MaxTime;
  la_seven : isLoad (m_uop u) = false -> (length (deps u2) <= 7)%nat;
  la_produces : forall d, produces (registerDependencies s) b (sourceRegisters (m_uop u)) d -> d ∈ deps u2;
  la_range : forall d, d ∈ deps u3 -> in_range b (rob s) d;
  la_same : isLoad (m_uop u) = false -> deps u3 = deps u2;
  la_through : forall d, d ∈ deps u2 -> d ∈ deps u3 \/
     (m_store_to_load_forwarding cfg = true /\ isLoad (m_uop u) = true /\ store_in (program s) d);
  la_wf : wf_deps u4;
  la_uop : same_but_deps u0 u4;
  la_deps : deps u4 ≡ₚ undone b (rob s) (deps u3);
  la_length : length older' = length (rob s);
  la_linked : forall i x, rob s !! i = Some x -> exists x', older' !! i = Some x' /\
     linked next (if is_done x then 0 else cnt (deps u3) (b + Z.of_nat i)) x x';
  la_zero : 0 <= t;
  la_later : forall i x, (b + Z.of_nat i) ∈ deps u3 -> rob s !! i = Some x -> is_done x = true -> done_ x <= t;
  la_least : forall m, 0 <= m -> (forall i x, rob s !! i = Some x -> is_done x = true -> done_ x <= m) -> t <= m
}.

Lemma enter_steps :
  exists regs mem older' e' st' u2 u3 u4 ps ta tamax t,
    enter cfg u s = Ok (with_entered (older' ++ [e']) (u64 (next + 1)) regs mem st' s) /\
    regs_ok regs (next + 1) /\ writers_ok prog' b regs /\ mem_ok (store_in prog') (bar_in prog') (next + 1) mem /\
    stats_ok cfg st' /\ landing older' e' u2 u3 u4 ps ta tamax t.
Proof.
  destruct gather_ok as (regs & u1 & mem & u2 & Hreg & Hmem & Hwf2 & Hs2 & Hi2 & Hr2 & Hl8 & Hl7 & Hprod & Hregs & Hwr & Hmok).
  destruct address_step as (e1 & Hadd & (ps & ta & tamax & ->) & Hps & Hta & Hready).
  set (e1 := with_addressReady ta tamax (with_address ps 0 e0)) in *.
  destruct (forward_step u2 (with_uop u2 e1) Hwf2 Hs2 Hi2 eq_refl Hr2 Hl8) as (u3 & Hfwd & Hwf3 & Hs3 & Hr3 & H8 & Hload & Hfrom).
  destruct (link_step u3 (with_uop u3 (with_uop u2 e1)) (stats s) Hwf3 Hs3 eq_refl Hr3 H8 (i_stats _ _ _ _ Hinv))
    as (older' & u4 & t & st' & Hlink & Hwf4 & Hs4 & Hp4 & Hlen & Hlinked & Hle & Hmax & Hmin & Hst').
  assert (Hm4 : m_uop u4 = m_uop u) by (by rewrite Hs4).
  exists regs, mem, older', (settle u4 t (with_uop u4 (with_ready MaxTime t e1))),
    (count_uop (uop_subtype (m_uop u)) (isX87 (m_uop u)) (isPause (m_uop u)) st'), u2, u3, u4, ps, ta, tamax, t. split.
  { unfold enter. cbv zeta. unfold rguard at 1. rewrite (proj2 (Z.ltb_lt _ _) Hroom). cbn [rbind].
    change (nextSequenceNumber s) with next. rewrite (lowest_ok s e0 Hinv eq_refl). fold b. rewrite Hadd. cbn [rbind].
    change (uop e1) with u0. rewrite Hreg. cbn [rbind]. rewrite Hmem. cbn [rbind].
    rewrite Hfwd. cbn [rbind]. revert Hlink.
    destruct (dep_list (uop (with_uop u3 (with_uop u2 e1)))) as [ds|]; cbn [rbind]; [|discriminate].
    destruct (link_producers ds _ _ _ _) as [[[[o e] dist] rm]|]; cbn [rbind]; [|discriminate].
    destruct (count_distance _ _) as [st|]; cbn [rbind]; [|discriminate]. unfold rguard. destruct (_ <? 16); cbn [rbind]; [|discriminate].
    destruct (remove_all _ _) as [v|]; cbn [rbind]; [|discriminate]. intros Heq%Ok_inj.
    apply pair_equal_spec in Heq as [[[-> ->]%pair_equal_spec ->]%pair_equal_spec He]. rewrite He. cbn [readyMax with_uop with_ready].
    assert (Hmop : forall t' tmax', mop (settle u4 t (with_uop u4 (with_ready t' tmax' e1))) = m_uop u) by (intros; by destruct (_ =? 0)).
    cbn [ready with_uop]. change (with_uop u4 (with_ready (ready e1) t (with_uop u3 (with_uop u2 e1)))) with (with_uop u4 (with_ready MaxTime t e1)).
    by rewrite Hmop. }
  split_and!; [done|done|done| |].
  { destruct Hst' as [? ?]. done. }
  split; done.
Qed.
(** * The invariant *)
Section landed.
Variables (older' : list Entry) (e' : Entry) (u2 u3 u4 : Dyn) (ps : list Z) (ta tamax t T : Z).
Hypothesis Hland : landing older' e' u2 u3 u4 ps ta tamax t.
Hypothesis HT : 0 <= T < MaxTime.
Hypothesis Hbounded : bounded T s.

Lemma landed_T : t <= T.
Proof.
  destruct Hland. apply la_least0; [lia|]. intros i x Hx. apply (to_done _ _ (bd_entries _ _ Hbounded i x Hx)).
Qed.

Lemma landed_fields : uop e' = u4 /\ readyMax e' = t /\ is_done e' = false /\ done_ e' = MaxTime /\ issued e' = MaxTime /\
  addressProducers e' = ps /\ addressReady e' = ta /\ addressReadyMax e' = tamax /\ dependants e' = [] /\ wf_dependants e' /\
  ready e' = (if getDependenciesLength u4 =? 0 then t else MaxTime).
Proof.
  destruct Hland. rewrite la_entry0. destruct (_ =? 0); split_and!; try done; (split; simpl; [unfold MAX_INLINE_DEPENDANTS; lia|done]).
Qed.

Lemma landed_mop : mop e' = m_uop u /\ seq_of e' = next.
Proof. destruct Hland. destruct landed_fields as [Hu _]. unfold mop, seq_of. rewrite Hu. by rewrite la_uop0. Qed.

Lemma landed_store d : isStore (m_uop u) = true -> produces (registerDependencies s) b (sourceRegisters (m_uop u)) d -> d ∈ deps u3.
Proof.
  destruct Hland. intros Hst Hd. rewrite la_same0; [auto|]. by apply store_not_load.
Qed.

Lemma landed_undone d : d ∈ deps u3 -> done_at b (rob s) d = false -> d ∈ deps u4.
Proof. destruct Hland. intros Hd Hn. rewrite la_deps0. apply list_elem_of_filter. by rewrite Hn. Qed.

Lemma landed_ready : ready_ok e'.
Proof.
  intros _. destruct landed_fields as (Hu & Hrm & _ & _ & _ & _ & _ & _ & _ & _ & Hr). destruct Hland. pose proof landed_T.
  rewrite Hu, Hrm, Hr, (getDependenciesLength_ok u4 la_wf0). split_and!; [lia| |].
  - intros ->. simpl. lia.
  - destruct (deps u4); [done|]. intros _. by rewrite (proj2 (Z.eqb_neq _ 0)) by (simpl; lia).
Qed.

Lemma landed_address : addr_ok b (older' ++ [e']) e'.
Proof.
  intros Hst _. rewrite (proj1 landed_mop) in Hst.
  destruct landed_fields as (Hu & Hrm & _ & _ & _ & Hap & Har & Harm & _). rewrite Hu, Hrm, Hap, Har, Harm.
  assert (Hle : tamax <= t).
  { destruct Hland. apply la_tamax0; [done|]. intros i x Hp. by apply la_later0, landed_store. }
  assert (Hps : forall p, p ∈ ps -> in_range b (rob s) p /\ p ∈ deps u4).
  { destruct Hland. intros p Hp. destruct (la_ps0 p Hp) as [H1 H2]. pose proof (landed_store p Hst H1) as H3. split; [by apply la_range0|by apply landed_undone]. }
  split_and!; [done| |].
  - intros p Hp. destruct (Hps p Hp) as [Hr Hd]. split; [|by left]. rewrite length_app, (la_length _ _ _ _ _ _ _ _ _ Hland).
    unfold in_range in Hr. simpl. pose proof (lk_numbered _ _ _ (i_links _ _ _ _ Hinv)) as (Hb & _). fold b in Hb. lia.
  - rewrite (la_ta _ _ _ _ _ _ _ _ _ Hland Hst). case_bool_decide as Hnil; [by right|left].
    split; [done|]. destruct ps as [|p ps']; [done|]. exists p. split; [by left|]. apply Hps. by left.
Qed.

Lemma landed_links : links None b (older' ++ [e']) /\ entries_ok b (older' ++ [e']).
Proof.
  pose proof landed_ready as Hr. pose proof landed_address as Ha. pose proof landed_mop as [Hm Hs].
  destruct landed_fields as (Hu & _ & Hd & _ & _ & _ & _ & _ & Hdep & Hwfd & _). pose proof next_eq as Hn.
  pose proof (la_linked _ _ _ _ _ _ _ _ _ Hland) as Hlk. rewrite Hn in Hlk.
  assert (H64 : b + Z.of_nat (S (length (rob s))) < 2 ^ 64) by (unfold next, INVALID_SEQNR in *; lia).
  assert (Hsm : isStore (mop e') = true -> (length (deps (uop e')) <= 7)%nat).
  { rewrite Hm, Hu. intros Hst. destruct Hland. rewrite la_deps0. pose proof (store_not_load _ Hst) as Hnl.
    pose proof (length_filter (fun d => ~ done_at b (rob s) d = true) (deps u3)). unfold undone.
    rewrite la_same0 in * by done. specialize (la_seven0 Hnl). lia. }
  split.
  - eapply (links_added b (rob s) older' e' (deps u3));
      [apply (i_links _ _ _ _ Hinv)|by destruct Hland|done|by rewrite Hs|done|rewrite Hu; by destruct Hland|done|done|done
      |by destruct Hland|rewrite Hu; by destruct Hland].
  - eapply (entries_added b (rob s)); [apply (i_entries _ _ _ _ Hinv)|by destruct Hland|exact Hlk|done..].
Qed.

Lemma landed_kept : Forall2 kept (rob s) older'.
Proof.
  destruct Hland. apply Forall2_same_length_lookup_2; [done|]. intros i x y Hx Hy.
  destruct (la_linked0 i x Hx) as (y' & Hy' & Hk & _). rewrite Hy in Hy'. by injection Hy' as <-.
Qed.

Lemma landed_old i x : (older' ++ [e']) !! i = Some x ->
  (exists x0, rob s !! i = Some x0 /\ kept x0 x) \/ (i = length (rob s) /\ x = e').
Proof.
  pose proof (Forall2_length _ _ _ landed_kept) as Hl. intros [[Hx _]|[-> ->]]%lookup_snoc; [left|right; done].
  by destruct (Forall2_lookup_r _ _ _ _ _ landed_kept Hx) as (x0 & ? & ?); exists x0.
Qed.

Lemma landed_next : u64 (next + 1) = next + 1.
Proof. pose proof next_eq. apply u64_small. unfold next, b, base, INVALID_SEQNR in *. lia. Qed.

Variables (regs : list Z) (mem : MemoryDependencies.t) (st' : RobStats).
Abbreviation s' := (with_entered (older' ++ [e']) (u64 (next + 1)) regs mem st' s).

Lemma landed_program : program s' = prog'.
Proof.
  unfold program. simpl. rewrite map_app, app_assoc. simpl. rewrite (proj1 landed_mop). do 2 f_equal.
  generalize landed_kept. clear. induction 1 as [|x x' ? ? (inl & vec & ->)]; simpl; f_equal; done.
Qed.

Lemma landed_rs : unissued (window s') = unissued (window s).
Proof.
  apply unissued_done. unfold window. simpl. pose proof (i_num _ _ _ _ Hinv) as [Hnum _].
  pose proof (Forall2_length _ _ _ landed_kept) as Hl. rewrite take_app_le by lia.
  eapply Forall2_take, Forall2_impl; [exact landed_kept|]. by intros x x' (inl & vec & ->).
Qed.

Lemma landed_inv :
  regs_ok regs (next + 1) -> writers_ok prog' b regs -> mem_ok (store_in prog') (bar_in prog') (next + 1) mem -> stats_ok cfg st' ->
  inv s'.
Proof.
  intros Hregs Hwr Hmem Hst. pose proof landed_links as [Hlinks Hent]. pose proof landed_next as Hn64.
  pose proof landed_program as Hp. pose proof landed_rs as Hrs. pose proof landed_old as Hold.
  destruct landed_fields as (Hu & _ & Hd & _). pose proof (la_length _ _ _ _ _ _ _ _ _ Hland) as Hlen.
  pose proof next_eq as Hnx. destruct Hfollows as [Hstat Hacc _ _ _ _ _ _ _]. destruct landed_mop as [Hm _].
  assert (Hsame : same_but_deps u0 (uop e')) by (rewrite Hu; by destruct Hland).
  destruct Hinv. split; rewrite ?Hp; simpl; rewrite ?Hn64; try done.
  - rewrite length_app. simpl. unfold b, base in *. simpl. lia.
  - rewrite length_app. simpl. lia.
  - rewrite length_app. simpl. lia.
  - intros i x [(x0 & Hx0 & inl & vec & ->)|[-> ->]]%Hold Hi; [exact (i_prerob i x0 Hx0 Hi)|done].
  - change (m_rs_entries_used s = Z.of_nat (unissued (window s')) /\ m_rs_entries_used s <= rsEntries cfg). by rewrite Hrs.
  - intros i x [(x0 & Hx0 & inl & vec & ->)|[-> ->]]%Hold; [exact (i_static i x0 Hx0)|]. rewrite Hsame. by destruct Hstat.
  - intros i x [(x0 & Hx0 & inl & vec & ->)|[-> ->]]%Hold Hdx; [exact (i_access i x0 Hx0 Hdx)|]. by rewrite Hsame.
  - intros Hf. destruct (i_front Hf) as (i & x & Hx & Hw & Hdx & Hbr).
    destruct (Forall2_lookup_l _ _ _ _ _ landed_kept Hx) as (x' & Hx' & inl & vec & ->).
    exists i, (with_dependants inl vec x). split_and!; [by apply lookup_app_l_Some|done..].
Qed.
End landed.
(** What is known of what [u] reads: the last writer of a register has left the
    buffer, is awaited, is done at a time the entry knows, or is a store a load
    has looked through. *)
Lemma landed_flow older' e' u2 u3 u4 ps ta tamax t k :
  landing older' e' u2 u3 u4 ps ta tamax t -> awaits (program s) (length (program s)) (m_uop u) k ->
  Z.of_nat k < b \/ Z.of_nat k ∈ deps (uop e') \/
  (exists i x, rob s !! i = Some x /\ Z.of_nat k = b + Z.of_nat i /\ is_done x = true /\ done_ x <= readyMax e') \/
  (m_store_to_load_forwarding cfg = true /\ isLoad (m_uop u) = true /\ store_in (program s) (Z.of_nat k)).
Proof.
  intros Hland (r & Hr & (w & Hw & Hdst) & Hlt & Hlast).
  destruct (landed_fields older' e' u2 u3 u4 ps ta tamax t Hland) as (Hu & Hrm & _). rewrite Hu, Hrm. destruct Hland.
  destruct (i_regs _ _ _ _ Hinv) as [Hlen _].
  pose proof (proj1 (Forall_forall _ _) (us_src _ _ (fo_static _ _ _ _ Hfollows)) r Hr) as Hr0. simpl in Hr0.
  destruct (lookup_lt_is_Some_2 (registerDependencies s) (Z.to_nat r)) as [p Hp]; [lia|].
  pose proof (i_writers _ _ _ _ Hinv r p ltac:(lia) Hp) as Hwr.
  destruct (Z.eqb_spec p INVALID_SEQNR) as [->|Hpv]; [left; by apply (Hwr k w)|].
  destruct Hwr as (v & Hv & Hvd & Hmax). pose proof (Hmax k w Hw Hdst) as Hkp.
  pose proof (Hlast _ v (lookup_lt_Some _ _ _ Hv) Hv Hvd) as Hpk. assert (Z.of_nat k = p) as Hk by lia.
  destruct (Z.lt_ge_cases p b) as [?|Hge]; [left; lia|right].
  assert (Hpr : produces (registerDependencies s) b (sourceRegisters (m_uop u)) p).
  { exists r. split; [done|]. unfold live_producer. rewrite Hp. rewrite (proj2 (Z.eqb_neq _ _) Hpv).
    by rewrite (proj2 (Z.ltb_ge _ _)) by done. }
  rewrite Hk. destruct (la_through0 p (la_produces0 p Hpr)) as [Hin|?]; [|by right; right].
  destruct (in_range_lookup b (rob s) p (la_range0 p Hin)) as (i & x & Hx & ->).
  destruct (is_done x) eqn:Hdx; [right; left; exists i, x; split_and!; [done..|by apply (la_later0 i)]|left].
  rewrite la_deps0. apply list_elem_of_filter. by rewrite (done_at_lookup b (rob s) i x Hx), Hdx.
Qed.

(** Entering. *)
Record entered (s' : Timer) : Prop := mkEntered {
  en_inv : inv s';
  en_program : program s' = program s ++ [m_uop u];
  en_state : exists r next regs m st, s' = with_entered r next regs m st s;
  en_rob : exists older' e', rob s' = older' ++ [e'] /\ Forall2 kept (rob s) older' /\ is_done e' = false /\
    same_but_deps u0 (uop e') /\
    forall k, awaits (program s) (length (program s)) (m_uop u) k ->
      Z.of_nat k < b \/ Z.of_nat k ∈ deps (uop e') \/
      (exists i x, rob s !! i = Some x /\ Z.of_nat k = b + Z.of_nat i /\ is_done x = true /\ done_ x <= readyMax e') \/
      (m_store_to_load_forwarding cfg = true /\ isLoad (m_uop u) = true /\ store_in (program s) (Z.of_nat k))
}.
Lemma enter_ok T : 0 <= T < MaxTime -> bounded T s -> exists s', enter cfg u s = Ok s' /\ entered s' /\ bounded T s'.
Proof.
  intros HT HbT.
  destruct enter_steps as (regs & mem & older' & e' & st' & u2 & u3 & u4 & ps & ta & tamax & t & -> & Hregs & Hwr & Hmem & Hst & Hland).
  destruct (landed_links older' e' u2 u3 u4 ps ta tamax t T Hland HT HbT) as [Hlinks Hent].
  destruct (landed_fields older' e' u2 u3 u4 ps ta tamax t Hland) as (Hu & Hrm & Hd & Hdn & His & _ & Har & Harm & _ & _ & Hrd).
  destruct (landed_mop older' e' u2 u3 u4 ps ta tamax t Hland) as [Hm Hsq].
  pose proof (landed_T older' e' u2 u3 u4 ps ta tamax t T Hland HT HbT) as HtT.
  assert (Hsame : same_but_deps u0 (uop e')) by (rewrite Hu; by destruct Hland).
  pose proof (landed_old older' e' u2 u3 u4 ps ta tamax t Hland) as Hold.
  eexists. split; [reflexivity|]. split; [split|].
  - by apply (landed_inv older' e' u2 u3 u4 ps ta tamax t T).
  - by eapply landed_program.
  - by eexists _, _, _, _, _.
  - exists older', e'. split_and!; [done|by eapply landed_kept|done|done|]. intros k. by apply (landed_flow _ _ _ _ _ _ _ _ _ _ Hland).
  - destruct HbT. split; [|done..]. intros i x [(x0 & Hx0 & inl & vec & ->)|[-> ->]]%Hold; [destruct (bd_entries i x0 Hx0); by split|].
    split; [lia|rewrite Hrd; destruct (_ =? 0); [right; lia|by left]|]. by rewrite Hd.
Qed.
End one.
End arrive.

(** * An entry issues: from here on it is done at a known time, and the entries that wait
    for it have to be told. *)
Section start.
Context {Inst Info : Type}.
Abbreviation Dyn := (DynamicMicroOp Inst Info).
Abbreviation Entry := (RobEntry Inst Info).
Implicit Types e x : Entry.
Implicit Types l : list Entry.

(** * The links when the entry at [i] starts *)
Section one.
Variables (b : Z) (l : list Entry) (i : nat) (e e' : Entry).
Hypothesis Hi : l !! i = Some e.
Hypothesis Hnot : is_done e = false.
Hypothesis Hnil : deps (uop e) = [].
Hypothesis Hdone : is_done e' = true.
Hypothesis Hnil' : deps (uop e') = [].
Hypothesis Hwf : wf_deps (uop e').
Hypothesis Hseq : seq_of e' = seq_of e.
Hypothesis Hdep : dependants e' = dependants e.
Hypothesis Hwfd : wf_dependants e'.

Abbreviation hot := (Some (i, dependants e)).

Lemma start_lookup k x' : <[i := e']> l !! k = Some x' ->
  exists x, l !! k = Some x /\ waiting hot k x' = waiting None k x /\ deps (uop x') = deps (uop x) /\ (k <> i -> x' = x).
Proof.
  intros [[-> ->]|[Hne Hx]]%insert_cases.
  - exists e. unfold waiting. rewrite bool_decide_true, Hnot by done. split_and!; [done|done|congruence|done].
  - exists x'. unfold waiting. rewrite bool_decide_false by done. done.
Qed.

Lemma start_old k x : l !! k = Some x -> exists x', <[i := e']> l !! k = Some x' /\ waiting hot k x' = waiting None k x.
Proof.
  intros Hx. destruct (lookup_lt_is_Some_2 (<[i := e']> l) k) as [x' Hx']; [rewrite length_insert; by eapply lookup_lt_Some|].
  exists x'. split; [done|]. destruct (start_lookup k x' Hx') as (y & Hy & Hw & _). rewrite Hx in Hy. by injection Hy as ->.
Qed.

Lemma links_start : links None b l -> links hot b (<[i := e']> l).
Proof.
  intros [Hnum Hwd Hwp Hsmall Holder Hiss Hcount Hrange]. split.
  - by eapply numbered_insert.
  - intros k x [[-> ->]|[_ Hx]]%insert_cases; eauto.
  - intros k x [[-> ->]|[_ Hx]]%insert_cases; eauto.
  - intros k x [[-> ->]|[_ Hx]]%insert_cases; [|eauto]. rewrite Hnil'. simpl. lia.
  - intros j x' d (x & Hx & _ & Hd & _)%start_lookup. rewrite Hd. intros Hin.
    destruct (Holder j x d Hx Hin) as (k & y & Hy & Hlt & -> & Hw).
    destruct (start_old k y Hy) as (y' & Hy' & Hw'). exists k, y'. by rewrite Hw'.
  - intros j x [[-> ->]|[_ Hx]]%insert_cases; eauto.
  - intros k x' j y' w (x & Hx & Hw & _)%start_lookup (y & Hy & _ & Hd & _)%start_lookup. rewrite Hw, Hd. by apply Hcount.
  - intros k x' w d (x & Hx & Hw & _)%start_lookup. rewrite Hw. intros Hww Hin.
    destruct (Hrange k x w d Hx Hww Hin) as (j & y & Hy & ->). destruct (start_old j y Hy) as (y' & Hy' & _). by exists j, y'.
Qed.

Lemma produced_start p : produced b l p -> produced b (<[i := e']> l) p.
Proof.
  intros [?|(k & x & Hx & -> & Hd)]; [by left|right]. assert (k <> i) by (intros ->; congruence).
  exists k, x. by rewrite list_lookup_insert_ne.
Qed.

Lemma entries_start : entries_ok b l -> entries_ok b (<[i := e']> l).
Proof.
  intros Hok k x [[-> ->]|[Hne Hx]]%insert_cases.
  - split; [intros Hd; congruence|intros _ Hd; congruence].
  - destruct (Hok k x Hx) as [Hr Ha]. split; [done|]. intros Hst Hd. destruct (Ha Hst Hd) as (H1 & H2 & H3).
    split_and!; [done| |done]. intros p Hp. rewrite length_insert. destruct (H2 p Hp) as [Hpr [?|?]]; [tauto|].
    split; [done|]. right. by apply produced_start.
Qed.
End one.

(** What an entry that has no dependencies knows. *)
Lemma ready_resolved e t : ready_ok e -> is_done e = false -> ready e <= t -> t < MaxTime -> deps (uop e) = [] /\ readyMax e <= ready e.
Proof.
  intros Hr Hd Ht Hm. destruct (Hr Hd) as (_ & H1 & H2). destruct (deps (uop e)) as [|d ds] eqn:E.
  - split; [done|]. by apply H1.
  - rewrite H2 in Ht by done. lia.
Qed.

Lemma address_resolved b l e : addr_ok b l e -> isStore (mop e) = true -> is_done e = false -> deps (uop e) = [] ->
  addressReady e <= readyMax e.
Proof.
  intros Ha Hst Hd Hnil. destruct (Ha Hst Hd) as (_ & _ & [(_ & p & _ & Hp)|?]); [|done].
  rewrite Hnil in Hp. by apply not_elem_of_nil in Hp.
Qed.
End start.
