(* ===== verification/RobIssue.v ===== *)
(** Issuing one entry of the window never fails and keeps the invariant. *)
From stdpp Require Import base numbers list sets.
From Stdlib Require Import ZArith Lia Bool.
From S2P Require Import Prelude Timing Queues QueueLemmas MicroOp Dependencies RobDeps RobContention RobTimer RobEntries RobWake RobEnter RobInv RobArrive.
Open Scope Z_scope.

Section issue.
Context {Inst Info C M : Type} `{Decoder Inst} `{!DataMemory M} `{!DataMemoryLaws M}
  `{!RobContention C (DynamicMicroOp Inst Info)} `{!RobContentionLaws C Inst Info}.
Abbreviation Dyn := (DynamicMicroOp Inst Info).
Abbreviation Entry := (RobEntry Inst Info).
Abbreviation Timer := (RobTimer Inst Info C M).
Implicit Types s : Timer.
Implicit Types e x : Entry.
Implicit Types u : Dyn.
Variable cfg : RobConfig.
Variables (P L : Z).
Hypothesis Hcfg : config_ok cfg P L.
Abbreviation inv := (inv cfg P L).
Abbreviation D := (D P L).

(** * Counting *)
Lemma unissued_insert (l : list Entry) i e e' :
  l !! i = Some e -> is_done e = false -> is_done e' = true -> S (unissued (<[i := e']> l)) = unissued l.
Proof.
  intros Hi Hd Hd'. unfold unissued. rewrite insert_take_drop by (by eapply lookup_lt_Some).
  rewrite <- (take_drop_middle l i e Hi) at 3. rewrite !filter_app, !length_app, !filter_cons.
  rewrite decide_False by (by rewrite Hd'). rewrite decide_True by done. simpl. lia.
Qed.

Lemma unissued_pos (l : list Entry) i e : l !! i = Some e -> is_done e = false -> (0 < unissued l)%nat.
Proof. intros Hi Hd. rewrite <- (unissued_insert l i e (with_done 0 0 e) Hi Hd); [lia|done]. Qed.

(** * The invariant after an entry has issued *)
Section finish.
Variables (s s' : Timer) (i : nat) (e e' : Entry) (n depend : Z).
Hypothesis Hinv : inv s.
Hypothesis Hi : rob s !! i = Some e.
Hypothesis Hnot : is_done e = false.
Hypothesis Hwin : in_window s i.
Hypothesis Hdone : is_done e' = true.
Hypothesis Hmop : mop e' = mop e.
Hypothesis Hstat : uop_static L (uop e').
Hypothesis Hwoken : Forall2 (woken n depend) (<[i := e']> (rob s)) (rob s').
Hypothesis Hri : rob s' !! i = Some e'.

Lemma finish_lookup j x' : rob s' !! j = Some x' ->
  (j = i /\ x' = e') \/ (j <> i /\ exists x, rob s !! j = Some x /\ woken n depend x x').
Proof.
  intros Hj. destruct (decide (j = i)) as [->|Hne]; [left; split; congruence|right]. split; [done|].
  destruct (Forall2_lookup_r _ _ _ _ _ Hwoken Hj) as (x & Hx & Hw). rewrite list_lookup_insert_ne in Hx by done. eauto.
Qed.

Lemma finish_old j x : rob s !! j = Some x -> j <> i -> exists x', rob s' !! j = Some x' /\ woken n depend x x'.
Proof.
  intros Hj Hne. eapply Forall2_lookup_l; [exact Hwoken|]. by rewrite list_lookup_insert_ne.
Qed.

Lemma finish_length : length (rob s') = length (rob s).
Proof. rewrite <- (Forall2_length _ _ _ Hwoken). apply length_insert. Qed.

Lemma woken_done x x' : woken n depend x x' -> is_done x' = is_done x.
Proof. intros []. unfold is_done. by rewrite wk_done. Qed.

Lemma woken_mop x x' : woken n depend x x' -> mop x' = mop x.
Proof. intros []. unfold mop. by rewrite wk_uop. Qed.

Lemma finish_program : traced s' = traced s -> program s' = program s.
Proof.
  intros Ht. unfold program. rewrite Ht. f_equal. apply list_eq. intros j. rewrite !list_lookup_fmap.
  destruct (rob s' !! j) as [x'|] eqn:Hj.
  - destruct (finish_lookup j x' Hj) as [[-> ->]|(Hne & x & Hx & Hw)]; [by rewrite Hi; simpl; rewrite Hmop|].
    rewrite Hx. simpl. by rewrite (woken_mop x x' Hw).
  - apply lookup_ge_None in Hj. rewrite finish_length in Hj. by rewrite (proj2 (lookup_ge_None _ _) Hj).
Qed.

Lemma finish_unissued : m_num_in_rob s' = m_num_in_rob s -> S (unissued (window s')) = unissued (window s).
Proof.
  intros Hnum. unfold window. rewrite Hnum. unfold in_window in Hwin.
  rewrite <- (unissued_insert (take (Z.to_nat (m_num_in_rob s)) (rob s)) i e e'); [|apply lookup_take_Some; split; [done|lia]|done|done].
  f_equal. rewrite <- take_insert_lt by lia. apply unissued_done. eapply Forall2_take, Forall2_impl; [exact Hwoken|].
  apply woken_done.
Qed.

Lemma finish_front : frontend_stalled_until s' = MaxTime -> frontend_stalled_until s = MaxTime ->
  (isBranch (mop e) && branchMispredicted (uop e) = true -> frontend_stalled_until s' <> MaxTime) ->
  m_num_in_rob s' = m_num_in_rob s ->
  exists j x, rob s' !! j = Some x /\ in_window s' j /\ is_done x = false /\ isBranch (mop x) && branchMispredicted (uop x) = true.
Proof.
  intros Hf' Hf Hbr Hnum. destruct (i_front _ _ _ _ Hinv Hf) as (j & x & Hj & Hw & Hd & Hb).
  assert (j <> i) as Hne by (intros ->; rewrite Hi in Hj; injection Hj as ->; by destruct (Hbr Hb)).
  destruct (finish_old j x Hj Hne) as (x' & Hx' & Hwk). exists j, x'. unfold in_window. rewrite Hnum.
  split_and!; [done|done|by rewrite (woken_done x x' Hwk)|]. rewrite (woken_mop x x' Hwk). destruct Hwk. by rewrite wk_uop.
Qed.

Lemma finish_inv :
  links None (base s) (rob s') -> entries_ok (base s) (rob s') ->
  traced s' = traced s -> m_num_in_rob s' = m_num_in_rob s -> now s' = now s ->
  nextSequenceNumber s' = nextSequenceNumber s -> registerDependencies s' = registerDependencies s ->
  memoryDependencies s' = memoryDependencies s -> m_rs_entries_used s' = m_rs_entries_used s - 1 ->
  (frontend_stalled_until s' = MaxTime -> frontend_stalled_until s = MaxTime) ->
  (isBranch (mop e) && branchMispredicted (uop e) = true -> frontend_stalled_until s' <> MaxTime) ->
  queue_ok (outstanding_loads cfg) (load_queue s') ->
  queue_ok (outstanding_stores cfg) (store_queue s') /\ slots_by (last_store_done s') (store_queue s') ->
  match m_rob_contention s' with Some c => c_period c = P | None => True end ->
  mem_inv (memory s') -> stats_ok cfg (stats s') -> inv s'.
Proof.
  intros Hl He Ht Hnum Hnow Hnext Hregs Hmem Hrs Hf Hbr Hlq Hsq Hc Hm Hst.
  pose proof (finish_program Ht) as Hp. pose proof finish_length as Hlen. pose proof (finish_unissued Hnum) as Hu.
  pose proof finish_front as Hfr.
  assert (Hb : base s' = base s) by (unfold base; by rewrite Ht).
  destruct Hinv. split; rewrite ?Hb, ?Hp, ?Hnum, ?Hnext, ?Hregs, ?Hmem, ?Hlen; try done.
  - intros j x [[-> ->]|(Hne & x0 & Hx0 & Hw)]%finish_lookup Hj; [unfold in_window in Hwin; lia|].
    rewrite (woken_done _ _ Hw). by apply (i_prerob j).
  - rewrite Hrs. split; [lia|]. destruct i_rs. lia.
  - intros j x [[-> ->]|(Hne & x0 & Hx0 & Hw)]%finish_lookup; [done|]. destruct Hw.
    destruct (i_static j x0 Hx0). rewrite wk_uop. by split.
  - intros j x [[-> ->]|(Hne & x0 & Hx0 & Hw)]%finish_lookup Hd; [congruence|].
    rewrite (woken_done _ _ Hw) in Hd. destruct Hw. rewrite wk_uop. exact (i_access j x0 Hx0 Hd).
  - unfold period. by rewrite Hnow.
  - intros E. apply Hfr; auto.
Qed.
End finish.

(** * Times *)
Definition timely (T : Z) s : Prop := 0 <= time s /\ time s + D <= T < MaxTime.

Lemma D_ge n : 0 <= n <= L + 2 -> 0 <= n * P <= D.
Proof. pose proof (co_period _ _ _ Hcfg). unfold RobInv.D. nia. Qed.

Lemma add_cycles n t : 0 <= n <= L + 2 -> 0 <= t -> t + n * P < 2 ^ 64 ->
  ComponentTime.addCycleLatency n (ComponentTime.mk P t) = ComponentTime.mk P (t + n * P).
Proof.
  intros Hn Ht Hs. pose proof (D_ge n Hn). unfold ComponentTime.addCycleLatency. simpl.
  rewrite (Z.mul_comm n). rewrite tmul_small, tadd_small by lia. done.
Qed.

Lemma now_eq s : period s = P -> now s = ComponentTime.mk P (time s).
Proof. unfold period, time. destruct (now s). simpl. by intros ->. Qed.

Lemma after_ok T n s : period s = P -> timely T s -> 0 <= n <= L + 2 -> after_cycles n s = time s + n * P.
Proof.
  intros Hp [H0 Ht] Hn. pose proof (D_ge n Hn). unfold after_cycles. rewrite (now_eq s Hp), add_cycles; [done|done|done|].
  unfold MaxTime in *. lia.
Qed.

(** * The access of the data cache *)
Lemma rounded_ok latency : 0 <= latency <= max_latency ->
  exists c, divideRounded latency P = Ok c /\ 0 <= c <= memory_cycles P.
Proof.
  intros Hl. pose proof (co_period _ _ _ Hcfg) as HP. destruct (co_small _ _ _ Hcfg) as (_ & Hm & HP32).
  pose proof (Z.div_pos P 2 ltac:(lia) ltac:(lia)). pose proof (Z.mul_div_le P 2 ltac:(lia)) as Hhalf.
  unfold divideRounded, udiv. rewrite (proj2 (Z.eqb_neq P 0)) by lia. unfold rguard. cbn [negb rbind].
  rewrite u64_small by lia. eexists. split; [done|]. split; [apply Z.div_pos; lia|]. unfold memory_cycles.
  rewrite <- (Z.div_add max_latency 1 P) by lia. apply Z.div_le_mono; lia.
Qed.

Lemma set_access_id u : 0 <= execLatency u < 2 ^ 32 -> set_access (execLatency u) (dCacheHitWhere u) u = u.
Proof. intros Hx. unfold set_access. rewrite u32_small by done. by destruct u. Qed.

Lemma data_access_step s i e :
  inv s -> rob s !! i = Some e -> is_done e = false ->
  exists lat wh m, let e1 := with_uop (set_access lat wh (uop e)) e in
    access_memory i e s = Ok (e1, with_entry i e1 (with_memory m s)) /\ 0 <= lat <= L /\ HitWhereIsValid wh = true /\ mem_inv m.
Proof.
  intros Hinv Hi Hd. pose proof (i_static _ _ _ _ Hinv i e Hi) as Hs. pose proof (co_small _ _ _ Hcfg) as (HL & _).
  pose proof (us_exec _ _ Hs) as Hx. unfold access_memory. destruct (_ && _) eqn:Hc.
  - zbool. destruct (access_data_ok (isStore (mop e)) (address (uop e)) (memoryAccessSize (mop e)) (default 0 (instruction (mop e)))
      (time s) (memory s)) as (latency & wh & m & -> & Hl & Hw & Hm); [apply Hinv|]. cbn [rbind].
    rewrite (i_period _ _ _ _ Hinv). destruct (rounded_ok latency Hl) as (c & -> & Hc'). cbn [rbind].
    exists (execLatency (uop e) + c), wh, m. split_and!; [done|lia| |done|done].
    pose proof (i_access _ _ _ _ Hinv i e Hi Hd) as Ha. unfold access_fits in Ha. fold (mop e) in Ha.
    assert (isLoad (mop e) || isStore (mop e) = true) as Hls by (by apply orb_true_iff). specialize (Ha Hls H1). lia.
  - exists (execLatency (uop e)), (dCacheHitWhere (uop e)), (memory s). cbv zeta. rewrite set_access_id by lia.
    split_and!; [|lia|lia|apply Hs|apply Hinv].
    replace (with_uop (uop e) e) with e by (by destruct e). unfold with_entry, with_memory, with_rob. simpl.
    rewrite list_insert_id by done. by destruct s.
Qed.

(** * The queues *)
Definition free_slot (t : Z) (q : ContentionModel.t) : Prop := exists y, y ∈ ContentionModel.m_time q /\ y.1 <= t.
Definition slot_added (t : Z) (q q' : ContentionModel.t) : Prop :=
  forall y, y ∈ ContentionModel.m_time q' -> y ∈ ContentionModel.m_time q \/ y.1 <= t.

Lemma slot_added_by t q q' : slot_added t q q' -> forall t', slots_by t' q -> t <= t' -> slots_by t' q'.
Proof.
  intros Ha t' Hs Ht. apply Forall_forall. intros y Hy. destruct (Ha y Hy) as [Hy'|?]; [|lia].
  exact (proj1 (Forall_forall _ _) Hs y Hy').
Qed.

Lemma queue_step T s e lat :
  period s = P -> timely T s -> queue_ok (outstanding_loads cfg) (load_queue s) -> queue_ok (outstanding_stores cfg) (store_queue s) ->
  stats_ok cfg (stats s) -> execLatency (uop e) = lat -> 0 <= lat <= L -> 0 <= address (uop e) < 2 ^ 64 - 1 ->
  (isLoad (mop e) = true -> free_slot (time s) (load_queue s)) ->
  (isStore (mop e) = true -> free_slot (time s) (store_queue s)) ->
  exists st lq sq, use_queue e s = Ok (with_stats st (with_queues lq sq s)) /\ stats_ok cfg st /\
    queue_ok (outstanding_loads cfg) lq /\ queue_ok (outstanding_stores cfg) sq /\
    slot_added (time s + lat * P) (load_queue s) lq /\
    (if isStore (mop e) then slot_added (time s + lat * P) (store_queue s) sq else sq = store_queue s).
Proof.
  intros Hp [H0 HT] Hlq Hsq Hst Hlat HL Haddr Hl Hs. pose proof (D_ge lat ltac:(lia)) as HD. unfold MaxTime in HT.
  unfold use_queue. rewrite Hp, Hlat. rewrite (tmul_small P) by lia. rewrite (Z.mul_comm P).
  assert (Htag : address (uop e) <> default_tag) by (change default_tag with (2 ^ 64 - 1); lia).
  destruct (isLoad (mop e)) eqn:Hld; [|destruct (isStore (mop e)) eqn:Hsto].
  - destruct (getCompletionTime_ok (outstanding_loads cfg) (time s) (lat * P) (address (uop e)) (load_queue s)) as (r & q & -> & Hq & Hadd);
      [done|apply Hcfg|lia..|done|by apply Hl|]. cbn [rbind].
    eexists _, q, (store_queue s). destruct (isStore (mop e)) eqn:Hsto; [by rewrite (store_not_load _ Hsto) in Hld|].
    split_and!; [done|destruct Hst; by split|done..].
  - destruct (getCompletionTime_ok (outstanding_stores cfg) (time s) (lat * P) (address (uop e)) (store_queue s)) as (r & q & -> & Hq & Hadd);
      [done|apply Hcfg|lia..|done|by apply Hs|]. cbn [rbind].
    eexists _, (load_queue s), q. split_and!; [done|destruct Hst; by split|done..|by left|done].
  - exists (stats s), (load_queue s), (store_queue s). split_and!; [by destruct s|done..|by left|done].
Qed.

(** * One entry issues *)

(** When the result of a micro-operation issued at [t] can be used, and when the
    micro-operation is done. *)
Definition result_at (v : MicroOp Inst) (t lat : Z) : Z := t + (if isStore v then 1 else lat) * P.
Definition finished_at (v : MicroOp Inst) (t lat : Z) : Z := t + (if isStore v then 1 else lat + 1) * P.
Definition finish (t lat wh : Z) e : Entry :=
  with_done t (finished_at (mop e) t lat) (with_uop (set_access lat wh (uop e)) e).
Definition clocked s : Prop := match m_rob_contention s with Some c => clock c = time s | None => True end.

Record issued_one (T : Z) (i : nat) e s s' : Prop := mkIssuedOne {
  is_inv : inv s';
  is_bounded : bounded T s';
  is_clock : clocked s';
  is_program : program s' = program s;
  is_traced : traced s' = traced s;
  is_num : m_num_in_rob s' = m_num_in_rob s;
  is_rs : m_rs_entries_used s' = m_rs_entries_used s - 1;
  is_now : now s' = now s;
  is_miss : in_icache_miss s' = in_icache_miss s;
  is_front : frontend_stalled_until s' = frontend_stalled_until s \/ frontend_stalled_until s' <= time s + L * P;
  is_rob : exists lat wh, 0 <= lat <= L /\ rob s' !! i = Some (finish (time s) lat wh e) /\
    Forall2 (woken (base s + Z.of_nat i) (result_at (mop e) (time s) lat)) (<[i := finish (time s) lat wh e]> (rob s)) (rob s')
}.

Lemma static_access lat wh u : uop_static L u -> 0 <= lat <= L -> HitWhereIsValid wh = true -> uop_static L (set_access lat wh u).
Proof. intros [] Hl Hw. pose proof (co_small _ _ _ Hcfg) as (HL & _). split; try done. simpl. rewrite u32_small; lia. Qed.

Lemma deps_access lat wh u : deps (set_access lat wh u) = deps u.
Proof. done. Qed.
Lemma wf_deps_access lat wh u : wf_deps u -> wf_deps (set_access lat wh u).
Proof. by intros []. Qed.

(** The entries after the walk over the dependants. *)
Lemma issue_links s i e lat wh :
  inv s -> rob s !! i = Some e -> is_done e = false -> deps (uop e) = [] -> 0 <= lat <= L ->
  0 <= time s -> time s + D < MaxTime ->
  exists r, wake_all i (base s + Z.of_nat i) (result_at (mop e) (time s) lat) (dependants e) (<[i := finish (time s) lat wh e]> (rob s)) = Ok r /\
    links None (base s) r /\ entries_ok (base s) r /\ r !! i = Some (finish (time s) lat wh e) /\
    Forall2 (woken (base s + Z.of_nat i) (result_at (mop e) (time s) lat)) (<[i := finish (time s) lat wh e]> (rob s)) r.
Proof.
  intros Hinv Hi Hd Hnil Hlat H0 Ht. pose proof (D_ge (lat + 1) ltac:(lia)). pose proof (D_ge 1 ltac:(lia)). pose proof (D_ge lat ltac:(lia)).
  assert (Hdone : is_done (finish (time s) lat wh e) = true).
  { unfold is_done. simpl. unfold finished_at. rewrite (proj2 (Z.eqb_neq _ _)); [done|]. destruct (isStore _); lia. }
  pose proof (i_links _ _ _ _ Hinv) as Hl.
  destruct (wake_all_ok (base s) i (result_at (mop e) (time s) lat) (finish (time s) lat wh e) (dependants e)
              (<[i := finish (time s) lat wh e]> (rob s))) as (r & Hr & Hl' & Hok' & Hw & Hri & _).
  - eapply (links_start _ _ i e); try done; [by apply wf_deps_access; eapply lk_deps|exact (lk_dependants _ _ _ Hl i e Hi)].
  - eapply (entries_start _ _ i e); try done. apply Hinv.
  - apply list_lookup_insert_eq. by eapply lookup_lt_Some.
  - done.
  - unfold result_at. destruct (isStore _); lia.
  - by exists r.
Qed.

(** The step that records when the last store is done. *)
Abbreviation with_lsd e lat s := (with_last_store_done
  (if isStore (mop e) then Z.max (last_store_done s) (time s + lat * P + P) else last_store_done s) s).

Lemma store_step T s e lat : period s = P -> timely T s -> 0 <= lat <= L -> (isStore (mop e) = true -> addressReady e <= ready e) ->
  (if isStore (mop e) then
     guard! addressReady e <=? ready e else LogError in
     Ok (with_last_store_done (Z.max (last_store_done s)
       (ComponentTime.m_time (ComponentTime.addCycleLatency 1 (ComponentTime.addCycleLatency lat (now s))))) s)
   else Ok s) = Ok (with_lsd e lat s).
Proof.
  intros Hp [H0 HT] Hlat Ha. pose proof (D_ge (lat + 1) ltac:(lia)). unfold MaxTime in HT. destruct (isStore (mop e)) eqn:Hst.
  - unfold rguard. rewrite (proj2 (Z.leb_le _ _) (Ha eq_refl)). cbn [rbind].
    rewrite (now_eq s Hp), !add_cycles by (pose proof (co_period _ _ _ Hcfg); pose proof (D_ge lat ltac:(lia)); lia).
    simpl. by rewrite (Z.mul_1_l P).
  - by destruct s.
Qed.

Lemma contention_step T s u : inv s -> timely T s -> clocked s -> bounded T s -> uop_static L u ->
  exists c, match m_rob_contention s with
            | Some c => let! c := doIssue u c in Ok (Some c)
            | None => Ok None
            end = Ok c /\
    match c with Some c => clock c = time s /\ c_period c = P /\ busy c <= T | None => True end.
Proof.
  intros Hinv [H0 HT] Hc Hb Hs. pose proof (i_contention _ _ _ _ Hinv) as Hp. pose proof (bd_contention _ _ Hb) as Hbusy.
  unfold clocked in Hc. destruct (m_rob_contention s) as [c|]; [|by exists None].
  pose proof (co_alu _ _ _ Hcfg) as Halu. pose proof (co_period _ _ _ Hcfg) as HP. pose proof (D_ge (L + 2)) as HD.
  pose proof (co_small _ _ _ Hcfg) as (HL & _).
  assert (max_alu_latency * P <= D) by (unfold RobInv.D; nia).
  destruct (do_issue_ok u c) as (c' & -> & ? & ? & ?); [apply Hs|lia|lia|rewrite Hp; unfold MaxTime in *; lia|].
  cbn [rbind]. exists (Some c'). split; [done|]. rewrite Hp in *. rewrite Hc in *. split_and!; [done|done|lia].
Qed.

(** An entry of the window that is not issued has a reservation station. *)
Lemma rs_pos s i e : inv s -> rob s !! i = Some e -> is_done e = false -> in_window s i ->
  u64 (m_rs_entries_used s - 1) = m_rs_entries_used s - 1.
Proof.
  intros Hinv Hi Hd Hwin. destruct (i_rs _ _ _ _ Hinv) as [Hrs _]. pose proof (unissued_pos (window s) i e) as Hpos.
  pose proof (i_num _ _ _ _ Hinv) as [Hnum Hnw]. pose proof (co_window _ _ _ Hcfg). unfold in_window in Hwin.
  specialize (Hpos ltac:(apply lookup_take_Some; split; [done|lia]) Hd).
  pose proof (length_filter (fun x => is_done x = false) (window s)) as Hle. fold (unissued (window s)) in Hle.
  unfold window in Hle. rewrite length_take in Hle. unfold window in *. apply u64_small. lia.
Qed.

(** The times of the result and of the end. *)
Lemma times_step T s e lat : period s = P -> timely T s -> 0 <= lat <= L ->
  (if isStore (mop e) then after_cycles 1 s else ComponentTime.m_time (ComponentTime.addCycleLatency lat (now s)))
    = result_at (mop e) (time s) lat /\
  (if isStore (mop e) then after_cycles 1 s else ComponentTime.m_time
     (ComponentTime.addCycleLatency 1 (ComponentTime.addCycleLatency lat (now s)))) = finished_at (mop e) (time s) lat.
Proof.
  intros Hp Ht Hlat. pose proof (D_ge (lat + 1) ltac:(lia)) as HD1. pose proof (D_ge lat ltac:(lia)) as HD0.
  pose proof (co_period _ _ _ Hcfg) as HP. pose proof Ht as [H0 HT]. unfold MaxTime in HT. rewrite (after_ok T 1 s Hp Ht) by lia.
  unfold result_at, finished_at. destruct (isStore _); [done|]. rewrite (now_eq s Hp), !add_cycles by lia. simpl. lia.
Qed.

Definition can_start s (i : nat) e : Prop :=
  rob s !! i = Some e /\ is_done e = false /\ in_window s i /\ ready e <= time s /\
  (isLoad (mop e) = true -> free_slot (time s) (load_queue s)) /\ (isStore (mop e) = true -> free_slot (time s) (store_queue s)).

(** The front end after a branch. *)
Abbreviation new_front e s :=
  (if isBranch (mop e) && branchMispredicted (uop e) then time s + (misprediction_penalty cfg - 2) * P else frontend_stalled_until s).

(** The state in closed form. *)
Lemma issue_form T s i e next_event :
  inv s -> bounded T s -> timely T s -> clocked s -> can_start s i e ->
  exists lat wh m st lq sq c r,
    issueInstruction cfg i next_event s =
      Ok (Z.min next_event (finished_at (mop e) (time s) lat),
          with_frontend (new_front e s) (in_icache_miss s)
            (with_rob r (with_counts (m_num_in_rob s) (m_rs_entries_used s - 1)
              (with_contention c (with_lsd e lat (with_stats st (with_queues lq sq (with_memory m s)))))))) /\
    0 <= lat <= L /\ HitWhereIsValid wh = true /\ mem_inv m /\ stats_ok cfg st /\
    queue_ok (outstanding_loads cfg) lq /\ queue_ok (outstanding_stores cfg) sq /\
    slot_added (time s + lat * P) (load_queue s) lq /\
    (if isStore (mop e) then slot_added (time s + lat * P) (store_queue s) sq else sq = store_queue s) /\
    match c with Some c => clock c = time s /\ c_period c = P /\ busy c <= T | None => True end /\
    links None (base s) r /\ entries_ok (base s) r /\ r !! i = Some (finish (time s) lat wh e) /\
    Forall2 (woken (base s + Z.of_nat i) (result_at (mop e) (time s) lat)) (<[i := finish (time s) lat wh e]> (rob s)) r.
Proof.
  intros Hinv Hb Htime Hc (Hi & Hd & Hwin & Hready & Hld & Hsto). pose proof Htime as [H0 HT].
  pose proof (i_period _ _ _ _ Hinv) as Hp. destruct (i_entries _ _ _ _ Hinv i e Hi) as [Hrok Haok].
  destruct (ready_resolved e (time s) Hrok Hd Hready) as [Hnil Hmax]; [pose proof (D_ge 0); pose proof (co_small _ _ _ Hcfg); lia|].
  destruct (data_access_step s i e Hinv Hi Hd) as (lat & wh & m & Hacc & Hlat & Hw & Hm).
  pose proof (i_static _ _ _ _ Hinv i e Hi) as Hs. pose proof (static_access lat wh (uop e) Hs Hlat Hw) as Hs1.
  set (e1 := with_uop (set_access lat wh (uop e)) e) in *. set (s1 := with_entry i e1 (with_memory m s)) in *.
  assert (Hlat1 : execLatency (uop e1) = lat) by (simpl; apply u32_small; pose proof (co_small _ _ _ Hcfg); lia).
  destruct (queue_step T s1 e1 lat) as (st & lq & sq & Hq & Hst & Hlq & Hsq & Hla & Hsa);
    [done|done|apply Hinv|apply Hinv|apply Hinv|done|done|apply Hs1|done|done|].
  set (s2 := with_stats st (with_queues lq sq s1)) in *.
  pose proof (store_step T s2 e1 lat) as Hstore.
  destruct (contention_step T s (set_access lat wh (uop e)) Hinv Htime Hc Hb Hs1) as (c & Hcont & Hcok).
  destruct (issue_links s i e lat wh) as (r & Hr & Hl & Hok & Hri & Hwk); [done|done|done|done|done|lia|lia|].
  exists lat, wh, m, st, lq, sq, c, r. cbv zeta. split; [|split_and!; first [done|lia]].
  unfold issueInstruction. rewrite (aget_Ok _ _ _ Hi). cbn [rbind]. rewrite Hacc. cbn [rbind]. rewrite Hq. cbn [rbind]. cbv zeta. rewrite Hlat1.
  rewrite Hstore; [|done|done|done|intros Hst'; pose proof (address_resolved _ _ _ Haok Hst' Hd Hnil); simpl; lia]. cbn [rbind].
  set (s3 := with_lsd e1 lat s2). destruct (times_step T s3 e1 lat Hp Htime Hlat) as [Hdep Hfin].
  change (now s2) with (now s3). change (mop e1) with (mop e) in Hdep, Hfin. change (mop e1) with (mop e). change (time s3) with (time s) in *.
  rewrite Hdep, Hfin. change (m_rob_contention s3) with (m_rob_contention s). change (uop e1) with (set_access lat wh (uop e)) at 1.
  rewrite Hcont. cbn [rbind]. change (with_done (time s) (finished_at (mop e) (time s) lat) e1) with (finish (time s) lat wh e).
  rewrite (all_dependants_ok (finish (time s) lat wh e)) by (exact (lk_dependants _ _ _ (i_links _ _ _ _ Hinv) i e Hi)). cbn [rbind].
  change (dependants (finish (time s) lat wh e)) with (dependants e).
  replace (seq_of (finish (time s) lat wh e)) with (base s + Z.of_nat i)
    by (symmetry; exact (proj2 (proj2 (lk_numbered _ _ _ (i_links _ _ _ _ Hinv))) i e Hi)).
  replace (rob _) with (<[i := finish (time s) lat wh e]> (rob s)) by (simpl; by rewrite list_insert_insert_eq).
  rewrite Hr. cbn [rbind].
  pose proof (rs_pos s i e Hinv Hi Hd Hwin) as Hrs.
  match goal with |- context [u64 ?x] => change x with (m_rs_entries_used s - 1) end.
  change (mop (finish (time s) lat wh e)) with (mop e). unfold isBranchMispredicted.
  change (m_uop (uop (finish (time s) lat wh e))) with (mop e).
  destruct (isBranch (mop e)); unfold rguard; cbn [rbind andb].
  - pose proof (co_penalty _ _ _ Hcfg) as Hpen. rewrite (u64_small (misprediction_penalty cfg - 2)) by (pose proof (co_small _ _ _ Hcfg); lia).
    rewrite (after_ok T (misprediction_penalty cfg - 2)) by (done || lia). rewrite Hrs.
    change (branchMispredicted (uop (finish (time s) lat wh e))) with (branchMispredicted (uop e)). by destruct (branchMispredicted (uop e)).
  - by rewrite Hrs.
Qed.

Lemma bounded_woken T n depend x x' : times_ok T x -> woken n depend x x' -> depend <= T -> times_ok T x'.
Proof.
  intros [] [] Hd. destruct wk_changed as [-> |(_ & Hm & Hr)]; [by split|]. split.
  - lia.
  - destruct Hr as [Hr|Hr]; rewrite Hr; [done|right; lia].
  - unfold is_done. rewrite wk_done. exact to_done.
Qed.

Lemma issue_ok T s i e next_event :
  inv s -> bounded T s -> timely T s -> clocked s -> can_start s i e ->
  exists t s', issueInstruction cfg i next_event s = Ok (Z.min next_event t, s') /\ time s < t <= T /\ issued_one T i e s s'.
Proof.
  intros Hinv Hb Htime Hc Hcan.
  destruct (issue_form T s i e next_event Hinv Hb Htime Hc Hcan)
    as (lat & wh & m & st & lq & sq & c & r & -> & Hlat & Hwh & Hm & Hst & Hlq & Hsq & Hla & Hsa & Hcok & Hl & Hok & Hri & Hwk).
  destruct Hcan as (Hi & Hd & Hwin & _). pose proof Htime as [H0 HT]. pose proof (co_period _ _ _ Hcfg) as HP.
  pose proof (D_ge (lat + 1) ltac:(lia)). pose proof (D_ge lat ltac:(lia)). pose proof (D_ge 1 ltac:(lia)).
  assert (Hfin : time s < finished_at (mop e) (time s) lat <= T) by (unfold finished_at; destruct (isStore _); nia).
  assert (Hdep : result_at (mop e) (time s) lat <= T) by (unfold result_at; destruct (isStore _); nia).
  eexists _, _. split; [done|]. split; [done|]. set (s' := with_frontend _ _ _).
  assert (Hdone : is_done (finish (time s) lat wh e) = true).
  { unfold is_done. simpl. rewrite (proj2 (Z.eqb_neq _ _)); [done|lia]. }
  pose proof (co_penalty _ _ _ Hcfg) as Hpen. pose proof (D_ge L ltac:(lia)). pose proof (D_ge (misprediction_penalty cfg - 2) ltac:(lia)).
  assert (Hfront : frontend_stalled_until s' = frontend_stalled_until s \/ frontend_stalled_until s' <= time s + L * P).
  { simpl. destruct (_ && _); [right; nia|by left]. }
  assert (Hstores : queue_ok (outstanding_stores cfg) sq /\ slots_by (last_store_done s') (store_queue s')).
  { split; [done|]. destruct (i_stores _ _ _ _ Hinv) as [_ Hby]. simpl. change (time _) with (time s). destruct (isStore (mop e)).
    - eapply slot_added_by; [exact Hsa| |lia]. eapply slots_by_mono; [done|]. lia.
    - by subst sq. }
  split; try done.
  - eapply (finish_inv s s' i e (finish (time s) lat wh e)); try done.
    + apply static_access; [exact (i_static _ _ _ _ Hinv i e Hi)|done|done].
    + intros E. destruct Hfront; [congruence|lia].
    + simpl. intros Hbr. rewrite Hbr. change (time _) with (time s). lia.
    + simpl. by destruct c as [c|]; [destruct Hcok as (_ & ? & _)|].
  - destruct Hb as [Hbe Hbs Hbl Hbc]. split.
    + intros j x Hx. destruct (finish_lookup s s' i _ _ _ Hwk Hri j x Hx) as [[-> ->]|(_ & x0 & Hx0 & Hw)].
      * destruct (Hbe i e Hi). split; [done..|]. intros _. simpl. lia.
      * eapply bounded_woken; [by apply (Hbe j)|done|done].
    + simpl. change (time _) with (time s). destruct (isStore _); lia.
    + simpl. eapply slot_added_by; [exact Hla|done|lia].
    + simpl. by destruct c as [c|]; [destruct Hcok as (_ & _ & ?)|].
  - unfold clocked. simpl. by destruct c as [c|]; [destruct Hcok as (? & _)|].
  - eapply (finish_program s s' i e (finish (time s) lat wh e)); done.
  - by exists lat, wh.
Qed.
End issue.
