(* ===== verification/RobWindow.v ===== *)
(** The walk over the window that issues what can issue: it never fails, it is a
    sequence of issues and of changes nothing depends on, and an entry at the head
    that is ready always issues. *)
From stdpp Require Import base numbers list sets relations.
From Stdlib Require Import ZArith Lia Bool.
From S2P Require Import Prelude Timing Queues QueueLemmas MicroOp Dependencies RobDeps RobContention RobTimer RobEntries RobWake RobEnter RobInv RobArrive RobIssue.
Open Scope Z_scope.

Section window.
Context {Inst Info C M : Type} `{Decoder Inst} `{!DataMemory M} `{!DataMemoryLaws M}
  `{!RobContention C (DynamicMicroOp Inst Info)} `{!RobContentionLaws C Inst Info}.
Abbreviation Dyn := (DynamicMicroOp Inst Info).
Abbreviation Entry := (RobEntry Inst Info).
Abbreviation Timer := (RobTimer Inst Info C M).
Implicit Types s : Timer.
Implicit Types e x : Entry.
Implicit Types u : Dyn.
Variable cfg : RobConfig.
Variables (P L : Z).
Hypothesis Hcfg : config_ok cfg P L.
Abbreviation inv := (inv cfg P L).
Abbreviation D := (D P L).
Abbreviation timely := (timely P L).

(** * Changes nothing depends on *)

(** Counters of the queues, ports taken in this cycle, statistics. *)
Record quiet s s' : Prop := mkQuiet {
  qu_state : exists st c lq sq, s' = with_stats st (with_contention c (with_queues lq sq s));
  qu_loads : ContentionModel.m_time (load_queue s') = ContentionModel.m_time (load_queue s);
  qu_loads_ok : queue_ok (outstanding_loads cfg) (load_queue s) -> queue_ok (outstanding_loads cfg) (load_queue s');
  qu_stores : ContentionModel.m_time (store_queue s') = ContentionModel.m_time (store_queue s);
  qu_stores_ok : queue_ok (outstanding_stores cfg) (store_queue s) -> queue_ok (outstanding_stores cfg) (store_queue s');
  qu_contention : match m_rob_contention s, m_rob_contention s' with
                  | Some c, Some c' => clock c' = clock c /\ busy c' = busy c /\ c_period c' = c_period c
                  | None, None => True
                  | _, _ => False
                  end;
  qu_stats : stats_ok cfg (stats s) -> stats_ok cfg (stats s')
}.

Lemma walk_quiet_refl s : quiet s s.
Proof.
  split; try done; [exists (stats s), (m_rob_contention s), (load_queue s), (store_queue s); by destruct s|].
  by destruct (m_rob_contention s).
Qed.

Lemma quiet_trans s1 s2 s3 : quiet s1 s2 -> quiet s2 s3 -> quiet s1 s3.
Proof.
  intros [(? & ? & ? & ? & ->)] [(? & ? & ? & ? & ->)]. split; simpl in *; try congruence; auto.
  - by eexists _, _, _, _.
  - destruct (m_rob_contention s1); repeat case_match; try done. intuition congruence.
Qed.

Lemma quiet_inv s s' : quiet s s' -> inv s -> inv s'.
Proof.
  intros [(st & c & lq & sq & ->)] []. simpl in *. split; simpl; auto.
  - destruct i_stores. split; [auto|]. unfold slots_by in *. congruence.
  - destruct (m_rob_contention s); destruct c; try done. intuition congruence.
Qed.

Lemma quiet_bounded T s s' : quiet s s' -> bounded T s -> bounded T s'.
Proof.
  intros [(st & c & lq & sq & ->)] []. simpl in *. split; simpl; auto.
  - unfold slots_by in *. congruence.
  - destruct (m_rob_contention s); destruct c; try done. intuition lia.
Qed.

Lemma quiet_clocked s s' : quiet s s' -> clocked s -> clocked s'.
Proof.
  intros [(st & c & lq & sq & ->)]. unfold clocked. simpl in *. change (time _) with (time s).
  destruct (m_rob_contention s); destruct c; try done. intuition congruence.
Qed.

(** * The conditions *)
Lemma load_slot s b s' : inv s -> free_slot_load s = (b, s') ->
  quiet s s' /\ (b = true -> free_slot (time s) (load_queue s')).
Proof.
  intros Hinv. unfold free_slot_load. destruct (ContentionModel.hasFreeSlot _ _ _) as [b' q] eqn:Hf. intros [= <- <-].
  destruct (hasFreeSlot_ok _ _ _ _ _ (i_loads _ _ _ _ Hinv) Hf) as (Hq & Hm & Hb). split.
  - split; simpl; try done; [by exists (stats s), (m_rob_contention s), q, (store_queue s)|]. by destruct (m_rob_contention s).
  - intros ->. unfold free_slot. simpl. rewrite Hm. by apply Hb.
Qed.

Lemma store_slot s b s' : inv s -> free_slot_store s = (b, s') ->
  quiet s s' /\ (b = true -> free_slot (time s) (store_queue s')).
Proof.
  intros Hinv. unfold free_slot_store. destruct (ContentionModel.hasFreeSlot _ _ _) as [b' q] eqn:Hf. intros [= <- <-].
  destruct (hasFreeSlot_ok _ _ _ _ _ (proj1 (i_stores _ _ _ _ Hinv)) Hf) as (Hq & Hm & Hb). split.
  - split; simpl; try done; [by exists (stats s), (m_rob_contention s), (load_queue s), q|]. by destruct (m_rob_contention s).
  - intros ->. unfold free_slot. simpl. rewrite Hm. by apply Hb.
Qed.

(** After the last store is done, all slots for stores are free. *)
Lemma stores_free t n q : queue_ok n q -> 1 <= n -> slots_by t q -> free_slot t q.
Proof.
  intros (_ & Hlen & _) Hn Hs. unfold slots_by in Hs. unfold free_slot.
  destruct (ContentionModel.m_time q) as [|y l]; [simpl in Hlen; lia|]. apply Forall_cons in Hs as [Hy _].
  exists y. split; [by left|done].
Qed.

Lemma consider_ok e sc s v sc' s' :
  inv s -> uop_static L (uop e) -> consider cfg e sc s = (v, sc', s') ->
  quiet s s' /\ (v = CanIssue -> ready e <= time s /\
    (isLoad (mop e) = true -> free_slot (time s) (load_queue s')) /\ (isStore (mop e) = true -> free_slot (time s) (store_queue s'))).
Proof.
  intros Hinv Hs. unfold consider. destruct (Z.ltb_spec (time s) (ready e)) as [|Hready]; [intros [= <- <- <-]; by split; [apply walk_quiet_refl|]|].
  destruct (_ || _); [intros [= <- <- <-]; by split; [apply walk_quiet_refl|]|].
  assert (Hdone : last_store_done s <= time s -> free_slot (time s) (store_queue s)).
  { intros Hl. destruct (i_stores _ _ _ _ Hinv) as [Hq Hby]. eapply stores_free; [done|apply Hcfg|by eapply slots_by_mono]. }
  assert (Hbar : isSerializing (mop e) = true \/ isMemBarrier (mop e) = true -> isLoad (mop e) = false).
  { intros Hb. destruct (isLoad (mop e)) eqn:Hl; [|done]. destruct (us_load _ _ Hs Hl) as [H1 H2]. fold (mop e) in H1, H2. destruct Hb; congruence. }
  destruct (isSerializing (mop e)) eqn:Hser; [|destruct (isMemBarrier (mop e)) eqn:Hmb].
  - intros [= <- <- <-]. split; [apply walk_quiet_refl|]. destruct (_ && _) eqn:Hc; [|done]. zbool. intros _.
    rewrite Hbar by (by left). split_and!; [done|done|auto].
  - destruct (_ && _) eqn:Hc; intros [= <- <- <-]; (split; [apply walk_quiet_refl|]); [|done]. zbool. intros _.
    rewrite Hbar by (by right). split_and!; [done|done|auto].
  - destruct (_ && (num_issued sc =? _)); [intros [= <- <- <-]; by split; [apply walk_quiet_refl|]|].
    set (ld := if isLoad (mop e) then _ else _). destruct ld as [full1 s1] eqn:Hld.
    assert (H1 : quiet s s1 /\ (full1 = false -> isLoad (mop e) = true -> free_slot (time s) (load_queue s1))).
    { subst ld. destruct (isLoad (mop e)); [|injection Hld as <- <-; split; [apply walk_quiet_refl|done]].
      destruct (free_slot_load s) as [b s1'] eqn:Hf. injection Hld as <- <-. destruct (load_slot s b s1' Hinv Hf) as [Hq Hb].
      split; [done|]. destruct b; [auto|done]. }
    destruct H1 as [Hq1 Hl1]. destruct full1; [intros [= <- <- <-]; by split|].
    destruct (_ && have_unresolved_store sc); [intros [= <- <- <-]; by split|].
    assert (Ht : time s1 = time s) by (by destruct Hq1 as [(? & ? & ? & ? & ->)]).
    destruct (isStore (mop e)) eqn:Hst.
    + rewrite (store_not_load _ Hst). destruct (head_of_queue sc); cbn [negb]; [|intros [= <- <- <-]; by split].
      destruct (free_slot_store s1) as [b s2] eqn:Hf. intros [= <- <- <-].
      destruct (store_slot s1 b s2 (quiet_inv _ _ Hq1 Hinv) Hf) as [Hq2 Hb]. split; [by eapply quiet_trans|].
      destruct b; [|done]. intros _. rewrite Ht in Hb. split_and!; [done|done|auto].
    + intros [= <- <- <-]. split; [done|]. intros _. split_and!; [done|auto|done].
Qed.

Lemma ask_port_ok e v s v' s' : ask_port e v s = (v', s') -> quiet s s' /\ (v' = CanIssue -> v = CanIssue).
Proof.
  unfold ask_port. destruct v; [|by intros [= <- <-]; split; [apply walk_quiet_refl|]..].
  destruct (m_rob_contention s) as [c|] eqn:Hc; [|intros [= <- <-]; by split; [apply walk_quiet_refl|]].
  destruct (tryIssue (uop e) c) as [b c'] eqn:Ht. intros [= <- <-]. split; [|done].
  pose proof (try_keeps (uop e) c) as Hk. rewrite Ht in Hk. simpl in Hk.
  split; simpl; try done; [by exists (stats s), (Some c'), (load_queue s), (store_queue s)|]. by rewrite Hc.
Qed.

(** * The walk *)
Record good (T : Z) s : Prop := mkGood {
  g_inv : inv s;
  g_bounded : bounded T s;
  g_timely : timely T s;
  g_clocked : clocked s
}.

Inductive walk1 (T : Z) : Timer -> Timer -> Prop :=
  | walk_quiet s s' : quiet s s' -> walk1 T s s'
  | walk_issue s s' i e : can_start s i e -> issued_one cfg P L T i e s s' -> walk1 T s s'.

Lemma quiet_good T s s' : quiet s s' -> good T s -> good T s'.
Proof.
  intros Hq []. split; [by eapply quiet_inv|by eapply quiet_bounded| |by eapply quiet_clocked].
  by destruct Hq as [(? & ? & ? & ? & ->)].
Qed.

Lemma quiet_same s s' : quiet s s' -> rob s' = rob s /\ m_num_in_rob s' = m_num_in_rob s /\ now s' = now s /\ traced s' = traced s /\
  frontend_stalled_until s' = frontend_stalled_until s /\ in_icache_miss s' = in_icache_miss s.
Proof. by intros [(? & ? & ? & ? & ->)]. Qed.

Lemma issued_good T i e s s' : issued_one cfg P L T i e s s' -> good T s -> good T s'.
Proof.
  intros [] []. split; [done..| |done]. unfold RobIssue.timely, time in *. by rewrite is_now.
Qed.

Lemma walk1_good T s s' : walk1 T s s' -> good T s -> good T s'.
Proof. intros []; [by eapply quiet_good|by eapply issued_good]. Qed.

Lemma walk_good T s s' : rtc (walk1 T) s s' -> good T s -> good T s'.
Proof. induction 1; eauto using walk1_good. Qed.

Lemma walk1_num T s s' : walk1 T s s' -> m_num_in_rob s' = m_num_in_rob s /\ now s' = now s.
Proof. intros [???Hq|????? []]; [by destruct (quiet_same _ _ Hq) as (_ & ? & ? & _)|done]. Qed.

Lemma walk_num T s s' : rtc (walk1 T) s s' -> m_num_in_rob s' = m_num_in_rob s /\ now s' = now s.
Proof. induction 1 as [|? ? ? Hw _ [IH1 IH2]]; [done|]. destruct (walk1_num _ _ _ Hw). split; congruence. Qed.

(** A time that is known is at most [T]. *)
Definition known (T t : Z) : Prop := t = MaxTime \/ t <= T.
Lemma known_min T a b : known T a -> known T b -> known T (Z.min a b).
Proof. unfold known. lia. Qed.

Lemma issue_entry_ok T s i e next_event : good T s -> can_start s i e ->
  exists t s1 s', issue_entry cfg i next_event s = Ok (Z.min next_event t, s') /\ t <= T /\
    issued_one cfg P L T i e s s1 /\ quiet s1 s'.
Proof.
  intros [] Hcan. unfold issue_entry.
  destruct (issue_ok cfg P L Hcfg T s i e next_event) as (t & s1 & -> & Ht & Hio); [done..|]. cbn [rbind].
  destruct (is_rob _ _ _ _ _ _ _ _ Hio) as (lat & wh & _ & Hri & _). rewrite (aget_Ok _ _ _ Hri). cbn [rbind].
  exists t, s1. destruct (isLoad _) eqn:Hl.
  - unfold isLongLatencyLoad. fold (mop (finish P (time s) lat wh e)). rewrite Hl. unfold rguard. cbn [rbind].
    eexists. split; [done|]. split_and!; [lia|done|]. destruct (_ && _); [|apply walk_quiet_refl].
    split; simpl; try done; [by eexists _, (m_rob_contention s1), (load_queue s1), (store_queue s1); destruct s1|].
    by destruct (m_rob_contention s1).
  - exists s1. split_and!; [done|lia|done|apply walk_quiet_refl].
Qed.

Lemma issue_loop_ok T : forall n i sc next_event s,
  good T s -> (i + n)%nat = Z.to_nat (m_num_in_rob s) -> known T next_event ->
  exists t s', issue_loop cfg n i sc next_event s = Ok (t, s') /\ rtc (walk1 T) s s' /\ known T t.
Proof.
  induction n as [|n IH]; intros i sc ne s Hg Hn Hk; cbn [issue_loop]; [by exists ne, s|].
  pose proof (g_inv _ _ Hg) as Hinv. pose proof (i_num _ _ _ _ Hinv) as Hnum.
  destruct (lookup_lt_is_Some_2 (rob s) i) as [e He]; [lia|]. rewrite He. cbn [of_option rbind].
  pose proof (bd_entries _ _ (g_bounded _ _ Hg) i e He) as [Hrm Hrd Hdn].
  destruct (is_done e) eqn:Hd; [apply IH; [done|lia|apply known_min; [done|by right; apply Hdn]]|].
  assert (Hk1 : known T (Z.min ne (ready e))) by (by apply known_min).
  destruct (consider cfg e sc s) as [[v sc1] s1] eqn:Hcon.
  destruct (consider_ok e sc s v sc1 s1 Hinv (i_static _ _ _ _ Hinv i e He) Hcon) as [Hq1 Hv].
  destruct (ask_port e v s1) as [v2 s2] eqn:Hask. destruct (ask_port_ok e v s1 v2 s2 Hask) as [Hq2 Hv2].
  pose proof (quiet_good _ _ _ Hq1 Hg) as Hg1. pose proof (quiet_good _ _ _ Hq2 Hg1) as Hg2.
  pose proof (quiet_trans _ _ _ Hq1 Hq2) as Hq. destruct (quiet_same _ _ Hq) as (Hrob & Hnum2 & Hnow & _).
  assert (Hw2 : rtc (walk1 T) s s2) by (by apply rtc_once, walk_quiet).
  destruct v2.
  - assert (Hcan : can_start s2 i e).
    { destruct (Hv (Hv2 eq_refl)) as (Hr & Hl & Hs). unfold can_start, in_window, time in *. rewrite Hrob, Hnum2, Hnow.
      unfold free_slot in *. rewrite (qu_loads _ _ Hq2), (qu_stores _ _ Hq2). split_and!; [done..|lia|done|done|done]. }
    destruct (issue_entry_ok T s2 i e (Z.min ne (ready e)) Hg2 Hcan) as (t & s3 & s4 & -> & Ht & Hio & Hq4). cbn [rbind].
    assert (Hw4 : rtc (walk1 T) s s4).
    { etransitivity; [exact Hw2|]. eapply rtc_l; [by eapply walk_issue|]. by apply rtc_once, walk_quiet. }
    assert (Hk4 : known T (Z.min (Z.min ne (ready e)) t)) by (apply known_min; [done|by right]).
    destruct (walk_ends _ _ _); [by eexists _, _|].
    destruct (IH (S i) (mkScan (u64 (num_issued sc1 + 1)) (head_of_queue sc1) (no_more_load sc1) (no_more_store sc1)
                (have_unresolved_store sc1)) (Z.min (Z.min ne (ready e)) t) s4 (walk_good _ _ _ Hw4 Hg)) as (t' & s' & -> & Hw' & Hk'); [|exact Hk4|].
    { rewrite (proj1 (walk_num _ _ _ Hw4)). lia. }
    exists t', s'. split_and!; [done|by etransitivity|done].
  - destruct (inorder cfg); [by eexists _, _|]. destruct (walk_ends _ _ _); [by eexists _, _|].
    edestruct (IH (S i)) as (t' & s' & -> & Hw' & Hk'); [exact Hg2|rewrite Hnum2; lia|exact Hk1|].
    exists t', s'. split_and!; [done|by etransitivity|done].
  - by eexists _, _.
Qed.
End window.
