(* ===== verification/RobDispatch.v ===== *)
(** Dispatch: entries move into the window in order, at most [dispatchWidth] in a
    cycle, as long as there are reservation stations. *)
From stdpp Require Import base numbers list sets relations.
From Stdlib Require Import ZArith Lia Bool.
From S2P Require Import Prelude Timing Queues QueueLemmas MicroOp Dependencies RobDeps RobContention RobTimer RobEntries RobWake RobEnter RobInv RobArrive RobIssue RobWindow.
Open Scope Z_scope.

Section dispatch.
Context {Inst Info C M : Type} `{Decoder Inst} `{!DataMemory M} `{!DataMemoryLaws M}
  `{!RobContention C (DynamicMicroOp Inst Info)} `{!RobContentionLaws C Inst Info}.
Abbreviation Dyn := (DynamicMicroOp Inst Info).
Abbreviation Entry := (RobEntry Inst Info).
Abbreviation Timer := (RobTimer Inst Info C M).
Implicit Types s : Timer.
Implicit Types e x : Entry.
Implicit Types u : Dyn.
Variable cfg : RobConfig.
Variables (P L : Z).
Hypothesis Hcfg : config_ok cfg P L.
Abbreviation inv := (inv cfg P L).
Abbreviation D := (D P L).
Abbreviation timely := (timely P L).

(** * An entry whose links do not change *)
Definition same_links e e' : Prop :=
  uop e' = uop e /\ inlineDependants e' = inlineDependants e /\ vectorDependants e' = vectorDependants e /\ done_ e' = done_ e.

Lemma same_links_waiting h k e e' : same_links e e' -> waiting h k e' = waiting h k e.
Proof. intros (_ & Hi & Hv & Hd). unfold waiting, is_done, dependants. by rewrite Hi, Hv, Hd. Qed.

Lemma links_same (b : Z) (l : list Entry) i e e' :
  l !! i = Some e -> same_links e e' -> links None b l -> links None b (<[i := e']> l).
Proof.
  intros Hi Hs [Hnum Hwd Hwp Hsmall Holder Hiss Hcount Hrange]. pose proof Hs as (Hu & Hin & Hvec & Hdn).
  assert (Hlook : forall k x', <[i := e']> l !! k = Some x' -> exists x, l !! k = Some x /\ same_links x x').
  { intros k x' [[-> ->]|[_ Hx]]%insert_cases; [by exists e|by exists x']. }
  assert (Hold : forall k x, l !! k = Some x -> exists x', <[i := e']> l !! k = Some x' /\ same_links x x').
  { intros k x Hx. destruct (decide (k = i)) as [->|Hne].
    - rewrite Hi in Hx. injection Hx as <-. exists e'. split; [|done]. apply list_lookup_insert_eq. by eapply lookup_lt_Some.
    - exists x. by rewrite list_lookup_insert_ne. }
  split.
  - eapply numbered_insert; [done..|]. unfold seq_of. by rewrite Hu.
  - intros k x (y & Hy & -> & _)%Hlook. by apply (Hwd k).
  - intros k x (y & Hy & _ & H1 & H2 & _)%Hlook. unfold wf_dependants. rewrite H1, H2. by apply (Hwp k).
  - intros k x (y & Hy & Hu' & _)%Hlook. unfold mop. rewrite Hu'. by apply (Hsmall k).
  - intros j x d (y & Hy & -> & _)%Hlook Hd. destruct (Holder j y d Hy Hd) as (k & z & Hz & Hlt & -> & Hw).
    destruct (Hold k z Hz) as (z' & Hz' & Hsz). exists k, z'. rewrite (same_links_waiting _ _ _ _ Hsz). done.
  - intros j x (y & Hy & -> & _ & _ & Hd)%Hlook. unfold is_done. rewrite Hd. by apply (Hiss j).
  - intros k x j y w (x0 & Hx0 & Hsx)%Hlook (y0 & Hy0 & -> & _)%Hlook. rewrite (same_links_waiting _ _ _ _ Hsx). by apply (Hcount k).
  - intros k x w d (x0 & Hx0 & Hsx)%Hlook. rewrite (same_links_waiting _ _ _ _ Hsx). intros Hw Hd.
    destruct (Hrange k x0 w d Hx0 Hw Hd) as (j & y & Hy & ->). destruct (Hold j y Hy) as (y' & Hy' & _). by exists j, y'.
Qed.

(** * One entry *)
Definition dispatched_entry (t : Z) e : Entry :=
  let e := with_dispatched t e in with_ready (Z.max (ready e) (t + P)) (readyMax e) e.

(** The state after the entry [e], the first one that is not in the window, was dispatched. *)
Definition dispatched_state e s : Timer :=
  with_counts (m_num_in_rob s + 1) (m_rs_entries_used s + 1) (with_entry (Z.to_nat (m_num_in_rob s)) (dispatched_entry (time s) e) s).

Lemma dispatched_links t e : same_links e (dispatched_entry t e).
Proof. done. Qed.

Lemma dispatch_window s e : 0 <= m_num_in_rob s -> rob s !! Z.to_nat (m_num_in_rob s) = Some e ->
  window (dispatched_state e s) = window s ++ [dispatched_entry (time s) e].
Proof.
  intros Hnum He. unfold window. simpl.
  rewrite Z2Nat.inj_add by lia. change (Z.to_nat 1) with 1%nat. rewrite Nat.add_1_r.
  rewrite (take_S_r _ _ (dispatched_entry (time s) e)) by (apply list_lookup_insert_eq; by eapply lookup_lt_Some).
  by rewrite take_insert_ge by lia.
Qed.

Lemma dispatch_program s e : rob s !! Z.to_nat (m_num_in_rob s) = Some e -> program (dispatched_state e s) = program s.
Proof.
  intros He. unfold program. simpl. f_equal. rewrite list_fmap_insert. apply list_insert_id. by rewrite list_lookup_fmap, He.
Qed.

Lemma dispatch_inv T s e :
  inv s -> bounded T s -> timely T s -> rob s !! Z.to_nat (m_num_in_rob s) = Some e -> m_num_in_rob s < windowSize cfg ->
  m_rs_entries_used s < rsEntries cfg -> inv (dispatched_state e s) /\ bounded T (dispatched_state e s).
Proof.
  intros Hinv Hb [H0 HT] He Hw Hrs. set (i := Z.to_nat (m_num_in_rob s)) in *.
  pose proof (dispatch_window s e (proj1 (proj1 (i_num _ _ _ _ Hinv))) He) as Hwin. pose proof (dispatch_program s e He) as Hprog.
  pose proof (D_ge cfg P L Hcfg 1) as HD. pose proof (co_small _ _ _ Hcfg) as (HL & _). specialize (HD ltac:(lia)).
  pose proof (i_num _ _ _ _ Hinv) as [Hnum _]. pose proof (lookup_lt_Some _ _ _ He) as Hlt. rewrite Z.mul_1_l in HD.
  assert (Hieq : Z.of_nat i = m_num_in_rob s) by (subst i; lia).
  assert (Hnd : is_done e = false) by (eapply (i_prerob _ _ _ _ Hinv i e He); lia).
  assert (Hlook : forall j x, rob (dispatched_state e s) !! j = Some x -> (j = i /\ x = dispatched_entry (time s) e) \/ (j <> i /\ rob s !! j = Some x))
    by (intros j x; apply insert_cases).
  pose proof (bd_entries _ _ Hb i e He) as [Hrm Hrd Hdn].
  destruct (i_entries _ _ _ _ Hinv i e He) as [Hrok Haok]. split.
  - destruct Hinv. split; rewrite ?Hprog; try done.
    + by eapply links_same.
    + eapply entries_ok_insert; [done|done|done| |exact Haok]. intros _. destruct (Hrok Hnd) as (H1 & H2 & H3).
      simpl. split_and!; [done|intros E; specialize (H2 E); lia|intros E; rewrite (H3 E); lia].
    + simpl. by rewrite length_insert.
    + simpl. rewrite length_insert. lia.
    + simpl. by rewrite length_insert.
    + intros j x [[-> ->]|[_ Hx]]%Hlook Hj; [simpl in Hj; lia|]. simpl in Hj. apply (i_prerob j); [done|lia].
    + rewrite Hwin. unfold unissued. rewrite filter_app, length_app, filter_cons, decide_True by done. simpl.
      destruct i_rs as [Hrs0 _]. unfold unissued in Hrs0. lia.
    + intros j x [[-> ->]|[_ Hx]]%Hlook; [exact (i_static i e He)|by apply (i_static j)].
    + intros j x [[-> ->]|[_ Hx]]%Hlook Hd; [exact (i_access i e He Hnd)|by apply (i_access j)].
    + intros Hf. destruct (i_front Hf) as (j & x & Hj & Hjw & Hd & Hbr). unfold in_window in *.
      exists j, x. simpl. rewrite list_lookup_insert_ne by lia. split_and!; [done|lia|done|done].
  - destruct Hb. split; [|done..]. intros j x [[-> ->]|[_ Hx]]%Hlook; [|by apply (bd_entries j)].
    split; [done|simpl; destruct Hrd; [left|right]; lia|done].
Qed.

(** * The front end *)
Lemma front_inv f m s : inv s ->
  (f = MaxTime -> exists i e, rob s !! i = Some e /\ in_window s i /\ is_done e = false /\ isBranch (mop e) && branchMispredicted (uop e) = true) ->
  inv (with_frontend f m s).
Proof. by intros [] Hf; split. Qed.

Lemma front_bounded T f m s : bounded T s -> bounded T (with_frontend f m s).
Proof. by intros []. Qed.

Inductive dispatch1 : Timer -> Timer -> Prop :=
  | dispatch_entry s e : rob s !! Z.to_nat (m_num_in_rob s) = Some e -> is_done e = false -> 0 <= m_num_in_rob s ->
      dispatch1 s (dispatched_state e s)
  | dispatch_front s f m : dispatch1 s (with_frontend f m s)
  | dispatch_stall s c : dispatch1 s (with_stall c s).

(** What a call of the loop leaves. *)
Record dispatched_by (T k : Z) s s' : Prop := mkDispatchedBy {
  db_inv : inv s';
  db_bounded : bounded T s';
  db_now : now s' = now s;
  db_steps : rtc dispatch1 s s';
  db_num : m_num_in_rob s <= m_num_in_rob s' <= m_num_in_rob s + dispatchWidth cfg - k;
  db_length : length (rob s') = length (rob s);
  db_contention : m_rob_contention s' = m_rob_contention s;
  db_front : frontend_stalled_until s' = frontend_stalled_until s \/ frontend_stalled_until s' = MaxTime \/
             frontend_stalled_until s' <= time s + L * P
}.

Lemma cpi_at_ok c h : 0 <= h < NUM_WHERES -> cpi_at c h = Ok (c h).
Proof. intros Hh. unfold cpi_at, rguard. by rewrite (proj2 (Z.leb_le _ _)), (proj2 (Z.ltb_lt _ _)) by lia. Qed.

Lemma dispatched_stop T k s m : inv s -> bounded T s -> k <= dispatchWidth cfg -> frontend_stalled_until s <> MaxTime ->
  dispatched_by T k s (with_frontend (frontend_stalled_until s) m s).
Proof.
  intros Hinv Hb Hk Hf. split; try done; [by apply front_inv|by apply front_bounded|apply rtc_once; constructor|simpl; lia|by left].
Qed.

Lemma dispatched_self T k s : inv s -> bounded T s -> k <= dispatchWidth cfg -> dispatched_by T k s s.
Proof. intros Hinv Hb Hk. split; try done; [lia|by left]. Qed.

Lemma dispatched_more T k s s1 s' :
  rtc dispatch1 s s1 -> now s1 = now s -> m_num_in_rob s1 = m_num_in_rob s + 1 ->
  length (rob s1) = length (rob s) -> m_rob_contention s1 = m_rob_contention s -> frontend_stalled_until s1 = frontend_stalled_until s ->
  dispatched_by T (k + 1) s1 s' -> dispatched_by T k s s'.
Proof.
  intros Hs Hnow Hn Hlen Hc Hf []. split; try done; try congruence; [by etransitivity|lia|].
  unfold time in *. rewrite Hnow, Hf in *. done.
Qed.

Lemma dispatch_state_eq T s e : inv s -> timely T s -> m_num_in_rob s < windowSize cfg ->
  let e1 := with_dispatched (time s) e in
  let e2 := with_ready (Z.max (ready e1) (after_cycles 1 s)) (readyMax e1) e1 in
  e2 = dispatched_entry (time s) e /\
  with_counts (u64 (m_num_in_rob s + 1)) (u64 (m_rs_entries_used s + 1)) (with_entry (Z.to_nat (m_num_in_rob s)) e2 s) = dispatched_state e s.
Proof.
  intros Hinv Ht Hw. cbv zeta. pose proof (co_small _ _ _ Hcfg) as (HL & _).
  rewrite (after_ok cfg P L Hcfg T 1 s) by (done || lia || apply Hinv).
  rewrite Z.mul_1_l. pose proof (co_window _ _ _ Hcfg). pose proof (i_num _ _ _ _ Hinv) as [Hnum _].
  destruct (i_rs _ _ _ _ Hinv) as [Hrs _].
  pose proof (length_filter (fun x => is_done x = false) (window s)) as Hle. fold (unissued (window s)) in Hle.
  unfold window in Hle at 2. rewrite length_take in Hle. rewrite !u64_small by lia. done.
Qed.

(** A mispredicted branch that is dispatched stops the front end. *)
Lemma dispatch_mispredicted s e m : inv (dispatched_state e s) -> inv s -> rob s !! Z.to_nat (m_num_in_rob s) = Some e ->
  isBranch (mop e) = true -> branchMispredicted (uop e) = true -> inv (with_frontend MaxTime m (dispatched_state e s)).
Proof.
  intros Hinv1 Hinv He Hbr Hm. apply front_inv; [done|]. intros _. exists (Z.to_nat (m_num_in_rob s)), (dispatched_entry (time s) e).
  pose proof (i_num _ _ _ _ Hinv) as [Hnum _]. unfold in_window. simpl. split_and!.
  - apply list_lookup_insert_eq. by eapply lookup_lt_Some.
  - lia.
  - eapply (i_prerob _ _ _ _ Hinv _ e He). lia.
  - change (mop (dispatched_entry (time s) e)) with (mop e). by rewrite Hbr, Hm.
Qed.

(** Where there is room, an entry is dispatched unless an I-cache miss starts. *)
Definition moved (k : Z) s s' : Prop :=
  k < dispatchWidth cfg -> m_num_in_rob s < windowSize cfg -> m_rs_entries_used s < rsEntries cfg ->
  m_num_in_rob s < m_num_in_rob s' \/
  (in_icache_miss s = false /\ in_icache_miss s' = true /\ frontend_stalled_until s' <= time s + L * P).

Lemma dispatch_loop_ok T : forall fuel k next_event s,
  inv s -> bounded T s -> timely T s -> windowSize cfg - m_num_in_rob s <= Z.of_nat fuel -> 0 <= k <= dispatchWidth cfg ->
  m_num_in_rob s + 2 * dispatchWidth cfg - k <= Z.of_nat (length (rob s)) -> frontend_stalled_until s <= time s -> known T next_event ->
  exists t c s', dispatch_loop cfg fuel k next_event s = Ok (t, c, s') /\ dispatched_by T k s s' /\ known T t /\ moved k s s'.
Proof.
  induction fuel as [|fuel IH]; intros k ne s Hinv Hb Ht Hfuel Hk Hlen Hfront Hne.
  { cbn [dispatch_loop]. rewrite (proj2 (Z.leb_le _ _)) by lia. eexists _, _, s.
    split_and!; [done|apply dispatched_self; [done..|lia]|done|unfold moved; lia]. }
  cbn [dispatch_loop]. destruct (Z.leb_spec (windowSize cfg) (m_num_in_rob s)) as [|Hw].
  { eexists _, _, s. split_and!; [done|apply dispatched_self; [done..|lia]|done|unfold moved; lia]. }
  pose proof (co_dispatch _ _ _ Hcfg) as HW. pose proof (i_num _ _ _ _ Hinv) as [Hnum _]. pose proof Ht as [H0 HT].
  unfold rguard. rewrite (proj2 (Z.ltb_lt _ _)) by lia. cbn [rbind].
  destruct (lookup_lt_is_Some_2 (rob s) (Z.to_nat (m_num_in_rob s))) as [e He]; [lia|]. rewrite He. cbn [of_option rbind].
  destruct (Z.eqb_spec k (dispatchWidth cfg)) as [->|Hkw].
  { eexists _, _, s. split_and!; [done|apply dispatched_self; [done..|lia]|done|unfold moved; lia]. }
  pose proof (i_static _ _ _ _ Hinv _ e He) as Hs. destruct (us_icache _ _ Hs) as [Hil Hiw].
  pose proof (D_ge cfg P L Hcfg (iCacheLatency (uop e)) ltac:(lia)) as HD.
  destruct (_ && negb (in_icache_miss s)) eqn:Hmiss.
  { rewrite (cpi_at_ok _ _ Hiw). cbn [rbind]. rewrite (after_ok cfg P L Hcfg T) by (done || lia || apply Hinv).
    assert (Hlat : iCacheLatency (uop e) * P <= L * P) by (pose proof (co_period _ _ _ Hcfg); nia).
    eexists _, _, _. split; [done|]. split; [|split; [done|]]; [|intros _ _ _; right; zbool; split_and!; [by destruct (in_icache_miss s)|done|simpl; lia]].
    split; try done.
    - apply front_inv; [done|]. lia.
    - by apply front_bounded.
    - apply rtc_once. constructor.
    - simpl. lia.
    - right. right. simpl. lia. }
  assert (exists m, (if negb (iCacheHitWhere (uop e) =? HIT_L1I) then with_frontend (frontend_stalled_until s) false s else s)
    = with_frontend (frontend_stalled_until s) m s) as (m & ->).
  { destruct (negb _); [by exists false|]. exists (in_icache_miss s). by destruct s. }
  set (s0 := with_frontend (frontend_stalled_until s) m s).
  assert (Hinv0 : inv s0) by (apply front_inv; [done|lia]). assert (Hb0 : bounded T s0) by (by apply front_bounded).
  change (m_rs_entries_used s0) with (m_rs_entries_used s).
  destruct (Z.eqb_spec (m_rs_entries_used s) (rsEntries cfg)) as [|Hrs].
  { eexists _, _, _. split_and!; [done|apply dispatched_stop; [done|done|lia|lia]|done|unfold moved; lia]. }
  assert (Hrs' : m_rs_entries_used s < rsEntries cfg) by (destruct (i_rs _ _ _ _ Hinv); lia).
  destruct (dispatch_inv T s0 e Hinv0 Hb0 Ht He Hw Hrs') as [Hinv1 Hb1].
  destruct (dispatch_state_eq T s0 e Hinv0 Ht Hw) as [He1 Hs1].
  change (m_rs_entries_used s) with (m_rs_entries_used s0). change (Z.to_nat (m_num_in_rob s)) with (Z.to_nat (m_num_in_rob s0)).
  rewrite Hs1, He1. clear Hs1 He1. set (s1 := dispatched_state e s0) in *.
  assert (Hk1 : known T (Z.min ne (ready (dispatched_entry (time s0) e)))).
  { apply known_min; [done|]. exact (to_ready _ _ (bd_entries _ _ Hb1 (Z.to_nat (m_num_in_rob s)) _
      ltac:(apply list_lookup_insert_eq; by eapply lookup_lt_Some))). }
  assert (Hsteps : rtc dispatch1 s s1) by (eapply rtc_l; [apply dispatch_front|]; apply rtc_once; constructor; [done|eapply (i_prerob _ _ _ _ Hinv _ e He)|simpl]; lia).
  assert (Hlen1 : length (rob s1) = length (rob s)) by apply length_insert.
  assert (Hrec : exists t c s', dispatch_loop cfg fuel (u32 (k + 1)) (Z.min ne (ready (dispatched_entry (time s0) e))) s1 = Ok (t, c, s') /\
    dispatched_by T k s s' /\ known T t /\ moved k s s').
  { rewrite u32_small by lia. destruct (IH (k + 1) (Z.min ne (ready (dispatched_entry (time s0) e))) s1)
      as (t & c & s' & -> & Hby & Hkt & _); try done; [simpl; lia|lia|rewrite Hlen1; simpl; lia|].
    exists t, c, s'. split_and!; [done|by eapply dispatched_more|done|]. intros _ _ _. left. pose proof (db_num _ _ _ _ Hby) as Hn. simpl in Hn. lia. }
  change (mop (dispatched_entry (time s0) e)) with (mop e). change (uop (dispatched_entry (time s0) e)) with (uop e).
  destruct (isBranch (mop e)) eqn:Hbr; [|exact Hrec]. unfold isBranchMispredicted. fold (mop e). rewrite Hbr. cbn [rguard rbind].
  destruct (branchMispredicted (uop e)) eqn:Hmis; [|exact Hrec].
  eexists _, _, _. split; [done|]. split; [|split; [done|intros _ _ _; left; simpl; lia]].
  split; try done; [by apply dispatch_mispredicted|by apply front_bounded| |simpl; lia|right; by left].
  etransitivity; [exact Hsteps|]. apply rtc_once. constructor.
Qed.

(** * The whole of dispatch *)
Lemma where_range h : HitWhereIsValid h = true -> 0 <= h < NUM_WHERES.
Proof. unfold HitWhereIsValid, NUM_WHERES. lia. Qed.

Lemma find_cpi_ok t : forall n (l : list Entry),
  (n <= length l)%nat -> (forall e, e ∈ l -> HitWhereIsValid (dCacheHitWhere (uop e)) = true) -> exists c, find_cpi n t l = Ok c.
Proof.
  induction n as [|n IH]; intros l Hn Hl; cbn [find_cpi]; [by eexists|]. destruct l as [|e l]; [simpl in Hn; lia|].
  destruct (_ <? t); [apply IH; [simpl in Hn; lia|]; intros x Hx; apply Hl; by right|].
  destruct (_ || _); [by eexists|]. destruct (_ || _); [|by eexists].
  rewrite cpi_at_ok by (apply where_range, Hl; by left). by eexists.
Qed.

Lemma stall_inv c s : inv s -> inv (with_stall c s).
Proof. by intros []; split. Qed.

Lemma dispatched_stall T k s s' c : dispatched_by T k s s' -> dispatched_by T k s (with_stall c s').
Proof.
  intros []. split; try done; [by apply stall_inv|by destruct db_bounded0|]. etransitivity; [done|]. apply rtc_once. constructor.
Qed.


Lemma findCpi_ok s : inv s -> exists c, findCpiComponent s = Ok c.
Proof.
  intros Hinv. apply find_cpi_ok; [pose proof (i_num _ _ _ _ Hinv); lia|].
  intros e (i & Hi)%list_elem_of_lookup. exact (us_hit _ _ (i_static _ _ _ _ Hinv i e Hi)).
Qed.

Lemma front_step T s s' k : timely T s -> front_by T s -> dispatched_by T k s s' -> front_by T s'.
Proof.
  intros [H0 HT] Hf []. pose proof (co_small _ _ _ Hcfg) as (HL & _). pose proof (D_ge cfg P L Hcfg L ltac:(lia)).
  unfold front_by in *. destruct db_front0 as [->|[->|?]]; [done|by left|right; lia].
Qed.

Lemma doDispatch_ok T s :
  inv s -> bounded T s -> timely T s -> front_by T s ->
  (frontend_stalled_until s <= time s -> m_num_in_rob s + 2 * dispatchWidth cfg <= Z.of_nat (length (rob s))) ->
  exists t c s', doDispatch cfg s = Ok (t, c, s') /\ dispatched_by T 0 s s' /\ front_by T s' /\ known T t /\
    (frontend_stalled_until s <= time s -> moved 0 s s') /\ (time s < frontend_stalled_until s -> s' = s).
Proof.
  intros Hinv Hb Ht Hf Hlen. pose proof (co_window _ _ _ Hcfg) as Hw. pose proof (co_dispatch _ _ _ Hcfg) as HW.
  pose proof (i_num _ _ _ _ Hinv) as [Hnum _]. unfold doDispatch.
  assert (exists t c s', (if frontend_stalled_until s <=? time s
      then let! (next_event, c, s) := dispatch_loop cfg (Z.to_nat (windowSize cfg)) 0 MaxTime s in Ok (next_event, c, with_stall c s)
      else Ok (MaxTime, m_cpiCurrentFrontEndStall s, s)) = Ok (t, c, s') /\ dispatched_by T 0 s s' /\ known T t /\
      (frontend_stalled_until s <= time s -> moved 0 s s') /\ (time s < frontend_stalled_until s -> s' = s))
    as (t & c & s' & -> & Hby & Hk & Hm & Hsame).
  { destruct (Z.leb_spec (frontend_stalled_until s) (time s)) as [Hle|Hgt].
    - destruct (dispatch_loop_ok T (Z.to_nat (windowSize cfg)) 0 MaxTime s) as (t & c & s' & -> & Hby & Hk & Hm);
        [done..|lia|lia|specialize (Hlen Hle); lia|done|by left|].
      cbn [rbind]. exists t, c, (with_stall c s'). split_and!; [done|by apply dispatched_stall|done|done|lia].
    - eexists _, _, s. split_and!; [done|apply dispatched_self; [done..|lia]|by left|lia|done]. }
  cbn [rbind]. destruct (findCpi_ok s' (db_inv _ _ _ _ Hby)) as (h & ->). cbn [rbind].
  pose proof (front_step T s s' 0 Ht Hf Hby) as Hf'. eexists _, _, s'. split_and!; [done|done|done| |done|done].
  destruct (_ =? windowSize cfg); [done|]. by apply known_min.
Qed.
End dispatch.
