(* ===== verification/RobCommit.v ===== *)
(** Commit: entries leave the buffer in order once they are done. *)
From stdpp Require Import base numbers list sets relations.
From Stdlib Require Import ZArith Lia Bool.
From S2P Require Import Prelude Timing Queues QueueLemmas MicroOp Dependencies RobDeps RobContention RobTimer RobEntries RobWake RobEnter RobInv RobArrive RobIssue RobWindow RobDispatch.
Open Scope Z_scope.

Section commit.
Context {Inst Info C M : Type} `{Decoder Inst} `{!DataMemory M} `{!DataMemoryLaws M}
  `{!RobContention C (DynamicMicroOp Inst Info)} `{!RobContentionLaws C Inst Info}.
Abbreviation Dyn := (DynamicMicroOp Inst Info).
Abbreviation Entry := (RobEntry Inst Info).
Abbreviation Timer := (RobTimer Inst Info C M).
Implicit Types s : Timer.
Implicit Types e x : Entry.
Implicit Types u : Dyn.
Variable cfg : RobConfig.
Variables (P L : Z).
Hypothesis Hcfg : config_ok cfg P L.
Abbreviation inv := (inv cfg P L).
Abbreviation D := (D P L).
Abbreviation timely := (timely P L).

(** * The links without the first entry *)
Lemma waiting_tail k e : waiting None (S k) e = waiting None k e.
Proof. done. Qed.

Lemma links_tail b e (l : list Entry) : links None b (e :: l) -> is_done e = true -> links None (b + 1) l.
Proof.
  intros [(Hb & Hlen & Hn) Hwd Hwp Hsmall Holder Hiss Hcount Hrange] Hd. cbn [length] in Hlen.
  assert (Hshift : forall k, b + Z.of_nat (S k) = b + 1 + Z.of_nat k) by lia. split.
  - split_and!; [lia|lia|]. intros i x Hx. rewrite (Hn (S i) x Hx). lia.
  - intros i x Hx. by apply (Hwd (S i)).
  - intros i x Hx. by apply (Hwp (S i)).
  - intros i x Hx. by apply (Hsmall (S i)).
  - intros j x d Hx Hin. destruct (Holder (S j) x d Hx Hin) as ([|k] & y & Hy & Hlt & -> & Hw).
    + injection Hy as ->. unfold waiting in Hw. by rewrite Hd in Hw.
    + exists k, y. split_and!; [done|lia|lia|done].
  - intros j x Hx. by apply (Hiss (S j)).
  - intros i x j y w Hx Hy Hw. rewrite <- !Hshift. by apply (Hcount (S i) x (S j) y).
  - intros i x w d Hx Hw Hin. destruct (Hrange (S i) x w d Hx Hw Hin) as ([|j] & y & Hy & ->).
    + pose proof (proj1 (cnt_elem w (b + Z.of_nat 0)) Hin) as Hpos.
      rewrite (Hcount (S i) x 0%nat y w Hx Hy Hw) in Hpos. apply cnt_elem in Hpos. injection Hy as <-.
      rewrite (Hiss 0%nat e eq_refl Hd) in Hpos. by apply not_elem_of_nil in Hpos.
    + exists j, y. split; [done|lia].
Qed.

Lemma entries_tail b e (l : list Entry) : entries_ok b (e :: l) -> is_done e = true -> entries_ok (b + 1) l.
Proof.
  intros Hok Hd j x Hx. destruct (Hok (S j) x Hx) as [Hr Ha]. split; [done|]. intros Hst Hnd.
  destruct (Ha Hst Hnd) as (H1 & H2 & H3). split_and!; [done| |done].
  intros p Hp. destruct (H2 p Hp) as [Hpr Hc]. cbn [length] in Hpr. split; [lia|]. destruct Hc as [?|Hprod]; [by left|right].
  destruct Hprod as [?|([|k] & y & Hy & -> & Hdy)]; [left; lia|left; lia|right]. exists k, y. split_and!; [done|lia|done].
Qed.

(** * One entry *)
Definition committed_state e (rest : list Entry) s : Timer :=
  with_counts (m_num_in_rob s - 1) (m_rs_entries_used s)
    (with_rob rest (with_traced (traced s ++ [mkTraced _ _ (uop e) (dispatched e) (issued e) (done_ e) (time s)]) s)).

Lemma commit_program e rest s : rob s = e :: rest -> program (committed_state e rest s) = program s.
Proof. intros Hr. unfold program. simpl. rewrite Hr, map_app. simpl. by rewrite <- app_assoc. Qed.

Lemma head_in_window s e rest : inv s -> rob s = e :: rest -> is_done e = true -> 1 <= m_num_in_rob s.
Proof.
  intros Hinv Hr Hd. destruct (Z.le_gt_cases 1 (m_num_in_rob s)) as [|Hlt]; [done|].
  rewrite (i_prerob _ _ _ _ Hinv 0%nat e) in Hd; [done|by rewrite Hr|lia].
Qed.

Lemma commit_inv T e rest s : inv s -> bounded T s -> rob s = e :: rest -> is_done e = true ->
  inv (committed_state e rest s) /\ bounded T (committed_state e rest s).
Proof.
  intros Hinv Hb Hr Hd. pose proof (head_in_window s e rest Hinv Hr Hd) as Hpos. pose proof (commit_program e rest s Hr) as Hp.
  assert (Hbase : base (committed_state e rest s) = base s + 1) by (unfold base; simpl; rewrite length_app; simpl; lia).
  assert (Hlook : forall i, rest !! i = rob s !! S i) by (intros; by rewrite Hr). split.
  - destruct Hinv. rewrite Hr in i_links, i_entries, i_next, i_num, i_room. cbn [length] in i_next, i_num, i_room.
    split; rewrite ?Hp, ?Hbase; simpl; try done.
    + by eapply links_tail.
    + by eapply entries_tail.
    + lia.
    + lia.
    + lia.
    + intros i x Hx Hi. rewrite Hlook in Hx. apply (i_prerob _ _ Hx). lia.
    + destruct i_rs as [Hrs Hle]. split; [|done]. rewrite Hrs. unfold window. simpl. rewrite Hr.
      replace (Z.to_nat (m_num_in_rob s)) with (S (Z.to_nat (m_num_in_rob s - 1))) by lia. cbn [take].
      unfold unissued. rewrite filter_cons, decide_False; [done|]. by rewrite Hd.
    + intros i x Hx. rewrite Hlook in Hx. by apply (i_static (S i)).
    + intros i x Hx. rewrite Hlook in Hx. by apply (i_access (S i)).
    + intros r p H0 Hrp. specialize (i_writers r p H0 Hrp). destruct (p =? INVALID_SEQNR); [|done].
      intros k v Hk Hv. specialize (i_writers k v Hk Hv). lia.
    + intros Hf. destruct (i_front Hf) as ([|i] & x & Hx & Hw & Hdx & Hbr).
      * rewrite Hr in Hx. injection Hx as ->. congruence.
      * exists i, x. rewrite Hlook. unfold in_window in *. simpl. split_and!; [done|lia|done|done].
  - destruct Hb. split; [|done..]. intros i x Hx. simpl in Hx. rewrite Hlook in Hx. by apply (bd_entries (S i)).
Qed.

(** * The loop *)
Inductive commit1 : Timer -> Timer -> Prop :=
  | commit_entry s e rest : rob s = e :: rest -> is_done e = true -> done_ e <= time s -> 1 <= m_num_in_rob s -> commit1 s (committed_state e rest s).

Record committed_by (T nc : Z) s s' : Prop := mkCommittedBy {
  cb_inv : inv s';
  cb_bounded : bounded T s';
  cb_now : now s' = now s;
  cb_front : frontend_stalled_until s' = frontend_stalled_until s;
  cb_miss : in_icache_miss s' = in_icache_miss s;
  cb_contention : m_rob_contention s' = m_rob_contention s;
  cb_stats : stats s' = stats s;
  cb_steps : rtc commit1 s s';
  cb_num : m_num_in_rob s' <= m_num_in_rob s;
  cb_width : 1 <= commitWidth cfg -> Z.of_nat (length (traced s')) <= Z.of_nat (length (traced s)) + commitWidth cfg - nc
}.

Lemma committed_self T nc s : inv s -> bounded T s -> (1 <= commitWidth cfg -> nc <= commitWidth cfg) -> committed_by T nc s s.
Proof. intros Hi Hb Hn. split; try done. intros Hc. specialize (Hn Hc). lia. Qed.

Lemma commit_loop_ok T : forall fuel nc executed s,
  inv s -> bounded T s -> time s < MaxTime -> (length (rob s) <= fuel)%nat -> 0 <= nc -> nc + Z.of_nat (length (rob s)) < 2 ^ 64 ->
  (1 <= commitWidth cfg -> nc < commitWidth cfg) ->
  exists n s', commit_loop cfg fuel nc executed s = Ok (n, s') /\ committed_by T nc s s' /\
    (forall e rest, rob s = e :: rest -> done_ e <= time s -> m_num_in_rob s' < m_num_in_rob s).
Proof.
  induction fuel as [|fuel IH]; intros nc ex s Hinv Hb Ht Hfuel H0 H64 Hnc; cbn [commit_loop].
  { destruct (rob s) as [|e rest]; [|simpl in Hfuel; lia]. exists ex, s. split_and!; [done|apply committed_self; [done..|lia]|done]. }
  destruct (rob s) as [|e rest] eqn:Hr.
  { exists ex, s. split_and!; [done|apply committed_self; [done..|lia]|done]. }
  destruct (Z.leb_spec (done_ e) (time s)) as [Hd|Hd].
  2:{ exists ex, s. split_and!; [done|apply committed_self; [done..|lia]|]. intros e' r' [= <- <-]. lia. }
  assert (Hdone : is_done e = true) by (unfold is_done; rewrite (proj2 (Z.eqb_neq _ _)); [done|lia]).
  pose proof (head_in_window s e rest Hinv Hr Hdone) as Hpos. pose proof (i_num _ _ _ _ Hinv) as [Hnum Hnw].
  pose proof (co_window _ _ _ Hcfg) as Hw.
  change (m_num_in_rob (with_traced _ s)) with (m_num_in_rob s). rewrite (u64_small (m_num_in_rob s - 1)) by lia.
  change (with_counts _ _ _) with (committed_state e rest s). cbn [length] in *. rewrite (u64_small (nc + 1)) by lia.
  destruct (commit_inv T e rest s Hinv Hb Hr Hdone) as [Hinv1 Hb1]. set (s1 := committed_state e rest s) in *.
  assert (Hs1 : commit1 s s1) by (by constructor).
  assert (Htr : length (traced s1) = S (length (traced s))) by (simpl; rewrite length_app; simpl; lia).
  destruct (Z.eqb_spec (nc + 1) (commitWidth cfg)) as [Heq|Hne].
  - eexists _, s1. split; [done|]. split; [|intros ? ? _ _; simpl; lia].
    split; try done; [by apply rtc_once|simpl; lia|]. rewrite Htr. lia.
  - destruct (IH (nc + 1) (if d_last (uop e) then u64 (ex + 1) else ex) s1) as (n & s' & -> & Hc & _); try done; [simpl; lia..|].
    exists n, s'. split; [done|]. destruct Hc. simpl in *.
    split; [|intros ? ? _ _; lia]. split; try done; [by eapply rtc_l|lia|]. intros Hcw. specialize (cb_width0 Hcw). rewrite length_app in cb_width0. simpl in cb_width0. lia.
Qed.

Lemma doCommit_ok T s : inv s -> bounded T s -> time s < MaxTime ->
  exists t n s', doCommit cfg s = Ok (t, n, s') /\ committed_by T 0 s s' /\ known T t /\
    (forall e rest, rob s = e :: rest -> done_ e <= time s -> m_num_in_rob s' < m_num_in_rob s).
Proof.
  intros Hinv Hb Ht. unfold doCommit. pose proof (i_room _ _ _ _ Hinv). pose proof (co_window _ _ _ Hcfg).
  destruct (commit_loop_ok T (length (rob s)) 0 0 s) as (n & s' & -> & Hc & Hp); try done; [lia..|]. cbn [rbind].
  eexists _, n, s'. split_and!; [done..| |done]. pose proof (cb_bounded _ _ _ _ Hc) as Hb'.
  destruct (rob s') as [|e rest] eqn:Hr; [by left|]. unfold known. destruct (is_done e) eqn:Hd.
  - right. apply (to_done _ _ (bd_entries _ _ Hb' 0%nat e ltac:(by rewrite Hr)) Hd).
  - left. unfold is_done in Hd. destruct (Z.eqb_spec (done_ e) MaxTime); done.
Qed.
End commit.
