(* ===== verification/RobCycle.v ===== *)
(** One cycle: dispatch, issue, commit, and the step of the time; it never fails,
    keeps the invariant, and moves something on or waits for a known time. *)
From stdpp Require Import base numbers list sets relations.
From Stdlib Require Import ZArith Lia Bool.
From S2P Require Import Prelude Timing Queues QueueLemmas MicroOp Dependencies RobDeps RobContention RobTimer RobEntries RobWake RobEnter RobInv RobArrive RobIssue RobWindow RobDispatch RobCommit.
Open Scope Z_scope.

Section cycle.
Context {Inst Info C M : Type} `{Decoder Inst} `{!DataMemory M} `{!DataMemoryLaws M}
  `{!RobContention C (DynamicMicroOp Inst Info)} `{!RobContentionLaws C Inst Info}.
Abbreviation Dyn := (DynamicMicroOp Inst Info).
Abbreviation Entry := (RobEntry Inst Info).
Abbreviation Timer := (RobTimer Inst Info C M).
Implicit Types s : Timer.
Implicit Types e x : Entry.
Implicit Types u : Dyn.
Variable cfg : RobConfig.
Variables (P L : Z).
Hypothesis Hcfg : config_ok cfg P L.
Abbreviation inv := (inv cfg P L).
Abbreviation D := (D P L).
Abbreviation timely := (timely P L).
Abbreviation good := (good cfg P L).
Abbreviation walk1 := (walk1 cfg P L).

(** * Work left: what is still to be dispatched, issued and committed *)
Definition work s : Z := 3 * Z.of_nat (length (rob s)) - 2 * m_num_in_rob s + m_rs_entries_used s.

Lemma work_nonneg s : inv s -> 0 <= work s.
Proof. intros Hinv. pose proof (i_num _ _ _ _ Hinv). destruct (i_rs _ _ _ _ Hinv). unfold work. lia. Qed.

Lemma walk1_rs T s s' : walk1 T s s' -> length (rob s') = length (rob s) /\ in_icache_miss s' = in_icache_miss s /\
  (m_rs_entries_used s' < m_rs_entries_used s \/
   (m_rs_entries_used s' = m_rs_entries_used s /\ rob s' = rob s /\ frontend_stalled_until s' = frontend_stalled_until s /\
    forall t, bounded t s -> bounded t s')).
Proof.
  intros [a a' Hq|a a' i e Hcan []].
  - pose proof (fun t => quiet_bounded cfg t _ _ Hq) as Hb. destruct Hq as [(? & ? & ? & ? & ->)]. split_and!; [done|done|by right].
  - destruct is_rob as (lat & wh & _ & _ & Hf). split_and!; [|done|left; lia].
    rewrite <- (Forall2_length _ _ _ Hf). apply length_insert.
Qed.

Lemma walk_rs T s s' : rtc (walk1 T) s s' -> length (rob s') = length (rob s) /\ in_icache_miss s' = in_icache_miss s /\
  (m_rs_entries_used s' < m_rs_entries_used s \/
   (m_rs_entries_used s' = m_rs_entries_used s /\ rob s' = rob s /\ frontend_stalled_until s' = frontend_stalled_until s /\
    forall t, bounded t s -> bounded t s')).
Proof.
  induction 1 as [s|s1 s2 s3 H1 _ (IHl & IHm & IH)]; [split_and!; [done|done|by right]|].
  destruct (walk1_rs T s1 s2 H1) as (Hl & Hm & Hc). split_and!; [congruence|congruence|].
  destruct Hc as [?|(Hrs & Hrob & Hf & Hb)]; [left; destruct IH as [?|(? & _)]; lia|].
  destruct IH as [?|(Hrs' & Hrob' & Hf' & Hb')]; [left; lia|]. right. split_and!; [congruence..|auto].
Qed.

(** * Issue *)
Definition cycle_started s : Timer :=
  match m_rob_contention s with
  | Some c => with_contention (Some (initCycle (time s) c)) s
  | None => s
  end.

Lemma started_ok T s : inv s -> bounded T s -> timely T s -> good T (cycle_started s) /\ (forall t, bounded t s -> bounded t (cycle_started s)).
Proof.
  intros Hinv Hb Ht. unfold cycle_started. destruct (m_rob_contention s) as [c|] eqn:Hc.
  - destruct (init_cycle_ok (time s) c) as (Hck & Hbz & Hpd).
    assert (Hball : forall t, bounded t s -> bounded t (with_contention (Some (initCycle (time s) c)) s)).
    { intros t []. rewrite Hc in bd_contention. split; try done. simpl. lia. }
    split; [|done]. split; [|by apply Hball|done|done]. destruct Hinv. rewrite Hc in i_contention. split; try done. simpl. congruence.
  - split; [|done]. split; try done. unfold clocked. by rewrite Hc.
Qed.

(** The entry at the head, when all known times have passed, can issue. *)
Lemma consider_head e rest s : inv s -> bounded (time s) s -> time s < MaxTime -> rob s = e :: rest -> is_done e = false ->
  exists s', consider cfg e (mkScan 0 true false false false) s = (CanIssue, mkScan 0 true false false false, s') /\
    m_rob_contention s' = m_rob_contention s /\ now s' = now s.
Proof.
  intros Hinv Hb Ht Hr Hd. assert (He : rob s !! 0%nat = Some e) by (by rewrite Hr).
  assert (Hready : ready e <= time s).
  { destruct (to_ready _ _ (bd_entries _ _ Hb 0%nat e He)) as [Hm|]; [|done].
    destruct (i_entries _ _ _ _ Hinv 0%nat e He) as [Hrok _]. destruct (Hrok Hd) as (_ & H1 & _).
    destruct (deps (uop e)) as [|d ds] eqn:Hds; [specialize (H1 eq_refl); lia|].
    destruct (lk_older _ _ _ (i_links _ _ _ _ Hinv) 0%nat e d He) as (k & y & _ & Hlt & _); [rewrite Hds; by left|lia]. }
  unfold consider. rewrite (proj2 (Z.ltb_ge _ _) Hready). cbn [andb orb].
  pose proof (bd_store _ _ Hb) as Hst. rewrite (proj2 (Z.leb_le _ _) Hst).
  destruct (isSerializing (mop e)); [by exists s|]. destruct (isMemBarrier (mop e)); [by exists s|].
  pose proof (co_dispatch _ _ _ Hcfg) as HW. rewrite (proj2 (Z.eqb_neq 0 _)) by lia. rewrite andb_false_r.
  destruct (isLoad (mop e)) eqn:Hl.
  - unfold free_slot_load. rewrite (has_free_slot (outstanding_loads cfg)) by (apply Hinv || apply Hcfg || apply Hb).
    cbn [negb andb]. rewrite andb_false_r. destruct (isStore (mop e)) eqn:Hs; [by rewrite (store_not_load _ Hs) in Hl|]. eexists. done.
  - cbn [andb]. destruct (isStore (mop e)); cbn [negb]; [|by eexists].
    destruct (i_stores _ _ _ _ Hinv) as [Hq Hby]. unfold free_slot_store.
    rewrite (has_free_slot (outstanding_stores cfg)); [by eexists|done|apply Hcfg|by eapply slots_by_mono].
Qed.

Lemma issue_loop_head T n e rest next_event s :
  good T s -> bounded (time s) s -> S n = Z.to_nat (m_num_in_rob s) -> known T next_event ->
  rob s = e :: rest -> is_done e = false ->
  match m_rob_contention s with Some c => exists c0, busy c0 <= time s /\ c = initCycle (time s) c0 | None => True end ->
  exists t s', issue_loop cfg (S n) 0 (mkScan 0 true false false false) next_event s = Ok (t, s') /\
    m_rs_entries_used s' < m_rs_entries_used s.
Proof.
  intros Hg Hb Hn Hk Hr Hd Hc. pose proof (g_inv _ _ _ _ _ Hg) as Hinv. pose proof (g_timely _ _ _ _ _ Hg) as [H0 HT].
  pose proof (co_small _ _ _ Hcfg) as (HL & _). pose proof (D_ge cfg P L Hcfg 0 ltac:(lia)).
  assert (He : rob s !! 0%nat = Some e) by (by rewrite Hr).
  cbn [issue_loop]. rewrite He. cbn [of_option rbind]. rewrite Hd.
  destruct (consider_head e rest s Hinv Hb ltac:(lia) Hr Hd) as (s1 & Hcon & Hc1 & Hn1). rewrite Hcon.
  destruct (consider_ok cfg P L Hcfg e _ s _ _ s1 Hinv (i_static _ _ _ _ Hinv 0%nat e He) Hcon) as [Hq1 Hv].
  assert (Hask : exists s2, ask_port e CanIssue s1 = (CanIssue, s2)).
  { unfold ask_port. rewrite Hc1. destruct (m_rob_contention s) as [c|]; [|by eexists]. destruct Hc as (c0 & Hbusy & ->).
    pose proof (try_first (uop e) (time s) c0 Hbusy) as Htry. destruct (tryIssue _ _) as [b c']. simpl in Htry. subst b. by eexists. }
  destruct Hask as (s2 & Hask). rewrite Hask. destruct (ask_port_ok cfg e _ s1 _ s2 Hask) as [Hq2 _].
  pose proof (quiet_trans cfg _ _ _ Hq1 Hq2) as Hq. destruct (quiet_same cfg _ _ Hq) as (Hrob & Hnum & Hnow & _).
  assert (Hrs2 : m_rs_entries_used s2 = m_rs_entries_used s) by (by destruct Hq as [(? & ? & ? & ? & ->)]).
  assert (Hcan : can_start s2 0 e).
  { destruct (Hv eq_refl) as (Hrd & Hl & Hs). unfold can_start, in_window, time in *. rewrite Hrob, Hnum, Hnow.
    unfold free_slot in *. rewrite (qu_loads _ _ _ Hq2), (qu_stores _ _ _ Hq2). split_and!; [done..|lia|done|done|done]. }
  destruct (issue_entry_ok cfg P L Hcfg T s2 0 e (Z.min next_event (ready e)) (quiet_good cfg P L T _ _ Hq Hg) Hcan)
    as (t & s3 & s4 & -> & Ht & Hio & Hq4). cbn [rbind].
  assert (Hw4 : rtc (walk1 T) s s4).
  { eapply rtc_l; [by apply walk_quiet|]. eapply rtc_l; [by eapply walk_issue|]. by apply rtc_once, walk_quiet. }
  assert (Hrs4 : m_rs_entries_used s4 < m_rs_entries_used s).
  { pose proof (is_rs _ _ _ _ _ _ _ _ Hio). destruct Hq4 as [(? & ? & ? & ? & ->)]. simpl. lia. }
  destruct (walk_ends _ _ _); [by eexists _, _|].
  edestruct (issue_loop_ok cfg P L Hcfg T n 1) as (t' & s' & -> & Hw' & _); [exact (walk_good _ _ _ _ _ _ Hw4 Hg)| | |].
  { rewrite (proj1 (walk_num _ _ _ _ _ _ Hw4)). lia. }
  { apply known_min; [apply known_min; [exact Hk|]|by right; exact Ht].
    exact (to_ready _ _ (bd_entries _ _ (g_bounded _ _ _ _ _ Hg) 0%nat e He)). }
  exists t', s'. split; [done|]. destruct (walk_rs _ _ _ Hw') as (_ & _ & [?|(? & _)]); lia.
Qed.

Lemma doIssue_ok T s : inv s -> bounded T s -> timely T s ->
  exists t s', doIssue_ cfg s = Ok (t, s') /\ rtc (walk1 T) (cycle_started s) s' /\ known T t /\
    (forall e rest, bounded (time s) s -> 1 <= m_num_in_rob s -> rob s = e :: rest -> is_done e = false ->
       m_rs_entries_used s' < m_rs_entries_used s).
Proof.
  intros Hinv Hb Ht. destruct (started_ok T s Hinv Hb Ht) as [Hg Hball]. unfold doIssue_. fold (cycle_started s).
  assert (Hsame : rob (cycle_started s) = rob s /\ m_num_in_rob (cycle_started s) = m_num_in_rob s /\
    m_rs_entries_used (cycle_started s) = m_rs_entries_used s /\ time (cycle_started s) = time s)
    by (unfold cycle_started; by destruct (m_rob_contention s)).
  destruct Hsame as (Hrob & Hnum & Hrs & Htm). rewrite Hnum.
  destruct (issue_loop_ok cfg P L Hcfg T (Z.to_nat (m_num_in_rob s)) 0 (mkScan 0 true false false false) MaxTime (cycle_started s) Hg)
    as (t & s' & Heq & Hw & Hk); [by rewrite Hnum|by left|]. exists t, s'. split_and!; [done..|].
  intros e rest Hbt Hpos Hr Hd. destruct (Z.to_nat (m_num_in_rob s)) as [|n] eqn:Hn; [lia|].
  destruct (issue_loop_head T n e rest MaxTime (cycle_started s)) as (t' & s'' & Heq' & Hlt); try done.
  - rewrite Htm. by apply Hball.
  - by rewrite Hnum.
  - by left.
  - by rewrite Hrob.
  - unfold cycle_started. pose proof (bd_contention _ _ Hbt) as Hbc. destruct (m_rob_contention s) as [c|] eqn:Hc; simpl; [|by rewrite Hc].
    by exists c.
  - rewrite Heq in Heq'. injection Heq' as <- <-. by rewrite <- Hrs.
Qed.

(** * The histogram of outstanding loads *)
Definition rows_ok (l : list (list Z)) : Prop :=
  length l = Z.to_nat NUM_WHERES /\
  forall h row, HitWhereIsValid h = true -> l !! Z.to_nat h = Some row -> length row = MAX_OUTSTANDING.

Lemma bucket_lt n : (bucket n < MAX_OUTSTANDING)%nat.
Proof. unfold bucket, MAX_OUTSTANDING. lia. Qed.

Lemma add_outstanding_ok t : forall counts h l,
  rows_ok l -> (h + length counts <= length l)%nat ->
  (forall i c, counts !! i = Some c -> (0 < c)%nat -> HitWhereIsValid (Z.of_nat (h + i)) = true) ->
  exists l', add_outstanding counts h t l = Ok l' /\ rows_ok l'.
Proof.
  induction counts as [|c counts IH]; intros h l Hl Hlen Hv; cbn [add_outstanding]; [by exists l|].
  cbn [length] in Hlen.
  assert (Hrec : forall l1, rows_ok l1 -> exists l', add_outstanding counts (S h) t l1 = Ok l' /\ rows_ok l').
  { intros l1 Hl1. apply IH; [done|rewrite (proj1 Hl1), <- (proj1 Hl); lia|].
    intros i c' Hi Hc. specialize (Hv (S i) c' Hi Hc). by rewrite <- Nat.add_succ_comm in Hv. }
  case_bool_decide as Hc; cbn [rbind]; [|by apply Hrec].
  pose proof (Hv 0%nat c eq_refl Hc) as Hh. rewrite Nat.add_0_r in Hh.
  destruct (lookup_lt_is_Some_2 l h) as [row Hrow]; [lia|]. rewrite (aget_Ok _ _ _ Hrow). cbn [rbind].
  destruct Hl as [Hl24 Hrows]. assert (Hr32 : length row = MAX_OUTSTANDING) by (apply (Hrows (Z.of_nat h)); [done|by rewrite Nat2Z.id]).
  pose proof (bucket_lt c) as Hbc. destruct (lookup_lt_is_Some_2 row (bucket c)) as [y Hy]; [lia|].
  rewrite (aget_Ok _ _ _ Hy). cbn [rbind]. rewrite aset_Ok by lia. cbn [rbind]. rewrite aset_Ok by lia. cbn [rbind].
  apply Hrec. split; [by rewrite length_insert|]. intros h' row' Hh' [[_ ->]|[_ Hr']]%insert_cases; [by rewrite length_insert|by eapply Hrows].
Qed.

Lemma outstanding_ok t s : inv s -> m_mlp_histogram cfg = true ->
  exists st, countOutstandingMemop t s = Ok (with_stats st s) /\ stats_ok cfg st.
Proof.
  intros Hinv Hm. destruct (i_stats _ _ _ _ Hinv) as [Hd Hs]. destruct (Hs Hm) as (Hall & Hl24 & Hrows).
  pose proof (i_num _ _ _ _ Hinv) as [Hnum _]. unfold countOutstandingMemop, rguard. rewrite (proj2 (Z.leb_le _ _)) by lia. cbn [rbind].
  set (loads := base.filter _ _).
  assert (Hload : forall e, e ∈ loads -> HitWhereIsValid (dCacheHitWhere (uop e)) = true).
  { intros e [_ (i & Hi)%list_elem_of_lookup]%list_elem_of_filter. apply lookup_take_Some in Hi as [Hi _].
    exact (us_hit _ _ (i_static _ _ _ _ Hinv i e Hi)). }
  assert (forallb (fun e => (0 <=? dCacheHitWhere (uop e)) && (dCacheHitWhere (uop e) <? NUM_WHERES)) loads = true) as ->.
  { apply forallb_forall. intros e He%list_elem_of_In. pose proof (where_range _ (Hload e He)). lia. }
  cbn [rbind].
  destruct (add_outstanding_ok t (map (fun h => length (base.filter (fun e => dCacheHitWhere (uop e) = Z.of_nat h) loads)) (seq 0 (Z.to_nat NUM_WHERES)))
    0 (m_outstandingLoads (stats s))) as (l & -> & Hl24' & Hrows').
  { split; [done|]. intros h row. apply Hrows. } { rewrite length_map, length_seq. simpl. lia. }
  { intros i c. rewrite list_lookup_fmap. intros (k & [-> Hk]%lookup_seq & ->)%fmap_Some Hpos. simpl in *.
    destruct (base.filter _ loads) as [|e l] eqn:Hf; [simpl in Hpos; lia|].
    assert (Hin : e ∈ base.filter (fun e => dCacheHitWhere (uop e) = Z.of_nat i) loads) by (rewrite Hf; by left).
    apply list_elem_of_filter in Hin as [He Hin]. rewrite <- He. by apply Hload. }
  cbn [rbind].
  assert (exists all, (if bool_decide (0 < length loads)%nat then
      let! y := aget (m_outstandingLoadsAll (stats s)) (bucket (length loads)) in
      aset (m_outstandingLoadsAll (stats s)) (bucket (length loads)) (tadd y t)
    else Ok (m_outstandingLoadsAll (stats s))) = Ok all /\ length all = MAX_OUTSTANDING) as (all & -> & Hall').
  { pose proof (bucket_lt (length loads)). case_bool_decide; [|by eexists].
    destruct (lookup_lt_is_Some_2 (m_outstandingLoadsAll (stats s)) (bucket (length loads))) as [y Hy]; [lia|].
    rewrite (aget_Ok _ _ _ Hy). cbn [rbind]. rewrite aset_Ok by lia. eexists. split; [done|]. by rewrite length_insert. }
  cbn [rbind]. eexists. split; [done|]. split; [done|]. by intros _.
Qed.
End cycle.
