(* ===== verification/RobExecute.v ===== *)
(** A call of [execute] is a sequence of dispatches, issues and commits followed by
    a step of the time. *)
From stdpp Require Import base numbers list sets relations.
From Stdlib Require Import ZArith Lia Bool.
From S2P Require Import Prelude Timing Queues QueueLemmas MicroOp Dependencies RobDeps RobContention RobTimer RobEntries RobWake RobEnter RobInv RobArrive RobIssue RobWindow RobDispatch RobCommit RobCycle.
Open Scope Z_scope.

Section execute.
Context {Inst Info C M : Type} `{Decoder Inst} `{!DataMemory M} `{!DataMemoryLaws M}
  `{!RobContention C (DynamicMicroOp Inst Info)} `{!RobContentionLaws C Inst Info}.
Abbreviation Dyn := (DynamicMicroOp Inst Info).
Abbreviation Entry := (RobEntry Inst Info).
Abbreviation Timer := (RobTimer Inst Info C M).
Implicit Types s : Timer.
Implicit Types e x : Entry.
Implicit Types u : Dyn.
Variable cfg : RobConfig.
Variables (P L : Z).
Hypothesis Hcfg : config_ok cfg P L.
Abbreviation inv := (inv cfg P L).
Abbreviation D := (D P L).
Abbreviation timely := (timely P L).
Abbreviation walk1 := (walk1 cfg P L).
Abbreviation dispatch1 := (dispatch1 P).

(** * The machine as a transition system *)
Inductive mstep : Timer -> Timer -> Prop :=
  | mstep_other s s' : rob s' = rob s -> traced s' = traced s -> m_num_in_rob s' = m_num_in_rob s -> time s <= time s' ->
      period s' = period s -> mstep s s'
  | mstep_dispatch s e : rob s !! Z.to_nat (m_num_in_rob s) = Some e -> is_done e = false -> 0 <= m_num_in_rob s ->
      mstep s (dispatched_state P e s)
  | mstep_issue T s s' i e : inv s -> timely T s -> can_start s i e -> issued_one cfg P L T i e s s' -> mstep s s'
  | mstep_commit s e rest : rob s = e :: rest -> is_done e = true -> done_ e <= time s -> 1 <= m_num_in_rob s -> mstep s (committed_state e rest s).

Lemma dispatch_msteps s s' : rtc dispatch1 s s' -> rtc mstep s s'.
Proof.
  induction 1 as [|s1 s2 s3 H1 _ IH]; [done|]. eapply rtc_l; [|exact IH]. destruct H1; [by apply mstep_dispatch|by apply mstep_other..].
Qed.

Lemma walk_msteps T s s' : good cfg P L T s -> rtc (walk1 T) s s' -> rtc mstep s s'.
Proof.
  intros Hg Hw. induction Hw as [|s1 s2 s3 H1 _ IH]; [done|].
  eapply rtc_l; [|exact (IH (walk1_good _ _ _ _ _ _ H1 Hg))]. destruct H1 as [a a' Hq|a a' i e Hcan Hio].
  - destruct (quiet_same _ _ _ Hq) as (H1 & H2 & H3 & H4 & _). apply mstep_other; [done..| |]; unfold time, period; rewrite H3; done.
  - destruct Hg. by eapply mstep_issue.
Qed.

Lemma commit_msteps s s' : rtc commit1 s s' -> rtc mstep s s'.
Proof. induction 1 as [|s1 s2 s3 H1 _ IH]; [done|]. eapply rtc_l; [|exact IH]. destruct H1. by apply mstep_commit. Qed.

(** * The work a cycle does *)
Lemma dispatch_work s s' : rtc dispatch1 s s' -> work s' = work s - (m_num_in_rob s' - m_num_in_rob s) /\ m_num_in_rob s <= m_num_in_rob s' /\
  traced s' = traced s /\ (m_num_in_rob s' = m_num_in_rob s -> rob s' = rob s /\ forall t, bounded t s -> bounded t s').
Proof.
  induction 1 as [s|s1 s2 s3 H1 _ (IHw & IHn & IHt & IH)]; [split_and!; [lia|lia|done|done]|].
  destruct H1 as [s e He Hd H0|s f m|s c]; unfold work in *; simpl in *; rewrite ?length_insert in *;
    [split_and!; [lia|lia|done|lia]|(split_and!; [lia|lia|done|])..].
  - intros E. destruct (IH E) as [? Hb]. split; [done|]. intros t []. by apply Hb.
  - intros E. destruct (IH E) as [? Hb]. split; [done|]. intros t []. by apply Hb.
Qed.

Lemma commit_work s s' : rtc commit1 s s' -> work s' = work s - (m_num_in_rob s - m_num_in_rob s') /\ m_num_in_rob s' <= m_num_in_rob s /\
  (m_num_in_rob s' = m_num_in_rob s -> s' = s) /\
  exists new, traced s' = traced s ++ new /\ Forall (fun t => t_commit t = time s) new.
Proof.
  induction 1 as [s|s1 s2 s3 H1 _ (IHw & IHn & IH & new & IHt & IHf)];
    [split_and!; [lia|lia|done|exists []; by rewrite app_nil_r]|].
  destruct H1 as [s e rest Hr Hd Hle Hpos]. unfold work in *. simpl in *. rewrite Hr. cbn [length]. split_and!; [lia|lia|lia|].
  eexists. split; [by rewrite IHt, <- app_assoc|]. by constructor.
Qed.

(** The state has not moved on: it waits for a known time or for the front end. *)
Definition calm s s' : Prop :=
  m_num_in_rob s' = m_num_in_rob s /\ work s' = work s /\ (forall t, bounded t s -> bounded t s') /\
  (1 <= m_num_in_rob s -> ~ bounded (time s) s) /\
  (m_num_in_rob s = 0 ->
     (time s < frontend_stalled_until s /\ frontend_stalled_until s' = frontend_stalled_until s /\ in_icache_miss s' = in_icache_miss s) \/
     (in_icache_miss s = false /\ in_icache_miss s' = true /\ frontend_stalled_until s' <= time s + L * P)).

(** The issue stage. *)
Lemma walk_front T s s' : rtc (walk1 T) s s' ->
  (frontend_stalled_until s' = frontend_stalled_until s \/ frontend_stalled_until s' <= time s + L * P) /\ traced s' = traced s.
Proof.
  induction 1 as [s|s1 s2 s3 H1 Hw [IHf IHt]]; [split; [by left|done]|].
  destruct (walk1_num _ _ _ _ _ _ H1) as [_ Hnow]. assert (Ht : time s2 = time s1) by (unfold time; by rewrite Hnow). rewrite Ht in IHf.
  destruct H1 as [a a' Hq|a a' i e Hcan []].
  - destruct (quiet_same _ _ _ Hq) as (_ & _ & _ & H4 & H5 & _). rewrite H5 in IHf. split; [done|congruence].
  - split; [|congruence]. destruct is_front as [E|?]; [rewrite E in IHf; done|]. destruct IHf; [right; lia|by right].
Qed.

Record issue_stage (T : Z) s s' : Prop := mkIssueStage {
  st_inv : inv s';
  st_bounded : bounded T s';
  st_now : now s' = now s;
  st_num : m_num_in_rob s' = m_num_in_rob s;
  st_traced : traced s' = traced s;
  st_steps : rtc mstep s s';
  st_front : frontend_stalled_until s' = frontend_stalled_until s \/ frontend_stalled_until s' <= time s + L * P;
  st_miss : in_icache_miss s' = in_icache_miss s;
  st_length : length (rob s') = length (rob s);
  st_rs : m_rs_entries_used s' < m_rs_entries_used s \/
    (m_rs_entries_used s' = m_rs_entries_used s /\ rob s' = rob s /\ frontend_stalled_until s' = frontend_stalled_until s /\
     forall t, bounded t s -> bounded t s');
  st_head : forall e rest, bounded (time s) s -> 1 <= m_num_in_rob s -> rob s = e :: rest -> is_done e = false ->
    m_rs_entries_used s' < m_rs_entries_used s
}.

Lemma issue_stage_ok T s : inv s -> bounded T s -> timely T s ->
  exists t s', doIssue_ cfg s = Ok (t, s') /\ known T t /\ issue_stage T s s'.
Proof.
  intros Hinv Hb Ht. destruct (doIssue_ok cfg P L Hcfg T s Hinv Hb Ht) as (t & s' & Hi & Hw & Hk & Hhead).
  exists t, s'. split_and!; [done..|]. destruct (started_ok cfg P L T s Hinv Hb Ht) as [Hg Hball].
  destruct (walk_good _ _ _ _ _ _ Hw Hg) as [Hinv' Hb' _ _]. destruct (walk_num _ _ _ _ _ _ Hw) as [Hnum Hnow].
  destruct (walk_rs cfg P L _ _ _ Hw) as (Hlen & Hmiss & Hrs). destruct (walk_front T _ _ Hw) as [Hfr Htr].
  assert (Hs : rtc mstep s (cycle_started s)).
  { apply rtc_once, mstep_other; unfold cycle_started; by destruct (m_rob_contention s). }
  assert (Hsame : rob (cycle_started s) = rob s /\ m_num_in_rob (cycle_started s) = m_num_in_rob s /\
    m_rs_entries_used (cycle_started s) = m_rs_entries_used s /\ now (cycle_started s) = now s /\ traced (cycle_started s) = traced s /\
    frontend_stalled_until (cycle_started s) = frontend_stalled_until s /\ in_icache_miss (cycle_started s) = in_icache_miss s)
    by (unfold cycle_started; by destruct (m_rob_contention s)).
  destruct Hsame as (E1 & E2 & E3 & E4 & E5 & E6 & E7). unfold time in *.
  rewrite ?E1, ?E2, ?E3, ?E4, ?E5, ?E6, ?E7 in *. split; try done.
  - etransitivity; [exact Hs|by eapply walk_msteps].
  - destruct Hrs as [?|(? & ? & ? & ?)]; [by left|right]. split_and!; auto.
Qed.

(** Dispatch, issue and commit together. *)
Record stages (T : Z) s s' : Prop := mkStages {
  sg_inv : inv s';
  sg_bounded : bounded T s';
  sg_front : front_by T s';
  sg_now : now s' = now s;
  sg_steps : rtc mstep s s';
  sg_work : work s' < work s \/ calm s s';
  sg_commits : exists new, traced s' = traced s ++ new /\ Forall (fun t => t_commit t = time s) new /\
    (1 <= commitWidth cfg -> Z.of_nat (length new) <= commitWidth cfg)
}.

(** Nothing moved: then the state is calm. *)
Lemma stages_calm T s s1 s2 :
  inv s -> time s < MaxTime -> (frontend_stalled_until s <= time s -> moved cfg P L 0 s s1) -> (time s < frontend_stalled_until s -> s1 = s) ->
  rtc dispatch1 s s1 -> now s1 = now s -> m_num_in_rob s1 = m_num_in_rob s -> issue_stage T s1 s2 -> m_rs_entries_used s2 = m_rs_entries_used s1 ->
  (forall e rest, rob s2 = e :: rest -> ~ done_ e <= time s) -> calm s s2.
Proof.
  intros Hinv Hmax Hmoved Hsame Hd Hnow1 Hn1 [] Hrs Hhd. destruct (dispatch_work s s1 Hd) as (Hw1 & _ & _ & Hq1).
  destruct (Hq1 Hn1) as [Hrob1 Hb1]. destruct st_rs0 as [?|(_ & Hrob2 & Hf2 & Hb2)]; [lia|].
  assert (Htm : time s1 = time s) by (unfold time; by rewrite Hnow1).
  split_and!; [congruence|unfold work in *; lia|auto| |].
  - intros Hpos Hbt. pose proof (i_num _ _ _ _ Hinv) as [Hnum _]. destruct (rob s) as [|e rest] eqn:Hr; [simpl in Hnum; lia|].
    destruct (is_done e) eqn:Hde.
    + destruct (Hhd e rest); [congruence|]. apply (to_done _ _ (bd_entries _ _ Hbt 0%nat e ltac:(by rewrite Hr)) Hde).
    + assert (m_rs_entries_used s2 < m_rs_entries_used s1); [|lia].
      apply (st_head0 e rest); [rewrite Htm; by apply Hb1|lia|congruence|done].
  - intros H0. destruct (Z.le_gt_cases (frontend_stalled_until s) (time s)) as [Hle|Hgt].
    + right. pose proof (co_dispatch _ _ _ Hcfg). pose proof (co_window _ _ _ Hcfg). pose proof (co_rs _ _ _ Hcfg).
      destruct (i_rs _ _ _ _ Hinv) as [Hrs0 _].
      pose proof (length_filter (fun x => is_done x = false) (window s)) as Hl. fold (unissued (window s)) in Hl.
      unfold window in Hl at 2. rewrite length_take in Hl.
      destruct (Hmoved Hle) as [?|(Hm0 & Hm1 & Hfr)]; [lia..|]. rewrite st_miss0, Hf2. done.
    + left. rewrite (Hsame Hgt) in *. split_and!; congruence.
Qed.

Lemma stages_ok T s :
  inv s -> bounded T s -> timely T s -> front_by T s ->
  (frontend_stalled_until s <= time s -> m_num_in_rob s + 2 * dispatchWidth cfg <= Z.of_nat (length (rob s))) ->
  exists t1 c s1 t2 s2 t3 n s3,
    doDispatch cfg s = Ok (t1, c, s1) /\ doIssue_ cfg s1 = Ok (t2, s2) /\ doCommit cfg s2 = Ok (t3, n, s3) /\
    known T (Z.min t1 (Z.min t2 t3)) /\ stages T s s3.
Proof.
  intros Hinv Hb Ht Hf Hlen. pose proof Ht as [H0 HT]. pose proof (co_small _ _ _ Hcfg) as (HL & _).
  pose proof (D_ge cfg P L Hcfg 0 ltac:(lia)) as HD0. pose proof (D_ge cfg P L Hcfg L ltac:(lia)) as HDL.
  destruct (doDispatch_ok cfg P L Hcfg T s Hinv Hb Ht Hf Hlen) as (t1 & c & s1 & Hd & Hby & Hf1 & Hk1 & Hmoved & Hsame).
  destruct Hby as [Hinv1 Hb1 Hnow1 Hst1 _ Hlen1 _ _]. pose proof (dispatch_work s s1 Hst1) as (Hw1 & Hn1 & Htr1 & _).
  assert (Ht1 : timely T s1) by (unfold RobIssue.timely, time in *; by rewrite Hnow1).
  destruct (issue_stage_ok T s1 Hinv1 Hb1 Ht1) as (t2 & s2 & Hi & Hk2 & Hstage). pose proof Hstage as [].
  assert (Htm : time s1 = time s /\ time s2 = time s) by (unfold time; split; congruence). destruct Htm as [Htm1 Htm2].
  destruct (doCommit_ok cfg P L Hcfg T s2) as (t3 & n & s3 & Hc & [] & Hk3 & Hcm); [done|done|lia|].
  pose proof (commit_work s2 s3 cb_steps) as (Hw3 & Hn3 & Hq3 & new & Htr3 & Hnew).
  exists t1, c, s1, t2, s2, t3, n, s3. split_and!; [done..|by repeat apply known_min|]. split; try done.
  - unfold front_by in *. rewrite cb_front. destruct st_front0 as [->|?]; [done|right; lia].
  - congruence.
  - etransitivity; [by apply dispatch_msteps|]. etransitivity; [exact st_steps0|by apply commit_msteps].
  - destruct (Z.lt_ge_cases (work s3) (work s)) as [|Hge]; [by left|right].
    assert (Hwork2 : work s2 = work s1 - (m_rs_entries_used s1 - m_rs_entries_used s2)) by (unfold work; lia).
    assert (Hrs2 : m_rs_entries_used s2 <= m_rs_entries_used s1) by (destruct st_rs0 as [?|(? & _)]; lia).
    rewrite Hq3 by lia. eapply (stages_calm T s s1); try done; [lia|lia|lia|]. intros e rest Hr Hle. rewrite Htm2 in Hcm. specialize (Hcm e rest Hr Hle). lia.
  - exists new. split_and!; [congruence|by rewrite <- Htm2|]. intros Hcw. specialize (cb_width Hcw). rewrite Htr3, length_app in cb_width. lia.
Qed.

(** * A cycle *)

(** Everything known is less than [D] away. *)
Definition near s : Prop := bounded (time s + D) s /\ front_by (time s + D) s.

(** [execute] has nothing to do: too few micro-operations to dispatch. *)
Definition idle s : Prop := frontend_stalled_until s <= time s /\ Z.of_nat (length (rob s)) < m_num_in_rob s + 2 * dispatchWidth cfg.

Record cycle (t : Z) s s' : Prop := mkCycle {
  cy_inv : inv s';
  cy_near : near s';
  cy_time : time s' = time s + t;
  cy_range : P <= t <= D;
  cy_steps : rtc mstep s s';
  cy_program : program s' = program s;
  cy_work : work s' < work s \/ calm s s';
  cy_commits : exists new, traced s' = traced s ++ new /\ Forall (fun r => t_commit r = time s) new /\
    (1 <= commitWidth cfg -> Z.of_nat (length new) <= commitWidth cfg)
}.

Lemma mstep_program s s' : mstep s s' -> program s' = program s.
Proof.
  intros [a a' H1 H2 _ _ _|a e He _ _|T a a' i e _ _ _ []|a e rest Hr _ _ _].
  - unfold program. by rewrite H1, H2.
  - by apply dispatch_program.
  - done.
  - by apply commit_program.
Qed.

Lemma msteps_program s s' : rtc mstep s s' -> program s' = program s.
Proof. induction 1 as [|s1 s2 s3 H1 _ IH]; [done|]. rewrite IH. by apply mstep_program. Qed.

Lemma bounded_mono t t' s : bounded t s -> t <= t' -> bounded t' s.
Proof.
  intros [He Hs Hl Hc] Ht. split; [|lia|by eapply slots_by_mono|destruct (m_rob_contention s); [lia|done]].
  intros i x Hx. destruct (He i x Hx) as [H1 H2 H3]. split; [lia|destruct H2; [by left|right; lia]|]. intros Hd. specialize (H3 Hd). lia.
Qed.

(** The end of a cycle: the time and the statistics. *)
Lemma tick_inv t will skipped s : inv s -> inv (with_time (ComponentTime.addLatency t (now s)) will skipped s).
Proof. by intros []. Qed.

Lemma stats_inv st s : inv s -> stats_ok cfg st -> inv (with_stats st s).
Proof. by intros [] ?. Qed.

Lemma execute_idle s : idle s -> execute cfg s = Ok (0, 0, s).
Proof. intros [H1 H2]. unfold execute. by rewrite (proj2 (Z.leb_le _ _) H1), (proj2 (Z.ltb_lt _ _) H2). Qed.

Lemma execute_ok s : inv s -> near s -> 0 <= time s -> time s + D < MaxTime -> ~ idle s ->
  exists n t s', execute cfg s = Ok (n, t, s') /\ cycle t s s'.
Proof.
  intros Hinv [Hb Hf] H0 HT Hidle. assert (Htm : timely (time s + D) s) by (split; [done|lia]).
  pose proof (co_small _ _ _ Hcfg) as (HL & _). pose proof (D_ge cfg P L Hcfg 1 ltac:(lia)) as HD1. rewrite Z.mul_1_l in HD1.
  pose proof (co_period _ _ _ Hcfg) as HP. unfold execute.
  replace ((frontend_stalled_until s <=? time s) && (Z.of_nat (length (rob s)) <? m_num_in_rob s + 2 * dispatchWidth cfg)) with false.
  2:{ symmetry. apply not_true_is_false. intros E. apply Hidle. zbool. done. }
  destruct (stages_ok (time s + D) s Hinv Hb Htm Hf) as (t1 & c & s1 & t2 & s2 & t3 & n & s3 & -> & E2 & E3 & Hk & Hst).
  { intros Hle. destruct (Z.le_gt_cases (m_num_in_rob s + 2 * dispatchWidth cfg) (Z.of_nat (length (rob s)))); [done|]. by destruct Hidle. }
  cbn [rbind]. rewrite E2. cbn [rbind]. rewrite E3. cbn [rbind]. clear E2 E3. set (ne := Z.min t1 (Z.min t2 t3)) in *.
  destruct Hst as [Hinv3 Hb3 Hf3 Hnow Hsteps Hwork Hcommits].
  assert (Ht3 : time s3 = time s) by (unfold time; by rewrite Hnow). pose proof (i_period _ _ _ _ Hinv3) as Hp3.
  rewrite (after_ok cfg P L Hcfg (time s + D) 1 s3) by (done || lia || (unfold RobIssue.timely; rewrite Ht3; lia)). rewrite Z.mul_1_l, Ht3, Hp3.
  set (will := negb (ne =? MaxTime) && (time s + P <? ne)).
  assert (exists t, (if will then tsub ne (time s) else P) = t /\ P <= t <= D) as (t & -> & Hrange).
  { destruct will eqn:Hw; [|exists P; split; [done|lia]]. subst will. zbool. destruct Hk as [?|Hk]; [done|]. exists (ne - time s).
    unfold MaxTime in HT. rewrite tsub_small by lia. split; [done|lia]. }
  set (s4 := with_time _ _ _ s3). assert (Hinv4 : inv s4) by (by apply tick_inv).
  assert (Ht4 : time s4 = time s + t).
  { unfold time at 1. simpl. fold (time s3). rewrite Ht3. unfold MaxTime in HT. by rewrite tadd_small by lia. }
  assert (exists st, (if m_mlp_histogram cfg then countOutstandingMemop t s4 else Ok s4) = Ok (with_stats st s4) /\ stats_ok cfg st)
    as (st & -> & Hst).
  { destruct (m_mlp_histogram cfg) eqn:Hm; [by apply (outstanding_ok cfg P L)|]. exists (stats s4). split; [by destruct s4|apply Hinv4]. }
  cbn [rbind]. eexists _, t, _. split; [done|]. split.
  - apply stats_inv; [by apply stats_inv|]. exact Hst.
  - unfold near. change (time (with_stats _ _)) with (time s4). rewrite Ht4. split.
    + destruct (bounded_mono _ (time s + t + D) _ Hb3 ltac:(lia)). by split.
    + unfold front_by in *. simpl. destruct Hf3; [by left|right; lia].
  - exact Ht4.
  - done.
  - etransitivity; [exact Hsteps|]. apply rtc_once, mstep_other; try done. rewrite Ht3. change (time s <= time s4). lia.
  - rewrite <- (msteps_program _ _ Hsteps). done.
  - destruct Hwork as [?|(C1 & C2 & C3 & C4 & C5)]; [by left|right]. split_and!; [done|done| |done|done].
    intros t0 Hbt. destruct (C3 t0 Hbt). by split.
  - done.
Qed.
End execute.
