(* ===== verification/RobSim.v ===== *)
(** [simulate] never fails and ends: between two moves the state waits for a time
    that is known, so a bound on the number of cycles follows from the work left. *)
From stdpp Require Import base numbers list sets relations.
From Stdlib Require Import ZArith Lia Bool.
From S2P Require Import Prelude Timing Queues QueueLemmas MicroOp Dependencies RobDeps RobContention RobTimer RobEntries RobWake RobEnter RobInv RobArrive RobIssue RobWindow RobDispatch RobCommit RobCycle RobExecute.
Open Scope Z_scope.

Section sim.
Context {Inst Info C M : Type} `{Decoder Inst} `{!DataMemory M} `{!DataMemoryLaws M}
  `{!RobContention C (DynamicMicroOp Inst Info)} `{!RobContentionLaws C Inst Info}.
Abbreviation Dyn := (DynamicMicroOp Inst Info).
Abbreviation Entry := (RobEntry Inst Info).
Abbreviation Timer := (RobTimer Inst Info C M).
Implicit Types s : Timer.
Implicit Types e x : Entry.
Implicit Types u : Dyn.
Variable cfg : RobConfig.
Variables (P L : Z).
Hypothesis Hcfg : config_ok cfg P L.
Abbreviation inv := (inv cfg P L).
Abbreviation D := (D P L).
Abbreviation near := (near P L).
Abbreviation idle := (idle cfg).
Abbreviation cycle := (cycle cfg P L).

(** * Waiting *)

(** In at most [k] cycles that only wait, something moves. *)
Definition waits (k : Z) s : Prop :=
  0 <= k /\
  ((1 <= m_num_in_rob s /\ exists t, bounded t s /\ t <= time s + k * P) \/
   (m_num_in_rob s = 0 /\ in_icache_miss s = true /\ frontend_stalled_until s <= time s + k * P) \/
   (m_num_in_rob s = 0 /\ in_icache_miss s = false /\ exists k', 0 <= k' /\ k = k' + L + 1 /\ frontend_stalled_until s <= time s + k' * P)).

Definition longest_wait : Z := 2 * L + 3.

Lemma waits_near s : inv s -> near s -> waits longest_wait s.
Proof.
  intros Hinv [Hb Hf]. pose proof (co_small _ _ _ Hcfg) as (HL & _). pose proof (co_period _ _ _ Hcfg) as HP.
  pose proof (i_num _ _ _ _ Hinv) as [Hnum _]. unfold longest_wait. split; [lia|].
  destruct (Z.le_gt_cases 1 (m_num_in_rob s)) as [Hpos|Hz].
  - left. split; [done|]. exists (time s + D). split; [done|]. unfold RobInv.D. nia.
  - assert (Hfront : frontend_stalled_until s <= time s + D).
    { destruct Hf as [Hf|]; [|done]. destruct (i_front _ _ _ _ Hinv Hf) as (i & e & _ & Hw & _). unfold in_window in Hw. lia. }
    right. unfold RobInv.D in Hfront. destruct (in_icache_miss s); [left|right]; (split_and!; [lia|done|]); [nia|].
    exists (L + 2). split_and!; [lia|lia|done].
Qed.

Lemma waits_step k t s s' : waits k s -> cycle t s s' -> calm P L s s' -> 1 <= k /\ waits (k - 1) s'.
Proof.
  intros [Hk Hw] [] (Hn & _ & Hb & Hnot & Hempty). pose proof (co_period _ _ _ Hcfg) as HP. pose proof (co_small _ _ _ Hcfg) as (HL & _).
  destruct Hw as [(Hpos & t0 & Hbt & Ht0)|[(Hz & Hm & Hf)|(Hz & Hm & k' & Hk' & -> & Hf)]].
  - assert (time s < t0).
    { destruct (Z.le_gt_cases t0 (time s)) as [Hle|]; [|done]. destruct (Hnot Hpos). by eapply bounded_mono. }
    assert (1 <= k) by nia. split; [done|]. split; [lia|]. left. rewrite Hn. split; [done|]. exists t0. split; [by apply Hb|nia].
  - destruct (Hempty Hz) as [(Hlt & Hf' & Hm')|(? & _)]; [|congruence]. assert (1 <= k) by nia. split; [done|]. split; [lia|].
    right. left. rewrite Hn, Hm', Hf'. split_and!; [done|done|nia].
  - destruct (Hempty Hz) as [(Hlt & Hf' & Hm')|(_ & Hm' & Hf')]; (split; [lia|]); (split; [lia|]); right.
    + right. assert (1 <= k') by nia. rewrite Hn, Hm', Hf'. split_and!; [done|done|]. exists (k' - 1). split_and!; [lia|lia|nia].
    + left. rewrite Hn. split_and!; [done|done|nia].
Qed.

(** * The loop *)
Lemma idle_dec s : {idle s} + {~ idle s}.
Proof.
  unfold RobExecute.idle. destruct (decide (frontend_stalled_until s <= time s)); [|right; tauto].
  destruct (decide (Z.of_nat (length (rob s)) < m_num_in_rob s + 2 * dispatchWidth cfg)); [by left|right; tauto].
Qed.

Definition cycle1 s s' : Prop := inv s /\ exists t, cycle t s s'.

(** The cycles left. *)
Definition cycles_left s (k : Z) : Z := work s * (longest_wait + 1) + k.

Lemma execute_all_ok fuel : forall k insns latency s,
  inv s -> near s -> 0 <= time s -> waits k s -> cycles_left s k < Z.of_nat fuel ->
  time s + (cycles_left s k + 1) * D < MaxTime -> 0 <= latency <= time s ->
  exists n s', execute_all cfg fuel insns latency s = Ok (n, latency + (time s' - time s), s') /\
    rtc cycle1 s s' /\ inv s' /\ near s' /\ idle s' /\ time s <= time s' <= time s + cycles_left s k * D.
Proof.
  pose proof (co_small _ _ _ Hcfg) as (HL & _). pose proof (co_period _ _ _ Hcfg) as HP.
  pose proof (D_ge cfg P L Hcfg 1 ltac:(lia)) as HD.
  induction fuel as [|fuel IH]; intros k insns latency s Hinv Hnear H0 Hw Hfuel Hmax Hlat.
  { pose proof (work_nonneg cfg P L s Hinv). destruct Hw. unfold cycles_left, longest_wait in Hfuel. nia. }
  assert (Hnn : 0 <= cycles_left s k).
  { pose proof (work_nonneg cfg P L s Hinv). destruct Hw. unfold cycles_left, longest_wait. nia. }
  cbn [execute_all]. destruct (idle_dec s) as [Hidle|Hidle].
  - rewrite (execute_idle cfg s Hidle). cbn [rbind Z.eqb]. rewrite (tadd_small latency 0) by (unfold MaxTime in Hmax; nia).
    eexists _, s. rewrite Z.sub_diag. split_and!; [done|done..|lia|nia].
  - destruct (execute_ok cfg P L Hcfg s Hinv Hnear H0 ltac:(nia) Hidle) as (n & t & s1 & -> & Hc). cbn [rbind]. pose proof Hc as [].
    rewrite (proj2 (Z.eqb_neq t 0)) by lia.
    assert (exists k1, waits k1 s1 /\ cycles_left s1 k1 < cycles_left s k) as (k1 & Hw1 & Hlt).
    { unfold cycles_left. destruct cy_work as [Hwk|Hcalm].
      - exists longest_wait. split; [by apply waits_near|]. destruct Hw. unfold longest_wait in *. nia.
      - destruct (waits_step k t s s1 Hw Hc Hcalm) as [_ Hw1]. exists (k - 1). split; [done|].
        destruct Hcalm as (_ & -> & _). lia. }
    assert (Hnn1 : 0 <= cycles_left s1 k1).
    { pose proof (work_nonneg cfg P L s1 cy_inv). destruct Hw1. unfold cycles_left, longest_wait. nia. }
    rewrite (tadd_small latency t) by (unfold MaxTime in Hmax; nia).
    destruct (IH k1 (u64 (insns + n)) (latency + t) s1) as (n' & s' & -> & Hr & Hi' & Hn' & Hid & Ht'); [done|done|lia|done|lia|nia|lia|].
    exists n', s'. split_and!; [f_equal; f_equal; f_equal; lia|eapply rtc_l; [|exact Hr]; split; [done|by exists t]|done..|lia|nia].
Qed.
End sim.
