(* ===== verification/RobHistory.v ===== *)
(** What has happened to the micro-operations so far: the order of the stages, and
    that none was issued before what it reads was there. *)
From stdpp Require Import base numbers list sets relations.
From Stdlib Require Import ZArith Lia Bool.
From S2P Require Import Prelude Timing Queues QueueLemmas MicroOp Dependencies RobDeps RobContention RobTimer RobEntries RobWake RobEnter RobInv RobArrive RobIssue RobWindow RobDispatch RobCommit RobCycle RobExecute.
Open Scope Z_scope.

Section history.
Context {Inst Info C M : Type} `{Decoder Inst} `{!DataMemory M} `{!DataMemoryLaws M}
  `{!RobContention C (DynamicMicroOp Inst Info)} `{!RobContentionLaws C Inst Info}.
Abbreviation Dyn := (DynamicMicroOp Inst Info).
Abbreviation Entry := (RobEntry Inst Info).
Abbreviation Timer := (RobTimer Inst Info C M).
Implicit Types s : Timer.
Implicit Types e x : Entry.
Implicit Types u : Dyn.
Variable cfg : RobConfig.
Variables (P L : Z).
Hypothesis Hcfg : config_ok cfg P L.
Abbreviation inv := (inv cfg P L).
Abbreviation mstep := (mstep cfg P L).

(** * Ordered lists *)
Definition ordered (l : list Z) : Prop :=
  forall i j a b, (i <= j)%nat -> l !! i = Some a -> l !! j = Some b -> a <= b.

Lemma ordered_snoc l t : ordered l -> (forall a, a ∈ l -> a <= t) -> ordered (l ++ [t]).
Proof.
  intros Ho Ht i j a b Hij [[Ha Hi]|[-> ->]]%lookup_snoc [[Hb Hj]|[-> ->]]%lookup_snoc; [by apply (Ho i j)|apply Ht; by eapply list_elem_of_lookup_2|lia|done].
Qed.

(** * The times of a micro-operation *)
Record timed (v : MicroOp Inst) (lat d i n : Z) : Prop := mkTimed {
  td_issue : d <= i;
  td_done : n = finished_at P v i lat;
  td_latency : 0 <= lat
}.

Definition result_of e : option Z := if is_done e then Some (result_at P (mop e) (issued e) (execLatency (uop e))) else None.
Definition issue_of e : option Z := if is_done e then Some (issued e) else None.
Definition t_result (r : Traced Inst Info) : Z := result_at P (m_uop (t_uop r)) (t_issue r) (execLatency (t_uop r)).

(** When the result of each micro-operation of the program was there, and when it was issued. *)
Definition results s : list (option Z) := map (fun r => Some (t_result r)) (traced s) ++ map result_of (rob s).
Definition issues s : list (option Z) := map (fun r => Some (t_issue r)) (traced s) ++ map issue_of (rob s).
Definition dispatches s : list Z := map t_dispatch (traced s) ++ map dispatched (window s).

(** A load that looks through a store does not wait for it. *)
Definition looks_through (prog : list (MicroOp Inst)) (v : MicroOp Inst) (p : nat) : Prop :=
  m_store_to_load_forwarding cfg = true /\ isLoad v = true /\ store_in prog (Z.of_nat p).

Definition available s (p : nat) (t : Z) : Prop := exists r, results s !! p = Some (Some r) /\ r <= t.

(** What an entry needs is awaited or there in time. *)
Definition fed s : Prop := forall n v p,
  program s !! n = Some v -> awaits (program s) n v p -> ~ looks_through (program s) v p ->
  (forall t, issues s !! n = Some (Some t) -> available s p t) /\
  (forall j e, n = (length (traced s) + j)%nat -> rob s !! j = Some e -> is_done e = false ->
     Z.of_nat p ∈ deps (uop e) \/ available s p (Z.max (readyMax e) (time s))).

Record history s : Prop := mkHistory {
  h_window : forall i e, rob s !! i = Some e -> in_window s i -> dispatched e <= time s;
  h_issued : forall i e, rob s !! i = Some e -> is_done e = true ->
    timed (mop e) (execLatency (uop e)) (dispatched e) (issued e) (done_ e) /\ issued e <= time s;
  h_traced : forall i r, traced s !! i = Some r ->
    timed (m_uop (t_uop r)) (execLatency (t_uop r)) (t_dispatch r) (t_issue r) (t_done r) /\ t_done r <= t_commit r <= time s;
  h_commits : ordered (map t_commit (traced s));
  h_dispatches : ordered (dispatches s);
  h_fed : fed s
}.

Lemma finished_later (v : MicroOp Inst) t lat : 0 <= lat -> result_at P v t lat <= finished_at P v t lat /\ t < finished_at P v t lat.
Proof. intros Hl. pose proof (co_period _ _ _ Hcfg). unfold result_at, finished_at. destruct (isStore v); nia. Qed.

(** * Steps that change no times *)
Section same.
Variables (s s' : Timer).
Hypothesis Hh : history s.
Hypothesis Htraced : traced s' = traced s.
Hypothesis Hnum : m_num_in_rob s' = m_num_in_rob s.
Hypothesis Htime : time s <= time s'.

Lemma history_other : rob s' = rob s -> history s'.
Proof.
  intros Hrob. destruct Hh as [H1 H2 H3 H4 H5 H6]. unfold in_window, dispatches, window in *.
  assert (Hp : program s' = program s) by (unfold program; by rewrite Htraced, Hrob).
  assert (Hres : results s' = results s) by (unfold results; by rewrite Htraced, Hrob).
  split; unfold in_window, dispatches, window; rewrite ?Hrob, ?Hnum, ?Htraced; try done.
  - intros i e He Hi. specialize (H1 i e He Hi). lia.
  - intros i e He Hd. destruct (H2 i e He Hd). split; [done|lia].
  - intros i r Hr. destruct (H3 i r Hr). split; [done|lia].
  - intros n v p. rewrite Hp. unfold issues, available. rewrite Hrob, Htraced, Hres. intros Hn Ha Hl.
    destruct (H6 n v p Hn Ha Hl) as [F1 F2]. split; [done|]. intros j e Hj He Hd.
    destruct (F2 j e Hj He Hd) as [?|(r & Hr & Hle)]; [by left|right; exists r; split; [done|lia]].
Qed.
End same.

(** * Dispatch *)
Lemma history_dispatch s e : history s -> rob s !! Z.to_nat (m_num_in_rob s) = Some e -> is_done e = false -> 0 <= m_num_in_rob s ->
  history (dispatched_state P e s).
Proof.
  intros [H1 H2 H3 H4 H5 H6] He Hd Hn.
  set (s' := dispatched_state P e s). assert (Hlook : forall j x, rob s' !! j = Some x ->
    (j = Z.to_nat (m_num_in_rob s) /\ x = dispatched_entry P (time s) e) \/ (j <> Z.to_nat (m_num_in_rob s) /\ rob s !! j = Some x))
    by (intros j x; apply insert_cases).
  assert (Hmap : forall (B : Type) (f : Entry -> B), f (dispatched_entry P (time s) e) = f e -> map f (rob s') = map f (rob s)).
  { intros B f Hf. simpl. rewrite list_fmap_insert. apply list_insert_id. by rewrite list_lookup_fmap, He, Hf. }
  assert (Hp : program s' = program s) by (by apply dispatch_program).
  assert (Hres : results s' = results s) by (unfold results; by rewrite (Hmap _ result_of)).
  assert (Hiss : issues s' = issues s) by (unfold issues; by rewrite (Hmap _ issue_of)).
  split; try done.
  - intros j x [[-> ->]|[Hne Hx]]%Hlook Hj; unfold in_window in *; simpl in *; [change (time s <= time s); lia|].
    apply (H1 j x Hx). unfold in_window. lia.
  - intros j x [[-> ->]|[Hne Hx]]%Hlook Hdx; [change (is_done e = true) in Hdx; congruence|by apply (H2 j)].
  - unfold dispatches, s'. rewrite (dispatch_window P s e Hn He), map_app, app_assoc. apply ordered_snoc; [exact H5|].
    intros a [Ha|Ha]%elem_of_app; apply list_elem_of_fmap in Ha as (y & -> & Hy).
    + apply list_elem_of_lookup in Hy as (i & Hy). destruct (H3 i y Hy) as [[] ?].
      pose proof (finished_later (m_uop (t_uop y)) (t_issue y) (execLatency (t_uop y)) td_latency0).
      simpl. lia.
    + apply list_elem_of_lookup in Hy as (i & Hy). apply lookup_take_Some in Hy as [Hy Hi]. apply (H1 i y Hy). unfold in_window. lia.
  - intros n v p. rewrite Hp, Hiss. unfold available. rewrite Hres. intros Hv Ha Hl. destruct (H6 n v p Hv Ha Hl) as [F1 F2].
    split; [done|]. intros j x Hj [[-> ->]|[_ Hx]]%Hlook Hdx; [exact (F2 _ e Hj He Hd)|by apply (F2 j)].
Qed.

(** * Commit *)
Lemma history_commit s e rest : history s -> rob s = e :: rest -> is_done e = true -> done_ e <= time s -> 1 <= m_num_in_rob s ->
  history (committed_state e rest s).
Proof.
  intros [H1 H2 H3 H4 H5 H6] Hr Hd Hle Hpos. set (s' := committed_state e rest s).
  assert (Hlook : forall i, rob s' !! i = rob s !! S i) by (intros; simpl; by rewrite Hr).
  assert (He : rob s !! 0%nat = Some e) by (by rewrite Hr). destruct (H2 0%nat e He Hd) as [Hti Hit].
  assert (Hp : program s' = program s) by (by apply commit_program).
  assert (Hres : results s' = results s).
  { unfold results. simpl. rewrite Hr, map_app, <- app_assoc. simpl. unfold result_of at 2. by rewrite Hd. }
  assert (Hiss : issues s' = issues s).
  { unfold issues. simpl. rewrite Hr, map_app, <- app_assoc. simpl. unfold issue_of at 2. by rewrite Hd. }
  assert (Hdis : dispatches s' = dispatches s).
  { unfold dispatches, window. simpl. rewrite Hr, map_app, <- app_assoc.
    replace (Z.to_nat (m_num_in_rob s)) with (S (Z.to_nat (m_num_in_rob s - 1))) by lia. done. }
  split.
  - intros i x Hx Hi. rewrite Hlook in Hx. apply (H1 _ _ Hx). unfold in_window in *. simpl in Hi. lia.
  - intros i x Hx. rewrite Hlook in Hx. by apply (H2 (S i)).
  - intros i r [[Hr' _]|[_ ->]]%lookup_snoc; [by apply (H3 i)|]. simpl. split; [done|]. change (time s') with (time s). lia.
  - simpl. rewrite map_app. apply ordered_snoc; [done|]. intros a (r & -> & Hin)%list_elem_of_fmap.
    apply list_elem_of_lookup in Hin as (i & Hi). destruct (H3 i r Hi). simpl. lia.
  - by rewrite Hdis.
  - intros n v p. rewrite Hp, Hiss. unfold available. rewrite Hres. intros Hv Ha Hl. destruct (H6 n v p Hv Ha Hl) as [F1 F2].
    split; [done|]. intros j x Hj Hx. rewrite Hlook in Hx. apply (F2 (S j)); [|done]. rewrite Hj. simpl. rewrite length_app. simpl. lia.
Qed.

(** * Issue *)
Lemma lookup_hist {A B D} (f : A -> D) (g : B -> D) (l : list A) (l' : list B) n y :
  (map f l ++ map g l') !! n = Some y <->
  (exists a, l !! n = Some a /\ y = f a) \/ (exists j b, n = (length l + j)%nat /\ l' !! j = Some b /\ y = g b).
Proof.
  rewrite lookup_app_Some, length_map, !list_lookup_fmap, !fmap_Some. split.
  - intros [(a & ? & ->)|[Hn (b & Hb & ->)]]; [left; by exists a|right]. exists (n - length l)%nat, b. split_and!; [lia|done|done].
  - intros [(a & ? & ->)|(j & b & -> & Hb & ->)]; [left; by exists a|right]. split; [lia|]. exists b.
    by replace (length l + j - length l)%nat with j by lia.
Qed.

Section issued.
Variables (T : Z) (s s' : Timer) (i : nat) (e : Entry) (lat wh : Z).
Abbreviation e1 := (finish P (time s) lat wh e).
Hypothesis Hinv : inv s.
Hypothesis Htime : RobIssue.timely P L T s.
Hypothesis Hcan : can_start s i e.
Hypothesis Hio : issued_one cfg P L T i e s s'.
Hypothesis Hlat : 0 <= lat <= L.
Hypothesis Hri : rob s' !! i = Some e1.
Hypothesis Hwoken : Forall2 (woken (base s + Z.of_nat i) (result_at P (mop e) (time s) lat)) (<[i := e1]> (rob s)) (rob s').

Lemma issued_lookup j x' : rob s' !! j = Some x' ->
  (j = i /\ x' = e1) \/ (j <> i /\ exists x, rob s !! j = Some x /\ woken (base s + Z.of_nat i) (result_at P (mop e) (time s) lat) x x').
Proof. by apply (finish_lookup s s' i _ _ _ Hwoken Hri). Qed.

Lemma issued_old j x : rob s !! j = Some x -> j <> i -> exists x', rob s' !! j = Some x' /\
  woken (base s + Z.of_nat i) (result_at P (mop e) (time s) lat) x x'.
Proof. by apply (finish_old s s' i e1). Qed.

Lemma issued_latency : execLatency (uop e1) = lat.
Proof. simpl. apply u32_small. pose proof (co_small _ _ _ Hcfg). lia. Qed.

Lemma issued_done : is_done e1 = true.
Proof.
  unfold is_done. simpl. destruct Htime as [H0 HT]. pose proof (D_ge cfg P L Hcfg (lat + 1) ltac:(lia)). pose proof (D_ge cfg P L Hcfg 1 ltac:(lia)).
  rewrite (proj2 (Z.eqb_neq _ _)); [done|]. unfold finished_at. destruct (isStore _); lia.
Qed.

Lemma issued_same x x' : woken (base s + Z.of_nat i) (result_at P (mop e) (time s) lat) x x' ->
  is_done x' = is_done x /\ mop x' = mop x /\ execLatency (uop x') = execLatency (uop x) /\ result_of x' = result_of x /\ issue_of x' = issue_of x.
Proof.
  intros []. unfold result_of, issue_of, is_done, mop. rewrite wk_done, wk_issued, wk_uop. done.
Qed.

Lemma issued_results p r : results s !! p = Some (Some r) -> results s' !! p = Some (Some r).
Proof.
  unfold results. rewrite (is_traced _ _ _ _ _ _ _ _ Hio), !lookup_hist. intros [?|(j & x & -> & Hx & Hr)]; [by left|right].
  destruct Hcan as (Hi & Hd & _). destruct (decide (j = i)) as [->|Hne].
  { rewrite Hi in Hx. injection Hx as <-. unfold result_of in Hr. by rewrite Hd in Hr. }
  destruct (issued_old j x Hx Hne) as (x' & Hx' & Hw). destruct (issued_same x x' Hw) as (_ & _ & _ & E & _). exists j, x'. by rewrite E.
Qed.

Lemma issued_available p t t' : available s p t -> t <= t' -> available s' p t'.
Proof. intros (r & Hr & Hle) Ht. exists r. split; [by apply issued_results|lia]. Qed.

Lemma issued_new : results s' !! (length (traced s) + i)%nat = Some (Some (result_at P (mop e) (time s) lat)).
Proof.
  unfold results. rewrite (is_traced _ _ _ _ _ _ _ _ Hio), lookup_hist. right. exists i, e1. split_and!; [done|done|].
  unfold result_of. rewrite issued_done, issued_latency. done.
Qed.

Lemma issued_issues n t : issues s' !! n = Some (Some t) ->
  (n = (length (traced s) + i)%nat /\ t = time s) \/ issues s !! n = Some (Some t).
Proof.
  unfold issues. rewrite (is_traced _ _ _ _ _ _ _ _ Hio), !lookup_hist. intros [?|(j & x & -> & Hx & Ht)]; [by right; left|].
  destruct (issued_lookup j x Hx) as [[-> ->]|(Hne & x0 & Hx0 & Hw)].
  - left. unfold issue_of in Ht. rewrite issued_done in Ht. split; [done|]. by injection Ht as ->.
  - right. right. exists j, x0. destruct (issued_same x0 x Hw) as (_ & _ & _ & _ & E). by rewrite <- E.
Qed.

Lemma issued_fed : fed s -> fed s'.
Proof.
  intros Hf n v p. rewrite (is_program _ _ _ _ _ _ _ _ Hio). intros Hn Ha Hl. destruct (Hf n v p Hn Ha Hl) as [F1 F2].
  destruct Hcan as (Hi & Hd & Hwin & Hready & _). destruct Htime as [H0 HT]. pose proof (D_ge cfg P L Hcfg 1 ltac:(lia)).
  assert (Htm : time s' = time s) by (unfold time; by rewrite (is_now _ _ _ _ _ _ _ _ Hio)). split.
  - intros t [[-> ->]|Ht]%issued_issues; [|by eapply issued_available; [apply F1|]].
    destruct (ready_resolved e (time s) (proj1 (i_entries _ _ _ _ Hinv i e Hi)) Hd Hready) as [Hnil Hmax]; [lia|].
    destruct (F2 i e eq_refl Hi Hd) as [Hin|Hav]; [rewrite Hnil in Hin; by apply not_elem_of_nil in Hin|].
    eapply issued_available; [exact Hav|lia].
  - rewrite (is_traced _ _ _ _ _ _ _ _ Hio), Htm. intros j x' Hj Hx' Hdx.
    destruct (issued_lookup j x' Hx') as [[-> ->]|(Hne & x & Hx & Hw)]; [rewrite issued_done in Hdx; done|].
    destruct (issued_same x x' Hw) as (Hd' & _). rewrite Hd' in Hdx. destruct Hw.
    destruct (F2 j x Hj Hx Hdx) as [Hin|Hav].
    + destruct (decide (Z.of_nat p = base s + Z.of_nat i)) as [Hp|Hp].
      * destruct wk_changed as [-> |(_ & Hmax & _)]; [by left|right]. eexists. split; [|].
        { replace p with (length (traced s) + i)%nat by (unfold base in Hp; lia). apply issued_new. } lia.
      * left. apply cnt_elem. rewrite wk_deps by done. by apply cnt_elem.
    + right. eapply issued_available; [exact Hav|]. destruct wk_changed as [-> |(_ & Hmax & _)]; lia.
Qed.

Lemma issued_history : history s -> history s'.
Proof.
  intros [H1 H2 H3 H4 H5 H6]. pose proof Hcan as (Hi & Hd & Hwin & _).
  assert (Htm : time s' = time s) by (unfold time; by rewrite (is_now _ _ _ _ _ _ _ _ Hio)).
  pose proof (is_num _ _ _ _ _ _ _ _ Hio) as Hnum. pose proof (is_traced _ _ _ _ _ _ _ _ Hio) as Htr. split.
  - intros j x' Hx' Hj. unfold in_window in Hj. rewrite Hnum in Hj. rewrite Htm. destruct (issued_lookup j x' Hx') as [[-> ->]|(_ & x & Hx & [])].
    + exact (H1 i e Hi Hwin).
    + rewrite wk_dispatched. by apply (H1 j).
  - intros j x' Hx' Hdx. rewrite Htm. destruct (issued_lookup j x' Hx') as [[-> ->]|(_ & x & Hx & Hw)].
    + rewrite issued_latency. simpl. split; [|lia]. split; [exact (H1 i e Hi Hwin)|done|lia].
    + destruct (issued_same x x' Hw) as (E1 & E2 & E3 & _). rewrite E1 in Hdx. rewrite E2, E3. destruct Hw.
      rewrite wk_dispatched, wk_issued, wk_done. by apply (H2 j).
  - rewrite Htr, Htm. done.
  - by rewrite Htr.
  - unfold dispatches, window. rewrite Htr, Hnum. replace (map dispatched (take (Z.to_nat (m_num_in_rob s)) (rob s'))) with
      (map dispatched (window s)); [done|]. unfold window. rewrite <- !firstn_map. f_equal. apply list_eq. intros j. rewrite !list_lookup_fmap.
    destruct (rob s' !! j) as [x'|] eqn:Hx'.
    + destruct (issued_lookup j x' Hx') as [[-> ->]|(_ & x & Hx & [])]; [by rewrite Hi|]. rewrite Hx. simpl. by rewrite wk_dispatched.
    + apply lookup_ge_None in Hx'. rewrite <- (Forall2_length _ _ _ Hwoken), length_insert in Hx'. by rewrite (proj2 (lookup_ge_None _ _) Hx').
  - by apply issued_fed.
Qed.
End issued.

Lemma history_step s s' : history s -> mstep s s' -> history s'.
Proof.
  intros Hh Hs. revert Hh. destruct Hs as [a a' H1 H2 H3 H4 H5|a e He Hd H0|T a a' i e Hinv Ht Hcan Hio|a e rest Hr Hd Hle Hpos]; intros Hh.
  - by apply (history_other a).
  - by apply history_dispatch.
  - destruct (is_rob _ _ _ _ _ _ _ _ Hio) as (lat & wh & Hlat & Hri & Hw). by eapply issued_history.
  - by apply history_commit.
Qed.

Lemma history_steps s s' : rtc mstep s s' -> history s -> history s'.
Proof. induction 1; eauto using history_step. Qed.

(** * A micro-operation enters *)
Lemma awaits_app (prog more : list (MicroOp Inst)) n v p : (n <= length prog)%nat -> awaits (prog ++ more) n v p -> awaits prog n v p.
Proof.
  intros Hn (r & Hr & (w & Hw & Hd) & Hlt & Hmax). exists r. rewrite lookup_app_l in Hw by lia.
  split_and!; [done|by exists w|done|]. intros k w' Hk Hw'. apply Hmax; [done|by apply lookup_app_l_Some].
Qed.

Lemma looks_through_app (prog more : list (MicroOp Inst)) v p : looks_through prog v p -> looks_through (prog ++ more) v p.
Proof. intros (H1 & H2 & w & Hw & Hs). split_and!; [done|done|]. exists w. split; [by apply lookup_app_l_Some|done]. Qed.

Section enters.
Variables (s s' : Timer) (u : Dyn) (older' : list Entry) (e' : Entry).
Hypothesis Hinv : inv s.
Hypothesis Hh : history s.
Hypothesis Hprog : program s' = program s ++ [m_uop u].
Hypothesis Hrob : rob s' = older' ++ [e'].
Hypothesis Hkept : Forall2 kept (rob s) older'.
Hypothesis Hnew : is_done e' = false.
Hypothesis Htraced : traced s' = traced s.
Hypothesis Hnum : m_num_in_rob s' = m_num_in_rob s.
Hypothesis Hnow : now s' = now s.

Lemma enters_map {B} (f : Entry -> B) : (forall x x', kept x x' -> f x' = f x) -> map f older' = map f (rob s).
Proof. intros Hf. generalize Hkept. clear -Hf. induction 1; simpl; [done|]. f_equal; [by apply Hf|done]. Qed.

Lemma enters_results : results s' = results s ++ [None] /\ issues s' = issues s ++ [None] /\ dispatches s' = dispatches s.
Proof.
  unfold results, issues, dispatches, window. rewrite Htraced, Hnum, Hrob, !map_app. simpl.
  rewrite (enters_map result_of), (enters_map issue_of) by (by intros x x' (inl & vec & ->)). rewrite !app_assoc.
  unfold result_of at 2, issue_of at 2. rewrite Hnew. split_and!; [done|done|]. f_equal.
  pose proof (Forall2_length _ _ _ Hkept) as Hl. destruct (i_num _ _ _ _ Hinv) as [Hn _].
  rewrite take_app_le by lia. rewrite <- !firstn_map. f_equal. apply enters_map. by intros x x' (inl & vec & ->).
Qed.

Lemma enters_lookup i x : rob s' !! i = Some x -> (exists x0, rob s !! i = Some x0 /\ kept x0 x) \/ (i = length (rob s) /\ x = e').
Proof.
  pose proof (Forall2_length _ _ _ Hkept) as Hl. rewrite Hrob. intros [[Hx _]|[-> ->]]%lookup_snoc; [left|right; done].
  by destruct (Forall2_lookup_r _ _ _ _ _ Hkept Hx) as (x0 & ? & ?); exists x0.
Qed.

Lemma enters_available p t : available s p t -> available s' p t.
Proof.
  intros (r & Hr & Hle). exists r. split; [|done]. rewrite (proj1 enters_results). by apply lookup_app_l_Some.
Qed.

Lemma enters_fed :
  (forall k, awaits (program s) (length (program s)) (m_uop u) k ->
     Z.of_nat k < base s \/ Z.of_nat k ∈ deps (uop e') \/
     (exists i x, rob s !! i = Some x /\ Z.of_nat k = base s + Z.of_nat i /\ is_done x = true /\ done_ x <= readyMax e') \/
     looks_through (program s) (m_uop u) k) -> fed s'.
Proof.
  intros Hflow n v p. destruct Hh as [H1 H2 H3 _ _ H6]. rewrite Hprog. destruct enters_results as (Hres & Hiss & _).
  assert (Hlp : length (program s) = (length (traced s) + length (rob s))%nat) by (unfold program; by rewrite length_app, !length_map).
  assert (Htm : time s' = time s) by (unfold time; by rewrite Hnow).
  intros [[Hv Hlt]|[-> ->]]%lookup_snoc Ha Hl.
  - apply awaits_app in Ha; [|lia]. assert (Hl' : ~ looks_through (program s) v p) by (intros Hx; by apply Hl, looks_through_app).
    destruct (H6 n v p Hv Ha Hl') as [F1 F2]. rewrite Hiss, Htm, Htraced. split.
    + intros t [[Ht _]|[_ Ht]]%lookup_snoc; [by apply enters_available, F1|done].
    + intros j x Hj Hx Hd. apply enters_lookup in Hx as [(x0 & Hx0 & inl & vec & ->)|[-> _]]; [|lia].
      destruct (F2 j x0 Hj Hx0 Hd) as [?|?]; [by left|right; by apply enters_available].
  - apply awaits_app in Ha; [|done]. rewrite Hiss, Htm, Htraced. split.
    + intros t [[Ht _]|[_ Ht]]%lookup_snoc; [|done]. apply lookup_lt_Some in Ht. unfold issues in Ht. rewrite length_app, !length_map in Ht. lia.
    + intros j x Hj Hx _. apply enters_lookup in Hx as [(x0 & Hx0 & _)|[-> ->]]; [apply lookup_lt_Some in Hx0; lia|].
      destruct (Hflow p Ha) as [Hlt|[?|[(i & x & Hx & Hp & Hd & Hle)|?]]]; [right|by left|right|by destruct Hl; apply looks_through_app].
      * unfold base in Hlt. destruct (lookup_lt_is_Some_2 (traced s) p) as [r Hr]; [lia|]. destruct (H3 p r Hr) as [[] Hc].
        apply enters_available. exists (t_result r). unfold results. rewrite lookup_hist. split; [left; by exists r|].
        pose proof (finished_later (m_uop (t_uop r)) (t_issue r) (execLatency (t_uop r)) td_latency0). unfold t_result. lia.
      * destruct (H2 i x Hx Hd) as [[] Hi]. apply enters_available.
        exists (result_at P (mop x) (issued x) (execLatency (uop x))). unfold results. rewrite lookup_hist. split.
        { right. exists i, x. unfold result_of. rewrite Hd. unfold base in Hp. split_and!; [lia|done|done]. }
        pose proof (finished_later (mop x) (issued x) (execLatency (uop x)) td_latency0). lia.
Qed.
End enters.

Lemma history_enter s u s' : inv s -> history s -> entered cfg P L s u s' -> history s'.
Proof.
  intros Hinv Hh [Hinv' Hprog (r & nx & regs & m & st & ->) (older' & e' & Hrob & Hkept & Hd & _ & Hflow)].
  set (s' := with_entered r nx regs m st s) in *.
  assert (Htm : time s' = time s) by done. pose proof (enters_lookup s s' older' e' Hrob Hkept) as Hlook.
  destruct (enters_results s s' older' e' Hinv Hrob Hkept Hd eq_refl eq_refl) as (_ & _ & Hdis).
  pose proof (enters_fed s s' u older' e' Hinv Hh Hprog Hrob Hkept Hd eq_refl eq_refl eq_refl Hflow) as Hfed.
  destruct Hh as [H1 H2 H3 H4 H5 H6]. split; try done.
  - intros i x Hx Hw. destruct (Hlook i x Hx) as [(x0 & Hx0 & inl & vec & ->)|[-> ->]]; [exact (H1 i x0 Hx0 Hw)|].
    destruct (i_num _ _ _ _ Hinv) as [Hn _]. unfold in_window in Hw. simpl in Hw. lia.
  - intros i x Hx Hdx. destruct (Hlook i x Hx) as [(x0 & Hx0 & inl & vec & ->)|[-> ->]]; [exact (H2 i x0 Hx0 Hdx)|congruence].
  - by rewrite Hdis.
Qed.
End history.
