(* ===== verification/RobRun.v ===== *)
(** Runs of the core model: calls of [simulate] and [synchronize] from the state
    the constructor makes. *)
From stdpp Require Import base numbers list sets relations.
From Stdlib Require Import ZArith Lia Bool Sorted.
From S2P Require Import Prelude Timing Queues QueueLemmas MicroOp Dependencies RobDeps RobContention RobTimer RobEntries RobWake RobEnter RobInv RobArrive RobIssue RobWindow RobDispatch RobCommit RobCycle RobExecute RobSim RobHistory.
Open Scope Z_scope.

Section run.
Context {Inst Info C M : Type} `{Decoder Inst} `{!DataMemory M} `{!DataMemoryLaws M}
  `{!RobContention C (DynamicMicroOp Inst Info)} `{!RobContentionLaws C Inst Info}.
Abbreviation Dyn := (DynamicMicroOp Inst Info).
Abbreviation Entry := (RobEntry Inst Info).
Abbreviation Timer := (RobTimer Inst Info C M).
Implicit Types s : Timer.
Implicit Types u : Dyn.
Variable cfg : RobConfig.
Variables (P L : Z).
Abbreviation inv := (inv cfg P L).
Abbreviation D := (D P L).
Abbreviation near := (near P L).
Abbreviation idle := (idle cfg).
Abbreviation history := (history cfg P).

(** The micro-operations of a batch that enter. *)
Definition kept_uops (us : list Dyn) : list (MicroOp Inst) := map m_uop (base.filter (fun u => squashed u = false) us).

(** At most [commitWidth] micro-operations commit at one time. *)
Definition narrow s : Prop := 1 <= commitWidth cfg ->
  (forall r, r ∈ traced s -> t_commit r < time s) /\
  (forall i r r', traced s !! i = Some r -> traced s !! (i + Z.to_nat (commitWidth cfg))%nat = Some r' -> t_commit r < t_commit r').

(** The state between two calls. *)
Record steady s : Prop := mkSteady {
  sd_inv : inv s;
  sd_near : near s;
  sd_idle : idle s;
  sd_history : history s;
  sd_narrow : narrow s;
  sd_time : 0 <= time s
}.

(** The cycles a call takes at most, and the time. *)
Definition cycle_bound : Z := 3 * 1024 * (longest_wait L + 1) + longest_wait L + 1.
Definition horizon : Z := cycle_bound * D.

Hypothesis Hcfg : config_ok cfg P L.

(** * Entering *)
Lemma enter_all_ok T : forall us pre prog0 s,
  inv s -> history s -> bounded T s -> 0 <= T < MaxTime -> batch_from P L pre us -> program s = prog0 ++ pre ->
  (length pre <= length (rob s))%nat -> Z.of_nat (length (rob s) + length us) <= windowSize cfg + 255 ->
  Z.of_nat (length (program s) + length us) < INVALID_SEQNR ->
  exists s', enter_all cfg us s = Ok s' /\ inv s' /\ history s' /\ bounded T s' /\ program s' = program s ++ kept_uops us /\
    now s' = now s /\ frontend_stalled_until s' = frontend_stalled_until s /\ traced s' = traced s.
Proof.
  induction us as [|u us IH]; intros pre prog0 s Hinv Hh Hb HT Hbatch Hprog Hpre Hroom Hmax; cbn [enter_all].
  { exists s. unfold kept_uops. simpl. rewrite app_nil_r. done. }
  cbn [batch_from] in Hbatch. cbn [length] in *. unfold kept_uops. rewrite filter_cons. destruct (squashed u) eqn:Hsq.
  { rewrite decide_False by done. apply (IH pre prog0); (done || lia). }
  rewrite decide_True by done. destruct Hbatch as [Hf Hbatch].
  destruct (enter_ok cfg P L s u pre prog0 Hinv Hcfg Hprog Hpre Hf) with (T := T) as (s1 & -> & Hent & Hb1);
    [lia|rewrite <- (length_program _ _ _ _ Hinv); lia|done|done|]. cbn [rbind].
  pose proof (history_enter cfg P L Hcfg s u s1 Hinv Hh Hent) as Hh1. destruct Hent as [Hinv1 Hp1 (r & nx & regs & m & st & E) (o & e & Hr & Hk & _)].
  assert (Hlen1 : length (rob s1) = S (length (rob s))) by (rewrite Hr, length_app, <- (Forall2_length _ _ _ Hk); simpl; lia).
  destruct (IH (pre ++ [m_uop u]) prog0 s1) as (s' & -> & Hi' & Hh' & Hb' & Hp' & Hn' & Hf' & Ht'); try done.
  - by rewrite Hp1, Hprog, app_assoc.
  - rewrite length_app. simpl. lia.
  - lia.
  - rewrite Hp1, length_app. simpl. lia.
  - exists s'. rewrite Hp', Hp1, <- app_assoc, Hn', Hf', Ht'. subst s1. done.
Qed.

(** * A call of [simulate] *)
Lemma narrow_cycle t s s' : narrow s -> cycle cfg P L t s s' -> narrow s'.
Proof.
  intros Hn [] Hcw. destruct (Hn Hcw) as [Hlt Hw]. destruct cy_commits as (new & Htr & Hnew & Hlen). specialize (Hlen Hcw).
  pose proof (co_period _ _ _ Hcfg). rewrite Htr, cy_time. split.
  - intros r [Hr|Hr]%elem_of_app; [specialize (Hlt r Hr); lia|]. rewrite (proj1 (Forall_forall _ _) Hnew r Hr). lia.
  - intros i r r' Hr Hr'. apply lookup_app_Some in Hr as [Hr|[Hge Hr]]; apply lookup_app_Some in Hr' as [Hr'|[Hge' Hr']].
    + by apply (Hw i).
    + rewrite (Forall_lookup_1 _ _ _ _ Hnew Hr'). apply Hlt. by eapply list_elem_of_lookup_2.
    + apply lookup_lt_Some in Hr'. lia.
    + apply lookup_lt_Some in Hr'. lia.
Qed.

Lemma cycles_keep s s' : rtc (cycle1 cfg P L) s s' -> history s -> narrow s -> history s' /\ narrow s' /\ program s' = program s /\
  exists new, traced s' = traced s ++ new.
Proof.
  induction 1 as [s|s1 s2 s3 [_ (t & Hc)] _ IH]; intros Hh Hn; [split_and!; [done..|exists []; by rewrite app_nil_r]|].
  pose proof (narrow_cycle t s1 s2 Hn Hc) as Hn2. destruct Hc. pose proof (history_steps cfg P L Hcfg _ _ cy_steps Hh) as Hh2.
  destruct (IH Hh2 Hn2) as (Hh3 & Hn3 & Hp & new & Ht). destruct cy_commits as (new' & Ht' & _).
  split_and!; [done|done|congruence|]. exists (new' ++ new). by rewrite Ht, Ht', app_assoc.
Qed.

Lemma simulate_ok fuel us s :
  steady s -> batch_ok P L us -> 2 * dispatchWidth cfg + Z.of_nat (length us) <= 256 ->
  Z.of_nat (length (program s) + length us) < INVALID_SEQNR -> time s + horizon < MaxTime -> cycle_bound <= Z.of_nat fuel ->
  exists n t s' new, simulate cfg fuel us s = Ok (n, t, s') /\ steady s' /\ time s' = time s + t /\ 0 <= t <= horizon /\
    program s' = program s ++ kept_uops us /\ traced s' = traced s ++ new.
Proof.
  intros [] Hbatch Hsmall Hmax Htime Hfuel. unfold simulate. destruct sd_near0 as [Hb Hf]. destruct sd_idle0 as [Hid1 Hid2].
  pose proof (co_small _ _ _ Hcfg) as (HL & _). pose proof (co_period _ _ _ Hcfg) as HP. pose proof (co_window _ _ _ Hcfg) as Hw.
  pose proof (D_ge cfg P L Hcfg 1 ltac:(lia)) as HD. destruct (i_num _ _ _ _ sd_inv0) as [Hn1 Hn2].
  assert (HhD : D <= horizon) by (unfold horizon, cycle_bound, longest_wait; nia).
  destruct (enter_all_ok (time s + D) us [] (program s) s) as (s1 & -> & Hinv1 & Hh1 & Hb1 & Hp1 & Hnow1 & Hfr1 & Htr1);
    [done|done|done|lia|done|by rewrite app_nil_r|simpl; lia|lia|lia|]. cbn [rbind].
  assert (Ht1 : time s1 = time s) by (unfold time; by rewrite Hnow1).
  assert (Hnear1 : near s1) by (split; [by rewrite Ht1|unfold front_by in *; by rewrite Ht1, Hfr1]).
  assert (Hnar1 : narrow s1) by (unfold narrow in *; by rewrite Htr1, Ht1).
  assert (Hwork : work s1 <= 3 * 1024).
  { unfold work. pose proof (i_room _ _ _ _ Hinv1). destruct (i_num _ _ _ _ Hinv1) as [Hm1 _]. destruct (i_rs _ _ _ _ Hinv1) as [Hrs _].
    pose proof (length_filter (fun x => is_done x = false) (window s1)) as Hl. fold (unissued (window s1)) in Hl.
    unfold window in Hl at 2. rewrite length_take in Hl. lia. }
  pose proof (work_nonneg cfg P L s1 Hinv1) as Hw0.
  assert (Hleft : cycles_left L s1 (longest_wait L) + 1 <= cycle_bound) by (unfold cycles_left, cycle_bound, longest_wait; nia).
  assert (Hleft0 : 0 <= cycles_left L s1 (longest_wait L)) by (unfold cycles_left, longest_wait; nia).
  destruct (execute_all_ok cfg P L Hcfg fuel (longest_wait L) 0 0 s1) as (n & s2 & -> & Hc & Hinv2 & Hnear2 & Hidle2 & Ht2);
    [done|done|lia|by apply (waits_near cfg P L Hcfg)|lia|rewrite Ht1; unfold horizon in Htime; nia|lia|].
  destruct (cycles_keep s1 s2 Hc Hh1 Hnar1) as (Hh2 & Hnar2 & Hp2 & new & Htr2).
  exists n, (time s2 - time s), s2, new. rewrite Ht1 in *. rewrite Z.add_0_l. unfold horizon. split_and!; [done|by split; [..|lia]|lia|lia|nia|congruence|congruence].
Qed.

(** * Runs *)
Inductive call := Simulate (us : list Dyn) | Synchronize (d : Z).

Definition do_call (fuel : nat) (c : call) s : result Timer :=
  match c with
  | Simulate us => let! (_, _, s) := simulate cfg fuel us s in Ok s
  | Synchronize d => Ok (synchronize (time s + d) s)
  end.
Fixpoint run (fuel : nat) (cs : list call) s : result Timer :=
  match cs with
  | [] => Ok s
  | c :: cs' => let! s := do_call fuel c s in run fuel cs' s
  end.

(** Batches have the micro-operations of an instruction, times do not go back. *)
Definition call_ok (c : call) : Prop :=
  match c with
  | Simulate us => batch_ok P L us /\ 2 * dispatchWidth cfg + Z.of_nat (length us) <= 256
  | Synchronize d => 0 <= d
  end.
Definition uops_of (c : call) : list (MicroOp Inst) := match c with Simulate us => kept_uops us | Synchronize _ => [] end.
Definition supplied (cs : list call) : list (MicroOp Inst) := concat (map uops_of cs).
Definition size_of (c : call) : nat := match c with Simulate us => length us | Synchronize _ => 0%nat end.
Definition total (cs : list call) : nat := list_sum (map size_of cs).

Lemma synchronize_steady d s : steady s -> 0 <= d -> steady (synchronize (time s + d) s).
Proof.
  intros [] Hd. set (s' := synchronize _ s). assert (Ht : time s' = time s + d) by done. split.
  - by destruct sd_inv0.
  - destruct sd_near0 as [Hb Hf]. split.
    + destruct (bounded_mono _ (time s' + D) _ Hb ltac:(lia)). by split.
    + unfold front_by in *. rewrite Ht. simpl. destruct Hf; [by left|right; lia].
  - destruct sd_idle0. split; [rewrite Ht; simpl; lia|done].
  - apply (history_other cfg P s); [done..|lia|done].
  - intros Hcw. destruct (sd_narrow0 Hcw) as [Hlt Hw]. split; [|done]. rewrite Ht. intros r Hr. specialize (Hlt r Hr). lia.
  - lia.
Qed.

Lemma run_ok fuel : forall cs s,
  steady s -> Forall call_ok cs -> Z.of_nat (length (program s) + total cs) < INVALID_SEQNR -> cycle_bound <= Z.of_nat fuel ->
  exists k s', run fuel (take k cs) s = Ok s' /\ steady s' /\ program s' = program s ++ supplied (take k cs) /\
    time s <= time s' /\ (k = length cs \/ MaxTime <= time s' + horizon).
Proof.
  induction cs as [|c cs IH]; intros s Hs Hall Hmax Hfuel.
  { exists 0%nat, s. simpl. rewrite app_nil_r. split_and!; [done..|lia|by left]. }
  apply Forall_cons in Hall as [Hc Hall]. destruct (Z.lt_ge_cases (time s + horizon) MaxTime) as [Htime|Htime].
  2:{ exists 0%nat, s. simpl. rewrite app_nil_r. split_and!; [done..|lia|by right]. }
  assert (exists s1, do_call fuel c s = Ok s1 /\ steady s1 /\ program s1 = program s ++ uops_of c /\ time s <= time s1 /\
    (length (uops_of c) <= size_of c)%nat) as (s1 & Heq & Hs1 & Hp1 & Ht1 & Hsz).
  { unfold total in Hmax. simpl in Hmax. destruct c as [us|d]; simpl in *.
    - destruct Hc as [Hb Hsm]. destruct (simulate_ok fuel us s Hs Hb Hsm) as (n & t & s1 & new & -> & Hs1 & Ht & Hr & Hp & _); [lia|done|done|].
      exists s1. split_and!; [done..|lia|]. unfold kept_uops. rewrite length_map. apply length_filter.
    - exists (synchronize (time s + d) s). split_and!; [done|by apply synchronize_steady|by rewrite app_nil_r|change (time s <= time s + d); lia|lia]. }
  destruct (IH s1 Hs1 Hall) as (k & s' & Hrun & Hs' & Hp' & Ht' & Hend); [|done|].
  { rewrite Hp1, length_app. unfold total in *. simpl in Hmax. lia. }
  exists (S k), s'. cbn [take run]. rewrite Heq. cbn [rbind]. split_and!; [done|done| |lia|destruct Hend; [left; simpl; lia|by right]].
  rewrite Hp', Hp1, <- app_assoc. done.
Qed.
End run.
