(* ===== verification/RobModels.v ===== *)
(** The contention models of both core models keep what the reorder buffer relies
    on. *)
From stdpp Require Import base numbers list sets.
From Stdlib Require Import ZArith Lia Bool.
From S2P Require Import Prelude Timing QueueLemmas MicroOp RobContention RobTimer RobInv.
Open Scope Z_scope.
#[export] Existing Instance Nehalem.rob_contention.
#[export] Existing Instance BoomV1.rob_contention.

(** The unit that is not pipelined is free again after the latency. *)
Lemma used_until t latency bound : 0 <= ComponentTime.m_time t -> 0 <= ComponentTime.m_period t -> 0 <= latency <= bound ->
  ComponentTime.m_time t + bound * ComponentTime.m_period t < 2 ^ 64 ->
  ComponentTime.m_time (ComponentTime.addCycleLatency latency t) <= ComponentTime.m_time t + bound * ComponentTime.m_period t.
Proof. intros Ht Hp Hl Hb. simpl. rewrite tmul_small, tadd_small by nia. nia. Qed.

Section nehalem.
Context {Inst : Type} `{Decoder Inst} `{Xed}.

Lemma nehalem_latency (c : xed_iclass) : 0 <= Nehalem.instructionLatencies c <= 110.
Proof. destruct c; simpl; lia. Qed.

Lemma nehalem_alu_latency (u : MicroOp Inst) n : Nehalem.alu_latency u = Ok n -> 0 <= n <= 110.
Proof.
  assert (Hall : forall m, Nehalem.instruction_latency u = Ok m -> 0 <= m <= 110).
  { intros m. unfold Nehalem.instruction_latency, rguard. destruct (_ && _); cbn [rbind]; [|done]. intros [= <-]. apply nehalem_latency. }
  unfold Nehalem.alu_latency. destruct (iclass_of _); try apply Hall; intros [= <-]; destruct (32 <? _); lia.
Qed.

(** A port is free at the start of a cycle. *)
Lemma nehalem_port (p : Nehalem.uop_port_t) t (c : Nehalem.contention) : exists c', Nehalem.take_port p (Nehalem.init_cycle t c) = Some c' /\
  Nehalem.m_now c' = Nehalem.m_now (Nehalem.init_cycle t c) /\ Nehalem.alu_used_until c' = Nehalem.alu_used_until c.
Proof. destruct p; by eexists. Qed.

Lemma nehalem_take (p : Nehalem.uop_port_t) (c c' : Nehalem.contention) : Nehalem.take_port p c = Some c' ->
  Nehalem.m_now c' = Nehalem.m_now c /\ Nehalem.alu_used_until c' = Nehalem.alu_used_until c.
Proof. destruct p; simpl; repeat case_match; intros [= <-]; done. Qed.

#[export] Program Instance nehalem_laws : RobContentionLaws Nehalem.contention Inst Nehalem.info := {
  issuable := fun u i => Nehalem.uop_alu i = UOP_ALU_NONE \/ exists n, Nehalem.alu_latency u = Ok n;
  clock := fun c => ComponentTime.m_time (Nehalem.m_now c);
  busy := fun c => Nehalem.alu_used_until c UOP_ALU_TRIG;
  c_period := fun c => ComponentTime.m_period (Nehalem.m_now c);
  max_alu_latency := 110
}.
Next Obligation. done. Qed.
Next Obligation.
  intros u t c Hb. cbv beta in Hb. simpl. unfold Nehalem.try_issue.
  destruct (nehalem_port (Nehalem.uop_port (core_info u)) t c) as (c' & -> & Hn & Ha).
  destruct (Nehalem.uop_alu (core_info u)); [done|]. simpl. rewrite Ha, Hn. simpl. by apply Z.leb_le.
Qed.
Next Obligation.
  intros u c. simpl. unfold Nehalem.try_issue. destruct (Nehalem.take_port _ c) as [c'|] eqn:Ht; [|done].
  destruct (nehalem_take _ _ _ Ht) as [Hn Ha]. destruct (Nehalem.uop_alu (core_info u)); simpl; by rewrite Hn, Ha.
Qed.
Next Obligation.
  intros u c Hi Hc Hp Hb. cbv beta in *. simpl. unfold Nehalem.do_issue. destruct (Nehalem.uop_alu (core_info u)) eqn:Ha.
  - exists c. split_and!; [done..|lia].
  - destruct Hi as [?|(n & Hn)]; [done|]. rewrite Hn. cbn [rbind]. eexists. split_and!; [done..|]. cbn [Nehalem.alu_used_until]. rewrite bool_decide_true by done.
    pose proof (used_until (Nehalem.m_now c) n 110 Hc Hp (nehalem_alu_latency _ _ Hn) Hb). lia.
Qed.
End nehalem.

Section boom.
Context {Inst : Type} `{Decoder Inst}.

Lemma boom_alu_latency (u : MicroOp Inst) n : BoomV1.alu_latency u = Ok n -> 0 <= n <= 32.
Proof.
  unfold BoomV1.alu_latency, BoomV1.instruction_latency. destruct (existsb _ _); [intros [= <-]; lia|].
  unfold rguard. destruct (_ && _); cbn [rbind]; [|done]. destruct (aget _ _) as [f|]; cbn [rbind]; [|done].
  intros [= <-]. unfold BoomV1.instructionLatencies. repeat case_match; lia.
Qed.

Lemma boom_port (p : BoomV1.uop_port_t) t (c : BoomV1.contention) : exists c', BoomV1.take_port p (BoomV1.init_cycle t c) = Some c' /\
  BoomV1.m_now c' = BoomV1.m_now (BoomV1.init_cycle t c) /\ BoomV1.alu_used_until c' = BoomV1.alu_used_until c.
Proof. destruct p; by eexists. Qed.

Lemma boom_take (p : BoomV1.uop_port_t) (c c' : BoomV1.contention) : BoomV1.take_port p c = Some c' ->
  BoomV1.m_now c' = BoomV1.m_now c /\ BoomV1.alu_used_until c' = BoomV1.alu_used_until c.
Proof. destruct p; simpl; repeat case_match; intros [= <-]; done. Qed.

#[export] Program Instance boom_laws : RobContentionLaws BoomV1.contention Inst BoomV1.info := {
  issuable := fun u i => BoomV1.uop_alu i = UOP_ALU_NONE \/ exists n, BoomV1.alu_latency u = Ok n;
  clock := fun c => ComponentTime.m_time (BoomV1.m_now c);
  busy := fun c => BoomV1.alu_used_until c UOP_ALU_TRIG;
  c_period := fun c => ComponentTime.m_period (BoomV1.m_now c);
  max_alu_latency := 32
}.
Next Obligation. done. Qed.
Next Obligation.
  intros u t c Hb. cbv beta in Hb. simpl. unfold BoomV1.try_issue.
  destruct (boom_port (BoomV1.uop_port (core_info u)) t c) as (c' & -> & Hn & Ha).
  destruct (BoomV1.uop_alu (core_info u)); [done|]. simpl. rewrite Ha, Hn. simpl. by apply Z.leb_le.
Qed.
Next Obligation.
  intros u c. simpl. unfold BoomV1.try_issue. destruct (BoomV1.take_port _ c) as [c'|] eqn:Ht; [|done].
  destruct (boom_take _ _ _ Ht) as [Hn Ha]. destruct (BoomV1.uop_alu (core_info u)); simpl; by rewrite Hn, Ha.
Qed.
Next Obligation.
  intros u c Hi Hc Hp Hb. cbv beta in *. simpl. unfold BoomV1.do_issue. destruct (BoomV1.uop_alu (core_info u)) eqn:Ha.
  - exists c. split_and!; [done..|lia].
  - destruct Hi as [?|(n & Hn)]; [done|]. rewrite Hn. cbn [rbind]. eexists. split_and!; [done..|]. cbn [BoomV1.alu_used_until]. rewrite bool_decide_true by done.
    pose proof (used_until (BoomV1.m_now c) n 32 Hc Hp (boom_alu_latency _ _ Hn) Hb). lia.
Qed.
End boom.
