(* ===== verification/RobProps.v ===== *)
(** The properties of the out-of-order core model. *)
From stdpp Require Import base numbers list sets relations.
From Stdlib Require Import ZArith Lia Bool Sorted.
From S2P Require Import Prelude Timing Queues QueueLemmas MicroOp Dependencies RobDeps RobContention RobTimer RobEntries RobWake RobEnter RobInv RobArrive RobIssue RobWindow RobDispatch RobCommit RobCycle RobExecute RobSim RobHistory RobRun RobModels.
Open Scope Z_scope.

Section props.
Context {Inst Info C M : Type} `{Decoder Inst} `{!DataMemory M} `{!DataMemoryLaws M}
  `{!RobContention C (DynamicMicroOp Inst Info)} `{!RobContentionLaws C Inst Info}.
Abbreviation Dyn := (DynamicMicroOp Inst Info).
Abbreviation Timer := (RobTimer Inst Info C M).
Implicit Types s : Timer.

(** The configuration, the cycle time and what the core model starts with. *)
Record setup_ok (cfg : RobConfig) (P L : Z) (c : option C) (m : M) : Prop := mkSetup {
  su_config : config_ok cfg P L;
  su_registers : 0 <= last_reg <= RegisterDependencies.size;
  su_memory : mem_inv m;
  su_contention : match c with Some c => c_period c = P /\ busy c <= 0 | None => True end
}.

Lemma new_stats_ok cfg : stats_ok cfg (new_stats cfg).
Proof.
  unfold new_stats. split; cbn [m_producerInsDistance m_outstandingLoadsAll m_outstandingLoads]; [apply length_replicate|]. intros Hm. rewrite Hm.
  split_and!; [done|by rewrite length_map, length_seq|].
  intros h row Hh. rewrite list_lookup_fmap. intros (k & [-> Hk]%lookup_seq & ->)%fmap_Some.
  pose proof (where_range h Hh). rewrite Nat.add_0_l, Z2Nat.id by lia. by rewrite Hh.
Qed.

Lemma new_timer_ok cfg P L c m : setup_ok cfg P L c m ->
  exists s, new_timer cfg P c m = Ok s /\ steady cfg P L s /\ program s = [].
Proof.
  intros [Hcfg Hreg Hm Hc]. unfold new_timer, RegisterDependencies.create, rguard. rewrite (proj2 (Z.leb_le _ _)) by lia. cbn [rbind].
  eexists. split; [done|]. set (s := mkTimer _ _ _ _ _ _ _ _ _ _ _ _ _ _ _ _ _ _ _ _ _ _ _). split; [|done].
  pose proof (co_window _ _ _ Hcfg). pose proof (co_small _ _ _ Hcfg) as (HL & _). pose proof (D_ge cfg P L Hcfg 0 ltac:(lia)) as HD.
  assert (Hq : forall n, queue_ok n (ContentionModel.create n)).
  { intros n. split_and!; [done|simpl; apply length_replicate|]. simpl. apply Forall_replicate. done. }
  assert (Hby : forall n t, 0 <= t -> slots_by t (ContentionModel.create n)) by (intros n t Ht; by apply Forall_replicate).
  split.
  - split; try done; simpl; try lia.
    + split; [done|]. pose proof (co_rs _ _ _ Hcfg). lia.
    + split; [by apply length_replicate|]. by apply Forall_replicate; left.
    + intros r p Hr [-> _]%lookup_replicate. by rewrite Z.eqb_refl.
    + split; [|by left]. exists []. split_and!; [by apply cq_create_repr|done|constructor|constructor].
    + split; [done|by apply Hby].
    + destruct c; [by destruct Hc|done].
    + apply new_stats_ok.
  - split; [|right; change (0 <= 0 + D P L); lia]. split; simpl; [done|change (0 <= 0 + D P L); lia|apply Hby; change (0 <= 0 + D P L); lia|].
    destruct c; [destruct Hc; change (time s) with 0; lia|done].
  - split; [done|]. simpl. pose proof (co_dispatch _ _ _ Hcfg). lia.
  - split; try done; simpl; intros ? ? ? ?; by rewrite lookup_nil.
  - intros Hcw. split; simpl; [intros r Hr; by apply not_elem_of_nil in Hr|done].
  - done.
Qed.

(** * Runs *)

(** The calls [cs] from a new timer succeed, all of them or until the simulated
    time gets within [horizon] of the largest one, and lead to a state with [Q]. *)
Definition completes (cfg : RobConfig) (P L : Z) (c : option C) (m : M) (fuel : nat) (cs : list call)
    (Q : nat -> Timer -> Prop) : Prop :=
  exists s0 k s, new_timer cfg P c m = Ok s0 /\ run cfg fuel (take k cs) s0 = Ok s /\
    (k = length cs \/ MaxTime <= time s + horizon P L) /\ Q k s.

(** What the calls are: batches of micro-operations that may follow each other, and
    enough fuel for the loop of [simulate]. *)
Record calls_ok (cfg : RobConfig) (P L : Z) (fuel : nat) (cs : list (@call Inst Info)) : Prop := mkCallsOk {
  cl_calls : Forall (call_ok cfg P L) cs;
  cl_total : Z.of_nat (total cs) < INVALID_SEQNR;
  cl_fuel : cycle_bound L <= Z.of_nat fuel
}.

Definition committed s : list (MicroOp Inst) := map (fun r => m_uop (t_uop r)) (traced s).

Lemma completes_steady cfg P L c m fuel cs (Q : nat -> Timer -> Prop) :
  setup_ok cfg P L c m -> calls_ok cfg P L fuel cs ->
  (forall k s, steady cfg P L s -> program s = supplied (take k cs) -> Q k s) -> completes cfg P L c m fuel cs Q.
Proof.
  intros Hsu [] HQ. destruct (new_timer_ok cfg P L c m Hsu) as (s0 & Hnew & Hs0 & Hp0). destruct Hsu.
  destruct (run_ok cfg P L su_config0 fuel cs s0) as (k & s & Hrun & Hs & Hp & _ & Hend); [done|done|by rewrite Hp0|done|].
  exists s0, k, s. rewrite Hp0 in Hp. split_and!; [done..|by apply HQ].
Qed.

(** C13: no call of [simulate] fails or loops for ever, until the simulated time is
    used up, in a configuration that satisfies [config_ok] (a window of at most 769
    entries, a penalty of at least two cycles, latencies within the bound, ...) and
    for micro-operations that satisfy [calls_ok]: each has at most six dependencies,
    those of one kind in an instruction do not depend on each other, and at most 256
    with twice the dispatch width come in one call.  The reorder buffer finds all entries it
    looks for, the dependencies that are removed are there, the arrays are not
    overrun, the assertions hold, and between two moves the timer waits for a time
    that comes, so [cycle_bound] cycles are enough for a call; the call returns when
    fewer than twice the dispatch width of micro-operations wait for dispatch. *)
Theorem rob_run_ends cfg P L c m fuel cs :
  setup_ok cfg P L c m -> calls_ok cfg P L fuel cs ->
  completes cfg P L c m fuel cs (fun _ s =>
    frontend_stalled_until s <= time s /\ Z.of_nat (length (rob s)) < m_num_in_rob s + 2 * dispatchWidth cfg /\
    m_num_in_rob s <= windowSize cfg /\ m_rs_entries_used s <= rsEntries cfg).
Proof.
  intros Hsu Hcl. apply completes_steady; [done..|]. intros k s [Hinv _ [Hf Hl] _ _ _] _.
  destruct (i_num _ _ _ _ Hinv) as [_ Hn]. destruct (i_rs _ _ _ _ Hinv) as [_ Hr]. done.
Qed.

(** C15: micro-operations commit in the order they were supplied in, none is lost or
    committed twice, and each goes through the stages in order: it is dispatched no
    later than it is issued, is done its latency and one cycle after that (a store
    after one cycle), and commits when it is done; dispatch and commit are in order,
    and at most [commitWidth] commit at the same time (0 means no limit). *)
Theorem rob_commits_in_order cfg P L c m fuel cs :
  setup_ok cfg P L c m -> calls_ok cfg P L fuel cs ->
  completes cfg P L c m fuel cs (fun k s =>
    (exists rest, supplied (take k cs) = committed s ++ rest /\
       Z.of_nat (length rest) < windowSize cfg + 2 * dispatchWidth cfg) /\
    ordered (map t_dispatch (traced s)) /\ ordered (map t_commit (traced s)) /\
    (1 <= commitWidth cfg -> forall i r r', traced s !! i = Some r -> traced s !! (i + Z.to_nat (commitWidth cfg))%nat = Some r' ->
       t_commit r < t_commit r') /\
    forall i r, traced s !! i = Some r ->
      t_dispatch r <= t_issue r /\
      t_done r = t_issue r + (if isStore (m_uop (t_uop r)) then 1 else execLatency (t_uop r) + 1) * P /\
      t_issue r < t_done r <= t_commit r).
Proof.
  intros Hsu Hcl. apply completes_steady; [done..|]. intros k s [Hinv _ [_ Hl] [_ _ Htr Hcm Hdis _] Hnar _] Hp.
  destruct (i_num _ _ _ _ Hinv) as [_ Hn]. split_and!.
  - exists (map mop (rob s)). split; [by rewrite <- Hp|]. rewrite length_map. lia.
  - intros i j a b Hij Ha Hb. apply (Hdis i j a b Hij); by apply lookup_app_l_Some.
  - done.
  - intros Hcw. by apply Hnar.
  - intros i r Hr. destruct (Htr i r Hr) as [[] Hc]. destruct Hsu.
    pose proof (finished_later cfg P L su_config0 (m_uop (t_uop r)) (t_issue r) (execLatency (t_uop r)) td_latency) as [_ Hlt].
    rewrite td_done in *. split_and!; [done|done|lia|lia].
Qed.

(** C14: the timing respects the data flow: a micro-operation that reads a register
    is issued only when the result of the last micro-operation before it that writes
    the register can be used, the latency of that one after its issue.  Only a load
    that looks through a store (store-to-load forwarding) does not wait for it. *)
Theorem rob_respects_data_flow cfg P L c m fuel cs :
  setup_ok cfg P L c m -> calls_ok cfg P L fuel cs ->
  completes cfg P L c m fuel cs (fun _ s =>
    forall i j p r, traced s !! i = Some p -> traced s !! j = Some r ->
      awaits (committed s) j (m_uop (t_uop r)) i ->
      ~ (m_store_to_load_forwarding cfg = true /\ isLoad (m_uop (t_uop r)) = true /\ isStore (m_uop (t_uop p)) = true) ->
      t_issue p + (if isStore (m_uop (t_uop p)) then 1 else execLatency (t_uop p)) * P <= t_issue r).
Proof.
  intros Hsu Hcl. apply completes_steady; [done..|]. intros k s [_ _ _ [_ _ _ _ _ Hfed] _ _] _ i j p r Hi Hj Ha Hno.
  assert (Hci : committed s !! i = Some (m_uop (t_uop p))) by (unfold committed; by rewrite list_lookup_fmap, Hi).
  assert (Hcj : committed s !! j = Some (m_uop (t_uop r))) by (unfold committed; by rewrite list_lookup_fmap, Hj).
  pose proof (lookup_lt_Some _ _ _ Hcj) as Hlt.
  destruct (Hfed j (m_uop (t_uop r)) i) as [Hav _].
  - by apply lookup_app_l_Some.
  - destruct Ha as (reg & Hr & (w & Hw & Hd) & Hij & Hmax). exists reg. split_and!; [done| |done|].
    + exists w. split; [by apply lookup_app_l_Some|done].
    + intros k' w' Hk' Hw'. apply Hmax; [done|]. unfold program in Hw'. by rewrite lookup_app_l in Hw' by (fold (committed s); lia).
  - intros (H1 & H2 & w & Hw & Hs). apply Hno. split_and!; [done..|]. rewrite Nat2Z.id in Hw.
    unfold program in Hw. rewrite lookup_app_l in Hw by (apply lookup_lt_Some in Hi; by rewrite length_map).
    fold (committed s) in Hw. rewrite Hci in Hw. by injection Hw as <-.
  - destruct (Hav (t_issue r)) as (t & Ht & Hle).
    { unfold issues. apply lookup_hist. left. by exists r. }
    unfold results in Ht. apply lookup_hist in Ht as [(p' & Hp' & [= ->])|(j' & e & -> & _)].
    + rewrite Hi in Hp'. injection Hp' as <-. exact Hle.
    + apply lookup_lt_Some in Hi. lia.
Qed.
End props.
