(* ===== verification/RobDemo.v ===== *)
(** A small machine on which the properties of the core model are evaluated: a data
    cache that takes three cycles, the ports of Nehalem, and a loop body of a load,
    two additions that depend on each other, a store and a load of the stored value. *)
From stdpp Require Import base numbers list sets.
From Stdlib Require Import ZArith Lia Bool.
From S2P Require Import Prelude Timing MicroOp Dependencies RobContention RobTimer RobDeps RobInv RobArrive RobSim RobHistory RobRun RobModels RobProps.
Open Scope Z_scope.

#[export] Instance demo_decoder : Decoder unit := {
  largest_enclosing_register := id; invalid_register := Z.eqb 0; reg_is_program_counter := fun _ => false; last_reg := 64;
  num_operands := fun _ => 0%nat; num_memory_operands := fun _ => 0%nat; mem_base_reg := fun _ _ => 0; mem_index_reg := fun _ _ => 0;
  op_read_mem := fun _ _ => false; op_write_mem := fun _ _ => false; op_read_reg := fun _ _ => false; op_write_reg := fun _ _ => false;
  is_addr_gen := fun _ _ => false; op_is_reg := fun _ _ => false; get_op_reg := fun _ _ => 0; size_mem_op := fun _ _ => 0;
  get_exec_microops := fun _ _ _ => 1; get_operand_size := fun _ => 64; is_pause_opcode := fun _ => false; is_branch_opcode := fun _ => false;
  is_fpvector_addsub_opcode := fun _ _ => false; is_fpvector_muldiv_opcode := fun _ _ => false; is_fpvector_ldst_opcode := fun _ _ => false;
  inst_num_id := fun _ => 1; is_nop := fun _ => false; is_atomic := fun _ => false; is_serializing := fun _ => false;
  is_conditional_branch := fun _ => false; is_barrier := fun _ => false; src_dst_merge := fun _ => false; is_X87 := fun _ => false
}.
#[export] Instance demo_xed : Xed := { iclass_of := fun _ => XED_OTHER; XED_ICLASS_LAST := 2000 }.
#[export] Instance demo_memory : DataMemory unit := { access_data := fun _ _ _ _ _ m => Ok (3000, 3, m) }.
#[export] Program Instance demo_memory_laws : DataMemoryLaws unit := { mem_inv := fun _ => True; max_latency := 3000 }.
Next Obligation. intros. eexists _, _, _. by split_and!. Qed.

Abbreviation DUop := (DynamicMicroOp unit Nehalem.info).

Definition demo_cfg : RobConfig := mkRobConfig 2 2 8 4 8 true true false true 0 2 2.
Definition demo_port (p : Nehalem.uop_port_t) : Nehalem.info := Nehalem.mkInfo p UOP_ALU_NONE UOP_BYPASS_NONE.
Definition demo_exec (src dst : list Z) : DUop :=
  new_DynamicMicroOp (with_registers src [] dst (makeExecute 0 0 1 false new_MicroOp)) 1 (demo_port Nehalem.UOP_PORT015).
Definition demo_load (a : Z) (src dst : list Z) : DUop :=
  setAddress a (new_DynamicMicroOp (with_registers src src dst (makeLoad 0 1 8 new_MicroOp)) 1 (demo_port Nehalem.UOP_PORT2)).
Definition demo_store (a : Z) (src : list Z) : DUop :=
  setAddress a (new_DynamicMicroOp (with_registers src src [] (makeStore 0 0 1 8 new_MicroOp)) 1 (demo_port Nehalem.UOP_PORT34)).
Definition demo_body : list (list DUop) :=
  [[demo_load 64 [1] [2]]; [demo_exec [2] [3]]; [demo_exec [3] [4]]; [demo_store 128 [4]]; [demo_load 128 [5] [6]]; [demo_exec [6] [7]]].
Definition demo_calls : list call := map Simulate (demo_body ++ demo_body) ++ [Synchronize 5000] ++ map Simulate demo_body.

(** The model runs: the micro-operations that have committed, as number, dispatch,
    issue, end and commit in cycles.  The second load (number 4) follows the store to
    its address and is issued with it: it looks through the store. *)
Example demo_run :
  (let! s := new_timer demo_cfg 1000 (Some (Nehalem.create 1000)) tt in
   let! s := run demo_cfg 100 demo_calls s in
   Ok (map (fun r => (sequenceNumber (t_uop r), t_dispatch r / 1000, t_issue r / 1000, t_done r / 1000, t_commit r / 1000)) (traced s)))
  = Ok [(0, 0, 1, 6, 6); (1, 0, 5, 7, 7); (2, 1, 6, 8, 8); (3, 1, 7, 8, 8); (4, 2, 7, 12, 14);
        (5, 6, 14, 16, 16); (6, 7, 8, 13, 16); (7, 8, 14, 16, 17); (8, 8, 15, 17, 17)].
Proof. vm_compute. reflexivity. Qed.

(** An instruction of two executes that both read and write a register stops the
    model: the second depends on the first through the register, and
    [removeDependency] takes the number of the first for one of an earlier kind. *)
Definition demo_second (src dst : list Z) : DUop :=
  new_DynamicMicroOp (with_registers src [] dst (makeExecute 1 0 1 false new_MicroOp)) 1 (demo_port Nehalem.UOP_PORT015).
Example demo_two_executes_fail :
  (let! s := new_timer demo_cfg 1000 (Some (Nehalem.create 1000)) tt in
   run demo_cfg 100 (Simulate [demo_exec [3] [3]; demo_second [3] [3]] :: demo_calls) s) = Err LogError.
Proof. vm_compute. reflexivity. Qed.

Definition demo_fuel : nat := Z.to_nat (cycle_bound 120).

Lemma demo_setup : setup_ok demo_cfg 1000 120 (Some (Nehalem.create 1000)) tt.
Proof. split; [split|..]; vm_compute; repeat split; congruence. Qed.

(** A micro-operation on its own may follow nothing. *)
Lemma demo_single (u : DUop) :
  uop_static 120 u -> access_fits 1000 120 u -> squashed u = false -> dependencies u = [] -> typeOffset u = 0 -> intraDependencies u = 0 ->
  (length (sourceRegisters (m_uop u)) <= 6)%nat -> call_ok demo_cfg 1000 120 (Simulate [u]).
Proof.
  intros Hs Ha Hsq Hd Ht Hi Hl. split; [|vm_compute; congruence]. unfold batch_ok. cbn [batch_from]. rewrite Hsq. split; [|done].
  split; rewrite ?Ht, ?Hi; try done; simpl; lia.
Qed.

Lemma demo_registers (rs : list Z) : forallb (fun r => (0 <=? r) && (r <? 64)) rs = true -> Forall (fun r => 0 <= r < last_reg) rs.
Proof. rewrite forallb_forall. intros H. apply Forall_forall. intros r Hr%list_elem_of_In%H. change last_reg with 64. lia. Qed.

Ltac demo_uop :=
  apply demo_single; [split; first [by apply demo_registers|done|vm_compute; naive_solver] | vm_compute; naive_solver | done | done | done | done | simpl; lia].

Lemma demo_calls_ok : calls_ok demo_cfg 1000 120 demo_fuel demo_calls.
Proof.
  assert (Hbody : Forall (fun us => call_ok demo_cfg 1000 120 (Simulate us)) demo_body).
  { unfold demo_body. repeat (apply Forall_cons_2; [demo_uop|]). done. }
  split.
  - unfold demo_calls. rewrite map_app, !Forall_app. rewrite !Forall_fmap. split_and!; try done. by repeat constructor.
  - vm_compute. congruence.
  - unfold demo_fuel. rewrite Z2Nat.id by (vm_compute; congruence). lia.
Qed.

Abbreviation demo_completes := (completes demo_cfg 1000 120 (Some (Nehalem.create 1000)) tt demo_fuel demo_calls).

Lemma rob_run_ends_witness :
  demo_completes (fun _ s =>
    frontend_stalled_until s <= time s /\ Z.of_nat (length (rob s)) < m_num_in_rob s + 4 /\ m_num_in_rob s <= 8 /\ m_rs_entries_used s <= 4).
Proof. apply (rob_run_ends demo_cfg 1000 120); [exact demo_setup|exact demo_calls_ok]. Defined.

Lemma rob_commits_in_order_witness :
  demo_completes (fun k s =>
    (exists rest, supplied (take k demo_calls) = committed s ++ rest /\ Z.of_nat (length rest) < 8 + 4) /\
    ordered (map t_dispatch (traced s)) /\ ordered (map t_commit (traced s)) /\
    (1 <= 2 -> forall i r r', traced s !! i = Some r -> traced s !! (i + 2)%nat = Some r' -> t_commit r < t_commit r') /\
    forall i r, traced s !! i = Some r ->
      t_dispatch r <= t_issue r /\
      t_done r = t_issue r + (if isStore (m_uop (t_uop r)) then 1 else execLatency (t_uop r) + 1) * 1000 /\
      t_issue r < t_done r <= t_commit r).
Proof. apply (rob_commits_in_order demo_cfg 1000 120); [exact demo_setup|exact demo_calls_ok]. Defined.

Lemma rob_respects_data_flow_witness :
  demo_completes (fun _ s =>
    forall i j p r, traced s !! i = Some p -> traced s !! j = Some r ->
      awaits (committed s) j (m_uop (t_uop r)) i ->
      ~ (true = true /\ isLoad (m_uop (t_uop r)) = true /\ isStore (m_uop (t_uop p)) = true) ->
      t_issue p + (if isStore (m_uop (t_uop p)) then 1 else execLatency (t_uop p)) * 1000 <= t_issue r).
Proof. apply (rob_respects_data_flow demo_cfg 1000 120); [exact demo_setup|exact demo_calls_ok]. Defined.
