(* ===== verification/PerfModel.v ===== *)
(** How a core simulates an instruction (performance_model/instruction.h,
    dynamic_instruction.cc, performance_model.cc and
    performance_models/micro_op_performance_model.cc, rob_performance_model.cc):
    its micro-operations get the latencies of the instruction cache and, if
    memory is accessed before issue, of its data, the branch predictor says
    whether its branch goes wrong, and the reorder buffer says how much time passes.

    The micro-operations of an instruction are what InstructionDecoder gave when
    it was first seen.  The caches are the interface [InstructionMemory].  The
    fast-forward model is left out, and the instruction queue is filled by the
    thread that empties it. *)
From stdpp Require Import base numbers list.
From Stdlib Require Import ZArith Lia Bool.
From S2P Require Import Prelude BranchPredictor Timing MicroOp Dependencies RobContention RobTimer.
Open Scope Z_scope.

(** * Instructions *)
Inductive operand_type := REG | MEMORY | IMMEDIATE.
Inductive direction := READ | WRITE.
#[export] Instance direction_eq_dec : EqDecision direction.
Proof. solve_decision. Defined.
Record Operand := mkOperand { m_type : operand_type; m_direction : direction }.

Inductive InstructionType :=
  | INST_GENERIC | INST_ADD | INST_SUB | INST_MUL | INST_DIV | INST_FADD | INST_FSUB | INST_FMUL | INST_FDIV
  | INST_JMP | INST_BRANCH | INST_PSEUDO_MISC | INST_RECV | INST_SYNC | INST_SPAWN | INST_TLB_MISS
  | INST_MEM_ACCESS | INST_DELAY | INST_UNKNOWN.
#[export] Instance instruction_type_eq_dec : EqDecision InstructionType.
Proof. solve_decision. Defined.

(** What idle time is spent on: the types of SyncInstruction, the delay of a
    frequency change, and receiving; and the time before the first thread. *)
Inductive idle_t :=
  | FUTEX | PTHREAD_MUTEX | PTHREAD_COND | PTHREAD_BARRIER | JOIN | PAUSE | SLEEP | SYSCALL | UNSCHEDULED
  | DVFS_TRANSITION | RECV | START_TIME.
#[export] Instance idle_eq_dec : EqDecision idle_t.
Proof. solve_decision. Defined.

(** The members of the subclasses are those of all of them. *)
Record Instruction {Inst : Type} := mkInstruction {
  getType : InstructionType;
  getOperands : list Operand;
  getMicroOps : option (list (MicroOp Inst));
  getAddress : Z;
  getSize : Z;
  isAtomic : bool;
  m_cost : Z;
  isIfetch : bool;
  getDataAddress : Z;
  isFence : bool;
  getTime : Z;
  idle_kind : idle_t
}.
Arguments Instruction : clear implicits.

Definition isPseudo {Inst} (i : Instruction Inst) : bool :=
  match getType i with
  | INST_PSEUDO_MISC | INST_RECV | INST_SYNC | INST_SPAWN | INST_TLB_MISS | INST_MEM_ACCESS | INST_DELAY | INST_UNKNOWN => true
  | _ => false
  end.
Definition isIdle {Inst} (i : Instruction Inst) : bool :=
  match getType i with INST_SYNC | INST_DELAY | INST_RECV => true | _ => false end.

(** * Dynamic instructions *)
Record MemoryInfo := mkInfo {
  executed : bool;
  dir : direction;
  addr : Z;
  size : Z;
  latency : Z;
  hit_where : Z
}.
Definition MAX_MEMORY : nat := 2.
Definition PREDICATE_FALSE : Z := 22.

Record DynamicInstruction {Inst : Type} := mkDynamicInstruction {
  instruction_ : Instruction Inst;
  eip : Z;
  is_branch : bool;
  taken : bool;
  target : Z;
  memory_info : list MemoryInfo
}.
Arguments DynamicInstruction : clear implicits.

Definition addMemory {Inst} (i : MemoryInfo) (d : DynamicInstruction Inst) : result (DynamicInstruction Inst) :=
  guard! bool_decide (length (memory_info d) < MAX_MEMORY)%nat else LogError in
  Ok (mkDynamicInstruction _ (instruction_ d) (eip d) (is_branch d) (taken d) (target d) (memory_info d ++ [i])).
Definition addBranch {Inst} (taken_ : bool) (target_ : Z) (d : DynamicInstruction Inst) : DynamicInstruction Inst :=
  mkDynamicInstruction _ (instruction_ d) (eip d) true taken_ target_ (memory_info d).

(** The accesses of a core that carry their time. *)
Inductive mem_op := MEM_READ | MEM_READ_EX | MEM_WRITE.
Class InstructionMemory (M : Type) := {
  readInstructionMemory : forall (eip size now : Z), M -> result (Z * Z * M);
  accessMemory_ : forall (op : mem_op) (address size eip now : Z), M -> result (Z * Z * M)
}.

(** * The performance model *)
Record PerfConfig := mkPerfConfig {
  rob_config : RobConfig;
  m_issue_memops : bool;
  enable_icache_modeling : bool;
  mispredict_penalty_ : Z;
  instruction_costs : InstructionType -> Z
}.

Record PerfModel {Inst Info C M B : Type} := mkPerf {
  m_enabled : bool;
  m_instruction_count : Z;
  m_elapsed_time : ComponentTime.t;
  m_idle_elapsed_time : ComponentTime.t;
  m_instruction_queue : list (DynamicInstruction Inst);
  m_bp : option B;
  rob_timer : RobTimer Inst Info C M;
  m_dyninsn_count : Z;
  m_dyninsn_zero_count : Z;
  m_cpiITLBMiss : Z;
  m_cpiDTLBMiss : Z;
  m_cpiUnknown : Z;
  m_cpiMemAccess : Z;
  m_cpiIdle : idle_t -> Z
}.
Arguments PerfModel : clear implicits.

Section perf.
Context {Inst Info C M B : Type} `{Decoder Inst} `{!CoreModel Inst Info} `{!DataMemory M} `{!InstructionMemory M}
  `{!RobContention C (DynamicMicroOp Inst Info)} `{!BranchPredictor B}.
Abbreviation Dyn := (DynamicMicroOp Inst Info).
Abbreviation Timer := (RobTimer Inst Info C M).
Abbreviation Perf := (PerfModel Inst Info C M B).
Implicit Types s : Perf.
Implicit Types u : Dyn.
Implicit Types d : DynamicInstruction Inst.
Variable cfg : PerfConfig.

Definition with_rob_timer (t : Timer) s : Perf :=
  mkPerf _ _ _ _ _ (m_enabled s) (m_instruction_count s) (m_elapsed_time s) (m_idle_elapsed_time s) (m_instruction_queue s)
    (m_bp s) t (m_dyninsn_count s) (m_dyninsn_zero_count s) (m_cpiITLBMiss s) (m_cpiDTLBMiss s) (m_cpiUnknown s)
    (m_cpiMemAccess s) (m_cpiIdle s).
Definition with_bp (b : option B) s : Perf :=
  mkPerf _ _ _ _ _ (m_enabled s) (m_instruction_count s) (m_elapsed_time s) (m_idle_elapsed_time s) (m_instruction_queue s)
    b (rob_timer s) (m_dyninsn_count s) (m_dyninsn_zero_count s) (m_cpiITLBMiss s) (m_cpiDTLBMiss s) (m_cpiUnknown s)
    (m_cpiMemAccess s) (m_cpiIdle s).
Definition with_queue (q : list (DynamicInstruction Inst)) s : Perf :=
  mkPerf _ _ _ _ _ (m_enabled s) (m_instruction_count s) (m_elapsed_time s) (m_idle_elapsed_time s) q
    (m_bp s) (rob_timer s) (m_dyninsn_count s) (m_dyninsn_zero_count s) (m_cpiITLBMiss s) (m_cpiDTLBMiss s) (m_cpiUnknown s)
    (m_cpiMemAccess s) (m_cpiIdle s).
Definition with_elapsed (count : Z) (t idle : ComponentTime.t) s : Perf :=
  mkPerf _ _ _ _ _ (m_enabled s) count t idle (m_instruction_queue s)
    (m_bp s) (rob_timer s) (m_dyninsn_count s) (m_dyninsn_zero_count s) (m_cpiITLBMiss s) (m_cpiDTLBMiss s) (m_cpiUnknown s)
    (m_cpiMemAccess s) (m_cpiIdle s).
Definition with_dyninsn (n zero itlb dtlb unknown access : Z) s : Perf :=
  mkPerf _ _ _ _ _ (m_enabled s) (m_instruction_count s) (m_elapsed_time s) (m_idle_elapsed_time s) (m_instruction_queue s)
    (m_bp s) (rob_timer s) n zero itlb dtlb unknown access (m_cpiIdle s).
Definition with_idle (f : idle_t -> Z) s : Perf :=
  mkPerf _ _ _ _ _ (m_enabled s) (m_instruction_count s) (m_elapsed_time s) (m_idle_elapsed_time s) (m_instruction_queue s)
    (m_bp s) (rob_timer s) (m_dyninsn_count s) (m_dyninsn_zero_count s) (m_cpiITLBMiss s) (m_cpiDTLBMiss s) (m_cpiUnknown s)
    (m_cpiMemAccess s) f.
Definition with_enabled (b : bool) s : Perf :=
  mkPerf _ _ _ _ _ b (m_instruction_count s) (m_elapsed_time s) (m_idle_elapsed_time s) (m_instruction_queue s)
    (m_bp s) (rob_timer s) (m_dyninsn_count s) (m_dyninsn_zero_count s) (m_cpiITLBMiss s) (m_cpiDTLBMiss s) (m_cpiUnknown s)
    (m_cpiMemAccess s) (m_cpiIdle s).
Definition with_mem (m : M) s : Perf := with_rob_timer (with_memory m (rob_timer s)) s.

Definition new_perf (period : Z) (contention : option C) (mem : M) (bp : option B) : result Perf :=
  let! t := new_timer (rob_config cfg) period contention mem in
  Ok (mkPerf _ _ _ _ _ false 0 (ComponentTime.create period) (ComponentTime.create period) [] bp t 0 0 0 0 0 0 (fun _ => 0)).

Definition elapsed s : Z := ComponentTime.m_time (m_elapsed_time s).
Definition perf_period s : Z := ComponentTime.m_period (m_elapsed_time s).

(** The three micro-operations made for instructions that are not of the program. *)
Definition m_serialize_uop : MicroOp Inst := setLast true (setFirst true (setSerializing true (makeDynamic new_MicroOp))).
Definition m_mfence_uop : MicroOp Inst := setLast true (setFirst true (setMemBarrier true (makeDynamic new_MicroOp))).
Definition m_memaccess_uop : MicroOp Inst := setLast true (setFirst true (setMemBarrier true (makeLoad 0 DL_OPCODE_INVALID 8 new_MicroOp))).

(** * Costs *)

(** [Instruction::getCost] and its overrides *)
Definition instruction_cost (i : Instruction Inst) s : result Z :=
  match getType i with
  | INST_SYNC | INST_SPAWN => Err LogError
  | ty => if isPseudo i then Ok (m_cost i) else Ok (tmul (perf_period s) (instruction_costs cfg ty))
  end.
(** [DynamicInstruction::getBranchCost]: whether the branch was mispredicted, and the cost. *)
Definition branch_cost d s : result (bool * Z * Perf) :=
  let! (cycles, wrong, b) := getBranchCost (mispredict_penalty_ cfg) (m_bp s) (eip d) (taken d) (target d) in
  Ok (wrong, tmul (perf_period s) cycles, with_bp b s).
(** [DynamicInstruction::getCost] *)
Definition getCost d s : result (Z * Perf) :=
  if is_branch d then let! (_, c, s) := branch_cost d s in Ok (c, s)
  else let! c := instruction_cost (instruction_ d) s in Ok (c, s).

(** [DynamicInstruction::accessMemory] *)
Fixpoint access_infos (i : Instruction Inst) (infos : list MemoryInfo) s : result (list MemoryInfo * Perf) :=
  match infos with
  | [] => Ok ([], s)
  | x :: infos' =>
      let! (x, s) :=
        if executed x && (hit_where x =? HIT_UNKNOWN) then
          let op := match dir x with READ => if isAtomic i then MEM_READ_EX else MEM_READ | WRITE => MEM_WRITE end in
          let! (l, w, m) := accessMemory_ op (addr x) (size x) (getAddress i) (elapsed s) (memory (rob_timer s)) in
          Ok (mkInfo (executed x) (dir x) (addr x) (size x) l w, with_mem m s)
        else Ok (mkInfo (executed x) (dir x) (addr x) (size x) (perf_period s) PREDICATE_FALSE, s) in
      let! (infos', s) := access_infos i infos' s in
      Ok (x :: infos', s)
  end.

(** * MicroOpPerformanceModel::handleInstruction *)

(** The value an address that was never set has. *)
Variable stale_address : Z.

Definition count_uops (p : Dyn -> bool) (uops : list Dyn) : nat := length (base.filter (fun u => p u = true) uops).

Definition set_branch (wrong taken_ : bool) (target_ : Z) u : Dyn :=
  mkDynamic _ _ (m_uop u) (sequenceNumber u) (address u) (squashed u) (intraDependencies u) (typeOffset u) (squashedCount u)
    (dependencies u) (execLatency u) taken_ wrong target_ (dCacheHitWhere u)
    (iCacheHitWhere u) (iCacheLatency u) (m_forceLongLatencyLoad u) (d_first u) (d_last u) (core_info u).
Definition set_exec_latency (l : Z) (force : bool) u : Dyn :=
  mkDynamic _ _ (m_uop u) (sequenceNumber u) (address u) (squashed u) (intraDependencies u) (typeOffset u) (squashedCount u)
    (dependencies u) (u32 l) (branchTaken u) (branchMispredicted u) (branchTargetAddress u) (dCacheHitWhere u)
    (iCacheHitWhere u) (iCacheLatency u) force (d_first u) (d_last u) (core_info u).

(** The latency of the instruction fetch goes to the first micro-operation. *)
Definition fetch d (uops : list Dyn) s : result (list Dyn * Perf) :=
  let i := instruction_ d in
  match uops with
  | u :: uops' =>
      if enable_icache_modeling cfg && negb (getAddress i =? 0) && negb (isPseudo i) then
        let! (l, w, m) := readInstructionMemory (eip d) (getSize i) (elapsed s) (memory (rob_timer s)) in
        let! cycles := divideRounded l (perf_period s) in
        Ok (set_icache w cycles u :: uops', with_mem m s)
      else Ok (uops, s)
  | [] => Ok (uops, s)
  end.

(** A memory operand fills in the next load (or store), starting from the first, at
    [base_index]; one that touches a line a second time is squashed. *)
Definition cache_line (a : Z) : Z := Z.land a (u64 (Z.lnot 63)).
Definition fill_one (is_kind : MicroOp Inst -> bool) (base_index : option nat) (done_ : nat) (lines : list Z) (info : MemoryInfo)
    (cycles : Z) (uops : list Dyn) : result (list Dyn * list Z * bool) :=
  let! b := of_option base_index LogError in
  let idx := (b + done_)%nat in
  let! u := of_option (uops !! idx) LogError in
  guard! is_kind (m_uop u) else LogError in
  let line := cache_line (addr info) in
  let again := existsb (Z.eqb line) lines in
  let! uops := if again then squash idx uops else Ok uops in
  let! u := aget uops idx in
  let u := setAddress (addr info) (set_access (cycles + getBypassLatency (core_info u)) (hit_where info) u) in
  Ok (<[idx := u]> uops, lines ++ [line], again).

Record filling := mkFilling {
  f_uops : list Dyn;
  num_reads_done : nat;
  num_writes_done : nat;
  m_cache_lines_read : list Z;
  m_cache_lines_written : list Z;
  do_squashing : bool
}.
Fixpoint fill_operands (period : Z) (load_base store_base : option nat) (ops : list Operand) (infos : list MemoryInfo) (f : filling)
  : result filling :=
  match ops with
  | [] => Ok f
  | o :: ops' =>
      match m_type o with
      | MEMORY =>
          match infos with
          | [] => Err LogError
          | info :: infos' =>
              guard! bool_decide (dir info = m_direction o) else LogError in
              let! cycles := divideRounded (latency info) period in
              let! f :=
                match m_direction o with
                | READ =>
                    let! (uops, lines, again) :=
                      fill_one isLoad load_base (num_reads_done f) (m_cache_lines_read f) info cycles (f_uops f) in
                    Ok (mkFilling uops (S (num_reads_done f)) (num_writes_done f) lines (m_cache_lines_written f)
                          (do_squashing f || again))
                | WRITE =>
                    let! (uops, lines, again) :=
                      fill_one isStore store_base (num_writes_done f) (m_cache_lines_written f) info cycles (f_uops f) in
                    Ok (mkFilling uops (num_reads_done f) (S (num_writes_done f)) (m_cache_lines_read f) lines
                          (do_squashing f || again))
                end in
              fill_operands period load_base store_base ops' infos' f
          end
      | _ => fill_operands period load_base store_base ops' infos f
      end
  end.

(** The branch predictor is asked about a branch; other instructions have a cost. *)
Definition resolve_branch d (uops : list Dyn) s : result (list Dyn * Z * Perf) :=
  if bool_decide (getType (instruction_ d) = INST_BRANCH) then
    let! (wrong, _, s) := branch_cost d s in
    let! i := of_option (find_last (fun u => isExecute (m_uop u)) uops) Undefined in
    let! u := aget uops i in
    guard! isBranch (m_uop u) else LogError in
    Ok (<[i := set_branch wrong (taken d) (target d) u]> uops, 0, s)
  else
    let! (c, s) := getCost d s in Ok (uops, c, s).

(** The micro-operations of an instruction with all that is known before they enter
    the reorder buffer, and its cost. *)
Definition prepare d s : result (list Dyn * Z * Perf) :=
  let! uops := mapM_r createDynamicMicroOp (default [] (getMicroOps (instruction_ d))) in
  let load_base := find_first (fun u => isLoad (m_uop u)) uops in
  let store_base := find_first (fun u => isStore (m_uop u)) uops in
  let num_loads := count_uops (fun u => isLoad (m_uop u)) uops in
  let num_stores := count_uops (fun u => isStore (m_uop u)) uops in
  let! (uops, s) := fetch d uops s in
  let! (infos, s) := if m_issue_memops cfg then access_infos (instruction_ d) (memory_info d) s else Ok (memory_info d, s) in
  let! f := fill_operands (perf_period s) load_base store_base (getOperands (instruction_ d)) infos (mkFilling uops 0 0 [] [] false) in
  let! uops := if do_squashing f then doSquashing (f_uops f) 0 else Ok (f_uops f) in
  guard! bool_decide (num_reads_done f = num_loads) else AssertFailed in
  guard! bool_decide (num_writes_done f = num_stores) else AssertFailed in
  resolve_branch d uops s.

(** [RobPerformanceModel::simulate]: instructions and cycles. *)
Definition perf_simulate (fuel : nat) (uops : list Dyn) s : result (Z * Z * Perf) :=
  let! (n, t, tm) := simulate (rob_config cfg) fuel uops (rob_timer s) in
  let! cycles := divideRounded t (perf_period s) in
  Ok (n, cycles, with_rob_timer tm s).
(** [RobPerformanceModel::notifyElapsedTimeUpdate] *)
Definition notifyElapsedTimeUpdate s : Perf := with_rob_timer (synchronize (elapsed s) (rob_timer s)) s.

(** The end of [handleInstruction]: [n] instructions and [latency_] have been
    counted, and the timer is told when some of the time was not its own. *)
Definition account (n latency_ : Z) (out_of_band : bool) s : Perf :=
  let s := with_elapsed (u64 (m_instruction_count s + u32 n)) (ComponentTime.addLatency latency_ (m_elapsed_time s))
             (m_idle_elapsed_time s) s in
  if out_of_band then notifyElapsedTimeUpdate s else s.

(** A pseudo-instruction that is not a memory access: it serializes, and its cost
    is added at once. *)
Definition handle_serializing (fuel : nat) d (cost : Z) s : result Perf :=
  let! u := createDynamicMicroOp m_serialize_uop in
  let! (n, cycles, s) := perf_simulate fuel [u] s in
  let new_latency := tadd (tmul (perf_period s) cycles) cost in
  let! s :=
    match getType (instruction_ d) with
    | INST_TLB_MISS =>
        Ok (if isIfetch (instruction_ d)
            then with_dyninsn (m_dyninsn_count s) (m_dyninsn_zero_count s) (tadd (m_cpiITLBMiss s) cost) (m_cpiDTLBMiss s)
                   (m_cpiUnknown s) (m_cpiMemAccess s) s
            else with_dyninsn (m_dyninsn_count s) (m_dyninsn_zero_count s) (m_cpiITLBMiss s) (tadd (m_cpiDTLBMiss s) cost)
                   (m_cpiUnknown s) (m_cpiMemAccess s) s)
    | INST_UNKNOWN =>
        Ok (with_dyninsn (m_dyninsn_count s) (m_dyninsn_zero_count s) (m_cpiITLBMiss s) (m_cpiDTLBMiss s)
              (tadd (m_cpiUnknown s) cost) (m_cpiMemAccess s) s)
    | _ => Err LogError
    end in
  Ok (account n new_latency true s).

(** A memory access that is not of an instruction: a load that is a barrier, between
    two fences if it is one.  A long one passes its time at once. *)
Definition handle_mem_access (fuel : nat) d (cost : Z) s : result Perf :=
  let i := instruction_ d in
  let! u := createDynamicMicroOp m_memaccess_uop in
  let cutoff := lll_cutoff (rob_config cfg) in
  let long := (0 <? cutoff) && (tmul (perf_period s) cutoff <? cost) in
  let! cycles := if long then Ok 1 else divideRounded cost (perf_period s) in
  let u := set_exec_latency cycles long (setAddress stale_address u) in
  let! uops :=
    if isFence i then
      let! f := createDynamicMicroOp m_mfence_uop in
      let! f' := createDynamicMicroOp m_mfence_uop in Ok [f; u; f']
    else Ok [u] in
  let! (n, cycles, s) := perf_simulate fuel uops s in
  let now_ := if long then cost else 0 in
  let s := with_dyninsn (u64 (m_dyninsn_count s + 1)) (m_dyninsn_zero_count s) (m_cpiITLBMiss s) (m_cpiDTLBMiss s)
             (m_cpiUnknown s) (tadd (m_cpiMemAccess s) now_) s in
  Ok (account n (tadd (tmul (perf_period s) cycles) now_) (0 <? now_) s).

Definition handleInstruction (fuel : nat) d s : result Perf :=
  let! (uops, cost, s) := prepare d s in
  if bool_decide (0 < length uops)%nat then
    let! (n, cycles, s) := perf_simulate fuel uops s in
    Ok (account n (tmul (perf_period s) cycles) false s)
  else if (0 <? cost) && negb (bool_decide (getType (instruction_ d) = INST_MEM_ACCESS)) then handle_serializing fuel d cost s
  else if 0 <? cost then handle_mem_access fuel d cost s
  else
    Ok (account 0 0 false
          (with_dyninsn (m_dyninsn_count s) (u64 (m_dyninsn_zero_count s + 1)) (m_cpiITLBMiss s) (m_cpiDTLBMiss s)
             (m_cpiUnknown s) (m_cpiMemAccess s) s)).

(** * PerformanceModel *)
Definition incrementIdleElapsedTime (t : Z) s : Perf :=
  notifyElapsedTimeUpdate
    (with_elapsed (m_instruction_count s) (ComponentTime.addLatency t (m_elapsed_time s))
       (ComponentTime.addLatency t (m_idle_elapsed_time s)) s).
Definition count_idle (k : idle_t) (t : Z) s : Perf :=
  with_idle (fun k' => if bool_decide (k' = k) then tadd (m_cpiIdle s k') t else m_cpiIdle s k') s.

Definition setElapsedTime (t : Z) s : result Perf :=
  guard! elapsed s <=? t else LogError in
  let cost := tsub t (elapsed s) in
  Ok (incrementIdleElapsedTime cost (count_idle (if 0 <? elapsed s then UNSCHEDULED else START_TIME) cost s)).

Definition handleIdleInstruction (i : Instruction Inst) s : result Perf :=
  match getType i with
  | INST_SYNC =>
      let cost := if elapsed s <? getTime i then tsub (getTime i) (elapsed s) else 0 in
      Ok (incrementIdleElapsedTime cost (count_idle (idle_kind i) cost s))
  | INST_DELAY => Ok (incrementIdleElapsedTime (m_cost i) (count_idle DVFS_TRANSITION (m_cost i) s))
  | INST_RECV => Ok (incrementIdleElapsedTime (m_cost i) (count_idle RECV (m_cost i) s))
  | _ => Err LogError
  end.

Definition QUEUE_SIZE : nat := 1024.
Definition queueInstruction d s : result Perf :=
  if m_enabled s then
    guard! bool_decide (length (m_instruction_queue s) < QUEUE_SIZE)%nat else AssertFailed in
    Ok (with_queue (m_instruction_queue s ++ [d]) s)
  else Ok s.
Definition queuePseudoInstruction (i : Instruction Inst) s : result Perf :=
  if bool_decide (getType i = INST_SPAWN) then setElapsedTime (getTime i) s
  else if negb (m_enabled s) then Ok s
  else if isIdle i then handleIdleInstruction i s
  else queueInstruction (mkDynamicInstruction _ i 0 false false 0 []) s.

Fixpoint iterate_queue (fuel : nat) (q : list (DynamicInstruction Inst)) s : result Perf :=
  match q with
  | [] => Ok (with_queue [] s)
  | d :: q' =>
      guard! negb (isIdle (instruction_ d)) else LogError in
      let! s := if m_enabled s then handleInstruction fuel d s else Ok s in
      iterate_queue fuel q' s
  end.
(** [iterate]; handling an instruction does not queue others here, and the clock
    skew client it then asks is another component. *)
Definition iterate (fuel : nat) s : result Perf := iterate_queue fuel (m_instruction_queue s) s.
Definition enable s : Perf := with_enabled true s.
Definition disable s : Perf := with_enabled false s.
End perf.
