(* ===== verification/PerfFill.v ===== *)
(** The micro-operations of an instruction on their way to the reorder buffer: how
    the operands fill them in, and that what is left of them may enter. *)
From stdpp Require Import base numbers list.
From Stdlib Require Import ZArith Lia Bool.
From S2P Require Import Prelude BranchPredictor Timing MicroOp DecodeProps Dependencies RobContention RobTimer RobInv RobIssue RobRun PerfModel.
Open Scope Z_scope.

(** * Squashing

    What doSquashing (micro_op_performance_model.cc) does to the micro-operations of an
    instruction of which some are squashed: those that are left depend on those that
    are left of the kind before. *)
Section squash.
Context {Inst Info : Type}.
Abbreviation Dyn := (DynamicMicroOp Inst Info).
Implicit Types u : Dyn.
Implicit Types l : list Dyn.

(** Micro-operations of [l] that are not squashed, and how many are before [i]. *)
Definition live l : list Dyn := base.filter (fun u => squashed u = false) l.
Definition pos l (i : nat) : nat := length (live (take i l)).

Lemma live_cons u l : live (u :: l) = (if squashed u then [] else [u]) ++ live l.
Proof. unfold live. rewrite filter_cons. destruct (squashed u); [by rewrite decide_False by done|by rewrite decide_True by done]. Qed.

Lemma live_app l l' : live (l ++ l') = live l ++ live l'.
Proof. apply filter_app. Qed.

Lemma pos_S l i u : l !! i = Some u -> pos l (S i) = (pos l i + (if squashed u then 0 else 1))%nat.
Proof.
  intros Hu. unfold pos. rewrite (take_S_r l i u Hu), live_app, length_app. f_equal. rewrite live_cons. by destruct (squashed u).
Qed.

Lemma pos_le l i : (pos l i <= i)%nat.
Proof. unfold pos, live. etrans; [apply length_filter|]. rewrite length_take. lia. Qed.

Lemma pos_mono l i j : (i <= j)%nat -> (pos l i <= pos l j)%nat.
Proof.
  intros Hij. unfold pos. replace (take j l) with (take i l ++ take (j - i) (drop i l)).
  - rewrite live_app, length_app. lia.
  - rewrite <- (take_drop i (take j l)). rewrite take_take, Nat.min_l by lia. rewrite take_drop_commute.
    by replace (i + (j - i))%nat with j by lia.
Qed.

(** ** Offsets and counts *)

(** [l'] is [l] with other offsets and counts of squashed micro-operations. *)
Definition renumbered u u' : Prop := exists o c, u' = set_squash_info o c u.

Lemma recount_renumbered ty c o l : Forall2 renumbered l (recount ty c o l).
Proof.
  revert ty c o. induction l as [|u l IH]; intros ty c o; cbn [recount]; [constructor|].
  destruct (squashed u); constructor; try apply IH; by eexists _, _.
Qed.

(** The count of a micro-operation is that of the squashed ones up to it. *)
Lemma recount_counts l : forall ty c o i u', 0 <= c -> c + Z.of_nat (length l) < 2 ^ 32 ->
  recount ty c o l !! i = Some u' -> squashedCount u' = c + Z.of_nat (S i) - Z.of_nat (pos l (S i)).
Proof.
  induction l as [|u l IH]; intros ty c o i u' Hc Hlt; cbn [recount length] in *; [done|].
  destruct (squashed u) eqn:Hs.
  - rewrite u32_small by lia. destruct i as [|i]; cbn [lookup list_lookup].
    + intros [= <-]. unfold pos. cbn [take]. rewrite live_cons, Hs, take_0. cbn. lia.
    + intros Hi. rewrite (fun H1 H2 => IH _ _ _ i u' H1 H2 Hi) by lia. unfold pos. cbn [take]. rewrite (live_cons u), Hs. cbn [app]. lia.
  - destruct i as [|i]; cbn [lookup list_lookup].
    + intros [= <-]. unfold pos. cbn [take]. rewrite live_cons, Hs, take_0. cbn. lia.
    + intros Hi. rewrite (fun H1 H2 => IH _ _ _ i u' H1 H2 Hi) by lia. unfold pos. cbn [take]. rewrite (live_cons u), Hs. cbn [app length]. lia.
Qed.

(** The last [o] of the list [pre] have the type [ty]. *)
Definition run_of (ty : uop_type_t) (o : Z) (pre : list Dyn) : Prop :=
  0 <= o <= Z.of_nat (length pre) /\
  forall k v, pre !! k = Some v -> Z.of_nat (length pre) - o <= Z.of_nat k -> uop_type (m_uop v) = ty.

(** The micro-operations counted by the offset have the type. *)
Lemma recount_offsets l : forall ty c o pre i u', run_of ty o pre -> Z.of_nat (length pre + length l) < 2 ^ 32 ->
  recount ty c o l !! i = Some u' -> squashed u' = false ->
  run_of (uop_type (m_uop u')) (typeOffset u') (pre ++ live (take i l)).
Proof.
  induction l as [|u l IH]; intros ty c o pre i u' Hrun Hlt; cbn [recount length] in *; [done|].
  destruct (squashed u) eqn:Hs.
  - destruct i as [|i]; cbn [lookup list_lookup take]; [intros [= <-]; cbn; by rewrite Hs|].
    intros Hi Hl. rewrite live_cons, Hs. cbn [app]. eapply (IH _ _ _ pre i u' Hrun); [lia|done..].
  - set (o1 := if bool_decide _ then o else 0).
    assert (Hrun1 : run_of (uop_type (m_uop u)) o1 pre).
    { subst o1. case_bool_decide as Ht; [by rewrite Ht|]. split; [lia|]. intros k v Hk. apply lookup_lt_Some in Hk. lia. }
    destruct i as [|i]; cbn [lookup list_lookup take].
    + intros [= <-] _. cbn. by rewrite app_nil_r.
    + destruct Hrun1 as [[Ho1 Ho2] Hty]. intros Hi Hl. rewrite u32_small in Hi by lia. rewrite live_cons, Hs.
      assert (Hrun2 : run_of (uop_type (m_uop u)) (o1 + 1) (pre ++ [u])).
      { split; [rewrite length_app; simpl; lia|]. intros k v. rewrite length_app. cbn [length].
        intros [Hk|[Hk1 [Hk2 ->]%list_lookup_singleton_Some]]%lookup_app_Some Hle; [|done]. apply (Hty k); [done|lia]. }
      assert (Hpl : Z.of_nat (length (pre ++ [u]) + length l) < 2 ^ 32) by (rewrite length_app; simpl; lia).
      pose proof (IH _ _ _ (pre ++ [u]) i u' Hrun2 Hpl Hi Hl) as Hr. by rewrite <- app_assoc in Hr.
Qed.

(** ** Instructions of loads, executes and stores *)
Section kinds.
Variables (nl ne ns : nat).

Definition kind_start (i : nat) : nat := if bool_decide (i < nl)%nat then 0%nat else if bool_decide (i < nl + ne)%nat then nl else (nl + ne)%nat.
Definition kind_type (i : nat) : uop_type_t :=
  if bool_decide (i < nl)%nat then UOP_LOAD else if bool_decide (i < nl + ne)%nat then UOP_EXECUTE else UOP_STORE.
Definition kind_intra (i : nat) : nat := if bool_decide (i < nl)%nat then 0%nat else if bool_decide (i < nl + ne)%nat then nl else ne.

(** A micro-operation at position [i] before doSquashing; the first of a kind is not squashed. *)
Record staged (i : nat) u : Prop := mkStaged {
  sg_type : uop_type (m_uop u) = kind_type i;
  sg_static : microOpTypeOffset (m_uop u) = Z.of_nat (i - kind_start i);
  sg_offset : typeOffset u = Z.of_nat (i - kind_start i);
  sg_intra : intraDependencies u = Z.of_nat (kind_intra i);
  sg_first : squashed u = true -> i <> kind_start i
}.
Definition all_staged l : Prop := length l = (nl + ne + ns)%nat /\ forall i u, l !! i = Some u -> staged i u.

Lemma kind_start_le i : (kind_start i <= i)%nat.
Proof. unfold kind_start. repeat case_bool_decide; lia. Qed.

Lemma kind_intra_le i : (kind_intra i <= kind_start i)%nat.
Proof. unfold kind_intra, kind_start. repeat case_bool_decide; lia. Qed.

(** The first of a kind, and of the kind before it if that is not empty. *)
Lemma kind_start_start i : (i < nl + ne + ns)%nat -> kind_start (kind_start i) = kind_start i.
Proof. intros. unfold kind_start. repeat case_bool_decide; lia. Qed.

Lemma kind_start_before i : kind_intra i <> 0%nat -> kind_start (kind_start i - kind_intra i) = (kind_start i - kind_intra i)%nat.
Proof. unfold kind_start, kind_intra. repeat case_bool_decide; lia. Qed.

Lemma kind_type_start i j : kind_type j = kind_type i -> (kind_start i <= j)%nat.
Proof. unfold kind_type, kind_start. repeat case_bool_decide; try done; lia. Qed.

(** Nothing is squashed from the first of a kind to itself. *)
Lemma pos_first l j u : l !! j = Some u -> staged j u -> kind_start j = j -> pos l (S j) = S (pos l j).
Proof.
  intros Hj Hs Hst. rewrite (pos_S l j u Hj). destruct (squashed u) eqn:Hsq; [|lia]. by destruct (sg_first j u Hs Hsq).
Qed.

(** What is left of an offset and of the dependencies. *)
Definition resized l (i : nat) u u' : Prop :=
  exists o c n, u' = with_deps n (dependencies u) (set_squash_info o c u) /\
    (squashed u = false -> n = Z.of_nat (pos l (kind_start i) - pos l (kind_start i - kind_intra i)) /\
       run_of (uop_type (m_uop u)) o (live (take i l))).

Lemma resize_intra_ok l i u u1 : all_staged l -> Z.of_nat (length l) < 2 ^ 32 -> l !! i = Some u ->
  recount UOP_INVALID 0 0 l !! i = Some u1 -> exists u', resize_intra (recount UOP_INVALID 0 0 l) i u1 = Ok u' /\ resized l i u u'.
Proof.
  intros [Hlen Hst] Hlt Hu Hu1. pose proof (Hst i u Hu) as Hsg. pose proof (lookup_lt_Some _ _ _ Hu) as Hi.
  pose proof (recount_renumbered UOP_INVALID 0 0 l) as HF.
  destruct (Forall2_lookup_l _ _ _ i u HF Hu) as (u1' & Hu1' & (o & c & ->)). rewrite Hu1 in Hu1'. injection Hu1' as ->.
  assert (Hrun : squashed u = false -> run_of (uop_type (m_uop u)) o (live (take i l))).
  { intros Hs. apply (recount_offsets l UOP_INVALID 0 0 [] i (set_squash_info o c u)); [|simpl; lia|done|done].
    split; [simpl; lia|]. intros k v Hk. by rewrite lookup_nil in Hk. }
  unfold resize_intra. cbn [squashed intraDependencies set_squash_info m_uop dependencies].
  rewrite (sg_intra i u Hsg), (sg_static i u Hsg). destruct (squashed u) eqn:Hs; cbn [orb].
  { eexists. split; [done|]. exists o, c, (intraDependencies u). split; [by destruct u|by rewrite Hs]. }
  pose proof (kind_start_le i). pose proof (kind_intra_le i).
  destruct (Z.eqb_spec (Z.of_nat (kind_intra i)) 0) as [Hz|Hnz].
  { eexists. split; [done|]. exists o, c, (intraDependencies u). split; [by destruct u|]. intros _. split; [|by apply Hrun].
    rewrite (sg_intra i u Hsg). replace (kind_intra i) with 0%nat by lia. rewrite Nat.sub_0_r. lia. }
  rewrite u32_small by lia. replace (Z.of_nat i - Z.of_nat (i - kind_start i)) with (Z.of_nat (kind_start i)) by lia.
  unfold rguard. rewrite (proj2 (Z.leb_le _ _)) by lia. rewrite <- Nat2Z.inj_sub, !Nat2Z.id by lia.
  set (b := (kind_start i - kind_intra i)%nat).
  destruct (lookup_lt_is_Some_2 l (kind_start i)) as [v Hv]; [lia|]. destruct (lookup_lt_is_Some_2 l b) as [w Hw]; [lia|].
  destruct (Forall2_lookup_l _ _ _ _ _ HF Hv) as (v1 & Hv1 & _). destruct (Forall2_lookup_l _ _ _ _ _ HF Hw) as (w1 & Hw1 & _).
  unfold aget. rewrite Hv1, Hw1. cbn [of_option rbind]. eexists. split; [done|]. eexists o, c, _. split; [done|]. intros _. split; [|by apply Hrun].
  rewrite (fun H1 H2 => recount_counts l _ _ _ _ _ H1 H2 Hv1), (fun H1 H2 => recount_counts l _ _ _ _ _ H1 H2 Hw1) by lia.
  rewrite (pos_first l _ v Hv), (pos_first l _ w Hw); [|by apply Hst|by apply kind_start_before; lia|by apply Hst|by apply kind_start_start; lia].
  pose proof (pos_mono l b (kind_start i) ltac:(lia)). pose proof (pos_le l (kind_start i)). pose proof (pos_le l b).
  assert (Hb : b = (kind_start i - kind_intra i)%nat) by done. rewrite <- Hb. clearbody b. rewrite u32_small; lia.
Qed.

Lemma resize_from_ok (L rest : list Dyn) (Q : nat -> Dyn -> Prop) : forall k,
  (forall i u, rest !! i = Some u -> exists u', resize_intra L (k + i) u = Ok u' /\ Q (k + i)%nat u') ->
  exists rest', resize_from L 0 k rest = Ok rest' /\ length rest' = length rest /\ forall i u', rest' !! i = Some u' -> Q (k + i)%nat u'.
Proof.
  induction rest as [|u rest IH]; intros k Hr; cbn [resize_from]; [by exists []|].
  destruct (Hr 0%nat u eq_refl) as (u' & Hu' & HQ). rewrite Nat.add_0_r in *. rewrite bool_decide_true by lia. rewrite Hu'. cbn [rbind].
  destruct (IH (S k)) as (rest' & -> & Hlen & Hall).
  { intros i v Hv. destruct (Hr (S i) v Hv) as (v' & Hv' & HQ'). rewrite <- Nat.add_succ_comm in *. by exists v'. }
  exists (u' :: rest'). cbn [rbind length]. split_and!; [done|by rewrite Hlen|]. intros [|i] v; cbn [lookup list_lookup].
  - intros [= <-]. by rewrite Nat.add_0_r.
  - intros Hv. rewrite <- Nat.add_succ_comm. by apply Hall.
Qed.

Lemma doSquashing_ok l : all_staged l -> Z.of_nat (length l) < 2 ^ 32 ->
  exists l', doSquashing l 0 = Ok l' /\ length l' = length l /\
    forall i u', l' !! i = Some u' -> exists u, l !! i = Some u /\ resized l i u u'.
Proof.
  intros Hst Hlt. unfold doSquashing. pose proof (recount_renumbered UOP_INVALID 0 0 l) as HF.
  destruct (resize_from_ok (recount UOP_INVALID 0 0 l) (recount UOP_INVALID 0 0 l)
    (fun i u' => exists u, l !! i = Some u /\ resized l i u u') 0) as (l' & -> & Hlen & Hall).
  - intros i u1 Hu1. destruct (Forall2_lookup_r _ _ _ i u1 HF Hu1) as (u & Hu & _).
    destruct (resize_intra_ok l i u u1 Hst Hlt Hu Hu1) as (u' & Hr & Hq). exists u'. split; [done|]. by exists u.
  - exists l'. split_and!; [done|by rewrite Hlen, <- (Forall2_length _ _ _ HF)|done].
Qed.

(** What is before the first of a kind has another type. *)
Lemma run_start l i u o : all_staged l -> l !! i = Some u -> run_of (uop_type (m_uop u)) o (live (take i l)) ->
  o + Z.of_nat (pos l (kind_start i)) <= Z.of_nat (pos l i).
Proof.
  intros [Hlen Hst] Hu [[_ Ho] Hrun]. fold (pos l i) in *. pose proof (kind_start_le i) as Hle.
  destruct (Z.le_gt_cases (o + Z.of_nat (pos l (kind_start i))) (Z.of_nat (pos l i))) as [|Hgt]; [done|exfalso].
  destruct (lookup_lt_is_Some_2 (live (take (kind_start i) l)) (pos l (kind_start i) - 1)) as [v Hv]; [unfold pos in *; lia|].
  assert (Hv' : live (take i l) !! (pos l (kind_start i) - 1)%nat = Some v).
  { replace (take i l) with (take (kind_start i) l ++ drop (kind_start i) (take i l)).
    - rewrite live_app. by apply lookup_app_l_Some.
    - rewrite <- (take_drop (kind_start i) (take i l)) at 2. by rewrite take_take, Nat.min_l by lia. }
  apply list_elem_of_lookup_2 in Hv. unfold live in Hv. apply list_elem_of_filter in Hv as [_ Hv].
  apply list_elem_of_lookup in Hv as (j & [Hj Hji]%lookup_take_Some). pose proof (Hrun _ v Hv' ltac:(lia)) as Hty.
  rewrite (sg_type i u (Hst i u Hu)), (sg_type j v (Hst j v Hj)) in Hty. pose proof (kind_type_start i j Hty). lia.
Qed.

(** A micro-operation that is left depends on micro-operations before those of its
    own kind, and its offset counts those of its kind. *)
Lemma resized_before l i u u' : all_staged l -> l !! i = Some u -> resized l i u u' -> squashed u' = false ->
  0 <= typeOffset u' /\ 0 <= intraDependencies u' <= intraDependencies u /\
  typeOffset u' + intraDependencies u' <= Z.of_nat (pos l i) /\
  forall k v, live (take i l) !! k = Some v -> Z.of_nat (pos l i) - typeOffset u' <= Z.of_nat k -> uop_type (m_uop v) = uop_type (m_uop u).
Proof.
  intros Hst Hu (o & c & n & -> & Hn) Hs. cbn in Hs |- *. destruct (Hn Hs) as [-> Hrun]. pose proof (run_start l i u o Hst Hu Hrun) as Hle.
  destruct Hrun as [[Ho _] Hrun]. rewrite (sg_intra i u (proj2 Hst i u Hu)).
  assert (Hd : (pos l (kind_start i) - pos l (kind_start i - kind_intra i) <= kind_intra i)%nat).
  { assert (Hgen : forall a b, (pos l (a + b) - pos l a <= b)%nat).
    { intros a b. induction b as [|b IHb]; [rewrite Nat.add_0_r; lia|]. rewrite Nat.add_succ_r.
      destruct (decide (a + b < length l)%nat) as [Hb|Hb].
      - destruct (lookup_lt_is_Some_2 l _ Hb) as [x Hx]. rewrite (pos_S l _ x Hx). destruct (squashed x); lia.
      - unfold pos in *. rewrite (take_ge l (S (a + b))) by lia. rewrite (take_ge l (a + b)) in IHb by lia. lia. }
    specialize (Hgen (kind_start i - kind_intra i)%nat (kind_intra i)). pose proof (kind_intra_le i).
    by replace (kind_start i - kind_intra i + kind_intra i)%nat with (kind_start i) in Hgen by lia. }
  split_and!; [done|lia|lia|lia|exact Hrun].
Qed.
End kinds.
End squash.

(** The caches answer the accesses of instructions as those of the core model. *)
Class InstructionMemoryLaws (M : Type) `{DataMemoryLaws M} `{!InstructionMemory M} := {
  read_instruction_ok : forall a size t m, mem_inv m ->
    exists latency where_ m', readInstructionMemory a size t m = Ok (latency, where_, m') /\
      0 <= latency <= max_latency /\ HitWhereIsValid where_ = true /\ mem_inv m';
  access_memory_ok : forall op a size e t m, mem_inv m ->
    exists latency where_ m', accessMemory_ op a size e t m = Ok (latency, where_, m') /\
      0 <= latency <= max_latency /\ HitWhereIsValid where_ = true /\ mem_inv m'
}.

Section fill.
Context {Inst Info C M : Type} `{Decoder Inst} `{!CoreModel Inst Info} `{!DataMemory M} `{!DataMemoryLaws M}
  `{!RobContention C (DynamicMicroOp Inst Info)} `{!RobContentionLaws C Inst Info}.
Abbreviation Dyn := (DynamicMicroOp Inst Info).
Implicit Types u : Dyn.
Implicit Types l : list Dyn.
Variable cfg : RobConfig.
Variables (P L max_bypass : Z).
Hypothesis Hcfg : config_ok cfg P L.
Hypothesis Hroom : 2 * memory_cycles P + max_bypass <= L.

(** * What a micro-operation of the decoder must be *)
Record uop_ok (v : MicroOp Inst) : Prop := mkUopOk {
  uk_latency : exists lat info, getInstructionLatency v = Ok lat /\ core_info_of v = Ok info /\
    0 <= lat /\ lat + memory_cycles P <= L /\ issuable v info /\ 0 <= getBypassLatency info <= max_bypass;
  uk_few : intraInstructionDependencies v + Z.of_nat (length (sourceRegisters v)) <= 6;
  uk_load : isLoad v = true -> serializing v = false;
  uk_src : Forall (fun r => 0 <= r < last_reg) (sourceRegisters v);
  uk_dst : Forall (fun r => 0 <= r < last_reg) (destinationRegisters v)
}.

(** * What a dynamic one is at all times before it enters *)
Record dyn_ok u : Prop := mkDynOk {
  dk_static : uop_static L u;
  dk_fits : access_fits P L u;
  dk_deps : dependencies u = [];
  dk_few : intraDependencies u + Z.of_nat (length (sourceRegisters (m_uop u))) <= 6;
  dk_load : isLoad (m_uop u) = true -> intraDependencies u = 0;
  dk_bypass : 0 <= getBypassLatency (core_info u) <= max_bypass
}.

Lemma valid_where h : HitWhereIsValid h = true -> 0 <= h < NUM_WHERES.
Proof. unfold HitWhereIsValid, NUM_WHERES. rewrite orb_true_iff, !andb_true_iff, !Z.leb_le. lia. Qed.

Lemma L_small : 0 <= memory_cycles P /\ 0 <= L < 2 ^ 31.
Proof.
  destruct (co_small _ _ _ Hcfg) as (HL & _). pose proof (co_max _ _ _ Hcfg). pose proof (co_period _ _ _ Hcfg). split; [|lia].
  unfold memory_cycles. assert (0 <= max_latency / P) by (apply Z.div_pos; lia). lia.
Qed.

(** A new dynamic micro-operation of a decoded one. *)
Lemma create_ok ins nl ne ns i v : decoded ins nl ne ns i v -> uop_ok v ->
  exists u, createDynamicMicroOp v = Ok u /\ m_uop u = v /\ squashed u = false /\ staged nl ne i u /\ dyn_ok u.
Proof.
  intros [Ht Ho Hi _ _ Hse Hm Ha] [(lat & info & Hlat & Hinfo & H0 & Hfit & Hiss & Hby) Hfew Hld Hs Hd]. pose proof L_small as [Hmc HL].
  unfold createDynamicMicroOp. rewrite Hlat, Hinfo. cbn [rbind]. eexists. split_and!; [done..| |].
  - split; cbn; [by rewrite Ht|rewrite Ho|rewrite Ho|by rewrite Hi|done]; unfold kind_start; repeat case_bool_decide; f_equal; lia.
  - split; cbn; [split; cbn|..].
    + rewrite u32_small by lia. lia.
    + unfold NUM_WHERES, HIT_L1I. lia.
    + done.
    + lia.
    + intros Hl. split; [by apply Hld|]. unfold isMemBarrier. rewrite Hm. unfold isLoad in Hl. apply bool_decide_eq_true in Hl. rewrite Ht in Hl.
      repeat case_bool_decide; done.
    + done.
    + done.
    + done.
    + intros _. apply Ha.
    + intros _ _. cbn. rewrite u32_small by lia. done.
    + done.
    + lia.
    + intros Hl. unfold isLoad in Hl. apply bool_decide_eq_true in Hl. rewrite Ht in Hl. rewrite Hi. repeat case_bool_decide; done.
    + done.
Qed.

(** * Batches *)

(** Micro-operations of the same kind do not depend on each other. *)
Definition independent (vs : list (MicroOp Inst)) : Prop :=
  forall i j v w, (i < j)%nat -> vs !! i = Some v -> vs !! j = Some w -> uop_type v = uop_type w ->
    (forall r, r ∈ sourceRegisters w -> ~ r ∈ destinationRegisters v) /\ (isMemBarrier w = true -> is_bar v = false).

Lemma batch_of us : forall pre,
  (forall i u, us !! i = Some u -> squashed u = false -> follows P L (pre ++ map m_uop (live (take i us))) u) -> batch_from P L pre us.
Proof.
  induction us as [|u us IH]; intros pre Hus; cbn [batch_from]; [done|].
  assert (Hrest : forall i v, us !! i = Some v -> squashed v = false ->
    follows P L (pre ++ map m_uop ((if squashed u then [] else [u]) ++ live (take i us))) v).
  { intros i v Hv Hs. specialize (Hus (S i) v Hv Hs). cbn [take] in Hus. by rewrite live_cons in Hus. }
  destruct (squashed u) eqn:Hs; [by apply IH|]. split.
  - specialize (Hus 0%nat u eq_refl Hs). by rewrite take_0, app_nil_r in Hus.
  - apply IH. intros i v Hv Hv'. specialize (Hrest i v Hv Hv'). by rewrite <- app_assoc.
Qed.

(** A change of the parts of micro-operations that the buffer does not depend on. *)
Definition same_uop u u' : Prop := m_uop u' = m_uop u /\ squashed u' = squashed u.

Lemma live_same l l' i : Forall2 same_uop l l' -> map m_uop (live (take i l')) = map m_uop (live (take i l)).
Proof.
  intros HF. revert i. induction HF as [|u u' l l' [Hm Hs] _ IH]; intros i; [by rewrite take_nil|]. destruct i as [|i]; [done|]. cbn [take].
  rewrite !live_cons, !map_app, IH, Hs. destruct (squashed u); [done|]. cbn [map]. by rewrite Hm.
Qed.

Lemma static_squashed o c n deps u : uop_static L u -> uop_static L (with_deps n deps (set_squash_info o c u)).
Proof. by intros []; split. Qed.

Lemma batch_squashed nl ne ns l l' : all_staged nl ne ns l -> (forall i u, l !! i = Some u -> dyn_ok u) -> independent (map m_uop l) ->
  length l' = length l -> (forall i u', l' !! i = Some u' -> exists u, l !! i = Some u /\ resized nl ne l i u u') -> batch_ok P L l'.
Proof.
  intros Hst Hdyn Hind Hlen Hall. apply batch_of. intros i u' Hu' Hsq. cbn [app].
  assert (HF : Forall2 same_uop l l').
  { apply Forall2_same_length_lookup_2; [done|]. intros k x y Hx Hy. destruct (Hall k y Hy) as (x' & Hx' & (o & c & n & -> & _)).
    rewrite Hx in Hx'. by injection Hx' as <-. }
  rewrite (live_same l l' i HF). destruct (Hall i u' Hu') as (u & Hu & Hr). destruct (resized_before nl ne ns l i u u' Hst Hu Hr Hsq) as (Ho & Hi & Hb & Hrun).
  destruct Hr as (o & c & n & -> & _). cbn in Ho, Hi, Hb, Hrun. destruct (Hdyn i u Hu) as [Hs Hf Hd Hfew Hld _]. fold (pos l i) in *.
  split; cbn; try done; try lia.
  - by apply static_squashed.
  - rewrite length_map. unfold pos in Hb. lia.
  - intros Hl. specialize (Hld Hl). lia.
  - intros k v. rewrite length_map. rewrite list_lookup_fmap. intros (w & Hw & ->)%fmap_Some Hk. specialize (Hrun k w Hw Hk).
    apply list_elem_of_lookup_2 in Hw. unfold live in Hw. apply list_elem_of_filter in Hw as [_ Hw].
    apply list_elem_of_lookup in Hw as (j & [Hj Hji]%lookup_take_Some).
    destruct (Hind j i (m_uop w) (m_uop u) Hji) as [Hreg Hbar]; [by rewrite list_lookup_fmap, Hj|by rewrite list_lookup_fmap, Hu|done|].
    split_and!; [exact Hreg|unfold isLoad, isStore; rewrite Hrun, bool_decide_eq_true; cbn; by intros ->|].
    cbn. rewrite !orb_true_iff. intros [[Hl|Hl]|Hl]; [| |by apply Hbar]; unfold is_bar, isLoad, isStore in *;
      apply bool_decide_eq_true in Hl; cbn in Hl; rewrite Hrun, Hl; done.
Qed.

Lemma live_all l : Forall (fun u => squashed u = false) l -> live l = l.
Proof. induction 1 as [|u l Hu _ IH]; [done|]. by rewrite live_cons, Hu, IH. Qed.

(** An instruction of which nothing is squashed stays as it is. *)
Lemma resized_self nl ne ns l : all_staged nl ne ns l -> (forall i u, l !! i = Some u -> squashed u = false) ->
  forall i u, l !! i = Some u -> resized nl ne l i u u.
Proof.
  intros [Hlen Hst] Hno i u Hu.
  assert (Hlive : forall k, live (take k l) = take k l).
  { intros k. apply live_all, Forall_take, Forall_lookup. intros j v Hv. by apply (Hno j). }
  pose proof (lookup_lt_Some _ _ _ Hu) as Hi. pose proof (kind_start_le nl ne i). pose proof (kind_intra_le nl ne i).
  assert (Hpos : forall k, (k <= i)%nat -> pos l k = k) by (intros k Hk; unfold pos; rewrite Hlive, length_take; lia).
  destruct (Hst i u Hu) as [Ht Hs Ho Hin _].
  exists (typeOffset u), (squashedCount u), (intraDependencies u). split; [by destruct u|]. intros _. split.
  - rewrite !Hpos by lia. rewrite Hin. f_equal. lia.
  - rewrite Hlive, Ho. split; [rewrite length_take; lia|]. intros k v [Hk Hki]%lookup_take_Some Hle. rewrite length_take in Hle.
    rewrite Ht, (sg_type _ _ _ _ (Hst k v Hk)). revert Hle. unfold kind_type, kind_start. repeat case_bool_decide; try done; lia.
Qed.

(** * Operands *)

(** [squash] marks one micro-operation and moves the marks of the first and the last. *)
Definition flags_of u u' : Prop := exists f g, u' = set_flags (squashed u) f g u.

Lemma flags_refl u : flags_of u u.
Proof. exists (d_first u), (d_last u). by destruct u. Qed.

Lemma mark_first_flags l : Forall2 flags_of l (mark_first l).
Proof.
  induction l as [|u l IH]; cbn [mark_first]; [done|]. destruct (squashed u) eqn:Hs; constructor; try done; [apply flags_refl| |].
  - eexists _, _. by rewrite Hs.
  - apply Forall_Forall2_diag, Forall_true. apply flags_refl.
Qed.

Lemma mark_last_flags l : Forall2 flags_of l (mark_last l).
Proof.
  induction l as [|u l IH]; cbn [mark_last]; [done|]. destruct (existsb _ l); constructor; try done; [apply flags_refl| |].
  - destruct (squashed u) eqn:Hs; [apply flags_refl|]. eexists _, _. by rewrite Hs.
  - apply Forall_Forall2_diag, Forall_true. apply flags_refl.
Qed.

Lemma squash_ok idx l : (idx < length l)%nat -> exists l', squash idx l = Ok l' /\ length l' = length l /\
  forall i u', l' !! i = Some u' -> exists u f g, l !! i = Some u /\ u' = set_flags (squashed u || bool_decide (i = idx)) f g u.
Proof.
  intros Hidx. unfold squash. destruct (aget_ok l idx Hidx) as (x & -> & Hx). cbn [rbind]. set (l0 := <[idx := _]> l).
  pose proof (mark_first_flags l0) as H1. pose proof (mark_last_flags (mark_first l0)) as H2. eexists. split; [done|]. split.
  - rewrite <- (Forall2_length _ _ _ H2), <- (Forall2_length _ _ _ H1). apply length_insert.
  - intros i u' Hu'. destruct (Forall2_lookup_r _ _ _ i u' H2 Hu') as (u1 & Hu1 & (f & g & ->)).
    destruct (Forall2_lookup_r _ _ _ i u1 H1 Hu1) as (u0 & Hu0 & (f1 & g1 & ->)). subst l0.
    apply list_lookup_insert_Some in Hu0 as [(<- & <- & _)|[Hne Hu0]].
    + exists x, f, g. split; [done|]. rewrite bool_decide_true by done. by rewrite orb_true_r.
    + exists u0, f, g. split; [done|]. rewrite bool_decide_false by done. by rewrite orb_false_r.
Qed.

(** The micro-operations between two operands: those of the decoder, and possibly squashed. *)
Record filled nl ne ns (vs : list (MicroOp Inst)) l : Prop := mkFilled {
  fl_staged : all_staged nl ne ns l;
  fl_dyn : forall i u, l !! i = Some u -> dyn_ok u;
  fl_uops : map m_uop l = vs
}.
Definition none_squashed l : Prop := forall i u, l !! i = Some u -> squashed u = false.

Lemma filled_change nl ne ns vs l l' :
  filled nl ne ns vs l -> length l' = length l ->
  (forall i u', l' !! i = Some u' -> exists u, l !! i = Some u /\ m_uop u' = m_uop u /\ (staged nl ne i u -> staged nl ne i u') /\ (dyn_ok u -> dyn_ok u')) ->
  filled nl ne ns vs l'.
Proof.
  intros [[Hlen Hst] Hdyn <-] Hl Hall. split; [split; [lia|]|..].
  - intros i u' Hu'. destruct (Hall i u' Hu') as (u & Hu & _ & Hs & _). by apply Hs, Hst.
  - intros i u' Hu'. destruct (Hall i u' Hu') as (u & Hu & _ & _ & Hd). by apply Hd, (Hdyn i).
  - apply (list_eq_same_length _ _ (length l)); [by rewrite length_map|by rewrite length_map|]. intros i x y _.
    rewrite !list_lookup_fmap. intros (u' & Hu' & ->)%fmap_Some. destruct (Hall i u' Hu') as (u & Hu & -> & _). rewrite Hu. by intros [= <-].
Qed.

Record info_ok (x : MemoryInfo) : Prop := mkInfoOk {
  in_addr : 0 <= addr x < 2 ^ 64 - 1;
  in_latency : 0 <= latency x <= max_latency;
  in_hit : HitWhereIsValid (hit_where x) = true
}.

Lemma dyn_access a c w u : dyn_ok u -> 0 <= a < 2 ^ 64 - 1 -> 0 <= c <= memory_cycles P -> HitWhereIsValid w = true ->
  dyn_ok (setAddress a (set_access (c + getBypassLatency (core_info u)) w u)).
Proof.
  intros [[] Hf Hd Hfew Hld Hby] Ha Hc Hw. pose proof L_small as [Hmc HL].
  assert (Hu : u32 (c + getBypassLatency (core_info u)) = c + getBypassLatency (core_info u)) by (apply u32_small; lia).
  split; cbn; try done; [split; cbn; try done; rewrite Hu; lia|]. intros _ _. cbn. rewrite Hu. lia.
Qed.

Lemma fill_one_ok nl ne ns vs is_kind b n lines info cycles l u :
  filled nl ne ns vs l -> l !! (b + n)%nat = Some u -> is_kind (m_uop u) = true -> kind_start nl ne (b + n) = b -> length lines = n ->
  info_ok info -> 0 <= cycles <= memory_cycles P ->
  let again := existsb (Z.eqb (cache_line (addr info))) lines in
  exists l', fill_one is_kind (Some b) n lines info cycles l = Ok (l', lines ++ [cache_line (addr info)], again) /\
    filled nl ne ns vs l' /\
    forall i u', l' !! i = Some u' -> exists u, l !! i = Some u /\ squashed u' = squashed u || again && bool_decide (i = b + n)%nat.
Proof.
  intros Hfl Hu Hk Hb Hn Hin Hc again. unfold fill_one. cbn [of_option rbind]. rewrite Hu. cbn [of_option rbind]. rewrite Hk. cbn [rguard]. cbv zeta.
  fold again. assert (Hne : again = true -> n <> 0%nat) by (intros Hag ->; by destruct lines). clearbody again. destruct Hin as [Ha Hl Hw].
  assert (exists l1 u1, (if again then squash (b + n) l else Ok l) = Ok l1 /\ l1 !! (b + n)%nat = Some u1 /\ filled nl ne ns vs l1 /\
    (forall i u', l1 !! i = Some u' -> exists u, l !! i = Some u /\ squashed u' = squashed u || again && bool_decide (i = b + n)%nat))
    as (l1 & u1 & -> & Hu1 & Hfl1 & Hmark).
  { destruct again; [|by exists l, u; split_and!; try done; intros i v Hv; exists v; by rewrite orb_false_r]. destruct (squash_ok (b + n) l) as (l1 & -> & Hlen & Hall); [by eapply lookup_lt_Some|].
    destruct (lookup_lt_is_Some_2 l1 (b + n)%nat) as [u1 Hu1]; [rewrite Hlen; by eapply lookup_lt_Some|].
    exists l1, u1. split_and!; [done|done| |by intros i v' Hv'; destruct (Hall i v' Hv') as (v & f & g & Hv & ->); exists v]. apply (filled_change nl ne ns vs l); [done|done|]. intros i v' Hv'.
    destruct (Hall i v' Hv') as (v & f & g & Hv & ->). exists v. split_and!; [done|done| |].
    - intros [? ? ? ? Hfirst]. split; cbn; try done. rewrite orb_true_iff, bool_decide_eq_true. intros [Hs| ->]; [by apply Hfirst|].
      rewrite Hb. specialize (Hne eq_refl). lia.
    - intros [[] ? ? ? ? ?]. by split. }
  cbn [rbind]. unfold aget. rewrite Hu1. cbn [of_option rbind]. eexists. split; [done|]. split.
  - apply (filled_change nl ne ns vs l1); [done|apply length_insert|]. intros i v'.
    intros [(<- & <- & _)|[_ Hv]]%list_lookup_insert_Some; [|by exists v'].
    exists u1. split_and!; [done|done|by intros []|]. intros Hd. by apply dyn_access.
  - intros i v' [(<- & <- & _)|[_ Hv]]%list_lookup_insert_Some; [exact (Hmark _ u1 Hu1)|by apply Hmark].
Qed.

(** The accesses the operands make, by direction. *)
Definition accesses (ops : list Operand) : list direction :=
  omap (fun o => match m_type o with MEMORY => Some (m_direction o) | _ => None end) ops.

(** The lines of the accesses in a direction, and the accesses to a line that was
    accessed before by an earlier one of them. *)
Definition touched (x : direction) (infos : list MemoryInfo) : list Z :=
  map (fun i => cache_line (addr i)) (base.filter (fun i => dir i = x) infos).
Definition again_at (lines : list Z) (j : nat) : bool :=
  match lines !! j with Some x => existsb (Z.eqb x) (take j lines) | None => false end.
Definition squashed_at (nl ne : nat) (rl wl : list Z) (i : nat) : bool :=
  if bool_decide (i < nl)%nat then again_at rl i else if bool_decide (i < nl + ne)%nat then false else again_at wl (i - nl - ne).

Lemma touched_cons x i infos : touched x (i :: infos) = (if bool_decide (dir i = x) then [cache_line (addr i)] else []) ++ touched x infos.
Proof. unfold touched. rewrite filter_cons. by destruct (decide (dir i = x)); [rewrite bool_decide_true|rewrite bool_decide_false]. Qed.

Lemma again_at_snoc lines x j : again_at (lines ++ [x]) j = again_at lines j || existsb (Z.eqb x) lines && bool_decide (j = length lines).
Proof.
  unfold again_at. destruct (lt_eq_lt_dec j (length lines)) as [[Hlt| ->]|Hgt].
  - rewrite lookup_app_l, take_app_le, (bool_decide_false (j = _)) by lia. by rewrite andb_false_r, orb_false_r.
  - rewrite (list_lookup_middle lines [] x) by done. rewrite take_app_length, (lookup_ge_None_2 lines) by lia. by rewrite bool_decide_true, andb_true_r by done.
  - rewrite !lookup_ge_None_2 by (rewrite ?length_app; simpl; lia). rewrite bool_decide_false by lia. by rewrite andb_false_r.
Qed.

(** The state of the loop over the operands, with the accesses still to come. *)
Record filling_ok nl ne ns vs (rl wl : list Z) (infos : list MemoryInfo) (f : filling) : Prop := mkFillingOk {
  fg_filled : filled nl ne ns vs (f_uops f);
  fg_read : m_cache_lines_read f ++ touched READ infos = rl;
  fg_written : m_cache_lines_written f ++ touched WRITE infos = wl;
  fg_reads : length (m_cache_lines_read f) = num_reads_done f;
  fg_writes : length (m_cache_lines_written f) = num_writes_done f;
  fg_squashing : do_squashing f = false -> none_squashed (f_uops f);
  fg_marks : forall i u, f_uops f !! i = Some u -> squashed u = squashed_at nl ne (m_cache_lines_read f) (m_cache_lines_written f) i
}.

(** The next load or store there is for an operand. *)
Lemma filled_lookup nl ne ns vs l i : filled nl ne ns vs l -> (i < nl + ne + ns)%nat -> exists u, l !! i = Some u /\ uop_type (m_uop u) = kind_type nl ne i.
Proof.
  intros [[Hlen Hst] _ _] Hi. destruct (lookup_lt_is_Some_2 l i) as [u Hu]; [lia|]. exists u. split; [done|]. by apply Hst.
Qed.

Lemma fill_operands_ok nl ne ns vs rl wl load_base store_base :
  ((0 < nl)%nat -> load_base = Some 0%nat) -> ((0 < ns)%nat -> store_base = Some (nl + ne)%nat) -> length rl = nl -> length wl = ns ->
  forall ops infos f, filling_ok nl ne ns vs rl wl infos f -> map dir infos = accesses ops -> Forall info_ok infos ->
  exists f', fill_operands P load_base store_base ops infos f = Ok f' /\ filling_ok nl ne ns vs rl wl [] f'.
Proof.
  intros Hlb Hsb Hrl Hwl. induction ops as [|[ty dr] ops IH]; intros infos f Hf Hdirs Hinfos; cbn [fill_operands].
  { exists f. by destruct infos. }
  destruct ty; cbn [m_type m_direction]; [by apply IH| |by apply IH]. change (accesses (_ :: ops)) with (dr :: accesses ops) in Hdirs.
  destruct infos as [|info infos]; [done|]. injection Hdirs as Hd Hdirs. apply Forall_cons in Hinfos as [Hin Hinfos].
  unfold rguard. rewrite bool_decide_true by done. destruct (rounded_ok cfg P L Hcfg (latency info)) as (cycles & -> & Hc); [apply Hin|]. cbn [rbind].
  destruct Hf as [Hfl Hr Hw Hlr Hlw Hsq Hmk]. rewrite touched_cons, Hd in Hr, Hw. pose proof (f_equal length Hr) as Hnr. pose proof (f_equal length Hw) as Hnw.
  rewrite !length_app in Hnr, Hnw. destruct dr; repeat case_bool_decide; try done; cbn [length app] in *.
  - destruct (filled_lookup _ _ _ _ _ (num_reads_done f) Hfl) as (u & Hu & Hty); [lia|]. rewrite Hlb by lia.
    destruct (fill_one_ok nl ne ns vs isLoad 0 (num_reads_done f) (m_cache_lines_read f) info cycles (f_uops f) u) as (l' & -> & Hfl' & Hno);
      [done|done| | |done..|].
    { unfold isLoad, kind_type in *. rewrite Hty. by rewrite (bool_decide_true (_ < nl)%nat) by lia. }
    { unfold kind_start. simpl. by rewrite bool_decide_true by lia. }
    cbn [rbind]. rewrite <- Hlb by lia. apply IH; [|done..]. split; cbn; try done; [by rewrite <- app_assoc|rewrite length_app; simpl; lia| |].
    + intros [Hs1 Hs2]%orb_false_iff i u' Hu'. destruct (Hno i u' Hu') as (u0 & Hu0 & ->). by rewrite (Hsq Hs1 i u0 Hu0), Hs2.
    + intros i u' Hu'. destruct (Hno i u' Hu') as (u0 & Hu0 & ->). rewrite (Hmk i u0 Hu0). unfold squashed_at. rewrite again_at_snoc, Hlr.
      repeat case_bool_decide; (done || lia || by rewrite andb_false_r, orb_false_r).
  - destruct (filled_lookup _ _ _ _ _ (nl + ne + num_writes_done f) Hfl) as (u & Hu & Hty); [lia|]. rewrite Hsb by lia.
    destruct (fill_one_ok nl ne ns vs isStore (nl + ne) (num_writes_done f) (m_cache_lines_written f) info cycles (f_uops f) u) as (l' & -> & Hfl' & Hno);
      [done|done| | |done..|].
    { unfold isStore, kind_type in *. rewrite Hty. by rewrite (bool_decide_false (_ < nl)%nat), (bool_decide_false (_ < nl + ne)%nat) by lia. }
    { unfold kind_start. by rewrite !bool_decide_false by lia. }
    cbn [rbind]. rewrite <- Hsb by lia. apply IH; [|done..]. split; cbn; try done; [by rewrite <- app_assoc|rewrite length_app; simpl; lia| |].
    + intros [Hs1 Hs2]%orb_false_iff i u' Hu'. destruct (Hno i u' Hu') as (u0 & Hu0 & ->). by rewrite (Hsq Hs1 i u0 Hu0), Hs2.
    + intros i u' Hu'. destruct (Hno i u' Hu') as (u0 & Hu0 & ->). rewrite (Hmk i u0 Hu0). unfold squashed_at. rewrite again_at_snoc, Hlw.
      repeat case_bool_decide; (done || lia || by rewrite andb_false_r, orb_false_r).
Qed.

(** What is left of the micro-operations after all the operands. *)
Definition marked (sq : nat -> bool) (us : list Dyn) : Prop := forall i u, us !! i = Some u -> squashed u = sq i.

Lemma settled_ok nl ne ns vs rl wl f : filling_ok nl ne ns vs rl wl [] f -> independent vs -> Z.of_nat (length vs) < 2 ^ 32 ->
  exists us, (if do_squashing f then doSquashing (f_uops f) 0 else Ok (f_uops f)) = Ok us /\ batch_ok P L us /\ map m_uop us = vs /\
    marked (squashed_at nl ne rl wl) us.
Proof.
  intros [[Hst Hdyn Huops] Hr Hw _ _ Hno Hmk] Hind Hlen. rewrite app_nil_r in Hr, Hw. subst rl wl.
  rewrite <- Huops in Hind, Hlen. rewrite length_map in Hlen. destruct (do_squashing f).
  - destruct (doSquashing_ok nl ne ns (f_uops f) Hst Hlen) as (us & -> & Hl & Hall). exists us. split_and!; [done|by apply (batch_squashed nl ne ns (f_uops f))| |].
    + rewrite <- Huops. apply (list_eq_same_length _ _ (length us)); [by rewrite length_map|by rewrite length_map|]. intros i x y _.
      rewrite !list_lookup_fmap. intros (u' & Hu' & ->)%fmap_Some. destruct (Hall i u' Hu') as (u & Hu & (o & c & n & -> & _)). rewrite Hu. by intros [= <-].
    + intros i u' Hu'. destruct (Hall i u' Hu') as (u & Hu & (o & c & n & -> & _)). exact (Hmk i u Hu).
  - exists (f_uops f). split_and!; [done| |done|done]. apply (batch_squashed nl ne ns (f_uops f)); try done. intros i u Hu. exists u. split; [done|].
    by apply (resized_self nl ne ns); [| apply Hno|].
Qed.
End fill.
