(* ===== verification/PerfProps.v ===== *)
(** The core as a whole: instructions that are decoded, fetched, given their data and
    their branch prediction, and simulated by the reorder buffer. *)
From stdpp Require Import base numbers list.
From Stdlib Require Import ZArith Lia Bool.
From S2P Require Import Prelude BranchPredictor Timing MicroOp DecodeProps Dependencies RobContention RobTimer RobInv Queues QueueLemmas RobIssue RobHistory RobRun RobModels RobProps PerfModel PerfFill.
Open Scope Z_scope.

(** * The micro-operations that enter *)
Section entering.
Context {Inst Info : Type}.

(** Those of [vs] whose position is not squashed. *)
Fixpoint entering_from (sq : nat -> bool) (i : nat) (vs : list (MicroOp Inst)) : list (MicroOp Inst) :=
  match vs with
  | [] => []
  | v :: vs' => (if sq i then [] else [v]) ++ entering_from sq (S i) vs'
  end.

Lemma kept_marked sq (us : list (DynamicMicroOp Inst Info)) : forall k, marked (fun i => sq (k + i)%nat) us -> kept_uops us = entering_from sq k (map m_uop us).
Proof.
  induction us as [|u us IH]; intros k Hm; [done|]. cbn [map entering_from]. pose proof (Hm 0%nat u eq_refl) as Hu. cbv beta in Hu. rewrite Nat.add_0_r in Hu.
  change (kept_uops (u :: us)) with (map m_uop (live (u :: us))). rewrite live_cons, map_app, Hu. f_equal; [by destruct (sq k)|].
  apply (IH (S k)). intros i v Hv. rewrite Nat.add_succ_comm. by apply Hm.
Qed.

Definition count_type (ty : uop_type_t) (vs : list (MicroOp Inst)) : nat := length (base.filter (fun v => uop_type v = ty) vs).

(** The micro-operations of an instruction without the loads and stores of a line
    that an earlier load, or store, of the instruction accesses. *)
Definition entering (d : DynamicInstruction Inst) : list (MicroOp Inst) :=
  let vs := default [] (getMicroOps (instruction_ d)) in
  entering_from (squashed_at (count_type UOP_LOAD vs) (count_type UOP_EXECUTE vs) (touched READ (memory_info d)) (touched WRITE (memory_info d))) 0 vs.

Lemma count_map ty vs : count_type ty vs = length (base.filter (fun t => t = ty) (map uop_type vs)).
Proof. unfold count_type. induction vs as [|v vs IH]; [done|]. cbn [map]. rewrite !filter_cons. repeat destruct (decide _); cbn [length]; congruence. Qed.

Lemma filter_replicate (ty ty' : uop_type_t) n : length (base.filter (fun t => t = ty) (replicate n ty')) = if bool_decide (ty' = ty) then n else 0%nat.
Proof. induction n as [|n IH]; cbn [replicate]; [by case_bool_decide|]. rewrite filter_cons. repeat case_bool_decide; destruct (decide _); cbn [length]; try done; lia. Qed.

Lemma count_kinds `{Decoder Inst} ins nl ne ns vs : length vs = (nl + ne + ns)%nat -> (forall i u, vs !! i = Some u -> decoded ins nl ne ns i u) ->
  count_type UOP_LOAD vs = nl /\ count_type UOP_EXECUTE vs = ne /\ count_type UOP_STORE vs = ns.
Proof.
  intros Hl Hd. pose proof (decoded_types ins nl ne ns vs Hl Hd) as Ht. rewrite !count_map, Ht, !filter_app, !length_app, !filter_replicate.
  repeat case_bool_decide; (done || lia).
Qed.
End entering.

Lemma mapM_r_all {A B} (f : A -> result B) (Q : nat -> B -> Prop) l : forall k,
  (forall i x, l !! i = Some x -> exists y, f x = Ok y /\ Q (k + i)%nat y) ->
  exists ys, mapM_r f l = Ok ys /\ length ys = length l /\ forall i y, ys !! i = Some y -> Q (k + i)%nat y.
Proof.
  induction l as [|x l IH]; intros k Hf; cbn [mapM_r]; [by exists []|]. destruct (Hf 0%nat x eq_refl) as (y & -> & Hy). rewrite Nat.add_0_r in Hy.
  destruct (IH (S k)) as (ys & -> & Hlen & Hys); [intros i z Hz; rewrite Nat.add_succ_comm; by apply (Hf (S i))|].
  exists (y :: ys). cbn [rbind length]. split_and!; [done|by rewrite Hlen|]. intros [|i] z; cbn [lookup list_lookup].
  - intros [= <-]. by rewrite Nat.add_0_r.
  - intros Hz. rewrite <- Nat.add_succ_comm. by apply Hys.
Qed.

Section perf.
Context {Inst Info C M B : Type} `{Decoder Inst} `{!CoreModel Inst Info} `{!DataMemory M} `{!DataMemoryLaws M}
  `{!InstructionMemory M} `{!InstructionMemoryLaws M}
  `{!RobContention C (DynamicMicroOp Inst Info)} `{!RobContentionLaws C Inst Info} `{DirectionPredictor B}.
Abbreviation Dyn := (DynamicMicroOp Inst Info).
Abbreviation Timer := (RobTimer Inst Info C M).
Abbreviation Perf := (PerfModel Inst Info C M B).
Implicit Types s : Perf.
Implicit Types u : Dyn.
Implicit Types d : DynamicInstruction Inst.
Variable pc : PerfConfig.
Variables (P L max_bypass : Z).
Abbreviation cfg := (rob_config pc).

(** The costs of the model: two accesses and a bypass of a core fit the bound on latencies. *)
Record perf_config_ok : Prop := mkPerfConfigOk {
  pk_config : config_ok cfg P L;
  pk_room : 2 * memory_cycles P + max_bypass <= L;
  pk_period : P <= max_latency
}.

(** An instruction of the program: what it decodes to, and accesses that match its operands. *)
Record ins_ok d (ins : Inst) (vs : list (MicroOp Inst)) : Prop := mkInsOk {
  io_uops : getMicroOps (instruction_ d) = Some vs;
  io_decode : exists ptr, decode (getAddress (instruction_ d)) ins ptr = Ok vs;
  io_exec : (exec_count ins <= 2)%nat;
  io_registers : (length (fst (operand_registers ins)) + length (snd (operand_registers ins)) <= 12)%nat;
  io_uop : Forall (uop_ok P L max_bypass) vs;
  io_independent : independent vs;
  io_size : 2 * dispatchWidth cfg + Z.of_nat (length vs) <= 256;
  io_operands : map dir (memory_info d) = accesses (getOperands (instruction_ d));
  io_reads : length (touched READ (memory_info d)) = load_count ins;
  io_writes : length (touched WRITE (memory_info d)) = store_count ins;
  io_infos : Forall info_ok (memory_info d);
  io_type : isPseudo (instruction_ d) = false;
  io_branch : getType (instruction_ d) = INST_BRANCH -> (0 < exec_count ins)%nat /\ Forall (fun v => isExecute v = true -> isBranch v = true) vs
}.

Hypothesis Hpc : perf_config_ok.

(** * The state between two instructions *)
Record core_ok s : Prop := mkCoreOk {
  ck_steady : steady cfg P L (rob_timer s);
  ck_period : perf_period s = P;
  ck_bp : match m_bp s with Some b => bp_wf b | None => True end
}.

Lemma steady_memory m (t : Timer) : steady cfg P L t -> mem_inv m -> steady cfg P L (with_memory m t).
Proof.
  intros [Hi Hn Hid Hh Hna Ht] Hm. split; try done.
  - by destruct Hi.
  - destruct Hn as [[] Hf]. by split.
  - by destruct Hh.
Qed.

(** A step that changes the caches and the predictor only. *)
Record same_core s s' : Prop := mkSameCore {
  sc_core : core_ok s';
  sc_elapsed : m_elapsed_time s' = m_elapsed_time s;
  sc_clock : now (rob_timer s') = now (rob_timer s);
  sc_program : program (rob_timer s') = program (rob_timer s);
  sc_enabled : m_enabled s' = m_enabled s
}.

Lemma same_refl s : core_ok s -> same_core s s.
Proof. by intros; split. Qed.

Lemma same_trans s1 s2 s3 : same_core s1 s2 -> same_core s2 s3 -> same_core s1 s3.
Proof. intros [] []. split; [done|congruence..]. Qed.

Lemma same_mem m s : core_ok s -> mem_inv m -> same_core s (with_mem m s).
Proof. intros [] Hm. split; try done. split; [by apply steady_memory|done..]. Qed.

Lemma core_mem s : core_ok s -> mem_inv (memory (rob_timer s)).
Proof. intros [[Hi]]. apply Hi. Qed.

(** * Before the buffer *)
Abbreviation filled := (filled P L max_bypass).
Abbreviation kinds ins := (filled (load_count ins) (exec_count ins) (store_count ins)).

Lemma ins_decoded d ins vs : ins_ok d ins vs ->
  length vs = (load_count ins + exec_count ins + store_count ins)%nat /\
  forall i v, vs !! i = Some v -> decoded ins (load_count ins) (exec_count ins) (store_count ins) i v.
Proof.
  intros []. destruct io_decode0 as (ptr & Hdec). destruct (decode_ok (getAddress (instruction_ d)) ins ptr io_exec0 io_registers0) as (vs' & Hdec' & Hlen & Hd).
  rewrite Hdec in Hdec'. by injection Hdec' as <-.
Qed.

Lemma created_ok d ins vs : ins_ok d ins vs ->
  exists us, mapM_r createDynamicMicroOp vs = Ok us /\ kinds ins vs us /\ none_squashed us /\ (0 < length us)%nat.
Proof.
  intros Hi. destruct (ins_decoded d ins vs Hi) as [Hlen Hd]. destruct Hi, Hpc.
  destruct (mapM_r_all (createDynamicMicroOp (Info := Info)) (fun i u => vs !! i = Some (m_uop u) /\ squashed u = false /\
    staged (load_count ins) (exec_count ins) i u /\ dyn_ok P L max_bypass u) vs 0) as (us & -> & Hl & Hall).
  { intros i v Hv. pose proof (Forall_lookup_1 _ _ _ _ io_uop0 Hv) as Hok.
    destruct (create_ok cfg P L max_bypass pk_config0 ins _ _ _ i v (Hd i v Hv) Hok) as (u & Hu & Hm & Hs & Hst & Hdy). exists u. by rewrite Hm. }
  exists us. split_and!; [done| | |].
  - split; [split|..].
    + lia.
    + intros i u Hu. by apply Hall in Hu as (_ & _ & ? & _).
    + intros i u Hu. by apply Hall in Hu as (_ & _ & _ & ?).
    + apply (list_eq_same_length _ _ (length vs)); [done|by rewrite length_map|]. intros i x y _. rewrite list_lookup_fmap.
      intros (u & Hu & ->)%fmap_Some Hy. apply Hall in Hu as (Hv & _). simpl in Hv. congruence.
  - intros i u Hu. by apply Hall in Hu as (_ & ? & _).
  - rewrite Hl, Hlen. unfold exec_count. case_bool_decide; lia.
Qed.

(** The first load and the first store. *)
Lemma first_of_kind nl ne ns vs us (ty : uop_type_t) b : filled nl ne ns vs us -> (b < nl + ne + ns)%nat -> kind_type nl ne b = ty ->
  (forall j, (j < b)%nat -> kind_type nl ne j <> ty) -> find_first (fun u => bool_decide (uop_type (m_uop u) = ty)) us = Some b.
Proof.
  intros [[Hlen Hst] _ _] Hb Hty Hbefore. destruct (lookup_lt_is_Some_2 us b) as [u Hu]; [lia|]. destruct (find_first _ us) as [k|] eqn:Hf.
  - apply find_first_Some in Hf as [(x & Hx & Hbx) Hlt]. apply bool_decide_eq_true in Hbx. rewrite (sg_type _ _ _ _ (Hst k x Hx)) in Hbx. f_equal.
    destruct (lt_eq_lt_dec k b) as [[Hk|Hk]|Hk]; [by destruct (Hbefore k Hk)|done|]. specialize (Hlt b u Hk Hu). apply bool_decide_eq_false in Hlt.
    by rewrite (sg_type _ _ _ _ (Hst b u Hu)) in Hlt.
  - rewrite find_first_None in Hf. specialize (Hf b u Hu). apply bool_decide_eq_false in Hf. by rewrite (sg_type _ _ _ _ (Hst b u Hu)) in Hf.
Qed.

Lemma first_load nl ne ns vs us : filled nl ne ns vs us -> (0 < nl)%nat -> find_first (fun u => isLoad (m_uop u)) us = Some 0%nat.
Proof.
  intros Hf Hnl. apply (first_of_kind nl ne ns vs); [done|lia| |lia]. unfold kind_type. by rewrite (bool_decide_true (_ < nl)%nat) by lia.
Qed.

Lemma first_store nl ne ns vs us : filled nl ne ns vs us -> (0 < ns)%nat -> find_first (fun u => isStore (m_uop u)) us = Some (nl + ne)%nat.
Proof.
  intros Hf Hns. apply (first_of_kind nl ne ns vs); [done|lia| |]; unfold kind_type.
  - by rewrite (bool_decide_false (_ < nl)%nat), (bool_decide_false (_ < nl + ne)%nat) by lia.
  - intros j Hj. by repeat case_bool_decide.
Qed.

Lemma count_uops_type nl ne ns vs us ty : filled nl ne ns vs us ->
  count_uops (fun u => bool_decide (uop_type (m_uop u) = ty)) us = count_type ty vs.
Proof.
  intros Hf. rewrite <- (fl_uops _ _ _ _ _ _ _ _ Hf). unfold count_uops, count_type. clear. induction us as [|u us IH]; [done|].
  cbn [map]. rewrite !filter_cons. destruct (decide (uop_type (m_uop u) = ty)) as [Ht|Ht].
  - rewrite decide_True by (by apply bool_decide_eq_true). cbn [length]. by rewrite IH.
  - rewrite decide_False by (by rewrite bool_decide_eq_true). done.
Qed.

Lemma perf_fetch_ok nl ne ns d vs us s : core_ok s -> filled nl ne ns vs us -> none_squashed us ->
  exists us' s', fetch pc d us s = Ok (us', s') /\ same_core s s' /\ filled nl ne ns vs us' /\ none_squashed us'.
Proof.
  intros Hs Hfl Hno. unfold fetch. destruct us as [|u us]; [by exists [], s; split_and!; [|apply same_refl|..]|].
  destruct (_ && _ && _); [|by exists (u :: us), s; split_and!; [|apply same_refl|..]].
  destruct (read_instruction_ok (eip d) (getSize (instruction_ d)) (elapsed s) (memory (rob_timer s)) (core_mem s Hs)) as (l & w & m & -> & Hl & Hw & Hm).
  cbn [rbind]. destruct Hpc. rewrite (ck_period s Hs). destruct (rounded_ok cfg P L pk_config0 l Hl) as (c & -> & Hc). cbn [rbind].
  eexists _, _. split; [done|]. split; [by apply same_mem|]. pose proof (co_latency _ _ _ pk_config0). pose proof (co_small _ _ _ pk_config0) as (HL & _). split.
  - apply (filled_change P L max_bypass nl ne ns vs (u :: us)); [done|done|]. intros [|i] v' Hv'; [|by exists v']. injection Hv' as <-.
    exists u. split_and!; [done|done|by intros []|]. intros [[] ? ? ? ? ?]. split; try done. split; try done. cbn. rewrite u32_small by lia.
    split; [lia|by apply valid_where].
  - intros [|i] v' Hv'; [injection Hv' as <-; by apply (Hno 0%nat u)|by apply (Hno (S i))].
Qed.

Lemma access_infos_ok i infos : forall s, core_ok s -> Forall info_ok infos ->
  exists infos' s', access_infos i infos s = Ok (infos', s') /\ same_core s s' /\ Forall info_ok infos' /\ map dir infos' = map dir infos /\
    forall x, touched x infos' = touched x infos.
Proof.
  induction infos as [|x infos IH]; intros s Hs Hall; cbn [access_infos]; [by exists [], s; split_and!; [|apply same_refl|..]|].
  apply Forall_cons in Hall as [Hx Hall].
  match goal with |- context [rbind (if ?b then ?e1 else ?e2) _] => set (step := if b then e1 else e2) end.
  assert (exists l w s1, step = Ok (mkInfo (executed x) (dir x) (addr x) (size x) l w, s1) /\ same_core s s1 /\
    0 <= l <= max_latency /\ HitWhereIsValid w = true) as (l & w & s1 & -> & Hs1 & Hl & Hw).
  { subst step. destruct (_ && _).
    - match goal with |- context [accessMemory_ ?op ?a ?sz ?e ?t ?m] =>
        destruct (access_memory_ok op a sz e t m (core_mem s Hs)) as (l & w & m' & -> & Hl & Hw & Hm) end.
      cbn [rbind]. eexists _, _, _. split_and!; [done|by apply same_mem|lia..|done].
    - eexists _, _, _. split_and!; [done|by apply same_refl| | |done]; rewrite (ck_period s Hs); destruct Hpc; pose proof (co_period _ _ _ pk_config0); lia. }
  cbn [rbind]. destruct (IH s1) as (infos' & s' & -> & Hs' & Hall' & Hd & Ht); [apply Hs1|done|]. cbn [rbind].
  eexists _, s'. split_and!; [done|by apply (same_trans s s1)| |cbn [map dir]; by rewrite Hd|].
  - apply Forall_cons. split; [|done]. destruct Hx. by split.
  - intros y. rewrite !touched_cons, Ht. done.
Qed.

(** * Branches *)
Lemma branch_cost_ok d s : core_ok s -> exists w c s', branch_cost pc d s = Ok (w, c, s') /\ same_core s s'.
Proof.
  intros Hs. unfold branch_cost, getBranchCost, accessBranchPredictor. pose proof (ck_bp s Hs) as Hb. destruct (m_bp s) as [b|] eqn:Hbp.
  - destruct (bp_access_ok b (eip d) (taken d) (target d) Hb) as (r & b1 & b2 & -> & Hu & Hwf & _). cbn [rbind]. rewrite Hu. cbn [rbind].
    eexists _, _, _. split; [done|]. destruct Hs. by split.
  - cbn [rbind]. eexists _, _, _. split; [done|]. destruct Hs. by split.
Qed.

Lemma batch_branch w t g us : forall pre i u, batch_from P L pre us -> us !! i = Some u -> batch_from P L pre (<[i := set_branch w t g u]> us).
Proof.
  induction us as [|v us IH]; intros pre [|i] u Hb Hu; try done.
  - injection Hu as ->. cbn [insert list_insert batch_from] in *. change (squashed (set_branch w t g u)) with (squashed u).
    destruct (squashed u); [done|]. destruct Hb as [Hf Hb]. split; [|done]. destruct Hf as [[] ? ? ? ? ? ? ? ?]. by split; [split|..].
  - change (<[S i := set_branch w t g u]> (v :: us)) with (v :: <[i := set_branch w t g u]> us). cbn [batch_from] in *.
    destruct (squashed v); [by apply IH|]. destruct Hb. split; [done|by apply IH].
Qed.

Lemma resolve_ok d ins vs us sq s : ins_ok d ins vs -> core_ok s -> batch_ok P L us -> map m_uop us = vs -> marked sq us ->
  exists us' c s', resolve_branch pc d us s = Ok (us', c, s') /\ batch_ok P L us' /\ map m_uop us' = vs /\ marked sq us' /\ same_core s s'.
Proof.
  intros Hi Hs Hb Hm Hmk. unfold resolve_branch. destruct (bool_decide _) eqn:Hty.
  - apply bool_decide_eq_true in Hty. destruct (io_branch _ _ _ Hi Hty) as [Hne Hbr]. destruct (branch_cost_ok d s Hs) as (w & c & s' & -> & Hs').
    cbn [rbind]. destruct (ins_decoded d ins vs Hi) as [Hlen Hd].
    destruct (lookup_lt_is_Some_2 vs (load_count ins)) as [v Hv]; [lia|].
    destruct (decoded_kinds _ _ _ _ _ _ (Hd _ _ Hv)) as (_ & HE & _). assert (isExecute v = true) as Hex by (apply HE; lia).
    destruct (find_last _ us) as [k|] eqn:Hk.
    2:{ rewrite find_last_None in Hk. rewrite <- Hm, list_lookup_fmap in Hv. apply fmap_Some in Hv as (x & Hx & ->). specialize (Hk _ x Hx). congruence. }
    apply find_last_Some in Hk as [(x & Hx & Hexx) _]. cbn [of_option rbind]. unfold aget. rewrite Hx. cbn [of_option rbind].
    rewrite (proj1 (Forall_forall _ _) Hbr (m_uop x)); [|rewrite <- Hm; apply list_elem_of_fmap; exists x; split; [done|by eapply list_elem_of_lookup_2]|done].
    cbn [rguard]. eexists _, _, _. split; [done|]. split_and!; [by apply batch_branch| | |done].
    + rewrite <- Hm. rewrite list_fmap_insert. apply list_insert_id. by rewrite list_lookup_fmap, Hx.
    + intros j y [(<- & <- & _)|[_ Hy]]%list_lookup_insert_Some; [exact (Hmk k x Hx)|by apply Hmk].
  - unfold getCost. destruct (is_branch d).
    + destruct (branch_cost_ok d s Hs) as (w & c & s' & -> & Hs'). cbn [rbind]. by eexists _, _, _.
    + unfold instruction_cost. pose proof (io_type _ _ _ Hi) as Hp. unfold isPseudo in *.
      destruct (getType (instruction_ d)); try done; eexists _, _, _; (split; [done|]); split_and!; try done; by apply same_refl.
Qed.

(** All that happens before the buffer. *)
Lemma prepare_ok d ins vs s : ins_ok d ins vs -> core_ok s ->
  exists us c s', prepare pc d s = Ok (us, c, s') /\ same_core s s' /\ batch_ok P L us /\ kept_uops us = entering d /\
    length us = length vs /\ (0 < length us)%nat.
Proof.
  intros Hi Hs. unfold prepare. rewrite (io_uops _ _ _ Hi). change (default [] (Some vs)) with vs. destruct (created_ok d ins vs Hi) as (us0 & -> & Hf0 & Hn0 & Hpos). cbn [rbind].
  set (nl := load_count ins) in *. set (ne := exec_count ins) in *. set (ns := store_count ins) in *.
  pose proof (first_load nl ne ns vs us0 Hf0) as Hlb. pose proof (first_store nl ne ns vs us0 Hf0) as Hsb.
  pose proof (count_uops_type nl ne ns vs us0) as Hcount.
  destruct (ins_decoded d ins vs Hi) as [Hlen Hd]. pose proof Hi as [].
  destruct (count_kinds ins nl ne ns vs Hlen Hd) as (Hcl & Hce & Hcs). 
  rewrite (Hcount UOP_LOAD Hf0 : count_uops (fun u => isLoad (m_uop u)) us0 = _), (Hcount UOP_STORE Hf0 : count_uops (fun u => isStore (m_uop u)) us0 = _).
  destruct (perf_fetch_ok nl ne ns d vs us0 s Hs Hf0 Hn0) as (us1 & s1 & -> & Hs1 & Hf1 & Hn1). cbn [rbind].
  match goal with |- context [rbind (if m_issue_memops pc then ?e1 else ?e2) _] => set (step := if m_issue_memops pc then e1 else e2) end.
  assert (exists infos s2, step = Ok (infos, s2) /\ same_core s1 s2 /\ Forall info_ok infos /\ map dir infos = accesses (getOperands (instruction_ d)) /\
    forall x, touched x infos = touched x (memory_info d)) as (infos & s2 & -> & Hs2 & Hin & Hdirs & Htouch).
  { subst step. destruct (m_issue_memops pc).
    - destruct (access_infos_ok (instruction_ d) (memory_info d) s1) as (infos & s2 & -> & Hs2 & Hall & Hdir & Ht); [apply Hs1|done|].
      exists infos, s2. split_and!; try done. by rewrite Hdir.
    - exists (memory_info d), s1. split_and!; try done. apply same_refl, Hs1. }
  cbn [rbind]. rewrite (ck_period s2 (sc_core _ _ Hs2)). destruct Hpc as [Hcfg Hroom _].
  destruct (fill_operands_ok cfg P L max_bypass Hcfg Hroom nl ne ns vs (touched READ (memory_info d)) (touched WRITE (memory_info d)) _ _ Hlb Hsb io_reads0 io_writes0
    (getOperands (instruction_ d)) infos (mkFilling us1 0 0 [] [] false)) as (f & -> & Hf); [|done|done|].
  { split; try done; cbn; try by rewrite Htouch. intros i u Hu. rewrite (Hn1 i u Hu). unfold squashed_at, again_at. by repeat case_bool_decide. }
  cbn [rbind]. pose proof (co_dispatch _ _ _ Hcfg). destruct (settled_ok P L max_bypass nl ne ns vs _ _ f Hf io_independent0) as (us2 & -> & Hb2 & Hm2 & Hk2); [lia|]. cbn [rbind].
  destruct Hf as [_ Hfr Hfw Hr Hw _ _]. rewrite app_nil_r in Hfr, Hfw.
  unfold rguard. rewrite <- Hr, <- Hw, Hfr, Hfw, io_reads0, io_writes0, Hcl, Hcs. rewrite !bool_decide_true by done.
  destruct (resolve_ok d ins vs us2 (squashed_at nl ne (touched READ (memory_info d)) (touched WRITE (memory_info d))) s2 Hi) as (us & c & s3 & -> & Hb & Hm & Hk & Hs3); [apply Hs2|done..|].
  exists us, c, s3. split_and!; [done|eapply same_trans; [exact Hs1|]; by eapply same_trans|done| | |].
  - rewrite (kept_marked (squashed_at nl ne (touched READ (memory_info d)) (touched WRITE (memory_info d))) us 0 Hk), Hm.
    unfold entering. rewrite io_uops0. change (default [] (Some vs)) with vs. by rewrite Hcl, Hce.
  - by rewrite <- Hm, length_map.
  - rewrite <- (length_map m_uop us), Hm, <- (fl_uops _ _ _ _ _ _ _ _ Hf0), length_map. done.
Qed.

(** * An instruction *)

(** The elapsed time of the core follows the clock of the buffer, but the time of
    every instruction is rounded to cycles. *)
Definition rounding : Z := P / 2 + 1.
Definition drift (k : Z) s : Prop := 0 <= elapsed s /\ Z.abs (elapsed s - time (rob_timer s)) <= k * rounding.

Lemma rounds_to t : 0 <= t -> t + rounding < 2 ^ 64 -> exists c, divideRounded t P = Ok c /\ 0 <= c /\ t - rounding <= P * c <= t + rounding.
Proof.
  intros Ht Hmax. destruct Hpc. pose proof (co_period _ _ _ pk_config0) as HP. unfold rounding in *.
  assert (0 <= P / 2) by (apply Z.div_pos; lia). pose proof (Z.div_mod P 2 ltac:(lia)). pose proof (Z.mod_pos_bound P 2 ltac:(lia)).
  unfold divideRounded, udiv. rewrite (proj2 (Z.eqb_neq P 0)) by lia. unfold rguard. cbn [negb rbind]. rewrite u64_small by lia.
  pose proof (Z.div_mod (t + (P / 2 + 1)) P ltac:(lia)). pose proof (Z.mod_pos_bound (t + (P / 2 + 1)) P ltac:(lia)).
  assert (0 <= (t + (P / 2 + 1)) / P) by (apply Z.div_pos; lia). eexists. split; [done|]. lia.
Qed.

Lemma handle_ok (k : Z) fuel stale d ins vs s :
  ins_ok d ins vs -> core_ok s -> drift k s -> 0 <= k -> cycle_bound L <= Z.of_nat fuel ->
  Z.of_nat (length (program (rob_timer s)) + length vs) < INVALID_SEQNR ->
  time (rob_timer s) + horizon P L + (k + 1) * rounding < MaxTime ->
  exists s', handleInstruction pc stale fuel d s = Ok s' /\ core_ok s' /\ drift (k + 1) s' /\ m_enabled s' = m_enabled s /\
    program (rob_timer s') = program (rob_timer s) ++ entering d /\ time (rob_timer s) <= time (rob_timer s').
Proof.
  intros Hi Hs [He Hd] Hk Hfuel Hmax Htime. unfold handleInstruction.
  destruct (prepare_ok d ins vs s Hi Hs) as (us & cost & s1 & -> & Hs1 & Hb & Hkept & Hlen & Hpos). cbn [rbind]. rewrite bool_decide_true by done.
  destruct Hs1 as [Hc1 He1 Ht1 Hp1 Hen1]. unfold perf_simulate. pose proof (io_size _ _ _ Hi) as Hsize.
  assert (Htt : time (rob_timer s1) = time (rob_timer s)) by (unfold time; by rewrite Ht1).
  assert (Hee : elapsed s1 = elapsed s) by (unfold elapsed; by rewrite He1).
  pose proof (co_period _ _ _ (pk_config Hpc)) as HP. assert (0 <= P / 2) by (apply Z.div_pos; lia). assert (1 <= rounding) by (unfold rounding; lia).
  destruct (simulate_ok cfg P L (pk_config Hpc) fuel us (rob_timer s1)) as (n & t & tm & new & -> & Hst & Htm & Ht & Hpr & _);
    [apply Hc1|done|lia|rewrite Hp1; lia|rewrite Htt; nia|done|]. cbn [rbind]. rewrite (ck_period s1 Hc1).
  pose proof (sd_time _ _ _ _ (ck_steady _ Hs)) as Hclk. destruct (rounds_to t) as (c & -> & Hc & Hr); [lia|unfold MaxTime in Htime; nia|]. cbn [rbind].
  eexists. split; [done|]. unfold account. cbn [with_elapsed with_rob_timer rob_timer m_enabled]. change (perf_period (with_rob_timer tm s1)) with (perf_period s1).
  rewrite (ck_period s1 Hc1). set (s' := with_elapsed _ _ _ _).
  assert (He' : elapsed s' = elapsed s + P * c).
  { subst s'. unfold elapsed in *. cbn. rewrite Hee. unfold tmul. rewrite u64_small by (unfold MaxTime in Htime; nia). apply tadd_small; unfold MaxTime in Htime; nia. }
  assert (Ht' : time (rob_timer s') = time (rob_timer s) + t) by (cbn; lia).
  split_and!; [split; [done|by apply (ck_period s1)|apply Hc1]| |done|cbn; by rewrite Hpr, Hp1, Hkept|lia]. split; [nia|]. rewrite He', Ht'. lia.
Qed.

(** * A program *)

(** The instructions of a thread, each queued and handled at once. *)
Fixpoint run_program (stale : Z) (fuel : nat) (ds : list (DynamicInstruction Inst)) s : result Perf :=
  match ds with
  | [] => Ok s
  | d :: ds' =>
      let! s := queueInstruction d s in
      let! s := iterate pc stale fuel s in
      run_program stale fuel ds' s
  end.

Definition uop_count d : nat := length (default [] (getMicroOps (instruction_ d))).
Definition program_size (ds : list (DynamicInstruction Inst)) : nat := list_sum (map uop_count ds).
Definition all_entering (ds : list (DynamicInstruction Inst)) : list (MicroOp Inst) := concat (map entering ds).

Lemma length_entering_from sq vs : forall i, (length (entering_from (Inst := Inst) sq i vs) <= length vs)%nat.
Proof. induction vs as [|v vs IH]; intros i; [done|]. cbn [entering_from]. rewrite length_app. specialize (IH (S i)). destruct (sq i); simpl; lia. Qed.

Lemma core_queue q s : core_ok s -> core_ok (with_queue q s).
Proof. by intros []. Qed.

Lemma run_program_ok stale fuel : forall ds (k : Z) s,
  core_ok s -> drift k s -> m_enabled s = true -> m_instruction_queue s = [] -> 0 <= k ->
  Forall (fun d => exists ins vs, ins_ok d ins vs) ds -> Z.of_nat (length (program (rob_timer s)) + program_size ds) < INVALID_SEQNR ->
  cycle_bound L <= Z.of_nat fuel ->
  exists n s', run_program stale fuel (take n ds) s = Ok s' /\ core_ok s' /\ drift (k + Z.of_nat n) s' /\ (n <= length ds)%nat /\
    program (rob_timer s') = program (rob_timer s) ++ all_entering (take n ds) /\
    (n = length ds \/ MaxTime <= time (rob_timer s') + horizon P L + (k + Z.of_nat (length ds)) * rounding).
Proof.
  induction ds as [|d ds IH]; intros k s Hs Hd Hen Hq Hk Hall Hmax Hfuel.
  { exists 0%nat, s. rewrite Z.add_0_r. cbn. rewrite app_nil_r. split_and!; (done || by left). }
  apply Forall_cons in Hall as [(ins & vs & Hi) Hall]. pose proof (co_period _ _ _ (pk_config Hpc)) as HP. assert (0 <= P / 2) by (apply Z.div_pos; lia).
  destruct (Z.lt_ge_cases (time (rob_timer s) + horizon P L + (k + 1) * rounding) MaxTime) as [Htime|Htime].
  2:{ exists 0%nat, s. rewrite Z.add_0_r. cbn. rewrite app_nil_r. split_and!; try done; [lia|right]. unfold rounding in *. nia. }
  assert (Hcnt : uop_count d = length vs) by (unfold uop_count; by rewrite (io_uops _ _ _ Hi)).
  unfold program_size in Hmax. cbn [map list_sum] in Hmax. change (list_sum (?x :: ?l)) with (x + list_sum l)%nat in Hmax. fold (program_size ds) in Hmax.
  cbn [run_program]. set (s0 := with_queue [d] s).
  assert (Hqs : queueInstruction d s = Ok s0).
  { unfold queueInstruction. rewrite Hen, Hq. done. }
  destruct (handle_ok k fuel stale d ins vs s0 Hi) as (s1 & Hh & Hs1 & Hd1 & Hen1 & Hp1 & Ht1); [by apply core_queue|done|done|done|cbn; lia|done|].
  destruct (IH (k + 1) (with_queue [] s1)) as (n & s' & Hrun & Hs' & Hd' & Hn & Hp' & Hend); [by apply core_queue|done|by cbn; rewrite Hen1|done|lia|done| |done|].
  { cbn. rewrite Hp1, length_app. cbn. pose proof (length_entering_from (squashed_at (count_type UOP_LOAD vs) (count_type UOP_EXECUTE vs)
      (touched READ (memory_info d)) (touched WRITE (memory_info d))) vs 0) as Hle. unfold entering. rewrite (io_uops _ _ _ Hi).
    change (default [] (Some vs)) with vs. lia. }
  exists (S n), s'. cbn [take run_program]. rewrite Hqs. cbn [rbind]. unfold iterate. cbn [m_instruction_queue with_queue s0 iterate_queue].
  assert (Hidle : isIdle (instruction_ d) = false) by (pose proof (io_type _ _ _ Hi) as Hp; unfold isPseudo, isIdle in *; by destruct (getType _)).
  unfold rguard. rewrite Hidle. cbn [negb]. change (m_enabled s0) with (m_enabled s). rewrite Hen, Hh. cbn [rbind iterate_queue].
  split_and!; [done|done| |cbn; lia| |].
  - replace (k + Z.of_nat (S n)) with (k + 1 + Z.of_nat n) by lia. done.
  - rewrite Hp'. cbn. rewrite Hp1. unfold all_entering. cbn. by rewrite app_assoc.
  - destruct Hend as [Hend|Hend]; [left; cbn; lia|right; cbn [length]]. by replace (k + Z.of_nat (S (length ds))) with (k + 1 + Z.of_nat (length ds)) by lia.
Qed.

Lemma new_timer_clock (rc : RobConfig) period c m (t : Timer) : new_timer rc period c m = Ok t -> time t = 0.
Proof. unfold new_timer. intros Ht. inv_ok. done. Qed.

Record program_ok (fuel : nat) (ds : list (DynamicInstruction Inst)) : Prop := mkProgramOk {
  po_instructions : Forall (fun d => exists ins vs, ins_ok d ins vs) ds;
  po_size : Z.of_nat (program_size ds) < INVALID_SEQNR;
  po_fuel : cycle_bound L <= Z.of_nat fuel
}.

(** C12: a core runs a program, whatever the caches, the branch predictor and the core
    model that keep to their latency bounds, until the simulated time is used up: no
    assertion fails and no array is overrun from the decoded instruction to the commit
    of its micro-operations, and every instruction is handled within [cycle_bound]
    cycles.  The configuration satisfies [config_ok] (a window of at most 769 entries,
    a penalty of at least two cycles, ...), and every instruction [ins_ok]: it decodes
    to at most two executes and twelve registers, its micro-operations have at most
    six dependencies each, those of one kind are independent of each other, their
    latencies are within the bound, and its accesses match its operands.  The micro-operations
    that commit are those of the instructions in order, without the loads and the
    stores of a line which the instruction accesses already; and the elapsed time of
    the core is the clock of the buffer up to the rounding of every instruction. *)
Theorem core_runs_program c m bp stale fuel ds :
  setup_ok cfg P L c m -> match bp with Some b => bp_wf b | None => True end -> program_ok fuel ds ->
  exists s0 n s, new_perf pc P c m bp = Ok s0 /\ run_program stale fuel (take n ds) (enable s0) = Ok s /\
    (n = length ds \/ MaxTime <= time (rob_timer s) + horizon P L + Z.of_nat (length ds) * (P / 2 + 1)) /\
    (exists rest, all_entering (take n ds) = committed (rob_timer s) ++ rest /\
       Z.of_nat (length rest) < windowSize cfg + 2 * dispatchWidth cfg) /\
    Z.abs (elapsed s - time (rob_timer s)) <= Z.of_nat n * (P / 2 + 1).
Proof.
  intros Hsu Hbp [Hall Hmax Hfuel]. destruct (new_timer_ok cfg P L c m Hsu) as (t & Ht & Hst & Hp0).
  destruct (run_program_ok stale fuel ds 0 (enable (mkPerf _ _ _ _ _ false 0 (ComponentTime.create P) (ComponentTime.create P) [] bp t 0 0 0 0 0 0 (fun _ => 0))))
    as (n & s & Hrun & Hs & [_ Hd] & _ & Hp & Hend); try done.
  - split; [done|]. cbn. pose proof (new_timer_clock cfg P c m t Ht) as Hz. unfold elapsed. cbn. by rewrite Hz.
  - cbn. by rewrite Hp0.
  - eexists _, n, s. unfold new_perf. rewrite Ht. cbn [rbind]. split_and!; [done|done|done| |done]. cbn in Hp. rewrite Hp0 in Hp. cbn in Hp.
    destruct (ck_steady s Hs) as [Hinv _ [_ Hl] _ _ _]. destruct (i_num _ _ _ _ Hinv) as [_ Hn].
    exists (map mop (rob (rob_timer s))). split; [by rewrite <- Hp|]. rewrite length_map. lia.
Qed.
End perf.

(** * An example

    A core that runs a small program: a word of memory is incremented, two strings that
    are on the same line are compared, and a branch is taken. *)
(** [add [rbx], rax], [cmps] and a conditional jump. *)
Inductive tiny_instruction := Increment | Compare | Jump.

#[export] Instance tiny_decoder : Decoder tiny_instruction := {
  largest_enclosing_register := id; invalid_register := Z.eqb 0; reg_is_program_counter := Z.eqb 40; last_reg := 64;
  num_operands := fun i => match i with Increment => 3%nat | Compare => 1%nat | Jump => 1%nat end;
  num_memory_operands := fun i => match i with Increment => 1%nat | Compare => 2%nat | Jump => 0%nat end;
  mem_base_reg := fun _ k => Z.of_nat k + 4; mem_index_reg := fun _ _ => 0;
  op_read_mem := fun _ _ => true; op_write_mem := fun i _ => match i with Increment => true | _ => false end;
  op_read_reg := fun i k => match i with Increment => Nat.eqb k 1 | Compare => false | Jump => true end;
  op_write_reg := fun i k => match i with Increment => Nat.eqb k 2 | Compare => true | Jump => false end;
  is_addr_gen := fun _ _ => false; op_is_reg := fun i k => match i with Increment => negb (Nat.eqb k 0) | _ => true end;
  get_op_reg := fun i k => match i with Increment => if Nat.eqb k 1 then 1 else 33 | _ => 33 end;
  size_mem_op := fun _ _ => 8; get_exec_microops := fun _ _ _ => 1; get_operand_size := fun _ => 64; is_pause_opcode := fun _ => false;
  is_branch_opcode := fun _ => false; is_fpvector_addsub_opcode := fun _ _ => false; is_fpvector_muldiv_opcode := fun _ _ => false;
  is_fpvector_ldst_opcode := fun _ _ => false; inst_num_id := fun _ => 7; is_nop := fun _ => false; is_atomic := fun _ => false;
  is_serializing := fun _ => false; is_conditional_branch := fun i => match i with Jump => true | _ => false end;
  is_barrier := fun _ => false; src_dst_merge := fun _ => false; is_X87 := fun _ => false
}.
#[export] Instance tiny_xed : Xed := { iclass_of := fun _ => XED_OTHER; XED_ICLASS_LAST := 2000 }.
#[export] Existing Instance Nehalem.core_model.
#[export] Instance tiny_memory : DataMemory unit := { access_data := fun _ _ _ _ _ m => Ok (3000, 3, m) }.
#[export] Program Instance tiny_memory_laws : DataMemoryLaws unit := { mem_inv := fun _ => True; max_latency := 3000 }.
Next Obligation. intros. eexists _, _, _. by split_and!. Qed.
#[export] Instance tiny_instruction_memory : InstructionMemory unit := {
  readInstructionMemory := fun _ _ _ m => Ok (1000, HIT_L1I, m);
  accessMemory_ := fun _ _ _ _ _ m => Ok (3000, 3, m)
}.
#[export] Program Instance tiny_instruction_memory_laws : InstructionMemoryLaws unit.
Next Obligation. intros. eexists _, _, _. split_and!; (done || vm_compute; congruence). Qed.
Next Obligation. intros. eexists _, _, _. split_and!; (done || vm_compute; congruence). Qed.

Definition tiny_core : PerfConfig := mkPerfConfig (mkRobConfig 2 2 8 4 8 true true false true 0 2 2) false true 8 (fun _ => 1).
Definition tiny_uops (i : tiny_instruction) : option (list (MicroOp tiny_instruction)) :=
  match decode 4096 i None with Ok vs => Some vs | Err _ => None end.
Definition tiny_static (ty : InstructionType) (ops : list direction) (i : tiny_instruction) : Instruction tiny_instruction :=
  mkInstruction _ ty (mkOperand REG READ :: map (mkOperand MEMORY) ops) (tiny_uops i) 4096 4 false 0 false 0 false 0 START_TIME.
Definition tiny_info (dr : direction) (a : Z) : MemoryInfo := mkInfo true dr a 8 0 HIT_UNKNOWN.
Definition tiny_program : list (DynamicInstruction tiny_instruction) :=
  [ mkDynamicInstruction _ (tiny_static INST_GENERIC [READ; WRITE] Increment) 4096 false false 0 [tiny_info READ 128; tiny_info WRITE 128];
    mkDynamicInstruction _ (tiny_static INST_GENERIC [READ; READ] Compare) 4100 false false 0 [tiny_info READ 192; tiny_info READ 200];
    mkDynamicInstruction _ (tiny_static INST_BRANCH [] Jump) 4104 true true 4096 [] ].
Definition tiny_runs : list (DynamicInstruction tiny_instruction) := tiny_program ++ tiny_program ++ tiny_program.

(** The second load of the comparison is squashed. *)
Example tiny_enters : map (fun d => map uop_type (entering d)) tiny_program = [[UOP_LOAD; UOP_EXECUTE; UOP_STORE]; [UOP_LOAD; UOP_EXECUTE]; [UOP_EXECUTE]].
Proof. vm_compute. reflexivity. Qed.

(** The model runs: the micro-operations that have committed by their times in cycles,
    and the elapsed time.  The first jump (number 5) is mispredicted, and the
    front end waits for it. *)
Definition tiny_predictor : option OneBit.t := Some (OneBit.create 16).
Example tiny_core_run :
  (let! s := new_perf tiny_core 1000 (Some (Nehalem.create 1000)) tt tiny_predictor in
   let! s := run_program tiny_core 0 100 tiny_runs (enable s) in
   Ok (map (fun r => (sequenceNumber (t_uop r), t_dispatch r / 1000, t_issue r / 1000, t_done r / 1000, t_commit r / 1000)) (traced (rob_timer s)),
       elapsed s, time (rob_timer s)))
  = Ok ([(0, 0, 1, 5, 5); (1, 0, 4, 6, 6); (2, 1, 5, 6, 6); (3, 1, 2, 6, 7); (4, 2, 5, 7, 7); (5, 3, 6, 8, 8);
         (6, 12, 13, 17, 17); (7, 12, 16, 18, 18); (8, 13, 17, 18, 18)], 19000, 19000).
Proof. vm_compute. reflexivity. Qed.

Lemma tiny_setup : setup_ok (Inst := tiny_instruction) (Info := Nehalem.info) (rob_config tiny_core) 1000 120 (Some (Nehalem.create 1000)) tt.
Proof. split; [split|..]; vm_compute; repeat split; congruence. Qed.

Lemma tiny_config : perf_config_ok (Inst := tiny_instruction) (Info := Nehalem.info) (C := Nehalem.contention) (M := unit) tiny_core 1000 120 2.
Proof. split; [apply tiny_setup|..]; vm_compute; congruence. Qed.

Lemma tiny_registers (rs : list Z) : forallb (fun r => (0 <=? r) && (r <? 64)) rs = true -> Forall (fun r => 0 <= r < last_reg) rs.
Proof. rewrite forallb_forall. intros Hr. apply Forall_forall. intros r H%list_elem_of_In%Hr. change last_reg with 64. lia. Qed.

Lemma tiny_uop (v : MicroOp tiny_instruction) : instructionOpcode v = 7 ->
  intraInstructionDependencies v + Z.of_nat (length (sourceRegisters v)) <= 6 -> serializing v = false ->
  forallb (fun r => (0 <=? r) && (r <? 64)) (sourceRegisters v ++ destinationRegisters v) = true -> uop_ok 1000 120 2 v.
Proof.
  intros Ho Hf Hs Hr. rewrite forallb_app in Hr. apply andb_true_iff in Hr as [Hr1 Hr2].
  split; [|done|done|by apply tiny_registers|by apply tiny_registers]. eexists 1, _. split_and!.
  - cbn. unfold Nehalem.instruction_latency. by rewrite Ho.
  - done.
  - lia.
  - vm_compute. congruence.
  - left. cbn. unfold Nehalem.getAlu. by destruct (uop_type v).
  - cbn. by destruct (getBypassType v).
  - cbn. by destruct (getBypassType v).
Qed.

Lemma tiny_independent (vs : list (MicroOp tiny_instruction)) :
  forallb (fun v => negb (isMemBarrier v) && forallb (fun w => negb (bool_decide (uop_type v = uop_type w)) ||
    forallb (fun r => negb (existsb (Z.eqb r) (destinationRegisters v))) (sourceRegisters w)) vs) vs = true -> independent vs.
Proof.
  rewrite forallb_forall. intros Hall i j v w _ Hv%list_elem_of_lookup_2%list_elem_of_In Hw%list_elem_of_lookup_2%list_elem_of_In Ht.
  destruct (andb_prop _ _ (Hall w Hw)) as [Hb _]. destruct (andb_prop _ _ (Hall v Hv)) as [_ Hr]. rewrite forallb_forall in Hr. specialize (Hr w Hw).
  split; [|by destruct (isMemBarrier w)]. rewrite bool_decide_true in Hr by done. cbn [negb orb] in Hr. rewrite forallb_forall in Hr.
  intros r Hin%list_elem_of_In%Hr Hd%list_elem_of_In. apply negb_true_iff in Hin. apply not_true_iff_false in Hin. apply Hin, existsb_exists.
  exists r. split; [done|apply Z.eqb_refl].
Qed.

Ltac tiny_ins i :=
  exists i; let vs := eval vm_compute in (default [] (tiny_uops i)) in exists vs; split;
    [ vm_compute; reflexivity | exists None; vm_compute; reflexivity | vm_compute; lia | vm_compute; lia
    | repeat (apply Forall_cons_2; [apply tiny_uop; vm_compute; congruence|]); apply Forall_nil_2
    | apply tiny_independent; vm_compute; reflexivity | vm_compute; congruence | reflexivity | vm_compute; reflexivity | vm_compute; reflexivity
    | repeat (apply Forall_cons_2; [split; vm_compute; intuition congruence|]); apply Forall_nil_2
    | reflexivity
    | first [done|intros _; split; [vm_compute; lia|repeat (apply Forall_cons_2; [done|]); apply Forall_nil_2]] ].

Lemma tiny_program_ok : Forall (fun d => exists ins vs, ins_ok tiny_core 1000 120 2 d ins vs) tiny_program.
Proof.
  repeat apply Forall_cons_2; [tiny_ins Increment|tiny_ins Compare|tiny_ins Jump|apply Forall_nil_2].
Qed.

Definition tiny_fuel : nat := Z.to_nat (cycle_bound 120).

Lemma core_runs_program_witness :
  exists s0 n s, new_perf tiny_core 1000 (Some (Nehalem.create 1000)) tt tiny_predictor = Ok s0 /\
    run_program tiny_core 0 tiny_fuel (take n tiny_runs) (enable s0) = Ok s /\
    (n = length tiny_runs \/ MaxTime <= time (rob_timer s) + horizon 1000 120 + Z.of_nat (length tiny_runs) * (1000 / 2 + 1)) /\
    (exists rest, all_entering (take n tiny_runs) = committed (rob_timer s) ++ rest /\ Z.of_nat (length rest) < 8 + 2 * 2) /\
    Z.abs (elapsed s - time (rob_timer s)) <= Z.of_nat n * (1000 / 2 + 1).
Proof.
  apply (core_runs_program tiny_core 1000 120 2 tiny_config (Some (Nehalem.create 1000)) tt tiny_predictor 0 tiny_fuel tiny_runs);
    [exact tiny_setup|vm_compute; lia|split].
  - unfold tiny_runs. rewrite !Forall_app. split_and!; exact tiny_program_ok.
  - vm_compute. reflexivity.
  - unfold tiny_fuel. rewrite Z2Nat.id by (vm_compute; congruence). lia.
Defined.
