(* ===== verification/Prefetcher.v ===== *)
(** The prefetchers beside the caches (simple_prefetcher.cc, ghb_prefetcher.cc and
    prefetcher.cc of parametric_dram_directory_msi): which addresses each of them asks
    for after an access.  Both implement the interface [Prefetcher]. *)
From stdpp Require Import base numbers list strings.
From Stdlib Require Import ZArith Lia Bool.
From S2P Require Import Prelude.
Open Scope Z_scope.

Definition INVALID_ADDRESS : Z := u64 (-1).

(** * The simple prefetcher: the nearest of a few flows, and its stride *)
Module Simple.
Record config := mkConfig { n_flows : Z; flows_per_core : bool; num_prefetches : Z; stop_at_page : bool }.
Record t := mk {
  core_id : Z;
  shared_cores : Z;
  settings : config;
  n_flow_next : Z;
  m_prev_address : list (list Z)
}.
Definition PAGE_SIZE : Z := 4096.
Definition PAGE_MASK : Z := u64 (Z.lnot (PAGE_SIZE - 1)).

Definition create (c : config) (core shared : Z) : t :=
  mk core shared c 0 (replicate (Z.to_nat (if flows_per_core c then shared else 1)) (replicate (Z.to_nat (n_flows c)) 0)).

(** The distance of two addresses, read as signed numbers; an overflow is undefined,
    and [abs] is taken to be that of 64-bit integers. *)
Definition distance (a b : Z) : result Z :=
  let x := s64 a - s64 b in
  guard! (- 2 ^ 63 <? x) && (x <? 2 ^ 63) else Undefined in
  Ok (Z.abs x).
(** The loop over the flows from [i] on. *)
Fixpoint nearest (current : Z) (prev : list Z) (i : nat) (n_flow : nat) (min_dist : Z) : result nat :=
  match prev with
  | [] => Ok n_flow
  | a :: prev' =>
      let! dist := distance current a in
      if dist <? min_dist then nearest current prev' (S i) i dist else nearest current prev' (S i) n_flow min_dist
  end.
Definition in_page (a b : Z) : bool := Z.land a PAGE_MASK =? Z.land b PAGE_MASK.
(** The addresses asked for, from [i] on. *)
Fixpoint prefetches (stop : bool) (current stride : Z) (i : nat) (n : nat) : list Z :=
  match n with
  | O => []
  | S n' =>
      let a := u64 (current + u64 (Z.of_nat i * stride)) in
      (if negb stop || in_page a current then [a] else []) ++ prefetches stop current stride (S i) n'
  end.

Definition getNextAddress (current core : Z) (s : t) : result (list Z * t) :=
  let c := settings s in
  let idx := if flows_per_core c then u64 (core - core_id s) else 0 in
  let! prev := of_option (m_prev_address s !! Z.to_nat idx) Exception in
  guard! negb (n_flows c =? 0) else Undefined in
  let next := u32 (n_flow_next s + 1) mod n_flows c in
  let! k := nearest current prev 0 (Z.to_nat (n_flow_next s)) PAGE_SIZE in
  let! a := aget prev k in
  let stride := u64 (current - a) in
  let s := mk (core_id s) (shared_cores s) c next (<[Z.to_nat idx := <[k := current]> prev]> (m_prev_address s)) in
  Ok (if negb (stride =? 0) then prefetches (stop_at_page c) current stride 0 (Z.to_nat (num_prefetches c)) else [], s).
End Simple.

(** * The global history buffer *)
Module Ghb.
Definition INVALID_DELTA : Z := 0x7fffffffffffffff.
Definition INVALID_INDEX : Z := 0xffffffff.

Record GHBEntry := mkEntry { nextIndex : Z; delta : Z; generation : Z }.
Record TableEntry := mkTable { ghbIndex : Z; t_delta : Z; t_generation : Z }.
Record config := mkConfig { m_prefetchWidth : Z; m_prefetchDepth : Z; m_ghbSize : Z; m_tableSize : Z }.
Record t := mk {
  settings : config;
  m_lastAddress : Z;
  m_ghbHead : Z;
  m_generation : Z;
  m_ghb : list GHBEntry;
  m_tableHead : Z;
  m_ghbTable : list TableEntry
}.

Definition create (c : config) : t :=
  mk c INVALID_ADDRESS 0 0 (replicate (Z.to_nat (m_ghbSize c)) (mkEntry INVALID_INDEX INVALID_DELTA 0)) 0
    (replicate (Z.to_nat (m_tableSize c)) (mkTable INVALID_INDEX INVALID_DELTA 0)).

(** The first entry of the table that is empty or has the delta. *)
Fixpoint search (d : Z) (table : list TableEntry) : nat :=
  match table with
  | [] => 0
  | e :: table' => if negb (t_delta e =? INVALID_DELTA) && negb (t_delta e =? d) then S (search d table') else 0%nat
  end.
(** The entry of the table for a delta, if it is there, and the entry of the buffer
    it points to. *)
Definition find_delta (d : Z) (s : t) : result (option (nat * TableEntry * GHBEntry)) :=
  let i := search d (m_ghbTable s) in
  match m_ghbTable s !! i with
  | Some e => if t_delta e =? d then let! g := aget (m_ghb s) (Z.to_nat (ghbIndex e)) in Ok (Some (i, e, g)) else Ok None
  | None => Ok None
  end.

(** The addresses along the history after the entry [index]. *)
Fixpoint depth_loop (n : nat) (index : Z) (depth : Z) (address : Z) (found : list Z) (s : t) : result (list Z) :=
  match n with
  | O => Ok found
  | S n' =>
      guard! negb (m_ghbSize (settings s) =? 0) else Undefined in
      let! e := aget (m_ghb s) (Z.to_nat (u32 (index + depth) mod m_ghbSize (settings s))) in
      if delta e =? INVALID_DELTA then Ok found
      else
        let address := u64 (address + delta e) in
        depth_loop n' index (u32 (depth + 1)) address (if existsb (Z.eqb address) found then found else found ++ [address]) s
  end.
(** The entries that follow the same delta, from the last one on. *)
Fixpoint width_loop (n : nat) (index : Z) (current : Z) (found : list Z) (s : t) : result (list Z) :=
  match n with
  | O => Ok found
  | S n' =>
      if index =? INVALID_INDEX then Ok found
      else
        let! found := depth_loop (Z.to_nat (m_prefetchDepth (settings s))) index 0 current found s in
        let! e := aget (m_ghb s) (Z.to_nat index) in
        let next := nextIndex e in
        let index := if ((index <? next) || (m_ghbHead s <? index)) && (next <? m_ghbHead s) then INVALID_INDEX else next in
        width_loop n' index current found s
  end.

(** The new entry of the buffer, and its place in the table under the delta before it. *)
Definition record_delta (d : Z) (s : t) : result t :=
  let head := Z.to_nat (m_ghbHead s) in
  let! ghb := aset (m_ghb s) head (mkEntry INVALID_INDEX d (m_generation s)) in
  let s := mk (settings s) (m_lastAddress s) (m_ghbHead s) (m_generation s) ghb (m_tableHead s) (m_ghbTable s) in
  let! prev := aget ghb (Z.to_nat (if 0 <? m_ghbHead s then m_ghbHead s - 1 else u32 (m_ghbSize (settings s) - 1))) in
  if delta prev =? INVALID_DELTA then Ok s
  else
    let entry := mkTable (m_ghbHead s) (delta prev) (m_generation s) in
    let! f := find_delta (delta prev) s in
    match f with
    | Some (i, e, g) =>
        let next := if t_generation e =? generation g then ghbIndex e else INVALID_INDEX in
        Ok (mk (settings s) (m_lastAddress s) (m_ghbHead s) (m_generation s)
              (<[head := mkEntry next d (m_generation s)]> ghb) (m_tableHead s) (<[i := entry]> (m_ghbTable s)))
    | None =>
        let! table := aset (m_ghbTable s) (Z.to_nat (m_tableHead s)) entry in
        Ok (mk (settings s) (m_lastAddress s) (m_ghbHead s) (m_generation s) ghb
              (u32 (m_tableHead s + 1) mod m_tableSize (settings s)) table)
    end.
Definition advance (s : t) : t :=
  let head := u32 (m_ghbHead s + 1) in
  if head =? m_ghbSize (settings s)
  then mk (settings s) (m_lastAddress s) 0 (u32 (m_generation s + 1) mod 4) (m_ghb s) (m_tableHead s) (m_ghbTable s)
  else mk (settings s) (m_lastAddress s) head (m_generation s) (m_ghb s) (m_tableHead s) (m_ghbTable s).

Definition getNextAddress (current : Z) (s : t) : result (list Z * t) :=
  let s' := mk (settings s) current (m_ghbHead s) (m_generation s) (m_ghb s) (m_tableHead s) (m_ghbTable s) in
  if m_lastAddress s =? INVALID_ADDRESS then Ok ([], s')
  else
    let d := s64 (current - m_lastAddress s) in
    let! f := find_delta d s' in
    let! found :=
      match f with
      | Some (_, e, g) =>
          if t_generation e =? generation g
          then width_loop (Z.to_nat (m_prefetchWidth (settings s))) (ghbIndex e) current [] s'
          else Ok []
      | None => Ok []
      end in
    let! s' := record_delta d s' in
    Ok (found, advance s').
End Ghb.

(** * The interface *)
Class Prefetcher (P : Type) := { getNextAddress : Z -> Z -> P -> result (list Z * P) }.
#[export] Instance simple_prefetcher : Prefetcher Simple.t := { getNextAddress := Simple.getNextAddress }.
#[export] Instance ghb_prefetcher : Prefetcher Ghb.t := { getNextAddress := fun a _ => Ghb.getNextAddress a }.
Inductive any_prefetcher := PfSimple (p : Simple.t) | PfGhb (p : Ghb.t).
#[export] Instance any_prefetcher_prefetcher : Prefetcher any_prefetcher := {
  getNextAddress := fun a core p =>
    match p with
    | PfSimple p => let! (l, p) := getNextAddress a core p in Ok (l, PfSimple p)
    | PfGhb p => let! (l, p) := getNextAddress a core p in Ok (l, PfGhb p)
    end
}.
Definition createPrefetcher (type : string) (sc : Simple.config) (gc : Ghb.config) (core_id shared_cores : Z) : result (option any_prefetcher) :=
  if String.eqb type "none" then Ok None
  else if String.eqb type "simple" then Ok (Some (PfSimple (Simple.create sc core_id shared_cores)))
  else if String.eqb type "ghb" then Ok (Some (PfGhb (Ghb.create gc)))
  else Err LogError.

(** A sequence of accesses of one core: what is asked for after each. *)
Fixpoint accesses_of {P} `{Prefetcher P} (core : Z) (addresses : list Z) (p : P) : result (list (list Z) * P) :=
  match addresses with
  | [] => Ok ([], p)
  | a :: rest =>
      let! (l, p) := getNextAddress a core p in
      let! (ls, p) := accesses_of core rest p in
      Ok (l :: ls, p)
  end.

Definition fst_ok {A B} (r : result (A * B)) : result A := let! (a, _) := r in Ok a.
(** A stride of 64: the simple prefetcher asks for the line itself first; the buffer
    knows the stride after two deltas. *)
Example simple_stride :
  fst_ok (accesses_of 0 [4096; 4160; 4224] (Simple.create (Simple.mkConfig 4 false 3 true) 0 1))
  = Ok [[4096]; [4160; 4224; 4288]; [4224; 4288; 4352]].
Proof. vm_compute. reflexivity. Qed.
Example ghb_stride :
  fst_ok (accesses_of 0 [4096; 4160; 4224; 4288; 4352] (Ghb.create (Ghb.mkConfig 2 2 4 2)))
  = Ok [[]; []; []; [4352]; [4416; 4480]].
Proof. vm_compute. reflexivity. Qed.

Lemma ghb_next a core (s : Ghb.t) : getNextAddress a core s = Ghb.getNextAddress a s.
Proof. done. Qed.

(** * The global history buffer is safe *)
Section ghb.
Import Ghb.
Implicit Types s : t.

Record ghb_ok s : Prop := mkGhbOk {
  gk_size : 1 <= m_ghbSize (settings s) <= INVALID_INDEX;
  gk_ghb : Z.of_nat (length (m_ghb s)) = m_ghbSize (settings s);
  gk_head : 0 <= m_ghbHead s < m_ghbSize (settings s);
  gk_tsize : 1 <= m_tableSize (settings s) < 2 ^ 32;
  gk_table : Z.of_nat (length (m_ghbTable s)) = m_tableSize (settings s);
  gk_thead : 0 <= m_tableHead s < m_tableSize (settings s);
  gk_next : forall i e, m_ghb s !! i = Some e -> nextIndex e = INVALID_INDEX \/ 0 <= nextIndex e < m_ghbSize (settings s);
  gk_index : forall i e, m_ghbTable s !! i = Some e -> t_delta e <> INVALID_DELTA -> 0 <= ghbIndex e < m_ghbSize (settings s)
}.

Lemma ghb_aget s i : ghb_ok s -> 0 <= i < m_ghbSize (settings s) -> exists e, aget (m_ghb s) (Z.to_nat i) = Ok e /\ m_ghb s !! Z.to_nat i = Some e.
Proof.
  intros [] Hi. destruct (lookup_lt_is_Some_2 (m_ghb s) (Z.to_nat i)) as [e He]; [lia|]. exists e. unfold aget. by rewrite He.
Qed.

Lemma find_delta_ok d s : ghb_ok s -> d <> INVALID_DELTA -> exists f, find_delta d s = Ok f /\
  match f with
  | Some (i, e, g) => i = search d (m_ghbTable s) /\ m_ghbTable s !! i = Some e /\ t_delta e = d /\
      0 <= ghbIndex e < m_ghbSize (settings s) /\ m_ghb s !! Z.to_nat (ghbIndex e) = Some g
  | None => forall e, m_ghbTable s !! search d (m_ghbTable s) = Some e -> t_delta e <> d
  end.
Proof.
  intros Hs Hd. unfold find_delta. destruct (m_ghbTable s !! _) as [e|] eqn:He; [|by exists None].
  destruct (Z.eqb_spec (t_delta e) d) as [Heq|Hne]; [|by exists None; split; [|intros ? [= <-]]].
  destruct (ghb_aget s (ghbIndex e) Hs) as (g & -> & Hg); [by eapply gk_index; [..|rewrite Heq]|]. cbn [rbind].
  eexists. split; [done|]. split_and!; try done; by eapply gk_index; [..|rewrite Heq].
Qed.

Lemma depth_loop_ok n : forall index depth address found s, ghb_ok s -> NoDup found ->
  exists more, depth_loop n index depth address found s = Ok (found ++ more) /\ NoDup (found ++ more) /\ (length more <= n)%nat.
Proof.
  induction n as [|n IH]; intros index depth address found s Hs Hnd; cbn [depth_loop].
  { exists []. by rewrite app_nil_r. }
  pose proof (gk_size s Hs) as Hsz. rewrite (proj2 (Z.eqb_neq _ 0)) by lia. cbn [negb rguard].
  destruct (ghb_aget s (u32 (index + depth) mod m_ghbSize (settings s)) Hs) as (e & -> & _); [apply Z.mod_pos_bound; lia|]. cbn [rbind].
  destruct (delta e =? INVALID_DELTA); [exists []; rewrite app_nil_r; split_and!; (done || simpl; lia)|]. cbv zeta.
  destruct (existsb _ found) eqn:Hex.
  - destruct (IH index (u32 (depth + 1)) (u64 (address + delta e)) found s Hs Hnd) as (more & -> & Hnd' & Hl). exists more. split_and!; (done || lia).
  - destruct (IH index (u32 (depth + 1)) (u64 (address + delta e)) (found ++ [u64 (address + delta e)]) s Hs) as (more & -> & Hnd' & Hl).
    { apply NoDup_app. split_and!; [done| |apply NoDup_singleton]. intros x Hx ->%list_elem_of_singleton.
      apply not_true_iff_false in Hex. apply Hex, existsb_exists. eexists. split; [by apply list_elem_of_In|]. by rewrite Z.eqb_refl. }
    rewrite <- app_assoc in *. eexists. split_and!; [done|done|simpl; lia].
Qed.

Definition index_ok s (i : Z) : Prop := i = INVALID_INDEX \/ 0 <= i < m_ghbSize (settings s).

Lemma width_loop_ok n : forall index current found s, ghb_ok s -> index_ok s index -> NoDup found ->
  exists more, width_loop n index current found s = Ok (found ++ more) /\ NoDup (found ++ more) /\
    (length more <= n * Z.to_nat (m_prefetchDepth (settings s)))%nat.
Proof.
  induction n as [|n IH]; intros index current found s Hs Hi Hnd; cbn [width_loop].
  { exists []. by rewrite app_nil_r. }
  destruct (Z.eqb_spec index INVALID_INDEX) as [|Hne]; [exists []; rewrite app_nil_r; split_and!; (done || simpl; lia)|].
  destruct Hi as [|Hi]; [done|]. destruct (depth_loop_ok (Z.to_nat (m_prefetchDepth (settings s))) index 0 current found s Hs Hnd) as (m1 & -> & Hnd1 & Hl1). cbn [rbind].
  destruct (ghb_aget s index Hs Hi) as (e & -> & He). cbn [rbind]. cbv zeta.
  match goal with |- context [width_loop n ?i _ _ _] => destruct (IH i current (found ++ m1) s Hs) as (m2 & -> & Hnd2 & Hl2) end.
  { destruct (_ && _); [by left|]. by apply (gk_next s Hs (Z.to_nat index)). }
  { done. }
  rewrite <- app_assoc in *. eexists. split_and!; [done|done|rewrite length_app; simpl; lia].
Qed.

(** The place before the head. *)
Definition before s : Z := if 0 <? m_ghbHead s then m_ghbHead s - 1 else u32 (m_ghbSize (settings s) - 1).

Lemma before_ok s : ghb_ok s -> 0 <= before s < m_ghbSize (settings s).
Proof. intros []. unfold before, INVALID_INDEX in *. destruct (Z.ltb_spec 0 (m_ghbHead s)); [lia|]. rewrite u32_small; lia. Qed.

Lemma record_ok d s : ghb_ok s -> exists s' e, record_delta d s = Ok s' /\ ghb_ok s' /\ settings s' = settings s /\ m_lastAddress s' = m_lastAddress s /\
  m_ghbHead s' = m_ghbHead s /\ m_generation s' = m_generation s /\ m_ghb s' = <[Z.to_nat (m_ghbHead s) := e]> (m_ghb s) /\
  delta e = d /\ generation e = m_generation s.
Proof.
  intros Hs. pose proof Hs as []. unfold record_delta, aset. destruct (decide _) as [Hlt|]; [|lia]. cbn [rbind settings m_ghbHead m_ghbTable m_generation m_tableHead m_lastAddress].
  set (ghb := <[_ := _]> (m_ghb s)). set (s1 := mk (settings s) (m_lastAddress s) (m_ghbHead s) (m_generation s) ghb (m_tableHead s) (m_ghbTable s)).
  assert (Hs1 : ghb_ok s1).
  { subst s1 ghb. split; cbn; try done; [by rewrite length_insert|]. intros i e [(<- & <- & _)|[_ He]]%list_lookup_insert_Some; [by left|by apply (gk_next0 i)]. }
  destruct (ghb_aget s1 (before s1) Hs1 (before_ok s1 Hs1)) as (p & Hp & _). unfold before in Hp. cbn in Hp. rewrite Hp. cbn [rbind].
  destruct (Z.eqb_spec (delta p) INVALID_DELTA) as [|Hne]; [by eexists s1, _|].
  destruct (find_delta_ok (delta p) s1 Hs1 Hne) as (f & -> & Hf). cbn [rbind]. destruct f as [[[i e] g]|].
  - destruct Hf as (_ & Hi & Hd & Hix & Hg). eexists _, _. split; [done|]. split.
    + split; cbn; try done.
      * unfold ghb. by rewrite !length_insert.
      * by rewrite length_insert.
      * intros j x. unfold ghb. rewrite list_insert_insert_eq. intros [(<- & <- & _)|[_ Hx]]%list_lookup_insert_Some; [|by apply (gk_next0 j)].
        cbn. destruct (_ =? _); [right; done|by left].
      * intros j x [(<- & <- & _)|[_ Hx]]%list_lookup_insert_Some; [done|by apply (gk_index0 j)].
    + cbn. unfold ghb. rewrite list_insert_insert_eq. done.
  - unfold aset. destruct (decide _) as [Ht|]; [|cbn in *; lia]. cbn [rbind]. eexists _, _. split; [done|]. split.
    + split; cbn; try done.
      * unfold ghb. by rewrite length_insert.
      * by rewrite length_insert.
      * apply Z.mod_pos_bound. lia.
      * apply (gk_next s1 Hs1).
      * intros j x [(<- & <- & _)|[_ Hx]]%list_lookup_insert_Some; [done|by apply (gk_index0 j)].
    + done.
Qed.

Lemma advance_ok s : ghb_ok s -> ghb_ok (advance s) /\ settings (advance s) = settings s /\ m_lastAddress (advance s) = m_lastAddress s /\
  m_ghb (advance s) = m_ghb s /\ m_ghbTable (advance s) = m_ghbTable s /\ before (advance s) = m_ghbHead s.
Proof.
  intros []. unfold advance, before, INVALID_INDEX in *. rewrite u32_small by lia. cbv zeta. destruct (Z.eqb_spec (m_ghbHead s + 1) (m_ghbSize (settings s))) as [He|He].
  - split; [split; cbn; try done; lia|]. cbn. split_and!; try done. rewrite u32_small; lia.
  - split; [split; cbn; try done; lia|]. cbn. split_and!; try done. rewrite (proj2 (Z.ltb_lt _ _)) by lia. lia.
Qed.

Lemma s64_small x : - 2 ^ 63 <= x < 2 ^ 63 -> s64 x = x.
Proof. intros Hx. unfold s64, swrap. rewrite Z.mod_small; lia. Qed.

Definition user_address (a : Z) : Prop := 0 <= a < 2 ^ 62.
Definition last_ok s : Prop := m_lastAddress s = INVALID_ADDRESS \/ user_address (m_lastAddress s).

Lemma delta_of a b : user_address a -> user_address b -> s64 (a - b) = a - b /\ a - b <> INVALID_DELTA.
Proof. unfold user_address, INVALID_DELTA. intros Ha Hb. rewrite s64_small by lia. lia. Qed.

(** What an access with a delta does. *)
Lemma ghb_next_ok current s : ghb_ok s -> user_address (m_lastAddress s) -> user_address current ->
  let d := current - m_lastAddress s in
  let s1 := mk (settings s) current (m_ghbHead s) (m_generation s) (m_ghb s) (m_tableHead s) (m_ghbTable s) in
  exists f found s2, find_delta d s1 = Ok f /\
    (match f with
     | Some (_, e, g) => if t_generation e =? generation g
                         then width_loop (Z.to_nat (m_prefetchWidth (settings s))) (ghbIndex e) current [] s1 else Ok []
     | None => Ok []
     end) = Ok found /\
    record_delta d s1 = Ok s2 /\ Ghb.getNextAddress current s = Ok (found, advance s2) /\ ghb_ok s1 /\ ghb_ok s2 /\
    NoDup found /\ (length found <= Z.to_nat (m_prefetchWidth (settings s)) * Z.to_nat (m_prefetchDepth (settings s)))%nat.
Proof.
  intros Hs Hl Hc d s1. destruct (delta_of current (m_lastAddress s) Hc Hl) as [Hd Hne]. fold d in Hd, Hne.
  assert (Hs1 : ghb_ok s1) by (by destruct Hs). destruct (find_delta_ok d s1 Hs1 Hne) as (f & Hf & Hfs).
  destruct (record_ok d s1 Hs1) as (s2 & e2 & Hr & Hs2 & _).
  assert (exists found, (match f with
     | Some (_, e, g) => if t_generation e =? generation g
                         then width_loop (Z.to_nat (m_prefetchWidth (settings s))) (ghbIndex e) current [] s1 else Ok []
     | None => Ok []
     end) = Ok found /\ NoDup found /\ (length found <= Z.to_nat (m_prefetchWidth (settings s)) * Z.to_nat (m_prefetchDepth (settings s)))%nat)
    as (found & Hfound & Hnd & Hlen).
  { destruct f as [[[i e] g]|]; [|exists []; split_and!; [done|constructor|simpl; lia]].
    destruct (_ =? _); [|exists []; split_and!; [done|constructor|simpl; lia]]. destruct Hfs as (_ & _ & _ & Hix & _).
    destruct (width_loop_ok (Z.to_nat (m_prefetchWidth (settings s))) (ghbIndex e) current [] s1 Hs1) as (more & -> & Hnd & Hl1); [by right|constructor|].
    by exists more. }
  exists f, found, s2. split_and!; try done. unfold Ghb.getNextAddress. rewrite (proj2 (Z.eqb_neq _ _)).
  2:{ unfold user_address, INVALID_ADDRESS in *. change (u64 (-1)) with (2 ^ 64 - 1). lia. }
  fold d. rewrite Hd. fold s1. rewrite Hf. cbn [rbind]. rewrite Hfound. cbn [rbind]. rewrite Hr. done.
Qed.

Lemma ghb_step current s : ghb_ok s -> last_ok s -> user_address current ->
  exists found s', Ghb.getNextAddress current s = Ok (found, s') /\ ghb_ok s' /\ m_lastAddress s' = current /\ settings s' = settings s /\
    NoDup found /\ (length found <= Z.to_nat (m_prefetchWidth (settings s)) * Z.to_nat (m_prefetchDepth (settings s)))%nat.
Proof.
  intros Hs [Hl|Hl] Hc.
  - unfold Ghb.getNextAddress. rewrite Hl, Z.eqb_refl. eexists _, _. split; [done|]. split_and!; try done; [by destruct Hs|constructor|simpl; lia].
  - destruct (ghb_next_ok current s Hs Hl Hc) as (f & found & s2 & _ & _ & Hr & -> & Hs1 & Hs2 & Hnd & Hlen).
    destruct (record_ok (current - m_lastAddress s) _ Hs1) as (s2' & e & Hr' & _ & Hset & Hlast & _). rewrite Hr in Hr'. injection Hr' as <-.
    destruct (advance_ok s2 Hs2) as (Ha & Hset2 & Hlast2 & _). eexists _, _. split; [done|]. split_and!; try done; [by rewrite Hlast2, Hlast|by rewrite Hset2, Hset].
Qed.

(** * A stride *)

(** The table knows where the stride [d] was last seen. *)
Definition knows d s : Prop := exists e g, m_ghbTable s !! 0%nat = Some e /\ t_delta e = d /\ 0 <= ghbIndex e < m_ghbSize (settings s) /\
  m_ghb s !! Z.to_nat (ghbIndex e) = Some g /\ t_generation e = generation g /\ delta g = d.
Definition seen d s : Prop := exists p, m_ghb s !! Z.to_nat (before s) = Some p /\ delta p = d.

Lemma search_first d e table : t_delta e = d -> search d (e :: table) = 0%nat.
Proof. intros <-. cbn [search]. by rewrite Z.eqb_refl, andb_false_r. Qed.

Lemma find_known d s : knows d s -> find_delta d s = Ok (match m_ghbTable s !! 0%nat with
  | Some e => match m_ghb s !! Z.to_nat (ghbIndex e) with Some g => Some (0%nat, e, g) | None => None end | None => None end).
Proof.
  intros (e & g & He & Hd & _ & Hg & _ & _). unfold find_delta. destruct (m_ghbTable s) as [|e' table] eqn:Ht; [done|]. injection He as ->.
  rewrite (search_first d e table Hd). cbn. rewrite Hd, Z.eqb_refl. unfold aget. rewrite Hg. done.
Qed.

(** A known stride is followed. *)
Lemma follows_known d current s : ghb_ok s -> knows d s -> 1 <= m_prefetchWidth (settings s) -> 1 <= m_prefetchDepth (settings s) -> d <> INVALID_DELTA ->
  forall e g found, find_delta d s = Ok (Some (0%nat, e, g)) -> width_loop (Z.to_nat (m_prefetchWidth (settings s))) (ghbIndex e) current [] s = Ok found ->
  t_generation e = generation g /\ head found = Some (u64 (current + d)).
Proof.
  intros Hs Hk Hw Hdp Hd e g found Hf Hfound. rewrite (find_known d s Hk) in Hf. destruct Hk as (e' & g' & He & Htd & Hix & Hg & Hgen & Hdg).
  rewrite He, Hg in Hf. injection Hf as <- <-. split; [done|].
  destruct (Z.to_nat (m_prefetchWidth (settings s))) as [|w] eqn:Hwn; [lia|]. destruct (Z.to_nat (m_prefetchDepth (settings s))) as [|n] eqn:Hdn; [lia|].
  cbn [width_loop] in Hfound. pose proof (gk_size s Hs) as Hsz. rewrite (proj2 (Z.eqb_neq _ _)) in Hfound by (unfold INVALID_INDEX in *; lia).
  rewrite Hdn in Hfound. cbn [depth_loop] in Hfound. rewrite (proj2 (Z.eqb_neq _ 0)) in Hfound by lia. cbn [negb rguard] in Hfound.
  rewrite Z.add_0_r, u32_small, Z.mod_small in Hfound by (unfold INVALID_INDEX in *; lia). unfold aget in Hfound at 1. rewrite Hg in Hfound.
  cbn [of_option rbind] in Hfound. rewrite Hdg, (proj2 (Z.eqb_neq _ _) Hd) in Hfound. cbn [existsb app] in Hfound.
  destruct (depth_loop_ok n (ghbIndex e') (u32 (0 + 1)) (u64 (current + d)) [u64 (current + d)] s Hs (NoDup_singleton _)) as (m1 & Hm1 & Hnd & _).
  rewrite Hm1 in Hfound. cbn [rbind] in Hfound. unfold aget in Hfound. rewrite Hg in Hfound. cbn [of_option rbind] in Hfound. cbv zeta in Hfound.
  match type of Hfound with width_loop w ?i _ _ _ = _ => destruct (width_loop_ok w i current ([u64 (current + d)] ++ m1) s Hs) as (m2 & Hm2 & _) end.
  - destruct (_ && _); [by left|]. by apply (gk_next s Hs _ _ Hg).
  - done.
  - rewrite Hm2 in Hfound. by injection Hfound as <-.
Qed.

(** The place of a delta that was seen just before is recorded. *)
Lemma record_seen d s s2 : ghb_ok s -> d <> INVALID_DELTA -> seen d s -> record_delta d s = Ok s2 ->
  knows d s \/ (m_tableHead s = 0 /\ forall i e, m_ghbTable s !! i = Some e -> t_delta e = INVALID_DELTA) ->
  exists e, m_ghbTable s2 !! 0%nat = Some e /\ t_delta e = d /\ ghbIndex e = m_ghbHead s /\ t_generation e = m_generation s.
Proof.
  intros Hs Hd (p & Hp & Hpd) Hr Hk. unfold record_delta, aset in Hr. pose proof Hs as []. destruct (decide _) as [Hlt|]; [|lia].
  cbn [rbind settings m_ghbHead m_ghbTable m_generation m_tableHead m_lastAddress] in Hr. set (ghb := <[_ := _]> (m_ghb s)) in *.
  set (s1 := mk (settings s) (m_lastAddress s) (m_ghbHead s) (m_generation s) ghb (m_tableHead s) (m_ghbTable s)) in *.
  change (if 0 <? m_ghbHead s then m_ghbHead s - 1 else u32 (m_ghbSize (settings s) - 1)) with (before s) in Hr.
  assert (exists p', ghb !! Z.to_nat (before s) = Some p' /\ delta p' = d) as (p' & Hp' & Hpd').
  { unfold ghb. destruct (decide (Z.to_nat (m_ghbHead s) = Z.to_nat (before s))) as [<-|Hne].
    - eexists. by rewrite list_lookup_insert_eq by done.
    - exists p. by rewrite list_lookup_insert_ne by done. }
  unfold aget in Hr at 1. rewrite Hp' in Hr. cbn [of_option rbind] in Hr. rewrite Hpd', (proj2 (Z.eqb_neq _ _) Hd) in Hr.
  destruct (m_ghbTable s) as [|e0 table] eqn:Ht; [simpl in *; lia|]. destruct Hk as [(e & g & He & Htd & Hix & Hg & _)|[Hth Hinv]].
  - rewrite Ht in He. injection He as ->. unfold find_delta in Hr. cbn [m_ghbTable m_ghb s1] in Hr. rewrite (search_first d e table Htd) in Hr.
    cbn [lookup list_lookup] in Hr. rewrite Htd, Z.eqb_refl in Hr. destruct (lookup_lt_is_Some_2 ghb (Z.to_nat (ghbIndex e))) as [g' Hg'].
    { unfold ghb. rewrite length_insert. by eapply lookup_lt_Some. }
    unfold aget in Hr. rewrite Hg' in Hr. cbn [of_option rbind] in Hr. injection Hr as <-. cbn. by eexists.
  - pose proof (Hinv 0%nat e0 eq_refl) as H0. unfold find_delta in Hr. cbn [m_ghbTable m_ghb s1] in Hr. cbn [search] in Hr.
    rewrite H0, Z.eqb_refl in Hr. cbn [negb andb lookup list_lookup] in Hr. rewrite H0, (proj2 (Z.eqb_neq INVALID_DELTA d)) in Hr by done.
    cbn [rbind] in Hr. rewrite Hth in Hr. unfold aset in Hr. destruct (decide _) as [|Hn]; [|simpl in Hn; lia]. injection Hr as <-. cbn. by eexists.
Qed.

Lemma stride_step d s : ghb_ok s -> user_address (m_lastAddress s) -> user_address (m_lastAddress s + d) -> seen d s ->
  knows d s \/ (m_tableHead s = 0 /\ forall i e, m_ghbTable s !! i = Some e -> t_delta e = INVALID_DELTA) ->
  exists found s', Ghb.getNextAddress (m_lastAddress s + d) s = Ok (found, s') /\ ghb_ok s' /\ m_lastAddress s' = m_lastAddress s + d /\
    settings s' = settings s /\ seen d s' /\ knows d s' /\
    (knows d s -> 1 <= m_prefetchWidth (settings s) -> 1 <= m_prefetchDepth (settings s) ->
     user_address (m_lastAddress s + d + d) -> head found = Some (m_lastAddress s + d + d)).
Proof.
  intros Hs Hl Hc Hseen Hk. destruct (ghb_next_ok (m_lastAddress s + d) s Hs Hl Hc) as (f & found & s2 & Hf & Hfound & Hr & -> & Hs1 & Hs2 & _).
  destruct (delta_of _ _ Hc Hl) as [_ Hd]. replace (m_lastAddress s + d - m_lastAddress s) with d in * by lia.
  set (s1 := mk (settings s) (m_lastAddress s + d) (m_ghbHead s) (m_generation s) (m_ghb s) (m_tableHead s) (m_ghbTable s)) in *.
  destruct (record_ok d s1 Hs1) as (s2' & e2 & Hr' & _ & Hset & Hlast & Hhd & _ & Hghb & Hde & Hge). rewrite Hr in Hr'. injection Hr' as <-.
  destruct (record_seen d s1 s2 Hs1 Hd Hseen Hr) as (e & He & Htd & Hix & Hgen); [done|].
  destruct (advance_ok s2 Hs2) as (Ha & Hset2 & Hlast2 & Hghb2 & Htab2 & Hbef). pose proof (gk_head s Hs) as Hh. pose proof (gk_ghb s Hs) as Hlen.
  assert (Hnew : m_ghb s2 !! Z.to_nat (m_ghbHead s) = Some e2) by (rewrite Hghb; apply list_lookup_insert_eq; cbn; lia).
  eexists _, _. split; [done|]. split_and!; [done|by rewrite Hlast2, Hlast|by rewrite Hset2, Hset| | |].
  - exists e2. rewrite Hghb2, Hbef, Hhd. done.
  - exists e, e2. rewrite Htab2, Hghb2, Hset2, Hset, Hix. split_and!; try done; [apply Hh|apply Hh|by rewrite Hgen, Hge].
  - intros Hkn Hw Hdp Hu. assert (Hkn1 : knows d s1) by done. pose proof (find_known d s1 Hkn1) as Hfk.
    destruct Hkn as (e' & g' & He' & Htd' & _ & Hg' & Hgen' & _). cbn [m_ghbTable m_ghb s1] in Hfk. rewrite He', Hg' in Hfk.
    rewrite Hf in Hfk. injection Hfk as ->. rewrite Hgen', Z.eqb_refl in Hfound.
    destruct (follows_known d (m_lastAddress s + d) s1 Hs1 Hkn1 Hw Hdp Hd e' g' found Hf Hfound) as [_ ->]. f_equal. apply u64_small. unfold user_address in Hu. lia.
Qed.

(** * From the start *)
Definition config_fits (c : config) : Prop := 1 <= m_ghbSize c <= INVALID_INDEX /\ 1 <= m_tableSize c < 2 ^ 32.

Lemma ghb_create_ok c : config_fits c -> ghb_ok (create c) /\ last_ok (create c).
Proof.
  intros [Hg Ht]. split; [|by left]. split; cbn; rewrite ?length_replicate; try lia.
  - intros i e [-> _]%lookup_replicate. by left.
  - intros i e [-> _]%lookup_replicate. done.
Qed.

Lemma ghb_run core addresses : Forall user_address addresses -> forall s, ghb_ok s -> last_ok s ->
  exists ls p, accesses_of core addresses s = Ok (ls, p) /\ length ls = length addresses /\
    Forall (fun l => NoDup l /\ (length l <= Z.to_nat (m_prefetchWidth (settings s)) * Z.to_nat (m_prefetchDepth (settings s)))%nat) ls.
Proof.
  induction 1 as [|a rest Ha _ IH]; intros s Hs Hl; cbn [accesses_of]; [by eexists [], _|].
  destruct (ghb_step a s Hs Hl Ha) as (found & s' & Hn & Hs' & Hl' & Hset & Hnd & Hlen). rewrite ghb_next, Hn. cbn [rbind].
  destruct (IH s' Hs') as (ls & p & -> & Hlen' & Hall'); [right; by rewrite Hl'|]. rewrite Hset in Hall'. cbn [rbind]. eexists _, _. split; [done|].
  split; [cbn; lia|]. by constructor.
Qed.

(** Any accesses to user addresses run without an error; after each at most width
    times depth addresses are asked for, none twice. *)
Theorem ghb_runs_safely c core addresses : config_fits c -> Forall user_address addresses ->
  exists ls p, accesses_of core addresses (create c) = Ok (ls, p) /\ length ls = length addresses /\
    Forall (fun l => NoDup l /\ (length l <= Z.to_nat (m_prefetchWidth c) * Z.to_nat (m_prefetchDepth c))%nat) ls.
Proof. intros Hc Hall. destruct (ghb_create_ok c Hc) as [Hs Hl]. by apply (ghb_run core addresses Hall (create c)). Qed.

(** The addresses [a], [a + d], ... *)
Fixpoint stride (a d : Z) (n : nat) : list Z := match n with O => [] | S n' => a :: stride (a + d) d n' end.

Lemma known_stream core d n : forall s, ghb_ok s -> seen d s -> knows d s -> 1 <= m_prefetchWidth (settings s) -> 1 <= m_prefetchDepth (settings s) ->
  Forall user_address (stride (m_lastAddress s) d (S (S n))) ->
  exists ls p, accesses_of core (stride (m_lastAddress s + d) d n) s = Ok (ls, p) /\ length ls = n /\
    forall k l, ls !! k = Some l -> head l = Some (m_lastAddress s + (Z.of_nat k + 2) * d).
Proof.
  induction n as [|n IH]; intros s Hs Hse Hk Hw Hdp Hall; cbn [stride accesses_of]; [by eexists [], _|].
  cbn [stride] in Hall. rewrite !Forall_cons in Hall. destruct Hall as (Hl & Hc & Hc2 & Hall).
  destruct (stride_step d s Hs Hl Hc Hse (or_introl Hk)) as (found & s' & Hn & Hs' & Hl' & Hset & Hse' & Hk' & Hhead).
  rewrite ghb_next, Hn. cbn [rbind].
  destruct (IH s' Hs' Hse' Hk') as (ls & p & Hrun & Hlen & Hls); [by rewrite Hset|by rewrite Hset|cbn [stride]; rewrite Hl', !Forall_cons; done|].
  rewrite Hl' in Hrun, Hls. rewrite Hrun. cbn [rbind]. eexists _, _. split; [done|]. split; [cbn; lia|]. intros [|k] l; cbn [lookup list_lookup].
  - intros [= <-]. rewrite Hhead by done. f_equal. lia.
  - intros Hlk. rewrite (Hls k l Hlk). f_equal. lia.
Qed.

(** The second access: the first delta is in the buffer, the table is empty. *)
Lemma first_delta c a d : config_fits c -> 2 <= m_ghbSize c -> user_address a -> user_address (a + d) ->
  let s := mk c a 0 0 (m_ghb (create c)) 0 (m_ghbTable (create c)) in
  exists found s', Ghb.getNextAddress (a + d) s = Ok (found, s') /\ ghb_ok s' /\ m_lastAddress s' = a + d /\ settings s' = c /\ seen d s' /\
    m_tableHead s' = 0 /\ forall i e, m_ghbTable s' !! i = Some e -> t_delta e = INVALID_DELTA.
Proof.
  intros Hc Hsz Ha Hd s. assert (Hs : ghb_ok s) by (by destruct (ghb_create_ok c Hc) as [[] _]).
  destruct (ghb_next_ok (a + d) s Hs Ha Hd) as (f & found & s2 & _ & _ & Hr & -> & Hs1 & Hs2 & _). cbn [m_lastAddress s] in Hr.
  replace (a + d - a) with d in Hr by lia. cbn [settings m_ghbHead m_generation m_ghb m_tableHead m_ghbTable s] in Hr.
  destruct Hc as [Hg Ht]. unfold INVALID_INDEX in Hg. unfold record_delta, aset in Hr. cbn [m_ghb create] in Hr. rewrite length_replicate in Hr.
  destruct (decide _) as [_|Hn]; [|cbn in Hn; lia]. cbn [rbind settings m_ghbHead m_ghbTable m_generation m_tableHead m_lastAddress Z.ltb] in Hr.
  change (0 <? 0) with false in Hr. cbn [Z.to_nat] in Hr. unfold aget in Hr.
  rewrite u32_small, list_lookup_insert_ne, lookup_replicate_2 in Hr by lia. cbn [of_option rbind delta] in Hr. rewrite Z.eqb_refl in Hr. injection Hr as <-.
  destruct (advance_ok _ Hs2) as (Ha2 & Hset2 & Hl2 & Hghb & Htab & Hb). eexists _, _. split; [done|]. split_and!; [done|by rewrite Hl2|by rewrite Hset2| | |].
  - eexists. rewrite Hghb, Hb. cbn [m_ghb m_ghbHead Z.to_nat]. rewrite list_lookup_insert_eq by (rewrite length_replicate; lia). done.
  - unfold advance. cbn. by destruct (_ =? _).
  - rewrite Htab. cbn. by intros i e [-> _]%lookup_replicate.
Qed.
End ghb.

(** C25: a stream of accesses with a constant stride, up or down, is followed by the
    global history buffer: from the fourth access on, the first address it asks for
    is the one the stream accesses next. *)
Theorem ghb_follows_stride c core a d n :
  config_fits c -> 2 <= Ghb.m_ghbSize c -> 1 <= Ghb.m_prefetchWidth c -> 1 <= Ghb.m_prefetchDepth c ->
  Forall user_address (stride a d (S n)) ->
  exists ls p, accesses_of core (stride a d n) (Ghb.create c) = Ok (ls, p) /\ length ls = n /\
    forall k l, (3 <= k)%nat -> ls !! k = Some l -> head l = Some (a + (Z.of_nat k + 1) * d).
Proof.
  intros Hc Hsz Hw Hdp Hall. destruct n as [|n]; [by eexists [], _|]. cbn [stride accesses_of] in *.
  change (getNextAddress a core (Ghb.create c)) with (Ok (@nil Z, Ghb.mk c a 0 0 (Ghb.m_ghb (Ghb.create c)) 0 (Ghb.m_ghbTable (Ghb.create c)))). cbn [rbind].
  apply Forall_cons in Hall as [Ha Hall]. destruct n as [|n].
  { cbn [stride accesses_of rbind]. eexists _, _. split; [done|]. split; [done|]. intros k l Hk Hl. apply lookup_lt_Some in Hl. simpl in Hl. lia. }
  cbn [stride accesses_of] in *. apply Forall_cons in Hall as [Hb Hall].
  destruct (first_delta c a d Hc Hsz Ha Hb) as (l1 & s1 & Hn1 & Hs1 & Hl1 & Hset1 & Hse1 & Hth & Hempty).
  rewrite ghb_next, Hn1. cbn [rbind]. destruct n as [|n].
  { cbn [stride accesses_of rbind]. eexists _, _. split; [done|]. split; [done|]. intros k l Hk Hl. apply lookup_lt_Some in Hl. simpl in Hl. lia. }
  cbn [stride accesses_of] in *. apply Forall_cons in Hall as [Hcc Hall]. rewrite <- Hl1 in Hb, Hcc, Hall |- *.
  destruct (stride_step d s1 Hs1 Hb Hcc Hse1) as (l2 & s2 & Hn2 & Hs2 & Hl2 & Hset2 & Hse2 & Hk2 & _); [by right|].
  rewrite ghb_next, Hn2. cbn [rbind].
  destruct (known_stream core d n s2 Hs2 Hse2 Hk2) as (ls & p & Hrun & Hlen & Hls); [by rewrite Hset2, Hset1|by rewrite Hset2, Hset1| |].
  { rewrite Hl2. cbn [stride]. by constructor. }
  rewrite Hl2, Hl1 in Hrun, Hls. rewrite Hl1, Hrun. cbn [rbind]. eexists _, _. split; [done|]. split; [cbn; lia|].
  intros [|[|[|k]]] l Hk Hl; [lia..|]. cbn [lookup list_lookup] in Hl. rewrite (Hls k l Hl). f_equal. lia.
Qed.

Lemma ghb_follows_stride_witness :
  exists ls p, accesses_of 0 (stride 4096 (-64) 8) (Ghb.create (Ghb.mkConfig 2 2 4 2)) = Ok (ls, p) /\ length ls = 8%nat /\
    forall k l, (3 <= k)%nat -> ls !! k = Some l -> head l = Some (4096 + (Z.of_nat k + 1) * -64).
Proof.
  apply (ghb_follows_stride (Ghb.mkConfig 2 2 4 2) 0 4096 (-64) 8); [split; vm_compute; split; congruence|vm_compute; congruence..|].
  cbn [stride]. repeat (apply Forall_cons_2; [split; vm_compute; congruence|]). apply Forall_nil_2.
Defined.

(** A distance of the largest number is taken for an empty entry, and the index in that
    entry is outside the buffer. *)
Example ghb_largest_delta :
  fst_ok (accesses_of 0 [0; 0x7fffffffffffffff] (Ghb.create (Ghb.mkConfig 2 2 4 2))) = Err Undefined.
Proof. reflexivity. Qed.

(** * The simple prefetcher is safe *)
Section simple.
Import Simple.
Implicit Types s : t.

Record simple_ok s : Prop := mkSimpleOk {
  so_flows : 1 <= n_flows (settings s) < 2 ^ 32;
  so_next : 0 <= n_flow_next s < n_flows (settings s);
  so_prev : forall i prev, m_prev_address s !! i = Some prev -> Z.of_nat (length prev) = n_flows (settings s) /\ Forall user_address prev
}.

Lemma nearest_ok current prev : user_address current -> Forall user_address prev -> forall i n_flow min_dist,
  exists k, nearest current prev i n_flow min_dist = Ok k /\ (k = n_flow \/ (i <= k < i + length prev)%nat).
Proof.
  intros Hc. induction 1 as [|a prev Ha _ IH]; intros i n_flow min_dist; cbn [nearest length]; [by exists n_flow; split; [|left]|].
  unfold user_address in *. unfold distance. rewrite !s64_small by lia. rewrite (proj2 (Z.ltb_lt _ _)), (proj2 (Z.ltb_lt _ _)) by lia. cbn [andb rguard rbind].
  destruct (_ <? _); [destruct (IH (S i) i (Z.abs (current - a))) as (k & -> & Hk)|destruct (IH (S i) n_flow min_dist) as (k & -> & Hk)];
    exists k; (split; [done|]); [right; lia|destruct Hk; [by left|right; lia]].
Qed.

Lemma prefetches_ok stop current stride n : forall i, (length (prefetches stop current stride i n) <= n)%nat /\
  (stop = true -> Forall (fun a => in_page a current = true) (prefetches stop current stride i n)).
Proof.
  induction n as [|n IH]; intros i; cbn [prefetches]; [done|]. cbv zeta. destruct (IH (S i)) as [Hl Hp]. rewrite length_app. split.
  - destruct (_ || _); simpl; lia.
  - intros ->. specialize (Hp eq_refl). cbn [negb orb]. destruct (in_page _ current) eqn:Hin; [|done]. by constructor.
Qed.

(** An access of a core that shares the cache is answered; at most [num_prefetches]
    addresses are asked for, within the page if so configured, and the first of them
    is the address that was accessed. *)
Theorem simple_step current core s : simple_ok s -> user_address current ->
  is_Some (m_prev_address s !! Z.to_nat (if flows_per_core (settings s) then u64 (core - core_id s) else 0)) ->
  exists l s', Simple.getNextAddress current core s = Ok (l, s') /\ simple_ok s' /\ settings s' = settings s /\
    (length l <= Z.to_nat (num_prefetches (settings s)))%nat /\
    (stop_at_page (settings s) = true -> Forall (fun a => in_page a current = true) l) /\
    (l = [] \/ head l = Some current).
Proof.
  intros [Hf Hn Hp] Hc [prev Hprev]. unfold Simple.getNextAddress. cbv zeta. set (idx := Z.to_nat _) in *. rewrite Hprev. cbn [of_option rbind].
  rewrite (proj2 (Z.eqb_neq _ 0)) by lia. cbn [negb rguard]. destruct (Hp idx prev Hprev) as [Hlen Hall].
  destruct (nearest_ok current prev Hc Hall 0 (Z.to_nat (n_flow_next s)) PAGE_SIZE) as (k & -> & Hk). cbn [rbind].
  destruct (lookup_lt_is_Some_2 prev k) as [a Ha]; [lia|]. unfold aget. rewrite Ha. cbn [of_option rbind]. eexists _, _. split; [done|].
  set (stride := u64 (current - a)). destruct (prefetches_ok (stop_at_page (settings s)) current stride (Z.to_nat (num_prefetches (settings s))) 0) as [Hl Hin].
  split; [|split; [done|]].
  - split; cbn; [done|apply Z.mod_pos_bound; lia|]. intros i l [(<- & <- & _)|[_ Hi]]%list_lookup_insert_Some; [|by apply (Hp i)].
    rewrite length_insert. split; [done|]. by apply Forall_insert.
  - destruct (negb (stride =? 0)); [|split_and!; [simpl; lia|by intros _|by left]]. split_and!; [done|done|].
    destruct (Z.to_nat (num_prefetches (settings s))) as [|n]; [by left|]. right. cbn [prefetches]. cbv zeta.
    change (Z.of_nat 0 * stride) with 0. unfold user_address in Hc. rewrite (u64_small 0), Z.add_0_r, u64_small by lia.
    unfold in_page. rewrite Z.eqb_refl, orb_true_r. done.
Qed.
End simple.
